(* ===== verification/_CoqProject ===== *)
-Q . S2P
Prelude.v
Primitives.v
Record.v
RecordTheory.v
RecordSafety.v
BTree.v
Ratchet.v
RatchetTheory.v
RatchetSafety.v
RatchetAgreement.v
Window.v
Session.v
SessionTheory.v
ServerTheory.v
Admission.v
Exchange.v
Stream.v
Signing.v
Attestation.v
MerkleTheory.v
AttestationTheory.v
Setup.v
SetupTheory.v
Sse.v
SseTheory.v
Text.v
Json.v
Receipt.v
Provisioning.v
ProvisioningTheory.v
Documents.v
Deserialize.v
Approvals.v
ApprovalsTheory.v
Snp.v
SnpTheory.v
Schemes.v
TrustRoot.v
Tlog.v
Tuf.v
CanonicalJson.v
Bundles.v
SdkRelease.v
Releases.v
Provenance.v
Amd.v
Collateral.v
Snapshot.v
Certificates.v
Boot.v
RemoteSigning.v
Http2Pool.v
HttpTypes.v
EncryptedHttp.v
EvidenceClient.v
ReceiptHttp.v
NativeHttp.v
NativeTls.v
EvidenceArchive.v
EncryptedSetup.v
EncryptedClient.v
EncryptedSend.v
Proxy.v
Probe.v
BrowserChannel.v
CustomerEncryption.v
CommandLine.v
Altcha.v
Dashboard.v
Topup.v
GatewayAbi.v
EvidenceAbi.v
Toy.v
ToySystem.v
ChannelWitness.v
SystemWitness.v
EvidenceWitness.v
SigstoreWitness.v
ToySdk.v
SdkWitness.v
