(* ===== verification/Prelude.v ===== *)
(** Stogas verifier: a verification development.

    * The program

    The crate [src/crates/verifier] decides whether a client may talk to a confidential
    inference gateway and protects the conversation. Its parts and how they interact:
    - the root and approval documents ([approvals.rs], [approvals/keys.rs]) name the
      allowed releases and hardware; every decision is signed, logged and ordered;
    - the hardware checks ([lib.rs], [evidence/snp.rs]) compare an AMD SEV-SNP report with
      the approved launch values and the signed hardware policy, and check the certificates,
      releases and certificate requests around it;
    - the networkless verifier ([evidence.rs], [evidence/]) refreshes from signed bundles: it
      keeps one snapshot of approved releases, hardware policy and vendor collateral, the
      learned root decisions and the vendor's revocations, and appraises boots and live
      sessions against them;
    - a gateway quotes many channels with one report ([gateway.rs], [attestation.rs]): the
      report data commits to a Merkle tree of channels, and each peer gets an inclusion
      proof inside its session evidence ([attestation/evidence.rs], [attestation/certificate.rs]);
    - session setup ([channel/setup.rs], [kem.rs]) agrees a secret with the quoted gateway
      and binds it to the evidence; what it agrees starts the sessions below;
    - a session ([channel/session.rs], [channel/server.rs]) allots request numbers, refuses
      replays, and draws one message secret per request and response from the post-quantum
      double ratchet ([channel/ratchet/]); records ([channel/record.rs]) carry a message's
      metadata, data and completion under keys chained from that secret; the decoder
      ([channel/stream.rs]) cuts a byte stream into records;
    - responses carry signed receipts ([receipt.rs], [receipt/http.rs], [signing.rs]), and
      a booted node receives its secrets once ([secret_release.rs], [gateway.rs]);
    - the crate [src/crates/offline-sigstore] verifies Sigstore bundles without a network:
      certificates, timestamps, the transparency log, and trust updates by TUF; releases of
      the SDK itself are verified with it ([sdk_release.rs]).

    The crate [src/crates/sdk] uses them over the network: an evidence client acquires
    snapshots ([evidence_client.rs]) and archives ([evidence_archive.rs]); requests go over
    attested TLS ([native_tls.rs], [http2_pool.rs], [native_http.rs]) or over encrypted
    sessions inside ordinary HTTPS ([encrypted_setup.rs], [encrypted_client.rs],
    [encrypted_http.rs]), with receipts checked as responses arrive ([receipt_http.rs]); a
    loopback endpoint serves applications ([proxy.rs], [lib.rs]) and a probe asks a gateway
    for its admission ([probe.rs]). [src/crates/wasm] runs the channel in a browser,
    [src/crates/ffi] gives C a verifier, and gateways keys, quotes and the server's channel, and
    [src/crates/cli] encrypts customer content, verifies offline, and manages an account and
    its credit.

    * Files

    A file without a separate theory file holds its component's definitions first and their
    theory after them.

    - [Prelude]: results and their notation, bytes, slices, integers, sorting, tactics, hints.
      [Primitives]: the cryptographic libraries as classes of operations ([Kdf], [Aead],
      [Agreement], [Hash], [Random]) with classes of documented laws.
    - [Record] models [channel/mod.rs], [channel/cipher.rs], [channel/record.rs] and
      [record/keys.rs] ([Records] is the direction state, [Records_seal_async] and
      [Records_open_async] its steps with cancellation); [RecordTheory] and [RecordSafety]
      hold its theory.
    - [BTree] gives the ordered map; [Ratchet] models [channel/ratchet/] ([Peer],
      [Peer_send], [Peer_receive], [Peer_expire]); [RatchetTheory], [RatchetSafety],
      [RatchetAgreement] hold its theory.
    - [Window] models the bitmaps of both windows; [Session] models [channel/session.rs]
      and [channel/server.rs] ([Starts], [ClientSession], [ServerSession], readers and
      writers; the mutex-protected [Shared] is threaded explicitly); [SessionTheory],
      [ServerTheory], [Admission], [Exchange] hold its theory.
    - [Stream] models [channel/stream.rs]; [Signing] [signing.rs] and [signing/mldsa.rs];
      [RemoteSigning] the remote signers and log submissions of [signing.rs].
    - [Attestation] models [attestation.rs], [attestation/evidence.rs],
      [attestation/identity.rs], the extension code of [attestation/certificate.rs] and the
      quoting functions of [gateway.rs]; [MerkleTheory] and [AttestationTheory] hold its
      theory.
    - [Setup] models [channel/setup.rs] and [kem.rs]; [SetupTheory] its theory.
    - [Sse] models [receipt/http.rs]; [SseTheory] its theory.
    - [Json] gives JSON values and the canonical forms; [Receipt] models [receipt.rs] and
      [sign_receipt] of [gateway.rs].
    - [Provisioning] models [secret_release.rs] and the one-time key of [gateway.rs];
      [ProvisioningTheory] its theory.
    - [Documents] has the records of [types.rs] and [approvals.rs] with their
      serialization; [Deserialize] their derived deserializers, and that reading is typed
      and inverts writing; [Approvals] models [approvals.rs] and [approvals/keys.rs] over
      the interface [Sigstore] of the offline verifier; [ApprovalsTheory] its theory.
    - [Snp] models the product, report and hardware-policy code of [lib.rs] and
      [evidence/snp.rs]; [SnpTheory] its theory.
    - [Text] gives the strings of the standard library; [Schemes] models [crypto.rs],
      [sct.rs] and [tsa.rs] of the Sigstore crate, [TrustRoot] its [trust_root.rs], [Tlog]
      [tlog.rs] and [hashedrekord.rs], [Tuf] [tuf.rs] with [CanonicalJson], [Bundles]
      [lib.rs] and [sigstore.rs]; [SdkRelease] models [sdk_release.rs]. [Provenance]
      instantiates the interface [Sigstore] with them.
    - [Releases] models the release manifests and provenance of [lib.rs]; [Amd] its
      collateral rows, certificate chains, VCEK extensions and signatures over the interface
      [X509]; [Certificates] its certificate requests and [attestation/certificate.rs] over
      [Pkcs10].
    - [Collateral] models [evidence/collateral.rs] and [evidence/amd.rs] ([Issuers] is the
      map behind the lock, [Store] the verified platforms); [Snapshot] models [evidence.rs]
      ([Verifier], [Snapshot], [refresh_observed] with its reports); [Boot] models
      [evidence/boot.rs], [evidence/session.rs], [evidence/history.rs], the report check of
      [evidence/snp.rs] and the boot producers of [gateway.rs].
    - [Http2Pool] models [http2_pool.rs] as steps under its lock.
    - [HttpTypes] has messages and header maps; [EncryptedHttp] models [encrypted_http.rs],
      [EvidenceClient] [evidence_client.rs], [ReceiptHttp] [receipt_http.rs], [NativeHttp]
      [native_http.rs], [NativeTls] [native_tls.rs] with [native_tls/traffic.rs],
      [EvidenceArchive] [evidence_archive.rs] and the summaries of evidence, [EncryptedSetup] [encrypted_setup.rs],
      [EncryptedClient] and [EncryptedSend] [encrypted_client.rs], [Proxy] [proxy.rs] and
      [upstream.rs], [Probe] [probe.rs] and the handle of [lib.rs].
    - [BrowserChannel] models [wasm/src/channel.rs], [wasm/src/channel/request.rs] and
      [wasm/src/host_cipher.rs], [CustomerEncryption] [cli/src/customer_encryption.rs],
      [CommandLine] the verifying commands of [cli/src/main.rs] and [cli/src/sdk_release.rs].
    - [Altcha] models the proof of work of [cli/src/altcha.rs] as threads on a shared search;
      [Dashboard] [cli/src/dashboard.rs], [credentials.rs] and [account.rs] over a [World] of a
      network, a keychain and a terminal; [Topup] [cli/src/topup.rs] over the same.
    - [GatewayAbi] models [ffi/src/gateway.rs] and [ffi/src/gateway/channel.rs] over a memory of
      arrays, buffers and owners; undefined behaviour is the absence of a result, and the
      safety comments are the contracts [gateway_contract] and [channel_contract].
      [EvidenceAbi] models [ffi/src/lib.rs], [ffi/src/evidence.rs] and
      [ffi/src/evidence/history.rs] over the same memory.
    - [Toy], [ToySystem], [EvidenceWitness], [SigstoreWitness] and [ToySdk] instantiate every
      parameter with small executable functions, prove their laws and run the program end to
      end; they, [ChannelWitness], [SystemWitness] and [SdkWitness] evaluate the theorems
      with hypotheses on concrete inputs.

    * What the theorems show

    - Channel: the first exchange of a session completes ([first_exchange]); no request is
      accepted twice ([replay_protection]) and none that the client still awaits is refused
      by the replay window ([awaited_start_admissible]); message keys are released once and
      agree on both sides ([message_keys_once], [conversation_agrees]); rejected messages
      have no effect; nonces never repeat ([nonces_never_repeat]); the record state machine
      accepts exactly the protocol's uploads ([upload_language]), delivers them and stays
      within its limits; framing does not depend on fragmentation
      ([fragmentation_irrelevant]); the number window refines a set ([starts_refine]).
    - Attestation and setup: issued proofs verify and verified proofs bind their channel;
      evidence encodings round-trip and are unique; a setup completes only with accepted,
      bound evidence and proof of possession, at most once, and honest sides agree.
    - Responses: the stream filter terminates, is independent of fragmentation, accepts every
      well-formed stream, and an accepted receipt covers exactly the delivered content.
    - Provisioning reaches one boot once. Decisions never roll back; the learned key state
      is a function of what was seen; candidates are authentic.
    - Hardware: allowed launch policies are characterised bit by bit; an accepted report
      has every expected field and meets a whole profile of the signed policy, byte by byte
      ([report_accepted_sound]); report versions 3 and 4 cannot be
      accepted; a VCEK serves one platform.
    - Evidence: releases are authentic and their tags determine their sequence; refreshes are
      atomic, installed snapshots list exactly what their decision approves whatever was cached, and
      nothing rolls back, the revocations in any interleaving included; a platform is
      appraised only with a current chain whose own root's list is unconflicted and does not
      revoke it; a native session is accepted only with a logged boot, a live report
      of the same boot and a bound channel; rechecks, certificate requests and boot
      documents have their own theorems.
    - Sigstore: the iterative inclusion check accepts exactly the paths of the recursive
      tree; an accepted attestation has the expected subjects, identity and log entry; trust
      updates descend from the compiled root; SDK releases are signed and built by the parties
      that the certificate's own bytes name ([sdk_release_sound]).
    - Client: a TLS connection is handed over only with live evidence for its own challenge
      ([native_connection_attested]), checked again after the handshake, and no encrypted
      request leaves without evidence that is good under the snapshot published when it was
      prepared ([encrypted_send_attested]); a request runs at most once over either transport
      ([native_send_once], [encrypted_send_once]); uploads are complete and what a consumer
      reads to its end is exactly the authenticated response; failures are reported
      honestly with one exception ([completion_misreported]); requests are forwarded with
      exactly their headers, method and body ([forwarded_exactly]); pages without the capability
      read nothing; pool accounts are exact and no wake-up is lost; archived evidence is
      authentic ([archive_authentic]) and its published split rebuilds it; a probe is ready
      only for an attested gateway; a stopped transport stays stopped.
    - Browser and command line: the keys of a browser request have one owner and every
      failure consumes them ([browser_keys_owned]); its receipt covers exactly the upload;
      customer envelopes open to what was sealed and no existing file is changed; a receipt
      accepted offline covers the given files ([proof_sound]) and an accepted release
      directory holds nothing but the release ([release_directory_sound]). The browser's cipher
      is AES-GCM or nothing and discharges the interface of the record layer
      ([host_cipher_exact], [host_cipher_laws]). A proof of work is exact and its search ends;
      a sign-in never loses a working token ([save_replaces]) and requests go to the fixed
      origin only ([requests_confined]); shown amounts are the exact ones rounded
      ([cents_rounds]) and a top-up pays and waits for its own payment.
    - C interface: under its safety comments no call, and no sequence of calls, is undefined
      ([calls_defined]), a failed call leaves nothing allocated ([gateway_call_defined],
      [channel_call_defined], [evidence_call_defined]), seeds are erased ([seeds_erased]), a
      returned offset delimits the plaintext ([opened_plaintext_located]), and a snapshot is
      checked against what its verifier learned since ([learned_reaches_snapshots]).
    - Publication: joined remote signatures verify ([remote_signature_verifies]) and a prepared
      log submission passes the verifier's own check ([submission_binds]).

    * Conventions, bounds and fuel

    Machine integers are [Z] with their bounds in guards and invariants; wrap-around is
    written out where the code can reach it. Fallible code returns [result]; mutable
    receivers are returned with the outcome; generators of randomness are threaded. Shared
    state behind a lock is passed explicitly, one step per critical section. Loops that are
    not structural take fuel that is shown or evidently enough: the decoder and the stream
    filter use a measure of their buffered bytes, and [SseTheory] shows its fuel is never
    exhausted; the tree functions use the number of leaves; [skip_levels] has 16 steps
    because indices have 16 bits; decimal texts 20 digits. Hypotheses on libraries are laws
    of classes: lengths, correctness of honest use, and for [verified_proof_binds] absence of
    collisions among the strings actually hashed.

    What the network, the peer, the HTTP and TLS libraries, the clocks and the other tasks of
    a client do is a parameter of each run: theorems hold for every such run. Turns of a
    waiting request are a list that ends at its deadline; a callback, a free or a dropped
    future is an entry of a schedule; completion orders are functions on lists.

    * Not modelled, and why

    Erasure of memory, allocation failure, lock poisoning and constant-time comparison have
    no counterpart in a functional model. Error texts are kept to their literal parts, and
    what is only shown is left out. X.509, PKCS #10, ASN.1, CMS and JSON parsing, the [sev]
    crate and the cryptographic primitives are third-party code and parameters; header maps
    follow the documented behaviour of the [http] crate ([HttpTypes]). Of the
    client, the listener loop of the endpoint with its signals, the TLS configuration of
    downloads, worker threads and the notification of waiters (beyond [no_lost_wakeup]) are
    outside the model, and while one exchange runs other exchanges of its session do not
    interleave with its records. Of the command line, the parsing of arguments and what goes to
    standard error are left out. The C interface of the transport, the Python and JavaScript
    bindings and the browser's operator functions only convert values to the modelled operations
    and their results to JSON. *)

From stdpp Require Export base tactics list sorting gmap.
From Stdlib Require Export ZArith Lia Strings.Byte.
From Stdlib Require Strings.String.
Export String.StringSyntax.

Open Scope Z_scope.

(** ** Results *)

(** Rust's [Result<A, E>]. *)
Inductive result (A E : Type) : Type :=
| Ok (a : A)
| Err (e : E).
Arguments Ok {A E} a.
Arguments Err {A E} e.

#[export] Instance result_eq_dec {A E} `{EqDecision A, EqDecision E} : EqDecision (result A E).
Proof. solve_decision. Defined.

Declare Scope result_scope.
Delimit Scope result_scope with result.
Open Scope result_scope.

(** The question mark operator: bind that propagates the error unchanged. *)
Notation "'let?' x := e 'in' k" :=
  (match e with Ok x => k | Err err => Err err end)
  (at level 10, x pattern, e at level 200, k at level 200) : result_scope.

Definition ok_or {A E} (o : option A) (e : E) : result A E :=
  match o with Some a => Ok a | None => Err e end.

Definition map_err {A E F} (f : E -> F) (r : result A E) : result A F :=
  match r with Ok a => Ok a | Err e => Err (f e) end.

(** A guard clause [if c { return Err(e) }]. *)
Notation "'reject' c 'with' e ';' k" := (if c then Err e else k)
  (at level 10, c at level 200, e at level 200, k at level 200) : result_scope.

(** [collect] into the first error. *)
Fixpoint mapR {A B E} (f : A -> result B E) (l : list A) : result (list B) E :=
  match l with
  | [] => Ok []
  | x :: l => let? y := f x in let? ys := mapR f l in Ok (y :: ys)
  end.

(** A loop that threads a state through fallible turns. *)
Fixpoint foldR {A S E} (f : S -> A -> result S E) (s : S) (l : list A) : result S E :=
  match l with
  | [] => Ok s
  | x :: l => let? s := f s x in foldR f s l
  end.

Lemma mapR_ok {A B E} (f : A -> result B E) l r :
  mapR f l = Ok r -> Forall2 (fun x y => f x = Ok y) l r.
Proof.
  revert r. induction l as [|x l IH]; intros r; simpl; [intros [= <-]; constructor|].
  destruct (f x) as [y|] eqn:Hy; [|done]. destruct (mapR f l) as [ys|]; [|done]. intros [= <-]. constructor; auto.
Qed.

(** ** Bytes and machine integers *)

Abbreviation bytes := (list byte).

#[export] Instance byte_eq_decision : EqDecision byte := Byte.byte_eq_dec.

(** A byte-string literal, Rust's [b"..."]. *)
Definition ascii (s : String.string) : bytes := String.list_byte_of_string s.
Arguments ascii s%_string_scope.

(** Lengths are [usize] values; every length of the program fits 64 bits. *)
Definition zlen {A} (l : list A) : Z := Z.of_nat (length l).

Definition u16_max : Z := 65535.
Definition u32_max : Z := 4294967295.
Definition u64_max : Z := 18446744073709551615.

Definition byte_to_Z (b : byte) : Z := Z.of_N (Byte.to_N b).
Definition byte_of_Z (z : Z) : byte :=
  match Byte.of_N (Z.to_N (z mod 256)) with Some b => b | None => x00 end.

Definition zeros (n : Z) : bytes := replicate (Z.to_nat n) x00.

(** Slices [&l[a..b]], with the bounds as [usize] values. *)
Definition slice {A} (l : list A) (a b : Z) : list A :=
  take (Z.to_nat (b - a)) (drop (Z.to_nat a) l).
Definition slice_to {A} (l : list A) (b : Z) : list A := take (Z.to_nat b) l.
Definition slice_from {A} (l : list A) (a : Z) : list A := drop (Z.to_nat a) l.

(** [to_be_bytes] of an [n]-byte unsigned integer and its inverse. *)
Fixpoint be_bytes (n : nat) (z : Z) : bytes :=
  match n with
  | O => []
  | S n' => be_bytes n' (z / 256) ++ [byte_of_Z z]
  end.
Definition be_value (l : bytes) : Z :=
  fold_left (fun acc b => acc * 256 + byte_to_Z b) l 0.

Abbreviation u16_be := (be_bytes 2).
Abbreviation u32_be := (be_bytes 4).
Abbreviation u64_be := (be_bytes 8).

(** ** Lemmas on bytes and integers *)

Lemma byte_to_Z_range (b : byte) : 0 <= byte_to_Z b < 256.
Proof. unfold byte_to_Z. pose proof (Byte.to_N_bounded b). lia. Qed.

Lemma byte_of_Z_to_Z (b : byte) : byte_of_Z (byte_to_Z b) = b.
Proof.
  unfold byte_of_Z. rewrite Z.mod_small by apply byte_to_Z_range.
  unfold byte_to_Z. by rewrite N2Z.id, Byte.of_to_N.
Qed.

Lemma byte_to_of_Z (z : Z) : byte_to_Z (byte_of_Z z) = z mod 256.
Proof.
  unfold byte_of_Z. pose proof (Z.mod_pos_bound z 256 ltac:(lia)).
  destruct (Byte.of_N _) as [b|] eqn:E.
  - apply Byte.to_of_N in E. unfold byte_to_Z. lia.
  - apply Byte.of_N_None_iff in E. lia.
Qed.

Lemma zlen_nonneg {A} (l : list A) : 0 <= zlen l.
Proof. unfold zlen. lia. Qed.

Lemma zlen_nil {A} : zlen (@nil A) = 0.
Proof. done. Qed.

Lemma zlen_cons {A} (x : A) l : zlen (x :: l) = 1 + zlen l.
Proof. unfold zlen. simpl. lia. Qed.

Lemma zlen_app {A} (l k : list A) : zlen (l ++ k) = zlen l + zlen k.
Proof. unfold zlen. rewrite length_app. lia. Qed.

Lemma zlen_zeros n : 0 <= n -> zlen (zeros n) = n.
Proof. intros. unfold zlen, zeros. rewrite length_replicate. lia. Qed.

Lemma zlen_0_nil {A} (l : list A) : zlen l = 0 -> l = [].
Proof. destruct l; [done|]. rewrite zlen_cons. pose proof (zlen_nonneg l). lia. Qed.

Lemma zlen_slice {A} (l : list A) a b :
  0 <= a -> a <= b -> b <= zlen l -> zlen (slice l a b) = b - a.
Proof. unfold zlen, slice. intros. rewrite length_take, length_drop. lia. Qed.

Lemma zlen_slice_to {A} (l : list A) b : 0 <= b <= zlen l -> zlen (slice_to l b) = b.
Proof. unfold zlen, slice_to. intros. rewrite length_take. lia. Qed.

Lemma zlen_slice_from {A} (l : list A) a :
  0 <= a <= zlen l -> zlen (slice_from l a) = zlen l - a.
Proof. unfold zlen, slice_from. intros. rewrite length_drop. lia. Qed.

Lemma slice_to_from {A} (l : list A) n : slice_to l n ++ slice_from l n = l.
Proof. apply take_drop. Qed.

Lemma slice_to_app {A} (l k : list A) n : n = zlen l -> slice_to (l ++ k) n = l.
Proof. intros ->. unfold slice_to, zlen. apply take_app_length'. lia. Qed.

Lemma slice_from_app {A} (l k : list A) n : n = zlen l -> slice_from (l ++ k) n = k.
Proof. intros ->. unfold slice_from, zlen. apply drop_app_length'. lia. Qed.

Lemma slice_from_app_ge {A} (l k : list A) n :
  zlen l <= n -> slice_from (l ++ k) n = slice_from k (n - zlen l).
Proof.
  intros. unfold slice_from, zlen in *. rewrite drop_app_ge by lia. f_equal. lia.
Qed.

Lemma slice_0 {A} (l : list A) b : slice l 0 b = slice_to l b.
Proof. unfold slice, slice_to. simpl. by rewrite Z.sub_0_r. Qed.

Lemma slice_app_skip {A} (l k : list A) a b :
  zlen l <= a -> slice (l ++ k) a b = slice k (a - zlen l) (b - zlen l).
Proof.
  intros. unfold slice, zlen in *. rewrite drop_app_ge by lia.
  f_equal; [lia|]. f_equal. lia.
Qed.

Lemma slice_app_here {A} (l k : list A) b :
  b = zlen l -> slice (l ++ k) 0 b = l.
Proof. intros. rewrite slice_0. by apply slice_to_app. Qed.

Lemma length_be_bytes n z : length (be_bytes n z) = n.
Proof. revert z. induction n; intros; simpl; [done|]. rewrite length_app, IHn. simpl. lia. Qed.

Lemma zlen_be_bytes n z : zlen (be_bytes n z) = Z.of_nat n.
Proof. unfold zlen. by rewrite length_be_bytes. Qed.

Lemma be_value_snoc l b : be_value (l ++ [b]) = be_value l * 256 + byte_to_Z b.
Proof. unfold be_value. by rewrite fold_left_app. Qed.

Lemma be_value_range l : 0 <= be_value l < 256 ^ zlen l.
Proof.
  induction l as [|b l IH] using rev_ind; [by cbv|].
  rewrite be_value_snoc, zlen_app. change (zlen [b]) with 1.
  pose proof (byte_to_Z_range b). pose proof (zlen_nonneg l).
  rewrite Z.pow_add_r by lia. lia.
Qed.

Lemma be_value_cons b l : be_value (b :: l) = byte_to_Z b * 256 ^ zlen l + be_value l.
Proof.
  induction l as [|c l IH] using rev_ind; [rewrite zlen_nil; unfold be_value; cbn [fold_left]; lia|].
  rewrite app_comm_cons, !be_value_snoc, IH, zlen_app. change (zlen [c]) with 1.
  pose proof (zlen_nonneg l). rewrite Z.pow_add_r by lia. lia.
Qed.

Lemma be_value_bytes n z : be_value (be_bytes n z) = z mod 256 ^ Z.of_nat n.
Proof.
  revert z. induction n as [|n IH]; intros z; simpl be_bytes.
  - by rewrite Z.mod_1_r.
  - rewrite be_value_snoc, IH, byte_to_of_Z.
    rewrite Nat2Z.inj_succ, Z.pow_succ_r by lia.
    rewrite Z.rem_mul_r by lia. lia.
Qed.

Lemma be_value_bytes_small n z :
  0 <= z < 256 ^ Z.of_nat n -> be_value (be_bytes n z) = z.
Proof. intros. rewrite be_value_bytes. by apply Z.mod_small. Qed.

Lemma be_bytes_value l : be_bytes (length l) (be_value l) = l.
Proof.
  induction l as [|b l IH] using rev_ind; [done|].
  rewrite length_app, be_value_snoc. simpl. rewrite Nat.add_comm. simpl.
  pose proof (byte_to_Z_range b).
  rewrite Z.add_comm, Z.div_add, Z.div_small, Z.add_0_l, IH by lia.
  f_equal. rewrite <- (byte_of_Z_to_Z b) at 2. unfold byte_of_Z at 1 2.
  by rewrite Z.mod_add, Z.mod_small by lia.
Qed.

Lemma be_bytes_inj n y z :
  0 <= y < 256 ^ Z.of_nat n -> 0 <= z < 256 ^ Z.of_nat n ->
  be_bytes n y = be_bytes n z -> y = z.
Proof.
  intros Hy Hz E. apply (f_equal be_value) in E.
  by rewrite !be_value_bytes_small in E.
Qed.

(** ** Automation *)

Create HintDb stogas.

Create Rewrite HintDb zlen.

#[export] Hint Rewrite @zlen_app @zlen_cons @zlen_nil zlen_be_bytes : zlen.
#[export] Hint Resolve zlen_nonneg byte_to_Z_range be_value_range : stogas.

(** Normalises lengths and closes linear goals about them. *)
Ltac zlen_norm := autorewrite with zlen in *.
Ltac zlen_lia :=
  zlen_norm;
  repeat match goal with
  | |- context [zlen ?l] => lazymatch goal with
      | _ : 0 <= zlen l |- _ => fail
      | _ => pose proof (zlen_nonneg l) end
  | _ : context [zlen ?l] |- _ => lazymatch goal with
      | _ : 0 <= zlen l |- _ => fail
      | _ => pose proof (zlen_nonneg l) end
  end; lia.

(** Splits the conditions and matches of a definition under a hypothesis or the goal. *)
Ltac case_step :=
  match goal with
  | |- context [match ?x with _ => _ end] => destruct x eqn:?
  | H : context [match ?x with _ => _ end] |- _ => destruct x eqn:?
  end.
Ltac case_all := repeat (case_step; cbn beta match in *; simplify_eq; try done).

Lemma forallb_all {A} (f : A -> bool) l : forallb f l = true -> Forall (fun x => f x = true) l.
Proof. rewrite forallb_forall, Forall_forall. intros Hf x Hin. by apply Hf, list_elem_of_In. Qed.

Lemma ok_or_ok {A E} (o : option A) (e : E) a : ok_or o e = Ok a <-> o = Some a.
Proof. destruct o; simpl; split; congruence. Qed.

Lemma map_err_ok {A E F} (f : E -> F) (r : result A E) a : map_err f r = Ok a <-> r = Ok a.
Proof. destruct r; simpl; split; congruence. Qed.

(** Take the success branch of the [let?], or the passing branch of the [reject], that a
    hypothesis [... = Ok _] starts with. *)
Tactic Notation "pass" hyp(H) "as" simple_intropattern(p) "by" ident(E) :=
  lazymatch type of H with match ?e with Ok _ => _ | Err _ => _ end = Ok _ =>
    destruct e as [p|?] eqn:E; [|discriminate H]; cbn beta match in H
  end; try apply ok_or_ok in E; try apply map_err_ok in E.
Tactic Notation "pass" hyp(H) "by" ident(E) :=
  lazymatch type of H with (if ?c then _ else _) = Ok _ => destruct c eqn:E; [discriminate H|] end.

(** Turns boolean tests on [Z] into propositions. *)
Ltac zbool :=
  repeat match goal with
  | H : _ && _ = true |- _ => apply andb_true_iff in H as [? ?]
  | H : _ || _ = false |- _ => apply orb_false_iff in H as [? ?]
  | H : negb _ = true |- _ => apply negb_true_iff in H
  | H : negb _ = false |- _ => apply negb_false_iff in H
  | H : (_ =? _) = true |- _ => apply Z.eqb_eq in H
  | H : (_ =? _) = false |- _ => apply Z.eqb_neq in H
  | H : (_ <? _) = true |- _ => apply Z.ltb_lt in H
  | H : (_ <? _) = false |- _ => apply Z.ltb_ge in H
  | H : (_ <=? _) = true |- _ => apply Z.leb_le in H
  | H : (_ <=? _) = false |- _ => apply Z.leb_gt in H
  | H : bool_decide _ = true |- _ => apply bool_decide_eq_true in H
  | H : bool_decide _ = false |- _ => apply bool_decide_eq_false in H
  end.

(** Tactics keep integer encodings folded; evaluation still computes them. *)
#[global] Opaque be_bytes.
#[global] Arguments zeros : simpl never.
#[global] Arguments slice : simpl never.
#[global] Arguments slice_to : simpl never.
#[global] Arguments slice_from : simpl never.
#[global] Arguments zlen : simpl never.
#[global] Arguments be_value : simpl never.

(** ** Sorting and counting *)

(** The stable sort of Rust's slices by an integer key ([sort_by_key]) permutes, orders by key, and keeps the order of
    equal keys. *)

Section Sort.
Context {A : Type} (key : A -> Z).

(** Insert before the first element with a key that is not smaller: equal keys keep order
    because elements are inserted from the last to the first. *)
Fixpoint insert_by_key (x : A) (l : list A) : list A :=
  match l with
  | [] => [x]
  | y :: l' => if key x <=? key y then x :: l else y :: insert_by_key x l'
  end.

Fixpoint sort_by_key (l : list A) : list A :=
  match l with
  | [] => []
  | x :: l => insert_by_key x (sort_by_key l)
  end.

Definition key_order (x y : A) : Prop := key x <= key y.

Lemma insert_by_key_perm x l : insert_by_key x l ≡ₚ x :: l.
Proof.
  induction l as [|y l IH]; simpl; [done|]. case_match; [done|]. rewrite IH. apply perm_swap.
Qed.

Lemma sort_by_key_perm l : sort_by_key l ≡ₚ l.
Proof. induction l as [|x l IH]; simpl; [done|]. by rewrite insert_by_key_perm, IH. Qed.

Lemma insert_by_key_sorted x l :
  StronglySorted key_order l -> StronglySorted key_order (insert_by_key x l).
Proof.
  induction 1 as [|y l Hs IH Hy]; simpl; [by repeat constructor|].
  destruct (key x <=? key y) eqn:E; zbool.
  - constructor; [by constructor|]. constructor; [done|].
    eapply Forall_impl; [exact Hy|]. unfold key_order. simpl. intros. lia.
  - constructor; [done|]. rewrite insert_by_key_perm. constructor; [|done]. unfold key_order. lia.
Qed.

Lemma sort_by_key_sorted l : StronglySorted key_order (sort_by_key l).
Proof. induction l; simpl; [constructor|]. by apply insert_by_key_sorted. Qed.

Lemma elem_of_sort_by_key x l : x ∈ sort_by_key l <-> x ∈ l.
Proof. by rewrite sort_by_key_perm. Qed.

(** Elements of one key keep their order. *)
Lemma insert_by_key_filter k x l :
  filter (fun y => key y = k) (insert_by_key x l) = filter (fun y => key y = k) (x :: l).
Proof.
  induction l as [|y l IH]; [done|]. simpl insert_by_key.
  destruct (key x <=? key y) eqn:E; [done|]. zbool.
  rewrite filter_cons, IH, !filter_cons. repeat case_decide; try done; lia.
Qed.

Lemma sort_by_key_stable k l :
  filter (fun y => key y = k) (sort_by_key l) = filter (fun y => key y = k) l.
Proof.
  induction l as [|x l IH]; [done|]. simpl sort_by_key. rewrite insert_by_key_filter.
  rewrite !filter_cons. by rewrite IH.
Qed.
End Sort.

(** * Theory

    Counts over the guards that are alive in the client's tasks: waiting bytes, and leases on
    a connection or session, with the list facts the pool and the sessions share. *)

Lemma zlen_filter {A} (P : A -> Prop) `{forall x, Decision (P x)} (l : list A) :
  zlen (filter P l) <= zlen l.
Proof. unfold zlen. pose proof (length_filter P l). lia. Qed.

Lemma filter_ext_in {A} (P Q : A -> Prop) `{forall x, Decision (P x), forall x, Decision (Q x)} (l : list A) :
  (forall x, x ∈ l -> P x <-> Q x) -> filter P l = filter Q l.
Proof.
  induction l as [|x l IH]; intros Hl; [done|]. rewrite !filter_cons.
  pose proof (Hl x ltac:(left)). rewrite IH by (intros; apply Hl; by right).
  repeat case_decide; tauto.
Qed.

Lemma zlen_filter_le {A} (P Q : A -> Prop) `{forall x, Decision (P x), forall x, Decision (Q x)} (l : list A) :
  (forall x, x ∈ l -> P x -> Q x) -> zlen (filter P l) <= zlen (filter Q l).
Proof.
  unfold zlen. induction l as [|x l IH]; intros Hl; [done|]. rewrite !filter_cons.
  specialize (IH ltac:(intros; apply Hl; [by right|done])). pose proof (Hl x ltac:(left)).
  repeat case_decide; simpl; try lia. tauto.
Qed.

Lemma zlen_filter_filter {A} (P Q : A -> Prop) `{forall x, Decision (P x), forall x, Decision (Q x)} (l : list A) :
  zlen (filter P (filter Q l)) <= zlen (filter P l).
Proof.
  unfold zlen. induction l as [|c l IH]; [done|].
  rewrite !filter_cons. case_decide; rewrite ?filter_cons; repeat case_decide; simpl; lia.
Qed.

Lemma zlen_filter_one {A} (P : A -> Prop) `{forall x, Decision (P x)} (x : A) : zlen (filter P [x]) <= 1.
Proof. rewrite filter_cons. case_decide; unfold zlen; simpl; lia. Qed.

Lemma strongly_sorted_before {A} (R : A -> A -> Prop) l1 x l2 y :
  StronglySorted R (l1 ++ x :: l2) -> y ∈ l2 -> R x y.
Proof.
  induction l1 as [|z l1 IH]; simpl; intros Hs; inversion Hs; subst; [|auto].
  rewrite Forall_forall in *. auto.
Qed.

(** Waiting bytes. *)
Definition total (ws : list Z) : Z := foldr Z.add 0 ws.

Lemma total_app ws ws' : total (ws ++ ws') = total ws + total ws'.
Proof. unfold total. induction ws; simpl; lia. Qed.
Lemma total_nonneg ws : Forall (Z.le 0) ws -> 0 <= total ws.
Proof. unfold total. induction 1; simpl; lia. Qed.

(** The leases on one shared object, each with its number of holders. *)
Definition held (ls : list (nat * nat)) (c : nat) : Z := zlen (filter (fun l => fst l = c) ls).

Lemma held_app ls ls' c : held (ls ++ ls') c = held ls c + held ls' c.
Proof. unfold held. by rewrite filter_app, zlen_app. Qed.
Lemma held_cons l ls c : held (l :: ls) c = (if decide (fst l = c) then 1 else 0) + held ls c.
Proof. unfold held. rewrite filter_cons. case_decide; unfold zlen; simpl; lia. Qed.
Lemma held_nonneg ls c : 0 <= held ls c.
Proof. apply zlen_nonneg. Qed.
Lemma held_none ls c : Forall (fun l => fst l <> c) ls -> held ls c = 0.
Proof. induction 1; [done|]. rewrite held_cons, decide_False by done. lia. Qed.
