(* ===== verification/Primitives.v ===== *)
(** Cryptographic primitives and platform services the crates only call:
    HKDF, AES-256-GCM, X25519, ML-KEM-768, SHA-2 and the system random
    generator. Each is a class whose operations are parameters of the model;
    the laws state documented behaviour of the libraries and are separate
    classes, so that a definition never depends on a law. *)

From S2P Require Import Prelude.

Open Scope Z_scope.

(** [hkdf::Hkdf] over SHA-256 (from a pseudorandom key) and SHA-512 (extract and
    expand); [expand_multi_info] hashes the concatenation of its parts. *)
Class Kdf := {
  hkdf_sha256_expand : bytes -> bytes -> Z -> option bytes;
  hkdf_sha512_expand : option bytes -> bytes -> bytes -> Z -> option bytes
}.

(** RFC 5869: outputs have the requested length, and every request up to 255
    hash blocks succeeds (from a pseudorandom key of at least one block). *)
Class KdfLaws `{Kdf} : Prop := {
  hkdf_sha256_length prk info n out :
    0 <= n -> hkdf_sha256_expand prk info n = Some out -> zlen out = n;
  hkdf_sha256_total prk info n :
    32 <= zlen prk -> 0 <= n <= 255 * 32 -> is_Some (hkdf_sha256_expand prk info n);
  hkdf_sha512_length salt ikm info n out :
    0 <= n -> hkdf_sha512_expand salt ikm info n = Some out -> zlen out = n;
  hkdf_sha512_total salt ikm info n :
    0 <= n <= 255 * 64 -> is_Some (hkdf_sha512_expand salt ikm info n)
}.

(** [aes_gcm::Aes256Gcm]: detached sealing and opening with a 96-bit nonce. *)
Class Aead := {
  gcm_seal (key nonce aad plaintext : bytes) : option (bytes * bytes);
  gcm_open (key nonce aad ciphertext tag : bytes) : option bytes
}.

(** GCM keeps lengths, has 128-bit tags, accepts every plaintext below its
    2^36 byte limit, and a ciphertext opens to a plaintext exactly when sealing
    that plaintext produces it. *)
Class AeadLaws `{Aead} : Prop := {
  gcm_seal_lengths key nonce aad pt ct tag :
    gcm_seal key nonce aad pt = Some (ct, tag) -> zlen ct = zlen pt /\ zlen tag = 16;
  gcm_seal_total key nonce aad pt :
    zlen pt <= 2 ^ 36 - 32 -> is_Some (gcm_seal key nonce aad pt);
  gcm_open_seal key nonce aad pt ct tag :
    gcm_seal key nonce aad pt = Some (ct, tag) -> gcm_open key nonce aad ct tag = Some pt;
  gcm_seal_open key nonce aad pt ct tag :
    gcm_open key nonce aad ct tag = Some pt -> gcm_seal key nonce aad pt = Some (ct, tag)
}.

(** [libcrux_curve25519] and [libcrux_ml_kem::mlkem768]. *)
Class Agreement := {
  x25519_clamp : bytes -> bytes;
  x25519_public : bytes -> bytes;
  x25519_ecdh (point scalar : bytes) : option bytes;
  mlkem_generate (seed : bytes) : bytes * bytes;
  mlkem_encapsulate (public random : bytes) : bytes * bytes;
  mlkem_decapsulate (private ciphertext : bytes) : bytes;
  mlkem_validate (public : bytes) : bool
}.

(** Encoded sizes, validity of generated keys, and the Diffie-Hellman identity;
    honest keys never share the rejected all-zero point, since a clamped scalar is no
    multiple of the group order. *)
Class AgreementLaws `{Agreement} : Prop := {
  x25519_public_length s : zlen (x25519_public s) = 32;
  mlkem_public_length seed : zlen (mlkem_generate seed).2 = 1184;
  mlkem_ciphertext_length pk r : zlen (mlkem_encapsulate pk r).1 = 1088;
  mlkem_generated_valid seed : mlkem_validate (mlkem_generate seed).2 = true;
  x25519_commutes a b :
    x25519_ecdh (x25519_public (x25519_clamp a)) (x25519_clamp b) =
    x25519_ecdh (x25519_public (x25519_clamp b)) (x25519_clamp a);
  x25519_honest a b : is_Some (x25519_ecdh (x25519_public (x25519_clamp a)) (x25519_clamp b))
}.

(** SHA-2 as functions of the whole message; incremental hashing of parts is
    hashing of their concatenation. *)
Class Hash := {
  sha256 : bytes -> bytes;
  sha512 : bytes -> bytes
}.

Class HashLaws `{Hash} : Prop := {
  sha256_length m : zlen (sha256 m) = 32;
  sha512_length m : zlen (sha512 m) = 64
}.

(** [getrandom::fill]: the generator's state is threaded through every draw. *)
Class Random := {
  rng : Type;
  rng_fill (g : rng) (n : Z) : rng * option bytes
}.

Class RandomLaws `{Random} : Prop := {
  rng_fill_length g n g' out : 0 <= n -> rng_fill g n = (g', Some out) -> zlen out = n
}.

(** A platform whose generator never fails. *)
Class RandomTotal `{Random} : Prop := {
  rng_fill_total g n : is_Some (rng_fill g n).2
}.

(** Decapsulation recovers the encapsulated secret for every generated key. FIPS
    203 gives a failure probability below 2^-160; here failures do not occur. *)
Class KemCorrect `{Agreement} : Prop := {
  mlkem_correct seed r :
    mlkem_decapsulate (mlkem_generate seed).1 (mlkem_encapsulate (mlkem_generate seed).2 r).1 =
    (mlkem_encapsulate (mlkem_generate seed).2 r).2
}.
