(* ===== verification/Record.v ===== *)
(** Encrypted record layer: [channel/mod.rs] (errors, record kinds, directions),
    [channel/cipher.rs] (the AES-GCM backend interface and its software
    implementation), [channel/record/keys.rs] (the one-way directional chain)
    and [channel/record.rs] (framing, ordering, bounds, sealing and opening). *)

From S2P Require Import Prelude Primitives.

Open Scope Z_scope.

(** ** channel/mod.rs *)

Inductive Error : Type :=
| Record_ | Authentication | Limit | Closed | Truncated | Pending | Crypto.

Inductive Kind : Type := Metadata | Data | Finished | Keepalive.

Inductive Direction : Type := Request | Response.

#[export] Instance Error_eq_dec : EqDecision Error.
Proof. solve_decision. Defined.
#[export] Instance Kind_eq_dec : EqDecision Kind.
Proof. solve_decision. Defined.
#[export] Instance Direction_eq_dec : EqDecision Direction.
Proof. solve_decision. Defined.

Definition Kind_to_byte (k : Kind) : byte :=
  match k with Metadata => x01 | Data => x02 | Finished => x03 | Keepalive => x04 end.

Definition Kind_try_from (value : byte) : result Kind Error :=
  match value with
  | x01 => Ok Metadata
  | x02 => Ok Data
  | x03 => Ok Finished
  | x04 => Ok Keepalive
  | _ => Err Record_
  end.

Definition Direction_to_byte (d : Direction) : byte :=
  match d with Request => x01 | Response => x02 end.

(** ** channel/cipher.rs *)

(** The [Cipher] trait. Encryption in place returns the ciphertext that replaces
    the plaintext and the tag; decryption takes ciphertext and tag in one buffer
    and returns the buffer after the call. Cancellation of the asynchronous
    versions is modelled by the record operations that await them. *)
Class Cipher (C : Type) := {
  from_key : bytes -> result C Error;
  encrypt : C -> bytes -> bytes -> bytes -> result (bytes * bytes) Error;
  decrypt : C -> bytes -> bytes -> bytes -> bytes * result unit Error
}.

(** What the record layer relies on: lengths, and decryption inverts encryption
    under the same key, nonce and associated data. *)
Class CipherLaws (C : Type) `{Cipher C} : Prop := {
  from_key_total key : zlen key = 32 -> exists c, from_key key = Ok c;
  encrypt_total c nonce aad pt :
    zlen pt <= 65536 -> exists ct tag, encrypt c nonce aad pt = Ok (ct, tag);
  encrypt_lengths c nonce aad pt ct tag :
    encrypt c nonce aad pt = Ok (ct, tag) -> zlen ct = zlen pt /\ zlen tag = 16;
  decrypt_encrypt c nonce aad pt ct tag :
    encrypt c nonce aad pt = Ok (ct, tag) ->
    decrypt c nonce aad (ct ++ tag) = (pt ++ tag, Ok tt);
  decrypt_length c nonce aad sealed sealed' out :
    decrypt c nonce aad sealed = (sealed', out) -> zlen sealed' = zlen sealed
}.

(** [SoftwareCipher]: the key of the portable AES-256-GCM. *)
Record SoftwareCipher : Type := { sc_key : bytes }.

Section SoftwareCipher.
Context `{Aead}.

(** [Aes256Gcm::new_from_slice] accepts exactly 32 bytes. *)
Definition SoftwareCipher_new (key : bytes) : result SoftwareCipher Error :=
  if zlen key =? 32 then Ok {| sc_key := key |} else Err Crypto.

Definition SoftwareCipher_encrypt_now (c : SoftwareCipher) (nonce aad plaintext : bytes)
  : result (bytes * bytes) Error :=
  ok_or (gcm_seal (sc_key c) nonce aad plaintext) Crypto.

(** The tag is checked before the ciphertext is replaced; a failed check leaves
    the buffer as it was. *)
Definition SoftwareCipher_decrypt_now (c : SoftwareCipher) (nonce aad sealed : bytes)
  : bytes * result unit Error :=
  if zlen sealed <? 16 then (sealed, Err Record_) else
  let length := zlen sealed - 16 in
  let ciphertext := slice_to sealed length in
  let tag := slice_from sealed length in
  match gcm_open (sc_key c) nonce aad ciphertext tag with
  | Some plaintext => (plaintext ++ tag, Ok tt)
  | None => (sealed, Err Authentication)
  end.

#[export] Instance SoftwareCipher_Cipher : Cipher SoftwareCipher := {
  from_key := SoftwareCipher_new;
  encrypt := SoftwareCipher_encrypt_now;
  decrypt := SoftwareCipher_decrypt_now
}.

End SoftwareCipher.

(** ** channel/record/keys.rs *)

Definition KEY_DOMAIN : bytes := ascii "stogas.e2ee.record.v1" ++ [x00].
Definition STEP_DOMAIN : bytes := ascii "stogas.e2ee.record-key.v1" ++ [x00].

(** The chain value of one direction. *)
Record Keys : Type := { chain : bytes }.

Section Keys.
Context `{Kdf}.

Definition Keys_new (secret session_id : bytes) (number : Z) (direction : Direction)
  : result Keys Error :=
  let? out := ok_or (hkdf_sha256_expand secret
    (KEY_DOMAIN ++ session_id ++ u64_be number ++ [Direction_to_byte direction]) 32) Crypto in
  Ok {| chain := out |}.

(** The chain is replaced only once the key material exists. *)
Definition Keys_next (k : Keys) (sequence : Z) : Keys * result (bytes * bytes) Error :=
  match hkdf_sha256_expand (chain k) (STEP_DOMAIN ++ u64_be sequence) 64 with
  | None => (k, Err Crypto)
  | Some material =>
      let key := slice_from material 32 in
      let nonce := zeros 4 ++ u64_be sequence in
      ({| chain := slice_to material 32 |}, Ok (key, nonce))
  end.

End Keys.

(** ** channel/record.rs *)

(** [channel/ratchet]: sizes of the encrypted ratchet header that a first record carries. *)
Definition PUBLIC_KEY_BYTES : Z := 32 + 1184.
Definition CIPHERTEXT_BYTES : Z := 1088.
Definition FIELDS_BYTES : Z := PUBLIC_KEY_BYTES + CIPHERTEXT_BYTES + 16.
Definition HEADER_BYTES : Z := FIELDS_BYTES + 16.

Definition MAX_RECORD_BYTES : Z := 64 * 1024.
Definition RECORD_OVERHEAD : Z := 4 + 1 + 16.
Definition MAX_RECORD_PLAINTEXT : Z := MAX_RECORD_BYTES - RECORD_OVERHEAD.
Definition MAX_RECORDS : Z := 2 ^ 24.
Definition MAX_REQUEST_BODY : Z := 128 * 1024 * 1024.
Definition MAX_RESPONSE_BODY : Z := 64 * 1024 * 1024.
Definition MAX_REQUEST_RECORDS : Z :=
  (MAX_REQUEST_BODY + MAX_RECORD_PLAINTEXT - 1) / MAX_RECORD_PLAINTEXT + 2.
Definition REQUEST_PREFIX_BYTES : Z := 6 + 32 + 8.
Definition MAX_REQUEST_WIRE_BYTES : Z :=
  REQUEST_PREFIX_BYTES + MAX_REQUEST_BODY + MAX_RECORD_PLAINTEXT
  + MAX_REQUEST_RECORDS * RECORD_OVERHEAD + 2 + HEADER_BYTES.
Definition MAX_RESPONSE_WIRE_BYTES : Z :=
  MAX_RESPONSE_BODY + MAX_RECORD_PLAINTEXT + MAX_RECORDS * RECORD_OVERHEAD + 2 + HEADER_BYTES.

Inductive Phase : Type := PMetadata | PBody | PTail | PFinished | PFailed.

#[export] Instance Phase_eq_dec : EqDecision Phase.
Proof. solve_decision. Defined.

(** One direction's record state. *)
Record Records : Type := {
  rc_keys : option Keys;
  rc_header : option bytes;
  rc_sequence : Z;
  rc_body_bytes : Z;
  rc_direction : Direction;
  rc_phase : Phase
}.

Definition record_size (prefix : bytes) : result Z Error :=
  if zlen prefix =? 4 then
    let value := be_value prefix in
    if (RECORD_OVERHEAD <=? value) && (value <=? MAX_RECORD_BYTES) then Ok value else Err Record_
  else Err Record_.

(** The header slice of a first record. *)
Definition start_header (encoded : bytes) : result bytes Error :=
  if zlen encoded <? 6 + HEADER_BYTES + 17 then Err Record_ else
  let? size := record_size (slice_to encoded 4) in
  reject negb (size =? zlen encoded) with Record_;
  let length := be_value (slice encoded 4 6) in
  reject negb (length =? HEADER_BYTES) || (zlen encoded <? 6 + length + 17) with Record_;
  Ok (slice encoded 6 (6 + length)).

Definition Records_from_keys (keys : Keys) (direction : Direction) (header : option bytes)
  : Records := {|
    rc_keys := Some keys;
    rc_header := header;
    rc_sequence := 0;
    rc_body_bytes := 0;
    rc_direction := direction;
    rc_phase := PMetadata
  |}.

Definition Records_close (r : Records) : Records := {|
  rc_keys := None;
  rc_header := rc_header r;
  rc_sequence := rc_sequence r;
  rc_body_bytes := rc_body_bytes r;
  rc_direction := rc_direction r;
  rc_phase := PFailed
|}.

Definition set_keys (r : Records) (keys : option Keys) : Records := {|
  rc_keys := keys;
  rc_header := rc_header r;
  rc_sequence := rc_sequence r;
  rc_body_bytes := rc_body_bytes r;
  rc_direction := rc_direction r;
  rc_phase := rc_phase r
|}.

Definition closed_phase (p : Phase) : bool :=
  match p with PFinished | PFailed => true | _ => false end.

Definition max_body (d : Direction) : Z :=
  match d with Request => MAX_REQUEST_BODY | Response => MAX_RESPONSE_BODY end.

Definition Records_check (r : Records) (kind : Kind) (size : Z) : result unit Error :=
  reject closed_phase (rc_phase r) with Closed;
  reject (MAX_RECORDS <=? rc_sequence r) || (MAX_RECORD_PLAINTEXT <? size) with Limit;
  match kind with
  | Metadata =>
      if negb (bool_decide (rc_phase r = PMetadata)) || (size =? 0) then Err Record_ else Ok tt
  | Data =>
      reject negb (bool_decide (rc_phase r = PBody)) || (size =? 0) with Record_;
      let max_body := max_body (rc_direction r) in
      reject (max_body <? rc_body_bytes r) || (max_body - rc_body_bytes r <? size) with Limit;
      Ok tt
  | Finished =>
      if bool_decide (rc_phase r = PMetadata) || negb (size =? 0) then Err Record_ else Ok tt
  | Keepalive =>
      if negb (bool_decide (rc_direction r = Response)) || negb (size =? 0)
      then Err Record_ else Ok tt
  end.

Definition Records_advance (r : Records) (kind : Kind) (size : Z) : Records :=
  let sequence := rc_sequence r + 1 in
  match kind with
  | Metadata => {|
      rc_keys := rc_keys r; rc_header := None; rc_sequence := sequence;
      rc_body_bytes := rc_body_bytes r; rc_direction := rc_direction r; rc_phase := PBody |}
  | Data => {|
      rc_keys := rc_keys r; rc_header := None; rc_sequence := sequence;
      rc_body_bytes := rc_body_bytes r + size; rc_direction := rc_direction r;
      rc_phase := if bool_decide (rc_direction r = Request) && (size <? MAX_RECORD_PLAINTEXT)
                  then PTail else rc_phase r |}
  | Finished => {|
      rc_keys := None; rc_header := None; rc_sequence := sequence;
      rc_body_bytes := rc_body_bytes r; rc_direction := rc_direction r; rc_phase := PFinished |}
  | Keepalive => {|
      rc_keys := rc_keys r; rc_header := None; rc_sequence := sequence;
      rc_body_bytes := rc_body_bytes r; rc_direction := rc_direction r; rc_phase := rc_phase r |}
  end.

(** The record up to its plaintext: length, start header, kind and content. *)
Definition Records_encode (r : Records) (kind : Kind) (content : bytes) : result bytes Error :=
  let? _ := Records_check r kind (zlen content) in
  let? header :=
    if rc_sequence r =? 0
    then let? h := ok_or (rc_header r) Closed in Ok (Some h)
    else Ok None in
  let length := RECORD_OVERHEAD + zlen content
    + match header with Some h => 2 + zlen h | None => 0 end in
  reject MAX_RECORD_BYTES <? length with Limit;
  reject u32_max <? length with Limit;
  let? start :=
    match header with
    | Some h => reject u16_max <? zlen h with Limit; Ok (u16_be (zlen h) ++ h)
    | None => Ok []
    end in
  Ok (u32_be length ++ start ++ [Kind_to_byte kind] ++ content).

(** Bytes before the encrypted part; they are the associated data. *)
Definition Records_prefix_size (r : Records) (encoded : bytes) : result Z Error :=
  if rc_sequence r =? 0 then
    reject zlen encoded <? 6 with Record_;
    let length := be_value (slice encoded 4 6) in
    reject negb (length =? HEADER_BYTES) || (zlen encoded <? 6 + length + 1) with Record_;
    Ok (6 + length)
  else Ok 4.

Definition Records_check_encoded (r : Records) (encoded : bytes) : result Z Error :=
  reject closed_phase (rc_phase r) with Closed;
  reject MAX_RECORDS <=? rc_sequence r with Limit;
  reject zlen encoded <? RECORD_OVERHEAD with Record_;
  let? size := record_size (slice_to encoded 4) in
  reject negb (size =? zlen encoded) with Record_;
  let? offset := Records_prefix_size r encoded in
  reject zlen encoded <? offset + 17 with Record_;
  Ok offset.

(** Interprets an authenticated record in place: the record state, the buffer
    (plaintext and tag) and the accepted kind and content. *)
Definition Records_accept_open (r : Records) (sealed : bytes)
  : Records * bytes * result (Kind * bytes) Error :=
  let length := zlen sealed - 16 in
  let plaintext := slice_to sealed length in
  let tag := slice_from sealed length in
  match Kind_try_from (hd x00 plaintext) with
  | Err error => (r, zeros length ++ tag, Err error)
  | Ok kind =>
      let size := length - 1 in
      match Records_check r kind size with
      | Err error => (r, zeros length ++ tag, Err error)
      | Ok _ => (Records_advance r kind size, sealed, Ok (kind, tail plaintext))
      end
  end.

Definition Records_complete (r : Records) : Records * result unit Error :=
  if bool_decide (rc_phase r = PFinished) then (r, Ok tt) else (Records_close r, Err Truncated).

(** [Operation]: an operation that does not complete closes its direction. *)
Definition Operation {B A} (out : Records * B * result A Error)
  : Records * B * result A Error :=
  match out with
  | (r, b, Ok a) => (r, b, Ok a)
  | (r, b, Err e) => (Records_close r, b, Err e)
  end.

Section Records.
Context `{Kdf}.

Definition Records_new (secret session_id : bytes) (number : Z) (direction : Direction)
    (header : bytes) : result Records Error :=
  let? keys := Keys_new secret session_id number direction in
  Ok (Records_from_keys keys direction (Some header)).

Definition Records_next_key (r : Records) : Records * result (bytes * bytes) Error :=
  match rc_keys r with
  | None => (r, Err Closed)
  | Some keys =>
      let (keys', out) := Keys_next keys (rc_sequence r) in
      (set_keys r (Some keys'), out)
  end.

(** Everything before the cipher runs: the encoded record, its prefix size and
    the record key and nonce. *)
Definition Records_seal_begin (r : Records) (kind : Kind) (content : bytes)
  : Records * result (bytes * Z * bytes * bytes) Error :=
  match (let? encoded := Records_encode r kind content in
         let? offset := Records_prefix_size r encoded in Ok (encoded, offset)) with
  | Err e => (r, Err e)
  | Ok (encoded, offset) =>
      let (r1, out) := Records_next_key r in
      (r1, let? (key, nonce) := out in Ok (encoded, offset, key, nonce))
  end.

Section Generic.
Context {C : Type} `{Cipher C}.

Definition Records_seal_with (r : Records) (kind : Kind) (content : bytes)
  : Records * unit * result bytes Error :=
  match Records_seal_begin r kind content with
  | (r1, Err e) => (r1, tt, Err e)
  | (r1, Ok (encoded, offset, key, nonce)) =>
      let prefix := slice_to encoded offset in
      match (let? c := from_key (C := C) key in
             encrypt c nonce prefix (slice_from encoded offset)) with
      | Err e => (r1, tt, Err e)
      | Ok (ciphertext, tag) =>
          (Records_advance r1 kind (zlen content), tt, Ok (prefix ++ ciphertext ++ tag))
      end
  end.

(** [seal_async]. A future dropped while the cipher runs yields no result, and
    dropping its [Operation] closes the direction. *)
Definition Records_seal_async (cancelled : bool) (r : Records) (kind : Kind) (content : bytes)
  : Records * option (result bytes Error) :=
  match Records_seal_begin r kind content with
  | (r1, Ok (_, _, key, _)) =>
      match from_key (C := C) key, cancelled with
      | Ok _, true => (Records_close r1, None)
      | _, _ => let '(r', _, out) := Operation (Records_seal_with r kind content) in (r', Some out)
      end
  | _ => let '(r', _, out) := Operation (Records_seal_with r kind content) in (r', Some out)
  end.

Definition Records_open_with (r : Records) (encoded : bytes)
  : Records * bytes * result (Kind * bytes) Error :=
  match Records_check_encoded r encoded with
  | Err e => (r, encoded, Err e)
  | Ok offset =>
      match Records_next_key r with
      | (r1, Err e) => (r1, encoded, Err e)
      | (r1, Ok (key, nonce)) =>
          let prefix := slice_to encoded offset in
          match from_key (C := C) key with
          | Err e => (r1, encoded, Err e)
          | Ok c =>
              match decrypt c nonce prefix (slice_from encoded offset) with
              | (sealed, Err e) => (r1, prefix ++ zeros (zlen sealed), Err e)
              | (sealed, Ok _) =>
                  let '(r2, sealed', out) := Records_accept_open r1 sealed in
                  (r2, prefix ++ sealed', out)
              end
          end
      end
  end.

(** [open_async]; a cancelled call leaves the caller's buffer unspecified. *)
Definition Records_open_async (cancelled : bool) (r : Records) (encoded : bytes)
  : Records * option (bytes * result (Kind * bytes) Error) :=
  let complete :=
    let '(r', buffer, out) := Operation (Records_open_with r encoded) in
    (r', Some (buffer, out)) in
  match Records_check_encoded r encoded, Records_next_key r with
  | Ok _, (r1, Ok (key, _)) =>
      match from_key (C := C) key, cancelled with
      | Ok _, true => (Records_close r1, None)
      | _, _ => complete
      end
  | _, _ => complete
  end.

End Generic.

Section Software.
Context `{Aead}.

Definition Records_seal (r : Records) (kind : Kind) (content : bytes)
  : Records * result bytes Error :=
  let '(r', _, out) := Operation (Records_seal_with (C := SoftwareCipher) r kind content) in
  (r', out).

Definition Records_open (r : Records) (encoded : bytes)
  : Records * bytes * result (Kind * bytes) Error :=
  Operation (Records_open_with (C := SoftwareCipher) r encoded).

(** Authenticates the first record with the software cipher, before any shared
    state is committed: the buffer and the reader it creates. *)
Definition Records_authenticate_start (secret session_id : bytes) (number : Z)
    (direction : Direction) (encoded : bytes)
  : bytes * result (Records * Kind * bytes) Error :=
  match (let? header := start_header encoded in
         let? keys := Keys_new secret session_id number direction in Ok (header, keys)) with
  | Err e => (encoded, Err e)
  | Ok (header, keys) =>
      let offset := zlen header + 6 in
      match Records_next_key (Records_from_keys keys direction None) with
      | (_, Err e) => (encoded, Err e)
      | (records, Ok (key, nonce)) =>
          let aad := slice_to encoded offset in
          match SoftwareCipher_new key with
          | Err e => (encoded, Err e)
          | Ok c =>
              match SoftwareCipher_decrypt_now c nonce aad (slice_from encoded offset) with
              | (sealed, Err e) => (aad ++ zeros (zlen sealed), Err e)
              | (sealed, Ok _) =>
                  let '(records', sealed', out) := Records_accept_open records sealed in
                  (aad ++ sealed', let? (kind, plaintext) := out in Ok (records', kind, plaintext))
              end
          end
      end
  end.

End Software.
End Records.
