(* ===== verification/RecordTheory.v ===== *)
(** Properties of the record layer. *)

From S2P Require Import Prelude Primitives Record.

Open Scope Z_scope.

(** ** Constants and small facts *)

Create Rewrite HintDb record.

Ltac record_consts :=
  unfold MAX_REQUEST_WIRE_BYTES, MAX_RESPONSE_WIRE_BYTES, MAX_REQUEST_RECORDS,
    REQUEST_PREFIX_BYTES, MAX_RECORDS,
    MAX_REQUEST_BODY, MAX_RESPONSE_BODY, MAX_RECORD_PLAINTEXT, RECORD_OVERHEAD,
    MAX_RECORD_BYTES, HEADER_BYTES, FIELDS_BYTES, CIPHERTEXT_BYTES, PUBLIC_KEY_BYTES,
    u16_max, u32_max, u64_max in *.

Lemma Kind_try_from_to_byte k : Kind_try_from (Kind_to_byte k) = Ok k.
Proof. by destruct k. Qed.

(** The software cipher discharges the interface of the record layer. *)
#[export] Instance SoftwareCipher_laws `{AeadLaws} : CipherLaws SoftwareCipher.
Proof.
  split; simpl; intros.
  - unfold SoftwareCipher_new. case_match; [eauto|]. zbool; lia.
  - unfold SoftwareCipher_encrypt_now.
    destruct (gcm_seal_total (sc_key c) nonce aad pt) as [[ct tag] ->]; [lia|]. eauto.
  - unfold SoftwareCipher_encrypt_now, ok_or in *. case_match; simplify_eq.
    by eapply gcm_seal_lengths.
  - unfold SoftwareCipher_encrypt_now, ok_or in *. case_match; simplify_eq.
    destruct (gcm_seal_lengths _ _ _ _ _ _ H2) as [Hct Htag].
    unfold SoftwareCipher_decrypt_now. zlen_norm.
    case_match; zbool; [zlen_lia|].
    rewrite slice_to_app, slice_from_app by lia.
    by rewrite (gcm_open_seal _ _ _ _ _ _ H2).
  - unfold SoftwareCipher_decrypt_now in *. case_all.
    apply gcm_seal_open, gcm_seal_lengths in Heqo as [Hl _]. zlen_norm. zbool.
    rewrite <- Hl, <- zlen_app. by rewrite slice_to_from.
Qed.

(** ** Shape of a sealed record *)

(** The clear prefix of a record: total length and, on a first record, the header. *)
Definition record_prefix (r : Records) (size : Z) : bytes :=
  match rc_header r with
  | Some h =>
      if rc_sequence r =? 0
      then u32_be (RECORD_OVERHEAD + size + (2 + zlen h)) ++ u16_be (zlen h) ++ h
      else u32_be (RECORD_OVERHEAD + size + 0)
  | None => u32_be (RECORD_OVERHEAD + size + 0)
  end.

(** A prefix that frames a record with [size] bytes of content in state [r]. *)
Definition prefix_ok (r : Records) (size : Z) (prefix : bytes) : Prop :=
  (rc_sequence r = 0 ->
    zlen prefix = 6 + HEADER_BYTES /\ slice prefix 4 6 = u16_be HEADER_BYTES) /\
  (rc_sequence r <> 0 -> zlen prefix = 4) /\
  slice_to prefix 4 = u32_be (zlen prefix + 17 + size) /\
  zlen prefix + 17 + size <= MAX_RECORD_BYTES.

Lemma record_prefix_later r size :
  rc_sequence r <> 0 -> record_prefix r size = u32_be (RECORD_OVERHEAD + size + 0).
Proof.
  intros Hs. unfold record_prefix. by rewrite (proj2 (Z.eqb_neq _ _) Hs); case_match.
Qed.

Lemma encode_prefix_shape r kind content encoded offset :
  0 <= rc_sequence r ->
  Records_encode r kind content = Ok encoded ->
  Records_prefix_size r encoded = Ok offset ->
  let prefix := record_prefix r (zlen content) in
  Records_check r kind (zlen content) = Ok tt /\
  encoded = prefix ++ Kind_to_byte kind :: content /\
  zlen prefix = offset /\
  prefix_ok r (zlen content) prefix.
Proof.
  intros Hseq Henc Hpre. cbv zeta. unfold Records_encode, ok_or, prefix_ok in *.
  destruct (Records_check _ _ _) as [[]|]; [|done].
  unfold Records_prefix_size in Hpre.
  destruct (rc_sequence r =? 0) eqn:Es; zbool.
  - unfold record_prefix. rewrite (proj2 (Z.eqb_eq _ _) Es). destruct (rc_header r) as [h|]; [|done]. case_all. zbool.
    assert (slice (u32_be (RECORD_OVERHEAD + zlen content + (2 + zlen h)) ++
       (u16_be (zlen h) ++ h) ++ Kind_to_byte kind :: content) 4 6 = u16_be (zlen h)) as Hs.
    { rewrite slice_app_skip by (rewrite zlen_be_bytes; lia). rewrite zlen_be_bytes.
      rewrite <- (app_assoc (u16_be _)). by apply slice_app_here. }
    rewrite Hs in *. rewrite be_value_bytes_small in * by (record_consts; zlen_lia).
    split; [done|]. split; [by rewrite <- !app_assoc|].
    split; [zlen_lia|]. split.
    { intros _. zlen_norm. split; [lia|].
      rewrite slice_app_skip by (rewrite zlen_be_bytes; lia). rewrite zlen_be_bytes.
      rewrite slice_app_here by done. congruence. }
    split; [lia|]. split; [|zlen_norm; record_consts; lia].
    rewrite slice_to_app by (by rewrite zlen_be_bytes). f_equal. zlen_norm. record_consts. lia.
  - rewrite record_prefix_later by done. case_all. zbool.
    split; [done|]. split; [done|]. split; [done|].
    split; [lia|]. split; [done|]. rewrite zlen_be_bytes. split; [|record_consts; lia].
    unfold slice_to. rewrite take_ge by (rewrite length_be_bytes; lia). f_equal.
    record_consts. lia.
Qed.

(** ** Sealing and opening are inverse *)

(** Both ends of one direction are in the same state; only the writer holds the
    start header. *)
Definition synced (w rd : Records) : Prop :=
  rc_keys w = rc_keys rd /\ rc_sequence w = rc_sequence rd /\
  rc_body_bytes w = rc_body_bytes rd /\ rc_direction w = rc_direction rd /\
  rc_phase w = rc_phase rd.

Lemma check_synced w rd kind size :
  synced w rd -> Records_check w kind size = Records_check rd kind size.
Proof.
  intros (_ & Hs & Hb & Hd & Hp). unfold Records_check. by rewrite Hs, Hb, Hd, Hp.
Qed.

Lemma check_set_keys r keys kind size :
  Records_check (set_keys r keys) kind size = Records_check r kind size.
Proof. done. Qed.

Lemma advance_synced w rd keys kind size :
  synced w rd ->
  synced (Records_advance (set_keys w keys) kind size) (Records_advance (set_keys rd keys) kind size).
Proof.
  intros (Hk & Hs & Hb & Hd & Hp). destruct kind; unfold synced; simpl;
    rewrite ?Hs, ?Hb, ?Hd, ?Hp; naive_solver.
Qed.

(** A framed record of any encrypted content passes the reader's checks. *)
Lemma check_encoded_framed r kind size prefix rest :
  0 <= size -> Records_check r kind size = Ok tt -> prefix_ok r size prefix ->
  zlen rest = 17 + size -> Records_check_encoded r (prefix ++ rest) = Ok (zlen prefix).
Proof.
  intros Hpos Hchk (Hfirst & Hlater & Hsize & Hmax) Hrest.
  assert (4 <= zlen prefix) as Hge.
  { destruct (decide (rc_sequence r = 0)) as [E|E];
      [apply Hfirst in E as [-> _]|rewrite Hlater by done]; record_consts; lia. }
  unfold Records_check_encoded. unfold Records_check in Hchk.
  destruct (closed_phase (rc_phase r)); [done|].
  destruct (MAX_RECORDS <=? rc_sequence r) eqn:Hlim; [done|].
  replace (slice_to (prefix ++ rest) 4) with (slice_to prefix 4)
    by (unfold slice_to, zlen in *; rewrite take_app_le; [done|lia]).
  rewrite Hsize, zlen_app, Hrest. unfold record_size.
  rewrite zlen_be_bytes, be_value_bytes_small by (record_consts; lia).
  simpl (Z.of_nat 4 =? 4). rewrite !(proj2 (Z.leb_le _ _)) by (record_consts; lia).
  simpl andb. cbn match. rewrite !(proj2 (Z.ltb_ge _ _)) by (record_consts; lia).
  rewrite (proj2 (Z.eqb_eq _ _)) by lia. simpl negb. cbn match.
  unfold Records_prefix_size. destruct (rc_sequence r =? 0) eqn:E0; zbool.
  - destruct (Hfirst E0) as [Hl Hs]. rewrite zlen_app, Hrest.
    replace (slice (prefix ++ rest) 4 6) with (u16_be HEADER_BYTES).
    2:{ rewrite <- Hs. unfold slice, zlen in *. rewrite drop_app_le by (record_consts; lia).
        rewrite take_app_le; [done|]. rewrite length_drop. record_consts. lia. }
    rewrite be_value_bytes_small by (record_consts; lia).
    rewrite !(proj2 (Z.ltb_ge _ _)) by (record_consts; lia). rewrite Z.eqb_refl. simpl.
    rewrite !(proj2 (Z.ltb_ge _ _)) by (record_consts; lia). by rewrite Hl.
  - rewrite Hlater by done. by rewrite (proj2 (Z.ltb_ge _ _)) by (record_consts; lia).
Qed.

Section Roundtrip.
Context `{Kdf} {C : Type} `{HC : !Cipher C, !CipherLaws C}.

(** A successful seal, step by step. *)
Lemma seal_with_inv r kind content r' u enc :
  0 <= rc_sequence r ->
  Records_seal_with (C := C) r kind content = (r', u, Ok enc) ->
  let prefix := record_prefix r (zlen content) in
  exists keys keys' key nonce c ct tag,
    rc_keys r = Some keys /\
    Keys_next keys (rc_sequence r) = (keys', Ok (key, nonce)) /\
    from_key key = Ok c /\
    encrypt c nonce prefix (Kind_to_byte kind :: content) = Ok (ct, tag) /\
    enc = prefix ++ ct ++ tag /\
    r' = Records_advance (set_keys r (Some keys')) kind (zlen content) /\
    Records_check r kind (zlen content) = Ok tt /\
    prefix_ok r (zlen content) prefix /\
    zlen (ct ++ tag) = 17 + zlen content.
Proof.
  intros Hseq Hseal. cbv zeta. unfold Records_seal_with, Records_seal_begin in Hseal.
  destruct (Records_encode r kind content) as [encoded|] eqn:Henc; [|done].
  destruct (Records_prefix_size r encoded) as [offset|] eqn:Hoff; [|done].
  destruct (encode_prefix_shape _ _ _ _ _ Hseq Henc Hoff) as (Hchk & Hshape & Hlen & Hok).
  unfold Records_next_key in Hseal.
  destruct (rc_keys r) as [keys|] eqn:Hkeys; [|done].
  destruct (Keys_next keys (rc_sequence r)) as [keys' [[key nonce]|]] eqn:Hnext; [|done].
  rewrite Hshape, slice_to_app, slice_from_app in Hseal by done.
  destruct (from_key key) as [c|] eqn:Hfrom; [|done].
  destruct (encrypt c nonce _ _) as [[ct tag]|] eqn:Hcrypt; [|done]. simplify_eq.
  destruct (encrypt_lengths _ _ _ _ _ _ Hcrypt) as [Hct Htag]. rewrite zlen_cons in Hct.
  exists keys, keys', key, nonce, c, ct, tag. repeat (split; [done|]). zlen_lia.
Qed.

Lemma accept_open_sealed r kind content tag :
  zlen tag = 16 -> Records_check r kind (zlen content) = Ok tt ->
  Records_accept_open r ((Kind_to_byte kind :: content) ++ tag)
  = (Records_advance r kind (zlen content), (Kind_to_byte kind :: content) ++ tag,
     Ok (kind, content)).
Proof.
  intros Htag Hchk. unfold Records_accept_open.
  rewrite slice_to_app, slice_from_app by zlen_lia. simpl hd. simpl tail.
  rewrite Kind_try_from_to_byte.
  replace (zlen ((Kind_to_byte kind :: content) ++ tag) - 16 - 1) with (zlen content) by zlen_lia.
  by rewrite Hchk.
Qed.

Lemma seal_with_open_with w rd kind content w' u enc :
  0 <= rc_sequence w -> synced w rd ->
  Records_seal_with (C := C) w kind content = (w', u, Ok enc) ->
  exists rd' buffer,
    Records_open_with (C := C) rd enc = (rd', buffer, Ok (kind, content)) /\ synced w' rd'.
Proof.
  intros Hseq Hsync Hseal. pose proof Hsync as (Hk & Hs & Hb & Hd & Hp).
  destruct (seal_with_inv _ _ _ _ _ _ Hseq Hseal)
    as (keys & keys' & key & nonce & c & ct & tag & Hkeys & Hnext & Hfrom & Hcrypt
        & -> & -> & Hchk & Hok & Hlen).
  set (prefix := record_prefix w (zlen content)) in *.
  assert (Records_check_encoded rd (prefix ++ ct ++ tag) = Ok (zlen prefix)) as Henc.
  { apply (check_encoded_framed rd kind (zlen content)); [by apply zlen_nonneg| | |done].
    - erewrite <- check_synced by done. done.
    - unfold prefix_ok in *. by rewrite <- Hs. }
  unfold Records_open_with, Records_next_key. rewrite Henc, <- Hk, Hkeys, <- Hs, Hnext.
  rewrite slice_to_app, slice_from_app, Hfrom by done.
  rewrite (decrypt_encrypt _ _ _ _ _ _ Hcrypt).
  rewrite accept_open_sealed.
  - eexists _, _. split; [done|]. by apply advance_synced.
  - by eapply encrypt_lengths.
  - rewrite check_set_keys. by rewrite <- (check_synced w).
Qed.

End Roundtrip.

(** ** Streams *)

Section Streams.
Context `{Kdf} `{AeadLaws}.

(** A writer seals a list of records, stopping at the first error. *)
Fixpoint seal_stream (w : Records) (msgs : list (Kind * bytes)) : Records * result (list bytes) Error :=
  match msgs with
  | [] => (w, Ok [])
  | (kind, content) :: rest =>
      match Records_seal w kind content with
      | (w', Err e) => (w', Err e)
      | (w', Ok enc) =>
          let (w'', out) := seal_stream w' rest in
          (w'', let? encs := out in Ok (enc :: encs))
      end
  end.

(** A reader opens a list of encoded records, stopping at the first error. *)
Fixpoint open_stream (rd : Records) (encs : list bytes)
  : Records * result (list (Kind * bytes)) Error :=
  match encs with
  | [] => (rd, Ok [])
  | enc :: rest =>
      match Records_open rd enc with
      | (rd', _, Err e) => (rd', Err e)
      | (rd', _, Ok msg) =>
          let (rd'', out) := open_stream rd' rest in
          (rd'', let? msgs := out in Ok (msg :: msgs))
      end
  end.

Lemma seal_ok_inv w kind content w' enc :
  Records_seal w kind content = (w', Ok enc) ->
  Records_seal_with (C := SoftwareCipher) w kind content = (w', tt, Ok enc).
Proof.
  unfold Records_seal, Operation. destruct (Records_seal_with w kind content) as [[w1 []] []];
    naive_solver.
Qed.

Lemma seal_open w rd kind content w' enc :
  0 <= rc_sequence w -> synced w rd ->
  Records_seal w kind content = (w', Ok enc) ->
  exists rd' buffer,
    Records_open rd enc = (rd', buffer, Ok (kind, content)) /\ synced w' rd'.
Proof.
  intros Hseq Hsync Hseal. apply seal_ok_inv in Hseal.
  destruct (seal_with_open_with _ _ _ _ _ _ _ Hseq Hsync Hseal) as (rd' & buffer & Hopen & Hs').
  exists rd', buffer. unfold Records_open, Operation. by rewrite Hopen.
Qed.

Lemma advance_sequence r kind size :
  rc_sequence (Records_advance r kind size) = rc_sequence r + 1.
Proof. by destruct kind. Qed.

Lemma seal_sequence w kind content w' enc :
  0 <= rc_sequence w -> Records_seal w kind content = (w', Ok enc) ->
  rc_sequence w' = rc_sequence w + 1.
Proof.
  intros Hs Hseal. apply seal_ok_inv in Hseal.
  edestruct (seal_with_inv _ _ _ _ _ _ Hs Hseal) as (?&?&?&?&?&?&?&?&?&?&?&?&->&?).
  by rewrite advance_sequence.
Qed.

(** A reader in the writer's state opens what the writer seals. *)
Lemma seal_open_stream w rd msgs w' encs :
  0 <= rc_sequence w -> synced w rd ->
  seal_stream w msgs = (w', Ok encs) ->
  exists rd', open_stream rd encs = (rd', Ok msgs) /\ synced w' rd'.
Proof.
  revert w rd encs. induction msgs as [|[kind content] msgs IH]; intros w rd encs Hseq Hsync Hrun.
  - simpl in Hrun. simplify_eq. by exists rd.
  - simpl in Hrun. destruct (Records_seal w kind content) as [w1 [enc|]] eqn:Hseal; [|done].
    destruct (seal_stream w1 msgs) as [w2 [encs'|]] eqn:Hrest; simplify_eq.
    destruct (seal_open _ _ _ _ _ _ Hseq Hsync Hseal) as (rd1 & buffer & Hopen & Hsync1).
    destruct (IH w1 rd1 encs') as (rd' & Hopens & Hsync'); [|done|done|].
    + rewrite (seal_sequence _ _ _ _ _ Hseq Hseal). lia.
    + exists rd'. split; [|done]. simpl. by rewrite Hopen, Hopens.
Qed.

(** A framed first record exposes a header of the fixed size. *)
Lemma start_header_framed r size prefix rest :
  rc_sequence r = 0 -> 0 <= size -> prefix_ok r size prefix -> zlen rest = 17 + size ->
  exists header, start_header (prefix ++ rest) = Ok header /\ zlen header + 6 = zlen prefix.
Proof.
  intros Hs0 Hpos (Hfirst & _ & Hsize & Hmax) Hrest. destruct (Hfirst Hs0) as [Hl Hs].
  assert (zlen (prefix ++ rest) = zlen prefix + 17 + size) as Htotal by zlen_lia.
  unfold start_header. rewrite Htotal.
  rewrite (proj2 (Z.ltb_ge _ _)) by (record_consts; lia).
  replace (slice_to (prefix ++ rest) 4) with (slice_to prefix 4)
    by (unfold slice_to, zlen in *; rewrite take_app_le; [done|record_consts; lia]).
  rewrite Hsize. unfold record_size.
  rewrite zlen_be_bytes, be_value_bytes_small by (record_consts; lia).
  simpl (Z.of_nat 4 =? 4). rewrite !(proj2 (Z.leb_le _ _)) by (record_consts; lia).
  simpl andb. cbn match. rewrite (proj2 (Z.eqb_eq _ _)) by lia. simpl negb. cbn match.
  replace (slice (prefix ++ rest) 4 6) with (u16_be HEADER_BYTES).
  2:{ rewrite <- Hs. unfold slice, zlen in *. rewrite drop_app_le by (record_consts; lia).
      rewrite take_app_le; [done|]. rewrite length_drop. record_consts. lia. }
  rewrite be_value_bytes_small by (record_consts; lia).
  rewrite Z.eqb_refl, (proj2 (Z.ltb_ge _ _)) by (record_consts; lia). simpl.
  eexists. split; [done|]. rewrite zlen_slice by (record_consts; zlen_lia). lia.
Qed.

Lemma seal_authenticate_start secret session_id number direction header w kind content w' enc :
  Records_new secret session_id number direction header = Ok w ->
  Records_seal w kind content = (w', Ok enc) ->
  exists buffer rd,
    Records_authenticate_start secret session_id number direction enc
      = (buffer, Ok (rd, kind, content)) /\ synced w' rd.
Proof.
  unfold Records_new. destruct (Keys_new secret session_id number direction) as [keys|] eqn:Hnew;
    [|done].
  intros [= <-] Hseal. apply seal_ok_inv in Hseal.
  set (w := Records_from_keys keys direction (Some header)) in *.
  destruct (seal_with_inv w _ _ _ _ _ ltac:(done) Hseal)
    as (keys0 & keys' & key & nonce & c & ct & tag & Hkeys & Hnext & Hfrom & Hcrypt
        & -> & -> & Hchk & Hok & Hlen).
  set (prefix := record_prefix w (zlen content)) in *. simpl in Hkeys. simplify_eq.
  destruct (start_header_framed w _ _ _ eq_refl (zlen_nonneg content) Hok Hlen) as (h & Hh & Hoff).
  unfold Records_authenticate_start. rewrite Hh, Hnew. unfold Records_next_key. simpl rc_keys.
  change (rc_sequence (Records_from_keys keys0 direction None)) with (rc_sequence w).
  cbn match. rewrite Hnext, Hoff, slice_to_app, slice_from_app by done.
  simpl in Hfrom. rewrite Hfrom.
  pose proof (decrypt_encrypt _ _ _ _ _ _ Hcrypt) as Hdec.
  change (decrypt c) with (SoftwareCipher_decrypt_now c) in Hdec. rewrite Hdec.
  rewrite (accept_open_sealed _ kind content); [|by eapply encrypt_lengths|done].
  eexists _, _. split; [done|]. by apply advance_synced.
Qed.

(** Everything one end seals, the other end opens: for any list of records a fresh
    writer seals successfully, the peer that derives the same message secret
    authenticates the first record and opens the remaining ones to exactly the same
    kinds and contents in the same order, and both ends are again in the same state. *)
Theorem stream_roundtrip secret session_id number direction header w kind content msgs w' enc encs :
  Records_new secret session_id number direction header = Ok w ->
  seal_stream w ((kind, content) :: msgs) = (w', Ok (enc :: encs)) ->
  exists buffer rd rd',
    Records_authenticate_start secret session_id number direction enc
      = (buffer, Ok (rd, kind, content)) /\
    open_stream rd encs = (rd', Ok msgs) /\ synced w' rd'.
Proof.
  intros Hnew Hrun. simpl in Hrun.
  destruct (Records_seal w kind content) as [w1 [enc1|]] eqn:Hseal; [|done].
  destruct (seal_stream w1 msgs) as [w2 [encs'|]] eqn:Hrest; simplify_eq.
  destruct (seal_authenticate_start _ _ _ _ _ _ _ _ _ _ Hnew Hseal) as (buffer & rd & Hstart & Hsync).
  assert (rc_sequence w = 0) as Hs.
  { unfold Records_new in Hnew. case_all. }
  destruct (seal_open_stream w1 rd msgs w' encs) as (rd' & Hopen & Hsync'); [|done|done|].
  { rewrite (seal_sequence w kind content w1 enc); [lia|lia|done]. }
  by exists buffer, rd, rd'.
Qed.

End Streams.
