(* ===== verification/RecordSafety.v ===== *)
(** Safety of the record layer: nonces are never reused, failure and cancellation
    close a direction for good, rejected input leaves no plaintext behind. *)

From S2P Require Import Prelude Primitives Record RecordTheory.

Open Scope Z_scope.

(** ** Operations on one direction, as steps *)

Inductive record_op : Type :=
| OpSeal (cancelled : bool) (kind : Kind) (content : bytes)
| OpOpen (cancelled : bool) (encoded : bytes)
| OpComplete
| OpClose.

Section Steps.
Context `{Kdf} {C : Type} `{HC : !Cipher C}.

Definition run_op (r : Records) (op : record_op) : Records :=
  match op with
  | OpSeal cancelled kind content => (Records_seal_async (C := C) cancelled r kind content).1
  | OpOpen cancelled encoded => (Records_open_async (C := C) cancelled r encoded).1
  | OpComplete => (Records_complete r).1
  | OpClose => Records_close r
  end.

(** The nonce an operation hands to the cipher, when it gets that far. *)
Definition op_nonce (r : Records) (op : record_op) : option bytes :=
  match op with
  | OpSeal _ kind content =>
      match Records_seal_begin r kind content with
      | (_, Ok (_, _, _, nonce)) => Some nonce
      | _ => None
      end
  | OpOpen _ encoded =>
      match Records_check_encoded r encoded, Records_next_key r with
      | Ok _, (_, Ok (_, nonce)) => Some nonce
      | _, _ => None
      end
  | OpComplete | OpClose => None
  end.

Fixpoint nonces (r : Records) (ops : list record_op) : list bytes :=
  match ops with
  | [] => []
  | op :: rest =>
      match op_nonce r op with
      | Some nonce => nonce :: nonces (run_op r op) rest
      | None => nonces (run_op r op) rest
      end
  end.

Definition record_nonce (sequence : Z) : bytes := zeros 4 ++ u64_be sequence.

(** A direction that can no longer produce a key. *)
Definition dead (r : Records) : Prop := rc_keys r = None /\ closed_phase (rc_phase r) = true.

Lemma record_nonce_inj s t :
  0 <= s <= u64_max -> 0 <= t <= u64_max -> record_nonce s = record_nonce t -> s = t.
Proof.
  unfold record_nonce. intros Hs Ht E. apply app_inv_head in E.
  eapply be_bytes_inj; [| |done]; record_consts; lia.
Qed.

Lemma next_key_nonce r r1 key nonce :
  Records_next_key r = (r1, Ok (key, nonce)) ->
  nonce = record_nonce (rc_sequence r) /\ rc_sequence r1 = rc_sequence r /\
  rc_phase r1 = rc_phase r.
Proof.
  unfold Records_next_key, Keys_next. intros. case_all.
Qed.

Ltac use_next_key :=
  match goal with
  | H : Records_next_key _ = (_, Ok (_, _)) |- _ =>
      let Hn := fresh "Hnonce" in
      apply next_key_nonce in H as (Hn & ? & ?); subst
  end.

Lemma op_nonce_value r op nonce :
  op_nonce r op = Some nonce ->
  nonce = record_nonce (rc_sequence r) /\ rc_sequence r < MAX_RECORDS.
Proof.
  destruct op; simpl; [| |done|done]; intros Hn.
  - unfold Records_seal_begin, Records_encode, Records_check in Hn.
    case_all; use_next_key; zbool; split; done || lia.
  - unfold Records_check_encoded in Hn.
    case_all; use_next_key; zbool; split; done || lia.
Qed.

Lemma dead_close r : dead (Records_close r).
Proof. done. Qed.

Lemma dead_encode r kind content : dead r -> Records_encode r kind content = Err Closed.
Proof. intros [_ Hp]. unfold Records_encode, Records_check. by rewrite Hp. Qed.

Lemma dead_check_encoded r encoded : dead r -> Records_check_encoded r encoded = Err Closed.
Proof. intros [_ Hp]. unfold Records_check_encoded. by rewrite Hp. Qed.

Lemma dead_step r op : dead r -> dead (run_op r op) /\ op_nonce r op = None.
Proof.
  intros Hd. destruct op; simpl.
  - unfold Records_seal_async, Records_seal_with, Records_seal_begin.
    by rewrite dead_encode.
  - unfold Records_open_async, Records_open_with. by rewrite dead_check_encoded.
  - unfold Records_complete. case_match; [done|]. split; [apply dead_close|done].
  - split; [apply dead_close|done].
Qed.

Lemma dead_nonces r ops : dead r -> nonces r ops = [].
Proof.
  revert r. induction ops as [|op ops IH]; intros r Hd; [done|].
  destruct (dead_step r op Hd) as [Hd' Hn]. simpl. rewrite Hn. by apply IH.
Qed.

(** Every operation that reached the cipher either moved on to the next record
    number or closed the direction. *)
Lemma op_nonce_advances r op nonce :
  op_nonce r op = Some nonce ->
  rc_sequence (run_op r op) = rc_sequence r + 1 \/ dead (run_op r op).
Proof.
  destruct op; simpl; [| |done|done]; intros Hn.
  - unfold Records_seal_async, Records_seal_with, Operation.
    destruct (Records_seal_begin r kind content) as [r1 [[[[encoded off] key] n]|]] eqn:Hb; [|done].
    assert (rc_sequence r1 = rc_sequence r) as Hs.
    { unfold Records_seal_begin in Hb. case_all; use_next_key; done. }
    case_all; simpl; first [right; apply dead_close | left; by rewrite advance_sequence, Hs].
  - unfold Records_open_async, Records_open_with, Records_accept_open, Operation.
    destruct (Records_check_encoded r encoded) as [off|]; [|done].
    destruct (Records_next_key r) as [r1 [[key n]|]] eqn:Hk; [|done].
    apply next_key_nonce in Hk as (_ & Hs & _).
    case_all; simpl; first [right; apply dead_close | left; by rewrite advance_sequence, Hs].
Qed.

Lemma op_without_nonce r op :
  op_nonce r op = None -> rc_sequence (run_op r op) = rc_sequence r \/ dead (run_op r op).
Proof.
  destruct op; simpl; intros Hn.
  - unfold Records_seal_async, Records_seal_with, Operation.
    destruct (Records_seal_begin r kind content) as [r1 [[[[encoded off] key] n]|]]; [done|].
    right. apply dead_close.
  - unfold Records_open_async, Records_open_with.
    destruct (Records_check_encoded r encoded) as [off|]; [|right; apply dead_close].
    destruct (Records_next_key r) as [r1 [[key n]|]]; [done|]. right. apply dead_close.
  - unfold Records_complete. case_match; [by left|right; apply dead_close].
  - right. apply dead_close.
Qed.

Lemma nonces_from r ops nonce :
  0 <= rc_sequence r -> nonce ∈ nonces r ops ->
  exists s, rc_sequence r <= s < MAX_RECORDS /\ nonce = record_nonce s.
Proof.
  revert r. induction ops as [|op ops IH]; intros r Hs Hin; simpl in Hin; [by apply elem_of_nil in Hin|].
  assert (nonce ∈ nonces (run_op r op) ops -> exists s, rc_sequence r <= s < MAX_RECORDS /\ nonce = record_nonce s) as Hrest.
  { intros Hin'.
    assert (rc_sequence r <= rc_sequence (run_op r op) \/ dead (run_op r op)) as [Hle|Hd].
    { destruct (op_nonce r op) eqn:E.
      - apply op_nonce_advances in E as [->|]; [left; lia|by right].
      - apply op_without_nonce in E as [->|]; [left; lia|by right]. }
    - destruct (IH (run_op r op)) as (s & ? & ->); [lia|done|]. exists s. split; [lia|done].
    - rewrite dead_nonces in Hin' by done. by apply elem_of_nil in Hin'. }
  destruct (op_nonce r op) as [n|] eqn:E; [|by apply Hrest].
  apply elem_of_cons in Hin as [->|Hin]; [|by apply Hrest].
  apply op_nonce_value in E as [-> ?]. eexists. split; [|done]. lia.
Qed.

(** C33. No nonce is ever used twice in one direction: for every sequence of seal and
    open calls, completed, failed or cancelled while the cipher ran, and every
    interleaving with completion checks and closing, the nonces handed to the cipher
    are pairwise distinct. *)
Theorem nonces_never_repeat r ops : 0 <= rc_sequence r -> NoDup (nonces r ops).
Proof.
  revert r. induction ops as [|op ops IH]; intros r Hs; simpl; [constructor|].
  destruct (op_nonce r op) as [n|] eqn:E.
  - destruct (op_nonce_advances _ _ _ E) as [Hnext|Hd].
    + constructor; [|apply IH; lia]. intros Hin.
      apply nonces_from in Hin as (s & Hrange & Heq); [|lia].
      apply op_nonce_value in E as [-> Hlt].
      apply record_nonce_inj in Heq; record_consts; lia.
    + rewrite dead_nonces by done. constructor; [apply not_elem_of_nil|constructor].
  - destruct (op_without_nonce _ _ E) as [Hsame|Hd].
    + apply IH. lia.
    + rewrite dead_nonces by done. constructor.
Qed.

End Steps.

(** ** Rejected input *)

(** The buffer of a rejected record: as received, or with everything after the clear
    prefix erased, or with everything between the prefix and the tag erased. *)
Definition erased (encoded buffer : bytes) : Prop :=
  buffer = encoded \/
  exists offset, 0 <= offset <= zlen encoded /\
    (buffer = slice_to encoded offset ++ zeros (zlen encoded - offset) \/
     offset + 16 <= zlen encoded /\
     buffer = slice_to encoded offset ++ zeros (zlen encoded - offset - 16)
              ++ slice_from encoded (zlen encoded - 16)).

Section Erasure.
Context `{Kdf} `{AeadLaws}.

Lemma decrypt_now_ok c nonce aad sealed sealed' :
  SoftwareCipher_decrypt_now c nonce aad sealed = (sealed', Ok tt) ->
  16 <= zlen sealed /\ zlen sealed' = zlen sealed /\
  slice_from sealed' (zlen sealed - 16) = slice_from sealed (zlen sealed - 16).
Proof.
  unfold SoftwareCipher_decrypt_now. intros Hd. case_all. zbool.
  apply gcm_seal_open, gcm_seal_lengths in Heqo as [Hl Ht].
  rewrite zlen_slice_to in Hl by lia. split; [done|].
  rewrite slice_from_app by lia. split; [|done]. zlen_lia.
Qed.

Lemma accept_open_err r sealed r' sealed' e :
  Records_accept_open r sealed = (r', sealed', Err e) ->
  sealed' = zeros (zlen sealed - 16) ++ slice_from sealed (zlen sealed - 16).
Proof. unfold Records_accept_open. intros. case_all. Qed.

Lemma erased_all encoded offset :
  0 <= offset <= zlen encoded ->
  erased encoded (slice_to encoded offset ++ zeros (zlen (slice_from encoded offset))).
Proof.
  intros Ho. right. exists offset. split; [done|]. left. by rewrite zlen_slice_from.
Qed.

Lemma erased_plaintext encoded offset sealed' :
  0 <= offset <= zlen encoded ->
  16 <= zlen (slice_from encoded offset) /\ zlen sealed' = zlen (slice_from encoded offset) /\
  slice_from sealed' (zlen (slice_from encoded offset) - 16) =
    slice_from (slice_from encoded offset) (zlen (slice_from encoded offset) - 16) ->
  erased encoded (slice_to encoded offset ++ zeros (zlen sealed' - 16)
                  ++ slice_from sealed' (zlen sealed' - 16)).
Proof.
  intros Ho (H16 & Hl & Hs). rewrite Hl, Hs. rewrite zlen_slice_from in * by done.
  right. exists offset. split; [done|]. right. split; [lia|].
  f_equal. f_equal. unfold slice_from, zlen in *. rewrite drop_drop. f_equal. lia.
Qed.

Lemma check_encoded_offset r encoded offset :
  Records_check_encoded r encoded = Ok offset -> 0 <= offset <= zlen encoded.
Proof.
  unfold Records_check_encoded, Records_prefix_size. intros. case_all; zbool; record_consts; lia.
Qed.

(** A rejected record releases nothing: when opening fails, for whatever reason,
    the caller's buffer holds either the bytes it received or those bytes with the
    plaintext region overwritten by zeros, and the direction is closed for good. *)
Theorem rejected_record_erased r encoded r' buffer e :
  Records_open r encoded = (r', buffer, Err e) -> erased encoded buffer /\ dead r'.
Proof.
  unfold Records_open, Operation. intros Hopen.
  destruct (Records_open_with r encoded) as [[r1 b1] [m|e1]] eqn:How; [done|]. simplify_eq.
  split; [|apply dead_close]. unfold Records_open_with in How.
  destruct (Records_check_encoded r encoded) as [offset|] eqn:Hc; [|simplify_eq; by left].
  apply check_encoded_offset in Hc.
  destruct (Records_next_key r) as [r2 [[key nonce]|]]; [|simplify_eq; by left].
  destruct (from_key key) as [c|]; [|simplify_eq; by left].
  destruct (decrypt c nonce _ _) as [sealed [[]|]] eqn:Hd.
  - apply decrypt_now_ok in Hd. destruct (Records_accept_open r2 sealed) as [[r3 s3] out] eqn:Ha.
    simplify_eq. apply accept_open_err in Ha as ->. by apply erased_plaintext.
  - apply decrypt_length in Hd. simplify_eq. rewrite Hd. by apply erased_all.
Qed.

Lemma start_header_length encoded header :
  start_header encoded = Ok header -> 0 <= zlen header + 6 <= zlen encoded.
Proof.
  unfold start_header. intros. case_all. zbool.
  rewrite zlen_slice by (record_consts; lia). record_consts. lia.
Qed.

Lemma rejected_start_erased secret session_id number direction encoded buffer e :
  Records_authenticate_start secret session_id number direction encoded = (buffer, Err e) ->
  erased encoded buffer.
Proof.
  unfold Records_authenticate_start. intros Hs.
  destruct (start_header encoded) as [header|] eqn:Hh; [|simplify_eq; by left].
  apply start_header_length in Hh.
  destruct (Keys_new _ _ _ _) as [keys|]; [|simplify_eq; by left].
  destruct (Records_next_key _) as [r2 [[key nonce]|]]; [|simplify_eq; by left].
  destruct (SoftwareCipher_new key) as [c|]; [|simplify_eq; by left].
  destruct (SoftwareCipher_decrypt_now c nonce _ _) as [sealed [[]|]] eqn:Hd.
  - apply decrypt_now_ok in Hd. destruct (Records_accept_open r2 sealed) as [[r3 s3] [[]|]] eqn:Ha;
      [done|]. simplify_eq. apply accept_open_err in Ha as ->. by apply erased_plaintext.
  - pose proof (decrypt_length c nonce _ _ _ _ Hd) as Hl. simplify_eq. rewrite Hl. by apply erased_all.
Qed.

End Erasure.

(** * Theory

    Bounds of the record layer: record counts, body sizes, wire sizes, and the
    exact language of record sequences a direction accepts. *)

(** ** What one operation can do to a direction *)

(** A record accepted in state [r] moves it on; otherwise it is closed or unchanged. *)
Inductive record_step (r : Records) : Records -> Prop :=
| step_advance keys kind size :
    0 <= size -> Records_check r kind size = Ok tt ->
    record_step r (Records_advance (set_keys r keys) kind size)
| step_close keys : record_step r (Records_close (set_keys r keys))
| step_stay : record_step r r.

Lemma set_keys_id r : set_keys r (rc_keys r) = r.
Proof. by destruct r. Qed.

Lemma step_close_id r : record_step r (Records_close r).
Proof. rewrite <- (set_keys_id r) at 2. apply step_close. Qed.

Section Shape.
Context `{Kdf} {C : Type} `{HC : !Cipher C, !CipherLaws C}.

Lemma next_key_set_keys r r1 out :
  Records_next_key r = (r1, out) -> exists keys, r1 = set_keys r keys.
Proof.
  unfold Records_next_key. intros. case_all; [by eexists|].
  exists (rc_keys r1). by rewrite set_keys_id.
Qed.

Lemma check_encoded_size r encoded offset :
  Records_check_encoded r encoded = Ok offset -> 0 <= offset /\ offset + 17 <= zlen encoded.
Proof.
  unfold Records_check_encoded, Records_prefix_size. intros. case_all; zbool; record_consts; try lia.
Qed.

Lemma seal_begin_inv r kind content r1 out :
  Records_seal_begin r kind content = (r1, out) ->
  (exists keys, r1 = set_keys r keys) /\
  (forall v, out = Ok v -> Records_check r kind (zlen content) = Ok tt).
Proof.
  unfold Records_seal_begin. intros Hb.
  destruct (Records_encode r kind content) as [encoded|] eqn:Henc.
  2:{ simplify_eq. split; [exists (rc_keys r1); by rewrite set_keys_id|done]. }
  assert (Records_check r kind (zlen content) = Ok tt).
  { unfold Records_encode in Henc. by destruct (Records_check _ _ _) as [[]|]. }
  destruct (Records_prefix_size r encoded); simplify_eq.
  - destruct (Records_next_key r) eqn:Hn. apply next_key_set_keys in Hn as [keys ->].
    simplify_eq. split; [by eexists|done].
  - split; [exists (rc_keys r1); by rewrite set_keys_id|done].
Qed.

Lemma seal_async_step r cancelled kind content :
  record_step r (Records_seal_async (C := C) cancelled r kind content).1.
Proof.
  unfold Records_seal_async, Records_seal_with, Operation.
  destruct (Records_seal_begin r kind content) as [r1 out] eqn:Hb.
  apply seal_begin_inv in Hb as [[keys ->] Hchk].
  case_all; simpl; eauto using step_close, step_close_id.
  all: apply step_advance; [by apply zlen_nonneg|by eapply Hchk].
Qed.

Lemma open_async_step r cancelled encoded :
  record_step r (Records_open_async (C := C) cancelled r encoded).1.
Proof.
  unfold Records_open_async, Records_open_with, Operation.
  destruct (Records_check_encoded r encoded) as [offset|] eqn:Hc; [|apply step_close_id].
  apply check_encoded_size in Hc as [Hoff Hlen].
  destruct (Records_next_key r) as [r1 out] eqn:Hn. apply next_key_set_keys in Hn as [keys ->].
  assert (forall c nonce sealed o,
    decrypt c nonce (slice_to encoded offset) (slice_from encoded offset) = (sealed, o) ->
    let '(r2, _, out) := Records_accept_open (set_keys r keys) sealed in
    match out with Ok _ => record_step r r2 | Err _ => r2 = set_keys r keys end) as Haccept.
  { intros c nonce sealed o Hd. apply decrypt_length in Hd.
    rewrite zlen_slice_from in Hd by lia. unfold Records_accept_open.
    destruct (Kind_try_from _); [|done]. rewrite check_set_keys.
    destruct (Records_check r _ _) as [[]|] eqn:Hchk; [|done].
    by apply step_advance; [lia|]. }
  case_all; simpl; eauto using step_close, step_close_id;
    match goal with
    | Hd : decrypt _ _ _ _ = _, Ha : Records_accept_open _ _ = _ |- _ =>
        specialize (Haccept _ _ _ _ Hd); rewrite Ha in Haccept; subst; eauto using step_close
    end.
Qed.

Lemma run_op_step r op : record_step r (run_op (C := C) r op).
Proof.
  destruct op; simpl.
  - apply seal_async_step.
  - apply open_async_step.
  - unfold Records_complete. case_match; [apply step_stay|apply step_close_id].
  - apply step_close_id.
Qed.

End Shape.

(** ** Uploads *)

(** Only the last data record of an upload may be short, so the number of records
    follows the body size. *)
Definition request_inv (r : Records) : Prop :=
  rc_direction r = Request /\ 0 <= rc_sequence r <= MAX_REQUEST_RECORDS /\
  0 <= rc_body_bytes r <= MAX_REQUEST_BODY /\
  match rc_phase r with
  | PMetadata => rc_sequence r = 0 /\ rc_body_bytes r = 0
  | PBody => 1 <= rc_sequence r /\ rc_body_bytes r = (rc_sequence r - 1) * MAX_RECORD_PLAINTEXT
  | PTail => 2 <= rc_sequence r /\
      (rc_sequence r - 2) * MAX_RECORD_PLAINTEXT < rc_body_bytes r
  | PFinished | PFailed => True
  end.

Lemma request_inv_advance r keys kind size :
  request_inv r -> 0 <= size -> Records_check r kind size = Ok tt ->
  request_inv (Records_advance (set_keys r keys) kind size).
Proof.
  intros (Hd & Hseq & Hbody & Hphase) Hsize Hchk.
  unfold Records_check in Hchk. rewrite Hd in Hchk.
  unfold request_inv, Records_advance, max_body in *. simpl. rewrite Hd.
  change MAX_REQUEST_RECORDS with 2051 in *.
  destruct kind, (rc_phase r) eqn:Hp; simpl in *; case_all; zbool; record_consts;
    split_and!; try done; try lia.
Qed.

Lemma request_inv_step r r' : request_inv r -> record_step r r' -> request_inv r'.
Proof.
  intros Hinv [keys kind size Hs Hc|keys|]; [by apply request_inv_advance| |done].
  destruct Hinv as (? & ? & ? & ?). unfold request_inv. simpl. done.
Qed.

Definition records_reachable `{Kdf} {C} `{!Cipher C} (r r' : Records) : Prop :=
  rtc (fun a b => exists op, run_op (C := C) a op = b) r r'.

(** An upload never needs more than [MAX_REQUEST_RECORDS] records and never
    carries more than [MAX_REQUEST_BODY] bytes: in every state reachable from a fresh
    request direction by any operations, the record counter and the body counter stay
    within the published limits, so neither can overflow. *)
Theorem upload_bounded `{Kdf} {C} `{!Cipher C, !CipherLaws C} keys header r :
  records_reachable (C := C) (Records_from_keys keys Request header) r ->
  0 <= rc_sequence r <= MAX_REQUEST_RECORDS /\ 0 <= rc_body_bytes r <= MAX_REQUEST_BODY.
Proof.
  intros Hr. cut (request_inv r); [intros (_ & ? & ? & _); done|].
  assert (request_inv (Records_from_keys keys Request header)) as Hinv.
  { unfold request_inv. simpl. split; [done|].
    change MAX_REQUEST_RECORDS with 2051. record_consts. lia. }
  induction Hr as [|a b c [op <-] _ IH]; [done|].
  apply IH. eapply request_inv_step; [done|apply run_op_step].
Qed.

(** ** Bytes on the wire *)

Definition wire_bytes (encs : list bytes) : Z := fold_right (fun e acc => zlen e + acc) 0 encs.

(** Upper bound on what a writer has sent, from its counters. *)
Definition wire_budget (r : Records) : Z :=
  rc_sequence r * RECORD_OVERHEAD + rc_body_bytes r
  + (if rc_sequence r =? 0 then 0 else 2 + HEADER_BYTES)
  + (if bool_decide (rc_phase r = PMetadata) then 0 else MAX_RECORD_PLAINTEXT).

(** Counters of either direction. *)
Definition counters_inv (r : Records) : Prop :=
  0 <= rc_sequence r <= MAX_RECORDS /\ 0 <= rc_body_bytes r <= max_body (rc_direction r).

Lemma counters_inv_advance r keys kind size :
  counters_inv r -> 0 <= size -> Records_check r kind size = Ok tt ->
  counters_inv (Records_advance (set_keys r keys) kind size).
Proof.
  intros [Hseq Hbody] Hsize Hchk. unfold counters_inv, Records_check in *.
  destruct kind; simpl; case_all; zbool; lia.
Qed.

Lemma wire_budget_advance r keys kind size prefix :
  0 <= rc_sequence r -> 0 <= size -> Records_check r kind size = Ok tt ->
  prefix_ok r size prefix ->
  wire_budget r + (zlen prefix + 17 + size)
  <= wire_budget (Records_advance (set_keys r keys) kind size).
Proof.
  intros Hseq Hsize Hchk (Hfirst & Hlater & _ & Hmax). unfold wire_budget, Records_check in *.
  rewrite advance_sequence. change (rc_sequence (set_keys r keys)) with (rc_sequence r).
  assert ((rc_sequence r + 1 =? 0) = false) as -> by lia.
  assert (zlen prefix + 17 = RECORD_OVERHEAD + (if rc_sequence r =? 0 then 2 + HEADER_BYTES else 0)) as Hpre.
  { destruct (rc_sequence r =? 0) eqn:E; zbool; [destruct (Hfirst E) as [-> _]|rewrite Hlater by done];
      record_consts; lia. }
  destruct (rc_sequence r =? 0) eqn:E; destruct kind, (rc_phase r) eqn:Hp; simpl in *; try discriminate;
    case_all; zbool; record_consts; simpl in *; congruence || lia.
Qed.

Section Wire.
Context `{Kdf} `{AeadLaws}.

Lemma seal_stream_wire w msgs w' encs :
  counters_inv w -> seal_stream w msgs = (w', Ok encs) ->
  counters_inv w' /\ (request_inv w -> request_inv w') /\ rc_direction w' = rc_direction w /\
  wire_budget w + wire_bytes encs <= wire_budget w'.
Proof.
  revert w encs. induction msgs as [|[kind content] msgs IH]; intros w encs Hinv Hrun; simpl in Hrun.
  - simplify_eq. simpl. split_and!; [done..|lia].
  - destruct (Records_seal w kind content) as [w1 [enc|]] eqn:Hseal; [|done].
    destruct (seal_stream w1 msgs) as [w2 [encs'|]] eqn:Hrest; simplify_eq.
    apply seal_ok_inv in Hseal.
    edestruct (seal_with_inv _ _ _ _ _ _ (proj1 (proj1 Hinv)) Hseal)
      as (keys & keys' & key & nonce & c & ct & tag & _ & _ & _ & _ & -> & -> & Hchk & Hok & Hlen).
    pose proof (zlen_nonneg content).
    pose proof (counters_inv_advance _ (Some keys') _ _ Hinv ltac:(done) Hchk) as Hinv1.
    pose proof (wire_budget_advance _ (Some keys') _ _ _ (proj1 (proj1 Hinv)) ltac:(done) Hchk Hok).
    destruct (IH _ _ Hinv1 Hrest) as (Hi & Hr & Hd & Hw). split_and!; [done| | |].
    + intros Hreq. by apply Hr, request_inv_advance.
    + rewrite Hd. by destruct kind.
    + simpl. rewrite zlen_app, Hlen. lia.
Qed.

(** The published wire limits are enough: everything a fresh writer seals
    successfully, in any number of records, fits [MAX_REQUEST_WIRE_BYTES] together with
    the request prefix, and [MAX_RESPONSE_WIRE_BYTES] for a response. *)
Theorem wire_limits keys direction header msgs w' encs :
  seal_stream (Records_from_keys keys direction (Some header)) msgs = (w', Ok encs) ->
  match direction with
  | Request => REQUEST_PREFIX_BYTES + wire_bytes encs <= MAX_REQUEST_WIRE_BYTES
  | Response => wire_bytes encs <= MAX_RESPONSE_WIRE_BYTES
  end.
Proof.
  intros Hrun. assert (counters_inv (Records_from_keys keys direction (Some header))) as Hinv.
  { split; simpl; [|destruct direction; simpl]; record_consts; lia. }
  destruct (seal_stream_wire _ _ _ _ Hinv Hrun) as ([Hseq Hbody] & Hreq & Hd & Hw).
  simpl in Hd. rewrite Hd in Hbody. unfold wire_budget in Hw. simpl in Hw.
  destruct direction; simpl in Hbody.
  - assert (request_inv w') as (_ & Hseq' & _).
    { apply Hreq. unfold request_inv. simpl. split; [done|].
      change MAX_REQUEST_RECORDS with 2051. record_consts. lia. }
    unfold MAX_REQUEST_WIRE_BYTES. change MAX_REQUEST_RECORDS with 2051 in *.
    repeat case_match; record_consts; lia.
  - unfold MAX_RESPONSE_WIRE_BYTES. repeat case_match; record_consts; lia.
Qed.

End Wire.

(** ** The language of an upload *)

(** The records a direction accepts, without their encryption. *)
Fixpoint accept_all (r : Records) (msgs : list (Kind * bytes)) : option Records :=
  match msgs with
  | [] => Some r
  | (kind, content) :: rest =>
      match Records_check r kind (zlen content) with
      | Ok _ => accept_all (Records_advance r kind (zlen content)) rest
      | Err _ => None
      end
  end.

Definition completes (r : Records) (msgs : list (Kind * bytes)) : Prop :=
  exists r', accept_all r msgs = Some r' /\ Records_complete r' = (r', Ok tt).

Definition total_bytes (contents : list bytes) : Z :=
  fold_right (fun c acc => zlen c + acc) 0 contents.

(** Metadata, full data records, at most one short data record, completion. *)
Definition request_body (budget : Z) (msgs : list (Kind * bytes)) : Prop :=
  exists full short,
    msgs = map (pair Data) (full ++ short) ++ [(Finished, [])] /\
    Forall (fun c => zlen c = MAX_RECORD_PLAINTEXT) full /\
    (short = [] \/ exists s, short = [s] /\ 0 < zlen s < MAX_RECORD_PLAINTEXT) /\
    total_bytes (full ++ short) <= budget.

Definition request_language (msgs : list (Kind * bytes)) : Prop :=
  exists metadata body,
    msgs = (Metadata, metadata) :: body /\ 0 < zlen metadata <= MAX_RECORD_PLAINTEXT /\
    request_body MAX_REQUEST_BODY body.

Lemma complete_ok_iff r : Records_complete r = (r, Ok tt) <-> rc_phase r = PFinished.
Proof. unfold Records_complete. case_match; zbool; naive_solver. Qed.

Lemma completes_nil r : completes r [] <-> rc_phase r = PFinished.
Proof.
  unfold completes. simpl. setoid_rewrite complete_ok_iff. naive_solver.
Qed.

Lemma completes_cons r kind content rest :
  completes r ((kind, content) :: rest) <->
  Records_check r kind (zlen content) = Ok tt /\
  completes (Records_advance r kind (zlen content)) rest.
Proof.
  unfold completes. simpl. destruct (Records_check _ _ _) as [[]|]; naive_solver.
Qed.

Lemma completes_finished r msgs : rc_phase r = PFinished -> completes r msgs <-> msgs = [].
Proof.
  intros Hp. destruct msgs as [|[kind content] rest]; [by rewrite completes_nil|].
  rewrite completes_cons. unfold Records_check. rewrite Hp. naive_solver.
Qed.

Lemma check_finished r (content : bytes) :
  (rc_phase r = PBody \/ rc_phase r = PTail) -> rc_sequence r < MAX_RECORDS ->
  Records_check r Finished (zlen content) = Ok tt <-> content = [].
Proof.
  intros Hp Hs. unfold Records_check. rewrite (proj2 (Z.leb_gt _ _)) by done.
  destruct Hp as [-> | ->]; (split; [|by intros ->]); intros Hc; apply zlen_0_nil;
    simpl in *; case_all; zbool; lia.
Qed.

Lemma completes_finish_now r rest :
  (rc_phase r = PBody \/ rc_phase r = PTail) -> rc_sequence r < MAX_RECORDS ->
  forall content, completes r ((Finished, content) :: rest) <-> content = [] /\ rest = [].
Proof.
  intros Hp Hs content. rewrite completes_cons, check_finished, completes_finished by done. done.
Qed.

Lemma completes_tail r msgs :
  rc_direction r = Request -> rc_phase r = PTail -> rc_sequence r < MAX_RECORDS ->
  completes r msgs <-> msgs = [(Finished, [])].
Proof.
  intros Hd Hp Hs. destruct msgs as [|[kind content] rest].
  { rewrite completes_nil, Hp. done. }
  destruct (decide (kind = Finished)) as [->|Hk].
  { rewrite completes_finish_now by auto. naive_solver. }
  rewrite completes_cons. split; [|naive_solver]. intros [Hc _]. unfold Records_check in Hc.
  rewrite Hp, Hd in Hc. destruct kind; simpl in *; case_all.
Qed.

Lemma check_body_data r (content : bytes) :
  rc_direction r = Request -> rc_phase r = PBody -> rc_sequence r < MAX_RECORDS ->
  rc_body_bytes r <= MAX_REQUEST_BODY ->
  Records_check r Data (zlen content) = Ok tt <->
  0 < zlen content <= MAX_RECORD_PLAINTEXT /\ rc_body_bytes r + zlen content <= MAX_REQUEST_BODY.
Proof.
  intros Hd Hp Hs Hb. unfold Records_check. rewrite Hd, Hp, (proj2 (Z.leb_gt _ _)) by done.
  pose proof (zlen_nonneg content). simpl.
  split; intros; case_all; zbool; try lia.
  all: repeat match goal with Hx : _ || _ = true |- _ => apply orb_true_iff in Hx as [Hx|Hx] end; zbool; lia.
Qed.

Lemma total_bytes_nonneg l : 0 <= total_bytes l.
Proof. induction l; simpl; [lia|]. pose proof (zlen_nonneg a). lia. Qed.

Lemma request_body_data budget content rest :
  0 < zlen content <= MAX_RECORD_PLAINTEXT ->
  request_body budget ((Data, content) :: rest) <->
  (if zlen content <? MAX_RECORD_PLAINTEXT
   then zlen content <= budget /\ rest = [(Finished, [])]
   else request_body (budget - zlen content) rest).
Proof.
  intros Hc. destruct (zlen content <? MAX_RECORD_PLAINTEXT) eqn:E; zbool; split.
  - intros (full & short & Heq & Hfull & Hshort & Ht). destruct full as [|f full].
    + destruct Hshort as [->|(s & -> & Hs)]; simplify_eq/=. split; [lia|done].
    + apply Forall_cons in Hfull as [Hf _]. simplify_eq/=. lia.
  - intros [Hb ->]. exists [], [content]. simpl. split_and!; [done|constructor|right; exists content; split; [done|lia]|lia].
  - intros (full & short & Heq & Hfull & Hshort & Ht). destruct full as [|f full].
    + destruct Hshort as [->|(s & -> & Hs)]; simplify_eq/=. lia.
    + apply Forall_cons in Hfull as [Hf Hfull]. simplify_eq/=.
      exists full, short. split_and!; [done|done|done|lia].
  - intros (full & short & -> & Hfull & Hshort & Ht). exists (content :: full), short.
    simpl. split_and!; [done|constructor; [lia|done]|done|lia].
Qed.

Lemma completes_body r msgs :
  request_inv r -> rc_phase r = PBody ->
  completes r msgs <-> request_body (MAX_REQUEST_BODY - rc_body_bytes r) msgs.
Proof.
  revert r. induction msgs as [|[kind content] rest IH]; intros r Hinv Hp.
  { rewrite completes_nil, Hp. split; [done|]. intros (full & short & Heq & _).
    by destruct (map _ _). }
  pose proof Hinv as (Hd & Hseq & Hb & Hphase). rewrite Hp in Hphase.
  assert (rc_sequence r < MAX_RECORDS) as Hlt.
  { change MAX_REQUEST_RECORDS with 2051 in *. record_consts. lia. }
  destruct kind.
  - rewrite completes_cons. split.
    + intros [Hc _]. unfold Records_check in Hc. rewrite Hp in Hc. case_all.
    + intros (full & short & Heq & _). destruct full, short; simplify_eq/=.
  - destruct (decide (Records_check r Data (zlen content) = Ok tt)) as [Hc|Hc].
    2:{ rewrite completes_cons. split; [naive_solver|]. intros Hbody. destruct Hc.
        apply check_body_data; [done..|lia|].
        destruct Hbody as (full & short & Heq & Hfull & Hshort & Ht).
        pose proof (total_bytes_nonneg (tail (full ++ short))).
        destruct full as [|f full]; simplify_eq/=.
        + destruct Hshort as [->|(s & -> & Hs)]; simplify_eq/=. lia.
        + apply Forall_cons in Hfull as [Hf _]. record_consts. lia. }
    pose proof Hc as Hc'. apply check_body_data in Hc' as [Hrange Hfit]; [|done..|lia].
    pose proof (request_inv_advance r (rc_keys r) Data _ Hinv (zlen_nonneg _) Hc) as Hinv'.
    rewrite set_keys_id in Hinv'.
    rewrite completes_cons, request_body_data by lia.
    destruct (zlen content <? MAX_RECORD_PLAINTEXT) eqn:E.
    + rewrite completes_tail; [naive_solver lia|by simpl; rewrite Hd|simpl; by rewrite Hd, E|].
      destruct Hinv' as (_ & ? & _). change MAX_REQUEST_RECORDS with 2051 in *. record_consts. lia.
    + rewrite IH; [|done|simpl; by rewrite Hd, E]. simpl.
      replace (MAX_REQUEST_BODY - (rc_body_bytes r + zlen content))
        with (MAX_REQUEST_BODY - rc_body_bytes r - zlen content) by lia. naive_solver.
  - rewrite completes_finish_now by auto. split.
    + intros [-> ->]. exists [], []. simpl. split_and!; [done|constructor|by left|lia].
    + intros (full & short & Heq & _). destruct full, short; simplify_eq/=; done.
  - rewrite completes_cons. split.
    + intros [Hc _]. unfold Records_check in Hc. rewrite Hp, Hd in Hc. simpl in Hc. case_all.
    + intros (full & short & Heq & _). destruct full, short; simplify_eq/=.
Qed.

Lemma fresh_check keys header kind (content : bytes) :
  Records_check (Records_from_keys keys Request header) kind (zlen content) = Ok tt <->
  kind = Metadata /\ 0 < zlen content <= MAX_RECORD_PLAINTEXT.
Proof.
  unfold Records_check. simpl. pose proof (zlen_nonneg content).
  split; intros; destruct kind; case_all; zbool; naive_solver lia.
Qed.

Lemma fresh_metadata_inv keys header size :
  request_inv (Records_advance (Records_from_keys keys Request header) Metadata size).
Proof.
  unfold request_inv. simpl. split; [done|].
  change MAX_REQUEST_RECORDS with 2051. record_consts. lia.
Qed.

Lemma upload_accepted keys header msgs :
  request_language msgs -> completes (Records_from_keys keys Request header) msgs.
Proof.
  intros (m & b & -> & Hm & Hb). apply completes_cons. split; [by apply fresh_check|].
  apply completes_body; [apply fresh_metadata_inv|done|]. by rewrite Z.sub_0_r.
Qed.

(** The record state machine accepts exactly the uploads the protocol describes:
    a complete upload is one non-empty metadata record, then full data records, then at
    most one short data record, then completion, with at most [MAX_REQUEST_BODY] bytes
    of data in all. Every such upload is accepted, and nothing else is. *)
Theorem upload_language keys header msgs :
  completes (Records_from_keys keys Request header) msgs <-> request_language msgs.
Proof.
  split; [|apply upload_accepted]. destruct msgs as [|[kind content] rest].
  { by rewrite completes_nil. }
  rewrite completes_cons, fresh_check. intros [[-> Hm] Hrest].
  apply completes_body in Hrest; [|apply fresh_metadata_inv|done].
  exists content, rest. by rewrite Z.sub_0_r in Hrest.
Qed.

(** ** Legal records can always be sealed *)

Section Liveness.
Context `{KdfLaws} `{AeadLaws}.

(** The writer has key material, and its first record has room for the start header. *)
Definition can_seal (w : Records) (size : Z) : Prop :=
  0 <= rc_sequence w /\
  (exists keys, rc_keys w = Some keys /\ zlen (chain keys) = 32) /\
  (rc_sequence w = 0 -> exists h, rc_header w = Some h /\ zlen h = HEADER_BYTES /\
     size <= MAX_RECORD_PLAINTEXT - 2 - HEADER_BYTES).

Lemma encode_ok w kind content :
  can_seal w (zlen content) -> Records_check w kind (zlen content) = Ok tt ->
  exists encoded offset, Records_encode w kind content = Ok encoded /\
    Records_prefix_size w encoded = Ok offset.
Proof.
  intros (Hseq & _ & Hfirst) Hchk. unfold Records_encode. rewrite Hchk.
  assert (zlen content <= MAX_RECORD_PLAINTEXT).
  { unfold Records_check in Hchk. case_all; zbool; lia. }
  unfold Records_prefix_size. destruct (rc_sequence w =? 0) eqn:E; zbool.
  - destruct (Hfirst E) as (h & -> & Hh & Hfit). simpl. rewrite Hh.
    rewrite !(proj2 (Z.ltb_ge _ _)) by (record_consts; lia).
    eexists _, _. split; [done|]. zlen_norm. rewrite Hh.
    rewrite (slice_app_skip (u32_be _)) by (rewrite zlen_be_bytes; lia).
    rewrite zlen_be_bytes, <- app_assoc, slice_app_here by done.
    rewrite be_value_bytes_small by (record_consts; lia). rewrite Z.eqb_refl.
    pose proof (zlen_nonneg content).
    by rewrite !(proj2 (Z.ltb_ge _ _)) by (record_consts; lia).
  - rewrite !(proj2 (Z.ltb_ge _ _)) by (record_consts; lia). by eexists _, _.
Qed.

Lemma keys_next_ok keys sequence :
  zlen (chain keys) = 32 ->
  exists keys' key nonce, Keys_next keys sequence = (keys', Ok (key, nonce)) /\
    zlen (chain keys') = 32 /\ zlen key = 32.
Proof.
  intros Hc. unfold Keys_next.
  destruct (hkdf_sha256_total (chain keys) (STEP_DOMAIN ++ u64_be sequence) 64) as [m Hm]; [lia..|].
  rewrite Hm. apply hkdf_sha256_length in Hm; [|lia].
  eexists _, _, _. split; [done|]. simpl.
  rewrite zlen_slice_to, zlen_slice_from by lia. lia.
Qed.

Lemma seal_progress w kind content :
  can_seal w (zlen content) -> Records_check w kind (zlen content) = Ok tt ->
  exists keys' enc,
    Records_seal w kind content
    = (Records_advance (set_keys w (Some keys')) kind (zlen content), Ok enc) /\
    zlen (chain keys') = 32.
Proof.
  intros Hcan Hchk. destruct (encode_ok _ _ _ Hcan Hchk) as (encoded & offset & Henc & Hoff).
  pose proof Hcan as (Hseq & (keys & Hkeys & Hchain) & _).
  destruct (encode_prefix_shape _ _ _ _ _ Hseq Henc Hoff) as (_ & Hshape & Hlen & _ & _ & _ & Hmax).
  destruct (keys_next_ok keys (rc_sequence w) Hchain) as (keys' & key & nonce & Hnext & Hc' & Hk).
  unfold Records_seal, Records_seal_with, Records_seal_begin, Records_next_key.
  rewrite Henc, Hoff, Hkeys, Hnext.
  destruct (from_key_total (C := SoftwareCipher) key Hk) as [c ->].
  destruct (encrypt_total c nonce (slice_to encoded offset) (slice_from encoded offset)) as (ct & tag & ->).
  { rewrite Hshape, slice_from_app by done. pose proof (zlen_nonneg (record_prefix w (zlen content))).
    rewrite zlen_cons. record_consts. lia. }
  by eexists _, _.
Qed.

(** The sealing state follows the accepted records. *)
Definition follows (w r : Records) : Prop :=
  rc_sequence w = rc_sequence r /\ rc_body_bytes w = rc_body_bytes r /\
  rc_direction w = rc_direction r /\ rc_phase w = rc_phase r.

Lemma seal_stream_progress w r msgs r' :
  follows w r -> 0 < rc_sequence w ->
  (closed_phase (rc_phase w) = false -> exists keys, rc_keys w = Some keys /\ zlen (chain keys) = 32) ->
  accept_all r msgs = Some r' ->
  exists w' encs, seal_stream w msgs = (w', Ok encs) /\ follows w' r'.
Proof.
  revert w r. induction msgs as [|[kind content] msgs IH]; intros w r Hf Hs Hkeys Hacc; simpl in *.
  { simplify_eq. by eexists _, _. }
  pose proof Hf as (Hseq & Hb & Hd & Hp).
  destruct (Records_check r kind (zlen content)) as [[]|] eqn:Hchk; [|done].
  assert (Records_check w kind (zlen content) = Ok tt) as Hchk'.
  { unfold Records_check in *. by rewrite Hseq, Hb, Hd, Hp. }
  destruct (seal_progress w kind content) as (keys' & enc & Hseal & Hc'); [|done|].
  { split; [lia|]. split; [|lia]. apply Hkeys. unfold Records_check in Hchk'.
    by destruct (closed_phase (rc_phase w)). }
  rewrite Hseal.
  edestruct (IH (Records_advance (set_keys w (Some keys')) kind (zlen content)))
    as (w' & encs & Hrest & Hf'); [| | |exact Hacc|].
  - unfold follows. destruct kind; simpl; rewrite ?Hseq, ?Hb, ?Hd, ?Hp; done.
  - rewrite advance_sequence. simpl. lia.
  - destruct kind; simpl; try done; by eauto.
  - exists w', (enc :: encs). by rewrite Hrest.
Qed.

(** Every upload of the protocol's language goes through: a fresh writer with a
    ratchet header seals all its records, and a fresh reader with the same key opens
    exactly those records and reports completion. *)
Theorem upload_delivered keys header msgs :
  zlen (chain keys) = 32 -> zlen header = HEADER_BYTES ->
  request_language msgs ->
  (forall content rest, msgs = (Metadata, content) :: rest ->
     zlen content <= MAX_RECORD_PLAINTEXT - 2 - HEADER_BYTES) ->
  exists w' encs rd',
    seal_stream (Records_from_keys keys Request (Some header)) msgs = (w', Ok encs) /\
    open_stream (Records_from_keys keys Request None) encs = (rd', Ok msgs) /\
    Records_complete rd' = (rd', Ok tt).
Proof.
  intros Hchain Hheader Hlang Hfit.
  pose proof Hlang as Hl. apply (upload_accepted keys (Some header)) in Hlang as (r' & Hacc & Hdone).
  destruct Hl as (m & body & -> & Hm & _). specialize (Hfit _ _ eq_refl). simpl in Hacc.
  set (w := Records_from_keys keys Request (Some header)) in *.
  destruct (Records_check w Metadata (zlen m)) as [[]|] eqn:Hchk; [|done].
  destruct (seal_progress w Metadata m) as (keys' & enc & Hseal & Hc'); [|done|].
  { split; [done|]. split; [by eexists|]. intros _. by eexists. }
  destruct (seal_stream_progress (Records_advance (set_keys w (Some keys')) Metadata (zlen m))
    (Records_advance w Metadata (zlen m)) body r') as (w' & encs & Hrest & Hf); [done|done| |done|].
  { intros _. by eexists. }
  assert (seal_stream w ((Metadata, m) :: body) = (w', Ok (enc :: encs))) as Hrun.
  { simpl. by rewrite Hseal, Hrest. }
  destruct (seal_open_stream w (Records_from_keys keys Request None) _ _ _ ltac:(done) ltac:(done) Hrun)
    as (rd' & Hopen & Hsync).
  exists w', (enc :: encs), rd'. split; [done|]. split; [done|].
  apply complete_ok_iff in Hdone. apply complete_ok_iff.
  destruct Hsync as (_ & _ & _ & _ & <-). by destruct Hf as (_ & _ & _ & ->).
Qed.

End Liveness.
