(* ===== verification/BTree.v ===== *)
(** [std::collections::BTreeMap]: over integer keys a finite map with ascending iteration,
    over strings a list in key order, since the program compares, prints and iterates such
    maps. *)

From S2P Require Import Prelude.

Open Scope Z_scope.

Definition key_le {V} (x y : Z * V) : Prop := x.1 <= y.1.
#[export] Instance key_le_dec {V} : RelDecision (@key_le V).
Proof. intros x y. unfold key_le. apply _. Defined.
#[export] Instance key_le_trans {V} : Transitive (@key_le V).
Proof. intros x y z. unfold key_le. lia. Qed.
#[export] Instance key_le_total {V} : Total (@key_le V).
Proof. intros x y. unfold key_le. lia. Qed.

(** Iteration in ascending key order. *)
Definition bt_iter {V} (m : gmap Z V) : list (Z * V) := merge_sort key_le (map_to_list m).

Definition bt_first {V} (m : gmap Z V) : option (Z * V) := head (bt_iter m).

Definition bt_len {V} (m : gmap Z V) : Z := Z.of_nat (size m).

Lemma bt_iter_lookup {V} (m : gmap Z V) k v : (k, v) ∈ bt_iter m <-> m !! k = Some v.
Proof. unfold bt_iter. by rewrite merge_sort_Permutation, elem_of_map_to_list. Qed.

Lemma bt_iter_sorted {V} (m : gmap Z V) : StronglySorted key_le (bt_iter m).
Proof. apply StronglySorted_merge_sort; apply _. Qed.

Lemma bt_first_Some {V} (m : gmap Z V) k v :
  bt_first m = Some (k, v) ->
  m !! k = Some v /\ forall k' v', m !! k' = Some v' -> k <= k'.
Proof.
  unfold bt_first. intros Hf. pose proof (bt_iter_sorted m) as Hs.
  pose proof (fun k v => bt_iter_lookup m k v) as Hl.
  destruct (bt_iter m) as [|x l] eqn:E; simplify_eq/=. split.
  - apply Hl. by left.
  - intros k' v' Hk'. apply Hl in Hk'. apply elem_of_cons in Hk' as [?|Hin]; simplify_eq; [lia|].
    apply StronglySorted_inv in Hs as [_ Hs]. rewrite Forall_forall in Hs.
    by apply (Hs _ Hin).
Qed.

Lemma bt_first_None {V} (m : gmap Z V) : bt_first m = None -> m = ∅.
Proof.
  unfold bt_first. intros Hf. apply map_empty. intros k.
  destruct (m !! k) as [v|] eqn:E; [|done]. apply bt_iter_lookup in E.
  destruct (bt_iter m); [by apply elem_of_nil in E|done].
Qed.

Lemma bt_len_nonneg {V} (m : gmap Z V) : 0 <= bt_len m.
Proof. unfold bt_len. lia. Qed.

Lemma bt_len_insert {V} (m : gmap Z V) k v :
  m !! k = None -> bt_len (<[k:=v]> m) = bt_len m + 1.
Proof. intros Hk. unfold bt_len. rewrite map_size_insert_None by done. lia. Qed.

Lemma bt_len_delete {V} (m : gmap Z V) k :
  is_Some (m !! k) -> bt_len (delete k m) = bt_len m - 1.
Proof.
  intros [v Hk]. unfold bt_len. rewrite map_size_delete, Hk.
  enough (size m <> 0)%nat by lia. intros Hz. apply map_size_empty_inv in Hz.
  subst. by rewrite lookup_empty in Hk.
Qed.

#[export] Hint Resolve bt_len_nonneg : stogas.

(** ** String keys *)

(** The byte order of Rust's [str]. *)
Fixpoint bytes_ltb (a b : bytes) : bool :=
  match a, b with
  | _, [] => false
  | [], _ :: _ => true
  | x :: a, y :: b =>
      (byte_to_Z x <? byte_to_Z y) || (bool_decide (x = y) && bytes_ltb a b)
  end.

Fixpoint bm_insert {V} (k : bytes) (v : V) (m : list (bytes * V)) : list (bytes * V) :=
  match m with
  | [] => [(k, v)]
  | (k', v') :: rest =>
      if bool_decide (k = k') then (k, v) :: rest
      else if bytes_ltb k k' then (k, v) :: m
      else (k', v') :: bm_insert k v rest
  end.

Definition bm_get {V} (m : list (bytes * V)) (k : bytes) : option V :=
  snd <$> List.find (fun '(k', _) => bool_decide (k' = k)) m.

(** [collect]: later entries replace earlier ones. *)
Definition bm_of_list {V} (l : list (bytes * V)) : list (bytes * V) :=
  fold_left (fun m '(k, v) => bm_insert k v m) l [].

Lemma bm_get_insert {V} k (v : V) m k' :
  bm_get (bm_insert k v m) k' = if bool_decide (k = k') then Some v else bm_get m k'.
Proof.
  unfold bm_get. induction m as [|[k1 v1] m IH]; cbn [bm_insert].
  - cbn [List.find]. by case_bool_decide.
  - destruct (bool_decide (k = k1)) eqn:E1; [|destruct (bytes_ltb k k1)]; zbool; subst; cbn [List.find];
      repeat case_bool_decide; simplify_eq; try done; rewrite IH; by rewrite ?bool_decide_true, ?bool_decide_false by done.
Qed.

Lemma bm_get_in {V} (m : list (bytes * V)) k v : bm_get m k = Some v -> (k, v) ∈ m.
Proof.
  unfold bm_get. destruct (List.find _ m) as [[k' v']|] eqn:E; [|done]. intros [= <-].
  apply find_some in E as [Hin E]. zbool. subst. by apply list_elem_of_In.
Qed.

Lemma bm_get_none {V} (m : list (bytes * V)) k : bm_get m k = None <-> k ∉ m.*1.
Proof.
  unfold bm_get. rewrite fmap_None. split.
  - intros E. rewrite list_elem_of_fmap. intros ([k' v] & -> & Hin). apply list_elem_of_In in Hin.
    apply (find_none _ _ E) in Hin. by apply bool_decide_eq_false in Hin.
  - intros Hn. destruct (List.find _ m) as [[k' v]|] eqn:E; [|done]. apply find_some in E as [Hin E]. zbool. subst.
    destruct Hn. apply list_elem_of_fmap. exists (k, v). by rewrite list_elem_of_In.
Qed.

Lemma bm_insert_in {V} k (v : V) m x : x ∈ bm_insert k v m -> x = (k, v) \/ x ∈ m.
Proof.
  induction m as [|[k1 v1] m IH]; cbn [bm_insert].
  - rewrite list_elem_of_singleton. auto.
  - case_bool_decide; [|destruct (bytes_ltb k k1)]; rewrite !elem_of_cons; tauto.
Qed.

(** The order of strings is a strict total order. *)
Lemma bytes_ltb_irrefl a : bytes_ltb a a = false.
Proof. induction a as [|x a IH]; [done|]. cbn [bytes_ltb]. by rewrite Z.ltb_irrefl, IH, andb_false_r. Qed.

Lemma bytes_ltb_trans a b c : bytes_ltb a b = true -> bytes_ltb b c = true -> bytes_ltb a c = true.
Proof.
  revert b c. induction a as [|x a IH]; intros [|y b] [|z c]; try done. cbn [bytes_ltb].
  rewrite !orb_true_iff, !andb_true_iff, !bool_decide_eq_true, !Z.ltb_lt.
  intros [?|[-> ?]] [?|[-> ?]]; [left; lia|by left|by left|right]. split; [done|]. by eapply IH.
Qed.

Lemma bytes_ltb_total a b : bytes_ltb a b = false -> a <> b -> bytes_ltb b a = true.
Proof.
  revert b. induction a as [|x a IH]; intros [|y b]; try done. cbn [bytes_ltb]. intros Hl Hn.
  apply orb_false_iff in Hl as [Hl Ht]. zbool. apply orb_true_iff. destruct (decide (x = y)) as [->|Hxy].
  - right. rewrite bool_decide_true in * by done. apply IH; [done|congruence].
  - left. apply Z.ltb_lt. enough (byte_to_Z x <> byte_to_Z y) by lia. intros E. apply Hxy.
    by rewrite <- (byte_of_Z_to_Z x), E, byte_of_Z_to_Z.
Qed.

(** A map's keys are strictly increasing. *)
Definition bm_sorted {V} (m : list (bytes * V)) : Prop :=
  StronglySorted (fun x y => bytes_ltb x.1 y.1 = true) m.

Lemma bm_insert_sorted {V} k (v : V) m : bm_sorted m -> bm_sorted (bm_insert k v m).
Proof.
  unfold bm_sorted. induction 1 as [|[k1 v1] m Hs IH Hf]; cbn [bm_insert].
  - by repeat constructor.
  - case_bool_decide as Hk; [|destruct (bytes_ltb k k1) eqn:Hl].
    + subst. by constructor.
    + constructor; [by constructor|]. constructor; [done|]. eapply Forall_impl; [exact Hf|].
      intros [k2 v2] Hlt. by eapply bytes_ltb_trans.
    + constructor; [done|]. apply Forall_forall. intros x [->|Hx]%bm_insert_in.
      * by apply bytes_ltb_total.
      * by eapply Forall_forall in Hf.
Qed.

Lemma bm_sorted_get {V} (m : list (bytes * V)) k v : bm_sorted m -> (k, v) ∈ m -> bm_get m k = Some v.
Proof.
  unfold bm_get. induction 1 as [|[k1 v1] m Hs IH Hf]; [by intros ?%not_elem_of_nil|].
  rewrite elem_of_cons. intros [[= -> ->]|Hin]; cbn [List.find].
  - by rewrite bool_decide_true.
  - rewrite bool_decide_false; [by apply IH|]. intros ->. eapply Forall_forall in Hf; [|done].
    cbn in Hf. by rewrite bytes_ltb_irrefl in Hf.
Qed.

(** Maps collected from lists. *)
Lemma bm_of_list_snoc {V} (l : list (bytes * V)) k v : bm_of_list (l ++ [(k, v)]) = bm_insert k v (bm_of_list l).
Proof. unfold bm_of_list. by rewrite fold_left_app. Qed.

Lemma bm_of_list_sorted {V} (l : list (bytes * V)) : bm_sorted (bm_of_list l).
Proof.
  induction l as [|[k v] l IH] using rev_ind; [constructor|]. rewrite bm_of_list_snoc. by apply bm_insert_sorted.
Qed.

Lemma bm_sorted_nodup {V} (m : list (bytes * V)) : bm_sorted m -> NoDup m.*1.
Proof.
  induction 1 as [|[k v] m Hs IH Hf]; [constructor|]. cbn [fmap list_fmap fst]. constructor; [|done].
  rewrite list_elem_of_fmap. intros ([k' v'] & [= <-] & Hin). rewrite Forall_forall in Hf. specialize (Hf _ Hin).
  cbn [fst] in Hf. by rewrite bytes_ltb_irrefl in Hf.
Qed.

Lemma bm_get_of_list {V} (l : list (bytes * V)) k v :
  (k, v) ∈ l -> (forall v', (k, v') ∈ l -> v' = v) -> bm_get (bm_of_list l) k = Some v.
Proof.
  induction l as [|[k1 v1] l IH] using rev_ind; [by intros ?%not_elem_of_nil|]. intros Hin Hu.
  rewrite bm_of_list_snoc, bm_get_insert. case_bool_decide as Hk.
  - subst. f_equal. apply Hu. apply elem_of_app. right. by apply list_elem_of_singleton.
  - apply IH; [|intros v' Hv; apply Hu, elem_of_app; by left].
    apply elem_of_app in Hin as [|Hin]; [done|]. by apply list_elem_of_singleton in Hin as [= <- <-].
Qed.

Lemma bm_of_list_keys {V} (l : list (bytes * V)) k : (k ∈ (bm_of_list l).*1) <-> (k ∈ l.*1).
Proof.
  induction l as [|[k1 v1] l IH] using rev_ind; [done|]. rewrite bm_of_list_snoc, fmap_app, elem_of_app, <- IH.
  cbn [fmap list_fmap fst]. rewrite list_elem_of_singleton.
  assert (forall k, (k ∉ (bm_insert k1 v1 (bm_of_list l)).*1) <-> (k ∉ (bm_of_list l).*1) /\ k <> k1) as Hn.
  { intros k'. rewrite <- !bm_get_none, bm_get_insert. case_bool_decide; naive_solver. }
  specialize (Hn k). destruct (decide (k ∈ (bm_of_list l).*1)), (decide (k = k1)),
    (decide (k ∈ (bm_insert k1 v1 (bm_of_list l)).*1)); tauto.
Qed.

Lemma bm_values {V} (d : V) (m : list (bytes * V)) :
  NoDup m.*1 -> (fun k => default d (bm_get m k)) <$> m.*1 = m.*2.
Proof.
  induction m as [|[k v] m IH]; [done|]. cbn [fmap list_fmap fst snd]. intros [Hk Hn]%NoDup_cons.
  unfold bm_get at 1. cbn [List.find]. rewrite bool_decide_true by done. cbn [fmap option_fmap option_map snd default].
  f_equal. rewrite <- (IH Hn). apply list_fmap_ext. intros i k' Hi.
  unfold bm_get. cbn [List.find]. rewrite bool_decide_false; [done|].
  intros ->. destruct Hk. by eapply list_elem_of_lookup_2.
Qed.
