(* ===== verification/Ratchet.v ===== *)
(** Post-quantum double ratchet with encrypted headers: [channel/ratchet/mod.rs],
    [channel/ratchet/keys.rs], [channel/ratchet/header.rs] and
    [channel/ratchet/peer.rs]. Shared immutable values ([Arc]) are plain values;
    erasure of dropped secrets is not represented. *)

From S2P Require Import Prelude Primitives BTree Record.

Open Scope Z_scope.

(** ** channel/ratchet/mod.rs *)

Definition MAX_SKIPPED_KEYS : Z := 256.
Definition SKIPPED_KEY_LIFETIME_MS : Z := 60000.
Definition MAX_CHAIN_MESSAGES : Z := 2 ^ 24.
Definition PROTOCOL : bytes :=
  ascii "stogas.e2ee.pqdr.v1_X25519_MLKEM768_HKDFSHA512_AES256GCM".

Inductive Retention : Type := Timed | Owned.

(** [now.saturating_add(SKIPPED_KEY_LIFETIME_MS)] for delayed request starts. *)
Definition Retention_deadline (r : Retention) (now : Z) : option Z :=
  match r with
  | Timed => Some (Z.min u64_max (now + SKIPPED_KEY_LIFETIME_MS))
  | Owned => None
  end.

Section Kdf.
Context `{Kdf}.

(** Fixed output sizes stay within the bounds of HKDF-SHA-512, so the
    [expect] of the source does not fail. *)
Definition expand (n : Z) (salt : option bytes) (input label : bytes) : bytes :=
  match hkdf_sha512_expand salt input (PROTOCOL ++ label) n with
  | Some output => output
  | None => []
  end.

End Kdf.

(** ** channel/ratchet/keys.rs *)

(** Both complete public keys in one array: X25519 and then ML-KEM-768. *)
Abbreviation PublicKeys := bytes.

Record KeyPair : Type := { kp_dh : bytes; kp_kem : bytes; kp_public : PublicKeys }.

Section KeyPairs.
Context `{Kdf} `{Agreement}.

Definition PublicKeys_validate (pk : PublicKeys) : result unit Error :=
  reject negb (zlen (slice_from pk 32) =? 1184) with Record_;
  reject negb (mlkem_validate (slice_from pk 32)) with Authentication;
  Ok tt.

Definition PublicKeys_encapsulate (pk : PublicKeys) (random : bytes)
  : result (bytes * bytes) Error :=
  reject negb (zlen (slice_from pk 32) =? 1184) with Record_;
  Ok (mlkem_encapsulate (slice_from pk 32) random).

Definition KeyPair_from_seed (seed : bytes) : KeyPair :=
  let material := expand 96 None seed (ascii ":KeyGeneration") in
  let dh := x25519_clamp (slice_to material 32) in
  let (private, public) := mlkem_generate (slice_from material 32) in
  {| kp_dh := dh; kp_kem := private; kp_public := x25519_public dh ++ public |}.

Definition KeyPair_agree (k : KeyPair) (remote : PublicKeys) : result bytes Error :=
  ok_or (x25519_ecdh (slice_to remote 32) (kp_dh k)) Authentication.

Definition KeyPair_decapsulate (k : KeyPair) (ciphertext : bytes) : bytes :=
  mlkem_decapsulate (kp_kem k) ciphertext.

End KeyPairs.

(** ** channel/ratchet/header.rs *)

Record Header : Type := {
  h_public : PublicKeys;
  h_ciphertext : bytes;
  h_previous : Z;
  h_number : Z
}.

Definition header_nonce (request : Z) : bytes := zeros 4 ++ u64_be request.

Definition Header_encode (h : Header) : bytes :=
  h_public h ++ h_ciphertext h ++ u64_be (h_previous h) ++ u64_be (h_number h).

Definition Header_decode (b : bytes) : Header := {|
  h_public := slice_to b PUBLIC_KEY_BYTES;
  h_ciphertext := slice b PUBLIC_KEY_BYTES (FIELDS_BYTES - 16);
  h_previous := be_value (slice b (FIELDS_BYTES - 16) (FIELDS_BYTES - 8));
  h_number := be_value (slice b (FIELDS_BYTES - 8) FIELDS_BYTES)
|}.

(** A header key; the source holds it inside the expanded AES-256 state. *)
Record HeaderCipher : Type := { hc_key : bytes }.

Section Headers.
Context `{Hash} `{Aead}.

Definition Header_turn (h : Header) : bytes :=
  sha256 (h_public h ++ h_ciphertext h ++ u64_be (h_previous h)).

Definition HeaderCipher_seal (c : HeaderCipher) (h : Header) (request : Z) : result bytes Error :=
  let? (ciphertext, tag) :=
    ok_or (gcm_seal (hc_key c) (header_nonce request) PROTOCOL (Header_encode h)) Crypto in
  Ok (ciphertext ++ tag).

Definition HeaderCipher_open (c : HeaderCipher) (encoded : bytes) (request : Z)
  : result Header Error :=
  reject negb (zlen encoded =? HEADER_BYTES) with Record_;
  let? plaintext := ok_or (gcm_open (hc_key c) (header_nonce request) PROTOCOL
    (slice_to encoded FIELDS_BYTES) (slice_from encoded FIELDS_BYTES)) Authentication in
  Ok (Header_decode plaintext).

End Headers.

(** ** channel/ratchet/peer.rs *)

Record Chain : Type := { ch_secret : bytes; ch_count : Z }.

Record Sending : Type := { sd_chain : Chain; sd_cipher : HeaderCipher; sd_header : Header }.

Record ReceiveHeader : Type := { rh_cipher : HeaderCipher; rh_turn : bytes }.

Record Receiving : Type := { rv_chain : Chain; rv_header : ReceiveHeader; rv_epoch : Z }.

Record Active : Type := {
  a_root : bytes;
  a_local : option KeyPair;
  a_remote : option PublicKeys;
  a_send : option Sending;
  a_receive : option Receiving;
  a_next_send : HeaderCipher;
  a_next_receive : HeaderCipher;
  a_previous_sent : Z
}.

Abbreviation KeyId := (Z * Z)%type.
Abbreviation PendingKey := (KeyId * ReceiveHeader * bytes)%type.

Record Skipped : Type := { sk_secret : bytes; sk_expires : option Z; sk_order : Z }.
Record Group : Type := { gr_header : ReceiveHeader; gr_keys : gmap Z Skipped }.

Inductive Opened : Type :=
| OCurrent (h : Header)
| ONext (h : Header)
| OSkipped (epoch : Z) (h : Header).

Record Peer : Type := {
  p_active : Active;
  p_skipped : gmap Z Group;
  p_order : gmap Z KeyId;
  p_next_order : Z;
  p_last_now : Z;
  p_retention : Retention
}.

Record SendKey : Type := { s_header : bytes; s_secret : bytes }.

(** Record updates. *)
Definition set_receive (a : Active) (r : option Receiving) : Active := {|
  a_root := a_root a; a_local := a_local a; a_remote := a_remote a; a_send := a_send a;
  a_receive := r; a_next_send := a_next_send a; a_next_receive := a_next_receive a;
  a_previous_sent := a_previous_sent a |}.

Definition set_chain (r : Receiving) (c : Chain) : Receiving :=
  {| rv_chain := c; rv_header := rv_header r; rv_epoch := rv_epoch r |}.

Definition set_active (p : Peer) (a : Active) : Peer := {|
  p_active := a; p_skipped := p_skipped p; p_order := p_order p;
  p_next_order := p_next_order p; p_last_now := p_last_now p; p_retention := p_retention p |}.

Definition set_store (p : Peer) (skipped : gmap Z Group) (order : gmap Z KeyId) (next : Z) : Peer := {|
  p_active := p_active p; p_skipped := skipped; p_order := order;
  p_next_order := next; p_last_now := p_last_now p; p_retention := p_retention p |}.

Definition received_count (a : Active) : Z :=
  match a_receive a with Some r => ch_count (rv_chain r) | None => 0 end.

(** Another remote turn needs our intervening public key. *)
Definition awaits_send (a : Active) : bool :=
  match a_receive a, a_send a with Some _, None => true | _, _ => false end.

(** Both gaps a header opens, checked before any key is derived. *)
Definition Active_skipped_count (a : Active) (h : Header) (next : bool) : result Z Error :=
  reject MAX_CHAIN_MESSAGES <=? h_number h with Limit;
  let received := received_count a in
  let? previous :=
    if next then
      reject (match a_local a with None => true | Some _ => false end) || awaits_send a with Record_;
      reject h_previous h <? received with Record_;
      Ok (h_previous h - received)
    else Ok 0 in
  let from := if next then 0 else received in
  reject h_number h <? from with Record_;
  let count := previous + (h_number h - from) in
  reject u64_max <? count with Limit;
  reject MAX_SKIPPED_KEYS <? count with Limit;
  Ok count.

Section Ratchet.
Context `{Kdf} `{Hash} `{Aead} `{Agreement}.

(** The chain advances only when its message budget allows it. *)
Definition Chain_step (c : Chain) : result (Chain * bytes) Error :=
  reject MAX_CHAIN_MESSAGES <=? ch_count c with Limit;
  let material := expand 64 None (ch_secret c) (ascii ":Chain") in
  Ok ({| ch_secret := slice_to material 32; ch_count := ch_count c + 1 |}, slice_from material 32).

(** Mixes a Diffie-Hellman and a KEM secret into the root: the new root, a chain
    and the header key of the following turn. *)
Definition Active_advance (root dh kem : bytes) : bytes * Chain * HeaderCipher :=
  let material := expand 96 (Some root) (dh ++ kem) (ascii ":Root") in
  (slice_to material 32,
   {| ch_secret := slice material 32 64; ch_count := 0 |},
   {| hc_key := slice_from material 64 |}).

(** The loop of [skip]: one pending key per step until the chain reaches [until]. *)
Fixpoint skip_loop (fuel : nat) (r : Receiving) (until : Z) (pending : list PendingKey)
  : result (Receiving * list PendingKey) Error :=
  if ch_count (rv_chain r) <? until then
    match fuel with
    | O => Err Limit
    | S fuel =>
        let number := ch_count (rv_chain r) in
        let? (chain, key) := Chain_step (rv_chain r) in
        skip_loop fuel (set_chain r chain) until
          (pending ++ [((rv_epoch r, number), rv_header r, key)])
    end
  else Ok (r, pending).

Definition Active_skip (a : Active) (until : Z) (pending : list PendingKey)
  : result (Active * list PendingKey) Error :=
  match a_receive a with
  | None => if until =? 0 then Ok (a, pending) else Err Record_
  | Some r =>
      reject until <? ch_count (rv_chain r) with Record_;
      let count := until - ch_count (rv_chain r) in
      reject Z.max 0 (MAX_SKIPPED_KEYS - zlen pending) <? count with Limit;
      let? (r', pending') := skip_loop (Z.to_nat count) r until pending in
      Ok (set_receive a (Some r'), pending')
  end.

(** The candidate state for a header and the key of its message. *)
Definition Active_begin_turn (a : Active) (h : Header) (pending : list PendingKey)
  : result (Active * list PendingKey) Error :=
  reject awaits_send a with Record_;
  let? _ := PublicKeys_validate (h_public h) in
  let? (a, pending) := Active_skip a (h_previous h) pending in
  let? local := ok_or (a_local a) Record_ in
  let? dh := KeyPair_agree local (h_public h) in
  let kem := KeyPair_decapsulate local (h_ciphertext h) in
  let '(root, chain, next_header) := Active_advance (a_root a) dh kem in
  let? epoch :=
    match a_receive a with
    | None => Ok 0
    | Some r => reject u64_max <? rv_epoch r + 1 with Limit; Ok (rv_epoch r + 1)
    end in
  Ok ({| a_root := root;
         a_local := None;
         a_remote := Some (h_public h);
         a_send := None;
         a_receive := Some {|
           rv_chain := chain;
           rv_header := {| rh_cipher := a_next_receive a; rh_turn := Header_turn h |};
           rv_epoch := epoch |};
         a_next_send := a_next_send a;
         a_next_receive := next_header;
         a_previous_sent := match a_send a with Some s => ch_count (sd_chain s) | None => 0 end |},
      pending).

Definition Active_receive_key (a : Active) (h : Header) (next : bool) (pending : list PendingKey)
  : result (Active * list PendingKey * bytes) Error :=
  let? (a, pending) := if next then Active_begin_turn a h pending else Ok (a, pending) in
  let? (a, pending) := Active_skip a (h_number h) pending in
  let? r := ok_or (a_receive a) Record_ in
  let? (chain, key) := Chain_step (rv_chain r) in
  Ok (set_receive a (Some (set_chain r chain)), pending, key).

Definition Peer_new (root : bytes) (local : option KeyPair) (remote : option PublicKeys)
    (client : bool) : Peer :=
  let material := expand 96 None root (ascii ":Initialization") in
  let alice := {| hc_key := slice material 32 64 |} in
  let bob := {| hc_key := slice_from material 64 |} in
  let (next_send, next_receive) := if client then (alice, bob) else (bob, alice) in
  {| p_active := {|
       a_root := slice_to material 32;
       a_local := local;
       a_remote := remote;
       a_send := None;
       a_receive := None;
       a_next_send := next_send;
       a_next_receive := next_receive;
       a_previous_sent := 0 |};
     p_skipped := ∅;
     p_order := ∅;
     p_next_order := 0;
     p_last_now := 0;
     p_retention := if client then Owned else Timed |}.

Definition Peer_initiator (root : bytes) (responder : PublicKeys) : result Peer Error :=
  let? _ := PublicKeys_validate responder in
  Ok (Peer_new root None (Some responder) true).

Definition Peer_responder (root : bytes) (initial : KeyPair) : Peer :=
  Peer_new root (Some initial) None false.

(** [InitialKey::generate] and [from_bytes]. *)
Definition InitialKey_generate `{Random} (g : rng) : rng * result KeyPair Error :=
  match rng_fill g 32 with
  | (g, Some seed) => (g, Ok (KeyPair_from_seed seed))
  | (g, None) => (g, Err Crypto)
  end.

(** A sending turn from fresh randomness: key pair, encapsulation, new chain. *)
Definition Active_open_turn (a : Active) (remote : PublicKeys) (seed randomness : bytes)
  : result Active Error :=
  let local := KeyPair_from_seed seed in
  let? (ciphertext, kem) := PublicKeys_encapsulate remote randomness in
  let? dh := KeyPair_agree local remote in
  let '(root, chain, next_header) := Active_advance (a_root a) dh kem in
  Ok {| a_root := root;
        a_local := Some local;
        a_remote := a_remote a;
        a_send := Some {|
          sd_chain := chain;
          sd_cipher := a_next_send a;
          sd_header := {| h_public := kp_public local; h_ciphertext := ciphertext;
                          h_previous := a_previous_sent a; h_number := 0 |} |};
        a_receive := a_receive a;
        a_next_send := next_header;
        a_next_receive := a_next_receive a;
        a_previous_sent := a_previous_sent a |}.

(** The next header and message key of the open turn. *)
Definition Active_send_next (a : Active) (request : Z) : result (Active * SendKey) Error :=
  let? s := ok_or (a_send a) Pending in
  let header := {| h_public := h_public (sd_header s); h_ciphertext := h_ciphertext (sd_header s);
                   h_previous := h_previous (sd_header s); h_number := ch_count (sd_chain s) |} in
  let? (chain, secret) := Chain_step (sd_chain s) in
  let? sealed := HeaderCipher_seal (sd_cipher s) header request in
  Ok ({| a_root := a_root a; a_local := a_local a; a_remote := a_remote a;
         a_send := Some {| sd_chain := chain; sd_cipher := sd_cipher s; sd_header := header |};
         a_receive := a_receive a; a_next_send := a_next_send a;
         a_next_receive := a_next_receive a; a_previous_sent := a_previous_sent a |},
      {| s_header := sealed; s_secret := secret |}).

(** [send]: the state is replaced only when everything succeeded. *)
Definition Peer_send `{Random} (p : Peer) (g : rng) (request : Z)
  : Peer * rng * result SendKey Error :=
  let commit g out :=
    match out with
    | Ok (a, key) => (set_active p a, g, Ok key)
    | Err e => (p, g, Err e)
    end in
  match a_send (p_active p) with
  | Some _ => commit g (Active_send_next (p_active p) request)
  | None =>
      match a_remote (p_active p) with
      | None => (p, g, Err Pending)
      | Some remote =>
          match rng_fill g 32 with
          | (g, None) => (p, g, Err Crypto)
          | (g, Some seed) =>
              match rng_fill g 32 with
              | (g, None) => (p, g, Err Crypto)
              | (g, Some randomness) =>
                  commit g (let? a := Active_open_turn (p_active p) remote seed randomness in
                            Active_send_next a request)
              end
          end
      end
  end.

(** Trial decryption: the current turn, the next turn, then retained older turns in
    epoch order. *)
Fixpoint open_skipped (groups : list (Z * Group)) (current : option Z) (b : bytes) (request : Z)
  : result Opened Error :=
  match groups with
  | [] => Err Authentication
  | (epoch, group) :: rest =>
      if bool_decide (current = Some epoch) then open_skipped rest current b request
      else
        match HeaderCipher_open (rh_cipher (gr_header group)) b request with
        | Ok h =>
            if bool_decide (Header_turn h = rh_turn (gr_header group))
            then Ok (OSkipped epoch h) else Err Record_
        | Err _ => open_skipped rest current b request
        end
  end.

Definition Peer_open_header (p : Peer) (b : bytes) (request : Z) : result Opened Error :=
  reject negb (zlen b =? HEADER_BYTES) with Record_;
  let a := p_active p in
  let current :=
    match a_receive a with
    | Some r =>
        match HeaderCipher_open (rh_cipher (rv_header r)) b request with
        | Ok h => Some (if bool_decide (Header_turn h = rh_turn (rv_header r))
                        then Ok (OCurrent h) else Err Record_)
        | Err _ => None
        end
    | None => None
    end in
  match current with
  | Some out => out
  | None =>
      match HeaderCipher_open (a_next_receive a) b request with
      | Ok h => Ok (ONext h)
      | Err _ =>
          open_skipped (bt_iter (p_skipped p)) (rv_epoch <$> a_receive a) b request
      end
  end.

(** A retained key that has not expired. *)
Definition Peer_stored (p : Peer) (epoch number now : Z) : option Skipped :=
  match p_skipped p !! epoch with
  | None => None
  | Some group =>
      match gr_keys group !! number with
      | None => None
      | Some key =>
          match sk_expires key with
          | None => Some key
          | Some ending => if now <? ending then Some key else None
          end
      end
  end.

Definition remove_skipped (skipped : gmap Z Group) (epoch number : Z) : gmap Z Group :=
  match skipped !! epoch with
  | None => skipped
  | Some group =>
      let keys := delete number (gr_keys group) in
      if bool_decide (keys = ∅) then delete epoch skipped
      else <[epoch := {| gr_header := gr_header group; gr_keys := keys |}]> skipped
  end.

Definition Peer_remove (p : Peer) (id : KeyId) (order : Z) : Peer :=
  set_store p (remove_skipped (p_skipped p) id.1 id.2) (delete order (p_order p)) (p_next_order p).

(** The loop of [expire]; every step removes one entry, so its size is enough fuel. *)
Fixpoint expire_loop (fuel : nat) (p : Peer) : Peer :=
  match fuel with
  | O => p
  | S fuel =>
      match bt_first (p_order p) with
      | None => p
      | Some (order, (epoch, number)) =>
          match Peer_stored p epoch number (p_last_now p) with
          | Some _ => p
          | None => expire_loop fuel (Peer_remove p (epoch, number) order)
          end
      end
  end.

Definition set_now (p : Peer) (now : Z) : Peer := {|
  p_active := p_active p; p_skipped := p_skipped p; p_order := p_order p;
  p_next_order := p_next_order p; p_last_now := now; p_retention := p_retention p |}.

Definition Peer_expire (p : Peer) (now_ms : Z) : Peer :=
  let p := set_now p (Z.max (p_last_now p) now_ms) in
  expire_loop (size (p_order p)) p.

Definition Peer_discard_delayed (p : Peer) : Peer := set_store p ∅ ∅ (p_next_order p).

(** [receive_stored]: the key is consumed only after the body authenticates. *)
Definition Peer_receive_stored {B T} (p : Peer) (epoch number : Z) (buffer : B)
    (authenticate : B -> bytes -> B * result T Error) : Peer * B * result T Error :=
  match Peer_stored p epoch number (p_last_now p) with
  | None => (p, buffer, Err Record_)
  | Some key =>
      match authenticate buffer (sk_secret key) with
      | (buffer, Err e) => (p, buffer, Err e)
      | (buffer, Ok output) => (Peer_remove p (epoch, number) (sk_order key), buffer, Ok output)
      end
  end.

(** Eviction of the oldest retained keys; as many steps as there are entries. *)
Fixpoint evict_loop (fuel : nat) (p : Peer) (incoming : Z) : Peer * result unit Error :=
  if MAX_SKIPPED_KEYS <? bt_len (p_order p) + incoming then
    match bt_first (p_order p), fuel with
    | Some (order, id), S fuel => evict_loop fuel (Peer_remove p id order) incoming
    | _, _ => (p, Err Limit)
    end
  else (p, Ok tt).

Definition insert_skipped (skipped : gmap Z Group) (epoch number : Z) (header : ReceiveHeader)
    (key : Skipped) : gmap Z Group :=
  let group :=
    match skipped !! epoch with
    | Some group => group
    | None => {| gr_header := header; gr_keys := ∅ |}
    end in
  <[epoch := {| gr_header := gr_header group; gr_keys := <[number := key]> (gr_keys group) |}]> skipped.

Definition Peer_store (p : Peer) (pending : PendingKey) : Peer :=
  let '((epoch, number), header, secret) := pending in
  let order := p_next_order p in
  let key := {| sk_secret := secret;
                sk_expires := Retention_deadline (p_retention p) (p_last_now p);
                sk_order := order |} in
  set_store p (insert_skipped (p_skipped p) epoch number header key)
    (<[order := (epoch, number)]> (p_order p)) (order + 1).

(** A message of the current or the next turn. *)
Definition Peer_receive_new {B T} (p : Peer) (h : Header) (next : bool) (buffer : B)
    (authenticate : B -> bytes -> B * result T Error) : Peer * B * result T Error :=
  match (let? _ := Active_skipped_count (p_active p) h next in
         let? (a, pending, key) := Active_receive_key (p_active p) h next [] in
         reject u64_max <? p_next_order p + zlen pending with Limit;
         Ok (a, pending, key)) with
  | Err e => (p, buffer, Err e)
  | Ok (a, pending, key) =>
      match authenticate buffer key with
      | (buffer, Err e) => (p, buffer, Err e)
      | (buffer, Ok output) =>
          match evict_loop (size (p_order p)) p (zlen pending) with
          | (p, Err e) => (p, buffer, Err e)
          | (p, Ok _) => (set_active (fold_left Peer_store pending p) a, buffer, Ok output)
          end
      end
  end.

(** [receive]. The closure that authenticates the message body may rewrite the
    caller's buffer, which is threaded through. *)
Definition Peer_receive {B T} (p : Peer) (b : bytes) (request now_ms : Z) (buffer : B)
    (authenticate : B -> bytes -> B * result T Error) : Peer * B * result T Error :=
  let p := Peer_expire p now_ms in
  match Peer_open_header p b request with
  | Err e => (p, buffer, Err e)
  | Ok (OSkipped epoch h) => Peer_receive_stored p epoch (h_number h) buffer authenticate
  | Ok (OCurrent h) =>
      match a_receive (p_active p) with
      | None => (p, buffer, Err Record_)
      | Some r =>
          if h_number h <? ch_count (rv_chain r)
          then Peer_receive_stored p (rv_epoch r) (h_number h) buffer authenticate
          else Peer_receive_new p h false buffer authenticate
      end
  | Ok (ONext h) => Peer_receive_new p h true buffer authenticate
  end.

End Ratchet.
