(* ===== verification/RatchetTheory.v ===== *)
(** The bounded store of delayed-message keys: both indexes agree, every operation
    keeps them in agreement, and expiry removes exactly the expired keys. *)

From S2P Require Import Prelude RecordTheory Primitives BTree Record Ratchet.

Open Scope Z_scope.

(** ** The store as one map *)

(** The retained key of a message, whatever group holds it. *)
Definition slookup (s : gmap Z Group) (epoch number : Z) : option Skipped :=
  match s !! epoch with Some g => gr_keys g !! number | None => None end.

Lemma slookup_remove s e n e' n' :
  slookup (remove_skipped s e n) e' n' =
  if bool_decide ((e, n) = (e', n')) then None else slookup s e' n'.
Proof.
  unfold remove_skipped, slookup. destruct (s !! e) as [g|] eqn:Hg.
  - destruct (decide (e = e')) as [<-|He].
    + rewrite Hg. destruct (bool_decide (delete n (gr_keys g) = ∅)) eqn:Hempty; zbool.
      * rewrite lookup_delete_eq. case_bool_decide as Heq; [done|].
        assert (delete n (gr_keys g) !! n' = None) as Hnone by (by rewrite Hempty, lookup_empty).
        rewrite lookup_delete_ne in Hnone; [done|]. congruence.
      * rewrite lookup_insert_eq. simpl. rewrite lookup_delete.
        repeat case_bool_decide; case_decide; naive_solver.
    + rewrite (bool_decide_false ((e, n) = (e', n'))) by congruence.
      case_bool_decide; [by rewrite lookup_delete_ne|by rewrite lookup_insert_ne].
  - case_bool_decide; [|done]. simplify_eq. by rewrite Hg.
Qed.

Lemma slookup_insert s e n h k e' n' :
  slookup (insert_skipped s e n h k) e' n' =
  if bool_decide ((e, n) = (e', n')) then Some k else slookup s e' n'.
Proof.
  unfold insert_skipped, slookup. destruct (decide (e = e')) as [<-|He].
  - rewrite lookup_insert_eq. simpl. destruct (decide (n = n')) as [<-|Hn].
    + by rewrite lookup_insert_eq, bool_decide_true.
    + rewrite lookup_insert_ne by done. rewrite bool_decide_false by congruence.
      destruct (s !! e); [done|]. simpl. by rewrite lookup_empty.
  - rewrite lookup_insert_ne by done. by rewrite bool_decide_false by congruence.
Qed.

(** ** Invariant *)

Definition expires_le (x y : Skipped) : Prop :=
  match sk_expires x, sk_expires y with
  | None, None => True
  | Some a, Some b => a <= b
  | _, _ => False
  end.

(** Deadlines a key stored at or before [now] can have. *)
Definition deadline_ok (r : Retention) (now : Z) (x : Skipped) : Prop :=
  match sk_expires x, Retention_deadline r now with
  | None, None => True
  | Some a, Some b => a <= b
  | _, _ => False
  end.

Record store_inv (p : Peer) : Prop := {
  si_order k e n :
    p_order p !! k = Some (e, n) <-> exists x, slookup (p_skipped p) e n = Some x /\ sk_order x = k;
  si_groups e g : p_skipped p !! e = Some g -> gr_keys g <> ∅;
  si_next k id : p_order p !! k = Some id -> 0 <= k < p_next_order p;
  si_sorted e n x e' n' x' :
    slookup (p_skipped p) e n = Some x -> slookup (p_skipped p) e' n' = Some x' ->
    sk_order x <= sk_order x' -> expires_le x x';
  si_deadline e n x :
    slookup (p_skipped p) e n = Some x -> deadline_ok (p_retention p) (p_last_now p) x
}.

Lemma deadline_mono r now now' x : now <= now' -> deadline_ok r now x -> deadline_ok r now' x.
Proof. unfold deadline_ok. destruct r, (sk_expires x); simpl; try done. lia. Qed.

Lemma remove_groups s e n :
  (forall e g, s !! e = Some g -> gr_keys g <> ∅) ->
  forall e' g, remove_skipped s e n !! e' = Some g -> gr_keys g <> ∅.
Proof.
  intros Hs e' g. unfold remove_skipped. destruct (s !! e) as [g0|]; [|apply Hs].
  case_bool_decide as Hempty; [rewrite lookup_delete_Some; naive_solver|].
  rewrite lookup_insert_Some. naive_solver.
Qed.

Lemma store_inv_remove p e n x :
  store_inv p -> slookup (p_skipped p) e n = Some x ->
  store_inv (Peer_remove p (e, n) (sk_order x)).
Proof.
  intros Hinv Hx. split; simpl.
  - intros k e' n'. rewrite lookup_delete_Some, (si_order p Hinv). setoid_rewrite slookup_remove.
    split.
    + intros [Hk (y & Hy & <-)]. exists y. case_bool_decide; [|done]. simplify_eq.
    + intros (y & Hy & <-). case_bool_decide as Hne; [done|]. split; [|by exists y].
      intros Hk. destruct Hne.
      assert (p_order p !! sk_order x = Some (e, n)) as H1 by (apply (si_order p Hinv); eauto).
      assert (p_order p !! sk_order y = Some (e', n')) as H2 by (apply (si_order p Hinv); eauto).
      congruence.
  - apply remove_groups, (si_groups p Hinv).
  - intros k id. rewrite lookup_delete_Some. intros [_ Hk]. by apply (si_next p Hinv _ _ Hk).
  - intros *. rewrite !slookup_remove. repeat case_bool_decide; [done..|]. apply (si_sorted p Hinv).
  - intros *. rewrite slookup_remove. case_bool_decide; [done|]. apply (si_deadline p Hinv).
Qed.

Lemma store_inv_now p now : store_inv p -> p_last_now p <= now -> store_inv (set_now p now).
Proof.
  intros Hinv Hle. split; simpl; try apply Hinv.
  intros e n x Hx. eapply deadline_mono; [done|]. by apply (si_deadline p Hinv e n).
Qed.

Lemma store_inv_active p a : store_inv p -> store_inv (set_active p a).
Proof. intros Hinv. split; simpl; apply Hinv. Qed.

Lemma store_inv_store p e n h secret :
  store_inv p -> 0 <= p_next_order p -> slookup (p_skipped p) e n = None ->
  store_inv (Peer_store p ((e, n), h, secret)).
Proof.
  intros Hinv Hpos Hnone.
  assert (forall e' n' x, slookup (p_skipped p) e' n' = Some x -> sk_order x < p_next_order p) as Hlt.
  { intros e' n' x Hx. enough (0 <= sk_order x < p_next_order p) by lia.
    eapply (si_next p Hinv), (si_order p Hinv); eauto. }
  assert (p_order p !! p_next_order p = None) as Hfresh.
  { destruct (p_order p !! p_next_order p) eqn:E; [|done]. apply (si_next p Hinv) in E. lia. }
  split; simpl.
  - intros k e' n'. rewrite lookup_insert_Some, (si_order p Hinv). setoid_rewrite slookup_insert.
    split.
    + intros [[<- [= <- <-]]|[Hk (y & Hy & <-)]].
      * rewrite bool_decide_true by done. by eexists.
      * rewrite bool_decide_false by (intros [= <- <-]; congruence). eauto.
    + intros (y & Hy & <-). case_bool_decide; simplify_eq; [by left|]. right.
      split; [|eauto]. apply Hlt in Hy. lia.
  - intros e' g. unfold insert_skipped. rewrite lookup_insert_Some. intros [[_ <-]|[_ Hg]].
    + simpl. apply insert_non_empty.
    + by apply (si_groups p Hinv e').
  - intros k id. rewrite lookup_insert_Some. intros [[<- _]|[_ Hk]]; [lia|].
    apply (si_next p Hinv) in Hk. lia.
  - intros e1 n1 x1 e2 n2 x2. rewrite !slookup_insert.
    repeat case_bool_decide; intros Hx1 Hx2 Ho; simplify_eq/=.
    + unfold expires_le. simpl. by case_match.
    + apply Hlt in Hx2. lia.
    + apply (si_deadline p Hinv) in Hx1. unfold deadline_ok, expires_le in *. simpl.
      by destruct (sk_expires x1), (Retention_deadline _ _).
    + by eapply (si_sorted p Hinv).
  - intros e' n' x. rewrite slookup_insert. case_bool_decide; [|apply (si_deadline p Hinv)].
    intros [= <-]. unfold deadline_ok. simpl. by case_match.
Qed.

(** ** Expiry *)

Definition unexpired (now : Z) (x : Skipped) : bool :=
  match sk_expires x with None => true | Some ending => now <? ending end.

Lemma stored_slookup p e n now :
  Peer_stored p e n now =
  match slookup (p_skipped p) e n with
  | Some x => if unexpired now x then Some x else None
  | None => None
  end.
Proof.
  unfold Peer_stored, slookup, unexpired. repeat case_match; simplify_eq; done.
Qed.

(** The oldest entry and its key. *)
Lemma first_entry p order e n :
  store_inv p -> bt_first (p_order p) = Some (order, (e, n)) ->
  exists x, slookup (p_skipped p) e n = Some x /\ sk_order x = order /\
    forall e' n' y, slookup (p_skipped p) e' n' = Some y -> order <= sk_order y.
Proof.
  intros Hinv Hf. apply bt_first_Some in Hf as [Ho Hmin].
  apply (si_order p Hinv) in Ho as (x & Hx & Hxo). exists x. split; [done|]. split; [done|].
  intros e' n' y Hy. apply (Hmin _ (e', n')). apply (si_order p Hinv). eauto.
Qed.

Lemma unexpired_mono now x y : expires_le x y -> unexpired now x = true -> unexpired now y = true.
Proof.
  unfold expires_le, unexpired. destruct (sk_expires x), (sk_expires y); try done.
  intros. zbool. apply Z.ltb_lt. lia.
Qed.

Lemma expire_loop_spec fuel p :
  store_inv p -> (size (p_order p) <= fuel)%nat ->
  store_inv (expire_loop fuel p) /\
  p_active (expire_loop fuel p) = p_active p /\
  p_last_now (expire_loop fuel p) = p_last_now p /\
  p_next_order (expire_loop fuel p) = p_next_order p /\
  bt_len (p_order (expire_loop fuel p)) <= bt_len (p_order p) /\
  forall e n x,
    slookup (p_skipped (expire_loop fuel p)) e n = Some x <->
    slookup (p_skipped p) e n = Some x /\ unexpired (p_last_now p) x = true.
Proof.
  revert p. induction fuel as [|fuel IH]; intros p Hinv Hsize; simpl.
  - assert (p_order p = ∅) as Hempty by (apply map_size_empty_inv; lia).
    split_and!; try done; try lia. intros e n x. split; [|naive_solver]. intros Hx.
    assert (p_order p !! sk_order x = Some (e, n)) as Ho by (apply (si_order p Hinv); eauto).
    rewrite Hempty, lookup_empty in Ho. done.
  - destruct (bt_first (p_order p)) as [[order [e n]]|] eqn:Hf.
    2:{ apply bt_first_None in Hf. split_and!; try done; try lia. intros e n x.
        split; [|naive_solver]. intros Hx.
        assert (p_order p !! sk_order x = Some (e, n)) as Ho by (apply (si_order p Hinv); eauto).
        rewrite Hf, lookup_empty in Ho. done. }
    destruct (first_entry p order e n Hinv Hf) as (x & Hx & <- & Hmin).
    rewrite stored_slookup, Hx. destruct (unexpired (p_last_now p) x) eqn:Hu.
    + split_and!; try done; try lia. intros e' n' y. split; [|naive_solver]. intros Hy.
      split; [done|]. eapply unexpired_mono; [|done]. eapply (si_sorted p Hinv); eauto.
    + apply bt_first_Some in Hf as [Ho _].
      destruct (IH (Peer_remove p (e, n) (sk_order x))) as (Hi & Ha & Hn & Hno & Hlen & Hspec).
      { by apply store_inv_remove. }
      { simpl. rewrite map_size_delete, Ho. lia. }
      simpl in Hlen. rewrite bt_len_delete in Hlen by eauto.
      split_and!; try done; [lia|]. intros e' n' y. rewrite Hspec. simpl. rewrite slookup_remove.
      case_bool_decide; [|done]. simplify_eq. split; [by intros [[=] _]|intros [? ?]; congruence].
Qed.

Lemma expire_spec p now :
  store_inv p ->
  let p' := Peer_expire p now in
  store_inv p' /\ p_active p' = p_active p /\ p_last_now p' = Z.max (p_last_now p) now /\
  p_next_order p' = p_next_order p /\ bt_len (p_order p') <= bt_len (p_order p) /\
  forall e n x, slookup (p_skipped p') e n = Some x <->
    slookup (p_skipped p) e n = Some x /\ unexpired (Z.max (p_last_now p) now) x = true.
Proof.
  intros Hinv. unfold Peer_expire.
  assert (store_inv (set_now p (Z.max (p_last_now p) now))) as Hinv'
    by (apply store_inv_now; [done|lia]).
  destruct (expire_loop_spec (size (p_order (set_now p (Z.max (p_last_now p) now)))) _ Hinv' ltac:(done))
    as (? & ? & ? & ? & ? & Hspec).
  cbv zeta. split_and!; try done.
Qed.

(** ** Eviction and insertion *)

Lemma evict_loop_spec fuel p incoming :
  store_inv p -> (size (p_order p) <= fuel)%nat -> incoming <= MAX_SKIPPED_KEYS ->
  exists p', evict_loop fuel p incoming = (p', Ok tt) /\
    store_inv p' /\ p_active p' = p_active p /\ p_last_now p' = p_last_now p /\
    p_next_order p' = p_next_order p /\
    bt_len (p_order p') + incoming <= MAX_SKIPPED_KEYS /\
    forall e n x, slookup (p_skipped p') e n = Some x -> slookup (p_skipped p) e n = Some x.
Proof.
  revert p. induction fuel as [|fuel IH]; intros p Hinv Hsize Hin; simpl;
    (destruct (MAX_SKIPPED_KEYS <? bt_len (p_order p) + incoming) eqn:E; zbool;
      [|by exists p; split_and!]).
  - unfold bt_len in E. lia.
  - destruct (bt_first (p_order p)) as [[order [e n]]|] eqn:Hf.
    2:{ apply bt_first_None in Hf. rewrite Hf in E. change (bt_len ∅) with 0 in E. lia. }
    destruct (first_entry p order e n Hinv Hf) as (x & Hx & <- & _).
    apply bt_first_Some in Hf as [Ho _].
    destruct (IH (Peer_remove p (e, n) (sk_order x))) as (p' & Heq & ? & ? & ? & ? & ? & Hsub).
    { by apply store_inv_remove. }
    { simpl. rewrite map_size_delete, Ho. lia. }
    { done. }
    exists p'. split_and!; try done. intros e' n' y Hy. apply Hsub in Hy. simpl in Hy.
    rewrite slookup_remove in Hy. by case_bool_decide.
Qed.

Definition pending_id (k : PendingKey) : KeyId := k.1.1.

Lemma store_fold_spec pending p :
  store_inv p -> 0 <= p_next_order p -> NoDup (pending_id <$> pending) ->
  (forall e n, (e, n) ∈ pending_id <$> pending -> slookup (p_skipped p) e n = None) ->
  let p' := fold_left Peer_store pending p in
  store_inv p' /\ p_active p' = p_active p /\ p_last_now p' = p_last_now p /\
  p_next_order p' = p_next_order p + zlen pending /\
  bt_len (p_order p') = bt_len (p_order p) + zlen pending /\
  (forall e n, is_Some (slookup (p_skipped p') e n) <->
     is_Some (slookup (p_skipped p) e n) \/ (e, n) ∈ pending_id <$> pending).
Proof.
  revert p. induction pending as [|[[[e n] h] secret] pending IH]; intros p Hinv Hpos Hnd Hfresh; cbv zeta.
  - simpl. rewrite zlen_nil. split_and!; try done; try lia. intros.
    split; [naive_solver|intros [?|Hin]; [done|by apply elem_of_nil in Hin]].
  - rewrite fmap_cons in Hnd. apply NoDup_cons in Hnd as [Hnin Hnd].
    rewrite fmap_cons in Hfresh.
    assert (slookup (p_skipped p) e n = None) as Hnone by (apply Hfresh; left).
    pose proof (store_inv_store p e n h secret Hinv Hpos Hnone) as Hinv1.
    set (p1 := Peer_store p (e, n, h, secret)) in *.
    assert (forall e' n', is_Some (slookup (p_skipped p1) e' n') <->
      is_Some (slookup (p_skipped p) e' n') \/ (e', n') = (e, n)) as Hp1.
    { intros e' n'. unfold p1. simpl. rewrite slookup_insert. case_bool_decide; naive_solver. }
    destruct (IH p1) as (Hi & Ha & Hl & Hno & Hlen & Hset); [done|simpl; lia|done| |].
    { intros e' n' Hin. destruct (slookup (p_skipped p1) e' n') eqn:E; [|done].
      assert (is_Some (slookup (p_skipped p1) e' n')) as Hs by eauto.
      apply Hp1 in Hs as [Hs|Heq].
      - rewrite (Hfresh e' n') in Hs by (by right). by destruct Hs.
      - simplify_eq. done. }
    assert (p_order p !! p_next_order p = None) as Hk.
    { destruct (p_order p !! p_next_order p) eqn:E; [|done]. apply (si_next p Hinv) in E. lia. }
    change (fold_left Peer_store ((e, n, h, secret) :: pending) p) with (fold_left Peer_store pending p1).
    rewrite zlen_cons. split_and!; try done.
    + rewrite Hno. simpl. lia.
    + rewrite Hlen. simpl. rewrite bt_len_insert by done. lia.
    + intros e' n'. rewrite Hset, Hp1, fmap_cons, elem_of_cons. unfold pending_id at 2. simpl. naive_solver.
Qed.

(** * Theory

    Properties of the ratchet peer: bounded storage, transactional receive, and
    at-most-once release of every message key. *)

(** ** Message identities *)

(** Messages of a receiving chain are numbered; chains are numbered by epoch. *)
Definition next_epoch (a : Active) : Z :=
  match a_receive a with Some r => rv_epoch r + 1 | None => 0 end.

Definition current_epoch (a : Active) : Z :=
  match a_receive a with Some r => rv_epoch r | None => 0 end.

Definition message_id (a : Active) (h : Header) (next : bool) : KeyId :=
  (if next then next_epoch a else current_epoch a, h_number h).

(** Identities passed over when a header is received. *)
Definition skip_ids (a : Active) (h : Header) (next : bool) : list KeyId :=
  let received := received_count a in
  if next then
    (pair (current_epoch a) <$> seqZ received (h_previous h - received))
    ++ (pair (next_epoch a) <$> seqZ 0 (h_number h))
  else pair (current_epoch a) <$> seqZ received (h_number h - received).

(** The chain has moved past this identity. *)
Definition passed (a : Active) (e n : Z) : Prop :=
  match a_receive a with
  | None => False
  | Some r => e < rv_epoch r \/ e = rv_epoch r /\ n < ch_count (rv_chain r)
  end.

Section Skipping.
Context `{Kdf} `{Hash} `{Aead} `{Agreement}.

Lemma chain_step_count c c' key : Chain_step c = Ok (c', key) -> ch_count c' = ch_count c + 1.
Proof. unfold Chain_step. intros. by case_all. Qed.

Lemma skip_loop_spec fuel r until pending r' pending' :
  skip_loop fuel r until pending = Ok (r', pending') -> ch_count (rv_chain r) <= until ->
  pending_id <$> pending' = (pending_id <$> pending)
    ++ (pair (rv_epoch r) <$> seqZ (ch_count (rv_chain r)) (until - ch_count (rv_chain r))) /\
  ch_count (rv_chain r') = until /\ rv_epoch r' = rv_epoch r /\ rv_header r' = rv_header r.
Proof.
  revert r pending. induction fuel as [|fuel IH]; intros r pending Hrun Hle; simpl in Hrun.
  - destruct (ch_count (rv_chain r) <? until) eqn:E; simplify_eq. zbool.
    rewrite seqZ_nil by lia. rewrite app_nil_r. split_and!; try done. lia.
  - destruct (ch_count (rv_chain r) <? until) eqn:E; simplify_eq; zbool.
    + destruct (Chain_step (rv_chain r)) as [[chain key]|] eqn:Hstep; [|done].
      apply chain_step_count in Hstep as Hc.
      destruct (IH _ _ Hrun) as (Hids & Hcount & He & Hh); [simpl; lia|]. simpl in *.
      split_and!; try done. rewrite Hids, fmap_app, <- app_assoc. simpl. f_equal.
      rewrite (seqZ_cons (ch_count (rv_chain r))) by lia. rewrite fmap_cons, Hc.
      unfold Z.succ. do 2 f_equal. f_equal. lia.
    + rewrite seqZ_nil by lia. rewrite app_nil_r. split_and!; try done. lia.
Qed.

Lemma skip_spec a until pending a' pending' :
  Active_skip a until pending = Ok (a', pending') ->
  pending_id <$> pending' = (pending_id <$> pending)
    ++ (pair (current_epoch a) <$> seqZ (received_count a) (until - received_count a)) /\
  received_count a' = until /\ received_count a <= until /\ current_epoch a' = current_epoch a /\
  next_epoch a' = next_epoch a /\ (is_Some (a_receive a') <-> is_Some (a_receive a)) /\
  (is_Some (a_receive a) \/ until = 0).
Proof.
  unfold Active_skip, received_count, current_epoch, next_epoch. intros Hs.
  destruct (a_receive a) as [r|] eqn:Hr.
  - destruct (until <? ch_count (rv_chain r)) eqn:E; [done|]. zbool.
    destruct (_ <? _); [done|].
    destruct (skip_loop _ r until pending) as [[r' p']|] eqn:Hl; simplify_eq.
    destruct (skip_loop_spec _ _ _ _ _ _ Hl E) as (Hids & Hc & He & _). simpl.
    rewrite He. split_and!; try done. left. by eexists.
  - destruct (until =? 0) eqn:E; [|done]. zbool. simplify_eq. rewrite Hr.
    rewrite seqZ_nil, app_nil_r by lia. split_and!; try done. by right.
Qed.

Lemma begin_turn_spec a h pending a' pending' :
  Active_begin_turn a h pending = Ok (a', pending') ->
  pending_id <$> pending' = (pending_id <$> pending)
    ++ (pair (current_epoch a) <$> seqZ (received_count a) (h_previous h - received_count a)) /\
  received_count a' = 0 /\ current_epoch a' = next_epoch a /\ is_Some (a_receive a') /\
  (is_Some (a_receive a) \/ h_previous h = 0).
Proof.
  unfold Active_begin_turn. intros Hb.
  destruct (awaits_send a); [done|]. destruct (PublicKeys_validate _); [|done].
  destruct (Active_skip a (h_previous h) pending) as [[a1 p1]|] eqn:Hskip; [|done].
  apply skip_spec in Hskip as (Hids & _ & _ & _ & Hnext & _ & Hprev).
  destruct (a_local a1); [|done]. simpl in Hb.
  destruct (KeyPair_agree _ _); [|done].
  rewrite <- Hnext. unfold next_epoch.
  destruct (a_receive a1) as [r|].
  - destruct (u64_max <? rv_epoch r + 1); [done|]. simplify_eq. by split_and!.
  - simplify_eq. by split_and!.
Qed.

Lemma receive_key_spec a h next a' pending key :
  Active_receive_key a h next [] = Ok (a', pending, key) ->
  pending_id <$> pending = skip_ids a h next /\
  (exists r', a_receive a' = Some r' /\ rv_epoch r' = (message_id a h next).1 /\
     ch_count (rv_chain r') = h_number h + 1) /\
  (is_Some (a_receive a) \/ next = true /\ h_previous h = 0) /\
  (if next then 0 else received_count a) <= h_number h.
Proof.
  unfold Active_receive_key, skip_ids, message_id. intros Hk.
  destruct (if next then Active_begin_turn a h [] else Ok (a, [])) as [[a1 p1]|] eqn:Hb; [|done].
  destruct (Active_skip a1 (h_number h) p1) as [[a2 p2]|] eqn:Hs; [|done].
  apply skip_spec in Hs as (Hids & Hcount & Hle & He & _ & Hsome & _).
  destruct (a_receive a2) as [r|] eqn:Hr; [|done]. simpl in Hk.
  destruct (Chain_step (rv_chain r)) as [[chain k]|] eqn:Hstep; simplify_eq.
  assert (ch_count chain = h_number h + 1) as Hc.
  { apply chain_step_count in Hstep as ->. unfold received_count in Hcount.
    rewrite Hr in Hcount. lia. }
  assert (rv_epoch r = current_epoch a1) as Her.
  { rewrite <- He. unfold current_epoch. by rewrite Hr. }
  destruct next.
  - apply begin_turn_spec in Hb as (Hids1 & Hz & He1 & _ & Hprev).
    rewrite Hids, Hids1, Hz, He1, Z.sub_0_r. simpl. split; [done|].
    split; [|split; [naive_solver|lia]].
    eexists. split; [done|]. simpl. by rewrite Her.
  - simplify_eq. rewrite Hids. split; [done|]. split; [|].
    + eexists. split; [done|]. simpl. by rewrite Her.
    + split; [|done]. left. apply Hsome. by eexists.
Qed.

Lemma zlen_seqZ m n : zlen (seqZ m n) = Z.max 0 n.
Proof. unfold zlen. rewrite length_seqZ. lia. Qed.

Lemma zlen_fmap {A B} (f : A -> B) l : zlen (f <$> l) = zlen l.
Proof. unfold zlen. by rewrite length_fmap. Qed.

Lemma skip_ids_bound a h next count :
  Active_skipped_count a h next = Ok count -> zlen (skip_ids a h next) <= MAX_SKIPPED_KEYS.
Proof.
  unfold Active_skipped_count, skip_ids. intros Hc. destruct next; case_all; zbool;
    rewrite ?zlen_app, !zlen_fmap, !zlen_seqZ; lia.
Qed.

Lemma elem_of_pair_seqZ e m n (id : KeyId) :
  id ∈ pair e <$> seqZ m n <-> id.1 = e /\ m <= id.2 < m + n.
Proof.
  rewrite list_elem_of_fmap. setoid_rewrite elem_of_seqZ. destruct id as [e' n']. simpl.
  split; [intros (x & [= -> ->] & ?); done|]. intros [-> ?]. by exists n'.
Qed.

Lemma skip_ids_elem a h next e n :
  is_Some (a_receive a) \/ next = true /\ h_previous h = 0 -> (e, n) ∈ skip_ids a h next ->
  ~ passed a e n /\ (if next then (e < next_epoch a \/ e = next_epoch a /\ n < h_number h)
                      else (e = current_epoch a /\ n < h_number h)).
Proof.
  unfold skip_ids, passed, received_count, current_epoch, next_epoch. intros Hc.
  assert (a_receive a = None -> next = true /\ h_previous h = 0) as Hnone.
  { intros E. rewrite E in Hc. destruct Hc as [[? ?]|?]; done. }
  destruct next.
  - rewrite elem_of_app, !elem_of_pair_seqZ. simpl.
    intros [[-> ?]|[-> ?]]; destruct (a_receive a); try lia; destruct Hnone; [done|lia].
  - rewrite elem_of_pair_seqZ. simpl. intros [-> ?]; destruct (a_receive a); [lia|]. by destruct Hnone.
Qed.

Lemma skip_ids_NoDup a h next :
  is_Some (a_receive a) \/ next = true /\ h_previous h = 0 -> NoDup (skip_ids a h next).
Proof.
  intros Hc. assert (forall e m n, NoDup (pair e <$> seqZ m n : list KeyId)) as Hnd.
  { intros. apply NoDup_fmap_2; [intros ?? [= ->]; done|apply NoDup_seqZ]. }
  unfold skip_ids. destruct next; [|apply Hnd]. apply NoDup_app. split; [apply Hnd|].
  split; [|apply Hnd]. intros [e n]. rewrite !elem_of_pair_seqZ. simpl.
  unfold current_epoch, next_epoch, received_count. destruct Hc as [[r ->]|[_ ->]]; [lia|].
  destruct (a_receive a); lia.
Qed.

End Skipping.

(** ** Invariant of a peer *)

Record peer_inv (p : Peer) : Prop := {
  pi_store : store_inv p;
  pi_next : 0 <= p_next_order p;
  pi_len : bt_len (p_order p) <= MAX_SKIPPED_KEYS;
  pi_passed e n : is_Some (slookup (p_skipped p) e n) -> passed (p_active p) e n
}.

(** A message key the peer can still release. *)
Definition available (p : Peer) (id : KeyId) : Prop :=
  ~ passed (p_active p) id.1 id.2 \/ is_Some (slookup (p_skipped p) id.1 id.2).

Lemma passed_dec a e n : passed a e n \/ ~ passed a e n.
Proof. unfold passed. destruct (a_receive a); lia. Qed.

Section Peer.
Context `{Kdf} `{Hash} `{Aead} `{Agreement}.

Lemma peer_inv_new root local remote client : peer_inv (Peer_new root local remote client).
Proof.
  assert (forall e n, slookup ∅ e n = None) as Hnone.
  { intros. unfold slookup. by rewrite lookup_empty. }
  destruct client; (split; simpl; [split; simpl|lia| |]);
    try (intros *; rewrite ?lookup_empty, ?Hnone; naive_solver); done.
Qed.

Lemma expire_available p now :
  peer_inv p ->
  peer_inv (Peer_expire p now) /\
  forall id, available (Peer_expire p now) id -> available p id.
Proof.
  intros [Hs Hn Hl Hp]. destruct (expire_spec p now Hs) as (Hs' & Ha & _ & Hn' & Hl' & Hspec).
  split.
  - split; [done|lia|lia|]. rewrite Ha. intros e n [x Hx]. apply Hspec in Hx as [Hx _].
    apply Hp. by eexists.
  - intros id [Hid|[x Hx]]; [left; by rewrite <- Ha|]. right. apply Hspec in Hx as [Hx _].
    by eexists.
Qed.

Lemma discard_available p :
  peer_inv p ->
  peer_inv (Peer_discard_delayed p) /\ forall id, available (Peer_discard_delayed p) id -> available p id.
Proof.
  intros Hinv. assert (forall e n, slookup ∅ e n = None) as Hnone.
  { intros. unfold slookup. by rewrite lookup_empty. }
  split.
  - split; simpl; [split; simpl| |done|].
    all: try (intros *; rewrite ?lookup_empty, ?Hnone; naive_solver). apply Hinv.
  - intros id [Hid|Hx]; [by left|]. simpl in Hx. rewrite Hnone in Hx. by destruct Hx.
Qed.

Lemma receive_stored_spec {B T} p e n (buffer : B) (auth : B -> bytes -> B * result T Error) p' b' out :
  peer_inv p -> Peer_receive_stored p e n buffer auth = (p', b', out) ->
  match out with
  | Err _ => p' = p
  | Ok _ => peer_inv p' /\ available p (e, n) /\ ~ available p' (e, n) /\
      forall id, available p' id -> available p id
  end.
Proof.
  intros Hinv. unfold Peer_receive_stored. rewrite stored_slookup.
  destruct (slookup (p_skipped p) e n) as [x|] eqn:Hx; [|by intros; simplify_eq].
  destruct (unexpired _ x); [|by intros; simplify_eq].
  destruct (auth buffer (sk_secret x)) as [b1 [o|err]]; intros; simplify_eq; [|done].
  destruct Hinv as [Hs Hn Hl Hp].
  pose proof (Hp e n ltac:(eexists; exact Hx)) as Hpassed.
  split; [split|].
  - by apply store_inv_remove.
  - done.
  - simpl. rewrite bt_len_delete; [lia|]. exists (e, n). apply (si_order p Hs). eauto.
  - intros e' n'. simpl. rewrite slookup_remove. case_bool_decide; [by intros [? ?]|]. apply Hp.
  - split; [right; exists x; exact Hx|]. split.
    + unfold available. simpl. rewrite slookup_remove, bool_decide_true by done.
      intros [?|[? ?]]; done.
    + intros [e' n']. unfold available. simpl. rewrite slookup_remove.
      case_bool_decide; [intros [?|[? ?]]; [by left|done]|done].
Qed.

Lemma receive_new_spec {B T} p h next (buffer : B) (auth : B -> bytes -> B * result T Error) p' b' out :
  peer_inv p -> Peer_receive_new p h next buffer auth = (p', b', out) ->
  let id := message_id (p_active p) h next in
  match out with
  | Err _ => p' = p
  | Ok _ => peer_inv p' /\ available p id /\ ~ available p' id /\
      forall id', available p' id' -> available p id'
  end.
Proof.
  intros [Hs Hn Hl Hp]. unfold Peer_receive_new.
  destruct (Active_skipped_count (p_active p) h next) as [count|] eqn:Hc; [|by intros; simplify_eq].
  destruct (Active_receive_key (p_active p) h next []) as [[[a pending] key]|] eqn:Hk;
    [|by intros; simplify_eq].
  destruct (u64_max <? _); [by intros; simplify_eq|].
  destruct (auth buffer key) as [b1 [o|err]]; [|by intros; simplify_eq].
  apply skip_ids_bound in Hc. apply receive_key_spec in Hk as (Hids & (r & Hr & Her & Hcr) & Hsome & Hnum).
  rewrite <- Hids, zlen_fmap in Hc.
  destruct (evict_loop_spec (size (p_order p)) p (zlen pending) Hs ltac:(done) Hc)
    as (p1 & -> & Hs1 & Ha1 & _ & Hn1 & Hl1 & Hsub).
  assert (forall e n, (e, n) ∈ pending_id <$> pending -> ~ passed (p_active p) e n /\ passed a e n) as Hpend.
  { intros e n Hin. rewrite Hids in Hin. apply skip_ids_elem in Hin as [Hnp Hrange]; [|done].
    split; [done|]. unfold passed. rewrite Hr, Her, Hcr. simpl. destruct next; lia. }
  destruct (store_fold_spec pending p1) as (Hs2 & _ & _ & Hn2 & Hl2 & Hset); [done|lia| | |].
  { rewrite Hids. by apply skip_ids_NoDup. }
  { intros e n Hin. destruct (slookup (p_skipped p1) e n) eqn:E; [|done]. apply Hsub in E.
    destruct (proj1 (Hpend e n Hin)). apply Hp. eexists; exact E. }
  intros; simplify_eq.
  assert (forall e n, passed (p_active p) e n -> passed a e n) as Hmono.
  { intros e n. unfold passed. rewrite Hr, Her, Hcr. unfold received_count in Hnum. simpl.
    unfold next_epoch, current_epoch. destruct (a_receive (p_active p)), next; simpl; try done; lia. }
  split; [split|split_and!].
  - by apply store_inv_active.
  - simpl. pose proof (zlen_nonneg pending). lia.
  - simpl. lia.
  - intros e n. simpl. rewrite Hset. intros [[x Hx]|Hin]; [|by apply Hpend].
    apply Hmono, Hp. apply Hsub in Hx. by eexists.
  - left. unfold message_id, passed, next_epoch, current_epoch. simpl.
    unfold received_count in Hnum. destruct (a_receive (p_active p)) as [r0|], next; simpl; lia.
  - unfold available. simpl. rewrite Hset. intros [Hnot|[[x Hx]|Hin]].
    + destruct Hnot. unfold passed. rewrite Hr, Her, Hcr. simpl. lia.
    + apply Hsub in Hx. assert (passed (p_active p) (message_id (p_active p) h next).1 (h_number h)) as Hpp
        by (apply Hp; by eexists). revert Hpp. unfold passed, message_id, next_epoch, current_epoch.
      unfold received_count in Hnum. destruct (a_receive (p_active p)), next; simpl; lia.
    + rewrite Hids in Hin. apply skip_ids_elem in Hin as [_ Hrange]; [|done].
      unfold message_id in Hrange. simpl in Hrange. destruct next; lia.
  - intros [e n]. unfold available. simpl. rewrite Hset. intros [Hnot|[[x Hx]|Hin]].
    + left. intros Hpp. by apply Hnot, Hmono.
    + right. apply Hsub in Hx. by eexists.
    + left. by apply Hpend.
Qed.

(** A reception that succeeds returns what the body's authentication returned. *)
Lemma receive_ok_authenticated {B T} p b request now (buffer : B)
    (auth : B -> bytes -> B * result T Error) p' b' o :
  Peer_receive p b request now buffer auth = (p', b', Ok o) ->
  exists key, auth buffer key = (b', Ok o).
Proof.
  assert (forall p e n p', Peer_receive_stored p e n buffer auth = (p', b', Ok o) ->
    exists key, auth buffer key = (b', Ok o)) as Hst.
  { intros q e n q'. unfold Peer_receive_stored. destruct (Peer_stored _ _ _ _) as [x|]; [|done].
    destruct (auth buffer (sk_secret x)) as [b1 [o1|]] eqn:Ha; [|done]. intros [= _ <- <-]. eauto. }
  assert (forall p h next p', Peer_receive_new p h next buffer auth = (p', b', Ok o) ->
    exists key, auth buffer key = (b', Ok o)) as Hnew.
  { intros q h next q'. unfold Peer_receive_new. destruct (Active_skipped_count _ _ _) as [count|]; [|done].
    destruct (Active_receive_key _ _ _ _) as [[[a pend] key]|]; [|done]. destruct (_ <? _); [done|].
    destruct (auth buffer key) as [b1 [o1|]] eqn:Ha; [|done].
    destruct (evict_loop _ _ _) as [q1 [[]|]]; [|done]. intros [= _ <- <-]. eauto. }
  unfold Peer_receive. destruct (Peer_open_header _ _ _) as [[h|h|e h]|]; [| | |done]; eauto.
  destruct (a_receive _); [|done]. destruct (_ <? _); eauto.
Qed.

End Peer.
