(* ===== verification/RatchetSafety.v ===== *)
(** Runs of a ratchet peer: every message key is released at most once, the store
    of delayed keys stays bounded and consistent, a rejected message changes nothing,
    and expiry removes exactly the expired keys. *)

From S2P Require Import Prelude Primitives BTree Record RecordTheory Ratchet RatchetTheory.

Open Scope Z_scope.

(** ** Runs *)

(** The calls a channel makes on its peer. A reception carries the buffer of the
    message body and the closure that authenticates it. *)
Inductive peer_op (B T : Type) : Type :=
| PSend (request : Z)
| PReceive (header : bytes) (request now_ms : Z) (buffer : B)
    (authenticate : B -> bytes -> B * result T Error)
| PExpire (now_ms : Z)
| PDiscard.
Arguments PSend {B T}.
Arguments PReceive {B T}.
Arguments PExpire {B T}.
Arguments PDiscard {B T}.

(** The identity of the message a header announces. *)
Definition opened_id (a : Active) (o : Opened) : KeyId :=
  match o with
  | OSkipped epoch h => (epoch, h_number h)
  | OCurrent h => message_id a h false
  | ONext h => message_id a h true
  end.

Section Runs.
Context `{Kdf} `{Hash} `{Aead} `{Agreement} `{Random} {B T : Type}.

(** One call: the peer, the generator, and the identity of the message whose key
    was released to a body that authenticated. *)
Definition Peer_step (p : Peer) (g : rng) (op : peer_op B T) : Peer * rng * option KeyId :=
  match op with
  | PSend request => let '(p', g', _) := Peer_send p g request in (p', g', None)
  | PExpire now => (Peer_expire p now, g, None)
  | PDiscard => (Peer_discard_delayed p, g, None)
  | PReceive b request now buffer auth =>
      match Peer_receive p b request now buffer auth with
      | (p', _, Err _) => (p', g, None)
      | (p', _, Ok _) =>
          (p', g,
           match Peer_open_header (Peer_expire p now) b request with
           | Ok o => Some (opened_id (p_active (Peer_expire p now)) o)
           | Err _ => None
           end)
      end
  end.

Fixpoint Peer_run (p : Peer) (g : rng) (ops : list (peer_op B T)) : Peer * rng * list KeyId :=
  match ops with
  | [] => (p, g, [])
  | op :: ops =>
      let '(p1, g1, id) := Peer_step p g op in
      let '(p2, g2, ids) := Peer_run p1 g1 ops in
      (p2, g2, option_list id ++ ids)
  end.

(** ** One step *)

Lemma send_spec p g request p' g' out :
  Peer_send p g request = (p', g', out) ->
  a_receive (p_active p') = a_receive (p_active p) /\ p_skipped p' = p_skipped p /\
  p_order p' = p_order p /\ p_next_order p' = p_next_order p /\
  p_last_now p' = p_last_now p /\ p_retention p' = p_retention p.
Proof.
  unfold Peer_send, Active_open_turn, Active_send_next. intros Hs.
  case_all; destruct p; simpl in *; simplify_eq; done.
Qed.

Lemma send_available p g request p' g' out :
  peer_inv p -> Peer_send p g request = (p', g', out) ->
  peer_inv p' /\ forall id, available p' id <-> available p id.
Proof.
  intros [[] ? ? Hp] Hs. apply send_spec in Hs as (Ha & Hsk & Ho & Hn & Hl & Hr).
  assert (forall e n, passed (p_active p') e n <-> passed (p_active p) e n) as Hpass
    by (intros; unfold passed; by rewrite Ha).
  split.
  - split; [split|..]; rewrite ?Hsk, ?Ho, ?Hn, ?Hl, ?Hr; try done.
    intros. by apply Hpass, Hp.
  - intros id. unfold available. by rewrite Hpass, Hsk.
Qed.

Lemma receive_step p b request now (buffer : B) (auth : B -> bytes -> B * result T Error) p' b' out :
  peer_inv p -> Peer_receive p b request now buffer auth = (p', b', out) ->
  match out with
  | Err _ => p' = Peer_expire p now
  | Ok _ => exists o, Peer_open_header (Peer_expire p now) b request = Ok o /\
      let id := opened_id (p_active (Peer_expire p now)) o in
      peer_inv p' /\ available (Peer_expire p now) id /\ ~ available p' id /\
      forall id', available p' id' -> available (Peer_expire p now) id'
  end.
Proof.
  intros Hinv. apply (expire_available p now) in Hinv as [Hinv _]. revert Hinv.
  unfold Peer_receive. generalize (Peer_expire p now). intros q Hinv.
  destruct (Peer_open_header q b request) as [[h|h|e h]|] eqn:Ho; [| | |by intros; simplify_eq].
  - destruct (a_receive (p_active q)) as [r|] eqn:Hr; [|by intros; simplify_eq].
    destruct (_ <? _).
    + intros Hs. apply receive_stored_spec in Hs; [|done]. destruct out; [|done].
      eexists. split; [done|]. simpl. unfold message_id, current_epoch. by rewrite Hr.
    + intros Hs. apply receive_new_spec in Hs; [|done]. destruct out; [|done]. by eexists.
  - intros Hs. apply receive_new_spec in Hs; [|done]. destruct out; [|done]. by eexists.
  - intros Hs. apply receive_stored_spec in Hs; [|done]. destruct out; [|done]. by eexists.
Qed.

Lemma Peer_step_spec p g op p' g' out :
  peer_inv p -> Peer_step p g op = (p', g', out) ->
  peer_inv p' /\ (forall id, available p' id -> available p id) /\
  (forall id, out = Some id -> available p id /\ ~ available p' id).
Proof.
  intros Hinv. destruct op as [request|b request now buffer auth|now|]; simpl.
  - destruct (Peer_send p g request) as [[p1 g1] k] eqn:Hs. intros; simplify_eq.
    apply send_available in Hs as [? Hav]; [|done]. split_and!; try done. intros. by apply Hav.
  - destruct (Peer_receive p b request now buffer auth) as [[p1 b1] o] eqn:Hr.
    destruct (expire_available p now Hinv) as [Hinv' Hav].
    apply receive_step in Hr; [|done]. destruct o; intros; simplify_eq; [|done].
    destruct Hr as (o & Ho & Hinv1 & Hid & Hnot & Hmono). rewrite Ho.
    split_and!; [done|by eauto|]. intros id [= <-]. eauto.
  - intros; simplify_eq. destruct (expire_available p now Hinv). done.
  - intros; simplify_eq. destruct (discard_available p Hinv). done.
Qed.

Lemma Peer_run_spec ops p g p' g' ids :
  peer_inv p -> Peer_run p g ops = (p', g', ids) ->
  peer_inv p' /\ NoDup ids /\ forall id, id ∈ ids -> available p id.
Proof.
  revert p g ids. induction ops as [|op ops IH]; intros p g ids Hinv; simpl.
  { intros; simplify_eq. split_and!; [done|constructor|by intros ? ?%not_elem_of_nil]. }
  destruct (Peer_step p g op) as [[p1 g1] id] eqn:Hstep.
  destruct (Peer_run p1 g1 ops) as [[p2 g2] ids'] eqn:Hrun. intros; simplify_eq.
  apply Peer_step_spec in Hstep as (Hinv1 & Hmono & Hid); [|done].
  apply IH in Hrun as (Hinv2 & Hnd & Hav); [|done].
  split; [done|]. destruct id as [id|]; simpl; [|by eauto].
  destruct (Hid id eq_refl) as [Hin Hout].
  split; [constructor; eauto|]. intros id'. rewrite elem_of_cons. intros [->|?]; eauto.
Qed.

Lemma run_inv root local remote client g ops p' g' ids :
  Peer_run (Peer_new root local remote client) g ops = (p', g', ids) -> peer_inv p'.
Proof. intros Hrun. apply Peer_run_spec in Hrun; [tauto|]. apply peer_inv_new. Qed.

(** ** Properties *)

(** C6. In every run of a new peer, initiator or responder, over any messages an
    adversary delivers in any order, each message key (receiving turn and number) is
    released to an authenticated body at most once. *)
Theorem message_keys_once root local remote client g ops :
  NoDup (Peer_run (Peer_new root local remote client) g ops).2.
Proof.
  destruct (Peer_run _ g ops) as [[p' g'] ids] eqn:Hrun.
  apply Peer_run_spec in Hrun; [apply Hrun|apply peer_inv_new].
Qed.

(** In every reachable state at most 256 delayed keys are retained, the order
    index and the grouped store hold exactly the same keys, and no group is empty. *)
Theorem delayed_keys_bounded root local remote client g ops :
  let p := (Peer_run (Peer_new root local remote client) g ops).1.1 in
  bt_len (p_order p) <= MAX_SKIPPED_KEYS /\
  (forall e n o, p_order p !! o = Some (e, n) <->
     exists x, slookup (p_skipped p) e n = Some x /\ sk_order x = o) /\
  (forall e gr, p_skipped p !! e = Some gr -> gr_keys gr <> ∅).
Proof.
  destruct (Peer_run _ g ops) as [[p' g'] ids] eqn:Hrun. simpl.
  apply run_inv in Hrun as [Hs _ Hl _]. split; [exact Hl|]. split.
  - intros. apply (si_order p' Hs).
  - intros e gr Hgr. by eapply si_groups.
Qed.

(** A message that is rejected, for whatever reason, leaves a reachable peer
    exactly as the passage of time alone would: no candidate is committed and no
    key is consumed or evicted. *)
Theorem rejected_message_no_effect root local remote client g ops b request now
    (buffer : B) (auth : B -> bytes -> B * result T Error) p' b' e :
  let p := (Peer_run (Peer_new root local remote client) g ops).1.1 in
  Peer_receive p b request now buffer auth = (p', b', Err e) ->
  p' = Peer_expire p now.
Proof.
  destruct (Peer_run _ g ops) as [[p g'] ids] eqn:Hrun. simpl.
  apply run_inv in Hrun. intros Hr. by apply receive_step in Hr.
Qed.

(** Although expiry only inspects the oldest entries, on a reachable peer it
    keeps a delayed key exactly when its deadline lies after the latest time seen. *)
Theorem expiry_exact root local remote client g ops now e n :
  let p := (Peer_run (Peer_new root local remote client) g ops).1.1 in
  slookup (p_skipped (Peer_expire p now)) e n =
  match slookup (p_skipped p) e n with
  | Some x => if unexpired (Z.max (p_last_now p) now) x then Some x else None
  | None => None
  end.
Proof.
  destruct (Peer_run _ g ops) as [[p g'] ids] eqn:Hrun. simpl.
  apply run_inv in Hrun as [Hs _ _ _]. destruct (expire_spec p now Hs) as (_ & _ & _ & _ & _ & Hsp).
  apply option_eq. intros x. rewrite Hsp.
  destruct (slookup (p_skipped p) e n) as [y|]; [|naive_solver].
  destruct (unexpired _ y) eqn:E; split; [by intros [[= ->] _]|by intros [= ->]| |done]. intros [[= ->] ?]; congruence.
Qed.

End Runs.
