(* ===== verification/RatchetAgreement.v ===== *)
(** Agreement of the two ends of a ratchet: in every conversation delivered in
    order, with turns changing hands at any message, the receiver derives exactly
    the message key the sender used. *)

From S2P Require Import Prelude Primitives BTree Record RecordTheory Ratchet RatchetTheory.

Open Scope Z_scope.

(** ** Sealed headers *)

Record header_wf (h : Header) : Prop := {
  hw_public : zlen (h_public h) = PUBLIC_KEY_BYTES;
  hw_ciphertext : zlen (h_ciphertext h) = CIPHERTEXT_BYTES;
  hw_previous : 0 <= h_previous h <= u64_max;
  hw_number : 0 <= h_number h <= u64_max
}.

Ltac header_consts :=
  unfold HEADER_BYTES, FIELDS_BYTES, PUBLIC_KEY_BYTES, CIPHERTEXT_BYTES, u64_max in *.

Lemma header_decode_encode h : header_wf h -> Header_decode (Header_encode h) = h.
Proof.
  intros [Hp Hc Hv Hn]. unfold Header_decode, Header_encode. header_consts.
  assert (forall k : bytes, slice (h_public h ++ k) 1216 2304 = slice k 0 1088) as S1
    by (intros; rewrite slice_app_skip by lia; f_equal; lia).
  assert (forall a b (k : bytes), 2304 <= a -> slice (h_public h ++ h_ciphertext h ++ k) a b =
    slice k (a - 2304) (b - 2304)) as S2
    by (intros; rewrite !slice_app_skip by lia; f_equal; lia).
  change (32 + 1184) with 1216 in *. change (1216 + 1088 + 16 - 16) with 2304.
  change (1216 + 1088 + 16 - 8) with 2312. change (1216 + 1088 + 16) with 2320.
  rewrite slice_to_app, S1, !S2, (slice_app_skip (u64_be (h_previous h)) _ (2312 - 2304))
    by (rewrite ?zlen_be_bytes; lia).
  change (2304 - 2304) with 0. rewrite zlen_be_bytes, !slice_app_here by (rewrite ?zlen_be_bytes; lia).
  change (2312 - 2304 - Z.of_nat 8) with 0.
  rewrite slice_0. unfold slice_to. rewrite (take_ge (u64_be (h_number h)))
    by (rewrite length_be_bytes; lia).
  rewrite !be_value_bytes_small by lia. by destruct h.
Qed.

Section Headers.
Context `{AeadLaws}.

Lemma zlen_header_encode h : header_wf h -> zlen (Header_encode h) = FIELDS_BYTES.
Proof.
  intros [Hp Hc _ _]. unfold Header_encode. header_consts. zlen_norm. rewrite Hp, Hc. lia.
Qed.

Lemma header_open_seal c h request b :
  header_wf h -> HeaderCipher_seal c h request = Ok b ->
  zlen b = HEADER_BYTES /\ HeaderCipher_open c b request = Ok h.
Proof.
  intros Hwf. unfold HeaderCipher_seal, HeaderCipher_open.
  destruct (gcm_seal _ _ _ _) as [[ct tag]|] eqn:Hs; [|done]. simpl. intros [= <-].
  destruct (gcm_seal_lengths _ _ _ _ _ _ Hs) as [Hct Htag].
  rewrite zlen_header_encode in Hct by done.
  assert (zlen (ct ++ tag) = HEADER_BYTES) as -> by (rewrite zlen_app; header_consts; lia).
  rewrite Z.eqb_refl. simpl. rewrite slice_to_app, slice_from_app by done.
  rewrite (gcm_open_seal _ _ _ _ _ _ Hs). simpl. by rewrite header_decode_encode.
Qed.

End Headers.

(** ** Linked ends *)

(** [o] may open the next turn and [h] holds the current one; [k] bounds the
    epochs. Before the first message nobody holds a turn. *)
Definition holder_of `{Hash} (o h : Active) : Prop :=
  match a_send h with
  | None => a_receive o = None /\ a_receive h = None /\ a_remote h = None
  | Some s => exists r, a_receive o = Some r /\ rv_chain r = sd_chain s /\
      rh_cipher (rv_header r) = sd_cipher s /\
      rh_turn (rv_header r) = Header_turn (sd_header s) /\
      0 <= ch_count (sd_chain s) <= MAX_CHAIN_MESSAGES /\ header_wf (sd_header s)
  end.

Definition epoch_le (k : Z) (a : Active) : Prop :=
  match a_receive a with Some r => rv_epoch r <= k | None => True end.

Section Linked.
Context `{Kdf} `{Hash} `{Aead} `{Agreement}.

Record linked (k : Z) (o h : Active) : Prop := {
  lk_root : a_root o = a_root h;
  lk_send : a_send o = None;
  lk_pair : exists seed, a_local h = Some (KeyPair_from_seed seed) /\
    a_remote o = Some (kp_public (KeyPair_from_seed seed));
  lk_next_o : a_next_send o = a_next_receive h;
  lk_next_h : a_next_send h = a_next_receive o;
  lk_previous : a_previous_sent o = received_count h;
  lk_received : 0 <= received_count h <= MAX_CHAIN_MESSAGES;
  lk_epochs : epoch_le k o /\ epoch_le k h;
  lk_holder : holder_of o h
}.

Context `{!AeadLaws} `{!AgreementLaws} `{!KemCorrect}.

Lemma from_seed_public seed :
  zlen (kp_public (KeyPair_from_seed seed)) = PUBLIC_KEY_BYTES /\
  PublicKeys_validate (kp_public (KeyPair_from_seed seed)) = Ok tt.
Proof.
  unfold PublicKeys_validate, KeyPair_from_seed.
  set (m := slice_from _ 32). pose proof (mlkem_public_length m) as Hl.
  pose proof (mlkem_generated_valid m) as Hv. destruct (mlkem_generate m) as [sk pk]. simpl in *.
  set (x := x25519_public _). pose proof (x25519_public_length (x25519_clamp (slice_to (expand 96 None seed (ascii ":KeyGeneration")) 32))) as Hx.
  fold x in Hx. rewrite slice_from_app by done. rewrite Hl, Hv, zlen_app. simpl.
  split; [|done]. header_consts. lia.
Qed.

(** Both ends of a new turn mix the same secrets. *)
Lemma exchange_agrees mine theirs r ct kem dh :
  PublicKeys_encapsulate (kp_public (KeyPair_from_seed theirs)) r = Ok (ct, kem) ->
  KeyPair_agree (KeyPair_from_seed mine) (kp_public (KeyPair_from_seed theirs)) = Ok dh ->
  KeyPair_agree (KeyPair_from_seed theirs) (kp_public (KeyPair_from_seed mine)) = Ok dh /\
  KeyPair_decapsulate (KeyPair_from_seed theirs) ct = kem /\ zlen ct = CIPHERTEXT_BYTES.
Proof.
  unfold PublicKeys_encapsulate, KeyPair_agree, KeyPair_decapsulate, KeyPair_from_seed.
  set (m := expand 96 None mine _). set (t := expand 96 None theirs _).
  pose proof (mlkem_correct (slice_from t 32) r) as Hk.
  destruct (mlkem_generate (slice_from m 32)) as [skm pkm].
  destruct (mlkem_generate (slice_from t 32)) as [skt pkt]. simpl in *.
  rewrite !slice_from_app, !slice_to_app by (by rewrite x25519_public_length).
  pose proof (mlkem_ciphertext_length pkt r) as Hl.
  destruct (negb _); [done|]. intros [= E] Hdh. rewrite E in *. simpl in *.
  rewrite x25519_commutes. done.
Qed.

(** What a reception needs of a header: it passes the gap check without skipping
    and yields the sender's key. *)
Definition yields (a : Active) (hd : Header) (next : bool) (a' : Active) (secret : bytes) : Prop :=
  Active_skipped_count a hd next = Ok 0 /\ Active_receive_key a hd next [] = Ok (a', [], secret).

Lemma send_next_spec a request a' key :
  Active_send_next a request = Ok (a', key) ->
  exists s hd chain,
    a_send a = Some s /\
    hd = {| h_public := h_public (sd_header s); h_ciphertext := h_ciphertext (sd_header s);
            h_previous := h_previous (sd_header s); h_number := ch_count (sd_chain s) |} /\
    ch_count (sd_chain s) < MAX_CHAIN_MESSAGES /\
    Chain_step (sd_chain s) = Ok (chain, s_secret key) /\
    HeaderCipher_seal (sd_cipher s) hd request = Ok (s_header key) /\
    a' = {| a_root := a_root a; a_local := a_local a; a_remote := a_remote a;
            a_send := Some {| sd_chain := chain; sd_cipher := sd_cipher s; sd_header := hd |};
            a_receive := a_receive a; a_next_send := a_next_send a;
            a_next_receive := a_next_receive a; a_previous_sent := a_previous_sent a |}.
Proof.
  unfold Active_send_next. destruct (a_send a) as [s|]; [|done]. simpl.
  destruct (Chain_step (sd_chain s)) as [[chain secret]|] eqn:Hc; [|done].
  destruct (HeaderCipher_seal _ _ _) as [b|] eqn:Hs; [|done]. intros [= <- <-].
  eexists s, _, chain. split_and!; try done. unfold Chain_step in Hc. case_all. by zbool.
Qed.

Lemma skip_here a r n pending :
  a_receive a = Some r -> ch_count (rv_chain r) = n -> Active_skip a n pending = Ok (a, pending).
Proof.
  intros Hr <-. unfold Active_skip. rewrite Hr, Z.ltb_irrefl, Z.sub_diag.
  destruct (Z.max _ _ <? 0) eqn:E; [zbool; lia|]. simpl. rewrite Z.ltb_irrefl.
  destruct a. simpl in *. by subst.
Qed.

Lemma skip_received a pending : Active_skip a (received_count a) pending = Ok (a, pending).
Proof.
  unfold received_count. destruct (a_receive a) as [r|] eqn:Hr; [by eapply skip_here|].
  unfold Active_skip. by rewrite Hr.
Qed.

(** A message of the open turn. *)
Lemma deliver_current k o h request h' key :
  linked k o h -> is_Some (a_send h) -> Active_send_next h request = Ok (h', key) ->
  exists r hd o', a_receive o = Some r /\ zlen (s_header key) = HEADER_BYTES /\
    HeaderCipher_open (rh_cipher (rv_header r)) (s_header key) request = Ok hd /\
    Header_turn hd = rh_turn (rv_header r) /\ h_number hd = ch_count (rv_chain r) /\
    yields o hd false o' (s_secret key) /\ linked k o' h'.
Proof.
  intros Hl _ Hs. apply send_next_spec in Hs as (s & hd & chain & Hs & Hhd & Hmax & Hc & Hseal & ->).
  destruct Hl as [? ? Hpair ? ? ? Hrcv [Heo Heh] Hh]. unfold holder_of in Hh. rewrite Hs in Hh.
  destruct Hh as (r & Hr & Hch & Hci & Htu & Hcount & Hwf).
  assert (header_wf hd) as Hwf'.
  { destruct Hwf. rewrite Hhd. split; simpl; try done. unfold MAX_CHAIN_MESSAGES, u64_max in *. lia. }
  destruct (header_open_seal _ _ _ _ Hwf' Hseal) as [Hlen Hopen].
  pose proof (chain_step_count _ _ _ Hc) as Hcc.
  exists r, hd, (set_receive o (Some (set_chain r chain))). split_and!; try done.
  - by rewrite Hci.
  - rewrite Htu, Hhd. done.
  - rewrite Hhd, Hch. done.
  - assert (h_number hd = ch_count (rv_chain r)) as Hn by (by rewrite Hhd, Hch). split.
    + unfold Active_skipped_count, received_count. rewrite Hr, Hn, Hch.
      destruct (_ <=? _) eqn:E; zbool; [lia|]. rewrite Z.ltb_irrefl, Z.sub_diag. done.
    + unfold Active_receive_key. rewrite (skip_here _ _ _ _ Hr), Hr by done. simpl. by rewrite Hch, Hc.
  - split; try done.
    + unfold epoch_le in *. simpl. rewrite Hr in Heo. done.
    + unfold holder_of. simpl. eexists. split; [done|]. simpl. split_and!; try done.
      * by rewrite Hhd.
      * lia.
      * lia.
Qed.

(** The first message of a new turn, which changes hands. *)
Lemma deliver_next k o h theirs seed random request o1 o' key :
  linked k o h -> 0 <= k < u64_max ->
  a_remote o = Some theirs -> Active_open_turn o theirs seed random = Ok o1 ->
  Active_send_next o1 request = Ok (o', key) ->
  exists hd h', zlen (s_header key) = HEADER_BYTES /\
    HeaderCipher_open (a_next_receive h) (s_header key) request = Ok hd /\
    yields h hd true h' (s_secret key) /\ linked (k + 1) h' o'.
Proof.
  intros [Hroot Hsend (sd & Hloc & Hrem) Hno Hnh Hprev Hrcv [Heo Heh] Hh] Hk Ht Hopen Hs.
  rewrite Hrem in Ht. injection Ht as <-. unfold Active_open_turn in Hopen.
  destruct (PublicKeys_encapsulate _ _) as [[ct kem]|] eqn:Henc; [|done].
  destruct (KeyPair_agree _ _) as [dh|] eqn:Hdh; [|done].
  destruct (exchange_agrees _ _ _ _ _ _ Henc Hdh) as (Hdh' & Hkem & Hct).
  destruct (Active_advance (a_root o) dh kem) as [[root ch] nh] eqn:Hadv.
  assert (ch_count ch = 0) as Hch0 by (unfold Active_advance in Hadv; by simplify_eq).
  injection Hopen as <-. apply send_next_spec in Hs as (s & hd & chain & Hs & Hhd & Hmax & Hc & Hseal & ->).
  simpl in Hs. injection Hs as <-. simpl in *. rewrite Hch0, Hprev in Hhd.
  destruct (from_seed_public seed) as [Hpl Hpv].
  assert (header_wf hd) as Hwf.
  { rewrite Hhd. split; simpl; try done; unfold MAX_CHAIN_MESSAGES, u64_max in *; lia. }
  destruct (header_open_seal _ _ _ _ Hwf Hseal) as [Hlen Hop].
  pose proof (chain_step_count _ _ _ Hc) as Hcc.
  assert (awaits_send h = false) as Haw.
  { unfold awaits_send, holder_of in *. destruct (a_receive h), (a_send h); try done. by destruct Hh as (_&?&_). }
  assert (exists ep, ep <= k + 1 /\ match a_receive h with None => Ok 0
    | Some r => if u64_max <? rv_epoch r + 1 then Err Limit else Ok (rv_epoch r + 1) end = Ok ep)
    as (ep & Hep & Hep').
  { unfold epoch_le in Heh. destruct (a_receive h) as [r|]; [|exists 0; split; [lia|done]].
    destruct (_ <? _) eqn:E; zbool; [lia|]. eexists. split; [|done]. lia. }
  eexists hd, _. split_and!; [done|by rewrite <- Hno|split|].
  - unfold Active_skipped_count. rewrite Hloc, Haw, Hhd. simpl. by rewrite Z.ltb_irrefl, Z.sub_diag.
  - unfold Active_receive_key, Active_begin_turn. rewrite Haw, Hhd.
    cbn [h_public h_previous h_number h_ciphertext].
    rewrite Hpv, skip_received, Hloc. cbn [ok_or]. rewrite Hdh', Hkem, <- Hroot, Hadv, Hep'.
    erewrite skip_here; [|done|done]. simpl. rewrite Hc. done.
  - split; simpl; try done.
    + eauto.
    + unfold holder_of in Hh. unfold received_count. simpl.
      destruct (a_send h); [destruct Hh as (r & -> & Hch & _); by rewrite Hch|by destruct Hh as (-> & _)].
    + unfold holder_of in Hh. unfold received_count, MAX_CHAIN_MESSAGES in *. simpl.
      destruct (a_send h); [destruct Hh as (r & -> & Hch & _ & _ & ? & _); by rewrite Hch|].
      destruct Hh as (-> & _). lia.
    + split; unfold epoch_le in *; simpl; [done|]. destruct (a_receive o); lia.
    + unfold holder_of. simpl. eexists. split; [done|]. simpl. split_and!; try done.
      * lia.
      * unfold MAX_CHAIN_MESSAGES. lia.
Qed.

End Linked.

(** ** Conversations *)

Section Conversation.
Context `{Kdf} `{Hash} `{Aead} `{Agreement} `{Random}.

(** A header that opens a turn is not mistaken for one of the current turn: the
    receiver's current header key does not open it. *)
Definition unambiguous (p q : Peer) (b : bytes) (request : Z) : bool :=
  match a_send (p_active p), a_receive (p_active q) with
  | None, Some r =>
      match HeaderCipher_open (rh_cipher (rv_header r)) b request with Ok _ => false | Err _ => true end
  | _, _ => true
  end.

(** One message from [p] to [q], received at once by a body that authenticates:
    both peers afterwards, the key used and the outcome of the reception. *)
Definition exchange (p q : Peer) (g : rng) (request now : Z)
  : option (Peer * Peer * rng * (bytes * result bytes Error)) :=
  match Peer_send p g request with
  | (_, _, Err _) => None
  | (p', g', Ok key) =>
      if unambiguous p q (s_header key) request then
        let '(q', _, out) := Peer_receive q (s_header key) request now tt (fun b k => (b, Ok k)) in
        Some (p', q', g', (s_secret key, out))
      else None
  end.

(** Each message says whether [p] or [q] sends it, its request number and its time.
    [None] when a send fails or a header is ambiguous. *)
Fixpoint converse (p q : Peer) (g : rng) (msgs : list (bool * Z * Z))
  : option (list (bytes * result bytes Error)) :=
  match msgs with
  | [] => Some []
  | (true, request, now) :: msgs =>
      match exchange p q g request now with
      | None => None
      | Some (p', q', g', out) => cons out <$> converse p' q' g' msgs
      end
  | (false, request, now) :: msgs =>
      match exchange q p g request now with
      | None => None
      | Some (q', p', g', out) => cons out <$> converse p' q' g' msgs
      end
  end.

(** A peer that retains nothing. *)
Definition idle (p : Peer) : Prop := p_skipped p = ∅ /\ p_order p = ∅ /\ p_next_order p = 0.

Context `{!AeadLaws} `{!AgreementLaws} `{!KemCorrect}.

Lemma expire_idle p now : idle p -> Peer_expire p now = set_now p (Z.max (p_last_now p) now).
Proof.
  intros (? & Ho & ?). unfold Peer_expire. simpl. by rewrite Ho, map_size_empty.
Qed.

Lemma receive_new_yields {B T} p h next a secret (buffer : B)
    (auth : B -> bytes -> B * result T Error) b' o :
  idle p -> yields (p_active p) h next a secret -> auth buffer secret = (b', Ok o) ->
  Peer_receive_new p h next buffer auth = (set_active p a, b', Ok o).
Proof.
  intros (Hs & Ho & Hn) [Hc Hk] Hauth. unfold Peer_receive_new. rewrite Hc, Hk, Hn, Ho.
  rewrite map_size_empty. simpl. rewrite Hauth, Ho. done.
Qed.

(** A header of the next turn that the current header key does not open. *)
Lemma receive_next_ok {B T} p b request now hd a secret (buffer : B)
    (auth : B -> bytes -> B * result T Error) b' o :
  idle p -> zlen b = HEADER_BYTES ->
  match a_receive (p_active p) with
  | Some r => exists e, HeaderCipher_open (rh_cipher (rv_header r)) b request = Err e
  | None => True
  end ->
  HeaderCipher_open (a_next_receive (p_active p)) b request = Ok hd ->
  yields (p_active p) hd true a secret -> auth buffer secret = (b', Ok o) ->
  Peer_receive p b request now buffer auth =
  (set_active (set_now p (Z.max (p_last_now p) now)) a, b', Ok o).
Proof.
  intros Hi Hlen Hcur Hop Hy Hauth. unfold Peer_receive. rewrite (expire_idle p) by done.
  unfold Peer_open_header. rewrite Hlen, Z.eqb_refl. simpl.
  destruct (a_receive (p_active p)) as [r|]; [destruct Hcur as [e ->]|]; rewrite Hop;
    by apply (receive_new_yields _ _ _ _ secret).
Qed.

Lemma exchange_current k o h g request now out :
  idle o -> linked k (p_active o) (p_active h) -> is_Some (a_send (p_active h)) -> idle h ->
  exchange h o g request now = Some out ->
  let '(h', o', _, (sent, got)) := out in
  got = Ok sent /\ idle o' /\ idle h' /\ linked k (p_active o') (p_active h').
Proof.
  intros Hio Hl [s Hs] Hih. unfold exchange, Peer_send. rewrite Hs.
  destruct (Active_send_next _ _) as [[a key]|] eqn:Hn; [|done].
  destruct (unambiguous _ _ _ _); [|done].
  destruct (deliver_current _ _ _ _ _ _ Hl ltac:(eauto) Hn) as (r & hd & o' & Hr & Hlen & Hop & Ht & Hnum & Hy & Hl').
  unfold Peer_receive. rewrite (expire_idle o) by done. unfold Peer_open_header.
  rewrite Hlen, Z.eqb_refl. simpl. rewrite Hr, Hop, bool_decide_true by done.
  cbn match. rewrite Hnum, Z.ltb_irrefl.
  rewrite (receive_new_yields _ _ _ o' (s_secret key) _ _ tt (s_secret key)) by done. intros [= <-]. done.
Qed.

Lemma exchange_next k o h g request now out :
  idle o -> linked k (p_active o) (p_active h) -> idle h -> 0 <= k < u64_max ->
  exchange o h g request now = Some out ->
  let '(o', h', _, (sent, got)) := out in
  got = Ok sent /\ idle o' /\ idle h' /\ linked (k + 1) (p_active h') (p_active o').
Proof.
  intros Hio Hl Hih Hk. unfold exchange, Peer_send. rewrite (lk_send _ _ _ Hl).
  destruct (a_remote (p_active o)) as [theirs|] eqn:Hrem; [|done].
  destruct (rng_fill g 32) as [g1 [seed|]]; [|done].
  destruct (rng_fill g1 32) as [g2 [random|]]; [|done].
  destruct (Active_open_turn _ _ _ _) as [o1|] eqn:Hopen; [|done].
  destruct (Active_send_next o1 request) as [[a key]|] eqn:Hn; [|done].
  unfold unambiguous. rewrite (lk_send _ _ _ Hl).
  destruct (deliver_next _ _ _ _ _ _ _ _ _ _ Hl Hk Hrem Hopen Hn) as (hd & h' & Hlen & Hop & Hy & Hl').
  intros Hex. assert (match a_receive (p_active h) with
    | Some r => exists e, HeaderCipher_open (rh_cipher (rv_header r)) (s_header key) request = Err e
    | None => True end) as Hcur.
  { destruct (a_receive (p_active h)) as [r|]; [|done].
    destruct (HeaderCipher_open (rh_cipher (rv_header r)) _ _); [done|eauto]. }
  rewrite (receive_next_ok h _ _ _ hd h' (s_secret key) _ _ tt (s_secret key)) in Hex by done.
  destruct (match a_receive _ with Some _ => _ | None => _ end) in Hex; by simplify_eq.
Qed.

Definition paired (k : Z) (p q : Peer) : Prop :=
  idle p /\ idle q /\ (linked k (p_active p) (p_active q) \/ linked k (p_active q) (p_active p)).

Lemma exchange_paired k p q g request now p' q' g' sent got :
  paired k p q -> 0 <= k < u64_max ->
  exchange p q g request now = Some (p', q', g', (sent, got)) ->
  got = Ok sent /\ paired (k + 1) p' q'.
Proof.
  intros (Hp & Hq & [Hl|Hl]) Hk Hex.
  - apply (exchange_next k) in Hex as (? & ? & ? & ?); try done. split; [done|]. split_and!; auto.
  - destruct (a_send (p_active p)) as [s|] eqn:Hs.
    + apply (exchange_current k) in Hex as (? & ? & ? & Hl'); try done.
      split; [done|]. split_and!; try done. right.
      destruct Hl' as [? ? ? ? ? ? ? [He1 He2] ?]. split; try done.
      unfold epoch_le in *. split; [destruct (a_receive (p_active q'))|destruct (a_receive (p_active p'))]; lia.
    + pose proof (lk_holder _ _ _ Hl) as Hh. unfold holder_of in Hh. rewrite Hs in Hh.
      unfold exchange, Peer_send in Hex. destruct Hh as (_ & _ & Hr). by rewrite Hs, Hr in Hex.
Qed.

Lemma paired_sym k p q : paired k p q -> paired k q p.
Proof. intros (? & ? & ?). split_and!; tauto. Qed.

Lemma converse_paired msgs k p q g out :
  paired k p q -> 0 <= k -> k + zlen msgs <= u64_max ->
  converse p q g msgs = Some out -> Forall (fun '(sent, got) => got = Ok sent) out.
Proof.
  revert k p q g out. induction msgs as [|[[[] request] now] msgs IH]; intros k p q g out Hpq Hk Hlen.
  { intros [= <-]. constructor. }
  all: rewrite zlen_cons in Hlen; pose proof (zlen_nonneg msgs); simpl.
  all: destruct (exchange _ _ _ _ _) as [[[[p' q'] g'] [sent got]]|] eqn:Hex; [|done].
  all: destruct (converse _ _ g' msgs) eqn:Hc; [|done]; intros [= <-].
  - apply (exchange_paired k) in Hex as [Hgot Hpq']; [|done|lia].
    constructor; [done|]. apply (IH (k + 1)) in Hc; [done..|lia|lia].
  - apply (exchange_paired k) in Hex as [Hgot Hpq']; [|by apply paired_sym|lia].
    constructor; [done|]. apply paired_sym in Hpq'. apply (IH (k + 1)) in Hc; [done..|lia|lia].
Qed.

Lemma initial_paired root seed p :
  Peer_initiator root (kp_public (KeyPair_from_seed seed)) = Ok p ->
  paired 0 p (Peer_responder root (KeyPair_from_seed seed)).
Proof.
  unfold Peer_initiator. destruct (PublicKeys_validate _); [|done]. intros [= <-].
  split_and!; try done. left. split; try done; simpl. eauto.
Qed.

(** An initiator and the responder whose initial key it verified stay in
    agreement: whoever sends, however often turns change hands, every message
    delivered in order is accepted with exactly the key its sender used. *)
Theorem conversation_agrees root seed g msgs p out :
  Peer_initiator root (kp_public (KeyPair_from_seed seed)) = Ok p ->
  zlen msgs <= u64_max ->
  converse p (Peer_responder root (KeyPair_from_seed seed)) g msgs = Some out ->
  Forall (fun '(sent, got) => got = Ok sent) out.
Proof.
  intros Hp Hlen Hc. eapply (converse_paired msgs 0); [by apply initial_paired|lia|lia|done].
Qed.

End Conversation.
