(* ===== verification/Window.v ===== *)
(** The 256-position bitmap in four 64-bit words that both ends of a session keep
    ([[u64; MAX_SKIPPED_KEYS / 64]]): [session.rs] for pending starts and
    [server.rs] for accepted ones. *)

From S2P Require Import Prelude.

Open Scope Z_scope.

Definition REPLAY_WINDOW : Z := 256.

Abbreviation Bitmap := (list Z).

Definition bitmap_zero : Bitmap := [0; 0; 0; 0].

(** [!x] on [u64]. *)
Definition u64_not (x : Z) : Z := Z.lxor x u64_max.

(** [pending[position / 64] & (1 << (position % 64)) != 0]; positions are below 256,
    so the index is in range. *)
Definition bit_get (bits : Bitmap) (position : Z) : bool :=
  negb (Z.land (nth (Z.to_nat (position / 64)) bits 0) (Z.shiftl 1 (position mod 64)) =? 0).

(** [pending[position / 64] |= 1 << (position % 64)] *)
Definition bit_set (bits : Bitmap) (position : Z) : Bitmap :=
  alter (fun w => Z.lor w (Z.shiftl 1 (position mod 64))) (Z.to_nat (position / 64)) bits.

(** [pending[position / 64] &= !(1 << (position % 64))] *)
Definition bit_clear (bits : Bitmap) (position : Z) : Bitmap :=
  alter (fun w => Z.land w (u64_not (Z.shiftl 1 (position mod 64)))) (Z.to_nat (position / 64)) bits.

(** ** The bitmap as a set of positions *)

Definition bitmap_wf (bits : Bitmap) : Prop := length bits = 4%nat.

Lemma bit_get_testbit bits p :
  bit_get bits p = Z.testbit (nth (Z.to_nat (p / 64)) bits 0) (p mod 64).
Proof.
  unfold bit_get. set (w := nth _ _ _). pose proof (Z.mod_pos_bound p 64 ltac:(lia)).
  rewrite Z.shiftl_mul_pow2, Z.mul_1_l by lia.
  destruct (Z.testbit w (p mod 64)) eqn:E.
  - apply negb_true_iff, Z.eqb_neq. intros E0. apply (f_equal (fun x => Z.testbit x (p mod 64))) in E0.
    rewrite Z.land_spec, E, Z.pow2_bits_true, Z.bits_0 in E0 by lia. done.
  - apply negb_false_iff, Z.eqb_eq, Z.bits_inj'. intros n Hn.
    rewrite Z.land_spec, Z.bits_0. destruct (decide (n = p mod 64)) as [->|Hne]; [by rewrite E|].
    rewrite Z.pow2_bits_false by lia. apply andb_false_r.
Qed.

Lemma u64_not_testbit m n :
  0 <= m < 64 -> 0 <= n < 64 -> Z.testbit (u64_not (Z.shiftl 1 m)) n = negb (m =? n).
Proof.
  intros Hm Hn. unfold u64_not. rewrite Z.lxor_spec, Z.shiftl_mul_pow2, Z.mul_1_l by lia.
  rewrite Z.pow2_bits_eqb by lia. change u64_max with (Z.ones 64).
  rewrite Z.ones_spec_low by lia. apply xorb_true_r.
Qed.

Lemma nth_alter (f : Z -> Z) i j bits :
  (i < length bits)%nat ->
  nth j (alter f i bits) 0 = if decide (i = j) then f (nth j bits 0) else nth j bits 0.
Proof.
  intros Hi. rewrite !nth_lookup. destruct (decide (i = j)) as [<-|Hne].
  - rewrite list_lookup_alter_eq. destruct (lookup_lt_is_Some_2 bits i Hi) as [w ->]. done.
  - by rewrite list_lookup_alter_ne.
Qed.

Lemma position_eq p q : p / 64 = q / 64 -> p mod 64 = q mod 64 -> p = q.
Proof. pose proof (Z.div_mod p 64). pose proof (Z.div_mod q 64). lia. Qed.

Lemma position_index bits p : bitmap_wf bits -> 0 <= p < 256 -> (Z.to_nat (p / 64) < length bits)%nat.
Proof.
  unfold bitmap_wf. intros -> Hp. pose proof (Z.div_lt_upper_bound p 64 4). lia.
Qed.

Lemma bit_get_set bits p q :
  bitmap_wf bits -> 0 <= p < 256 -> 0 <= q < 256 ->
  bit_get (bit_set bits p) q = (p =? q) || bit_get bits q.
Proof.
  intros Hw Hp Hq. rewrite !bit_get_testbit. unfold bit_set.
  rewrite nth_alter by (by apply position_index).
  pose proof (Z.mod_pos_bound p 64 ltac:(lia)). pose proof (Z.mod_pos_bound q 64 ltac:(lia)).
  pose proof (Z.div_pos p 64). pose proof (Z.div_pos q 64).
  case_decide as Hd.
  - rewrite Z.lor_spec, Z.shiftl_mul_pow2, Z.mul_1_l, Z.pow2_bits_eqb, orb_comm by lia. f_equal.
    destruct (Z.eqb_spec p q) as [->|Hne]; [apply Z.eqb_refl|]. apply Z.eqb_neq. intros Hm.
    apply Hne, position_eq; [lia|done].
  - destruct (Z.eqb_spec p q) as [->|Hne]; done.
Qed.

Lemma bit_get_clear bits p q :
  bitmap_wf bits -> 0 <= p < 256 -> 0 <= q < 256 ->
  bit_get (bit_clear bits p) q = negb (p =? q) && bit_get bits q.
Proof.
  intros Hw Hp Hq. rewrite !bit_get_testbit. unfold bit_clear.
  rewrite nth_alter by (by apply position_index).
  pose proof (Z.mod_pos_bound p 64 ltac:(lia)). pose proof (Z.mod_pos_bound q 64 ltac:(lia)).
  pose proof (Z.div_pos p 64). pose proof (Z.div_pos q 64).
  case_decide as Hd.
  - rewrite Z.land_spec, u64_not_testbit, andb_comm by lia. f_equal. f_equal.
    destruct (Z.eqb_spec p q) as [->|Hne]; [apply Z.eqb_refl|]. apply Z.eqb_neq. intros Hm.
    apply Hne, position_eq; [lia|done].
  - destruct (Z.eqb_spec p q) as [->|Hne]; done.
Qed.

Lemma bitmap_wf_set bits p : bitmap_wf bits -> bitmap_wf (bit_set bits p).
Proof. unfold bitmap_wf, bit_set. by rewrite length_alter. Qed.

Lemma bitmap_wf_clear bits p : bitmap_wf bits -> bitmap_wf (bit_clear bits p).
Proof. unfold bitmap_wf, bit_clear. by rewrite length_alter. Qed.

Lemma bit_get_zero p : bit_get bitmap_zero p = false.
Proof.
  rewrite bit_get_testbit. assert (nth (Z.to_nat (p / 64)) bitmap_zero 0 = 0) as ->.
  { generalize (Z.to_nat (p / 64)). intros [|[|[|[|[|?]]]]]; done. }
  apply Z.bits_0.
Qed.

(** ** Slots of a window of consecutive numbers *)

Definition slot (n : Z) : Z := n mod REPLAY_WINDOW.

Lemma slot_range n : 0 <= slot n < 256.
Proof. apply Z.mod_pos_bound. done. Qed.

(** Numbers closer than the window that share a slot are equal. *)
Lemma slot_inj m n : slot m = slot n -> - 256 < m - n < 256 -> m = n.
Proof.
  unfold slot, REPLAY_WINDOW. intros E Hd.
  pose proof (Z.div_mod m 256). pose proof (Z.div_mod n 256). lia.
Qed.

#[export] Hint Resolve slot_range bitmap_wf_set bitmap_wf_clear : stogas.
