(* ===== verification/Session.v ===== *)
(** Client and server sessions: [channel/session.rs] (request numbers, pending
    starts, request writer and response reader) and [channel/server.rs] (replay
    window, start budget, request admission).

    A client session, its requests and their pending starts share one
    [Arc<Mutex<Shared>>]. The shared value is a state every operation receives and
    returns; each operation runs under the lock, so it is one step. A poisoned lock
    (a panic while it is held) is not represented. *)

From S2P Require Import Prelude Primitives Record Ratchet Window.

Open Scope Z_scope.

(** ** session.rs: request numbers *)

Record Starts : Type := {
  st_next : Z;
  st_first_pending : Z;
  st_confirmed_next : Z;
  st_pending : Bitmap
}.

Definition Starts_default : Starts :=
  {| st_next := 0; st_first_pending := 0; st_confirmed_next := 0; st_pending := bitmap_zero |}.

Definition Starts_allocate (s : Starts) : Starts * result Z Error :=
  if st_next s =? u64_max then (s, Err Limit)
  else if REPLAY_WINDOW <=? st_next s - st_confirmed_next s then
    (s, Err (if st_first_pending s =? st_next s then Limit else Pending))
  else if REPLAY_WINDOW <=? st_next s - st_first_pending s then (s, Err Pending)
  else
    let number := st_next s in
    ({| st_next := st_next s + 1;
        st_first_pending := st_first_pending s;
        st_confirmed_next := st_confirmed_next s;
        st_pending := bit_set (st_pending s) (number mod REPLAY_WINDOW) |},
     Ok number).

(** The loop of [release]: at most [next - first_pending] steps. *)
Fixpoint release_loop (fuel : nat) (s : Starts) : Starts :=
  match fuel with
  | O => s
  | S fuel =>
      if st_first_pending s <? st_next s then
        if bit_get (st_pending s) (st_first_pending s mod REPLAY_WINDOW) then s
        else release_loop fuel
          {| st_next := st_next s;
             st_first_pending := st_first_pending s + 1;
             st_confirmed_next := st_confirmed_next s;
             st_pending := st_pending s |}
      else s
  end.

Definition Starts_release (s : Starts) (number : Z) : Starts :=
  release_loop (Z.to_nat (st_next s - st_first_pending s))
    {| st_next := st_next s;
       st_first_pending := st_first_pending s;
       st_confirmed_next := st_confirmed_next s;
       st_pending := bit_clear (st_pending s) (number mod REPLAY_WINDOW) |}.

Definition Starts_confirm (s : Starts) (number : Z) : Starts := {|
  st_next := st_next s;
  st_first_pending := st_first_pending s;
  st_confirmed_next := Z.max (st_confirmed_next s) (number + 1);
  st_pending := st_pending s
|}.

(** ** session.rs: shared state and owners *)

Record Shared : Type := { sh_starts : Starts; sh_peer : Peer }.

Definition set_starts (sh : Shared) (s : Starts) : Shared :=
  {| sh_starts := s; sh_peer := sh_peer sh |}.

(** [Drop for PendingStart]. *)
Definition PendingStart_drop (sh : Shared) (number : Z) : Shared :=
  let starts := Starts_release (sh_starts sh) number in
  {| sh_starts := starts;
     sh_peer := if st_first_pending starts =? st_next starts
                then Peer_discard_delayed (sh_peer sh) else sh_peer sh |}.

(** [cs_shared] says whether this owner still holds the shared state. *)
Record ClientSession : Type := { cs_shared : bool; cs_id : bytes; cs_idle_seconds : Z }.

Record RequestEncoder : Type := { re_session_id : bytes; re_number : Z; re_records : Records }.

(** [rr_pending] is the number of the pending start this reader owns. *)
Record ResponseReader : Type := {
  rr_pending : option Z;
  rr_session_id : bytes;
  rr_records : option Records;
  rr_failed : bool
}.

Record ClientRequest : Type := { cr_writer : RequestEncoder; cr_reader : ResponseReader }.

Definition REQUEST_HEADER : bytes := ascii "STGS" ++ [x01; x03].

Definition RequestEncoder_prefix (e : RequestEncoder) : bytes :=
  REQUEST_HEADER ++ re_session_id e ++ u64_be (re_number e).

Definition ClientSession_close (c : ClientSession) : ClientSession :=
  {| cs_shared := false; cs_id := cs_id c; cs_idle_seconds := cs_idle_seconds c |}.

Definition ClientSession_expire (c : ClientSession) (sh : Shared) (now_ms : Z)
  : Shared * result unit Error :=
  if cs_shared c
  then ({| sh_starts := sh_starts sh; sh_peer := Peer_expire (sh_peer sh) now_ms |}, Ok tt)
  else (sh, Err Closed).

(** Dropping a reader drops the pending start it owns. *)
Definition drop_pending (sh : Shared) (pending : option Z) : Shared :=
  match pending with Some number => PendingStart_drop sh number | None => sh end.

Definition ResponseReader_drop (sh : Shared) (r : ResponseReader) : Shared :=
  drop_pending sh (rr_pending r).

Section Session.
Context `{Kdf} `{Hash} `{Aead} `{Agreement}.

Definition ClientSession_new (root id : bytes) (idle_seconds : Z) (responder : PublicKeys)
  : result (ClientSession * Shared) Error :=
  let? peer := Peer_initiator root responder in
  Ok ({| cs_shared := true; cs_id := id; cs_idle_seconds := idle_seconds |},
      {| sh_starts := Starts_default; sh_peer := peer |}).

(** [request_with]. A number whose header cannot be sealed is released at once; a
    failure after that drops the pending start. *)
Definition ClientSession_request `{Random} (c : ClientSession) (sh : Shared) (g : rng)
  : Shared * rng * result ClientRequest Error :=
  if negb (cs_shared c) then (sh, g, Err Closed) else
  match Starts_allocate (sh_starts sh) with
  | (starts, Err e) => (set_starts sh starts, g, Err e)
  | (starts, Ok number) =>
      match Peer_send (sh_peer sh) g number with
      | (peer, g', Err e) =>
          ({| sh_starts := Starts_release starts number; sh_peer := peer |}, g', Err e)
      | (peer, g', Ok allocated) =>
          let sh' := {| sh_starts := starts; sh_peer := peer |} in
          match Records_new (s_secret allocated) (cs_id c) number Request (s_header allocated) with
          | Err e => (PendingStart_drop sh' number, g', Err e)
          | Ok outgoing =>
              (sh', g', Ok {|
                cr_writer := {| re_session_id := cs_id c; re_number := number; re_records := outgoing |};
                cr_reader := {| rr_pending := Some number; rr_session_id := cs_id c;
                                rr_records := None; rr_failed := false |} |})
          end
      end
  end.

Definition RequestEncoder_seal (e : RequestEncoder) (kind : Kind) (content : bytes)
  : RequestEncoder * result bytes Error :=
  let (records, out) := Records_seal (re_records e) kind content in
  ({| re_session_id := re_session_id e; re_number := re_number e; re_records := records |}, out).

(** [start]. The pending start is taken first and dropped on every path; only an
    authenticated response confirms delivery. *)
Definition ResponseReader_start (sh : Shared) (r : ResponseReader) (encoded : bytes) (now_ms : Z)
  : Shared * ResponseReader * bytes * result (Kind * bytes) Error :=
  let failed := {| rr_pending := None; rr_session_id := rr_session_id r;
                   rr_records := rr_records r; rr_failed := true |} in
  match rr_pending r with
  | None => (sh, failed, encoded, Err Closed)
  | Some number =>
      match start_header encoded with
      | Err e => (PendingStart_drop sh number, failed, encoded, Err e)
      | Ok header =>
          match Peer_receive (sh_peer sh) header number now_ms encoded (fun buffer secret =>
                  Records_authenticate_start secret (rr_session_id r) number Response buffer) with
          | (peer, buffer, Err e) =>
              (PendingStart_drop {| sh_starts := sh_starts sh; sh_peer := peer |} number,
               failed, buffer, Err e)
          | (peer, buffer, Ok (records, kind, content)) =>
              (PendingStart_drop
                 {| sh_starts := Starts_confirm (sh_starts sh) number; sh_peer := peer |} number,
               {| rr_pending := None; rr_session_id := rr_session_id r;
                  rr_records := Some records; rr_failed := false |},
               buffer, Ok (kind, content))
          end
      end
  end.

Definition ResponseReader_open (sh : Shared) (r : ResponseReader) (encoded : bytes) (now_ms : Z)
  : Shared * ResponseReader * bytes * result (Kind * bytes) Error :=
  if rr_failed r then (sh, r, encoded, Err Closed) else
  match rr_records r with
  | None => ResponseReader_start sh r encoded now_ms
  | Some records =>
      let '(records', buffer, out) := Records_open records encoded in
      (sh, {| rr_pending := rr_pending r; rr_session_id := rr_session_id r;
              rr_records := Some records'; rr_failed := false |}, buffer, out)
  end.

(** [seal_async] and [open_async] with a platform cipher; a future dropped at its
    await yields no result. The first response record is authenticated by the
    software cipher without an await. *)
Definition RequestEncoder_seal_async {C} `{Cipher C} (cancelled : bool) (e : RequestEncoder)
    (kind : Kind) (content : bytes) : RequestEncoder * option (result bytes Error) :=
  let (records, out) := Records_seal_async (C := C) cancelled (re_records e) kind content in
  ({| re_session_id := re_session_id e; re_number := re_number e; re_records := records |}, out).

Definition ResponseReader_open_async {C} `{Cipher C} (cancelled : bool) (sh : Shared)
    (r : ResponseReader) (encoded : bytes) (now_ms : Z)
  : Shared * ResponseReader * bytes * option (result (Kind * bytes) Error) :=
  if rr_failed r then (sh, r, encoded, Some (Err Closed)) else
  match rr_records r with
  | None =>
      let '(sh', r', buffer, out) := ResponseReader_start sh r encoded now_ms in
      (sh', r', buffer, Some out)
  | Some records =>
      let (records', out) := Records_open_async (C := C) cancelled records encoded in
      let r' := {| rr_pending := rr_pending r; rr_session_id := rr_session_id r;
                   rr_records := Some records'; rr_failed := false |} in
      match out with
      | None => (sh, r', encoded, None)
      | Some (buffer, out) => (sh, r', buffer, Some out)
      end
  end.

Definition ResponseReader_complete (sh : Shared) (r : ResponseReader)
  : Shared * ResponseReader * result unit Error :=
  if rr_failed r then (sh, r, Err Closed) else
  match rr_records r with
  | None =>
      (drop_pending sh (rr_pending r),
       {| rr_pending := None; rr_session_id := rr_session_id r;
          rr_records := None; rr_failed := true |}, Err Truncated)
  | Some records =>
      let (records', out) := Records_complete records in
      (sh, {| rr_pending := rr_pending r; rr_session_id := rr_session_id r;
              rr_records := Some records'; rr_failed := false |}, out)
  end.

End Session.

(** ** server.rs *)

Definition MAX_SESSION_STARTS : Z := Z.shiftl 1 30.

Record ServerSession : Type := {
  ss_peer : option Peer;
  ss_id : bytes;
  ss_next : Z;
  ss_accepted : Bitmap;
  ss_remaining_starts : Z
}.

Definition ServerSession_close (s : ServerSession) : ServerSession := {|
  ss_peer := None; ss_id := ss_id s; ss_next := ss_next s;
  ss_accepted := ss_accepted s; ss_remaining_starts := ss_remaining_starts s |}.

Definition set_peer (s : ServerSession) (p : option Peer) : ServerSession := {|
  ss_peer := p; ss_id := ss_id s; ss_next := ss_next s;
  ss_accepted := ss_accepted s; ss_remaining_starts := ss_remaining_starts s |}.

Definition ServerSession_expire (s : ServerSession) (now_ms : Z) : ServerSession :=
  set_peer s ((fun p => Peer_expire p now_ms) <$> ss_peer s).

(** The replay and distance checks at the head of [accept_start]. *)
Definition admissible (next : Z) (accepted : Bitmap) (number : Z) : result unit Error :=
  if number <? next then
    reject (REPLAY_WINDOW <? next - number) || bit_get accepted (number mod REPLAY_WINDOW)
      with Record_; Ok tt
  else
    reject (number =? u64_max) || (REPLAY_WINDOW <=? number - next) with Limit; Ok tt.

(** The window after a number is accepted: stale slots up to it are cleared. *)
Definition mark_accepted (next : Z) (accepted : Bitmap) (number : Z) : Z * Bitmap :=
  if next <=? number then
    (number + 1,
     bit_set (fold_left (fun bits stale => bit_clear bits (stale mod REPLAY_WINDOW))
                (seqZ next (number + 1 - next)) accepted) (number mod REPLAY_WINDOW))
  else (next, bit_set accepted (number mod REPLAY_WINDOW)).

Record ServerReader : Type := { sr_records : Records }.
Record ServerWriter : Type := { sw_records : Records }.

Section Server.
Context `{Kdf} `{Hash} `{Aead} `{Agreement} `{Random}.

Definition ServerSession_new (root id : bytes) (initial : KeyPair) : ServerSession := {|
  ss_peer := Some (Peer_responder root initial);
  ss_id := id;
  ss_next := 0;
  ss_accepted := bitmap_zero;
  ss_remaining_starts := MAX_SESSION_STARTS
|}.

(** [authenticate_start]: the number is marked only after both ciphers exist. *)
Definition ServerSession_authenticate_start (s : ServerSession) (g : rng) (number : Z)
    (encoded header : bytes) (now_ms : Z)
  : ServerSession * rng * bytes * result (ServerReader * ServerWriter * bytes) Error :=
  match ss_peer s with
  | None => (s, g, encoded, Err Closed)
  | Some peer =>
      match Peer_receive peer header number now_ms encoded (fun buffer secret =>
              match Records_authenticate_start secret (ss_id s) number Request buffer with
              | (buffer, Err e) => (buffer, Err e)
              | (buffer, Ok (records, kind, content)) =>
                  if bool_decide (kind = Metadata) then (buffer, Ok (records, kind, content))
                  else (buffer, Err Record_)
              end) with
      | (peer, buffer, Err e) => (set_peer s (Some peer), g, buffer, Err e)
      | (peer, buffer, Ok (incoming, _, metadata)) =>
          match Peer_send peer g number with
          | (peer, g, Err e) => (set_peer s (Some peer), g, buffer, Err e)
          | (peer, g, Ok response) =>
              match Records_new (s_secret response) (ss_id s) number Response (s_header response) with
              | Err e => (set_peer s (Some peer), g, buffer, Err e)
              | Ok outgoing =>
                  let (next, accepted) := mark_accepted (ss_next s) (ss_accepted s) number in
                  ({| ss_peer := Some peer; ss_id := ss_id s; ss_next := next;
                      ss_accepted := accepted; ss_remaining_starts := ss_remaining_starts s |},
                   g, buffer,
                   Ok ({| sr_records := incoming |}, {| sw_records := outgoing |}, metadata))
              end
          end
      end
  end.

Definition ServerSession_accept_start (s : ServerSession) (g : rng) (number : Z)
    (encoded : bytes) (now_ms : Z)
  : ServerSession * rng * bytes * result (ServerReader * ServerWriter * bytes) Error :=
  match ss_peer s with
  | None => (s, g, encoded, Err Closed)
  | Some _ =>
      match (let? _ := admissible (ss_next s) (ss_accepted s) number in start_header encoded) with
      | Err e => (s, g, encoded, Err e)
      | Ok header =>
          if ss_remaining_starts s <? 1 then (s, g, encoded, Err Closed) else
          let s1 := {| ss_peer := ss_peer s; ss_id := ss_id s; ss_next := ss_next s;
                       ss_accepted := ss_accepted s;
                       ss_remaining_starts := ss_remaining_starts s - 1 |} in
          let '(s2, g', buffer, out) := ServerSession_authenticate_start s1 g number encoded header now_ms in
          (if ss_remaining_starts s2 =? 0 then ServerSession_close s2 else s2, g', buffer, out)
      end
  end.

Definition ServerReader_open (r : ServerReader) (encoded : bytes)
  : ServerReader * bytes * result (Kind * bytes) Error :=
  let '(records, buffer, out) := Records_open (sr_records r) encoded in
  ({| sr_records := records |}, buffer, out).

Definition ServerReader_complete (r : ServerReader) : ServerReader * result unit Error :=
  let (records, out) := Records_complete (sr_records r) in ({| sr_records := records |}, out).

Definition ServerWriter_seal (w : ServerWriter) (kind : Kind) (content : bytes)
  : ServerWriter * result bytes Error :=
  let (records, out) := Records_seal (sw_records w) kind content in ({| sw_records := records |}, out).

End Server.
