(* ===== verification/SessionTheory.v ===== *)
(** The request-number window of a client session refines an abstract set of
    pending numbers, and never drifts out of the server's replay window. *)

From S2P Require Import Prelude RecordTheory RatchetTheory RatchetSafety Primitives Record Ratchet Window Session.

Open Scope Z_scope.

(** ** Abstract specification *)

(** The numbers issued so far, the confirmed prefix and the set still pending. *)
Record StartsSpec : Type := { sp_next : Z; sp_confirmed : Z; sp_pending : gset Z }.

Definition spec_init : StartsSpec := {| sp_next := 0; sp_confirmed := 0; sp_pending := ∅ |}.

(** The oldest pending number, or the next one when nothing is pending. *)
Definition oldest (a : StartsSpec) : Z := foldr Z.min (sp_next a) (elements (sp_pending a)).

Definition spec_allocate (a : StartsSpec) : StartsSpec * result Z Error :=
  if sp_next a =? u64_max then (a, Err Limit)
  else if REPLAY_WINDOW <=? sp_next a - sp_confirmed a then
    (a, Err (if bool_decide (sp_pending a = ∅) then Limit else Pending))
  else if REPLAY_WINDOW <=? sp_next a - oldest a then (a, Err Pending)
  else ({| sp_next := sp_next a + 1; sp_confirmed := sp_confirmed a;
           sp_pending := {[sp_next a]} ∪ sp_pending a |}, Ok (sp_next a)).

Definition spec_release (a : StartsSpec) (n : Z) : StartsSpec :=
  {| sp_next := sp_next a; sp_confirmed := sp_confirmed a; sp_pending := sp_pending a ∖ {[n]} |}.

Definition spec_confirm (a : StartsSpec) (n : Z) : StartsSpec :=
  {| sp_next := sp_next a; sp_confirmed := Z.max (sp_confirmed a) (n + 1); sp_pending := sp_pending a |}.

Lemma foldr_min_le d l x : x ∈ d :: l -> foldr Z.min d l <= x.
Proof.
  induction l as [|y l IH]; simpl; rewrite !elem_of_cons.
  - intros [->|?%not_elem_of_nil]; [lia|done].
  - rewrite elem_of_cons in IH. intros [->|[->|?]]; [specialize (IH ltac:(by left))| |specialize (IH ltac:(by right))]; lia.
Qed.

Lemma foldr_min_elem d l : foldr Z.min d l ∈ d :: l.
Proof.
  induction l as [|y l IH]; simpl; rewrite !elem_of_cons in *; [by left|].
  destruct (Z.min_spec y (foldr Z.min d l)) as [[_ ->]|[_ ->]]; naive_solver.
Qed.

(** ** Refinement relation *)

Record starts_rel (s : Starts) (a : StartsSpec) : Prop := {
  sr_next : st_next s = sp_next a;
  sr_confirmed : st_confirmed_next s = sp_confirmed a;
  sr_range : 0 <= st_first_pending s <= st_next s /\ st_next s <= u64_max;
  sr_window : st_next s - st_first_pending s <= 256;
  sr_unconfirmed : 0 <= st_confirmed_next s <= st_next s /\ st_next s - st_confirmed_next s <= 256;
  sr_wf : bitmap_wf (st_pending s);
  sr_pending n : n ∈ sp_pending a -> st_first_pending s <= n < st_next s;
  sr_bits p : 0 <= p < 256 ->
    bit_get (st_pending s) p = true <-> exists n, n ∈ sp_pending a /\ slot n = p;
  sr_first : st_first_pending s = st_next s \/ st_first_pending s ∈ sp_pending a
}.

Lemma rel_oldest s a : starts_rel s a -> oldest a = st_first_pending s.
Proof.
  intros [Hn _ Hr _ _ _ Hp _ Hf]. unfold oldest. apply Z.le_antisymm.
  - apply foldr_min_le. rewrite elem_of_cons, elem_of_elements. destruct Hf; [left; lia|by right].
  - pose proof (foldr_min_elem (sp_next a) (elements (sp_pending a))) as He.
    rewrite elem_of_cons, elem_of_elements in He. destruct He as [->|He%Hp]; lia.
Qed.

Lemma rel_empty s a : starts_rel s a -> sp_pending a = ∅ <-> st_first_pending s = st_next s.
Proof.
  intros [Hn _ Hr _ _ _ Hp _ Hf]. split.
  - intros E. rewrite E in Hf. destruct Hf as [?|?%not_elem_of_empty]; done.
  - intros E. apply set_eq. intros n. split; [|by intros ?%not_elem_of_empty]. intros ?%Hp. lia.
Qed.

Lemma rel_bit s a n :
  starts_rel s a -> st_first_pending s <= n < st_next s ->
  bit_get (st_pending s) (slot n) = bool_decide (n ∈ sp_pending a).
Proof.
  intros [_ _ _ Hw _ _ Hp Hb _] Hn. apply eq_true_iff_eq.
  rewrite bool_decide_eq_true, Hb by apply slot_range. split.
  - intros (m & Hm & Hs). pose proof (Hp m Hm). apply slot_inj in Hs; [by subst|lia].
  - eauto.
Qed.

Lemma rel_default : starts_rel Starts_default spec_init.
Proof.
  split; simpl; try done; try lia; auto.
  intros p Hp. rewrite bit_get_zero. split; [done|]. intros (? & ?%not_elem_of_empty & _). done.
Qed.

Lemma rel_allocate s a :
  starts_rel s a ->
  (Starts_allocate s).2 = (spec_allocate a).2 /\ starts_rel (Starts_allocate s).1 (spec_allocate a).1.
Proof.
  intros Hrel. pose proof (rel_oldest _ _ Hrel) as Ho. pose proof (rel_empty _ _ Hrel) as He.
  unfold Starts_allocate, spec_allocate. rewrite Ho, <- (sr_next _ _ Hrel), <- (sr_confirmed _ _ Hrel).
  destruct (_ =? u64_max) eqn:E1; [done|]. destruct (_ <=? _ - st_confirmed_next s) eqn:E2; simpl.
  { split; [|done]. do 2 f_equal. case_bool_decide as Hd.
    - apply He in Hd. by rewrite Hd, Z.eqb_refl.
    - destruct (Z.eqb_spec (st_first_pending s) (st_next s)); [|done]. destruct Hd. by apply He. }
  destruct (_ <=? _ - st_first_pending s) eqn:E3; simpl; [done|]. split; [done|].
  zbool. unfold REPLAY_WINDOW in *. destruct Hrel as [Hn Hc Hr Hw Hu Hwf Hp Hb Hf].
  split; simpl; try done; try lia; auto with stogas.
  - intros n. rewrite elem_of_union, elem_of_singleton. intros [->|?%Hp]; lia.
  - intros p Hp'. change (st_next s mod 256) with (slot (st_next s)). rewrite bit_get_set by auto with stogas.
    rewrite orb_true_iff, Z.eqb_eq, Hb by done. set_solver.
  - right. destruct Hf; set_solver.
Qed.

Lemma release_loop_rel fuel s a :
  st_next s - st_first_pending s <= Z.of_nat fuel ->
  st_next s = sp_next a -> st_confirmed_next s = sp_confirmed a ->
  0 <= st_first_pending s <= st_next s /\ st_next s <= u64_max ->
  st_next s - st_first_pending s <= 256 ->
  0 <= st_confirmed_next s <= st_next s /\ st_next s - st_confirmed_next s <= 256 ->
  bitmap_wf (st_pending s) ->
  (forall n, n ∈ sp_pending a -> st_first_pending s <= n < st_next s) ->
  (forall p, 0 <= p < 256 ->
    bit_get (st_pending s) p = true <-> exists n, n ∈ sp_pending a /\ slot n = p) ->
  starts_rel (release_loop fuel s) a.
Proof.
  revert s. induction fuel as [|fuel IH]; intros s Hfuel Hn Hc Hr Hw Hu Hwf Hp Hb; simpl.
  { split; try done; lia. }
  destruct (st_first_pending s <? st_next s) eqn:E; zbool; [|split; try done; lia].
  change (st_first_pending s mod REPLAY_WINDOW) with (slot (st_first_pending s)).
  destruct (bit_get _ _) eqn:Hbit.
  - split; try done. right. apply Hb in Hbit as (n & Hin & Hs); [|apply slot_range].
    pose proof (Hp n Hin). apply slot_inj in Hs; [by subst|lia].
  - apply IH; simpl; try done; try lia. intros n Hin. pose proof (Hp n Hin).
    destruct (decide (n = st_first_pending s)) as [->|]; [|lia].
    assert (bit_get (st_pending s) (slot (st_first_pending s)) = true); [|congruence].
    apply Hb; [apply slot_range|eauto].
Qed.

Lemma rel_release s a n :
  starts_rel s a -> n ∈ sp_pending a -> starts_rel (Starts_release s n) (spec_release a n).
Proof.
  intros [Hn Hc Hr Hw Hu Hwf Hp Hb Hf] Hin. apply release_loop_rel; simpl; try done; try lia; auto with stogas.
  - intros m. rewrite elem_of_difference. intros [?%Hp _]. done.
  - intros p Hp'. change (n mod REPLAY_WINDOW) with (slot n). rewrite bit_get_clear by auto with stogas.
    rewrite andb_true_iff, negb_true_iff, Z.eqb_neq, Hb by done. split.
    + intros (Hne & m & Hm & <-). exists m. split; [|done]. set_solver.
    + intros (m & Hm & <-). apply elem_of_difference in Hm as [Hm Hne]. split; [|eauto].
      intros E. apply slot_inj in E; [set_solver|]. pose proof (Hp n Hin). pose proof (Hp m Hm). lia.
Qed.

Lemma rel_confirm s a n :
  starts_rel s a -> n ∈ sp_pending a -> starts_rel (Starts_confirm s n) (spec_confirm a n).
Proof.
  intros [Hn Hc Hr Hw Hu Hwf Hp Hb Hf] Hin. pose proof (Hp n Hin).
  split; simpl; try done; try lia.
Qed.

(** ** Sequences of operations *)

Inductive starts_op : Type := SAllocate | SRelease (n : Z) | SConfirm (n : Z).

Definition starts_step (s : Starts) (op : starts_op) : Starts * option (result Z Error) :=
  match op with
  | SAllocate => let (s', out) := Starts_allocate s in (s', Some out)
  | SRelease n => (Starts_release s n, None)
  | SConfirm n => (Starts_confirm s n, None)
  end.

(** Only the owner of a pending number releases or confirms it. *)
Definition spec_step (a : StartsSpec) (op : starts_op) : option (StartsSpec * option (result Z Error)) :=
  match op with
  | SAllocate => let (a', out) := spec_allocate a in Some (a', Some out)
  | SRelease n => if bool_decide (n ∈ sp_pending a) then Some (spec_release a n, None) else None
  | SConfirm n => if bool_decide (n ∈ sp_pending a) then Some (spec_confirm a n, None) else None
  end.

Fixpoint starts_run (s : Starts) (ops : list starts_op) : Starts * list (option (result Z Error)) :=
  match ops with
  | [] => (s, [])
  | op :: ops =>
      let (s1, out) := starts_step s op in
      let (s2, outs) := starts_run s1 ops in (s2, out :: outs)
  end.

Fixpoint spec_run (a : StartsSpec) (ops : list starts_op)
  : option (StartsSpec * list (option (result Z Error))) :=
  match ops with
  | [] => Some (a, [])
  | op :: ops =>
      match spec_step a op with
      | None => None
      | Some (a1, out) =>
          match spec_run a1 ops with None => None | Some (a2, outs) => Some (a2, out :: outs) end
      end
  end.

Lemma step_refines s a op a' out :
  starts_rel s a -> spec_step a op = Some (a', out) ->
  exists s', starts_step s op = (s', out) /\ starts_rel s' a'.
Proof.
  intros Hrel. destruct op as [|n|n]; simpl.
  - destruct (rel_allocate s a Hrel) as [Ho Hr]. destruct (Starts_allocate s), (spec_allocate a).
    simpl in *. subst. intros [= <- <-]. eauto.
  - case_bool_decide; [|done]. intros [= <- <-]. eauto using rel_release.
  - case_bool_decide; [|done]. intros [= <- <-]. eauto using rel_confirm.
Qed.

Lemma run_refines ops s a a' outs :
  starts_rel s a -> spec_run a ops = Some (a', outs) ->
  exists s', starts_run s ops = (s', outs) /\ starts_rel s' a'.
Proof.
  revert s a outs. induction ops as [|op ops IH]; intros s a outs Hrel; simpl.
  { intros [= <- <-]. eauto. }
  destruct (spec_step a op) as [[a1 out]|] eqn:Hstep; [|done].
  destruct (spec_run a1 ops) as [[a2 outs']|] eqn:Hrun; [|done]. intros [= <- <-].
  destruct (step_refines _ _ _ _ _ Hrel Hstep) as (s1 & -> & Hrel1).
  destruct (IH _ _ _ Hrel1 Hrun) as (s2 & -> & Hrel2). eauto.
Qed.

(** C36. The bitmap window with its cached first pending number implements the set
    of pending numbers: over any sequence of owned operations both produce the same
    results, and the bit of every slot says exactly whether its number is pending. *)
Theorem starts_refine ops a outs :
  spec_run spec_init ops = Some (a, outs) ->
  exists s, starts_run Starts_default ops = (s, outs) /\
    st_next s = sp_next a /\ st_first_pending s = oldest a /\
    (forall p, 0 <= p < 256 ->
      bit_get (st_pending s) p = true <-> exists n, n ∈ sp_pending a /\ n mod 256 = p).
Proof.
  intros Hrun. destruct (run_refines _ _ _ _ _ rel_default Hrun) as (s & Hs & Hrel).
  exists s. split_and!; [done|apply Hrel| |apply Hrel]. symmetry. by apply rel_oldest.
Qed.

(** * Theory

    Runs of a whole client session: numbers are issued once, the pending window is
    exactly what the live readers own, and delayed keys die with the last of them. *)

(** ** The session and every reader that shares its state *)

Record Client `{Random} : Type := {
  cl_session : ClientSession;
  cl_shared : Shared;
  cl_rng : rng;
  cl_readers : list ResponseReader
}.
Arguments Client {_}.

Inductive client_op : Type :=
| CRequest
| COpen (i : nat) (encoded : bytes) (now_ms : Z)
| CComplete (i : nat)
| CDrop (i : nat)
| CExpire (now_ms : Z)
| CClose.

(** Pending numbers owned by readers. *)
Definition owned (rs : list ResponseReader) : list Z := omap rr_pending rs.

Section Client.
Context `{Kdf} `{Hash} `{Aead} `{Agreement} `{Random}.

(** One call; a request also reports the number it consumed, sealed or not. *)
Definition client_step (c : Client) (op : client_op) : Client * option Z :=
  let shared sh := {| cl_session := cl_session c; cl_shared := sh; cl_rng := cl_rng c;
                      cl_readers := cl_readers c |} in
  let reader i sh r := {| cl_session := cl_session c; cl_shared := sh; cl_rng := cl_rng c;
                          cl_readers := <[i := r]> (cl_readers c) |} in
  match op with
  | CRequest =>
      let '(sh, g, out) := ClientSession_request (cl_session c) (cl_shared c) (cl_rng c) in
      ({| cl_session := cl_session c; cl_shared := sh; cl_rng := g;
          cl_readers := cl_readers c ++ match out with Ok r => [cr_reader r] | Err _ => [] end |},
       if cs_shared (cl_session c) then
         match (Starts_allocate (sh_starts (cl_shared c))).2 with Ok n => Some n | Err _ => None end
       else None)
  | COpen i encoded now =>
      match cl_readers c !! i with
      | None => (c, None)
      | Some r =>
          let '(sh, r', _, _) := ResponseReader_open (cl_shared c) r encoded now in (reader i sh r', None)
      end
  | CComplete i =>
      match cl_readers c !! i with
      | None => (c, None)
      | Some r => let '(sh, r', _) := ResponseReader_complete (cl_shared c) r in (reader i sh r', None)
      end
  | CDrop i =>
      match cl_readers c !! i with
      | None => (c, None)
      | Some r =>
          ({| cl_session := cl_session c; cl_shared := ResponseReader_drop (cl_shared c) r;
              cl_rng := cl_rng c; cl_readers := delete i (cl_readers c) |}, None)
      end
  | CExpire now => (shared (ClientSession_expire (cl_session c) (cl_shared c) now).1, None)
  | CClose =>
      ({| cl_session := ClientSession_close (cl_session c); cl_shared := cl_shared c;
          cl_rng := cl_rng c; cl_readers := cl_readers c |}, None)
  end.

Fixpoint client_run (c : Client) (ops : list client_op) : Client * list Z :=
  match ops with
  | [] => (c, [])
  | op :: ops =>
      let (c1, n) := client_step c op in
      let (c2, ns) := client_run c1 ops in (c2, option_list n ++ ns)
  end.

Definition client_new (session : ClientSession) (sh : Shared) (g : rng) : Client :=
  {| cl_session := session; cl_shared := sh; cl_rng := g; cl_readers := [] |}.

(** ** Invariant *)

(** The window is exactly the set of the given numbers. *)
Definition window_of (s : Starts) (numbers : list Z) : Prop :=
  (exists a, starts_rel s a /\ sp_pending a = list_to_set numbers) /\ NoDup numbers.

(** Every pending number is owned by one reader; without one no delayed key is kept. *)
Record shared_inv (sh : Shared) (numbers : list Z) : Prop := {
  si_window : window_of (sh_starts sh) numbers;
  si_delayed : numbers = [] -> p_skipped (sh_peer sh) = ∅ /\ p_order (sh_peer sh) = ∅
}.

Lemma owned_split (rs : list ResponseReader) (i : nat) (r : ResponseReader) :
  rs !! i = Some r ->
  exists l k, rs = l ++ r :: k /\ (forall r', <[i := r']> rs = l ++ r' :: k) /\ delete i rs = l ++ k.
Proof.
  intros Hi. apply list_elem_of_split_length in Hi as (l & k & -> & ->).
  exists l, k. split_and!; [done| |by rewrite delete_middle].
  intros r'. rewrite <- (Nat.add_0_r (length l)). by rewrite insert_app_r.
Qed.

Lemma owned_middle l r k : owned (l ++ r :: k) = owned l ++ option_list (rr_pending r) ++ owned k.
Proof. unfold owned. rewrite omap_app. simpl. by destruct (rr_pending r). Qed.

(** What a call on a reader does to the shared state: nothing, or the reader gives
    up its pending start, confirmed or not. *)
Inductive reader_effect (sh : Shared) (r : ResponseReader) : Shared -> option Z -> Prop :=
| EffKeep : reader_effect sh r sh (rr_pending r)
| EffRelease n peer : rr_pending r = Some n ->
    reader_effect sh r (PendingStart_drop {| sh_starts := sh_starts sh; sh_peer := peer |} n) None
| EffConfirm n peer : rr_pending r = Some n ->
    reader_effect sh r
      (PendingStart_drop {| sh_starts := Starts_confirm (sh_starts sh) n; sh_peer := peer |} n) None.

Lemma drop_effect sh r : reader_effect sh r (ResponseReader_drop sh r) None.
Proof.
  unfold ResponseReader_drop, drop_pending. destruct (rr_pending r) eqn:Hp.
  - exact (EffRelease sh r _ (sh_peer sh) Hp).
  - rewrite <- Hp. apply EffKeep.
Qed.

Lemma start_effect sh r encoded now sh' r' b out :
  ResponseReader_start sh r encoded now = (sh', r', b, out) -> reader_effect sh r sh' (rr_pending r').
Proof.
  unfold ResponseReader_start. destruct (rr_pending r) as [n|] eqn:Hp.
  - destruct (start_header encoded); [|intros [= <- <- <- <-]; exact (EffRelease sh r _ (sh_peer sh) Hp)].
    destruct (Peer_receive _ _ _ _ _ _) as [[p b1] [[[rec k] c]|e]]; intros [= <- <- <- <-];
      [by apply EffConfirm|by apply EffRelease].
  - intros [= <- <- <- <-]. simpl. rewrite <- Hp. apply EffKeep.
Qed.

Lemma open_effect sh r encoded now sh' r' b out :
  ResponseReader_open sh r encoded now = (sh', r', b, out) -> reader_effect sh r sh' (rr_pending r').
Proof.
  unfold ResponseReader_open. destruct (rr_failed r); [intros [= <- <- <- <-]; apply EffKeep|].
  destruct (rr_records r); [|apply start_effect].
  destruct (Records_open _ _) as [[rec b1] o]. intros [= <- <- <- <-]. exact (EffKeep _ r).
Qed.

Lemma complete_effect sh r sh' r' out :
  ResponseReader_complete sh r = (sh', r', out) -> reader_effect sh r sh' (rr_pending r').
Proof.
  unfold ResponseReader_complete. destruct (rr_failed r); [intros [= <- <- <-]; apply EffKeep|].
  destruct (rr_records r); [destruct (Records_complete _); intros [= <- <- <-]; exact (EffKeep _ r)|].
  intros [= <- <- <-]. apply drop_effect.
Qed.

(** ** Steps preserve the invariant *)

Lemma window_release s l n k :
  window_of s (l ++ n :: k) ->
  window_of (Starts_release s n) (l ++ k) /\ window_of (Starts_release (Starts_confirm s n) n) (l ++ k).
Proof.
  intros [(a & Hrel & Hp) Hnd]. assert (n ∈ sp_pending a) as Hn by (rewrite Hp; set_solver).
  rewrite <- Permutation_middle in Hnd. apply NoDup_cons in Hnd as [Hni Hnd].
  assert (sp_pending a ∖ {[n]} = list_to_set (l ++ k)) as Hp'.
  { rewrite Hp, !list_to_set_app_L, list_to_set_cons. rewrite elem_of_app in Hni.
    apply set_eq. intros x. rewrite elem_of_difference, !elem_of_union, elem_of_singleton, !elem_of_list_to_set.
    destruct (decide (x = n)) as [->|]; [tauto|]. tauto. }
  split; (split; [|done]).
  - exists (spec_release a n). split; [by apply rel_release|done].
  - exists (spec_release (spec_confirm a n) n). split; [|done].
    apply rel_release; [by apply rel_confirm|done].
Qed.

Lemma window_empty s : window_of s [] -> st_first_pending s = st_next s.
Proof. intros [(a & Hrel & Hp) _]. by apply (rel_empty _ _ Hrel). Qed.

Lemma drop_inv sh n l k :
  window_of (sh_starts sh) (l ++ n :: k) \/
    (exists s, window_of s (l ++ n :: k) /\ sh_starts sh = Starts_confirm s n) ->
  shared_inv (PendingStart_drop sh n) (l ++ k).
Proof.
  intros Hw. assert (window_of (Starts_release (sh_starts sh) n) (l ++ k)) as Hw'.
  { destruct Hw as [Hw|(s & Hw & ->)]; by apply window_release in Hw as [? ?]. }
  split; [done|]. intros E. rewrite E in Hw'. apply window_empty in Hw'.
  unfold PendingStart_drop. simpl. by rewrite Hw', Z.eqb_refl.
Qed.

Lemma effect_inv sh r l k sh' p :
  reader_effect sh r sh' p -> shared_inv sh (owned (l ++ r :: k)) ->
  shared_inv sh' (owned l ++ option_list p ++ owned k).
Proof.
  rewrite owned_middle. intros [|n peer Hp|n peer Hp] [Hw Hd]; [done|..]; rewrite Hp in Hw.
  - apply drop_inv. by left.
  - apply drop_inv. right. by eexists.
Qed.

Lemma allocate_window s numbers s' n :
  window_of s numbers -> Starts_allocate s = (s', Ok n) ->
  n = st_next s /\ st_next s' = n + 1 /\ window_of s' (numbers ++ [n]).
Proof.
  intros [(a & Hrel & Hp) Hnd] Ha. destruct (rel_allocate _ _ Hrel) as [Ho Hr]. rewrite Ha in Ho, Hr.
  simpl in *. assert (n = st_next s /\ st_next s' = n + 1) as [-> Hs'].
  { unfold Starts_allocate in Ha. case_all. }
  split_and!; try done. split.
  - eexists. split; [exact Hr|]. unfold spec_allocate in *. repeat case_match; simplify_eq/=.
    rewrite <- (sr_next _ _ Hrel), Hp, list_to_set_app_L. simpl. set_solver.
  - apply NoDup_app. split_and!; [done| |apply NoDup_singleton]. intros x Hx ->%list_elem_of_singleton.
    pose proof (sr_pending _ _ Hrel (st_next s) ltac:(rewrite Hp; by apply elem_of_list_to_set)). lia.
Qed.

Lemma release_loop_next fuel s : st_next (release_loop fuel s) = st_next s.
Proof.
  revert s. induction fuel as [|fuel IH]; intros s; simpl; [done|].
  destruct (_ <? _); [|done]. destruct (bit_get _ _); [done|]. by rewrite IH.
Qed.

Lemma release_next s n : st_next (Starts_release s n) = st_next s.
Proof. unfold Starts_release. by rewrite release_loop_next. Qed.

Lemma effect_next sh r sh' p :
  reader_effect sh r sh' p -> st_next (sh_starts sh') = st_next (sh_starts sh).
Proof. intros []; simpl; by rewrite ?release_next. Qed.

Lemma request_spec session sh g numbers sh' g' out :
  shared_inv sh numbers -> ClientSession_request session sh g = (sh', g', out) ->
  shared_inv sh' (numbers ++ match out with Ok r => option_list (rr_pending (cr_reader r)) | Err _ => [] end) /\
  match (if cs_shared session then (Starts_allocate (sh_starts sh)).2 else Err Closed) with
  | Ok n => n = st_next (sh_starts sh) /\ st_next (sh_starts sh') = n + 1 /\ n < u64_max
  | Err _ => st_next (sh_starts sh') = st_next (sh_starts sh)
  end.
Proof.
  intros [Hw Hd]. unfold ClientSession_request. destruct (cs_shared session); simpl.
  2: { intros [= <- <- <-]. rewrite app_nil_r. done. }
  destruct (Starts_allocate (sh_starts sh)) as [s1 [n|e]] eqn:Ha; simpl.
  2: { intros [= <- <- <-]. rewrite app_nil_r. assert (s1 = sh_starts sh) as ->.
       { unfold Starts_allocate in Ha. case_all. } done. }
  assert (n < u64_max) as Hmax.
  { unfold Starts_allocate in Ha. destruct Hw as [(a & Hr & _) _]. pose proof (sr_range _ _ Hr).
    case_all. zbool. lia. }
  destruct (allocate_window _ _ _ _ Hw Ha) as (-> & Hn1 & Hw1).
  destruct (Peer_send _ _ _) as [[p1 g1] [al|e]] eqn:Hs; apply send_spec in Hs as (_ & Hsk & Ho & _).
  - destruct (Records_new _ _ _ _ _) as [rec|e]; intros [= <- <- <-]; simpl.
    + split; [|done]. split; [done|]. by destruct numbers.
    + rewrite release_next. split; [|done]. rewrite app_nil_r, <- (app_nil_r numbers).
      apply drop_inv. by left.
  - intros [= <- <- <-]. simpl. rewrite release_next. split; [|done]. rewrite app_nil_r.
    split; simpl; [|by rewrite Hsk, Ho]. rewrite <- (app_nil_r numbers).
    by apply window_release in Hw1 as [? _].
Qed.

Lemma expire_loop_empty fuel p : p_order p = ∅ -> expire_loop fuel p = p.
Proof. intros E. destruct fuel; simpl; [done|]. by rewrite E. Qed.

Lemma client_step_spec c op c' out :
  shared_inv (cl_shared c) (owned (cl_readers c)) -> client_step c op = (c', out) ->
  shared_inv (cl_shared c') (owned (cl_readers c')) /\
  match out with
  | Some n => n = st_next (sh_starts (cl_shared c)) /\ st_next (sh_starts (cl_shared c')) = n + 1 /\ n < u64_max
  | None => st_next (sh_starts (cl_shared c')) = st_next (sh_starts (cl_shared c))
  end.
Proof.
  intros Hinv. destruct op as [|i encoded now|i|i|now|]; unfold client_step.
  - destruct (ClientSession_request _ _ _) as [[sh g] o] eqn:Hr.
    apply (request_spec _ _ _ _ _ _ _ Hinv) in Hr as [Hi Hn]. intros [= <- <-]. simpl. split.
    + unfold owned in *. rewrite omap_app. by destruct o.
    + revert Hn. destruct (cs_shared _); [|done]. by destruct (Starts_allocate _) as [? []].
  - destruct (cl_readers c !! i) as [r|] eqn:Hi; [|by intros [= <- <-]].
    destruct (owned_split _ _ _ Hi) as (l & k & E & Hins & _).
    destruct (ResponseReader_open _ _ _ _) as [[[sh r'] b] o] eqn:Ho. apply open_effect in Ho.
    intros [= <- <-]. simpl. split; [|by eapply effect_next]. rewrite E in Hinv.
    rewrite Hins, owned_middle. exact (effect_inv _ _ _ _ _ _ Ho Hinv).
  - destruct (cl_readers c !! i) as [r|] eqn:Hi; [|by intros [= <- <-]].
    destruct (owned_split _ _ _ Hi) as (l & k & E & Hins & _).
    destruct (ResponseReader_complete _ _) as [[sh r'] o] eqn:Ho. apply complete_effect in Ho.
    intros [= <- <-]. simpl. split; [|by eapply effect_next]. rewrite E in Hinv.
    rewrite Hins, owned_middle. exact (effect_inv _ _ _ _ _ _ Ho Hinv).
  - destruct (cl_readers c !! i) as [r|] eqn:Hi; [|by intros [= <- <-]].
    destruct (owned_split _ _ _ Hi) as (l & k & E & _ & Hdel).
    pose proof (drop_effect (cl_shared c) r) as Ho.
    intros [= <- <-]. simpl. split; [|by eapply effect_next]. rewrite E in Hinv.
    rewrite Hdel. unfold owned. rewrite omap_app. exact (effect_inv _ _ _ _ _ _ Ho Hinv).
  - intros [= <- <-]. unfold ClientSession_expire. destruct (cs_shared _); [|done]. simpl.
    split; [|done]. destruct Hinv as [Hw Hd]. split; [done|]. intros Hnil. destruct (Hd Hnil) as [Hs Ho].
    simpl. unfold Peer_expire. by rewrite expire_loop_empty.
  - intros [= <- <-]. done.
Qed.

Lemma client_run_spec ops c c' ns :
  shared_inv (cl_shared c) (owned (cl_readers c)) -> client_run c ops = (c', ns) ->
  shared_inv (cl_shared c') (owned (cl_readers c')) /\ StronglySorted Z.lt ns /\
  Forall (fun n => st_next (sh_starts (cl_shared c)) <= n < u64_max) ns.
Proof.
  revert c ns. induction ops as [|op ops IH]; intros c ns Hinv; simpl.
  { intros [= <- <-]. split_and!; [done|constructor|constructor]. }
  destruct (client_step c op) as [c1 n] eqn:Hs. destruct (client_run c1 ops) as [c2 ns'] eqn:Hr.
  intros [= <- <-]. apply client_step_spec in Hs as [Hi Hn]; [|done].
  apply IH in Hr as (Hi' & Hss & Hall); [|done]. split; [done|].
  destruct n as [n|]; simpl; [|by rewrite <- Hn].
  destruct Hn as (-> & Hn & Hmax). rewrite Hn in Hall. split; constructor; try done.
  - eapply Forall_impl; [exact Hall|]. simpl. lia.
  - eapply Forall_impl; [exact Hall|]. simpl. lia.
Qed.

Lemma client_new_inv root id idle responder session sh :
  ClientSession_new root id idle responder = Ok (session, sh) ->
  shared_inv sh [] /\ st_next (sh_starts sh) = 0.
Proof.
  unfold ClientSession_new, Peer_initiator. destruct (PublicKeys_validate _); [|done].
  intros [= <- <-]. split; [|done]. split; [|done]. split; [|constructor].
  exists spec_init. split; [apply rel_default|done].
Qed.

(** However requests, responses, cancellations and expiry interleave, a session
    issues its request numbers in strictly increasing order and below the maximum:
    no number, and so no header nonce, is ever used for two starts. *)
Theorem request_numbers_fresh root id idle responder session sh g ops :
  ClientSession_new root id idle responder = Ok (session, sh) ->
  StronglySorted Z.lt (client_run (client_new session sh g) ops).2 /\
  Forall (fun n => 0 <= n < u64_max) (client_run (client_new session sh g) ops).2.
Proof.
  intros Hnew. apply client_new_inv in Hnew as [Hinv Hn].
  destruct (client_run _ ops) as [c' ns] eqn:Hr.
  apply client_run_spec in Hr as (_ & ? & Hall); [|done]. simpl in Hall. by rewrite Hn in Hall.
Qed.

(** In every reachable client state at most 256 starts are outstanding, the
    bitmap marks exactly the numbers that live readers own, the window is empty
    exactly when no reader awaits a first response, and then no delayed key is kept. *)
Theorem pending_owned root id idle responder session sh g ops :
  ClientSession_new root id idle responder = Ok (session, sh) ->
  let c := (client_run (client_new session sh g) ops).1 in
  let s := sh_starts (cl_shared c) in
  st_next s - st_first_pending s <= 256 /\ NoDup (owned (cl_readers c)) /\
  (forall n, st_first_pending s <= n < st_next s ->
    bit_get (st_pending s) (n mod 256) = bool_decide (n ∈ owned (cl_readers c))) /\
  (st_first_pending s = st_next s <-> owned (cl_readers c) = []) /\
  (owned (cl_readers c) = [] -> p_skipped (sh_peer (cl_shared c)) = ∅).
Proof.
  intros Hnew. apply client_new_inv in Hnew as [Hinv Hn].
  destruct (client_run _ ops) as [c' ns] eqn:Hr. simpl.
  apply client_run_spec in Hr as ([[(a & Hrel & Hp) Hnd] Hd] & _ & _); [|done].
  split_and!; [apply Hrel|done| | |intros E; by apply Hd].
  - intros n Hrange. change (n mod 256) with (slot n). rewrite (rel_bit _ _ _ Hrel Hrange).
    apply bool_decide_ext. by rewrite Hp, elem_of_list_to_set.
  - rewrite <- (rel_empty _ _ Hrel), Hp. split; [|by intros ->].
    destruct (owned _) as [|n l]; [done|]. rewrite list_to_set_cons. set_solver.
Qed.

End Client.
