(* ===== verification/ServerTheory.v ===== *)
(** Request admission: no number is accepted twice, the authentication budget is a
    hard bound, and every start an honest client still waits for is inside the
    window. *)

From S2P Require Import Prelude Primitives Record Ratchet Window Session SessionTheory.

Open Scope Z_scope.

(** ** The replay window *)

(** The bits of the last 256 numbers below [next] say which were accepted. *)
Record replay_inv (next : Z) (bits : Bitmap) (accepted : list Z) : Prop := {
  ri_wf : bitmap_wf bits;
  ri_below n : n ∈ accepted -> n < next;
  ri_bits n : next - 256 <= n < next -> bit_get bits (slot n) = bool_decide (n ∈ accepted);
  ri_nodup : NoDup accepted
}.

Lemma replay_init : replay_inv 0 bitmap_zero [].
Proof.
  split; [done| | |constructor].
  - by intros n ?%not_elem_of_nil.
  - intros n _. rewrite bit_get_zero. by rewrite bool_decide_false by apply not_elem_of_nil.
Qed.

Lemma admissible_fresh next bits accepted n :
  replay_inv next bits accepted -> admissible next bits n = Ok tt -> n ∉ accepted.
Proof.
  intros [_ Hb Hbits _]. unfold admissible. change (n mod REPLAY_WINDOW) with (slot n).
  unfold REPLAY_WINDOW. destruct (n <? next) eqn:E; zbool.
  - destruct (_ || _) eqn:Ho; [done|]. zbool. intros _ Hin. pose proof (Hbits n ltac:(lia)) as Hn.
    rewrite bool_decide_true in Hn by done. congruence.
  - intros _ ?%Hb. lia.
Qed.

Lemma clear_slots l bits :
  bitmap_wf bits ->
  let bits' := fold_left (fun bits stale => bit_clear bits (stale mod REPLAY_WINDOW)) l bits in
  bitmap_wf bits' /\ forall p, 0 <= p < 256 ->
    bit_get bits' p = true <-> (forall i, i ∈ l -> slot i <> p) /\ bit_get bits p = true.
Proof.
  revert bits. induction l as [|i l IH]; intros bits Hwf; simpl.
  { split; [done|]. intros p _. split; [|tauto]. intros ?. split; [|done]. by intros i ?%not_elem_of_nil. }
  destruct (IH (bit_clear bits (i mod REPLAY_WINDOW))) as [Hwf' Hb]; [auto with stogas|].
  split; [done|]. intros p Hp. change (i mod REPLAY_WINDOW) with (slot i) in *.
  rewrite Hb, bit_get_clear, andb_true_iff, negb_true_iff, Z.eqb_neq by auto with stogas.
  setoid_rewrite elem_of_cons. naive_solver.
Qed.

Lemma mark_inv next bits accepted n next' bits' :
  replay_inv next bits accepted -> admissible next bits n = Ok tt ->
  mark_accepted next bits n = (next', bits') -> replay_inv next' bits' (n :: accepted).
Proof.
  intros Hinv Ha. pose proof (admissible_fresh _ _ _ _ Hinv Ha) as Hfresh.
  destruct Hinv as [Hwf Hb Hbits Hnd]. revert Ha. unfold admissible, mark_accepted.
  change (n mod REPLAY_WINDOW) with (slot n). unfold REPLAY_WINDOW at 1 2 3.
  destruct (n <? next) eqn:E; zbool.
  - rewrite (proj2 (Z.leb_gt next n)) by lia. destruct (_ || _) eqn:Ho; [done|]. zbool.
    intros _ [= <- <-]. split; auto with stogas.
    + intros m. rewrite elem_of_cons. intros [->|?%Hb]; lia.
    + intros m Hm. rewrite bit_get_set, Hbits by auto with stogas.
      apply eq_true_iff_eq. rewrite orb_true_iff, Z.eqb_eq, !bool_decide_eq_true, elem_of_cons.
      split; [intros [Hs|?]; [left; symmetry; apply slot_inj in Hs; [done|lia]|by right]|].
      intros [->|?]; auto.
    + by constructor.
  - rewrite (proj2 (Z.leb_le next n)) by lia. destruct (_ || _) eqn:Ho; [done|]. zbool.
    intros _ [= <- <-]. destruct (clear_slots (seqZ next (n + 1 - next)) bits Hwf) as [Hwf' Hc].
    split; auto with stogas.
    + intros m. rewrite elem_of_cons. intros [->|?%Hb]; lia.
    + intros m Hm. rewrite bit_get_set by auto with stogas. apply eq_true_iff_eq.
      rewrite orb_true_iff, Z.eqb_eq, Hc, bool_decide_eq_true, elem_of_cons by apply slot_range.
      setoid_rewrite elem_of_seqZ. destruct (decide (m < next)) as [Hlt|Hge].
      * rewrite Hbits, bool_decide_eq_true by lia. split.
        -- intros [Hs|[_ ?]]; [|by right]. apply slot_inj in Hs; lia.
        -- intros [->|?]; [lia|]. right. split; [|done]. intros i Hi Hs. apply slot_inj in Hs; lia.
      * split.
        -- intros [Hs|[Hi _]]; [left; apply slot_inj in Hs; lia|]. destruct (Hi m); [lia|done].
        -- intros [->|?%Hb]; [by left|lia].
    + by constructor.
Qed.

(** ** Runs of a server session *)

Inductive server_op : Type :=
| SAccept (number : Z) (encoded : bytes) (now_ms : Z)
| SExpire (now_ms : Z)
| SClose.

Section Server.
Context `{Kdf} `{Hash} `{Aead} `{Agreement} `{Random}.

(** A start that reaches the session's keys, and so spends its budget. *)
Definition spends (s : ServerSession) (number : Z) (encoded : bytes) : bool :=
  match ss_peer s, (let? _ := admissible (ss_next s) (ss_accepted s) number in start_header encoded) with
  | Some _, Ok _ => 1 <=? ss_remaining_starts s
  | _, _ => false
  end.

(** One call: the session, the accepted number, and whether budget was spent. *)
Definition server_step (s : ServerSession) (g : rng) (op : server_op)
  : ServerSession * rng * option Z * bool :=
  match op with
  | SAccept number encoded now =>
      let '(s', g', _, out) := ServerSession_accept_start s g number encoded now in
      (s', g', match out with Ok _ => Some number | Err _ => None end, spends s number encoded)
  | SExpire now => (ServerSession_expire s now, g, None, false)
  | SClose => (ServerSession_close s, g, None, false)
  end.

(** The final session, the accepted numbers (latest first) and the spent budget. *)
Fixpoint server_run (s : ServerSession) (g : rng) (accepted : list Z) (spent : Z)
    (ops : list server_op) : ServerSession * list Z * Z :=
  match ops with
  | [] => (s, accepted, spent)
  | op :: ops =>
      let '(s', g', n, b) := server_step s g op in
      server_run s' g' (option_list n ++ accepted) (spent + if b then 1 else 0) ops
  end.

Lemma authenticate_spec s g number encoded header now s' g' b out :
  ServerSession_authenticate_start s g number encoded header now = (s', g', b, out) ->
  ss_remaining_starts s' = ss_remaining_starts s /\ ss_id s' = ss_id s /\
  match out with
  | Ok _ => (ss_next s', ss_accepted s') = mark_accepted (ss_next s) (ss_accepted s) number
  | Err _ => ss_next s' = ss_next s /\ ss_accepted s' = ss_accepted s
  end.
Proof.
  unfold ServerSession_authenticate_start.
  destruct (ss_peer s) as [p|]; [|by intros [= <- <- <- <-]].
  destruct (Peer_receive _ _ _ _ _ _) as [[p1 b1] [[[inc k] m]|e]]; [|by intros [= <- <- <- <-]].
  destruct (Peer_send _ _ _) as [[p2 g2] [resp|e]]; [|by intros [= <- <- <- <-]].
  destruct (Records_new _ _ _ _ _); [|by intros [= <- <- <- <-]].
  destruct (mark_accepted _ _ _) as [nx ac]. by intros [= <- <- <- <-].
Qed.

Lemma accept_spec s g number encoded now s' g' b out :
  ServerSession_accept_start s g number encoded now = (s', g', b, out) ->
  (if spends s number encoded
   then ss_remaining_starts s' = ss_remaining_starts s - 1 /\ 1 <= ss_remaining_starts s /\
        admissible (ss_next s) (ss_accepted s) number = Ok tt /\
        (ss_remaining_starts s' = 0 -> ss_peer s' = None)
   else s' = s /\ (exists e, out = Err e)) /\
  match out with
  | Ok _ => (ss_next s', ss_accepted s') = mark_accepted (ss_next s) (ss_accepted s) number
  | Err _ => ss_next s' = ss_next s /\ ss_accepted s' = ss_accepted s
  end.
Proof.
  unfold ServerSession_accept_start, spends.
  destruct (ss_peer s) as [p|] eqn:Hp; [|by intros [= <- <- <- <-]; eauto].
  destruct (admissible _ _ _) as [[]|e] eqn:Ha; [|by intros [= <- <- <- <-]; eauto].
  destruct (start_header encoded) as [h|e]; [|by intros [= <- <- <- <-]; eauto].
  destruct (ss_remaining_starts s <? 1) eqn:E; zbool.
  { intros [= <- <- <- <-]. rewrite (proj2 (Z.leb_gt _ _)) by lia. eauto. }
  rewrite (proj2 (Z.leb_le _ _)) by lia.
  destruct (ServerSession_authenticate_start _ _ _ _ _ _) as [[[s2 g2] b2] o] eqn:Hauth.
  apply authenticate_spec in Hauth as (Hrem & _ & Hwin). simpl in *. intros [= <- <- <- <-].
  destruct (ss_remaining_starts s2 =? 0) eqn:E0; zbool; simpl; split_and!; try done; lia.
Qed.

Lemma server_step_spec s g op s' g' n b accepted :
  replay_inv (ss_next s) (ss_accepted s) accepted ->
  server_step s g op = (s', g', n, b) ->
  replay_inv (ss_next s') (ss_accepted s') (option_list n ++ accepted) /\
  ss_remaining_starts s' = ss_remaining_starts s - (if b then 1 else 0) /\
  (0 <= ss_remaining_starts s -> 0 <= ss_remaining_starts s') /\
  ((ss_remaining_starts s = 0 -> ss_peer s = None) -> ss_remaining_starts s' = 0 -> ss_peer s' = None) /\
  (is_Some n -> b = true).
Proof.
  intros Hinv. destruct op as [number encoded now|now|]; simpl.
  - destruct (ServerSession_accept_start _ _ _ _ _) as [[[s1 g1] b1] out] eqn:Ha.
    apply accept_spec in Ha as [Hs Hw]. intros [= <- <- <- <-].
    destruct (spends s number encoded).
    + destruct Hs as (-> & Hrem & Hadm & Hclose). split; [|split_and!; try done; lia].
      destruct out; simpl; [|by destruct Hw as [-> ->]]. eapply mark_inv; done.
    + destruct Hs as [-> [e ->]]. rewrite Z.sub_0_r. by split_and!.
  - intros [= <- <- <- <-]. simpl. rewrite Z.sub_0_r. split_and!; try done.
    intros Hn H0'. by rewrite Hn.
  - intros [= <- <- <- <-]. simpl. rewrite Z.sub_0_r. by split_and!.
Qed.

Lemma server_run_spec ops s g accepted spent s' accepted' spent' :
  replay_inv (ss_next s) (ss_accepted s) accepted ->
  ss_remaining_starts s = MAX_SESSION_STARTS - spent -> 0 <= ss_remaining_starts s ->
  (ss_remaining_starts s = 0 -> ss_peer s = None) -> zlen accepted <= spent ->
  server_run s g accepted spent ops = (s', accepted', spent') ->
  replay_inv (ss_next s') (ss_accepted s') accepted' /\
  ss_remaining_starts s' = MAX_SESSION_STARTS - spent' /\ 0 <= ss_remaining_starts s' /\
  (ss_remaining_starts s' = 0 -> ss_peer s' = None) /\ zlen accepted' <= spent'.
Proof.
  revert s g accepted spent. induction ops as [|op ops IH]; intros s g accepted spent Hi Hr Hz Hc Hl; simpl.
  { by intros [= <- <- <-]. }
  destruct (server_step s g op) as [[[s1 g1] n] b] eqn:Hstep.
  destruct (server_step_spec _ _ _ _ _ _ _ _ Hi Hstep) as (Hi1 & Hr1 & Hz1 & Hc1 & Hb).
  apply IH; try done.
  - rewrite Hr1, Hr. lia.
  - auto.
  - auto.
  - destruct n; simpl; [|destruct b; lia]. rewrite Hb by eauto. zlen_norm. lia.
Qed.

(** C3. Over any sequence of starts, however numbers and records are replayed,
    reordered or forged, a server session accepts each request number at most once. *)
Theorem replay_protection root id initial g ops :
  NoDup (server_run (ServerSession_new root id initial) g [] 0 ops).1.2.
Proof.
  destruct (server_run _ _ _ _ _) as [[s' accepted] spent] eqn:Hr.
  apply server_run_spec in Hr as ([_ _ _ Hnd] & _); try done. apply replay_init.
Qed.

(** At most 2^30 starts ever reach the session's keys, failed ones included:
    the budget counts exactly those, accepted requests are among them, and the last
    one erases the session's secrets. *)
Theorem start_budget root id initial g ops :
  let '(s, accepted, spent) := server_run (ServerSession_new root id initial) g [] 0 ops in
  ss_remaining_starts s = 2 ^ 30 - spent /\ zlen accepted <= spent <= 2 ^ 30 /\
  (spent = 2 ^ 30 -> ss_peer s = None).
Proof.
  destruct (server_run _ _ _ _ _) as [[s' accepted] spent] eqn:Hr.
  apply server_run_spec in Hr as (_ & Hrem & Hz & Hc & Hl); try done; [|apply replay_init].
  unfold MAX_SESSION_STARTS in Hrem. change (Z.shiftl 1 30) with (2 ^ 30) in Hrem.
  split_and!; try done; [lia|]. intros ->. apply Hc. lia.
Qed.

End Server.
