(* ===== verification/Admission.v ===== *)
(** Client and server windows together: whatever is delivered, reordered, lost or
    cancelled, a start the client still waits for and the server has not accepted
    passes the server's replay and distance checks. *)

From S2P Require Import Prelude Primitives Record Ratchet Window Session SessionTheory.
From S2P Require Import ServerTheory.

Open Scope Z_scope.

(** Both windows, with the numbers that client readers own and those the server
    accepted. *)
Record Joint : Type := {
  j_starts : Starts;
  j_pending : list Z;
  j_next : Z;
  j_bits : Bitmap;
  j_accepted : list Z
}.

Definition joint_init : Joint := {|
  j_starts := Starts_default; j_pending := []; j_next := 0; j_bits := bitmap_zero; j_accepted := []
|}.

(** The client issues, cancels or sees a response to a number; the server accepts a
    number the client issued, possibly one it has since cancelled. A response only
    comes from an accepted start. *)
Inductive joint_step : Joint -> Joint -> Prop :=
| JIssue j s n :
    Starts_allocate (j_starts j) = (s, Ok n) ->
    joint_step j {| j_starts := s; j_pending := j_pending j ++ [n]; j_next := j_next j;
                    j_bits := j_bits j; j_accepted := j_accepted j |}
| JAccept j n next bits :
    0 <= n < st_next (j_starts j) ->
    admissible (j_next j) (j_bits j) n = Ok tt ->
    mark_accepted (j_next j) (j_bits j) n = (next, bits) ->
    joint_step j {| j_starts := j_starts j; j_pending := j_pending j; j_next := next;
                    j_bits := bits; j_accepted := n :: j_accepted j |}
| JResponse j l n k :
    j_pending j = l ++ n :: k -> n ∈ j_accepted j ->
    joint_step j {| j_starts := Starts_release (Starts_confirm (j_starts j) n) n;
                    j_pending := l ++ k; j_next := j_next j;
                    j_bits := j_bits j; j_accepted := j_accepted j |}
| JCancel j l n k :
    j_pending j = l ++ n :: k ->
    joint_step j {| j_starts := Starts_release (j_starts j) n;
                    j_pending := l ++ k; j_next := j_next j;
                    j_bits := j_bits j; j_accepted := j_accepted j |}.

Definition joint_reachable : Joint -> Prop := rtc joint_step joint_init.

Record joint_inv (j : Joint) : Prop := {
  ji_window : window_of (j_starts j) (j_pending j);
  ji_replay : replay_inv (j_next j) (j_bits j) (j_accepted j);
  ji_next : j_next j <= st_next (j_starts j);
  ji_confirmed : st_confirmed_next (j_starts j) <= j_next j
}.

Lemma release_loop_confirmed fuel s : st_confirmed_next (release_loop fuel s) = st_confirmed_next s.
Proof.
  revert s. induction fuel as [|fuel IH]; intros s; simpl; [done|].
  destruct (_ <? _); [|done]. destruct (bit_get _ _); [done|]. by rewrite IH.
Qed.

Lemma release_confirmed s n : st_confirmed_next (Starts_release s n) = st_confirmed_next s.
Proof. unfold Starts_release. by rewrite release_loop_confirmed. Qed.

Lemma joint_init_inv : joint_inv joint_init.
Proof.
  split; simpl; try done; [|apply replay_init].
  split; [|constructor]. exists spec_init. split; [apply rel_default|done].
Qed.

Lemma mark_next next bits n next' bits' :
  mark_accepted next bits n = (next', bits') -> next' = Z.max next (n + 1).
Proof. unfold mark_accepted. destruct (next <=? n) eqn:E; zbool; intros [= <- <-]; lia. Qed.

Lemma joint_step_inv j j' : joint_inv j -> joint_step j j' -> joint_inv j'.
Proof.
  intros [Hw Hr Hn Hc] Hstep. destruct Hstep as [j s n Ha|j n next bits Hb Ha Hm|j l n k Hp Hin|j l n k Hp];
    try rewrite Hp in Hw.
  - destruct (allocate_window _ _ _ _ Hw Ha) as (-> & Hs & Hw').
    assert (st_confirmed_next s = st_confirmed_next (j_starts j)) as Hcs
      by (unfold Starts_allocate in Ha; case_all). split; simpl; try done; lia.
  - pose proof (mark_next _ _ _ _ _ Hm). split; simpl; try done; try lia. by eapply mark_inv.
  - apply window_release in Hw as [_ Hw]. apply (ri_below _ _ _ Hr) in Hin as Hlt.
    split; simpl; try done; rewrite ?release_next, ?release_confirmed; simpl; [done|lia].
  - apply window_release in Hw as [Hw _].
    split; simpl; try done; by rewrite ?release_next, ?release_confirmed.
Qed.

Lemma joint_reachable_inv j : joint_reachable j -> joint_inv j.
Proof.
  intros Hr. unfold joint_reachable in Hr. pose proof joint_init_inv as Hi. revert Hi.
  induction Hr; eauto using joint_step_inv.
Qed.

(** C5. The client's limits keep it inside the server's window: in every joint
    execution each start the client still waits for, and that was not accepted
    before, is admissible. *)
Theorem awaited_start_admissible j n :
  joint_reachable j -> n ∈ j_pending j -> n ∉ j_accepted j ->
  admissible (j_next j) (j_bits j) n = Ok tt.
Proof.
  intros Hreach Hin Hout. apply joint_reachable_inv in Hreach as [[(a & Hrel & Hp) _] Hr Hn Hc].
  assert (n ∈ sp_pending a) as Hpa by (by rewrite Hp, elem_of_list_to_set).
  destruct Hrel as [_ _ [? ?] Hwin [? ?] _ Hpend _ _]. apply Hpend in Hpa.
  unfold admissible. change (n mod REPLAY_WINDOW) with (slot n). unfold REPLAY_WINDOW.
  destruct (n <? j_next j) eqn:E; zbool.
  - rewrite (proj2 (Z.ltb_ge _ _)) by lia.
    by rewrite (ri_bits _ _ _ Hr) by lia; rewrite bool_decide_false.
  - rewrite (proj2 (Z.eqb_neq _ _)), (proj2 (Z.leb_gt _ _)) by lia. done.
Qed.
