(* ===== verification/Exchange.v ===== *)
(** One complete exchange through every layer of the channel: a request of a new
    session is admitted by the server with its metadata and body intact, and the
    response the server writes is opened by the client that waits for it. *)

From S2P Require Import Prelude Primitives BTree Record RecordTheory Ratchet RatchetTheory.
From S2P Require Import RatchetSafety RatchetAgreement Window Session SessionTheory.

Open Scope Z_scope.

Section Exchange.
Context `{KdfLaws} `{Hash} `{AeadLaws} `{AgreementLaws} `{!KemCorrect} `{Random} `{!RandomTotal}.

(** ** Sealed starts carry the writer's header *)

Lemma seal_start_header secret session_id number direction header w kind content w' enc :
  Records_new secret session_id number direction header = Ok w ->
  Records_seal w kind content = (w', Ok enc) -> start_header enc = Ok header.
Proof.
  unfold Records_new. destruct (Keys_new _ _ _ _) as [keys|]; [|done].
  intros [= <-] Hseal. apply seal_ok_inv in Hseal.
  set (w := Records_from_keys keys direction (Some header)) in *.
  destruct (seal_with_inv w _ _ _ _ _ ltac:(done) Hseal)
    as (k0 & k1 & key & nonce & c & ct & tag & _ & _ & _ & _ & -> & _ & _ & Hok & Hlen).
  destruct (start_header_framed w _ _ _ eq_refl (zlen_nonneg content) Hok Hlen) as (h & Hh & Hoff).
  rewrite Hh. f_equal. revert Hh Hoff. unfold start_header, record_prefix. simpl rc_header. simpl rc_sequence.
  simpl (0 =? 0). cbn match. set (n := RECORD_OVERHEAD + _ + _).
  set (enc := (_ ++ _ ++ header) ++ _). intros Hh Hoff.
  assert (zlen h = zlen header) as Hz by (zlen_norm; lia).
  assert (h = slice enc 6 (6 + zlen h)) as ->.
  { revert Hh. clearbody enc. intros Hh. case_all. zbool.
    match goal with |- slice _ _ (6 + ?l) = slice _ _ (6 + zlen ?s) => assert (zlen s = l) as -> end; [|done].
    rewrite zlen_slice; lia || (pose proof (be_value_range (slice enc 4 6)); lia). }
  rewrite Hz. unfold enc. rewrite <- !app_assoc, !slice_app_skip by (rewrite ?zlen_be_bytes; lia).
  rewrite !zlen_be_bytes. replace (6 - Z.of_nat 4 - Z.of_nat 2) with 0 by lia.
  by apply slice_app_here; lia.
Qed.

(** ** Sending succeeds *)

Lemma expand_length n salt input label : 0 <= n <= 255 * 64 -> zlen (expand n salt input label) = n.
Proof.
  intros Hn. unfold expand. destruct (hkdf_sha512_total salt input (PROTOCOL ++ label) n Hn) as [out E].
  rewrite E. by apply hkdf_sha512_length in E; [|lia].
Qed.

Lemma chain_step_total c :
  ch_count c < MAX_CHAIN_MESSAGES -> exists c' key, Chain_step c = Ok (c', key) /\ zlen key = 32.
Proof.
  intros Hc. unfold Chain_step. rewrite (proj2 (Z.leb_gt _ _)) by done. eexists _, _. split; [done|].
  rewrite zlen_slice_from; rewrite expand_length; lia.
Qed.

(** A peer whose next message opens a turn toward a generated key. *)
Lemma open_turn_send_total p g theirs request :
  a_send (p_active p) = None ->
  a_remote (p_active p) = Some (kp_public (KeyPair_from_seed theirs)) ->
  0 <= a_previous_sent (p_active p) <= MAX_CHAIN_MESSAGES ->
  exists p' g' key, Peer_send p g request = (p', g', Ok key) /\ zlen (s_secret key) = 32.
Proof.
  intros Hs Hr Hp. unfold Peer_send. rewrite Hs, Hr.
  pose proof (rng_fill_total g 32) as Hf. destruct (rng_fill g 32) as [g1 [seed|]]; [|by destruct Hf].
  pose proof (rng_fill_total g1 32) as Hf1. destruct (rng_fill g1 32) as [g2 [rnd|]]; [|by destruct Hf1].
  assert (exists a s, Active_open_turn (p_active p) (kp_public (KeyPair_from_seed theirs)) seed rnd = Ok a /\
    a_send a = Some s /\ ch_count (sd_chain s) = 0 /\ header_wf (sd_header s)) as (a & s & -> & Has & Hc & Hw).
  { unfold Active_open_turn. destruct (PublicKeys_encapsulate _ rnd) as [[ct kem]|] eqn:Henc.
    - destruct (KeyPair_agree _ _) as [dh|] eqn:Hdh.
      + destruct (exchange_agrees _ _ _ _ _ _ Henc Hdh) as (_ & _ & Hct).
        eexists _, _. split; [done|]. simpl. split_and!; [done|done|].
        split; simpl; [apply from_seed_public|done| |]; unfold MAX_CHAIN_MESSAGES, u64_max in *; lia.
      + unfold KeyPair_agree, KeyPair_from_seed in Hdh.
        set (m := expand 96 None seed _) in Hdh. set (t := expand 96 None theirs _) in Hdh.
        destruct (mlkem_generate (slice_from m 32)), (mlkem_generate (slice_from t 32)). simpl in Hdh.
        rewrite slice_to_app in Hdh by (by rewrite x25519_public_length).
        destruct (x25519_honest (slice_to t 32) (slice_to m 32)) as [z Hz]. by rewrite Hz in Hdh.
    - unfold PublicKeys_encapsulate, KeyPair_from_seed in Henc.
      set (t := expand 96 None theirs _) in Henc. pose proof (mlkem_public_length (slice_from t 32)) as Hl.
      destruct (mlkem_generate (slice_from t 32)). simpl in *.
      rewrite slice_from_app, Hl in Henc by (by rewrite x25519_public_length). done. }
  unfold Active_send_next. rewrite Has. simpl ok_or. cbn match.
  destruct (chain_step_total (sd_chain s)) as (c' & key & -> & Hkey); [rewrite Hc; done|].
  unfold HeaderCipher_seal. set (hd := {| h_public := _ |}).
  assert (header_wf hd) as Hw' by (destruct Hw; split; simpl; try done; rewrite Hc; done).
  destruct (gcm_seal_total (hc_key (sd_cipher s)) (header_nonce request) PROTOCOL (Header_encode hd)) as [[ct tag] Hseal].
  { rewrite zlen_header_encode by done. header_consts. lia. }
  rewrite Hseal. simpl. eauto 10.
Qed.

Lemma records_new_total secret id number direction header :
  zlen secret = 32 -> exists w, Records_new secret id number direction header = Ok w.
Proof.
  intros Hs. unfold Records_new, Keys_new.
  destruct (hkdf_sha256_total secret (KEY_DOMAIN ++ id ++ u64_be number ++ [Direction_to_byte direction]) 32)
    as [k ->]; [lia..|]. simpl. eauto.
Qed.

(** ** Delivery of a start *)

Lemma send_deliver k o h g request o' g' key :
  linked k (p_active o) (p_active h) -> 0 <= k < u64_max -> idle h ->
  match a_receive (p_active h) with
  | Some r => exists e, HeaderCipher_open (rh_cipher (rv_header r)) (s_header key) request = Err e
  | None => True
  end ->
  Peer_send o g request = (o', g', Ok key) ->
  exists h', linked (k + 1) h' (p_active o') /\
    forall B T now (buffer : B) (auth : B -> bytes -> B * result T Error) b' out,
      auth buffer (s_secret key) = (b', Ok out) ->
      Peer_receive h (s_header key) request now buffer auth =
      (set_active (set_now h (Z.max (p_last_now h) now)) h', b', Ok out).
Proof.
  intros Hl Hk Hi Hcur. unfold Peer_send. rewrite (lk_send _ _ _ Hl).
  destruct (a_remote (p_active o)) as [theirs|] eqn:Hrem; [|done].
  destruct (rng_fill g 32) as [g1 [seed|]]; [|done].
  destruct (rng_fill g1 32) as [g2 [random|]]; [|done].
  destruct (Active_open_turn _ _ _ _) as [o1|] eqn:Hopen; [|done].
  destruct (Active_send_next o1 request) as [[a key']|] eqn:Hn; [|done]. intros [= <- <- ->].
  destruct (deliver_next _ _ _ _ _ _ _ _ _ _ Hl Hk Hrem Hopen Hn) as (hd & h' & Hlen & Hop & Hy & Hl').
  exists h'. split; [done|]. intros. by eapply receive_next_ok.
Qed.

(** The first record of a stream is delivered with its header, and the reader it
    creates opens the rest. *)
Lemma deliver_stream secret id number direction header w kind content msgs w' enc encs :
  Records_new secret id number direction header = Ok w ->
  seal_stream w ((kind, content) :: msgs) = (w', Ok (enc :: encs)) ->
  start_header enc = Ok header /\ exists buffer rd rd',
    Records_authenticate_start secret id number direction enc = (buffer, Ok (rd, kind, content)) /\
    open_stream rd encs = (rd', Ok msgs).
Proof.
  intros Hnew Hrun. simpl in Hrun.
  destruct (Records_seal w kind content) as [w1 [enc1|]] eqn:Hseal; [|done].
  destruct (seal_stream w1 msgs) as [w2 [encs'|]] eqn:Hrest; simplify_eq.
  split; [by eapply seal_start_header|].
  destruct (seal_authenticate_start _ _ _ _ _ _ _ _ _ _ Hnew Hseal) as (buffer & rd & Hstart & Hsync).
  assert (rc_sequence w = 0) as Hs by (unfold Records_new in Hnew; case_all).
  destruct (seal_open_stream w1 rd msgs w' encs) as (rd' & Hopen & _); [|done|done|].
  { rewrite (seal_sequence w kind content w1 enc); [lia|lia|done]. }
  by exists buffer, rd, rd'.
Qed.

(** What the first request of a new session is made of. *)
Lemma first_request_inv root id idle_seconds seed session sh g sh1 g1 req :
  ClientSession_new root id idle_seconds (kp_public (KeyPair_from_seed seed)) = Ok (session, sh) ->
  ClientSession_request session sh g = (sh1, g1, Ok req) ->
  exists p0 p1 key,
    paired 0 p0 (Peer_responder root (KeyPair_from_seed seed)) /\
    linked 0 (p_active p0) (p_active (Peer_responder root (KeyPair_from_seed seed))) /\
    a_receive (p_active p0) = None /\ Peer_send p0 g 0 = (p1, g1, Ok key) /\
    sh1 = {| sh_starts := (Starts_allocate Starts_default).1; sh_peer := p1 |} /\
    Records_new (s_secret key) id 0 Request (s_header key) = Ok (re_records (cr_writer req)) /\
    re_number (cr_writer req) = 0 /\
    cr_reader req = {| rr_pending := Some 0; rr_session_id := id; rr_records := None; rr_failed := false |}.
Proof.
  unfold ClientSession_new. destruct (Peer_initiator _ _) as [p0|] eqn:Hp0; [|done]. intros [= <- <-].
  unfold ClientSession_request. simpl. destruct (Peer_send p0 g 0) as [[p1 g2] [key|]] eqn:Hs; [|done].
  destruct (Records_new _ _ _ _ _) as [w|] eqn:Hw; [|done]. intros [= <- <- <-].
  exists p0, p1, key. pose proof (initial_paired _ _ _ Hp0) as Hpair.
  assert (a_receive (p_active p0) = None /\ a_send (p_active p0) = None) as [Hr Ha].
  { unfold Peer_initiator in Hp0. destruct (PublicKeys_validate _); [|done]. by injection Hp0 as <-. }
  split_and!; try done. destruct Hpair as (_ & _ & [?|Hl]); [done|].
  destruct (lk_pair _ _ _ Hl) as (? & _ & Hx). done.
Qed.

(** C1. The first exchange of a verified session completes: the server admits the
    request with exactly the client's metadata and can open its whole upload, and
    whatever response it then writes, the client that waits for it opens exactly that
    and no start stays pending. *)
Theorem first_exchange root id idle_seconds seed session sh g sh1 g1 req now now' m msgs w' enc encs :
  ClientSession_new root id idle_seconds (kp_public (KeyPair_from_seed seed)) = Ok (session, sh) ->
  ClientSession_request session sh g = (sh1, g1, Ok req) ->
  seal_stream (re_records (cr_writer req)) ((Metadata, m) :: msgs) = (w', Ok (enc :: encs)) ->
  exists server g2 buffer reader writer rd,
    ServerSession_accept_start (ServerSession_new root id (KeyPair_from_seed seed)) g1
      (re_number (cr_writer req)) enc now = (server, g2, buffer, Ok (reader, writer, m)) /\
    open_stream (sr_records reader) encs = (rd, Ok msgs) /\
    forall k c rest w2 renc rencs,
      seal_stream (sw_records writer) ((k, c) :: rest) = (w2, Ok (renc :: rencs)) ->
      exists sh2 reader2 buffer2 records rd2,
        ResponseReader_open sh1 (cr_reader req) renc now' = (sh2, reader2, buffer2, Ok (k, c)) /\
        rr_records reader2 = Some records /\ open_stream records rencs = (rd2, Ok rest) /\
        st_first_pending (sh_starts sh2) = st_next (sh_starts sh2).
Proof.
  intros Hnew Hreq Hseal.
  destruct (first_request_inv _ _ _ _ _ _ _ _ _ _ Hnew Hreq)
    as (p0 & p1 & key & (Hi0 & Hiq & _) & Hl & Hr0 & Hsend & -> & Hw & -> & ->).
  destruct (send_deliver 0 _ _ _ _ _ _ _ Hl ltac:(done) Hiq I Hsend) as (h1 & Hl1 & Hrecv).
  destruct (deliver_stream _ _ _ _ _ _ _ _ _ _ _ _ Hw Hseal) as (Hstart & b & rd & rd' & Hauth & Hopen).
  set (q0 := Peer_responder root (KeyPair_from_seed seed)) in *.
  set (q1 := set_active (set_now q0 (Z.max (p_last_now q0) now)) h1).
  destruct (lk_pair _ _ _ Hl1) as (sd & _ & Hrem).
  destruct (open_turn_send_total q1 g1 sd 0) as (q2 & g2 & resp & Hsend2 & Hz).
  { apply (lk_send _ _ _ Hl1). } { done. }
  { simpl. rewrite (lk_previous _ _ _ Hl1). apply (lk_received _ _ _ Hl1). }
  destruct (records_new_total (s_secret resp) id 0 Response (s_header resp) Hz) as [out Hout].
  unfold ServerSession_accept_start, ServerSession_authenticate_start, ServerSession_new.
  cbn [ss_peer ss_next ss_accepted ss_remaining_starts ss_id]. fold q0.
  change (admissible 0 bitmap_zero 0) with (@Ok unit Error tt). cbn match. rewrite Hstart.
  change (MAX_SESSION_STARTS <? 1) with false. cbn match.
  erewrite Hrecv by (rewrite Hauth, bool_decide_true by done; done). fold q1. rewrite Hsend2, Hout.
  destruct (mark_accepted 0 bitmap_zero 0) as [nx ac].
  change (MAX_SESSION_STARTS - 1 =? 0) with false. cbn match.
  eexists _, _, _, _, _, _. split; [done|]. split; [done|].
  intros k c rest w2 renc rencs Hseal2. cbn [sw_records] in Hseal2.
  pose proof (send_spec _ _ _ _ _ _ Hsend) as (Hr1 & Hsk & Ho & Hn & _).
  assert (idle p1) as Hi1 by (destruct Hi0 as (? & ? & ?); split_and!; congruence).
  destruct (send_deliver 1 q1 p1 g1 0 q2 g2 resp) as (h2 & Hl2 & Hrecv2); try done.
  { by rewrite Hr1, Hr0. }
  destruct (deliver_stream _ _ _ _ _ _ _ _ _ _ _ _ Hout Hseal2) as (Hstart2 & b2 & rd2 & rd2' & Hauth2 & Hopen2).
  unfold ResponseReader_open, ResponseReader_start. cbn [rr_failed rr_records rr_pending rr_session_id].
  rewrite Hstart2. cbn [sh_peer]. erewrite Hrecv2 by done.
  eexists _, _, _, _, _. split; [done|]. split; [done|]. split; [done|]. by vm_compute.
Qed.

End Exchange.
