(* ===== verification/Stream.v ===== *)
(** Incremental response framing: [channel/stream.rs]. The decoder buffers one
    encoded record, opens it when complete and hands the content to a callback.

    The synchronous and asynchronous readers have the same loop; it is written once
    over the operation that opens a buffered record. That operation threads what it
    shares with other requests and yields no result when its future is dropped. *)

From S2P Require Import Prelude RecordTheory RatchetTheory Primitives Record Ratchet Window Session.

Open Scope Z_scope.

Record ResponseDecoder : Type := {
  rd_request : option ResponseReader;
  rd_buffer : bytes;
  rd_needed : Z;
  rd_finished : bool
}.

Definition ResponseDecoder_from_reader (request : ResponseReader) : ResponseDecoder :=
  {| rd_request := Some request; rd_buffer := []; rd_needed := 4; rd_finished := false |}.

Definition ResponseDecoder_new (request : ClientRequest) : ResponseDecoder :=
  ResponseDecoder_from_reader (cr_reader request).

Definition ResponseDecoder_clear_buffer (d : ResponseDecoder) : ResponseDecoder := {|
  rd_request := rd_request d; rd_buffer := []; rd_needed := 4; rd_finished := rd_finished d |}.

(** Setting the request to [None] drops the reader and its pending start. *)
Definition ResponseDecoder_close (sh : Shared) (d : ResponseDecoder) : Shared * ResponseDecoder :=
  (match rd_request d with Some r => ResponseReader_drop sh r | None => sh end,
   {| rd_request := None; rd_buffer := []; rd_needed := 4; rd_finished := rd_finished d |}).

(** [fill]: every iteration consumes input, so its length is enough fuel. Buffer
    growth is assumed to succeed. *)
Fixpoint fill_loop (fuel : nat) (d : ResponseDecoder) (input : bytes)
  : ResponseDecoder * bytes * result bool Error :=
  match input, fuel with
  | [], _ | _, O => (d, input, Ok false)
  | _, S fuel =>
      if rd_finished d then (d, input, Err Record_) else
      let take := Z.min (zlen input) (rd_needed d - zlen (rd_buffer d)) in
      let buffer := rd_buffer d ++ slice_to input take in
      let rest := slice_from input take in
      let d' needed := {| rd_request := rd_request d; rd_buffer := buffer;
                          rd_needed := needed; rd_finished := rd_finished d |} in
      if negb (zlen buffer =? rd_needed d) then fill_loop fuel (d' (rd_needed d)) rest
      else if rd_needed d =? 4 then
        match record_size buffer with
        | Err e => (d' (rd_needed d), rest, Err e)
        | Ok needed => fill_loop fuel (d' needed) rest
        end
      else (d' (rd_needed d), rest, Ok true)
  end.

Definition ResponseDecoder_fill (d : ResponseDecoder) (input : bytes)
  : ResponseDecoder * bytes * result bool Error := fill_loop (length input) d input.

Section Read.
Context {X S : Type}
  (open : X -> ResponseReader -> bytes -> X * ResponseReader * bytes * option (result (Kind * bytes) Error))
  (emit : S -> Kind -> bytes -> S * result unit Error).

(** A complete buffered record is opened and emitted. *)
Definition take_record (x : X) (d : ResponseDecoder) (s : S)
  : X * ResponseDecoder * S * option (result unit Error) :=
  match rd_request d with
  | None => (x, d, s, Some (Err Closed))
  | Some r =>
      let '(x', r', buffer, out) := open x r (rd_buffer d) in
      let d' finished := {| rd_request := Some r'; rd_buffer := buffer;
                            rd_needed := rd_needed d; rd_finished := finished |} in
      match out with
      | None => (x', d' (rd_finished d), s, None)
      | Some (Err e) => (x', d' (rd_finished d), s, Some (Err e))
      | Some (Ok (kind, content)) =>
          let d1 := d' (bool_decide (kind = Finished)) in
          match emit s kind content with
          | (s', Err e) => (x', d1, s', Some (Err e))
          | (s', Ok _) => (x', ResponseDecoder_clear_buffer d1, s', Some (Ok tt))
          end
      end
  end.

(** [read] and [read_async]: every record consumes input. *)
Fixpoint read_loop (fuel : nat) (x : X) (d : ResponseDecoder) (s : S) (input : bytes)
  : X * ResponseDecoder * S * option (result unit Error) :=
  match ResponseDecoder_fill d input with
  | (d1, _, Err e) => (x, d1, s, Some (Err e))
  | (d1, _, Ok false) => (x, d1, s, Some (Ok tt))
  | (d1, rest, Ok true) =>
      match take_record x d1 s, fuel with
      | (x2, d2, s2, Some (Ok _)), Datatypes.S fuel => read_loop fuel x2 d2 s2 rest
      | out, _ => out
      end
  end.

Definition read_with (x : X) (d : ResponseDecoder) (s : S) (input : bytes) :=
  read_loop (length input) x d s input.

End Read.

Section Push.
Context `{Kdf} `{Hash} `{Aead} `{Agreement} {S : Type} (emit : S -> Kind -> bytes -> S * result unit Error).

Definition open_now (now_ms : Z) (sh : Shared) (r : ResponseReader) (buffer : bytes) :=
  let '(sh', r', buffer', out) := ResponseReader_open sh r buffer now_ms in (sh', r', buffer', Some out).

(** [push]: [DecodeOperation] closes the decoder unless the call completes. *)
Definition ResponseDecoder_push (sh : Shared) (d : ResponseDecoder) (s : S) (input : bytes) (now_ms : Z)
  : Shared * ResponseDecoder * S * result unit Error :=
  match rd_request d with
  | None => let (sh', d') := ResponseDecoder_close sh d in (sh', d', s, Err Closed)
  | Some _ =>
      match read_with (open_now now_ms) emit sh d s input with
      | (sh1, d1, s1, Some (Ok _)) => (sh1, d1, s1, Ok tt)
      | (sh1, d1, s1, Some (Err e)) => let (sh', d') := ResponseDecoder_close sh1 d1 in (sh', d', s1, Err e)
      | (sh1, d1, s1, None) => let (sh', d') := ResponseDecoder_close sh1 d1 in (sh', d', s1, Err Closed)
      end
  end.

(** Each await of the asynchronous reader takes the next entry of a schedule that says
    whether the future is dropped there. *)
Definition open_later {C} `{Cipher C} (now_ms : Z) (x : Shared * list bool) (r : ResponseReader) (buffer : bytes)
  : Shared * list bool * ResponseReader * bytes * option (result (Kind * bytes) Error) :=
  let '(sh', r', buffer', out) :=
    ResponseReader_open_async (C := C) (hd false x.2) x.1 r buffer now_ms in
  ((sh', tail x.2), r', buffer', out).

(** [push_async]; no result when its future is dropped. *)
Definition ResponseDecoder_push_async {C} `{Cipher C} (schedule : list bool) (sh : Shared)
    (d : ResponseDecoder) (s : S) (input : bytes) (now_ms : Z)
  : Shared * ResponseDecoder * S * option (result unit Error) :=
  match rd_request d with
  | None => let (sh', d') := ResponseDecoder_close sh d in (sh', d', s, Some (Err Closed))
  | Some _ =>
      match read_with (open_later (C := C) now_ms) emit (sh, schedule) d s input with
      | (x1, d1, s1, Some (Ok _)) => (x1.1, d1, s1, Some (Ok tt))
      | (x1, d1, s1, out) => let (sh', d') := ResponseDecoder_close x1.1 d1 in (sh', d', s1, out)
      end
  end.

(** [finish] consumes the decoder; dropping it drops the reader. *)
Definition ResponseDecoder_finish (sh : Shared) (d : ResponseDecoder) : Shared * result unit Error :=
  match rd_request d with
  | None => (sh, Err Closed)
  | Some r =>
      match rd_buffer d with
      | _ :: _ => (ResponseReader_drop sh r, Err Truncated)
      | [] =>
          let '(sh', r', out) := ResponseReader_complete sh r in
          (ResponseReader_drop sh' r', out)
      end
  end.

End Push.

(** * Theory

    The response decoder: its chunked reader equals a byte-at-a-time reference, so
    fragmentation never matters, memory stays within one record, and what a server
    writes is emitted exactly, however the network cuts it. *)

(** A partial record: shorter than what is needed, which is a length prefix or a
    record size. *)
Definition decoder_wf (d : ResponseDecoder) : Prop :=
  zlen (rd_buffer d) < rd_needed d /\ (rd_needed d = 4 \/ 4 < rd_needed d <= MAX_RECORD_BYTES).

Definition with_buffer (d : ResponseDecoder) (buffer : bytes) (needed : Z) : ResponseDecoder :=
  {| rd_request := rd_request d; rd_buffer := buffer; rd_needed := needed; rd_finished := rd_finished d |}.

Section Reference.
Context {X S : Type}
  (open : X -> ResponseReader -> bytes -> X * ResponseReader * bytes * option (result (Kind * bytes) Error))
  (emit : S -> Kind -> bytes -> S * result unit Error).

(** ** Reference decoder *)

(** One byte. *)
Definition feed1 (x : X) (d : ResponseDecoder) (s : S) (b : byte)
  : X * ResponseDecoder * S * option (result unit Error) :=
  if rd_finished d then (x, d, s, Some (Err Record_)) else
  let buffer := rd_buffer d ++ [b] in
  if negb (zlen buffer =? rd_needed d) then (x, with_buffer d buffer (rd_needed d), s, Some (Ok tt))
  else if rd_needed d =? 4 then
    match record_size buffer with
    | Err e => (x, with_buffer d buffer (rd_needed d), s, Some (Err e))
    | Ok needed => (x, with_buffer d buffer needed, s, Some (Ok tt))
    end
  else take_record open emit x (with_buffer d buffer (rd_needed d)) s.

Fixpoint feed (x : X) (d : ResponseDecoder) (s : S) (l : bytes)
  : X * ResponseDecoder * S * option (result unit Error) :=
  match l with
  | [] => (x, d, s, Some (Ok tt))
  | b :: l =>
      match feed1 x d s b with
      | (x', d', s', Some (Ok _)) => feed x' d' s' l
      | out => out
      end
  end.

(** Continues a computation that completed. *)
Definition and_then (out : X * ResponseDecoder * S * option (result unit Error))
    (k : X -> ResponseDecoder -> S -> X * ResponseDecoder * S * option (result unit Error)) :=
  match out with
  | (x, d, s, Some (Ok _)) => k x d s
  | out => out
  end.

Lemma feed_app x d s l k :
  feed x d s (l ++ k) = and_then (feed x d s l) (fun x d s => feed x d s k).
Proof.
  revert x d s. induction l as [|b l IH]; intros x d s; simpl; [done|].
  destruct (feed1 x d s b) as [[[x1 d1] s1] [[[]|e]|]]; simpl; [apply IH|done|done].
Qed.

Lemma record_size_range p n : record_size p = Ok n -> 4 < n <= MAX_RECORD_BYTES.
Proof. unfold record_size. case_all. zbool. record_consts. intros [= <-]. lia. Qed.

Lemma feed_short x d s l :
  rd_finished d = false -> zlen (rd_buffer d) + zlen l < rd_needed d ->
  feed x d s l = (x, with_buffer d (rd_buffer d ++ l) (rd_needed d), s, Some (Ok tt)).
Proof.
  revert d. induction l as [|b l IH]; intros d Hf Hl; simpl.
  { rewrite app_nil_r. by destruct d. }
  unfold feed1. rewrite Hf. zlen_norm. pose proof (zlen_nonneg l).
  rewrite (proj2 (Z.eqb_neq _ _)) by (zlen_norm; lia). simpl.
  rewrite IH; simpl; [|done|zlen_norm; lia]. by rewrite <- app_assoc.
Qed.

(** Feeding exactly the missing bytes. *)
Lemma feed_complete x d s l :
  rd_finished d = false -> zlen (rd_buffer d) < rd_needed d ->
  zlen (rd_buffer d) + zlen l = rd_needed d ->
  feed x d s l =
  if rd_needed d =? 4 then
    match record_size (rd_buffer d ++ l) with
    | Err e => (x, with_buffer d (rd_buffer d ++ l) (rd_needed d), s, Some (Err e))
    | Ok needed => (x, with_buffer d (rd_buffer d ++ l) needed, s, Some (Ok tt))
    end
  else take_record open emit x (with_buffer d (rd_buffer d ++ l) (rd_needed d)) s.
Proof.
  intros Hf Hb Hl. destruct l as [|b l _] using rev_ind; [zlen_norm; lia|].
  rewrite feed_app, feed_short by (done || (zlen_norm; lia)). simpl. unfold feed1. simpl.
  rewrite Hf, <- app_assoc. zlen_norm. rewrite (proj2 (Z.eqb_eq _ _)) by lia. simpl.
  destruct (_ =? 4); [by destruct (record_size _)|].
  by destruct (take_record _ _ _ _ _) as [[[? ?] ?] [[[]|]|]].
Qed.

(** ** The chunked loop *)

(** What filling the buffer from [input] amounts to; on a complete record fewer than
    [n] bytes remain. *)
Definition filled (n : nat) (x : X) (d : ResponseDecoder) (s : S) (input : bytes)
    (out : ResponseDecoder * bytes * result bool Error) : Prop :=
  match out with
  | (d1, rest, Ok false) => feed x d s input = (x, d1, s, Some (Ok tt)) /\ decoder_wf d1
  | (d1, rest, Err e) => feed x d s input = (x, d1, s, Some (Err e))
  | (d1, rest, Ok true) =>
      (length rest < n)%nat /\
      feed x d s input = and_then (take_record open emit x d1 s) (fun x d s => feed x d s rest)
  end.

Lemma filled_weaken m n x d s input out : (m <= n)%nat -> filled m x d s input out -> filled n x d s input out.
Proof. destruct out as [[d1 rest] [[]|e]]; simpl; [|done..]. intros ? [? ?]. split; [lia|done]. Qed.

(** Steps before the buffer is full only move bytes. *)
Lemma filled_step n x d s d' input t out :
  feed x d s (slice_to input t) = (x, d', s, Some (Ok tt)) ->
  filled n x d' s (slice_from input t) out -> filled n x d s input out.
Proof.
  intros Hs. assert (feed x d s input = feed x d' s (slice_from input t)) as E.
  { rewrite <- (slice_to_from input t) at 1. by rewrite feed_app, Hs. }
  unfold filled. by rewrite E.
Qed.

Lemma fill_feed fuel x d s input :
  decoder_wf d -> (length input <= fuel)%nat -> filled (length input) x d s input (fill_loop fuel d input).
Proof.
  revert d input. induction fuel as [|fuel IH]; intros d input Hwf Hlen.
  { destruct input; [done|]. simpl in Hlen. lia. }
  destruct input as [|b0 input0]; [done|]. remember (b0 :: input0) as input eqn:Hin.
  assert (fill_loop (Datatypes.S fuel) d input = fill_loop (Datatypes.S fuel) d (b0 :: input0)) as -> by (by subst).
  simpl fill_loop. rewrite <- Hin. assert (0 < zlen input) as Hpos by (subst; zlen_lia).
  destruct (rd_finished d) eqn:Hf.
  { subst input. simpl. unfold feed1. by rewrite Hf. }
  destruct Hwf as [Hb Hn]. set (t := Z.min (zlen input) (rd_needed d - zlen (rd_buffer d))).
  assert (0 < t <= zlen input) as Ht by lia.
  assert (zlen (slice_to input t) = t) as Hzt by (apply zlen_slice_to; lia).
  assert (length (slice_from input t) < length input)%nat as Hrest.
  { unfold slice_from, zlen in *. rewrite length_drop. lia. }
  rewrite zlen_app, Hzt. destruct (zlen (rd_buffer d) + t =? rd_needed d) eqn:E; zbool; simpl.
  - pose proof (feed_complete x d s (slice_to input t) Hf Hb ltac:(lia)) as Hfeed.
    unfold with_buffer in Hfeed. rewrite Hf in Hfeed. destruct (rd_needed d =? 4) eqn:E4.
    + destruct (record_size _) as [n|e] eqn:Hr.
      * apply (filled_step _ _ _ _ _ _ _ _ Hfeed). eapply filled_weaken, IH; [lia| |lia].
        apply record_size_range in Hr. zbool. split; simpl; [rewrite zlen_app; lia|by right].
      * simpl. rewrite <- (slice_to_from input t) at 1. by rewrite feed_app, Hfeed.
    + split; [done|]. rewrite <- (slice_to_from input t) at 1. by rewrite feed_app, Hfeed.
  - pose proof (feed_short x d s (slice_to input t) Hf ltac:(lia)) as Hfeed.
    unfold with_buffer in Hfeed. rewrite Hf in Hfeed. apply (filled_step _ _ _ _ _ _ _ _ Hfeed).
    eapply filled_weaken, IH; [lia| |lia]. split; simpl; [rewrite zlen_app; lia|done].
Qed.

Lemma take_record_wf x d s x' d' s' :
  take_record open emit x d s = (x', d', s', Some (Ok tt)) -> decoder_wf d'.
Proof.
  unfold take_record. destruct (rd_request d); [|done].
  destruct (open _ _ _) as [[[x1 r1] b1] [[[k c]|]|]]; try done.
  destruct (emit s k c) as [s1 [[]|]]; [|done]. intros [= <- <- <-]. split; simpl; [done|by left].
Qed.

(** The reader of the source is the reference decoder. *)
Lemma read_loop_feed fuel x d s input :
  decoder_wf d -> (length input <= fuel)%nat -> read_loop open emit fuel x d s input = feed x d s input.
Proof.
  revert x d s input. induction fuel as [|fuel IH]; intros x d s input Hwf Hlen.
  all: simpl; unfold ResponseDecoder_fill;
    pose proof (fill_feed (length input) x d s input Hwf ltac:(done)) as Hfill;
    destruct (fill_loop _ d input) as [[d1 rest] [[]|e]]; [|by destruct Hfill|done].
  { destruct Hfill. lia. }
  destruct Hfill as [Hr ->].
  destruct (take_record open emit x d1 s) as [[[x2 d2] s2] [[[]|]|]] eqn:Ht; simpl; [|done|done].
  apply IH; [by eapply take_record_wf|lia].
Qed.

Lemma feed1_wf x d s b x' d' s' :
  decoder_wf d -> feed1 x d s b = (x', d', s', Some (Ok tt)) -> decoder_wf d'.
Proof.
  intros [Hb Hn]. unfold feed1. destruct (rd_finished d); [done|].
  destruct (zlen (rd_buffer d ++ [b]) =? rd_needed d) eqn:E; zbool; simpl.
  - destruct (rd_needed d =? 4) eqn:E4; [|apply take_record_wf].
    destruct (record_size _) as [n|] eqn:Hr; [|done]. intros [= <- <- <-]. apply record_size_range in Hr.
    zbool. split; simpl; [lia|by right].
  - intros [= <- <- <-]. split; simpl; [zlen_norm; lia|done].
Qed.

Lemma feed_wf x d s l x' d' s' :
  decoder_wf d -> feed x d s l = (x', d', s', Some (Ok tt)) -> decoder_wf d'.
Proof.
  revert x d s. induction l as [|b l IH]; intros x d s Hwf; simpl; [by intros [= <- <- <-]|].
  destruct (feed1 x d s b) as [[[x1 d1] s1] [[[]|]|]] eqn:Hf; [|done|done].
  apply feed1_wf in Hf; [|done]. by apply IH.
Qed.

End Reference.

(** ** Fragmentation *)

Section Push.
Context `{Kdf} `{Hash} `{Aead} `{Agreement} {S : Type} (emit : S -> Kind -> bytes -> S * result unit Error).

(** Network chunks are pushed one after the other until one fails. *)
Fixpoint push_all (sh : Shared) (d : ResponseDecoder) (s : S) (chunks : list bytes) (now_ms : Z)
  : Shared * ResponseDecoder * S * result unit Error :=
  match chunks with
  | [] => (sh, d, s, Ok tt)
  | chunk :: chunks =>
      match ResponseDecoder_push emit sh d s chunk now_ms with
      | (sh', d', s', Ok _) => push_all sh' d' s' chunks now_ms
      | out => out
      end
  end.

(** The outcome of a push: an incomplete call closes the decoder. *)
Definition settle (out : Shared * ResponseDecoder * S * option (result unit Error))
  : Shared * ResponseDecoder * S * result unit Error :=
  match out with
  | (sh, d, s, Some (Ok _)) => (sh, d, s, Ok tt)
  | (sh, d, s, Some (Err e)) => let (sh', d') := ResponseDecoder_close sh d in (sh', d', s, Err e)
  | (sh, d, s, None) => let (sh', d') := ResponseDecoder_close sh d in (sh', d', s, Err Closed)
  end.

Lemma push_feed sh d s input now :
  decoder_wf d -> is_Some (rd_request d) ->
  ResponseDecoder_push emit sh d s input now = settle (feed (open_now now) emit sh d s input).
Proof.
  intros Hwf [r Hr]. unfold ResponseDecoder_push, read_with. by rewrite Hr, read_loop_feed.
Qed.

Lemma feed_request {X} open (x : X) d s l x' d' s' :
  is_Some (rd_request d) -> feed open emit x d s l = (x', d', s', Some (Ok tt)) -> is_Some (rd_request d').
Proof.
  revert x d s. induction l as [|b l IH]; intros x d s Hr; simpl; [by intros [= <- <- <-]|].
  destruct (feed1 open emit x d s b) as [[[x1 d1] s1] [[[]|]|]] eqn:Hf; [|done|done].
  apply IH. destruct Hr as [r Hr]. unfold feed1, take_record in Hf. simpl in Hf. rewrite Hr in Hf.
  destruct (rd_finished d); [done|]. destruct (negb _); [simplify_eq; simpl; eauto|].
  destruct (_ =? 4); [destruct (record_size _); simplify_eq; simpl; eauto|].
  destruct (open _ _ _) as [[[? ?] ?] [[[? ?]|]|]]; [|done|done].
  destruct (emit _ _ _) as [? [?|?]]; simplify_eq; simpl; eauto.
Qed.

Lemma push_all_feed sh d s chunks now :
  decoder_wf d -> is_Some (rd_request d) ->
  push_all sh d s chunks now = settle (feed (open_now now) emit sh d s (concat chunks)).
Proof.
  revert sh d s. induction chunks as [|c chunks IH]; intros sh d s Hwf Hr; simpl; [done|].
  rewrite push_feed, feed_app by done.
  destruct (feed (open_now now) emit sh d s c) as [[[sh1 d1] s1] [[[]|]|]] eqn:Hf; simpl; try done.
  rewrite IH; [done|by eapply feed_wf|by eapply feed_request].
Qed.

Lemma from_reader_wf r : decoder_wf (ResponseDecoder_from_reader r) /\
  is_Some (rd_request (ResponseDecoder_from_reader r)).
Proof. split; [split; simpl; [done|by left]|by eexists]. Qed.

(** How the network cuts a response never matters: pushing any chunks one after
    the other, empty or with several records in one, gives exactly the decoder, the
    session state, the emitted records and the error of one push of all the bytes. *)
Theorem fragmentation_irrelevant sh r s chunks now :
  push_all sh (ResponseDecoder_from_reader r) s chunks now =
  ResponseDecoder_push emit sh (ResponseDecoder_from_reader r) s (concat chunks) now.
Proof. destruct (from_reader_wf r). by rewrite push_all_feed, push_feed. Qed.

(** Whatever arrives, the decoder never buffers more than one record of at most
    64 KiB, and after any error it holds neither buffered bytes nor keys. *)
Theorem decoder_bounded sh r s chunks now :
  let '(_, d, _, out) := push_all sh (ResponseDecoder_from_reader r) s chunks now in
  zlen (rd_buffer d) < MAX_RECORD_BYTES /\
  match out with Ok _ => True | Err _ => rd_buffer d = [] /\ rd_request d = None end.
Proof.
  destruct (from_reader_wf r) as [Hwf Hr]. rewrite push_all_feed by done.
  destruct (feed _ _ _ _ _ _) as [[[sh1 d1] s1] [[[]|]|]] eqn:Hf; simpl; try done.
  apply feed_wf in Hf as [Hb Hn]; [|done]. split; [|done]. unfold MAX_RECORD_BYTES in *. lia.
Qed.

End Push.

(** ** Delivery *)

Section Delivery.
Context `{Kdf} `{Hash} `{Aead} `{Agreement}.

(** A reader opens whole records one after the other. *)
Fixpoint open_responses (sh : Shared) (r : ResponseReader) (encs : list bytes) (now_ms : Z)
  : Shared * ResponseReader * result (list (Kind * bytes)) Error :=
  match encs with
  | [] => (sh, r, Ok [])
  | enc :: encs =>
      match ResponseReader_open sh r enc now_ms with
      | (sh', r', _, Err e) => (sh', r', Err e)
      | (sh', r', _, Ok msg) =>
          let '(sh2, r2, out) := open_responses sh' r' encs now_ms in
          (sh2, r2, let? msgs := out in Ok (msg :: msgs))
      end
  end.

(** A callback that keeps everything it is given. *)
Definition collect (s : list (Kind * bytes)) (kind : Kind) (content : bytes)
  : list (Kind * bytes) * result unit Error := (s ++ [(kind, content)], Ok tt).

Lemma open_framed sh r enc now sh' r' b msg :
  ResponseReader_open sh r enc now = (sh', r', b, Ok msg) -> record_size (slice_to enc 4) = Ok (zlen enc).
Proof.
  unfold ResponseReader_open. destruct (rr_failed r); [done|]. destruct (rr_records r) as [rec|].
  - unfold Records_open, Operation, Records_open_with, Records_check_encoded.
    destruct (closed_phase _); [done|]. destruct (_ <=? _); [done|]. destruct (_ <? _); [done|].
    destruct (record_size (slice_to enc 4)) as [n|] eqn:Hr; [|done].
    destruct (negb _) eqn:E; [done|]. zbool. by subst.
  - unfold ResponseReader_start, start_header. destruct (rr_pending r); [|done].
    destruct (_ <? _); [done|]. destruct (record_size (slice_to enc 4)) as [n|] eqn:Hr; [|done].
    destruct (negb _) eqn:E; [done|]. zbool. by subst.
Qed.

Lemma accept_open_finished rec sealed rec' b c :
  Records_accept_open rec sealed = (rec', b, Ok (Finished, c)) ->
  rc_phase rec <> PMetadata /\ rc_phase rec' = PFinished.
Proof.
  unfold Records_accept_open. destruct (Kind_try_from _) as [k|]; [|done].
  destruct (Records_check rec k _) as [[]|] eqn:Hc; [|done]. intros [= <- <- -> _].
  split; [|done]. intros E. unfold Records_check in Hc. rewrite E in Hc. case_all.
Qed.

Lemma open_finished sh r enc now sh' r' b c enc' :
  ResponseReader_open sh r enc now = (sh', r', b, Ok (Finished, c)) ->
  exists out, ResponseReader_open sh' r' enc' now = out /\ exists e, out.2 = Err e.
Proof.
  intros Ho. eexists. split; [done|]. revert Ho. unfold ResponseReader_open at 1.
  destruct (rr_failed r); [done|]. destruct (rr_records r) as [rec|].
  - unfold Records_open, Operation, Records_open_with.
    destruct (Records_check_encoded rec enc) as [off|]; [|done].
    destruct (Records_next_key rec) as [rec1 [[key nonce]|]]; [|done].
    destruct (from_key key) as [ci|]; [|done]. destruct (decrypt _ _ _ _) as [sealed [[]|]]; [|done].
    destruct (Records_accept_open rec1 sealed) as [[rec2 s2] [[k c2]|]] eqn:Ha; [|done].
    intros [= <- <- <- -> ->]. apply accept_open_finished in Ha as [_ Hp].
    unfold ResponseReader_open. simpl. unfold Records_open, Operation, Records_open_with, Records_check_encoded.
    rewrite Hp. simpl. eauto.
  - unfold ResponseReader_start. destruct (rr_pending r) as [n|]; [|done].
    destruct (start_header enc) as [h|]; [|done].
    assert (forall (secret buffer b1 : bytes) rec1 c1,
      Records_authenticate_start secret (rr_session_id r) n Response buffer <> (b1, Ok (rec1, Finished, c1))) as Hno.
    { intros secret buffer b1 rec1 c1. unfold Records_authenticate_start.
      destruct (start_header buffer); [|done]. destruct (Keys_new _ _ _ _) as [keys|]; [|done].
      destruct (Records_next_key _) as [rec0 [[key nonce]|]] eqn:Hk; [|done].
      destruct (SoftwareCipher_new key); [|done].
      destruct (SoftwareCipher_decrypt_now _ _ _ _) as [sealed [[]|]]; [|done].
      destruct (Records_accept_open rec0 sealed) as [[rec2 s2] [[k c2]|]] eqn:Ha; [|done].
      intros [= _ _ -> _]. apply accept_open_finished in Ha as [Hp _]. apply Hp.
      unfold Records_next_key in Hk. simpl in Hk. destruct (Keys_next _ _); by simplify_eq. }
    destruct (Peer_receive _ _ _ _ _ _) as [[p1 b1] [[[rec1 k1] c1]|]] eqn:Hrecv; [|done].
    intros [= _ _ _ -> _]. apply receive_ok_authenticated in Hrecv as [key Hkey]. by apply Hno in Hkey.
Qed.

(** A decoder between records. *)
Definition between (d : ResponseDecoder) (r : ResponseReader) : Prop :=
  rd_request d = Some r /\ rd_buffer d = [] /\ rd_needed d = 4.

Lemma record_size_bounds p n : record_size p = Ok n -> RECORD_OVERHEAD <= n <= MAX_RECORD_BYTES /\ zlen p = 4.
Proof. unfold record_size. case_all. zbool. by intros [= <-]. Qed.

Lemma feed_record sh r enc now sh' r' b kind content d s :
  ResponseReader_open sh r enc now = (sh', r', b, Ok (kind, content)) ->
  between d r -> rd_finished d = false ->
  exists d', feed (open_now now) collect sh d s enc = (sh', d', s ++ [(kind, content)], Some (Ok tt)) /\
    between d' r' /\ rd_finished d' = bool_decide (kind = Finished).
Proof.
  intros Ho (Hr & Hb & Hn) Hf. pose proof (open_framed _ _ _ _ _ _ _ _ Ho) as Hsize.
  destruct (record_size_bounds _ _ Hsize) as [[Hlo Hhi] Hl4]. unfold RECORD_OVERHEAD in Hlo.
  rewrite <- (slice_to_from enc 4). rewrite feed_app.
  rewrite feed_complete by (rewrite ?Hb, ?Hn; done || (zlen_norm; lia)).
  rewrite Hn, Hb. simpl (_ =? _). rewrite app_nil_l, Hsize. simpl and_then.
  assert (zlen (slice_to enc 4) + zlen (slice_from enc 4) = zlen enc) as Hsum
    by (by rewrite <- zlen_app, slice_to_from).
  rewrite feed_complete; simpl; [|done|lia|lia]. rewrite (proj2 (Z.eqb_neq _ _)) by lia.
  rewrite slice_to_from. unfold take_record. simpl. rewrite Hr. unfold open_now. rewrite Ho. simpl.
  eexists. split; [done|]. done.
Qed.

Lemma feed_responses encs sh r now sh' r' msgs d s :
  open_responses sh r encs now = (sh', r', Ok msgs) -> between d r -> rd_finished d = false ->
  exists d', feed (open_now now) collect sh d s (concat encs) = (sh', d', s ++ msgs, Some (Ok tt)) /\
    between d' r'.
Proof.
  revert sh r msgs d s. induction encs as [|enc encs IH]; intros sh r msgs d s; simpl.
  { intros [= <- <- <-] Hd _. rewrite app_nil_r. eauto. }
  destruct (ResponseReader_open sh r enc now) as [[[sh1 r1] b] [[k c]|]] eqn:Ho; [|done].
  destruct (open_responses sh1 r1 encs now) as [[sh2 r2] [msgs'|]] eqn:Hrest; [|done].
  intros [= <- <- <-] Hd Hf. destruct (feed_record _ _ _ _ _ _ _ _ _ _ s Ho Hd Hf) as (d1 & Hfeed & Hd1 & Hf1).
  rewrite feed_app, Hfeed. simpl. case_bool_decide as Hk.
  - subst k. destruct encs as [|enc' encs].
    + simpl in Hrest. simplify_eq. simpl. eauto.
    + destruct (open_finished _ _ _ _ _ _ _ _ enc' Ho) as (out & Hout & e & He). simpl in Hrest.
      rewrite Hout in Hrest. destruct out as [[[? ?] ?] ?]. simpl in He. by subst.
  - destruct (IH _ _ _ d1 (s ++ [(k, c)]) Hrest Hd1 Hf1) as (d' & -> & Hd').
    exists d'. split; [|done]. by rewrite <- app_assoc.
Qed.

(** The decoder delivers what the reader opens: when the records of a response
    open one after the other to some messages, then pushing their bytes in any
    fragmentation emits exactly these messages in order, leaves nothing buffered, and
    finishing reports what the reader reports. *)
Theorem decoder_delivers sh r encs now sh' r' msgs chunks :
  open_responses sh r encs now = (sh', r', Ok msgs) -> concat chunks = concat encs ->
  exists d, push_all collect sh (ResponseDecoder_from_reader r) [] chunks now = (sh', d, msgs, Ok tt) /\
    rd_buffer d = [] /\
    (ResponseDecoder_finish sh' d).2 = (ResponseReader_complete sh' r').2.
Proof.
  intros Ho Hc. destruct (from_reader_wf r) as [Hwf Hsome].
  destruct (feed_responses _ _ _ _ _ _ _ (ResponseDecoder_from_reader r) [] Ho) as (d & Hf & Hr & Hb & Hn);
    [done|done|].
  exists d. rewrite push_all_feed, Hc, Hf by done. split_and!; [done|done|].
  unfold ResponseDecoder_finish. rewrite Hr, Hb. by destruct (ResponseReader_complete _ _) as [[? ?] ?].
Qed.

End Delivery.
