(* ===== verification/Signing.v ===== *)
(** Composite signatures: [signing.rs] and [signing/mldsa.rs]. ML-DSA-65 and Ed25519
    both sign one representative of the message and both must verify. *)

From S2P Require Import Prelude Primitives.

Open Scope Z_scope.

(** ** Component algorithms *)

(** [libcrux_ml_dsa::ml_dsa_65] and [ed25519_dalek] with strict verification. *)
Class Signatures := {
  ml_dsa_generate (seed : bytes) : bytes * bytes;
  ml_dsa_sign (secret message context randomness : bytes) : option bytes;
  ml_dsa_verify (public message context signature : bytes) : bool;
  ed25519_public (secret : bytes) : bytes;
  ed25519_sign (secret message : bytes) : bytes;
  ed25519_verify_strict (public message signature : bytes) : bool
}.

(** Encoded sizes, and that what a generated key signs verifies under its public half. *)
Class SignatureLaws `{Signatures} : Prop := {
  ml_dsa_public_length seed : zlen (ml_dsa_generate seed).2 = 1952;
  ml_dsa_signature_length sk m c r s : ml_dsa_sign sk m c r = Some s -> zlen s = 3309;
  ml_dsa_correct seed m c r s :
    ml_dsa_sign (ml_dsa_generate seed).1 m c r = Some s ->
    ml_dsa_verify (ml_dsa_generate seed).2 m c s = true;
  ed25519_public_length sk : zlen (ed25519_public sk) = 32;
  ed25519_signature_length sk m : zlen (ed25519_sign sk m) = 64;
  ed25519_correct sk m : ed25519_verify_strict (ed25519_public sk) m (ed25519_sign sk m) = true
}.

(** [base64::URL_SAFE_NO_PAD]: decoding inverts encoding, which is ASCII and has four
    characters for three bytes, rounded up. *)
Class Base64 := {
  base64url_encode : bytes -> bytes;
  base64url_decode : bytes -> option bytes
}.

Class Base64Laws `{Base64} : Prop := {
  base64url_roundtrip b : base64url_decode (base64url_encode b) = Some b;
  base64url_length b : zlen (base64url_encode b) = (4 * zlen b + 2) / 3;
  base64url_ascii b : Forall (fun c => byte_to_Z c < 128) (base64url_encode b)
}.

Definition MLDSA_PUBLIC_KEY_BYTES : Z := 1952.
Definition MLDSA_SIGNATURE_BYTES : Z := 3309.
Definition SIGNING_PUBLIC_KEY_BYTES : Z := MLDSA_PUBLIC_KEY_BYTES + 32.
Definition SIGNATURE_BYTES : Z := MLDSA_SIGNATURE_BYTES + 64.
Definition SIGNING_PREFIX : bytes := ascii "CompositeAlgorithmSignatures2025".
Definition LABEL : bytes := ascii "COMPSIG-MLDSA65-Ed25519-SHA512".
Definition REPRESENTATIVE_BYTES : Z := zlen SIGNING_PREFIX + zlen LABEL + 1 + 64.

Inductive SigningError : Type :=
| SgTooLarge | SgLength | SgPublicKey | SgSubmissionKey | SgContext | SgVerification | SgSigning
| SgRandomness.

Section Signing.
Context `{Signatures} `{Hash}.

(** The loop fills an array from the chained parts, which have exactly its length. *)
Definition representative (message : bytes) : bytes :=
  slice_to (SIGNING_PREFIX ++ LABEL ++ [x00] ++ sha512 message) REPRESENTATIVE_BYTES.

(** ** signing/mldsa.rs *)

Record MldsaSigningKey : Type := { mk_secret : bytes; mk_public : bytes }.

Definition MldsaSigningKey_from_seed (seed : bytes) : MldsaSigningKey :=
  {| mk_secret := (ml_dsa_generate seed).1; mk_public := (ml_dsa_generate seed).2 |}.

Definition MldsaSigningKey_generate `{Random} (g : rng) : rng * result MldsaSigningKey SigningError :=
  match rng_fill g 32 with
  | (g, None) => (g, Err SgRandomness)
  | (g, Some seed) => (g, Ok (MldsaSigningKey_from_seed seed))
  end.

Definition check_context (context : bytes) : result unit SigningError :=
  reject 255 <? zlen context with SgContext; Ok tt.

Definition sign_with_randomness (k : MldsaSigningKey) (message context randomness : bytes)
  : result bytes SigningError :=
  let? _ := check_context context in
  ok_or (ml_dsa_sign (mk_secret k) message context randomness) SgSigning.

Definition MldsaSigningKey_sign `{Random} (k : MldsaSigningKey) (message context : bytes) (g : rng)
  : rng * result bytes SigningError :=
  match rng_fill g 32 with
  | (g, None) => (g, Err SgRandomness)
  | (g, Some randomness) => (g, sign_with_randomness k message context randomness)
  end.

Definition mldsa_verify (public_key message context signature : bytes) : result unit SigningError :=
  let? _ := check_context context in
  reject negb (zlen public_key =? MLDSA_PUBLIC_KEY_BYTES) with SgLength;
  reject negb (zlen signature =? MLDSA_SIGNATURE_BYTES) with SgLength;
  reject negb (ml_dsa_verify public_key message context signature) with SgVerification;
  Ok tt.

(** ** signing.rs *)

Record SigningKey : Type := { sk_mldsa : MldsaSigningKey; sk_ed25519 : bytes; sk_public : bytes }.

Definition SigningKey_from_seeds (mldsa_seed ed25519_secret : bytes) : SigningKey :=
  let mldsa := MldsaSigningKey_from_seed mldsa_seed in
  {| sk_mldsa := mldsa;
     sk_ed25519 := ed25519_secret;
     sk_public := mk_public mldsa ++ ed25519_public ed25519_secret |}.

Definition SigningKey_sign `{Random} (k : SigningKey) (message : bytes) (g : rng)
  : rng * result bytes SigningError :=
  let m := representative message in
  match MldsaSigningKey_sign (sk_mldsa k) m LABEL g with
  | (g, Err e) => (g, Err e)
  | (g, Ok mldsa_signature) => (g, Ok (mldsa_signature ++ ed25519_sign (sk_ed25519 k) m))
  end.

(** The Ed25519 key conversion, its weak-key check and the signature decoding are part
    of strict verification. *)
Definition signing_verify (public_key message signature : bytes) : result unit SigningError :=
  reject negb (zlen public_key =? SIGNING_PUBLIC_KEY_BYTES) || negb (zlen signature =? SIGNATURE_BYTES)
    with SgLength;
  let mldsa_key := slice_to public_key MLDSA_PUBLIC_KEY_BYTES in
  let ed25519_key := slice_from public_key MLDSA_PUBLIC_KEY_BYTES in
  let mldsa_signature := slice_to signature MLDSA_SIGNATURE_BYTES in
  let ed25519_signature := slice_from signature MLDSA_SIGNATURE_BYTES in
  let m := representative message in
  let? _ := mldsa_verify mldsa_key m LABEL mldsa_signature in
  reject negb (ed25519_verify_strict ed25519_key m ed25519_signature) with SgVerification;
  Ok tt.

End Signing.

(** ** Signatures verify *)

Section SigningTheory.
Context `{SignatureLaws} `{Hash}.

(** Both components under the halves of a composite key. *)
Lemma signature_parts_verify seed1 seed2 message r s :
  ml_dsa_sign (ml_dsa_generate seed1).1 (representative message) LABEL r = Some s ->
  let joined := s ++ ed25519_sign seed2 (representative message) in
  signing_verify (sk_public (SigningKey_from_seeds seed1 seed2)) message joined = Ok tt
  /\ zlen joined = SIGNATURE_BYTES.
Proof.
  intros Hs joined.
  pose proof (ml_dsa_signature_length _ _ _ _ _ Hs) as Hsl. pose proof (ml_dsa_public_length seed1) as Hpl.
  assert (zlen joined = SIGNATURE_BYTES) as Hz
    by (unfold joined; rewrite zlen_app, Hsl, ed25519_signature_length; done).
  split; [|done]. unfold signing_verify. rewrite Hz. cbn [sk_public SigningKey_from_seeds MldsaSigningKey_from_seed mk_public].
  rewrite zlen_app, Hpl, ed25519_public_length. change (1952 + 32 =? SIGNING_PUBLIC_KEY_BYTES) with true.
  change (SIGNATURE_BYTES =? SIGNATURE_BYTES) with true. cbn match. simpl orb. cbn match.
  unfold joined. rewrite !slice_to_app, !slice_from_app by (by rewrite ?Hsl, ?Hpl).
  unfold mldsa_verify. change (check_context LABEL) with (@Ok unit SigningError tt). cbn match.
  rewrite Hpl, Hsl. change (1952 =? MLDSA_PUBLIC_KEY_BYTES) with true.
  change (3309 =? MLDSA_SIGNATURE_BYTES) with true. simpl negb. cbn match.
  rewrite (ml_dsa_correct _ _ _ _ _ Hs). simpl. by rewrite ed25519_correct.
Qed.

Lemma sign_verify `{Random} seed1 seed2 message g g' signature :
  SigningKey_sign (SigningKey_from_seeds seed1 seed2) message g = (g', Ok signature) ->
  signing_verify (sk_public (SigningKey_from_seeds seed1 seed2)) message signature = Ok tt /\
  zlen signature = SIGNATURE_BYTES.
Proof.
  unfold SigningKey_sign, MldsaSigningKey_sign, sign_with_randomness. cbn [sk_mldsa SigningKey_from_seeds sk_ed25519].
  destruct (rng_fill g 32) as [g1 [rnd|]]; [|done]. change (check_context LABEL) with (@Ok unit SigningError tt).
  cbn match. destruct (ml_dsa_sign _ _ _ _) as [s|] eqn:Hs; [|done]. simpl ok_or. intros [= <- <-].
  by apply signature_parts_verify with (r := rnd).
Qed.

(** Acceptance needs both components. *)
Lemma signing_verify_ok public_key message signature :
  signing_verify public_key message signature = Ok tt ->
  ml_dsa_verify (slice_to public_key MLDSA_PUBLIC_KEY_BYTES) (representative message) LABEL
    (slice_to signature MLDSA_SIGNATURE_BYTES) = true /\
  ed25519_verify_strict (slice_from public_key MLDSA_PUBLIC_KEY_BYTES) (representative message)
    (slice_from signature MLDSA_SIGNATURE_BYTES) = true.
Proof. unfold signing_verify, mldsa_verify. case_all. intros _. zbool. done. Qed.

End SigningTheory.
