(* ===== verification/Attestation.v ===== *)
(** Channel attestations: [attestation.rs] (bindings, batch proofs, RFC 9162 trees),
    [attestation/evidence.rs] (session evidence framing), [attestation/certificate.rs]
    (the certificate extension and validity), [attestation/identity.rs] (node names)
    and the producers in [gateway.rs] that build leaves, batches and evidence. *)

From S2P Require Import Prelude Primitives Signing.

Open Scope Z_scope.

Inductive Environment : Type := Production | Staging.

#[export] Instance Environment_eq_dec : EqDecision Environment.
Proof. solve_decision. Defined.

(** ** attestation.rs *)

Definition MAX_BATCH_LEAVES : Z := 1024.
Definition MAX_PROOF_HASHES : Z := 10.
Definition BATCH_DOMAIN : bytes := ascii "stogas.quote-batch.v1" ++ [x00].
Definition TLS_DOMAIN : bytes := ascii "stogas.native-tls.v1" ++ [x00].
Definition E2EE_DOMAIN : bytes := ascii "stogas.e2ee-session.v1" ++ [x00].

Inductive Binding : Type :=
| NativeTls (environment : Environment) (boot_evidence_sha256 challenge signer_spki_sha256 : bytes)
| E2eeSession (environment : Environment) (boot_evidence_sha256 transcript_sha256 : bytes).

Definition environment_byte (e : Environment) : byte :=
  match e with Production => x01 | Staging => x02 end.

(** The bytes hashed into a leaf. *)
Definition leaf_string (b : Binding) : bytes :=
  [x00] ++
  match b with
  | NativeTls env boot challenge spki =>
      TLS_DOMAIN ++ [environment_byte env] ++ boot ++ challenge ++ spki
  | E2eeSession env boot transcript => E2EE_DOMAIN ++ [environment_byte env] ++ boot ++ transcript
  end.

Inductive ProofError : Type := PLength | PShape | PBinding.

Record BatchProof : Type := {
  bp_leaf_count : Z;
  bp_leaf_index : Z;
  bp_siblings : list bytes
}.

(** [1 << (n - 1).ilog2()]: the size of the left subtree of [n] leaves. *)
Definition split_size (n : Z) : Z := Z.shiftl 1 (Z.log2 (n - 1)).

(** The loop of [from_bytes] that counts the levels above a leaf. *)
Fixpoint path_depth (fuel : nat) (count index depth : Z) : Z :=
  match fuel with
  | O => depth
  | S fuel =>
      if 1 <? count then
        let k := split_size count in
        if index <? k then path_depth fuel k index (depth + 1)
        else path_depth fuel (count - k) (index - k) (depth + 1)
      else depth
  end.

(** [chunks_exact(64)]. *)
Fixpoint chunks (fuel : nat) (size : Z) (l : bytes) : list bytes :=
  match fuel with
  | O => []
  | S fuel =>
      if zlen l <? size then [] else slice_to l size :: chunks fuel size (slice_from l size)
  end.

Definition BatchProof_from_bytes (b : bytes) : result BatchProof ProofError :=
  reject (zlen b <? 4) || (4 + 64 * MAX_PROOF_HASHES <? zlen b) || negb ((zlen b - 4) mod 64 =? 0)
    with PLength;
  let leaf_count := be_value (slice b 0 2) in
  let leaf_index := be_value (slice b 2 4) in
  reject (leaf_count =? 0) || (MAX_BATCH_LEAVES <? leaf_count) || (leaf_count <=? leaf_index)
    with PShape;
  let depth := path_depth (Z.to_nat leaf_count) leaf_count leaf_index 0 in
  reject negb (depth =? (zlen b - 4) / 64) with PShape;
  Ok {| bp_leaf_count := leaf_count;
        bp_leaf_index := leaf_index;
        bp_siblings := chunks (length b) 64 (slice_from b 4) |}.

Definition BatchProof_to_bytes (p : BatchProof) : bytes :=
  u16_be (bp_leaf_count p) ++ u16_be (bp_leaf_index p) ++ concat (bp_siblings p).

(** The inner loop of [verify_leaf] on 16-bit values. *)
Fixpoint skip_levels (fuel : nat) (index last : Z) : Z * Z :=
  match fuel with
  | O => (index, last)
  | S fuel =>
      if negb (index =? 0) && (Z.land index 1 =? 0)
      then skip_levels fuel (Z.shiftr index 1) (Z.shiftr last 1)
      else (index, last)
  end.

(** The bytes hashed into an inner node and into the report data. *)
Definition node_string (left right : bytes) : bytes := [x01] ++ left ++ right.
Definition batch_string (leaf_count : Z) (root : bytes) : bytes :=
  BATCH_DOMAIN ++ u16_be leaf_count ++ root.

(** The tree algorithms are written over the function [node] that combines two
    subtrees; the program uses [parent_hash]. *)
Section Nodes.
Context {A : Type} (node : A -> A -> A).

(** One sibling of the path in [verify_leaf]. *)
Definition climb_step (index last : Z) (root sibling : A) : Z * Z * A :=
  if negb (Z.land index 1 =? 0) || (index =? last) then
    let (index, last) := skip_levels 16 index last in
    (Z.shiftr index 1, Z.shiftr last 1, node sibling root)
  else (Z.shiftr index 1, Z.shiftr last 1, node root sibling).

Fixpoint climb (index last : Z) (root : A) (siblings : list A) : Z * Z * A :=
  match siblings with
  | [] => (index, last, root)
  | sibling :: siblings =>
      let '(index, last, root) := climb_step index last root sibling in
      climb index last root siblings
  end.

(** [subtree]: the root, and every path with the siblings of its leaf pushed. The
    number of leaves is enough fuel, since both halves are shorter; the source is
    only called with leaves. *)
Fixpoint subtree (fuel : nat) (leaves : list A) (paths : list (list A)) : option (A * list (list A)) :=
  match leaves, fuel with
  | [leaf], _ => Some (leaf, paths)
  | _, O => None
  | _, S fuel =>
      let split := split_size (zlen leaves) in
      match subtree fuel (slice_to leaves split) (slice_to paths split),
            subtree fuel (slice_from leaves split) (slice_from paths split) with
      | Some (l, lpaths), Some (r, rpaths) =>
          Some (node l r,
            ((fun path => path ++ [r]) <$> lpaths) ++ ((fun path => path ++ [l]) <$> rpaths))
      | _, _ => None
      end
  end.

End Nodes.

Section Trees.
Context `{Hash}.

Definition Binding_leaf_hash (b : Binding) : bytes := sha512 (leaf_string b).

Definition parent_hash (left right : bytes) : bytes := sha512 (node_string left right).

Definition batch_report_data (leaf_count : Z) (root : bytes) : bytes :=
  sha512 (batch_string leaf_count root).

Definition BatchProof_verify_leaf (p : BatchProof) (leaf report_data : bytes) : result unit ProofError :=
  let '(_, last, root) :=
    climb parent_hash (bp_leaf_index p) (bp_leaf_count p - 1) leaf (bp_siblings p) in
  reject negb (last =? 0) || negb (bool_decide (batch_report_data (bp_leaf_count p) root = report_data))
    with PBinding;
  Ok tt.

Definition BatchProof_verify (p : BatchProof) (b : Binding) (report_data : bytes)
  : result unit ProofError := BatchProof_verify_leaf p (Binding_leaf_hash b) report_data.

(** gateway.rs *)
Definition tls_leaf (environment : Environment) (boot_sha256 challenge signer_spki_sha256 : bytes) : bytes :=
  Binding_leaf_hash (NativeTls environment boot_sha256 challenge signer_spki_sha256).

Definition e2ee_leaf (environment : Environment) (boot_sha256 transcript_sha256 : bytes) : bytes :=
  Binding_leaf_hash (E2eeSession environment boot_sha256 transcript_sha256).

Inductive GatewayError : Type := Input (reason : bytes) | GAuthentication | GSigning (e : SigningError).

Definition quote_batch (leaves : list bytes) : result (bytes * list BatchProof) GatewayError :=
  let count := zlen leaves in
  reject (count <? 1) || (MAX_BATCH_LEAVES <? count) with Input (ascii "quote batch size");
  let? (root, siblings) := ok_or (subtree parent_hash (length leaves) leaves (replicate (length leaves) []))
    (Input (ascii "quote batch size")) in
  let proofs := imap (fun index siblings =>
    {| bp_leaf_count := count; bp_leaf_index := Z.of_nat index; bp_siblings := siblings |}) siblings in
  Ok (batch_report_data count root, proofs).

End Trees.

(** ** attestation/evidence.rs *)

Definition MAX_EVIDENCE_BYTES : Z := 58 * 1024.
Definition REPORT_BYTES : Z := 1184.

Inductive EvidenceError : Type := ETooLarge | EFraming | EProof (e : ProofError).

Record SessionEvidence : Type := {
  se_report : bytes;
  se_proof : BatchProof;
  se_boot_document : bytes;
  se_boot_inclusion : bytes
}.

(** [split_at_checked]: the value and the remaining input. *)
Definition take_bytes (input : bytes) (length : Z) : result (bytes * bytes) EvidenceError :=
  reject zlen input <? length with EFraming;
  Ok (slice_to input length, slice_from input length).

Definition take_field (input : bytes) : result (bytes * bytes) EvidenceError :=
  let? (prefix, input) := take_bytes input 4 in
  let length := be_value prefix in
  reject length =? 0 with EFraming;
  take_bytes input length.

Definition SessionEvidence_from_bytes (payload : bytes) : result SessionEvidence EvidenceError :=
  reject MAX_EVIDENCE_BYTES <? zlen payload with ETooLarge;
  let? (report, payload) := take_bytes payload REPORT_BYTES in
  let? (proof_len, payload) := take_bytes payload 2 in
  let? (proof_bytes, payload) := take_bytes payload (be_value proof_len) in
  let? proof := map_err EProof (BatchProof_from_bytes proof_bytes) in
  let? (boot_document, payload) := take_field payload in
  let? (boot_inclusion, payload) := take_field payload in
  reject negb (zlen payload =? 0) with EFraming;
  Ok {| se_report := report; se_proof := proof; se_boot_document := boot_document;
        se_boot_inclusion := boot_inclusion |}.

Definition SessionEvidence_encode (report : bytes) (proof : BatchProof)
    (boot_document boot_inclusion : bytes) : result bytes EvidenceError :=
  let proof := BatchProof_to_bytes proof in
  reject negb (zlen report =? REPORT_BYTES) || (zlen boot_document =? 0) || (zlen boot_inclusion =? 0)
    with EFraming;
  let size := REPORT_BYTES + 2 + zlen proof + 4 + zlen boot_document + 4 + zlen boot_inclusion in
  reject MAX_EVIDENCE_BYTES <? size with ETooLarge;
  reject u16_max <? zlen proof with EFraming;
  reject (u32_max <? zlen boot_document) || (u32_max <? zlen boot_inclusion) with EFraming;
  Ok (report ++ u16_be (zlen proof) ++ proof
      ++ u32_be (zlen boot_document) ++ boot_document
      ++ u32_be (zlen boot_inclusion) ++ boot_inclusion).

(** ** attestation/certificate.rs *)

Definition MEDIA_TYPE : bytes := ascii "application/vnd.stogas.native-tls.v1".

Inductive CertificateError : Type :=
| CEvidence (e : EvidenceError) | CCertificate | CExtension | CTooLarge | CFraming
| CProof (e : ProofError).

Definition SessionEvidence_from_extension (encoded : bytes) : result SessionEvidence CertificateError :=
  reject MAX_EVIDENCE_BYTES + zlen MEDIA_TYPE + 10 <? zlen encoded with CTooLarge;
  reject (zlen encoded <? 4) || negb (bool_decide (slice_to encoded 2 = [x04; x82])) with CExtension;
  let der_length := be_value (slice encoded 2 4) in
  reject negb (der_length =? zlen encoded - 4) with CExtension;
  let cmw := slice_from encoded 4 in
  let prefix_len := 3 + zlen MEDIA_TYPE + 3 in
  reject (zlen cmw <? prefix_len)
      || negb (bool_decide (slice_to cmw 3 = [x82; x78; byte_of_Z (zlen MEDIA_TYPE)]))
      || negb (bool_decide (slice cmw 3 (3 + zlen MEDIA_TYPE) = MEDIA_TYPE))
      || negb (bool_decide (slice cmw (3 + zlen MEDIA_TYPE) (3 + zlen MEDIA_TYPE + 1) = [x59]))
    with CExtension;
  let size := be_value (slice cmw (prefix_len - 2) prefix_len) in
  reject MAX_EVIDENCE_BYTES <? size with CTooLarge;
  reject negb (size =? zlen cmw - prefix_len) with CFraming;
  map_err CEvidence (SessionEvidence_from_bytes (slice_from cmw prefix_len)).

Definition SessionEvidence_extension (payload : bytes) : result bytes CertificateError :=
  reject MAX_EVIDENCE_BYTES <? zlen payload with CTooLarge;
  reject u16_max <? zlen payload with CTooLarge;
  let cmw := [x82; x78; byte_of_Z (zlen MEDIA_TYPE)] ++ MEDIA_TYPE ++ [x59]
             ++ u16_be (zlen payload) ++ payload in
  reject u16_max <? zlen cmw with CTooLarge;
  Ok ([x04; x82] ++ u16_be (zlen cmw) ++ cmw).

Definition SessionEvidence_verify_channel_binding `{Hash} (e : SessionEvidence)
    (environment : Environment) (challenge signer_spki_sha256 : bytes) : result unit CertificateError :=
  reject zlen (se_report e) <? 144 with CFraming;
  map_err CProof (BatchProof_verify (se_proof e)
    (NativeTls environment (sha256 (se_boot_document e)) challenge signer_spki_sha256)
    (slice (se_report e) 80 144)).

(** gateway.rs *)
Definition session_evidence (report proof boot_document boot_inclusion : bytes) (certificate : bool)
  : result bytes GatewayError :=
  let? proof := map_err (fun _ => Input (ascii "quote proof")) (BatchProof_from_bytes proof) in
  let? payload := map_err (fun _ => Input (ascii "session evidence"))
    (SessionEvidence_encode report proof boot_document boot_inclusion) in
  if certificate
  then map_err (fun _ => Input (ascii "session evidence")) (SessionEvidence_extension payload)
  else Ok payload.

(** ** attestation/identity.rs *)

Definition ADJECTIVES : list bytes :=
  [ascii "amber"; ascii "bright"; ascii "clear"; ascii "direct"; ascii "early"; ascii "firm";
   ascii "green"; ascii "high"; ascii "inner"; ascii "level"; ascii "prime"; ascii "quiet";
   ascii "ready"; ascii "solid"; ascii "steady"; ascii "true"].
Definition NOUNS : list bytes :=
  [ascii "anchor"; ascii "beacon"; ascii "bridge"; ascii "forge"; ascii "guard"; ascii "harbor";
   ascii "index"; ascii "keystone"; ascii "ledger"; ascii "marker"; ascii "nexus"; ascii "pivot";
   ascii "relay"; ascii "signal"; ascii "vector"; ascii "watch"].

(** [hex::encode]: two lower-case digits per byte. *)
Definition hex_digit (n : Z) : byte := if n <? 10 then byte_of_Z (48 + n) else byte_of_Z (87 + n).
Definition hex_byte (b : byte) : bytes :=
  [hex_digit (Z.shiftr (byte_to_Z b) 4); hex_digit (Z.land (byte_to_Z b) 15)].
Definition hex_encode (l : bytes) : bytes := concat (hex_byte <$> l).

Definition snp_node_id (report_id : bytes) : bytes :=
  let first := byte_to_Z (hd x00 report_id) in
  nth (Z.to_nat (Z.shiftr first 4)) ADJECTIVES [] ++ ascii "-"
  ++ nth (Z.to_nat (Z.land first 15)) NOUNS [] ++ ascii "-" ++ hex_encode report_id.
