(* ===== verification/MerkleTheory.v ===== *)
(** The iterative RFC 9162 verifier climbs exactly the path of the recursive tree. *)

From S2P Require Import Prelude Primitives Attestation.

Open Scope Z_scope.

(** ** Sizes of subtrees *)

Lemma split_size_pow n : 1 < n -> split_size n = 2 ^ Z.log2 (n - 1).
Proof.
  intros Hn. unfold split_size. rewrite Z.shiftl_mul_pow2, Z.mul_1_l; [done|].
  apply Z.log2_nonneg.
Qed.

Lemma split_size_bounds n : 1 < n -> 0 < split_size n < n /\ n <= 2 * split_size n.
Proof.
  intros Hn. rewrite split_size_pow by done.
  pose proof (Z.log2_spec (n - 1) ltac:(lia)) as [H1 H2].
  rewrite Z.pow_succ_r in H2 by apply Z.log2_nonneg. lia.
Qed.

(** ** Paths *)

Section Paths.
Context {A : Type} (node : A -> A -> A).

Abbreviation climb_step := (climb_step node).
Abbreviation climb := (climb node).

(** A path of [n] leaves from leaf number [i] to the root, deepest sibling first. *)
Inductive mpath : Z -> Z -> A -> list A -> A -> Prop :=
| mp_leaf leaf : mpath 1 0 leaf [] leaf
| mp_left n i leaf p l r :
    1 < n -> i < split_size n -> mpath (split_size n) i leaf p l ->
    mpath n i leaf (p ++ [r]) (node l r)
| mp_right n i leaf p l r :
    1 < n -> split_size n <= i -> mpath (n - split_size n) (i - split_size n) leaf p r ->
    mpath n i leaf (p ++ [l]) (node l r).

Lemma mpath_range n i leaf p root : mpath n i leaf p root -> 1 <= n /\ 0 <= i < n.
Proof.
  induction 1; [lia|..]; pose proof (split_size_bounds n ltac:(done)); lia.
Qed.

Lemma climb_app index top root p q :
  climb index top root (p ++ q) =
  let '(index, top, root) := climb index top root p in climb index top root q.
Proof.
  revert index top root. induction p as [|s p IH]; intros index top root; simpl; [done|].
  destruct (climb_step index top root s) as [[i l] r]. apply IH.
Qed.

Lemma land_1 z : Z.land z 1 = z mod 2.
Proof. change 1 with (Z.ones 1). by rewrite Z.land_ones. Qed.

Lemma shiftr_1 z : Z.shiftr z 1 = z / 2.
Proof. by rewrite Z.shiftr_div_pow2. Qed.

Lemma climb_step_left index top root s :
  index mod 2 = 0 -> index <> top ->
  climb_step index top root s = (index / 2, top / 2, node root s).
Proof.
  intros Hm Hne. unfold climb_step. rewrite land_1, Hm, (proj2 (Z.eqb_neq index top)) by done.
  by rewrite !shiftr_1.
Qed.

Lemma climb_step_odd index top root s :
  index mod 2 = 1 -> climb_step index top root s = (index / 2, top / 2, node s root).
Proof.
  intros Hm. unfold climb_step. rewrite land_1, Hm. simpl.
  rewrite land_1, Hm, andb_false_r. by rewrite !shiftr_1.
Qed.

(** Levels without a sibling are skipped down to the odd part. *)
Lemma skip_levels_odd fuel a e :
  a mod 2 = 1 -> 0 < a -> (Z.to_nat e <= fuel)%nat -> 0 <= e ->
  skip_levels fuel (a * 2 ^ e) (a * 2 ^ e) = (a, a).
Proof.
  intros Ha Hpos. revert e. induction fuel as [|fuel IH]; intros e Hf He; simpl.
  { assert (e = 0) as -> by lia. by rewrite Z.pow_0_r, Z.mul_1_r. }
  rewrite land_1. destruct (decide (e = 0)) as [->|Hne].
  - rewrite Z.pow_0_r, Z.mul_1_r, Ha, andb_false_r. done.
  - assert (a * 2 ^ e = (a * 2 ^ (e - 1)) * 2) as E.
    { replace e with (Z.succ (e - 1)) at 1 by lia. rewrite Z.pow_succ_r by lia. lia. }
    rewrite E, Z.mod_mul by lia. pose proof (Z.pow_pos_nonneg 2 (e - 1)).
    rewrite (proj2 (Z.eqb_neq _ _)) by nia. simpl. rewrite shiftr_1, Z.div_mul by lia.
    apply IH; lia.
Qed.

Lemma climb_step_last a e root s :
  a mod 2 = 1 -> 0 < a -> 0 <= e <= 16 ->
  climb_step (a * 2 ^ e) (a * 2 ^ e) root s = (a / 2, a / 2, node s root).
Proof.
  intros Ha Hpos He. unfold climb_step. rewrite Z.eqb_refl, orb_true_r.
  rewrite skip_levels_odd by (done || lia). by rewrite shiftr_1.
Qed.

(** ** The verifier climbs the tree *)

(** Inside a full subtree that is not at the right edge, levels follow the bits. *)
Lemma climb_full d i leaf p root a top :
  0 <= d -> mpath (2 ^ d) i leaf p root -> 0 <= a -> a < top / 2 ^ d ->
  climb (a * 2 ^ d + i) top leaf p = (a, top / 2 ^ d, root).
Proof.
  intros Hd. revert i leaf p root a top. pattern d. apply natlike_ind; [| |done]; clear d Hd.
  - intros i leaf p root a top Hm Ha Hl. inversion Hm; subst; try lia. simpl.
    rewrite Z.div_1_r in *. f_equal. f_equal. lia.
  - intros d Hd IH i leaf p root a top Hm Ha Hl. pose proof (Z.pow_pos_nonneg 2 d ltac:(lia) Hd) as Hpos.
    rewrite Z.pow_succ_r in * by lia.
    assert (split_size (2 * 2 ^ d) = 2 ^ d) as Hsplit.
    { rewrite split_size_pow by lia. f_equal. apply Z.log2_unique; [done|]. rewrite Z.pow_succ_r by lia. lia. }
    assert (top / (2 * 2 ^ d) = top / 2 ^ d / 2) as Hdiv by (rewrite Z.div_div by lia; f_equal; lia).
    pose proof (Z.div_mod (top / 2 ^ d) 2 ltac:(lia)). pose proof (Z.mod_pos_bound (top / 2 ^ d) 2 ltac:(lia)).
    inversion Hm as [|n' i' leaf' p' l r Hn Hi Hsub|n' i' leaf' p' l r Hn Hi Hsub]; subst; [lia|..];
      rewrite Hsplit in *; rewrite climb_app.
    + replace (a * (2 * 2 ^ d) + i) with ((2 * a) * 2 ^ d + i) by lia.
      rewrite (IH _ _ _ _ (2 * a) top Hsub) by lia. simpl.
      rewrite climb_step_left; [|rewrite Z.mul_comm; apply Z.mod_mul; lia|lia].
      rewrite Hdiv. repeat f_equal. rewrite Z.mul_comm, Z.div_mul; lia.
    + replace (2 * 2 ^ d - 2 ^ d) with (2 ^ d) in Hsub by lia.
      replace (a * (2 * 2 ^ d) + i) with ((2 * a + 1) * 2 ^ d + (i - 2 ^ d)) by lia.
      rewrite (IH _ _ _ _ (2 * a + 1) top Hsub) by lia. simpl.
      rewrite climb_step_odd by (rewrite Z.add_comm, Z.mul_comm, Z.mod_add by lia; done).
      rewrite Hdiv. repeat f_equal. rewrite Z.add_comm, Z.mul_comm, Z.div_add by lia. done.
Qed.

Lemma log2_exp n e : 1 < n -> n - 1 < 2 ^ e -> 0 <= e -> 0 <= Z.log2 (n - 1) < e.
Proof. intros. split; [apply Z.log2_nonneg|]. apply Z.log2_lt_pow2; lia. Qed.

(** A power of two above a level: its half and its parity. *)
Lemma pow_split a e d : 0 <= d < e -> a * 2 ^ e = a * 2 ^ (e - d - 1) * 2 * 2 ^ d.
Proof.
  intros. replace e with ((e - d - 1) + 1 + d) at 1 by lia.
  rewrite !Z.pow_add_r by lia. lia.
Qed.

(** At the right edge the counter keeps the bits above the subtree. *)
Lemma climb_edge n i leaf p root :
  mpath n i leaf p root ->
  forall a e, n - 1 < 2 ^ e -> 0 <= e <= 16 -> 1 <= a ->
  exists e', 0 <= e' <= 16 /\
    climb (a * 2 ^ e + i) (a * 2 ^ e + (n - 1)) leaf p = (a * 2 ^ e', a * 2 ^ e', root).
Proof.
  induction 1 as [leaf|n i leaf p l r Hn Hi Hsub _|n i leaf p l r Hn Hi Hsub IH]; intros a e Hlt He Ha.
  { exists e. split; [done|]. simpl. repeat f_equal; lia. }
  all: destruct (log2_exp n e Hn Hlt ltac:(lia)) as [Hd0 Hde].
  all: pose proof (Z.log2_spec (n - 1) ltac:(lia)) as [Hlow Hhigh].
  all: rewrite split_size_pow in * by done; set (d := Z.log2 (n - 1)) in *.
  all: rewrite Z.pow_succ_r in Hhigh by lia; pose proof (Z.pow_pos_nonneg 2 d ltac:(lia) Hd0) as Hpos.
  all: pose proof (pow_split a e d ltac:(lia)) as Hsplit; set (b := a * 2 ^ (e - d - 1)) in *.
  all: pose proof (Z.pow_pos_nonneg 2 (e - d - 1) ltac:(lia) ltac:(lia)).
  all: exists (e - d - 1); split; [lia|]; rewrite climb_app, Hsplit.
  - assert ((b * 2 * 2 ^ d + (n - 1)) / 2 ^ d = b * 2 + 1) as Hdiv.
    { rewrite Z.add_comm, Z.div_add by lia.
      replace ((n - 1) / 2 ^ d) with 1 by (apply (Z.div_unique _ _ _ (n - 1 - 2 ^ d)); lia). lia. }
    rewrite (climb_full d i leaf p l (b * 2)); [|done|done|nia|lia]. rewrite Hdiv. simpl.
    rewrite climb_step_left; [|apply Z.mod_mul; lia|lia]. rewrite Z.div_mul by lia.
    rewrite Z.add_comm, Z.div_add by lia. done.
  - destruct (IH (b * 2 + 1) d) as (e' & He' & Hclimb); [lia|lia|nia|].
    replace (b * 2 * 2 ^ d + i) with ((b * 2 + 1) * 2 ^ d + (i - 2 ^ d)) by lia.
    replace (b * 2 * 2 ^ d + (n - 1)) with ((b * 2 + 1) * 2 ^ d + (n - 2 ^ d - 1)) by lia.
    rewrite Hclimb. simpl. rewrite climb_step_last; [|rewrite Z.add_comm, Z.mod_add by lia; done|nia|lia].
    rewrite Z.add_comm, Z.div_add by lia. done.
Qed.

(** The verifier reaches the root exactly. *)
Lemma climb_root n i leaf p root :
  mpath n i leaf p root -> n <= 2 ^ 16 -> climb i (n - 1) leaf p = (0, 0, root).
Proof.
  intros Hm Hmax. destruct Hm as [leaf|n i leaf p l r Hn Hi Hsub|n i leaf p l r Hn Hi Hsub]; [done|..].
  all: destruct (log2_exp n 16 Hn ltac:(lia) ltac:(lia)) as [Hd0 Hde].
  all: pose proof (Z.log2_spec (n - 1) ltac:(lia)) as [Hlow Hhigh].
  all: rewrite split_size_pow in * by done; set (d := Z.log2 (n - 1)) in *.
  all: rewrite Z.pow_succ_r in Hhigh by lia; rewrite climb_app.
  - assert ((n - 1) / 2 ^ d = 1) as Hdiv by (symmetry; apply (Z.div_unique _ _ _ (n - 1 - 2 ^ d)); lia).
    pose proof (climb_full d i leaf p l 0 (n - 1) Hd0 Hsub ltac:(lia) ltac:(lia)) as Hclimb.
    rewrite Hdiv, Z.mul_0_l, Z.add_0_l in Hclimb. rewrite Hclimb. reflexivity.
  - destruct (climb_edge _ _ _ _ _ Hsub 1 d) as (e' & He' & Hclimb); [lia|lia|lia|].
    replace (1 * 2 ^ d + (i - 2 ^ d)) with i in Hclimb by lia.
    replace (1 * 2 ^ d + (n - 2 ^ d - 1)) with (n - 1) in Hclimb by lia.
    rewrite Hclimb. simpl climb. rewrite climb_step_last by (done || lia). done.
Qed.

End Paths.

(** * Theory

    Batch proofs: the iterative verifier follows the recursive tree, so every proof
    the gateway issues verifies, and a proof that verifies binds its channel to the
    quoted batch unless the hash function collides on the bytes involved. *)

Section Trees.
Context {A : Type} (node : A -> A -> A).

Abbreviation mpath := (mpath node).

(** ** Trees *)

Lemma subtree_many fuel (leaves : list A) paths :
  zlen leaves <> 1 ->
  subtree node (S fuel) leaves paths =
  match subtree node fuel (slice_to leaves (split_size (zlen leaves))) (slice_to paths (split_size (zlen leaves))),
        subtree node fuel (slice_from leaves (split_size (zlen leaves))) (slice_from paths (split_size (zlen leaves))) with
  | Some (l, lpaths), Some (r, rpaths) =>
      Some (node l r, ((fun path => path ++ [r]) <$> lpaths) ++ ((fun path => path ++ [l]) <$> rpaths))
  | _, _ => None
  end.
Proof.
  destruct leaves as [|x [|y leaves]]; [done|by change (zlen [x]) with 1|done].
Qed.

Lemma halves (leaves : list A) :
  1 < zlen leaves ->
  let k := split_size (zlen leaves) in
  zlen (slice_to leaves k) = k /\ zlen (slice_from leaves k) = zlen leaves - k /\
  (length (slice_to leaves k) < length leaves)%nat /\ (length (slice_from leaves k) < length leaves)%nat /\
  (0 < length (slice_to leaves k))%nat /\ (0 < length (slice_from leaves k))%nat.
Proof.
  intros Hn. pose proof (split_size_bounds _ Hn). cbv zeta. set (k := split_size _) in *.
  rewrite zlen_slice_to, zlen_slice_from by lia. unfold slice_to, slice_from, zlen in *.
  rewrite length_take, length_drop. lia.
Qed.

(** A tree is built whenever there is a leaf, and gives every leaf its path. *)
Lemma subtree_paths fuel (leaves : list A) paths :
  (0 < length leaves <= fuel)%nat -> length paths = length leaves ->
  exists root paths', subtree node fuel leaves paths = Some (root, paths') /\
    length paths' = length leaves /\
    forall j leaf path, leaves !! j = Some leaf -> paths !! j = Some path ->
      exists p, paths' !! j = Some (path ++ p) /\ mpath (zlen leaves) (Z.of_nat j) leaf p root.
Proof.
  revert leaves paths. induction fuel as [|fuel IH]; intros leaves paths Hlen Hp; [lia|].
  destruct (decide (1 < zlen leaves)) as [Hn|Hn].
  2: { destruct leaves as [|x [|y leaves]]; [simpl in Hlen; lia| |zlen_norm; pose proof (zlen_nonneg leaves); lia].
       exists x, paths. split_and!; [done|done|]. intros j leaf path Hj Hpath.
       apply list_lookup_singleton_Some in Hj as [-> <-]. exists []. rewrite app_nil_r. split; [done|].
       apply mp_leaf. }
  rewrite subtree_many by lia. destruct (halves leaves Hn) as (Hk & Hk' & Hlt & Hlt' & Hpos & Hpos').
  pose proof (split_size_bounds _ Hn) as Hb. set (k := split_size (zlen leaves)) in *.
  destruct (IH (slice_to leaves k) (slice_to paths k)) as (l & lp & -> & Hll & HL);
    [lia|unfold slice_to in *; rewrite !length_take; lia|].
  destruct (IH (slice_from leaves k) (slice_from paths k)) as (r & rp & -> & Hlr & HR);
    [lia|unfold slice_from in *; rewrite !length_drop; lia|].
  eexists _, _. split; [done|]. split.
  { rewrite length_app, !length_fmap, Hll, Hlr, <- length_app, slice_to_from. done. }
  intros j leaf path Hj Hpath. assert (length lp = Z.to_nat k) as Hlk by (unfold zlen in Hk; lia).
  destruct (decide (j < Z.to_nat k)%nat) as [Hjk|Hjk].
  - destruct (HL j leaf path) as (p & Hpj & Hm); [unfold slice_to; by rewrite lookup_take_lt by lia..|].
    exists (p ++ [r]). rewrite lookup_app_l by (rewrite length_fmap; lia).
    rewrite list_lookup_fmap, Hpj. simpl. rewrite <- app_assoc. split; [done|].
    rewrite Hk in Hm. apply mp_left; [done|lia|done].
  - destruct (HR (j - Z.to_nat k)%nat leaf path) as (p & Hpj & Hm).
    { unfold slice_from. rewrite lookup_drop. by replace (Z.to_nat k + (j - Z.to_nat k))%nat with j by lia. }
    { unfold slice_from. rewrite lookup_drop. by replace (Z.to_nat k + (j - Z.to_nat k))%nat with j by lia. }
    exists (p ++ [l]). rewrite lookup_app_r by (rewrite length_fmap; lia).
    rewrite length_fmap, Hlk, list_lookup_fmap, Hpj. simpl. rewrite <- app_assoc. split; [done|].
    rewrite Hk' in Hm. apply mp_right; [done|lia|].
    fold k. by replace (Z.of_nat j - k) with (Z.of_nat (j - Z.to_nat k)) by lia.
Qed.

(** ** Depth *)

Lemma path_depth_shift fuel n i d : path_depth fuel n i d = d + path_depth fuel n i 0.
Proof.
  revert n i d. induction fuel as [|fuel IH]; intros n i d; simpl; [lia|].
  destruct (1 <? n); [|lia]. destruct (i <? split_size n); rewrite (IH _ _ (d + 1)), (IH _ _ 1); lia.
Qed.

Lemma path_depth_nonneg fuel n i : 0 <= path_depth fuel n i 0.
Proof.
  revert n i. induction fuel as [|fuel IH]; intros n i; simpl; [lia|]. destruct (1 <? n); [|lia].
  destruct (i <? split_size n); rewrite path_depth_shift.
  - pose proof (IH (split_size n) i). lia.
  - pose proof (IH (n - split_size n) (i - split_size n)). lia.
Qed.

Lemma mpath_depth n i leaf p root fuel :
  mpath n i leaf p root -> n <= Z.of_nat fuel -> path_depth fuel n i 0 = zlen p.
Proof.
  intros Hm. revert fuel. induction Hm as [leaf|n i leaf p l r Hn Hi Hsub IH|n i leaf p l r Hn Hi Hsub IH];
    intros fuel Hf; (destruct fuel as [|fuel]; [lia|]); [done|..].
  all: pose proof (split_size_bounds n Hn); simpl; rewrite (proj2 (Z.ltb_lt 1 n)) by lia.
  - rewrite (proj2 (Z.ltb_lt _ _)) by lia. rewrite path_depth_shift, IH by lia. zlen_norm. lia.
  - rewrite (proj2 (Z.ltb_ge _ _)) by lia. rewrite path_depth_shift, IH by lia. zlen_norm. lia.
Qed.

(** Every list of the right length is a path to some root. *)
Lemma mpath_total fuel n i leaf p :
  1 <= n -> 0 <= i < n -> n <= Z.of_nat fuel -> path_depth fuel n i 0 = zlen p ->
  exists root, mpath n i leaf p root.
Proof.
  revert n i p. induction fuel as [|fuel IH]; intros n i p Hn Hi Hf; [lia|]. simpl.
  destruct (1 <? n) eqn:E; zbool.
  2: { intros Hz. symmetry in Hz. apply zlen_0_nil in Hz as ->. assert (n = 1 /\ i = 0) as [-> ->] by lia.
       exists leaf. apply mp_leaf. }
  pose proof (split_size_bounds n E) as Hb.
  destruct (i <? split_size n) eqn:Ei; zbool; rewrite path_depth_shift; intros Hz;
    (destruct p as [|s p _] using rev_ind; [zlen_norm|zlen_norm]).
  1,3: match type of Hz with _ + path_depth ?f ?m ?j 0 = _ =>
    pose proof (path_depth_nonneg f m j); lia end.
  - destruct (IH (split_size n) i p) as [root Hm]; [lia..|]. eexists. by apply mp_left.
  - destruct (IH (n - split_size n) (i - split_size n) p) as [root Hm]; [lia..|]. eexists. by apply mp_right.
Qed.

End Trees.

(** ** Renaming nodes *)

Lemma zlen_map {A B} (f : A -> B) (l : list A) : zlen (f <$> l) = zlen l.
Proof. unfold zlen. by rewrite length_fmap. Qed.

Section Rename.
Context {A B : Type} (f : A -> B) (nodeA : A -> A -> A) (nodeB : B -> B -> B).
Context (Hf : forall x y, f (nodeA x y) = nodeB (f x) (f y)).

Lemma climb_rename siblings index top root :
  climb nodeB index top (f root) (f <$> siblings) =
  let '(index, top, root) := climb nodeA index top root siblings in (index, top, f root).
Proof using Hf.
  revert index top root. induction siblings as [|s siblings IH]; intros index top root; [done|].
  simpl. unfold climb_step. destruct (_ || _).
  - destruct (skip_levels 16 index top) as [i t]. rewrite <- Hf. apply IH.
  - rewrite <- Hf. apply IH.
Qed.

(** The root does not depend on the paths that are collected. *)
Lemma subtree_rename fuel leaves paths paths' root ps :
  subtree nodeA fuel leaves paths = Some (root, ps) ->
  exists ps', subtree nodeB fuel (f <$> leaves) paths' = Some (f root, ps').
Proof using Hf.
  revert leaves paths paths' root ps. induction fuel as [|fuel IH]; intros leaves paths paths' root ps.
  { destruct leaves as [|x [|y leaves]]; simpl; [done|intros [= <- _]; eauto|done]. }
  destruct (decide (zlen leaves = 1)) as [Hn|Hn].
  - destruct leaves as [|x [|y leaves]]; [done| |zlen_norm; pose proof (zlen_nonneg leaves); lia].
    intros [= <- _]. simpl. eauto.
  - rewrite !subtree_many by (rewrite ?zlen_map; done). rewrite zlen_map.
    set (k := split_size _). unfold slice_to, slice_from. rewrite <- fmap_take, <- fmap_drop.
    destruct (subtree nodeA fuel (take _ leaves) _) as [[l lp]|] eqn:Hl; [|done].
    destruct (subtree nodeA fuel (drop _ leaves) _) as [[r rp]|] eqn:Hr; [|done]. intros [= <- _].
    destruct (IH _ _ (take (Z.to_nat k) paths') _ _ Hl) as [? ->].
    destruct (IH _ _ (drop (Z.to_nat k) paths') _ _ Hr) as [? ->]. rewrite Hf. eauto.
Qed.

End Rename.

(** ** Recording what is hashed *)

(** A subtree with the byte strings hashed to compute it. *)
Abbreviation Traced := (bytes * list bytes)%type.

Definition plain (x : bytes) : Traced := (x, []).

(** No two different strings of the list have the same SHA-512 digest. *)
Definition collision_free `{Hash} (l : list bytes) : Prop :=
  forall x y, x ∈ l -> y ∈ l -> sha512 x = sha512 y -> x = y.

Section Traced.
Context `{HashLaws}.

Definition traced_node (l r : Traced) : Traced :=
  (parent_hash l.1 r.1, l.2 ++ r.2 ++ [node_string l.1 r.1]).

Lemma traced_root_length n i x p root :
  MerkleTheory.mpath traced_node n i x p root -> zlen x.1 = 64 -> zlen root.1 = 64.
Proof. intros [] ?; [done|apply sha512_length..]. Qed.

Lemma node_string_inj (C : list bytes) (l r l' r' : bytes) :
  collision_free C -> node_string l r ∈ C -> node_string l' r' ∈ C -> zlen l = zlen l' ->
  parent_hash l r = parent_hash l' r' -> l = l' /\ r = r'.
Proof.
  intros Hc Hin Hin' Hlen E. apply Hc in E; [|done|done]. unfold node_string in E.
  simpl in E. injection E as E. apply app_inj_1 in E; [done|]. unfold zlen in Hlen. lia.
Qed.

(** Two paths of one shape with the same root start at the same leaf. *)
Lemma traced_binding (C : list bytes) n i x p root :
  collision_free C -> MerkleTheory.mpath traced_node n i x p root ->
  forall x' p' root', MerkleTheory.mpath traced_node n i x' p' root' ->
  zlen x.1 = 64 -> zlen x'.1 = 64 ->
  Forall (fun s => zlen s.1 = 64) p -> Forall (fun s => zlen s.1 = 64) p' ->
  root.2 ⊆ C -> root'.2 ⊆ C -> root.1 = root'.1 -> x.1 = x'.1.
Proof.
  intros Hc Hm. induction Hm as [x|n i x p l r Hn Hi Hsub IH|n i x p l r Hn Hi Hsub IH];
    intros x' p' root' Hm'.
  { inversion Hm'; subst; [done|lia|lia]. }
  all: inversion Hm' as [|n' i' x0 p0 l' r' _ Hi' Hsub'|n' i' x0 p0 l' r' _ Hi' Hsub']; subst; try lia;
    intros Hx Hx' [Hp Hs]%Forall_app [Hp' Hs']%Forall_app Hsub1 Hsub2 E; simpl in *.
  all: apply Forall_cons in Hs as [Hs _]; apply Forall_cons in Hs' as [Hs' _].
  all: apply (node_string_inj C) in E as [E1 E2]; [|done|set_solver|set_solver|].
  - apply (IH _ _ _ Hsub'); [done..|set_solver|set_solver|done].
  - apply traced_root_length in Hsub, Hsub'; congruence.
  - apply (IH _ _ _ Hsub'); [done..|set_solver|set_solver|done].
  - congruence.
Qed.

(** ** Strings hashed by the gateway and by a verifier *)

Definition traced_tree (leaves : list bytes) : Traced :=
  match subtree traced_node (length leaves) (plain <$> leaves) (replicate (length leaves) []) with
  | Some (root, _) => root
  | None => plain []
  end.

Definition traced_climb (p : BatchProof) (leaf : bytes) : Traced :=
  (climb traced_node (bp_leaf_index p) (bp_leaf_count p - 1) (plain leaf) (plain <$> bp_siblings p)).2.

(** Everything hashed to quote a batch of channels. *)
Definition batch_strings (bindings : list Binding) : list bytes :=
  let tree := traced_tree (Binding_leaf_hash <$> bindings) in
  (leaf_string <$> bindings) ++ tree.2 ++ [batch_string (zlen bindings) tree.1].

(** Everything hashed to verify one proof. *)
Definition verify_strings (p : BatchProof) (b : Binding) : list bytes :=
  let root := traced_climb p (Binding_leaf_hash b) in
  leaf_string b :: root.2 ++ [batch_string (bp_leaf_count p) root.1].

End Traced.

(** ** Encodings *)

Definition binding_wf (b : Binding) : Prop :=
  match b with
  | NativeTls _ boot challenge spki => zlen boot = 32 /\ zlen challenge = 32 /\ zlen spki = 32
  | E2eeSession _ boot transcript => zlen boot = 32 /\ zlen transcript = 32
  end.

Lemma app_inj_zlen (l l' k k' : bytes) : l ++ k = l' ++ k' -> zlen l = zlen l' -> l = l' /\ k = k'.
Proof. intros E Hl. apply app_inj_1 in E; [done|]. unfold zlen in Hl. lia. Qed.

(** The two domains and the fixed field sizes keep leaf strings apart. *)
Lemma leaf_string_inj b b' : binding_wf b -> binding_wf b' -> leaf_string b = leaf_string b' -> b = b'.
Proof.
  intros Hb Hb' E. unfold leaf_string in E. apply app_inj_zlen in E as [_ E]; [|done].
  destruct b as [e b1 c1 s1|e b1 t1], b' as [e' b2 c2 s2|e' b2 t2]; simpl in Hb, Hb'.
  - apply app_inj_zlen in E as [_ E]; [|done]. apply app_inj_zlen in E as [Ee E]; [|done].
    apply app_inj_zlen in E as [-> E]; [|lia]. apply app_inj_zlen in E as [-> ->]; [|lia].
    f_equal. by destruct e, e'.
  - by vm_compute in E.
  - by vm_compute in E.
  - apply app_inj_zlen in E as [_ E]; [|done]. apply app_inj_zlen in E as [Ee E]; [|done].
    apply app_inj_zlen in E as [-> ->]; [|lia]. f_equal. by destruct e, e'.
Qed.

Lemma batch_string_inj n n' (root root' : bytes) :
  0 <= n < 2 ^ 16 -> 0 <= n' < 2 ^ 16 -> batch_string n root = batch_string n' root' ->
  n = n' /\ root = root'.
Proof.
  intros Hn Hn' E. unfold batch_string in E. apply app_inj_zlen in E as [_ E]; [|done].
  apply app_inj_zlen in E as [E ->]; [|by rewrite !zlen_be_bytes].
  apply be_bytes_inj in E; done.
Qed.
