(* ===== verification/AttestationTheory.v ===== *)
(** Channel attestation: issued proofs verify, verified proofs bind, and every
    encoding (proofs, session evidence, certificate extension) is read back exactly. *)

From S2P Require Import Prelude Primitives Attestation MerkleTheory.

Open Scope Z_scope.

(** ** Proof encoding *)

Lemma chunks_concat fuel l :
  Forall (fun s => zlen s = 64) l -> (length l <= fuel)%nat -> chunks fuel 64 (concat l) = l.
Proof.
  revert l. induction fuel as [|fuel IH]; intros l Hl Hf; [destruct l; [done|simpl in Hf; lia]|].
  destruct l as [|s l]; [done|]. apply Forall_cons in Hl as [Hs Hl]. simpl in *.
  rewrite (proj2 (Z.ltb_ge _ _)) by zlen_lia. rewrite slice_to_app, slice_from_app by done.
  rewrite IH by (done || lia). done.
Qed.

Lemma chunks_spec fuel l k :
  0 <= k -> zlen l = 64 * k -> (Z.to_nat k <= fuel)%nat ->
  concat (chunks fuel 64 l) = l /\ zlen (chunks fuel 64 l) = k /\
  Forall (fun s => zlen s = 64) (chunks fuel 64 l).
Proof.
  revert l k. induction fuel as [|fuel IH]; intros l k Hk Hl Hf; simpl.
  { assert (k = 0) as -> by lia. rewrite (zlen_0_nil l) by lia. done. }
  destruct (zlen l <? 64) eqn:E; zbool.
  { assert (k = 0) as -> by lia. rewrite (zlen_0_nil l) by lia. done. }
  destruct (IH (slice_from l 64) (k - 1)) as (Hc & Hz & Hall); [lia|rewrite zlen_slice_from; lia|lia|].
  split_and!.
  - simpl. rewrite Hc. apply slice_to_from.
  - zlen_norm. lia.
  - constructor; [|done]. apply zlen_slice_to. lia.
Qed.

Lemma slice_split {A} (l : list A) a b :
  0 <= a <= b -> b <= zlen l -> slice_from l a = slice l a b ++ slice_from l b.
Proof.
  intros Hab Hb. unfold slice, slice_from.
  replace (Z.to_nat b) with (Z.to_nat a + Z.to_nat (b - a))%nat by lia.
  rewrite <- drop_drop. by rewrite take_drop.
Qed.

Lemma be_bytes_slice (l : bytes) n : zlen l = Z.of_nat n -> be_bytes n (be_value l) = l.
Proof. intros Hl. unfold zlen in Hl. replace n with (length l) by lia. apply be_bytes_value. Qed.

(** What an accepted encoding says, and that it is the only encoding of its proof. *)
Lemma from_bytes_spec b p :
  BatchProof_from_bytes b = Ok p ->
  1 <= bp_leaf_count p <= 1024 /\ 0 <= bp_leaf_index p < bp_leaf_count p /\
  path_depth (Z.to_nat (bp_leaf_count p)) (bp_leaf_count p) (bp_leaf_index p) 0 = zlen (bp_siblings p) /\
  Forall (fun s => zlen s = 64) (bp_siblings p) /\ BatchProof_to_bytes p = b.
Proof.
  unfold BatchProof_from_bytes, MAX_BATCH_LEAVES, MAX_PROOF_HASHES.
  destruct (_ || _ || _) eqn:E1; [done|]. zbool.
  destruct ((_ =? 0) || _ || _) eqn:E2; [done|]. zbool.
  destruct (negb _) eqn:E3; [done|]. zbool. intros [= <-]. simpl.
  pose proof (Z.div_mod (zlen b - 4) 64 ltac:(lia)) as Hdiv.
  assert (zlen (slice_from b 4) = 64 * ((zlen b - 4) / 64)) as Hz by (rewrite zlen_slice_from; lia).
  destruct (chunks_spec (length b) (slice_from b 4) ((zlen b - 4) / 64)) as (Hc & Hn & Hall).
  { apply Z.div_pos; lia. } { done. }
  { pose proof (Z.div_le_upper_bound (zlen b - 4) 64 (zlen b)). unfold zlen in *. lia. }
  pose proof (be_value_range (slice b 0 2)). pose proof (be_value_range (slice b 2 4)).
  split_and!; [lia|lia|lia|lia|lia|done|].
  unfold BatchProof_to_bytes. simpl. rewrite Hc.
  rewrite !be_bytes_slice by (rewrite zlen_slice; lia).
  rewrite <- (slice_split b 2 4) by lia. rewrite slice_0. apply slice_to_from.
Qed.

Lemma to_bytes_roundtrip p :
  1 <= bp_leaf_count p <= 1024 -> 0 <= bp_leaf_index p < bp_leaf_count p ->
  path_depth (Z.to_nat (bp_leaf_count p)) (bp_leaf_count p) (bp_leaf_index p) 0 = zlen (bp_siblings p) ->
  zlen (bp_siblings p) <= 10 -> Forall (fun s => zlen s = 64) (bp_siblings p) ->
  BatchProof_from_bytes (BatchProof_to_bytes p) = Ok p.
Proof.
  intros Hc Hi Hd Hmax Hall. unfold BatchProof_from_bytes, BatchProof_to_bytes.
  assert (zlen (concat (bp_siblings p)) = 64 * zlen (bp_siblings p)) as Hz.
  { clear - Hall. induction Hall as [|s l Hs _ IH]; [done|]. simpl. zlen_norm. lia. }
  set (b := u16_be (bp_leaf_count p) ++ u16_be (bp_leaf_index p) ++ concat (bp_siblings p)).
  assert (zlen b = 4 + 64 * zlen (bp_siblings p)) as Hb by (unfold b; zlen_norm; lia).
  pose proof (zlen_nonneg (bp_siblings p)).
  rewrite Hb. unfold MAX_PROOF_HASHES, MAX_BATCH_LEAVES.
  replace (4 + 64 * zlen (bp_siblings p) - 4) with (zlen (bp_siblings p) * 64) by lia.
  rewrite Z.mod_mul, Z.div_mul by lia. rewrite !(proj2 (Z.ltb_ge _ _)) by lia. simpl orb.
  replace (slice b 0 2) with (u16_be (bp_leaf_count p)) by (symmetry; by apply slice_app_here).
  replace (slice b 2 4) with (u16_be (bp_leaf_index p)).
  2: { unfold b. rewrite slice_app_skip by (rewrite zlen_be_bytes; lia). rewrite zlen_be_bytes. symmetry.
       by apply slice_app_here. }
  rewrite !be_value_bytes_small by lia.
  rewrite (proj2 (Z.eqb_neq _ _)), (proj2 (Z.ltb_ge _ _)), (proj2 (Z.leb_gt _ _)) by lia. simpl orb. cbn match.
  rewrite Hd, Z.eqb_refl. simpl.
  replace (slice_from b 4) with (concat (bp_siblings p)).
  2: { unfold b. rewrite !slice_from_app_ge by (rewrite ?zlen_be_bytes; lia). rewrite !zlen_be_bytes. done. }
  rewrite chunks_concat; [by destruct p|done|]. unfold zlen in *. lia.
Qed.

(** ** Issued proofs *)

Lemma subtree_forall {A} (node : A -> A -> A) (P : A -> Prop) fuel leaves paths root paths' :
  (forall x y, P (node x y)) -> Forall P leaves -> Forall (Forall P) paths ->
  subtree node fuel leaves paths = Some (root, paths') -> P root /\ Forall (Forall P) paths'.
Proof.
  intros Hn. revert leaves paths root paths'. induction fuel as [|fuel IH]; intros leaves paths root paths' Hl Hp.
  { destruct leaves as [|x [|y leaves]]; simpl; [done| |done]. intros [= <- <-].
    by apply Forall_cons in Hl as [? _]. }
  destruct (decide (zlen leaves = 1)) as [Hz|Hz].
  - destruct leaves as [|x [|y leaves]]; [done| |zlen_norm; pose proof (zlen_nonneg leaves); lia].
    intros [= <- <-]. by apply Forall_cons in Hl as [? _].
  - rewrite subtree_many by done. set (k := split_size _). unfold slice_to, slice_from.
    destruct (subtree node fuel (take _ leaves) _) as [[l lp]|] eqn:Hs; [|done].
    destruct (subtree node fuel (drop _ leaves) _) as [[r rp]|] eqn:Hs'; [|done].
    apply IH in Hs as [Pl Hlp]; [|by apply Forall_take|by apply Forall_take].
    apply IH in Hs' as [Pr Hrp]; [|by apply Forall_drop|by apply Forall_drop].
    intros [= <- <-]. split; [done|]. apply Forall_app. rewrite !Forall_fmap.
    split; eapply Forall_impl; [exact Hlp| |exact Hrp|]; intros p Hpp; apply Forall_app;
      (split; [done|by constructor]).
Qed.

Lemma mpath_length {A} (node : A -> A -> A) n i leaf p root e :
  mpath node n i leaf p root -> 0 <= e -> n <= 2 ^ e -> zlen p <= e.
Proof.
  intros Hm. revert e. induction Hm as [leaf|n i leaf p l r Hn Hi _ IH|n i leaf p l r Hn Hi _ IH];
    intros e He Hle; [done|..].
  all: destruct (log2_exp n e Hn ltac:(lia) He) as [Hd0 Hde]; pose proof (split_size_bounds n Hn).
  all: rewrite split_size_pow in * by done; set (d := Z.log2 (n - 1)) in *.
  all: zlen_norm; pose proof (IH (e - 1)).
  all: assert (2 ^ d <= 2 ^ (e - 1)) by (apply Z.pow_le_mono_r; lia); lia.
Qed.

Section Proofs.
Context `{HashLaws}.

(** The batch a gateway quotes. *)
Lemma quote_batch_inv leaves :
  1 <= zlen leaves <= MAX_BATCH_LEAVES ->
  exists root siblings,
    subtree parent_hash (length leaves) leaves (replicate (length leaves) []) = Some (root, siblings) /\
    quote_batch leaves = Ok (batch_report_data (zlen leaves) root,
      imap (fun index s => {| bp_leaf_count := zlen leaves; bp_leaf_index := Z.of_nat index; bp_siblings := s |}) siblings) /\
    forall j leaf, leaves !! j = Some leaf ->
      exists p, siblings !! j = Some p /\ mpath parent_hash (zlen leaves) (Z.of_nat j) leaf p root.
Proof.
  intros Hn. destruct (subtree_paths parent_hash (length leaves) leaves (replicate (length leaves) []))
    as (root & siblings & Hsub & Hlen & Hpaths).
  { unfold zlen in Hn. lia. } { by rewrite length_replicate. }
  exists root, siblings. split; [done|]. split.
  - unfold quote_batch. rewrite !(proj2 (Z.ltb_ge _ _)) by lia. simpl orb. cbn match. by rewrite Hsub.
  - intros j leaf Hj. apply (Hpaths j leaf []); [done|]. apply lookup_replicate. split; [done|].
    by eapply lookup_lt_Some.
Qed.

Lemma quote_batch_sizes leaves report proofs :
  quote_batch leaves = Ok (report, proofs) -> 1 <= zlen leaves <= MAX_BATCH_LEAVES.
Proof. unfold quote_batch. destruct (_ || _) eqn:E; [done|]. zbool. intros _. lia. Qed.

(** C34. Every batch of 1 to 1,024 channels can be quoted, and each channel's proof,
    as encoded and decoded on the wire, verifies against the quoted report data: the
    iterative verifier agrees with the recursive tree for every count and index. *)
Theorem issued_proofs_verify leaves :
  1 <= zlen leaves <= MAX_BATCH_LEAVES -> Forall (fun leaf => zlen leaf = 64) leaves ->
  exists report proofs, quote_batch leaves = Ok (report, proofs) /\
    forall j leaf, leaves !! j = Some leaf ->
      exists proof, proofs !! j = Some proof /\
        BatchProof_from_bytes (BatchProof_to_bytes proof) = Ok proof /\
        BatchProof_verify_leaf proof leaf report = Ok tt.
Proof.
  intros Hn Hall. destruct (quote_batch_inv leaves Hn) as (root & siblings & Hsub & Hq & Hpaths).
  eexists _, _. split; [exact Hq|]. intros j leaf Hj. destruct (Hpaths j leaf Hj) as (p & Hp & Hm).
  eexists. rewrite list_lookup_imap, Hp. split; [done|].
  pose proof (mpath_range _ _ _ _ _ _ Hm) as [_ Hi]. unfold MAX_BATCH_LEAVES in *. split.
  - apply to_bytes_roundtrip; simpl; [done|done| | |].
    + eapply mpath_depth; [done|]. lia.
    + eapply (mpath_length _ _ _ _ _ _ 10); [done|lia|]. done || (change (2 ^ 10) with 1024; lia).
    + apply (subtree_forall _ (fun s => zlen s = 64)) in Hsub as [_ Hs];
        [|intros; apply sha512_length|done|by apply Forall_replicate].
      rewrite Forall_lookup in Hs. by eapply Hs.
  - unfold BatchProof_verify_leaf. simpl. rewrite (climb_root _ _ _ _ _ _ Hm) by lia.
    rewrite Z.eqb_refl, bool_decide_true by done. done.
Qed.

(** The same tree with its strings. *)
Lemma traced_tree_spec leaves root siblings :
  1 <= zlen leaves -> Forall (fun leaf => zlen leaf = 64) leaves ->
  subtree parent_hash (length leaves) leaves (replicate (length leaves) []) = Some (root, siblings) ->
  (traced_tree leaves).1 = root /\
  forall j leaf, leaves !! j = Some leaf ->
    exists p, mpath traced_node (zlen leaves) (Z.of_nat j) (plain leaf) p (traced_tree leaves) /\
      Forall (fun s => zlen s.1 = 64) p.
Proof.
  intros Hn Hall Hsub. unfold traced_tree.
  destruct (subtree_paths traced_node (length leaves) (plain <$> leaves) (replicate (length leaves) []))
    as (troot & tpaths & Ht & Hlen & Hpaths).
  { rewrite length_fmap. unfold zlen in Hn. lia. } { by rewrite length_replicate, length_fmap. }
  rewrite Ht. split.
  - destruct (subtree_rename fst traced_node parent_hash ltac:(done) _ _ _
      (replicate (length leaves) []) _ _ Ht) as [ps Hps].
    rewrite <- list_fmap_compose in Hps. rewrite (list_fmap_ext _ id) in Hps by done.
    rewrite list_fmap_id in Hps. congruence.
  - intros j leaf Hj. destruct (Hpaths j (plain leaf) []) as (p & Hp & Hm).
    { rewrite list_lookup_fmap, Hj. done. }
    { apply lookup_replicate. split; [done|]. by eapply lookup_lt_Some. }
    exists p. rewrite zlen_map in Hm. split; [done|].
    apply (subtree_forall _ (fun s : Traced => zlen s.1 = 64)) in Ht as [_ Hs].
    + rewrite Forall_lookup in Hs. by eapply Hs.
    + intros. apply sha512_length.
    + by rewrite Forall_fmap.
    + by apply Forall_replicate.
Qed.

(** The climb of a decoded proof with its strings. *)
Lemma traced_climb_spec encoded proof leaf :
  BatchProof_from_bytes encoded = Ok proof ->
  mpath traced_node (bp_leaf_count proof) (bp_leaf_index proof) (plain leaf) (plain <$> bp_siblings proof)
    (traced_climb proof leaf) /\
  climb parent_hash (bp_leaf_index proof) (bp_leaf_count proof - 1) leaf (bp_siblings proof)
    = (0, 0, (traced_climb proof leaf).1).
Proof.
  intros Hf. apply from_bytes_spec in Hf as (Hc & Hi & Hd & _ & _).
  destruct (mpath_total traced_node (Z.to_nat (bp_leaf_count proof)) (bp_leaf_count proof)
    (bp_leaf_index proof) (plain leaf) (plain <$> bp_siblings proof)) as [root Hm];
    [lia|lia|lia|by rewrite zlen_map|].
  pose proof (climb_root _ _ _ _ _ _ Hm ltac:(lia)) as Hclimb. unfold traced_climb. rewrite Hclimb.
  split; [done|]. pose proof (climb_rename fst traced_node parent_hash ltac:(done) (plain <$> bp_siblings proof)
    (bp_leaf_index proof) (bp_leaf_count proof - 1) (plain leaf)) as Hr.
  rewrite Hclimb, <- list_fmap_compose in Hr. rewrite (list_fmap_ext _ id) in Hr by done.
  by rewrite list_fmap_id in Hr.
Qed.

(** C4. A proof that verifies binds its channel to the quote: if SHA-512 has no
    collision among the strings hashed to quote the batch and to verify the proof, then
    the channel is exactly the one the gateway quoted at the proof's index, and the
    proof's leaf count is the batch's. *)
Theorem verified_proof_binds bindings report proofs encoded proof b :
  quote_batch (Binding_leaf_hash <$> bindings) = Ok (report, proofs) ->
  BatchProof_from_bytes encoded = Ok proof -> BatchProof_verify proof b report = Ok tt ->
  Forall binding_wf bindings -> binding_wf b ->
  collision_free (batch_strings bindings ++ verify_strings proof b) ->
  bindings !! Z.to_nat (bp_leaf_index proof) = Some b /\ bp_leaf_count proof = zlen bindings.
Proof.
  intros Hq Hf Hv Hwf Hb Hcf. pose proof (quote_batch_sizes _ _ _ Hq) as Hn.
  destruct (quote_batch_inv _ Hn) as (root & siblings & Hsub & Hq' & _). rewrite Hq in Hq'. injection Hq' as -> _.
  set (leaves := Binding_leaf_hash <$> bindings) in *.
  assert (Forall (fun leaf => zlen leaf = 64) leaves) as H64
    by (unfold leaves; rewrite Forall_fmap; apply Forall_true; intros; apply sha512_length).
  destruct (traced_tree_spec leaves root siblings ltac:(lia) H64 Hsub) as [Hroot Hpaths].
  destruct (traced_climb_spec encoded proof (Binding_leaf_hash b) Hf) as [Hm Hclimb].
  pose proof (from_bytes_spec _ _ Hf) as (Hc & Hi & _ & Hs & _).
  unfold BatchProof_verify, BatchProof_verify_leaf in Hv. rewrite Hclimb in Hv. simpl in Hv.
  destruct (bool_decide _) eqn:E in Hv; [|done]. zbool. unfold MAX_BATCH_LEAVES, leaves in Hn. rewrite zlen_map in Hn.
  unfold batch_strings, verify_strings in Hcf. fold leaves in Hcf.
  rewrite <- Hroot in E. unfold batch_report_data in E. unfold leaves in E at 1. rewrite zlen_map in E.
  apply Hcf in E; [|set_solver|set_solver]. apply batch_string_inj in E as [Hcount Hr]; [|lia|lia].
  split; [|done]. destruct (lookup_lt_is_Some_2 bindings (Z.to_nat (bp_leaf_index proof))) as [b0 Hb0];
    [unfold zlen in *; lia|].
  destruct (Hpaths (Z.to_nat (bp_leaf_index proof)) (Binding_leaf_hash b0)) as (p & Hmp & Hp);
    [unfold leaves; by rewrite list_lookup_fmap, Hb0|].
  unfold leaves in Hmp at 1. rewrite zlen_map, <- Hcount, Z2Nat.id in Hmp by lia.
  assert (Binding_leaf_hash b = Binding_leaf_hash b0) as Hleaf.
  { apply (traced_binding _ _ _ _ _ _ Hcf Hm _ _ _ Hmp); simpl; try apply sha512_length; try done.
    - by rewrite Forall_fmap.
    - set_solver.
    - set_solver. }
  apply Hcf in Hleaf; [|set_solver|].
  - rewrite Forall_lookup in Hwf. apply leaf_string_inj in Hleaf as ->; [done|done|by eapply Hwf].
  - apply elem_of_app. left. apply elem_of_app. left. apply list_elem_of_fmap. exists b0.
    split; [done|]. by eapply list_elem_of_lookup_2.
Qed.

End Proofs.

(** ** Session evidence *)

Lemma take_bytes_app (l rest : bytes) n : n = zlen l -> take_bytes (l ++ rest) n = Ok (l, rest).
Proof.
  intros ->. unfold take_bytes. rewrite (proj2 (Z.ltb_ge _ _)) by zlen_lia.
  by rewrite slice_to_app, slice_from_app.
Qed.

Lemma take_bytes_ok input n v rest :
  0 <= n -> take_bytes input n = Ok (v, rest) -> input = v ++ rest /\ zlen v = n.
Proof.
  intros Hn. unfold take_bytes. destruct (_ <? _) eqn:E; [done|]. zbool. intros [= <- <-].
  rewrite slice_to_from, zlen_slice_to by lia. done.
Qed.

Lemma take_field_app (l rest : bytes) :
  0 < zlen l <= u32_max -> take_field (u32_be (zlen l) ++ l ++ rest) = Ok (l, rest).
Proof.
  intros Hl. unfold take_field, u32_max in *. rewrite take_bytes_app by (by rewrite zlen_be_bytes).
  rewrite be_value_bytes_small by lia. rewrite (proj2 (Z.eqb_neq _ _)) by lia. by apply take_bytes_app.
Qed.

Lemma take_field_ok input v rest :
  take_field input = Ok (v, rest) -> input = u32_be (zlen v) ++ v ++ rest /\ 0 < zlen v <= u32_max.
Proof.
  unfold take_field. destruct (take_bytes input 4) as [[p i]|] eqn:Hp; [|done].
  apply take_bytes_ok in Hp as [-> Hp]; [|done]. pose proof (be_value_range p) as Hr. rewrite Hp in Hr.
  destruct (_ =? 0) eqn:E; [done|]. zbool. intros Hv. apply take_bytes_ok in Hv as [-> Hv]; [|lia].
  unfold u32_max. rewrite Hv, be_bytes_slice by done. split; [done|lia].
Qed.

Lemma evidence_decode_encode report proof doc incl payload encoded :
  BatchProof_from_bytes encoded = Ok proof ->
  SessionEvidence_encode report proof doc incl = Ok payload ->
  SessionEvidence_from_bytes payload = Ok {| se_report := report; se_proof := proof;
    se_boot_document := doc; se_boot_inclusion := incl |} /\ zlen payload <= MAX_EVIDENCE_BYTES.
Proof.
  intros Hproof. pose proof (from_bytes_spec _ _ Hproof) as (_ & _ & _ & _ & Hto).
  unfold SessionEvidence_encode. rewrite Hto.
  destruct (_ || _ || _) eqn:E1; [done|]. zbool. destruct (MAX_EVIDENCE_BYTES <? _) eqn:E2; [done|].
  destruct (u16_max <? _) eqn:E3; [done|]. destruct (_ || _) eqn:E4; [done|]. zbool. intros [= <-].
  pose proof (zlen_nonneg doc). pose proof (zlen_nonneg incl). unfold u16_max, u32_max in *.
  assert (zlen (report ++ u16_be (zlen encoded) ++ encoded ++ u32_be (zlen doc) ++ doc ++
    u32_be (zlen incl) ++ incl) <= MAX_EVIDENCE_BYTES) as Hsize by (zlen_norm; lia).
  split; [|done]. unfold SessionEvidence_from_bytes. rewrite (proj2 (Z.ltb_ge _ _)) by done.
  rewrite take_bytes_app by done. rewrite take_bytes_app by (by rewrite zlen_be_bytes).
  rewrite be_value_bytes_small by (pose proof (zlen_nonneg encoded); lia). rewrite take_bytes_app by done.
  rewrite Hproof. simpl map_err. cbn match. rewrite take_field_app by (unfold u32_max; lia).
  rewrite <- (app_nil_r incl) at 2. rewrite take_field_app by (unfold u32_max; lia). done.
Qed.

Lemma slice_here (l k rest : bytes) a b :
  a = zlen l -> b = zlen l + zlen k -> slice (l ++ k ++ rest) a b = k.
Proof. intros -> ->. rewrite slice_app_skip, Z.sub_diag by lia. apply slice_app_here. lia. Qed.

Lemma extension_decode payload out :
  SessionEvidence_extension payload = Ok out ->
  SessionEvidence_from_extension out = map_err CEvidence (SessionEvidence_from_bytes payload).
Proof.
  unfold SessionEvidence_extension.
  destruct (MAX_EVIDENCE_BYTES <? _) eqn:E1; [done|]. destruct (u16_max <? zlen payload) eqn:E2; [done|].
  set (pre := [x82; x78; byte_of_Z (zlen MEDIA_TYPE)]).
  set (cmw := pre ++ MEDIA_TYPE ++ [x59] ++ u16_be (zlen payload) ++ payload).
  destruct (u16_max <? zlen cmw) eqn:E3; [done|]. zbool. intros [= <-].
  change (zlen MEDIA_TYPE) with 36 in *. pose proof (zlen_nonneg payload). unfold u16_max, MAX_EVIDENCE_BYTES in *.
  assert (zlen cmw = 42 + zlen payload) as Hcmw.
  { unfold cmw. zlen_norm. change (zlen MEDIA_TYPE) with 36. change (zlen pre) with 3. lia. }
  unfold SessionEvidence_from_extension. change (zlen MEDIA_TYPE) with 36. unfold MAX_EVIDENCE_BYTES.
  change (x04 :: x82 :: u16_be (zlen cmw) ++ cmw) with ([x04; x82] ++ u16_be (zlen cmw) ++ cmw).
  remember [x04; x82] as hdr eqn:Hhdr. assert (zlen hdr = 2) as Hh by (by subst). clear Hhdr.
  assert (zlen (hdr ++ u16_be (zlen cmw) ++ cmw) = 46 + zlen payload) as Hout by (zlen_norm; lia).
  rewrite Hout. rewrite !(proj2 (Z.ltb_ge _ _)) by lia.
  rewrite slice_to_app, bool_decide_true by done. simpl orb. cbn match.
  rewrite (slice_here hdr (u16_be (zlen cmw))) by (rewrite ?zlen_be_bytes, ?Hh; done).
  rewrite be_value_bytes_small, (proj2 (Z.eqb_eq (zlen cmw) _)) by lia. simpl negb. cbn match.
  replace (slice_from (hdr ++ u16_be (zlen cmw) ++ cmw) 4) with cmw.
  2: { rewrite slice_from_app_ge by lia. rewrite Hh. symmetry. apply slice_from_app. by rewrite zlen_be_bytes. }
  assert (slice_to cmw 3 = pre) as S0 by (by apply slice_to_app).
  assert (slice cmw 3 39 = MEDIA_TYPE) as S1 by (by apply slice_here).
  assert (slice cmw 39 40 = [x59]) as S2 by (unfold cmw; rewrite app_assoc; by apply slice_here).
  assert (slice cmw 40 42 = u16_be (zlen payload)) as S3.
  { unfold cmw. rewrite !app_assoc, <- (app_assoc _ (u16_be _)). apply slice_here; by rewrite ?zlen_be_bytes. }
  assert (slice_from cmw 42 = payload) as S4.
  { unfold cmw. rewrite !app_assoc. apply slice_from_app. by rewrite !zlen_app, zlen_be_bytes. }
  change (3 + 36 + 3) with 42. change (42 - 2) with 40. change (3 + 36) with 39. change (39 + 1) with 40.
  rewrite S0, S1, S2, S3, S4, Hcmw, !bool_decide_true by done. rewrite !(proj2 (Z.ltb_ge _ _)) by lia.
  simpl orb. cbn match. rewrite be_value_bytes_small by lia.
  rewrite (proj2 (Z.ltb_ge _ _)), (proj2 (Z.eqb_eq _ _)) by lia. done.
Qed.

(** Evidence survives the wire: what the gateway encodes from a report, a proof
    and the boot fields, bare or inside the certificate extension, is decoded by the
    verifier to exactly these fields. *)
Theorem session_evidence_roundtrip report encoded doc incl certificate out :
  session_evidence report encoded doc incl certificate = Ok out ->
  exists proof, BatchProof_from_bytes encoded = Ok proof /\
    (if certificate then SessionEvidence_from_extension out
     else map_err CEvidence (SessionEvidence_from_bytes out)) =
    Ok {| se_report := report; se_proof := proof; se_boot_document := doc; se_boot_inclusion := incl |}.
Proof.
  unfold session_evidence. destruct (BatchProof_from_bytes encoded) as [proof|] eqn:Hp; [|done]. simpl.
  destruct (SessionEvidence_encode report proof doc incl) as [payload|] eqn:He; [|done]. simpl.
  destruct (evidence_decode_encode _ _ _ _ _ _ Hp He) as [Hd _]. intros Hout. exists proof. split; [done|].
  destruct certificate.
  - destruct (SessionEvidence_extension payload) eqn:Hx; [|done]. injection Hout as <-.
    by rewrite (extension_decode _ _ Hx), Hd.
  - injection Hout as <-. by rewrite Hd.
Qed.

(** Evidence has one encoding: whatever payload the verifier decodes is exactly
    what encoding the decoded fields produces, so no byte of it is ignored. *)
Theorem session_evidence_canonical payload e :
  SessionEvidence_from_bytes payload = Ok e ->
  SessionEvidence_encode (se_report e) (se_proof e) (se_boot_document e) (se_boot_inclusion e) = Ok payload.
Proof.
  unfold SessionEvidence_from_bytes. destruct (_ <? _) eqn:Hsize; [done|]. zbool.
  destruct (take_bytes payload _) as [[report p1]|] eqn:H1; [|done]. apply take_bytes_ok in H1 as [-> Hr]; [|done].
  destruct (take_bytes p1 2) as [[len p2]|] eqn:H2; [|done]. apply take_bytes_ok in H2 as [-> Hlen]; [|done].
  pose proof (be_value_range len) as Hrange. rewrite Hlen in Hrange.
  destruct (take_bytes p2 _) as [[encoded p3]|] eqn:H3; [|done]. apply take_bytes_ok in H3 as [-> He]; [|lia].
  destruct (BatchProof_from_bytes encoded) as [proof|] eqn:Hp; [|done]. simpl.
  destruct (take_field p3) as [[doc p4]|] eqn:H4; [|done]. apply take_field_ok in H4 as [-> Hdoc].
  destruct (take_field p4) as [[incl p5]|] eqn:H5; [|done]. apply take_field_ok in H5 as [-> Hincl].
  destruct (negb _) eqn:E5; [done|]. zbool. apply zlen_0_nil in E5 as ->. intros [= <-]. simpl.
  apply from_bytes_spec in Hp as (_ & _ & _ & _ & Hto). unfold SessionEvidence_encode. rewrite Hto.
  zlen_norm. unfold u32_max, u16_max in *.
  rewrite Hr, Z.eqb_refl, !(proj2 (Z.eqb_neq _ _)), !(proj2 (Z.ltb_ge _ _)) by lia. simpl orb. cbn match.
  rewrite app_nil_r. do 2 f_equal. rewrite He, be_bytes_slice by done. done.
Qed.

(** ** Node names *)

Lemma hex_digit_inj a b : 0 <= a < 16 -> 0 <= b < 16 -> hex_digit a = hex_digit b -> a = b.
Proof.
  intros Ha Hb E. assert (forallb (fun x => forallb (fun y =>
    if decide (hex_digit (Z.of_nat x) = hex_digit (Z.of_nat y)) then (x =? y)%nat else true) (seq 0 16)) (seq 0 16)
    = true) as Hall by (by vm_compute).
  rewrite forallb_forall in Hall. specialize (Hall (Z.to_nat a)). rewrite forallb_forall in Hall.
  specialize (Hall ltac:(apply in_seq; lia) (Z.to_nat b) ltac:(apply in_seq; lia)).
  rewrite !Z2Nat.id, decide_True in Hall by (done || lia). apply Nat.eqb_eq in Hall. lia.
Qed.

Lemma hex_byte_inj a b : hex_byte a = hex_byte b -> a = b.
Proof.
  unfold hex_byte. intros [= E1 E2]. pose proof (byte_to_Z_range a). pose proof (byte_to_Z_range b).
  rewrite !Z.shiftr_div_pow2 in E1 by lia. change 15 with (Z.ones 4) in E2. rewrite !Z.land_ones in E2 by lia.
  change (2 ^ 4) with 16 in *.
  apply hex_digit_inj in E1; [|split; [apply Z.div_pos; lia|apply Z.div_lt_upper_bound; lia]..].
  apply hex_digit_inj in E2; [|apply Z.mod_pos_bound; lia..].
  rewrite <- (byte_of_Z_to_Z a), <- (byte_of_Z_to_Z b). f_equal.
  pose proof (Z.div_mod (byte_to_Z a) 16). pose proof (Z.div_mod (byte_to_Z b) 16). lia.
Qed.

Lemma zlen_hex l : zlen (hex_encode l) = 2 * zlen l.
Proof.
  unfold hex_encode. induction l as [|b l IH]; [done|]. rewrite fmap_cons, concat_cons.
  rewrite zlen_app, IH, zlen_cons. change (zlen (hex_byte b)) with 2. lia.
Qed.

Lemma hex_encode_inj l k : zlen l = zlen k -> hex_encode l = hex_encode k -> l = k.
Proof.
  unfold hex_encode. revert k. induction l as [|a l IH]; intros [|b k] Hl; zlen_norm.
  - done.
  - pose proof (zlen_nonneg k). lia.
  - pose proof (zlen_nonneg l). lia.
  - rewrite !fmap_cons, !concat_cons. intros E. apply app_inj_zlen in E as [E1 E2]; [|done].
    apply hex_byte_inj in E1 as ->. f_equal. apply IH; [lia|done].
Qed.

(** A node name identifies the guest: different 32-byte report identifiers have
    different names, and every name fits 80 characters. *)
Theorem node_id_faithful a b :
  zlen a = 32 -> zlen b = 32 ->
  (snp_node_id a = snp_node_id b -> a = b) /\ zlen (snp_node_id a) <= 80.
Proof.
  intros Ha Hb. unfold snp_node_id. set (wa := nth _ ADJECTIVES []). set (na := nth _ NOUNS []).
  set (wb := nth _ ADJECTIVES []). set (nb := nth _ NOUNS []). split.
  - intros E. apply (f_equal (fun l => slice_from l (zlen l - 64))) in E. revert E.
    rewrite !app_assoc. rewrite !zlen_app, !zlen_hex, Ha, Hb.
    rewrite !slice_from_app by (zlen_norm; lia). apply hex_encode_inj. lia.
  - assert (forall (l : list bytes) n, Forall (fun w => zlen w <= n) l -> 0 <= n ->
      forall i, zlen (nth i l []) <= n) as Hnth.
    { intros l n Hall Hn i. destruct (nth_in_or_default i l []) as [Hin| ->]; [|done].
      rewrite Forall_forall in Hall. by apply Hall, list_elem_of_In. }
    assert (zlen wa <= 6) by (apply Hnth; [repeat constructor; done|done]).
    assert (zlen na <= 8) by (apply Hnth; [repeat constructor; done|done]).
    rewrite !zlen_app, zlen_hex, Ha. change (zlen (ascii "-")) with 1. lia.
Qed.
