(* ===== verification/Setup.v ===== *)
(** Session setup: [channel/setup.rs] (client hello, server preparation, evidence
    framing, possession check) over the X-Wing adapter of [kem.rs]. *)

From S2P Require Import Prelude Primitives Record Ratchet Window Session Attestation.

Open Scope Z_scope.

(** ** kem.rs and HPKE *)

(** [libcrux_kem::XWing] and the key schedule and exporter of [hpke] in base mode with
    HKDF-SHA-256 and no AEAD. *)
Class Hpke := {
  xwing_keygen (seed : bytes) : bytes;
  xwing_encaps (public coins : bytes) : option (bytes * bytes);
  xwing_decaps (seed ciphertext : bytes) : option bytes;
  hpke_export (shared info context : bytes) (n : Z) : option bytes
}.

(** Sizes; decapsulation inverts encapsulation for generated keys; the two halves of a
    generated key pass their validity checks; short exports succeed. *)
Class HpkeLaws `{Agreement} `{Hpke} : Prop := {
  xwing_public_length seed : zlen (xwing_keygen seed) = 1216;
  xwing_ciphertext_length pk coins ct ss : xwing_encaps pk coins = Some (ct, ss) -> zlen ct = 1120;
  xwing_correct seed coins ct ss :
    xwing_encaps (xwing_keygen seed) coins = Some (ct, ss) -> xwing_decaps seed ct = Some ss;
  xwing_mlkem_valid seed : mlkem_validate (slice_to (xwing_keygen seed) 1184) = true;
  hpke_export_length shared info context n out :
    0 <= n -> hpke_export shared info context n = Some out -> zlen out = n
}.

Section Kem.
Context `{Agreement} `{Hpke} `{Random}.

(** [PublicKey::from_bytes]. *)
Definition XWing_public_from_bytes (input : bytes) : option bytes :=
  if (zlen input =? 1216) && mlkem_validate (slice_to input 1184) then Some input else None.

(** [EncappedKey::from_bytes]. *)
Definition XWing_encapped_from_bytes (input : bytes) : option bytes :=
  if zlen input =? 1120 then Some input else None.

(** [PrivateKey::from_bytes]; a private key is its seed. *)
Definition XWing_private_from_bytes (input : bytes) : option bytes :=
  if zlen input =? 32 then Some input else None.

Definition XWing_sk_to_pk (private : bytes) : bytes := xwing_keygen private.

(** [encap_with_rng] and [decap] without an authenticated sender. *)
Definition XWing_encap_with_rng (public : bytes) (g : rng) : rng * option (bytes * bytes) :=
  match rng_fill g 64 with
  | (g, None) => (g, None)
  | (g, Some coins) => (g, xwing_encaps public coins)
  end.

Definition XWing_decap (private ciphertext : bytes) : option bytes := xwing_decaps private ciphertext.

(** An HPKE export context: the shared secret and the info it was set up with. *)
Record HpkeContext : Type := { hx_shared : bytes; hx_info : bytes }.

Definition export (c : HpkeContext) (context : bytes) (n : Z) : option bytes :=
  hpke_export (hx_shared c) (hx_info c) context n.

Definition setup_sender (public info : bytes) (g : rng) : rng * option (bytes * HpkeContext) :=
  match XWing_encap_with_rng public g with
  | (g, None) => (g, None)
  | (g, Some (enc, shared)) => (g, Some (enc, {| hx_shared := shared; hx_info := info |}))
  end.

Definition setup_receiver (private enc info : bytes) : option HpkeContext :=
  match XWing_decap private enc with
  | None => None
  | Some shared => Some {| hx_shared := shared; hx_info := info |}
  end.

End Kem.

(** ** channel/setup.rs *)

Definition CLIENT_HEADER : bytes := ascii "STGS" ++ [x01; x01].
Definition SERVER_HEADER : bytes := ascii "STGS" ++ [x01; x02].
Definition CLIENT_SETUP_BYTES : Z := zlen CLIENT_HEADER + 1 + 32 + 1216.
Definition SERVER_PREFIX_BYTES : Z := zlen SERVER_HEADER + 32 + 4 + 1120 + PUBLIC_KEY_BYTES.
Definition MAX_SERVER_SETUP_BYTES : Z := SERVER_PREFIX_BYTES + 32 + 4 + MAX_EVIDENCE_BYTES.
Definition INFO_DOMAIN : bytes := ascii "stogas.e2ee.setup.v1" ++ [x00].
Definition TRANSCRIPT_DOMAIN : bytes := ascii "stogas.e2ee.transcript.v1" ++ [x00].
Definition ROOT_DOMAIN : bytes := ascii "stogas.e2ee.root.v1" ++ [x00].
Definition CONFIRMATION_DOMAIN : bytes := ascii "stogas.e2ee.confirmation.v1" ++ [x00].

Record PreparedServerSetup : Type := {
  pss_session : ServerSession;
  pss_session_id : bytes;
  pss_transcript : bytes;
  pss_response_prefix : bytes
}.

(** [evidence::Error]: setup itself constructs one value of it,
    [Approval(approvals::Error::Authority)]; the others come from the verifier. *)
Inductive AppraisalError (V : Type) : Type := ApprovalAuthority | VerifierError (e : V).
Arguments ApprovalAuthority {V}.
Arguments VerifierError {V}.

(** [V] is the error of the evidence verifier. *)
Inductive SetupError (V : Type) : Type :=
| Protocol (e : Error)
| SetupEvidenceError (e : EvidenceError)
| SetupBinding (e : ProofError)
| Verification (e : V)
| Appraisal (e : AppraisalError V).
Arguments Protocol {V}.
Arguments SetupEvidenceError {V}.
Arguments SetupBinding {V}.
Arguments Verification {V}.
Arguments Appraisal {V}.

Record PendingSetup : Type := {
  pd_private_key : option bytes;
  pd_hello : bytes;
  pd_environment : Environment
}.

Record SetupEvidence : Type := {
  sv_prefix : bytes;
  sv_enc : bytes;
  sv_confirmation : bytes;
  sv_ratchet_key : bytes;
  sv_session_id : bytes;
  sv_idle_seconds : Z;
  sv_evidence : SessionEvidence
}.

Definition SetupEvidence_parse {V} (response : bytes) : result SetupEvidence (SetupError V) :=
  reject (zlen response <? SERVER_PREFIX_BYTES + 36) || (MAX_SERVER_SETUP_BYTES <? zlen response)
      || negb (bool_decide (slice_to response (zlen SERVER_HEADER) = SERVER_HEADER))
    with Protocol Record_;
  let start := zlen SERVER_HEADER in
  let session_id := slice response start (start + 32) in
  let idle_seconds := be_value (slice response (start + 32) (start + 36)) in
  reject idle_seconds =? 0 with Protocol Record_;
  let length := be_value (slice response (SERVER_PREFIX_BYTES + 32) (SERVER_PREFIX_BYTES + 36)) in
  let payload := slice_from response (SERVER_PREFIX_BYTES + 36) in
  reject negb (length =? zlen payload) with Protocol Record_;
  let? evidence := map_err SetupEvidenceError (SessionEvidence_from_bytes payload) in
  Ok {| sv_prefix := slice_to response SERVER_PREFIX_BYTES;
        sv_enc := slice response (start + 36) (SERVER_PREFIX_BYTES - PUBLIC_KEY_BYTES);
        sv_confirmation := slice response SERVER_PREFIX_BYTES (SERVER_PREFIX_BYTES + 32);
        sv_ratchet_key := slice response (SERVER_PREFIX_BYTES - PUBLIC_KEY_BYTES) SERVER_PREFIX_BYTES;
        sv_session_id := session_id;
        sv_idle_seconds := idle_seconds;
        sv_evidence := evidence |}.

Section Setup.
Context `{Kdf} `{Hash} `{Aead} `{Agreement} `{Hpke} `{Random}.

Definition transcript_hash (hello prefix boot_hash : bytes) : bytes :=
  sha256 (TRANSCRIPT_DOMAIN ++ hello ++ prefix ++ boot_hash).

Definition prepare_server_setup (environment : Environment) (hello : bytes) (idle_seconds : Z)
    (boot_hash : bytes) (g : rng) : rng * result PreparedServerSetup Error :=
  if negb (zlen hello =? CLIENT_SETUP_BYTES)
     || negb (bool_decide (slice_to hello (zlen CLIENT_HEADER) = CLIENT_HEADER))
     || negb (bool_decide (slice hello (zlen CLIENT_HEADER) (zlen CLIENT_HEADER + 1)
                           = [environment_byte environment]))
     || (idle_seconds =? 0)
  then (g, Err Record_) else
  let classical := slice_from hello (CLIENT_SETUP_BYTES - 32) in
  match x25519_ecdh classical (zeros 32),
        XWing_public_from_bytes (slice_from hello (zlen CLIENT_HEADER + 1 + 32)) with
  | None, _ => (g, Err Record_)
  | _, None => (g, Err Record_)
  | Some _, Some public_key =>
      match setup_sender public_key (INFO_DOMAIN ++ sha256 hello) g with
      | (g, None) => (g, Err Crypto)
      | (g, Some (enc, sender)) =>
          match rng_fill g 32 with
          | (g, None) => (g, Err Crypto)
          | (g, Some session_id) =>
              match InitialKey_generate g with
              | (g, Err e) => (g, Err e)
              | (g, Ok initial) =>
                  let prefix := SERVER_HEADER ++ session_id ++ u32_be idle_seconds ++ enc
                                ++ kp_public initial in
                  let transcript := transcript_hash hello prefix boot_hash in
                  (g,
                   let? root := ok_or (export sender (ROOT_DOMAIN ++ transcript) 32) Crypto in
                   let? confirmation :=
                     ok_or (export sender (CONFIRMATION_DOMAIN ++ transcript) 32) Crypto in
                   Ok {| pss_session := ServerSession_new root session_id initial;
                         pss_session_id := session_id;
                         pss_transcript := transcript;
                         pss_response_prefix := prefix ++ confirmation |})
              end
          end
      end
  end.

Definition PendingSetup_new {V} (environment : Environment) (g : rng)
  : rng * result PendingSetup (SetupError V) :=
  match rng_fill g 32 with
  | (g, None) => (g, Err (Protocol Crypto))
  | (g, Some seed) =>
      match XWing_private_from_bytes seed with
      | None => (g, Err (Protocol Crypto))
      | Some private_key =>
          match rng_fill g 32 with
          | (g, None) => (g, Err (Protocol Crypto))
          | (g, Some challenge) =>
              (g, Ok {| pd_private_key := Some private_key;
                        pd_hello := CLIENT_HEADER ++ [environment_byte environment] ++ challenge
                                    ++ XWing_sk_to_pk private_key;
                        pd_environment := environment |})
          end
      end
  end.

Definition PendingSetup_transcript (p : PendingSetup) (parsed : SetupEvidence) : bytes :=
  transcript_hash (pd_hello p) (sv_prefix parsed) (sha256 (se_boot_document (sv_evidence parsed))).

Definition PendingSetup_inspect {V} (p : PendingSetup) (response : bytes)
  : result SetupEvidence (SetupError V) :=
  reject (match pd_private_key p with None => true | Some _ => false end) with Protocol Closed;
  let? parsed := SetupEvidence_parse response in
  let transcript := PendingSetup_transcript p parsed in
  let? _ := map_err SetupBinding (BatchProof_verify (se_proof (sv_evidence parsed))
    (E2eeSession (pd_environment p) (sha256 (se_boot_document (sv_evidence parsed))) transcript)
    (slice (se_report (sv_evidence parsed)) 80 144)) in
  Ok parsed.

(** [finish] takes the private key before the possession check. *)
Definition PendingSetup_finish {V} (p : PendingSetup) (parsed : SetupEvidence)
  : PendingSetup * result (ClientSession * Shared) (SetupError V) :=
  let info := INFO_DOMAIN ++ sha256 (pd_hello p) in
  match XWing_encapped_from_bytes (sv_enc parsed) with
  | None => (p, Err (Protocol Crypto))
  | Some enc =>
      match pd_private_key p with
      | None => (p, Err (Protocol Closed))
      | Some private_key =>
          let p' := {| pd_private_key := None; pd_hello := pd_hello p;
                       pd_environment := pd_environment p |} in
          (p',
           let? recipient := ok_or (setup_receiver private_key enc info) (Protocol Crypto) in
           let transcript := PendingSetup_transcript p parsed in
           let? confirmation :=
             ok_or (export recipient (CONFIRMATION_DOMAIN ++ transcript) 32) (Protocol Crypto) in
           reject negb (bool_decide (confirmation = sv_confirmation parsed)) with Protocol Authentication;
           let? root := ok_or (export recipient (ROOT_DOMAIN ++ transcript) 32) (Protocol Crypto) in
           map_err Protocol (ClientSession_new root (sv_session_id parsed) (sv_idle_seconds parsed)
             (sv_ratchet_key parsed)))
      end
  end.

(** [complete]: the caller's verifier decides on the evidence before the key is used. *)
Definition PendingSetup_complete {V} (p : PendingSetup) (response : bytes)
    (verify : SessionEvidence -> result unit V)
  : PendingSetup * result (ClientSession * Shared) (SetupError V) :=
  match (let? parsed := PendingSetup_inspect p response in
         let? _ := map_err Verification (verify (sv_evidence parsed)) in Ok parsed) with
  | Err e => (p, Err e)
  | Ok parsed => PendingSetup_finish p parsed
  end.

(** [inspect_verified] and [complete_verified] with a snapshot's environment and its
    session verifier. *)
Definition PendingSetup_inspect_verified {V T} (p : PendingSetup) (response : bytes)
    (snapshot_environment : Environment) (verify : SessionEvidence -> result T V)
  : result (SetupEvidence * T) (SetupError V) :=
  reject negb (bool_decide (pd_environment p = snapshot_environment)) with Appraisal ApprovalAuthority;
  let? parsed := PendingSetup_inspect p response in
  let? verified := map_err (fun e => Appraisal (VerifierError e)) (verify (sv_evidence parsed)) in
  Ok (parsed, verified).

Definition PendingSetup_check_evidence {V T} (p : PendingSetup) (response : bytes)
    (snapshot_environment : Environment) (verify : SessionEvidence -> result T V)
  : result T (SetupError V) :=
  let? (_, verified) := PendingSetup_inspect_verified p response snapshot_environment verify in
  Ok verified.

Definition PendingSetup_complete_verified {V T} (p : PendingSetup) (response : bytes)
    (snapshot_environment : Environment) (verify : SessionEvidence -> result T V)
  : PendingSetup * result (ClientSession * Shared * T) (SetupError V) :=
  match PendingSetup_inspect_verified p response snapshot_environment verify with
  | Err e => (p, Err e)
  | Ok (parsed, verified) =>
      let (p', out) := PendingSetup_finish p parsed in
      (p', let? session := out in Ok (session, verified))
  end.

End Setup.
