(* ===== verification/SetupTheory.v ===== *)
(** Session setup: both sides of an honest setup reach the same session, a session
    requires accepted evidence bound to this very exchange, and a pending setup
    establishes at most one. *)

From S2P Require Import Prelude Primitives Record Ratchet RatchetAgreement Window Session.
From S2P Require Import Attestation MerkleTheory AttestationTheory Setup.

Open Scope Z_scope.

Lemma slice_part (l k rest all : bytes) a b :
  all = l ++ k ++ rest -> a = zlen l -> b = zlen l + zlen k -> slice all a b = k.
Proof. intros ->. apply slice_here. Qed.

Lemma slice_mid {A} (l : list A) a m b : 0 <= a <= m -> m <= b -> slice l a b = slice l a m ++ slice l m b.
Proof.
  intros Ha Hb. unfold slice.
  replace (Z.to_nat (b - a)) with (Z.to_nat (m - a) + Z.to_nat (b - m))%nat by lia.
  rewrite <- take_take_drop, drop_drop. do 3 f_equal. lia.
Qed.

(** Splits a framed message into the part before, the part and the part after. *)
Ltac part l := eapply (slice_part l); [by rewrite <- ?app_assoc|zlen_norm; lia|zlen_norm; lia].

(** ** Framing of the server's response *)

Lemma parse_framed {V} id idle enc pub conf payload evidence :
  zlen id = 32 -> 0 < idle <= u32_max -> zlen enc = 1120 -> zlen pub = PUBLIC_KEY_BYTES -> zlen conf = 32 ->
  SessionEvidence_from_bytes payload = Ok evidence ->
  let prefix := SERVER_HEADER ++ id ++ u32_be idle ++ enc ++ pub in
  SetupEvidence_parse (V := V) ((prefix ++ conf) ++ u32_be (zlen payload) ++ payload) =
  Ok {| sv_prefix := prefix; sv_enc := enc; sv_confirmation := conf; sv_ratchet_key := pub;
        sv_session_id := id; sv_idle_seconds := idle; sv_evidence := evidence |}.
Proof.
  intros Hid Hidle Henc Hpub Hconf Hev prefix.
  assert (zlen payload <= MAX_EVIDENCE_BYTES) as Hmax.
  { unfold SessionEvidence_from_bytes in Hev. destruct (_ <? _) eqn:E in Hev; [done|]. by zbool. }
  pose proof (zlen_nonneg payload) as Hp0. unfold u32_max, MAX_EVIDENCE_BYTES in *.
  assert (zlen SERVER_HEADER = 6) as Hh by done.
  assert (SERVER_PREFIX_BYTES = 2378) as Hspb by done. assert (PUBLIC_KEY_BYTES = 1216) as Hpkb by done.
  assert (MAX_SERVER_SETUP_BYTES = 2378 + 36 + 58 * 1024) as Hmsb by done.
  unfold SetupEvidence_parse. rewrite Hspb, Hpkb, Hmsb, Hh in *. cbv zeta.
  set (all := (prefix ++ conf) ++ u32_be (zlen payload) ++ payload).
  assert (zlen prefix = 2378) as Hpre by (unfold prefix; zlen_norm; lia).
  assert (zlen all = 2414 + zlen payload) as Hall by (unfold all; zlen_norm; lia).
  assert (slice_to all 6 = SERVER_HEADER) as S0
    by (unfold all, prefix; rewrite <- !app_assoc; by apply slice_to_app).
  assert (slice all 6 (6 + 32) = id) as S1 by (unfold all, prefix; part SERVER_HEADER).
  assert (slice all (6 + 32) (6 + 36) = u32_be idle) as S2
    by (unfold all, prefix; part (SERVER_HEADER ++ id)).
  assert (slice all (2378 + 32) (2378 + 36) = u32_be (zlen payload)) as S3 by (unfold all; part (prefix ++ conf)).
  assert (slice_from all (2378 + 36) = payload) as S4
    by (unfold all; rewrite app_assoc; apply slice_from_app; zlen_norm; lia).
  assert (slice_to all 2378 = prefix) as S5 by (unfold all; rewrite <- !app_assoc; by apply slice_to_app).
  assert (slice all (6 + 36) (2378 - 1216) = enc) as S6
    by (unfold all, prefix; part (SERVER_HEADER ++ id ++ u32_be idle)).
  assert (slice all 2378 (2378 + 32) = conf) as S7 by (unfold all; part prefix).
  assert (slice all (2378 - 1216) 2378 = pub) as S8
    by (unfold all, prefix; part (SERVER_HEADER ++ id ++ u32_be idle ++ enc)).
  rewrite S0, S1, S2, S3, S4, S5, S6, S7, S8, Hall, bool_decide_true by done.
  rewrite !be_value_bytes_small by lia. rewrite !(proj2 (Z.ltb_ge _ _)) by lia. simpl orb. cbn match.
  rewrite (proj2 (Z.eqb_neq _ _)) by lia. rewrite Z.eqb_refl. simpl negb. cbn match. by rewrite Hev.
Qed.

(** Every byte of a parsed response is one of its fields. *)
Lemma parse_spec {V} response p :
  SetupEvidence_parse (V := V) response = Ok p ->
  exists payload,
    response = (sv_prefix p ++ sv_confirmation p) ++ u32_be (zlen payload) ++ payload /\
    SessionEvidence_from_bytes payload = Ok (sv_evidence p) /\
    sv_prefix p = SERVER_HEADER ++ sv_session_id p ++ u32_be (sv_idle_seconds p) ++ sv_enc p ++ sv_ratchet_key p /\
    zlen (sv_session_id p) = 32 /\ 0 < sv_idle_seconds p <= u32_max /\ zlen (sv_enc p) = 1120 /\
    zlen (sv_ratchet_key p) = PUBLIC_KEY_BYTES /\ zlen (sv_confirmation p) = 32.
Proof.
  unfold SetupEvidence_parse. change (zlen SERVER_HEADER) with 6. change SERVER_PREFIX_BYTES with 2378.
  change PUBLIC_KEY_BYTES with 1216. unfold u32_max.
  destruct (_ || _) eqn:E1; [done|]. destruct (_ =? 0) eqn:E2; [done|]. zbool. destruct (negb _) eqn:E3; [done|].
  destruct (SessionEvidence_from_bytes _) as [ev|] eqn:Hev; [|done]. simpl map_err. cbn match.
  intros [= <-]. cbn [sv_prefix sv_confirmation sv_evidence sv_session_id sv_idle_seconds sv_enc sv_ratchet_key].
  zbool. match goal with H : slice_to _ _ = _ |- _ => rename H into Hheader end.
  exists (slice_from response (2378 + 36)).
  pose proof (be_value_range (slice response (6 + 32) (6 + 36))) as Hr. rewrite zlen_slice in Hr by lia.
  assert (forall a b, 0 <= a -> a <= b <= 2414 -> zlen (slice response a b) = b - a) as Hz
    by (intros; apply zlen_slice; lia).
  rewrite <- E3. rewrite !be_bytes_slice by (rewrite Hz; lia).
  split_and!; try done; try (rewrite Hz; lia); try lia.
  - rewrite <- app_assoc, <- (slice_0 response 2378). rewrite !app_assoc, <- !slice_mid by lia.
    by rewrite slice_0, slice_to_from.
  - rewrite <- Hheader, <- !(slice_0 response), !app_assoc, <- !slice_mid by lia. done.
Qed.

Section SetupTheory.
Context `{KdfLaws} `{HashLaws} `{Aead} `{AgreementLaws} `{Hpke} `{!HpkeLaws} `{RandomLaws}.

(** What a server that prepared a setup did. *)
Lemma prepare_inv environment hello idle boot_hash g g' prepared :
  prepare_server_setup environment hello idle boot_hash g = (g', Ok prepared) ->
  exists g1 coins enc shared seed root confirmation,
    let public := slice_from hello (zlen CLIENT_HEADER + 1 + 32) in
    let info := INFO_DOMAIN ++ sha256 hello in
    let prefix := SERVER_HEADER ++ pss_session_id prepared ++ u32_be idle ++ enc
                  ++ kp_public (KeyPair_from_seed seed) in
    (rng_fill g 64).2 = Some coins /\ xwing_encaps public coins = Some (enc, shared) /\
    (rng_fill g1 32).2 = Some (pss_session_id prepared) /\ idle <> 0 /\
    pss_transcript prepared = transcript_hash hello prefix boot_hash /\
    hpke_export shared info (ROOT_DOMAIN ++ pss_transcript prepared) 32 = Some root /\
    hpke_export shared info (CONFIRMATION_DOMAIN ++ pss_transcript prepared) 32 = Some confirmation /\
    pss_response_prefix prepared = prefix ++ confirmation /\
    pss_session prepared = ServerSession_new root (pss_session_id prepared) (KeyPair_from_seed seed).
Proof.
  unfold prepare_server_setup. destruct (_ || _ || _ || _) eqn:E; [done|]. zbool.
  destruct (x25519_ecdh _ _); [|done]. unfold XWing_public_from_bytes.
  set (public := slice_from hello (zlen CLIENT_HEADER + 1 + 32)). destruct (_ && _); [|done].
  unfold setup_sender, XWing_encap_with_rng. destruct (rng_fill g 64) as [g1 [coins|]] eqn:Hc; [|done].
  destruct (xwing_encaps public coins) as [[enc shared]|] eqn:Hx; [|done].
  destruct (rng_fill g1 32) as [g2 [id|]] eqn:Hid; [|done]. unfold InitialKey_generate.
  destruct (rng_fill g2 32) as [g3 [seed|]]; [|done]. unfold export. cbn [hx_shared hx_info].
  set (t := transcript_hash _ _ _).
  destruct (hpke_export _ _ (ROOT_DOMAIN ++ t) 32) as [root|] eqn:Hr; [|done].
  destruct (hpke_export _ _ (CONFIRMATION_DOMAIN ++ t) 32) as [conf|] eqn:Hf; [|done].
  intros [= <- <-]. exists g1, coins, enc, shared, seed, root, conf. simpl. rewrite Hid. split_and!; try done.
Qed.

Lemma client_session_total root id idle seed :
  exists session sh, ClientSession_new root id idle (kp_public (KeyPair_from_seed seed)) = Ok (session, sh).
Proof.
  unfold ClientSession_new, Peer_initiator. rewrite (proj2 (from_seed_public seed)). simpl. eauto.
Qed.

Lemma PendingSetup_new_inv {V} environment g g' p :
  PendingSetup_new (V := V) environment g = (g', Ok p) ->
  exists key challenge, pd_private_key p = Some key /\
    pd_hello p = CLIENT_HEADER ++ [environment_byte environment] ++ challenge ++ xwing_keygen key /\
    pd_environment p = environment /\ zlen challenge = 32.
Proof.
  unfold PendingSetup_new. destruct (rng_fill g 32) as [g1 [seed|]]; [|done].
  unfold XWing_private_from_bytes. destruct (_ =? _); [|done].
  destruct (rng_fill g1 32) as [g2 [challenge|]] eqn:Hc; [|done]. intros [= <- <-].
  exists seed, challenge. split_and!; try done. by eapply rng_fill_length.
Qed.

(** A setup that failed nothing, seen from the client. *)
Lemma finish_ok {V} p parsed key enc shared root :
  pd_private_key p = Some key -> XWing_encapped_from_bytes (sv_enc parsed) = Some enc ->
  xwing_decaps key enc = Some shared ->
  let info := INFO_DOMAIN ++ sha256 (pd_hello p) in
  let t := PendingSetup_transcript p parsed in
  hpke_export shared info (CONFIRMATION_DOMAIN ++ t) 32 = Some (sv_confirmation parsed) ->
  hpke_export shared info (ROOT_DOMAIN ++ t) 32 = Some root ->
  PendingSetup_finish (V := V) p parsed =
    ({| pd_private_key := None; pd_hello := pd_hello p; pd_environment := pd_environment p |},
     map_err Protocol (ClientSession_new root (sv_session_id parsed) (sv_idle_seconds parsed)
       (sv_ratchet_key parsed))).
Proof.
  intros Hk He Hd info t Hc Hr. unfold PendingSetup_finish. rewrite He, Hk.
  unfold setup_receiver, XWing_decap, export. rewrite Hd. cbn [ok_or hx_shared hx_info].
  fold info t. rewrite Hc. cbn [ok_or].
  rewrite bool_decide_true by done. cbn [negb]. fold info t. by rewrite Hr.
Qed.

(** Honest setups agree: a server that prepared a client's hello and returns
    evidence for its transcript that the client's verifier accepts leaves both sides
    with one session: same identifier, same root, and the server's ratchet key the one
    the client starts from, which is what the first exchange of a session needs. The
    client's one-time key is gone afterwards. *)
Theorem setup_agreement {V} environment gc gc' pending idle doc gs gs' prepared report encoded incl payload
    proof (verify : SessionEvidence -> result unit V) :
  PendingSetup_new (V := V) environment gc = (gc', Ok pending) ->
  prepare_server_setup environment (pd_hello pending) idle (sha256 doc) gs = (gs', Ok prepared) ->
  0 <= idle <= u32_max ->
  BatchProof_from_bytes encoded = Ok proof ->
  session_evidence report encoded doc incl false = Ok payload ->
  BatchProof_verify proof (E2eeSession environment (sha256 doc) (pss_transcript prepared))
    (slice report 80 144) = Ok tt ->
  verify {| se_report := report; se_proof := proof; se_boot_document := doc; se_boot_inclusion := incl |} = Ok tt ->
  exists seed root session sh,
    pss_session prepared = ServerSession_new root (pss_session_id prepared) (KeyPair_from_seed seed) /\
    ClientSession_new root (pss_session_id prepared) idle (kp_public (KeyPair_from_seed seed)) = Ok (session, sh) /\
    PendingSetup_complete pending (pss_response_prefix prepared ++ u32_be (zlen payload) ++ payload) verify =
      ({| pd_private_key := None; pd_hello := pd_hello pending; pd_environment := environment |},
       Ok (session, sh)).
Proof.
  intros Hnew Hprep Hidle Hproof Hse Hverify Hv.
  destruct (prepare_inv _ _ _ _ _ _ _ Hprep)
    as (g1 & coins & enc & shared & seed & root & conf & Hc & Hx & Hid & Hi0 & Ht & Hr & Hf & Hpre & Hsess).
  destruct (client_session_total root (pss_session_id prepared) idle seed) as (session & sh & Hs).
  exists seed, root, session, sh. split_and!; [done..|].
  destruct (PendingSetup_new_inv _ _ _ _ Hnew) as (key & challenge & Hkey & Hhello & Henv & Hzc).
  assert (slice_from (pd_hello pending) (zlen CLIENT_HEADER + 1 + 32) = xwing_keygen key) as Hpub.
  { rewrite Hhello, !app_assoc. apply slice_from_app. zlen_norm. lia. }
  rewrite Hpub in Hx. pose proof (xwing_ciphertext_length _ _ _ _ Hx) as Henc.
  assert (zlen (pss_session_id prepared) = 32) as Hidl.
  { destruct (rng_fill g1 32) as [g2 o] eqn:E. simpl in Hid. subst o. by eapply rng_fill_length. }
  unfold session_evidence in Hse. rewrite Hproof in Hse. simpl in Hse.
  destruct (SessionEvidence_encode report proof doc incl) as [pl|] eqn:He; [|done]. injection Hse as ->.
  destruct (evidence_decode_encode _ _ _ _ _ _ Hproof He) as [Hdec _].
  pose proof (hpke_export_length _ _ _ 32 _ ltac:(done) Hf) as Hcl.
  unfold PendingSetup_complete, PendingSetup_inspect. rewrite Hkey, Hpre.
  rewrite (parse_framed _ idle _ _ _ _ _ Hidl ltac:(lia) Henc (proj1 (from_seed_public seed)) Hcl Hdec).
  cbn match. unfold PendingSetup_transcript. cbn [sv_prefix sv_evidence se_boot_document se_proof se_report].
  rewrite <- Ht, Henv, Hverify. cbn [map_err sv_evidence]. rewrite Hv. cbn [map_err].
  erewrite finish_ok; cbn [sv_enc sv_session_id sv_idle_seconds sv_ratchet_key sv_confirmation]; try done.
  - by rewrite Hs, Henv.
  - unfold XWing_encapped_from_bytes. by rewrite Henc.
  - by eapply xwing_correct.
  - unfold PendingSetup_transcript. cbn [sv_prefix sv_evidence se_boot_document]. by rewrite <- Ht.
  - unfold PendingSetup_transcript. cbn [sv_prefix sv_evidence se_boot_document]. by rewrite <- Ht.
Qed.

(** What a completed setup checked. *)
Lemma finish_inv {V} p parsed p' session :
  PendingSetup_finish (V := V) p parsed = (p', Ok session) ->
  exists key shared root,
    let info := INFO_DOMAIN ++ sha256 (pd_hello p) in
    let t := PendingSetup_transcript p parsed in
    pd_private_key p = Some key /\ xwing_decaps key (sv_enc parsed) = Some shared /\
    hpke_export shared info (CONFIRMATION_DOMAIN ++ t) 32 = Some (sv_confirmation parsed) /\
    hpke_export shared info (ROOT_DOMAIN ++ t) 32 = Some root /\
    ClientSession_new root (sv_session_id parsed) (sv_idle_seconds parsed) (sv_ratchet_key parsed) = Ok session.
Proof.
  unfold PendingSetup_finish, XWing_encapped_from_bytes. destruct (_ =? _); [|done].
  destruct (pd_private_key p) as [key|]; [|done]. unfold setup_receiver, XWing_decap, export.
  destruct (xwing_decaps key (sv_enc parsed)) as [shared|] eqn:Hd; [|done]. cbn [ok_or hx_shared hx_info].
  set (t := PendingSetup_transcript p parsed). set (info := INFO_DOMAIN ++ sha256 (pd_hello p)).
  destruct (hpke_export shared info (CONFIRMATION_DOMAIN ++ t) 32) as [conf|] eqn:Hc; [|done]. cbn [ok_or].
  destruct (bool_decide (conf = _)) eqn:Hb; [|done]. cbn [negb]. fold t info. zbool. subst conf.
  destruct (hpke_export shared info (ROOT_DOMAIN ++ t) 32) as [root|] eqn:Hr; [|done]. cbn [ok_or].
  destruct (ClientSession_new root _ _ _) as [s|] eqn:Hs; [|done]. cbn [map_err]. intros [= <- <-].
  by exists key, shared, root.
Qed.

(** C2. No session without evidence: when setup completes, every byte of the response
    is one of the parsed fields, the verifier accepted exactly the evidence it carries,
    the quoted report commits to the transcript of this hello and this response under
    the expected environment, and the server proved that it holds the secret
    encapsulated to this hello's key, from which the session's root is exported. *)
Theorem setup_requires_evidence {V} p response (verify : SessionEvidence -> result unit V) p' session :
  PendingSetup_complete p response verify = (p', Ok session) ->
  exists key shared root parsed payload,
    let boot := sha256 (se_boot_document (sv_evidence parsed)) in
    let transcript := sha256 (TRANSCRIPT_DOMAIN ++ pd_hello p
      ++ (SERVER_HEADER ++ sv_session_id parsed ++ u32_be (sv_idle_seconds parsed) ++ sv_enc parsed
          ++ sv_ratchet_key parsed) ++ boot) in
    let info := INFO_DOMAIN ++ sha256 (pd_hello p) in
    response = (sv_prefix parsed ++ sv_confirmation parsed) ++ u32_be (zlen payload) ++ payload /\
    SessionEvidence_from_bytes payload = Ok (sv_evidence parsed) /\
    verify (sv_evidence parsed) = Ok tt /\
    BatchProof_verify (se_proof (sv_evidence parsed)) (E2eeSession (pd_environment p) boot transcript)
      (slice (se_report (sv_evidence parsed)) 80 144) = Ok tt /\
    pd_private_key p = Some key /\ xwing_decaps key (sv_enc parsed) = Some shared /\
    hpke_export shared info (CONFIRMATION_DOMAIN ++ transcript) 32 = Some (sv_confirmation parsed) /\
    hpke_export shared info (ROOT_DOMAIN ++ transcript) 32 = Some root /\
    ClientSession_new root (sv_session_id parsed) (sv_idle_seconds parsed) (sv_ratchet_key parsed) = Ok session.
Proof.
  unfold PendingSetup_complete, PendingSetup_inspect.
  destruct (pd_private_key p) as [k|] eqn:Hk; [|done]. cbn match.
  destruct (SetupEvidence_parse response) as [parsed|] eqn:Hparse; [|done].
  destruct (BatchProof_verify _ _ _) as [[]|] eqn:Hb; [|done]. cbn [map_err].
  destruct (verify (sv_evidence parsed)) as [[]|] eqn:Hv; [|done]. cbn [map_err]. intros Hf.
  destruct (finish_inv _ _ _ _ Hf) as (key & shared & root & Hkey & Hd & Hc & Hr & Hs).
  destruct (parse_spec _ _ Hparse) as (payload & Hresp & Hev & Hpre & _).
  unfold PendingSetup_transcript, transcript_hash in *. rewrite Hpre in Hb, Hc, Hr.
  exists key, shared, root, parsed, payload. cbv zeta. split_and!; [done..|congruence|done|done|done|done].
Qed.

(** ** Repeated attempts *)

(** A verifier's answers to a sequence of responses for one pending setup, as during
    evidence recovery. *)
Fixpoint attempts {V} (p : PendingSetup) (l : list (bytes * (SessionEvidence -> result unit V)))
  : PendingSetup * list (result (ClientSession * Shared) (SetupError V)) :=
  match l with
  | [] => (p, [])
  | (response, verify) :: l =>
      let (p, out) := PendingSetup_complete p response verify in
      let (p, outs) := attempts p l in (p, out :: outs)
  end.

Definition established {V} (out : result (ClientSession * Shared) (SetupError V)) : bool :=
  match out with Ok _ => true | Err _ => false end.

Lemma attempts_closed {V} p (l : list (bytes * (SessionEvidence -> result unit V))) :
  pd_private_key p = None -> attempts p l = (p, replicate (length l) (Err (Protocol Closed))).
Proof.
  intros Hk. induction l as [|[response verify] l IH]; [done|]. simpl.
  unfold PendingSetup_complete, PendingSetup_inspect. rewrite Hk. cbn match. by rewrite IH.
Qed.

(** An attempt either leaves the setup as it was and reports an error, or spends the key. *)
Lemma complete_cases {V} p response (verify : SessionEvidence -> result unit V) p' out :
  PendingSetup_complete p response verify = (p', out) ->
  (p' = p /\ exists e, out = Err e) \/
  (pd_private_key p' = None /\ pd_hello p' = pd_hello p /\ pd_environment p' = pd_environment p).
Proof.
  unfold PendingSetup_complete, PendingSetup_finish. case_all; naive_solver.
Qed.

(** A pending setup establishes at most one session, however often it is completed:
    attempts before it fail and change nothing, attempts after it are refused as closed. *)
Theorem setup_at_most_once {V} p (l : list (bytes * (SessionEvidence -> result unit V))) :
  exists before after,
    (attempts p l).2 = before ++ after /\ Forall (fun out => established out = false) before /\
    match after with
    | [] => (attempts p l).1 = p
    | _ :: rest => Forall (fun out => out = Err (Protocol Closed)) rest
    end.
Proof.
  induction l as [|[response verify] l IH] in p |- *; [by exists [], []|]. simpl.
  destruct (PendingSetup_complete p response verify) as [p1 out] eqn:Hc.
  destruct (complete_cases _ _ _ _ _ Hc) as [[-> [e ->]]|(Hk & _ & _)].
  - destruct (IH p) as (before & after & Hout & Hb & Ha). destruct (attempts p l) as [p2 outs]. simpl in *. subst.
    exists (Err e :: before), after. split; [done|]. split; [by constructor|done].
  - rewrite attempts_closed by done. exists [], (out :: replicate (length l) (Err (Protocol Closed))).
    split; [done|]. split; [done|]. by apply Forall_replicate.
Qed.

End SetupTheory.
