(* ===== verification/Sse.v ===== *)
(** Response framing for receipts: [receipt/http.rs], the server-sent-event filter and
    the split of buffered responses. *)

From S2P Require Import Prelude Primitives.

Open Scope Z_scope.

Definition BUFFERED_STOGAS_FIELD : bytes := ascii "," ++ [x22] ++ ascii "stogas" ++ [x22] ++ ascii ":".
Definition BUFFERED_ONLY_STOGAS_FIELD : bytes :=
  ascii "{" ++ [x22] ++ ascii "stogas" ++ [x22] ++ ascii ":".
Definition MAX_METADATA_BYTES : Z := 16 * 1024.
Definition MAX_PROOF_BYTES : Z := MAX_METADATA_BYTES.
Definition SSE_RECEIPT_PREFIX : bytes := ascii ": stogas ".
Definition SSE_CHAT_TERMINAL_PREFIX : bytes := ascii "data: [DONE]".
Definition SSE_RESPONSES_TERMINAL_PREFIX : bytes := ascii "event: response.completed" ++ [x0a].
Definition SSE_RESPONSES_INCOMPLETE_TERMINAL_PREFIX : bytes :=
  ascii "event: response.incomplete" ++ [x0a].
Definition SSE_EVENT_END : bytes := [x0a; x0a].
Definition SSE_KEEPALIVE : bytes := ascii ": STOGAS PROCESSING" ++ [x0a; x0a].

(** The most bytes a stream accepts. *)
Definition SSE_LIMIT : Z := 64 * 1024 * 1024 + MAX_PROOF_BYTES + 64 * 1024.

(** [Error::ResponseProof], with the message that names the failure. *)
Inductive StreamError : Type := ResponseProof (message : bytes).

Inductive SseState : Type :=
| Boundary | Regular | Keepalive | Receipt | ChatTerminal | ResponsesTerminal | AfterTerminal.

#[export] Instance SseState_eq_dec : EqDecision SseState.
Proof. solve_decision. Defined.

Inductive PushAction : Type := Continue | Stop.

(** [sb_hashed] is what the hasher has been fed. *)
Record SseBody : Type := {
  sb_hashed : bytes;
  sb_buffer : bytes;
  sb_state : SseState;
  sb_proof_bytes : option bytes;
  sb_receipt_frame : option bytes;
  sb_failed : bool;
  sb_received : Z;
  sb_receipt_required : bool
}.

Definition SseBody_new : SseBody := {|
  sb_hashed := []; sb_buffer := []; sb_state := Boundary; sb_proof_bytes := None;
  sb_receipt_frame := None; sb_failed := false; sb_received := 0; sb_receipt_required := true |}.

Definition SseBody_transport : SseBody := {|
  sb_hashed := []; sb_buffer := []; sb_state := Boundary; sb_proof_bytes := None;
  sb_receipt_frame := None; sb_failed := false; sb_received := 0; sb_receipt_required := false |}.

(** Field updates. *)
Definition set_state (s : SseBody) (st : SseState) : SseBody := {|
  sb_hashed := sb_hashed s; sb_buffer := sb_buffer s; sb_state := st;
  sb_proof_bytes := sb_proof_bytes s; sb_receipt_frame := sb_receipt_frame s;
  sb_failed := sb_failed s; sb_received := sb_received s;
  sb_receipt_required := sb_receipt_required s |}.

Definition set_buffer (s : SseBody) (buffer : bytes) : SseBody := {|
  sb_hashed := sb_hashed s; sb_buffer := buffer; sb_state := sb_state s;
  sb_proof_bytes := sb_proof_bytes s; sb_receipt_frame := sb_receipt_frame s;
  sb_failed := sb_failed s; sb_received := sb_received s;
  sb_receipt_required := sb_receipt_required s |}.

Definition set_receipt (s : SseBody) (proof frame : option bytes) : SseBody := {|
  sb_hashed := sb_hashed s; sb_buffer := sb_buffer s; sb_state := sb_state s;
  sb_proof_bytes := proof; sb_receipt_frame := frame;
  sb_failed := sb_failed s; sb_received := sb_received s;
  sb_receipt_required := sb_receipt_required s |}.

Definition set_failed (s : SseBody) : SseBody := {|
  sb_hashed := sb_hashed s; sb_buffer := sb_buffer s; sb_state := sb_state s;
  sb_proof_bytes := sb_proof_bytes s; sb_receipt_frame := sb_receipt_frame s;
  sb_failed := true; sb_received := sb_received s;
  sb_receipt_required := sb_receipt_required s |}.

Definition set_received (s : SseBody) (n : Z) : SseBody := {|
  sb_hashed := sb_hashed s; sb_buffer := sb_buffer s; sb_state := sb_state s;
  sb_proof_bytes := sb_proof_bytes s; sb_receipt_frame := sb_receipt_frame s;
  sb_failed := sb_failed s; sb_received := n;
  sb_receipt_required := sb_receipt_required s |}.

(** [response_hasher.update]. *)
Definition hash_update (s : SseBody) (b : bytes) : SseBody := {|
  sb_hashed := sb_hashed s ++ b; sb_buffer := sb_buffer s; sb_state := sb_state s;
  sb_proof_bytes := sb_proof_bytes s; sb_receipt_frame := sb_receipt_frame s;
  sb_failed := sb_failed s; sb_received := sb_received s;
  sb_receipt_required := sb_receipt_required s |}.

(** ** Byte searches *)

(** [starts_with]. *)
Fixpoint starts_with (l p : bytes) {struct p} : bool :=
  match p, l with
  | [], _ => true
  | _, [] => false
  | y :: p, x :: l => bool_decide (x = y) && starts_with l p
  end.

(** The first window equal to the needle, which is not empty. *)
Fixpoint find_bytes (haystack needle : bytes) : option Z :=
  if starts_with haystack needle then Some 0
  else match haystack with
       | [] => None
       | _ :: rest => Z.succ <$> find_bytes rest needle
       end.

(** The last one, [rposition]. *)
Fixpoint rfind_bytes (haystack needle : bytes) : option Z :=
  match haystack with
  | [] => if starts_with haystack needle then Some 0 else None
  | _ :: rest =>
      match rfind_bytes rest needle with
      | Some i => Some (Z.succ i)
      | None => if starts_with haystack needle then Some 0 else None
      end
  end.

Inductive BoundaryKind : Type :=
| NeedMore | ReceiptKind | ChatTerminalKind | ResponsesTerminalKind | RegularKind | KeepaliveKind.

Definition boundary_prefixes : list (bytes * BoundaryKind) :=
  [(SSE_RECEIPT_PREFIX, ReceiptKind); (SSE_KEEPALIVE, KeepaliveKind);
   (SSE_CHAT_TERMINAL_PREFIX, ChatTerminalKind);
   (SSE_RESPONSES_TERMINAL_PREFIX, ResponsesTerminalKind);
   (SSE_RESPONSES_INCOMPLETE_TERMINAL_PREFIX, ResponsesTerminalKind)].

Definition classify_sse_boundary (buffer : bytes) : BoundaryKind :=
  match List.find (fun '(prefix, _) => starts_with buffer prefix) boundary_prefixes with
  | Some (_, kind) => kind
  | None =>
      if existsb (fun '(prefix, _) => starts_with prefix buffer) boundary_prefixes
      then NeedMore else RegularKind
  end.

(** ** The filter *)

(** A step's new state, the bytes it released and what to do next. *)
Definition outcome : Type := SseBody * list bytes * result PushAction StreamError.

Definition sse_error (message : bytes) : result PushAction StreamError := Err (ResponseProof message).

Definition safe_incomplete_length (s : SseBody) : Z :=
  Z.max 0 (zlen (sb_buffer s)
    - if bool_decide (last (sb_buffer s) = Some x0a) then 1 else 0).

(** The taken bytes and the state that keeps the rest. *)
Definition take_buffer_prefix (s : SseBody) (length : Z) : bytes * SseBody :=
  (slice_to (sb_buffer s) length, set_buffer s (slice_from (sb_buffer s) length)).

Definition begin_terminal (s : SseBody) (state : SseState) : outcome :=
  match sb_receipt_frame s with
  | Some receipt => (set_state (set_receipt s (sb_proof_bytes s) None) state, [receipt], Ok Continue)
  | None =>
      if sb_receipt_required s
      then (s, [], sse_error (ascii "terminal event arrived before the receipt"))
      else (set_state s state, [], Ok Continue)
  end.

Definition push_boundary (s : SseBody) : outcome :=
  match sb_buffer s with
  | [] => (s, [], Ok Stop)
  | _ =>
      match classify_sse_boundary (sb_buffer s) with
      | NeedMore => (s, [], Ok Stop)
      | ReceiptKind =>
          match sb_proof_bytes s with
          | Some _ => (s, [], sse_error (ascii "stream contains more than one receipt"))
          | None => (set_state s Receipt, [], Ok Continue)
          end
      | ChatTerminalKind => begin_terminal s ChatTerminal
      | ResponsesTerminalKind => begin_terminal s ResponsesTerminal
      | RegularKind =>
          match sb_proof_bytes s with
          | Some _ => (s, [], sse_error (ascii "the receipt is not immediately before the terminal event"))
          | None => (set_state s Regular, [], Ok Continue)
          end
      | KeepaliveKind =>
          match sb_proof_bytes s with
          | Some _ => (s, [], sse_error (ascii "the receipt is not immediately before the terminal event"))
          | None => (set_state s Keepalive, [], Ok Continue)
          end
      end
  end.

Definition push_regular (s : SseBody) : outcome :=
  match find_bytes (sb_buffer s) SSE_EVENT_END with
  | Some end_ =>
      let (bytes, s) := take_buffer_prefix s (end_ + zlen SSE_EVENT_END) in
      (set_state (hash_update s bytes) Boundary, [bytes], Ok Continue)
  | None =>
      let safe := safe_incomplete_length s in
      if 0 <? safe then
        let (bytes, s) := take_buffer_prefix s safe in (hash_update s bytes, [bytes], Ok Stop)
      else (s, [], Ok Stop)
  end.

Definition push_keepalive (s : SseBody) : outcome :=
  let (bytes, s) := take_buffer_prefix s (zlen SSE_KEEPALIVE) in
  (set_state s Boundary, [bytes], Ok Continue).

Definition push_receipt (s : SseBody) : outcome :=
  match find_bytes (sb_buffer s) SSE_EVENT_END with
  | None =>
      if zlen SSE_RECEIPT_PREFIX + MAX_PROOF_BYTES + zlen SSE_EVENT_END <? zlen (sb_buffer s)
      then (s, [], sse_error (ascii "stream receipt exceeds its size limit"))
      else (s, [], Ok Stop)
  | Some end_ =>
      let (frame, s) := take_buffer_prefix s (end_ + zlen SSE_EVENT_END) in
      let proof_end := zlen frame - zlen SSE_EVENT_END in
      let proof := slice frame (zlen SSE_RECEIPT_PREFIX) proof_end in
      if (zlen proof =? 0) || (MAX_PROOF_BYTES <? zlen proof) || bool_decide (x0a ∈ proof)
      then (s, [], sse_error (ascii "stream receipt has an invalid size or encoding"))
      else (set_state (set_receipt s (Some proof) (Some frame)) Boundary, [], Ok Continue)
  end.

Definition push_after_terminal (s : SseBody) : outcome :=
  match sb_buffer s with
  | [] => (s, [], Ok Stop)
  | _ => (s, [], sse_error (ascii "stream contains bytes after its terminal event"))
  end.

Definition finish_terminal_frame (s : SseBody) (frame : bytes) : outcome :=
  let s := set_state (hash_update s frame) AfterTerminal in
  let '(s, _, r) := push_after_terminal s in
  (s, [slice_to frame (zlen frame - zlen SSE_EVENT_END)], r).

Definition push_chat_terminal (s : SseBody) : outcome :=
  let expected := SSE_CHAT_TERMINAL_PREFIX ++ SSE_EVENT_END in
  if zlen (sb_buffer s) <? zlen expected then
    if negb (starts_with expected (sb_buffer s))
    then (s, [], sse_error (ascii "Chat terminal event is malformed"))
    else (s, [], Ok Stop)
  else
    let (frame, s) := take_buffer_prefix s (zlen expected) in
    if negb (bool_decide (frame = expected))
    then (s, [], sse_error (ascii "Chat terminal event is malformed"))
    else finish_terminal_frame s frame.

Definition push_responses_terminal (s : SseBody) : outcome :=
  match find_bytes (sb_buffer s) SSE_EVENT_END with
  | Some end_ =>
      let (frame, s) := take_buffer_prefix s (end_ + zlen SSE_EVENT_END) in
      finish_terminal_frame s frame
  | None =>
      let safe := safe_incomplete_length s in
      if 0 <? safe then
        let (bytes, s) := take_buffer_prefix s safe in (hash_update s bytes, [bytes], Ok Stop)
      else (s, [], Ok Stop)
  end.

(** The body of the loop in [push_part]. *)
Definition sse_step (s : SseBody) : outcome :=
  match sb_state s with
  | Boundary => push_boundary s
  | Regular => push_regular s
  | Keepalive => push_keepalive s
  | Receipt => push_receipt s
  | ChatTerminal => push_chat_terminal s
  | ResponsesTerminal => push_responses_terminal s
  | AfterTerminal => push_after_terminal s
  end.

(** The loop. Every [Continue] leaves a boundary state or consumes input, so twice the
    buffer length is enough fuel. *)
Fixpoint sse_loop (fuel : nat) (s : SseBody) : SseBody * result (list bytes) StreamError :=
  match fuel with
  | O => (s, Ok [])
  | S fuel =>
      match sse_step s with
      | (s, out, Ok Stop) => (s, Ok out)
      | (s, out, Ok Continue) =>
          let (s, r) := sse_loop fuel s in (s, let? more := r in Ok (out ++ more))
      | (s, _, Err e) => (s, Err e)
      end
  end.

Definition sse_fuel (s : SseBody) : nat := S (S (2 * length (sb_buffer s))).

Definition push_part (s : SseBody) (chunk : bytes) : SseBody * result (list bytes) StreamError :=
  if bool_decide (sb_state s = AfterTerminal) && negb (zlen chunk =? 0)
  then (s, Err (ResponseProof (ascii "stream contains bytes after its terminal event")))
  else
    let s := set_buffer s (sb_buffer s ++ chunk) in
    sse_loop (sse_fuel s) s.

(** [chunk.chunks(size)]. *)
Fixpoint parts (fuel : nat) (size : Z) (chunk : bytes) : list bytes :=
  match fuel, chunk with
  | O, _ => []
  | _, [] => []
  | S fuel, _ => slice_to chunk size :: parts fuel size (slice_from chunk size)
  end.

Fixpoint push_parts (s : SseBody) (l : list bytes) : SseBody * result (list bytes) StreamError :=
  match l with
  | [] => (s, Ok [])
  | part :: l =>
      match push_part s part with
      | (s, Err e) => (set_buffer (set_failed s) [], Err e)
      | (s, Ok out) =>
          let (s, r) := push_parts s l in (s, let? more := r in Ok (out ++ more))
      end
  end.

Definition SseBody_push (s : SseBody) (chunk : bytes) : SseBody * result (list bytes) StreamError :=
  if sb_failed s || (SSE_LIMIT - sb_received s <? zlen chunk)
  then (set_failed s, Err (ResponseProof (ascii "response stream is closed or exceeds its byte limit")))
  else push_parts (set_received s (sb_received s + zlen chunk))
         (parts (length chunk) (64 * 1024) chunk).

Definition require_complete (s : SseBody) : result unit StreamError :=
  reject sb_failed s || negb (bool_decide (sb_state s = AfterTerminal)) || negb (zlen (sb_buffer s) =? 0)
    with ResponseProof (ascii "stream ended before its signed terminal event");
  Ok tt.

(** The receipt's bytes and the digest of the content. *)
Definition SseBody_finish `{Hash} (s : SseBody) : result (bytes * bytes) StreamError :=
  let? _ := require_complete s in
  let? proof := ok_or (sb_proof_bytes s) (ResponseProof (ascii "stream has no receipt")) in
  Ok (proof, sha256 (sb_hashed s)).

(** ** Buffered responses *)

(** [object_of] is the strict JSON parser: whether the bytes are one value, and
    whether that value is an object. *)
Definition split_buffered_response (object_of : bytes -> option bool) (response_body : bytes)
    (max_body_bytes : Z) : result (bytes * bytes) StreamError :=
  reject max_body_bytes + MAX_PROOF_BYTES + 16 <? zlen response_body
    with ResponseProof (ascii "buffered response exceeds its limit");
  reject negb (bool_decide (head response_body = Some x7b)) || negb (bool_decide (last response_body = Some x7d))
    with ResponseProof (ascii "buffered response must be compact JSON with a final stogas object");
  let? (field_start, proof_start, empty_response) :=
    match rfind_bytes response_body BUFFERED_STOGAS_FIELD with
    | Some position => Ok (position, position + zlen BUFFERED_STOGAS_FIELD, false)
    | None =>
        if starts_with response_body BUFFERED_ONLY_STOGAS_FIELD
        then Ok (0, zlen BUFFERED_ONLY_STOGAS_FIELD, true)
        else Err (ResponseProof (ascii "buffered response has no final stogas object"))
    end in
  let proof_bytes := slice response_body proof_start (zlen response_body - 1) in
  reject (zlen proof_bytes =? 0) || (MAX_PROOF_BYTES <? zlen proof_bytes)
    with ResponseProof (ascii "buffered response stogas object has an invalid size");
  let? is_object := ok_or (object_of proof_bytes) (ResponseProof (ascii "invalid stogas object")) in
  reject negb is_object
    with ResponseProof (ascii "buffered response stogas field must be an object");
  let unsigned_response :=
    if empty_response then ascii "{}" else slice_to response_body field_start ++ [x7d] in
  reject max_body_bytes <? zlen unsigned_response
    with ResponseProof (ascii "response body exceeds its limit in one-shot verification");
  Ok (proof_bytes, unsigned_response).
