(* ===== verification/SseTheory.v ===== *)
(** The server-sent-event filter: cutting a stream into chunks never matters, an
    accepted stream has exactly one shape, its digest covers exactly the provider's
    bytes, and every stream of that shape is accepted. *)

From S2P Require Import Prelude Primitives Sse.

Open Scope Z_scope.

(** ** Searches *)

Lemma starts_with_spec l p : starts_with l p = true <-> exists r, l = p ++ r.
Proof.
  revert l. induction p as [|y p IH]; intros l; simpl.
  { split; [by exists l|done]. }
  destruct l as [|x l]; simpl; [split; [done|by intros [? ?]]|].
  rewrite andb_true_iff, bool_decide_eq_true, IH. split.
  - intros [-> [r ->]]. by exists r.
  - intros [r [= -> ->]]. eauto.
Qed.

Lemma starts_with_app l p c : starts_with l p = true -> starts_with (l ++ c) p = true.
Proof. rewrite !starts_with_spec. intros [r ->]. exists (r ++ c). by rewrite app_assoc. Qed.

Lemma starts_with_long l p c : (length p <= length l)%nat -> starts_with (l ++ c) p = starts_with l p.
Proof.
  revert l. induction p as [|y p IH]; intros [|x l] Hl; simpl in *; try done; [lia|].
  rewrite IH by lia. done.
Qed.

(** A mismatch that is not a shortage of input stays one. *)
Lemma starts_with_mismatch l p c :
  starts_with l p = false -> starts_with p l = false -> starts_with (l ++ c) p = false.
Proof.
  revert l. induction p as [|y p IH]; intros [|x l] H1 H2; simpl in *; try done.
  destruct (bool_decide (x = y)) eqn:E; simpl in *; [|done]. zbool. subst.
  rewrite bool_decide_true in H2 by done. by apply IH.
Qed.

Lemma find_spec l n i : find_bytes l n = Some i -> exists a r, l = a ++ n ++ r /\ zlen a = i.
Proof.
  revert i. induction l as [|x l IH]; intros i; simpl.
  - destruct (starts_with [] n) eqn:E; [|done]. intros [= <-]. apply starts_with_spec in E as [r E].
    exists [], r. done.
  - destruct (starts_with (x :: l) n) eqn:E.
    + intros [= <-]. apply starts_with_spec in E as [r E]. exists [], r. done.
    + destruct (find_bytes l n) as [j|] eqn:F; [|done]. simpl. intros [= <-].
      destruct (IH j eq_refl) as (a & r & -> & <-). exists (x :: a), r. split; [done|].
      rewrite zlen_cons. lia.
Qed.

Lemma find_app l n c i : find_bytes l n = Some i -> find_bytes (l ++ c) n = Some i.
Proof.
  revert i. induction l as [|x l IH]; intros i.
  - simpl. destruct (starts_with [] n) eqn:E; [|done]. intros [= <-].
    apply starts_with_spec in E as [r E]. symmetry in E. apply app_eq_nil in E as [-> _]. by destruct c.
  - intros H. pose proof (find_spec _ _ _ H) as (a & r & E & Ha). revert H. simpl app.
    cbn [find_bytes]. destruct (starts_with (x :: l) n) eqn:F.
    + intros [= <-]. by rewrite (starts_with_app (x :: l) n c F : starts_with (x :: l ++ c) n = true).
    + destruct (find_bytes l n) as [j|] eqn:G; [|done]. simpl. intros [= <-].
      change (x :: l ++ c) with ((x :: l) ++ c). rewrite starts_with_long, F, (IH j) by
        (rewrite ?E, ?length_app; done || lia). done.
Qed.

Lemma find_exists a n r : find_bytes (a ++ n ++ r) n <> None.
Proof.
  induction a as [|x a IH].
  - simpl app. assert (starts_with (n ++ r) n = true) as E by (apply starts_with_spec; eauto).
    destruct (n ++ r); cbn [find_bytes]; by rewrite E.
  - simpl app. cbn [find_bytes]. destruct (starts_with _ _); [done|]. by destruct (find_bytes (a ++ n ++ r) n).
Qed.

(** The bytes of an unfinished event that may still start its end. *)
Definition tail (l : bytes) : bytes := if bool_decide (last l = Some x0a) then [x0a] else [].
Definition safe (l : bytes) : bytes := slice_to l (zlen l - zlen (tail l)).

Lemma safe_tail l : safe l ++ tail l = l.
Proof.
  unfold safe, tail. case_bool_decide as E.
  - destruct l as [|x l _] using rev_ind; [done|]. rewrite last_snoc in E. injection E as ->.
    rewrite zlen_app. change (zlen [x0a]) with 1. rewrite slice_to_app by lia. done.
  - rewrite app_nil_r. unfold slice_to, zlen. apply take_ge. simpl. lia.
Qed.

Lemma tail_cons x y l : tail (x :: y :: l) = tail (y :: l).
Proof. done. Qed.

Lemma find_none_app l c :
  find_bytes l SSE_EVENT_END = None ->
  find_bytes (l ++ c) SSE_EVENT_END =
    Z.add (zlen l - zlen (tail l)) <$> find_bytes (tail l ++ c) SSE_EVENT_END.
Proof.
  induction l as [|x l IH].
  { intros _. change (tail []) with (@nil byte). simpl app. change (zlen [] - zlen []) with 0. destruct (find_bytes c SSE_EVENT_END); [|done]. simpl. f_equal; lia. }
  intros H. destruct l as [|y l].
  - unfold tail. simpl last. destruct (bool_decide (Some x = Some x0a)) eqn:E; zbool.
    + injection E as ->. change (zlen [x0a] - zlen [x0a]) with 0.
      destruct (find_bytes ([x0a] ++ c) SSE_EVENT_END) as [z|]; [simpl; f_equal; lia|done].
    + change (zlen [x] - zlen []) with 1. simpl app. cbn [find_bytes].
      assert (starts_with (x :: c) SSE_EVENT_END = false) as ->
        by (simpl; rewrite bool_decide_false by congruence; done).
      destruct (find_bytes c SSE_EVENT_END); simpl; f_equal. lia.
  - assert (starts_with (x :: y :: l) SSE_EVENT_END = false /\ find_bytes (y :: l) SSE_EVENT_END = None)
      as [Hs Hf].
    { cbn [find_bytes] in H |- *. destruct (starts_with (x :: y :: l) _); [done|]. split; [done|].
      by destruct (if starts_with (y :: l) _ then _ else _). }
    rewrite tail_cons. specialize (IH Hf).
    change ((x :: y :: l) ++ c) with (x :: (y :: l) ++ c). cbn [find_bytes].
    change (x :: (y :: l) ++ c) with ((x :: y :: l) ++ c). rewrite starts_with_long, Hs by (simpl; lia).
    change (find_bytes ((y :: l) ++ c) SSE_EVENT_END) with (find_bytes ((y :: l) ++ c) SSE_EVENT_END).
    replace (match (x :: y :: l) ++ c with [] => None | _ :: rest => Z.succ <$> find_bytes rest SSE_EVENT_END end)
      with (Z.succ <$> find_bytes ((y :: l) ++ c) SSE_EVENT_END) by done.
    rewrite IH. destruct (find_bytes (tail (y :: l) ++ c) _); simpl; [|done]. f_equal.
    rewrite (zlen_cons x). lia.
Qed.

(** ** One scan of an event body *)

(** What is released of a buffer, what stays, and whether the event ended. *)
Definition scan (b : bytes) : bytes * bytes * bool :=
  match find_bytes b SSE_EVENT_END with
  | Some e => (slice_to b (e + 2), slice_from b (e + 2), true)
  | None => (safe b, tail b, false)
  end.

Lemma scan_join b : let '(f, r, _) := scan b in b = f ++ r.
Proof.
  unfold scan. destruct (find_bytes b _); [by rewrite slice_to_from|by rewrite safe_tail].
Qed.

Lemma slice_to_app_ge {A} (a l : list A) n : zlen a <= n -> slice_to (a ++ l) n = a ++ slice_to l (n - zlen a).
Proof. intros. unfold slice_to, zlen in *. rewrite take_app_ge by lia. do 2 f_equal. lia. Qed.

Lemma tail_app a l : l <> [] -> tail (a ++ l) = tail l.
Proof. intros Hl. destruct l; [done|]. unfold tail. by rewrite last_app_cons. Qed.

Lemma zlen_tail l : 0 <= zlen (tail l) <= zlen l.
Proof.
  pose proof (zlen_nonneg (tail l)). pose proof (zlen_nonneg (safe l)).
  assert (zlen l = zlen (safe l ++ tail l)) by (by rewrite safe_tail). zlen_norm. lia.
Qed.

Lemma zlen_safe l : zlen (safe l) = zlen l - zlen (tail l).
Proof. assert (zlen l = zlen (safe l ++ tail l)) by (by rewrite safe_tail). zlen_norm. lia. Qed.

(** Scanning resumes where it stopped. *)
Lemma scan_app b c :
  find_bytes b SSE_EVENT_END = None ->
  scan (b ++ c) = let '(f, r, t) := scan (tail b ++ c) in (safe b ++ f, r, t).
Proof.
  intros Hf. unfold scan. rewrite (find_none_app b c Hf), <- zlen_safe.
  assert (b ++ c = safe b ++ tail b ++ c) as Hb by (by rewrite app_assoc, safe_tail).
  destruct (find_bytes (tail b ++ c) SSE_EVENT_END) as [e|] eqn:He; simpl.
  - apply find_spec in He as (a & r & _ & He). pose proof (zlen_nonneg a).
    rewrite Hb, slice_to_app_ge, slice_from_app_ge by lia. do 3 f_equal; f_equal; lia.
  - destruct (decide (tail b ++ c = [])) as [E|E].
    + apply app_eq_nil in E as [Ht ->]. rewrite Ht. simpl. rewrite !app_nil_r, Ht. done.
    + assert (tail (b ++ c) = tail (tail b ++ c)) as Ht.
      { rewrite Hb. by apply tail_app. }
      rewrite Ht. do 2 f_equal. apply (app_inv_tail (tail (tail b ++ c))).
      rewrite <- app_assoc, safe_tail, <- Ht, safe_tail. done.
Qed.

Lemma cut_end_to a r : slice_to (a ++ SSE_EVENT_END ++ r) (zlen a + 2) = a ++ SSE_EVENT_END.
Proof. rewrite app_assoc. apply slice_to_app. by rewrite zlen_app. Qed.

Lemma cut_end_from a r : slice_from (a ++ SSE_EVENT_END ++ r) (zlen a + 2) = r.
Proof. rewrite app_assoc. apply slice_from_app. by rewrite zlen_app. Qed.

Lemma scan_extend b c : (scan b).2 = true -> scan (b ++ c) = ((scan b).1.1, (scan b).1.2 ++ c, true).
Proof.
  unfold scan. destruct (find_bytes b SSE_EVENT_END) as [e|] eqn:He; [|done]. intros _.
  rewrite (find_app _ _ c _ He). simpl. apply find_spec in He as (a & r & -> & <-).
  rewrite <- !app_assoc, !cut_end_to, !cut_end_from. done.
Qed.

Lemma scan_end b : (scan b).2 = true -> exists a, (scan b).1.1 = a ++ SSE_EVENT_END.
Proof.
  unfold scan. destruct (find_bytes b SSE_EVENT_END) as [e|] eqn:He; [|done]. intros _.
  apply find_spec in He as (a & r & -> & <-). exists a. apply cut_end_to.
Qed.

(** ** Steps *)

Definition extend (s : SseBody) (c : bytes) : SseBody := set_buffer s (sb_buffer s ++ c).

(** A keepalive or receipt state is entered with its marker in the buffer. *)
Definition sse_wf (s : SseBody) : Prop :=
  match sb_state s with
  | Keepalive => starts_with (sb_buffer s) SSE_KEEPALIVE = true
  | Receipt => starts_with (sb_buffer s) SSE_RECEIPT_PREFIX = true
  | _ => True
  end.

(** A step with the released pieces joined. *)
Definition cstep (s : SseBody) : SseBody * bytes * result PushAction StreamError :=
  let '(s, out, r) := sse_step s in (s, concat out, r).

(** Fields are all that matters. *)
Lemma set_buffer_same s : set_buffer s (sb_buffer s) = s.
Proof. by destruct s. Qed.

Lemma hash_nil s : hash_update s [] = s.
Proof. unfold hash_update. rewrite app_nil_r. by destruct s. Qed.

Lemma safe_length s : safe_incomplete_length s = zlen (safe (sb_buffer s)).
Proof.
  unfold safe_incomplete_length. rewrite zlen_safe. pose proof (zlen_tail (sb_buffer s)) as Ht.
  unfold tail in *. destruct (bool_decide _); change (zlen [x0a]) with 1 in *; change (zlen []) with 0 in *; lia.
Qed.

Lemma take_safe s :
  take_buffer_prefix s (zlen (safe (sb_buffer s))) = (safe (sb_buffer s), set_buffer s (tail (sb_buffer s))).
Proof.
  unfold take_buffer_prefix. rewrite <- (safe_tail (sb_buffer s)) at 1 3.
  by rewrite slice_to_app, slice_from_app.
Qed.

(** The two states that stream an event body, in terms of [scan]. *)
Lemma cstep_regular s :
  sb_state s = Regular ->
  cstep s = let '(f, r, t) := scan (sb_buffer s) in
    let s' := hash_update (set_buffer s r) f in
    if t then (set_state s' Boundary, f, Ok Continue) else (s', f, Ok Stop).
Proof.
  intros Hs. unfold cstep, sse_step. rewrite Hs. unfold push_regular, scan.
  destruct (find_bytes _ _) as [e|]; [simpl; by rewrite app_nil_r|]. rewrite safe_length.
  destruct (0 <? _) eqn:E; zbool.
  - rewrite take_safe. simpl. by rewrite app_nil_r.
  - assert (safe (sb_buffer s) = []) as Hn by (apply zlen_0_nil; pose proof (zlen_nonneg (safe (sb_buffer s))); lia).
    pose proof (safe_tail (sb_buffer s)) as Ht. rewrite Hn in Ht |- *. simpl in Ht. rewrite Ht.
    by rewrite hash_nil, set_buffer_same.
Qed.

Lemma cstep_responses s :
  sb_state s = ResponsesTerminal ->
  cstep s = let '(f, r, t) := scan (sb_buffer s) in
    let s' := hash_update (set_buffer s r) f in
    if t then (set_state s' AfterTerminal, slice_to f (zlen f - 2),
               match r with [] => Ok Stop
               | _ => sse_error (ascii "stream contains bytes after its terminal event") end)
    else (s', f, Ok Stop).
Proof.
  intros Hs. unfold cstep, sse_step. rewrite Hs. unfold push_responses_terminal, scan.
  destruct (find_bytes _ _) as [e|].
  - unfold finish_terminal_frame, push_after_terminal, take_buffer_prefix. simpl sb_buffer.
    change (zlen SSE_EVENT_END) with 2.
    destruct (slice_from (sb_buffer s) (e + 2)) as [|x l]; simpl; by rewrite app_nil_r.
  - rewrite safe_length. destruct (0 <? _) eqn:E; zbool.
    + rewrite take_safe. simpl. by rewrite app_nil_r.
    + assert (safe (sb_buffer s) = []) as Hn by (apply zlen_0_nil; pose proof (zlen_nonneg (safe (sb_buffer s))); lia).
      pose proof (safe_tail (sb_buffer s)) as Ht. rewrite Hn in Ht |- *. simpl in Ht. rewrite Ht.
      by rewrite hash_nil, set_buffer_same.
Qed.

(** ** Runs of the loop *)

Inductive drains : SseBody -> SseBody -> bytes -> Prop :=
| drains_stop s s' o : cstep s = (s', o, Ok Stop) -> drains s s' o
| drains_next s s1 s' o o' : cstep s = (s1, o, Ok Continue) -> drains s1 s' o' -> drains s s' (o ++ o').

Inductive fails : SseBody -> Prop :=
| fails_now s s' o e : cstep s = (s', o, Err e) -> fails s
| fails_next s s1 o : cstep s = (s1, o, Ok Continue) -> fails s1 -> fails s.

Lemma drains_det s s1 s2 o1 o2 : drains s s1 o1 -> drains s s2 o2 -> s1 = s2 /\ o1 = o2.
Proof.
  intros H1. revert s2 o2. induction H1 as [s s' o Hc|s s1 s' o o' Hc _ IH]; intros s2 o2 H2;
    destruct H2 as [? ? ? Hc2|? ? ? ? ? Hc2 H2]; rewrite Hc in Hc2; simplify_eq; [done|].
  by destruct (IH _ _ H2) as [-> ->].
Qed.

Lemma drains_not_fails s s' o : drains s s' o -> fails s -> False.
Proof.
  intros H1. induction H1 as [s s' o Hc|s s1 s' o o' Hc _ IH]; intros H2;
    destruct H2 as [? ? ? ? Hc2|? ? ? Hc2 H2]; rewrite Hc in Hc2; simplify_eq. auto.
Qed.

(** A markers' classification survives more input. *)
Lemma classify_prefix p k b :
  (p, k) ∈ boundary_prefixes -> starts_with b p = true -> classify_sse_boundary b = k.
Proof.
  intros Hp Hb. apply starts_with_spec in Hb as [r ->].
  unfold boundary_prefixes in Hp. rewrite !elem_of_cons, elem_of_nil in Hp.
  by destruct Hp as [[= -> ->]|[[= -> ->]|[[= -> ->]|[[= -> ->]|[[= -> ->]|[]]]]]].
Qed.

Lemma classify_inv b :
  match classify_sse_boundary b with
  | NeedMore => exists p k, (p, k) ∈ boundary_prefixes /\ starts_with p b = true
  | RegularKind => forall p k, (p, k) ∈ boundary_prefixes -> starts_with b p = false /\ starts_with p b = false
  | kind => exists p, (p, kind) ∈ boundary_prefixes /\ starts_with b p = true
  end.
Proof.
  unfold classify_sse_boundary. destruct (List.find _ _) as [[p k]|] eqn:Hf.
  - apply find_some in Hf as [Hin Hp]. apply list_elem_of_In in Hin.
    unfold boundary_prefixes in Hin. rewrite !elem_of_cons, elem_of_nil in Hin.
    destruct Hin as [[= -> ->]|[[= -> ->]|[[= -> ->]|[[= -> ->]|[[= -> ->]|[]]]]]];
      eexists; split; try done; unfold boundary_prefixes; set_solver.
  - destruct (existsb _ _) eqn:He.
    + apply existsb_exists in He as ([p k] & Hin & Hp). apply list_elem_of_In in Hin. eauto.
    + intros p k Hin. apply list_elem_of_In in Hin. split.
      * exact (find_none _ _ Hf _ Hin).
      * destruct (starts_with p b) eqn:E; [|done].
        assert (existsb (fun '(prefix, _) => starts_with prefix b) boundary_prefixes = true)
          by (apply existsb_exists; exists (p, k); done). congruence.
Qed.

Lemma classify_app b c :
  classify_sse_boundary b <> NeedMore -> classify_sse_boundary (b ++ c) = classify_sse_boundary b.
Proof.
  intros Hn. pose proof (classify_inv b) as Hi. destruct (classify_sse_boundary b) eqn:Hk; [done| | | | |].
  1-3,5: destruct Hi as (p & Hin & Hp); eapply classify_prefix; [done|by apply starts_with_app].
  pose proof (classify_inv (b ++ c)) as Hj.
  destruct (classify_sse_boundary (b ++ c)) eqn:Hk2; [|..|done|]; exfalso.
  1: { destruct Hj as (p & k & Hin & Hp). destruct (Hi _ _ Hin) as [_ H2]. apply starts_with_spec in Hp as [r Hr].
       assert (starts_with p b = true) by (apply starts_with_spec; exists (c ++ r); by rewrite Hr, app_assoc). congruence. }
  all: destruct Hj as (p & Hin & Hp); destruct (Hi _ _ Hin) as [H1 H2];
    rewrite (starts_with_mismatch _ _ c H1 H2) in Hp; done.
Qed.

#[local] Arguments starts_with : simpl never.
#[local] Arguments find_bytes : simpl never.
#[local] Arguments classify_sse_boundary : simpl never.

Lemma cstep_wf s s' o a : sse_wf s -> cstep s = (s', o, Ok a) -> sse_wf s'.
Proof.
  intros Hw. unfold cstep, sse_step. destruct (sb_state s) eqn:Hs.
  - unfold push_boundary. destruct (sb_buffer s) as [|x l] eqn:Hb; [by intros [= <- <- <-]|].
    rewrite <- Hb. pose proof (classify_inv (sb_buffer s)) as Hc.
    destruct (classify_sse_boundary (sb_buffer s)).
    + by intros [= <- <- <-].
    + destruct (sb_proof_bytes s); [done|]. intros [= <- <- <-]. destruct Hc as (p & Hin & Hp).
      unfold boundary_prefixes in Hin. rewrite !elem_of_cons, elem_of_nil in Hin. unfold sse_wf. simpl.
      by destruct Hin as [[= ->]|[[=]|[[=]|[[=]|[[=]|[]]]]]].
    + unfold begin_terminal. case_all. all: intros; simplify_eq; done.
    + unfold begin_terminal. case_all. all: intros; simplify_eq; done.
    + destruct (sb_proof_bytes s); [done|]. by intros [= <- <- <-].
    + destruct (sb_proof_bytes s); [done|]. intros [= <- <- <-]. destruct Hc as (p & Hin & Hp).
      unfold boundary_prefixes in Hin. rewrite !elem_of_cons, elem_of_nil in Hin. unfold sse_wf. simpl.
      by destruct Hin as [[=]|[[= ->]|[[=]|[[=]|[[=]|[]]]]]].
  - unfold push_regular, take_buffer_prefix. case_all; intros; simplify_eq; unfold sse_wf; simpl; by rewrite ?Hs.
  - unfold push_keepalive. case_all; intros; simplify_eq; done.
  - unfold push_receipt, take_buffer_prefix. case_all; intros; simplify_eq; done.
  - unfold push_chat_terminal, finish_terminal_frame, push_after_terminal, take_buffer_prefix.
    case_all; intros; simplify_eq; done.
  - unfold push_responses_terminal, finish_terminal_frame, push_after_terminal, take_buffer_prefix.
    case_all; intros; simplify_eq; unfold sse_wf in *; simpl in *; by rewrite ?Hs in *.
  - unfold push_after_terminal. case_all; intros; simplify_eq; done.
Qed.

Lemma take_extend s c n :
  0 <= n <= zlen (sb_buffer s) ->
  take_buffer_prefix (extend s c) n =
    ((take_buffer_prefix s n).1, extend (take_buffer_prefix s n).2 c).
Proof.
  intros Hn. unfold take_buffer_prefix, extend, set_buffer. simpl.
  rewrite <- (slice_to_from (sb_buffer s) n) at 1 2. rewrite <- app_assoc.
  rewrite slice_to_app, slice_from_app by (rewrite zlen_slice_to; lia). done.
Qed.

Lemma find_bound l i : find_bytes l SSE_EVENT_END = Some i -> 0 <= i /\ i + 2 <= zlen l.
Proof.
  intros H. apply find_spec in H as (a & r & -> & <-). pose proof (zlen_nonneg a). pose proof (zlen_nonneg r).
  rewrite !zlen_app. change (zlen SSE_EVENT_END) with 2. lia.
Qed.

Lemma cstep_continue s s1 o c :
  sse_wf s -> cstep s = (s1, o, Ok Continue) -> cstep (extend s c) = (extend s1 c, o, Ok Continue).
Proof.
  intros Hw. destruct (sb_state s) eqn:Hs.
  - unfold cstep, sse_step. simpl sb_state. rewrite Hs. unfold push_boundary. simpl sb_buffer.
    destruct (sb_buffer s) as [|x l] eqn:Hb; [done|]. rewrite <- Hb.
    destruct (sb_buffer s ++ c) as [|y l'] eqn:Hbc; [by rewrite Hb in Hbc|]. rewrite <- Hbc.
    destruct (classify_sse_boundary (sb_buffer s)) eqn:Hk; [done|..];
      rewrite classify_app, Hk by congruence; unfold begin_terminal; simpl sb_proof_bytes; simpl sb_receipt_frame;
      simpl sb_receipt_required; case_all; intros; simplify_eq; done.
  - rewrite !cstep_regular by done. simpl sb_buffer. pose proof (scan_extend (sb_buffer s) c) as Hx.
    destruct (scan (sb_buffer s)) as [[f r] []] eqn:Hsc; [|done]. rewrite Hx by done. simpl.
    intros [= <- <-]. done.
  - unfold sse_wf in Hw. rewrite Hs in Hw. unfold cstep, sse_step. simpl sb_state. rewrite Hs. unfold push_keepalive.
    rewrite take_extend. 2: { apply starts_with_spec in Hw as [r ->]. zlen_norm. pose proof (zlen_nonneg r).
      pose proof (zlen_nonneg SSE_KEEPALIVE). lia. }
    destruct (take_buffer_prefix s _) as [b s2]. simpl. intros [= <- <-]. done.
  - unfold cstep, sse_step. simpl sb_state. rewrite Hs. unfold push_receipt. simpl sb_buffer.
    destruct (find_bytes (sb_buffer s) _) as [e|] eqn:He; [|case_all]. rewrite (find_app _ _ c _ He).
    apply find_bound in He. change (zlen SSE_EVENT_END) with 2. rewrite take_extend by lia.
    destruct (take_buffer_prefix s _) as [b s2]. simpl fst. simpl snd. case_all. intros [= <- <-]. done.
  - unfold cstep, sse_step. rewrite Hs.
    unfold push_chat_terminal, finish_terminal_frame, push_after_terminal. case_all.
  - rewrite cstep_responses by done. case_all.
  - unfold cstep, sse_step. rewrite Hs. unfold push_after_terminal. case_all.
Qed.

Definition chat_terminal : bytes := SSE_CHAT_TERMINAL_PREFIX ++ SSE_EVENT_END.

Lemma cstep_chat s :
  sb_state s = ChatTerminal ->
  (zlen (sb_buffer s) < zlen chat_terminal /\ starts_with chat_terminal (sb_buffer s) = true /\ cstep s = (s, [], Ok Stop)) \/
  (starts_with chat_terminal (sb_buffer s) = false /\ starts_with (sb_buffer s) chat_terminal = false /\
   exists s' e, cstep s = (s', [], Err e)) \/
  (exists r, sb_buffer s = chat_terminal ++ r /\
   cstep s = (set_state (hash_update (set_buffer s r) chat_terminal) AfterTerminal, SSE_CHAT_TERMINAL_PREFIX,
     match r with [] => Ok Stop
     | _ => sse_error (ascii "stream contains bytes after its terminal event") end)).
Proof.
  intros Hs. unfold cstep, sse_step. rewrite Hs. unfold push_chat_terminal. fold chat_terminal.
  destruct (zlen (sb_buffer s) <? zlen chat_terminal) eqn:E; zbool.
  - destruct (starts_with chat_terminal (sb_buffer s)) eqn:F; simpl; [by left|]. right. left.
    split; [done|]. split; [|eauto]. destruct (starts_with (sb_buffer s) chat_terminal) eqn:G; [|done].
    apply starts_with_spec in G as [r G]. rewrite G, zlen_app in E. pose proof (zlen_nonneg r). lia.
  - unfold take_buffer_prefix. case_bool_decide as F; simpl.
    + right. right. exists (slice_from (sb_buffer s) (zlen chat_terminal)).
      split; [rewrite <- (slice_to_from (sb_buffer s) (zlen chat_terminal)) at 1; by rewrite F|].
      unfold finish_terminal_frame, push_after_terminal. simpl sb_buffer. rewrite F.
      destruct (slice_from _ _); simpl; done.
    + right. left. split; [|split; [|eauto]].
      * destruct (starts_with chat_terminal (sb_buffer s)) eqn:G; [|done]. apply starts_with_spec in G as [r G].
        assert (zlen chat_terminal = zlen (sb_buffer s ++ r)) as Hz by (by rewrite <- G). zlen_norm.
        rewrite (zlen_0_nil r), app_nil_r in G by (pose proof (zlen_nonneg r); lia).
        destruct F. rewrite <- G. unfold slice_to, zlen. apply take_ge. lia.
      * destruct (starts_with (sb_buffer s) chat_terminal) eqn:G; [|done]. apply starts_with_spec in G as [r G].
        destruct F. rewrite G. by apply slice_to_app.
Qed.

Lemma starts_with_app_l p l c : starts_with p l = false -> starts_with p (l ++ c) = false.
Proof.
  intros H. destruct (starts_with p (l ++ c)) eqn:E; [|done]. apply starts_with_spec in E as [r ->].
  rewrite <- app_assoc in H. assert (starts_with (l ++ c ++ r) l = true) by (apply starts_with_spec; eauto). congruence.
Qed.

(** A receipt that is too long for its limit stays so. *)
Lemma receipt_too_long s c :
  sb_state s = Receipt -> find_bytes (sb_buffer s) SSE_EVENT_END = None ->
  zlen SSE_RECEIPT_PREFIX + MAX_PROOF_BYTES + zlen SSE_EVENT_END < zlen (sb_buffer s) ->
  fails (extend s c).
Proof.
  intros Hs Hf Hl. change (zlen SSE_RECEIPT_PREFIX) with 9 in Hl. change (zlen SSE_EVENT_END) with 2 in Hl.
  change MAX_PROOF_BYTES with 16384 in Hl.
  assert (exists s' o e, cstep (extend s c) = (s', o, Err e)) as (s' & o & e & H); [|by eapply fails_now].
  unfold cstep, sse_step. simpl sb_state. rewrite Hs. unfold push_receipt. simpl sb_buffer.
  change (zlen SSE_RECEIPT_PREFIX) with 9. change (zlen SSE_EVENT_END) with 2. change MAX_PROOF_BYTES with 16384.
  rewrite find_none_app by done. pose proof (zlen_tail (sb_buffer s)) as Ht.
  assert (zlen (tail (sb_buffer s)) <= 1) as Ht1 by (unfold tail; by case_bool_decide).
  destruct (find_bytes (tail (sb_buffer s) ++ c) SSE_EVENT_END) as [e|] eqn:He; cbn [fmap option_fmap option_map].
  - apply find_bound in He. unfold take_buffer_prefix. simpl sb_buffer. zlen_norm.
    set (l := sb_buffer s ++ c) in *. set (n := zlen (sb_buffer s) - zlen (tail (sb_buffer s)) + e + 2).
    assert (zlen (slice_to l n) = n) as Hn by (apply zlen_slice_to; unfold l; zlen_norm; lia).
    assert (zlen (slice (slice_to l n) 9 (zlen (slice_to l n) - 2)) = n - 11) as Hp
      by (rewrite zlen_slice; rewrite ?Hn; unfold n; lia).
    rewrite Hp, (proj2 (Z.ltb_lt 16384 (n - 11))) by (unfold n; lia). rewrite orb_true_r. simpl. eauto.
  - zlen_norm. rewrite (proj2 (Z.ltb_lt _ _)) by (pose proof (zlen_nonneg c); lia). simpl. eauto.
Qed.

Lemma cstep_err s s' o e c : sse_wf s -> cstep s = (s', o, Err e) -> fails (extend s c).
Proof.
  intros Hw. destruct (sb_state s) eqn:Hs.
  - intros H. assert (exists s1 o1 e1, cstep (extend s c) = (s1, o1, Err e1)) as (s1 & o1 & e1 & ?);
      [|by eapply fails_now]. revert H.
    unfold cstep, sse_step. simpl sb_state. rewrite Hs. unfold push_boundary. simpl sb_buffer.
    destruct (sb_buffer s) as [|x l] eqn:Hb; [done|]. rewrite <- Hb.
    destruct (sb_buffer s ++ c) as [|y l'] eqn:Hbc; [by rewrite Hb in Hbc|]. rewrite <- Hbc.
    destruct (classify_sse_boundary (sb_buffer s)) eqn:Hk; [done|..];
      rewrite classify_app, Hk by congruence; unfold begin_terminal; simpl sb_proof_bytes; simpl sb_receipt_frame;
      simpl sb_receipt_required; case_all; intros; simplify_eq; eauto.
  - rewrite cstep_regular by done. case_all.
  - unfold cstep, sse_step. rewrite Hs. unfold push_keepalive. case_all.
  - unfold cstep, sse_step. rewrite Hs. unfold push_receipt.
    destruct (find_bytes (sb_buffer s) _) as [i|] eqn:He.
    + intros H. assert (exists s1 o1 e1, cstep (extend s c) = (s1, o1, Err e1)) as (s1 & o1 & e1 & ?);
        [|by eapply fails_now]. revert H.
      unfold cstep, sse_step. simpl sb_state. rewrite Hs. unfold push_receipt. simpl sb_buffer.
      rewrite (find_app _ _ c _ He). apply find_bound in He. change (zlen SSE_EVENT_END) with 2.
      rewrite take_extend by lia. destruct (take_buffer_prefix s _) as [b s2]. simpl fst. simpl snd.
      case_all. eauto.
    + destruct (_ <? _) eqn:E; [|done]. zbool. intros _. by apply receipt_too_long.
  - intros H. destruct (cstep_chat s Hs) as [(_ & _ & E)|[(H1 & H2 & _)|(r & Hr & E)]]; [congruence| |].
    + destruct (cstep_chat (extend s c) Hs) as [(_ & E & _)|[(_ & _ & s1 & e1 & E)|(r & E & _)]];
        cbn [extend set_buffer sb_buffer] in E.
      * by rewrite starts_with_app_l in E.
      * by eapply fails_now.
      * pose proof (starts_with_mismatch _ _ c H2 H1) as Hm.
        assert (starts_with (sb_buffer s ++ c) chat_terminal = true) by (apply starts_with_spec; eauto). congruence.
    + destruct (cstep_chat (extend s c) Hs) as [(Hl & _)|[(_ & Hn & _)|(r' & Hr' & E')]];
        cbn [extend set_buffer sb_buffer] in *.
      * rewrite Hr, !zlen_app in Hl. pose proof (zlen_nonneg r). pose proof (zlen_nonneg c). lia.
      * assert (starts_with (sb_buffer s ++ c) chat_terminal = true); [|congruence].
        apply starts_with_spec. exists (r ++ c). by rewrite Hr, app_assoc.
      * rewrite Hr, <- app_assoc in Hr'. apply app_inv_head in Hr' as <-.
        destruct r as [|x r]; [congruence|]. eapply fails_now. exact E'.
  - rewrite cstep_responses by done. pose proof (scan_extend (sb_buffer s) c) as Hx.
    destruct (scan (sb_buffer s)) as [[f r] []]; [|done]. destruct r as [|x r]; [done|]. intros _.
    eapply (fails_now (extend s c)). rewrite cstep_responses by done. cbn [extend set_buffer sb_buffer].
    rewrite Hx by done. reflexivity.
  - unfold cstep, sse_step. rewrite Hs. unfold push_after_terminal. destruct (sb_buffer s) as [|x l] eqn:Hb; [done|].
    intros _. eapply (fails_now (extend s c)). unfold cstep, sse_step. simpl sb_state. rewrite Hs.
    unfold push_after_terminal. simpl sb_buffer. by rewrite Hb.
Qed.

(** After the terminal event, more input fails in either order. *)
Lemma terminal_stop s c s' o :
  cstep s = (s', o, Ok Stop) -> sb_state s' = AfterTerminal -> sb_buffer s' = [] ->
  (c <> [] -> fails (extend s c)) ->
  (forall s2 o2, drains (extend s' c) s2 o2 -> drains (extend s c) s2 (o ++ o2)) /\
  (fails (extend s' c) -> fails (extend s c)).
Proof.
  intros Hc Hs Hb Hf. unfold extend at 1 3. rewrite Hb. simpl app.
  destruct c as [|x c].
  - assert (cstep (set_buffer s' []) = (s', [], Ok Stop)) as Hq.
    { rewrite <- Hb, set_buffer_same. unfold cstep, sse_step. rewrite Hs. unfold push_after_terminal. by rewrite Hb. }
    assert (extend s [] = s) as -> by (unfold extend; rewrite app_nil_r; apply set_buffer_same). split.
    + intros s2 o2 Hd. destruct Hd as [? ? ? E|? ? ? ? ? E Hd]; rewrite Hq in E; simplify_eq.
      rewrite app_nil_r. by apply drains_stop.
    + intros Hd. destruct Hd as [? ? ? ? E|? ? ? E Hd]; rewrite Hq in E; simplify_eq.
  - assert (exists s1 o1 e1, cstep (set_buffer s' (x :: c)) = (s1, o1, Err e1)) as (s1 & o1 & e1 & Hq).
    { unfold cstep, sse_step. cbn [set_buffer sb_state]. rewrite Hs. unfold push_after_terminal. simpl. eauto. }
    split; [|intros _; by apply Hf].
    intros s2 o2 Hd. destruct Hd as [? ? ? E|? ? ? ? ? E Hd]; rewrite Hq in E; simplify_eq.
Qed.

(** Two states whose next steps differ in released bytes only. *)
Lemma cstep_resume s s' o :
  cstep s = (let '(s2, o2, r) := cstep s' in (s2, o ++ o2, r)) ->
  (forall s2 o2, drains s' s2 o2 -> drains s s2 (o ++ o2)) /\ (fails s' -> fails s).
Proof.
  intros Hc. split.
  - intros s2 o2 Hd. destruct Hd as [? ? ? E|? ? ? ? ? E Hd]; rewrite E in Hc; [by apply drains_stop|].
    rewrite app_assoc. by eapply drains_next.
  - intros Hd. destruct Hd as [? ? ? ? E|? ? ? E Hd]; rewrite E in Hc; [by eapply fails_now|by eapply fails_next].
Qed.

(** Scanning that stopped continues as if it had not. *)
Lemma cstep_stop s s' o c :
  cstep s = (s', o, Ok Stop) ->
  (forall s2 o2, drains (extend s' c) s2 o2 -> drains (extend s c) s2 (o ++ o2)) /\
  (fails (extend s' c) -> fails (extend s c)).
Proof.
  assert (s' = s /\ o = [] -> (forall s2 o2, drains (extend s' c) s2 o2 -> drains (extend s c) s2 (o ++ o2)) /\
    (fails (extend s' c) -> fails (extend s c))) as Hsame by (by intros [-> ->]).
  destruct (sb_state s) eqn:Hs.
  - intros H. apply Hsame. revert H. unfold cstep, sse_step. rewrite Hs. unfold push_boundary, begin_terminal.
    case_all. all: by intros [= <- <-].
  - rewrite cstep_regular by done. unfold scan. destruct (find_bytes (sb_buffer s) _) as [e|] eqn:He; [done|].
    intros [= <- <-]. set (s' := hash_update _ _).
    assert (cstep (extend s c) = let '(s2, o2, r) := cstep (extend s' c) in (s2, safe (sb_buffer s) ++ o2, r)) as Hc.
    { rewrite !cstep_regular by done. cbn [s' extend set_buffer sb_buffer hash_update].
      rewrite (scan_app _ c He). destruct (scan (tail (sb_buffer s) ++ c)) as [[f r] []];
        unfold hash_update, set_buffer, set_state; simpl; by rewrite app_assoc. }
    by apply cstep_resume.
  - unfold cstep, sse_step. rewrite Hs. unfold push_keepalive. case_all.
  - intros H. apply Hsame. revert H. unfold cstep, sse_step. rewrite Hs. unfold push_receipt. case_all.
    all: by intros [= <- <-].
  - intros H. destruct (cstep_chat s Hs) as [(_ & _ & E)|[(_ & _ & s1 & e & E)|(r & Hr & E)]].
    + apply Hsame. rewrite E in H. by injection H.
    + congruence.
    + destruct r as [|x r]; [|by rewrite E in H]. rewrite E in H. injection H as <- <-. rewrite app_nil_r in Hr.
      apply (terminal_stop s c); [by rewrite E|done|done|]. intros Hn.
      destruct (cstep_chat (extend s c) Hs) as [(Hl & _)|[(_ & Hm & _)|(r' & Hr' & E')]];
        cbn [extend set_buffer sb_buffer] in *.
      * rewrite Hr, zlen_app in Hl. pose proof (zlen_nonneg c). lia.
      * rewrite Hr in Hm. assert (starts_with (chat_terminal ++ c) chat_terminal = true); [|congruence].
        apply starts_with_spec. eauto.
      * rewrite Hr in Hr'. apply app_inv_head in Hr' as <-. destruct c; [done|]. eapply fails_now. exact E'.
  - rewrite cstep_responses by done. unfold scan. destruct (find_bytes (sb_buffer s) _) as [e|] eqn:He.
    + destruct (slice_from (sb_buffer s) (e + 2)) as [|x l] eqn:Hr; [|done]. intros [= <- <-].
      apply (terminal_stop s c); [|done|done|].
      { rewrite cstep_responses by done. unfold scan. by rewrite He, Hr. }
      intros Hn. eapply (fails_now (extend s c)). rewrite cstep_responses by done. cbn [extend set_buffer sb_buffer].
      rewrite scan_extend by (unfold scan; by rewrite He). unfold scan. rewrite He. simpl. rewrite Hr.
      destruct c; [done|]. reflexivity.
    + intros [= <- <-]. set (s' := hash_update _ _).
      assert (cstep (extend s c) = let '(s2, o2, r) := cstep (extend s' c) in (s2, safe (sb_buffer s) ++ o2, r)) as Hc.
      { rewrite !cstep_responses by done. cbn [s' extend set_buffer sb_buffer hash_update].
        rewrite (scan_app _ c He). pose proof (scan_end (tail (sb_buffer s) ++ c)) as Hend.
        destruct (scan (tail (sb_buffer s) ++ c)) as [[f r] []];
          unfold hash_update, set_buffer, set_state; simpl; [|by rewrite app_assoc].
        destruct (Hend eq_refl) as [a Ha]. simpl in Ha.
        rewrite zlen_app, slice_to_app_ge by (subst f; zlen_norm; pose proof (zlen_nonneg a);
          change (zlen SSE_EVENT_END) with 2; lia).
        replace (zlen (safe (sb_buffer s)) + zlen f - 2 - zlen (safe (sb_buffer s))) with (zlen f - 2) by lia.
        by rewrite app_assoc. }
      by apply cstep_resume.
  - intros H. apply Hsame. revert H. unfold cstep, sse_step. rewrite Hs. unfold push_after_terminal. case_all.
    all: by intros [= <- <-].
Qed.

Lemma extend_drains s s' o c :
  sse_wf s -> drains s s' o ->
  sse_wf s' /\ (forall s2 o2, drains (extend s' c) s2 o2 -> drains (extend s c) s2 (o ++ o2)) /\
  (fails (extend s' c) -> fails (extend s c)).
Proof.
  intros Hw Hd. induction Hd as [s s' o Hc|s s1 s' o o' Hc _ IH].
  - split; [by eapply cstep_wf|]. by apply cstep_stop.
  - destruct (IH (cstep_wf _ _ _ _ Hw Hc)) as (Hw' & H1 & H2). pose proof (cstep_continue _ _ _ c Hw Hc) as Hc'.
    split_and!; [done| |].
    + intros s2 o2 Hd. rewrite <- app_assoc. eapply drains_next; [done|]. by apply H1.
    + intros Hf. eapply fails_next; [done|]. by apply H2.
Qed.

Lemma extend_fails s c : sse_wf s -> fails s -> fails (extend s c).
Proof.
  intros Hw Hf. induction Hf as [s s' o e Hc|s s1 o Hc _ IH]; [by eapply cstep_err|].
  eapply fails_next; [by apply cstep_continue|]. apply IH. by eapply cstep_wf.
Qed.

(** ** The loop terminates *)

(** Bounds the remaining steps. *)
Definition sse_measure (s : SseBody) : nat :=
  2 * length (sb_buffer s) + match sb_state s with Boundary => 1 | _ => 0 end.

Lemma cstep_measure s s' o :
  sse_wf s -> cstep s = (s', o, Ok Continue) -> (sse_measure s' < sse_measure s)%nat.
Proof.
  intros Hw. unfold sse_measure. destruct (sb_state s) eqn:Hs.
  - unfold cstep, sse_step. rewrite Hs. unfold push_boundary, begin_terminal.
    destruct (sb_buffer s) eqn:Hb; [done|]. rewrite <- Hb. case_all.
    all: intros; simplify_eq; simpl; lia.
  - rewrite cstep_regular by done. unfold scan. destruct (find_bytes _ _) as [e|] eqn:He; [|done].
    intros [= <- <-]. apply find_bound in He. simpl. unfold slice_from, zlen in *. rewrite length_drop. lia.
  - unfold cstep, sse_step. rewrite Hs. unfold push_keepalive, take_buffer_prefix. intros [= <- <-]. simpl.
    unfold sse_wf in Hw. rewrite Hs in Hw. apply starts_with_spec in Hw as [r ->].
    unfold slice_from. rewrite length_drop, length_app. change (length SSE_KEEPALIVE) with 21%nat.
    change (Z.to_nat (zlen SSE_KEEPALIVE)) with 21%nat. lia.
  - unfold cstep, sse_step. rewrite Hs. unfold push_receipt, take_buffer_prefix.
    destruct (find_bytes _ _) as [e|] eqn:He; [|by destruct (_ <? _)]. destruct (_ || _); [done|].
    intros [= <- <-]. apply find_bound in He. simpl.
    change (zlen SSE_EVENT_END) with 2. unfold slice_from, zlen in *. rewrite length_drop. lia.
  - intros H. exfalso. destruct (cstep_chat s Hs) as [(_ & _ & E)|[(_ & _ & s1 & e & E)|(r & Hr & E)]];
      rewrite E in H; [done|done|]. by destruct r.
  - rewrite cstep_responses by done. destruct (scan _) as [[f r] []]; [|done]. by destruct r.
  - unfold cstep, sse_step. rewrite Hs. unfold push_after_terminal. by destruct (sb_buffer s).
Qed.

Lemma loop_spec fuel s :
  sse_wf s -> (sse_measure s < fuel)%nat ->
  match sse_loop fuel s with
  | (s', Ok out) => drains s s' (concat out)
  | (_, Err _) => fails s
  end.
Proof.
  revert s. induction fuel as [|fuel IH]; intros s Hw Hf; [lia|]. simpl.
  destruct (sse_step s) as [[s1 out] [[]|e]] eqn:Hstep.
  - assert (cstep s = (s1, concat out, Ok Continue)) as Hc by (unfold cstep; by rewrite Hstep).
    pose proof (cstep_measure _ _ _ Hw Hc) as Hm. specialize (IH s1 (cstep_wf _ _ _ _ Hw Hc) ltac:(lia)).
    destruct (sse_loop fuel s1) as [s2 [more|e]].
    + rewrite concat_app. by eapply drains_next.
    + by eapply fails_next.
  - apply drains_stop. unfold cstep. by rewrite Hstep.
  - eapply fails_now. unfold cstep. by rewrite Hstep.
Qed.

(** * Theory

    What the filter accepts and what it hashes: runs over chunked input are runs over
    the joined bytes, an accepted stream is events, one receipt and a terminal event,
    and every stream of that shape is accepted. *)

#[local] Arguments starts_with : simpl never.
#[local] Arguments find_bytes : simpl never.
#[local] Arguments classify_sse_boundary : simpl never.

(** ** Pushes *)

Lemma extend_nil s : extend s [] = s.
Proof. unfold extend. rewrite app_nil_r. apply set_buffer_same. Qed.

Lemma extend_app s a b : extend (extend s a) b = extend s (a ++ b).
Proof. unfold extend, set_buffer. simpl. by rewrite app_assoc. Qed.

Lemma wf_extend s c : sse_wf s -> sse_wf (extend s c).
Proof.
  unfold sse_wf. cbn [extend set_buffer sb_state sb_buffer]. destruct (sb_state s); try done; apply starts_with_app.
Qed.

Lemma scan_tail b : scan (tail b) = ([], tail b, false).
Proof. unfold tail. by case_bool_decide. Qed.

(** A stopped loop stays stopped until more input arrives. *)
Lemma cstep_quiet s s' o : cstep s = (s', o, Ok Stop) -> cstep s' = (s', [], Ok Stop).
Proof.
  intros H. pose proof H as H'. revert H. destruct (sb_state s) eqn:Hs.
  - unfold cstep at 1, sse_step. rewrite Hs. unfold push_boundary, begin_terminal. case_all.
    all: intros [= <- <-]; revert H'; unfold cstep, sse_step; rewrite Hs; unfold push_boundary; case_all.
  - rewrite cstep_regular by done. unfold scan. destruct (find_bytes _ _); [done|]. intros [= <- <-].
    rewrite cstep_regular by done. simpl sb_buffer. rewrite scan_tail, hash_nil. done.
  - unfold cstep at 1, sse_step. rewrite Hs. unfold push_keepalive. case_all.
  - unfold cstep at 1, sse_step. rewrite Hs. unfold push_receipt.
    destruct (find_bytes (sb_buffer s) _) eqn:He; [case_all|]. destruct (_ <? _) eqn:E; [done|]. intros [= <- <-].
    unfold cstep, sse_step. rewrite Hs. unfold push_receipt. by rewrite He, E.
  - intros H. destruct (cstep_chat s Hs) as [(_ & _ & E)|[(_ & _ & s1 & e & E)|(r & Hr & E)]]; rewrite E in H.
    + by injection H as <- <-.
    + done.
    + destruct r; [|done]. by injection H as <- <-.
  - rewrite cstep_responses by done. unfold scan. destruct (find_bytes _ _) as [e|].
    + destruct (slice_from _ _) eqn:Hr; [|done]. by intros [= <- <-].
    + intros [= <- <-]. rewrite cstep_responses by done. simpl sb_buffer. rewrite scan_tail, hash_nil. done.
  - unfold cstep at 1, sse_step. rewrite Hs. unfold push_after_terminal. destruct (sb_buffer s) eqn:Hb; [|done].
    intros [= <- <-]. unfold cstep, sse_step. rewrite Hs. unfold push_after_terminal. by rewrite Hb.
Qed.

Lemma drains_quiet s s' o : drains s s' o -> drains s' s' [].
Proof. induction 1 as [s s' o Hc|]; [apply drains_stop; by eapply cstep_quiet|done]. Qed.

Lemma push_part_spec s c :
  sse_wf s -> c <> [] ->
  match push_part s c with
  | (s', Ok out) => drains (extend s c) s' (concat out)
  | (_, Err _) => fails (extend s c)
  end.
Proof.
  intros Hw Hc. unfold push_part. destruct (bool_decide _ && _) eqn:E; zbool.
  - eapply fails_now. unfold cstep, sse_step. cbn [extend set_buffer sb_state].
    match goal with H : sb_state s = _ |- _ => rewrite H end. unfold push_after_terminal.
    assert (exists x l, sb_buffer (extend s c) = x :: l) as (x & l & ->); [|reflexivity].
    cbn [extend set_buffer sb_buffer]. destruct (sb_buffer s ++ c) eqn:Hb; [|eauto].
    apply app_eq_nil in Hb as [_ ->]. done.
  - fold (extend s c). apply loop_spec.
    + by apply wf_extend.
    + unfold sse_measure, sse_fuel. destruct (sb_state (extend s c)); lia.
Qed.

Lemma push_parts_spec s l :
  sse_wf s -> drains s s [] -> Forall (fun part => part <> []) l ->
  match push_parts s l with
  | (s', Ok out) => drains (extend s (concat l)) s' (concat out) /\ sse_wf s'
  | (_, Err _) => fails (extend s (concat l))
  end.
Proof.
  revert s. induction l as [|part l IH]; intros s Hw Hq Hl; cbn [push_parts concat].
  { rewrite extend_nil. done. }
  apply Forall_cons in Hl as [Hp Hl]. pose proof (push_part_spec s part Hw Hp) as Hs.
  pose proof (wf_extend s part Hw) as Hwe.
  destruct (push_part s part) as [s1 [out|e]].
  - destruct (extend_drains _ _ _ (concat l) Hwe Hs) as (Hw1 & Hd & Hf). rewrite !extend_app in *.
    specialize (IH s1 Hw1 (drains_quiet _ _ _ Hs) Hl). destruct (push_parts s1 l) as [s2 [more|e]].
    + destruct IH as [IH Hw2]. rewrite concat_app. split; [by apply Hd|done].
    + by apply Hf.
  - rewrite <- extend_app. by apply extend_fails.
Qed.

Lemma parts_concat fuel size chunk :
  0 < size -> (length chunk <= fuel)%nat ->
  concat (parts fuel size chunk) = chunk /\ Forall (fun part => part <> []) (parts fuel size chunk).
Proof.
  intros Hs. revert chunk. induction fuel as [|fuel IH]; intros chunk Hl.
  { destruct chunk; [done|simpl in Hl; lia]. }
  destruct chunk as [|x chunk]; [done|]. cbn [parts concat].
  destruct (IH (slice_from (x :: chunk) size)) as [Hc Hall].
  { unfold slice_from. rewrite length_drop. simpl in *. lia. }
  rewrite Hc. split; [apply slice_to_from|]. constructor; [|done].
  unfold slice_to. destruct (Z.to_nat size) eqn:E; [lia|]. done.
Qed.

(** ** The byte count is independent of the framing *)

Lemma cstep_received s n :
  cstep (set_received s n) = let '(s', o, r) := cstep s in (set_received s' n, o, r).
Proof.
  unfold cstep, sse_step. destruct s as [h b st p f fl rc rq]. destruct st; cbn [set_received sb_state].
  - unfold push_boundary, begin_terminal. cbn [set_received sb_buffer sb_proof_bytes sb_receipt_frame sb_receipt_required].
    case_all.
  - unfold push_regular, safe_incomplete_length, take_buffer_prefix. cbn [set_received sb_buffer]. case_all.
  - done.
  - unfold push_receipt, take_buffer_prefix. cbn [set_received sb_buffer]. case_all.
  - unfold push_chat_terminal, finish_terminal_frame, push_after_terminal, take_buffer_prefix.
    cbn [set_received sb_buffer set_state hash_update set_buffer]. case_all.
  - unfold push_responses_terminal, finish_terminal_frame, push_after_terminal, safe_incomplete_length, take_buffer_prefix.
    cbn [set_received sb_buffer set_state hash_update set_buffer]. case_all.
  - unfold push_after_terminal. cbn [set_received sb_buffer]. case_all.
Qed.

Lemma cstep_fixed s s' o r :
  cstep s = (s', o, r) ->
  sb_received s' = sb_received s /\ sb_failed s' = sb_failed s /\ sb_receipt_required s' = sb_receipt_required s.
Proof.
  unfold cstep, sse_step, push_boundary, push_regular, push_keepalive, push_receipt, push_chat_terminal,
    push_responses_terminal, finish_terminal_frame, push_after_terminal, begin_terminal, take_buffer_prefix.
  intros H. destruct s as [h b st p f fl rc rq]. cbn in H |- *. case_all.
Qed.

Lemma drains_received s s' o n : drains s s' o -> drains (set_received s n) (set_received s' n) o.
Proof.
  induction 1 as [s s' o Hc|s s1 s' o o' Hc _ IH].
  - apply drains_stop. by rewrite cstep_received, Hc.
  - eapply drains_next; [by rewrite cstep_received, Hc|done].
Qed.

Lemma fails_received s n : fails s -> fails (set_received s n).
Proof.
  induction 1 as [s s' o e Hc|s s1 o Hc _ IH].
  - eapply fails_now. by rewrite cstep_received, Hc.
  - eapply fails_next; [by rewrite cstep_received, Hc|done].
Qed.

Lemma drains_fixed s s' o :
  drains s s' o ->
  sb_received s' = sb_received s /\ sb_failed s' = sb_failed s /\ sb_receipt_required s' = sb_receipt_required s.
Proof.
  induction 1 as [s s' o Hc|s s1 s' o o' Hc _ IH]; [by eapply cstep_fixed|].
  destruct (cstep_fixed _ _ _ _ Hc) as (? & ? & ?).
  destruct IH as (? & ? & ?). split_and!; congruence.
Qed.

(** ** Whole streams *)

(** The chunks of a stream in order; released bytes are joined. *)
Fixpoint sse_run (s : SseBody) (chunks : list bytes) : SseBody * result bytes StreamError :=
  match chunks with
  | [] => (s, Ok [])
  | chunk :: chunks =>
      match SseBody_push s chunk with
      | (s, Err e) => (s, Err e)
      | (s, Ok out) =>
          let (s, r) := sse_run s chunks in (s, let? more := r in Ok (concat out ++ more))
      end
  end.

(** Between pushes. *)
Record resting (s : SseBody) : Prop := {
  rest_wf : sse_wf s;
  rest_quiet : drains s s [];
  rest_open : sb_failed s = false
}.

Lemma resting_received s n : resting s -> resting (set_received s n).
Proof. intros [Hw Hq Hf]. split; [done| |done]. by apply (drains_received _ _ _ n) in Hq. Qed.

Lemma push_spec s c :
  resting s ->
  match SseBody_push s c with
  | (s', Ok out) =>
      sb_received s + zlen c <= SSE_LIMIT /\ resting s' /\ sb_received s' = sb_received s + zlen c /\
      drains (extend (set_received s (sb_received s + zlen c)) c) s' (concat out)
  | (_, Err _) => SSE_LIMIT < sb_received s + zlen c \/ fails (extend s c)
  end.
Proof.
  intros Hr. unfold SseBody_push. rewrite (rest_open _ Hr). simpl orb.
  destruct (_ <? _) eqn:E; zbool; [left; lia|].
  set (n := sb_received s + zlen c). destruct (resting_received _ n Hr) as [Hw Hq Hf].
  destruct (parts_concat (length c) (64 * 1024) c) as [Hc Hall]; [done|done|].
  pose proof (push_parts_spec _ _ Hw Hq Hall) as Hs. rewrite Hc in Hs.
  destruct (push_parts _ _) as [s' [out|e]].
  - destruct Hs as [Hd Hw']. destruct (drains_fixed _ _ _ Hd) as (Hrc & Hfl & _). split; [lia|].
    split; [|done]. split; [done|by eapply drains_quiet|]. rewrite Hfl. apply (rest_open _ Hr).
  - right. apply (fails_received _ (sb_received s)) in Hs.
    assert (set_received (extend (set_received s n) c) (sb_received s) = extend s c) as <-; [by destruct s|done].
Qed.

Lemma run_spec s chunks :
  resting s -> sb_received s <= SSE_LIMIT ->
  match sse_run s chunks with
  | (s', Ok out) =>
      sb_received s + zlen (concat chunks) <= SSE_LIMIT /\ resting s' /\
      drains (extend (set_received s (sb_received s + zlen (concat chunks))) (concat chunks)) s' out
  | (_, Err _) => SSE_LIMIT < sb_received s + zlen (concat chunks) \/ fails (extend s (concat chunks))
  end.
Proof.
  revert s. induction chunks as [|c chunks IH]; intros s Hr Hl; cbn [sse_run concat].
  { rewrite extend_nil. change (zlen []) with 0. rewrite Z.add_0_r.
    assert (set_received s (sb_received s) = s) as -> by (by destruct s). destruct Hr. done. }
  pose proof (push_spec s c Hr) as Hp. zlen_norm. pose proof (zlen_nonneg (concat chunks)).
  destruct (SseBody_push s c) as [s1 [out|e]].
  - destruct Hp as (Hn & Hr1 & Hrc & Hd). specialize (IH s1 Hr1 ltac:(lia)). rewrite Hrc in IH.
    set (n := sb_received s + zlen c + zlen (concat chunks)) in IH.
    pose proof (wf_extend s c (rest_wf _ Hr)) as Hwe.
    destruct (sse_run s1 chunks) as [s2 [more|e]].
    + destruct IH as (Hn2 & Hr2 & Hd2). split; [unfold n in *; lia|]. split; [done|].
      replace (sb_received s + (zlen c + zlen (concat chunks))) with n by (unfold n; lia).
      apply (drains_received _ _ _ n) in Hd. rewrite <- extend_app.
      refine (proj1 (proj2 (extend_drains _ _ _ (concat chunks) _ Hd)) _ _ Hd2). done.
    + destruct IH as [IH|IH]; [left; unfold n in *; lia|]. right.
      apply (drains_received _ _ _ (sb_received s)) in Hd.
      assert (set_received (extend (set_received s (sb_received s + zlen c)) c) (sb_received s) = extend s c) as Hs
        by (by destruct s). rewrite Hs in Hd. rewrite <- extend_app.
      refine (proj2 (proj2 (extend_drains _ _ _ (concat chunks) Hwe Hd)) _).
      by apply (fails_received _ (sb_received s)) in IH.
  - destruct Hp as [Hp|Hp]; [left; lia|]. right. rewrite <- extend_app. apply extend_fails; [|done].
    apply wf_extend, (rest_wf _ Hr).
Qed.

(** A filter that requires a receipt or not. *)
Definition SseBody_start (required : bool) : SseBody := if required then SseBody_new else SseBody_transport.

Lemma start_resting required : resting (SseBody_start required) /\ sb_received (SseBody_start required) = 0.
Proof. by destruct required; split; try split; try done; apply drains_stop. Qed.

(** The loop of [push] without fuel: its turns, up to the one that stops or fails. *)
Inductive turns : nat -> SseBody -> SseBody * result (list bytes) StreamError -> Prop :=
| turns_stop s s' out : sse_step s = (s', out, Ok Stop) -> turns 1 s (s', Ok out)
| turns_fail s s' out e : sse_step s = (s', out, Err e) -> turns 1 s (s', Err e)
| turns_next n s s1 out s' r :
    sse_step s = (s1, out, Ok Continue) -> turns n s1 (s', r) ->
    turns (S n) s (s', let? more := r in Ok (out ++ more)).

Lemma turns_bounded s : sse_wf s -> exists n r, turns n s r /\ (n <= S (sse_measure s))%nat.
Proof.
  remember (sse_measure s) as m eqn:Hm. revert s Hm.
  induction (lt_wf m) as [m _ IH]; intros s -> Hw.
  destruct (sse_step s) as [[s1 out] [[]|e]] eqn:Hstep.
  - assert (cstep s = (s1, concat out, Ok Continue)) as Hc by (unfold cstep; by rewrite Hstep).
    pose proof (cstep_measure _ _ _ Hw Hc) as Hlt.
    destruct (IH _ Hlt s1 eq_refl (cstep_wf _ _ _ _ Hw Hc)) as (n & [s' r] & Ht & Hn).
    eexists _, _. split; [by eapply turns_next|lia].
  - eexists _, _. split; [by apply turns_stop|lia].
  - eexists _, _. split; [by eapply turns_fail|lia].
Qed.

Lemma turns_loop n s r fuel : turns n s r -> (n <= fuel)%nat -> sse_loop fuel s = r.
Proof.
  intros Ht. revert fuel. induction Ht as [s s' out Hs|s s' out e Hs|n s s1 out s' r Hs _ IH];
    intros [|fuel] Hf; try lia; cbn [sse_loop]; rewrite Hs; [done|done|].
  by rewrite IH by lia.
Qed.

(** C38. At every point of a stream and for every piece that arrives, the loop of [push]
    ends: within two turns per buffered byte and two more it stops or fails, and any
    larger bound gives the same state and output. *)
Theorem sse_loop_terminates required chunks s out part :
  sse_run (SseBody_start required) chunks = (s, Ok out) ->
  exists n r, turns n (extend s part) r /\ (n <= sse_fuel (extend s part))%nat /\
    forall fuel, (n <= fuel)%nat -> sse_loop fuel (extend s part) = r.
Proof.
  intros Hrun. destruct (start_resting required) as [Hr Hn].
  pose proof (run_spec _ chunks Hr) as Hs. rewrite Hn, Hrun in Hs.
  destruct Hs as (_ & Hs & _); [done|].
  destruct (turns_bounded (extend s part) (wf_extend _ _ (rest_wf _ Hs))) as (n & r & Ht & Hle).
  exists n, r. split_and!; [done| |intros; by eapply turns_loop].
  unfold sse_fuel, sse_measure in *. destruct (sb_state _); lia.
Qed.

(** C35. However the network cuts a response stream, the filter releases the same bytes
    and ends in the same state, byte counts, receipt and digest included, or rejects it. *)
Theorem sse_fragmentation required chunks :
  match sse_run (SseBody_start required) chunks, sse_run (SseBody_start required) [concat chunks] with
  | (s, Ok out), (s', Ok out') => s = s' /\ out = out'
  | (_, Err _), (_, Err _) => True
  | _, _ => False
  end.
Proof.
  destruct (start_resting required) as [Hr H0].
  pose proof (run_spec _ chunks Hr ltac:(rewrite H0; done)) as H1.
  pose proof (run_spec _ [concat chunks] Hr ltac:(rewrite H0; done)) as H2.
  cbn [concat] in H2. rewrite app_nil_r in H2.
  set (s0 := SseBody_start required) in *. set (w := concat chunks) in *. set (n := sb_received s0 + zlen w) in *.
  assert (fails (extend s0 w) -> fails (extend (set_received s0 n) w)) as Hf
    by (intros H; apply (fails_received _ n) in H; done).
  destruct (sse_run s0 chunks) as [s [out|e]], (sse_run s0 [w]) as [s' [out'|e']].
  - destruct H1 as (_ & _ & H1), H2 as (_ & _ & H2). by eapply drains_det.
  - destruct H1 as (? & _ & H1), H2 as [H2|H2]; [lia|]. by eapply drains_not_fails, Hf.
  - destruct H2 as (? & _ & H2), H1 as [H1|H1]; [lia|]. by eapply drains_not_fails, Hf.
  - done.
Qed.

(** ** The shape of a stream *)

Inductive Frame : Type := Event (b : bytes) | Comment.

Definition frame_bytes (f : Frame) : bytes := match f with Event b => b | Comment => SSE_KEEPALIVE end.
Definition frame_content (f : Frame) : bytes := match f with Event b => b | Comment => [] end.
Definition wire (fs : list Frame) : bytes := concat (frame_bytes <$> fs).
Definition content (fs : list Frame) : bytes := concat (frame_content <$> fs).

(** An event ends at its first blank line and starts with none of the markers. *)
Definition event_ok (b : bytes) : Prop :=
  find_bytes b SSE_EVENT_END = Some (zlen b - 2) /\
  forall p k, (p, k) ∈ boundary_prefixes -> starts_with b p = false.
Definition frame_ok (f : Frame) : Prop := match f with Event b => event_ok b | Comment => True end.
Definition receipt_ok (p : bytes) : Prop := 1 <= zlen p <= MAX_PROOF_BYTES /\ x0a ∉ p.
Definition receipt_bytes (p : bytes) : bytes := SSE_RECEIPT_PREFIX ++ p ++ SSE_EVENT_END.

(** The last event without its blank line. *)
Definition terminal_ok (t : bytes) : Prop :=
  t = SSE_CHAT_TERMINAL_PREFIX \/
  (find_bytes (t ++ SSE_EVENT_END) SSE_EVENT_END = Some (zlen t) /\
   exists p, (p, ResponsesTerminalKind) ∈ boundary_prefixes /\ starts_with (t ++ SSE_EVENT_END) p = true).

Lemma wire_snoc fs f : wire (fs ++ [f]) = wire fs ++ frame_bytes f.
Proof. unfold wire. rewrite fmap_app, concat_app. simpl. by rewrite app_nil_r. Qed.

Lemma content_snoc fs f : content (fs ++ [f]) = content fs ++ frame_content f.
Proof. unfold content. rewrite fmap_app, concat_app. simpl. by rewrite app_nil_r. Qed.

(** An event body without its end so far. *)
Definition open_part (part : bytes) : Prop := find_bytes part SSE_EVENT_END = None /\ tail part = [].

Lemma find_open part b :
  open_part part -> find_bytes (part ++ b) SSE_EVENT_END = Z.add (zlen part) <$> find_bytes b SSE_EVENT_END.
Proof.
  intros [Hf Ht]. rewrite find_none_app by done. rewrite Ht. simpl app. change (zlen []) with 0. by rewrite Z.sub_0_r.
Qed.

Lemma find_cut b e : find_bytes b SSE_EVENT_END = Some e -> find_bytes (slice_to b (e + 2)) SSE_EVENT_END = Some e.
Proof.
  intros H. pose proof H as H'. apply find_spec in H as (a & r & -> & <-). rewrite cut_end_to.
  destruct (find_bytes (a ++ SSE_EVENT_END) SSE_EVENT_END) as [j|] eqn:E.
  - apply (find_app _ _ r) in E. rewrite <- app_assoc in E. congruence.
  - pose proof (find_exists a SSE_EVENT_END []) as Hx. rewrite app_nil_r in Hx. done.
Qed.

Lemma tail_cases l : tail l = [] \/ tail l = [x0a].
Proof. unfold tail. case_bool_decide; auto. Qed.

Lemma open_grow part b :
  open_part part -> find_bytes b SSE_EVENT_END = None -> open_part (part ++ safe b).
Proof.
  intros Ho Hb. pose proof (find_open _ b Ho) as Hf. rewrite Hb in Hf. simpl in Hf. split.
  - destruct (find_bytes (part ++ safe b) SSE_EVENT_END) as [i|] eqn:E; [|done].
    apply (find_app _ _ (tail b)) in E. rewrite <- app_assoc, safe_tail in E. congruence.
  - destruct (decide (safe b = [])) as [E|E]; [rewrite E, app_nil_r; apply Ho|]. rewrite tail_app by done.
    destruct (tail (safe b)) as [|x l] eqn:Ht; [done|]. exfalso.
    destruct (tail_cases b) as [Hn|Hn].
    + assert (safe b = b) as Hs by (rewrite <- (safe_tail b) at 2; by rewrite Hn, app_nil_r).
      rewrite Hs, Hn in Ht. done.
    + destruct (tail_cases (safe b)) as [Hx|Hx]; [congruence|].
      pose proof (safe_tail b) as Hb'. rewrite <- (safe_tail (safe b)), Hx, Hn in Hb'.
      rewrite <- app_assoc in Hb'. change ([x0a] ++ [x0a]) with SSE_EVENT_END in Hb'.
      pose proof (find_exists (safe (safe b)) SSE_EVENT_END []) as Hfe. rewrite app_nil_r, Hb' in Hfe. done.
Qed.

(** ** What a run has consumed, released and hashed *)

(** The receipt of a stream in its terminal event. *)
Definition receipt_done (s : SseBody) (r : bytes) : Prop :=
  sb_receipt_frame s = None /\
  match sb_proof_bytes s with
  | Some p => receipt_ok p /\ r = receipt_bytes p
  | None => sb_receipt_required s = false /\ r = []
  end.

Definition history (s : SseBody) (w o : bytes) : Prop :=
  exists fs, Forall frame_ok fs /\
  match sb_state s with
  | Boundary | Keepalive | Receipt =>
      sb_hashed s = content fs /\ o = wire fs /\
      match sb_proof_bytes s, sb_receipt_frame s with
      | None, None => w = wire fs
      | Some p, Some f => f = receipt_bytes p /\ receipt_ok p /\ w = wire fs ++ f /\ sb_state s = Boundary
      | _, _ => False
      end
  | Regular =>
      exists part, open_part part /\ sb_hashed s = content fs ++ part /\ w = wire fs ++ part /\ o = w /\
        sb_proof_bytes s = None /\ sb_receipt_frame s = None /\
        forall p k, (p, k) ∈ boundary_prefixes -> starts_with (part ++ sb_buffer s) p = false
  | ChatTerminal =>
      exists r, receipt_done s r /\ sb_hashed s = content fs /\ w = wire fs ++ r /\ o = w
  | ResponsesTerminal =>
      exists r part, receipt_done s r /\ open_part part /\ sb_hashed s = content fs ++ part /\
        w = wire fs ++ r ++ part /\ o = w /\
        exists p, (p, ResponsesTerminalKind) ∈ boundary_prefixes /\ starts_with (part ++ sb_buffer s) p = true
  | AfterTerminal =>
      exists r t, receipt_done s r /\ terminal_ok t /\ sb_hashed s = content fs ++ t ++ SSE_EVENT_END /\
        w = wire fs ++ r ++ t ++ SSE_EVENT_END /\ o = wire fs ++ r ++ t
  end.

Lemma open_nil : open_part [].
Proof. done. Qed.

Lemma frames_snoc fs f : Forall frame_ok fs -> frame_ok f -> Forall frame_ok (fs ++ [f]).
Proof. intros. apply Forall_app. split; [done|]. by constructor. Qed.

Lemma history_boundary s s' o a w out :
  sb_state s = Boundary -> history s w out -> cstep s = (s', o, Ok a) ->
  sb_buffer s' = sb_buffer s /\ history s' w (out ++ o).
Proof.
  intros Hs (fs & Hfs & Hh). rewrite Hs in Hh. destruct Hh as (Hhash & -> & Hr).
  unfold cstep, sse_step. rewrite Hs. unfold push_boundary. destruct (sb_buffer s) as [|x l] eqn:Hb.
  { intros [= <- <- <-]. rewrite app_nil_r. split; [done|]. exists fs. by rewrite Hs. }
  rewrite <- Hb. pose proof (classify_inv (sb_buffer s)) as Hc.
  destruct (classify_sse_boundary (sb_buffer s)) eqn:Hk.
  - intros [= <- <- <-]. rewrite app_nil_r. split; [done|]. exists fs. by rewrite Hs.
  - destruct (sb_proof_bytes s) eqn:Hp; [done|]. intros [= <- <- <-]. rewrite app_nil_r. split; [done|].
    exists fs. simpl. by rewrite Hp.
  - unfold begin_terminal. destruct (sb_receipt_frame s) as [f|] eqn:Hf.
    + destruct (sb_proof_bytes s) as [p|] eqn:Hp; [|done]. destruct Hr as (-> & Hok & -> & _). intros [= <- <- <-].
      split; [done|]. exists fs. simpl. split; [done|]. exists (receipt_bytes p). unfold receipt_done. simpl.
      rewrite ?Hp, app_nil_r. done.
    + destruct (sb_receipt_required s) eqn:Hq; [done|]. destruct (sb_proof_bytes s) eqn:Hp; [done|]. subst w.
      intros [= <- <- <-]. split; [done|]. exists fs. simpl. split; [done|]. exists []. unfold receipt_done. simpl.
      rewrite ?Hp, ?Hf, !app_nil_r. done.
  - unfold begin_terminal. destruct Hc as (p0 & Hin & Hsw). destruct (sb_receipt_frame s) as [f|] eqn:Hf.
    + destruct (sb_proof_bytes s) as [p|] eqn:Hp; [|done]. destruct Hr as (-> & Hok & -> & _). intros [= <- <- <-].
      split; [done|]. exists fs. simpl. split; [done|]. exists (receipt_bytes p), []. unfold receipt_done. simpl.
      rewrite ?Hp, !app_nil_r. split_and!; try done. eauto.
    + destruct (sb_receipt_required s) eqn:Hq; [done|]. destruct (sb_proof_bytes s) eqn:Hp; [done|]. subst w.
      intros [= <- <- <-]. split; [done|]. exists fs. simpl. split; [done|]. exists [], []. unfold receipt_done. simpl.
      rewrite ?Hp, ?Hf, !app_nil_r. split_and!; try done. eauto.
  - destruct (sb_proof_bytes s) eqn:Hp; [done|]. destruct (sb_receipt_frame s) eqn:Hf; [done|]. subst w.
    intros [= <- <- <-]. rewrite app_nil_r. split; [done|]. exists fs. split; [done|]. simpl. exists [].
    rewrite !app_nil_r, Hp, Hf. split_and!; try done. intros p k Hin. apply (Hc p k Hin).
  - destruct (sb_proof_bytes s) eqn:Hp; [done|]. intros [= <- <- <-]. rewrite app_nil_r. split; [done|].
    exists fs. simpl. by rewrite Hp.
Qed.

Lemma starts_with_part l c p : starts_with (l ++ c) p = false -> starts_with l p = false.
Proof. intros H. destruct (starts_with l p) eqn:E; [|done]. by rewrite (starts_with_app _ _ c E) in H. Qed.

Lemma find_part part b e :
  open_part part -> find_bytes b SSE_EVENT_END = Some e ->
  find_bytes (part ++ slice_to b (e + 2)) SSE_EVENT_END = Some (zlen (part ++ slice_to b (e + 2)) - 2).
Proof.
  intros Ho He. rewrite find_open, (find_cut _ _ He) by done. simpl. apply find_bound in He.
  rewrite zlen_app, zlen_slice_to by lia. f_equal. lia.
Qed.

Lemma history_regular s s' o a w out :
  sb_state s = Regular -> history s w out -> cstep s = (s', o, Ok a) ->
  sb_buffer s = o ++ sb_buffer s' /\ history s' (w ++ o) (out ++ o).
Proof.
  intros Hs (fs & Hfs & Hh). rewrite Hs in Hh. destruct Hh as (part & Ho & Hhash & -> & -> & Hp & Hf & Hn).
  rewrite cstep_regular by done. pose proof (scan_join (sb_buffer s)) as Hj. unfold scan in *.
  destruct (find_bytes (sb_buffer s) SSE_EVENT_END) as [e|] eqn:He; intros [= <- <- <-]; (split; [done|]).
  - exists (fs ++ [Event (part ++ slice_to (sb_buffer s) (e + 2))]). split.
    + apply frames_snoc; [done|]. split; [by apply find_part|]. intros p k Hin.
      apply (starts_with_part _ (slice_from (sb_buffer s) (e + 2))). rewrite <- app_assoc, slice_to_from. by eapply Hn.
    + simpl. rewrite wire_snoc, content_snoc, Hp, Hf, Hhash. simpl. by rewrite !app_assoc.
  - exists fs. split; [done|]. simpl. rewrite Hs. exists (part ++ safe (sb_buffer s)).
    split; [by apply open_grow|]. rewrite Hhash, !app_assoc. split_and!; try done.
    intros p k Hin. rewrite <- app_assoc, safe_tail. by eapply Hn.
Qed.

Lemma history_responses s s' o a w out :
  sb_state s = ResponsesTerminal -> history s w out -> cstep s = (s', o, Ok a) ->
  exists c, sb_buffer s = c ++ sb_buffer s' /\ history s' (w ++ c) (out ++ o).
Proof.
  intros Hs (fs & Hfs & Hh). rewrite Hs in Hh.
  destruct Hh as (r & part & Hr & Ho & Hhash & -> & -> & p & Hin & Hsw).
  rewrite cstep_responses by done. pose proof (scan_join (sb_buffer s)) as Hj. unfold scan in *.
  destruct (find_bytes (sb_buffer s) SSE_EVENT_END) as [e|] eqn:He.
  - destruct (slice_from (sb_buffer s) (e + 2)) eqn:Hrest; [|done]. intros [= <- <- <-]. rewrite app_nil_r in Hj.
    rewrite <- Hj. exists (sb_buffer s). split; [by rewrite app_nil_r|]. pose proof (find_part _ _ _ Ho He) as Hfp.
    rewrite <- Hj in Hfp. apply find_spec in He as (t & l & Ht & <-).
    assert (l = []) as -> by (rewrite Ht, cut_end_from in Hrest; done). rewrite app_nil_r in Ht.
    exists fs. split; [done|]. simpl. exists r, (part ++ t). rewrite Ht in *. split; [exact Hr|]. split.
    { right. rewrite <- app_assoc. split; [|eauto]. rewrite Hfp, !zlen_app. f_equal.
      change (zlen SSE_EVENT_END) with 2. lia. }
    rewrite Hhash, <- !app_assoc. split_and!; try done. do 3 f_equal. rewrite zlen_app.
    apply slice_to_app. change (zlen SSE_EVENT_END) with 2. lia.
  - intros [= <- <- <-]. exists (safe (sb_buffer s)). split; [done|]. exists fs. split; [done|]. simpl. rewrite Hs.
    exists r, (part ++ safe (sb_buffer s)). split; [exact Hr|]. split; [by apply open_grow|].
    rewrite Hhash, <- !app_assoc. split_and!; try done. exists p. rewrite safe_tail. done.
Qed.

Lemma history_receipt s s' o a w out :
  sse_wf s -> sb_state s = Receipt -> history s w out -> cstep s = (s', o, Ok a) ->
  exists c, sb_buffer s = c ++ sb_buffer s' /\ history s' (w ++ c) (out ++ o).
Proof.
  intros Hw Hs Hh. unfold cstep, sse_step. rewrite Hs. unfold push_receipt.
  destruct (find_bytes (sb_buffer s) SSE_EVENT_END) as [e|] eqn:He.
  - unfold take_buffer_prefix. destruct (_ || _) eqn:E; [done|]. intros [= <- <- <-]. change (zlen SSE_EVENT_END) with 2 in *.
    unfold sse_wf in Hw. rewrite Hs in Hw. apply starts_with_spec in Hw as [r Hr].
    exists (slice_to (sb_buffer s) (e + 2)). cbn [set_state set_receipt set_buffer sb_buffer].
    split; [by rewrite slice_to_from|].
    rewrite Hr, find_open in He by done. destruct (find_bytes r SSE_EVENT_END) as [j|] eqn:Hj; [|done].
    simpl in He. injection He as <-. apply find_spec in Hj as (p & l & -> & <-).
    assert (slice_to (sb_buffer s) (zlen SSE_RECEIPT_PREFIX + zlen p + 2) = receipt_bytes p) as Hcut.
    { rewrite Hr. unfold receipt_bytes. rewrite !app_assoc. rewrite <- (app_assoc _ SSE_EVENT_END l).
      rewrite <- zlen_app, cut_end_to. done. }
    simpl in E. rewrite Hcut in *.
    assert (slice (receipt_bytes p) (zlen SSE_RECEIPT_PREFIX) (zlen (receipt_bytes p) - 2) = p) as Hp.
    { unfold receipt_bytes. rewrite slice_app_skip, Z.sub_diag by lia. apply slice_app_here.
      rewrite !zlen_app. change (zlen SSE_EVENT_END) with 2. lia. }
    rewrite Hp in *. zbool.
    destruct Hh as (fs & Hfs & Hh). rewrite Hs in Hh. destruct Hh as (Hhash & -> & Hr').
    destruct (sb_proof_bytes s), (sb_receipt_frame s); try done; [by destruct Hr' as (_&_&_&?)|]. subst w.
    exists fs. split; [done|]. simpl. rewrite app_nil_r. split_and!; try done. unfold receipt_ok.
    pose proof (zlen_nonneg p). split; [lia|done].
  - destruct (_ <? _); [done|]. intros [= <- <- <-]. exists []. by rewrite !app_nil_r.
Qed.

Lemma history_step s s' o a w out :
  sse_wf s -> history s w out -> cstep s = (s', o, Ok a) ->
  exists c, sb_buffer s = c ++ sb_buffer s' /\ history s' (w ++ c) (out ++ o).
Proof.
  intros Hw Hh Hc. destruct (sb_state s) eqn:Hs.
  - destruct (history_boundary _ _ _ _ _ _ Hs Hh Hc) as [Hb ?]. exists []. by rewrite app_nil_r, Hb.
  - eexists. by eapply history_regular.
  - unfold cstep, sse_step in Hc. rewrite Hs in Hc. unfold push_keepalive, take_buffer_prefix in Hc.
    injection Hc as <- <- <-. unfold sse_wf in Hw. rewrite Hs in Hw. apply starts_with_spec in Hw as [r Hr].
    exists SSE_KEEPALIVE. rewrite Hr, slice_to_app, slice_from_app by done. split; [done|].
    destruct Hh as (fs & Hfs & Hh). rewrite Hs in Hh. destruct Hh as (Hhash & -> & Hr').
    destruct (sb_proof_bytes s) eqn:Hp, (sb_receipt_frame s) eqn:Hf; try done; [by destruct Hr' as (_&_&_&?)|]. subst w.
    exists (fs ++ [Comment]). split; [by apply frames_snoc|]. cbn -[SSE_KEEPALIVE].
    rewrite wire_snoc, content_snoc, Hp, Hf. cbn -[SSE_KEEPALIVE]. by rewrite !app_nil_r.
  - by eapply history_receipt.
  - destruct (cstep_chat s Hs) as [(_ & _ & E)|[(_ & _ & s1 & e & E)|(r & Hr & E)]]; rewrite E in Hc.
    + injection Hc as <- <- <-. exists []. by rewrite !app_nil_r.
    + done.
    + destruct r; [|done]. injection Hc as <- <- <-. exists chat_terminal. split; [done|].
      destruct Hh as (fs & Hfs & Hh). rewrite Hs in Hh. destruct Hh as (r & Hr' & Hhash & -> & ->).
      exists fs. split; [done|]. cbn -[SSE_CHAT_TERMINAL_PREFIX chat_terminal]. exists r, SSE_CHAT_TERMINAL_PREFIX.
      rewrite Hhash, <- !app_assoc. split_and!; try done. by left.
  - by eapply history_responses.
  - unfold cstep, sse_step in Hc. rewrite Hs in Hc. unfold push_after_terminal in Hc.
    destruct (sb_buffer s) eqn:Hb; [|done]. injection Hc as <- <- <-. exists []. by rewrite !app_nil_r, Hb.
Qed.

Lemma history_drains s s' o w out :
  sse_wf s -> drains s s' o -> history s w out ->
  exists c, sb_buffer s = c ++ sb_buffer s' /\ history s' (w ++ c) (out ++ o).
Proof.
  intros Hw Hd. revert w out. induction Hd as [s s' o Hc|s s1 s' o o' Hc _ IH]; intros w out Hh.
  - by eapply history_step.
  - destruct (history_step _ _ _ _ _ _ Hw Hh Hc) as (c & Hb & Hh1).
    destruct (IH (cstep_wf _ _ _ _ Hw Hc) _ _ Hh1) as (c' & Hb' & Hh2).
    exists (c ++ c'). rewrite Hb, Hb', !app_assoc in *. done.
Qed.

(** A finished stream is exactly the provider's events, one receipt and a terminal
    event: everything is released but the last blank line, which is withheld, and the
    digest covers exactly the events and the terminal, leaving out the gateway's
    keepalive comments and the receipt. *)
Lemma finished_content `{Hash} chunks s out proof digest :
  sse_run SseBody_new chunks = (s, Ok out) -> SseBody_finish s = Ok (proof, digest) ->
  exists fs t,
    concat chunks = wire fs ++ receipt_bytes proof ++ t ++ SSE_EVENT_END /\
    Forall frame_ok fs /\ receipt_ok proof /\ terminal_ok t /\
    out ++ SSE_EVENT_END = concat chunks /\
    digest = sha256 (content fs ++ t ++ SSE_EVENT_END).
Proof.
  intros Hrun Hfin. destruct (start_resting true) as [Hr H0]. cbn [SseBody_start] in *.
  pose proof (run_spec _ chunks Hr ltac:(rewrite H0; done)) as Hs. rewrite Hrun in Hs.
  destruct Hs as (_ & _ & Hd). set (s0 := set_received SseBody_new _) in Hd.
  unfold SseBody_finish, require_complete in Hfin. destruct (_ || _ || _) eqn:E; [done|]. zbool.
  match goal with H : sb_state s = _ |- _ => rename H into Hst end.
  assert (sb_buffer s = []) as Hb by (by apply zlen_0_nil).
  destruct (history_drains _ _ _ [] [] (wf_extend s0 _ (rest_wf _ Hr)) Hd) as (c & Hc & fs & Hfs & Hh).
  { exists []. done. }
  rewrite Hst in Hh. destruct Hh as (r & t & Hrd & Ht & Hhash & Hw & Ho). rewrite Hb, app_nil_r in Hc.
  simpl app in *. cbn in Hc. subst c. destruct Hrd as [_ Hrd].
  destruct (sb_proof_bytes s) as [p|] eqn:Hp; [|done]. simpl in Hfin. injection Hfin as <- <-.
  destruct Hrd as [Hok ->]. exists fs, t. rewrite Hhash. split_and!; try done.
  rewrite Hw, Ho. by rewrite (app_assoc (wire fs)), (app_assoc (wire fs)), <- (app_assoc _ t).
Qed.

(** ** Every well-formed stream is accepted *)

Lemma event_not_marker b p k : event_ok b -> (p, k) ∈ boundary_prefixes -> starts_with p b = false.
Proof.
  intros [Hf Hn] Hin. destruct (starts_with p b) eqn:E; [|done]. exfalso.
  pose proof (Hn p k Hin) as Hb. apply starts_with_spec in E as [r Hr].
  assert (find_bytes p SSE_EVENT_END = Some (zlen b - 2)) as Hfp by (rewrite Hr; by apply find_app).
  unfold boundary_prefixes in Hin. rewrite !elem_of_cons, elem_of_nil in Hin.
  destruct Hin as [[= -> ->]|[[= -> ->]|[[= -> ->]|[[= -> ->]|[[= -> ->]|[]]]]]]; try done.
  assert (zlen SSE_KEEPALIVE = zlen (b ++ r)) as Hz by (by rewrite <- Hr).
  change (find_bytes SSE_KEEPALIVE SSE_EVENT_END) with (Some 19) in Hfp. injection Hfp as Hfp.
  rewrite zlen_app in Hz. change (zlen SSE_KEEPALIVE) with 21 in Hz.
  rewrite (zlen_0_nil r), app_nil_r in Hr by lia. subst b. done.
Qed.

Lemma event_classify b rest : event_ok b -> classify_sse_boundary (b ++ rest) = RegularKind.
Proof.
  intros Hb. pose proof (classify_inv (b ++ rest)) as Hc.
  assert (forall p k, (p, k) ∈ boundary_prefixes -> starts_with (b ++ rest) p = false) as Hp.
  { intros p k Hin. apply starts_with_mismatch; [by eapply Hb|by eapply event_not_marker]. }
  destruct (classify_sse_boundary (b ++ rest)); try done.
  1: { destruct Hc as (p & k & Hin & Hs). pose proof (event_not_marker _ _ _ Hb Hin) as Hn.
       by rewrite (starts_with_app_l _ _ rest Hn) in Hs. }
  all: destruct Hc as (p & Hin & Hs); by rewrite (Hp _ _ Hin) in Hs.
Qed.

(** The state of a filter with only these fields set. *)
Definition at_boundary (hashed buffer : bytes) (n : Z) : SseBody := {|
  sb_hashed := hashed; sb_buffer := buffer; sb_state := Boundary; sb_proof_bytes := None;
  sb_receipt_frame := None; sb_failed := false; sb_received := n; sb_receipt_required := true |}.

Lemma slice_exact (b rest : bytes) : slice_to (b ++ rest) (zlen b) = b /\ slice_from (b ++ rest) (zlen b) = rest.
Proof. by rewrite slice_to_app, slice_from_app. Qed.

Lemma boundary_cons (b rest : bytes) : find_bytes b SSE_EVENT_END <> None -> exists x l, b ++ rest = x :: l.
Proof. destruct b; [done|]. simpl. eauto. Qed.

Lemma event_drains h b rest n s' o :
  event_ok b -> drains (at_boundary (h ++ b) rest n) s' o -> drains (at_boundary h (b ++ rest) n) s' (b ++ o).
Proof.
  intros Hb Hd. destruct Hb as [Hf Hn]. destruct (boundary_cons b rest) as (x & l & Hx); [by rewrite Hf|].
  rewrite <- (app_nil_l (b ++ o)). eapply drains_next.
  { unfold cstep, sse_step, push_boundary. cbn [at_boundary sb_state sb_buffer]. rewrite Hx, <- Hx.
    rewrite (event_classify b rest) by done. reflexivity. }
  eapply drains_next; [|exact Hd].
  rewrite cstep_regular by done. cbn [at_boundary set_state sb_buffer]. unfold scan. rewrite (find_app _ _ rest _ Hf).
  replace (zlen b - 2 + 2) with (zlen b) by lia. destruct (slice_exact b rest) as [-> ->]. done.
Qed.

Lemma comment_drains h rest n s' o :
  drains (at_boundary h rest n) s' o ->
  drains (at_boundary h (SSE_KEEPALIVE ++ rest) n) s' (SSE_KEEPALIVE ++ o).
Proof.
  intros Hd. rewrite <- (app_nil_l (SSE_KEEPALIVE ++ o)). eapply drains_next; [done|].
  eapply drains_next; [|exact Hd]. unfold cstep, sse_step, push_keepalive, take_buffer_prefix.
  cbn [set_state sb_state at_boundary sb_buffer]. destruct (slice_exact SSE_KEEPALIVE rest) as [-> ->].
  cbn [concat]. by rewrite app_nil_r.
Qed.

Lemma frames_drain fs h rest n s' o :
  Forall frame_ok fs -> drains (at_boundary (h ++ content fs) rest n) s' o ->
  drains (at_boundary h (wire fs ++ rest) n) s' (wire fs ++ o).
Proof.
  revert h. induction fs as [|f fs IH]; intros h Hf Hd; [by rewrite app_nil_r in Hd|].
  apply Forall_cons in Hf as [Hf1 Hf]. change (wire (f :: fs)) with (frame_bytes f ++ wire fs).
  change (content (f :: fs)) with (frame_content f ++ content fs) in Hd. rewrite <- !app_assoc.
  destruct f as [b|]; cbn [frame_bytes frame_content] in *.
  - apply event_drains; [done|]. apply IH; [done|]. by rewrite <- app_assoc.
  - apply comment_drains. by apply IH.
Qed.

Lemma no_newline_open p : x0a ∉ p -> open_part p.
Proof.
  intros Hp. assert (find_bytes p SSE_EVENT_END = None) as Hf.
  { destruct (find_bytes p SSE_EVENT_END) as [i|] eqn:E; [|done]. apply find_spec in E as (a & r & -> & _).
    destruct Hp. unfold SSE_EVENT_END. set_solver. }
  split; [done|]. destruct (tail_cases p) as [|E]; [done|]. destruct Hp.
  rewrite <- (safe_tail p), E. set_solver.
Qed.

(** The state after the terminal event. *)
Definition at_end (hashed proof : bytes) (n : Z) : SseBody := {|
  sb_hashed := hashed; sb_buffer := []; sb_state := AfterTerminal; sb_proof_bytes := Some proof;
  sb_receipt_frame := None; sb_failed := false; sb_received := n; sb_receipt_required := true |}.

(** A terminal event after its receipt. *)
Lemma terminal_drains s t :
  sb_state s = Boundary -> sb_failed s = false -> sb_receipt_required s = true ->
  sb_buffer s = t ++ SSE_EVENT_END -> terminal_ok t ->
  forall p f, sb_proof_bytes s = Some p -> sb_receipt_frame s = Some f ->
  drains s (at_end (sb_hashed s ++ t ++ SSE_EVENT_END) p (sb_received s)) (f ++ t).
Proof.
  intros Hs Hfl Hrq Hb Ht p f Hp Hf.
  assert (exists x l, sb_buffer s = x :: l) as (x & l & Hx) by (rewrite Hb; destruct t; simpl; eauto).
  destruct s as [h b st pr fr fl rc rq]. simpl in *. subst. destruct Ht as [->|(Hfind & p0 & Hin & Hsw)].
  - rewrite <- (app_nil_r f) at 2. eapply drains_next; [unfold cstep; simpl; by rewrite app_nil_r|].
    apply drains_stop. unfold cstep, at_end. simpl. done.
  - eapply drains_next.
    { unfold cstep, sse_step, push_boundary. cbn [sb_state sb_buffer]. rewrite Hx, <- Hx.
      rewrite (classify_prefix _ _ _ Hin Hsw). unfold begin_terminal. simpl. by rewrite app_nil_r. }
    apply drains_stop. rewrite cstep_responses by done. cbn [set_state set_receipt sb_buffer]. unfold scan. rewrite Hfind.
    assert (zlen t + 2 = zlen (t ++ SSE_EVENT_END)) as Hz by (by rewrite zlen_app).
    rewrite Hz. destruct (slice_exact (t ++ SSE_EVENT_END) []) as [E1 E2]. rewrite app_nil_r in E1, E2.
    rewrite E1, E2. unfold at_end, hash_update, set_buffer, set_state. simpl. do 2 f_equal.
    apply slice_to_app. rewrite zlen_app. change (zlen SSE_EVENT_END) with 2. lia.
Qed.

Lemma receipt_drains h p t n :
  receipt_ok p -> terminal_ok t ->
  drains (at_boundary h (receipt_bytes p ++ t ++ SSE_EVENT_END) n)
    (at_end (h ++ t ++ SSE_EVENT_END) p n) (receipt_bytes p ++ t).
Proof.
  intros [Hp Hn] Ht. rewrite <- (app_nil_l (receipt_bytes p ++ t)). eapply drains_next; [done|].
  rewrite <- (app_nil_l (receipt_bytes p ++ t)). eapply drains_next.
  { unfold cstep, sse_step, push_receipt. cbn [set_state sb_state at_boundary sb_buffer].
    assert (find_bytes (receipt_bytes p ++ t ++ SSE_EVENT_END) SSE_EVENT_END = Some (zlen SSE_RECEIPT_PREFIX + zlen p))
      as ->.
    { unfold receipt_bytes. rewrite <- app_assoc, find_open by done. rewrite <- app_assoc, find_open by by apply no_newline_open.
      rewrite (find_app SSE_EVENT_END SSE_EVENT_END _ 0) by done. simpl. f_equal. lia. }
    assert (zlen SSE_RECEIPT_PREFIX + zlen p + zlen SSE_EVENT_END = zlen (receipt_bytes p)) as ->
      by (unfold receipt_bytes; rewrite !zlen_app; lia).
    unfold take_buffer_prefix. cbn [set_state sb_buffer at_boundary]. destruct (slice_exact (receipt_bytes p) (t ++ SSE_EVENT_END)) as [-> ->].
    assert (slice (receipt_bytes p) (zlen SSE_RECEIPT_PREFIX) (zlen (receipt_bytes p) - zlen SSE_EVENT_END) = p) as ->.
    { unfold receipt_bytes. rewrite slice_app_skip, Z.sub_diag by lia. apply slice_app_here. rewrite !zlen_app. lia. }
    rewrite (proj2 (Z.eqb_neq _ _)), (proj2 (Z.ltb_ge _ _)), bool_decide_false by (done || lia). reflexivity. }
  by apply (terminal_drains {| sb_hashed := h; sb_buffer := t ++ SSE_EVENT_END; sb_state := Boundary;
    sb_proof_bytes := Some p; sb_receipt_frame := Some (receipt_bytes p); sb_failed := false;
    sb_received := n; sb_receipt_required := true |}).
Qed.

(** Every stream of events, a receipt and a terminal event within the byte limit is
    accepted, in whatever chunks it arrives, and yields its receipt and the digest of
    its content. *)
Theorem sse_accepts `{Hash} fs proof t chunks :
  Forall frame_ok fs -> receipt_ok proof -> terminal_ok t ->
  concat chunks = wire fs ++ receipt_bytes proof ++ t ++ SSE_EVENT_END ->
  zlen (concat chunks) <= SSE_LIMIT ->
  exists s out,
    sse_run SseBody_new chunks = (s, Ok out) /\ out ++ SSE_EVENT_END = concat chunks /\
    sb_hashed s = content fs ++ t ++ SSE_EVENT_END /\
    SseBody_finish s = Ok (proof, sha256 (content fs ++ t ++ SSE_EVENT_END)).
Proof.
  intros Hfs Hp Ht Hw Hl. destruct (start_resting true) as [Hr H0]. cbn [SseBody_start] in *.
  pose proof (run_spec _ chunks Hr ltac:(rewrite H0; done)) as Hs.
  assert (forall n, drains (extend (set_received SseBody_new n) (concat chunks))
    (at_end (content fs ++ t ++ SSE_EVENT_END) proof n) (wire fs ++ receipt_bytes proof ++ t)) as Hd.
  { intros n. rewrite Hw. apply (frames_drain fs []); [done|]. by apply receipt_drains. }
  destruct (sse_run SseBody_new chunks) as [s [out|e]].
  - destruct Hs as (_ & _ & Hd'). destruct (drains_det _ _ _ _ _ Hd' (Hd _)) as [-> ->].
    eexists _, _. split; [done|]. split; [|done]. rewrite Hw.
    by rewrite (app_assoc (wire fs)), (app_assoc (wire fs)), <- (app_assoc _ t).
  - exfalso. destruct Hs as [Hs|Hs]; [rewrite H0 in Hs; lia|]. eapply (drains_not_fails _ _ _ (Hd 0)).
    by apply (fails_received _ 0) in Hs.
Qed.
