(* ===== verification/Text.v ===== *)
(** Rust's [str] over its UTF-8 bytes, as far as the program uses it: validation,
    characters, white space, trimming, lines and splitting. *)

From S2P Require Import Prelude Primitives.

Open Scope Z_scope.

(** ** UTF-8 *)

(** The number of bytes a character with this first byte takes. *)
Definition utf8_width (b : byte) : nat :=
  let z := byte_to_Z b in if z <? 192 then 1 else if z <? 224 then 2 else if z <? 240 then 3 else 4.

Definition in_range (lo hi : Z) (b : byte) : bool := (lo <=? byte_to_Z b) && (byte_to_Z b <=? hi).

(** One well-formed character: the table of [core::str::from_utf8]. *)
Definition utf8_char (l : bytes) : bool :=
  match l with
  | [a] => byte_to_Z a <? 128
  | [a; b] => in_range 194 223 a && in_range 128 191 b
  | [a; b; c] =>
      in_range 128 191 c
      && match byte_to_Z a with
         | 224 => in_range 160 191 b
         | 237 => in_range 128 159 b
         | _ => in_range 225 239 a && in_range 128 191 b
         end
  | [a; b; c; d] =>
      in_range 128 191 c && in_range 128 191 d
      && match byte_to_Z a with
         | 240 => in_range 144 191 b
         | 244 => in_range 128 143 b
         | _ => in_range 241 243 a && in_range 128 191 b
         end
  | _ => false
  end.

(** The characters of a text; every turn takes at least one byte. *)
Fixpoint chars_loop (fuel : nat) (l : bytes) : list bytes :=
  match fuel, l with
  | S fuel, b :: _ => take (utf8_width b) l :: chars_loop fuel (drop (utf8_width b) l)
  | _, _ => []
  end.
Definition chars (l : bytes) : list bytes := chars_loop (length l) l.

(** [str::from_utf8]. *)
Definition from_utf8 (l : bytes) : option bytes := if forallb utf8_char (chars l) then Some l else None.

(** ** White space *)

(** [char::is_whitespace]: the property White_Space. *)
Definition is_whitespace (c : bytes) : bool :=
  match byte_to_Z <$> c with
  | [z] => ((9 <=? z) && (z <=? 13)) || (z =? 32)
  | [194; z] => (z =? 133) || (z =? 160)
  | [225; 154; z] => z =? 128
  | [226; 128; z] => ((128 <=? z) && (z <=? 138)) || (z =? 168) || (z =? 169) || (z =? 175)
  | [226; 129; z] => z =? 159
  | [227; 128; z] => z =? 128
  | _ => false
  end.

Fixpoint drop_whitespace (l : list bytes) : list bytes :=
  match l with
  | c :: rest => if is_whitespace c then drop_whitespace rest else l
  | [] => []
  end.

(** [str::trim]. *)
Definition str_trim (l : bytes) : bytes :=
  concat (rev (drop_whitespace (rev (drop_whitespace (chars l))))).

(** [str::split_whitespace]: the longest words, the empty ones left out. *)
Fixpoint words (word : bytes) (l : list bytes) : list bytes :=
  match l with
  | [] => match word with [] => [] | _ => [word] end
  | c :: l =>
      if is_whitespace c then match word with [] => words [] l | _ => word :: words [] l end
      else words (word ++ c) l
  end.
Definition split_whitespace (l : bytes) : list bytes := words [] (chars l).

(** ** Lines *)

(** [str::lines]: pieces ended by a newline, without a carriage return before it; a last
    piece that is empty is none. *)
Definition strip_cr (line : bytes) : bytes :=
  match rev line with x0d :: rest => rev rest | _ => line end.
Fixpoint lines_loop (line l : bytes) : list bytes :=
  match l with
  | [] => match line with [] => [] | _ => [line] end
  | b :: l => if bool_decide (b = x0a) then strip_cr line :: lines_loop [] l else lines_loop (line ++ [b]) l
  end.
Definition lines (l : bytes) : list bytes := lines_loop [] l.

(** [str::split_once] and [str::contains]. *)
Definition has_prefix (p l : bytes) : bool := bool_decide (take (length p) l = p).
Fixpoint split_once (p l : bytes) : option (bytes * bytes) :=
  if has_prefix p l then Some ([], drop (length p) l)
  else match l with
       | [] => None
       | b :: l => '(before, after) ← split_once p l; Some (b :: before, after)
       end.
Definition contains (p l : bytes) : bool := bool_decide (is_Some (split_once p l)).

(** ** What splitting means *)

Lemma chars_concat l : concat (chars l) = l.
Proof.
  unfold chars. assert (length l <= length l)%nat as Hf by done. revert Hf. generalize (length l) at 2 3 as fuel.
  intros fuel. revert l. induction fuel as [|fuel IH]; intros l Hf; [by destruct l; [|simpl in Hf; lia]|].
  destruct l as [|b l]; [done|]. cbn [chars_loop concat].
  assert (1 <= utf8_width b)%nat as Hw by (unfold utf8_width; repeat case_match; lia).
  rewrite IH, take_drop; [done|]. rewrite length_drop. simpl in *. lia.
Qed.

Lemma has_prefix_spec p l : has_prefix p l = true <-> exists rest, l = p ++ rest.
Proof.
  unfold has_prefix. rewrite bool_decide_eq_true. split.
  - intros E. exists (drop (length p) l). rewrite <- E at 1. by rewrite take_drop.
  - intros [rest ->]. apply take_app_length.
Qed.

Lemma split_once_spec p l a b : split_once p l = Some (a, b) -> l = a ++ p ++ b.
Proof.
  revert a b. induction l as [|x l IH]; intros a b; cbn [split_once].
  - destruct (has_prefix p []) eqn:E; [|done]. apply has_prefix_spec in E as [rest E].
    intros [= <- <-]. symmetry in E. apply app_nil in E as [-> ->]. done.
  - destruct (has_prefix p (x :: l)) eqn:E.
    + apply has_prefix_spec in E as [rest E]. intros [= <- <-]. by rewrite E, drop_app_length.
    + destruct (split_once p l) as [[a' b']|]; [|done]. intros [= <- <-]. by rewrite (IH a' b').
Qed.
