(* ===== verification/Json.v ===== *)
(** JSON values as the program handles them: [serde_json::Value] with the strict parser,
    the printers it is used with, and the canonical payload digest of [lib.rs] and
    [approvals.rs]. *)

From S2P Require Import Prelude Primitives.

Open Scope Z_scope.

(** [serde_json::Value]; numbers keep their text, and the keys of an object are distinct. *)
Inductive Value : Type :=
| JNull
| JBool (b : bool)
| JNumber (text : bytes)
| JString (s : bytes)
| JArray (l : list Value)
| JObject (fields : list (bytes * Value)).

(** [serde_json]: what its deserializer visits, as a tree in which an object lists its
    members as they come, its parser into a [Value], its compact printer, and the RFC 8785
    form of [serde_json_canonicalizer]. *)
Class Json := {
  json_tree : bytes -> option Value;
  json_from_slice : bytes -> option Value;
  json_to_vec : Value -> bytes;
  json_canonical : Value -> option bytes
}.

(** ** offline-sigstore/src/strict_json.rs *)

(** [visit_seq] and [visit_map] of [StrictVisitor], with the keys seen so far. *)
Section Visitor.
Variable visit : Value -> option Value.

Fixpoint visit_seq (output l : list Value) : option Value :=
  match l with
  | [] => Some (JArray output)
  | v :: l => w ← visit v; visit_seq (output ++ [w]) l
  end.

Fixpoint visit_map (keys : list bytes) (output fields : list (bytes * Value)) : option Value :=
  match fields with
  | [] => Some (JObject output)
  | (key, v) :: fields =>
      if bool_decide (key ∈ keys) then None
      else w ← visit v; visit_map (key :: keys) (output ++ [(key, w)]) fields
  end.
End Visitor.

Fixpoint strict_value (v : Value) : option Value :=
  match v with
  | JArray l => visit_seq strict_value [] l
  | JObject fields => visit_map strict_value [] [] fields
  | _ => Some v
  end.

(** [strict_json::from_slice]. *)
Definition strict_json `{Json} (input : bytes) : option Value := v ← json_tree input; strict_value v.

(** A value no object of which repeats a key. *)
Fixpoint distinct_keys (v : Value) : Prop :=
  match v with
  | JArray l => (fix all (l : list Value) : Prop := match l with [] => True | v :: l => distinct_keys v /\ all l end) l
  | JObject fields =>
      NoDup fields.*1 /\
      (fix all (l : list (bytes * Value)) : Prop :=
        match l with [] => True | (_, v) :: l => distinct_keys v /\ all l end) fields
  | _ => True
  end.

(** Induction over the members of arrays and objects. *)
Lemma Value_induction (P : Value -> Prop) :
  P JNull -> (forall b, P (JBool b)) -> (forall t, P (JNumber t)) -> (forall s, P (JString s)) ->
  (forall l, Forall P l -> P (JArray l)) -> (forall fields, Forall P fields.*2 -> P (JObject fields)) ->
  forall v, P v.
Proof.
  intros Hn Hb Hd Hs Ha Ho. fix IH 1. intros [| | | |l|fields]; [done..| |].
  - apply Ha. induction l; constructor; done.
  - apply Ho. induction fields as [|[k v] fields IHf]; constructor; done.
Qed.

(** What the loops accept of elements and members they do not change. *)
Lemma visit_seq_exact (visit : Value -> option Value) (ok : Value -> Prop) l :
  Forall (fun v => forall w, visit v = Some w <-> w = v /\ ok v) l ->
  forall out w, visit_seq visit out l = Some w <-> w = JArray (out ++ l) /\ Forall ok l.
Proof.
  induction 1 as [|v l Hv _ IH]; intros out w; cbn [visit_seq].
  - rewrite app_nil_r. split; [intros [= <-]; by split|]. by intros [-> _].
  - rewrite Forall_cons. destruct (visit v) as [u|] eqn:E; cbn [mbind option_bind].
    + destruct (proj1 (Hv u) eq_refl) as [-> Hd]. rewrite IH, <- app_assoc. tauto.
    + split; [done|]. intros (_ & Hd & _). by discriminate (proj2 (Hv v) (conj eq_refl Hd)).
Qed.

Lemma visit_map_exact (visit : Value -> option Value) (ok : Value -> Prop) fields :
  Forall (fun v => forall w, visit v = Some w <-> w = v /\ ok v) fields.*2 ->
  forall keys out w, visit_map visit keys out fields = Some w <->
    w = JObject (out ++ fields) /\ NoDup fields.*1 /\ Forall (fun k => k ∉ keys) fields.*1 /\ Forall ok fields.*2.
Proof.
  induction fields as [|[k v] fields IH]; intros Hf keys out w; cbn [visit_map fmap list_fmap fst snd] in *.
  - rewrite app_nil_r. split; [intros [= <-]; repeat split; constructor|]. by intros [-> _].
  - apply Forall_cons in Hf as [Hv Hf]. rewrite NoDup_cons, !Forall_cons.
    case_bool_decide as Hk; [split; [done|]; by intros (_ & _ & [? _] & _)|].
    destruct (visit v) as [u|] eqn:E; cbn [mbind option_bind].
    + destruct (proj1 (Hv u) eq_refl) as [-> Hd]. rewrite (IH Hf), <- app_assoc. cbn [app].
      assert (Forall (fun x => x ∉ k :: keys) fields.*1 <-> k ∉ fields.*1 /\ Forall (fun x => x ∉ keys) fields.*1) as ->;
        [|tauto].
      rewrite !Forall_forall. setoid_rewrite not_elem_of_cons. split; [|intros [Hn Hx] x Hin; split; [by intros ->|by apply Hx]].
      intros Hx. split; [intros Hin; by destruct (Hx _ Hin)|]. intros x Hin. by destruct (Hx _ Hin).
    + split; [done|]. intros (_ & _ & _ & Hd & _). by discriminate (proj2 (Hv v) (conj eq_refl Hd)).
Qed.

(** The visitor accepts exactly the values without repeated keys, and changes nothing. *)
Lemma strict_value_exact v : forall w, strict_value v = Some w <-> w = v /\ distinct_keys v.
Proof.
  induction v as [| | | |l IH|fields IH] using Value_induction; intros w; cbn [strict_value distinct_keys];
    try (split; [intros [= <-]; by split|by intros [-> _]]).
  - rewrite (visit_seq_exact _ distinct_keys) by done. cbn [app]. f_equiv. induction l as [|v l IHl]; [done|].
    apply Forall_cons in IH as [_ IH]. rewrite Forall_cons, (IHl IH). done.
  - rewrite (visit_map_exact _ distinct_keys) by done. cbn [app]. f_equiv. f_equiv.
    assert (Forall (fun k => k ∉ @nil bytes) fields.*1) as Hn
      by (apply Forall_forall; intros ? _; apply not_elem_of_nil).
    induction fields as [|[k v] fields IHf]; cbn [fmap list_fmap fst snd] in *; [split; [done|split; constructor]|].
    apply Forall_cons in IH as [_ IH]. apply Forall_cons in Hn as [Hk Hn].
    rewrite !Forall_cons. rewrite <- (IHf IH Hn). tauto.
Qed.

Lemma strict_json_exact `{Json} b v : strict_json b = Some v <-> json_tree b = Some v /\ distinct_keys v.
Proof.
  unfold strict_json. destruct (json_tree b) as [t|]; cbn [mbind option_bind]; [|naive_solver].
  rewrite strict_value_exact. naive_solver.
Qed.

(** An object of ASCII strings under distinct ASCII keys. *)
Definition is_ascii (l : bytes) : Prop := Forall (fun b => byte_to_Z b < 128) l.
Definition plain_object (fields : list (bytes * Value)) : Prop :=
  NoDup fields.*1 /\ Forall is_ascii fields.*1 /\
  Forall (fun '(_, v) => exists s, v = JString s /\ is_ascii s) fields.

(** Printing such an object and parsing it gives it back. *)
Class JsonLaws `{Json} : Prop := {
  json_print_parse fields :
    plain_object fields -> strict_json (json_to_vec (JObject fields)) = Some (JObject fields)
}.

(** [Map::get] and [Map::remove]. *)
Definition field (fields : list (bytes * Value)) (key : bytes) : option Value :=
  snd <$> List.find (fun '(k, _) => bool_decide (k = key)) fields.
Definition without (fields : list (bytes * Value)) (key : bytes) : list (bytes * Value) :=
  List.filter (fun '(k, _) => negb (bool_decide (k = key))) fields.

Definition as_str (v : Value) : option bytes := match v with JString s => Some s | _ => None end.
Definition value_get (v : Value) (key : bytes) : option Value :=
  match v with JObject fields => field fields key | _ => None end.

(** The decimal text of an unsigned integer below 10^20, as every machine integer is. *)
Fixpoint decimal_digits (fuel : nat) (n : Z) : bytes :=
  match fuel with
  | O => []
  | S fuel =>
      if n <? 10 then [byte_of_Z (48 + n)] else decimal_digits fuel (n / 10) ++ [byte_of_Z (48 + n mod 10)]
  end.
Definition decimal (n : Z) : bytes := decimal_digits 20 n.

Definition jnum (n : Z) : Value := JNumber (decimal n).

(** The text of a signed integer. *)
Definition jint (n : Z) : Value := JNumber (if n <? 0 then x2d :: decimal (- n) else decimal n).

(** The value of a text of decimal digits. *)
Definition is_digit (b : byte) : bool := let z := byte_to_Z b in (48 <=? z) && (z <=? 57).
Definition dec_value (l : bytes) : Z := fold_left (fun acc b => acc * 10 + (byte_to_Z b - 48)) l 0.
Definition parse_digits (l : bytes) : option Z :=
  if (0 <? zlen l) && forallb is_digit l then Some (dec_value l) else None.

(** [str::parse] of an unsigned integer and of an [i64]: an optional sign, digits, range. *)
Definition parse_unsigned (max : Z) (l : bytes) : option Z :=
  let digits := match l with b :: (_ :: _) as rest => if bool_decide (b = x2b) then rest else l | _ => l end in
  n ← parse_digits digits; if n <=? max then Some n else None.
Definition i64_max : Z := 9223372036854775807.
Definition i64_min : Z := -9223372036854775808.
Definition parse_i64 (l : bytes) : option Z :=
  match l with
  | x2d :: rest => n ← parse_digits rest; if n <=? - i64_min then Some (- n) else None
  | _ => parse_unsigned i64_max l
  end.

(** [i64::checked_mul(1000)]. *)
Definition checked_mul_1000 (t : Z) : option Z :=
  let m := t * 1000 in if (i64_min <=? m) && (m <=? i64_max) then Some m else None.

(** ** serde's derived deserializers *)

(** The fields of a struct that denies unknown ones, in declaration order: from an object
    by name or from an array by position. A missing field is [None]. *)
Definition struct_values (names : list bytes) (v : Value) : option (list (option Value)) :=
  match v with
  | JObject fields =>
      if forallb (fun '(k, _) => bool_decide (k ∈ names)) fields then Some (field fields <$> names) else None
  | JArray l =>
      if (length l <=? length names)%nat
      then Some ((Some <$> l) ++ replicate (length names - length l) None) else None
  | _ => None
  end.

(** The same of a struct read from a text, where a field may come once. *)
Definition text_struct (names : list bytes) (v : Value) : option (list (option Value)) :=
  match v with
  | JObject fields => if bool_decide (NoDup fields.*1) then struct_values names v else None
  | _ => struct_values names v
  end.

(** Numbers of the unsigned widths, booleans, optional strings, vectors and maps. *)
Definition as_uint (max : Z) (v : Value) : option Z :=
  match v with
  | JNumber text => n ← parse_digits text; if n <=? max then Some n else None
  | _ => None
  end.
Definition as_i64 (v : Value) : option Z :=
  match v with
  | JNumber (x2d :: text) => n ← parse_digits text; if (0 <? n) && (n <=? - i64_min) then Some (- n) else None
  | JNumber text => as_uint i64_max (JNumber text)
  | _ => None
  end.
Definition u8_max : Z := 255.
Definition as_bool (v : Value) : option bool := match v with JBool b => Some b | _ => None end.
Definition as_opt_str (v : option Value) : option (option bytes) :=
  match v with
  | None | Some JNull => Some None
  | Some (JString s) => Some (Some s)
  | _ => None
  end.
Definition as_array (v : Value) : option (list Value) := match v with JArray l => Some l | _ => None end.
Definition as_vec {A} (f : Value -> option A) (v : Value) : option (list A) :=
  match v with JArray l => mapM f l | _ => None end.
Definition as_map {A} (f : Value -> option A) (v : Value) : option (list (bytes * A)) :=
  match v with
  | JObject fields => mapM (fun '(k, v) => a ← f v; Some (k, a)) fields
  | _ => None
  end.

(** An absent object or member reads as null: [value[key]]. *)
Definition value_index (v : Value) (key : bytes) : Value := default JNull (value_get v key).

(** [canonical_json]: the canonical text and the newline of a document file. *)
Definition canonical_json `{Json} (v : Value) : option bytes :=
  (fun text => text ++ [x0a]) <$> json_canonical v.

(** [canonical_payload]: what is signed and hashed, without that newline. *)
Definition canonical_payload `{Json} (v : Value) : option bytes :=
  (fun text => slice_to text (zlen text - 1)) <$> canonical_json v.

Lemma canonical_payload_eq `{Json} v : canonical_payload v = json_canonical v.
Proof.
  unfold canonical_payload, canonical_json. destruct (json_canonical v) as [t|]; [|done]. simpl. f_equal.
  rewrite zlen_app. apply slice_to_app. change (zlen [x0a]) with 1. lia.
Qed.

(** ** Decimal texts *)

Lemma dec_value_snoc l b : dec_value (l ++ [b]) = dec_value l * 10 + (byte_to_Z b - 48).
Proof. unfold dec_value. by rewrite fold_left_app. Qed.

Lemma digit_byte d : 0 <= d < 10 -> byte_to_Z (byte_of_Z (48 + d)) = 48 + d.
Proof. intros. rewrite byte_to_of_Z, Z.mod_small by lia. done. Qed.

Lemma decimal_digits_spec fuel n :
  0 <= n < 10 ^ Z.of_nat fuel ->
  (n = 0 -> (0 < fuel)%nat) ->
  forallb is_digit (decimal_digits fuel n) = true /\ dec_value (decimal_digits fuel n) = n /\
  0 < zlen (decimal_digits fuel n).
Proof.
  assert (forall d, 0 <= d < 10 -> is_digit (byte_of_Z (48 + d)) = true) as Hd.
  { intros d Hd. unfold is_digit. rewrite digit_byte by done. apply andb_true_iff. split; apply Z.leb_le; lia. }
  revert n. induction fuel as [|fuel IH]; intros n Hn Hz.
  { change (10 ^ Z.of_nat 0) with 1 in Hn. assert (0 < 0)%nat by (apply Hz; lia). lia. }
  rewrite Nat2Z.inj_succ, Z.pow_succ_r in Hn by lia. cbn [decimal_digits]. destruct (n <? 10) eqn:E; zbool.
  - cbn [forallb]. rewrite Hd by lia. split_and!; [done| |done].
    unfold dec_value. cbn [fold_left]. rewrite digit_byte by lia. lia.
  - assert (n / 10 < 10 ^ Z.of_nat fuel) by (apply Z.div_lt_upper_bound; lia).
    assert (1 <= n / 10) by (apply Z.div_le_lower_bound; lia).
    pose proof (Z.mod_pos_bound n 10 ltac:(lia)).
    destruct (IH (n / 10)) as (Ha & Hv & Hl); [lia|lia|].
    rewrite forallb_app, Ha, dec_value_snoc, Hv, digit_byte, zlen_app by done. cbn [forallb]. rewrite Hd by done.
    split_and!; [done| |zlen_lia]. pose proof (Z.div_mod n 10). lia.
Qed.

Lemma parse_decimal n : 0 <= n < 10 ^ 20 -> parse_digits (decimal n) = Some n.
Proof.
  intros Hn. destruct (decimal_digits_spec 20 n Hn ltac:(lia)) as (Hd & Hv & Hl).
  unfold parse_digits, decimal. rewrite Hd, Hv, (proj2 (Z.ltb_lt _ _)) by done. done.
Qed.

Lemma as_uint_jnum max n : 0 <= n <= max -> max < 10 ^ 20 -> as_uint max (jnum n) = Some n.
Proof.
  intros Hn Hm. unfold as_uint, jnum. rewrite parse_decimal by lia. simpl.
  by rewrite (proj2 (Z.leb_le _ _)) by lia.
Qed.

Lemma dec_value_nonneg l : forallb is_digit l = true -> 0 <= dec_value l.
Proof.
  induction l as [|b l IH] using rev_ind; [done|]. rewrite forallb_app, dec_value_snoc. cbn [forallb]. intros. zbool.
  unfold is_digit in *. zbool. specialize (IH ltac:(done)). lia.
Qed.

Lemma parse_digits_nonneg l n : parse_digits l = Some n -> 0 <= n.
Proof. unfold parse_digits. destruct (_ && _) eqn:E; [|done]. intros [= <-]. zbool. by apply dec_value_nonneg. Qed.

Lemma as_uint_range max v n : as_uint max v = Some n -> 0 <= n <= max.
Proof.
  unfold as_uint. destruct v as [| |text| | |]; try done. destruct (parse_digits text) as [m|] eqn:E; [|done].
  apply parse_digits_nonneg in E. simpl. destruct (m <=? max) eqn:Em; [|done]. intros [= <-]. zbool. lia.
Qed.

(** * Theory

    Objects up to the order of their members: a canonical text parses to the printed value
    up to that order, and derived deserializers do not see it. *)

(** ASCII strings in objects with distinct ASCII keys, nested at most [n] deep. *)
Fixpoint plain (n : nat) (v : Value) : Prop :=
  match v with
  | JString s => is_ascii s
  | JObject fields =>
      match n with
      | O => False
      | S n => NoDup fields.*1 /\ Forall is_ascii fields.*1 /\ Forall (fun '(_, v) => plain n v) fields
      end
  | _ => False
  end.

Lemma plain_distinct n v : plain n v -> distinct_keys v.
Proof.
  revert v. induction n as [|n IH]; intros [| | | | |fields]; cbn [plain distinct_keys]; try done.
  intros (Hn & _ & Hf). split; [done|]. clear Hn.
  induction fields as [|[k v] fields IHf]; [done|]. apply Forall_cons in Hf as [Hv Hf]. split; [by apply IH|by apply IHf].
Qed.

Inductive json_same : Value -> Value -> Prop :=
| same_refl v : json_same v v
| same_object fields middle fields' :
    fields ≡ₚ middle -> Forall2 (fun a b => a.1 = b.1 /\ json_same a.2 b.2) middle fields' ->
    json_same (JObject fields) (JObject fields').

(** A document file of the canonical form parses to the same value, whose canonical form
    it is. *)
Class CanonicalLaws `{Json} : Prop := {
  canonical_parses v text :
    plain 8 v -> json_canonical v = Some text ->
    exists v', strict_json (text ++ [x0a]) = Some v' /\ json_same v v' /\ json_canonical v' = Some text
}.

Lemma same_string s v : json_same (JString s) v -> v = JString s.
Proof. by inversion 1. Qed.

Lemma field_some fields k v : NoDup fields.*1 -> (k, v) ∈ fields -> field fields k = Some v.
Proof.
  unfold field. induction fields as [|[k1 v1] fields IH]; [by intros _ ?%not_elem_of_nil|].
  cbn [fmap list_fmap fst]. intros [Hk Hn]%NoDup_cons. rewrite elem_of_cons. intros [[= <- <-]|Hin]; cbn [List.find].
  - by rewrite bool_decide_true.
  - rewrite bool_decide_false; [by apply IH|]. intros ->. apply Hk. apply list_elem_of_fmap. by exists (k, v).
Qed.

Lemma field_map fields : NoDup fields.*1 -> field fields <$> fields.*1 = Some <$> fields.*2.
Proof.
  intros Hn. rewrite <- !list_fmap_compose. apply list_fmap_ext. intros i [k v] Hi. cbn.
  apply field_some; [done|]. by apply list_elem_of_lookup_2 in Hi.
Qed.

(** The fields of a struct, whatever their order in the text. *)
Lemma struct_same names fields v :
  json_same (JObject fields) v -> fields.*1 = names -> NoDup names ->
  exists values, struct_values names v = Some (Some <$> values) /\ Forall2 json_same fields.*2 values.
Proof.
  intros Hs <- Hn. inversion Hs as [|? middle fields' Hp Hf]; subst.
  - exists fields.*2. split; [|generalize fields.*2; induction l; constructor; [constructor|done]].
    unfold struct_values. rewrite (proj2 (forallb_forall _ _)); [by rewrite field_map|].
    intros [k w] Hin. apply bool_decide_eq_true. apply list_elem_of_fmap. exists (k, w). by rewrite list_elem_of_In.
  - assert (middle.*1 = fields'.*1) as Hk.
    { clear -Hf. induction Hf as [|a b l l' [E _] _ IH]; [done|]. cbn. f_equal; done. }
    assert (NoDup fields'.*1) as Hn' by (rewrite <- Hk, <- Hp; done).
    assert (forall k w, (k, w) ∈ fields -> exists w', field fields' k = Some w' /\ json_same w w') as Hlook.
    { intros k w Hin. rewrite Hp in Hin. apply list_elem_of_lookup in Hin as [i Hi].
      destruct (Forall2_lookup_l _ _ _ _ _ Hf Hi) as ([k' w'] & Hi' & Ek & Hw). cbn in Ek, Hw. subst k'.
      exists w'. split; [|done]. apply field_some; [done|]. by apply list_elem_of_lookup_2 in Hi'. }
    assert (exists values, (field fields' <$> fields.*1) = Some <$> values /\ Forall2 json_same fields.*2 values)
      as (values & Hv & Hsame).
    { clear -Hlook. induction fields as [|[k w] fields IH]; [by exists []|].
      destruct (Hlook k w) as (w' & Hw & Hs); [by left|]. destruct IH as (values & Hv & Hf).
      { intros ? ? ?. apply Hlook. by right. }
      exists (w' :: values). cbn. split; [by rewrite Hw, Hv|by constructor]. }
    exists values. split; [|done]. unfold struct_values. rewrite (proj2 (forallb_forall _ _)); [by rewrite Hv|].
    intros [k w] Hin. apply bool_decide_eq_true. rewrite Hp, Hk. apply list_elem_of_fmap.
    exists (k, w). by rewrite list_elem_of_In.
Qed.
