(* ===== verification/Receipt.v ===== *)
(** Content receipts: [receipt.rs], and the receipt producer [NodeKeys::sign_receipt] of
    [gateway.rs]. *)

From S2P Require Import Prelude MerkleTheory AttestationTheory SseTheory Primitives Json Attestation Sse Signing.

Open Scope Z_scope.

(** ** receipt.rs *)

Definition RECEIPT_SCHEMA : bytes := ascii "stogas.receipt.v1".
Definition MAX_RECEIPT_BYTES : Z := 5 * 1024.
Definition MAX_BUFFERED_BYTES : Z := 64 * 1024 * 1024 + MAX_METADATA_BYTES + 16.

Inductive ReceiptError : Type := RInvalid | RContent | RIdentity | RSignature.

Record Receipt : Type := {
  r_schema : bytes;
  r_boot_sha256 : bytes;
  r_request_sha256 : bytes;
  r_response_sha256 : bytes;
  r_signature : bytes
}.

Record VerifiedReceipt : Type := {
  vr_node_id : bytes;
  vr_boot_sha256 : bytes;
  vr_request_sha256 : bytes;
  vr_response_sha256 : bytes
}.

(** What a receipt reads of an appraised boot. *)
Record VerifiedBoot : Type := {
  vb_node_id : bytes;
  vb_signing_public_key : bytes;
  vb_document_sha256 : bytes
}.

Definition receipt_keys : list bytes :=
  [ascii "schema"; ascii "boot_sha256"; ascii "request_sha256"; ascii "response_sha256"; ascii "signature"].

(** The derived deserializer with unknown fields denied. *)
Definition Receipt_from_value (v : Value) : option Receipt :=
  match struct_values receipt_keys v with
  | Some [schema; boot; request; response; signature] =>
      schema ← schema ≫= as_str;
      boot ← boot ≫= as_str;
      request ← request ≫= as_str;
      response ← response ≫= as_str;
      signature ← signature ≫= as_str;
      Some {| r_schema := schema; r_boot_sha256 := boot; r_request_sha256 := request;
              r_response_sha256 := response; r_signature := signature |}
  | _ => None
  end.

(** The derived serializer, which keeps the order of the declaration. *)
Definition Receipt_to_value (r : Receipt) : Value :=
  JObject [(ascii "schema", JString (r_schema r));
           (ascii "boot_sha256", JString (r_boot_sha256 r));
           (ascii "request_sha256", JString (r_request_sha256 r));
           (ascii "response_sha256", JString (r_response_sha256 r));
           (ascii "signature", JString (r_signature r))].

Definition message (request response metadata : bytes) : bytes :=
  RECEIPT_SCHEMA ++ [x00] ++ request ++ response ++ metadata.

Section Receipts.
Context `{Json} `{Base64} `{Signatures} `{Hash}.

Definition Receipt_parse (b : bytes) : result Receipt ReceiptError :=
  reject MAX_RECEIPT_BYTES <? zlen b with RInvalid;
  let? value := ok_or (strict_json b) RInvalid in
  ok_or (Receipt_from_value value) RInvalid.

Definition receipt_decode (value : bytes) : result bytes ReceiptError :=
  let? b := ok_or (base64url_decode value) RInvalid in
  reject negb (bool_decide (base64url_encode b = value)) with RInvalid;
  Ok b.

Definition metadata_digest (metadata : Value) : result bytes ReceiptError :=
  match metadata with
  | JObject fields =>
      let? canonical := ok_or (json_canonical (JObject (without fields (ascii "receipt")))) RInvalid in
      reject MAX_METADATA_BYTES <? zlen canonical with RInvalid;
      Ok (sha256 canonical)
  | _ => Err RInvalid
  end.

Definition Receipt_verify_key (r : Receipt) (public_key boot request response metadata : bytes)
  : result unit ReceiptError :=
  reject negb (bool_decide (r_schema r = RECEIPT_SCHEMA)) with RInvalid;
  reject negb (bool_decide (r_boot_sha256 r = hex_encode boot)) with RIdentity;
  reject negb (bool_decide (r_request_sha256 r = hex_encode request))
      || negb (bool_decide (r_response_sha256 r = hex_encode response)) with RContent;
  let? key := receipt_decode public_key in
  reject negb (zlen key =? SIGNING_PUBLIC_KEY_BYTES) with RIdentity;
  let? signature := receipt_decode (r_signature r) in
  map_err (fun _ => RSignature) (signing_verify key (message request response metadata) signature).

Definition Receipt_verify (r : Receipt) (boot : VerifiedBoot) (request response : bytes)
    (metadata : Value) : result VerifiedReceipt ReceiptError :=
  let? digest := metadata_digest metadata in
  let? _ := Receipt_verify_key r (vb_signing_public_key boot) (vb_document_sha256 boot)
              request response digest in
  Ok {| vr_node_id := vb_node_id boot;
        vr_boot_sha256 := r_boot_sha256 r;
        vr_request_sha256 := r_request_sha256 r;
        vr_response_sha256 := r_response_sha256 r |}.

Record VerifiedMetadata : Type := { vm_metadata : Value; vm_receipt : VerifiedReceipt }.

Record Signed : Type := { sg_metadata : Value; sg_request : bytes; sg_response : bytes }.

Definition Signed_detached (request metadata response : bytes) : result Signed ReceiptError :=
  reject MAX_METADATA_BYTES <? zlen metadata with RInvalid;
  let? value := ok_or (strict_json metadata) RInvalid in
  Ok {| sg_metadata := value; sg_request := request; sg_response := response |}.

(** Whether the bytes are one JSON value, and an object. *)
Definition strict_object (b : bytes) : option bool :=
  (fun v => match v with JObject _ => true | _ => false end) <$> strict_json b.

Definition Signed_buffered (request body : bytes) : result Signed ReceiptError :=
  let? (metadata, content) :=
    map_err (fun _ => RInvalid) (split_buffered_response strict_object body (64 * 1024 * 1024)) in
  Signed_detached request metadata (sha256 content).

(** [pointer("/receipt/boot_sha256")]. *)
Definition Signed_boot_sha256 (s : Signed) : option bytes :=
  match value_get (sg_metadata s) (ascii "receipt") with
  | Some receipt => value_get receipt (ascii "boot_sha256") ≫= as_str
  | None => None
  end.

Definition Signed_verify (s : Signed) (boot : VerifiedBoot) : result VerifiedMetadata ReceiptError :=
  let? receipt := ok_or (value_get (sg_metadata s) (ascii "receipt")) RInvalid in
  let? receipt := Receipt_parse (json_to_vec receipt) in
  let? receipt := Receipt_verify receipt boot (sg_request s) (sg_response s) (sg_metadata s) in
  Ok {| vm_metadata := sg_metadata s; vm_receipt := receipt |}.

Definition verify_buffered (boot : VerifiedBoot) (request body : bytes)
  : result VerifiedMetadata ReceiptError :=
  let? signed := Signed_buffered request body in Signed_verify signed boot.

Definition verify_metadata (b : bytes) (boot : VerifiedBoot) (request response : bytes)
  : result VerifiedMetadata ReceiptError :=
  let? signed := Signed_detached request b response in Signed_verify signed boot.

(** ** Streams *)

Record Stream : Type := { str_request : bytes; str_body : SseBody }.

Definition Stream_new (request : bytes) : Stream :=
  {| str_request := request; str_body := SseBody_new |}.

Definition Stream_push (s : Stream) (b : bytes) : Stream * result (list bytes) ReceiptError :=
  let (body, out) := SseBody_push (str_body s) b in
  ({| str_request := str_request s; str_body := body |}, map_err (fun _ => RInvalid) out).

Definition Stream_signed (s : Stream) : result Signed ReceiptError :=
  let? (metadata, response) := map_err (fun _ => RInvalid) (SseBody_finish (str_body s)) in
  Signed_detached (str_request s) metadata response.

Definition Stream_finish (s : Stream) (boot : VerifiedBoot) : result VerifiedMetadata ReceiptError :=
  let? signed := Stream_signed s in Signed_verify signed boot.

Definition StreamCompletion_default : SseBody := SseBody_transport.

Definition StreamCompletion_push (s : SseBody) (b : bytes) : SseBody * result (list bytes) ReceiptError :=
  let (s, out) := SseBody_push s b in (s, map_err (fun _ => RInvalid) out).

Definition StreamCompletion_finish (s : SseBody) : result unit ReceiptError :=
  map_err (fun _ => RInvalid) (require_complete s).

(** ** gateway.rs *)

Definition sign_receipt `{Random} (signing : SigningKey) (boot_sha256 request response metadata : bytes)
    (g : rng) : rng * result Receipt GatewayError :=
  if MAX_METADATA_BYTES <? zlen metadata then (g, Err (Input (ascii "receipt metadata size"))) else
  match strict_json metadata with
  | None => (g, Err (Input (ascii "receipt metadata")))
  | Some metadata =>
      match metadata_digest metadata with
      | Err _ => (g, Err (Input (ascii "receipt metadata")))
      | Ok digest =>
          match SigningKey_sign signing (message request response digest) g with
          | (g, Err e) => (g, Err (GSigning e))
          | (g, Ok signature) =>
              (g, Ok {| r_schema := RECEIPT_SCHEMA;
                        r_boot_sha256 := hex_encode boot_sha256;
                        r_request_sha256 := hex_encode request;
                        r_response_sha256 := hex_encode response;
                        r_signature := base64url_encode signature |})
          end
      end
  end.

End Receipts.

(** * Theory

    Receipts: what an accepted receipt proves of a response, for streams down to the
    bytes on the wire, and that the gateway's receipts are accepted. *)

Section Receipts.
Context `{Json} `{Base64} `{Signatures} `{HashLaws}.

Lemma message_inj a b c a' b' c' :
  zlen a = 32 -> zlen b = 32 -> zlen a' = 32 -> zlen b' = 32 ->
  message a b c = message a' b' c' -> a = a' /\ b = b' /\ c = c'.
Proof.
  unfold message. intros Ha Hb Ha' Hb' E. apply app_inv_head in E. injection E as E.
  apply app_inj_zlen in E as [-> E]; [|lia]. apply app_inj_zlen in E as [-> ->]; [done|lia].
Qed.

(** Everything an accepted receipt checked. *)
Definition receipt_proves (boot : VerifiedBoot) (request response : bytes) (metadata : Value) : Prop :=
  exists fields canonical key signature,
    metadata = JObject fields /\ json_canonical (JObject (without fields (ascii "receipt"))) = Some canonical /\
    zlen canonical <= MAX_METADATA_BYTES /\ base64url_decode (vb_signing_public_key boot) = Some key /\
    let m := representative (message request response (sha256 canonical)) in
    ml_dsa_verify (slice_to key MLDSA_PUBLIC_KEY_BYTES) m LABEL (slice_to signature MLDSA_SIGNATURE_BYTES) = true /\
    ed25519_verify_strict (slice_from key MLDSA_PUBLIC_KEY_BYTES) m
      (slice_from signature MLDSA_SIGNATURE_BYTES) = true.

Lemma receipt_decode_ok v b : receipt_decode v = Ok b -> base64url_decode v = Some b.
Proof. unfold receipt_decode. destruct (base64url_decode v); [|done]. simpl. case_all. by intros [= ->]. Qed.

Lemma signed_verify_ok s boot vm :
  Signed_verify s boot = Ok vm ->
  vm_metadata vm = sg_metadata s /\
  vm_receipt vm = {| vr_node_id := vb_node_id boot; vr_boot_sha256 := hex_encode (vb_document_sha256 boot);
    vr_request_sha256 := hex_encode (sg_request s); vr_response_sha256 := hex_encode (sg_response s) |} /\
  receipt_proves boot (sg_request s) (sg_response s) (sg_metadata s).
Proof.
  unfold Signed_verify, Receipt_verify. destruct (value_get _ _) as [v|]; [|done]. simpl ok_or. cbn match.
  destruct (Receipt_parse _) as [r|]; [|done]. destruct (metadata_digest _) as [digest|] eqn:Hd; [|done].
  destruct (Receipt_verify_key _ _ _ _ _ _) as [[]|] eqn:Hk; [|done]. intros [= <-]. simpl.
  unfold Receipt_verify_key in Hk.
  destruct (bool_decide (r_schema r = _)); [|done]. destruct (bool_decide (r_boot_sha256 r = _)) eqn:Eb; [|done].
  destruct (_ || _) eqn:Ec in Hk; [done|]. simpl in Hk.
  destruct (receipt_decode (vb_signing_public_key boot)) as [key|] eqn:Hkey; [|done].
  destruct (_ =? _); [|done]. simpl in Hk. destruct (receipt_decode (r_signature r)) as [signature|]; [|done].
  destruct (signing_verify _ _ _) as [[]|] eqn:Hv; [|done]. zbool.
  split; [done|]. split; [by f_equal|]. unfold metadata_digest in Hd.
  destruct (sg_metadata s) as [| | | | |fields]; try done.
  destruct (json_canonical _) as [canonical|] eqn:Hc; [|done]. simpl in Hd.
  destruct (_ <? _) eqn:El; [done|]. injection Hd as <-. zbool.
  exists fields, canonical, key, signature. apply receipt_decode_ok in Hkey. apply signing_verify_ok in Hv as [Hm He].
  split_and!; done.
Qed.

(** Pushing a stream's chunks. *)
Fixpoint stream_run (s : Stream) (chunks : list bytes) : Stream * result bytes ReceiptError :=
  match chunks with
  | [] => (s, Ok [])
  | chunk :: chunks =>
      match Stream_push s chunk with
      | (s, Err e) => (s, Err e)
      | (s, Ok out) =>
          let (s, r) := stream_run s chunks in (s, let? more := r in Ok (concat out ++ more))
      end
  end.

Lemma stream_run_body s chunks s' out :
  stream_run s chunks = (s', Ok out) ->
  sse_run (str_body s) chunks = (str_body s', Ok out) /\ str_request s' = str_request s.
Proof.
  revert s s' out. induction chunks as [|c chunks IH]; intros s s' out; cbn [stream_run sse_run].
  { by intros [= <- <-]. }
  unfold Stream_push. destruct (SseBody_push (str_body s) c) as [body [o|e]]; [|done]. simpl map_err. cbn match.
  destruct (stream_run _ chunks) as [s1 [more|e]] eqn:E; [|done]. intros [= <- <-].
  apply IH in E as [E Hr]. simpl in *. by rewrite E.
Qed.

(** C7. A streamed response whose receipt was accepted is exactly what the attested boot
    signed: the wire is the provider's events with keepalive comments between them, the
    receipt and a terminal event; the caller got all of it but the final blank line; and
    both signatures of the boot's key cover the digest of exactly the events and the
    terminal, the request's digest and the metadata. *)
Theorem stream_receipt_sound request chunks s out boot vm :
  stream_run (Stream_new request) chunks = (s, Ok out) -> Stream_finish s boot = Ok vm ->
  exists fs t proof metadata,
    concat chunks = wire fs ++ receipt_bytes proof ++ t ++ SSE_EVENT_END /\
    Forall frame_ok fs /\ receipt_ok proof /\ terminal_ok t /\
    out ++ SSE_EVENT_END = concat chunks /\ strict_json proof = Some metadata /\
    vm_metadata vm = metadata /\
    receipt_proves boot request (sha256 (content fs ++ t ++ SSE_EVENT_END)) metadata.
Proof.
  intros Hrun Hfin. destruct (stream_run_body _ _ _ _ Hrun) as [Hsse Hreq]. simpl in Hsse, Hreq.
  unfold Stream_finish, Stream_signed in Hfin.
  destruct (SseBody_finish (str_body s)) as [[proof digest]|] eqn:Hf; [|done]. simpl in Hfin.
  destruct (finished_content _ _ _ _ _ Hsse Hf) as (fs & t & Hw & Hfs & Hp & Ht & Hout & ->).
  unfold Signed_detached in Hfin. destruct (_ <? _); [done|].
  destruct (strict_json proof) as [metadata|] eqn:Hj; [|done]. simpl in Hfin.
  apply signed_verify_ok in Hfin as (Hm & _ & Hv). simpl in *. rewrite Hreq in Hv.
  exists fs, t, proof, metadata. done.
Qed.

End Receipts.

(** ** The gateway's receipts are accepted *)

Section Producer.
Context `{JsonLaws} `{Base64Laws} `{SignatureLaws} `{HashLaws} `{Random}.

Lemma hex_ascii l : Forall (fun b => byte_to_Z b < 128) (hex_encode l).
Proof.
  unfold hex_encode. induction l as [|b l IH]; [done|]. rewrite fmap_cons. cbn [concat]. apply Forall_app.
  split; [|done]. by destruct b; vm_compute; repeat constructor.
Qed.

Lemma field_app_miss fields more key :
  key ∉ fields.*1 -> field (fields ++ more) key = field more key.
Proof.
  unfold field. induction fields as [|[k v] fields IH]; [done|]. simpl. intros Hk.
  apply not_elem_of_cons in Hk as [Hk Hn]. rewrite bool_decide_false by done. auto.
Qed.

Lemma receipt_value_roundtrip r : Receipt_from_value (Receipt_to_value r) = Some r.
Proof. by destruct r. Qed.

(** The gateway's receipts are accepted: a receipt that a node signed over a metadata
    bag, put into that bag, verifies under the node's boot record for the same request
    and response digests. *)
Theorem receipt_accepted seed1 seed2 g g' boot_sha256 node_id request response metadata fields r :
  let signing := SigningKey_from_seeds seed1 seed2 in
  sign_receipt signing boot_sha256 request response metadata g = (g', Ok r) ->
  strict_json metadata = Some (JObject fields) -> ascii "receipt" ∉ fields.*1 ->
  zlen (json_to_vec (Receipt_to_value r)) <= MAX_RECEIPT_BYTES ->
  let bag := JObject (fields ++ [(ascii "receipt", Receipt_to_value r)]) in
  Signed_verify {| sg_metadata := bag; sg_request := request; sg_response := response |}
    {| vb_node_id := node_id; vb_signing_public_key := base64url_encode (sk_public signing);
       vb_document_sha256 := boot_sha256 |} =
  Ok {| vm_metadata := bag;
        vm_receipt := {| vr_node_id := node_id; vr_boot_sha256 := hex_encode boot_sha256;
          vr_request_sha256 := hex_encode request; vr_response_sha256 := hex_encode response |} |}.
Proof.
  intros signing Hsign Hj Hn Hlen bag. unfold sign_receipt in Hsign. rewrite Hj in Hsign.
  destruct (_ <? _); [done|]. destruct (metadata_digest (JObject fields)) as [digest|] eqn:Hd; [|done].
  destruct (SigningKey_sign signing _ g) as [g1 [signature|]] eqn:Hs; [|done]. injection Hsign as <- <-.
  destruct (sign_verify _ _ _ _ _ _ Hs) as [Hv Hsl].
  assert (metadata_digest bag = Ok digest) as Hbag.
  { unfold bag, metadata_digest in *. unfold without in *. rewrite List.filter_app. simpl.
    rewrite app_nil_r. exact Hd. }
  unfold Signed_verify. cbn [sg_metadata sg_request sg_response].
  set (r := {| r_schema := RECEIPT_SCHEMA |}) in *.
  assert (value_get bag (ascii "receipt") = Some (Receipt_to_value r)) as ->
    by (unfold bag, value_get; by rewrite field_app_miss).
  cbn [ok_or].
  assert (Receipt_parse (json_to_vec (Receipt_to_value r)) = Ok r) as Hparse.
  { unfold Receipt_parse. rewrite (proj2 (Z.ltb_ge _ _)) by done. pose proof (receipt_value_roundtrip r) as Hrt.
    unfold Receipt_to_value in *. rewrite json_print_parse; [cbn [ok_or]; by rewrite Hrt|]. split_and!.
    - cbn [fmap list_fmap fst]. apply (bool_decide_unpack _). by vm_compute.
    - by vm_compute; repeat constructor.
    - repeat constructor; eexists; (split; [done|]); try apply hex_ascii; [|apply base64url_ascii].
      by vm_compute; repeat constructor. }
  rewrite Hparse. unfold Receipt_verify. rewrite Hbag. cbn [vb_signing_public_key vb_document_sha256 vb_node_id].
  unfold Receipt_verify_key. cbn [r r_schema r_boot_sha256 r_request_sha256 r_response_sha256 r_signature].
  rewrite !bool_decide_true by done. cbn [negb orb]. unfold receipt_decode.
  rewrite !base64url_roundtrip. cbn [ok_or]. rewrite !bool_decide_true by done. cbn [negb].
  assert ((zlen (sk_public signing) =? SIGNING_PUBLIC_KEY_BYTES) = true) as ->.
  { unfold signing. cbn [sk_public SigningKey_from_seeds MldsaSigningKey_from_seed mk_public].
    rewrite zlen_app, ml_dsa_public_length, ed25519_public_length. done. }
  cbn [negb]. fold signing in Hv. by rewrite Hv.
Qed.

End Producer.
