(* ===== verification/Provisioning.v ===== *)
(** Boot provisioning: [secret_release.rs] (sealing to a node's key and opening) and the
    one-time provisioning key of [gateway.rs] [NodeKeys]. *)

From S2P Require Import Prelude Primitives Json Record Ratchet Window Session Signing Attestation.
From S2P Require Import Setup Receipt.

Open Scope Z_scope.

(** The first message of an HPKE context with AES-256-GCM: sealing and opening under the
    shared secret and info of the context. *)
Class HpkeSeal := {
  hpke_seal (shared info plaintext aad : bytes) : option bytes;
  hpke_open (shared info ciphertext aad : bytes) : option bytes
}.

(** The ciphertext carries a 16-byte tag and opens to what was sealed. *)
Class HpkeSealLaws `{HpkeSeal} : Prop := {
  hpke_seal_length shared info pt aad ct : hpke_seal shared info pt aad = Some ct -> zlen ct = zlen pt + 16;
  hpke_open_seal shared info pt aad ct :
    hpke_seal shared info pt aad = Some ct -> hpke_open shared info ct aad = Some pt
}.

Definition PROVISIONING_SCHEMA : bytes := ascii "stogas.boot-provisioning.v1".
Definition HPKE_INFO : bytes := ascii "stogas.secret-release.v1".
Definition XWING_PUBLIC_KEY_BYTES : Z := 1216.
Definition ENCAPSULATED_KEY_BYTES : Z := 1120.
Definition MAX_SECRET_BYTES : Z := 64 * 1024.

Record Provisioning : Type := {
  pv_schema : bytes;
  pv_boot_sha256 : bytes;
  pv_encapsulated_key : bytes;
  pv_ciphertext : bytes
}.

Inductive ProvisioningError : Type :=
| InvalidInput (reason : bytes) | PvCrypto | PvAuthentication.

Definition provisioning_keys : list bytes :=
  [ascii "schema"; ascii "boot_sha256"; ascii "encapsulated_key"; ascii "ciphertext"].

(** The derived deserializer with unknown fields denied, and the serializer. *)
Definition Provisioning_from_value (v : Value) : option Provisioning :=
  match struct_values provisioning_keys v with
  | Some [schema; boot; enc; ct] =>
      schema ← schema ≫= as_str;
      boot ← boot ≫= as_str;
      enc ← enc ≫= as_str;
      ct ← ct ≫= as_str;
      Some {| pv_schema := schema; pv_boot_sha256 := boot; pv_encapsulated_key := enc; pv_ciphertext := ct |}
  | _ => None
  end.

Definition Provisioning_to_value (p : Provisioning) : Value :=
  JObject [(ascii "schema", JString (pv_schema p));
           (ascii "boot_sha256", JString (pv_boot_sha256 p));
           (ascii "encapsulated_key", JString (pv_encapsulated_key p));
           (ascii "ciphertext", JString (pv_ciphertext p))].

(** Canonical JSON of the binding, with a final newline. *)
Definition associated_data (boot_sha256 : bytes) : bytes :=
  ascii "{" ++ [x22] ++ ascii "boot_sha256" ++ [x22] ++ ascii ":" ++ [x22] ++ hex_encode boot_sha256
  ++ [x22] ++ ascii "," ++ [x22] ++ ascii "schema" ++ [x22] ++ ascii ":" ++ [x22]
  ++ PROVISIONING_SCHEMA ++ [x22] ++ ascii "}" ++ [x0a].

(** [usize::div_ceil]. *)
Definition div_ceil (a b : Z) : Z := (a + b - 1) / b.

Section Provisioning.
Context `{Json} `{Base64} `{Agreement} `{Hpke} `{HpkeSeal}.

Definition seal_provisioning `{Random} (public_key boot_sha256 plaintext : bytes) (g : rng)
  : rng * result Provisioning ProvisioningError :=
  if negb (zlen public_key =? XWING_PUBLIC_KEY_BYTES)
  then (g, Err (InvalidInput (ascii "X-Wing public key must contain 1216 bytes"))) else
  if (zlen plaintext =? 0) || (MAX_SECRET_BYTES <? zlen plaintext)
  then (g, Err (InvalidInput (ascii "secret has an invalid size"))) else
  match XWing_public_from_bytes public_key with
  | None => (g, Err (InvalidInput (ascii "invalid X-Wing public key")))
  | Some public_key =>
      match setup_sender public_key HPKE_INFO g with
      | (g, None) => (g, Err PvCrypto)
      | (g, Some (encapsulated_key, sender)) =>
          match hpke_seal (hx_shared sender) (hx_info sender) plaintext (associated_data boot_sha256) with
          | None => (g, Err PvCrypto)
          | Some ciphertext =>
              (g, Ok {| pv_schema := PROVISIONING_SCHEMA;
                        pv_boot_sha256 := hex_encode boot_sha256;
                        pv_encapsulated_key := base64url_encode encapsulated_key;
                        pv_ciphertext := base64url_encode ciphertext |})
          end
      end
  end.

Definition provisioning_decode (value : bytes) (limit : Z) : result bytes ProvisioningError :=
  reject div_ceil limit 3 * 4 <? zlen value with InvalidInput (ascii "envelope field size");
  let? b := ok_or (base64url_decode value) (InvalidInput (ascii "envelope field encoding")) in
  reject negb (bool_decide (base64url_encode b = value))
    with InvalidInput (ascii "envelope field encoding");
  Ok b.

Definition open_provisioning (private_key boot_sha256 envelope : bytes)
  : result bytes ProvisioningError :=
  let? value := ok_or (strict_json envelope) (InvalidInput (ascii "envelope encoding")) in
  let? envelope := ok_or (Provisioning_from_value value) (InvalidInput (ascii "envelope fields")) in
  reject negb (bool_decide (pv_schema envelope = PROVISIONING_SCHEMA))
      || negb (bool_decide (pv_boot_sha256 envelope = hex_encode boot_sha256))
    with InvalidInput (ascii "envelope belongs to another boot");
  let? encapsulated_key := provisioning_decode (pv_encapsulated_key envelope) ENCAPSULATED_KEY_BYTES in
  let? ciphertext := provisioning_decode (pv_ciphertext envelope) (MAX_SECRET_BYTES + 16) in
  reject negb (zlen encapsulated_key =? ENCAPSULATED_KEY_BYTES) || (zlen ciphertext <=? 16)
    with InvalidInput (ascii "envelope field size");
  let? encapsulated_key := ok_or (XWing_encapped_from_bytes encapsulated_key)
    (InvalidInput (ascii "encapsulated key")) in
  let? recipient := ok_or (setup_receiver private_key encapsulated_key HPKE_INFO) PvAuthentication in
  ok_or (hpke_open (hx_shared recipient) (hx_info recipient) ciphertext (associated_data boot_sha256))
    PvAuthentication.

(** ** gateway.rs *)

Record NodeKeys : Type := {
  nk_signing : SigningKey;
  nk_recipient : option bytes;
  nk_recipient_public : bytes
}.

Definition NodeKeys_from_seeds `{Signatures} (mldsa_seed ed25519_secret provisioning : bytes) : NodeKeys :=
  {| nk_signing := SigningKey_from_seeds mldsa_seed ed25519_secret;
     nk_recipient := Some provisioning;
     nk_recipient_public := base64url_encode (XWing_sk_to_pk provisioning) |}.

(** [From<secret_release::Error>]. *)
Definition gateway_error (e : ProvisioningError) : GatewayError :=
  match e with
  | InvalidInput reason => Input reason
  | PvCrypto | PvAuthentication => GAuthentication
  end.

Definition NodeKeys_open_provisioning (k : NodeKeys) (boot_sha256 envelope : bytes)
  : NodeKeys * result bytes GatewayError :=
  match nk_recipient k with
  | None => (k, Err (Input (ascii "provisioning key already used")))
  | Some private_key =>
      match open_provisioning private_key boot_sha256 envelope with
      | Err e => (k, Err (gateway_error e))
      | Ok opened =>
          ({| nk_signing := nk_signing k; nk_recipient := None;
              nk_recipient_public := nk_recipient_public k |}, Ok opened)
      end
  end.

End Provisioning.
