(* ===== verification/ProvisioningTheory.v ===== *)
(** Provisioning delivers to one boot, once. *)

From S2P Require Import Prelude Primitives Json Record Ratchet Window Session Signing Attestation.
From S2P Require Import MerkleTheory AttestationTheory Setup Sse SseTheory.
From S2P Require Import Receipt Provisioning.

Open Scope Z_scope.

Section Delivery.
Context `{JsonLaws} `{Base64Laws} `{AgreementLaws} `{Hpke} `{!HpkeLaws} `{HpkeSealLaws}
  `{SignatureLaws} `{RandomLaws}.

Lemma provisioning_value_roundtrip p : Provisioning_from_value (Provisioning_to_value p) = Some p.
Proof. by destruct p. Qed.

Lemma provisioning_decode_ok b limit :
  zlen b <= limit -> provisioning_decode (base64url_encode b) limit = Ok b.
Proof.
  intros Hl. unfold provisioning_decode, div_ceil. rewrite base64url_length.
  rewrite (proj2 (Z.ltb_ge _ _)) by (Z.to_euclidean_division_equations; lia). rewrite base64url_roundtrip. simpl. by rewrite bool_decide_true.
Qed.

(** What was sealed, and that its envelope reads back. *)
Lemma seal_inv public_key boot plaintext g g' p :
  seal_provisioning public_key boot plaintext g = (g', Ok p) ->
  exists coins enc shared ct,
    xwing_encaps public_key coins = Some (enc, shared) /\
    hpke_seal shared HPKE_INFO plaintext (associated_data boot) = Some ct /\
    0 < zlen plaintext <= MAX_SECRET_BYTES /\
    p = {| pv_schema := PROVISIONING_SCHEMA; pv_boot_sha256 := hex_encode boot;
           pv_encapsulated_key := base64url_encode enc; pv_ciphertext := base64url_encode ct |}.
Proof.
  unfold seal_provisioning. destruct (negb _); [done|]. destruct (_ || _) eqn:E; [done|]. zbool.
  unfold XWing_public_from_bytes. destruct (_ && _); [|done]. unfold setup_sender, XWing_encap_with_rng.
  destruct (rng_fill g 64) as [g1 [coins|]]; [|done]. destruct (xwing_encaps public_key coins) as [[enc shared]|] eqn:Hx; [|done].
  cbn [hx_shared hx_info]. destruct (hpke_seal _ _ _ _) as [ct|] eqn:Hs; [|done]. intros [= <- <-].
  exists coins, enc, shared, ct. pose proof (zlen_nonneg plaintext). split_and!; try done; lia.
Qed.

Lemma envelope_parses public_key boot plaintext g g' p :
  seal_provisioning public_key boot plaintext g = (g', Ok p) ->
  strict_json (json_to_vec (Provisioning_to_value p)) = Some (Provisioning_to_value p).
Proof.
  intros Hseal. destruct (seal_inv _ _ _ _ _ _ Hseal) as (coins & enc & shared & ct & _ & _ & _ & ->).
  unfold Provisioning_to_value. cbn [pv_boot_sha256 pv_ciphertext pv_encapsulated_key pv_schema].
  apply json_print_parse. split; [cbn [fmap list_fmap fst]; apply (bool_decide_unpack _); by vm_compute|].
  split; [by vm_compute; repeat constructor|].
  repeat constructor; eexists; (split; [done|]); [|apply hex_ascii|apply base64url_ascii|apply base64url_ascii].
  by vm_compute; repeat constructor.
Qed.

Lemma open_same seed boot plaintext g g' p :
  seal_provisioning (XWing_sk_to_pk seed) boot plaintext g = (g', Ok p) ->
  open_provisioning seed boot (json_to_vec (Provisioning_to_value p)) = Ok plaintext.
Proof.
  intros Hseal. unfold open_provisioning. rewrite (envelope_parses _ _ _ _ _ _ Hseal).
  destruct (seal_inv _ _ _ _ _ _ Hseal) as (coins & enc & shared & ct & Hx & Hs & Hpt & Hp).
  cbn [ok_or]. rewrite provisioning_value_roundtrip. cbn [ok_or].
  rewrite Hp. cbn [pv_boot_sha256 pv_ciphertext pv_encapsulated_key pv_schema].
  rewrite !bool_decide_true by done. cbn [negb orb].
  pose proof (xwing_ciphertext_length _ _ _ _ Hx) as Hel. pose proof (hpke_seal_length _ _ _ _ _ Hs) as Hcl.
  unfold MAX_SECRET_BYTES, ENCAPSULATED_KEY_BYTES in *. rewrite !provisioning_decode_ok by lia.
  rewrite Hel, (proj2 (Z.leb_gt _ _)) by lia. cbn [Z.eqb Pos.eqb negb orb].
  unfold XWing_encapped_from_bytes. rewrite Hel. cbn [Z.eqb Pos.eqb ok_or].
  unfold setup_receiver, XWing_decap. rewrite (xwing_correct _ _ _ _ Hx). cbn [ok_or hx_shared hx_info].
  by rewrite (hpke_open_seal _ _ _ _ _ Hs).
Qed.

Lemma open_other seed public_key boot boot' plaintext g g' p :
  seal_provisioning public_key boot plaintext g = (g', Ok p) -> hex_encode boot <> hex_encode boot' ->
  open_provisioning seed boot' (json_to_vec (Provisioning_to_value p)) =
    Err (InvalidInput (ascii "envelope belongs to another boot")).
Proof.
  intros Hseal Hne. unfold open_provisioning. rewrite (envelope_parses _ _ _ _ _ _ Hseal). cbn [ok_or].
  destruct (seal_inv _ _ _ _ _ _ Hseal) as (coins & enc & shared & ct & _ & _ & _ & Hp).
  rewrite provisioning_value_roundtrip. cbn [ok_or]. rewrite Hp. cbn [pv_boot_sha256 pv_schema].
  by rewrite bool_decide_true, bool_decide_false.
Qed.

(** C10. Provisioning reaches exactly one boot once: the envelope sealed to a node's key
    opens on that node for that boot, for no other boot digest, a refused envelope leaves
    the key in place, and after the one success no envelope opens any more. *)
Theorem provisioning_once seed1 seed2 seed boot plaintext g g' p :
  zlen boot = 32 ->
  seal_provisioning (XWing_sk_to_pk seed) boot plaintext g = (g', Ok p) ->
  let keys := NodeKeys_from_seeds seed1 seed2 seed in
  let envelope := json_to_vec (Provisioning_to_value p) in
  let used := {| nk_signing := nk_signing keys; nk_recipient := None;
                 nk_recipient_public := nk_recipient_public keys |} in
  NodeKeys_open_provisioning keys boot envelope = (used, Ok plaintext) /\
  (forall boot', zlen boot' = 32 -> boot' <> boot ->
    NodeKeys_open_provisioning keys boot' envelope =
      (keys, Err (Input (ascii "envelope belongs to another boot")))) /\
  (forall boot' other, NodeKeys_open_provisioning used boot' other =
    (used, Err (Input (ascii "provisioning key already used")))).
Proof.
  intros Hboot Hseal keys envelope used.
  split_and!.
  - unfold NodeKeys_open_provisioning. cbn [keys NodeKeys_from_seeds nk_recipient]. unfold envelope. by rewrite (open_same _ _ _ _ _ _ Hseal).
  - intros boot' Hb Hne. unfold NodeKeys_open_provisioning. cbn [keys NodeKeys_from_seeds nk_recipient]. unfold envelope.
    rewrite (open_other _ _ _ _ _ _ _ _ Hseal); [done|]. intros E. apply hex_encode_inj in E; [by subst|lia].
  - done.
Qed.

End Delivery.
