(* ===== verification/Documents.v ===== *)
(** Documents: the records of [types.rs] that the verifier reads and the signed documents
    of [approvals.rs], with the values they serialize to (fields in the order of their declaration). *)

From S2P Require Import Prelude Primitives Json Signing Attestation.

Open Scope Z_scope.

(** ** types.rs *)

Record StogasSignature : Type := { ssg_key_id : bytes; ssg_signature : bytes }.

Record LoggedDocument (T : Type) : Type := {
  ld_document : T;
  ld_signature : StogasSignature;
  ld_inclusion : Value
}.
Arguments ld_document {T}.
Arguments ld_signature {T}.
Arguments ld_inclusion {T}.

Record ReleaseEvidence (T : Type) : Type := { ev_document : T; ev_provenance : Value }.
Arguments ev_document {T}.
Arguments ev_provenance {T}.

Record AmdTcb : Type := { tcb_bootloader : Z; tcb_microcode : Z; tcb_snp : Z; tcb_tee : Z }.

Record AmdSevSnpPolicy : Type := {
  ap_chip_ids : list bytes;
  ap_cpuid_family : Z;
  ap_cpuid_model : Z;
  ap_cpuid_stepping : Z;
  ap_forbidden_platform_info_mask : bytes;
  ap_minimum_tcb : AmdTcb;
  ap_required_current_mitigation_mask : bytes;
  ap_required_launch_mitigation_mask : bytes;
  ap_required_platform_info_mask : bytes
}.

Record HardwarePolicy : Type := {
  hw_policies : list AmdSevSnpPolicy;
  hw_schema : bytes;
  hw_version : Z
}.

Record ReleaseSource : Type := {
  rs_commit : bytes; rs_repository : bytes; rs_sha256 : bytes; rs_tag : bytes
}.

Record ReleaseArtifact : Type := { ra_sha256 : bytes; ra_size_bytes : Z }.

Record CatalogReleaseManifest : Type := {
  cm_minimum_gateway_sequence : Z;
  cm_public : ReleaseArtifact;
  cm_runtime : ReleaseArtifact;
  cm_schema : bytes;
  cm_sequence : Z;
  cm_source : ReleaseSource
}.

Record LaunchValues : Type := {
  lv_author_key_digest : bytes;
  lv_family_id : bytes;
  lv_host_data : bytes;
  lv_id_key_digest : bytes;
  lv_image_id : bytes;
  lv_policy : bytes;
  lv_vmpl : Z
}.

Record AmdSevSnpLaunchPolicy : Type := { lp_launch : LaunchValues; lp_product_name : bytes }.

Record LaunchPolicies : Type := { lps_policies : list AmdSevSnpLaunchPolicy; lps_schema : bytes }.

Record GatewayReleaseBuild : Type := {
  gb_lc_all : bytes;
  gb_source_date_epoch : bytes;
  gb_tz : bytes;
  gb_umask : bytes;
  gb_go_vendor_tree_sha256 : bytes;
  gb_go_version : bytes;
  gb_guest_ca_bundle_path : bytes;
  gb_guix_channel_commit : bytes;
  gb_input_sha256 : list (bytes * bytes);
  gb_kernel_config_sha256 : bytes;
  gb_kernel_version : bytes;
  gb_linux_bz_image_sha256 : bytes;
  gb_ovmf_sha256 : bytes;
  gb_systemd_stub_sha256 : bytes;
  gb_uki_sha256 : bytes
}.

Record GatewayReleaseSevSnp : Type := {
  gs_check_kvm : bool;
  gs_launch_measurement : bytes;
  gs_launch_policies : LaunchPolicies;
  gs_measurement_command : bytes;
  gs_measurement_tool : bytes;
  gs_measurement_tool_sha256 : bytes;
  gs_measurement_tool_version : bytes;
  gs_platform : bytes;
  gs_vcpu_count : Z;
  gs_vmm : bytes
}.

Record GatewayReleaseManifest : Type := {
  gm_gateway_igvm : ReleaseArtifact;
  gm_build : GatewayReleaseBuild;
  gm_minimum_catalog_sequence : Z;
  gm_source : ReleaseSource;
  gm_schema : bytes;
  gm_sequence : Z;
  gm_sev_snp : GatewayReleaseSevSnp
}.

Abbreviation AllowedIgvm := (ReleaseEvidence GatewayReleaseManifest).
Abbreviation AllowedCatalog := (ReleaseEvidence CatalogReleaseManifest).

Record InspectedSnpQuote : Type := {
  iq_chip_id : bytes;
  iq_cpuid_family : option Z;
  iq_cpuid_model : option Z;
  iq_cpuid_stepping : option Z;
  iq_product_name : option bytes;
  iq_release_measurement : bytes;
  iq_report_version : Z;
  iq_reported_tcb : bytes
}.

Inductive ReleaseProvenance : Type := Github | StagingProvenance.

(** ** approvals.rs *)

Record RootKey : Type := { rk_key_id : bytes; rk_public_key : bytes }.

Record OnlineKey : Type := {
  ok_key_id : bytes; ok_public_key : bytes; ok_rekor_public_key : bytes
}.

Definition OnlineKey_same_signer (a b : OnlineKey) : bool :=
  bool_decide (ok_key_id a = ok_key_id b) && bool_decide (ok_public_key a = ok_public_key b).

Record KeyManifest : Type := {
  km_schema : bytes;
  km_environment : Environment;
  km_generation : Z;
  km_expires_at : bytes;
  km_active_key : OnlineKey;
  km_retired_keys : list OnlineKey
}.

Record ApprovalManifest : Type := {
  am_schema : bytes;
  am_environment : Environment;
  am_revision : Z;
  am_key_manifest_sha256 : bytes;
  am_sigstore_sha256 : bytes;
  am_gateways : list AllowedIgvm;
  am_catalogs : list AllowedCatalog;
  am_hardware_policy : HardwarePolicy
}.

(** ** Serialization *)

Definition OnlineKey_to_value (k : OnlineKey) : Value :=
  JObject [(ascii "key_id", JString (ok_key_id k)); (ascii "public_key", JString (ok_public_key k));
           (ascii "rekor_public_key", JString (ok_rekor_public_key k))].

Definition Environment_to_value (e : Environment) : Value :=
  JString match e with Production => ascii "prod" | Staging => ascii "staging" end.

Definition KeyManifest_to_value (k : KeyManifest) : Value :=
  JObject [(ascii "schema", JString (km_schema k));
           (ascii "environment", Environment_to_value (km_environment k));
           (ascii "generation", jnum (km_generation k));
           (ascii "expires_at", JString (km_expires_at k));
           (ascii "active_key", OnlineKey_to_value (km_active_key k));
           (ascii "retired_keys", JArray (OnlineKey_to_value <$> km_retired_keys k))].

Definition StogasSignature_to_value (s : StogasSignature) : Value :=
  JObject [(ascii "key_id", JString (ssg_key_id s)); (ascii "signature", JString (ssg_signature s))].

Definition AmdTcb_to_value (t : AmdTcb) : Value :=
  JObject [(ascii "bootloader", jnum (tcb_bootloader t)); (ascii "microcode", jnum (tcb_microcode t));
           (ascii "snp", jnum (tcb_snp t)); (ascii "tee", jnum (tcb_tee t))].

Definition AmdSevSnpPolicy_to_value (p : AmdSevSnpPolicy) : Value :=
  JObject [(ascii "chip_ids", JArray (JString <$> ap_chip_ids p));
           (ascii "cpuid_family", jnum (ap_cpuid_family p));
           (ascii "cpuid_model", jnum (ap_cpuid_model p));
           (ascii "cpuid_stepping", jnum (ap_cpuid_stepping p));
           (ascii "forbidden_platform_info_mask", JString (ap_forbidden_platform_info_mask p));
           (ascii "minimum_tcb", AmdTcb_to_value (ap_minimum_tcb p));
           (ascii "required_current_mitigation_mask", JString (ap_required_current_mitigation_mask p));
           (ascii "required_launch_mitigation_mask", JString (ap_required_launch_mitigation_mask p));
           (ascii "required_platform_info_mask", JString (ap_required_platform_info_mask p))].

Definition HardwarePolicy_to_value (h : HardwarePolicy) : Value :=
  JObject [(ascii "policies", JArray (AmdSevSnpPolicy_to_value <$> hw_policies h));
           (ascii "schema", JString (hw_schema h)); (ascii "version", jnum (hw_version h))].

Definition ReleaseArtifact_to_value (a : ReleaseArtifact) : Value :=
  JObject [(ascii "sha256", JString (ra_sha256 a)); (ascii "size_bytes", jnum (ra_size_bytes a))].

Definition ReleaseSource_to_value (s : ReleaseSource) : Value :=
  JObject [(ascii "commit", JString (rs_commit s)); (ascii "repository", JString (rs_repository s));
           (ascii "sha256", JString (rs_sha256 s)); (ascii "tag", JString (rs_tag s))].

Definition CatalogReleaseManifest_to_value (m : CatalogReleaseManifest) : Value :=
  JObject [(ascii "minimum_gateway_sequence", jnum (cm_minimum_gateway_sequence m));
           (ascii "artifacts",
              JObject [(ascii "catalog.public.json", ReleaseArtifact_to_value (cm_public m));
                       (ascii "catalog.runtime.json", ReleaseArtifact_to_value (cm_runtime m))]);
           (ascii "schema", JString (cm_schema m)); (ascii "sequence", jnum (cm_sequence m));
           (ascii "source", ReleaseSource_to_value (cm_source m))].

Definition LaunchValues_to_value (l : LaunchValues) : Value :=
  JObject [(ascii "author_key_digest", JString (lv_author_key_digest l));
           (ascii "family_id", JString (lv_family_id l)); (ascii "host_data", JString (lv_host_data l));
           (ascii "id_key_digest", JString (lv_id_key_digest l));
           (ascii "image_id", JString (lv_image_id l)); (ascii "policy", JString (lv_policy l));
           (ascii "vmpl", jnum (lv_vmpl l))].

Definition LaunchPolicies_to_value (l : LaunchPolicies) : Value :=
  JObject [(ascii "policies", JArray ((fun p =>
              JObject [(ascii "launch", LaunchValues_to_value (lp_launch p));
                       (ascii "product_name", JString (lp_product_name p))]) <$> lps_policies l));
           (ascii "schema", JString (lps_schema l))].

Definition GatewayReleaseBuild_to_value (b : GatewayReleaseBuild) : Value :=
  JObject [(ascii "environment",
              JObject [(ascii "lc_all", JString (gb_lc_all b));
                       (ascii "source_date_epoch", JString (gb_source_date_epoch b));
                       (ascii "tz", JString (gb_tz b)); (ascii "umask", JString (gb_umask b))]);
           (ascii "go_vendor_tree_sha256", JString (gb_go_vendor_tree_sha256 b));
           (ascii "go_version", JString (gb_go_version b));
           (ascii "guest_ca_bundle_path", JString (gb_guest_ca_bundle_path b));
           (ascii "guix_channel_commit", JString (gb_guix_channel_commit b));
           (ascii "input_sha256", JObject ((fun '(k, v) => (k, JString v)) <$> gb_input_sha256 b));
           (ascii "kernel_config_sha256", JString (gb_kernel_config_sha256 b));
           (ascii "kernel_version", JString (gb_kernel_version b));
           (ascii "linux_bz_image_sha256", JString (gb_linux_bz_image_sha256 b));
           (ascii "ovmf_sha256", JString (gb_ovmf_sha256 b));
           (ascii "systemd_stub_sha256", JString (gb_systemd_stub_sha256 b));
           (ascii "uki_sha256", JString (gb_uki_sha256 b))].

Definition GatewayReleaseSevSnp_to_value (s : GatewayReleaseSevSnp) : Value :=
  JObject [(ascii "check_kvm", JBool (gs_check_kvm s));
           (ascii "launch_measurement", JString (gs_launch_measurement s));
           (ascii "launch_policies", LaunchPolicies_to_value (gs_launch_policies s));
           (ascii "measurement_command", JString (gs_measurement_command s));
           (ascii "measurement_tool", JString (gs_measurement_tool s));
           (ascii "measurement_tool_sha256", JString (gs_measurement_tool_sha256 s));
           (ascii "measurement_tool_version", JString (gs_measurement_tool_version s));
           (ascii "platform", JString (gs_platform s)); (ascii "vcpu_count", jnum (gs_vcpu_count s));
           (ascii "vmm", JString (gs_vmm s))].

Definition GatewayReleaseManifest_to_value (m : GatewayReleaseManifest) : Value :=
  JObject [(ascii "artifacts",
              JObject [(ascii "gateway.igvm", ReleaseArtifact_to_value (gm_gateway_igvm m))]);
           (ascii "build", GatewayReleaseBuild_to_value (gm_build m));
           (ascii "minimum_catalog_sequence", jnum (gm_minimum_catalog_sequence m));
           (ascii "source", ReleaseSource_to_value (gm_source m));
           (ascii "schema", JString (gm_schema m)); (ascii "sequence", jnum (gm_sequence m));
           (ascii "sev_snp", GatewayReleaseSevSnp_to_value (gm_sev_snp m))].

Definition ApprovalManifest_to_value (a : ApprovalManifest) : Value :=
  JObject [(ascii "schema", JString (am_schema a));
           (ascii "environment", Environment_to_value (am_environment a));
           (ascii "revision", jnum (am_revision a));
           (ascii "key_manifest_sha256", JString (am_key_manifest_sha256 a));
           (ascii "sigstore_sha256", JString (am_sigstore_sha256 a));
           (ascii "gateways", JArray ((fun c =>
              JObject [(ascii "document", GatewayReleaseManifest_to_value (ev_document c));
                       (ascii "provenance", ev_provenance c)]) <$> am_gateways a));
           (ascii "catalogs", JArray ((fun c =>
              JObject [(ascii "document", CatalogReleaseManifest_to_value (ev_document c));
                       (ascii "provenance", ev_provenance c)]) <$> am_catalogs a));
           (ascii "hardware_policy", HardwarePolicy_to_value (am_hardware_policy a))].
