(* ===== verification/Deserialize.v ===== *)
(** The derived deserializers of the documents in [types.rs], [approvals.rs] and
    [evidence.rs]: every struct denies unknown fields and lists its fields in declaration
    order. *)

From S2P Require Import Prelude Primitives Json Signing Attestation Documents.

Open Scope Z_scope.

(** ** approvals.rs and evidence.rs documents *)

Record SigstoreFiles : Type := { sf_roots : list bytes; sf_targets : bytes; sf_trusted_root : bytes }.

Definition SigstoreFiles_to_value (f : SigstoreFiles) : Value :=
  JObject [(ascii "roots", JArray (JString <$> sf_roots f)); (ascii "targets", JString (sf_targets f));
           (ascii "trusted_root", JString (sf_trusted_root f))].

Record Bundle : Type := {
  bn_schema : bytes;
  bn_sigstore : SigstoreFiles;
  bn_keys : LoggedDocument KeyManifest;
  bn_approvals : LoggedDocument ApprovalManifest;
  bn_vendor_collateral : list (list (bytes * Value))
}.

Record Envelope : Type := { en_schema : bytes; en_body_sha256 : bytes; en_body : Bundle }.

(** ** Leaves *)

(** A unit variant by name, or as the key of an object with a null. *)
Definition Environment_named (name : bytes) : option Environment :=
  if bool_decide (name = ascii "prod") then Some Production
  else if bool_decide (name = ascii "staging") then Some Staging else None.
Definition Environment_from_value (v : Value) : option Environment :=
  match v with
  | JString name => Environment_named name
  | JObject [(name, JNull)] => Environment_named name
  | _ => None
  end.

Definition StogasSignature_from_value (v : Value) : option StogasSignature :=
  match struct_values [ascii "key_id"; ascii "signature"] v with
  | Some [key_id; signature] =>
      key_id ← key_id ≫= as_str;
      signature ← signature ≫= as_str;
      Some {| ssg_key_id := key_id; ssg_signature := signature |}
  | _ => None
  end.

Definition AmdTcb_from_value (v : Value) : option AmdTcb :=
  match struct_values [ascii "bootloader"; ascii "microcode"; ascii "snp"; ascii "tee"] v with
  | Some [bootloader; microcode; snp; tee] =>
      bootloader ← bootloader ≫= as_uint u8_max;
      microcode ← microcode ≫= as_uint u8_max;
      snp ← snp ≫= as_uint u8_max;
      tee ← tee ≫= as_uint u8_max;
      Some {| tcb_bootloader := bootloader; tcb_microcode := microcode; tcb_snp := snp; tcb_tee := tee |}
  | _ => None
  end.

Definition ReleaseArtifact_from_value (v : Value) : option ReleaseArtifact :=
  match struct_values [ascii "sha256"; ascii "size_bytes"] v with
  | Some [sha256; size] =>
      sha256 ← sha256 ≫= as_str;
      size ← size ≫= as_uint u64_max;
      Some {| ra_sha256 := sha256; ra_size_bytes := size |}
  | _ => None
  end.

Definition ReleaseSource_from_value (v : Value) : option ReleaseSource :=
  match struct_values [ascii "commit"; ascii "repository"; ascii "sha256"; ascii "tag"] v with
  | Some [commit; repository; sha256; tag] =>
      commit ← commit ≫= as_str;
      repository ← repository ≫= as_str;
      sha256 ← sha256 ≫= as_str;
      tag ← tag ≫= as_str;
      Some {| rs_commit := commit; rs_repository := repository; rs_sha256 := sha256; rs_tag := tag |}
  | _ => None
  end.

Definition OnlineKey_from_value (v : Value) : option OnlineKey :=
  match struct_values [ascii "key_id"; ascii "public_key"; ascii "rekor_public_key"] v with
  | Some [key_id; public_key; rekor] =>
      key_id ← key_id ≫= as_str;
      public_key ← public_key ≫= as_str;
      rekor ← rekor ≫= as_str;
      Some {| ok_key_id := key_id; ok_public_key := public_key; ok_rekor_public_key := rekor |}
  | _ => None
  end.

Definition SigstoreFiles_from_value (v : Value) : option SigstoreFiles :=
  match struct_values [ascii "roots"; ascii "targets"; ascii "trusted_root"] v with
  | Some [roots; targets; trusted_root] =>
      roots ← roots ≫= as_vec as_str;
      targets ← targets ≫= as_str;
      trusted_root ← trusted_root ≫= as_str;
      Some {| sf_roots := roots; sf_targets := targets; sf_trusted_root := trusted_root |}
  | _ => None
  end.

(** ** Policies and releases *)

Definition AmdSevSnpPolicy_keys : list bytes :=
  [ascii "chip_ids"; ascii "cpuid_family"; ascii "cpuid_model"; ascii "cpuid_stepping";
   ascii "forbidden_platform_info_mask"; ascii "minimum_tcb"; ascii "required_current_mitigation_mask";
   ascii "required_launch_mitigation_mask"; ascii "required_platform_info_mask"].
Definition AmdSevSnpPolicy_from_value (v : Value) : option AmdSevSnpPolicy :=
  match struct_values AmdSevSnpPolicy_keys v with
  | Some [chip_ids; family; model; stepping; forbidden; tcb; current; launch; required] =>
      chip_ids ← chip_ids ≫= as_vec as_str;
      family ← family ≫= as_uint u8_max;
      model ← model ≫= as_uint u8_max;
      stepping ← stepping ≫= as_uint u8_max;
      forbidden ← forbidden ≫= as_str;
      tcb ← tcb ≫= AmdTcb_from_value;
      current ← current ≫= as_str;
      launch ← launch ≫= as_str;
      required ← required ≫= as_str;
      Some {| ap_chip_ids := chip_ids; ap_cpuid_family := family; ap_cpuid_model := model;
              ap_cpuid_stepping := stepping; ap_forbidden_platform_info_mask := forbidden;
              ap_minimum_tcb := tcb; ap_required_current_mitigation_mask := current;
              ap_required_launch_mitigation_mask := launch; ap_required_platform_info_mask := required |}
  | _ => None
  end.

Definition HardwarePolicy_from_value (v : Value) : option HardwarePolicy :=
  match struct_values [ascii "policies"; ascii "schema"; ascii "version"] v with
  | Some [policies; schema; version] =>
      policies ← policies ≫= as_vec AmdSevSnpPolicy_from_value;
      schema ← schema ≫= as_str;
      version ← version ≫= as_uint u64_max;
      Some {| hw_policies := policies; hw_schema := schema; hw_version := version |}
  | _ => None
  end.

Definition LaunchValues_keys : list bytes :=
  [ascii "author_key_digest"; ascii "family_id"; ascii "host_data"; ascii "id_key_digest"; ascii "image_id";
   ascii "policy"; ascii "vmpl"].
Definition LaunchValues_from_value (v : Value) : option LaunchValues :=
  match struct_values LaunchValues_keys v with
  | Some [author; family; host; id_key; image; policy; vmpl] =>
      author ← author ≫= as_str;
      family ← family ≫= as_str;
      host ← host ≫= as_str;
      id_key ← id_key ≫= as_str;
      image ← image ≫= as_str;
      policy ← policy ≫= as_str;
      vmpl ← vmpl ≫= as_uint u8_max;
      Some {| lv_author_key_digest := author; lv_family_id := family; lv_host_data := host;
              lv_id_key_digest := id_key; lv_image_id := image; lv_policy := policy; lv_vmpl := vmpl |}
  | _ => None
  end.

Definition AmdSevSnpLaunchPolicy_from_value (v : Value) : option AmdSevSnpLaunchPolicy :=
  match struct_values [ascii "launch"; ascii "product_name"] v with
  | Some [launch; product] =>
      launch ← launch ≫= LaunchValues_from_value;
      product ← product ≫= as_str;
      Some {| lp_launch := launch; lp_product_name := product |}
  | _ => None
  end.

Definition LaunchPolicies_from_value (v : Value) : option LaunchPolicies :=
  match struct_values [ascii "policies"; ascii "schema"] v with
  | Some [policies; schema] =>
      policies ← policies ≫= as_vec AmdSevSnpLaunchPolicy_from_value;
      schema ← schema ≫= as_str;
      Some {| lps_policies := policies; lps_schema := schema |}
  | _ => None
  end.

(** The artifacts and the build environment are structs of their own in the source. *)
Definition CatalogReleaseArtifacts_from_value (v : Value) : option (ReleaseArtifact * ReleaseArtifact) :=
  match struct_values [ascii "catalog.public.json"; ascii "catalog.runtime.json"] v with
  | Some [public; runtime] =>
      public ← public ≫= ReleaseArtifact_from_value;
      runtime ← runtime ≫= ReleaseArtifact_from_value;
      Some (public, runtime)
  | _ => None
  end.

Definition CatalogReleaseManifest_keys : list bytes :=
  [ascii "minimum_gateway_sequence"; ascii "artifacts"; ascii "schema"; ascii "sequence"; ascii "source"].
Definition CatalogReleaseManifest_from_value (v : Value) : option CatalogReleaseManifest :=
  match struct_values CatalogReleaseManifest_keys v with
  | Some [minimum; artifacts; schema; sequence; source] =>
      minimum ← minimum ≫= as_uint u64_max;
      artifacts ← artifacts ≫= CatalogReleaseArtifacts_from_value;
      schema ← schema ≫= as_str;
      sequence ← sequence ≫= as_uint u64_max;
      source ← source ≫= ReleaseSource_from_value;
      Some {| cm_minimum_gateway_sequence := minimum; cm_public := artifacts.1; cm_runtime := artifacts.2;
              cm_schema := schema; cm_sequence := sequence; cm_source := source |}
  | _ => None
  end.

Definition GatewayReleaseArtifacts_from_value (v : Value) : option ReleaseArtifact :=
  match struct_values [ascii "gateway.igvm"] v with
  | Some [igvm] => igvm ≫= ReleaseArtifact_from_value
  | _ => None
  end.

Definition GatewayReleaseBuildEnvironment_from_value (v : Value) : option (bytes * bytes * bytes * bytes) :=
  match struct_values [ascii "lc_all"; ascii "source_date_epoch"; ascii "tz"; ascii "umask"] v with
  | Some [lc_all; epoch; tz; umask] =>
      lc_all ← lc_all ≫= as_str;
      epoch ← epoch ≫= as_str;
      tz ← tz ≫= as_str;
      umask ← umask ≫= as_str;
      Some (lc_all, epoch, tz, umask)
  | _ => None
  end.

Definition GatewayReleaseBuild_keys : list bytes :=
  [ascii "environment"; ascii "go_vendor_tree_sha256"; ascii "go_version"; ascii "guest_ca_bundle_path";
   ascii "guix_channel_commit"; ascii "input_sha256"; ascii "kernel_config_sha256"; ascii "kernel_version";
   ascii "linux_bz_image_sha256"; ascii "ovmf_sha256"; ascii "systemd_stub_sha256"; ascii "uki_sha256"].
Definition GatewayReleaseBuild_from_value (v : Value) : option GatewayReleaseBuild :=
  match struct_values GatewayReleaseBuild_keys v with
  | Some [environment; vendor; go; ca; guix; inputs; config; kernel; bz; ovmf; stub; uki] =>
      environment ← environment ≫= GatewayReleaseBuildEnvironment_from_value;
      vendor ← vendor ≫= as_str;
      go ← go ≫= as_str;
      ca ← ca ≫= as_str;
      guix ← guix ≫= as_str;
      inputs ← inputs ≫= as_map as_str;
      config ← config ≫= as_str;
      kernel ← kernel ≫= as_str;
      bz ← bz ≫= as_str;
      ovmf ← ovmf ≫= as_str;
      stub ← stub ≫= as_str;
      uki ← uki ≫= as_str;
      Some {| gb_lc_all := environment.1.1.1; gb_source_date_epoch := environment.1.1.2;
              gb_tz := environment.1.2; gb_umask := environment.2; gb_go_vendor_tree_sha256 := vendor;
              gb_go_version := go; gb_guest_ca_bundle_path := ca; gb_guix_channel_commit := guix;
              gb_input_sha256 := inputs; gb_kernel_config_sha256 := config; gb_kernel_version := kernel;
              gb_linux_bz_image_sha256 := bz; gb_ovmf_sha256 := ovmf; gb_systemd_stub_sha256 := stub;
              gb_uki_sha256 := uki |}
  | _ => None
  end.

Definition GatewayReleaseSevSnp_keys : list bytes :=
  [ascii "check_kvm"; ascii "launch_measurement"; ascii "launch_policies"; ascii "measurement_command";
   ascii "measurement_tool"; ascii "measurement_tool_sha256"; ascii "measurement_tool_version";
   ascii "platform"; ascii "vcpu_count"; ascii "vmm"].
Definition GatewayReleaseSevSnp_from_value (v : Value) : option GatewayReleaseSevSnp :=
  match struct_values GatewayReleaseSevSnp_keys v with
  | Some [kvm; measurement; policies; command; tool; tool_sha256; tool_version; platform; vcpus; vmm] =>
      kvm ← kvm ≫= as_bool;
      measurement ← measurement ≫= as_str;
      policies ← policies ≫= LaunchPolicies_from_value;
      command ← command ≫= as_str;
      tool ← tool ≫= as_str;
      tool_sha256 ← tool_sha256 ≫= as_str;
      tool_version ← tool_version ≫= as_str;
      platform ← platform ≫= as_str;
      vcpus ← vcpus ≫= as_uint u16_max;
      vmm ← vmm ≫= as_str;
      Some {| gs_check_kvm := kvm; gs_launch_measurement := measurement; gs_launch_policies := policies;
              gs_measurement_command := command; gs_measurement_tool := tool;
              gs_measurement_tool_sha256 := tool_sha256; gs_measurement_tool_version := tool_version;
              gs_platform := platform; gs_vcpu_count := vcpus; gs_vmm := vmm |}
  | _ => None
  end.

Definition GatewayReleaseManifest_keys : list bytes :=
  [ascii "artifacts"; ascii "build"; ascii "minimum_catalog_sequence"; ascii "source"; ascii "schema";
   ascii "sequence"; ascii "sev_snp"].
Definition GatewayReleaseManifest_from_value (v : Value) : option GatewayReleaseManifest :=
  match struct_values GatewayReleaseManifest_keys v with
  | Some [artifacts; build; minimum; source; schema; sequence; sev_snp] =>
      artifacts ← artifacts ≫= GatewayReleaseArtifacts_from_value;
      build ← build ≫= GatewayReleaseBuild_from_value;
      minimum ← minimum ≫= as_uint u64_max;
      source ← source ≫= ReleaseSource_from_value;
      schema ← schema ≫= as_str;
      sequence ← sequence ≫= as_uint u64_max;
      sev_snp ← sev_snp ≫= GatewayReleaseSevSnp_from_value;
      Some {| gm_gateway_igvm := artifacts; gm_build := build; gm_minimum_catalog_sequence := minimum;
              gm_source := source; gm_schema := schema; gm_sequence := sequence; gm_sev_snp := sev_snp |}
  | _ => None
  end.

(** ** Evidence, manifests and bundles *)

Definition ReleaseEvidence_from_value {T} (f : Value -> option T) (v : Value) : option (ReleaseEvidence T) :=
  match struct_values [ascii "document"; ascii "provenance"] v with
  | Some [document; provenance] =>
      document ← document ≫= f;
      provenance ← provenance;
      Some {| ev_document := document; ev_provenance := provenance |}
  | _ => None
  end.

Definition LoggedDocument_from_value {T} (f : Value -> option T) (v : Value) : option (LoggedDocument T) :=
  match struct_values [ascii "document"; ascii "signature"; ascii "inclusion"] v with
  | Some [document; signature; inclusion] =>
      document ← document ≫= f;
      signature ← signature ≫= StogasSignature_from_value;
      inclusion ← inclusion;
      Some {| ld_document := document; ld_signature := signature; ld_inclusion := inclusion |}
  | _ => None
  end.

Definition KeyManifest_keys : list bytes :=
  [ascii "schema"; ascii "environment"; ascii "generation"; ascii "expires_at"; ascii "active_key";
   ascii "retired_keys"].
Definition KeyManifest_from_value (v : Value) : option KeyManifest :=
  match struct_values KeyManifest_keys v with
  | Some [schema; environment; generation; expires; active; retired] =>
      schema ← schema ≫= as_str;
      environment ← environment ≫= Environment_from_value;
      generation ← generation ≫= as_uint u64_max;
      expires ← expires ≫= as_str;
      active ← active ≫= OnlineKey_from_value;
      retired ← retired ≫= as_vec OnlineKey_from_value;
      Some {| km_schema := schema; km_environment := environment; km_generation := generation;
              km_expires_at := expires; km_active_key := active; km_retired_keys := retired |}
  | _ => None
  end.

Definition ApprovalManifest_keys : list bytes :=
  [ascii "schema"; ascii "environment"; ascii "revision"; ascii "key_manifest_sha256";
   ascii "sigstore_sha256"; ascii "gateways"; ascii "catalogs"; ascii "hardware_policy"].
Definition ApprovalManifest_from_value (v : Value) : option ApprovalManifest :=
  match struct_values ApprovalManifest_keys v with
  | Some [schema; environment; revision; keys; sigstore; gateways; catalogs; hardware] =>
      schema ← schema ≫= as_str;
      environment ← environment ≫= Environment_from_value;
      revision ← revision ≫= as_uint u64_max;
      keys ← keys ≫= as_str;
      sigstore ← sigstore ≫= as_str;
      gateways ← gateways ≫= as_vec (ReleaseEvidence_from_value GatewayReleaseManifest_from_value);
      catalogs ← catalogs ≫= as_vec (ReleaseEvidence_from_value CatalogReleaseManifest_from_value);
      hardware ← hardware ≫= HardwarePolicy_from_value;
      Some {| am_schema := schema; am_environment := environment; am_revision := revision;
              am_key_manifest_sha256 := keys; am_sigstore_sha256 := sigstore; am_gateways := gateways;
              am_catalogs := catalogs; am_hardware_policy := hardware |}
  | _ => None
  end.

Definition SignedKeyManifest_from_value : Value -> option (LoggedDocument KeyManifest) :=
  LoggedDocument_from_value KeyManifest_from_value.
Definition SignedApprovalManifest_from_value : Value -> option (LoggedDocument ApprovalManifest) :=
  LoggedDocument_from_value ApprovalManifest_from_value.

(** [BTreeMap<String, Value>]. *)
Definition as_fields (v : Value) : option (list (bytes * Value)) :=
  match v with JObject fields => Some fields | _ => None end.

Definition Bundle_keys : list bytes :=
  [ascii "schema"; ascii "sigstore"; ascii "keys"; ascii "approvals"; ascii "vendor_collateral"].
Definition Bundle_from_value (v : Value) : option Bundle :=
  match struct_values Bundle_keys v with
  | Some [schema; sigstore; keys; approvals; collateral] =>
      schema ← schema ≫= as_str;
      sigstore ← sigstore ≫= SigstoreFiles_from_value;
      keys ← keys ≫= SignedKeyManifest_from_value;
      approvals ← approvals ≫= SignedApprovalManifest_from_value;
      collateral ← collateral ≫= as_vec as_fields;
      Some {| bn_schema := schema; bn_sigstore := sigstore; bn_keys := keys; bn_approvals := approvals;
              bn_vendor_collateral := collateral |}
  | _ => None
  end.

Definition Envelope_from_value (v : Value) : option Envelope :=
  match struct_values [ascii "schema"; ascii "body_sha256"; ascii "body"] v with
  | Some [schema; digest; body] =>
      schema ← schema ≫= as_str;
      digest ← digest ≫= as_str;
      body ← body ≫= Bundle_from_value;
      Some {| en_schema := schema; en_body_sha256 := digest; en_body := body |}
  | _ => None
  end.

(** * Theory

    Documents and their values: every manifest with machine-width numbers is read back from
    the value it serializes to, and everything that is read has machine-width numbers. *)

(** ** Typed documents *)

Definition uint (max n : Z) : Prop := 0 <= n <= max.

Record tcb_typed (t : AmdTcb) : Prop := {
  tt_bootloader : uint u8_max (tcb_bootloader t); tt_microcode : uint u8_max (tcb_microcode t);
  tt_snp : uint u8_max (tcb_snp t); tt_tee : uint u8_max (tcb_tee t)
}.

Record profile_typed (p : AmdSevSnpPolicy) : Prop := {
  pt_family : uint u8_max (ap_cpuid_family p); pt_model : uint u8_max (ap_cpuid_model p);
  pt_stepping : uint u8_max (ap_cpuid_stepping p); pt_tcb : tcb_typed (ap_minimum_tcb p)
}.

Record hardware_typed (h : HardwarePolicy) : Prop := {
  ht_policies : Forall profile_typed (hw_policies h); ht_version : uint u64_max (hw_version h)
}.

Definition artifact_typed (a : ReleaseArtifact) : Prop := uint u64_max (ra_size_bytes a).

Record catalog_typed (m : CatalogReleaseManifest) : Prop := {
  ct_minimum : uint u64_max (cm_minimum_gateway_sequence m); ct_public : artifact_typed (cm_public m);
  ct_runtime : artifact_typed (cm_runtime m); ct_sequence : uint u64_max (cm_sequence m)
}.

Definition launch_typed (l : AmdSevSnpLaunchPolicy) : Prop := uint u8_max (lv_vmpl (lp_launch l)).

Record sev_typed (s : GatewayReleaseSevSnp) : Prop := {
  st_policies : Forall launch_typed (lps_policies (gs_launch_policies s));
  st_vcpus : uint u16_max (gs_vcpu_count s)
}.

Record gateway_typed (m : GatewayReleaseManifest) : Prop := {
  gt_igvm : artifact_typed (gm_gateway_igvm m); gt_minimum : uint u64_max (gm_minimum_catalog_sequence m);
  gt_sequence : uint u64_max (gm_sequence m); gt_sev : sev_typed (gm_sev_snp m)
}.

Record manifest_typed (m : ApprovalManifest) : Prop := {
  mt_revision : uint u64_max (am_revision m);
  mt_gateways : Forall (fun r => gateway_typed (ev_document r)) (am_gateways m);
  mt_catalogs : Forall (fun r => catalog_typed (ev_document r)) (am_catalogs m);
  mt_hardware : hardware_typed (am_hardware_policy m)
}.

Definition keys_typed (k : KeyManifest) : Prop := uint u64_max (km_generation k).

(** ** Reading back *)

Lemma mapM_id {A} (f : Value -> option A) (g : A -> Value) (P : A -> Prop) l :
  (forall x, P x -> f (g x) = Some x) -> Forall P l -> mapM f (g <$> l) = Some l.
Proof.
  intros Hf Hl. induction Hl as [|x l Hx Hl IH]; [done|]. cbn [fmap list_fmap mapM].
  change (list_fmap _ _ g l) with (g <$> l). rewrite Hf by done. simpl. by rewrite IH.
Qed.

Lemma as_vec_id {A} (f : Value -> option A) (g : A -> Value) (P : A -> Prop) l :
  (forall x, P x -> f (g x) = Some x) -> Forall P l -> as_vec f (JArray (g <$> l)) = Some l.
Proof. apply mapM_id. Qed.

Lemma as_strings l : as_vec as_str (JArray (JString <$> l)) = Some l.
Proof. apply (as_vec_id as_str JString (fun _ => True)); [done|]. by apply Forall_true. Qed.

Lemma as_string_map l : as_map as_str (JObject ((fun '(k, v) => (k, JString v)) <$> l)) = Some l.
Proof.
  unfold as_map. induction l as [|[k v] l IH]; [done|]. cbn [fmap list_fmap mapM].
  change (list_fmap _ _ ?f l) with (f <$> l). simpl. by rewrite IH.
Qed.

Lemma environment_roundtrip e : Environment_from_value (Environment_to_value e) = Some e.
Proof. by destruct e. Qed.

(** Evaluates the fields of a struct whose values are not yet known. *)
Ltac open_struct :=
  repeat match goal with
  | |- context [struct_values _ (JObject ?l)] =>
      match l with context [(_, ?v)] =>
        lazymatch v with JString _ => fail | _ => idtac end; assert_fails (is_var v); remember v
      end
  end;
  match goal with |- context [struct_values ?names (JObject ?l)] =>
    let r := eval vm_compute in (struct_values names (JObject l)) in
    replace (struct_values names (JObject l)) with r by (vm_compute; reflexivity)
  end; subst; cbn [as_str mbind option_bind].

Create Rewrite HintDb documents.
#[local] Hint Rewrite as_strings as_string_map environment_roundtrip : documents.
Ltac read_back := repeat (autorewrite with documents; cbn [mbind option_bind as_str as_bool]; auto).

Lemma uint_back max n : uint max n -> max < 10 ^ 20 -> as_uint max (jnum n) = Some n.
Proof. intros. by apply as_uint_jnum. Qed.

Lemma signature_roundtrip s : StogasSignature_from_value (StogasSignature_to_value s) = Some s.
Proof. by destruct s. Qed.
Lemma source_roundtrip s : ReleaseSource_from_value (ReleaseSource_to_value s) = Some s.
Proof. by destruct s. Qed.
Lemma online_key_roundtrip k : OnlineKey_from_value (OnlineKey_to_value k) = Some k.
Proof. by destruct k. Qed.

Lemma files_roundtrip f : SigstoreFiles_from_value (SigstoreFiles_to_value f) = Some f.
Proof. destruct f. unfold SigstoreFiles_from_value, SigstoreFiles_to_value. open_struct. by read_back. Qed.

Lemma tcb_roundtrip t : tcb_typed t -> AmdTcb_from_value (AmdTcb_to_value t) = Some t.
Proof.
  intros []. destruct t. unfold AmdTcb_from_value, AmdTcb_to_value. open_struct. by rewrite !uint_back.
Qed.

Lemma artifact_roundtrip a : artifact_typed a -> ReleaseArtifact_from_value (ReleaseArtifact_to_value a) = Some a.
Proof.
  intros Ha. destruct a. unfold ReleaseArtifact_from_value, ReleaseArtifact_to_value. open_struct.
  by rewrite uint_back.
Qed.

Lemma profile_roundtrip p : profile_typed p -> AmdSevSnpPolicy_from_value (AmdSevSnpPolicy_to_value p) = Some p.
Proof.
  intros []. destruct p. unfold AmdSevSnpPolicy_from_value, AmdSevSnpPolicy_to_value. open_struct.
  rewrite !uint_back, tcb_roundtrip by done. by read_back.
Qed.

Lemma hardware_roundtrip h : hardware_typed h -> HardwarePolicy_from_value (HardwarePolicy_to_value h) = Some h.
Proof.
  intros []. destruct h. unfold HardwarePolicy_from_value, HardwarePolicy_to_value. open_struct.
  rewrite (as_vec_id _ _ profile_typed) by (done || apply profile_roundtrip). cbn [mbind option_bind].
  by rewrite uint_back.
Qed.

Lemma launch_roundtrip l :
  launch_typed l ->
  AmdSevSnpLaunchPolicy_from_value
    (JObject [(ascii "launch", LaunchValues_to_value (lp_launch l)); (ascii "product_name", JString (lp_product_name l))])
  = Some l.
Proof.
  intros Hl. destruct l as [launch name]. cbn [lp_launch lp_product_name].
  unfold AmdSevSnpLaunchPolicy_from_value. open_struct.
  assert (LaunchValues_from_value (LaunchValues_to_value launch) = Some launch) as ->; [|done].
  destruct launch. unfold LaunchValues_from_value, LaunchValues_to_value. open_struct. by rewrite uint_back.
Qed.

Lemma policies_roundtrip l :
  Forall launch_typed (lps_policies l) -> LaunchPolicies_from_value (LaunchPolicies_to_value l) = Some l.
Proof.
  intros Hl. destruct l. unfold LaunchPolicies_from_value, LaunchPolicies_to_value. open_struct.
  by rewrite (as_vec_id _ _ launch_typed) by (done || apply launch_roundtrip).
Qed.

Lemma build_roundtrip b : GatewayReleaseBuild_from_value (GatewayReleaseBuild_to_value b) = Some b.
Proof. destruct b. unfold GatewayReleaseBuild_from_value, GatewayReleaseBuild_to_value. open_struct. by read_back. Qed.

Lemma sev_roundtrip s : sev_typed s -> GatewayReleaseSevSnp_from_value (GatewayReleaseSevSnp_to_value s) = Some s.
Proof.
  intros []. destruct s. unfold GatewayReleaseSevSnp_from_value, GatewayReleaseSevSnp_to_value. open_struct.
  rewrite policies_roundtrip by done. cbn [mbind option_bind as_bool]. by rewrite uint_back.
Qed.

Lemma gateway_roundtrip m :
  gateway_typed m -> GatewayReleaseManifest_from_value (GatewayReleaseManifest_to_value m) = Some m.
Proof.
  intros []. destruct m. unfold GatewayReleaseManifest_from_value, GatewayReleaseManifest_to_value. open_struct.
  assert (forall a, artifact_typed a ->
    GatewayReleaseArtifacts_from_value (JObject [(ascii "gateway.igvm", ReleaseArtifact_to_value a)]) = Some a) as Ha.
  { intros a Ht. unfold GatewayReleaseArtifacts_from_value. open_struct. by apply artifact_roundtrip. }
  rewrite Ha by done. cbn [mbind option_bind].
  rewrite build_roundtrip. cbn [mbind option_bind]. rewrite uint_back by done. cbn [mbind option_bind].
  rewrite source_roundtrip. cbn [mbind option_bind]. rewrite uint_back by done. cbn [mbind option_bind].
  by rewrite sev_roundtrip.
Qed.

Lemma catalog_roundtrip m :
  catalog_typed m -> CatalogReleaseManifest_from_value (CatalogReleaseManifest_to_value m) = Some m.
Proof.
  intros []. destruct m. unfold CatalogReleaseManifest_from_value, CatalogReleaseManifest_to_value. open_struct.
  assert (forall a b, artifact_typed a -> artifact_typed b ->
    CatalogReleaseArtifacts_from_value (JObject [(ascii "catalog.public.json", ReleaseArtifact_to_value a);
      (ascii "catalog.runtime.json", ReleaseArtifact_to_value b)]) = Some (a, b)) as Ha.
  { intros a b Hx Hy. unfold CatalogReleaseArtifacts_from_value. open_struct. by rewrite !artifact_roundtrip. }
  rewrite uint_back by done. cbn [mbind option_bind]. rewrite Ha by done. cbn [mbind option_bind].
  rewrite uint_back by done. cbn [mbind option_bind]. by rewrite source_roundtrip.
Qed.

Lemma release_roundtrip {T} (f : Value -> option T) (g : T -> Value) (r : ReleaseEvidence T) :
  f (g (ev_document r)) = Some (ev_document r) ->
  ReleaseEvidence_from_value f (JObject [(ascii "document", g (ev_document r)); (ascii "provenance", ev_provenance r)])
  = Some r.
Proof.
  intros Hf. destruct r as [d p]. unfold ReleaseEvidence_from_value. open_struct. simpl in *. by rewrite Hf.
Qed.

Lemma keys_roundtrip k : keys_typed k -> KeyManifest_from_value (KeyManifest_to_value k) = Some k.
Proof.
  intros Hk. destruct k. unfold KeyManifest_from_value, KeyManifest_to_value. open_struct.
  read_back. rewrite uint_back by done. cbn [mbind option_bind]. rewrite online_key_roundtrip. cbn [mbind option_bind].
  rewrite (as_vec_id _ _ (fun _ => True)) by (by apply Forall_true || (intros; apply online_key_roundtrip)). done.
Qed.

Lemma manifest_roundtrip m :
  manifest_typed m -> ApprovalManifest_from_value (ApprovalManifest_to_value m) = Some m.
Proof.
  intros []. destruct m. unfold ApprovalManifest_from_value, ApprovalManifest_to_value. open_struct. read_back.
  rewrite uint_back by done. cbn [mbind option_bind].
  rewrite (as_vec_id _ _ (fun r => gateway_typed (ev_document r)))
    by (done || (intros r Hr; apply (release_roundtrip _ GatewayReleaseManifest_to_value), gateway_roundtrip, Hr)).
  cbn [mbind option_bind].
  rewrite (as_vec_id _ _ (fun r => catalog_typed (ev_document r)))
    by (done || (intros r Hr; apply (release_roundtrip _ CatalogReleaseManifest_to_value), catalog_roundtrip, Hr)).
  cbn [mbind option_bind]. by rewrite hardware_roundtrip.
Qed.

(** ** Widths of what is read *)

Lemma as_vec_typed {A} (f : Value -> option A) (P : A -> Prop) v l :
  (forall x y, f x = Some y -> P y) -> as_vec f v = Some l -> Forall P l.
Proof.
  intros Hf. unfold as_vec. destruct v as [| | | |vs|]; try done. intros E. apply mapM_Some in E.
  induction E as [|x y vs l Hx E IH]; constructor; eauto.
Qed.

(** Opens a deserializer that returned a document. *)
Ltac read_struct H :=
  match type of H with context [struct_values ?n ?v] =>
    let l := fresh "l" in
    destruct (struct_values n v) as [l|]; [|discriminate H];
    repeat (destruct l as [|? l]; cbn beta match in H; try discriminate H)
  end;
  repeat match goal with
  | E : (_ ≫= _) = Some _ |- _ => apply bind_Some in E as (? & ? & ?)
  end;
  simplify_eq/=.

Lemma tcb_read v t : AmdTcb_from_value v = Some t -> tcb_typed t.
Proof. unfold AmdTcb_from_value. intros E. read_struct E. split; unfold uint; eauto using as_uint_range. Qed.

Lemma artifact_read v a : ReleaseArtifact_from_value v = Some a -> artifact_typed a.
Proof. unfold ReleaseArtifact_from_value. intros E. read_struct E. unfold artifact_typed, uint. eauto using as_uint_range. Qed.

Lemma profile_read v p : AmdSevSnpPolicy_from_value v = Some p -> profile_typed p.
Proof.
  unfold AmdSevSnpPolicy_from_value. intros E. read_struct E.
  split; unfold uint; eauto using as_uint_range, tcb_read.
Qed.

Lemma hardware_read v h : HardwarePolicy_from_value v = Some h -> hardware_typed h.
Proof.
  unfold HardwarePolicy_from_value. intros E. read_struct E.
  split; [|by eapply as_uint_range]. by eapply as_vec_typed; [apply profile_read|].
Qed.

Lemma launch_read v l : AmdSevSnpLaunchPolicy_from_value v = Some l -> launch_typed l.
Proof.
  unfold AmdSevSnpLaunchPolicy_from_value. intros E. read_struct E.
  match goal with H : LaunchValues_from_value _ = Some _ |- _ => unfold LaunchValues_from_value in H; read_struct H end.
  unfold launch_typed, uint. eauto using as_uint_range.
Qed.

Lemma sev_read v s : GatewayReleaseSevSnp_from_value v = Some s -> sev_typed s.
Proof.
  unfold GatewayReleaseSevSnp_from_value. intros E. read_struct E.
  match goal with H : LaunchPolicies_from_value _ = Some _ |- _ => unfold LaunchPolicies_from_value in H; read_struct H end.
  split; [|by eapply as_uint_range]. by eapply as_vec_typed; [apply launch_read|].
Qed.

Lemma gateway_read v m : GatewayReleaseManifest_from_value v = Some m -> gateway_typed m.
Proof.
  unfold GatewayReleaseManifest_from_value. intros E. read_struct E.
  match goal with H : GatewayReleaseArtifacts_from_value _ = Some _ |- _ =>
    unfold GatewayReleaseArtifacts_from_value in H; read_struct H end.
  split; unfold uint; eauto using as_uint_range, artifact_read, sev_read.
Qed.

Lemma catalog_read v m : CatalogReleaseManifest_from_value v = Some m -> catalog_typed m.
Proof.
  unfold CatalogReleaseManifest_from_value. intros E. read_struct E.
  match goal with H : CatalogReleaseArtifacts_from_value _ = Some _ |- _ =>
    unfold CatalogReleaseArtifacts_from_value in H; read_struct H end.
  split; unfold uint; eauto using as_uint_range, artifact_read.
Qed.

Lemma release_read {T} (f : Value -> option T) (P : T -> Prop) v r :
  (forall x y, f x = Some y -> P y) -> ReleaseEvidence_from_value f v = Some r -> P (ev_document r).
Proof. intros Hf. unfold ReleaseEvidence_from_value. intros E. read_struct E. eauto. Qed.

Lemma manifest_read v m : ApprovalManifest_from_value v = Some m -> manifest_typed m.
Proof.
  unfold ApprovalManifest_from_value. intros E. read_struct E. split.
  - by eapply as_uint_range.
  - eapply as_vec_typed; [|done]. intros v' r Hr. by eapply release_read; [apply gateway_read|].
  - eapply as_vec_typed; [|done]. intros v' r Hr. by eapply release_read; [apply catalog_read|].
  - by eapply hardware_read.
Qed.

Lemma keys_read v k : KeyManifest_from_value v = Some k -> keys_typed k.
Proof. unfold KeyManifest_from_value. intros E. read_struct E. by eapply as_uint_range. Qed.

(** C37. Manifests are typed exactly by their reader: whatever the verifier reads as an
    approval or key manifest has every number within its machine width, and every such
    manifest is read back from the value it serializes to, so the signed and hashed value
    determines the manifest. *)
Theorem manifests_typed :
  (forall v m, ApprovalManifest_from_value v = Some m ->
     manifest_typed m /\ ApprovalManifest_from_value (ApprovalManifest_to_value m) = Some m) /\
  (forall v k, KeyManifest_from_value v = Some k ->
     keys_typed k /\ KeyManifest_from_value (KeyManifest_to_value k) = Some k) /\
  (forall m m', manifest_typed m -> manifest_typed m' ->
     ApprovalManifest_to_value m = ApprovalManifest_to_value m' -> m = m').
Proof.
  split_and!.
  - intros v m E. apply manifest_read in E. auto using manifest_roundtrip.
  - intros v k E. apply keys_read in E. auto using keys_roundtrip.
  - intros m m' Hm Hm' E. apply manifest_roundtrip in Hm, Hm'. congruence.
Qed.
