(* ===== verification/Approvals.v ===== *)
(** Root and approval decisions: [approvals/keys.rs] (the learned key state) and
    [approvals.rs] (key manifests, approval manifests and their order), with
    [verify_stogas_signature] of [lib.rs] and [spki_key] of [signing.rs]. *)

From S2P Require Import Prelude Primitives BTree Json Signing Attestation Documents Deserialize.

Open Scope Z_scope.

(** ** Libraries *)

(** [base64::STANDARD], the DER parser of [spki], [VerifyingKey::from_public_key_der] with
    its weak-key test, and RFC 3339 timestamps of [chrono]: Unix milliseconds, the
    nanoseconds below a second, and the text in UTC. *)
Class Encodings := {
  base64_encode : bytes -> bytes;
  base64_decode : bytes -> option bytes;
  spki_from_der : bytes -> option (bytes * bool * option bytes);
  ed25519_from_der : bytes -> option bool;
  parse_rfc3339 : bytes -> option (Z * Z * bytes)
}.

(** What a release's build proof must say about its GitHub workflow. *)
Record GithubPolicy : Type := {
  gp_repository : bytes;
  gp_workflow_identity : bytes;
  gp_source_ref : bytes;
  gp_source_commit : bytes;
  gp_predicate_type : bytes
}.

(** The offline Sigstore verifier, as its clients see it: the Unix second at which a log
    included a document, the one of a build proof with exactly the expected subjects, and
    the keys that verified TUF files authorize with the versions of their root and targets. *)
Class Sigstore := {
  TrustedRoot : Type;
  embedded_root : option TrustedRoot;
  verify_rekor_document_inclusion (trust : TrustedRoot) (inclusion artifact : bytes) (now : Z) : option Z;
  verify_github_attestation (trust : TrustedRoot) (bundle : bytes) (subjects : list (bytes * bytes))
    (policy : GithubPolicy) (now : Z) : option Z;
  verify_trust_update (roots : list bytes) (targets trusted_root : bytes) : option (TrustedRoot * Z * Z);
  verify_current_trust_update (roots : list bytes) (targets trusted_root snapshot timestamp : bytes) (now : Z)
    : option (TrustedRoot * Z * Z)
}.

(** ** Errors, constants and small checks *)

Inductive ApprovalError : Type :=
| ATooLarge | AInvalid (reason : bytes) | AAuthority | ATransparency | ASigstore | AInactiveKey
| AExpired | ASignature | ARollback | AEquivocation | ANotApproved (what : bytes) | AEvidence.

#[export] Instance ApprovalError_eq_dec : EqDecision ApprovalError.
Proof. solve_decision. Defined.

Definition KEY_MANIFEST_SCHEMA : bytes := ascii "stogas.keys.v1".
Definition APPROVAL_MANIFEST_SCHEMA : bytes := ascii "stogas.approvals.v1".
Definition STOGAS_SIGNATURE_DOMAIN : bytes := ascii "stogas signed document v1" ++ [x0a].
Definition MAX_INPUT_BYTES : Z := 16 * 1024 * 1024.
Definition MAX_REVISION : Z := 2 ^ 53 - 1.

(** [invalid(error)], where the text of a library's error is not modelled. *)
Definition invalid {A} : option A -> result A ApprovalError := fun o => ok_or o (AInvalid []).

Definition valid_revision (revision : Z) : bool := (0 <? revision) && (revision <=? MAX_REVISION).

Definition is_ascii_alphanumeric (b : byte) : bool :=
  let z := byte_to_Z b in
  ((48 <=? z) && (z <=? 57)) || ((65 <=? z) && (z <=? 90)) || ((97 <=? z) && (z <=? 122)).

Definition valid_key_id (key_id : bytes) : bool :=
  negb (zlen key_id =? 0) && (zlen key_id <=? 128)
  && forallb (fun b => is_ascii_alphanumeric b || bool_decide (b ∈ ascii "._-")) key_id.

(** [increasing]: the iterator starts from 0. *)
Fixpoint increasing_from (previous : Z) (sequences : list Z) : bool :=
  match sequences with
  | [] => true
  | sequence :: rest => (previous <? sequence) && increasing_from sequence rest
  end.
Definition increasing (sequences : list Z) : bool := increasing_from 0 sequences.

(** ** approvals/keys.rs *)

Record VerifiedKeys : Type := { vk_document : KeyManifest; vk_digest : bytes }.
Record Learned : Type := { le_keys : VerifiedKeys; le_conflicting : bool }.

(** The value behind the lock of [KeyState]. *)
Abbreviation KeyState := (option Learned).

(** [check] of two decisions. *)
Definition check_learned (previous : Learned) (keys : KeyManifest) (digest : bytes)
  : result unit ApprovalError :=
  let old := vk_document (le_keys previous) in
  reject km_generation keys <? km_generation old with ARollback;
  reject (km_generation keys =? km_generation old)
      && (le_conflicting previous || negb (bool_decide (digest = vk_digest (le_keys previous))))
    with AEquivocation;
  Ok tt.

Definition KeyState_learn (state : KeyState) (keys : VerifiedKeys) : KeyState * result unit ApprovalError :=
  match state with
  | None => (Some {| le_keys := keys; le_conflicting := false |}, Ok tt)
  | Some previous =>
      if (km_generation (vk_document keys) =? km_generation (vk_document (le_keys previous)))
         && negb (bool_decide (vk_digest keys = vk_digest (le_keys previous)))
      then (Some {| le_keys := le_keys previous; le_conflicting := true |}, Err AEquivocation)
      else match check_learned previous (vk_document keys) (vk_digest keys) with
           | Err e => (state, Err e)
           | Ok _ => (Some {| le_keys := keys; le_conflicting := false |}, Ok tt)
           end
  end.

Definition KeyState_check (state : KeyState) (keys : KeyManifest) (digest : bytes)
  : result unit ApprovalError :=
  match state with
  | None => Ok tt
  | Some previous => check_learned previous keys digest
  end.

Definition KeyState_require_current (state : KeyState) (keys : KeyManifest) : result unit ApprovalError :=
  let? learned := ok_or state AInactiveKey in
  reject le_conflicting learned with AEquivocation;
  let current := vk_document (le_keys learned) in
  reject negb (km_generation keys =? km_generation current)
      && ((km_generation current <? km_generation keys)
          || negb (OnlineKey_same_signer (km_active_key keys) (km_active_key current))
          || bytes_ltb (km_expires_at current) (km_expires_at keys))
    with ARollback;
  Ok tt.

(** ** approvals.rs *)

Section Approvals.
Context `{Json} `{Base64} `{Signatures} `{Hash} `{Encodings} `{Sigstore}.

(** [signing::spki_key] for the composite algorithm. *)
Definition COMPOSITE_OID : bytes := ascii "1.3.6.1.5.5.7.6.48".
Definition public_key_from_spki (der : bytes) : result bytes SigningError :=
  let? (oid, parameters, key) := ok_or (spki_from_der der) SgPublicKey in
  reject negb (bool_decide (oid = COMPOSITE_OID)) || parameters with SgPublicKey;
  let? key := ok_or key SgPublicKey in
  reject negb (zlen key =? SIGNING_PUBLIC_KEY_BYTES) with SgLength;
  Ok key.

(** [verify_stogas_signature]; its error text is dropped by the caller. *)
Definition verify_stogas_signature (public_der_b64 payload signature_b64url : bytes) : bool :=
  match base64_decode public_der_b64 with
  | None => false
  | Some der =>
      if negb (bool_decide (base64_encode der = public_der_b64)) then false else
      match public_key_from_spki der with
      | Err _ => false
      | Ok key =>
          match base64url_decode signature_b64url with
          | None => false
          | Some signature =>
              if negb (zlen signature =? SIGNATURE_BYTES)
                 || negb (bool_decide (base64url_encode signature = signature_b64url))
              then false
              else match signing_verify key payload signature with Ok _ => true | Err _ => false end
          end
      end
  end.

Definition KeyManifest_expiry_unix_ms (k : KeyManifest) : result Z ApprovalError :=
  reject negb (zlen (km_expires_at k) =? 20)
    with AInvalid (ascii "key manifest expiry must use whole UTC seconds");
  let? (millis, nanos, text) := ok_or (parse_rfc3339 (km_expires_at k))
    (AInvalid (ascii "key manifest expiry is not a UTC timestamp")) in
  reject negb (nanos =? 0) || negb (bool_decide (text = km_expires_at k))
    with AInvalid (ascii "key manifest expiry must use whole UTC seconds");
  Ok millis.

Definition payload_sha256 (payload : Value) : result bytes ApprovalError :=
  let? canonical := invalid (canonical_payload payload) in Ok (hex_encode (sha256 canonical)).

Definition decode_key (key_id public_key : bytes) : result bytes ApprovalError :=
  reject negb (valid_key_id key_id) with AInvalid (ascii "key identifier");
  let? b := invalid (base64_decode public_key) in
  reject negb (bool_decide (base64_encode b = public_key)) with AInvalid (ascii "public key encoding");
  let? _ := map_err (fun _ => AInvalid []) (public_key_from_spki b) in
  Ok b.

Definition decode_rekor_key (key : OnlineKey) : result bytes ApprovalError :=
  let? b := invalid (base64_decode (ok_rekor_public_key key)) in
  reject negb (zlen b =? 44) || negb (bool_decide (base64_encode b = ok_rekor_public_key key))
    with AInvalid (ascii "Rekor public key encoding");
  let? weak := invalid (ed25519_from_der b) in
  reject weak with AInvalid (ascii "weak Rekor public key");
  Ok b.

(** The loop over the active and the retired keys with the sets it fills. *)
Fixpoint validate_key_list (ids public_keys : list bytes) (keys : list OnlineKey)
  : result unit ApprovalError :=
  match keys with
  | [] => Ok tt
  | key :: keys =>
      let? _ := decode_key (ok_key_id key) (ok_public_key key) in
      let? _ := decode_rekor_key key in
      reject bool_decide (ok_key_id key ∈ ids) || bool_decide (ok_public_key key ∈ public_keys)
        with AInvalid (ascii "duplicate or root operational key");
      validate_key_list (ok_key_id key :: ids) (ok_public_key key :: public_keys) keys
  end.

(** [windows(2)]: some neighbours out of order. *)
Fixpoint unsorted (keys : list OnlineKey) : bool :=
  match keys with
  | a :: (b :: _) as rest => negb (bytes_ltb (ok_key_id a) (ok_key_id b)) || unsorted rest
  | _ => false
  end.

Definition validate_keys (keys : KeyManifest) (environment : Environment) (root : RootKey)
  : result unit ApprovalError :=
  reject negb (bool_decide (km_schema keys = KEY_MANIFEST_SCHEMA)) || negb (valid_revision (km_generation keys))
    with AInvalid (ascii "key manifest schema or generation");
  reject negb (bool_decide (km_environment keys = environment)) with AAuthority;
  let? _ := KeyManifest_expiry_unix_ms keys in
  reject unsorted (km_retired_keys keys) with AInvalid (ascii "retired keys must be sorted and unique");
  validate_key_list [rk_key_id root] [rk_public_key root] (km_active_key keys :: km_retired_keys keys).

Definition verify_signature (document : Value) (signature : StogasSignature) (key_id public_key : bytes)
  : result unit ApprovalError :=
  reject negb (bool_decide (ssg_key_id signature = key_id)) with AInactiveKey;
  let? _ := decode_key key_id public_key in
  let? payload := invalid (canonical_payload document) in
  reject negb (verify_stogas_signature public_key (STOGAS_SIGNATURE_DOMAIN ++ payload)
                 (ssg_signature signature)) with ASignature;
  Ok tt.

Definition verify_document_inclusion (document : Value) (signature : StogasSignature)
    (inclusion : Value) (trust : TrustedRoot) (now : Z) : result Z ApprovalError :=
  let? artifact := invalid (canonical_json
    (JObject [(ascii "document", document); (ascii "signature", StogasSignature_to_value signature)])) in
  ok_or (verify_rekor_document_inclusion trust (json_to_vec inclusion) artifact now) ATransparency.

(** Shared by reference: [vs_id] identifies the allocation, for [Arc::ptr_eq]. *)
Record VerifiedSigstore : Type := {
  vs_id : Z;
  vs_digest : bytes;
  vs_trusted_root : TrustedRoot;
  vs_root_version : Z;
  vs_targets_version : Z
}.

(** [VerifiedSigstore::check]; the caller allocates the result under the name [id]. *)
Definition VerifiedSigstore_check (id : Z) (files : SigstoreFiles)
    (verify : list bytes -> bytes -> bytes -> option (TrustedRoot * Z * Z))
  : result VerifiedSigstore ApprovalError :=
  let? roots := ok_or (mapM base64_decode (sf_roots files)) ASigstore in
  let? targets := ok_or (base64_decode (sf_targets files)) ASigstore in
  let? trusted_root := ok_or (base64_decode (sf_trusted_root files)) ASigstore in
  let? (trust, root_version, targets_version) := ok_or (verify roots targets trusted_root) ASigstore in
  let? digest := payload_sha256 (SigstoreFiles_to_value files) in
  Ok {| vs_id := id; vs_digest := digest; vs_trusted_root := trust; vs_root_version := root_version;
        vs_targets_version := targets_version |}.

Definition VerifiedSigstore_verify (id : Z) (files : SigstoreFiles) : result VerifiedSigstore ApprovalError :=
  VerifiedSigstore_check id files verify_trust_update.

Definition VerifiedSigstore_verify_current (id : Z) (files : SigstoreFiles) (snapshot timestamp : bytes) (now : Z)
  : result VerifiedSigstore ApprovalError :=
  VerifiedSigstore_check id files (fun roots targets trusted_root =>
    verify_current_trust_update roots targets trusted_root snapshot timestamp now).

Record VerifiedApprovals : Type := {
  va_authority : bytes;
  va_keys : KeyManifest;
  va_approvals : LoggedDocument ApprovalManifest;
  va_sigstore : VerifiedSigstore;
  va_keys_digest : bytes;
  va_approvals_digest : bytes;
  va_expires_unix_ms : Z
}.

Definition va_manifest (a : VerifiedApprovals) : ApprovalManifest := ld_document (va_approvals a).

Definition VerifiedApprovals_valid_until (a : VerifiedApprovals) (now : Z) : result Z ApprovalError :=
  if va_expires_unix_ms a <=? now then Err AExpired else Ok (va_expires_unix_ms a).

Definition accepts_provenance (a : VerifiedApprovals) (provenance : ReleaseProvenance) : bool :=
  match km_environment (va_keys a), provenance with
  | Production, Github => true
  | Staging, _ => true
  | Production, StagingProvenance => false
  end.

Definition verify_online_approval (authority : bytes) (keys : KeyManifest)
    (signed : LoggedDocument ApprovalManifest) (sigstore : VerifiedSigstore)
  : result VerifiedApprovals ApprovalError :=
  let approvals := ld_document signed in
  reject negb (bool_decide (am_schema approvals = APPROVAL_MANIFEST_SCHEMA))
      || negb (valid_revision (am_revision approvals))
    with AInvalid (ascii "approval schema or revision");
  reject negb (bool_decide (am_environment approvals = km_environment keys)) with AAuthority;
  let? keys_digest := payload_sha256 (KeyManifest_to_value keys) in
  reject negb (bool_decide (am_key_manifest_sha256 approvals = keys_digest))
    with AInvalid (ascii "key manifest digest mismatch");
  reject negb (bool_decide (am_sigstore_sha256 approvals = vs_digest sigstore))
    with AInvalid (ascii "Sigstore files digest mismatch");
  reject negb (increasing ((fun release => gm_sequence (ev_document release)) <$> am_gateways approvals))
      || negb (increasing ((fun release => cm_sequence (ev_document release)) <$> am_catalogs approvals))
    with AInvalid (ascii "approved releases must be ordered by unique sequence");
  let document := ApprovalManifest_to_value approvals in
  let? _ := verify_signature document (ld_signature signed) (ok_key_id (km_active_key keys))
              (ok_public_key (km_active_key keys)) in
  let? approvals_digest := payload_sha256 document in
  let? expires_unix_ms := KeyManifest_expiry_unix_ms keys in
  Ok {| va_authority := authority; va_keys := keys; va_approvals := signed; va_sigstore := sigstore;
        va_keys_digest := keys_digest; va_approvals_digest := approvals_digest;
        va_expires_unix_ms := expires_unix_ms |}.

Record ApprovalVerifier : Type := {
  av_environment : Environment;
  av_root : RootKey;
  av_authority : bytes;
  av_accepted : option VerifiedApprovals;
  av_key_state : KeyState
}.

Definition ApprovalVerifier_new (environment : Environment) (root : RootKey)
  : result ApprovalVerifier ApprovalError :=
  let? root_der := decode_key (rk_key_id root) (rk_public_key root) in
  Ok {| av_environment := environment; av_root := root; av_authority := sha256 root_der;
        av_accepted := None; av_key_state := None |}.

Definition historical_authority (v : ApprovalVerifier) : result ApprovalVerifier ApprovalError :=
  ApprovalVerifier_new (av_environment v) (av_root v).

Definition set_key_state (v : ApprovalVerifier) (state : KeyState) : ApprovalVerifier :=
  {| av_environment := av_environment v; av_root := av_root v; av_authority := av_authority v;
     av_accepted := av_accepted v; av_key_state := state |}.

Definition ApprovalVerifier_verify_keys (v : ApprovalVerifier) (b : bytes) (trust : TrustedRoot) (now : Z) : result VerifiedKeys ApprovalError :=
  reject MAX_INPUT_BYTES <? zlen b with ATooLarge;
  let? value := invalid (strict_json b) in
  let? keys := invalid (SignedKeyManifest_from_value value) in
  let? _ := validate_keys (ld_document keys) (av_environment v) (av_root v) in
  let document := KeyManifest_to_value (ld_document keys) in
  let? _ := verify_signature document (ld_signature keys) (rk_key_id (av_root v)) (rk_public_key (av_root v)) in
  let? published := verify_document_inclusion document (ld_signature keys) (ld_inclusion keys) trust now in
  let? published := ok_or (checked_mul_1000 published) (AInvalid (ascii "log time overflow")) in
  let? expiry := KeyManifest_expiry_unix_ms (ld_document keys) in
  reject expiry <=? published with AInvalid (ascii "key authorization expired before publication");
  let? digest := payload_sha256 document in
  Ok {| vk_document := ld_document keys; vk_digest := digest |}.

Definition observe_keys (v : ApprovalVerifier) (b : bytes) (trust : TrustedRoot) (now : Z)
  : ApprovalVerifier * result VerifiedKeys ApprovalError :=
  match ApprovalVerifier_verify_keys v b trust now with
  | Err e => (v, Err e)
  | Ok keys =>
      let (state, r) := KeyState_learn (av_key_state v) keys in
      (set_key_state v state, let? _ := r in Ok keys)
  end.

Definition verify_key_manifest (v : ApprovalVerifier) (b : bytes) (trust : TrustedRoot)
    (now : Z) : ApprovalVerifier * result KeyManifest ApprovalError :=
  let (v, r) := observe_keys v b trust now in
  (v, let? keys := r in
      let? expiry := KeyManifest_expiry_unix_ms (vk_document keys) in
      reject expiry <=? now with AExpired;
      Ok (vk_document keys)).

Definition check_update (v : ApprovalVerifier) (candidate : VerifiedApprovals) : result unit ApprovalError :=
  reject negb (bool_decide (va_authority candidate = av_authority v))
      || negb (bool_decide (km_environment (va_keys candidate) = av_environment v)) with AAuthority;
  let? _ := KeyState_check (av_key_state v) (va_keys candidate) (va_keys_digest candidate) in
  match av_accepted v with
  | None => Ok tt
  | Some previous =>
      let generation := km_generation (va_keys candidate) in
      reject generation <? km_generation (va_keys previous) with ARollback;
      if generation =? km_generation (va_keys previous) then
        reject negb (bool_decide (va_keys_digest candidate = va_keys_digest previous)) with AEquivocation;
        reject am_revision (va_manifest candidate) <? am_revision (va_manifest previous) with ARollback;
        reject (am_revision (va_manifest candidate) =? am_revision (va_manifest previous))
            && negb (bool_decide (va_approvals_digest candidate = va_approvals_digest previous))
          with AEquivocation;
        let hardware := am_hardware_policy (va_manifest candidate) in
        let accepted := am_hardware_policy (va_manifest previous) in
        reject hw_version hardware <? hw_version accepted with ARollback;
        if hw_version hardware =? hw_version accepted then
          let? a := payload_sha256 (HardwarePolicy_to_value hardware) in
          let? b := payload_sha256 (HardwarePolicy_to_value accepted) in
          reject negb (bool_decide (a = b)) with AEquivocation;
          Ok tt
        else Ok tt
      else Ok tt
  end.

Definition verify_with_keys (v : ApprovalVerifier) (keys : VerifiedKeys)
    (approvals : LoggedDocument ApprovalManifest) (sigstore : VerifiedSigstore) (now : Z)
  : result VerifiedApprovals ApprovalError :=
  let? _ := verify_document_inclusion (ApprovalManifest_to_value (ld_document approvals))
              (ld_signature approvals) (ld_inclusion approvals) (vs_trusted_root sigstore) now in
  let? candidate := verify_online_approval (av_authority v) (vk_document keys) approvals sigstore in
  let? _ := VerifiedApprovals_valid_until candidate now in
  let? _ := check_update v candidate in
  Ok candidate.

Definition accept (v : ApprovalVerifier) (candidate : VerifiedApprovals)
  : ApprovalVerifier * result unit ApprovalError :=
  match check_update v candidate with
  | Err e => (v, Err e)
  | Ok _ =>
      let (state, r) := KeyState_learn (av_key_state v)
        {| vk_document := va_keys candidate; vk_digest := va_keys_digest candidate |} in
      match r with
      | Err e => (set_key_state v state, Err e)
      | Ok _ =>
          ({| av_environment := av_environment v; av_root := av_root v; av_authority := av_authority v;
              av_accepted := Some candidate; av_key_state := state |}, Ok tt)
      end
  end.

End Approvals.
