(* ===== verification/ApprovalsTheory.v ===== *)
(** Root and approval decisions: the learned key state is determined by the manifests
    seen, decisions never roll back, and an accepted approval is authentic. *)

From S2P Require Import Prelude Primitives BTree Json Signing Attestation Documents Approvals.

Open Scope Z_scope.

Definition generation (k : VerifiedKeys) : Z := km_generation (vk_document k).

(** ** The key state *)

(** Every authenticated manifest in the order it arrived. *)
Definition learn_all (l : list VerifiedKeys) : KeyState :=
  fold_left (fun state keys => (KeyState_learn state keys).1) l None.

(** What the manifests determine: the digest of the first manifest of the highest
    generation, carried by one of the manifests, and whether another manifest of that
    generation has a different digest. *)
Definition key_spec (l : list VerifiedKeys) (state : KeyState) : Prop :=
  match state with
  | None => l = []
  | Some s => exists before first after,
      l = before ++ first :: after /\
      le_keys s ∈ first :: after /\
      generation (le_keys s) = generation first /\ vk_digest (le_keys s) = vk_digest first /\
      Forall (fun k => generation k < generation first) before /\
      Forall (fun k => generation k <= generation first) after /\
      (le_conflicting s = true <->
       Exists (fun k => generation k = generation first /\ vk_digest k <> vk_digest first) after)
  end.

Lemma learn_spec l state k : key_spec l state -> key_spec (l ++ [k]) (KeyState_learn state k).1.
Proof.
  destruct state as [[keys conflicting]|]; simpl.
  2: { intros ->. exists [], k, []. split_and!; try done; [set_solver|]. split; [done|]. by inversion 1. }
  intros (before & first & after & -> & Hin & Hg & Hd & Hb & Ha & Hc).
  fold (generation k). fold (generation keys).
  assert (forall keys' c, keys' = keys \/ (keys' = k /\ generation k = generation keys /\ vk_digest k = vk_digest keys) ->
    generation k <= generation first ->
    (c = true <-> conflicting = true \/ (generation k = generation first /\ vk_digest k <> vk_digest first)) ->
    key_spec ((before ++ first :: after) ++ [k]) (Some {| le_keys := keys'; le_conflicting := c |})) as Hkeep.
  { intros keys' c Hk' Hle Hcc. exists before, first, (after ++ [k]). rewrite <- app_assoc. cbn [le_keys le_conflicting].
    split_and!; try done.
    - destruct Hk' as [->|(-> & _)]; set_solver.
    - destruct Hk' as [->|(-> & ? & _)]; congruence.
    - destruct Hk' as [->|(-> & _ & ?)]; congruence.
    - apply Forall_app. split; [done|]. by constructor.
    - rewrite Exists_app, Exists_cons, Exists_nil, Hcc, Hc. tauto. }
  unfold check_learned. cbn [le_keys le_conflicting]. fold (generation k). fold (generation keys).
  rewrite Hg, Hd in *. destruct (generation k =? generation first) eqn:Eg; simpl; zbool.
  - rewrite Eg, Z.ltb_irrefl. destruct (bool_decide (vk_digest k = vk_digest first)) eqn:Ed; zbool; simpl.
    + destruct conflicting; simpl; apply Hkeep; auto; try lia; tauto.
    + apply Hkeep; [auto|lia|]. tauto.
  - destruct (generation k <? generation first) eqn:El; zbool; simpl.
    + apply Hkeep; [auto|lia|]. split; [auto|]. intros [?|[? _]]; [done|lia].
    + exists (before ++ first :: after), k, []. cbn [le_keys le_conflicting]. split_and!; try done; [set_solver| |].
      * apply Forall_app. split; [eapply Forall_impl; [done|]; simpl; intros; lia|].
        constructor; [lia|]. eapply Forall_impl; [done|]. simpl. intros; lia.
      * by rewrite Exists_nil.
Qed.

(** The key state is determined by the root-signed manifests seen so far, in any order
    and number: it holds the digest first seen of the highest generation, and reports a
    conflict exactly when that generation was also seen with another digest. A snapshot
    signed under older keys stays usable only without a conflict, under the same signer
    and until no later than the current expiry. *)
Theorem key_state_determined l keys :
  key_spec l (learn_all l) /\
  (KeyState_require_current (learn_all l) keys = Ok tt ->
   exists s, learn_all l = Some s /\ le_conflicting s = false /\ km_generation keys <= generation (le_keys s) /\
     (km_generation keys < generation (le_keys s) ->
      OnlineKey_same_signer (km_active_key keys) (km_active_key (vk_document (le_keys s))) = true /\
      bytes_ltb (km_expires_at (vk_document (le_keys s))) (km_expires_at keys) = false)).
Proof.
  split.
  - induction l as [|k l IH] using rev_ind; [done|]. unfold learn_all. rewrite fold_left_app. by apply learn_spec.
  - unfold KeyState_require_current. destruct (learn_all l) as [s|]; [|done]. simpl ok_or. cbn match.
    destruct (le_conflicting s) eqn:Hc; [done|]. fold (generation (le_keys s)).
    destruct (km_generation keys =? generation (le_keys s)) eqn:Eg; simpl; zbool.
    + intros _. exists s. split_and!; try done; lia.
    + destruct (_ || _) eqn:Eo; [done|]. zbool. intros _. exists s. split_and!; try done; lia.
Qed.

(** ** Decisions *)

Section Decisions.
Context `{Json} `{Base64} `{Signatures} `{Hash} `{Encodings} `{Sigstore}.

(** A later decision of the same authority: a newer key generation, or the same keys with
    revision and hardware policy version not lower, each version naming one document. *)
Definition supersedes (a b : VerifiedApprovals) : Prop :=
  km_generation (va_keys a) < km_generation (va_keys b) \/
  km_generation (va_keys a) = km_generation (va_keys b) /\ va_keys_digest a = va_keys_digest b /\
  am_revision (va_manifest a) <= am_revision (va_manifest b) /\
  (am_revision (va_manifest a) = am_revision (va_manifest b) -> va_approvals_digest a = va_approvals_digest b) /\
  hw_version (am_hardware_policy (va_manifest a)) <= hw_version (am_hardware_policy (va_manifest b)) /\
  (hw_version (am_hardware_policy (va_manifest a)) = hw_version (am_hardware_policy (va_manifest b)) ->
   payload_sha256 (HardwarePolicy_to_value (am_hardware_policy (va_manifest a))) =
   payload_sha256 (HardwarePolicy_to_value (am_hardware_policy (va_manifest b)))).

#[export] Instance supersedes_preorder : PreOrder supersedes.
Proof.
  split.
  - intros a. right. split_and!; try done; lia.
  - intros a b c [Hab|(G1 & D1 & R1 & A1 & V1 & P1)] [Hbc|(G2 & D2 & R2 & A2 & V2 & P2)]; [left; lia..|].
    right. split_and!; try lia; [congruence| |].
    + intros E. rewrite A1, A2 by lia. done.
    + intros E. rewrite P1, P2 by lia. done.
Qed.

(** Optional decisions and key states. *)
Definition decision_le (a b : option VerifiedApprovals) : Prop :=
  match a, b with
  | None, _ => True
  | Some a, Some b => supersedes a b
  | Some _, None => False
  end.

Definition learned_le (a b : KeyState) : Prop :=
  match a, b with
  | None, _ => True
  | Some a, Some b =>
      generation (le_keys a) < generation (le_keys b) \/
      generation (le_keys a) = generation (le_keys b) /\ vk_digest (le_keys a) = vk_digest (le_keys b) /\
      (le_conflicting a = true -> le_conflicting b = true)
  | Some _, None => False
  end.

#[export] Instance decision_le_preorder : PreOrder decision_le.
Proof.
  split; [by intros [a|]; simpl|]. intros [a|] [b|] [c|]; simpl; try done. by transitivity b.
Qed.

#[export] Instance learned_le_preorder : PreOrder learned_le.
Proof.
  split; [intros [a|]; simpl; auto|]. intros [a|] [b|] [c|]; simpl; try done.
  intros [?|(? & ? & ?)] [?|(? & ? & ?)]; [left; lia..|]. right. split_and!; [congruence..|auto].
Qed.

Lemma learn_le state k : learned_le state (KeyState_learn state k).1.
Proof.
  destruct state as [[keys c]|]; [|done]. simpl. unfold check_learned. cbn [le_keys le_conflicting].
  fold (generation k). fold (generation keys).
  destruct (generation k =? generation keys) eqn:Eg; simpl; zbool.
  - rewrite Eg, Z.ltb_irrefl. destruct (bool_decide _) eqn:Ed; zbool; simpl; [|right; done].
    destruct c; simpl; right; split_and!; done || congruence.
  - destruct (_ <? _) eqn:El; zbool; simpl; [right; done|left; lia].
Qed.

(** What the verifier does over its life. *)
Inductive ApprovalEvent : Type :=
| ObserveKeys (b : bytes) (trust : TrustedRoot) (now : Z)
| AcceptCandidate (candidate : VerifiedApprovals).

Definition approval_step (v : ApprovalVerifier) (e : ApprovalEvent) : ApprovalVerifier :=
  match e with
  | ObserveKeys b trust now => (observe_keys v b trust now).1
  | AcceptCandidate candidate => (accept v candidate).1
  end.

Lemma check_update_supersedes v candidate :
  check_update v candidate = Ok tt -> decision_le (av_accepted v) (Some candidate).
Proof.
  unfold check_update. destruct (_ || _); [done|]. destruct (KeyState_check _ _ _) as [[]|]; [|done].
  destruct (av_accepted v) as [a|]; [|done]. simpl. unfold supersedes.
  destruct (_ <? _) eqn:E1; [done|]. destruct (_ =? _) eqn:E2; zbool; [|left; lia].
  destruct (negb _) eqn:E3; [done|]. destruct (_ <? _) eqn:E4; [done|]. zbool.
  destruct (_ && _) eqn:E5; [done|]. destruct (_ <? _) eqn:E6; [done|]. zbool. intros Hh. right. split_and!; try done; try lia.
  - intros E. rewrite E, Z.eqb_refl in E5. simpl in E5. by zbool.
  - intros E. rewrite E, Z.eqb_refl in Hh.
    destruct (payload_sha256 (HardwarePolicy_to_value (am_hardware_policy (va_manifest candidate)))) as [x|]; [|done].
    destruct (payload_sha256 (HardwarePolicy_to_value (am_hardware_policy (va_manifest a)))) as [y|]; [|done].
    destruct (bool_decide _) eqn:E7 in Hh; [|done]. zbool. by subst.
Qed.

Lemma approval_step_le v e :
  decision_le (av_accepted v) (av_accepted (approval_step v e)) /\
  learned_le (av_key_state v) (av_key_state (approval_step v e)).
Proof.
  destruct e as [b trust now|candidate]; simpl.
  - unfold observe_keys. destruct (ApprovalVerifier_verify_keys _ _ _ _) as [k|]; [|done].
    pose proof (learn_le (av_key_state v) k). destruct (KeyState_learn _ _) as [state r]. done.
  - unfold accept. destruct (check_update v candidate) as [[]|] eqn:Hc; [|done].
    pose proof (learn_le (av_key_state v) {| vk_document := va_keys candidate; vk_digest := va_keys_digest candidate |}) as Hl.
    apply check_update_supersedes in Hc. destruct (KeyState_learn _ _) as [state [[]|]]; done.
Qed.

(** C8. Decisions never roll back: whatever key manifests are observed and candidates are
    offered, in whatever order, the accepted decision only moves to newer key generations,
    or within a generation to revisions and hardware policy versions that are not lower
    and that always name one document; the learned keys likewise, and a conflict seen for
    a generation is never forgotten while that generation is current. *)
Theorem decisions_never_roll_back v events :
  decision_le (av_accepted v) (av_accepted (fold_left approval_step events v)) /\
  learned_le (av_key_state v) (av_key_state (fold_left approval_step events v)).
Proof.
  induction events as [|e events IH] in v |- *; simpl; [done|].
  destruct (approval_step_le v e) as [? ?], (IH (approval_step v e)) as [? ?].
  split; etransitivity; done.
Qed.

(** ** Authenticity *)

Lemma increasing_sorted previous l :
  increasing_from previous l = true -> StronglySorted Z.lt (previous :: l).
Proof.
  revert previous. induction l as [|x l IH]; intros previous; simpl; [by repeat constructor|].
  rewrite andb_true_iff, Z.ltb_lt. intros [Hx Hl]. apply IH in Hl as Hs. constructor; [done|].
  constructor; [done|]. apply StronglySorted_inv in Hs as [_ Hs].
  eapply Forall_impl; [done|]. simpl. intros; lia.
Qed.

Lemma verify_signature_ok document signature key_id public_key :
  verify_signature document signature key_id public_key = Ok tt ->
  ssg_key_id signature = key_id /\ exists payload, json_canonical document = Some payload /\
  verify_stogas_signature public_key (STOGAS_SIGNATURE_DOMAIN ++ payload) (ssg_signature signature) = true.
Proof.
  unfold verify_signature. destruct (bool_decide _) eqn:Ek; [|done]. simpl. zbool.
  destruct (decode_key _ _); [|done]. rewrite canonical_payload_eq.
  destruct (json_canonical document) as [payload|] eqn:Hc; [|done]. simpl.
  destruct (verify_stogas_signature _ _ _) eqn:Hv; [|done]. intros _. split; [done|]. eauto.
Qed.

(** A candidate decision is authentic, current and unambiguous: the keys' active key
    signed its canonical text, a trusted log included that text with the signature, it
    names these very keys and Sigstore files and this environment, the root authorization
    has not expired, it is not behind any learned decision, and its releases have unique
    increasing sequences. *)
Theorem candidate_authentic v keys approvals sigstore now c :
  verify_with_keys v keys approvals sigstore now = Ok c ->
  let m := ld_document approvals in
  let k := vk_document keys in
  va_keys c = k /\ va_approvals c = approvals /\ va_authority c = av_authority v /\
  (exists payload, json_canonical (ApprovalManifest_to_value m) = Some payload /\
    ssg_key_id (ld_signature approvals) = ok_key_id (km_active_key k) /\
    verify_stogas_signature (ok_public_key (km_active_key k)) (STOGAS_SIGNATURE_DOMAIN ++ payload)
      (ssg_signature (ld_signature approvals)) = true /\
    va_approvals_digest c = hex_encode (sha256 payload)) /\
  (exists time, verify_document_inclusion (ApprovalManifest_to_value m) (ld_signature approvals)
    (ld_inclusion approvals) (vs_trusted_root sigstore) now = Ok time) /\
  (exists text, json_canonical (KeyManifest_to_value k) = Some text /\
    am_key_manifest_sha256 m = hex_encode (sha256 text)) /\
  am_sigstore_sha256 m = vs_digest sigstore /\
  am_environment m = av_environment v /\ km_environment k = av_environment v /\
  (exists expiry, KeyManifest_expiry_unix_ms k = Ok expiry /\ now < expiry) /\
  decision_le (av_accepted v) (Some c) /\
  StronglySorted Z.lt (0 :: ((fun r => gm_sequence (ev_document r)) <$> am_gateways m)) /\
  StronglySorted Z.lt (0 :: ((fun r => cm_sequence (ev_document r)) <$> am_catalogs m)).
Proof.
  unfold verify_with_keys. destruct (verify_document_inclusion _ _ _ _ _) as [time|] eqn:Hi; [|done].
  destruct (verify_online_approval _ _ _ _) as [c'|] eqn:Ho; [|done].
  destruct (VerifiedApprovals_valid_until c' now) as [u|] eqn:Hu; [|done].
  destruct (check_update v c') as [[]|] eqn:Hc; [|done]. intros [= ->].
  unfold verify_online_approval in Ho. destruct (_ || _) eqn:E1 in Ho; [done|].
  destruct (bool_decide (am_environment _ = _)) eqn:E2; [|done]. simpl in Ho. unfold payload_sha256 in Ho.
  rewrite !canonical_payload_eq in Ho.
  destruct (json_canonical (KeyManifest_to_value _)) as [text|] eqn:Ht; [|done]. simpl in Ho.
  destruct (bool_decide (am_key_manifest_sha256 _ = _)) eqn:E3; [|done]. simpl in Ho.
  destruct (bool_decide (am_sigstore_sha256 _ = _)) eqn:E4; [|done]. simpl in Ho.
  destruct (_ || _) eqn:E5 in Ho; [done|]. destruct (verify_signature _ _ _ _) as [[]|] eqn:Hs; [|done].
  destruct (verify_signature_ok _ _ _ _ Hs) as (Hid & payload & Hp & Hv). rewrite Hp in Ho. simpl in Ho.
  destruct (KeyManifest_expiry_unix_ms _) as [expiry|] eqn:He; [|done]. injection Ho as <-. zbool.
  unfold VerifiedApprovals_valid_until in Hu. simpl in Hu. destruct (_ <=? _) eqn:Ex in Hu; [done|]. zbool.
  pose proof (check_update_supersedes _ _ Hc) as Hsup.
  unfold check_update in Hc. destruct (_ || _) eqn:E6 in Hc; [done|]. zbool. simpl in *.
  split_and!; try done; try congruence; eauto 10 using increasing_sorted.
Qed.

End Decisions.
