(* ===== verification/Snp.v ===== *)
(** SNP reports: the product rules, launch policies, report checks and hardware policies
    of [lib.rs] and the hardware facts of [evidence/snp.rs]. Errors carry the literal part
    of their text. *)

From S2P Require Import Prelude Primitives BTree Json Signing Attestation Documents Approvals.

Open Scope Z_scope.

Inductive SnpError : Type :=
| Node (reason : bytes) | InvalidBundle (reason : bytes) | ReleaseError (reason : bytes).

#[export] Instance SnpError_eq_dec : EqDecision SnpError.
Proof. solve_decision. Defined.

(** ** Constants *)

Definition MAX_NODES : Z := 1024.
Definition SNP_POLICY_PAGE_SWAP_DISABLE : Z := Z.shiftl 1 25.
Definition SNP_POLICY_MEM_AES_256_XTS : Z := Z.shiftl 1 22.
Definition SNP_POLICY_CXL_ALLOW : Z := Z.shiftl 1 21.
Definition SNP_POLICY_SINGLE_SOCKET : Z := Z.shiftl 1 20.
Definition SNP_POLICY_DEBUG : Z := Z.shiftl 1 19.
Definition SNP_POLICY_MIGRATE_MA : Z := Z.shiftl 1 18.
Definition SNP_POLICY_RESERVED_MUST_BE_ONE : Z := Z.shiftl 1 17.
Definition SNP_POLICY_COMMON_REQUIRED : Z :=
  Z.lor (Z.lor SNP_POLICY_PAGE_SWAP_DISABLE SNP_POLICY_SINGLE_SOCKET) SNP_POLICY_RESERVED_MUST_BE_ONE.
Definition SNP_POLICY_COMMON_FORBIDDEN : Z :=
  Z.lor (Z.lor SNP_POLICY_CXL_ALLOW SNP_POLICY_DEBUG) SNP_POLICY_MIGRATE_MA.
Definition SNP_PLATFORM_INFO_KNOWN_MASK : Z := 191.

(** ** Products *)

Inductive AmdTcbLayout : Type := Family19h | Family1ah.

#[export] Instance AmdTcbLayout_eq_dec : EqDecision AmdTcbLayout.
Proof. solve_decision. Defined.

Record AmdProductProfile : Type := {
  pp_product_name : bytes;
  pp_root_spki_sha384 : bytes;
  pp_struct_version : Z;
  pp_tcb_layout : AmdTcbLayout;
  pp_minimum_policy_abi : Z * Z;
  pp_required_policy_bits : Z
}.

#[export] Instance AmdProductProfile_eq_dec : EqDecision AmdProductProfile.
Proof. solve_decision. Defined.

Definition AMD_PRODUCT_PROFILES : list AmdProductProfile := [
  {| pp_product_name := ascii "Milan";
     pp_root_spki_sha384 := ascii "1249f67f15cf229a4069195e1a9ce537d1765ef706a1f4a123c36be9518786515d25ecc007f366b564d2b3f31c48082e";
     pp_struct_version := 0; pp_tcb_layout := Family19h; pp_minimum_policy_abi := (1, 58);
     pp_required_policy_bits := 0 |};
  {| pp_product_name := ascii "Genoa";
     pp_root_spki_sha384 := ascii "32ab53a6ce5ec14926207396e5c475ae768a6a9831b7e860b5acf2e1c1dff222bc5a8bfc43eb5e06393189c1f246d880";
     pp_struct_version := 0; pp_tcb_layout := Family19h; pp_minimum_policy_abi := (1, 58);
     pp_required_policy_bits := SNP_POLICY_MEM_AES_256_XTS |};
  {| pp_product_name := ascii "Siena";
     pp_root_spki_sha384 := ascii "32ab53a6ce5ec14926207396e5c475ae768a6a9831b7e860b5acf2e1c1dff222bc5a8bfc43eb5e06393189c1f246d880";
     pp_struct_version := 0; pp_tcb_layout := Family19h; pp_minimum_policy_abi := (1, 58);
     pp_required_policy_bits := SNP_POLICY_MEM_AES_256_XTS |};
  {| pp_product_name := ascii "Turin";
     pp_root_spki_sha384 := ascii "3475f08a9727f8ac9a1deaea5f2a2097aa59d64d05c2a678c229c873e6359d3a6926287a2a22cd5f88a385e333a2fcc5";
     pp_struct_version := 1; pp_tcb_layout := Family1ah; pp_minimum_policy_abi := (1, 58);
     pp_required_policy_bits := SNP_POLICY_MEM_AES_256_XTS |}].

Definition find_product (name : bytes) : option AmdProductProfile :=
  List.find (fun profile => bool_decide (pp_product_name profile = name)) AMD_PRODUCT_PROFILES.

(** Lexicographic order on a pair of bytes. *)
Definition pair_ltb (a b : Z * Z) : bool := (a.1 <? b.1) || ((a.1 =? b.1) && (a.2 <? b.2)).

Definition validate_snp_launch_policy (policy : Z) (product : AmdProductProfile) : result unit SnpError :=
  reject negb (Z.shiftr policy 26 =? 0)
    with Node (ascii "authorized SNP launch policy sets reserved high bits");
  let required := Z.lor SNP_POLICY_COMMON_REQUIRED (pp_required_policy_bits product) in
  reject negb (Z.land policy required =? required)
    with Node (ascii "authorized SNP launch policy lacks required protections");
  reject negb (Z.land policy SNP_POLICY_COMMON_FORBIDDEN =? 0)
    with Node (ascii "authorized SNP launch policy permits CXL, debugging, or migration");
  let policy_abi := (Z.land (Z.shiftr policy 8) 255, Z.land policy 255) in
  reject pair_ltb policy_abi (pp_minimum_policy_abi product)
    with Node (ascii "authorized SNP launch policy ABI is older than required");
  Ok tt.

Definition amd_product_from_cpuid (family model : Z) : option AmdProductProfile :=
  let extended_model := Z.shiftr model 4 in
  if (family =? 25) && (extended_model =? 0) then find_product (ascii "Milan")
  else if (family =? 25) && (extended_model =? 1) then find_product (ascii "Genoa")
  else if (family =? 25) && (extended_model =? 10) then find_product (ascii "Siena")
  else if (family =? 26) && ((extended_model =? 0) || (extended_model =? 1)) then find_product (ascii "Turin")
  else None.

(** ** Raw fields *)

(** A report byte; the reports of every caller have 1184 bytes. *)
Definition byte_at (report : bytes) (offset : Z) : Z :=
  byte_to_Z (nth (Z.to_nat offset) report x00).

(** [u32::from_le_bytes] and [u64::from_le_bytes] of a field. *)
Definition le_value (l : bytes) : Z := be_value (rev l).
Definition u32_at (report : bytes) (offset : Z) : Z := le_value (slice report offset (offset + 4)).
Definition u64_at (report : bytes) (offset : Z) : Z := le_value (slice report offset (offset + 8)).

Definition all_zero (l : bytes) : bool := forallb (fun b => bool_decide (b = x00)) l.

Definition inspect_report_product (report : bytes) (report_version : Z)
  : result (option Z * option Z * option Z * option AmdProductProfile) SnpError :=
  if report_version =? 2 then
    reject all_zero (slice report 424 480) && negb (all_zero (slice report 416 424))
      with Node (ascii "Family 1Ah-shaped CHIP_ID requires a report with CPUID fields");
    Ok (None, None, None, None)
  else
    let family := byte_at report 392 in
    let model := byte_at report 393 in
    let stepping := byte_at report 394 in
    let? product := ok_or (amd_product_from_cpuid family model)
      (Node (ascii "unsupported AMD processor family or model")) in
    reject bool_decide (pp_tcb_layout product = Family1ah) && (report_version <? 5)
      with Node (ascii "Family 1Ah requires SNP attestation report version 5 or newer");
    Ok (Some family, Some model, Some stepping, Some product).

Definition SNP_REPORT_BYTES : Z := 1184.

Definition inspect_snp_report (report : bytes) : result InspectedSnpQuote SnpError :=
  reject negb (zlen report =? SNP_REPORT_BYTES) with Node (ascii "SNP report has the wrong size");
  let report_version := u32_at report 0 in
  reject (report_version <? 2) || (5 <? report_version) with Node (ascii "unsupported SNP report version");
  let? (family, model, stepping, product) := inspect_report_product report report_version in
  Ok {| iq_chip_id := hex_encode (slice report 416 480);
        iq_cpuid_family := family;
        iq_cpuid_model := model;
        iq_cpuid_stepping := stepping;
        iq_product_name := pp_product_name <$> product;
        iq_release_measurement := hex_encode (slice report 144 192);
        iq_report_version := report_version;
        iq_reported_tcb := hex_encode (slice report 384 392) |}.

(** ** Hexadecimal text *)

Definition lower_hex_digit (b : byte) : bool :=
  let z := byte_to_Z b in ((48 <=? z) && (z <=? 57)) || ((97 <=? z) && (z <=? 102)).

Definition is_lower_hex (value : bytes) (n : Z) : bool :=
  (zlen value =? n * 2) && forallb lower_hex_digit value.

(** [strip_prefix("0x")]. *)
Definition strip_0x (value : bytes) : option bytes :=
  match value with
  | a :: b :: rest => if bool_decide (a = x30) && bool_decide (b = x78) then Some rest else None
  | _ => None
  end.

Definition is_prefixed_lower_hex (value : bytes) (n : Z) : bool :=
  match strip_0x value with Some hex => is_lower_hex hex n | None => false end.

(** The value of one digit of either case. *)
Definition hex_digit_value (b : byte) : option Z :=
  let z := byte_to_Z b in
  if (48 <=? z) && (z <=? 57) then Some (z - 48)
  else if (97 <=? z) && (z <=? 102) then Some (z - 87)
  else if (65 <=? z) && (z <=? 70) then Some (z - 55)
  else None.

Fixpoint radix16 (acc : Z) (l : bytes) : option Z :=
  match l with
  | [] => Some acc
  | b :: l => match hex_digit_value b with Some d => radix16 (acc * 16 + d) l | None => None end
  end.

(** [u64::from_str_radix(value, 16)], with its optional plus sign. *)
Definition from_str_radix16 (value : bytes) : option Z :=
  let digits :=
    match value with
    | sign :: (_ :: _) as rest => if bool_decide (sign = x2b) then rest else value
    | _ => value
    end in
  match digits with
  | [] => None
  | _ => match radix16 0 digits with
         | Some v => if v <=? u64_max then Some v else None
         | None => None
         end
  end.

Definition parse_u64_hex (value : bytes) : result Z SnpError :=
  match strip_0x value with
  | None => Err (InvalidBundle (ascii "hardware policy mask is invalid"))
  | Some hex =>
      reject negb (is_lower_hex hex 8) with InvalidBundle (ascii "hardware policy mask is invalid");
      ok_or (from_str_radix16 hex) (InvalidBundle (ascii "hardware policy mask is invalid"))
  end.

(** [hex::decode]. *)
Fixpoint hex_decode (l : bytes) : option bytes :=
  match l with
  | [] => Some []
  | [_] => None
  | a :: b :: rest =>
      match hex_digit_value a, hex_digit_value b, hex_decode rest with
      | Some x, Some y, Some tail => Some (byte_of_Z (x * 16 + y) :: tail)
      | _, _, _ => None
      end
  end.

(** The local helper [bytes::<N>] of [check_raw_report_bindings]. *)
Definition hex_bytes (n : Z) (value : bytes) : result bytes SnpError :=
  let? decoded := ok_or (hex_decode value) (Node (ascii "invalid")) in
  reject negb (zlen decoded =? n) with Node (ascii "invalid length");
  Ok decoded.

(** [trim_start_matches("0x")]. *)
Fixpoint trim_0x (fuel : nat) (value : bytes) : bytes :=
  match fuel with
  | O => value
  | S fuel => match strip_0x value with Some rest => trim_0x fuel rest | None => value end
  end.

(** [to_ascii_lowercase], for [eq_ignore_ascii_case]. *)
Definition ascii_lower (b : byte) : byte :=
  let z := byte_to_Z b in if (65 <=? z) && (z <=? 90) then byte_of_Z (z + 32) else b.
Definition eq_ignore_ascii_case (a b : bytes) : bool :=
  bool_decide (ascii_lower <$> a = ascii_lower <$> b).

(** ** evidence/snp.rs *)

Record SnpHardwareFacts : Type := {
  hf_report_version : Z;
  hf_cpuid : list Z;
  hf_current_tcb : AmdTcb;
  hf_reported_tcb : AmdTcb;
  hf_committed_tcb : AmdTcb;
  hf_launch_tcb : AmdTcb;
  hf_current_version : list Z;
  hf_committed_version : list Z;
  hf_platform_info : Z;
  hf_launch_mitigations : Z;
  hf_current_mitigations : Z
}.

Definition family19h_tcb (l : bytes) : AmdTcb :=
  {| tcb_bootloader := byte_at l 0; tcb_tee := byte_at l 1; tcb_snp := byte_at l 6;
     tcb_microcode := byte_at l 7 |}.

Definition tcb_at_least (actual minimum : AmdTcb) : bool :=
  (tcb_bootloader minimum <=? tcb_bootloader actual) && (tcb_tee minimum <=? tcb_tee actual)
  && (tcb_snp minimum <=? tcb_snp actual) && (tcb_microcode minimum <=? tcb_microcode actual).

Definition SnpHardwareFacts_from_report (report : bytes) : SnpHardwareFacts := {|
  hf_report_version := u32_at report 0;
  hf_cpuid := [byte_at report 392; byte_at report 393; byte_at report 394];
  hf_current_tcb := family19h_tcb (slice report 56 64);
  hf_reported_tcb := family19h_tcb (slice report 384 392);
  hf_committed_tcb := family19h_tcb (slice report 480 488);
  hf_launch_tcb := family19h_tcb (slice report 496 504);
  hf_current_version := [byte_at report 490; byte_at report 489; byte_at report 488];
  hf_committed_version := [byte_at report 494; byte_at report 493; byte_at report 492];
  hf_platform_info := u64_at report 64;
  hf_launch_mitigations := u64_at report 504;
  hf_current_mitigations := u64_at report 512 |}.

(** The text [reported_tcb] of retained facts. *)
Definition SnpHardwareFacts_reported_tcb (f : SnpHardwareFacts) : bytes :=
  let t := hf_reported_tcb f in
  hex_encode [byte_of_Z (tcb_bootloader t); byte_of_Z (tcb_tee t); x00; x00; x00; x00;
              byte_of_Z (tcb_snp t); byte_of_Z (tcb_microcode t)].

(** Lexicographic order of arrays of one length. *)
Fixpoint list_ltb (a b : list Z) : bool :=
  match a, b with
  | x :: a, y :: b => (x <? y) || ((x =? y) && list_ltb a b)
  | [], _ :: _ => true
  | _, [] => false
  end.

(** The loop over the four TCB fields. *)
Fixpoint check_tcbs (fields : list AmdTcb) (minimum : AmdTcb) : result unit SnpError :=
  match fields with
  | [] => Ok tt
  | actual :: fields =>
      reject negb (tcb_at_least actual minimum) with Node (ascii "SNP TCB is below hardware policy");
      check_tcbs fields minimum
  end.

Definition check_mitigations (actual : Z) (required : bytes) (reason : bytes) : result unit SnpError :=
  let? required := parse_u64_hex required in
  reject negb (Z.land actual required =? required) with Node reason;
  Ok tt.

Definition SnpHardwareFacts_appraise (f : SnpHardwareFacts) (profile : AmdSevSnpPolicy)
  : result unit SnpError :=
  reject negb (hf_report_version f =? 5) with Node (ascii "SNP report version is below hardware policy");
  reject negb (bool_decide (hf_cpuid f =
      [ap_cpuid_family profile; ap_cpuid_model profile; ap_cpuid_stepping profile]))
    with Node (ascii "CPUID differs from hardware policy");
  let? _ := check_tcbs [hf_current_tcb f; hf_reported_tcb f; hf_committed_tcb f; hf_launch_tcb f]
              (ap_minimum_tcb profile) in
  reject negb (tcb_at_least (hf_committed_tcb f) (hf_reported_tcb f))
      || negb (tcb_at_least (hf_current_tcb f) (hf_committed_tcb f))
    with Node (ascii "SNP TCB fields have an invalid downgrade order");
  reject list_ltb (hf_current_version f) (hf_committed_version f)
    with Node (ascii "SNP committed firmware version exceeds current version");
  let platform := hf_platform_info f in
  let? required := parse_u64_hex (ap_required_platform_info_mask profile) in
  let? forbidden := parse_u64_hex (ap_forbidden_platform_info_mask profile) in
  reject negb (Z.land platform required =? required) || negb (Z.land platform forbidden =? 0)
    with Node (ascii "SNP platform information is below hardware policy");
  let? _ := check_mitigations (hf_launch_mitigations f) (ap_required_launch_mitigation_mask profile)
              (ascii "SNP launch mitigations are below hardware policy") in
  check_mitigations (hf_current_mitigations f) (ap_required_current_mitigation_mask profile)
    (ascii "SNP current mitigations are below hardware policy").

(** ** Report appraisal *)

(** The profiles that list the chip, tried in order; the first error is reported. *)
Fixpoint appraise_profiles (appraise : AmdSevSnpPolicy -> result unit SnpError)
    (first_error : option SnpError) (profiles : list AmdSevSnpPolicy) : result unit SnpError :=
  match profiles with
  | [] => Err (default (Node (ascii "chip id is absent from the signed hardware policy")) first_error)
  | profile :: profiles =>
      match appraise profile with
      | Ok _ => Ok tt
      | Err e =>
          appraise_profiles appraise
            (match first_error with Some _ => first_error | None => Some e end) profiles
      end
  end.

Definition appraise_hardware (policy : HardwarePolicy) (chip_id : bytes)
    (appraise : AmdSevSnpPolicy -> result unit SnpError) : result unit SnpError :=
  appraise_profiles appraise None
    (List.filter (fun profile => existsb (fun candidate => eq_ignore_ascii_case candidate chip_id)
                              (ap_chip_ids profile)) (hw_policies policy)).

Definition appraise_snp_report (report : bytes) (product : option AmdProductProfile)
    (profile : AmdSevSnpPolicy) : result unit SnpError :=
  reject negb (bool_decide (amd_product_from_cpuid (ap_cpuid_family profile) (ap_cpuid_model profile) = product))
    with Node (ascii "SNP processor identity differs from hardware policy");
  SnpHardwareFacts_appraise (SnpHardwareFacts_from_report report) profile.

Definition is_absent_snp_migration_agent_id (value : bytes) : bool :=
  all_zero value || forallb (fun b => bool_decide (b = xff)) value.

Definition validate_raw_snp_report_encoding (report : bytes) (report_version : Z)
    (product : option AmdProductProfile) : result unit SnpError :=
  let zero_ranges :=
    if report_version =? 5 then [(76, 80); (395, 416); (520, 672)]
    else [(76, 80); (392, 416); (504, 672)] in
  reject existsb (fun '(start, end_) => negb (all_zero (slice report start end_))) zero_ranges
      || negb (byte_at report 491 =? 0) || negb (byte_at report 495 =? 0)
    with Node (ascii "SNP report reserved bytes are nonzero");
  reject negb (Z.land (u64_at report 64) (Z.lnot SNP_PLATFORM_INFO_KNOWN_MASK) =? 0)
    with Node (ascii "SNP platform information sets reserved bits");
  if match product with Some profile => bool_decide (pp_tcb_layout profile = Family19h) | None => false end
  then
    reject existsb (fun offset => negb (all_zero (slice report (offset + 2) (offset + 6)))) [56; 384; 480; 496]
      with Node (ascii "SNP TCB reserved bytes are nonzero");
    Ok tt
  else Ok tt.

Record ExpectedSnpReport : Type := {
  ex_chip_id : bytes; ex_reported_tcb : bytes; ex_report_data_sha512 : bytes
}.

Definition check_raw_report_bindings (node : ExpectedSnpReport) (measurement : bytes)
    (launch : LaunchValues) (report : bytes) (hardware_policy : option HardwarePolicy)
  : result unit SnpError :=
  reject negb (zlen report =? SNP_REPORT_BYTES) with Node (ascii "SNP report has the wrong size");
  let? expected_policy := ok_or (from_str_radix16 (trim_0x (length (lv_policy launch)) (lv_policy launch)))
    (Node (ascii "invalid launch policy value")) in
  let report_version := u32_at report 0 in
  reject (report_version <? 2) || (5 <? report_version) with Node (ascii "SNP report version differs");
  let? (_, _, _, report_product) := inspect_report_product report report_version in
  let? _ := validate_raw_snp_report_encoding report report_version report_product in
  let report_info := u32_at report 72 in
  let author_key_present := existsb (fun b => negb (bool_decide (b = x30))) (lv_author_key_digest launch) in
  let? family_id := hex_bytes 16 (lv_family_id launch) in
  let? image_id := hex_bytes 16 (lv_image_id launch) in
  let? report_data := hex_bytes 64 (ex_report_data_sha512 node) in
  let? expected_measurement := hex_bytes 48 measurement in
  let? host_data := hex_bytes 32 (lv_host_data launch) in
  let? id_key_digest := hex_bytes 48 (lv_id_key_digest launch) in
  let? author_key_digest := hex_bytes 48 (lv_author_key_digest launch) in
  let? reported_tcb := hex_bytes 8 (ex_reported_tcb node) in
  let? chip_id := hex_bytes 64 (ex_chip_id node) in
  let checks : list (bool * bytes) :=
    [(bool_decide (slice report 16 32 = family_id), ascii "family id");
     (bool_decide (slice report 32 48 = image_id), ascii "image id");
     (bool_decide (slice report 80 144 = report_data), ascii "report data");
     (bool_decide (slice report 144 192 = expected_measurement), ascii "measurement");
     (bool_decide (slice report 192 224 = host_data), ascii "host data");
     (bool_decide (slice report 224 272 = id_key_digest), ascii "id key digest");
     (bool_decide (slice report 272 320 = author_key_digest), ascii "author key digest");
     (bool_decide (slice report 384 392 = reported_tcb), ascii "reported TCB");
     (bool_decide (slice report 416 480 = chip_id), ascii "chip id");
     (u32_at report 48 =? lv_vmpl launch, ascii "VMPL");
     (u64_at report 8 =? expected_policy, ascii "guest policy");
     (u32_at report 52 =? 1, ascii "signature algorithm");
     (Z.land report_info (Z.lnot 1) =? 0, ascii "VCEK signing key information");
     (Bool.eqb (negb (Z.land report_info 1 =? 0)) author_key_present, ascii "author key flag");
     (negb (Z.land expected_policy SNP_POLICY_MIGRATE_MA =? 0)
      || is_absent_snp_migration_agent_id (slice report 352 384), ascii "migration-agent report id")] in
  match List.find (fun '(valid, _) => negb valid) checks with
  | Some (_, label) => Err (Node label)
  | None =>
      match hardware_policy with
      | None => Ok tt
      | Some policy =>
          appraise_hardware policy (ex_chip_id node) (appraise_snp_report report report_product)
      end
  end.

(** ** Launch policies of a release *)

Definition validate_gateway_launch_policy (launch : LaunchValues) (product : AmdProductProfile)
  : result unit SnpError :=
  reject negb (is_lower_hex (lv_family_id launch) 16) || negb (is_lower_hex (lv_image_id launch) 16)
      || negb (is_lower_hex (lv_host_data launch) 32) || negb (is_lower_hex (lv_id_key_digest launch) 48)
      || negb (is_lower_hex (lv_author_key_digest launch) 48) || negb (lv_vmpl launch =? 0)
      || negb (is_prefixed_lower_hex (lv_policy launch) 8)
    with InvalidBundle (ascii "invalid gateway launch policy");
  let? launch_policy := ok_or (from_str_radix16 (slice_from (lv_policy launch) 2))
    (InvalidBundle (ascii "invalid SNP launch policy")) in
  map_err (fun _ => InvalidBundle (ascii "invalid gateway launch policy"))
    (validate_snp_launch_policy launch_policy product).

Fixpoint validate_launch_policy_list (previous : option bytes) (policies : list AmdSevSnpLaunchPolicy)
  : result unit SnpError :=
  match policies with
  | [] => Ok tt
  | policy :: policies =>
      let product_name := lp_product_name policy in
      reject match previous with Some previous => negb (bytes_ltb previous product_name) | None => false end
        with InvalidBundle (ascii "gateway launch policies are duplicated or not sorted by product");
      let? product := ok_or (find_product product_name)
        (InvalidBundle (ascii "gateway launch policy names an unsupported AMD product")) in
      let? _ := validate_gateway_launch_policy (lp_launch policy) product in
      validate_launch_policy_list (Some product_name) policies
  end.

Definition validate_gateway_launch_policies (policies : LaunchPolicies) : result unit SnpError :=
  reject negb (bool_decide (lps_schema policies = ascii "stogas.snp-launch-policies.v1"))
      || (zlen (lps_policies policies) =? 0)
    with InvalidBundle (ascii "invalid gateway launch policies");
  validate_launch_policy_list None (lps_policies policies).

Definition compatible_launch_policy (policies : LaunchPolicies) (product : AmdProductProfile)
  : result LaunchValues SnpError :=
  ok_or (lp_launch <$> List.find (fun policy => bool_decide (lp_product_name policy = pp_product_name product))
                         (lps_policies policies))
    (Node (ascii "the release has no launch policy for AMD")).

(** ** Hardware policies *)

Fixpoint validate_chip_ids (previous : option bytes) (chip_ids : list bytes) : result unit SnpError :=
  match chip_ids with
  | [] => Ok tt
  | chip_id :: chip_ids =>
      reject negb (is_lower_hex chip_id 64)
          || match previous with Some previous => negb (bytes_ltb previous chip_id) | None => false end
        with InvalidBundle (ascii "hardware policy has an invalid, unsorted, or duplicate chip id");
      validate_chip_ids (Some chip_id) chip_ids
  end.

Section HardwarePolicies.
Context `{Json} `{Hash}.

Fixpoint validate_hardware_profiles (previous_group : option bytes) (profiles : list AmdSevSnpPolicy)
  : result unit SnpError :=
  match profiles with
  | [] => Ok tt
  | profile :: profiles =>
      reject (zlen (ap_chip_ids profile) =? 0) || (MAX_NODES <? zlen (ap_chip_ids profile))
        with InvalidBundle (ascii "hardware policy group has no chip ids or is too large");
      let? _ := validate_chip_ids None (ap_chip_ids profile) in
      let? group := ok_or (canonical_json (AmdSevSnpPolicy_to_value profile)) (InvalidBundle (ascii "canonical JSON")) in
      reject match previous_group with Some previous => negb (bytes_ltb previous group) | None => false end
        with InvalidBundle (ascii "hardware policy groups are duplicated or not canonically ordered");
      let? built_in := ok_or (amd_product_from_cpuid (ap_cpuid_family profile) (ap_cpuid_model profile))
        (InvalidBundle (ascii "hardware policy has an unsupported CPUID")) in
      reject negb (bool_decide (pp_tcb_layout built_in = Family19h))
        with InvalidBundle (ascii "hardware policy CPUID is not supported by this policy format");
      let? required := parse_u64_hex (ap_required_platform_info_mask profile) in
      let? forbidden := parse_u64_hex (ap_forbidden_platform_info_mask profile) in
      reject negb (Z.land required forbidden =? 0)
          || negb (Z.land required (Z.lnot SNP_PLATFORM_INFO_KNOWN_MASK) =? 0)
          || negb (Z.land forbidden (Z.lnot SNP_PLATFORM_INFO_KNOWN_MASK) =? 0)
        with InvalidBundle (ascii "hardware policy has invalid platform-info masks");
      let? _ := parse_u64_hex (ap_required_launch_mitigation_mask profile) in
      let? _ := parse_u64_hex (ap_required_current_mitigation_mask profile) in
      validate_hardware_profiles (Some group) profiles
  end.

Definition validate_hardware_policy (policy : HardwarePolicy) : result bytes SnpError :=
  reject negb (bool_decide (hw_schema policy = ascii "stogas.hardware-policies.v1"))
      || negb (valid_revision (hw_version policy))
      || (zlen (hw_policies policy) =? 0) || (MAX_NODES <? zlen (hw_policies policy))
    with InvalidBundle (ascii "unsupported or invalid hardware policy");
  let? _ := validate_hardware_profiles None (hw_policies policy) in
  ok_or (canonical_json (HardwarePolicy_to_value policy)) (InvalidBundle (ascii "canonical JSON")).

End HardwarePolicies.
