(* ===== verification/SnpTheory.v ===== *)
(** SNP appraisal: exactly which launch policies are allowed, what an accepted report
    proves, and that only report versions 2 and 5 can be accepted at all. *)

From S2P Require Import Prelude Primitives BTree Json Signing Attestation Documents Approvals Snp.

Open Scope Z_scope.

(** ** Hexadecimal text *)

Lemma hex_decode_encode l : hex_decode (hex_encode l) = Some l.
Proof.
  induction l as [|b l IH]; [done|]. unfold hex_encode in *. cbn [fmap list_fmap concat].
  assert (forall rest, hex_decode (hex_byte b ++ rest) =
    match hex_decode rest with Some tail => Some (b :: tail) | None => None end) as Hb by (by destruct b).
  by rewrite Hb, IH.
Qed.

Lemma hex_encode_lower l n : zlen l = n -> is_lower_hex (hex_encode l) n = true.
Proof.
  intros <-. unfold is_lower_hex, hex_encode. induction l as [|b l IH]; [done|].
  cbn [fmap list_fmap concat]. apply andb_true_iff in IH as [IH1 IH2]. rewrite forallb_app, IH2. zbool.
  apply andb_true_iff. split.
  - apply Z.eqb_eq. rewrite zlen_app, zlen_cons. unfold zlen in *. unfold fmap in *. cbn in *. lia.
  - by destruct b.
Qed.

(** ** Bit masks *)

Lemma land_all p m :
  Z.land p m = m <-> forall n, 0 <= n -> Z.testbit m n = true -> Z.testbit p n = true.
Proof.
  split.
  - intros E n Hn Hm. apply (f_equal (fun z => Z.testbit z n)) in E. rewrite Z.land_spec, Hm, andb_true_r in E. done.
  - intros Hb. apply Z.bits_inj'. intros n Hn. rewrite Z.land_spec. specialize (Hb n Hn).
    destruct (Z.testbit m n); [by rewrite Hb|by rewrite andb_false_r].
Qed.

Lemma land_none p m :
  Z.land p m = 0 <-> forall n, 0 <= n -> Z.testbit m n = true -> Z.testbit p n = false.
Proof.
  split.
  - intros E n Hn Hm. apply (f_equal (fun z => Z.testbit z n)) in E.
    rewrite Z.land_spec, Hm, andb_true_r, Z.bits_0 in E. done.
  - intros Hb. apply Z.bits_inj'. intros n Hn. rewrite Z.land_spec, Z.bits_0. specialize (Hb n Hn).
    destruct (Z.testbit m n); [by rewrite Hb|by rewrite andb_false_r].
Qed.

Lemma testbit_shift k n : 0 <= k -> 0 <= n -> Z.testbit (Z.shiftl 1 k) n = (n =? k).
Proof.
  intros Hk Hn. rewrite Z.shiftl_mul_pow2, Z.mul_1_l by done. destruct (Z.eqb_spec n k) as [->|E].
  - by apply Z.pow2_bits_true.
  - by apply Z.pow2_bits_false.
Qed.

Lemma shiftr_zero p k :
  0 <= p -> 0 <= k -> Z.shiftr p k = 0 <-> forall n, k <= n -> Z.testbit p n = false.
Proof.
  intros Hp Hk. split.
  - intros E n Hn. apply (f_equal (fun z => Z.testbit z (n - k))) in E.
    rewrite Z.shiftr_spec, Z.bits_0 in E by lia. replace (n - k + k) with n in E by lia. done.
  - intros Hb. apply Z.bits_inj'. intros n Hn. rewrite Z.shiftr_spec, Z.bits_0 by done. apply Hb. lia.
Qed.

(** The bits of the two masks and of a product's own requirement. *)
Lemma required_bits extra n :
  0 <= n -> Z.testbit (Z.lor SNP_POLICY_COMMON_REQUIRED extra) n = true <->
  n = 25 \/ n = 20 \/ n = 17 \/ Z.testbit extra n = true.
Proof.
  intros Hn. unfold SNP_POLICY_COMMON_REQUIRED, SNP_POLICY_PAGE_SWAP_DISABLE, SNP_POLICY_SINGLE_SOCKET,
    SNP_POLICY_RESERVED_MUST_BE_ONE.
  rewrite !Z.lor_spec, !testbit_shift, !orb_true_iff, !Z.eqb_eq by done. tauto.
Qed.

Lemma forbidden_bits n :
  0 <= n -> Z.testbit SNP_POLICY_COMMON_FORBIDDEN n = true <-> n = 21 \/ n = 19 \/ n = 18.
Proof.
  intros Hn. unfold SNP_POLICY_COMMON_FORBIDDEN, SNP_POLICY_CXL_ALLOW, SNP_POLICY_DEBUG, SNP_POLICY_MIGRATE_MA.
  rewrite !Z.lor_spec, !testbit_shift, !orb_true_iff, !Z.eqb_eq by done. tauto.
Qed.

Lemma policy_abi policy :
  0 <= policy ->
  pair_ltb (Z.land (Z.shiftr policy 8) 255, Z.land policy 255) (1, 58) = (policy mod 65536 <? 314).
Proof.
  intros Hp. unfold pair_ltb. simpl fst. simpl snd. change 255 with (Z.ones 8).
  rewrite !Z.land_ones, Z.shiftr_div_pow2 by lia. change (2 ^ 8) with 256.
  assert (policy mod 65536 = (policy / 256) mod 256 * 256 + policy mod 256) as ->
    by (Z.to_euclidean_division_equations; lia).
  set (a := (policy / 256) mod 256). set (b := policy mod 256).
  assert (0 <= a < 256) by (apply Z.mod_pos_bound; lia). assert (0 <= b < 256) by (apply Z.mod_pos_bound; lia).
  destruct (a <? 1) eqn:E1, (a =? 1) eqn:E2, (b <? 58) eqn:E3; simpl; zbool; symmetry;
    (apply Z.ltb_lt || apply Z.ltb_ge); lia.
Qed.

(** The launch policies a release may authorize are exactly those that set no bit above
    25, require single-socket guests, disabled page swap and the reserved bit 17, memory
    encryption with AES-256-XTS on every product after Milan, permit neither CXL, nor
    debugging, nor migration, and demand at least firmware ABI 1.58. *)
Theorem launch_policy_exact policy product :
  0 <= policy <= u64_max -> product ∈ AMD_PRODUCT_PROFILES ->
  validate_snp_launch_policy policy product = Ok tt <->
  (forall n, 26 <= n -> Z.testbit policy n = false) /\
  Z.testbit policy 25 = true /\ Z.testbit policy 20 = true /\ Z.testbit policy 17 = true /\
  (pp_product_name product <> ascii "Milan" -> Z.testbit policy 22 = true) /\
  Z.testbit policy 21 = false /\ Z.testbit policy 19 = false /\ Z.testbit policy 18 = false /\
  314 <= policy mod 65536.
Proof.
  intros Hp Hprod.
  assert (pp_minimum_policy_abi product = (1, 58) /\
    forall n, 0 <= n -> Z.testbit (pp_required_policy_bits product) n = true <->
      pp_product_name product <> ascii "Milan" /\ n = 22) as [Habi Hbits].
  { unfold AMD_PRODUCT_PROFILES in Hprod. rewrite !elem_of_cons, elem_of_nil in Hprod.
    destruct Hprod as [->|[->|[->|[->|[]]]]]; (split; [done|]); intros n Hn;
      cbn [pp_required_policy_bits pp_product_name].
    1: { rewrite Z.bits_0. split; [done|]. by intros [? _]. }
    all: unfold SNP_POLICY_MEM_AES_256_XTS; rewrite testbit_shift, Z.eqb_eq by done; split; [done|tauto]. }
  unfold validate_snp_launch_policy. rewrite Habi, policy_abi by lia.
  assert ((Z.shiftr policy 26 =? 0) = true <-> forall n, 26 <= n -> Z.testbit policy n = false) as H1
    by (rewrite Z.eqb_eq; apply shiftr_zero; lia).
  set (required := Z.lor _ _).
  assert ((Z.land policy required =? required) = true <-> Z.testbit policy 25 = true /\ Z.testbit policy 20 = true /\
    Z.testbit policy 17 = true /\ (pp_product_name product <> ascii "Milan" -> Z.testbit policy 22 = true)) as H2.
  { rewrite Z.eqb_eq, land_all. unfold required. split.
    - intros H. split_and!; [..|intros Hm]; apply H; try done; apply required_bits; try done; auto.
      right. right. right. by apply Hbits.
    - intros (A & B & C & D) n Hn. rewrite required_bits, Hbits by done. intros [->|[->|[->|[Hm ->]]]]; auto. }
  assert ((Z.land policy SNP_POLICY_COMMON_FORBIDDEN =? 0) = true <-> Z.testbit policy 21 = false /\
    Z.testbit policy 19 = false /\ Z.testbit policy 18 = false) as H3.
  { rewrite Z.eqb_eq, land_none. split.
    - intros H. split_and!; apply H; try done; apply forbidden_bits; auto; done.
    - intros (A & B & C) n Hn. rewrite forbidden_bits by done. intros [->|[->| ->]]; done. }
  destruct (Z.shiftr policy 26 =? 0), (Z.land policy required =? required),
    (Z.land policy SNP_POLICY_COMMON_FORBIDDEN =? 0), (policy mod 65536 <? 314) eqn:E; zbool; simpl;
    split; try done; try tauto; try (intros _; split_and!; try tauto; lia).
  all: intros H; exfalso; lia || (assert (false = true) by tauto; done).
Qed.

(** ** Hexadecimal text *)

Lemma hex_digit_lower b : hex_digit_value (ascii_lower b) = hex_digit_value b.
Proof. by destruct b. Qed.

Lemma hex_decode_lower l : hex_decode (ascii_lower <$> l) = hex_decode l.
Proof.
  induction l as [l IH] using (induction_ltof1 _ (@length byte)). unfold ltof in IH.
  destruct l as [|a [|b l]]; [done..|]. cbn [fmap list_fmap hex_decode]. rewrite !hex_digit_lower.
  assert (hex_decode (ascii_lower <$> l) = hex_decode l) as E by (apply IH; simpl; lia).
  change (list_fmap _ _ ascii_lower l) with (ascii_lower <$> l) in *. by rewrite E.
Qed.

Lemma hex_decode_ignore_case a b : eq_ignore_ascii_case a b = true -> hex_decode a = hex_decode b.
Proof.
  unfold eq_ignore_ascii_case. intros E. zbool. by rewrite <- (hex_decode_lower a), E, hex_decode_lower.
Qed.

Lemma hex_bytes_ok n value l : hex_bytes n value = Ok l -> hex_decode value = Some l.
Proof. unfold hex_bytes, ok_or. intros E. case_all. Qed.

(** Two lower case digits write one byte, and their number is its value. *)
Lemma lower_hex_pair a b :
  lower_hex_digit a = true -> lower_hex_digit b = true ->
  exists c x y, [a; b] = hex_byte c /\ hex_digit_value a = Some x /\ hex_digit_value b = Some y /\
    x * 16 + y = byte_to_Z c.
Proof.
  intros Ha Hb. assert (exists x y, hex_digit_value a = Some x /\ hex_digit_value b = Some y /\
    [a; b] = hex_byte (byte_of_Z (x * 16 + y)) /\ byte_to_Z (byte_of_Z (x * 16 + y)) = x * 16 + y)
    as (x & y & Hx & Hy & He & Hv).
  { destruct a; try discriminate Ha; destruct b; try discriminate Hb; do 2 eexists; split_and!; reflexivity. }
  by exists (byte_of_Z (x * 16 + y)), x, y.
Qed.

Lemma radix16_lower n hex acc :
  length hex = (2 * n)%nat -> forallb lower_hex_digit hex = true ->
  exists l, hex = hex_encode l /\ length l = n /\ radix16 acc hex = Some (acc * 256 ^ Z.of_nat n + be_value l).
Proof.
  revert hex acc. induction n as [|n IH]; intros hex acc Hl Hd.
  - exists []. destruct hex; [|done]. cbn. split_and!; try done. f_equal. unfold be_value. simpl. lia.
  - destruct hex as [|a [|b hex]]; try (simpl in Hl; lia). simpl in Hd. zbool.
    destruct (lower_hex_pair a b) as (c & x & y & Hc & Hx & Hy & Hv); [done..|].
    destruct (IH hex (acc * 256 + byte_to_Z c)) as (l & -> & Hll & Hr); [simpl in Hl; lia|done|].
    exists (c :: l). split_and!; [|simpl; lia|].
    + unfold hex_encode. cbn [fmap list_fmap concat]. by rewrite <- Hc.
    + cbn [radix16]. rewrite Hx, Hy. replace ((acc * 16 + x) * 16 + y) with (acc * 256 + byte_to_Z c) by lia.
      rewrite Hr, (be_value_cons c l). unfold zlen. rewrite Hll, Nat2Z.inj_succ, Z.pow_succ_r by lia. f_equal. lia.
Qed.

(** A mask of the policy is the 64-bit number its sixteen digits write. *)
Definition mask_value (mask : bytes) (m : Z) : Prop :=
  0 <= m <= u64_max /\ mask = ascii "0x" ++ hex_encode (be_bytes 8 m).

Lemma parse_mask mask m : parse_u64_hex mask = Ok m -> mask_value mask m.
Proof.
  unfold parse_u64_hex, ok_or. destruct mask as [|a [|b hex]]; simpl; try done.
  destruct (bool_decide (a = x30)) eqn:Ea; [|done]. destruct (bool_decide (b = x78)) eqn:Eb; [|done].
  simpl andb. cbn match. zbool. subst. intros E. destruct (is_lower_hex hex 8) eqn:Eh; [|done].
  unfold is_lower_hex in Eh. zbool. simpl negb in E. cbn match in E.
  destruct (radix16_lower 8 hex 0) as (l & -> & Hl & Hr); [unfold zlen in *; lia|done|].
  assert (from_str_radix16 (hex_encode l) = Some (be_value l)) as Hf.
  { pose proof (be_value_range l) as Hb. unfold zlen in Hb. rewrite Hl in Hb. change (256 ^ Z.of_nat 8) with (u64_max + 1) in Hb.
    destruct l as [|c l]; [done|]. unfold hex_encode in *. cbn [fmap list_fmap concat] in *.
    unfold from_str_radix16. destruct (hex_byte c) as [|d [|d' ?]] eqn:Ec; [by destruct c..|].
    assert (bool_decide (d = x2b) = false) as Hsign by (destruct c; injection Ec as <- _ _; reflexivity).
    cbn [app] in *. rewrite Hsign, Hr, (proj2 (Z.leb_le _ _)) by lia. done. }
  rewrite Hf in E. injection E as <-. pose proof (be_value_range l) as Hb. unfold zlen in Hb. rewrite Hl in Hb.
  change (256 ^ Z.of_nat 8) with (u64_max + 1) in Hb. split; [lia|]. rewrite <- Hl, be_bytes_value. done.
Qed.

(** ** The fields of a report *)

Lemma byte_at_slice report a b i :
  0 <= a -> 0 <= i < b - a -> byte_at (slice report a b) i = byte_at report (a + i).
Proof.
  intros Ha Hi. unfold byte_at, slice. f_equal. unfold take, drop. rewrite nth_firstn, nth_skipn.
  rewrite (proj2 (Nat.ltb_lt _ _)) by lia. f_equal. lia.
Qed.

(** The version numbers of a TCB field in the layout of Family 19h, and those of a policy. *)
Definition tcb_bytes (report : bytes) (offset : Z) : list Z :=
  [byte_at report offset; byte_at report (offset + 1); byte_at report (offset + 6); byte_at report (offset + 7)].
Definition tcb_numbers (t : AmdTcb) : list Z := [tcb_bootloader t; tcb_tee t; tcb_snp t; tcb_microcode t].
Definition tcb_le (a b : list Z) : Prop := Forall2 Z.le a b.

(** Major, minor and build number of the firmware whose field begins at the offset. *)
Definition firmware_at (report : bytes) (offset : Z) : Z :=
  byte_at report (offset + 2) * 65536 + byte_at report (offset + 1) * 256 + byte_at report offset.

Definition zero_range (report : bytes) (start end_ : Z) : Prop :=
  forall i, start <= i < end_ -> byte_at report i = 0.

Definition mask_set (mask : bytes) (field : Z) : Prop :=
  exists m, mask_value mask m /\ forall n, 0 <= n -> Z.testbit m n = true -> Z.testbit field n = true.
Definition mask_clear (mask : bytes) (field : Z) : Prop :=
  exists m, mask_value mask m /\ forall n, 0 <= n -> Z.testbit m n = true -> Z.testbit field n = false.

(** What a profile of the signed hardware policy promises of a report. *)
Record meets (report : bytes) (profile : AmdSevSnpPolicy) : Prop := {
  meets_version : u32_at report 0 = 5;
  meets_cpuid : byte_at report 392 = ap_cpuid_family profile /\ byte_at report 393 = ap_cpuid_model profile /\
    byte_at report 394 = ap_cpuid_stepping profile;
  meets_minimum : Forall (fun offset => tcb_le (tcb_numbers (ap_minimum_tcb profile)) (tcb_bytes report offset))
    [56; 384; 480; 496];
  meets_order : tcb_le (tcb_bytes report 384) (tcb_bytes report 480) /\
    tcb_le (tcb_bytes report 480) (tcb_bytes report 56);
  meets_firmware : firmware_at report 492 <= firmware_at report 488;
  meets_required : mask_set (ap_required_platform_info_mask profile) (u64_at report 64);
  meets_forbidden : mask_clear (ap_forbidden_platform_info_mask profile) (u64_at report 64);
  meets_launch_mitigations : mask_set (ap_required_launch_mitigation_mask profile) (u64_at report 504);
  meets_current_mitigations : mask_set (ap_required_current_mitigation_mask profile) (u64_at report 512)
}.

Lemma tcb_at_least_le a b : tcb_at_least a b = true -> tcb_le (tcb_numbers b) (tcb_numbers a).
Proof. unfold tcb_at_least, tcb_le, tcb_numbers. intros. zbool. auto. Qed.

Lemma tcb_numbers_at report a b :
  0 <= a -> b = a + 8 -> tcb_numbers (family19h_tcb (slice report a b)) = tcb_bytes report a.
Proof.
  intros Ha ->. unfold tcb_numbers, family19h_tcb, tcb_bytes. cbn [tcb_bootloader tcb_tee tcb_snp tcb_microcode].
  rewrite !byte_at_slice by lia. by rewrite Z.add_0_r.
Qed.

Lemma byte_at_range report i : 0 <= byte_at report i < 256.
Proof. apply byte_to_Z_range. Qed.

Lemma firmware_order report :
  list_ltb [byte_at report 490; byte_at report 489; byte_at report 488]
           [byte_at report 494; byte_at report 493; byte_at report 492] = false ->
  firmware_at report 492 <= firmware_at report 488.
Proof.
  unfold firmware_at. change (492 + 2) with 494. change (492 + 1) with 493. change (488 + 2) with 490. change (488 + 1) with 489.
  intros E. pose proof (byte_at_range report 490). pose proof (byte_at_range report 489).
  pose proof (byte_at_range report 488). pose proof (byte_at_range report 494).
  pose proof (byte_at_range report 493). pose proof (byte_at_range report 492).
  cbn [list_ltb] in E. apply orb_false_iff in E as [E1 E].
  destruct (byte_at report 490 =? byte_at report 494) eqn:E2; zbool; [|lia]. simpl andb in E.
  apply orb_false_iff in E as [E3 E]. destruct (byte_at report 489 =? byte_at report 493) eqn:E4; zbool; [|lia].
  simpl andb in E. zbool. lia.
Qed.

Lemma check_tcbs_ok fields minimum :
  check_tcbs fields minimum = Ok tt ->
  Forall (fun field => tcb_le (tcb_numbers minimum) (tcb_numbers field)) fields.
Proof.
  induction fields as [|a fields IH]; simpl; [constructor|]. intros E. case_all. zbool.
  constructor; [by apply tcb_at_least_le|by apply IH].
Qed.

Lemma check_mitigations_ok actual required reason :
  check_mitigations actual required reason = Ok tt -> mask_set required actual.
Proof.
  unfold check_mitigations, mask_set. destruct (parse_u64_hex required) as [m|] eqn:Em; [|done].
  intros E. case_all. zbool. exists m. split; [by apply parse_mask|by apply land_all].
Qed.

Lemma appraise_meets report profile :
  SnpHardwareFacts_appraise (SnpHardwareFacts_from_report report) profile = Ok tt -> meets report profile.
Proof.
  unfold SnpHardwareFacts_appraise. cbn [SnpHardwareFacts_from_report hf_report_version hf_cpuid hf_current_tcb
    hf_reported_tcb hf_committed_tcb hf_launch_tcb hf_current_version hf_committed_version hf_platform_info
    hf_launch_mitigations hf_current_mitigations]. intros E.
  destruct (u32_at report 0 =? 5) eqn:E1; [|done].
  destruct (bool_decide _) eqn:E2 in E; [|done]. simpl negb in E. cbn match in E.
  destruct (check_tcbs _ _) as [[]|] eqn:E3; [|done].
  destruct (negb _ || negb _) eqn:E4 in E; [done|].
  destruct (list_ltb _ _) eqn:E5; [done|].
  destruct (parse_u64_hex (ap_required_platform_info_mask profile)) as [r|] eqn:E6; [|done].
  destruct (parse_u64_hex (ap_forbidden_platform_info_mask profile)) as [n|] eqn:E7; [|done].
  destruct (negb _ || negb _) eqn:E8 in E; [done|].
  destruct (check_mitigations _ _ _) as [[]|] eqn:E9 in E; [|done].
  apply check_mitigations_ok in E, E9. apply check_tcbs_ok in E3. apply parse_mask in E6, E7. zbool.
  apply tcb_at_least_le in H1, H2. apply firmware_order in E5. rewrite !Forall_cons in E3.
  destruct E3 as (M1 & M2 & M3 & M4 & _). rewrite !tcb_numbers_at in H1, H2 by lia.
  rewrite tcb_numbers_at in M1, M2, M3, M4 by lia.
  split; try done; [by simplify_eq|by rewrite !Forall_cons| |]; eexists.
  - split; [done|]. by apply land_all.
  - split; [done|]. by apply land_none.
Qed.

Lemma appraise_profiles_ok appraise first profiles :
  appraise_profiles appraise first profiles = Ok tt ->
  exists profile, profile ∈ profiles /\ appraise profile = Ok tt.
Proof.
  revert first. induction profiles as [|p profiles IH]; intros first; simpl; [done|].
  destruct (appraise p) as [[]|] eqn:E; intros Ha.
  - exists p. split; [constructor|done].
  - apply IH in Ha as (q & Hq & Hok). exists q. split; [by constructor|done].
Qed.

Lemma appraise_hardware_ok policy chip_id appraise :
  appraise_hardware policy chip_id appraise = Ok tt ->
  exists profile chip, profile ∈ hw_policies policy /\ chip ∈ ap_chip_ids profile /\
    hex_decode chip = hex_decode chip_id /\ appraise profile = Ok tt.
Proof.
  intros E. apply appraise_profiles_ok in E as (profile & Hin & Hok).
  apply list_elem_of_In, filter_In in Hin as [Hin Hex]. apply existsb_exists in Hex as (chip & Hc & Heq).
  exists profile, chip. rewrite !list_elem_of_In. eauto using hex_decode_ignore_case.
Qed.

(** ** The whole report *)

Lemma find_none_forall {A} (f : A -> bool) l : List.find f l = None -> Forall (fun x => f x = false) l.
Proof. intros E. apply Forall_forall. intros x Hx. apply list_elem_of_In in Hx. by eapply find_none. Qed.

(** The guards before the comparison of fields. *)
Lemma bindings_version node measurement launch report policy :
  check_raw_report_bindings node measurement launch report policy = Ok tt ->
  zlen report = SNP_REPORT_BYTES /\ 2 <= u32_at report 0 <= 5 /\
  exists facts product,
    inspect_report_product report (u32_at report 0) = Ok (facts, product) /\
    validate_raw_snp_report_encoding report (u32_at report 0) product = Ok tt.
Proof.
  unfold check_raw_report_bindings. intros E.
  destruct (zlen report =? SNP_REPORT_BYTES) eqn:E1; [|done]. simpl negb in E. cbn match in E.
  destruct (ok_or _ _) in E; [|done].
  destruct ((u32_at report 0 <? 2) || (5 <? u32_at report 0)) eqn:E2; [done|].
  destruct (inspect_report_product _ _) as [[facts product]|] eqn:E3; [|done].
  destruct facts as [[fa mo] st].
  destruct (validate_raw_snp_report_encoding _ _ _) as [[]|] eqn:E4; [|done].
  zbool. split_and!; [done|lia..|]. eauto.
Qed.

(** C40. Attestation reports of versions 3 and 4 are never accepted: the product is read
    from the CPUID byte at 0x188, which must name a supported family, while the encoding
    check demands that the same byte is zero. *)
Theorem intermediate_versions_rejected node measurement launch report policy :
  check_raw_report_bindings node measurement launch report policy = Ok tt ->
  u32_at report 0 = 2 \/ u32_at report 0 = 5.
Proof.
  intros E. apply bindings_version in E as (Hlen & Hv & facts & product & Hi & He).
  destruct (u32_at report 0 =? 2) eqn:E2; zbool; [by left|].
  destruct (u32_at report 0 =? 5) eqn:E5; zbool; [by right|exfalso].
  unfold inspect_report_product in Hi. rewrite (proj2 (Z.eqb_neq _ _)) in Hi by done.
  unfold validate_raw_snp_report_encoding in He. rewrite (proj2 (Z.eqb_neq _ _) E5) in He.
  destruct (existsb _ _ || _ || _) eqn:Ez; [done|]. simpl existsb in Ez. zbool.
  assert (byte_at report 392 = 0) as Hb.
  { assert (exists l b r, report = l ++ b :: r /\ length l = 392%nat) as (l & b & r & -> & Hl).
    { exists (take 392 report). destruct (drop 392 report) as [|b r] eqn:Ed.
      - apply (f_equal length) in Ed. rewrite length_drop in Ed. unfold zlen, SNP_REPORT_BYTES in Hlen.
        simpl in Ed. lia.
      - exists b, r. rewrite <- Ed, take_drop, length_take. split; [done|].
        unfold zlen, SNP_REPORT_BYTES in Hlen. lia. }
    match goal with H : all_zero (slice _ 392 416) = true |- _ => rename H into Hz end.
    unfold slice in Hz. rewrite drop_app_length' in Hz by (rewrite Hl; lia).
    change (Z.to_nat (416 - 392)) with 24%nat in Hz. simpl in Hz. zbool. subst b.
    unfold byte_at. rewrite app_nth2, Hl by (rewrite Hl; lia). done. }
  rewrite Hb in Hi. unfold amd_product_from_cpuid in Hi. done.
Qed.

(** ** Every field of an accepted report *)

(** The encoding of a version-5 report: its size, its reserved bytes and bits, and a
    processor of a supported product, in whose TCB fields Family 19h reserves four bytes. *)
Record well_encoded (report : bytes) : Prop := {
  we_size : zlen report = 1184;
  we_reserved : Forall (fun range => zero_range report range.1 range.2)
    [(76, 80); (395, 416); (491, 492); (495, 496); (520, 672)];
  we_platform : forall n, 0 <= n -> Z.testbit (u64_at report 64) n = true -> n ∈ [0; 1; 2; 3; 4; 5; 7];
  we_product :
    byte_at report 392 = 25 /\ byte_at report 393 / 16 ∈ [0; 1; 10] /\
      Forall (fun offset => zero_range report (offset + 2) (offset + 6)) [56; 384; 480; 496] \/
    byte_at report 392 = 26 /\ byte_at report 393 / 16 ∈ [0; 1]
}.

(** The report carries every expected value: what the node's record says of it, the launch
    values and measurement of the release, and a signature by the chip's VCEK; it is well
    encoded, and it meets a whole profile of the policy that lists its chip. *)
Record report_matches (node : ExpectedSnpReport) (measurement : bytes) (launch : LaunchValues) (report : bytes)
    (policy : HardwarePolicy) : Prop := {
  rm_report_data : hex_decode (ex_report_data_sha512 node) = Some (slice report 80 144);
  rm_reported_tcb : hex_decode (ex_reported_tcb node) = Some (slice report 384 392);
  rm_chip_id : hex_decode (ex_chip_id node) = Some (slice report 416 480);
  rm_measurement : hex_decode measurement = Some (slice report 144 192);
  rm_family_id : hex_decode (lv_family_id launch) = Some (slice report 16 32);
  rm_image_id : hex_decode (lv_image_id launch) = Some (slice report 32 48);
  rm_host_data : hex_decode (lv_host_data launch) = Some (slice report 192 224);
  rm_id_key : hex_decode (lv_id_key_digest launch) = Some (slice report 224 272);
  rm_author_key : hex_decode (lv_author_key_digest launch) = Some (slice report 272 320);
  rm_vmpl : u32_at report 48 = lv_vmpl launch;
  rm_policy :
    from_str_radix16 (trim_0x (length (lv_policy launch)) (lv_policy launch)) = Some (u64_at report 8);
  rm_signature_algorithm : u32_at report 52 = 1;
  (** No masked chip key and no VLEK; the low bit tells of an author key. *)
  rm_key_info : forall n, 0 < n -> Z.testbit (u32_at report 72) n = false;
  rm_author_flag :
    Z.testbit (u32_at report 72) 0 = true <-> exists digit, digit ∈ lv_author_key_digest launch /\ digit <> x30;
  (** Without permission to migrate there is no migration agent. *)
  rm_migration_agent : Z.testbit (u64_at report 8) 18 = true \/
    slice report 352 384 = replicate 32 x00 \/ slice report 352 384 = replicate 32 xff;
  rm_encoding : well_encoded report;
  rm_profile : exists profile chip,
    profile ∈ hw_policies policy /\ chip ∈ ap_chip_ids profile /\
    hex_decode chip = Some (slice report 416 480) /\ meets report profile
}.

Lemma all_zero_range report a b :
  0 <= a <= b -> all_zero (slice report a b) = true -> zero_range report a b.
Proof.
  intros Hab Hz i Hi. replace i with (a + (i - a)) by lia. rewrite <- (byte_at_slice report a b) by lia.
  unfold byte_at, all_zero in *. rewrite forallb_forall in Hz.
  destruct (nth_in_or_default (Z.to_nat (i - a)) (slice report a b) x00) as [Hin| ->]; [|done].
  apply Hz in Hin. zbool. by rewrite Hin.
Qed.

Lemma byte_zero_range report i : byte_at report i = 0 -> zero_range report i (i + 1).
Proof. intros Hz j Hj. by replace j with i by lia. Qed.

Lemma forallb_replicate (c : byte) (l : bytes) n :
  zlen l = Z.of_nat n -> forallb (fun b => bool_decide (b = c)) l = true -> l = replicate n c.
Proof.
  intros Hl Hf. rewrite forallb_forall in Hf. symmetry. apply replicate_as_elem_of. split; [unfold zlen in Hl; lia|].
  intros b Hb. apply list_elem_of_In in Hb. apply Hf in Hb. by zbool.
Qed.

Lemma family19h_product name :
  name ∈ [ascii "Milan"; ascii "Genoa"; ascii "Siena"] ->
  exists profile, find_product name = Some profile /\ pp_tcb_layout profile = Family19h.
Proof. rewrite !elem_of_cons, elem_of_nil. intros [->|[->|[->|[]]]]; eexists; split; vm_compute; reflexivity. Qed.

(** A version-5 report that passes the two structural checks. *)
Lemma encoding_inv report facts product :
  zlen report = SNP_REPORT_BYTES ->
  inspect_report_product report 5 = Ok (facts, product) ->
  validate_raw_snp_report_encoding report 5 product = Ok tt -> well_encoded report.
Proof.
  intros Hlen Hi Hv. unfold validate_raw_snp_report_encoding in Hv. simpl Z.eqb in Hv. cbn match in Hv.
  destruct (existsb _ _ || _ || _) eqn:Er; [done|]. destruct (negb (Z.land _ _ =? 0)) eqn:Ep; [done|].
  simpl existsb in Er. zbool.
  split; [done| | |].
  - rewrite !Forall_cons. cbn [fst snd].
    split_and!; try done; (apply all_zero_range; [lia|done]) || by apply byte_zero_range.
  - intros n Hn Hb. apply (f_equal (fun z => Z.testbit z n)) in Ep.
    rewrite Z.land_spec, Z.lnot_spec, Z.bits_0, Hb in Ep by done. simpl andb in Ep. apply negb_false_iff in Ep.
    unfold SNP_PLATFORM_INFO_KNOWN_MASK in Ep.
    assert (n < 8) by (destruct (decide (n < 8)); [done|]; rewrite (Z.bits_above_log2 191) in Ep by (change (Z.log2 191) with 7; lia); done).
    rewrite !elem_of_cons. assert (n <> 6) by (by intros ->). lia.
  - unfold inspect_report_product, ok_or in Hi. simpl Z.eqb in Hi. cbn match in Hi.
    unfold amd_product_from_cpuid in Hi. rewrite Z.shiftr_div_pow2 in Hi by lia. change (2 ^ 4) with 16 in Hi.
    set (family := byte_at report 392) in *. set (model := byte_at report 393 / 16) in *.
    destruct ((family =? 26) && ((model =? 0) || (model =? 1))) eqn:E26.
    { right. zbool. split; [done|]. rewrite !elem_of_cons. lia. }
    left. assert (family = 25 /\ model ∈ [0; 1; 10] /\
      exists profile, product = Some profile /\ pp_tcb_layout profile = Family19h) as (Hf & Hm & profile & -> & Hp).
    { rewrite !elem_of_cons. destruct (family =? 25) eqn:E25; zbool; cycle 1.
      { done. }
      split; [done|]. destruct (model =? 0) eqn:M0; [|destruct (model =? 1) eqn:M1; [|destruct (model =? 10) eqn:M2]];
        cbn [andb] in Hi; zbool; try done; (split; [by auto|]);
        [destruct (family19h_product (ascii "Milan")) as (q & Hq & Hl)
        |destruct (family19h_product (ascii "Genoa")) as (q & Hq & Hl)
        |destruct (family19h_product (ascii "Siena")) as (q & Hq & Hl)]; try (rewrite !elem_of_cons; by auto);
        rewrite Hq, bool_decide_false in Hi by congruence;
        cbn [andb] in Hi; injection Hi as _ <-; eauto. }
    split_and!; [done|done|]. rewrite Hp, bool_decide_true in Hv by done.
    destruct (existsb _ _) eqn:Ex; [done|]. simpl existsb in Ex. zbool.
    rewrite !Forall_cons. split_and!; try done; apply all_zero_range; (done || lia).
Qed.

(** The rows of the comparison that are not equalities. *)
Lemma key_info_inv info : (Z.land info (Z.lnot 1) =? 0) = true -> forall n, 0 < n -> Z.testbit info n = false.
Proof.
  intros E n Hn. zbool. eapply land_none; [exact E|lia|]. rewrite Z.lnot_spec by lia.
  rewrite (Z.bits_above_log2 1) by (change (Z.log2 1) with 0; lia). done.
Qed.

Lemma author_flag_inv info digest :
  Bool.eqb (negb (Z.land info 1 =? 0)) (existsb (fun b => negb (bool_decide (b = x30))) digest) = true ->
  Z.testbit info 0 = true <-> exists digit, digit ∈ digest /\ digit <> x30.
Proof.
  intros E. apply eqb_prop in E. change 1 with (Z.ones 1) in E.
  rewrite Z.land_ones, Z.bit0_odd, Zodd_mod in * by lia. change (2 ^ 1) with 2 in E.
  assert ((exists digit, digit ∈ digest /\ digit <> x30) <-> existsb (fun b => negb (bool_decide (b = x30))) digest = true) as ->.
  { rewrite existsb_exists. split; intros (d & Hin & Hd); exists d; rewrite list_elem_of_In in *; zbool; auto.
    by rewrite bool_decide_false. }
  rewrite <- E. pose proof (Z.mod_pos_bound info 2). destruct (info mod 2 =? 0) eqn:E0, (info mod 2 =? 1) eqn:E1;
    zbool; split; (done || lia).
Qed.

Lemma migration_inv policy report :
  zlen report = SNP_REPORT_BYTES ->
  negb (Z.land policy SNP_POLICY_MIGRATE_MA =? 0) || is_absent_snp_migration_agent_id (slice report 352 384) = true ->
  Z.testbit policy 18 = true \/ slice report 352 384 = replicate 32 x00 \/ slice report 352 384 = replicate 32 xff.
Proof.
  intros Hl E. assert (zlen (slice report 352 384) = 32) as Hs
    by (rewrite zlen_slice; unfold SNP_REPORT_BYTES in Hl; lia).
  apply orb_true_iff in E as [E|E].
  - left. destruct (Z.testbit policy 18) eqn:Eb; [done|]. zbool. exfalso. apply E, land_none. intros n Hn.
    unfold SNP_POLICY_MIGRATE_MA. rewrite testbit_shift by lia. intros. zbool. by subst.
  - right. unfold is_absent_snp_migration_agent_id, all_zero in E.
    apply orb_true_iff in E as [E|E]; [left|right]; by apply forallb_replicate.
Qed.

Lemma bindings_match node measurement launch report policy :
  check_raw_report_bindings node measurement launch report (Some policy) = Ok tt ->
  report_matches node measurement launch report policy.
Proof.
  unfold check_raw_report_bindings. intros E.
  destruct (zlen report =? SNP_REPORT_BYTES) eqn:El; [|done]. simpl negb in E. cbn match in E. zbool.
  destruct (from_str_radix16 _) as [expected|] eqn:Ep; [|done]. simpl ok_or in E. cbn match in E.
  destruct ((u32_at report 0 <? 2) || (5 <? u32_at report 0)); [done|].
  destruct (inspect_report_product _ _) as [[[[fa mo] st] product]|] eqn:Ei; [|done].
  destruct (validate_raw_snp_report_encoding _ _ _) as [[]|] eqn:Ev; [|done].
  repeat match type of E with
  | match hex_bytes ?n ?v with _ => _ end = _ =>
      let H := fresh "Hx" in destruct (hex_bytes n v) eqn:H; [apply hex_bytes_ok in H|done]
  end.
  destruct (List.find _ _) as [[? ?]|] eqn:Ef; [done|].
  apply find_none_forall in Ef. rewrite !Forall_cons in Ef. cbn beta match in Ef.
  destruct Ef as (F1 & F2 & F3 & F4 & F5 & F6 & F7 & F8 & F9 & F10 & F11 & F12 & F13 & F14 & F15 & _).
  apply appraise_hardware_ok in E as (profile & chip & Hin & Hc & Hd & Ha).
  unfold appraise_snp_report in Ha. destruct (negb _) in Ha; [done|]. apply appraise_meets in Ha.
  rewrite (meets_version _ _ Ha) in Ei, Ev. pose proof (encoding_inv _ _ _ El Ei Ev) as Henc.
  apply negb_false_iff in F1, F2, F3, F4, F5, F6, F7, F8, F9, F10, F11, F12, F13, F14, F15.
  pose proof (key_info_inv _ F13) as Hkey. apply author_flag_inv in F14. apply migration_inv in F15; [|done].
  zbool. subst. split; try done. exists profile, chip. split_and!; try done. congruence.
Qed.

(** C9. A report accepted under a signed hardware policy is a well-encoded version-5 report
    that carries the expected report data, reported TCB, chip, measurement, host data, image
    identity, key digests, guest policy and VMPL; its signature algorithm and key information
    are those of a VCEK signature, its author flag is that of the launch values, and it has
    no migration agent unless the policy permits one. Its chip is listed by a profile of the
    signed policy, and the report has that profile's processor, all of its TCB minimums, no
    downgrade among its TCBs and firmware versions, every required and no forbidden platform
    feature, and all required mitigations. *)
Theorem report_accepted_sound node measurement launch report policy :
  check_raw_report_bindings node measurement launch report (Some policy) = Ok tt ->
  report_matches node measurement launch report policy.
Proof. apply bindings_match. Qed.
