(* ===== verification/Schemes.v ===== *)
(** Signature schemes of the offline Sigstore verifier: [offline-sigstore/src/crypto.rs].
    The curves, RSA and the decoder of a SubjectPublicKeyInfo are parameters. *)

From S2P Require Import Prelude Primitives.

Open Scope Z_scope.

(** Errors are the literal part of their text. *)
Abbreviation text_result A := (result A bytes).

(** [SubjectPublicKeyInfoRef]: the algorithm, its parameters where they are an object
    identifier, and the raw bits of the key. *)
Record SpkiRef : Type := { sr_oid : bytes; sr_parameters : option bytes; sr_key : bytes }.

Inductive RsaDigest : Type := DSha256 | DSha384 | DSha512.

(** What the RustCrypto crates decode and check. [rsa_bits] is the size of a decoded key's
    modulus; the decoders of signatures tell whether the bytes are one. *)
Class SchemePrimitives := {
  sha384_digest : bytes -> bytes;
  spki_ref : bytes -> option SpkiRef;
  ec256_key : bytes -> bool;
  ec256_signature : bytes -> bool;
  ec256_verify (key message signature : bytes) : bool;
  ec256_verify_prehash (key digest signature : bytes) : bool;
  ec384_key : bytes -> bool;
  ec384_signature : bytes -> bool;
  ec384_verify (key message signature : bytes) : bool;
  ec384_verify_prehash (key digest signature : bytes) : bool;
  ed25519_key : bytes -> bool;
  ed25519_signature : bytes -> bool;
  ed25519_verify (key message signature : bytes) : bool;
  rsa_bits : bytes -> option Z;
  rsa_signature : bytes -> bool;
  rsa_pkcs1_verify (digest : RsaDigest) (key message signature : bytes) : bool;
  rsa_pss_verify (digest : RsaDigest) (key message signature : bytes) : bool
}.

Definition ED25519_OID : bytes := ascii "1.3.101.112".
Definition ID_EC_PUBLIC_KEY : bytes := ascii "1.2.840.10045.2.1".
Definition SECP_256_R_1 : bytes := ascii "1.2.840.10045.3.1.7".
Definition SECP_384_R_1 : bytes := ascii "1.3.132.0.34".
Definition RSA_ENCRYPTION : bytes := ascii "1.2.840.113549.1.1.1".

Inductive Scheme : Type :=
| EcdsaP256Sha256 | EcdsaP256Sha384 | EcdsaP384Sha256 | EcdsaP384Sha384 | Ed25519
| RsaPkcs1Sha256 | RsaPkcs1Sha384 | RsaPkcs1Sha512 | RsaPssSha256 | RsaPssSha384 | RsaPssSha512.

#[export] Instance Scheme_eq_dec : EqDecision Scheme.
Proof. solve_decision. Defined.

Section Schemes.
Context `{Hash} `{SchemePrimitives}.

(** The macros [verify_pkcs1!] and [verify_pss!]. *)
Definition verify_pkcs1 (digest : RsaDigest) (key message signature : bytes) : text_result unit :=
  reject negb (rsa_signature signature) with ascii "invalid RSA PKCS#1 signature: ";
  reject negb (rsa_pkcs1_verify digest key message signature) with ascii "RSA PKCS#1 signature verification failed: ";
  Ok tt.

Definition verify_pss (digest : RsaDigest) (key message signature : bytes) : text_result unit :=
  reject negb (rsa_signature signature) with ascii "invalid RSA-PSS signature: ";
  reject negb (rsa_pss_verify digest key message signature) with ascii "RSA-PSS signature verification failed: ";
  Ok tt.

Definition verify_rsa (scheme : Scheme) (public_key message signature : bytes) : text_result unit :=
  let? bits := ok_or (rsa_bits public_key) (ascii "invalid RSA key: ") in
  reject negb ((2048 <=? bits) && (bits <=? 8192)) with ascii "RSA key size is outside 2048..=8192 bits";
  match scheme with
  | RsaPkcs1Sha256 => verify_pkcs1 DSha256 public_key message signature
  | RsaPkcs1Sha384 => verify_pkcs1 DSha384 public_key message signature
  | RsaPkcs1Sha512 => verify_pkcs1 DSha512 public_key message signature
  | RsaPssSha256 => verify_pss DSha256 public_key message signature
  | RsaPssSha384 => verify_pss DSha384 public_key message signature
  | RsaPssSha512 => verify_pss DSha512 public_key message signature
  | _ => Err (ascii "not an RSA signature scheme")
  end.

(** The two arms of each curve differ in the last check only. *)
Definition verify_p256 (verified : bool) (public_key signature : bytes) : text_result unit :=
  reject negb (ec256_key public_key) with ascii "invalid P-256 key: ";
  reject negb (ec256_signature signature) with ascii "invalid P-256 signature: ";
  reject negb verified with ascii "P-256 signature verification failed: ";
  Ok tt.

Definition verify_p384 (verified : bool) (public_key signature : bytes) : text_result unit :=
  reject negb (ec384_key public_key) with ascii "invalid P-384 key: ";
  reject negb (ec384_signature signature) with ascii "invalid P-384 signature: ";
  reject negb verified with ascii "P-384 signature verification failed: ";
  Ok tt.

Definition verify_raw (scheme : Scheme) (public_key message signature : bytes) : text_result unit :=
  match scheme with
  | EcdsaP256Sha256 => verify_p256 (ec256_verify public_key message signature) public_key signature
  | EcdsaP256Sha384 =>
      verify_p256 (ec256_verify_prehash public_key (sha384_digest message) signature) public_key signature
  | EcdsaP384Sha256 => verify_p384 (ec384_verify_prehash public_key (sha256 message) signature) public_key signature
  | EcdsaP384Sha384 => verify_p384 (ec384_verify public_key message signature) public_key signature
  | Ed25519 =>
      reject negb (zlen public_key =? 32) with ascii "Ed25519 public key must contain 32 bytes";
      reject negb (ed25519_key public_key) with ascii "invalid Ed25519 key: ";
      reject negb (ed25519_signature signature) with ascii "invalid Ed25519 signature: ";
      reject negb (ed25519_verify public_key message signature) with ascii "Ed25519 signature verification failed: ";
      Ok tt
  | rsa_scheme => verify_rsa rsa_scheme public_key message signature
  end.

(** The match on the scheme of [verify_spki]. *)
Definition scheme_matches (scheme : Scheme) (spki : SpkiRef) : bool :=
  match scheme with
  | EcdsaP256Sha256 | EcdsaP256Sha384 =>
      bool_decide (sr_oid spki = ID_EC_PUBLIC_KEY) && bool_decide (sr_parameters spki = Some SECP_256_R_1)
  | EcdsaP384Sha256 | EcdsaP384Sha384 =>
      bool_decide (sr_oid spki = ID_EC_PUBLIC_KEY) && bool_decide (sr_parameters spki = Some SECP_384_R_1)
  | Ed25519 => bool_decide (sr_oid spki = ED25519_OID)
  | _ => bool_decide (sr_oid spki = RSA_ENCRYPTION)
  end.

Definition verify_spki (spki_der : bytes) (scheme : Scheme) (message signature : bytes) : text_result unit :=
  let? spki := ok_or (spki_ref spki_der) (ascii "invalid SubjectPublicKeyInfo: ") in
  reject negb (scheme_matches scheme spki) with ascii "signature scheme does not match the public key";
  verify_raw scheme (sr_key spki) message signature.

Definition verify_spki_auto (spki_der message signature : bytes) : text_result unit :=
  let? spki := ok_or (spki_ref spki_der) (ascii "invalid SubjectPublicKeyInfo: ") in
  let? scheme :=
    if bool_decide (sr_oid spki = ED25519_OID) then Ok Ed25519
    else if bool_decide (sr_oid spki = ID_EC_PUBLIC_KEY) && bool_decide (sr_parameters spki = Some SECP_256_R_1)
    then Ok EcdsaP256Sha256
    else Err (ascii "unsupported automatic signature key type") in
  verify_spki spki_der scheme message signature.

(** ** Algorithms offered to the chain validator *)

(** The identifiers of [rustls_pki_types::alg_id] by name, and the encoded ones of this
    crate: PKCS #1 with absent parameters. *)
Inductive AlgorithmId : Type :=
| AlgEcdsaP256 | AlgEcdsaP384 | AlgEcdsaSha256 | AlgEcdsaSha384 | AlgEd25519 | AlgRsaEncryption
| AlgRsaPkcs1 (digest : RsaDigest) | AlgRsaPss (digest : RsaDigest) | AlgEncoded (der : bytes).

Record RustCryptoAlgorithm : Type := {
  ra_public_key_alg_id : AlgorithmId;
  ra_signature_alg_id : AlgorithmId;
  ra_scheme : Scheme
}.

(** [SignatureVerificationAlgorithm::verify_signature]. *)
Definition verify_signature_with (a : RustCryptoAlgorithm) (public_key message signature : bytes) : bool :=
  match verify_raw (ra_scheme a) public_key message signature with Ok _ => true | Err _ => false end.

Definition absent_parameters (last : byte) : AlgorithmId :=
  AlgEncoded [x06; x09; x2a; x86; x48; x86; xf7; x0d; x01; x01; last].

Definition rsa_algorithm (signature : AlgorithmId) (scheme : Scheme) : RustCryptoAlgorithm :=
  {| ra_public_key_alg_id := AlgRsaEncryption; ra_signature_alg_id := signature; ra_scheme := scheme |}.

Definition WEBPKI_ALGORITHMS : list RustCryptoAlgorithm := [
  {| ra_public_key_alg_id := AlgEcdsaP256; ra_signature_alg_id := AlgEcdsaSha256; ra_scheme := EcdsaP256Sha256 |};
  {| ra_public_key_alg_id := AlgEcdsaP256; ra_signature_alg_id := AlgEcdsaSha384; ra_scheme := EcdsaP256Sha384 |};
  {| ra_public_key_alg_id := AlgEcdsaP384; ra_signature_alg_id := AlgEcdsaSha256; ra_scheme := EcdsaP384Sha256 |};
  {| ra_public_key_alg_id := AlgEcdsaP384; ra_signature_alg_id := AlgEcdsaSha384; ra_scheme := EcdsaP384Sha384 |};
  {| ra_public_key_alg_id := AlgEd25519; ra_signature_alg_id := AlgEd25519; ra_scheme := Ed25519 |};
  rsa_algorithm (AlgRsaPkcs1 DSha256) RsaPkcs1Sha256;
  rsa_algorithm (AlgRsaPkcs1 DSha384) RsaPkcs1Sha384;
  rsa_algorithm (AlgRsaPkcs1 DSha512) RsaPkcs1Sha512;
  rsa_algorithm (absent_parameters x0b) RsaPkcs1Sha256;
  rsa_algorithm (absent_parameters x0c) RsaPkcs1Sha384;
  rsa_algorithm (absent_parameters x0d) RsaPkcs1Sha512;
  rsa_algorithm (AlgRsaPss DSha256) RsaPssSha256;
  rsa_algorithm (AlgRsaPss DSha384) RsaPssSha384;
  rsa_algorithm (AlgRsaPss DSha512) RsaPssSha512 ].

(** ** What a verified signature shows *)

(** A signature checked by the primitive of its scheme under the key of its info. *)
Definition signed_by (spki_der : bytes) (scheme : Scheme) (message signature : bytes) : Prop :=
  exists spki, spki_ref spki_der = Some spki /\ scheme_matches scheme spki = true /\
    verify_raw scheme (sr_key spki) message signature = Ok tt.

Lemma verify_spki_ok spki_der scheme message signature :
  verify_spki spki_der scheme message signature = Ok tt <-> signed_by spki_der scheme message signature.
Proof.
  unfold verify_spki, signed_by. destruct (spki_ref spki_der) as [spki|]; cbn [ok_or]; [|split; [done|by intros (? & ? & _)]].
  split.
  - destruct (scheme_matches scheme spki) eqn:E; [|done]. intros Hr. by exists spki.
  - intros (? & [= <-] & -> & Hr). done.
Qed.

(** The automatic choice is Ed25519 or P-256 with SHA-256. *)
Lemma verify_spki_auto_ok spki_der message signature :
  verify_spki_auto spki_der message signature = Ok tt ->
  signed_by spki_der Ed25519 message signature \/ signed_by spki_der EcdsaP256Sha256 message signature.
Proof.
  unfold verify_spki_auto. destruct (spki_ref spki_der) as [spki|]; cbn [ok_or]; [|done].
  case_bool_decide; [intros E; left; by apply verify_spki_ok|].
  destruct (_ && _); [|done]. intros E. right. by apply verify_spki_ok.
Qed.

End Schemes.
