(* ===== verification/TrustRoot.v ===== *)
(** Sigstore's keys and their validity periods: [offline-sigstore/src/trust_root.rs]. *)

From S2P Require Import Prelude Primitives Json Signing Attestation Documents Deserialize Approvals Schemes.

Open Scope Z_scope.

(** The fields of a derived struct that ignores unknown ones, read from a text: a known
    field may come once. *)
Definition open_struct (names : list bytes) (v : Value) : option (list (option Value)) :=
  match v with
  | JObject fields =>
      if bool_decide (NoDup (List.filter (fun k => bool_decide (k ∈ names)) fields.*1))
      then Some (field fields <$> names) else None
  | _ => struct_values names v
  end.

(** [Option<T>] and a vector with [#[serde(default)]]. *)
Definition as_option {A} (f : Value -> option A) (v : option Value) : option (option A) :=
  match v with None | Some JNull => Some None | Some v => Some <$> f v end.
Definition as_default_vec {A} (f : Value -> option A) (v : option Value) : option (list A) :=
  match v with None => Some [] | Some v => as_vec f v end.

(** ** The document *)

Record TrustValidity : Type := { tv_start : option bytes; tv_end : option bytes }.
Record CertificateAuthority : Type := { au_chain : list bytes; au_valid_for : option TrustValidity }.
Record TransparencyLog : Type := {
  lg_hash_algorithm : bytes;
  lg_raw_bytes : bytes;
  lg_key_details : bytes;
  lg_valid_for : option TrustValidity;
  lg_key_id : bytes
}.
Record TrustedRootDocument : Type := {
  td_media_type : bytes;
  td_certificate_authorities : list CertificateAuthority;
  td_tlogs : list TransparencyLog;
  td_ctlogs : list TransparencyLog;
  td_timestamp_authorities : list CertificateAuthority
}.

Definition TrustValidity_from_value (v : Value) : option TrustValidity :=
  match open_struct [ascii "start"; ascii "end"] v with
  | Some [start; end_] =>
      start ← as_opt_str start;
      end_ ← as_opt_str end_;
      Some {| tv_start := start; tv_end := end_ |}
  | _ => None
  end.

(** [CertificateEntry]. *)
Definition CertificateEntry_from_value (v : Value) : option bytes :=
  match open_struct [ascii "rawBytes"] v with Some [raw] => raw ≫= as_str | _ => None end.
(** [CertificateChain]. *)
Definition CertificateChain_from_value (v : Value) : option (list bytes) :=
  match open_struct [ascii "certificates"] v with
  | Some [certificates] => certificates ≫= as_vec CertificateEntry_from_value
  | _ => None
  end.

Definition CertificateAuthority_from_value (v : Value) : option CertificateAuthority :=
  match open_struct [ascii "certChain"; ascii "validFor"] v with
  | Some [chain; valid_for] =>
      chain ← chain ≫= CertificateChain_from_value;
      valid_for ← as_option TrustValidity_from_value valid_for;
      Some {| au_chain := chain; au_valid_for := valid_for |}
  | _ => None
  end.

(** [PublicKey] and [LogId]. *)
Definition PublicKey_from_value (v : Value) : option (bytes * bytes * option TrustValidity) :=
  match open_struct [ascii "rawBytes"; ascii "keyDetails"; ascii "validFor"] v with
  | Some [raw; details; valid_for] =>
      raw ← raw ≫= as_str;
      details ← details ≫= as_str;
      valid_for ← as_option TrustValidity_from_value valid_for;
      Some (raw, details, valid_for)
  | _ => None
  end.
Definition RootLogId_from_value (v : Value) : option bytes :=
  match open_struct [ascii "keyId"] v with Some [id] => id ≫= as_str | _ => None end.

Definition TransparencyLog_from_value (v : Value) : option TransparencyLog :=
  match open_struct [ascii "hashAlgorithm"; ascii "publicKey"; ascii "logId"] v with
  | Some [algorithm; key; id] =>
      algorithm ← algorithm ≫= as_str;
      '(raw, details, valid_for) ← key ≫= PublicKey_from_value;
      id ← id ≫= RootLogId_from_value;
      Some {| lg_hash_algorithm := algorithm; lg_raw_bytes := raw; lg_key_details := details;
              lg_valid_for := valid_for; lg_key_id := id |}
  | _ => None
  end.

Definition TrustedRootDocument_from_value (v : Value) : option TrustedRootDocument :=
  match open_struct [ascii "mediaType"; ascii "certificateAuthorities"; ascii "tlogs"; ascii "ctlogs";
                     ascii "timestampAuthorities"] v with
  | Some [media_type; authorities; tlogs; ctlogs; timestamps] =>
      media_type ← media_type ≫= as_str;
      authorities ← as_default_vec CertificateAuthority_from_value authorities;
      tlogs ← as_default_vec TransparencyLog_from_value tlogs;
      ctlogs ← as_default_vec TransparencyLog_from_value ctlogs;
      timestamps ← as_default_vec CertificateAuthority_from_value timestamps;
      Some {| td_media_type := media_type; td_certificate_authorities := authorities; td_tlogs := tlogs;
              td_ctlogs := ctlogs; td_timestamp_authorities := timestamps |}
  | _ => None
  end.

(** ** The root *)

Definition TRUST_MEDIA_TYPE : bytes := ascii "application/vnd.dev.sigstore.trustedroot+json;version=0.1".

Record LogKey : Type := { lk_id : bytes; lk_spki : bytes; lk_validity : option TrustValidity }.
Record Authority : Type := { ay_certificates : list bytes; ay_validity : option TrustValidity }.
Record RootKeys : Type := {
  tr_fulcio : list Authority;
  tr_rekor : list LogKey;
  tr_ct : list LogKey;
  tr_tsa : list Authority
}.

Section TrustRoot.
Context `{Json} `{Hash} `{Encodings}.

Definition trust_decode (value : bytes) : text_result bytes := ok_or (base64_decode value) (ascii "invalid base64 ").

(** The second in which the instant lies. *)
Definition trust_time (value : bytes) : text_result Z :=
  let? (millis, _, _) := ok_or (parse_rfc3339 value) (ascii "invalid trusted-root time ") in Ok (millis / 1000).

(** [Option::transpose] of a parsed bound. *)
Definition trust_bound (bound : option bytes) : text_result (option Z) :=
  match bound with Some text => let? t := trust_time text in Ok (Some t) | None => Ok None end.

Definition contains_seconds (v : TrustValidity) (time : Z) : text_result bool :=
  let? start := trust_bound (tv_start v) in
  let? end_ := trust_bound (tv_end v) in
  Ok (match start with Some start => start <=? time | None => true end
      && match end_ with Some end_ => time <=? end_ | None => true end).

(** [map_or(Ok(true), ...)]. *)
Definition valid_at (validity : option TrustValidity) (time : Z) : text_result bool :=
  match validity with Some v => contains_seconds v time | None => Ok true end.

(** The loop over one authority's certificates, with every digest seen. *)
Definition fresh_certificate (hashes : list bytes) (certificate : bytes) : text_result (list bytes) :=
  reject bool_decide (sha256 certificate ∈ hashes) with ascii "duplicate  certificate";
  Ok (sha256 certificate :: hashes).

Definition parse_authority (state : list bytes * list Authority) (authority : CertificateAuthority)
  : text_result (list bytes * list Authority) :=
  let '(hashes, authorities) := state in
  reject zlen (au_chain authority) =? 0 with ascii " authority contains no certificates";
  let? certificates := mapR trust_decode (au_chain authority) in
  let? hashes := foldR fresh_certificate hashes certificates in
  Ok (hashes, authorities ++ [{| ay_certificates := certificates; ay_validity := au_valid_for authority |}]).

Definition parse_authorities (authorities : list CertificateAuthority) : text_result (list Authority) :=
  let? (_, authorities) := foldR parse_authority ([], []) authorities in Ok authorities.

(** The filter on supported logs. *)
Definition supported_log (log : TransparencyLog) : bool :=
  bool_decide (lg_hash_algorithm log = ascii "SHA2_256")
  && bool_decide (lg_key_details log ∈ [ascii "PKIX_ECDSA_P256_SHA_256"; ascii "PKIX_ED25519"]).

Definition parse_log (state : list bytes * list LogKey) (log : TransparencyLog)
  : text_result (list bytes * list LogKey) :=
  let '(ids, keys) := state in
  let? spki := trust_decode (lg_raw_bytes log) in
  let? id := trust_decode (lg_key_id log) in
  reject negb (zlen id =? 32) || bool_decide (id ∈ ids) with ascii "invalid or duplicate  log id";
  Ok (id :: ids, keys ++ [{| lk_id := id; lk_spki := spki; lk_validity := lg_valid_for log |}]).

Definition parse_logs (logs : list TransparencyLog) : text_result (list LogKey) :=
  let? (_, keys) := foldR parse_log ([], []) (List.filter supported_log logs) in Ok keys.

Definition RootKeys_from_json (json : bytes) : text_result RootKeys :=
  let? document := ok_or (json_tree json ≫= TrustedRootDocument_from_value) (ascii "invalid Sigstore trusted root: ") in
  reject negb (bool_decide (td_media_type document = TRUST_MEDIA_TYPE))
    with ascii "unsupported Sigstore trusted-root media type";
  let? fulcio := parse_authorities (td_certificate_authorities document) in
  let? tsa := parse_authorities (td_timestamp_authorities document) in
  let? rekor := parse_logs (td_tlogs document) in
  let? ct := parse_logs (td_ctlogs document) in
  Ok {| tr_fulcio := fulcio; tr_rekor := rekor; tr_ct := ct; tr_tsa := tsa |}.

Definition RootKeys_complete (json : bytes) : text_result RootKeys :=
  let? root := RootKeys_from_json json in
  reject (zlen (tr_fulcio root) =? 0) || (zlen (tr_rekor root) =? 0) || (zlen (tr_ct root) =? 0)
    with ascii "Sigstore trusted root is incomplete";
  Ok root.

(** ** Selection by time *)

Fixpoint key_at (keys : list LogKey) (id : bytes) (time : Z) : text_result LogKey :=
  match keys with
  | [] => Err (ascii "no  key was valid for the authenticated time")
  | key :: keys =>
      if bool_decide (lk_id key = id) then
        let? valid := valid_at (lk_validity key) time in
        if valid then Ok key else key_at keys id time
      else key_at keys id time
  end.

(** One turn of the loop of [certificates_at]. *)
Definition add_certificates (time : Z) (certificates : list bytes) (authority : Authority) : text_result (list bytes) :=
  let? valid := valid_at (ay_validity authority) time in
  Ok (if valid then certificates ++ ay_certificates authority else certificates).

Definition certificates_at (authorities : list Authority) (time : Z) : text_result (list bytes) :=
  let? certificates := foldR (add_certificates time) [] authorities in
  reject zlen certificates =? 0 with ascii "no certificate authority was valid for the authenticated time";
  Ok certificates.

Definition fulcio_certificates_at (root : RootKeys) (time : Z) : text_result (list bytes) :=
  certificates_at (tr_fulcio root) time.
Definition rekor_key_at (root : RootKeys) (id : bytes) (time : Z) : text_result LogKey := key_at (tr_rekor root) id time.
Definition ct_key_at (root : RootKeys) (id : bytes) (time : Z) : text_result LogKey := key_at (tr_ct root) id time.

(** [filter_map] and [collect]: the first bad validity is the error. *)
Fixpoint tsa_authorities_loop (authorities : list Authority) (time : Z) : text_result (list Authority) :=
  match authorities with
  | [] => Ok []
  | authority :: rest =>
      let? valid := valid_at (ay_validity authority) time in
      let? rest := tsa_authorities_loop rest time in
      Ok (if valid then authority :: rest else rest)
  end.
Definition tsa_authorities_at (root : RootKeys) (time : Z) : text_result (list Authority) :=
  tsa_authorities_loop (tr_tsa root) time.

(** ** What selection gives *)

(** A validity period that contains an instant. *)
Definition period_contains (validity : option TrustValidity) (time : Z) : Prop :=
  valid_at validity time = Ok true.

Lemma key_at_spec keys id time key :
  key_at keys id time = Ok key -> key ∈ keys /\ lk_id key = id /\ period_contains (lk_validity key) time.
Proof.
  induction keys as [|k keys IH]; cbn [key_at]; [done|]. case_bool_decide as Hid.
  - destruct (valid_at (lk_validity k) time) as [[]|] eqn:E; [|..|done].
    + intros [= <-]. split_and!; [left|done|done].
    + intros Hk. destruct (IH Hk) as (? & ? & ?). split_and!; [by right|done..].
  - intros Hk. destruct (IH Hk) as (? & ? & ?). split_and!; [by right|done..].
Qed.

Lemma parse_log_steps logs state state' :
  foldR parse_log state logs = Ok state' ->
  state.1 ≡ₚ lk_id <$> state.2 -> NoDup state.1 ->
  state'.1 ≡ₚ lk_id <$> state'.2 /\ NoDup state'.1.
Proof.
  revert state. induction logs as [|log logs IH]; intros [ids keys]; cbn [foldR]; [by intros [= <-]|].
  unfold parse_log at 1. destruct (trust_decode _) as [spki|]; [|done]. destruct (trust_decode _) as [id|]; [|done].
  destruct (_ || _) eqn:E; [done|]. intros Hf Hp Hn. apply orb_false_iff in E as [_ E]. apply bool_decide_eq_false in E.
  apply (IH _ Hf); cbn [fst snd] in *.
  - rewrite fmap_app, Hp. cbn. apply Permutation_cons_append.
  - by constructor.
Qed.

(** The keys of a parsed log list have distinct identifiers, so at most one answers. *)
Lemma parse_logs_distinct logs keys : parse_logs logs = Ok keys -> NoDup (lk_id <$> keys).
Proof.
  unfold parse_logs. destruct (foldR _ _ _) as [[ids keys']|] eqn:E; [|done]. intros [= <-].
  apply parse_log_steps in E as [Hp Hn]; [|done|constructor]. cbn in *. by rewrite <- Hp.
Qed.

End TrustRoot.
