(* ===== verification/Tlog.v ===== *)
(** Rekor: the log entries of [offline-sigstore/src/sigstore.rs], their signed timestamp,
    inclusion proof, checkpoint and body of [tlog.rs], and the published documents of
    [hashedrekord.rs]. *)

From S2P Require Import Prelude MerkleTheory Primitives Text Json Signing Attestation Documents Deserialize Approvals.
From S2P Require Import Schemes TrustRoot.

Open Scope Z_scope.

(** ** sigstore.rs: log entries and envelopes *)

Record InclusionProof : Type := {
  ip_log_index : bytes;
  ip_root_hash : bytes;
  ip_tree_size : bytes;
  ip_hashes : list bytes;
  ip_checkpoint : bytes
}.

(** [LogId], [KindVersion], [InclusionPromise] and [CheckpointEnvelope] hold one or two
    strings each. *)
Record TransparencyLogEntry : Type := {
  te_log_index : bytes;
  te_log_id : bytes;
  te_kind : bytes;
  te_version : bytes;
  te_integrated_time : bytes;
  te_inclusion_promise : option bytes;
  te_inclusion_proof : option InclusionProof;
  te_canonicalized_body : bytes
}.

Record DsseSignature : Type := { dg_keyid : bytes; dg_sig : bytes }.
Record DsseEnvelope : Type := {
  de_payload : bytes;
  de_payload_type : bytes;
  de_signatures : list DsseSignature
}.

Definition LogId_from_value (v : Value) : option bytes :=
  match struct_values [ascii "keyId"] v with Some [id] => id ≫= as_str | _ => None end.
Definition KindVersion_from_value (v : Value) : option (bytes * bytes) :=
  match struct_values [ascii "kind"; ascii "version"] v with
  | Some [kind; version] => kind ← kind ≫= as_str; version ← version ≫= as_str; Some (kind, version)
  | _ => None
  end.
Definition InclusionPromise_from_value (v : Value) : option bytes :=
  match struct_values [ascii "signedEntryTimestamp"] v with Some [set] => set ≫= as_str | _ => None end.
Definition CheckpointEnvelope_from_value (v : Value) : option bytes :=
  match struct_values [ascii "envelope"] v with Some [envelope] => envelope ≫= as_str | _ => None end.

Definition InclusionProof_from_value (v : Value) : option InclusionProof :=
  match struct_values [ascii "logIndex"; ascii "rootHash"; ascii "treeSize"; ascii "hashes"; ascii "checkpoint"] v with
  | Some [index; root; size; hashes; checkpoint] =>
      index ← index ≫= as_str;
      root ← root ≫= as_str;
      size ← size ≫= as_str;
      hashes ← hashes ≫= as_vec as_str;
      checkpoint ← checkpoint ≫= CheckpointEnvelope_from_value;
      Some {| ip_log_index := index; ip_root_hash := root; ip_tree_size := size; ip_hashes := hashes;
              ip_checkpoint := checkpoint |}
  | _ => None
  end.

Definition TransparencyLogEntry_from_value (v : Value) : option TransparencyLogEntry :=
  match struct_values [ascii "logIndex"; ascii "logId"; ascii "kindVersion"; ascii "integratedTime";
                       ascii "inclusionPromise"; ascii "inclusionProof"; ascii "canonicalizedBody"] v with
  | Some [index; id; kind; time; promise; proof; body] =>
      index ← index ≫= as_str;
      id ← id ≫= LogId_from_value;
      '(kind, version) ← kind ≫= KindVersion_from_value;
      time ← time ≫= as_str;
      promise ← as_option InclusionPromise_from_value promise;
      proof ← as_option InclusionProof_from_value proof;
      body ← body ≫= as_str;
      Some {| te_log_index := index; te_log_id := id; te_kind := kind; te_version := version;
              te_integrated_time := time; te_inclusion_promise := promise; te_inclusion_proof := proof;
              te_canonicalized_body := body |}
  | _ => None
  end.

(** [keyid] defaults to the empty string. *)
Definition DsseSignature_from_value (v : Value) : option DsseSignature :=
  match struct_values [ascii "keyid"; ascii "sig"] v with
  | Some [keyid; sig] =>
      keyid ← match keyid with None => Some [] | Some v => as_str v end;
      sig ← sig ≫= as_str;
      Some {| dg_keyid := keyid; dg_sig := sig |}
  | _ => None
  end.

Definition DsseEnvelope_from_value (v : Value) : option DsseEnvelope :=
  match struct_values [ascii "payload"; ascii "payloadType"; ascii "signatures"] v with
  | Some [payload; payload_type; signatures] =>
      payload ← payload ≫= as_str;
      payload_type ← payload_type ≫= as_str;
      signatures ← signatures ≫= as_vec DsseSignature_from_value;
      Some {| de_payload := payload; de_payload_type := payload_type; de_signatures := signatures |}
  | _ => None
  end.

(** ** tlog.rs: Merkle paths *)

Definition MAX_REKOR_HASHES : Z := 64.
Definition MAX_CHECKPOINT_BYTES : Z := 16 * 1024.

(** The loop over the siblings, for any node function. *)
Fixpoint rekor_climb {A} (node : A -> A -> A) (index last_node : Z) (hash : A) (siblings : list A) : A :=
  match siblings with
  | [] => hash
  | sibling :: rest =>
      let hash := if (index mod 2 =? 1) || (index =? last_node) then node sibling hash else node hash sibling in
      rekor_climb node (index / 2) (last_node / 2) hash rest
  end.

(** The loop of [expected_proof_length]; a 64-bit size halves at most 64 times. *)
Fixpoint proof_length_loop (fuel : nat) (index size count : Z) : Z :=
  match fuel with
  | O => count
  | S fuel =>
      if 1 <? size then
        let count := if (size mod 2 =? 1) && (index =? size - 1) then count else count + 1 in
        proof_length_loop fuel (index / 2) ((size + 1) / 2) count
      else count
  end.
Definition expected_proof_length (index size : Z) : Z := proof_length_loop 64 index size 0.

(** [pem::parse] gives the tag and the contents; Ed25519ph is checked under a DER key. *)
Class RekorPrimitives := {
  pem_parse : bytes -> option (bytes * bytes);
  ed25519ph_verify_strict (key_der artifact signature : bytes) : bool
}.

Section Tlog.
Context `{Json} `{Hash} `{Encodings} `{SchemePrimitives} `{RekorPrimitives}.

Definition leaf_input (body : bytes) : bytes := x00 :: body.
Definition node_input (left right : bytes) : bytes := x01 :: left ++ right.
Definition rekor_node (left right : bytes) : bytes := sha256 (node_input left right).

Definition verify_merkle (body : bytes) (leaf_index tree_size : Z) (siblings : list bytes) (expected_root : bytes)
  : text_result unit :=
  reject (tree_size =? 0) || (tree_size <=? leaf_index)
    with ascii "Rekor inclusion proof has an invalid index or tree size";
  reject negb (zlen siblings =? expected_proof_length leaf_index tree_size)
    with ascii "Rekor inclusion proof has  siblings; expected ";
  let hash := rekor_climb rekor_node leaf_index (tree_size - 1) (sha256 (leaf_input body)) siblings in
  reject negb (bool_decide (hash = expected_root)) with ascii "Rekor inclusion proof root differs";
  Ok tt.

(** ** tlog.rs: signed notes *)

Definition rekor_i64 (value : bytes) : text_result Z := ok_or (parse_i64 value) (ascii "invalid ").
Definition rekor_u64 (value : bytes) : text_result Z := ok_or (parse_unsigned u64_max value) (ascii "invalid ").

Definition decode_32 (value : bytes) : text_result bytes :=
  let? b := ok_or (base64_decode value) (ascii "invalid  encoding: ") in
  reject negb (zlen b =? 32) with ascii " must contain 32 bytes";
  Ok b.

(** The dash that opens a signature line. *)
Definition EM_DASH : bytes := [xe2; x80; x94].

(** The next item of an iterator. *)
Definition next_line (l : list bytes) (absent : bytes) : text_result (bytes * list bytes) :=
  match l with line :: rest => Ok (line, rest) | [] => Err absent end.

(** One turn of the loop over the signature lines, with the number that matched. *)
Definition check_note_line (signed hint key : bytes) (matching : Z) (line : bytes) : text_result Z :=
  match split_whitespace line with
  | dash :: host :: rest =>
      reject negb (bool_decide (dash = EM_DASH)) || negb (bool_decide (host = ascii "rekor.sigstore.dev"))
        with ascii "Rekor checkpoint signature line is malformed";
      match rest with
      | [] => Err (ascii "Rekor checkpoint signature is absent")
      | [encoded] =>
          let? decoded := ok_or (base64_decode encoded) (ascii "invalid checkpoint signature encoding: ") in
          if (zlen decoded <=? 4) || negb (bool_decide (slice_to decoded 4 = hint)) then Ok matching
          else
            let? _ := map_err (fun _ => ascii "Rekor checkpoint verification failed: ")
              (verify_spki_auto key signed (slice_from decoded 4)) in
            Ok (matching + 1)
      | _ => Err (ascii "Rekor checkpoint signature has extra fields")
      end
  | _ => Err (ascii "Rekor checkpoint signature line is malformed")
  end.

Definition verify_checkpoint (envelope : bytes) (expected_tree_size : Z) (expected_root log_id key : bytes)
  : text_result unit :=
  reject contains [x0d] envelope with ascii "Rekor checkpoint must use canonical LF line endings";
  let? (body, signatures) := ok_or (split_once [x0a; x0a] envelope)
    (ascii "Rekor checkpoint has no signed-note separator") in
  reject contains [x0a; x0a] signatures with ascii "Rekor checkpoint contains multiple signature sections";
  let? (origin, rest) := next_line (lines body) (ascii "Rekor checkpoint origin is absent") in
  reject negb (has_prefix (ascii "rekor.sigstore.dev - ") origin)
    with ascii "Rekor checkpoint origin is not the public-good log";
  let? (size, rest) := next_line rest (ascii "Rekor checkpoint tree size is absent") in
  let? tree_size := ok_or (parse_unsigned u64_max size) (ascii "Rekor checkpoint tree size is invalid") in
  let? (root, rest) := next_line rest (ascii "Rekor checkpoint root is absent") in
  let? root_hash := decode_32 root in
  reject negb (tree_size =? expected_tree_size) || negb (bool_decide (root_hash = expected_root))
    with ascii "Rekor checkpoint does not bind the inclusion proof tree";
  reject existsb (fun line => 256 <? zlen line) rest with ascii "Rekor checkpoint metadata exceeds resource limits";
  let signed := body ++ [x0a] in
  let? matching := foldR (check_note_line signed (slice_to log_id 4) key) 0
    (List.filter (fun line => negb (zlen line =? 0)) (lines signatures)) in
  reject negb (matching =? 1) with ascii "Rekor checkpoint requires exactly one matching valid signature";
  Ok tt.

(** ** tlog.rs: entries *)

Definition RekorSetPayload_to_value (body : bytes) (integrated_time log_index : Z) (log_id : bytes) : Value :=
  JObject [(ascii "body", JString body); (ascii "integratedTime", jint integrated_time);
           (ascii "logIndex", jint log_index); (ascii "logID", JString log_id)].

Definition verify_set (entry : TransparencyLogEntry) (log_id key : bytes) : text_result unit :=
  let? promise := ok_or (te_inclusion_promise entry) (ascii "GitHub Sigstore profile requires a Rekor SET") in
  let? signature := ok_or (base64_decode promise) (ascii "invalid Rekor SET encoding: ") in
  let? integrated_time := rekor_i64 (te_integrated_time entry) in
  let? log_index := rekor_i64 (te_log_index entry) in
  let? canonical := ok_or (json_canonical (RekorSetPayload_to_value (te_canonicalized_body entry) integrated_time
    log_index (hex_encode log_id))) (ascii "could not canonicalize Rekor SET: ") in
  map_err (fun _ => ascii "Rekor SET verification failed: ") (verify_spki_auto key canonical signature).

Definition verify_inclusion (entry : TransparencyLogEntry) (log_id key : bytes) : text_result unit :=
  let? proof := ok_or (te_inclusion_proof entry)
    (ascii "GitHub Sigstore profile requires a Rekor inclusion proof") in
  reject (MAX_REKOR_HASHES <? zlen (ip_hashes proof)) || (MAX_CHECKPOINT_BYTES <? zlen (ip_checkpoint proof))
    with ascii "Rekor proof exceeds resource limits";
  let? leaf_index := rekor_u64 (ip_log_index proof) in
  let? tree_size := rekor_u64 (ip_tree_size proof) in
  let? expected_root := decode_32 (ip_root_hash proof) in
  let? siblings := mapR decode_32 (ip_hashes proof) in
  let? body := ok_or (base64_decode (te_canonicalized_body entry)) (ascii "invalid Rekor body encoding: ") in
  let? _ := verify_merkle body leaf_index tree_size siblings expected_root in
  verify_checkpoint (ip_checkpoint proof) tree_size expected_root log_id key.

Definition verify_publication (entry : TransparencyLogEntry) (now_seconds : Z) (root : RootKeys) : text_result Z :=
  let? integrated_time := rekor_i64 (te_integrated_time entry) in
  reject (integrated_time <=? 0) || (now_seconds + 60 <? integrated_time)
    with ascii "Rekor integrated time is invalid or in the future";
  let? log_id := decode_32 (te_log_id entry) in
  let? log_key := rekor_key_at root log_id integrated_time in
  let? _ := verify_set entry log_id (lk_spki log_key) in
  let? _ := verify_inclusion entry log_id (lk_spki log_key) in
  Ok integrated_time.

(** ** tlog.rs: the body of a DSSE entry *)

Record RekorDsseBody : Type := {
  rd_api_version : bytes;
  rd_kind : bytes;
  rd_envelope_hash : bytes * bytes;
  rd_payload_hash : bytes * bytes;
  rd_signatures : list (bytes * bytes)
}.

(** [RekorHash]: the algorithm and the value. *)
Definition RekorHash_from_value (v : Value) : option (bytes * bytes) :=
  match text_struct [ascii "algorithm"; ascii "value"] v with
  | Some [algorithm; value] => algorithm ← algorithm ≫= as_str; value ← value ≫= as_str; Some (algorithm, value)
  | _ => None
  end.
(** [RekorDsseSignature]: the signature and the verifier. *)
Definition RekorDsseSignature_from_value (v : Value) : option (bytes * bytes) :=
  match text_struct [ascii "signature"; ascii "verifier"] v with
  | Some [signature; verifier] =>
      signature ← signature ≫= as_str; verifier ← verifier ≫= as_str; Some (signature, verifier)
  | _ => None
  end.
Definition RekorDsseSpec_from_value (v : Value)
  : option ((bytes * bytes) * (bytes * bytes) * list (bytes * bytes)) :=
  match text_struct [ascii "envelopeHash"; ascii "payloadHash"; ascii "signatures"] v with
  | Some [envelope; payload; signatures] =>
      envelope ← envelope ≫= RekorHash_from_value;
      payload ← payload ≫= RekorHash_from_value;
      signatures ← signatures ≫= as_vec RekorDsseSignature_from_value;
      Some (envelope, payload, signatures)
  | _ => None
  end.
Definition RekorDsseBody_from_value (v : Value) : option RekorDsseBody :=
  match text_struct [ascii "apiVersion"; ascii "kind"; ascii "spec"] v with
  | Some [version; kind; spec] =>
      version ← version ≫= as_str;
      kind ← kind ≫= as_str;
      '(envelope, payload, signatures) ← spec ≫= RekorDsseSpec_from_value;
      Some {| rd_api_version := version; rd_kind := kind; rd_envelope_hash := envelope;
              rd_payload_hash := payload; rd_signatures := signatures |}
  | _ => None
  end.

Definition verify_body_binding (entry : TransparencyLogEntry) (envelope : DsseEnvelope) (certificate_der : bytes)
  : text_result unit :=
  let? canonical_body := ok_or (base64_decode (te_canonicalized_body entry)) (ascii "invalid Rekor canonical body: ") in
  let? body := ok_or (json_tree canonical_body ≫= RekorDsseBody_from_value) (ascii "invalid Rekor DSSE body: ") in
  let unsupported := Err (ascii "unsupported or ambiguous Rekor DSSE body") in
  if negb (bool_decide (rd_api_version body = ascii "0.0.1")) || negb (bool_decide (rd_kind body = ascii "dsse"))
     || negb (bool_decide ((rd_payload_hash body).1 = ascii "sha256"))
     || negb (bool_decide ((rd_envelope_hash body).1 = ascii "sha256"))
     || negb (zlen (rd_payload_hash body).2 =? 64) || negb (zlen (rd_envelope_hash body).2 =? 64)
  then unsupported else
  match rd_signatures body, de_signatures envelope with
  | [(logged, verifier)], [signature] =>
      let? payload := ok_or (base64_decode (de_payload envelope)) (ascii "invalid DSSE payload: ") in
      reject negb (bool_decide (hex_encode (sha256 payload) = (rd_payload_hash body).2))
        with ascii "Rekor payload hash does not bind the DSSE payload";
      let? rekor_signature := ok_or (base64_decode logged) (ascii "invalid Rekor DSSE signature encoding: ") in
      let? bundle_signature := ok_or (base64_decode (dg_sig signature))
        (ascii "invalid bundle DSSE signature encoding: ") in
      reject negb (bool_decide (rekor_signature = bundle_signature))
        with ascii "Rekor DSSE signature differs from the bundle";
      let? verifier := ok_or (base64_decode verifier) (ascii "invalid Rekor verifier encoding: ") in
      let? (tag, contents) := ok_or (pem_parse verifier) (ascii "invalid Rekor verifier certificate: ") in
      reject negb (bool_decide (tag = ascii "CERTIFICATE")) || negb (bool_decide (contents = certificate_der))
        with ascii "Rekor verifier certificate differs from the bundle";
      Ok tt
  | _, _ => unsupported
  end.

Definition tlog_verify (entry : TransparencyLogEntry) (envelope : DsseEnvelope) (certificate_der : bytes)
    (certificate_not_before certificate_not_after now_seconds : Z) (root : RootKeys) : text_result Z :=
  reject negb (bool_decide (te_kind entry = ascii "dsse")) || negb (bool_decide (te_version entry = ascii "0.0.1"))
    with ascii "only Rekor DSSE v0.0.1 is supported for GitHub attestations";
  let? integrated_time := rekor_i64 (te_integrated_time entry) in
  reject (integrated_time <=? 0) || (integrated_time <? certificate_not_before)
      || (certificate_not_after <? integrated_time) || (now_seconds + 60 <? integrated_time)
    with ascii "Rekor integrated time is invalid, outside the certificate, or in the future";
  let? log_id := decode_32 (te_log_id entry) in
  let? log_key := rekor_key_at root log_id integrated_time in
  let? _ := verify_set entry log_id (lk_spki log_key) in
  let? _ := verify_inclusion entry log_id (lk_spki log_key) in
  let? _ := verify_body_binding entry envelope certificate_der in
  Ok integrated_time.

(** ** hashedrekord.rs *)

Definition SIGSTORE_BUNDLE_MEDIA_TYPE : bytes := ascii "application/vnd.dev.sigstore.bundle.v0.3+json".

(** [Bundle] with its parts [MessageSignature], [MessageDigest], [VerificationMaterial],
    [PublicKeyHint] and [Empty]. *)
Record DocumentBundle : Type := {
  db_media_type : bytes;
  db_algorithm : bytes;
  db_digest : bytes;
  db_signature : bytes;
  db_hint : bytes;
  db_tlog_entries : list TransparencyLogEntry
}.

(** [Body] with its parts [Spec], [Data], [Hash], [SubmissionSignature] and [PublicKey]. *)
Record DocumentBody : Type := {
  dy_api_version : bytes;
  dy_kind : bytes;
  dy_algorithm : bytes;
  dy_value : bytes;
  dy_signature : bytes;
  dy_public_key : bytes
}.

Definition MessageDigest_from_value (v : Value) : option (bytes * bytes) :=
  match struct_values [ascii "algorithm"; ascii "digest"] v with
  | Some [algorithm; digest] => algorithm ← algorithm ≫= as_str; digest ← digest ≫= as_str; Some (algorithm, digest)
  | _ => None
  end.
Definition MessageSignature_from_value (v : Value) : option (bytes * bytes * bytes) :=
  match struct_values [ascii "messageDigest"; ascii "signature"] v with
  | Some [digest; signature] =>
      '(algorithm, digest) ← digest ≫= MessageDigest_from_value;
      signature ← signature ≫= as_str;
      Some (algorithm, digest, signature)
  | _ => None
  end.
Definition PublicKeyHint_from_value (v : Value) : option bytes :=
  match struct_values [ascii "hint"] v with Some [hint] => hint ≫= as_str | _ => None end.
Definition Empty_from_value (v : Value) : option unit :=
  match struct_values [] v with Some [] => Some tt | _ => None end.
Definition DocumentMaterial_from_value (v : Value) : option (bytes * list TransparencyLogEntry) :=
  match struct_values [ascii "publicKey"; ascii "tlogEntries"; ascii "timestampVerificationData"] v with
  | Some [key; entries; timestamps] =>
      hint ← key ≫= PublicKeyHint_from_value;
      entries ← entries ≫= as_vec TransparencyLogEntry_from_value;
      _ ← timestamps ≫= Empty_from_value;
      Some (hint, entries)
  | _ => None
  end.
Definition DocumentBundle_from_value (v : Value) : option DocumentBundle :=
  match struct_values [ascii "mediaType"; ascii "messageSignature"; ascii "verificationMaterial"] v with
  | Some [media_type; signature; material] =>
      media_type ← media_type ≫= as_str;
      '(algorithm, digest, signature) ← signature ≫= MessageSignature_from_value;
      '(hint, entries) ← material ≫= DocumentMaterial_from_value;
      Some {| db_media_type := media_type; db_algorithm := algorithm; db_digest := digest;
              db_signature := signature; db_hint := hint; db_tlog_entries := entries |}
  | _ => None
  end.

(** The parts of a logged document's body. *)
Definition DocumentHash_from_value (v : Value) : option (bytes * bytes) :=
  match struct_values [ascii "algorithm"; ascii "value"] v with
  | Some [algorithm; value] => algorithm ← algorithm ≫= as_str; value ← value ≫= as_str; Some (algorithm, value)
  | _ => None
  end.
Definition DocumentData_from_value (v : Value) : option (bytes * bytes) :=
  match struct_values [ascii "hash"] v with Some [hash] => hash ≫= DocumentHash_from_value | _ => None end.
Definition SubmissionKey_from_value (v : Value) : option bytes :=
  match struct_values [ascii "content"] v with Some [content] => content ≫= as_str | _ => None end.
Definition SubmissionSignature_from_value (v : Value) : option (bytes * bytes) :=
  match struct_values [ascii "content"; ascii "publicKey"] v with
  | Some [content; key] => content ← content ≫= as_str; key ← key ≫= SubmissionKey_from_value; Some (content, key)
  | _ => None
  end.
Definition DocumentSpec_from_value (v : Value) : option ((bytes * bytes) * (bytes * bytes)) :=
  match struct_values [ascii "data"; ascii "signature"] v with
  | Some [data; signature] =>
      data ← data ≫= DocumentData_from_value;
      signature ← signature ≫= SubmissionSignature_from_value;
      Some (data, signature)
  | _ => None
  end.
Definition DocumentBody_from_value (v : Value) : option DocumentBody :=
  match struct_values [ascii "apiVersion"; ascii "kind"; ascii "spec"] v with
  | Some [version; kind; spec] =>
      version ← version ≫= as_str;
      kind ← kind ≫= as_str;
      '(data, signature) ← spec ≫= DocumentSpec_from_value;
      Some {| dy_api_version := version; dy_kind := kind; dy_algorithm := data.1; dy_value := data.2;
              dy_signature := signature.1; dy_public_key := signature.2 |}
  | _ => None
  end.

Definition document_decode (value : bytes) : text_result bytes :=
  ok_or (base64_decode value) (ascii "invalid Rekor base64 encoding").

Definition verify_binding (bundle : DocumentBundle) (entry : TransparencyLogEntry) (artifact : bytes)
  : text_result unit :=
  reject negb (bool_decide (te_kind entry = ascii "hashedrekord")) || negb (bool_decide (te_version entry = ascii "0.0.1"))
    with ascii "only Rekor hashedrekord v0.0.1 is supported for document inclusion";
  let? raw := document_decode (te_canonicalized_body entry) in
  let? value := ok_or (strict_json raw) [] in
  let? body := ok_or (DocumentBody_from_value value) (ascii "invalid Rekor document body: ") in
  let digest := sha512 artifact in
  let differs := Err (ascii "Rekor document hash does not bind the exact artifact bytes") in
  if negb (bool_decide (dy_kind body = ascii "hashedrekord")) || negb (bool_decide (dy_api_version body = ascii "0.0.1"))
     || negb (bool_decide (dy_algorithm body = ascii "sha512")) || negb (bool_decide (dy_value body = hex_encode digest))
     || negb (bool_decide (db_algorithm bundle = ascii "SHA2_512"))
  then differs else
  let? claimed := document_decode (db_digest bundle) in
  if negb (bool_decide (claimed = digest)) then differs else
  let? key := document_decode (dy_public_key body) in
  let? (tag, contents) := ok_or (pem_parse key) (ascii "invalid Rekor submission public key") in
  reject negb (bool_decide (tag = ascii "PUBLIC KEY"))
      || negb (bool_decide (db_hint bundle = hex_encode (sha256 contents)))
    with ascii "Rekor submission key differs from its bundle hint";
  let? _ := ok_or (ed25519_from_der contents) (ascii "Rekor document profile requires an Ed25519 submission key") in
  let? signature := document_decode (dy_signature body) in
  let? claimed := document_decode (db_signature bundle) in
  reject negb (bool_decide (signature = claimed)) with ascii "Rekor submission signature differs from the bundle";
  reject negb (zlen signature =? 64) with ascii "invalid Rekor signature length";
  reject negb (ed25519ph_verify_strict contents artifact signature)
    with ascii "invalid Rekor Ed25519ph submission signature";
  Ok tt.

Definition hashedrekord_verify (value : Value) (artifact : bytes) (now_unix_ms : Z) (root : RootKeys)
  : text_result Z :=
  let? bundle := ok_or (DocumentBundle_from_value value) (ascii "invalid Rekor document bundle: ") in
  match bool_decide (db_media_type bundle = SIGSTORE_BUNDLE_MEDIA_TYPE), db_tlog_entries bundle with
  | true, [entry] =>
      let? _ := verify_binding bundle entry artifact in
      verify_publication entry (now_unix_ms / 1000) root
  | _, _ => Err (ascii "unsupported or ambiguous Rekor document bundle")
  end.

End Tlog.

(** * Theory

    Rekor's inclusion proofs: the verifier's loop climbs exactly the recursive tree, a proof
    binds its entry, and a verified publication is signed, included and timely. *)

(** ** The length of a proof *)

Lemma length_shift fuel i n c : proof_length_loop fuel i n c = c + proof_length_loop fuel i n 0.
Proof.
  revert i n c. induction fuel as [|fuel IH]; intros i n c; cbn [proof_length_loop]; [lia|].
  destruct (1 <? n); [|lia]. destruct (_ && _); rewrite (IH _ _ (c + _)) || rewrite (IH _ _ c); [done|].
  rewrite (IH _ _ (0 + 1)). lia.
Qed.

Lemma half_up n : 0 <= n -> (n + 1) / 2 = n - n / 2 /\ 2 * (n / 2) <= n <= 2 * (n / 2) + 1.
Proof. intros. pose proof (Z.div_mod n 2). pose proof (Z.mod_pos_bound n 2). split; [|lia].
  symmetry. apply (Z.div_unique _ _ _ ((n + 1) - 2 * (n - n / 2))); lia.
Qed.

(** Left of the last power of two every level has a sibling. *)
Lemma length_left d fuel i n :
  (d < fuel)%nat -> 0 <= i < 2 ^ Z.of_nat d -> 2 ^ Z.of_nat d < n <= 2 * 2 ^ Z.of_nat d ->
  proof_length_loop fuel i n 0 = Z.of_nat d + 1.
Proof.
  revert fuel i n. induction d as [|d IH]; intros fuel i n Hf Hi Hn; (destruct fuel as [|fuel]; [lia|]);
    cbn [proof_length_loop].
  - change (2 ^ Z.of_nat 0) with 1 in *. assert (n = 2 /\ i = 0) as [-> ->] by lia. simpl.
    destruct fuel; done.
  - rewrite Nat2Z.inj_succ, Z.pow_succ_r in * by lia. pose proof (Z.pow_pos_nonneg 2 (Z.of_nat d)).
    rewrite (proj2 (Z.ltb_lt _ _)) by lia. rewrite (proj2 (Z.eqb_neq i (n - 1))), andb_false_r by lia.
    destruct (half_up n ltac:(lia)) as [-> ?]. rewrite length_shift, IH; [lia|lia| |lia].
    split; [apply Z.div_pos; lia|]. apply Z.div_lt_upper_bound; lia.
Qed.

Lemma length_full d fuel i :
  (d <= fuel)%nat -> 0 <= i < 2 ^ Z.of_nat d -> proof_length_loop fuel i (2 ^ Z.of_nat d) 0 = Z.of_nat d.
Proof.
  revert fuel i. induction d as [|d IH]; intros fuel i Hf Hi; [by destruct fuel|]. destruct fuel as [|fuel]; [lia|].
  rewrite Nat2Z.inj_succ, Z.pow_succ_r in * by lia. pose proof (Z.pow_pos_nonneg 2 (Z.of_nat d)).
  set (k := 2 ^ Z.of_nat d) in *. cbn [proof_length_loop]. rewrite (proj2 (Z.ltb_lt _ _)) by lia.
  rewrite (Z.mul_comm 2 k), Z.mod_mul, (Z.add_comm (k * 2)), Z.div_add, length_shift by lia. change ((0 =? 1) && _) with false. cbn [Z.div].
  rewrite IH; [lia|lia|]. split; [apply Z.div_pos; lia|apply Z.div_lt_upper_bound; lia].
Qed.

(** Right of it the climb meets the left part once. *)
Lemma length_right d fuel fuel' i n :
  2 ^ Z.of_nat d <= i < n -> 2 ^ Z.of_nat d < n <= 2 * 2 ^ Z.of_nat d -> (d < fuel)%nat -> (d <= fuel')%nat ->
  proof_length_loop fuel i n 0 = proof_length_loop fuel' (i - 2 ^ Z.of_nat d) (n - 2 ^ Z.of_nat d) 0 + 1.
Proof.
  revert fuel fuel' i n. induction d as [|d IH]; intros fuel fuel' i n Hi Hn Hf Hf'; (destruct fuel as [|fuel]; [lia|]).
  - change (2 ^ Z.of_nat 0) with 1 in *. assert (n = 2 /\ i = 1) as [-> ->] by lia. destruct fuel, fuel'; done.
  - destruct fuel' as [|fuel']; [lia|]. rewrite Nat2Z.inj_succ, Z.pow_succ_r in * by lia.
    set (k := 2 ^ Z.of_nat d) in *. assert (0 < k) by (apply Z.pow_pos_nonneg; lia).
    assert ((n - 2 * k) mod 2 = n mod 2) as Hm by (replace (n - 2 * k) with (n + (- k) * 2) by lia; apply Z.mod_add; lia).
    assert ((n - 2 * k) / 2 = n / 2 - k) as Hdn
      by (replace (n - 2 * k) with (n + (- k) * 2) by lia; rewrite Z.div_add by lia; lia).
    assert ((i - 2 * k) / 2 = i / 2 - k) as Hdi
      by (replace (i - 2 * k) with (i + (- k) * 2) by lia; rewrite Z.div_add by lia; lia).
    destruct (half_up n ltac:(lia)) as [Hhn ?]. destruct (half_up (n - 2 * k) ltac:(lia)) as [Hhk _].
    destruct (half_up i ltac:(lia)) as [_ ?].
    assert (forall f, (d <= f)%nat -> proof_length_loop fuel (i / 2) (n - n / 2) 0
      = proof_length_loop f (i / 2 - k) (n - n / 2 - k) 0 + 1) as Hstep by (intros; apply IH; lia).
    cbn [proof_length_loop]. rewrite (proj2 (Z.ltb_lt 1 n)), Hhn, Hhk, Hm, Hdn, Hdi by lia.
    replace (i - 2 * k =? n - 2 * k - 1) with (i =? n - 1) by (destruct (i =? n - 1) eqn:E; zbool; symmetry;
      [apply Z.eqb_eq|apply Z.eqb_neq]; lia).
    replace (n - 2 * k - (n / 2 - k)) with (n - n / 2 - k) by lia.
    destruct (1 <? n - 2 * k) eqn:E1; zbool.
    + destruct (_ && _); [by apply Hstep; lia|]. rewrite (length_shift fuel), (length_shift fuel'), (Hstep fuel') by lia. lia.
    + assert (n = 2 * k + 1) as Hnk by lia. assert (i = 2 * k) as Hik by lia.
      assert (n mod 2 = 1) as -> by (rewrite Hnk, Z.add_comm, Z.mul_comm, Z.mod_add; done || lia).
      rewrite (proj2 (Z.eqb_eq i (n - 1))) by lia. change (1 =? 1) with true. cbn [andb]. rewrite (Hstep fuel') by lia.
      assert (n - n / 2 - k = 1) as -> by lia. destruct fuel'; done.
Qed.

Lemma split_nat n : 1 < n -> n <= 2 ^ 64 -> exists d, (d < 64)%nat /\ split_size n = 2 ^ Z.of_nat d /\
  2 ^ Z.of_nat d < n <= 2 * 2 ^ Z.of_nat d.
Proof.
  intros Hn Hm. pose proof (Z.log2_spec (n - 1) ltac:(lia)) as [Hl Hh].
  rewrite Z.pow_succ_r in Hh by apply Z.log2_nonneg. destruct (log2_exp n 64 Hn ltac:(lia) ltac:(lia)).
  exists (Z.to_nat (Z.log2 (n - 1))). rewrite Z2Nat.id, split_size_pow by lia. split_and!; [lia|done|lia|lia].
Qed.

(** ** The climb *)

Section Climb.
Context {A : Type} (node : A -> A -> A).

(** At the right edge of the tree every sibling is on the left. *)
Lemma edge_climb i h q : rekor_climb node i i h q = fold_left (fun h s => node s h) q h.
Proof. revert i h. induction q as [|s q IH]; intros i h; [done|]. cbn [rekor_climb fold_left]. rewrite Z.eqb_refl, orb_true_r. apply IH. Qed.

(** In a full subtree before the edge levels follow the bits. *)
Lemma full_climb d i leaf p root a top q :
  mpath node (2 ^ Z.of_nat d) i leaf p root -> 0 <= a < top / 2 ^ Z.of_nat d ->
  rekor_climb node (a * 2 ^ Z.of_nat d + i) top leaf (p ++ q) = rekor_climb node a (top / 2 ^ Z.of_nat d) root q.
Proof.
  revert i leaf p root a top q. induction d as [|d IH]; intros i leaf p root a top q Hm Ha.
  { change (2 ^ Z.of_nat 0) with 1 in *. inversion Hm; subst; try lia. rewrite Z.div_1_r. cbn [app]. f_equal. lia. }
  pose proof (Z.pow_pos_nonneg 2 (Z.of_nat d) ltac:(lia) ltac:(lia)) as Hk.
  rewrite Nat2Z.inj_succ, Z.pow_succ_r in * by lia. set (k := 2 ^ Z.of_nat d) in *.
  assert (split_size (2 * k) = k) as Hsplit.
  { rewrite split_size_pow by lia. unfold k. f_equal. apply Z.log2_unique; [lia|]. rewrite Z.pow_succ_r by lia. fold k. lia. }
  assert (top / (2 * k) = top / k / 2) as Hdiv by (rewrite Z.div_div by lia; f_equal; lia). rewrite Hdiv in *.
  pose proof (Z.div_mod (top / k) 2 ltac:(lia)). pose proof (Z.mod_pos_bound (top / k) 2 ltac:(lia)).
  inversion Hm as [|n' i' leaf' p' l r Hn Hi Hsub|n' i' leaf' p' l r Hn Hi Hsub]; subst; [lia|..]; rewrite Hsplit in *;
    rewrite <- app_assoc.
  - replace (a * (2 * k) + i) with ((2 * a) * k + i) by lia. rewrite (IH _ _ _ _ (2 * a) top _ Hsub) by lia.
    cbn [app rekor_climb]. rewrite (Z.mul_comm 2 a), Z.mod_mul, Z.div_mul by lia.
    rewrite (proj2 (Z.eqb_neq (a * 2) _)) by lia. done.
  - replace (2 * k - k) with k in Hsub by lia.
    replace (a * (2 * k) + i) with ((2 * a + 1) * k + (i - k)) by lia. rewrite (IH _ _ _ _ (2 * a + 1) top _ Hsub) by lia.
    cbn [app rekor_climb]. rewrite (Z.add_comm (2 * a)), (Z.mul_comm 2 a), Z.mod_add, Z.div_add by lia. done.
Qed.

Lemma right_climb n i leaf p root :
  mpath node n i leaf p root -> forall a e q, n <= 2 ^ 64 -> n <= 2 ^ Z.of_nat e -> 0 <= a ->
  rekor_climb node (a * 2 ^ Z.of_nat e + i) (a * 2 ^ Z.of_nat e + (n - 1)) leaf (p ++ q)
  = fold_left (fun h s => node s h) q root.
Proof.
  induction 1 as [leaf|n i leaf p l r Hn Hi Hsub _|n i leaf p l r Hn Hi Hsub IH]; intros a e q Hmax Hlt Ha.
  { apply edge_climb. }
  all: destruct (split_nat n Hn Hmax) as (d & Hd & Hs & Hlow & Hhigh); rewrite Hs in *; rewrite <- app_assoc.
  all: assert (d < e)%nat as Hde by (apply Nat2Z.inj_lt, (Z.pow_lt_mono_r_iff 2); lia).
  all: assert (2 ^ Z.of_nat e = 2 ^ Z.of_nat (e - d - 1) * 2 * 2 ^ Z.of_nat d) as Hsplit
    by (replace (Z.of_nat (e - d - 1)) with (Z.of_nat e - Z.of_nat d - 1) by lia;
      pose proof (pow_split 1 (Z.of_nat e) (Z.of_nat d) ltac:(lia)); lia).
  all: rewrite Hsplit; set (k := 2 ^ Z.of_nat d) in *; set (b := 2 ^ Z.of_nat (e - d - 1)) in *.
  all: assert (0 < k) by (apply Z.pow_pos_nonneg; lia); assert (0 < b) by (apply Z.pow_pos_nonneg; lia).
  - replace (a * (b * 2 * k) + i) with ((a * b * 2) * k + i) by lia.
    assert ((a * (b * 2 * k) + (n - 1)) / k = a * b * 2 + 1) as Hdiv
      by (symmetry; apply (Z.div_unique _ _ _ (n - 1 - k)); nia).
    rewrite (full_climb d i leaf p l) by (done || (fold k; rewrite Hdiv; nia)). fold k. rewrite Hdiv.
    cbn [app rekor_climb fold_left]. rewrite Z.mod_mul, Z.div_mul by lia. rewrite (proj2 (Z.eqb_neq (a * b * 2) _)) by lia.
    rewrite (Z.add_comm (a * b * 2)), Z.div_add by lia. apply edge_climb.
  - specialize (IH (a * b * 2 + 1) d (l :: q) ltac:(lia) ltac:(lia) ltac:(nia)). fold k in IH.
    cbn [fold_left] in IH. rewrite <- IH. f_equal; lia.
Qed.

(** The verifier reaches the root of the path. *)
Lemma rekor_climb_root n i leaf p root :
  mpath node n i leaf p root -> n <= 2 ^ 64 -> rekor_climb node i (n - 1) leaf p = root.
Proof.
  intros Hm Hn. pose proof (right_climb _ _ _ _ _ Hm 0 64 [] Hn ltac:(change (Z.of_nat 64) with 64; lia) ltac:(lia)) as E.
  by rewrite app_nil_r in E.
Qed.

Lemma rekor_path_length n i leaf p root :
  mpath node n i leaf p root -> n <= 2 ^ 64 -> expected_proof_length i n = zlen p.
Proof.
  unfold expected_proof_length.
  assert (forall fuel, n <= 2 ^ 64 -> n <= 2 ^ Z.of_nat fuel -> mpath node n i leaf p root ->
    proof_length_loop fuel i n 0 = zlen p) as Hgen; [|intros; by apply Hgen].
  intros fuel Hmax Hf Hm. revert fuel Hf.
  induction Hm as [leaf|n i leaf p l r Hn Hi Hsub IH|n i leaf p l r Hn Hi Hsub IH]; intros fuel Hf; [by destruct fuel|..].
  all: destruct (split_nat n Hn Hmax) as (d & Hd & Hs & Hlow & Hhigh); rewrite Hs in *; apply mpath_range in Hsub as Hr.
  all: assert (d < fuel)%nat as Hdf by (apply Nat2Z.inj_lt, (Z.pow_lt_mono_r_iff 2); lia); rewrite zlen_app; change (zlen [_]) with 1.
  - rewrite (length_left d), <- (IH ltac:(lia) d), length_full by lia. lia.
  - rewrite (length_right d _ d) by lia. rewrite <- (IH ltac:(lia) d) by lia. done.
Qed.
End Climb.

(** ** Proofs *)

Section Proofs.
Context `{Json} `{Hash} `{Encodings} `{SchemePrimitives} `{RekorPrimitives}.

Lemma expected_depth i n : 0 <= i < n -> n <= 2 ^ 64 -> expected_proof_length i n = path_depth (Z.to_nat n) n i 0.
Proof.
  intros Hi Hn. pose proof (path_depth_nonneg (Z.to_nat n) n i) as Hd.
  destruct (mpath_total (fun _ _ => tt) (Z.to_nat n) n i tt (replicate (Z.to_nat (path_depth (Z.to_nat n) n i 0)) tt)) as [root Hm];
    [lia|lia|lia|unfold zlen; by rewrite length_replicate, Z2Nat.id|].
  rewrite (rekor_path_length _ _ _ _ _ _ Hm) by done. symmetry. apply (mpath_depth _ _ _ _ _ _ _ Hm). lia.
Qed.

(** C25. Rekor's inclusion check is the RFC 6962 tree: for every log index and tree size of
    the machine, the iterative check accepts exactly the sibling lists that are the path of
    the recursive Merkle tree from the entry's leaf hash to the expected root. *)
Theorem rekor_proof_exact body i n siblings root :
  0 <= i -> 0 <= n <= u64_max ->
  verify_merkle body i n siblings root = Ok tt <->
  mpath rekor_node n i (sha256 (leaf_input body)) siblings root.
Proof.
  intros Hi Hn. change u64_max with (2 ^ 64 - 1) in Hn. unfold verify_merkle. split.
  - intros Hv. pass Hv by Hc. pass Hv by Hl. pass Hv by Hr. zbool. rewrite expected_depth in Hl by lia.
    destruct (mpath_total rekor_node (Z.to_nat n) n i (sha256 (leaf_input body)) siblings) as [r Hm]; [lia..|].
    by rewrite <- Hr, (rekor_climb_root _ _ _ _ _ _ Hm) by lia.
  - intros Hm. apply mpath_range in Hm as Hr. rewrite (rekor_climb_root _ _ _ _ _ _ Hm) by lia.
    rewrite (rekor_path_length _ _ _ _ _ _ Hm) by lia. rewrite (proj2 (Z.eqb_neq n 0)), (proj2 (Z.leb_gt _ _)) by lia.
    by rewrite Z.eqb_refl, bool_decide_true.
Qed.

(** A subtree with the strings hashed to compute it. *)
Definition rekor_traced (l r : bytes * list bytes) : bytes * list bytes :=
  (rekor_node l.1 r.1, l.2 ++ r.2 ++ [node_input l.1 r.1]).

(** Everything hashed to check one proof. *)
Definition proof_strings (body : bytes) (i n : Z) (siblings : list bytes) : list bytes :=
  (rekor_climb rekor_traced i (n - 1) (sha256 (leaf_input body), [leaf_input body])
    ((fun s => (s, [])) <$> siblings)).2.

Definition sha256_collision_free (l : list bytes) : Prop :=
  forall x y, x ∈ l -> y ∈ l -> sha256 x = sha256 y -> x = y.

Lemma traced_mpath n i leaf strings p root :
  mpath rekor_node n i leaf p root ->
  exists trace, mpath rekor_traced n i (leaf, strings) ((fun s => (s, [])) <$> p) (root, trace) /\ strings ⊆ trace.
Proof.
  induction 1 as [leaf|n i leaf p l r Hn Hi Hsub (trace & IH & Hs)|n i leaf p l r Hn Hi Hsub (trace & IH & Hs)].
  - eexists. split; [apply mp_leaf|done].
  - exists ((trace ++ [] ++ [node_input l r])). rewrite fmap_app. split; [|set_solver].
    apply (mp_left rekor_traced _ _ _ _ (l, trace) (r, [])); done.
  - exists (([] ++ trace ++ [node_input l r])). rewrite fmap_app. split; [|set_solver].
    apply (mp_right rekor_traced _ _ _ _ (l, []) (r, trace)); done.
Qed.

Lemma traced_pair (C : list bytes) `{!HashLaws} n i x p root :
  sha256_collision_free C -> mpath rekor_traced n i x p root ->
  forall x' p' root', mpath rekor_traced n i x' p' root' ->
  zlen x.1 = 32 -> zlen x'.1 = 32 ->
  Forall (fun s => zlen s.1 = 32) p -> Forall (fun s => zlen s.1 = 32) p' ->
  root.2 ⊆ C -> root'.2 ⊆ C -> root.1 = root'.1 -> x.1 = x'.1.
Proof.
  intros Hc Hm. induction Hm as [x|n i x p l r Hn Hi Hsub IH|n i x p l r Hn Hi Hsub IH]; intros x' p' root' Hm'.
  { inversion Hm'; subst; [done|lia|lia]. }
  all: inversion Hm' as [|n' i' x0 p0 l' r' _ Hi' Hsub'|n' i' x0 p0 l' r' _ Hi' Hsub']; subst; try lia;
    intros Hx Hx' [Hp Hs]%Forall_app [Hp' Hs']%Forall_app Hsub1 Hsub2 E; simpl in *.
  all: apply Forall_cons in Hs as [Hs _]; apply Forall_cons in Hs' as [Hs' _].
  all: apply Hc in E; [|set_solver|set_solver]; injection E as E; apply app_inj_zlen in E as [E1 E2].
  - apply (IH _ _ _ Hsub'); [done..|set_solver|set_solver|done].
  - destruct Hsub, Hsub'; cbn [rekor_traced fst]; rewrite ?sha256_length; congruence || (unfold rekor_node; rewrite ?sha256_length; done).
  - apply (IH _ _ _ Hsub'); [done..|set_solver|set_solver|done].
  - congruence.
Qed.

(** Two accepted proofs for one place in one tree are for the same entry, unless SHA-256
    collides on the strings hashed to check them. *)
Lemma rekor_entry_unique `{!HashLaws} body body' i n siblings siblings' root :
  0 <= i -> 0 <= n <= u64_max -> Forall (fun s => zlen s = 32) siblings -> Forall (fun s => zlen s = 32) siblings' ->
  verify_merkle body i n siblings root = Ok tt -> verify_merkle body' i n siblings' root = Ok tt ->
  sha256_collision_free (proof_strings body i n siblings ++ proof_strings body' i n siblings') ->
  body = body'.
Proof.
  intros Hi Hn Hs Hs' Hv Hv' Hc. apply rekor_proof_exact in Hv, Hv'; [|done..].
  apply (traced_mpath _ _ _ [leaf_input body]) in Hv as (trace & Hm & Ht).
  apply (traced_mpath _ _ _ [leaf_input body']) in Hv' as (trace' & Hm' & Ht'). change u64_max with (2 ^ 64 - 1) in Hn.
  unfold proof_strings in Hc. erewrite !rekor_climb_root in Hc by (done || lia). cbn [snd] in Hc.
  assert (sha256 (leaf_input body) = sha256 (leaf_input body')) as E.
  { apply (traced_pair _ _ _ _ _ _ Hc Hm _ _ _ Hm'); [apply sha256_length..| | |set_solver|set_solver|done];
      apply Forall_fmap; done. }
  apply Hc in E; [by injection E|set_solver|set_solver].
Qed.

(** ** Checkpoints *)

(** A signature of a key over a text, by the scheme its type fixes. *)
Definition log_signed (spki message : bytes) : Prop := exists signature, verify_spki_auto spki message signature = Ok tt.

Lemma note_lines signed hint key l matching m :
  foldR (check_note_line signed hint key) matching l = Ok m -> matching < m -> log_signed key signed.
Proof.
  revert matching. induction l as [|line l IH]; intros matching; cbn [foldR]; [intros [= ->]; lia|].
  intros Hf Hm. pass Hf as next by Hline. destruct (decide (next = matching)) as [->|Hne]; [by apply (IH _ Hf)|].
  clear Hf IH. unfold check_note_line in Hline. destruct (split_whitespace line) as [|dash [|host rest]]; [done..|].
  pass Hline by Hd. destruct rest as [|encoded [|]]; [done| |done]. pass Hline as decoded by Hb.
  destruct ((zlen decoded <=? 4) || _); [congruence|]. pass Hline as u by Hs. destruct u. eexists. done.
Qed.

(** A note names the tree and its signature is the key's. *)
Record checkpoint_for (envelope : bytes) (n : Z) (root key : bytes) : Prop := {
  ck_signed : exists body origin size text rest signatures,
    envelope = body ++ [x0a; x0a] ++ signatures /\
    lines body = origin :: size :: text :: rest /\
    (exists tail, origin = ascii "rekor.sigstore.dev - " ++ tail) /\
    parse_unsigned u64_max size = Some n /\ base64_decode text = Some root /\ zlen root = 32 /\
    log_signed key (body ++ [x0a])
}.

Lemma verify_checkpoint_sound envelope n root log_id key :
  verify_checkpoint envelope n root log_id key = Ok tt -> checkpoint_for envelope n root key.
Proof.
  unfold verify_checkpoint. intros Hv. pass Hv by Hcr. pass Hv as [body signatures] by Hsplit. pass Hv by Hmany.
  unfold next_line in Hv. destruct (lines body) as [|origin [|size [|text rest]]] eqn:Hl; [done| | |].
  { pass Hv by Ho. done. }
  { pass Hv by Ho. pass Hv as tree_size by Hs. done. }
  pass Hv by Ho. pass Hv as tree_size by Hs. pass Hv as root_hash by Hroot. pass Hv by Hbind. pass Hv by Hmeta.
  pass Hv as matching by Hf. pass Hv by Hone. zbool. subst.
  unfold decode_32 in Hroot. pass Hroot as b by Hb. pass Hroot by Hlen. injection Hroot as ->. zbool.
  constructor. exists body, origin, size, text, rest, signatures.
  split_and!; [by apply split_once_spec|done|by apply has_prefix_spec|done|done|done|].
  apply (note_lines _ _ _ _ _ _ Hf). lia.
Qed.

(** ** Publications *)

(** An entry in the log: the timestamp its key promised, the place its body has in a tree
    and the signed note of that tree. *)
Record published (entry : TransparencyLogEntry) (key : LogKey) (time : Z) : Prop := {
  pb_id : base64_decode (te_log_id entry) = Some (lk_id key) /\ zlen (lk_id key) = 32;
  pb_time : parse_i64 (te_integrated_time entry) = Some time;
  pb_promise : exists index text,
    parse_i64 (te_log_index entry) = Some index /\
    json_canonical (RekorSetPayload_to_value (te_canonicalized_body entry) time index (hex_encode (lk_id key))) = Some text /\
    log_signed (lk_spki key) text;
  pb_included : exists body n i siblings root note,
    base64_decode (te_canonicalized_body entry) = Some body /\ 0 <= i < n /\
    mpath rekor_node n i (sha256 (leaf_input body)) siblings root /\
    Forall (fun s => zlen s = 32) siblings /\ checkpoint_for note n root (lk_spki key)
}.

Lemma verify_set_sound entry log_id key time :
  verify_set entry log_id key = Ok tt -> parse_i64 (te_integrated_time entry) = Some time ->
  exists index text, parse_i64 (te_log_index entry) = Some index /\
    json_canonical (RekorSetPayload_to_value (te_canonicalized_body entry) time index (hex_encode log_id)) = Some text /\
    log_signed key text.
Proof.
  unfold verify_set. intros Hv Ht. pass Hv as promise by Hp. pass Hv as signature by Hs. unfold rekor_i64 in Hv.
  rewrite Ht in Hv. cbn [ok_or] in Hv. pass Hv as index by Hi. pass Hv as text by Hc. apply map_err_ok in Hv.
  exists index, text. split_and!; [done|done|by exists signature].
Qed.

Lemma decode_32_ok b l : decode_32 b = Ok l <-> base64_decode b = Some l /\ zlen l = 32.
Proof.
  unfold decode_32. destruct (base64_decode b) as [d|]; cbn [ok_or]; [|naive_solver].
  destruct (zlen d =? 32) eqn:E; zbool; cbn [negb]; split; [intros [= <-]; done|by intros [[= ->] _]|done|].
  intros [[= ->] ?]. done.
Qed.

Lemma parse_unsigned_range max l n : parse_unsigned max l = Some n -> 0 <= n <= max.
Proof.
  unfold parse_unsigned. destruct (parse_digits _) as [m|] eqn:E; [|done]. apply parse_digits_nonneg in E. simpl.
  destruct (m <=? max) eqn:Em; [|done]. intros [= <-]. zbool. lia.
Qed.

Lemma verify_inclusion_sound entry log_id key :
  verify_inclusion entry log_id key = Ok tt ->
  exists body n i siblings root note,
    base64_decode (te_canonicalized_body entry) = Some body /\ 0 <= i < n /\
    mpath rekor_node n i (sha256 (leaf_input body)) siblings root /\
    Forall (fun s => zlen s = 32) siblings /\ checkpoint_for note n root key.
Proof.
  unfold verify_inclusion. intros Hv. pass Hv as proof by Hp. pass Hv by Hbig. pass Hv as i by Hi. pass Hv as n by Hn.
  pass Hv as root by Hr. pass Hv as siblings by Hs. pass Hv as body by Hb. pass Hv as u by Hm. destruct u.
  apply parse_unsigned_range in Hi, Hn. apply rekor_proof_exact in Hm; [|lia..]. apply mpath_range in Hm as Hr'.
  exists body, n, i, siblings, root, (ip_checkpoint proof). split_and!; [done|lia|lia|done| |by eapply verify_checkpoint_sound].
  apply mapR_ok in Hs. clear -Hs. induction Hs as [|x y l l' Hxy _ IH]; constructor; [|done].
  by apply decode_32_ok in Hxy as [_ ?].
Qed.

(** A publication that verifies is in the log of a key of the root, valid at its time,
    which is not in the future. *)
Lemma verify_publication_sound entry now root time :
  verify_publication entry now root = Ok time ->
  0 < time <= now + 60 /\
  exists key, key ∈ tr_rekor root /\ period_contains (lk_validity key) time /\ published entry key time.
Proof.
  unfold verify_publication. intros Hv. pass Hv as t by Ht. pass Hv by Hr. pass Hv as log_id by Hid.
  pass Hv as key by Hk. pass Hv as u by Hset. pass Hv as u' by Hinc. destruct u, u'. injection Hv as ->. zbool.
  apply key_at_spec in Hk as (Hin & Hkid & Hvalid). apply decode_32_ok in Hid. subst log_id.
  split; [lia|]. exists key. split_and!; [done|done|].
  constructor; [done|done|by eapply verify_set_sound|by eapply verify_inclusion_sound].
Qed.

End Proofs.
