(* ===== verification/Tuf.v ===== *)
(** The Update Framework: [offline-sigstore/src/tuf.rs]. Signed metadata, the keys and
    roles of a root, the chain of roots, and the files that verified metadata lists. *)

From S2P Require Import Prelude Primitives BTree Text Json Signing Attestation Documents Deserialize Approvals Snp Schemes.
From S2P Require Import TrustRoot Tlog.

Open Scope Z_scope.

Definition ROLES : list bytes := [ascii "root"; ascii "targets"; ascii "snapshot"; ascii "timestamp"].

(** ** Canonical JSON *)

Fixpoint escape (text : bytes) : bytes :=
  match text with
  | [] => []
  | b :: text =>
      (if bool_decide (b = x22) || bool_decide (b = x5c) then [x5c; b] else [b]) ++ escape text
  end.
Definition write_string (text : bytes) : bytes := x22 :: escape text ++ [x22].

(** Pieces with a comma before each but the first. *)
Fixpoint joined (pieces : list bytes) : bytes :=
  match pieces with
  | [] => []
  | [piece] => piece
  | piece :: rest => piece ++ x2c :: joined rest
  end.

(** [sort_unstable_by] on keys that are distinct. *)
Fixpoint insert_entry {A} (entry : bytes * A) (l : list (bytes * A)) : list (bytes * A) :=
  match l with
  | [] => [entry]
  | other :: rest => if bytes_ltb other.1 entry.1 then other :: insert_entry entry rest else entry :: l
  end.
Fixpoint sort_entries {A} (l : list (bytes * A)) : list (bytes * A) :=
  match l with
  | [] => []
  | entry :: rest => insert_entry entry (sort_entries rest)
  end.

(** [Number::is_u64], [is_i64] and [to_string]. *)
Definition integer_text (v : Value) : option bytes :=
  match as_uint u64_max v, as_i64 v with
  | Some n, _ => Some (decimal n)
  | None, Some n => Some (x2d :: decimal (- n))
  | None, None => None
  end.

(** What is appended to the output; the members are written in the order of their keys. *)
Fixpoint write_canonical (value : Value) : text_result bytes :=
  match value with
  | JNull => Ok (ascii "null")
  | JBool b => Ok (ascii (if b then "true" else "false"))
  | JNumber _ => ok_or (integer_text value) (ascii "fractional numbers have no canonical form")
  | JString text => Ok (write_string text)
  | JArray items =>
      let? pieces := mapR write_canonical items in Ok (x5b :: joined pieces ++ [x5d])
  | JObject fields =>
      let written := (fix go (l : list (bytes * Value)) : list (bytes * text_result bytes) :=
        match l with [] => [] | (key, item) :: rest => (key, write_canonical item) :: go rest end) fields in
      let? pieces := mapR (fun '(key, text) => let? text := text in Ok (write_string key ++ x3a :: text))
        (sort_entries written) in
      Ok (x7b :: joined pieces ++ [x7d])
  end.

(** ** Metadata *)

Record Metadata : Type := {
  md_signed : Value;
  md_version : Z;
  md_expires : Z;
  md_canonical : bytes;
  md_signatures : list (bytes * bytes)
}.

(** [HashMap::get]. *)
Definition assoc {A} (m : list (bytes * A)) (key : bytes) : option A :=
  snd <$> List.find (fun '(k, _) => bool_decide (k = key)) m.

Record Role : Type := { ro_keyids : list bytes; ro_threshold : Z }.
Record Root : Type := {
  rt_version : Z;
  rt_expires : Z;
  rt_keys : list (bytes * bytes);
  rt_roles : list (bytes * Role)
}.

Section Tuf.
Context `{Json} `{Hash} `{Encodings} `{SchemePrimitives} `{RekorPrimitives}.

Definition is_object (v : Value) : bool := match v with JObject _ => true | _ => false end.

(** One turn of the loop over the signatures. *)
Definition add_signature (signatures : list (bytes * bytes)) (entry : Value) : text_result (list (bytes * bytes)) :=
  match as_str (value_index entry (ascii "keyid")), as_str (value_index entry (ascii "sig")) with
  | Some keyid, Some signature =>
      let? signature := ok_or (hex_decode signature) (ascii "malformed signature") in
      reject bool_decide (is_Some (assoc signatures keyid)) with ascii "duplicate signature key id";
      Ok (signatures ++ [(keyid, signature)])
  | _, _ => Err (ascii "malformed signature")
  end.

Definition Metadata_parse (b kind : bytes) : text_result Metadata :=
  let? value := ok_or (strict_json b) (ascii "invalid Sigstore  metadata: ") in
  let? signed := ok_or (signed ← value_get value (ascii "signed"); if is_object signed then Some signed else None)
    (ascii "missing signed object") in
  reject negb (bool_decide (as_str (value_index signed (ascii "_type")) = Some kind)) with ascii "wrong metadata type";
  reject negb (match as_str (value_index signed (ascii "spec_version")) with
               | Some version => has_prefix (ascii "1.") version | None => false end)
    with ascii "unsupported TUF specification version";
  let? version := ok_or (version ← as_uint u64_max (value_index signed (ascii "version"));
                         if 0 <? version then Some version else None) (ascii "invalid version") in
  let? (millis, _, _) := ok_or (as_str (value_index signed (ascii "expires")) ≫= parse_rfc3339)
    (ascii "invalid expiry") in
  let? entries := ok_or (as_array (value_index value (ascii "signatures"))) (ascii "missing signatures") in
  let? signatures := foldR add_signature [] entries in
  let? canonical := write_canonical signed in
  Ok {| md_signed := signed; md_version := version; md_expires := millis / 1000; md_canonical := canonical;
        md_signatures := signatures |}.

(** ** Roots *)

(** The filter on key types. *)
Definition supported_key (key : Value) : bool :=
  bool_decide (as_str (value_index key (ascii "keytype")) = Some (ascii "ecdsa"))
  && bool_decide (as_str (value_index key (ascii "scheme")) = Some (ascii "ecdsa-sha2-nistp256")).

Definition parse_root_key (entry : bytes * Value) : text_result (bytes * bytes) :=
  let '(keyid, key) := entry in
  let? (tag, contents) := ok_or
    (as_str (value_index (value_index key (ascii "keyval")) (ascii "public")) ≫= pem_parse)
    (ascii "invalid Sigstore root key ") in
  reject negb (bool_decide (tag = ascii "PUBLIC KEY")) with ascii "invalid Sigstore root key ";
  Ok (keyid, contents).

(** One turn of the loop over [ROLES]. *)
Definition parse_role (roles : Value) (name : bytes) : text_result (bytes * Role) :=
  let role := value_index roles name in
  let? keyids := ok_or (as_array (value_index role (ascii "keyids"))) (ascii "Sigstore root lacks the  role") in
  let? keyids := ok_or (mapM as_str keyids) (ascii "invalid Sigstore  key ids") in
  reject negb (bool_decide (NoDup keyids)) with ascii "duplicate Sigstore  key id";
  let? threshold := ok_or (threshold ← as_uint u64_max (value_index role (ascii "threshold"));
                           if 0 <? threshold then Some threshold else None) (ascii "invalid Sigstore  threshold") in
  Ok (name, {| ro_keyids := keyids; ro_threshold := threshold |}).

Definition Root_parse (metadata : Metadata) : text_result Root :=
  let? keys := ok_or (match value_index (md_signed metadata) (ascii "keys") with JObject fields => Some fields | _ => None end)
    (ascii "Sigstore root lists no keys") in
  let? keys := mapR parse_root_key (List.filter (fun '(_, key) => supported_key key) keys) in
  let? roles := mapR (parse_role (value_index (md_signed metadata) (ascii "roles"))) ROLES in
  Ok {| rt_version := md_version metadata; rt_expires := md_expires metadata; rt_keys := keys; rt_roles := roles |}.

(** One turn of the loop over a role's key names, with the distinct signers found. *)
Definition add_signer (root : Root) (metadata : Metadata) (signers : list bytes) (keyid : bytes) : list bytes :=
  match assoc (rt_keys root) keyid, assoc (md_signatures metadata) keyid with
  | Some key, Some signature =>
      match verify_spki key EcdsaP256Sha256 (md_canonical metadata) signature with
      | Ok _ => if bool_decide (key ∈ signers) then signers else signers ++ [key]
      | Err _ => signers
      end
  | _, _ => signers
  end.

Definition Root_verify (root : Root) (metadata : Metadata) : text_result unit :=
  let name := default [] (as_str (value_index (md_signed metadata) (ascii "_type"))) in
  let? role := ok_or (assoc (rt_roles root) name) (ascii "no Sigstore role signs  metadata") in
  let signers := fold_left (add_signer root metadata) (ro_keyids role) [] in
  reject zlen signers <? ro_threshold role with ascii "Sigstore  metadata lacks a threshold of valid signatures";
  Ok tt.

(** One turn of the loop of [newest_root]. *)
Definition next_root (current : Root) (b : bytes) : text_result Root :=
  let? metadata := Metadata_parse b (ascii "root") in
  reject (u64_max <? rt_version current + 1) || negb (rt_version current + 1 =? md_version metadata)
    with ascii "Sigstore roots must continue the trusted root's version";
  let? _ := Root_verify current metadata in
  let? next := Root_parse metadata in
  let? _ := Root_verify next metadata in
  Ok next.
Definition newest_root (trusted : Root) (roots : list bytes) : text_result Root := foldR next_root trusted roots.

(** The root in the compiled file. *)
Definition compiled_root (root_json : bytes) : text_result Root :=
  let? metadata := Metadata_parse root_json (ascii "root") in
  let? root := Root_parse metadata in
  let? _ := Root_verify root metadata in
  Ok root.

(** ** Files *)

(** One turn of the loop over an entry's hashes. *)
Definition check_hash (b : bytes) (hash : bytes * Value) : text_result unit :=
  let '(algorithm, expected) := hash in
  let? actual :=
    if bool_decide (algorithm = ascii "sha256") then Ok (hex_encode (sha256 b))
    else if bool_decide (algorithm = ascii "sha512") then Ok (hex_encode (sha512 b))
    else Err (ascii "unsupported Sigstore file hash ") in
  reject negb (bool_decide (as_str expected = Some actual))
    with ascii "Sigstore file digest differs from its signed listing";
  Ok tt.

Definition check_file (entry : Value) (b : bytes) : text_result unit :=
  reject (match value_get entry (ascii "length") with
          | Some length => negb (bool_decide (as_uint u64_max length = Some (zlen b)))
          | None => false end) with ascii "Sigstore file length differs from its signed listing";
  match value_get entry (ascii "hashes") with
  | None => Ok tt
  | Some (JObject ((_ :: _) as hashes)) => let? _ := mapR (check_hash b) hashes in Ok tt
  | Some _ => Err (ascii "Sigstore file hashes are malformed")
  end.

Definition listed_file (metadata : Metadata) (name b : bytes) : text_result Z :=
  let? entry := ok_or (value_get (value_index (md_signed metadata) (ascii "meta")) name)
    (ascii "Sigstore metadata does not list ") in
  let? _ := check_file entry b in
  ok_or (as_uint u64_max (value_index entry (ascii "version"))) (ascii "Sigstore metadata lists no  version").

Definition verify_targets (root : Root) (targets trusted_root : bytes) : text_result (Metadata * RootKeys) :=
  let? metadata := Metadata_parse targets (ascii "targets") in
  let? _ := Root_verify root metadata in
  let? entry := ok_or (value_get (value_index (md_signed metadata) (ascii "targets")) (ascii "trusted_root.json"))
    (ascii "Sigstore targets do not list trusted_root.json") in
  reject negb (bool_decide (is_Some (value_get entry (ascii "length"))))
      || negb (bool_decide (is_Some (value_get (value_index entry (ascii "hashes")) (ascii "sha256"))))
    with ascii "Sigstore targets must list trusted_root.json with its length and SHA-256";
  let? _ := check_file entry trusted_root in
  let? json := ok_or (from_utf8 trusted_root) (ascii "trusted_root.json is not UTF-8") in
  let? trusted_root := RootKeys_complete json in
  Ok (metadata, trusted_root).

(** ** Updates *)

(** The root, the version of the newest TUF root and that of the targets. *)
Record TrustUpdate : Type := { tu_trusted_root : RootKeys; tu_root_version : Z; tu_targets_version : Z }.

Definition tuf_verify_trust_update (root_json : bytes) (roots : list bytes) (targets trusted_root : bytes)
  : text_result TrustUpdate :=
  let? compiled := compiled_root root_json in
  let? root := newest_root compiled roots in
  let? (targets, trusted_root) := verify_targets root targets trusted_root in
  Ok {| tu_trusted_root := trusted_root; tu_root_version := rt_version root;
        tu_targets_version := md_version targets |}.

Definition current_metadata (now : Z) (metadata : Metadata) : text_result unit :=
  reject md_expires metadata <=? now with ascii "Sigstore  metadata has expired";
  Ok tt.

Definition verify_current (root : Root) (targets trusted_root snapshot timestamp : bytes) (now_unix_ms : Z)
  : text_result TrustUpdate :=
  let now := now_unix_ms / 1000 in
  reject rt_expires root <=? now with ascii "Sigstore root metadata has expired";
  let? timestamp := Metadata_parse timestamp (ascii "timestamp") in
  let? _ := Root_verify root timestamp in
  let? _ := current_metadata now timestamp in
  let? listed := listed_file timestamp (ascii "snapshot.json") snapshot in
  let? snapshot := Metadata_parse snapshot (ascii "snapshot") in
  let? _ := Root_verify root snapshot in
  let? _ := current_metadata now snapshot in
  reject negb (md_version snapshot =? listed) with ascii "Sigstore snapshot is not the timestamped version";
  let? listed := listed_file snapshot (ascii "targets.json") targets in
  let? (targets, trusted_root) := verify_targets root targets trusted_root in
  let? _ := current_metadata now targets in
  reject negb (md_version targets =? listed) with ascii "Sigstore targets are not the snapshot version";
  Ok {| tu_trusted_root := trusted_root; tu_root_version := rt_version root;
        tu_targets_version := md_version targets |}.

Definition tuf_verify_current_trust_update (root_json : bytes) (roots : list bytes)
    (targets trusted_root snapshot timestamp : bytes) (now_unix_ms : Z) : text_result TrustUpdate :=
  let? compiled := compiled_root root_json in
  let? root := newest_root compiled roots in
  verify_current root targets trusted_root snapshot timestamp now_unix_ms.

End Tuf.

(** * Theory

    TUF updates: what a verified root, a chain of roots and the files they list show. *)

Ltac destruct_units := repeat match goal with u : unit |- _ => destruct u end.

Section TufTheory.
Context `{Json} `{Hash} `{Encodings} `{SchemePrimitives} `{RekorPrimitives}.

(** ** Thresholds *)

(** A key of a role that signed the canonical text. *)
Definition signing_key (root : Root) (role : Role) (m : Metadata) (key : bytes) : Prop :=
  exists keyid signature, keyid ∈ ro_keyids role /\ assoc (rt_keys root) keyid = Some key /\
    assoc (md_signatures m) keyid = Some signature /\ signed_by key EcdsaP256Sha256 (md_canonical m) signature.

(** The role for the metadata's type has a threshold of distinct signing keys. *)
Definition authorized (root : Root) (m : Metadata) : Prop :=
  exists name role keys, default [] (as_str (value_index (md_signed m) (ascii "_type"))) = name /\
    assoc (rt_roles root) name = Some role /\
    NoDup keys /\ ro_threshold role <= zlen keys /\ Forall (signing_key root role m) keys.

Lemma add_signer_spec root m signers keyid key :
  key ∈ add_signer root m signers keyid <->
  key ∈ signers \/ exists signature, assoc (rt_keys root) keyid = Some key /\
    assoc (md_signatures m) keyid = Some signature /\ signed_by key EcdsaP256Sha256 (md_canonical m) signature.
Proof.
  unfold add_signer. destruct (assoc (rt_keys root) keyid) as [k|]; [|naive_solver].
  destruct (assoc (md_signatures m) keyid) as [s|]; [|naive_solver].
  destruct (verify_spki k EcdsaP256Sha256 (md_canonical m) s) as [[]|] eqn:E.
  - apply verify_spki_ok in E. case_bool_decide; [naive_solver|]. rewrite elem_of_app, list_elem_of_singleton. naive_solver.
  - split; [by left|]. intros [?|(s' & [= <-] & [= <-] & Hs)]; [done|]. apply verify_spki_ok in Hs. congruence.
Qed.

Lemma add_signer_nodup root m signers keyid : NoDup signers -> NoDup (add_signer root m signers keyid).
Proof.
  unfold add_signer. intros Hn. destruct (assoc _ _) as [k|]; [|done]. destruct (assoc _ _); [|done].
  destruct (verify_spki _ _ _ _); [|done]. case_bool_decide; [done|]. apply NoDup_app. split_and!; [done| |apply NoDup_singleton].
  intros x Hx ->%list_elem_of_singleton. done.
Qed.

Lemma signers_spec root m keyids signers :
  NoDup signers ->
  let all := fold_left (add_signer root m) keyids signers in
  NoDup all /\ forall key, key ∈ all <-> key ∈ signers \/ exists keyid signature, keyid ∈ keyids /\
    assoc (rt_keys root) keyid = Some key /\ assoc (md_signatures m) keyid = Some signature /\
    signed_by key EcdsaP256Sha256 (md_canonical m) signature.
Proof.
  revert signers. induction keyids as [|keyid keyids IH]; intros signers Hn; cbn [fold_left].
  - split; [done|]. intros key. split; [by left|]. intros [?|(? & ? & ?%not_elem_of_nil & _)]; done.
  - destruct (IH _ (add_signer_nodup root m signers keyid Hn)) as [Hn' Hs]. split; [done|].
    intros key. rewrite Hs, add_signer_spec. setoid_rewrite elem_of_cons. naive_solver.
Qed.

(** A root accepts metadata exactly when the role for its type has a threshold of distinct
    keys that signed its canonical text. *)
Lemma root_verify_exact root m : Root_verify root m = Ok tt <-> authorized root m.
Proof.
  unfold Root_verify, authorized. set (name := default [] _).
  destruct (assoc (rt_roles root) name) as [role|] eqn:Er; cbn [ok_or];
    [|split; [done|]; intros (? & role & ? & <- & Hr & _); congruence].
  destruct (signers_spec root m (ro_keyids role) [] (NoDup_nil_2)) as [Hn Hs]. set (all := fold_left _ _ _) in *.
  destruct (zlen all <? ro_threshold role) eqn:E; zbool; (split; [|intros (? & role' & keys & <- & Hr & Hk & Ht & Hf)]); try done.
  - rewrite Er in Hr. injection Hr as <-. rewrite Forall_forall in Hf.
    assert (length keys <= length all)%nat; [|unfold zlen in *; lia]. apply NoDup_incl_length; [by apply NoDup_ListNoDup|].
    intros k Hin. apply list_elem_of_In. apply Hs. right. apply Hf. by apply list_elem_of_In.
  - intros _. exists name, role, all. split_and!; [done|done|done|lia|]. apply Forall_forall. intros key Hin.
    apply Hs in Hin as [?%not_elem_of_nil|(keyid & signature & ?)]; [done|]. by exists keyid, signature.
Qed.

(** ** Chains of roots *)

(** Each file is the next version, signed under the root before it and under its own. *)
Inductive root_chain : Root -> list bytes -> Root -> Prop :=
| chain_end root : root_chain root [] root
| chain_next root file m next files newest :
    Metadata_parse file (ascii "root") = Ok m -> md_version m = rt_version root + 1 ->
    Root_parse m = Ok next -> authorized root m -> authorized next m ->
    root_chain next files newest -> root_chain root (file :: files) newest.

Lemma root_parse_version m root : Root_parse m = Ok root -> rt_version root = md_version m.
Proof. unfold Root_parse. intros Hp. pass Hp as ? by E1. pass Hp as ? by E2. pass Hp as ? by E3. by injection Hp as <-. Qed.

Lemma metadata_version file kind m : Metadata_parse file kind = Ok m -> 0 < md_version m <= u64_max.
Proof.
  unfold Metadata_parse. intros Hp. pass Hp as value by E1. pass Hp as signed by E2. pass Hp by E3. pass Hp by E4.
  pass Hp as version by E5. pass Hp as [[? ?] ?] by E6. pass Hp as ? by E7. pass Hp as ? by E8. pass Hp as ? by E9.
  injection Hp as <-. cbn. destruct (as_uint _ _) as [n|] eqn:E; [|done]. apply as_uint_range in E. simpl in E5.
  destruct (0 <? n) eqn:En; [|done]. zbool. injection E5 as <-. lia.
Qed.

Lemma next_root_exact root file next :
  next_root root file = Ok next <->
  exists m, Metadata_parse file (ascii "root") = Ok m /\ md_version m = rt_version root + 1 /\
    Root_parse m = Ok next /\ authorized root m /\ authorized next m.
Proof.
  unfold next_root. split.
  - intros Hv. pass Hv as m by Hm. pass Hv by Hc. pass Hv as u by Ha. pass Hv as n by Hp. pass Hv as u' by Hn.
    destruct u, u'. injection Hv as ->. zbool. exists m. rewrite <- !root_verify_exact. done.
  - intros (m & Hm & Hv & Hp & Ha & Hn). apply root_verify_exact in Ha, Hn.
    pose proof (metadata_version _ _ _ Hm). rewrite Hm. destruct (_ || _) eqn:E.
    + apply orb_true_iff in E as [E|E]; zbool; lia.
    + by rewrite Ha, Hp, Hn.
Qed.

(** Sigstore's roots form a signed chain: following a list of root files succeeds exactly
    when each file is root metadata of the next version, signed by a threshold of distinct
    keys of the root before it and by a threshold of its own, and ends at the last. *)
Theorem root_chain_exact root files newest : newest_root root files = Ok newest <-> root_chain root files newest.
Proof.
  unfold newest_root. split.
  - revert root. induction files as [|file files IH]; intros root; cbn [foldR]; [intros [= ->]; constructor|].
    intros Hv. pass Hv as next by Hn. apply next_root_exact in Hn as (m & ? & ? & ? & ? & ?). by eapply chain_next; [..|apply IH].
  - induction 1 as [|root file m next files newest Hm Hv Hp Ha Hn _ IH]; [done|]. cbn [foldR].
    by rewrite (proj2 (next_root_exact root file next)) by (by exists m).
Qed.

Lemma chain_version root files newest : root_chain root files newest -> rt_version newest = rt_version root + zlen files.
Proof.
  induction 1 as [root|root file m next files newest Hm Hv Hp Ha Hn Hc IH]; [change (zlen []) with 0; lia|].
  apply root_parse_version in Hp. rewrite zlen_cons. lia.
Qed.

(** A list of roots may not start at or below the root that is trusted already. *)
Theorem earlier_root_refused root file files m :
  Metadata_parse file (ascii "root") = Ok m -> md_version m <= rt_version root ->
  newest_root root (file :: files) = Err (ascii "Sigstore roots must continue the trusted root's version").
Proof.
  intros Hm Hv. unfold newest_root. cbn [foldR]. unfold next_root. rewrite Hm.
  destruct (_ || _) eqn:E; [done|]. apply orb_false_iff in E as [_ E]. zbool. lia.
Qed.

(** ** Files *)

(** A listing that names the length and the SHA-256 of a file. *)
Record lists_file (entry : Value) (b : bytes) : Prop := {
  lf_length : exists length, value_get entry (ascii "length") = Some length /\ as_uint u64_max length = Some (zlen b);
  lf_sha256 : exists hashes, value_get entry (ascii "hashes") = Some (JObject hashes) /\
    exists v, field hashes (ascii "sha256") = Some v /\ as_str v = Some (hex_encode (sha256 b))
}.

Lemma field_in fields key v : field fields key = Some v -> (key, v) ∈ fields.
Proof.
  unfold field. destruct (List.find _ _) as [[k w]|] eqn:E; [|done]. apply find_some in E as [Hin Hk].
  apply bool_decide_eq_true in Hk as ->. intros [= ->]. by apply list_elem_of_In.
Qed.

Lemma check_file_sound entry b :
  check_file entry b = Ok tt -> is_Some (value_get entry (ascii "length")) ->
  is_Some (value_get (value_index entry (ascii "hashes")) (ascii "sha256")) -> lists_file entry b.
Proof.
  unfold check_file, value_index. intros Hv [length Hl] [sha Hs]. rewrite Hl in Hv. pass Hv by Hc. zbool.
  destruct (value_get entry (ascii "hashes")) as [hashes|] eqn:Hh; [|done]. cbn in Hs.
  destruct hashes as [| | | | |fields]; try done. cbn [value_get] in Hs. destruct fields as [|h fields]; [done|].
  pass Hv as us by Hm. apply mapR_ok in Hm. apply field_in in Hs as Hin. apply list_elem_of_lookup in Hin as [i Hi].
  destruct (Forall2_lookup_l _ _ _ _ _ Hm Hi) as (u & _ & Hu). unfold check_hash in Hu.
  rewrite bool_decide_true in Hu by done. pass Hu by He. zbool.
  constructor; [by exists length|]. eexists. split; [done|]. by exists sha.
Qed.

(** Targets under a root's keys that list exactly these bytes as the trusted root. *)
Record targets_for (root : Root) (targets trusted_root : bytes) (m : Metadata) (keys : RootKeys) : Prop := {
  tg_parsed : Metadata_parse targets (ascii "targets") = Ok m;
  tg_authorized : authorized root m;
  tg_listed : exists entry,
    value_get (value_index (md_signed m) (ascii "targets")) (ascii "trusted_root.json") = Some entry /\
    lists_file entry trusted_root;
  tg_keys : from_utf8 trusted_root = Some trusted_root /\ RootKeys_complete trusted_root = Ok keys
}.

Lemma from_utf8_same b t : from_utf8 b = Some t -> t = b.
Proof. unfold from_utf8. destruct (forallb _ _); [|done]. by intros [= <-]. Qed.

Lemma verify_targets_sound root targets trusted_root m keys :
  verify_targets root targets trusted_root = Ok (m, keys) -> targets_for root targets trusted_root m keys.
Proof.
  unfold verify_targets. intros Hv. pass Hv as m' by Hm. pass Hv as u by Ha. pass Hv as entry by He. pass Hv by Hc.
  pass Hv as u' by Hf. pass Hv as text by Ht. pass Hv as keys' by Hk. destruct u, u'. injection Hv as -> ->. zbool.
  apply root_verify_exact in Ha. pose proof (from_utf8_same _ _ Ht) as ->. constructor; [done|done| |done].
  exists entry. split; [done|]. by apply check_file_sound.
Qed.

(** ** Updates *)

(** C24. Verified Sigstore keys come from the compiled root: an accepted update has a chain of
    signed roots from the compiled one, one version per file, targets signed by a threshold
    of the newest root's keys, and exactly the trusted-root bytes whose length and SHA-256
    those targets list, from which its keys are read. *)
Theorem trust_update_sound root_json roots targets trusted_root u :
  tuf_verify_trust_update root_json roots targets trusted_root = Ok u ->
  exists compiled newest m,
    compiled_root root_json = Ok compiled /\ root_chain compiled roots newest /\
    tu_root_version u = rt_version newest /\ rt_version newest = rt_version compiled + zlen roots /\
    targets_for newest targets trusted_root m (tu_trusted_root u) /\ tu_targets_version u = md_version m.
Proof.
  unfold tuf_verify_trust_update. intros Hv. pass Hv as compiled by Hc. pass Hv as newest by Hn.
  pass Hv as [m keys] by Ht. injection Hv as <-. apply root_chain_exact in Hn. apply verify_targets_sound in Ht.
  exists compiled, newest, m. split_and!; [done|done|done|by apply chain_version|done|done].
Qed.

(** Metadata for a role that has not expired and is the version its listing names. *)
Definition current_for (root : Root) (now : Z) (m : Metadata) : Prop := authorized root m /\ now < md_expires m.

Lemma current_metadata_ok now m : current_metadata now m = Ok tt <-> now < md_expires m.
Proof. unfold current_metadata. destruct (_ <=? now) eqn:E; zbool; split; (done || lia). Qed.

Lemma listed_file_version m name b n :
  listed_file m name b = Ok n -> exists entry, value_get (value_index (md_signed m) (ascii "meta")) name = Some entry /\
    check_file entry b = Ok tt /\ as_uint u64_max (value_index entry (ascii "version")) = Some n.
Proof.
  unfold listed_file. intros Hv. pass Hv as entry by He. pass Hv as u by Hc. destruct u. apply ok_or_ok in Hv. by exists entry.
Qed.

(** A publisher's update is current: besides the chain and the targets, the newest root,
    the timestamp, the snapshot and the targets are unexpired and signed under the newest
    root, the timestamp lists this snapshot and the snapshot these targets, both at their
    versions. *)
Theorem current_update_sound root_json roots targets trusted_root snapshot timestamp now u :
  tuf_verify_current_trust_update root_json roots targets trusted_root snapshot timestamp now = Ok u ->
  tuf_verify_trust_update root_json roots targets trusted_root = Ok u /\
  exists compiled newest t s m,
    compiled_root root_json = Ok compiled /\ root_chain compiled roots newest /\ now / 1000 < rt_expires newest /\
    Metadata_parse timestamp (ascii "timestamp") = Ok t /\ current_for newest (now / 1000) t /\
    listed_file t (ascii "snapshot.json") snapshot = Ok (md_version s) /\
    Metadata_parse snapshot (ascii "snapshot") = Ok s /\ current_for newest (now / 1000) s /\
    listed_file s (ascii "targets.json") targets = Ok (md_version m) /\
    targets_for newest targets trusted_root m (tu_trusted_root u) /\ current_for newest (now / 1000) m.
Proof.
  unfold tuf_verify_current_trust_update, verify_current. intros Hv. pass Hv as compiled by Hc. pass Hv as newest by Hn.
  pass Hv by Hx. pass Hv as t by Ht. pass Hv as ? by Ha1. pass Hv as ? by He1. pass Hv as l1 by Hl1. pass Hv as s by Hs.
  pass Hv as ? by Ha2. pass Hv as ? by He2. pass Hv by Hv1. pass Hv as l2 by Hl2. pass Hv as [m keys] by Hm.
  pass Hv as ? by He3. pass Hv by Hv2. injection Hv as <-. zbool. subst. destruct_units.
  unfold tuf_verify_trust_update. rewrite Hc, Hn, Hm. split; [done|]. apply root_chain_exact in Hn.
  apply verify_targets_sound in Hm as Hm'. apply current_metadata_ok in He1, He2, He3. apply root_verify_exact in Ha1, Ha2.
  exists compiled, newest, t, s, m. split_and!; try done. split; [by destruct Hm'|done].
Qed.

End TufTheory.
