(* ===== verification/CanonicalJson.v ===== *)
(** The canonical JSON that TUF signs is unambiguous: its text determines the value up to the
    order of members and the spelling of integers, which is all that a reader can see. *)

From S2P Require Import Prelude Primitives BTree Text Json Signing Documents Deserialize Approvals Schemes TrustRoot Tlog Tuf.

Open Scope Z_scope.

(** ** Normal forms *)

(** Members in the order of their keys and integers in their shortest spelling. *)
Fixpoint normal (v : Value) : Value :=
  match v with
  | JNumber text => JNumber (default text (integer_text v))
  | JArray items => JArray (normal <$> items)
  | JObject fields =>
      JObject (sort_entries ((fix go (l : list (bytes * Value)) : list (bytes * Value) :=
        match l with [] => [] | (key, item) :: rest => (key, normal item) :: go rest end) fields))
  | _ => v
  end.

(** A function on the values of members. *)
Definition on_values {A B} (f : A -> B) (l : list (bytes * A)) : list (bytes * B) := (fun e => (e.1, f e.2)) <$> l.

Lemma normal_object fields : normal (JObject fields) = JObject (sort_entries (on_values normal fields)).
Proof. cbn [normal]. do 2 f_equal. induction fields as [|[k v] fields IH]; [done|]. cbn. by rewrite IH. Qed.

(** One member of an object. *)
Definition write_member (e : bytes * Value) : text_result bytes :=
  let? text := write_canonical e.2 in Ok (write_string e.1 ++ x3a :: text).

Lemma insert_values {A B} (f : A -> B) e l :
  insert_entry (e.1, f e.2) (on_values f l) = on_values f (insert_entry e l).
Proof. unfold on_values. induction l as [|o l IH]; [done|]. cbn. destruct (bytes_ltb o.1 e.1); cbn; [by rewrite IH|done]. Qed.

Lemma sort_values {A B} (f : A -> B) l : sort_entries (on_values f l) = on_values f (sort_entries l).
Proof. unfold on_values. induction l as [|e l IH]; [done|]. cbn. rewrite IH. apply insert_values. Qed.

Lemma mapR_map {A B C E} (f : B -> result C E) (g : A -> B) l : mapR f (g <$> l) = mapR (fun x => f (g x)) l.
Proof. induction l as [|x l IH]; [done|]. cbn. by rewrite IH. Qed.

Lemma mapR_ext {A B E} (f g : A -> result B E) l : Forall (fun x => f x = g x) l -> mapR f l = mapR g l.
Proof. induction 1 as [|x l Hx _ IH]; [done|]. cbn. by rewrite Hx, IH. Qed.

Lemma write_object fields :
  write_canonical (JObject fields) =
  let? pieces := mapR write_member (sort_entries fields) in Ok (x7b :: joined pieces ++ [x7d]).
Proof.
  cbn [write_canonical].
  assert ((fix go (l : list (bytes * Value)) : list (bytes * text_result bytes) :=
    match l with [] => [] | (key, item) :: rest => (key, write_canonical item) :: go rest end) fields
    = on_values write_canonical fields) as ->.
  { induction fields as [|[k v] fields IH]; [done|]. cbn. by rewrite IH. }
  rewrite sort_values. unfold on_values. rewrite mapR_map. done.
Qed.

(** ** Order of keys *)

Lemma bytes_ltb_asym a b : bytes_ltb a b = true -> bytes_ltb b a = false.
Proof.
  intros Ha. destruct (bytes_ltb b a) eqn:E; [|done]. pose proof (bytes_ltb_trans _ _ _ Ha E). by rewrite bytes_ltb_irrefl in *.
Qed.

(** No entry is above the next. *)
Fixpoint in_order {A} (l : list (bytes * A)) : Prop :=
  match l with
  | a :: (b :: _) as rest => bytes_ltb b.1 a.1 = false /\ in_order rest
  | _ => True
  end.

Lemma insert_order {A} (e : bytes * A) l : in_order l -> in_order (insert_entry e l).
Proof.
  induction l as [|o l IH]; [done|]. intros Ho. cbn [insert_entry]. destruct (bytes_ltb o.1 e.1) eqn:E; [|by split].
  destruct l as [|o' l]; cbn [insert_entry] in *; [split; [by apply bytes_ltb_asym|done]|].
  destruct Ho as [Ho Hl]. specialize (IH Hl). destruct (bytes_ltb o'.1 e.1); split; try done. by apply bytes_ltb_asym.
Qed.

Lemma sort_order {A} (l : list (bytes * A)) : in_order (sort_entries l).
Proof. induction l as [|e l IH]; [done|]. cbn. by apply insert_order. Qed.

Lemma sort_sorted {A} (l : list (bytes * A)) : in_order l -> sort_entries l = l.
Proof.
  induction l as [|e l IH]; [done|]. destruct l as [|o l]; [done|]. intros [Ho Hl]. cbn [sort_entries] in *.
  rewrite (IH Hl). cbn [insert_entry]. by rewrite Ho.
Qed.

Lemma sort_idem {A} (l : list (bytes * A)) : sort_entries (sort_entries l) = sort_entries l.
Proof. apply sort_sorted, sort_order. Qed.

(** ** The text depends on the normal form only *)

Lemma u64_small n : n <= u64_max -> n < 10 ^ 20.
Proof. unfold u64_max. lia. Qed.

Lemma integer_text_cases v t :
  integer_text v = Some t ->
  (exists n, 0 <= n <= u64_max /\ t = decimal n) \/ (exists n, 0 < n <= - i64_min /\ t = x2d :: decimal n).
Proof.
  unfold integer_text. destruct (as_uint u64_max v) as [n|] eqn:E.
  - intros [= <-]. left. exists n. split; [by apply as_uint_range in E|done].
  - destruct (as_i64 v) as [n|] eqn:Ei; [|done]. intros [= <-]. right. exists (- n). split; [|done].
    destruct v as [| |text| | |]; try done. unfold as_i64 in Ei.
    destruct text as [|b text]; [done|]. destruct (decide (b = x2d)) as [->|Hb].
    + destruct (parse_digits text) as [m|]; [|done]. cbn in Ei. destruct (_ && _) eqn:Em; [|done]. injection Ei as <-. zbool. lia.
    + assert (as_uint i64_max (JNumber (b :: text)) = Some n) as Hu by (destruct b; try done). exfalso.
      unfold as_uint in E, Hu. destruct (parse_digits (b :: text)) as [m|]; [|done]. cbn in E, Hu.
      destruct (m <=? i64_max) eqn:E1; [|done]. destruct (m <=? u64_max) eqn:E2; [done|]. zbool. unfold i64_max, u64_max in *. lia.
Qed.

Lemma decimal_digit n : 0 <= n < 10 ^ 20 -> forallb is_digit (decimal n) = true /\ exists b rest, decimal n = b :: rest.
Proof.
  intros Hn. destruct (decimal_digits_spec 20 n Hn ltac:(lia)) as (Hd & _ & Hl). split; [done|].
  unfold decimal. destruct (decimal_digits 20 n) as [|b rest]; [done|by eexists _, _].
Qed.

Lemma integer_text_idem v t : integer_text v = Some t -> integer_text (JNumber t) = Some t.
Proof.
  intros [(n & Hn & ->)|(n & Hn & ->)]%integer_text_cases; unfold integer_text.
  - change (JNumber (decimal n)) with (jnum n). by rewrite as_uint_jnum by done.
  - unfold i64_min in Hn. assert (as_uint u64_max (JNumber (x2d :: decimal n)) = None) as ->.
    { unfold as_uint, parse_digits. cbn [forallb]. by rewrite andb_false_r. }
    unfold as_i64. rewrite parse_decimal by lia. cbn [mbind option_bind].
    rewrite (proj2 (Z.ltb_lt _ _)), (proj2 (Z.leb_le _ _)) by (unfold i64_min; lia). cbn. by rewrite Z.opp_involutive.
Qed.

Lemma insert_perm {A} (e : bytes * A) l : insert_entry e l ≡ₚ e :: l.
Proof. induction l as [|o l IH]; [done|]. cbn. destruct (bytes_ltb o.1 e.1); [|done]. rewrite IH. apply Permutation_swap. Qed.

Lemma sort_perm {A} (l : list (bytes * A)) : sort_entries l ≡ₚ l.
Proof. induction l as [|e l IH]; [done|]. cbn. by rewrite insert_perm, IH. Qed.

Lemma write_normal v : write_canonical (normal v) = write_canonical v.
Proof.
  induction v as [| |text| |l IH|fields IH] using Value_induction; try done.
  - cbn [normal write_canonical]. destruct (integer_text (JNumber text)) as [t|] eqn:E; cbn [from_option].
    + unfold id. by rewrite (integer_text_idem _ _ E).
    + by rewrite E.
  - cbn [normal write_canonical]. rewrite mapR_map. by rewrite (mapR_ext _ write_canonical).
  - rewrite normal_object, !write_object, sort_idem, sort_values. unfold on_values. rewrite mapR_map.
    rewrite (mapR_ext _ write_member); [done|]. rewrite Forall_fmap in IH. rewrite <- sort_perm in IH.
    eapply Forall_impl; [exact IH|]. intros [k v] Hv. unfold write_member. cbn in *. by rewrite Hv.
Qed.

(** ** Texts are self-delimiting *)

(** What may follow a number. *)
Definition stop (r : bytes) : Prop := match r with [] => True | b :: _ => is_digit b = false end.

Lemma digits_split d d' r r' :
  forallb is_digit d = true -> forallb is_digit d' = true -> stop r -> stop r' -> d ++ r = d' ++ r' -> d = d' /\ r = r'.
Proof.
  revert d'. induction d as [|b d IH]; intros [|b' d']; cbn; intros Hd Hd' Hr Hr' E; [done|..]; subst; cbn in *.
  - rewrite Hr in Hd'. done.
  - rewrite Hr' in Hd. done.
  - injection E as -> E. zbool. destruct (IH d') as [-> ->]; done.
Qed.

Lemma escape_inj s s' r r' : escape s ++ x22 :: r = escape s' ++ x22 :: r' -> s = s' /\ r = r'.
Proof.
  revert s'. induction s as [|b s IH]; intros [|b' s']; cbn [escape app].
  - by intros [= ->].
  - do 2 case_bool_decide; subst; cbn; congruence.
  - do 2 case_bool_decide; subst; cbn; congruence.
  - do 4 case_bool_decide; subst; cbn; intros E; injection E; intros; subst; try done;
      match goal with E : escape _ ++ _ = _ |- _ => apply IH in E as [-> ->]; done end.
Qed.

Lemma write_string_inj s s' r r' : write_string s ++ r = write_string s' ++ r' -> s = s' /\ r = r'.
Proof. unfold write_string. cbn [app]. rewrite <- !app_assoc. intros [= E]. by apply escape_inj in E. Qed.

(** The first byte tells the kind of a value. *)
Definition lead (v : Value) (b : byte) : Prop :=
  match v with
  | JNull => b = x6e
  | JBool true => b = x74
  | JBool false => b = x66
  | JNumber _ => is_digit b = true \/ b = x2d
  | JString _ => b = x22
  | JArray _ => b = x5b
  | JObject _ => b = x7b
  end.

Lemma write_lead v t : write_canonical v = Ok t -> exists b rest, t = b :: rest /\ lead v b.
Proof.
  destruct v as [|[]|text|s|l|fields].
  - intros [= <-]. by eexists _, _.
  - intros [= <-]. by eexists _, _.
  - intros [= <-]. by eexists _, _.
  - cbn [write_canonical]. intros Ht%ok_or_ok. apply integer_text_cases in Ht as [(n & Hn & ->)|(n & Hn & ->)].
    + destruct (decimal_digit n) as (Hd & b & rest & E); [pose proof (u64_small n); lia|]. rewrite E in *. cbn in Hd. zbool.
      eexists _, _. split; [done|by left].
    + eexists _, _. split; [done|by right].
  - intros [= <-]. by eexists _, _.
  - cbn [write_canonical]. intros Hv. pass Hv as ps by E. injection Hv as <-. by eexists _, _.
  - rewrite write_object. intros Hv. pass Hv as ps by E. injection Hv as <-. by eexists _, _.
Qed.

(** ** Lists of texts *)

Section Joined.
Context {A N : Type} (write : A -> text_result bytes) (view : A -> N) (close : byte).

(** A text and what follows it determine what was written. *)
Definition determined (x : A) : Prop := forall y t t' r r',
  write x = Ok t -> write y = Ok t' -> stop r -> stop r' -> t ++ r = t' ++ r' -> view x = view y /\ r = r'.

Context (Hclose : is_digit close = false) (Hcomma : close <> x2c).
Context (Hfirst : forall x t, write x = Ok t -> exists b rest, t = b :: rest /\ b <> close).

Definition after (ps : list bytes) (r : bytes) : bytes :=
  match ps with [] => close :: r | _ => x2c :: joined ps ++ close :: r end.

Lemma joined_cons p ps r : joined (p :: ps) ++ close :: r = p ++ after ps r.
Proof. destruct ps; [done|]. cbn [joined after]. by rewrite <- app_assoc. Qed.

Lemma after_stop ps r : stop (after ps r).
Proof using Hclose. by destruct ps. Qed.

Lemma joined_inj l l' ps ps' r r' :
  Forall determined l -> mapR write l = Ok ps -> mapR write l' = Ok ps' ->
  joined ps ++ close :: r = joined ps' ++ close :: r' -> view <$> l = view <$> l' /\ r = r'.
Proof using Hclose Hcomma Hfirst.
  intros Hd. revert l' ps ps'. induction Hd as [|x l Hx _ IH]; intros [|y l'] ps ps'; cbn [mapR]; intros Hp Hp'.
  - injection Hp as <-. injection Hp' as <-. by intros [= ->].
  - injection Hp as <-. pass Hp' as p' by Ey. pass Hp' as qs' by El. injection Hp' as <-. rewrite joined_cons.
    apply Hfirst in Ey as (b & rest & -> & Hb). cbn. congruence.
  - injection Hp' as <-. pass Hp as p by Ex. pass Hp as qs by El. injection Hp as <-. rewrite joined_cons.
    apply Hfirst in Ex as (b & rest & -> & Hb). cbn. congruence.
  - pass Hp as p by Ex. pass Hp as qs by El. injection Hp as <-. pass Hp' as p' by Ey. pass Hp' as qs' by El'.
    injection Hp' as <-. rewrite !joined_cons. intros E.
    destruct (Hx y p p' _ _ Ex Ey (after_stop _ _) (after_stop _ _) E) as [Hv Ht].
    destruct (IH l' qs qs' eq_refl El') as [Hl Hr]; [|by rewrite !fmap_cons, Hv, Hl].
    destruct qs, qs'; cbn [after joined app] in *; congruence.
Qed.

End Joined.

(** ** Unambiguity *)

Lemma member_determined e :
  determined write_canonical normal e.2 -> determined write_member (fun e => (e.1, normal e.2)) e.
Proof.
  intros Hv [k' v'] t t' r r' Ht Ht' Hr Hr' E. destruct e as [k v]. unfold write_member in *. cbn [fst snd] in *.
  pass Ht as u by Eu. assert (t = write_string k ++ x3a :: u) as -> by congruence. pass Ht' as u' by Eu'.
  assert (t' = write_string k' ++ x3a :: u') as -> by congruence. rewrite <- !(app_assoc (write_string _)) in E.
  apply write_string_inj in E as [-> E]. injection E as E. destruct (Hv v' u u' r r') as [-> ->]; done.
Qed.

(** Values of the same kind: the same constructor, and the same constant where it is one. *)
Definition kind (v : Value) : Z :=
  match v with
  | JNull => 0 | JBool true => 1 | JBool false => 2 | JNumber _ => 3 | JString _ => 4 | JArray _ => 5 | JObject _ => 6
  end.

Lemma lead_kind v w b : lead v b -> lead w b -> kind v = kind w.
Proof.
  destruct v as [|[]| | | |], w as [|[]| | | |]; cbn [lead kind]; try done; intros; subst; try done;
    by destruct_or!.
Qed.

Lemma same_kind v w t t' r r' :
  write_canonical v = Ok t -> write_canonical w = Ok t' -> t ++ r = t' ++ r' -> kind v = kind w.
Proof.
  intros Ht Ht' E. destruct (write_lead _ _ Ht) as (b & rest & -> & Hl), (write_lead _ _ Ht') as (b' & rest' & -> & Hl').
  injection E as <- _. by eapply lead_kind.
Qed.

Lemma number_determined text : determined write_canonical normal (JNumber text).
Proof.
  intros w t t' r r' Ht Ht' Hr Hr' E. pose proof (same_kind _ _ _ _ _ _ Ht Ht' E) as Hk.
  destruct w as [|[]|text'| | |]; try done. cbn [write_canonical normal] in *. apply ok_or_ok in Ht, Ht'. rewrite Ht, Ht'.
  cbn [from_option]. unfold id. assert (t = t' /\ r = r') as [-> ->]; [|done].
  apply integer_text_cases in Ht as [(n & Hn & ->)|(n & Hn & ->)], Ht' as [(n' & Hn' & ->)|(n' & Hn' & ->)].
  all: destruct (decimal_digit n) as (Hd & b & rest & Eb); [pose proof (u64_small n); unfold i64_min in *; lia|].
  all: destruct (decimal_digit n') as (Hd' & b' & rest' & Eb'); [pose proof (u64_small n'); unfold i64_min in *; lia|].
  - by apply digits_split.
  - rewrite Eb in *. injection E as -> _. done.
  - rewrite Eb' in *. injection E as <- _. done.
  - injection E as E. by apply digits_split in E as [-> ->].
Qed.

Lemma write_determined v : determined write_canonical normal v.
Proof.
  induction v as [|b|text|s|l IH|fields IH] using Value_induction; [| |apply number_determined|..];
    intros w t t' r r' Ht Ht' Hr Hr' E; pose proof (same_kind _ _ _ _ _ _ Ht Ht' E) as Hk.
  - destruct w as [|[]| | | |]; try done. cbn in Ht, Ht'. simplify_eq. by split.
  - destruct b, w as [|[]| | | |]; try done; cbn in Ht, Ht'; simplify_eq; by split.
  - destruct w as [|[]| |s'| |]; try done. assert (t = write_string s) as -> by (cbn in Ht; congruence).
    assert (t' = write_string s') as -> by (cbn in Ht'; congruence). apply write_string_inj in E as [-> ->]. done.
  - destruct w as [|[]| | |l'|]; try done. cbn [write_canonical normal] in *. pass Ht as ps by Ep. pass Ht' as ps' by Ep'.
    injection Ht as <-. injection Ht' as <-. injection E as E. rewrite <- !app_assoc in E.
    apply (joined_inj write_canonical normal x5d) with (l := l) (l' := l') in E as [-> ->]; try done.
    intros x u Hu. destruct (write_lead _ _ Hu) as (b & rest & -> & Hl). eexists _, _. split; [done|].
    intros ->. destruct x as [|[]| | | |]; cbn in Hl; try done. by destruct Hl.
  - destruct w as [|[]| | | |fields']; try done. rewrite write_object in Ht, Ht'. rewrite !normal_object, !sort_values.
    pass Ht as ps by Ep. pass Ht' as ps' by Ep'. injection Ht as <-. injection Ht' as <-. injection E as E.
    rewrite <- !app_assoc in E. unfold on_values.
    apply (joined_inj write_member (fun e => (e.1, normal e.2)) x7d) with
      (l := sort_entries fields) (l' := sort_entries fields') in E as [-> ->]; try done.
    + intros e u Hu. unfold write_member in Hu. pass Hu as text by Et. injection Hu as <-. by eexists _, _.
    + rewrite Forall_fmap in IH. rewrite <- sort_perm in IH. eapply Forall_impl; [exact IH|]. apply member_determined.
Qed.

(** TUF's canonical JSON is unambiguous: a value with a canonical text shares it with
    another value exactly when the two differ only in the order of object members and the
    spelling of integers, so a signature over the text is a signature over the document. *)
Theorem canonical_unambiguous v w t :
  write_canonical v = Ok t -> write_canonical w = Ok t <-> normal w = normal v.
Proof.
  intros Hv. split.
  - intros Hw. by destruct (write_determined w v t t [] [] Hw Hv I I eq_refl).
  - intros E. by rewrite <- write_normal, E, write_normal.
Qed.

(** What a reader finds under a key depends on the normal form only. *)
Lemma sorted_field fields key : NoDup fields.*1 -> field (sort_entries fields) key = field fields key.
Proof.
  intros Hn. destruct (field fields key) as [v|] eqn:E.
  - apply field_some; [by rewrite (fmap_Permutation _ _ _ (sort_perm fields))|]. rewrite sort_perm.
    unfold field in E. destruct (List.find _ _) as [[k w]|] eqn:Ef; [|done]. apply find_some in Ef as [Hin Hk].
    apply bool_decide_eq_true in Hk as ->. injection E as <-. by apply list_elem_of_In.
  - unfold field in *. destruct (List.find _ (sort_entries fields)) as [[k w]|] eqn:Ef; [|done].
    apply find_some in Ef as [Hin%list_elem_of_In Hk]. rewrite sort_perm in Hin.
    destruct (List.find _ fields) eqn:En; [done|]. apply list_elem_of_In in Hin.
    pose proof (find_none _ _ En _ Hin) as Hx. cbn in Hx, Hk. congruence.
Qed.

Lemma normal_field fields key :
  NoDup fields.*1 -> value_get (normal (JObject fields)) key = normal <$> value_get (JObject fields) key.
Proof.
  intros Hn. rewrite normal_object. cbn [value_get]. rewrite sorted_field.
  - unfold field, on_values. clear. induction fields as [|[k v] fields IH]; [done|]. cbn. by destruct (bool_decide (k = key)).
  - unfold on_values. rewrite <- list_fmap_compose. done.
Qed.
