(* ===== verification/Bundles.v ===== *)
(** Certificates of the offline Sigstore verifier: the certificate of a signer
    ([offline-sigstore/src/sigstore.rs]), its certificate timestamp ([sct.rs]) and RFC 3161
    timestamps ([tsa.rs]). The ASN.1 decoders and the path validation of [webpki] are
    parameters. *)

From S2P Require Import Prelude MerkleTheory CanonicalJson Snp Tlog Tuf Primitives Text Json Signing Attestation Documents.
From S2P Require Import Deserialize Approvals Schemes TrustRoot.

Open Scope Z_scope.

(** ** What the decoders give *)

Record FulcioExtension : Type := { fe_id : bytes; fe_critical : bool; fe_value : bytes }.

#[export] Instance FulcioExtension_eq_dec : EqDecision FulcioExtension.
Proof. solve_decision. Defined.

(** [x509_cert::Certificate]: [fc_rest] stands for what the code only copies or encodes.
    The times are the seconds of [to_unix_duration]; [fc_curve] are the parameters of the
    key, where they are, read as an object identifier. *)
Record FulcioCertificate : Type := {
  fc_not_before : Z;
  fc_not_after : Z;
  fc_issuer : bytes;
  fc_serial : bytes;
  fc_algorithm : bytes;
  fc_curve : option (option bytes);
  fc_extensions : option (list FulcioExtension);
  fc_rest : bytes
}.

#[export] Instance FulcioCertificate_eq_dec : EqDecision FulcioCertificate.
Proof. solve_decision. Defined.

Inductive GeneralName : Type := UniformResourceIdentifier (uri : bytes) | OtherName.

(** A signed certificate timestamp; the two numbers of its signature algorithm. *)
Record SignedCertificateTimestamp : Type := {
  sc_log_id : bytes;
  sc_timestamp : Z;
  sc_extensions : bytes;
  sc_hash : Z;
  sc_signature_algorithm : Z;
  sc_signature : bytes
}.

(** [cms]: signer names, attributes with their encoded values, and signed data. *)
Inductive SignerIdentifier : Type :=
| IssuerAndSerialNumber (issuer serial : bytes)
| SubjectKeyIdentifier (id : bytes).
Record CmsAttribute : Type := { ca_oid : bytes; ca_values : list bytes }.
Record SignerInfo : Type := {
  si_sid : SignerIdentifier;
  si_digest_alg : bytes;
  si_signed_attrs : option (list CmsAttribute);
  si_signature_algorithm : bytes;
  si_signature : bytes
}.
(** A set of certificates: [None] is a choice other than a certificate. *)
Record SignedData : Type := {
  sd_econtent_type : bytes;
  sd_econtent : option bytes;
  sd_certificates : option (list (option FulcioCertificate));
  sd_signer_infos : list SignerInfo
}.

(** [TstInfo]: the fields the code reads; the time is in seconds from the Unix epoch. *)
Record TstInfo : Type := {
  ti_version : Z;
  ti_hash_algorithm : bytes;
  ti_hashed_message : bytes;
  ti_gen_time : Z;
  ti_accuracy : option (option Z * option Z)
}.

(** A validated path: the key of the first intermediate, where there is one, and the
    contents of the anchor's key. *)
Record VerifiedPath : Type := { vp_intermediate : option bytes; vp_anchor_spki : bytes }.

(** [x509_cert], [cms], [der] and [webpki]. The decoders of an extension give an error, no
    extension or one; [end_entity] tells whether the bytes are an end-entity certificate. *)
Class Pki := {
  certificate_from_der : bytes -> option FulcioCertificate;
  certificate_to_der : FulcioCertificate -> option bytes;
  certificate_spki_to_der : FulcioCertificate -> option bytes;
  certificate_tbs_to_der : FulcioCertificate -> option bytes;
  certificate_san : FulcioCertificate -> option (option (bool * list GeneralName));
  certificate_eku : FulcioCertificate -> option (option (bool * list bytes));
  certificate_scts : FulcioCertificate -> option (option bytes);
  parse_timestamps : bytes -> option (list bytes);
  parse_timestamp_entry : bytes -> option SignedCertificateTimestamp;
  subject_key_identifier_from_der : bytes -> option bytes;
  utf8_string_from_der : bytes -> option bytes;
  octet_string_from_der : bytes -> option bytes;
  oid_from_der : bytes -> option bytes;
  sequence_to_der : bytes -> option bytes;
  attributes_to_der : list CmsAttribute -> option bytes;
  timestamp_response_from_der : bytes -> option (Z * option bytes);
  content_info_from_der : bytes -> option (bytes * bytes);
  signed_data_from_der : bytes -> option SignedData;
  tst_info_from_der : bytes -> option TstInfo;
  Anchor : Type;
  anchor_from_trusted_cert : bytes -> option Anchor;
  end_entity : bytes -> bool;
  verify_for_usage (algorithms : list RustCryptoAlgorithm) (certificate : bytes) (anchors : list Anchor)
    (intermediates : list bytes) (seconds : Z) (usage : bytes) : option VerifiedPath
}.

Definition FULCIO_ISSUER_OID : bytes := ascii "1.3.6.1.4.1.57264.1.1".
Definition CT_PRECERT_SCTS : bytes := ascii "1.3.6.1.4.1.11129.2.4.2".
Definition ID_KP_CODE_SIGNING : bytes := ascii "1.3.6.1.5.5.7.3.3".

(** [i64::try_from] of an unsigned number. *)
Definition to_i64 (n : Z) : option Z := if n <=? i64_max then Some n else None.

Section Fulcio.
Context `{Json} `{Hash} `{Encodings} `{SchemePrimitives} `{Pki}.

(** ** sigstore.rs: the signer's certificate *)

Record CertificateInfo : Type := {
  ci_der : bytes;
  ci_spki : bytes;
  ci_identity : bytes;
  ci_issuer : bytes;
  ci_extensions : list (bytes * bytes);
  ci_not_before : Z;
  ci_not_after : Z
}.

Definition text_extension (c : CertificateInfo) (oid : bytes) : text_result bytes :=
  match List.filter (fun '(id, _) => bool_decide (id = oid)) (ci_extensions c) with
  | [(_, value)] => ok_or (utf8_string_from_der value) (ascii "malformed Fulcio  extension: ")
  | _ => Err (ascii "Fulcio certificate requires one  extension")
  end.

Definition fulcio_identities (names : list GeneralName) : list bytes :=
  omap (fun name => match name with UniformResourceIdentifier uri => Some uri | OtherName => None end) names.

(** A DER string, or the bare text of older certificates. *)
Definition fulcio_issuer_text (b : bytes) : text_result bytes :=
  match utf8_string_from_der b with
  | Some issuer => Ok issuer
  | None => ok_or (from_utf8 b) (ascii "malformed Fulcio issuer extension: ")
  end.

Definition parse_certificate (der : bytes) : text_result CertificateInfo :=
  let? certificate := ok_or (certificate_from_der der) (ascii "invalid Fulcio certificate: ") in
  let? not_before := ok_or (to_i64 (fc_not_before certificate)) (ascii "Fulcio not-before is too large") in
  let? not_after := ok_or (to_i64 (fc_not_after certificate)) (ascii "Fulcio not-after is too large") in
  let? spki := ok_or (certificate_spki_to_der certificate) (ascii "could not encode Fulcio public key: ") in
  let? san := ok_or (certificate_san certificate) (ascii "could not parse Fulcio SAN: ") in
  let? (critical, names) := ok_or san (ascii "Fulcio certificate has no SAN") in
  let identities := fulcio_identities names in
  reject negb critical || negb (zlen identities =? 1) || negb (zlen names =? 1)
    with ascii "Fulcio certificate requires one critical URI SAN";
  let extensions := (fun e => (fe_id e, fe_value e)) <$> default [] (fc_extensions certificate) in
  let? issuers := mapR (fun e => fulcio_issuer_text e.2)
    (List.filter (fun e => bool_decide (e.1 = FULCIO_ISSUER_OID)) extensions) in
  reject negb (zlen issuers =? 1) with ascii "Fulcio certificate requires one OIDC issuer extension";
  Ok {| ci_der := der; ci_spki := spki; ci_identity := default [] (head identities);
        ci_issuer := default [] (head issuers); ci_extensions := extensions; ci_not_before := not_before;
        ci_not_after := not_after |}.

(** [u64::try_from] of a time. *)
Definition to_u64 (n : Z) : option Z := if 0 <=? n then Some n else None.

Definition verify_certificate_chain (certificate_der : bytes) (validation_time : Z) (root : RootKeys)
  : text_result bytes :=
  let? certificates := fulcio_certificates_at root validation_time in
  let? anchors := mapR (fun c => ok_or (anchor_from_trusted_cert c) (ascii "invalid Fulcio anchor: ")) certificates in
  reject negb (end_entity certificate_der) with ascii "invalid Fulcio end-entity certificate: ";
  let? seconds := ok_or (to_u64 validation_time) (ascii "negative Fulcio validation time") in
  let? path := ok_or (verify_for_usage WEBPKI_ALGORITHMS certificate_der anchors [] seconds ID_KP_CODE_SIGNING)
    (ascii "Fulcio certificate-chain validation failed: ") in
  match vp_intermediate path with
  | None => ok_or (sequence_to_der (vp_anchor_spki path)) (ascii "could not encode verified Fulcio issuer key: ")
  | Some issuer => Ok issuer
  end.

(** ** sct.rs *)

(** [tls_codec]: a vector under a length of [width] bytes. *)
Definition tls_vector (width : nat) (b : bytes) : option bytes :=
  if zlen b <? 256 ^ Z.of_nat width then Some (be_bytes width (zlen b) ++ b) else None.

(** [DigitallySigned] of a [PreCert]: version 1 and a certificate timestamp are zero, a
    precertificate entry is one. *)
Definition DigitallySigned_serialize (timestamp : Z) (issuer_key_hash tbs extensions : bytes) : option bytes :=
  tbs ← tls_vector 3 tbs;
  extensions ← tls_vector 2 extensions;
  Some ([x00; x00] ++ u64_be timestamp ++ u16_be 1 ++ issuer_key_hash ++ tbs ++ extensions).

Definition signed_data (certificate : FulcioCertificate) (sct : SignedCertificateTimestamp) (issuer_spki_der : bytes)
  : text_result bytes :=
  let precertificate := {|
    fc_not_before := fc_not_before certificate; fc_not_after := fc_not_after certificate;
    fc_issuer := fc_issuer certificate; fc_serial := fc_serial certificate;
    fc_algorithm := fc_algorithm certificate; fc_curve := fc_curve certificate;
    fc_extensions := List.filter (fun e => negb (bool_decide (fe_id e = CT_PRECERT_SCTS))) <$> fc_extensions certificate;
    fc_rest := fc_rest certificate |} in
  let? tbs := ok_or (certificate_tbs_to_der precertificate) (ascii "could not reconstruct Fulcio precertificate: ") in
  ok_or (DigitallySigned_serialize (sc_timestamp sct) (sha256 issuer_spki_der) tbs (sc_extensions sct))
    (ascii "could not serialize Fulcio SCT input: ").

Definition sct_scheme (algorithm : Z) : option Scheme :=
  if algorithm =? 0x0403 then Some EcdsaP256Sha256
  else if algorithm =? 0x0503 then Some EcdsaP384Sha384
  else if algorithm =? 0x0401 then Some RsaPkcs1Sha256
  else if algorithm =? 0x0501 then Some RsaPkcs1Sha384
  else if algorithm =? 0x0601 then Some RsaPkcs1Sha512
  else None.

Definition sct_verify (certificate_der issuer_spki_der : bytes) (validation_time : Z) (root : RootKeys)
  : text_result unit :=
  let? certificate := ok_or (certificate_from_der certificate_der)
    (ascii "could not parse Fulcio certificate for SCT: ") in
  let? list := ok_or (certificate_scts certificate) (ascii "could not parse Fulcio SCT extension: ") in
  let? list := ok_or list (ascii "Fulcio certificate is missing its SCT") in
  let? entries := ok_or (parse_timestamps list) (ascii "could not parse Fulcio SCT list: ") in
  match entries with
  | [entry] =>
      let? sct := ok_or (parse_timestamp_entry entry) (ascii "could not parse Fulcio SCT: ") in
      let? sct_seconds := ok_or (to_i64 (sc_timestamp sct / 1000)) (ascii "Fulcio SCT timestamp is too large") in
      reject validation_time + 60 <? sct_seconds with ascii "Fulcio SCT is later than the authenticated signing time";
      let? key := ct_key_at root (sc_log_id sct) sct_seconds in
      let? signed := signed_data certificate sct issuer_spki_der in
      let? scheme := ok_or (sct_scheme (sc_hash sct * 256 + sc_signature_algorithm sct))
        (ascii "unsupported SCT signature algorithm: ") in
      map_err (fun _ => ascii "Fulcio SCT verification failed: ")
        (verify_spki (lk_spki key) scheme signed (sc_signature sct))
  | _ => Err (ascii "GitHub Fulcio profile requires exactly one SCT")
  end.

(** ** tsa.rs *)

Definition OID_TST_INFO : bytes := ascii "1.2.840.113549.1.9.16.1.4".
Definition OID_SIGNED_DATA : bytes := ascii "1.2.840.113549.1.7.2".
Definition OID_MESSAGE_DIGEST : bytes := ascii "1.2.840.113549.1.9.4".
Definition OID_CONTENT_TYPE : bytes := ascii "1.2.840.113549.1.9.3".
Definition OID_TIME_STAMPING : bytes := ascii "1.3.6.1.5.5.7.3.8".
Definition ID_CE_SUBJECT_KEY_IDENTIFIER : bytes := ascii "2.5.29.14".
Definition ID_SHA_256 : bytes := ascii "2.16.840.1.101.3.4.2.1".
Definition ID_SHA_384 : bytes := ascii "2.16.840.1.101.3.4.2.2".
Definition ID_SHA_512 : bytes := ascii "2.16.840.1.101.3.4.2.3".
Definition ECDSA_WITH_SHA_256 : bytes := ascii "1.2.840.10045.4.3.2".
Definition ECDSA_WITH_SHA_384 : bytes := ascii "1.2.840.10045.4.3.3".
Definition MAX_TIMESTAMPS : Z := 4.
Definition MAX_CMS_CERTIFICATES : Z := 16.

Definition tsa_hash (algorithm value : bytes) : text_result bytes :=
  if bool_decide (algorithm = ID_SHA_256) then Ok (sha256 value)
  else if bool_decide (algorithm = ID_SHA_384) then Ok (sha384_digest value)
  else if bool_decide (algorithm = ID_SHA_512) then Ok (sha512 value)
  else Err (ascii "unsupported digest algorithm: ").

(** The token of a granted response, or the bytes themselves. *)
Definition timestamp_content_info (token : bytes) : text_result (bytes * bytes) :=
  match timestamp_response_from_der token with
  | Some (status, time_stamp_token) =>
      reject negb ((status =? 0) || (status =? 1)) with ascii "RFC 3161 response was not granted";
      let? encoded := ok_or time_stamp_token (ascii "RFC 3161 response has no token") in
      ok_or (content_info_from_der encoded) (ascii "invalid RFC 3161 ContentInfo: ")
  | None => ok_or (content_info_from_der token) (ascii "invalid RFC 3161 token: ")
  end.

Definition parse_timestamp (token : bytes) : text_result (TstInfo * SignedData * bytes) :=
  let? (content_type, content) := timestamp_content_info token in
  reject negb (bool_decide (content_type = OID_SIGNED_DATA)) with ascii "RFC 3161 ContentInfo is not SignedData";
  let? signed_data := ok_or (signed_data_from_der content) (ascii "invalid RFC 3161 SignedData: ") in
  reject negb (bool_decide (sd_econtent_type signed_data = OID_TST_INFO))
    with ascii "RFC 3161 SignedData does not contain TSTInfo";
  let? content := ok_or (sd_econtent signed_data) (ascii "RFC 3161 SignedData has detached content") in
  let? info := ok_or (tst_info_from_der content) (ascii "invalid RFC 3161 TSTInfo: ") in
  Ok (info, signed_data, content).

Definition verify_message_imprint (info : TstInfo) (signature : bytes) : text_result unit :=
  let? digest := tsa_hash (ti_hash_algorithm info) signature in
  reject negb (bool_decide (digest = ti_hashed_message info))
    with ascii "RFC 3161 message imprint does not bind the signature";
  Ok tt.

Definition extract_certificates (signed_data : SignedData) : text_result (list FulcioCertificate) :=
  let certificates := omap id (default [] (sd_certificates signed_data)) in
  reject MAX_CMS_CERTIFICATES <? zlen certificates with ascii "RFC 3161 CMS certificate set exceeds resource limits";
  Ok certificates.

Definition is_signer (id : SignerIdentifier) (certificate : FulcioCertificate) : bool :=
  match id with
  | IssuerAndSerialNumber issuer serial =>
      bool_decide (fc_issuer certificate = issuer) && bool_decide (fc_serial certificate = serial)
  | SubjectKeyIdentifier expected =>
      bool_decide ((e ← List.find (fun e => bool_decide (fe_id e = ID_CE_SUBJECT_KEY_IDENTIFIER))
                          (default [] (fc_extensions certificate));
                    subject_key_identifier_from_der (fe_value e)) = Some expected)
  end.

Definition find_signer (id : SignerIdentifier) (certificates : list FulcioCertificate) : text_result FulcioCertificate :=
  match List.filter (is_signer id) certificates with
  | [certificate] => Ok certificate
  | _ => Err (ascii "RFC 3161 signer identifier is absent or ambiguous")
  end.

(** The one value of the one attribute with a name. *)
Definition single_attribute (attributes : list CmsAttribute) (oid ambiguous : bytes) : text_result bytes :=
  match List.filter (fun a => bool_decide (ca_oid a = oid)) attributes with
  | [attribute] => match ca_values attribute with [value] => Ok value | _ => Err ambiguous end
  | _ => Err ambiguous
  end.

Definition verify_single_attribute_digest (attributes : list CmsAttribute) (oid expected : bytes) : text_result unit :=
  let? value := single_attribute attributes oid
    (ascii "RFC 3161 CMS message-digest attribute is absent or ambiguous") in
  let? digest := ok_or (octet_string_from_der value) (ascii "invalid CMS message digest: ") in
  reject negb (bool_decide (digest = expected)) with ascii "RFC 3161 CMS message digest differs from TSTInfo";
  Ok tt.

Definition verify_single_attribute_oid (attributes : list CmsAttribute) (oid expected : bytes) : text_result unit :=
  let? value := single_attribute attributes oid
    (ascii "RFC 3161 CMS content-type attribute is absent or ambiguous") in
  let? value := ok_or (oid_from_der value) (ascii "invalid CMS content type: ") in
  reject negb (bool_decide (value = expected)) with ascii "RFC 3161 CMS content type is not TSTInfo";
  Ok tt.

Definition reencode_attributes (attributes : list CmsAttribute) : text_result bytes :=
  ok_or (attributes_to_der attributes) (ascii "could not canonicalize RFC 3161 CMS attributes: ").

Definition scheme_for_signer (certificate : FulcioCertificate) (digest signature : bytes) : text_result Scheme :=
  if bool_decide (fc_algorithm certificate = ID_EC_PUBLIC_KEY) then
    let? parameters := ok_or (fc_curve certificate) (ascii "TSA EC key has no curve") in
    let? curve := ok_or parameters (ascii "invalid TSA EC curve: ") in
    let matched c d s := bool_decide (curve = c) && bool_decide (digest = d) && bool_decide (signature = s) in
    if matched SECP_256_R_1 ID_SHA_256 ECDSA_WITH_SHA_256 then Ok EcdsaP256Sha256
    else if matched SECP_256_R_1 ID_SHA_384 ECDSA_WITH_SHA_384 then Ok EcdsaP256Sha384
    else if matched SECP_384_R_1 ID_SHA_256 ECDSA_WITH_SHA_256 then Ok EcdsaP384Sha256
    else if matched SECP_384_R_1 ID_SHA_384 ECDSA_WITH_SHA_384 then Ok EcdsaP384Sha384
    else Err (ascii "unsupported TSA EC signature algorithm")
  else Err (ascii "unsupported TSA signer key").

(** The certificates that decode; the others are passed over. *)
Definition authority_certificates (authorities : list Authority) : list FulcioCertificate :=
  omap certificate_from_der (concat (ay_certificates <$> authorities)).

Definition verify_cms (signed_data : SignedData) (content : bytes) (authorities : list Authority)
  : text_result FulcioCertificate :=
  match sd_signer_infos signed_data with
  | [signer] =>
      let? certificates := extract_certificates signed_data in
      let? certificate := find_signer (si_sid signer) (certificates ++ authority_certificates authorities) in
      let? attributes := ok_or (si_signed_attrs signer) (ascii "RFC 3161 CMS signer has no signed attributes") in
      let? digest := tsa_hash (si_digest_alg signer) content in
      let? _ := verify_single_attribute_digest attributes OID_MESSAGE_DIGEST digest in
      let? _ := verify_single_attribute_oid attributes OID_CONTENT_TYPE OID_TST_INFO in
      let? attributes := reencode_attributes attributes in
      let? scheme := scheme_for_signer certificate (si_digest_alg signer) (si_signature_algorithm signer) in
      let? spki := ok_or (certificate_spki_to_der certificate) (ascii "could not encode TSA signer key: ") in
      let? _ := map_err (fun _ => ascii "RFC 3161 CMS signature failed: ")
        (verify_spki spki scheme attributes (si_signature signer)) in
      Ok certificate
  | _ => Err (ascii "RFC 3161 requires exactly one CMS signer")
  end.

Definition verify_tsa_profile (certificate : FulcioCertificate) : text_result unit :=
  let? eku := ok_or (certificate_eku certificate) (ascii "could not parse TSA EKU: ") in
  let? (critical, usage) := ok_or eku (ascii "TSA certificate has no EKU") in
  reject negb critical || negb (bool_decide (usage = [OID_TIME_STAMPING]))
    with ascii "TSA certificate must have one critical timeStamping EKU";
  Ok tt.

(** One turn of the loop over the authorities: the last certificate is the anchor. *)
Definition add_authority (state : list Anchor * list bytes) (authority : Authority)
  : text_result (list Anchor * list bytes) :=
  let '(anchors, intermediates) := state in
  let? root := ok_or (last (ay_certificates authority)) (ascii "TSA authority contains no certificates") in
  let? anchor := ok_or (anchor_from_trusted_cert root) (ascii "invalid TSA root: ") in
  Ok (anchors ++ [anchor], intermediates ++ removelast (ay_certificates authority)).

Definition verify_tsa_chain (signer : FulcioCertificate) (signed_data : SignedData) (authorities : list Authority)
    (time : Z) : text_result unit :=
  let? signer_der := ok_or (certificate_to_der signer) (ascii "could not encode TSA signer certificate: ") in
  reject negb (end_entity signer_der) with ascii "invalid TSA signer certificate: ";
  let? certificates := extract_certificates signed_data in
  let? intermediates := mapR (fun c => ok_or (certificate_to_der c) (ascii "could not encode TSA certificate: "))
    (List.filter (fun c => negb (bool_decide (c = signer))) certificates) in
  let? (anchors, intermediates) := foldR add_authority ([], intermediates) authorities in
  let? seconds := ok_or (to_u64 time) (ascii "negative TSA verification time") in
  let? _ := ok_or (verify_for_usage WEBPKI_ALGORITHMS signer_der anchors intermediates seconds OID_TIME_STAMPING)
    (ascii "TSA certificate-chain validation failed: ") in
  Ok tt.

(** An accuracy part outside 1 to 999. *)
Definition bad_accuracy (part : option Z) : bool :=
  match part with Some value => negb ((1 <=? value) && (value <=? 999)) | None => false end.

Definition verify_timestamp (token signature : bytes) (root : RootKeys) : text_result Z :=
  let? (info, signed_data, content) := parse_timestamp token in
  reject negb (ti_version info =? 1)
      || match ti_accuracy info with Some (millis, micros) => bad_accuracy millis || bad_accuracy micros | None => false end
    with ascii "unsupported RFC 3161 TSTInfo";
  let? _ := verify_message_imprint info signature in
  reject ti_gen_time info <? 0 with ascii "RFC 3161 timestamp predates the Unix epoch";
  let? time := ok_or (to_i64 (ti_gen_time info)) (ascii "RFC 3161 timestamp is too large") in
  let? authorities := tsa_authorities_at root time in
  reject zlen authorities =? 0 with ascii "no TSA authority was valid at the RFC 3161 time";
  let? signer := verify_cms signed_data content authorities in
  let? _ := verify_tsa_profile signer in
  let? _ := verify_tsa_chain signer signed_data authorities time in
  Ok time.

(** One turn of the loop of [verify_all]. *)
Definition earlier_timestamp (signature : bytes) (root : RootKeys) (now_seconds : Z) (earliest : option Z)
    (timestamp : bytes) : text_result (option Z) :=
  let? b := ok_or (base64_decode timestamp) (ascii "invalid RFC 3161 timestamp encoding: ") in
  let? verified := verify_timestamp b signature root in
  reject now_seconds + 60 <? verified with ascii "RFC 3161 timestamp is in the future";
  Ok (Some match earliest with Some current => Z.min current verified | None => verified end).

Definition verify_all (timestamps : list bytes) (signature : bytes) (root : RootKeys) (now_seconds : Z)
  : text_result (option Z) :=
  reject MAX_TIMESTAMPS <? zlen timestamps with ascii "too many RFC 3161 timestamps";
  foldR (earlier_timestamp signature root now_seconds) None timestamps.

End Fulcio.

(** * Theory

    Build attestations: [offline-sigstore/src/lib.rs] and the bundles of [sigstore.rs]. The
    module also gives the offline verifier that the documents and releases use. *)

(** ** sigstore.rs: bundles *)

(** [VerificationMaterial], [RawBytes], [TimestampVerificationData] and [SignedTimestamp]
    hold the certificate, the log entries and the timestamps. *)
Record SigstoreBundle : Type := {
  sb_media_type : bytes;
  sb_dsse_envelope : DsseEnvelope;
  sb_certificate : bytes;
  sb_tlog_entries : list TransparencyLogEntry;
  sb_timestamps : list bytes
}.

Definition RawBytes_from_value (v : Value) : option bytes :=
  match struct_values [ascii "rawBytes"] v with Some [raw] => raw ≫= as_str | _ => None end.
Definition SignedTimestamp_from_value (v : Value) : option bytes :=
  match struct_values [ascii "signedTimestamp"] v with Some [timestamp] => timestamp ≫= as_str | _ => None end.
Definition TimestampVerificationData_from_value (v : Value) : option (list bytes) :=
  match struct_values [ascii "rfc3161Timestamps"] v with
  | Some [timestamps] => as_default_vec SignedTimestamp_from_value timestamps
  | _ => None
  end.
Definition VerificationMaterial_from_value (v : Value) : option (bytes * list TransparencyLogEntry * list bytes) :=
  match struct_values [ascii "certificate"; ascii "tlogEntries"; ascii "timestampVerificationData"] v with
  | Some [certificate; entries; timestamps] =>
      certificate ← certificate ≫= RawBytes_from_value;
      entries ← entries ≫= as_vec TransparencyLogEntry_from_value;
      timestamps ← match timestamps with None => Some [] | Some v => TimestampVerificationData_from_value v end;
      Some (certificate, entries, timestamps)
  | _ => None
  end.
Definition SigstoreBundle_from_value (v : Value) : option SigstoreBundle :=
  match struct_values [ascii "mediaType"; ascii "dsseEnvelope"; ascii "verificationMaterial"] v with
  | Some [media_type; envelope; material] =>
      media_type ← media_type ≫= as_str;
      envelope ← envelope ≫= DsseEnvelope_from_value;
      '(certificate, entries, timestamps) ← material ≫= VerificationMaterial_from_value;
      Some {| sb_media_type := media_type; sb_dsse_envelope := envelope; sb_certificate := certificate;
              sb_tlog_entries := entries; sb_timestamps := timestamps |}
  | _ => None
  end.

(** What a signer's certificate must say. *)
Record CertificatePolicy : Type := {
  cp_identity : bytes;
  cp_issuer : bytes;
  cp_extensions : list (bytes * bytes)
}.

(** ** lib.rs: constants, policies, results and errors *)

Definition MAX_BUNDLE_BYTES : Z := 1048576.
Definition MAX_DOCUMENT_BYTES : Z := 16 * 1024 * 1024.
Definition MAX_SUBJECTS : Z := 1024.
Definition MAX_BUNDLES : Z := 16.
Definition DSSE_PAYLOAD_TYPE : bytes := ascii "application/vnd.in-toto+json".
Definition GITHUB_OIDC_ISSUER : bytes := ascii "https://token.actions.githubusercontent.com".
Definition RUNNER_ENVIRONMENT : bytes := ascii "1.3.6.1.4.1.57264.1.11".
Definition SOURCE_REPOSITORY_URI : bytes := ascii "1.3.6.1.4.1.57264.1.12".
Definition SOURCE_REPOSITORY_DIGEST : bytes := ascii "1.3.6.1.4.1.57264.1.13".
Definition SOURCE_REPOSITORY_REF : bytes := ascii "1.3.6.1.4.1.57264.1.14".

Record IdentityPolicy : Type := {
  id_certificate_identity : bytes;
  id_certificate_oidc_issuer : bytes;
  id_predicate_type : bytes
}.
Record VerifiedAttestation : Type := {
  vt_integrated_time : Z;
  vt_predicate_type : bytes;
  vt_subjects : list (bytes * bytes)
}.

(** [Error]. *)
Inductive SigstoreError : Type :=
| SgTooLarge | SgInvalidBundle (m : bytes) | SgPolicy (m : bytes) | SgCryptographic (m : bytes) | SgTrust (m : bytes).

(** An in-toto statement; the predicate must be there and is not read. *)
Record Statement : Type := {
  st_kind : bytes;
  st_subject : list (bytes * bytes);
  st_predicate_type : bytes
}.
Definition StatementDigest_from_value (v : Value) : option bytes :=
  match struct_values [ascii "sha256"] v with Some [sha256] => sha256 ≫= as_str | _ => None end.
Definition StatementSubject_from_value (v : Value) : option (bytes * bytes) :=
  match struct_values [ascii "name"; ascii "digest"] v with
  | Some [name; digest] =>
      name ← name ≫= as_str; digest ← digest ≫= StatementDigest_from_value; Some (name, digest)
  | _ => None
  end.
Definition Statement_from_value (v : Value) : option Statement :=
  match struct_values [ascii "_type"; ascii "subject"; ascii "predicateType"; ascii "predicate"] v with
  | Some [kind; subject; predicate_type; predicate] =>
      kind ← kind ≫= as_str;
      subject ← subject ≫= as_vec StatementSubject_from_value;
      predicate_type ← predicate_type ≫= as_str;
      _ ← predicate;
      Some {| st_kind := kind; st_subject := subject; st_predicate_type := predicate_type |}
  | _ => None
  end.

(** ** lib.rs: subjects *)

(** One turn of the loop over the expected subjects, with the names seen. *)
Definition expect_subject (names : list bytes) (expected : bytes * bytes) : result (list bytes) SigstoreError :=
  reject (zlen expected.1 =? 0) || bool_decide (expected.1 ∈ names) || negb (is_lower_hex expected.2 32)
    with SgPolicy (ascii "expected subjects require unique names and lowercase SHA-256 digests");
  Ok (expected.1 :: names).

(** The number of distinct names, and the digest that collecting leaves under a name. *)
Definition distinct_names (l : list (bytes * bytes)) : Z := zlen (remove_dups l.*1).
Definition collected (l : list (bytes * bytes)) (name : bytes) : option bytes := assoc (rev l) name.

Definition check_subjects (statement : Statement) (expected_subjects : list (bytes * bytes)) : result unit SigstoreError :=
  reject (zlen expected_subjects =? 0) || (MAX_SUBJECTS <? zlen expected_subjects)
    with SgPolicy (ascii "expected subject count must be between 1 and ");
  reject negb (zlen (st_subject statement) =? zlen expected_subjects)
    with SgPolicy (ascii "attestation contains missing or unexpected subjects");
  let? _ := foldR expect_subject [] expected_subjects in
  reject negb (distinct_names (st_subject statement) =? zlen (st_subject statement))
    with SgPolicy (ascii "attestation has duplicate subject names");
  let? _ := mapR (fun expected =>
      reject negb (bool_decide (collected (st_subject statement) expected.1 = Some expected.2))
        with SgPolicy (ascii "expected exactly one subject  with digest ");
      Ok tt) expected_subjects in
  Ok tt.

(** ** lib.rs: the shape of a bundle *)

Definition check_bundle_shape (value : Value) : result unit SigstoreError :=
  let? media_type := ok_or (value_get value (ascii "mediaType") ≫= as_str)
    (SgInvalidBundle (ascii "missing Sigstore bundle media type")) in
  reject negb (bool_decide (media_type = SIGSTORE_BUNDLE_MEDIA_TYPE))
    with SgInvalidBundle (ascii "unsupported Sigstore bundle media type: ");
  let? envelope := ok_or (value_get value (ascii "dsseEnvelope") ≫= fun v => if is_object v then Some v else None)
    (SgInvalidBundle (ascii "expected Sigstore v0.3 DSSE envelope")) in
  reject negb (bool_decide ((value_get envelope (ascii "payloadType") ≫= as_str) = Some DSSE_PAYLOAD_TYPE))
    with SgInvalidBundle (ascii "unsupported DSSE payload type");
  let? signatures := ok_or (value_get envelope (ascii "signatures") ≫= as_array)
    (SgInvalidBundle (ascii "missing DSSE signatures")) in
  match signatures with
  | [signature] =>
      reject match value_get signature (ascii "sig") ≫= as_str with Some s => zlen s =? 0 | None => true end
        with SgInvalidBundle (ascii "empty DSSE signature");
      let? entries := ok_or (material ← value_get value (ascii "verificationMaterial");
          value_get material (ascii "tlogEntries") ≫= as_array) (SgInvalidBundle (ascii "missing Rekor entry")) in
      reject negb (zlen entries =? 1)
        with SgInvalidBundle (ascii "GitHub profile requires exactly one Rekor entry");
      Ok tt
  | _ => Err (SgInvalidBundle (ascii "GitHub profile requires exactly one DSSE signature"))
  end.

Section Bundles.
Context `{Json} `{Hash} `{Encodings} `{SchemePrimitives} `{RekorPrimitives} `{Pki}.

(** ** sigstore.rs: verification *)

Definition pae (payload_type payload : bytes) : bytes :=
  ascii "DSSEv1 " ++ decimal (zlen payload_type) ++ [x20] ++ payload_type ++ [x20] ++ decimal (zlen payload) ++ [x20]
  ++ payload.

Definition verify_dsse_signature (envelope : DsseEnvelope) (signature : DsseSignature) (spki : bytes) : text_result unit :=
  let? payload := ok_or (base64_decode (de_payload envelope)) (ascii "invalid DSSE payload encoding: ") in
  let? signature := ok_or (base64_decode (dg_sig signature)) (ascii "invalid DSSE signature encoding: ") in
  map_err (fun _ => ascii "DSSE signature verification failed: ")
    (verify_spki spki EcdsaP256Sha256 (pae (de_payload_type envelope) payload) signature).

(** The loop over the policy's extensions. *)
Definition check_extension (certificate : CertificateInfo) (expected : bytes * bytes) : text_result unit :=
  let? text := text_extension certificate expected.1 in
  reject negb (bool_decide (text = expected.2)) with ascii "Fulcio  extension differs from policy";
  Ok tt.

Definition sigstore_verify (root : RootKeys) (value : Value) (policy : CertificatePolicy) (now_unix_ms : Z)
  : text_result Z :=
  let? bundle := ok_or (SigstoreBundle_from_value value) (ascii "invalid Sigstore v0.3 bundle: ") in
  let envelope := sb_dsse_envelope bundle in
  match bool_decide (sb_media_type bundle = SIGSTORE_BUNDLE_MEDIA_TYPE)
        && bool_decide (de_payload_type envelope = DSSE_PAYLOAD_TYPE), de_signatures envelope, sb_tlog_entries bundle with
  | true, [signature], [entry] =>
      reject negb (zlen (dg_keyid signature) =? 0) with ascii "unsupported or ambiguous GitHub Sigstore bundle";
      let? certificate_der := ok_or (base64_decode (sb_certificate bundle))
        (ascii "invalid Fulcio certificate encoding: ") in
      let? certificate := parse_certificate certificate_der in
      reject negb (bool_decide (ci_identity certificate = cp_identity policy))
          || negb (bool_decide (ci_issuer certificate = cp_issuer policy))
        with ascii "Fulcio identity or OIDC issuer differs from policy";
      let? _ := mapR (check_extension certificate) (cp_extensions policy) in
      let? integrated_time := ok_or (parse_i64 (te_integrated_time entry)) (ascii "invalid Rekor integrated time") in
      let? signed := ok_or (base64_decode (dg_sig signature)) (ascii "invalid DSSE signature encoding: ") in
      let now_seconds := now_unix_ms / 1000 in
      let? timestamp_time := verify_all (sb_timestamps bundle) signed root now_seconds in
      let validation_time := default integrated_time timestamp_time in
      reject (validation_time <=? 0) || (now_seconds + 60 <? validation_time)
        with ascii "authenticated Sigstore time is absent or in the future";
      reject (validation_time <? ci_not_before certificate) || (ci_not_after certificate <? validation_time)
        with ascii "Fulcio certificate was not valid at the authenticated signing time";
      let? issuer_spki := verify_certificate_chain (ci_der certificate) validation_time root in
      let? _ := sct_verify (ci_der certificate) issuer_spki validation_time root in
      let? verified_integrated_time := tlog_verify entry envelope (ci_der certificate) (ci_not_before certificate)
        (ci_not_after certificate) now_seconds root in
      let? _ := verify_dsse_signature envelope signature (ci_spki certificate) in
      Ok verified_integrated_time
  | _, _, _ => Err (ascii "unsupported or ambiguous GitHub Sigstore bundle")
  end.

(** ** lib.rs: statements *)

Definition decode_dsse_payload (value : Value) : result bytes SigstoreError :=
  let? payload := ok_or (envelope ← value_get value (ascii "dsseEnvelope"); value_get envelope (ascii "payload") ≫= as_str)
    (SgInvalidBundle (ascii "expected Sigstore v0.3 DSSE envelope")) in
  ok_or (base64_decode payload) (SgInvalidBundle (ascii "invalid DSSE payload encoding: ")).

Definition verify_statement (trust : RootKeys) (value : Value) (expected_subjects : list (bytes * bytes))
    (predicate_type : bytes) (certificate : CertificatePolicy) (now_unix_ms : Z)
  : result VerifiedAttestation SigstoreError :=
  let? _ := check_bundle_shape value in
  let? payload := decode_dsse_payload value in
  let? statement_value := ok_or (strict_json payload) (SgInvalidBundle (ascii "invalid DSSE statement: ")) in
  let? statement := ok_or (Statement_from_value statement_value)
    (SgInvalidBundle (ascii "invalid DSSE statement: ")) in
  let? _ := check_subjects statement expected_subjects in
  reject negb (bool_decide (st_kind statement = ascii "https://in-toto.io/Statement/v1"))
      || negb (bool_decide (st_predicate_type statement = predicate_type))
    with SgPolicy (ascii "in-toto statement or predicate type differs");
  let? integrated_time := map_err SgCryptographic (sigstore_verify trust value certificate now_unix_ms) in
  Ok {| vt_integrated_time := integrated_time; vt_predicate_type := st_predicate_type statement;
        vt_subjects := st_subject statement |}.

Definition github_certificate_policy (policy : GithubPolicy) : CertificatePolicy := {|
  cp_identity := gp_workflow_identity policy;
  cp_issuer := GITHUB_OIDC_ISSUER;
  cp_extensions := [(SOURCE_REPOSITORY_URI, gp_repository policy); (SOURCE_REPOSITORY_DIGEST, gp_source_commit policy);
                    (SOURCE_REPOSITORY_REF, gp_source_ref policy); (RUNNER_ENVIRONMENT, ascii "github-hosted")] |}.

Definition verify_github_attestation_value (trust : RootKeys) (value : Value) (expected_subjects : list (bytes * bytes))
    (policy : GithubPolicy) (now_unix_ms : Z) : result VerifiedAttestation SigstoreError :=
  verify_statement trust value expected_subjects (gp_predicate_type policy) (github_certificate_policy policy) now_unix_ms.

Definition verify_dsse_attestation_value (trust : RootKeys) (value : Value) (expected_subjects : list (bytes * bytes))
    (policy : IdentityPolicy) (now_unix_ms : Z) : result VerifiedAttestation SigstoreError :=
  verify_statement trust value expected_subjects (id_predicate_type policy)
    {| cp_identity := id_certificate_identity policy; cp_issuer := id_certificate_oidc_issuer policy;
       cp_extensions := [] |} now_unix_ms.

(** ** lib.rs: documents *)

Definition parse_bundle_documents (bundle_bytes : bytes) : result (list Value) SigstoreError :=
  match strict_json bundle_bytes with
  | Some value => Ok [value]
  | None =>
      let? text := ok_or (from_utf8 bundle_bytes) (SgInvalidBundle []) in
      let lines := List.filter (fun line => negb (zlen (str_trim line) =? 0)) (lines text) in
      reject (zlen lines <=? 1) || (MAX_BUNDLES <? zlen lines) with SgInvalidBundle [];
      mapR (fun line => ok_or (strict_json line) (SgInvalidBundle [])) lines
  end.

(** The loop over the documents, with what was verified and the last error. *)
Fixpoint single_loop (verify : Value -> result VerifiedAttestation SigstoreError)
    (verified : option VerifiedAttestation) (last_error : option SigstoreError) (documents : list Value)
  : result VerifiedAttestation SigstoreError :=
  match documents with
  | [] => ok_or verified (default (SgInvalidBundle (ascii "attestation input is empty")) last_error)
  | value :: rest =>
      match verify value, verified with
      | Ok result, None => single_loop verify (Some result) last_error rest
      | Ok _, Some _ => Err (SgPolicy (ascii "multiple attestations match the required subjects and policy"))
      | Err error, _ => single_loop verify verified (Some error) rest
      end
  end.

Definition verify_single_attestation (bundle_bytes : bytes)
    (verify : Value -> result VerifiedAttestation SigstoreError) : result VerifiedAttestation SigstoreError :=
  reject MAX_BUNDLE_BYTES <? zlen bundle_bytes with SgTooLarge;
  let? documents := parse_bundle_documents bundle_bytes in
  single_loop verify None None documents.

Definition sigstore_github_attestation (trust : RootKeys) (bundle_bytes : bytes) (expected_subjects : list (bytes * bytes))
    (policy : GithubPolicy) (now_unix_ms : Z) : result VerifiedAttestation SigstoreError :=
  verify_single_attestation bundle_bytes
    (fun value => verify_github_attestation_value trust value expected_subjects policy now_unix_ms).

Definition sigstore_dsse_attestation (trust : RootKeys) (bundle_bytes : bytes) (expected_subjects : list (bytes * bytes))
    (policy : IdentityPolicy) (now_unix_ms : Z) : result VerifiedAttestation SigstoreError :=
  verify_single_attestation bundle_bytes
    (fun value => verify_dsse_attestation_value trust value expected_subjects policy now_unix_ms).

Definition sigstore_document_inclusion (trust : RootKeys) (bundle artifact : bytes) (now_unix_ms : Z)
  : result Z SigstoreError :=
  reject (MAX_BUNDLE_BYTES <? zlen bundle) || (MAX_DOCUMENT_BYTES <? zlen artifact) with SgTooLarge;
  let? value := ok_or (strict_json bundle) (SgInvalidBundle []) in
  map_err SgCryptographic (hashedrekord_verify value artifact now_unix_ms trust).

(** ** The verifier its clients use *)

Definition to_option {A E} (r : result A E) : option A := match r with Ok a => Some a | Err _ => None end.

(** The offline verifier over the files compiled into it. *)
Definition offline_sigstore (trusted_root_json root_json : bytes) : Sigstore := {|
  TrustedRoot := RootKeys;
  embedded_root := to_option (RootKeys_complete trusted_root_json);
  verify_rekor_document_inclusion trust inclusion artifact now :=
    to_option (sigstore_document_inclusion trust inclusion artifact now);
  verify_github_attestation trust bundle subjects policy now :=
    vt_integrated_time <$> to_option (sigstore_github_attestation trust bundle subjects policy now);
  verify_trust_update roots targets trusted_root :=
    (fun u => (tu_trusted_root u, tu_root_version u, tu_targets_version u))
      <$> to_option (tuf_verify_trust_update root_json roots targets trusted_root);
  verify_current_trust_update roots targets trusted_root snapshot timestamp now :=
    (fun u => (tu_trusted_root u, tu_root_version u, tu_targets_version u))
      <$> to_option (tuf_verify_current_trust_update root_json roots targets trusted_root snapshot timestamp now)
|}.

End Bundles.

(** * Theory

    Build attestations: the subjects are exactly the expected ones, the signed text is
    unambiguous, and an accepted attestation was made by the named workflow, signed and
    logged. *)

(** ** Subjects *)

Definition valid_subject (s : bytes * bytes) : Prop := s.1 <> [] /\ is_lower_hex s.2 32 = true.

Lemma zlen_nil_iff {A} (l : list A) : (zlen l =? 0) = bool_decide (l = []).
Proof. destruct l; [done|]. rewrite bool_decide_false by done. apply Z.eqb_neq. zlen_lia. Qed.

Lemma expect_subjects_exact l names out :
  foldR expect_subject names l = Ok out <->
  out = rev l.*1 ++ names /\ Forall valid_subject l /\ NoDup l.*1 /\ Forall (fun s => s.1 ∉ names) l.
Proof.
  revert names. induction l as [|[k d] l IH]; intros names; cbn [foldR].
  { split; [intros [= ->]; repeat split; constructor|by intros [-> _]]. }
  unfold expect_subject at 1. cbn [fst snd]. rewrite zlen_nil_iff.
  rewrite !Forall_cons, fmap_cons, NoDup_cons. cbn [fst snd rev]. rewrite <- app_assoc. unfold valid_subject at 1. cbn [fst snd].
  case_bool_decide as Hk; [split; [done|]; naive_solver|]. case_bool_decide as Hin; [split; [done|]; naive_solver|].
  destruct (is_lower_hex d 32); cbn [orb negb]; [|split; [done|naive_solver]]. rewrite IH. cbn [app].
  assert (Forall (fun s => s.1 ∉ (k :: names)) l <-> (k ∉ l.*1) /\ Forall (fun s => s.1 ∉ names) l) as ->; [|naive_solver].
  rewrite !Forall_forall. setoid_rewrite not_elem_of_cons. setoid_rewrite list_elem_of_fmap. split.
  - intros Hx. split; [intros ([k' d'] & -> & Hin'); by destruct (Hx _ Hin')|]. intros s Hs. by destruct (Hx s Hs).
  - intros [Hn Hx] s Hs. split; [|by apply Hx]. intros <-. apply Hn. by exists s.
Qed.

Lemma distinct_names_exact l : (distinct_names l =? zlen l) = true <-> NoDup l.*1.
Proof.
  unfold distinct_names. rewrite Z.eqb_eq. unfold zlen. rewrite Nat2Z.inj_iff, <- (length_fmap fst l).
  split.
  - intros E. apply NoDup_ListNoDup. apply NoDup_incl_NoDup with (l := remove_dups l.*1).
    + apply NoDup_ListNoDup, NoDup_remove_dups.
    + rewrite E. done.
    + intros x. rewrite <- !list_elem_of_In, elem_of_remove_dups. done.
  - intros Hn. f_equal. induction Hn as [|x k Hx _ IH]; [done|]. cbn. case_decide; [done|]. by rewrite IH.
Qed.

Lemma assoc_exact {A} (l : list (bytes * A)) key v : NoDup l.*1 -> assoc l key = Some v <-> (key, v) ∈ l.
Proof.
  unfold assoc. induction l as [|[k w] l IH]; cbn [List.find fmap list_fmap fst]; [split; [done|by intros ?%not_elem_of_nil]|].
  intros [Hk Hn]%NoDup_cons. rewrite elem_of_cons. case_bool_decide as E.
  - subst. split; [intros [= ->]; by left|]. intros [[= ->]|Hin]; [done|]. destruct Hk. apply list_elem_of_fmap. by exists (key, v).
  - rewrite (IH Hn). naive_solver.
Qed.

Lemma collected_exact l key v : NoDup l.*1 -> collected l key = Some v <-> (key, v) ∈ l.
Proof.
  intros Hn. unfold collected. rewrite assoc_exact by (by rewrite (Permutation_rev l) in Hn).
  by rewrite <- Permutation_rev.
Qed.

(** An attestation's subjects are exactly the expected ones: the check succeeds if and only
    if there are between 1 and 1024 expected subjects, with distinct nonempty names and
    lowercase SHA-256 digests, and the statement lists the same ones in some order. *)
Theorem subjects_exact statement expected :
  check_subjects statement expected = Ok tt <->
  1 <= zlen expected <= MAX_SUBJECTS /\ Forall valid_subject expected /\ NoDup expected.*1 /\
  st_subject statement ≡ₚ expected.
Proof.
  unfold check_subjects. split.
  - intros Hv. pass Hv by Hc. pass Hv by Hlen. pass Hv as names by Hf. pass Hv by Hd. pass Hv as us by Hm. zbool.
    apply expect_subjects_exact in Hf as (_ & Hvalid & Hn & _). apply Z.eqb_eq, distinct_names_exact in Hd.
    split; [pose proof (zlen_nonneg expected); lia|]. split_and!; [done|done|]. symmetry.
    apply NoDup_Permutation_bis; [apply NoDup_ListNoDup; by apply NoDup_fmap_1 in Hn|unfold zlen in Hlen; lia|].
    intros [k d] Hin%list_elem_of_In. apply list_elem_of_In. apply list_elem_of_lookup in Hin as [i Hi]. apply mapR_ok in Hm.
    destruct (Forall2_lookup_l _ _ _ _ _ Hm Hi) as (u & _ & Hu). cbn [fst snd] in Hu. pass Hu by Hx. zbool.
    by apply collected_exact in Hx.
  - intros ([Hlo Hhi] & Hvalid & Hn & Hp). rewrite (proj2 (Z.eqb_neq _ _)), (proj2 (Z.ltb_ge _ _)) by lia. cbn [orb].
    assert (zlen (st_subject statement) = zlen expected) as Hlen by (unfold zlen; by rewrite Hp).
    rewrite Hlen, Z.eqb_refl. cbn [negb].
    rewrite (proj2 (expect_subjects_exact expected [] _)) by (split_and!; [done..|]; apply Forall_forall; intros; apply not_elem_of_nil).
    assert (NoDup (st_subject statement).*1) as Hn' by by rewrite Hp.
    rewrite <- Hlen, (proj2 (distinct_names_exact _) Hn'). cbn [negb].
    assert (forall l, l ⊆ expected -> mapR (fun e =>
      reject negb (bool_decide (collected (st_subject statement) e.1 = Some e.2))
        with SgPolicy (ascii "expected exactly one subject  with digest "); Ok tt) l = Ok (replicate (length l) tt)) as Hall;
      [|by rewrite Hall].
    induction l as [|[k d] l IH]; intros Hl; [done|]. cbn [mapR fst snd length replicate].
    rewrite bool_decide_true; [cbn [negb]; rewrite IH; [done|set_solver]|].
    apply collected_exact; [done|]. rewrite Hp. set_solver.
Qed.

Section BundlesTheory.
Context `{Json} `{Hash} `{Encodings} `{SchemePrimitives} `{RekorPrimitives} `{Pki}.

(** ** The signed text *)

Lemma decimal_inj n n' : 0 <= n < 10 ^ 20 -> 0 <= n' < 10 ^ 20 -> decimal n = decimal n' -> n = n'.
Proof. intros Hn Hn' E. apply parse_decimal in Hn, Hn'. rewrite E in Hn. congruence. Qed.

Lemma decimal_space n n' r r' :
  0 <= n < 10 ^ 20 -> 0 <= n' < 10 ^ 20 -> decimal n ++ x20 :: r = decimal n' ++ x20 :: r' -> n = n' /\ r = r'.
Proof.
  intros Hn Hn' E. destruct (decimal_digit n Hn) as [Hd _], (decimal_digit n' Hn') as [Hd' _].
  apply digits_split in E as [E Er]; [|done..]. apply decimal_inj in E; [|done..]. by injection Er.
Qed.

(** The pre-authentication text determines the type and the payload. *)
Lemma pae_inj t p t' p' :
  zlen t < 10 ^ 20 -> zlen p < 10 ^ 20 -> zlen t' < 10 ^ 20 -> zlen p' < 10 ^ 20 ->
  pae t p = pae t' p' -> t = t' /\ p = p'.
Proof.
  intros Ht Hp Ht' Hp' E. unfold pae in E. apply app_inv_head in E. cbn [app] in E.
  apply decimal_space in E as [Hl E]; [|split; [apply zlen_nonneg|done]..].
  apply app_inj_1 in E as [-> E]; [|unfold zlen in Hl; lia]. injection E as E.
  apply decimal_space in E as [_ E]; [|split; [apply zlen_nonneg|done]..]. done.
Qed.

(** ** Bundles *)

(** The one extension with a name, and its contents. *)
Definition only_extension (c : FulcioCertificate) (oid value : bytes) : Prop :=
  exists before e after, default [] (fc_extensions c) = before ++ e :: after /\ fe_id e = oid /\ fe_value e = value /\
    Forall (fun other => fe_id other <> oid) (before ++ after).

(** What a signer's certificate says: its one critical name is the identity, its one issuer
    extension names the issuer, and each extension of the policy occurs once with its text. *)
Record certificate_for (policy : CertificatePolicy) (c : FulcioCertificate) : Prop := {
  cc_identity : certificate_san c = Some (Some (true, [UniformResourceIdentifier (cp_identity policy)]));
  cc_issuer : exists value, only_extension c (ascii "1.3.6.1.4.1.57264.1.1") value /\
    (utf8_string_from_der value = Some (cp_issuer policy) \/
     utf8_string_from_der value = None /\ from_utf8 value = Some (cp_issuer policy));
  cc_extensions : Forall (fun e => exists value, only_extension c e.1 value /\ utf8_string_from_der value = Some e.2)
    (cp_extensions policy)
}.

(** A path to a Fulcio authority of the root that is valid at a time, and the key of the
    certificate's issuer on it. *)
Definition chained (root : RootKeys) (der : bytes) (time : Z) (issuer_spki : bytes) : Prop :=
  exists certificates anchors path,
    Forall (fun certificate => exists authority, authority ∈ tr_fulcio root /\
      period_contains (ay_validity authority) time /\ certificate ∈ ay_certificates authority) certificates /\
    Forall2 (fun certificate anchor => anchor_from_trusted_cert certificate = Some anchor) certificates anchors /\
    end_entity der = true /\ 0 <= time /\
    verify_for_usage WEBPKI_ALGORITHMS der anchors [] time (ascii "1.3.6.1.5.5.7.3.3") = Some path /\
    (vp_intermediate path = Some issuer_spki \/
     vp_intermediate path = None /\ sequence_to_der (vp_anchor_spki path) = Some issuer_spki).

(** The one certificate timestamp, signed by a log of the root over the precertificate. *)
Definition timestamped (root : RootKeys) (c : FulcioCertificate) (issuer_spki : bytes) (time : Z) : Prop :=
  exists list entry sct key tbs scheme,
    certificate_scts c = Some (Some list) /\ parse_timestamps list = Some [entry] /\
    parse_timestamp_entry entry = Some sct /\ sc_timestamp sct / 1000 <= time + 60 /\
    key ∈ tr_ct root /\ lk_id key = sc_log_id sct /\ period_contains (lk_validity key) (sc_timestamp sct / 1000) /\
    certificate_tbs_to_der {|
      fc_not_before := fc_not_before c; fc_not_after := fc_not_after c; fc_issuer := fc_issuer c;
      fc_serial := fc_serial c; fc_algorithm := fc_algorithm c; fc_curve := fc_curve c;
      fc_extensions := List.filter (fun e => negb (bool_decide (fe_id e = ascii "1.3.6.1.4.1.11129.2.4.2"))) <$> fc_extensions c;
      fc_rest := fc_rest c |} = Some tbs /\
    zlen tbs < 256 ^ 3 /\ zlen (sc_extensions sct) < 256 ^ 2 /\
    signed_by (lk_spki key) scheme
      ([x00; x00] ++ be_bytes 8 (sc_timestamp sct) ++ [x00; x01] ++ sha256 issuer_spki
       ++ be_bytes 3 (zlen tbs) ++ tbs ++ be_bytes 2 (zlen (sc_extensions sct)) ++ sc_extensions sct) (sc_signature sct).

Lemma filter_single {A} (f : A -> bool) l x :
  List.filter f l = [x] ->
  exists before after, l = before ++ x :: after /\ f x = true /\ Forall (fun y => f y = false) (before ++ after).
Proof.
  induction l as [|y l IH]; [done|]. cbn [List.filter]. destruct (f y) eqn:E.
  - intros [= -> Hn]. exists [], l. split_and!; [done|done|]. apply Forall_forall. intros z Hz%list_elem_of_In.
    destruct (f z) eqn:Ez; [|done]. assert (In z (List.filter f l)) as Hin by (apply filter_In; auto). by rewrite Hn in Hin.
  - intros (before & after & -> & Hx & Hf)%IH. exists (y :: before), after. split_and!; [done|done|by constructor].
Qed.

Lemma single_extension c oid id value :
  List.filter (fun e => bool_decide (e.1 = oid)) ((fun e => (fe_id e, fe_value e)) <$> default [] (fc_extensions c))
  = [(id, value)] -> only_extension c oid value.
Proof.
  intros (before & after & Hl & Hx & Hf)%filter_single. cbn in Hx. zbool. subst id.
  apply fmap_app_inv in Hl as (l & r & -> & Hr & Hl). symmetry in Hr. apply fmap_cons_inv in Hr as (e & r' & He & -> & ->).
  injection He as Hid Hval. exists l, e, r'. split_and!; [done|done|done|]. subst.
  rewrite <- fmap_app in Hf. apply Forall_fmap in Hf. eapply Forall_impl; [exact Hf|]. intros o Ho. cbn in Ho. by zbool.
Qed.

Lemma parse_certificate_sound der info policy us :
  parse_certificate der = Ok info ->
  ci_identity info = cp_identity policy -> ci_issuer info = cp_issuer policy ->
  mapR (check_extension info) (cp_extensions policy) = Ok us ->
  ci_der info = der /\
  exists c, certificate_from_der der = Some c /\ certificate_spki_to_der c = Some (ci_spki info) /\
    ci_not_before info = fc_not_before c /\ ci_not_after info = fc_not_after c /\ certificate_for policy c.
Proof.
  unfold parse_certificate, to_i64. intros Hv Hid Hiss Hext. pass Hv as c by Hc. pass Hv as nb by Hnb.
  pass Hv as na by Hna. pass Hv as spki by Hspki.
  pass Hv as san by Hsan. pass Hv as [critical names] by Hn. pass Hv by Hone. pass Hv as issuers by Hiss'.
  pass Hv by Hlen. injection Hv as <-. cbn in Hid, Hiss, Hext |- *. split; [done|]. exists c.
  destruct (_ <=? _) in Hnb; [|done]. destruct (_ <=? _) in Hna; [|done]. simplify_eq. split_and!; try done.
  constructor.
  - rewrite Hsan. zbool. subst. destruct names as [|[uri|] [|]]; try (zlen_lia || done). by rewrite <- Hid.
  - clear Hext. change FULCIO_ISSUER_OID with (ascii "1.3.6.1.4.1.57264.1.1") in Hiss'. zbool.
    apply mapR_ok in Hiss'. destruct issuers as [|issuer [|]]; try zlen_lia. cbn in Hiss. subst issuer.
    inversion Hiss' as [|[id value] ? rest ? Htext Hnil Hf]; subst. inversion Hnil; subst. exists value.
    split; [eapply single_extension; symmetry; exact Hf|]. cbn [snd] in Htext. unfold fulcio_issuer_text in Htext.
    destruct (utf8_string_from_der value); [left; congruence|right]. by apply ok_or_ok in Htext.
  - apply mapR_ok in Hext. clear - Hext. induction Hext as [|e u l us He _ IH]; constructor; [|done].
    unfold check_extension in He. pass He as text by Ht. pass He by Hx. zbool. subst text. unfold text_extension in Ht.
    cbn [ci_extensions] in Ht. destruct (List.filter _ _) as [|[id value] [|]] eqn:Ef; try done.
    apply ok_or_ok in Ht. exists value. split; [|done]. apply (single_extension _ _ id). rewrite <- Ef.
    apply filter_ext. by intros [].
Qed.

Lemma certificates_at_sound authorities time l :
  certificates_at authorities time = Ok l ->
  Forall (fun certificate => exists authority, authority ∈ authorities /\
    period_contains (ay_validity authority) time /\ certificate ∈ ay_certificates authority) l.
Proof.
  unfold certificates_at. intros Hv. pass Hv as certificates by Hf. pass Hv by Hn. injection Hv as <-. clear Hn.
  assert (forall start, foldR (add_certificates time) start authorities = Ok certificates ->
    Forall (fun c => c ∈ start \/ exists authority, authority ∈ authorities /\
      period_contains (ay_validity authority) time /\ c ∈ ay_certificates authority) certificates) as Hgen.
  { clear Hf. induction authorities as [|y authorities IH]; intros start; cbn [foldR].
    - intros [= <-]. apply Forall_forall. auto.
    - unfold add_certificates at 1. destruct (valid_at (ay_validity y) time) as [valid|] eqn:Ey; [|done]. cbn.
      intros Hr%IH. eapply Forall_impl; [exact Hr|]. intros c [Hc|(x & Hx & ?)].
      + destruct valid; [apply elem_of_app in Hc as [Hc|Hc]|]; auto. right. exists y. split_and!; [by left|done|done].
      + right. exists x. split; [by right|done]. }
  eapply Forall_impl; [exact (Hgen [] Hf)|]. intros c [Hc%not_elem_of_nil|Hc]; done.
Qed.

Lemma chain_sound root der time issuer :
  verify_certificate_chain der time root = Ok issuer -> chained root der time issuer.
Proof.
  unfold verify_certificate_chain, to_u64. intros Hv. pass Hv as certificates by Hc. pass Hv as anchors by Ha.
  pass Hv by He. pass Hv as seconds by Hs. pass Hv as path by Hp. destruct (0 <=? time) eqn:Ht; [|done]. zbool. simplify_eq.
  exists certificates, anchors, path. split_and!; [by apply certificates_at_sound| |done|done|exact Hp|].
  - apply mapR_ok in Ha. eapply Forall2_impl; [exact Ha|]. intros c a Hca. by apply ok_or_ok in Hca.
  - destruct (vp_intermediate path); [left; congruence|right]. by apply ok_or_ok in Hv.
Qed.

Lemma tls_vector_ok width b v :
  tls_vector width b = Some v -> v = be_bytes width (zlen b) ++ b /\ zlen b < 256 ^ Z.of_nat width.
Proof. unfold tls_vector. destruct (_ <? _) eqn:E; [|done]. intros [= <-]. by zbool. Qed.

Lemma sct_sound root der c issuer time :
  certificate_from_der der = Some c -> sct_verify der issuer time root = Ok tt -> timestamped root c issuer time.
Proof.
  unfold sct_verify, to_i64. intros Hc Hv. rewrite Hc in Hv. cbn [ok_or] in Hv. pass Hv as scts by Hl.
  pass Hv as list by Hs. pass Hv as entries by He. destruct entries as [|entry [|]]; [done| |done].
  pass Hv as sct by Hsct. pass Hv as seconds by Hsec. pass Hv by Ht. pass Hv as key by Hk. pass Hv as signed by Hsd.
  pass Hv as scheme by Hsch. apply map_err_ok, verify_spki_ok in Hv.
  destruct (_ <=? _) in Hsec; [|done]. simplify_eq. zbool.
  apply key_at_spec in Hk as (Hin & Hid & Hper). unfold signed_data in Hsd. pass Hsd as tbs by Htbs.
  apply ok_or_ok in Hsd. unfold DigitallySigned_serialize in Hsd.
  destruct (tls_vector 3 tbs) as [v3|] eqn:E3; [|done]. cbn in Hsd.
  destruct (tls_vector 2 (sc_extensions sct)) as [v2|] eqn:E2; [|done]. cbn in Hsd.
  apply tls_vector_ok in E3 as [-> L3], E2 as [-> L2]. injection Hsd as <-.
  exists list, entry, sct, key, tbs, scheme. split_and!; try done.
Qed.

(** A log entry of this envelope under this certificate. *)
Record logged_envelope (entry : TransparencyLogEntry) (payload signature certificate : bytes) : Prop := {
  le_body : exists text body logged verifier pem,
    base64_decode (te_canonicalized_body entry) = Some text /\ (json_tree text ≫= RekorDsseBody_from_value) = Some body /\
    rd_payload_hash body = (ascii "sha256", hex_encode (sha256 payload)) /\ rd_signatures body = [(logged, verifier)] /\
    base64_decode logged = Some signature /\ base64_decode verifier = Some pem /\
    pem_parse pem = Some (ascii "CERTIFICATE", certificate)
}.

Lemma body_binding_sound entry envelope certificate payload s signature :
  verify_body_binding entry envelope certificate = Ok tt -> de_signatures envelope = [s] ->
  base64_decode (de_payload envelope) = Some payload -> base64_decode (dg_sig s) = Some signature ->
  logged_envelope entry payload signature certificate.
Proof.
  unfold verify_body_binding. intros Hv Hs Hp Hg. rewrite Hs, Hp, Hg in Hv. pass Hv as text by Ht. pass Hv as body by Hb.
  pass Hv by Hc. destruct (rd_signatures body) as [|[logged verifier] [|]] eqn:Hl; [done| |done]. cbn [ok_or] in Hv.
  pass Hv by Hh. pass Hv as rs by Hr. pass Hv by Hsame. pass Hv as pem by Hpem. pass Hv as [tag contents] by Htag.
  pass Hv by Hcert. zbool. subst. constructor. exists text, body, logged, verifier, pem. split_and!; try done.
  destruct (rd_payload_hash body) as [a h]. cbn in *. by subst.
Qed.

(** The time at which a certificate is judged: that of the log entry or, where there are
    authenticated timestamps over the signature, the earliest of them. *)
Definition signing_time (root : RootKeys) (timestamps : list bytes) (signature : bytes) (logged validation : Z) : Prop :=
  timestamps = [] /\ validation = logged \/
  exists times, Forall2 (fun text time => exists token, base64_decode text = Some token /\
      verify_timestamp token signature root = Ok time) timestamps times /\
    validation ∈ times /\ Forall (Z.le validation) times.

(** An attested payload: the one certificate of the bundle names the policy's workflow, its
    chain and its timestamp were checked, its key signed this payload, and the one log entry
    of the bundle records the payload, that signature and that certificate. *)
Record attested (root : RootKeys) (policy : CertificatePolicy) (now time : Z) (bundle : SigstoreBundle) (payload : bytes)
  : Prop := {
  as_time : 0 < time <= now / 1000 + 60;
  as_envelope : sb_media_type bundle = SIGSTORE_BUNDLE_MEDIA_TYPE /\
    de_payload_type (sb_dsse_envelope bundle) = ascii "application/vnd.in-toto+json" /\
    base64_decode (de_payload (sb_dsse_envelope bundle)) = Some payload;
  as_evidence : exists der c spki issuer_spki s signature entry key validation,
    base64_decode (sb_certificate bundle) = Some der /\ certificate_from_der der = Some c /\
    certificate_for policy c /\
    signing_time root (sb_timestamps bundle) signature time validation /\
    fc_not_before c <= validation <= fc_not_after c /\ fc_not_before c <= time <= fc_not_after c /\
    chained root der validation issuer_spki /\ timestamped root c issuer_spki validation /\
    certificate_spki_to_der c = Some spki /\
    de_signatures (sb_dsse_envelope bundle) = [s] /\ base64_decode (dg_sig s) = Some signature /\
    signed_by spki EcdsaP256Sha256
      (ascii "DSSEv1 28 application/vnd.in-toto+json " ++ decimal (zlen payload) ++ [x20] ++ payload) signature /\
    sb_tlog_entries bundle = [entry] /\
    key ∈ tr_rekor root /\ period_contains (lk_validity key) time /\ published entry key time /\
    logged_envelope entry payload signature der
}.

Lemma verify_all_sound timestamps signature root now stamp logged :
  verify_all timestamps signature root now = Ok stamp ->
  signing_time root timestamps signature logged (default logged stamp).
Proof.
  unfold verify_all. intros Hv. pass Hv by Hn. clear Hn.
  assert (forall l start out, foldR (earlier_timestamp signature root now) start l = Ok out ->
    exists times, Forall2 (fun text time => exists token, base64_decode text = Some token /\
        verify_timestamp token signature root = Ok time) l times /\
      match out with
      | Some t => t ∈ option_list start ++ times /\ Forall (Z.le t) (option_list start ++ times)
      | None => start = None /\ l = []
      end) as Hgen.
  { clear. induction l as [|x l IH]; intros start out; cbn [foldR].
    - intros [= <-]. exists []. split; [constructor|]. rewrite app_nil_r. destruct start; cbn; [|done].
      split; [by left|]. constructor; [lia|constructor].
    - unfold earlier_timestamp at 1. intros Hv. destruct (base64_decode x) as [token|] eqn:Ex; [|done]. cbn [ok_or] in Hv.
      destruct (verify_timestamp token signature root) as [verified|] eqn:Ev; [|done]. destruct (_ <? verified); [done|].
      apply IH in Hv as (times & Hf & Ho). exists (verified :: times). split; [constructor; eauto|].
      destruct out as [t|]; [|by destruct Ho]. destruct Ho as [Hin Hle]. cbn in Hin, Hle.
      apply Forall_cons in Hle as [Hle Hles]. destruct start as [s0|]; cbn in *.
      + split; [|repeat constructor; (done || lia)]. rewrite !elem_of_cons in *. destruct Hin as [->|Hin]; [|auto]. lia.
      + split; [done|]. by constructor. }
  apply (Hgen timestamps None stamp) in Hv as (times & Hf & Hs). destruct stamp as [t|]; cbn in *.
  - right. exists times. destruct Hs. split_and!; done.
  - left. destruct Hs as [_ ->]. done.
Qed.

Lemma tlog_verify_sound entry envelope certificate not_before not_after now root time :
  tlog_verify entry envelope certificate not_before not_after now root = Ok time ->
  0 < time <= now + 60 /\ not_before <= time <= not_after /\
  verify_body_binding entry envelope certificate = Ok tt /\
  exists key, key ∈ tr_rekor root /\ period_contains (lk_validity key) time /\ published entry key time.
Proof.
  unfold tlog_verify. intros Hv. pass Hv by Hkind. pass Hv as t by Ht. pass Hv by Hr. pass Hv as log_id by Hid.
  pass Hv as key by Hk. pass Hv as ? by Hset. pass Hv as ? by Hinc. pass Hv as ? by Hbind. injection Hv as ->. zbool.
  destruct_units. apply key_at_spec in Hk as (Hin & Hkid & Hvalid). apply decode_32_ok in Hid. subst log_id.
  split_and!; [lia..|done|]. exists key. split_and!; [done|done|].
  constructor; [done|done|by eapply verify_set_sound|by eapply verify_inclusion_sound].
Qed.

Lemma sigstore_verify_sound root value policy now time :
  sigstore_verify root value policy now = Ok time ->
  exists bundle payload, SigstoreBundle_from_value value = Some bundle /\ attested root policy now time bundle payload.
Proof.
  unfold sigstore_verify. intros Hv. pass Hv as bundle by Hb. set (envelope := sb_dsse_envelope bundle) in *.
  destruct (_ && _) eqn:Htype; [|done]. destruct (de_signatures envelope) as [|s [|]] eqn:Hsigs; [done| |done].
  destruct (sb_tlog_entries bundle) as [|entry [|]] eqn:Hentries; [done| |done]. pass Hv by Hkey. pass Hv as der by Hder.
  pass Hv as info by Hc. pass Hv by Hid. pass Hv as us by Hext. pass Hv as integrated by Hint. pass Hv as signature by Hsig.
  pass Hv as stamp by Hstamp. set (validation := default integrated stamp) in *. pass Hv by Hfuture. pass Hv by Hperiod.
  pass Hv as issuer by Hchain. pass Hv as ? by Hsct. pass Hv as t by Hlog. pass Hv as ? by Hdsse. injection Hv as ->.
  destruct_units. zbool. unfold verify_dsse_signature in Hdsse. pass Hdsse as payload by Hp. rewrite Hsig in Hdsse.
  cbn [ok_or] in Hdsse. apply map_err_ok, verify_spki_ok in Hdsse.
  apply tlog_verify_sound in Hlog as (Htime & Hcert & Hbind & key & Hin & Hper & Hpub).
  assert (integrated = time) as -> by (pose proof (pb_time _ _ _ Hpub); congruence).
  destruct (parse_certificate_sound der info policy us) as (Hd & c & Hdc & Hspki & Hnb & Hna & Hfor); [done..|].
  rewrite Hd, Hnb, Hna in *. exists bundle, payload. split; [done|]. constructor; [done|done|].
  exists der, c, (ci_spki info), issuer, s, signature, entry, key, validation.
  split_and!; try (done || lia).
  - by eapply verify_all_sound.
  - by apply chain_sound.
  - by eapply sct_sound.
  - match goal with E : de_payload_type _ = _ |- _ => rewrite E in Hdsse end. exact Hdsse.
  - by eapply body_binding_sound.
Qed.

(** ** Statements *)

(** The payload that is checked is the payload of the bundle. *)
Lemma struct_field names fields values i name :
  struct_values names (JObject fields) = Some values -> names !! i = Some name -> values !! i = Some (field fields name).
Proof.
  unfold struct_values. destruct (forallb _ _); [|done]. intros [= <-] Hn. by rewrite list_lookup_fmap, Hn.
Qed.

Lemma bundle_payload value bundle payload :
  check_bundle_shape value = Ok tt -> SigstoreBundle_from_value value = Some bundle ->
  decode_dsse_payload value = Ok payload -> base64_decode (de_payload (sb_dsse_envelope bundle)) = Some payload.
Proof.
  unfold check_bundle_shape, decode_dsse_payload. intros Hs Hb Hp. pass Hs as media by Hm. pass Hs by Hmt.
  pass Hs as envelope by He. pass Hp as text by Ht. apply ok_or_ok in Hp.
  destruct value as [| | | | |fields]; [done..|]. cbn [value_get] in *. destruct (field fields (ascii "dsseEnvelope")) as [e|] eqn:Hf; [|done].
  cbn [mbind option_bind] in *. destruct e as [| | | | |efields]; [done..|]. injection He as <-.
  unfold SigstoreBundle_from_value in Hb. destruct (struct_values _ _) as [values|] eqn:Hv; [|done].
  pose proof (struct_field _ _ _ 1%nat (ascii "dsseEnvelope") Hv eq_refl) as H1'. rewrite Hf in H1'.
  destruct values as [|v0 [|v1 [|v2 [|]]]]; try done. cbn in H1'. injection H1' as ->. cbn [mbind option_bind] in Hb.
  destruct (v0 ≫= as_str) as [m|]; [|done]. cbn [mbind option_bind] in Hb.
  destruct (DsseEnvelope_from_value (JObject efields)) as [env|] eqn:Henv; [|done]. cbn [mbind option_bind] in Hb.
  destruct (v2 ≫= VerificationMaterial_from_value) as [[[c es] ts]|]; [|done]. cbn in Hb. injection Hb as <-. cbn [sb_dsse_envelope].
  unfold DsseEnvelope_from_value in Henv. destruct (struct_values _ _) as [evalues|] eqn:Hev; [|done].
  pose proof (struct_field _ _ _ 0%nat (ascii "payload") Hev eq_refl) as H2'. cbn [value_get] in Ht.
  destruct (field efields (ascii "payload")) as [pv|]; [|done]. cbn [mbind option_bind] in Ht.
  destruct evalues as [|u0 [|u1 [|u2 [|]]]]; try done. cbn in H2'. injection H2' as ->. cbn [mbind option_bind] in Henv.
  rewrite Ht in Henv. cbn [mbind option_bind] in Henv.
  destruct (u1 ≫= as_str) as [pt|]; [|done]. cbn [mbind option_bind] in Henv.
  destruct (u2 ≫= _) as [sigs|]; [|done]. cbn in Henv. injection Henv as <-. done.
Qed.

(** A statement that was attested: its text, its type and exactly the expected subjects. *)
Record statement_for (root : RootKeys) (value : Value) (expected : list (bytes * bytes)) (predicate_type : bytes)
    (policy : CertificatePolicy) (now : Z) (v : VerifiedAttestation) : Prop := {
  sf_subjects : vt_subjects v ≡ₚ expected /\ NoDup expected.*1 /\ Forall valid_subject expected;
  sf_type : vt_predicate_type v = predicate_type;
  sf_attested : exists bundle payload tree statement, SigstoreBundle_from_value value = Some bundle /\
    strict_json payload = Some tree /\ Statement_from_value tree = Some statement /\
    st_kind statement = ascii "https://in-toto.io/Statement/v1" /\ st_predicate_type statement = predicate_type /\
    st_subject statement = vt_subjects v /\
    attested root policy now (vt_integrated_time v) bundle payload
}.

Lemma verify_statement_sound root value expected predicate_type policy now v :
  verify_statement root value expected predicate_type policy now = Ok v ->
  statement_for root value expected predicate_type policy now v.
Proof.
  unfold verify_statement. intros Hv. pass Hv as ? by Hshape. pass Hv as payload by Hp. pass Hv as tree by Ht.
  pass Hv as statement by Hst. pass Hv as ? by Hsub. pass Hv by Hk. pass Hv as time by Htime. injection Hv as <-.
  destruct_units. zbool. apply subjects_exact in Hsub as (_ & Hvalid & Hn & Hperm).
  apply sigstore_verify_sound in Htime as (bundle & payload' & Hb & Ha).
  pose proof (bundle_payload _ _ _ Hshape Hb Hp) as E. pose proof (as_envelope _ _ _ _ _ _ Ha) as (_ & _ & E').
  assert (payload' = payload) as -> by congruence.
  constructor; [done|done|]. by exists bundle, payload, tree, statement.
Qed.

(** ** One attestation *)

Lemma single_loop_sound verify verified last documents v :
  single_loop verify verified last documents = Ok v ->
  match verified with
  | Some w => v = w /\ Forall (fun d => exists e, verify d = Err e) documents
  | None => exists before value after, documents = before ++ value :: after /\ verify value = Ok v /\
      Forall (fun d => exists e, verify d = Err e) (before ++ after)
  end.
Proof.
  revert verified last. induction documents as [|d documents IH]; intros verified last; cbn [single_loop].
  { destruct verified; [intros [= ->]; split; [done|constructor]|done]. }
  destruct (verify d) as [r|e] eqn:E; [destruct verified; [done|]|].
  - intros [-> Hf]%IH. by exists [], d, documents.
  - intros Hl%IH. destruct verified as [w|].
    + destruct Hl as [-> Hf]. split; [done|]. constructor; [by exists e|done].
    + destruct Hl as (before & value & after & -> & Hv & Hf). exists (d :: before), value, after. split_and!; [done|done|].
      constructor; [by exists e|done].
Qed.

(** An accepted GitHub attestation is what its policy says: exactly one document of the
    input verifies, and it is an in-toto statement of the required predicate type with
    exactly the expected subjects, signed under a certificate that names the workflow,
    GitHub's issuer, the repository, commit, ref and a GitHub-hosted runner, whose chain and
    certificate timestamp were checked, and logged under a Rekor key valid at that time. *)
Theorem github_attestation_sound trust b expected policy now v :
  sigstore_github_attestation trust b expected policy now = Ok v ->
  zlen b <= MAX_BUNDLE_BYTES /\
  exists before value after, parse_bundle_documents b = Ok (before ++ value :: after) /\
    Forall (fun d => exists e, verify_github_attestation_value trust d expected policy now = Err e) (before ++ after) /\
    statement_for trust value expected (gp_predicate_type policy) (github_certificate_policy policy) now v.
Proof.
  unfold sigstore_github_attestation, verify_single_attestation. intros Hv. pass Hv by Hl. pass Hv as documents by Hd. zbool.
  split; [done|]. apply single_loop_sound in Hv as (before & value & after & -> & Hval & Hf).
  exists before, value, after. split_and!; [done|done|]. by apply verify_statement_sound.
Qed.

(** ** Published documents *)

(** A document in the log: the one entry of its bundle is published under a Rekor key of
    the root valid at that time, its body names the SHA-512 digest of exactly these bytes,
    and it carries a signature over them. *)
Definition document_logged (trust : RootKeys) (bundle artifact : bytes) (now time : Z) : Prop :=
  0 < time <= now / 1000 + 60 /\
  exists value db entry key text tree body contents signature,
    strict_json bundle = Some value /\ DocumentBundle_from_value value = Some db /\ db_tlog_entries db = [entry] /\
    key ∈ tr_rekor trust /\ period_contains (lk_validity key) time /\ published entry key time /\
    base64_decode (te_canonicalized_body entry) = Some text /\ strict_json text = Some tree /\
    DocumentBody_from_value tree = Some body /\
    dy_algorithm body = ascii "sha512" /\ dy_value body = hex_encode (sha512 artifact) /\
    ed25519ph_verify_strict contents artifact signature = true.

(** An accepted inclusion is not in the future, and its document is in the log as it is. *)
Theorem document_inclusion_sound trust bundle artifact now time :
  sigstore_document_inclusion trust bundle artifact now = Ok time ->
  zlen bundle <= MAX_BUNDLE_BYTES /\ zlen artifact <= MAX_DOCUMENT_BYTES /\
  document_logged trust bundle artifact now time.
Proof.
  unfold sigstore_document_inclusion, hashedrekord_verify. intros Hv. pass Hv by Hl. pass Hv as value by Hj. zbool.
  apply map_err_ok in Hv. pass Hv as db by Hb. destruct (bool_decide _); [|done].
  destruct (db_tlog_entries db) as [|entry [|]] eqn:He; [done| |done]. pass Hv as ? by Hbind.
  apply verify_publication_sound in Hv as (Htime & key & Hin & Hper & Hpub).
  unfold verify_binding in Hbind. pass Hbind by Hk. pass Hbind as text by Ht. pass Hbind as tree by Htree.
  pass Hbind as body by Hbody. pass Hbind by Hsame. pass Hbind as claimed by Hcl. pass Hbind by Hcd.
  pass Hbind as pem by Hpem. pass Hbind as [tag contents] by Htag. pass Hbind by Hhint. pass Hbind as ? by Hed.
  pass Hbind as signature by Hsig. pass Hbind as sig' by Hsig'. pass Hbind by Heq. pass Hbind by Hlen. pass Hbind by Hver. zbool.
  split_and!; [done|done|]. split; [lia|].
  exists value, db, entry, key, text, tree, body, contents, signature. split_and!; done.
Qed.

End BundlesTheory.
