(* ===== verification/SdkRelease.v ===== *)
(** SDK releases: [sdk_release.rs], and the compiled root of [approvals.rs]. *)

From S2P Require Import Prelude Primitives BTree Json Signing Attestation Documents Deserialize Approvals Snp.

Open Scope Z_scope.

Definition REPOSITORY : bytes := ascii "https://github.com/StogasAI/stogas".
Definition MANIFEST : bytes := ascii "release-manifest.json".
Definition ATTESTATION : bytes := ascii "github-attestation.jsonl".
Definition SIGNATURE : bytes := ascii "stogas-signature.json".
Definition QUALIFICATION : bytes := ascii "qualification.json".
Definition METADATA : list bytes := [MANIFEST; ATTESTATION; SIGNATURE; QUALIFICATION].

Record Source : Type := { so_commit : bytes; so_sha256 : bytes; so_dirty : bool; so_epoch : Z }.
Record Artifact : Type := { at_name : bytes; at_sha256 : bytes; at_size : Z }.
Record Manifest : Type := {
  mf_schema : bytes;
  mf_environment : Environment;
  mf_version : bytes;
  mf_source : Source;
  mf_targets : list bytes;
  mf_artifacts : list Artifact
}.
Record SdkSignature : Type := {
  sk_keys : LoggedDocument KeyManifest;
  sk_signature : StogasSignature;
  sk_inclusion : Value
}.

Definition Source_to_value (s : Source) : Value :=
  JObject [(ascii "commit", JString (so_commit s)); (ascii "sha256", JString (so_sha256 s));
           (ascii "dirty", JBool (so_dirty s)); (ascii "epoch", jnum (so_epoch s))].
Definition Artifact_to_value (a : Artifact) : Value :=
  JObject [(ascii "name", JString (at_name a)); (ascii "sha256", JString (at_sha256 a)); (ascii "size", jnum (at_size a))].
Definition Manifest_to_value (m : Manifest) : Value :=
  JObject [(ascii "schema", JString (mf_schema m)); (ascii "environment", Environment_to_value (mf_environment m));
           (ascii "version", JString (mf_version m)); (ascii "source", Source_to_value (mf_source m));
           (ascii "targets", JArray (JString <$> mf_targets m));
           (ascii "artifacts", JArray (Artifact_to_value <$> mf_artifacts m))].

Definition Source_from_value (v : Value) : option Source :=
  match struct_values [ascii "commit"; ascii "sha256"; ascii "dirty"; ascii "epoch"] v with
  | Some [commit; sha256; dirty; epoch] =>
      commit ← commit ≫= as_str;
      sha256 ← sha256 ≫= as_str;
      dirty ← dirty ≫= as_bool;
      epoch ← epoch ≫= as_uint u64_max;
      Some {| so_commit := commit; so_sha256 := sha256; so_dirty := dirty; so_epoch := epoch |}
  | _ => None
  end.
Definition Artifact_from_value (v : Value) : option Artifact :=
  match struct_values [ascii "name"; ascii "sha256"; ascii "size"] v with
  | Some [name; sha256; size] =>
      name ← name ≫= as_str;
      sha256 ← sha256 ≫= as_str;
      size ← size ≫= as_uint u64_max;
      Some {| at_name := name; at_sha256 := sha256; at_size := size |}
  | _ => None
  end.
Definition Manifest_from_value (v : Value) : option Manifest :=
  match struct_values [ascii "schema"; ascii "environment"; ascii "version"; ascii "source"; ascii "targets";
                       ascii "artifacts"] v with
  | Some [schema; environment; version; source; targets; artifacts] =>
      schema ← schema ≫= as_str;
      environment ← environment ≫= Environment_from_value;
      version ← version ≫= as_str;
      source ← source ≫= Source_from_value;
      targets ← targets ≫= as_vec as_str;
      artifacts ← artifacts ≫= as_vec Artifact_from_value;
      Some {| mf_schema := schema; mf_environment := environment; mf_version := version; mf_source := source;
              mf_targets := targets; mf_artifacts := artifacts |}
  | _ => None
  end.
Definition SdkSignature_from_value (v : Value) : option SdkSignature :=
  match struct_values [ascii "keys"; ascii "signature"; ascii "inclusion"] v with
  | Some [keys; signature; inclusion] =>
      keys ← keys ≫= SignedKeyManifest_from_value;
      signature ← signature ≫= StogasSignature_from_value;
      inclusion ← inclusion;
      Some {| sk_keys := keys; sk_signature := signature; sk_inclusion := inclusion |}
  | _ => None
  end.

(** ** The manifest *)

Definition hex_digest (value : bytes) (length : Z) : bool := (zlen value =? length) && forallb lower_hex_digit value.
Definition sha256_digest (value : bytes) : bool := hex_digest value 64.

Definition safe_name (value : bytes) : bool :=
  match value with
  | [] => false
  | first :: _ =>
      (zlen value <=? 200) && is_ascii_alphanumeric first
      && forallb (fun b => is_ascii_alphanumeric b || bool_decide (b ∈ ascii "._+-")) value
  end.

(** [windows(2)]: every name is below the next. *)
Fixpoint ascending (names : list bytes) : bool :=
  match names with
  | a :: (b :: _) as rest => bytes_ltb a b && ascending rest
  | _ => true
  end.

Definition valid_sdk_artifact (artifact : Artifact) : bool :=
  safe_name (at_name artifact)
  && negb (bool_decide (at_name artifact ∈ METADATA))
  && sha256_digest (at_sha256 artifact)
  && negb (at_size artifact =? 0)
  && (at_size artifact <=? 2 * 1024 * 1024 * 1024).

Definition validate_manifest (manifest : Manifest) : result unit ApprovalError :=
  reject negb (bool_decide (mf_schema manifest = ascii "stogas.sdk-release.v1"))
      || negb (bool_decide (mf_environment manifest = Production))
      || so_dirty (mf_source manifest)
      || negb (hex_digest (so_commit (mf_source manifest)) 40)
      || negb (sha256_digest (so_sha256 (mf_source manifest)))
      || (0xffffffff <? so_epoch (mf_source manifest))
      || negb (safe_name (mf_version manifest))
      || (zlen (mf_artifacts manifest) =? 0)
      || (zlen (mf_targets manifest) =? 0)
      || negb (forallb safe_name (mf_targets manifest))
      || negb (ascending (mf_targets manifest))
      || negb (ascending (at_name <$> mf_artifacts manifest))
      || negb (forallb valid_sdk_artifact (mf_artifacts manifest))
    with AInvalid (ascii "invalid production SDK release manifest");
  Ok tt.

(** ** Verification *)

Definition RootKey_from_value (v : Value) : option RootKey :=
  match text_struct [ascii "key_id"; ascii "public_key"] v with
  | Some [key_id; public_key] =>
      key_id ← key_id ≫= as_str;
      public_key ← public_key ≫= as_str;
      Some {| rk_key_id := key_id; rk_public_key := public_key |}
  | _ => None
  end.

Definition LoggedDocument_to_value {T} (f : T -> Value) (d : LoggedDocument T) : Value :=
  JObject [(ascii "document", f (ld_document d)); (ascii "signature", StogasSignature_to_value (ld_signature d));
           (ascii "inclusion", ld_inclusion d)].

Section SdkRelease.
Context `{Json} `{Base64} `{Signatures} `{Hash} `{Encodings} `{Sigstore}.

(** [Environment::stogas_root] of production; the text is the compiled file's. *)
Definition stogas_root (root_json : bytes) : result RootKey ApprovalError :=
  invalid (json_tree root_json ≫= RootKey_from_value).

Definition sdk_release_reference (manifest : Manifest) : bytes := ascii "refs/tags/v" ++ mf_version manifest.

(** What the build proof must name. *)
Definition sdk_release_subjects (manifest : Manifest) (manifest_bytes qualification : bytes) : list (bytes * bytes) :=
  ((fun a => (at_name a, at_sha256 a)) <$> mf_artifacts manifest)
  ++ [(MANIFEST, hex_encode (sha256 manifest_bytes)); (QUALIFICATION, hex_encode (sha256 qualification))].

Definition sdk_release_policy (manifest : Manifest) : GithubPolicy := {|
  gp_repository := REPOSITORY;
  gp_workflow_identity := REPOSITORY ++ ascii "/.github/workflows/release.yml@" ++ sdk_release_reference manifest;
  gp_source_ref := sdk_release_reference manifest;
  gp_source_commit := so_commit (mf_source manifest);
  gp_predicate_type := ascii "https://slsa.dev/provenance/v1" |}.

Definition sdk_release_verify (root_json manifest_bytes github_attestation qualification signature_bytes : bytes)
    (now_unix_ms : Z) : result Manifest ApprovalError :=
  reject existsb (fun b => MAX_INPUT_BYTES <? zlen b) [manifest_bytes; github_attestation; qualification; signature_bytes]
    with ATooLarge;
  let? manifest := invalid (strict_json manifest_bytes ≫= Manifest_from_value) in
  let? _ := validate_manifest manifest in
  let? signed := invalid (strict_json signature_bytes ≫= SdkSignature_from_value) in
  let document := Manifest_to_value manifest in
  let? trust := ok_or embedded_root ASigstore in
  let? published := verify_document_inclusion document (sk_signature signed) (sk_inclusion signed) trust now_unix_ms in
  let? published_ms := ok_or (checked_mul_1000 published) (AInvalid (ascii "log time overflow")) in
  let? root := stogas_root root_json in
  let? authority := ApprovalVerifier_new Production root in
  let? keys := (verify_key_manifest authority (json_to_vec (LoggedDocument_to_value KeyManifest_to_value (sk_keys signed)))
    trust published_ms).2 in
  let? _ := verify_signature document (sk_signature signed) (ok_key_id (km_active_key keys))
    (ok_public_key (km_active_key keys)) in
  let? _ := invalid (verify_github_attestation trust github_attestation
    (sdk_release_subjects manifest manifest_bytes qualification) (sdk_release_policy manifest) now_unix_ms) in
  Ok manifest.

End SdkRelease.
