(* ===== verification/Releases.v ===== *)
(** Release manifests and their build proofs: the gateway and catalog checks of [lib.rs],
    the verified releases of [types.rs] and the entry points of [approvals.rs]. *)

From S2P Require Import Prelude Primitives BTree Json Signing Attestation Documents Deserialize Approvals Snp.

Open Scope Z_scope.

(** ** types.rs *)

Record VerifiedRelease : Type := {
  vl_github_integrated_time_unix_ms : option Z;
  vl_igvm_sha256 : bytes;
  vl_launch_policies : LaunchPolicies;
  vl_measurement : bytes;
  vl_minimum_catalog_sequence : Z;
  vl_provenance : ReleaseProvenance;
  vl_release_tag : bytes;
  vl_release_manifest_sha256 : bytes;
  vl_sequence : Z;
  vl_source_commit : bytes;
  vl_source_repository : bytes;
  vl_source_sha256 : bytes;
  vl_vcpu_count : Z
}.

Record VerifiedCatalogRelease : Type := {
  vc_github_integrated_time_unix_ms : option Z;
  vc_minimum_gateway_sequence : Z;
  vc_provenance : ReleaseProvenance;
  vc_public_digest : bytes;
  vc_public_size_bytes : Z;
  vc_runtime_digest : bytes;
  vc_runtime_size_bytes : Z;
  vc_sequence : Z;
  vc_source_commit : bytes;
  vc_source_repository : bytes;
  vc_source_sha256 : bytes;
  vc_source_tag : bytes
}.

Record VerifiedHardwarePolicy : Type := {
  vh_chip_ids : list bytes;
  vh_policy_count : Z;
  vh_sha256 : bytes;
  vh_version : Z
}.

(** ** lib.rs: shapes *)

Definition MAX_SAFE_INTEGER : Z := 9007199254740991.

Definition valid_artifact (artifact : ReleaseArtifact) (maximum_bytes : Z) : bool :=
  is_lower_hex (ra_sha256 artifact) 32
  && ((1 <=? ra_size_bytes artifact) && (ra_size_bytes artifact <=? maximum_bytes)).

Definition validate_catalog_shape (manifest : CatalogReleaseManifest) : result unit SnpError :=
  reject negb (bool_decide (cm_schema manifest = ascii "stogas.catalog.release.v1"))
      || (cm_minimum_gateway_sequence manifest =? 0)
      || (MAX_SAFE_INTEGER <? cm_minimum_gateway_sequence manifest)
      || (cm_sequence manifest =? 0) || (MAX_SAFE_INTEGER <? cm_sequence manifest)
      || negb (bool_decide (rs_repository (cm_source manifest) = ascii "https://github.com/StogasAI/catalog"))
      || negb (bool_decide (rs_tag (cm_source manifest) = ascii "catalog-v" ++ decimal (cm_sequence manifest)))
      || negb (is_lower_hex (rs_commit (cm_source manifest)) 20)
      || negb (is_lower_hex (rs_sha256 (cm_source manifest)) 32)
      || negb (valid_artifact (cm_runtime manifest) (64 * 1024 * 1024))
      || negb (valid_artifact (cm_public manifest) (64 * 1024 * 1024))
    with InvalidBundle (ascii "invalid catalog release shape");
  Ok tt.

(** [str::split('.')]: always at least one part. *)
Fixpoint split_dots (l : bytes) : list bytes :=
  match l with
  | [] => [[]]
  | b :: l =>
      if bool_decide (b = x2e) then [] :: split_dots l
      else match split_dots l with part :: parts => (b :: part) :: parts | [] => [[b]] end
  end.

(** The closure [parse] of [gateway_release_sequence]. *)
Definition tag_component (part : bytes) : option Z :=
  if (zlen part =? 0) || ((1 <? zlen part) && bool_decide (head part = Some x30))
     || negb (forallb is_digit part)
  then None else parse_unsigned u64_max part.

Definition COMPONENT_BASE : Z := 1000000.
Definition MAJOR_BASE : Z := COMPONENT_BASE * COMPONENT_BASE.

(** [checked_mul] and [checked_add] of 64-bit integers. *)
Definition checked_mul (a b : Z) : option Z := if a * b <=? u64_max then Some (a * b) else None.
Definition checked_add (a b : Z) : option Z := if a + b <=? u64_max then Some (a + b) else None.

Definition gateway_release_sequence (release_tag : bytes) : option Z :=
  rest ← match release_tag with b :: rest => if bool_decide (b = x76) then Some rest else None | [] => None end;
  match split_dots rest with
  | major :: minor :: patch :: parts =>
      major ← tag_component major;
      minor ← tag_component minor;
      patch ← tag_component patch;
      if negb (zlen parts =? 0) || (COMPONENT_BASE <=? minor) || (COMPONENT_BASE <=? patch) then None else
      high ← checked_mul major MAJOR_BASE;
      middle ← checked_mul minor COMPONENT_BASE;
      sum ← checked_add high middle;
      sequence ← checked_add sum patch;
      if (0 <? sequence) && (sequence <=? MAX_SAFE_INTEGER) then Some sequence else None
  | _ => None
  end.

Definition gateway_release_manifest_shape_is_valid (manifest : GatewayReleaseManifest) : bool :=
  let sev_snp := gm_sev_snp manifest in
  let build := gm_build manifest in
  let source := gm_source manifest in
  bool_decide (gm_schema manifest = ascii "stogas.gateway.release.v1")
  && bool_decide (rs_repository source = ascii "https://github.com/StogasAI/gateway")
  && bool_decide (gateway_release_sequence (rs_tag source) = Some (gm_sequence manifest))
  && (0 <? gm_minimum_catalog_sequence manifest)
  && (gm_minimum_catalog_sequence manifest <=? MAX_SAFE_INTEGER)
  && (zlen (rs_tag source) <=? 100)
  && is_lower_hex (rs_commit source) 20
  && is_lower_hex (rs_sha256 source) 32
  && is_lower_hex (ra_sha256 (gm_gateway_igvm manifest)) 32
  && (0 <? ra_size_bytes (gm_gateway_igvm manifest))
  && (ra_size_bytes (gm_gateway_igvm manifest) <=? 128 * 1024 * 1024)
  && gs_check_kvm sev_snp
  && bool_decide (gs_platform sev_snp = ascii "SEV_SNP")
  && bool_decide (gs_vmm sev_snp = ascii "qemu-kvm")
  && bool_decide (gs_measurement_command sev_snp = ascii "igvmmeasure --check-kvm gateway.igvm measure")
  && bool_decide (gs_measurement_tool sev_snp = ascii "igvmmeasure")
  && negb (zlen (gs_measurement_tool_version sev_snp) =? 0)
  && (zlen (gs_measurement_tool_version sev_snp) <=? 100)
  && is_lower_hex (gs_measurement_tool_sha256 sev_snp) 32
  && is_lower_hex (gs_launch_measurement sev_snp) 48
  && (0 <? gs_vcpu_count sev_snp)
  && (gs_vcpu_count sev_snp <=? 1024)
  && bool_decide (gb_lc_all build = ascii "C")
  && bool_decide (gb_source_date_epoch build = ascii "1")
  && bool_decide (gb_tz build = ascii "UTC")
  && bool_decide (gb_umask build = ascii "022")
  && bool_decide (gb_guest_ca_bundle_path build = ascii "/etc/ssl/certs/ca-certificates.crt")
  && is_lower_hex (gb_guix_channel_commit build) 20
  && negb (zlen (gb_input_sha256 build) =? 0)
  && (zlen (gb_input_sha256 build) <=? 256)
  && negb (zlen (gb_go_version build) =? 0)
  && (zlen (gb_go_version build) <=? 200)
  && negb (zlen (gb_kernel_version build) =? 0)
  && (zlen (gb_kernel_version build) <=? 100).

Definition required_inputs : list bytes :=
  [ascii "core/go.mod"; ascii "core/go.sum"; ascii "transports/go.mod"; ascii "transports/go.sum";
   ascii "guix/nss-certs/ca-certificates.crt"; ascii "stogas/release/guix/cmdline.txt";
   ascii "stogas/release/guix/os-release"; ascii "stogas/release/pins.lock.json"].

Definition validate_gateway_release_build (build : GatewayReleaseBuild) : result unit SnpError :=
  reject negb (forallb (fun path => match bm_get (gb_input_sha256 build) path with Some _ => true | None => false end)
                 required_inputs)
    with InvalidBundle (ascii "gateway build input is absent");
  reject negb (forallb (fun digest => is_lower_hex digest 32)
      [gb_go_vendor_tree_sha256 build; gb_kernel_config_sha256 build; gb_linux_bz_image_sha256 build;
       gb_ovmf_sha256 build; gb_systemd_stub_sha256 build; gb_uki_sha256 build])
    with InvalidBundle (ascii "gateway release build digest is invalid");
  reject existsb (fun '(name, digest) => (zlen name =? 0) || (256 <? zlen name) || negb (is_lower_hex digest 32))
      (gb_input_sha256 build)
    with InvalidBundle (ascii "gateway release build input is invalid");
  Ok tt.

(** [sort_unstable] and [dedup] of strings. *)
Definition bytes_le (a b : bytes) : Prop := bytes_ltb b a = false.
#[export] Instance bytes_le_dec : RelDecision bytes_le.
Proof. intros a b. unfold bytes_le. apply _. Defined.

Fixpoint dedup (l : list bytes) : list bytes :=
  match l with
  | a :: (b :: _) as rest => if bool_decide (a = b) then dedup rest else a :: dedup rest
  | _ => l
  end.

(** The predicate type of staging builds. *)
Definition STAGING_PROVENANCE_TYPE : bytes := ascii "https://stogas.ai/attestations/staging-development/v1".
Definition SLSA_PROVENANCE : bytes := ascii "https://slsa.dev/provenance/v1".

(** ** The staging placeholder *)

Record StagingDevelopmentSubject : Type := { ss_digest : list (bytes * bytes); ss_name : bytes }.

Record StagingDevelopmentProvenance : Type := {
  sd_statement_type : bytes;
  sd_predicate_type : bytes;
  sd_environment : bytes;
  sd_subject : list StagingDevelopmentSubject
}.

Definition StagingDevelopmentPredicate_from_value (v : Value) : option bytes :=
  match struct_values [ascii "environment"] v with
  | Some [environment] => environment ≫= as_str
  | _ => None
  end.

Definition StagingDevelopmentSubject_from_value (v : Value) : option StagingDevelopmentSubject :=
  match struct_values [ascii "digest"; ascii "name"] v with
  | Some [digest; name] =>
      digest ← digest ≫= as_map as_str;
      name ← name ≫= as_str;
      Some {| ss_digest := digest; ss_name := name |}
  | _ => None
  end.

Definition StagingDevelopmentProvenance_from_value (v : Value) : option StagingDevelopmentProvenance :=
  match struct_values [ascii "_type"; ascii "predicateType"; ascii "predicate"; ascii "subject"] v with
  | Some [statement_type; predicate_type; predicate; subject] =>
      statement_type ← statement_type ≫= as_str;
      predicate_type ← predicate_type ≫= as_str;
      environment ← predicate ≫= StagingDevelopmentPredicate_from_value;
      subject ← subject ≫= as_vec StagingDevelopmentSubject_from_value;
      Some {| sd_statement_type := statement_type; sd_predicate_type := predicate_type;
              sd_environment := environment; sd_subject := subject |}
  | _ => None
  end.

(** The loop over the subjects, with the map it fills. *)
Fixpoint staging_subjects (actual : list (bytes * bytes)) (subjects : list StagingDevelopmentSubject)
  : result (list (bytes * bytes)) SnpError :=
  match subjects with
  | [] => Ok actual
  | subject :: subjects =>
      reject negb (zlen (ss_digest subject) =? 1)
        with ReleaseError (ascii "staging development provenance subject digest is invalid");
      let? digest := ok_or (bm_get (ss_digest subject) (ascii "sha256"))
        (ReleaseError (ascii "staging development provenance requires SHA-256 subjects")) in
      match bm_get actual (ss_name subject) with
      | Some _ => Err (ReleaseError (ascii "staging development provenance has duplicate subjects"))
      | None => staging_subjects (bm_insert (ss_name subject) digest actual) subjects
      end
  end.

Section Releases.
Context `{Json} `{Base64} `{Signatures} `{Hash} `{Encodings} `{Sigstore}.

Definition is_staging_development_provenance (b : bytes) (expected_subjects : list (bytes * bytes))
  : result bool SnpError :=
  let? value := ok_or (json_from_slice b) (ReleaseError (ascii "invalid provenance JSON: ")) in
  if negb (bool_decide (value_get value (ascii "predicateType") ≫= as_str = Some STAGING_PROVENANCE_TYPE))
  then Ok false else
  let? statement := ok_or (StagingDevelopmentProvenance_from_value value)
    (ReleaseError (ascii "invalid staging development provenance: ")) in
  reject negb (bool_decide (sd_statement_type statement = ascii "https://in-toto.io/Statement/v1"))
      || negb (bool_decide (sd_predicate_type statement = STAGING_PROVENANCE_TYPE))
      || negb (bool_decide (sd_environment statement = ascii "staging"))
      || negb (zlen (sd_subject statement) =? zlen expected_subjects)
    with ReleaseError (ascii "invalid staging development provenance policy");
  let? actual := staging_subjects [] (sd_subject statement) in
  reject negb (bool_decide (actual = bm_of_list expected_subjects))
    with ReleaseError (ascii "staging development provenance subjects differ");
  Ok true.

(** ** Provenance *)

Definition verify_github_provenance (trust : TrustedRoot) (attestation_bytes : bytes)
    (expected_subjects : list (bytes * bytes)) (policy : GithubPolicy) (now_unix_ms : Z) (context : bytes)
  : result (option Z * ReleaseProvenance) SnpError :=
  let? integrated_time := ok_or
    (verify_github_attestation trust attestation_bytes expected_subjects policy now_unix_ms)
    (ReleaseError (context ++ ascii ": ")) in
  let? integrated_time := ok_or (checked_mul_1000 integrated_time)
    (ReleaseError (context ++ ascii " GitHub integration time overflows")) in
  Ok (Some integrated_time, Github).

(** The subjects and the policy a release's proof must match. *)
Definition catalog_subjects (manifest : CatalogReleaseManifest) (manifest_digest : bytes) : list (bytes * bytes) :=
  [(ascii "catalog-release.json", manifest_digest);
   (ascii "catalog.runtime.json", ra_sha256 (cm_runtime manifest));
   (ascii "catalog.public.json", ra_sha256 (cm_public manifest))].
Definition gateway_subjects (manifest : GatewayReleaseManifest) (manifest_digest : bytes) : list (bytes * bytes) :=
  [(ascii "release-manifest.json", manifest_digest);
   (ascii "gateway.igvm", ra_sha256 (gm_gateway_igvm manifest))].
Definition release_policy (source : ReleaseSource) (workflow : bytes) : GithubPolicy :=
  {| gp_repository := rs_repository source; gp_workflow_identity := workflow ++ rs_tag source;
     gp_source_ref := ascii "refs/tags/" ++ rs_tag source; gp_source_commit := rs_commit source;
     gp_predicate_type := SLSA_PROVENANCE |}.

Definition CATALOG_WORKFLOW : bytes :=
  ascii "https://github.com/StogasAI/catalog/.github/workflows/catalog-release.yml@refs/tags/".
Definition GATEWAY_WORKFLOW : bytes :=
  ascii "https://github.com/StogasAI/gateway/.github/workflows/gateway-igvm-release.yml@refs/tags/".

Definition verify_catalog_provenance (attestation_bytes : bytes) (manifest : CatalogReleaseManifest)
    (manifest_digest : bytes) (trust : TrustedRoot) (now_unix_ms : Z)
  : result (option Z * ReleaseProvenance) SnpError :=
  let? staging := is_staging_development_provenance attestation_bytes (catalog_subjects manifest manifest_digest) in
  if (staging : bool) then Ok (None, StagingProvenance) else
  verify_github_provenance trust attestation_bytes (catalog_subjects manifest manifest_digest)
    (release_policy (cm_source manifest) CATALOG_WORKFLOW) now_unix_ms (ascii "catalog provenance").

Definition verify_release_provenance (attestation_bytes : bytes) (manifest : GatewayReleaseManifest)
    (manifest_digest : bytes) (trust : TrustedRoot) (now_unix_ms : Z)
  : result (option Z * ReleaseProvenance) SnpError :=
  let? staging := is_staging_development_provenance attestation_bytes (gateway_subjects manifest manifest_digest) in
  if (staging : bool) then Ok (None, StagingProvenance) else
  verify_github_provenance trust attestation_bytes (gateway_subjects manifest manifest_digest)
    (release_policy (gm_source manifest) GATEWAY_WORKFLOW) now_unix_ms (ascii "gateway provenance").

(** ** Releases *)

Definition release_manifest_sha256 (manifest : Value) : result bytes SnpError :=
  let? text := ok_or (canonical_json manifest) (InvalidBundle (ascii "canonical JSON")) in
  Ok (hex_encode (sha256 text)).

Definition LAUNCH_POLICY_INPUT : bytes := ascii "stogas/release/snp-launch-policies.json".

Definition validate_gateway_release_manifest (manifest : GatewayReleaseManifest) : result unit SnpError :=
  reject negb (gateway_release_manifest_shape_is_valid manifest)
    with InvalidBundle (ascii "invalid gateway release manifest shape");
  let? _ := validate_gateway_release_build (gm_build manifest) in
  let? _ := validate_gateway_launch_policies (gs_launch_policies (gm_sev_snp manifest)) in
  let? launch_policies := ok_or (canonical_json (LaunchPolicies_to_value (gs_launch_policies (gm_sev_snp manifest))))
    (InvalidBundle (ascii "canonical JSON")) in
  reject negb (bool_decide (bm_get (gb_input_sha256 (gm_build manifest)) LAUNCH_POLICY_INPUT
                            = Some (hex_encode (sha256 launch_policies))))
    with InvalidBundle (ascii "gateway launch policy artifact does not match the release manifest");
  Ok tt.

Definition verify_catalog_release (catalog : AllowedCatalog) (trust : TrustedRoot) (now_unix_ms : Z)
  : result VerifiedCatalogRelease SnpError :=
  let manifest := ev_document catalog in
  let? _ := validate_catalog_shape manifest in
  let? manifest_digest := release_manifest_sha256 (CatalogReleaseManifest_to_value manifest) in
  let? (time, provenance) := verify_catalog_provenance (json_to_vec (ev_provenance catalog)) manifest
    manifest_digest trust now_unix_ms in
  Ok {| vc_github_integrated_time_unix_ms := time;
        vc_minimum_gateway_sequence := cm_minimum_gateway_sequence manifest;
        vc_provenance := provenance;
        vc_public_digest := ascii "sha256:" ++ ra_sha256 (cm_public manifest);
        vc_public_size_bytes := ra_size_bytes (cm_public manifest);
        vc_runtime_digest := ascii "sha256:" ++ ra_sha256 (cm_runtime manifest);
        vc_runtime_size_bytes := ra_size_bytes (cm_runtime manifest);
        vc_sequence := cm_sequence manifest;
        vc_source_commit := rs_commit (cm_source manifest);
        vc_source_repository := rs_repository (cm_source manifest);
        vc_source_sha256 := rs_sha256 (cm_source manifest);
        vc_source_tag := rs_tag (cm_source manifest) |}.

Definition verify_gateway_release (release : AllowedIgvm) (trust : TrustedRoot) (now_unix_ms : Z)
  : result VerifiedRelease SnpError :=
  let manifest := ev_document release in
  let? _ := validate_gateway_release_manifest manifest in
  let? manifest_digest := release_manifest_sha256 (GatewayReleaseManifest_to_value manifest) in
  let? (time, provenance) := verify_release_provenance (json_to_vec (ev_provenance release)) manifest
    manifest_digest trust now_unix_ms in
  Ok {| vl_github_integrated_time_unix_ms := time;
        vl_igvm_sha256 := ra_sha256 (gm_gateway_igvm manifest);
        vl_launch_policies := gs_launch_policies (gm_sev_snp manifest);
        vl_measurement := gs_launch_measurement (gm_sev_snp manifest);
        vl_minimum_catalog_sequence := gm_minimum_catalog_sequence manifest;
        vl_provenance := provenance;
        vl_release_manifest_sha256 := manifest_digest;
        vl_release_tag := rs_tag (gm_source manifest);
        vl_sequence := gm_sequence manifest;
        vl_source_commit := rs_commit (gm_source manifest);
        vl_source_repository := rs_repository (gm_source manifest);
        vl_source_sha256 := rs_sha256 (gm_source manifest);
        vl_vcpu_count := gs_vcpu_count (gm_sev_snp manifest) |}.

(** [verify_hardware_policy] of [lib.rs]. *)
Definition hardware_policy_of (policy : HardwarePolicy) : result VerifiedHardwarePolicy SnpError :=
  let? canonical := validate_hardware_policy policy in
  Ok {| vh_chip_ids := dedup (merge_sort bytes_le (hw_policies policy ≫= ap_chip_ids));
        vh_policy_count := zlen (hw_policies policy);
        vh_sha256 := hex_encode (sha256 canonical);
        vh_version := hw_version policy |}.

(** ** approvals.rs *)

Definition verify_gateway (a : VerifiedApprovals) (release : AllowedIgvm) (now_unix_ms : Z)
  : result VerifiedRelease ApprovalError :=
  let? verified := map_err (fun _ => AEvidence)
    (verify_gateway_release release (vs_trusted_root (va_sigstore a)) now_unix_ms) in
  reject negb (accepts_provenance a (vl_provenance verified)) with AAuthority;
  Ok verified.

Definition verify_catalog (a : VerifiedApprovals) (catalog : AllowedCatalog) (now_unix_ms : Z)
  : result VerifiedCatalogRelease ApprovalError :=
  let? verified := map_err (fun _ => AEvidence)
    (verify_catalog_release catalog (vs_trusted_root (va_sigstore a)) now_unix_ms) in
  reject negb (accepts_provenance a (vc_provenance verified)) with AAuthority;
  Ok verified.

Definition verify_hardware_policy (a : VerifiedApprovals) : result VerifiedHardwarePolicy ApprovalError :=
  map_err (fun _ => AEvidence) (hardware_policy_of (am_hardware_policy (va_manifest a))).

End Releases.

(** * Theory

    Release manifests: tags and their sequence numbers, and what an accepted release proves. *)

(** ** Canonical decimal texts *)

(** Digits without a leading zero. *)
Definition canonical_digits (l : bytes) : Prop :=
  forallb is_digit l = true /\ l <> [] /\ (head l = Some x30 -> zlen l = 1).

Lemma is_digit_zero b : is_digit b = true -> byte_to_Z b = 48 -> b = x30.
Proof. intros _ E. rewrite <- (byte_of_Z_to_Z b), E. done. Qed.

Lemma is_digit_range b : is_digit b = true -> 48 <= byte_to_Z b <= 57.
Proof. unfold is_digit. intros. zbool. lia. Qed.

Lemma canonical_snoc l b : l <> [] -> canonical_digits (l ++ [b]) -> canonical_digits l /\ 1 <= dec_value l.
Proof.
  intros Hne (Hd & _ & Hz). rewrite forallb_app in Hd. zbool. destruct l as [|c l]; [done|]. clear Hne.
  assert (c <> x30) as Hc by (intros ->; specialize (Hz eq_refl); zlen_lia).
  assert (forall l, forallb is_digit (c :: l) = true -> 1 <= dec_value (c :: l)) as Hpos.
  { clear - Hc. induction l as [|b l IH] using rev_ind.
    - cbn [forallb]. intros. zbool. pose proof (is_digit_range c ltac:(done)).
      unfold dec_value. cbn [fold_left].
      destruct (Z.eq_dec (byte_to_Z c) 48) as [E|]; [by apply is_digit_zero in E|lia].
    - rewrite app_comm_cons, forallb_app, dec_value_snoc. intros [Hd Hb]%andb_true_iff.
      specialize (IH Hd). cbn [forallb] in Hb. zbool. pose proof (is_digit_range b ltac:(done)). lia. }
  split; [|by apply Hpos]. split_and!; [done|done|]. intros [= ->]. done.
Qed.

Lemma decimal_digits_canonical fuel l :
  canonical_digits l -> (length l <= fuel)%nat -> decimal_digits fuel (dec_value l) = l.
Proof.
  revert fuel. induction l as [|b l IH] using rev_ind; intros fuel Hc Hf; [by destruct Hc as (_ & ? & _)|].
  rewrite length_app in Hf. cbn [length] in Hf. destruct fuel as [|fuel]; [lia|]. cbn [decimal_digits].
  assert (48 <= byte_to_Z b <= 57).
  { destruct Hc as (Hd & _). rewrite forallb_app in Hd. cbn [forallb] in Hd. zbool. by apply is_digit_range. }
  rewrite dec_value_snoc. destruct (decide (l = [])) as [->|Hne].
  - cbn [dec_value fold_left app]. rewrite (proj2 (Z.ltb_lt _ _)) by lia.
    replace (48 + (0 * 10 + (byte_to_Z b - 48))) with (byte_to_Z b) by lia. by rewrite byte_of_Z_to_Z.
  - destruct (canonical_snoc l b Hne Hc) as [Hcl Hpos]. rewrite (proj2 (Z.ltb_ge _ _)) by lia.
    rewrite Z.div_add_l, Z.div_small, Z.add_0_r by lia. rewrite IH by (done || lia).
    rewrite (Z.add_comm (dec_value l * 10)), Z.mod_add, Z.mod_small by lia.
    replace (48 + (byte_to_Z b - 48)) with (byte_to_Z b) by lia. by rewrite byte_of_Z_to_Z.
Qed.

Lemma canonical_lower_bound l : canonical_digits l -> l <> [x30] -> 10 ^ (zlen l - 1) <= dec_value l.
Proof.
  induction l as [|b l IH] using rev_ind; intros Hc Hn; [by destruct Hc as (_ & ? & _)|].
  assert (is_digit b = true) as Hb by (destruct Hc as (Hd & _); rewrite forallb_app in Hd; cbn in Hd; by zbool).
  pose proof (is_digit_range b Hb). rewrite dec_value_snoc, zlen_app. change (zlen [b]) with 1.
  destruct (decide (l = [])) as [->|Hne].
  - change (zlen (@nil byte) + 1 - 1) with 0. change (dec_value []) with 0.
    destruct (Z.eq_dec (byte_to_Z b) 48) as [E|]; [apply is_digit_zero in E as ->; done|lia].
  - destruct (canonical_snoc l b Hne Hc) as [Hcl Hpos].
    assert (l <> [x30]) as Hz by (intros ->; vm_compute in Hpos; done).
    specialize (IH Hcl Hz). replace (zlen l + 1 - 1) with (Z.succ (zlen l - 1)) by lia.
    destruct l; [done|]. rewrite Z.pow_succ_r by zlen_lia. lia.
Qed.

(** A text of digits without a leading zero is the decimal text of its value. *)
Lemma decimal_canonical l : canonical_digits l -> dec_value l < 10 ^ 20 -> decimal (dec_value l) = l.
Proof.
  intros Hc Hv. apply decimal_digits_canonical; [done|]. destruct (decide (l = [x30])) as [->|Hz]; [simpl; lia|].
  pose proof (canonical_lower_bound l Hc Hz) as Hb.
  assert (zlen l - 1 < 20); [|unfold zlen in *; lia].
  apply (Z.pow_lt_mono_r_iff 10); lia.
Qed.

Lemma decimal_digits_nonzero fuel n :
  0 < n < 10 ^ Z.of_nat fuel -> head (decimal_digits fuel n) <> Some x30.
Proof.
  revert n. induction fuel as [|fuel IH]; intros n Hn; [done|].
  rewrite Nat2Z.inj_succ, Z.pow_succ_r in Hn by lia. cbn [decimal_digits]. destruct (n <? 10) eqn:E; zbool.
  - cbn [head]. intros [= Hb]. apply (f_equal byte_to_Z) in Hb. rewrite digit_byte in Hb by lia.
    change (byte_to_Z x30) with 48 in Hb. lia.
  - assert (n / 10 < 10 ^ Z.of_nat fuel) by (apply Z.div_lt_upper_bound; lia).
    assert (1 <= n / 10) by (apply Z.div_le_lower_bound; lia).
    destruct (decimal_digits_spec fuel (n / 10)) as (_ & _ & Hl); [lia|lia|].
    specialize (IH (n / 10) ltac:(lia)). 
    destruct (decimal_digits fuel (n / 10)) eqn:El; [by vm_compute in Hl|done].
Qed.

Lemma decimal_is_canonical n : 0 <= n < 10 ^ 20 -> canonical_digits (decimal n).
Proof.
  intros Hn. destruct (decimal_digits_spec 20 n Hn ltac:(lia)) as (Hd & Hv & Hl).
  split_and!; [done|unfold decimal; intros E; by rewrite E in Hl|]. intros Hh.
  destruct (Z.eq_dec n 0) as [->|]; [done|]. by apply decimal_digits_nonzero in Hh; [|change (Z.of_nat 20) with 20; lia].
Qed.

(** ** Release tags *)

Lemma tag_component_spec part n : tag_component part = Some n <-> part = decimal n /\ 0 <= n <= u64_max.
Proof.
  unfold tag_component. split.
  - destruct (_ || _) eqn:E; [done|]. zbool. unfold parse_unsigned. intros Hp.
    assert (canonical_digits part) as Hc.
    { split_and!; [done|intros ->; done|]. intros Hh.
      match goal with H : _ && _ = false |- _ => apply andb_false_iff in H as [H|H] end; zbool; [|done].
      destruct part; [done|zlen_lia]. }
    assert (parse_digits part ≫= (fun n => if n <=? u64_max then Some n else None) = Some n) as Hq.
    { destruct part as [|b [|c part]]; [done|done|]. rewrite bool_decide_false in Hp; [done|].
      intros ->. by destruct Hc as (Hd & _). }
    clear Hp. destruct (parse_digits part) as [m|] eqn:Em; [|done]. cbn in Hq.
    destruct (m <=? u64_max) eqn:El; [|done]. simplify_eq. pose proof (parse_digits_nonneg _ _ Em).
    unfold parse_digits in Em. destruct ((0 <? zlen part) && _); [|done]. simplify_eq. zbool. unfold u64_max in *.
    split; [|lia]. symmetry. apply decimal_canonical; [done|lia].
  - intros [-> Hn]. assert (0 <= n < 10 ^ 20) as Hb by (unfold u64_max in Hn; lia).
    pose proof (decimal_is_canonical n Hb) as (Hd & Hne & Hz). pose proof (parse_decimal n Hb) as Hp.
    rewrite Hd. replace (zlen (decimal n) =? 0) with false by (symmetry; apply Z.eqb_neq; by intros ?%zlen_0_nil).
    replace (_ && _) with false; cycle 1.
    { symmetry. apply andb_false_iff. destruct (decide (head (decimal n) = Some x30)) as [Hh|Hh].
      - left. rewrite (Hz Hh). done.
      - right. by apply bool_decide_eq_false. }
    cbn [orb negb]. unfold parse_unsigned.
    assert (forall c, c :: tail (decimal n) = decimal n -> bool_decide (c = x2b) = false) as Hplus.
    { intros c Hc. apply bool_decide_eq_false. intros ->. by rewrite <- Hc in Hd. }
    destruct (decimal n) as [|b [|c l]] eqn:El; [done|..]; [|rewrite Hplus by done]; rewrite Hp; cbn;
      by rewrite (proj2 (Z.leb_le _ _)) by lia.
Qed.

Lemma tag_component_decimal n : 0 <= n <= u64_max -> tag_component (decimal n) = Some n.
Proof. intros. by apply tag_component_spec. Qed.

Lemma split_dots_digits part rest :
  forallb is_digit part = true -> split_dots (part ++ x2e :: rest) = part :: split_dots rest.
Proof.
  induction part as [|b part IH]; cbn [app split_dots forallb]; [done|]. intros. zbool.
  rewrite bool_decide_false by (intros ->; done). by rewrite IH.
Qed.

Lemma split_dots_last part : forallb is_digit part = true -> split_dots part = [part].
Proof.
  induction part as [|b part IH]; cbn [split_dots forallb]; [done|]. intros. zbool.
  rewrite bool_decide_false by (intros ->; done). by rewrite IH.
Qed.

Lemma split_dots_join l : exists part parts,
  split_dots l = part :: parts /\ l = part ++ concat ((fun p => x2e :: p) <$> parts).
Proof.
  induction l as [|b l (part & parts & E & ->)]; cbn [split_dots]; [by exists [], []|].
  rewrite E. case_bool_decide as Hb.
  - subst. exists [], (part :: parts). done.
  - exists (b :: part), parts. done.
Qed.

(** The text of a version. *)
Definition version_tag (major minor patch : Z) : bytes :=
  x76 :: decimal major ++ x2e :: decimal minor ++ x2e :: decimal patch.

Lemma release_numbers major minor patch sequence :
  (major ← tag_component major;
   minor ← tag_component minor;
   patch ← tag_component patch;
   if negb (zlen (@nil bytes) =? 0) || (COMPONENT_BASE <=? minor) || (COMPONENT_BASE <=? patch) then None else
   high ← checked_mul major MAJOR_BASE;
   middle ← checked_mul minor COMPONENT_BASE;
   sum ← checked_add high middle;
   sequence ← checked_add sum patch;
   if (0 <? sequence) && (sequence <=? MAX_SAFE_INTEGER) then Some sequence else None) = Some sequence ->
  exists a b c, major = decimal a /\ minor = decimal b /\ patch = decimal c /\
    0 <= a /\ 0 <= b < 1000000 /\ 0 <= c < 1000000 /\
    sequence = a * 1000000000000 + b * 1000000 + c /\ 0 < sequence <= MAX_SAFE_INTEGER.
Proof.
  destruct (tag_component major) as [a|] eqn:Ea; [|done]. destruct (tag_component minor) as [b|] eqn:Eb; [|done].
  destruct (tag_component patch) as [c|] eqn:Ec; [|done]. cbn [mbind option_bind].
  apply tag_component_spec in Ea as [-> ?], Eb as [-> ?], Ec as [-> ?].
  destruct (_ || _) eqn:E; [done|]. zbool. unfold checked_mul, checked_add, MAJOR_BASE, COMPONENT_BASE in *.
  repeat (case_match; cbn [mbind option_bind]; try done). intros [= <-]. zbool. exists a, b, c. split_and!; lia || done.
Qed.

(** A gateway tag has a sequence number exactly when it is [v<major>.<minor>.<patch>]
    in decimal without leading zeros with minor and patch below a million, and the number
    is the three components in base one million, positive and within 2^53 - 1; so tags
    and their order are recovered from the numbers. *)
Theorem release_tags_exact tag sequence :
  gateway_release_sequence tag = Some sequence <->
  exists major minor patch,
    tag = version_tag major minor patch /\
    0 <= major /\ 0 <= minor < 1000000 /\ 0 <= patch < 1000000 /\
    sequence = major * 1000000000000 + minor * 1000000 + patch /\
    0 < sequence <= MAX_SAFE_INTEGER.
Proof.
  split.
  - intros Hs. unfold gateway_release_sequence in Hs. destruct tag as [|b rest]; [done|].
    case_bool_decide; subst; [cbn [mbind option_bind] in Hs|done].
    destruct (split_dots_join rest) as (major & parts & Ep & ->). rewrite Ep in Hs. clear Ep.
    destruct parts as [|minor [|patch [|extra parts]]]; [done|done| |].
    + destruct (release_numbers _ _ _ _ Hs) as (a & b & c & -> & -> & -> & Hr). exists a, b, c.
      split; [|done]. cbn [fmap list_fmap concat]. by rewrite app_nil_r.
    + exfalso. destruct (tag_component major), (tag_component minor), (tag_component patch); done.
  - intros (major & minor & patch & -> & Ha & Hb & Hc & -> & Hs). unfold MAX_SAFE_INTEGER in Hs.
    assert (forall n, 0 <= n <= u64_max -> forallb is_digit (decimal n) = true) as Hd.
    { intros n Hn. apply decimal_is_canonical. unfold u64_max in Hn. lia. }
    unfold gateway_release_sequence, version_tag. rewrite bool_decide_true by done. cbn [mbind option_bind].
    rewrite !split_dots_digits, split_dots_last by (apply Hd; unfold u64_max; lia).
    rewrite !tag_component_decimal by (unfold u64_max; lia). cbn [mbind option_bind].
    unfold COMPONENT_BASE, MAJOR_BASE, COMPONENT_BASE, checked_mul, checked_add, u64_max.
    rewrite (proj2 (Z.leb_gt _ _)), (proj2 (Z.leb_gt 1000000 patch)) by lia. cbn [orb negb zlen].
    do 4 (rewrite (proj2 (Z.leb_le _ _)) by lia; cbn [mbind option_bind]).
    rewrite (proj2 (Z.ltb_lt _ _)), (proj2 (Z.leb_le _ _)) by (unfold MAX_SAFE_INTEGER; lia). done.
Qed.

(** ** Authenticity *)

Section Authentic.
Context `{Json} `{Base64} `{Signatures} `{Hash} `{Encodings} `{Sigstore}.

(** What the offline verifier confirmed about a build. *)
Definition github_proof (a : VerifiedApprovals) (provenance : Value) (subjects : list (bytes * bytes))
    (policy : GithubPolicy) (now time : Z) : Prop :=
  exists seconds, time = seconds * 1000 /\
    verify_github_attestation (vs_trusted_root (va_sigstore a)) (json_to_vec provenance) subjects policy now
    = Some seconds.

Lemma github_provenance_inv trust b subjects policy now context time provenance :
  verify_github_provenance trust b subjects policy now context = Ok (time, provenance) ->
  provenance = Github /\ exists seconds, time = Some (seconds * 1000) /\
    verify_github_attestation trust b subjects policy now = Some seconds.
Proof.
  unfold verify_github_provenance, ok_or, checked_mul_1000. intros. case_all; eauto.
Qed.

Lemma accepts_production a provenance :
  accepts_provenance a provenance = true ->
  provenance = Github \/ provenance = StagingProvenance /\ km_environment (va_keys a) = Staging.
Proof. unfold accepts_provenance. destruct (km_environment _), provenance; auto; done. Qed.

Lemma manifest_shape_tag m :
  gateway_release_manifest_shape_is_valid m = true ->
  gateway_release_sequence (rs_tag (gm_source m)) = Some (gm_sequence m) /\
  is_lower_hex (gs_launch_measurement (gm_sev_snp m)) 48 = true /\
  is_lower_hex (ra_sha256 (gm_gateway_igvm m)) 32 = true.
Proof. unfold gateway_release_manifest_shape_is_valid. cbv zeta. intros. zbool. done. Qed.

(** C21. A gateway release that a decision accepts has a well-formed tag that gives its
    sequence number and launch policies that are among its measured build inputs; its
    launch measurement and image digest are the manifest's, and either the offline
    verifier confirmed, under the decision's Sigstore keys, a build proof of this very
    manifest text and image by the release workflow at that tag and commit, or the
    decision is a staging one and the proof a placeholder: production never takes that. *)
Theorem gateway_release_authentic a release now v :
  verify_gateway a release now = Ok v ->
  let m := ev_document release in
  (exists text policies,
     canonical_json (GatewayReleaseManifest_to_value m) = Some text /\
     vl_release_manifest_sha256 v = hex_encode (sha256 text) /\
     canonical_json (LaunchPolicies_to_value (vl_launch_policies v)) = Some policies /\
     bm_get (gb_input_sha256 (gm_build m)) LAUNCH_POLICY_INPUT = Some (hex_encode (sha256 policies))) /\
  gateway_release_sequence (vl_release_tag v) = Some (vl_sequence v) /\
  vl_release_tag v = rs_tag (gm_source m) /\
  vl_launch_policies v = gs_launch_policies (gm_sev_snp m) /\
  vl_measurement v = gs_launch_measurement (gm_sev_snp m) /\ is_lower_hex (vl_measurement v) 48 = true /\
  vl_igvm_sha256 v = ra_sha256 (gm_gateway_igvm m) /\
  ((exists time, vl_provenance v = Github /\ vl_github_integrated_time_unix_ms v = Some time /\
      github_proof a (ev_provenance release) (gateway_subjects m (vl_release_manifest_sha256 v))
        (release_policy (gm_source m) GATEWAY_WORKFLOW) now time) \/
   km_environment (va_keys a) = Staging /\ vl_provenance v = StagingProvenance).
Proof.
  intros Hv m. unfold verify_gateway, verify_gateway_release, map_err in Hv. fold m in Hv.
  destruct (validate_gateway_release_manifest m) as [?|] eqn:Hm; [|done].
  destruct (release_manifest_sha256 _) as [digest|] eqn:Hd; [|done].
  destruct (verify_release_provenance _ _ _ _ _) as [[time provenance]|] eqn:Hp; [|done].
  destruct (negb _) eqn:Ha in Hv; [done|]. zbool. simplify_eq. cbn [vl_provenance] in Ha. cbn.
  unfold release_manifest_sha256, validate_gateway_release_manifest, ok_or in Hd, Hm.
  destruct (negb (gateway_release_manifest_shape_is_valid m)) eqn:Hs; [done|]. zbool.
  apply manifest_shape_tag in Hs as (? & ? & ?). split_and!; try done.
  - case_all. zbool. by do 2 eexists.
  - apply accepts_production in Ha as [->|[-> ?]]; [left|by right].
    unfold verify_release_provenance in Hp. destruct (is_staging_development_provenance _ _) as [[]|]; try done.
    apply github_provenance_inv in Hp as (_ & seconds & -> & E). unfold github_proof. eauto 10.
Qed.

End Authentic.
