(* ===== verification/Provenance.v ===== *)
(** Releases under the modelled Sigstore verifier: what an accepted SDK release or gateway
    release shows about the build that made it. *)

From S2P Require Import Prelude Primitives BTree Text Json Signing Attestation Documents Deserialize Approvals ApprovalsTheory Snp SnpTheory Schemes TrustRoot Tlog Tuf Bundles SdkRelease Releases.

Open Scope Z_scope.

(** ** Manifests *)

Definition lowercase_hex (n : nat) (value : bytes) : Prop :=
  length value = n /\ Forall (fun b => b ∈ ascii "0123456789abcdef") value.

Definition alphanumeric : bytes := ascii "ABCDEFGHIJKLMNOPQRSTUVWXYZabcdefghijklmnopqrstuvwxyz0123456789".

(** A name of a file: up to 200 characters that mean nothing in a path. *)
Definition file_name (value : bytes) : Prop :=
  zlen value <= 200 /\ Forall (fun b => b ∈ alphanumeric ++ ascii "._+-") value /\
  exists first rest, value = first :: rest /\ first ∈ alphanumeric.

(** A file of a release: not one of its four documents, and of 1 byte to 2 GiB. *)
Record artifact_wf (a : Artifact) : Prop := {
  aw_name : file_name (at_name a);
  aw_other : at_name a ∉ [ascii "release-manifest.json"; ascii "github-attestation.jsonl"; ascii "stogas-signature.json";
                          ascii "qualification.json"];
  aw_sha256 : lowercase_hex 64 (at_sha256 a);
  aw_size : at_size a <> 0 /\ at_size a <= 2147483648
}.

Definition names_increase (names : list bytes) : Prop := StronglySorted (fun a b => bytes_ltb a b = true) names.

(** A well-formed production manifest. *)
Record sdk_manifest_wf (m : Manifest) : Prop := {
  sw_schema : mf_schema m = ascii "stogas.sdk-release.v1" /\ mf_environment m = Production;
  sw_source : so_dirty (mf_source m) = false /\ lowercase_hex 40 (so_commit (mf_source m)) /\
    lowercase_hex 64 (so_sha256 (mf_source m)) /\ so_epoch (mf_source m) <= 4294967295;
  sw_names : file_name (mf_version m) /\ Forall file_name (mf_targets m);
  sw_nonempty : mf_artifacts m <> [] /\ mf_targets m <> [];
  sw_sorted : names_increase (mf_targets m) /\ names_increase (at_name <$> mf_artifacts m);
  sw_artifacts : Forall artifact_wf (mf_artifacts m)
}.

Lemma lower_hex_digit_iff b : lower_hex_digit b = true <-> b ∈ ascii "0123456789abcdef".
Proof.
  assert (lower_hex_digit b = bool_decide (b ∈ ascii "0123456789abcdef")) as -> by (destruct b; vm_compute; reflexivity).
  apply bool_decide_eq_true.
Qed.

Lemma alphanumeric_iff b : is_ascii_alphanumeric b = true <-> b ∈ alphanumeric.
Proof.
  assert (is_ascii_alphanumeric b = bool_decide (b ∈ alphanumeric)) as -> by (destruct b; vm_compute; reflexivity).
  apply bool_decide_eq_true.
Qed.

Lemma forallb_iff {A} (f : A -> bool) (P : A -> Prop) l :
  (forall x, f x = true <-> P x) -> forallb f l = true <-> Forall P l.
Proof.
  intros Hf. induction l as [|x l IH]; cbn; [by split; [constructor|]|]. by rewrite andb_true_iff, Forall_cons, Hf, IH.
Qed.

Lemma hex_digest_iff value n : hex_digest value (Z.of_nat n) = true <-> lowercase_hex n value.
Proof.
  unfold hex_digest, lowercase_hex. rewrite andb_true_iff, Z.eqb_eq, (forallb_iff _ _ _ lower_hex_digit_iff). unfold zlen. by rewrite Nat2Z.inj_iff.
Qed.

Lemma safe_name_iff value : safe_name value = true <-> file_name value.
Proof.
  unfold safe_name, file_name. destruct value as [|first rest]; [split; [done|by intros (_ & _ & ? & ? & ? & _)]|].
  rewrite !andb_true_iff, Z.leb_le, alphanumeric_iff.
  rewrite (forallb_iff _ (fun b => b ∈ alphanumeric ++ ascii "._+-")); [naive_solver|].
  intros b. by rewrite orb_true_iff, alphanumeric_iff, bool_decide_eq_true, elem_of_app.
Qed.

Lemma ascending_iff l : ascending l = true <-> names_increase l.
Proof.
  unfold names_increase. split.
  - intros Ha. apply Sorted_StronglySorted; [intros a b c; apply bytes_ltb_trans|].
    induction l as [|x l IH]; [constructor|]. destruct l as [|y l]; [repeat constructor|].
    cbn [ascending] in Ha. apply andb_true_iff in Ha as [Hx Ha]. constructor; [by apply IH|by constructor].
  - induction 1 as [|x l Hs IH Hf]; [done|]. destruct l as [|y l]; [done|]. cbn [ascending].
    apply Forall_cons in Hf as [Hf _]. by rewrite Hf.
Qed.

Lemma valid_artifact_iff a : valid_sdk_artifact a = true <-> artifact_wf a.
Proof.
  unfold valid_sdk_artifact. rewrite !andb_true_iff, negb_true_iff, negb_true_iff, Z.leb_le, Z.eqb_neq, safe_name_iff.
  rewrite bool_decide_eq_false. change (sha256_digest (at_sha256 a)) with (hex_digest (at_sha256 a) (Z.of_nat 64)).
  rewrite hex_digest_iff. split; [intros ((((? & ?) & ?) & ?) & ?); by split|]. by intros [? ? ? [? ?]].
Qed.

Lemma validate_manifest_exact m : validate_manifest m = Ok tt <-> sdk_manifest_wf m.
Proof.
  assert (forall b : bool, (if b then Err (AInvalid (ascii "invalid production SDK release manifest")) else Ok tt) = Ok tt
    <-> b = false) as Hb by (by intros []).
  unfold validate_manifest. rewrite Hb, !orb_false_iff, !negb_false_iff, !zlen_nil_iff, !bool_decide_eq_true,
    !bool_decide_eq_false, !ascending_iff, safe_name_iff, Z.ltb_ge.
  rewrite (forallb_iff _ _ _ safe_name_iff), (forallb_iff _ _ _ valid_artifact_iff).
  change (sha256_digest (so_sha256 (mf_source m))) with (hex_digest (so_sha256 (mf_source m)) (Z.of_nat 64)).
  change 40 with (Z.of_nat 40). rewrite !hex_digest_iff.
  split; [intros H; destruct_and! H; by split|]. by intros [[? ?] (? & ? & ? & ?) [? ?] [? ?] [? ?] ?].
Qed.

Lemma names_increase_nodup l : names_increase l -> NoDup l.
Proof.
  induction 1 as [|x l _ IH Hf]; constructor; [|done]. intros Hin. rewrite Forall_forall in Hf. apply Hf in Hin.
  by rewrite bytes_ltb_irrefl in Hin.
Qed.

Section Provenance.
Context `{Json} `{Base64} `{Signatures} `{Hash} `{Encodings} `{SchemePrimitives} `{RekorPrimitives} `{Pki}.

(** The files compiled into the verifier. *)
Context (trusted_root_json tuf_root_json : bytes).

#[local] Instance compiled_sigstore : Sigstore := offline_sigstore trusted_root_json tuf_root_json.

Lemma to_option_ok {A E} (r : result A E) a : to_option r = Some a <-> r = Ok a.
Proof. destruct r; simpl; split; congruence. Qed.

Lemma offline_attestation trust b subjects policy now time :
  verify_github_attestation trust b subjects policy now = Some time ->
  exists v, sigstore_github_attestation trust b subjects policy now = Ok v /\ vt_integrated_time v = time.
Proof. cbn. intros (v & Hv%to_option_ok & ->)%fmap_Some. by exists v. Qed.

(** ** Gateway releases *)

(** The documents of an attestation file: the whole text, or one of its lines. *)
Definition document_of (attestation : bytes) (value : Value) : Prop :=
  strict_json attestation = Some value \/
  exists text line, from_utf8 attestation = Some text /\ line ∈ lines text /\ strict_json line = Some value.

(** The build behind a release: a document of the attestation file is an attested statement
    of the predicate that names exactly these files, by the workflow and at the commit of
    the certificate policy. *)
Definition built_by (trust : RootKeys) (attestation : bytes) (subjects : list (bytes * bytes)) (predicate : bytes)
    (policy : CertificatePolicy) (now time : Z) : Prop :=
  exists value v, document_of attestation value /\ vt_integrated_time v = time /\
    statement_for trust value subjects predicate policy now v.

Lemma parse_documents_sound b documents value :
  parse_bundle_documents b = Ok documents -> value ∈ documents -> document_of b value.
Proof.
  unfold parse_bundle_documents. destruct (strict_json b) as [v|] eqn:E.
  - intros [= <-] ->%list_elem_of_singleton. by left.
  - intros Hv Hin. pass Hv as text by Ht. pass Hv by Hn. apply mapR_ok in Hv. right.
    apply list_elem_of_lookup in Hin as [i Hi]. destruct (Forall2_lookup_r _ _ _ _ _ Hv Hi) as (line & Hl & Hp).
    apply ok_or_ok in Hp. apply list_elem_of_lookup_2, list_elem_of_In, filter_In in Hl as [Hl _].
    exists text, line. by rewrite list_elem_of_In.
Qed.

Lemma offline_built_by trust b subjects policy now time :
  verify_github_attestation trust b subjects policy now = Some time ->
  built_by trust b subjects (gp_predicate_type policy) (github_certificate_policy policy) now time.
Proof.
  intros (v & Hv & <-)%offline_attestation. unfold sigstore_github_attestation, verify_single_attestation in Hv.
  pass Hv by Hl. pass Hv as documents by Hd. apply single_loop_sound in Hv as (before & value & after & -> & Hval & _).
  exists value, v. split_and!; [|done|by apply verify_statement_sound].
  eapply parse_documents_sound; [exact Hd|]. apply elem_of_app. right. by left.
Qed.

(** A gateway release accepted outside staging was built as it says: the modelled offline
    verifier has an in-toto statement, signed under a certificate for the release workflow
    at the manifest's tag and commit on a GitHub-hosted runner and logged in Rekor, whose
    subjects are exactly the canonical manifest and the gateway image it names. *)
Theorem gateway_build_attested a release now v :
  verify_gateway a release now = Ok v -> km_environment (va_keys a) = Production ->
  let m := ev_document release in
  exists text seconds, canonical_json (GatewayReleaseManifest_to_value m) = Some text /\
    built_by (vs_trusted_root (va_sigstore a)) (json_to_vec (ev_provenance release))
      [(ascii "release-manifest.json", hex_encode (sha256 text)); (ascii "gateway.igvm", ra_sha256 (gm_gateway_igvm m))]
      (gp_predicate_type (release_policy (gm_source m) GATEWAY_WORKFLOW))
      (github_certificate_policy (release_policy (gm_source m) GATEWAY_WORKFLOW)) now seconds.
Proof.
  intros Hv He m. unfold verify_gateway, verify_gateway_release, map_err in Hv. fold m in Hv.
  destruct (validate_gateway_release_manifest m) as [?|] eqn:Hm; [|done].
  destruct (release_manifest_sha256 _) as [digest|] eqn:Hd; [|done].
  destruct (verify_release_provenance _ _ _ _ _) as [[time provenance]|] eqn:Hp; [|done].
  destruct (negb _) eqn:Ha in Hv; [done|]. zbool. simplify_eq. cbn [vl_provenance] in Ha.
  apply accepts_production in Ha as [->|[_ ?]]; [|congruence]. unfold release_manifest_sha256 in Hd.
  unfold verify_release_provenance in Hp. destruct (is_staging_development_provenance _ _) as [[]|]; try done.
  apply github_provenance_inv in Hp as (_ & seconds & -> & E). apply offline_built_by in E.
  destruct (canonical_json (GatewayReleaseManifest_to_value m)) as [text|]; [|done]. simpl in Hd. injection Hd as <-.
  by exists text, seconds.
Qed.

(** ** SDK releases *)

(** The names of a release's files are distinct and acceptable as subjects. *)
Lemma sdk_subjects_valid `{!HashLaws} m manifest qualification :
  sdk_manifest_wf m ->
  Forall valid_subject (sdk_release_subjects m manifest qualification) /\
  NoDup (sdk_release_subjects m manifest qualification).*1.
Proof.
  intros [_ _ _ _ [_ Hs] Hf]. unfold sdk_release_subjects. split.
  - apply Forall_app. split.
    + apply Forall_fmap. eapply Forall_impl; [exact Hf|]. intros a Ha. split; cbn.
      * destruct (aw_name a Ha) as (_ & _ & first & rest & -> & _). done.
      * apply (hex_digest_iff _ 64), (aw_sha256 a Ha).
    + repeat constructor; cbn; try done; apply hex_encode_lower, sha256_length.
  - rewrite fmap_app, <- list_fmap_compose. cbn. apply NoDup_app. split_and!; [by apply names_increase_nodup|..].
    + intros x (a & -> & Ha)%list_elem_of_fmap. rewrite Forall_forall in Hf. apply Hf, aw_other in Ha.
      unfold MANIFEST, QUALIFICATION. set_solver.
    + apply (bool_decide_unpack _). vm_compute. exact I.
Qed.

(** A Stogas signature over a document: the canonical text under the domain of signatures. *)
Definition stogas_signature_by (key_id public_key : bytes) (document : Value) (signature : StogasSignature) : Prop :=
  ssg_key_id signature = key_id /\ exists payload, json_canonical document = Some payload /\
  verify_stogas_signature public_key (STOGAS_SIGNATURE_DOMAIN ++ payload) (ssg_signature signature) = true.

(** A signed document in the log, with its signature. *)
Definition signed_document_logged (trust : RootKeys) (document : Value) (signature : StogasSignature) (inclusion : Value)
    (now time : Z) : Prop :=
  exists artifact,
    canonical_json (JObject [(ascii "document", document); (ascii "signature", StogasSignature_to_value signature)])
      = Some artifact /\ document_logged trust (json_to_vec inclusion) artifact now time.

(** The Stogas signature over a release: by the active key of a production key manifest that
    the compiled root signed and the log recorded, and which had not expired when the log
    recorded the release. *)
Record stogas_signed (root_json : bytes) (trust : RootKeys) (m : Manifest) (signed : SdkSignature) (now : Z) : Prop := {
  sg_published : exists published root keys keys_published expiry,
    signed_document_logged trust (Manifest_to_value m) (sk_signature signed) (sk_inclusion signed) now published /\
    (json_tree root_json ≫= RootKey_from_value) = Some root /\
    (strict_json (json_to_vec (LoggedDocument_to_value KeyManifest_to_value (sk_keys signed)))
       ≫= SignedKeyManifest_from_value) = Some keys /\
    km_schema (ld_document keys) = KEY_MANIFEST_SCHEMA /\ km_environment (ld_document keys) = Production /\
    stogas_signature_by (rk_key_id root) (rk_public_key root) (KeyManifest_to_value (ld_document keys)) (ld_signature keys) /\
    signed_document_logged trust (KeyManifest_to_value (ld_document keys)) (ld_signature keys) (ld_inclusion keys)
      (published * 1000) keys_published /\
    KeyManifest_expiry_unix_ms (ld_document keys) = Ok expiry /\
    keys_published * 1000 < expiry /\ published * 1000 < expiry /\
    stogas_signature_by (ok_key_id (km_active_key (ld_document keys))) (ok_public_key (km_active_key (ld_document keys)))
      (Manifest_to_value m) (sk_signature signed)
}.

Lemma offline_inclusion document signature inclusion trust now time :
  verify_document_inclusion document signature inclusion trust now = Ok time ->
  signed_document_logged trust document signature inclusion now time.
Proof.
  unfold verify_document_inclusion. intros Hv. pass Hv as artifact by Ha. apply ok_or_ok, to_option_ok in Hv.
  apply document_inclusion_sound in Hv as (_ & _ & Hv). by exists artifact.
Qed.

Lemma verify_keys_sound authority b trust now vk :
  ApprovalVerifier_verify_keys authority b trust now = Ok vk ->
  exists keys published expiry,
    (strict_json b ≫= SignedKeyManifest_from_value) = Some keys /\ vk_document vk = ld_document keys /\
    km_schema (ld_document keys) = KEY_MANIFEST_SCHEMA /\ km_environment (ld_document keys) = av_environment authority /\
    stogas_signature_by (rk_key_id (av_root authority)) (rk_public_key (av_root authority))
      (KeyManifest_to_value (ld_document keys)) (ld_signature keys) /\
    signed_document_logged trust (KeyManifest_to_value (ld_document keys)) (ld_signature keys) (ld_inclusion keys)
      now published /\
    KeyManifest_expiry_unix_ms (ld_document keys) = Ok expiry /\ published * 1000 < expiry.
Proof.
  unfold ApprovalVerifier_verify_keys, validate_keys. intros Hv. pass Hv by Hl. pass Hv as value by Hj.
  pass Hv as keys by Hk. pass Hv as ? by Hvalid. pass Hv as ? by Hs. pass Hv as published by Hp. pass Hv as ms by Hms.
  pass Hv as expiry by Hx. pass Hv by Hnow. pass Hv as digest by Hd. injection Hv as <-. destruct_units.
  pass Hvalid by Hschema. pass Hvalid by Henv. zbool. apply verify_signature_ok in Hs. apply offline_inclusion in Hp.
  unfold checked_mul_1000 in Hms. destruct (_ && _); [|done]. injection Hms as <-.
  exists keys, published, expiry. split_and!; try done. by rewrite Hj.
Qed.

(** What the release workflow's certificate says for a version and its commit. *)
Definition release_certificate (m : Manifest) : CertificatePolicy := {|
  cp_identity := ascii "https://github.com/StogasAI/stogas/.github/workflows/release.yml@refs/tags/v" ++ mf_version m;
  cp_issuer := ascii "https://token.actions.githubusercontent.com";
  cp_extensions := [(ascii "1.3.6.1.4.1.57264.1.12", ascii "https://github.com/StogasAI/stogas");
                    (ascii "1.3.6.1.4.1.57264.1.13", so_commit (mf_source m));
                    (ascii "1.3.6.1.4.1.57264.1.14", ascii "refs/tags/v" ++ mf_version m);
                    (ascii "1.3.6.1.4.1.57264.1.11", ascii "github-hosted")] |}.

(** The files of a release: its artifacts, its manifest and its test report. *)
Definition release_files (m : Manifest) (manifest_bytes qualification : bytes) : list (bytes * bytes) :=
  ((fun a => (at_name a, at_sha256 a)) <$> mf_artifacts m)
  ++ [(ascii "release-manifest.json", hex_encode (sha256 manifest_bytes));
      (ascii "qualification.json", hex_encode (sha256 qualification))].

(** C22. An SDK release is accepted only as Stogas and GitHub made it. The manifest is a
    well-formed production manifest read from these bytes. The active key of a key manifest
    that the compiled root signed, which had not expired when the log recorded the release,
    signed it. A document of these attestation bytes carries a statement that names exactly
    the artifacts, these manifest bytes and this test report, signed by the key of the
    certificate in that document: its one critical name is the release workflow at the
    version's tag, its issuer is GitHub's, it names the repository, the manifest's commit,
    the tag and a GitHub-hosted runner, its chain ends in a Fulcio authority of the compiled
    root, a certificate log signed its precertificate, and Rekor recorded statement,
    signature and certificate while it was valid. *)
Theorem sdk_release_sound root_json manifest_bytes attestation qualification signature now m :
  sdk_release_verify root_json manifest_bytes attestation qualification signature now = Ok m ->
  (strict_json manifest_bytes ≫= Manifest_from_value) = Some m /\ sdk_manifest_wf m /\
  exists trust signed seconds,
    RootKeys_complete trusted_root_json = Ok trust /\
    (strict_json signature ≫= SdkSignature_from_value) = Some signed /\
    stogas_signed root_json trust m signed now /\
    built_by trust attestation (release_files m manifest_bytes qualification) (ascii "https://slsa.dev/provenance/v1")
      (release_certificate m) now seconds.
Proof.
  unfold sdk_release_verify. intros Hv. pass Hv by Hl. pass Hv as manifest by Hm. pass Hv as ? by Hvalid.
  pass Hv as signed by Hs. pass Hv as trust by Ht. pass Hv as published by Hpub. pass Hv as ms by Hms. pass Hv as root by Hr.
  pass Hv as authority by Ha. pass Hv as keys by Hk. pass Hv as ? by Hsig. pass Hv as seconds by Hatt. injection Hv as ->.
  destruct_units. apply validate_manifest_exact in Hvalid. apply to_option_ok in Ht. apply offline_built_by in Hatt.
  split_and!; [done|done|]. exists trust, signed, seconds. split_and!; [done|done| |exact Hatt].
  apply offline_inclusion in Hpub. apply verify_signature_ok in Hsig.
  unfold checked_mul_1000 in Hms. destruct (_ && _); [|done]. injection Hms as <-.
  unfold ApprovalVerifier_new in Ha. pass Ha as der by Hder. injection Ha as <-.
  unfold verify_key_manifest, observe_keys in Hk. destruct (ApprovalVerifier_verify_keys _ _ _ _) as [vk|] eqn:Hvk; [|done].
  destruct (KeyState_learn _ _) as [state r]. cbn in Hk. pass Hk as vk' by Hvk'. destruct r; [|done]. injection Hvk' as ->.
  pass Hk as expiry by Hx. pass Hk by Hnow. injection Hk as <-. zbool.
  apply verify_keys_sound in Hvk as (doc & kp & expiry' & Hdoc & Hvd & Hsch & Henv & Hby & Hlog & Hx' & Hkp).
  rewrite Hvd in *. constructor. exists published, root, doc, kp, expiry. rewrite Hx in Hx'. injection Hx' as <-.
  split_and!; done.
Qed.

End Provenance.
