(* ===== verification/Amd.v ===== *)
(** AMD certificates: the collateral rows, the certificate chain, the VCEK extensions and
    the report signature of [lib.rs]. The X.509 parser, the [sev] crate's chain check and
    the signature primitives are parameters. *)

From S2P Require Import Prelude Primitives BTree Text Json Signing Attestation Documents Deserialize Approvals Snp.

Open Scope Z_scope.

(** ** What the X.509 parser returns *)

Inductive ParsedExtension : Type :=
| AuthorityKeyIdentifier (key_identifier : option bytes)
| SubjectKeyIdentifier (key_identifier : bytes)
| CRLNumber
| ParseError
| OtherExtension.

Record X509Extension : Type := {
  xe_oid : bytes;
  xe_critical : bool;
  xe_value : bytes;
  xe_parsed : ParsedExtension
}.

Record AlgorithmIdentifier : Type := { ai_algorithm : bytes; ai_parameters : bytes }.

#[export] Instance AlgorithmIdentifier_eq_dec : EqDecision AlgorithmIdentifier.
Proof. solve_decision. Defined.

(** Times are Unix seconds; [x_public_key] is the raw SubjectPublicKeyInfo. *)
Record X509Certificate : Type := {
  x_public_key : bytes;
  x_subject : bytes;
  x_issuer : bytes;
  x_signature_algorithm : AlgorithmIdentifier;
  x_tbs_signature : AlgorithmIdentifier;
  x_raw_serial : bytes;
  x_not_before : Z;
  x_not_after : Z;
  x_extensions : list X509Extension
}.

Record RevokedCertificate : Type := { rc_raw_serial : bytes; rc_extensions : list X509Extension }.

(** [rl_number] is the number's big-endian bytes. *)
Record CertificateRevocationList : Type := {
  rl_issuer : bytes;
  rl_signature_algorithm : AlgorithmIdentifier;
  rl_tbs_signature : AlgorithmIdentifier;
  rl_tbs : bytes;
  rl_signature : bytes;
  rl_last_update : Z;
  rl_next_update : option Z;
  rl_extensions : list X509Extension;
  rl_number : option bytes;
  rl_revoked : list RevokedCertificate
}.

(** RSASSA-PSS parameters: hash, mask generation and its hash, salt, trailer. *)
Record PssParameters : Type := {
  ps_hash : bytes;
  ps_mask : option (bytes * bytes);
  ps_salt_length : Z;
  ps_trailer_field : Z
}.
Inductive SignatureAlgorithm : Type := RSASSA_PSS (parameters : PssParameters) | OtherAlgorithm.

(** Parsers return the unread bytes. [sev_certificate] and [sev_chain] parse, the
    [_verify] functions check signatures; [p384_key] and [p384_signature] decode a key and
    the two scalars. *)
Class X509 := {
  sha384 : bytes -> bytes;
  parse_x509_certificate : bytes -> option (bytes * X509Certificate);
  parse_x509_crl : bytes -> option (bytes * CertificateRevocationList);
  signature_algorithm : AlgorithmIdentifier -> option SignatureAlgorithm;
  rsa_key : bytes -> bool;
  pss_signature : bytes -> bool;
  pss_sha384_verify (key message signature : bytes) : bool;
  sev_certificate : bytes -> bool;
  sev_self_verify : bytes -> bool;
  sev_chain (ark ask vek : bytes) : bool;
  sev_chain_verify (ark ask vek : bytes) : bool;
  p384_key : bytes -> bool;
  p384_signature (r s : bytes) : bool;
  p384_verify_prehash (key digest r s : bytes) : bool
}.

(** [str::to_lowercase], which depends on the Unicode tables. *)
Class Unicode := { str_to_lowercase : bytes -> bytes }.

(** ** Collateral rows *)

Definition MAX_VENDOR_COLLATERAL : Z := 4096.
Definition MAX_CLOCK_SKEW_MS : Z := 60000.

Record VendorCollateral : Type := {
  vd_chip_id : option bytes;
  vd_collateral_type : bytes;
  vd_fetched_at : bytes;
  vd_payload : list (bytes * Value);
  vd_sha256 : bytes;
  vd_source_url : bytes
}.

Record AmdCollateralEntry : Type := {
  ae_ca_product_name : bytes;
  ae_collateral_type : bytes;
  ae_der : bytes;
  ae_sha256 : bytes;
  ae_chip_id : option bytes;
  ae_reported_tcb : option bytes
}.

Record AmdCollateralStack : Type := { st_ark : bytes; st_ask : bytes; st_vek : bytes }.

Record AmdKdsPayload : Type := {
  kp_ca_product_name : bytes;
  kp_chip_id : option bytes;
  kp_collateral_type : bytes;
  kp_der_base64url : bytes;
  kp_fetched_at : bytes;
  kp_hwid : option bytes;
  kp_product_name : bytes;
  kp_reported_tcb : option bytes;
  kp_schema : bytes;
  kp_sha256 : bytes;
  kp_source : bytes;
  kp_source_url : bytes;
  kp_tcb : option Value
}.

Definition AmdKdsPayload_from_value (v : Value) : option AmdKdsPayload :=
  match struct_values [ascii "ca_product_name"; ascii "chip_id"; ascii "collateral_type"; ascii "der_base64url";
                       ascii "fetched_at"; ascii "hwid"; ascii "product_name"; ascii "reported_tcb";
                       ascii "schema"; ascii "sha256"; ascii "source"; ascii "source_url"; ascii "tcb"] v with
  | Some [ca_product_name; chip_id; collateral_type; der; fetched_at; hwid; product_name; reported_tcb;
          schema; sha; source; source_url; tcb] =>
      ca_product_name ← ca_product_name ≫= as_str;
      chip_id ← as_opt_str chip_id;
      collateral_type ← collateral_type ≫= as_str;
      der ← der ≫= as_str;
      fetched_at ← fetched_at ≫= as_str;
      hwid ← as_opt_str hwid;
      product_name ← product_name ≫= as_str;
      reported_tcb ← as_opt_str reported_tcb;
      schema ← schema ≫= as_str;
      sha ← sha ≫= as_str;
      source ← source ≫= as_str;
      source_url ← source_url ≫= as_str;
      Some {| kp_ca_product_name := ca_product_name; kp_chip_id := chip_id;
              kp_collateral_type := collateral_type; kp_der_base64url := der; kp_fetched_at := fetched_at;
              kp_hwid := hwid; kp_product_name := product_name; kp_reported_tcb := reported_tcb;
              kp_schema := schema; kp_sha256 := sha; kp_source := source; kp_source_url := source_url;
              kp_tcb := match tcb with Some JNull => None | _ => tcb end |}
  | _ => None
  end.

Definition expand_row (payload : list (bytes * Value)) : result VendorCollateral SnpError :=
  let? parsed := ok_or (AmdKdsPayload_from_value (JObject payload)) (InvalidBundle (ascii "invalid AMD collateral: ")) in
  Ok {| vd_chip_id := kp_chip_id parsed; vd_collateral_type := kp_collateral_type parsed;
        vd_fetched_at := kp_fetched_at parsed; vd_payload := payload; vd_sha256 := kp_sha256 parsed;
        vd_source_url := kp_source_url parsed |}.

Definition expand_bundle_vendor_collateral (rows : list (list (bytes * Value)))
  : result (list VendorCollateral) SnpError := mapR expand_row rows.

(** The maps and the digests that [parse_amd_collateral_entries] fills. The map by product
    and type is never iterated. *)
Record AmdEntries : Type := {
  es_common : list ((bytes * bytes) * AmdCollateralEntry);
  es_vceks : list (bytes * AmdCollateralEntry);
  es_hashes : list bytes
}.

Definition common_get (common : list ((bytes * bytes) * AmdCollateralEntry)) (product kind : bytes)
  : option AmdCollateralEntry :=
  snd <$> List.find (fun '(k, _) => bool_decide (k = (product, kind))) common.

Section Amd.
Context `{Json} `{Base64} `{Hash} `{Encodings} `{X509} `{Unicode}.

Definition parse_time (value : bytes) : result Z SnpError :=
  let? (millis, _, _) := ok_or (parse_rfc3339 value) (InvalidBundle (ascii "invalid timestamp: ")) in Ok millis.

Definition amd_platform_key (chip_id reported_tcb : bytes) : bytes :=
  str_to_lowercase (str_trim chip_id) ++ ascii ":" ++ str_to_lowercase (str_trim reported_tcb).

(** One turn of the loop of [parse_amd_collateral_entries]. *)
Definition parse_amd_row (es : AmdEntries) (row : VendorCollateral) : result AmdEntries SnpError :=
  let? payload := ok_or (AmdKdsPayload_from_value (JObject (vd_payload row)))
    (InvalidBundle (ascii "invalid AMD collateral: ")) in
  reject negb (bool_decide (kp_schema payload = ascii "stogas.amd-kds-collateral.v1"))
      || negb (bool_decide (kp_source payload = ascii "amd-kds"))
      || negb (bool_decide (kp_collateral_type payload = vd_collateral_type row))
      || negb (bool_decide (kp_fetched_at payload = vd_fetched_at row))
      || negb (bool_decide (kp_sha256 payload = vd_sha256 row))
      || negb (bool_decide (kp_source_url payload = vd_source_url row))
      || negb (bool_decide (kp_chip_id payload = vd_chip_id row))
    with InvalidBundle (ascii "AMD collateral envelope and payload differ");
  reject negb (bool_decide (vd_collateral_type row ∈ [ascii "ark"; ascii "ask"; ascii "crl"; ascii "vcek"]))
    with InvalidBundle (ascii "unsupported AMD collateral type");
  let? _ := parse_time (vd_fetched_at row) in
  let? der := ok_or (base64url_decode (kp_der_base64url payload))
    (InvalidBundle (ascii "AMD collateral DER is not base64url")) in
  reject negb (bool_decide (hex_encode (sha256 der) = vd_sha256 row))
      || bool_decide (vd_sha256 row ∈ es_hashes es)
    with InvalidBundle (ascii "AMD collateral digest differs or is duplicated");
  let hashes := vd_sha256 row :: es_hashes es in
  let entry := {| ae_ca_product_name := kp_ca_product_name payload;
                  ae_collateral_type := vd_collateral_type row; ae_der := der; ae_sha256 := vd_sha256 row;
                  ae_chip_id := vd_chip_id row;
                  ae_reported_tcb := str_to_lowercase <$> kp_reported_tcb payload |} in
  if bool_decide (ae_collateral_type entry = ascii "vcek") then
    let? chip_id := ok_or (ae_chip_id entry) (InvalidBundle (ascii "AMD VCEK has no chip id")) in
    let? reported_tcb := ok_or (ae_reported_tcb entry) (InvalidBundle (ascii "AMD VCEK has no reported TCB")) in
    let key := amd_platform_key chip_id reported_tcb in
    match bm_get (es_vceks es) key with
    | Some _ => Err (InvalidBundle (ascii "duplicate AMD VCEK platform evidence"))
    | None => Ok {| es_common := es_common es; es_vceks := bm_insert key entry (es_vceks es); es_hashes := hashes |}
    end
  else
    reject bool_decide (is_Some (ae_chip_id entry)) || bool_decide (is_Some (ae_reported_tcb entry))
      with InvalidBundle (ascii "product-scoped AMD evidence has node identity");
    match common_get (es_common es) (ae_ca_product_name entry) (ae_collateral_type entry) with
    | Some _ => Err (InvalidBundle (ascii "duplicate product-scoped AMD evidence"))
    | None => Ok {| es_common := ((ae_ca_product_name entry, ae_collateral_type entry), entry) :: es_common es;
                    es_vceks := es_vceks es; es_hashes := hashes |}
    end.

Definition parse_amd_collateral_entries (rows : list VendorCollateral) : result AmdEntries SnpError :=
  foldR parse_amd_row {| es_common := []; es_vceks := []; es_hashes := [] |} rows.

(** ** DER values *)

Definition parse_der_u8 (value : bytes) : option Z :=
  match value with
  | [x02; x01; b] => if byte_to_Z b <? 128 then Some (byte_to_Z b) else None
  | [x02; x02; x00; b] => if 128 <=? byte_to_Z b then Some (byte_to_Z b) else None
  | _ => None
  end.

Definition parse_der_ia5_string (value : bytes) : option bytes :=
  match value with
  | x16 :: length :: text =>
      if negb (byte_to_Z length =? zlen text) || (128 <=? byte_to_Z length)
         || negb (forallb (fun b => byte_to_Z b <? 128) text)
      then None else Some text
  | _ => None
  end.

Definition parse_der_octet_string (value : bytes) : option bytes :=
  if (zlen value =? 8) || (zlen value =? 64) then Some value else
  match value with
  | x04 :: length :: content =>
      if (byte_to_Z length =? zlen content) && (byte_to_Z length <? 128) then Some content else None
  | _ => None
  end.

(** ** VCEK extensions *)

(** [str::strip_prefix]. *)
Fixpoint strip_prefix (p l : bytes) : option bytes :=
  match p, l with
  | [], _ => Some l
  | x :: p, y :: l => if bool_decide (x = y) then strip_prefix p l else None
  | _ :: _, [] => None
  end.

Definition vcek_name_matches (value : bytes) (profile : AmdProductProfile) : bool :=
  bool_decide (value = pp_product_name profile)
  || match strip_prefix (pp_product_name profile) value ≫= strip_prefix (ascii "-") with
     | Some stepping =>
         negb (zlen stepping =? 0) && (zlen stepping <=? 8) && forallb is_ascii_alphanumeric stepping
     | None => false
     end.

Definition amd_product_from_vcek_name (value : bytes) : option AmdProductProfile :=
  List.find (vcek_name_matches value) AMD_PRODUCT_PROFILES.

Definition AMD_OID : bytes := ascii "1.3.6.1.4.1.3704.1.".
Definition amd_oid (suffix : bytes) : bytes := AMD_OID ++ suffix.

(** The loop that collects the AMD extensions. *)
Fixpoint vcek_extensions (found : list (bytes * bytes)) (extensions : list X509Extension)
  : result (list (bytes * bytes)) SnpError :=
  match extensions with
  | [] => Ok found
  | extension :: rest =>
      match strip_prefix AMD_OID (xe_oid extension) with
      | None => vcek_extensions found rest
      | Some _ =>
          match bm_get found (xe_oid extension) with
          | Some _ => Err (Node (ascii "AMD VCEK extension is duplicated"))
          | None => vcek_extensions (bm_insert (xe_oid extension) (xe_value extension) found) rest
          end
      end
  end.

Definition required (extensions : list (bytes * bytes)) (oid : bytes) : result bytes SnpError :=
  ok_or (bm_get extensions oid) (Node (ascii "AMD VCEK extension is absent")).

Definition tcb_extensions (layout : AmdTcbLayout) : list (bytes * Z) :=
  match layout with
  | Family19h =>
      [(amd_oid (ascii "3.1"), 0); (amd_oid (ascii "3.2"), 1); (amd_oid (ascii "3.4"), 2);
       (amd_oid (ascii "3.5"), 3); (amd_oid (ascii "3.6"), 4); (amd_oid (ascii "3.7"), 5);
       (amd_oid (ascii "3.3"), 6); (amd_oid (ascii "3.8"), 7)]
  | Family1ah =>
      [(amd_oid (ascii "3.9"), 0); (amd_oid (ascii "3.1"), 1); (amd_oid (ascii "3.2"), 2);
       (amd_oid (ascii "3.3"), 3); (amd_oid (ascii "3.5"), 4); (amd_oid (ascii "3.6"), 5);
       (amd_oid (ascii "3.7"), 6); (amd_oid (ascii "3.8"), 7)]
  end.

(** One turn of the loop over the TCB components. *)
Definition check_tcb_extension (extensions : list (bytes * bytes)) (expected_tcb : bytes) (entry : bytes * Z)
  : result unit SnpError :=
  let '(oid, tcb_index) := entry in
  let expected_value := byte_at expected_tcb tcb_index in
  reject negb (tcb_index =? 7) && (127 <? expected_value) with Node (ascii "reported TCB byte exceeds AMD KDS policy");
  let? der := required extensions oid in
  let? value := ok_or (parse_der_u8 der) (Node (ascii "AMD VCEK extension is malformed")) in
  reject negb (value =? expected_value) with Node (ascii "AMD VCEK extension differs");
  Ok tt.

Definition expected_hwid (layout : AmdTcbLayout) (chip : bytes) : result bytes SnpError :=
  match layout with
  | Family19h => Ok chip
  | Family1ah =>
      reject negb (all_zero (slice_from chip 8)) || all_zero (slice_to chip 8)
        with Node (ascii "Family 1Ah report CHIP_ID is not an 8-byte PSN followed by zeros");
      Ok (slice_to chip 8)
  end.

Definition validate_vcek_extensions (vek : X509Certificate) (chip_id reported_tcb : bytes)
  : result AmdProductProfile SnpError :=
  let? expected_tcb := ok_or (hex_decode reported_tcb) (Node (ascii "reported TCB is invalid")) in
  reject negb (zlen expected_tcb =? 8) with Node (ascii "reported TCB has the wrong length");
  let? extensions := vcek_extensions [] (x_extensions vek) in
  let? der := required extensions (amd_oid (ascii "1")) in
  let? struct_version := ok_or (parse_der_u8 der) (Node (ascii "AMD VCEK structVersion is malformed")) in
  let? der := required extensions (amd_oid (ascii "2")) in
  let? product_name := ok_or (parse_der_ia5_string der) (Node (ascii "AMD VCEK productName is malformed")) in
  let? profile := ok_or (amd_product_from_vcek_name product_name)
    (Node (ascii "AMD VCEK productName is unsupported")) in
  reject negb (struct_version =? pp_struct_version profile) with Node (ascii "AMD VCEK structVersion differs for ");
  let? _ := foldR (fun _ entry => check_tcb_extension extensions expected_tcb entry) tt
              (tcb_extensions (pp_tcb_layout profile)) in
  let? chip := ok_or (hex_decode chip_id) (Node (ascii "chip id is invalid")) in
  reject negb (zlen chip =? 64) with Node (ascii "chip id has the wrong length");
  let? hwid := required extensions (amd_oid (ascii "4")) in
  let? certificate_chip := ok_or (parse_der_octet_string hwid) (Node (ascii "AMD VCEK chip id is malformed ")) in
  let? expected_hwid := expected_hwid (pp_tcb_layout profile) chip in
  reject negb (bool_decide (certificate_chip = expected_hwid)) with Node (ascii "AMD VCEK chip id differs");
  Ok profile.

(** ** Certificates and signatures *)

Definition check_interval (label : bytes) (cert : X509Certificate) (created expires : Z) : result unit SnpError :=
  reject (created <? x_not_before cert * 1000) || (x_not_after cert * 1000 <? expires)
    with Node (ascii "AMD " ++ label ++ ascii " is not valid for the complete bundle interval");
  Ok tt.

Definition verify_amd_certificates (collateral : AmdCollateralStack) (chip_id reported_tcb : bytes)
    (bundle_created_at bundle_expires_at : Z) : result unit SnpError :=
  let? (ark_remaining, ark) := ok_or (parse_x509_certificate (st_ark collateral)) (Node (ascii "AMD ARK: ")) in
  let? (ask_remaining, ask) := ok_or (parse_x509_certificate (st_ask collateral)) (Node (ascii "AMD ASK: ")) in
  let? (vek_remaining, vek) := ok_or (parse_x509_certificate (st_vek collateral)) (Node (ascii "AMD VEK: ")) in
  reject negb (zlen ark_remaining =? 0) || negb (zlen ask_remaining =? 0) || negb (zlen vek_remaining =? 0)
    with Node (ascii "AMD certificate collateral contains trailing data");
  let? _ := check_interval (ascii "ARK") ark bundle_created_at bundle_expires_at in
  let? _ := check_interval (ascii "ASK") ask bundle_created_at bundle_expires_at in
  let? _ := check_interval (ascii "VEK") vek bundle_created_at bundle_expires_at in
  let? product := validate_vcek_extensions vek chip_id reported_tcb in
  reject negb (bool_decide (hex_encode (sha384 (x_public_key ark)) = pp_root_spki_sha384 product))
      || negb (bool_decide (x_subject ark = x_issuer ark))
      || negb (bool_decide (x_issuer ask = x_subject ark))
      || negb (bool_decide (x_issuer vek = x_subject ask))
    with Node (ascii "AMD certificate identity chain differs");
  reject negb (sev_chain (st_ark collateral) (st_ask collateral) (st_vek collateral)) with Node (ascii "AMD chain: ");
  reject negb (sev_chain_verify (st_ark collateral) (st_ask collateral) (st_vek collateral))
    with Node (ascii "AMD chain signature: ");
  Ok tt.

Definition RSA_PSS_OID : bytes := ascii "1.2.840.113549.1.1.10".
Definition MGF1_OID : bytes := ascii "1.2.840.113549.1.1.8".
Definition SHA384_OID : bytes := ascii "2.16.840.1.101.3.4.2.2".

Definition verify_amd_crl_signature (crl : CertificateRevocationList) (signer : X509Certificate)
  : result unit SnpError :=
  reject negb (bool_decide (rl_signature_algorithm crl = rl_tbs_signature crl))
      || negb (bool_decide (ai_algorithm (rl_signature_algorithm crl) = RSA_PSS_OID))
    with Node (ascii "AMD CRL must use one matching RSA-PSS signature algorithm");
  let? algorithm := ok_or (signature_algorithm (rl_signature_algorithm crl))
    (Node (ascii "AMD CRL has invalid RSA-PSS signature parameters")) in
  match algorithm with
  | OtherAlgorithm => Err (Node (ascii "AMD CRL must use RSA-PSS with SHA-384"))
  | RSASSA_PSS parameters =>
      let? (mgf, hash) := ok_or (ps_mask parameters) (Node (ascii "AMD CRL has invalid RSA-PSS mask parameters")) in
      reject negb (bool_decide (ps_hash parameters = SHA384_OID))
          || negb (bool_decide (mgf = MGF1_OID)) || negb (bool_decide (hash = SHA384_OID))
          || negb (ps_salt_length parameters =? 48) || negb (ps_trailer_field parameters =? 1)
        with Node (ascii "AMD CRL must use RSA-PSS with SHA-384, MGF1-SHA-384, and a 48-byte salt");
      reject negb (rsa_key (x_public_key signer)) with Node (ascii "AMD CRL signer key: ");
      reject negb (pss_signature (rl_signature crl)) with Node (ascii "AMD CRL signature encoding: ");
      reject negb (pss_sha384_verify (x_public_key signer) (rl_tbs crl) (rl_signature crl))
        with Node (ascii "AMD CRL signature: ");
      Ok tt
  end.

Definition validate_report_product_binding (vek_der report : bytes) : result AmdProductProfile SnpError :=
  let? (remaining, vek) := ok_or (parse_x509_certificate vek_der) (Node (ascii "AMD VEK: ")) in
  reject negb (zlen remaining =? 0) with Node (ascii "AMD VEK contains trailing data");
  let? product_name := ok_or
    (extension ← List.find (fun extension => bool_decide (xe_oid extension = amd_oid (ascii "2"))) (x_extensions vek);
     parse_der_ia5_string (xe_value extension)) (Node (ascii "AMD VCEK productName is malformed")) in
  let? certificate_product := ok_or (amd_product_from_vcek_name product_name)
    (Node (ascii "AMD VCEK productName is unsupported")) in
  let report_version := u32_at report 0 in
  reject (report_version <? 2) || (5 <? report_version) with Node (ascii "unsupported SNP report version");
  let? (_, _, _, report_product) := inspect_report_product report report_version in
  match report_product with
  | Some report_product =>
      if bool_decide (report_product = certificate_product) then Ok certificate_product
      else Err (Node (ascii "AMD VCEK product differs from the report CPUID"))
  | None =>
      if bool_decide (pp_tcb_layout certificate_product = Family19h) then Ok certificate_product
      else Err (Node (ascii "Family 1Ah VCEK requires report CPUID fields"))
  end.

Definition verify_raw_snp_report_signature (report public_key_der : bytes) : result unit SnpError :=
  reject negb (zlen report =? SNP_REPORT_BYTES) with Node (ascii " SNP report has the wrong size");
  reject negb (p384_key public_key_der) with Node (ascii " AMD report signing key: ");
  let signature := slice report 672 1184 in
  reject negb (all_zero (slice signature 48 72)) || negb (all_zero (slice signature 120 144))
      || negb (all_zero (slice_from signature 144))
    with Node (ascii " SNP signature reserved bytes are nonzero");
  let r := rev (slice signature 0 48) in
  let s := rev (slice signature 72 120) in
  reject negb (p384_signature r s) with Node (ascii " SNP signature encoding: ");
  reject negb (p384_verify_prehash public_key_der (sha384 (slice_to report 672)) r s)
    with Node (ascii " SNP signature: ");
  Ok tt.

Definition verify_raw_snp_report_signature_with_vcek (report vcek_der : bytes) : result unit SnpError :=
  let? (remaining, vcek) := ok_or (parse_x509_certificate vcek_der) (Node (ascii " AMD VCEK: ")) in
  reject negb (zlen remaining =? 0) with Node (ascii " AMD VCEK contains trailing data");
  verify_raw_snp_report_signature report (x_public_key vcek).

End Amd.

(** * Theory

    AMD certificates: DER values have one encoding, and a VCEK names one chip and one TCB. *)

(** ** DER *)

Definition der_u8 (n : Z) : bytes :=
  if n <? 128 then [x02; x01; byte_of_Z n] else [x02; x02; x00; byte_of_Z n].

Lemma parse_der_u8_exact value n : parse_der_u8 value = Some n <-> value = der_u8 n /\ 0 <= n < 256.
Proof.
  unfold der_u8. split.
  - unfold parse_der_u8. intros. case_all; zbool;
      match goal with |- context [byte_to_Z ?b] => pose proof (byte_to_Z_range b) end;
      rewrite byte_of_Z_to_Z; split; (done || lia).
  - intros [-> Hn]. destruct (n <? 128) eqn:E; zbool; cbn [parse_der_u8];
      rewrite byte_to_of_Z, Z.mod_small by lia.
    + by rewrite (proj2 (Z.ltb_lt _ _)).
    + by rewrite (proj2 (Z.leb_le _ _)) by lia.
Qed.

(** ** One chip, one TCB *)

Lemma byte_at_inj a b i : byte_at a i = byte_at b i -> nth (Z.to_nat i) a x00 = nth (Z.to_nat i) b x00.
Proof. unfold byte_at. intros E. by rewrite <- (byte_of_Z_to_Z (nth _ a _)), E, byte_of_Z_to_Z. Qed.

Lemma bytes_eq_at (a b : bytes) n :
  zlen a = Z.of_nat n -> zlen b = Z.of_nat n ->
  (forall i, 0 <= i < Z.of_nat n -> byte_at a i = byte_at b i) -> a = b.
Proof.
  unfold zlen. intros Ha Hb Hi. apply (nth_ext _ _ x00 x00); [lia|]. intros k Hk.
  rewrite <- (Nat2Z.id k). apply byte_at_inj, Hi. lia.
Qed.

Lemma foldR_unit {A E} (f : A -> result unit E) l :
  foldR (fun _ x => f x) tt l = Ok tt -> forall x, x ∈ l -> f x = Ok tt.
Proof.
  induction l as [|y l IH]; cbn [foldR]; [by intros _ x ?%not_elem_of_nil|].
  destruct (f y) as [[]|] eqn:Ey; [|done]. intros Hl x [->|Hx]%elem_of_cons; [done|by apply IH].
Qed.

(** Each byte of a TCB has one extension. *)
Lemma tcb_extensions_cover layout i : 0 <= i < 8 -> exists oid, (oid, i) ∈ tcb_extensions layout.
Proof.
  intros Hi. assert (i ∈ (tcb_extensions layout).*2) as Hin.
  { assert (i = 0 \/ i = 1 \/ i = 2 \/ i = 3 \/ i = 4 \/ i = 5 \/ i = 6 \/ i = 7) as Hc by lia.
    destruct layout; cbn; rewrite !elem_of_cons; intuition. }
  apply list_elem_of_fmap in Hin as ([oid j] & -> & Hin). eauto.
Qed.

Lemma check_tcb_agree extensions tcb1 tcb2 entry :
  check_tcb_extension extensions tcb1 entry = Ok tt -> check_tcb_extension extensions tcb2 entry = Ok tt ->
  byte_at tcb1 entry.2 = byte_at tcb2 entry.2.
Proof.
  unfold check_tcb_extension, ok_or. destruct entry as [oid i]. cbn [snd]. intros.
  destruct (required extensions oid) as [der|]; [|by repeat case_match].
  destruct (parse_der_u8 der); case_all. zbool. congruence.
Qed.

Lemma expected_hwid_inj layout chip1 chip2 hwid :
  zlen chip1 = 64 -> zlen chip2 = 64 ->
  expected_hwid layout chip1 = Ok hwid -> expected_hwid layout chip2 = Ok hwid -> chip1 = chip2.
Proof.
  intros L1 L2. unfold expected_hwid. destruct layout; [congruence|].
  destruct (negb (all_zero (slice_from chip1 8)) || _) eqn:E1; [done|].
  destruct (negb (all_zero (slice_from chip2 8)) || _) eqn:E2; [done|]. intros Ha Hb. zbool.
  assert (slice_to chip1 8 = slice_to chip2 8) as E by congruence.
  rewrite <- (slice_to_from chip1 8), <- (slice_to_from chip2 8), E. f_equal.
  assert (forall l : bytes, zlen l = 56 -> all_zero l = true -> l = zeros 56) as Hz.
  { clear. intros l Hl Hz. unfold zeros, zlen in *. replace (Z.to_nat 56) with (length l) by lia.
    symmetry. apply replicate_as_elem_of. split; [done|]. intros b Hb. unfold all_zero in Hz.
    rewrite forallb_forall in Hz. apply list_elem_of_In in Hb. apply Hz in Hb. by zbool. }
  rewrite (Hz (slice_from chip1 8)), (Hz (slice_from chip2 8)); try done; rewrite zlen_slice_from; lia.
Qed.

(** A VCEK certificate names one platform: whatever two texts of chip and TCB it is
    accepted for, they denote the same 64-byte chip and the same eight TCB bytes, and the
    product is the same; no other node's report can be checked with that key. *)
Theorem vcek_identifies_platform vek chip1 tcb1 product1 chip2 tcb2 product2 :
  validate_vcek_extensions vek chip1 tcb1 = Ok product1 ->
  validate_vcek_extensions vek chip2 tcb2 = Ok product2 ->
  product1 = product2 /\
  exists chip tcb, hex_decode chip1 = Some chip /\ hex_decode chip2 = Some chip /\ zlen chip = 64 /\
    hex_decode tcb1 = Some tcb /\ hex_decode tcb2 = Some tcb /\ zlen tcb = 8.
Proof.
  unfold validate_vcek_extensions.
  destruct (hex_decode tcb1) as [t1|]; [|done]. destruct (hex_decode tcb2) as [t2|]; [|by repeat case_match].
  cbn [ok_or]. destruct (negb (zlen t1 =? 8)) eqn:L1; [done|]. destruct (negb (zlen t2 =? 8)) eqn:L2; [done|].
  destruct (vcek_extensions [] _) as [exts|]; [|done].
  destruct (required exts (amd_oid (ascii "1"))) as [d1|]; [|done]. destruct (parse_der_u8 d1) as [sv|]; [|done].
  cbn [ok_or]. destruct (required exts (amd_oid (ascii "2"))) as [d2|]; [|done].
  destruct (parse_der_ia5_string d2) as [name|]; [|done]. cbn [ok_or].
  destruct (amd_product_from_vcek_name name) as [product|]; [|done]. cbn [ok_or].
  destruct (negb (sv =? _)); [done|].
  destruct (foldR (fun _ entry => check_tcb_extension exts t1 entry) tt _) as [[]|] eqn:F1; [|done].
  destruct (foldR (fun _ entry => check_tcb_extension exts t2 entry) tt _) as [[]|] eqn:F2; [|by repeat case_match].
  destruct (hex_decode chip1) as [c1|]; [|done]. destruct (hex_decode chip2) as [c2|]; [|by repeat case_match].
  cbn [ok_or]. destruct (negb (zlen c1 =? 64)) eqn:M1; [done|]. destruct (negb (zlen c2 =? 64)) eqn:M2; [done|].
  destruct (required exts (amd_oid (ascii "4"))) as [hw|]; [|done].
  destruct (parse_der_octet_string hw) as [cc|]; [|done]. cbn [ok_or].
  destruct (expected_hwid _ c1) as [h1|] eqn:X1; [|done]. destruct (expected_hwid _ c2) as [h2|] eqn:X2; [|by repeat case_match].
  destruct (negb (bool_decide (cc = h1))) eqn:Q1; [done|]. destruct (negb (bool_decide (cc = h2))) eqn:Q2; [done|].
  intros [= <-] [= <-]. zbool. subst h1 h2. split; [done|].
  assert (t1 = t2) as <-.
  { apply (bytes_eq_at _ _ 8); [done|done|]. intros i Hi.
    destruct (tcb_extensions_cover (pp_tcb_layout product) i Hi) as (oid & Hin).
    apply (check_tcb_agree exts _ _ (oid, i)); by eapply foldR_unit. }
  assert (c1 = c2) as <- by (by eapply expected_hwid_inj). by exists c1, t1.
Qed.
