(* ===== verification/Collateral.v ===== *)
(** Vendor collateral: [evidence/collateral.rs], the revocation state and the platform
    store of [evidence/amd.rs], and the errors of [evidence.rs]. The map of issuers behind
    its lock is threaded explicitly; a store holds its platforms, and its shared
    revocations are passed where it reads them. *)

From S2P Require Import Prelude Primitives BTree Json Signing Attestation Documents Deserialize Approvals Snp SnpTheory Amd.

Open Scope Z_scope.

(** ** evidence.rs: errors *)

Inductive EvidenceError : Type :=
| EvTooLarge | EvInvalid (reason : bytes) | EvApproval (error : ApprovalError) | EvCollateral (reason : bytes)
| EvMissingCollateral | EvCollateralExpired | EvRevoked | EvCrlOrder | EvAttestation (reason : bytes).

#[export] Instance EvidenceError_eq_dec : EqDecision EvidenceError.
Proof. solve_decision. Defined.

Definition code (e : EvidenceError) : bytes :=
  match e with
  | EvTooLarge | EvApproval ATooLarge => ascii "evidence_too_large"
  | EvMissingCollateral => ascii "missing_collateral"
  | EvCollateralExpired => ascii "expired_collateral"
  | EvRevoked => ascii "revoked"
  | EvCrlOrder => ascii "crl_order"
  | EvApproval ARollback => ascii "rollback"
  | EvApproval AEquivocation => ascii "conflicting_approval"
  | EvApproval (ANotApproved _) => ascii "not_approved"
  | EvApproval AInactiveKey => ascii "key_rejected"
  | EvApproval AAuthority => ascii "wrong_authority"
  | EvApproval AExpired => ascii "expired_key_authorization"
  | EvAttestation _ => ascii "invalid_attestation"
  | EvInvalid _ | EvCollateral _
  | EvApproval (AInvalid _ | ATransparency | ASigstore | ASignature | AEvidence) => ascii "invalid_evidence"
  end.

(** [collateral_error] of a library's or of the crate's own error, by its reason. *)
Definition collateral_error {A} (o : option A) : result A EvidenceError := ok_or o (EvCollateral []).
Definition snp_reason (e : SnpError) : bytes :=
  match e with Node reason | InvalidBundle reason | ReleaseError reason => reason end.
Definition collateral_snp {A} (r : result A SnpError) : result A EvidenceError :=
  map_err (fun e => EvCollateral (snp_reason e)) r.

(** ** collateral.rs *)

Record Validity : Type := { va_not_before : Z; va_not_after : Z }.

#[export] Instance Validity_eq_dec : EqDecision Validity.
Proof. solve_decision. Defined.

Definition Validity_at (v : Validity) (now : Z) : result Validity EvidenceError :=
  reject (now <? va_not_before v) || (va_not_after v <=? now) with EvCollateralExpired;
  Ok v.

Definition Validity_intersect (a b : Validity) : Validity :=
  {| va_not_before := Z.max (va_not_before a) (va_not_before b);
     va_not_after := Z.min (va_not_after a) (va_not_after b) |}.

(** ** amd.rs: revocation lists *)

Record Crl : Type := {
  cr_number : bytes;
  cr_contents : bytes;
  cr_der : bytes;
  cr_validity : Validity;
  cr_revoked : list bytes
}.

Record Issuer : Type := {
  is_certificate : bytes;
  is_latest : option Crl;
  is_conflicting : bool
}.

(** The map behind the lock of [Revocations], by the digest of the issuer's key. *)
Abbreviation Issuers := (list (bytes * Issuer)).

Definition Issuer_learn (issuer : Issuer) (crl : Crl) : Issuer * result unit EvidenceError :=
  let replaced := {| is_certificate := is_certificate issuer; is_latest := Some crl; is_conflicting := false |} in
  match is_latest issuer with
  | None => (replaced, Ok tt)
  | Some old =>
      if bytes_ltb (cr_number crl) (cr_number old) then (issuer, Err EvCrlOrder)
      else if bool_decide (cr_number crl = cr_number old) then
        let issuer :=
          if negb (bool_decide (cr_contents crl = cr_contents old))
          then {| is_certificate := is_certificate issuer; is_latest := Some old; is_conflicting := true |}
          else issuer in
        (issuer, if is_conflicting issuer then Err EvCrlOrder else Ok tt)
      else if va_not_before (cr_validity crl) <? va_not_before (cr_validity old) then (issuer, Err EvCrlOrder)
      else (replaced, Ok tt)
  end.

(** [serial_bytes]: leading zeros are dropped. *)
Fixpoint serial_bytes (serial : bytes) : bytes :=
  match serial with
  | b :: rest => if bool_decide (b = x00) then serial_bytes rest else serial
  | [] => []
  end.

Section Collateral.
Context `{Json} `{Base64} `{Hash} `{Encodings} `{X509} `{Unicode}.

(** Value comparison with a string. *)
Definition value_is (v : Value) (s : bytes) : bool := bool_decide (as_str v = Some s).

Definition row_der (row : Value) : result bytes EvidenceError :=
  let? encoded := ok_or (as_str (value_index row (ascii "der_base64url"))) (EvCollateral (ascii "missing DER")) in
  let? der := collateral_error (base64url_decode encoded) in
  reject negb (value_is (value_index row (ascii "sha256")) (hex_encode (sha256 der)))
    with EvCollateral (ascii "DER digest differs");
  Ok der.

(** The loop over one revoked certificate's extensions, with the identifiers seen. *)
Fixpoint check_revoked_extensions (seen : list bytes) (extensions : list X509Extension)
  : result unit EvidenceError :=
  match extensions with
  | [] => Ok tt
  | extension :: rest =>
      reject bool_decide (xe_oid extension ∈ seen) || xe_critical extension
          || bool_decide (xe_oid extension = ascii "2.5.29.29")
          || match xe_parsed extension with ParseError => true | _ => false end
        with EvCollateral (ascii "unsupported revoked-certificate extension");
      check_revoked_extensions (xe_oid extension :: seen) rest
  end.

(** The loop over the revoked certificates, with the serials found. *)
Fixpoint collect_revoked (revoked : list bytes) (entries : list RevokedCertificate)
  : result (list bytes) EvidenceError :=
  match entries with
  | [] => Ok revoked
  | entry :: rest =>
      let? _ := check_revoked_extensions [] (rc_extensions entry) in
      let serial := serial_bytes (rc_raw_serial entry) in
      reject bool_decide (serial ∈ revoked) with EvCollateral (ascii "duplicate revoked certificate");
      collect_revoked (serial :: revoked) rest
  end.

(** The guard on the encoded CRL number. *)
Definition noncanonical_number (value : bytes) : bool :=
  (zlen value <? 3)
  || negb (byte_at value 0 =? 2)
  || negb (byte_at value 1 =? zlen value - 2)
  || negb (Z.land (byte_at value 2) 128 =? 0)
  || ((3 <? zlen value) && (byte_at value 2 =? 0) && (Z.land (byte_at value 3) 128 =? 0)).

Definition subject_key_matches (ark : X509Certificate) (key : bytes) : bool :=
  existsb (fun extension =>
    match xe_parsed extension with SubjectKeyIdentifier subject => bool_decide (subject = key) | _ => false end)
    (x_extensions ark).

(** The last guard of the match over a CRL extension. *)
Definition check_scope (extension : X509Extension) : result unit EvidenceError :=
  reject xe_critical extension || bool_decide (xe_oid extension ∈ [ascii "2.5.29.27"; ascii "2.5.29.28"])
    with EvCollateral (ascii "unsupported CRL scope or critical extension");
  Ok tt.

(** The match on one CRL extension; the result tells whether it named the authority key. *)
Definition check_crl_extension (ark : X509Certificate) (extension : X509Extension) : result bool EvidenceError :=
  match xe_parsed extension with
  | AuthorityKeyIdentifier key =>
      if negb (xe_critical extension) then
        let? key := ok_or key (EvCollateral (ascii "CRL authority key absent")) in
        reject negb (subject_key_matches ark key) with EvCollateral (ascii "CRL authority key differs");
        Ok true
      else let? _ := check_scope extension in Ok false
  | CRLNumber =>
      if negb (xe_critical extension) then
        reject noncanonical_number (xe_value extension) with EvCollateral (ascii "noncanonical CRL number");
        Ok false
      else let? _ := check_scope extension in Ok false
  | ParseError => Err (EvCollateral (ascii "invalid CRL extension"))
  | _ => let? _ := check_scope extension in Ok false
  end.

Fixpoint check_crl_extensions (ark : X509Certificate) (seen : list bytes) (authority_key_seen : bool)
    (extensions : list X509Extension) : result bool EvidenceError :=
  match extensions with
  | [] => Ok authority_key_seen
  | extension :: rest =>
      reject bool_decide (xe_oid extension ∈ seen) with EvCollateral (ascii "duplicate CRL extension");
      let? named := check_crl_extension ark extension in
      check_crl_extensions ark (xe_oid extension :: seen) (authority_key_seen || named) rest
  end.

Definition crl_number_and_scope (crl : CertificateRevocationList) (ark : X509Certificate)
  : result bytes EvidenceError :=
  let? authority_key_seen := check_crl_extensions ark [] false (rl_extensions crl) in
  reject negb authority_key_seen with EvCollateral (ascii "CRL authority key absent");
  let? encoded_number := ok_or (rl_number crl) (EvCollateral (ascii "CRL number absent")) in
  reject 20 <? zlen encoded_number with EvCollateral (ascii "CRL number too large");
  Ok (zeros (20 - zlen encoded_number) ++ encoded_number).

(** [i64::saturating_add]. *)
Definition saturating_add (a b : Z) : Z := Z.max i64_min (Z.min i64_max (a + b)).

Definition authenticate_crl (ark_der der : bytes) (now : Z) : result Crl EvidenceError :=
  let? (remaining, ark) := collateral_error (parse_x509_certificate ark_der) in
  reject negb (zlen remaining =? 0) with EvCollateral (ascii "ARK trailing bytes");
  let? (remaining, crl) := collateral_error (parse_x509_crl der) in
  reject negb (zlen remaining =? 0) || negb (bool_decide (rl_issuer crl = x_subject ark))
    with EvCollateral (ascii "CRL issuer or framing");
  let? _ := collateral_snp (verify_amd_crl_signature crl ark) in
  let? not_before := ok_or (checked_mul_1000 (rl_last_update crl)) (EvCollateral (ascii "CRL date overflow")) in
  let? next_update := ok_or (rl_next_update crl) (EvCollateral (ascii "CRL nextUpdate absent")) in
  let? not_after := ok_or (checked_mul_1000 next_update) (EvCollateral (ascii "CRL date overflow")) in
  reject (saturating_add now MAX_CLOCK_SKEW_MS <? not_before) || (not_after <=? not_before)
    with EvCollateral (ascii "CRL validity interval");
  let? number := crl_number_and_scope crl ark in
  let? revoked := collect_revoked [] (rl_revoked crl) in
  Ok {| cr_number := number; cr_contents := sha256 (rl_tbs crl); cr_der := der;
        cr_validity := {| va_not_before := not_before; va_not_after := not_after |}; cr_revoked := revoked |}.

(** ** amd.rs: what was observed *)

(** A row whose certificate is a pinned, self-signed AMD root: its identity and its bytes. *)
Definition root_of_row (issuers : Issuers) (row : Value) : option (bytes * bytes) :=
  match row_der row with
  | Err _ => None
  | Ok der =>
      match parse_x509_certificate der with
      | None => None
      | Some (remaining, cert) =>
          let id := sha384 (x_public_key cert) in
          if negb (zlen remaining =? 0)
             || negb (bool_decide (x_subject cert = x_issuer cert))
             || negb (bool_decide (x_signature_algorithm cert = x_tbs_signature cert))
             || negb (existsb (fun profile => bool_decide (pp_root_spki_sha384 profile = hex_encode id))
                        AMD_PRODUCT_PROFILES)
          then None
          else if bool_decide (is_Some (bm_get issuers id)) then None
          else if negb (sev_certificate der) then None
          else if negb (sev_self_verify der) then None
          else Some (id, der)
      end
  end.

(** [entry(id).or_insert_with(...)]. *)
Definition admit_root (issuers : Issuers) (id der : bytes) : Issuers :=
  match bm_get issuers id with
  | Some _ => issuers
  | None => bm_insert id {| is_certificate := der; is_latest := None; is_conflicting := false |} issuers
  end.

Definition observe_roots (issuers : Issuers) (rows : list Value) : Issuers :=
  fold_left (fun issuers row =>
    match root_of_row issuers row with Some (id, der) => admit_root issuers id der | None => issuers end)
    rows issuers.

(** The first critical section of [observe_crl]: the outcome for bytes already held. *)
Definition known_crl (issuers : Issuers) (der : bytes) : option (result unit EvidenceError) :=
  (fun '(_, issuer) => if is_conflicting issuer then Err EvCrlOrder else Ok tt)
  <$> List.find (fun '(_, issuer) => bool_decide (cr_der <$> is_latest issuer = Some der)) issuers.

(** The work between the two critical sections: the first root that authenticates. *)
Fixpoint signing_root (roots : list (bytes * bytes)) (der : bytes) (now : Z) : option (bytes * Crl) :=
  match roots with
  | [] => None
  | (id, root) :: rest =>
      match authenticate_crl root der now with
      | Ok crl => Some (id, crl)
      | Err _ => signing_root rest der now
      end
  end.

(** The second critical section. *)
Definition learn_crl (issuers : Issuers) (id : bytes) (crl : Crl) : Issuers * result unit EvidenceError :=
  match bm_get issuers id with
  | None => (issuers, Err EvMissingCollateral)
  | Some issuer =>
      let (issuer, r) := Issuer_learn issuer crl in (bm_insert id issuer issuers, r)
  end.

Definition observe_crl (issuers : Issuers) (der : bytes) (now : Z) : Issuers * result unit EvidenceError :=
  match known_crl issuers der with
  | Some r => (issuers, r)
  | None =>
      match signing_root ((fun '(id, issuer) => (id, is_certificate issuer)) <$> issuers) der now with
      | Some (id, crl) => learn_crl issuers id crl
      | None => (issuers, Err (EvCollateral (ascii "untrusted AMD CRL")))
      end
  end.

(** One turn of the loop over the lists; the first failure is kept. *)
Definition observe_crl_row (now : Z) (state : Issuers * option EvidenceError) (row : Value)
  : Issuers * option EvidenceError :=
  let (issuers, failure) := state in
  match row_der row with
  | Err e => (issuers, Some (default e failure))
  | Ok der =>
      let (issuers, r) := observe_crl issuers der now in
      (issuers, match r with Ok _ => failure | Err e => Some (default e failure) end)
  end.

Definition rows_of_type (kind : bytes) (rows : list Value) : list Value :=
  List.filter (fun row => value_is (value_index row (ascii "collateral_type")) kind) rows.

Definition Revocations_observe (issuers : Issuers) (body : Value) (now : Z)
  : Issuers * result unit EvidenceError :=
  match value_get body (ascii "vendor_collateral") ≫= as_array with
  | None => (issuers, Ok tt)
  | Some rows =>
      if MAX_VENDOR_COLLATERAL <? zlen rows then (issuers, Err EvTooLarge) else
      let issuers := observe_roots issuers (rows_of_type (ascii "ark") rows) in
      let (issuers, failure) := fold_left (observe_crl_row now) (rows_of_type (ascii "crl") rows) (issuers, None) in
      (issuers, match failure with Some e => Err e | None => Ok tt end)
  end.

Definition Revocations_validity (issuers : Issuers) (issuer_id serial : bytes) (certificates : Validity) (now : Z)
  : result Validity EvidenceError :=
  let? issuer := ok_or (bm_get issuers issuer_id) EvMissingCollateral in
  let? crl := ok_or (is_latest issuer) EvMissingCollateral in
  reject is_conflicting issuer with EvCrlOrder;
  reject bool_decide (serial ∈ cr_revoked crl) with EvRevoked;
  Validity_at (Validity_intersect certificates (cr_validity crl)) now.

(** ** amd.rs: platforms *)

Record Platform : Type := {
  pl_digest : bytes;
  pl_issuer : bytes;
  pl_ask_serial : bytes;
  pl_certificates : Validity;
  pl_vcek : bytes
}.

Record Store : Type := { so_platforms : list (bytes * Platform) }.

(** One turn of the loop over the certificates. *)
Definition intersect_certificate (validity : Validity) (der : bytes) : result Validity EvidenceError :=
  let? (remaining, cert) := collateral_error (parse_x509_certificate der) in
  reject negb (zlen remaining =? 0) with EvCollateral (ascii "certificate trailing bytes");
  let? not_before := ok_or (checked_mul_1000 (x_not_before cert)) (EvCollateral (ascii "certificate date overflow")) in
  let? not_after := ok_or (checked_mul_1000 (x_not_after cert)) (EvCollateral (ascii "certificate date overflow")) in
  Ok (Validity_intersect validity {| va_not_before := not_before; va_not_after := not_after |}).

Definition verify_platform (ark ask vek : AmdCollateralEntry) (digest : bytes) : result Platform EvidenceError :=
  let? validity := foldR intersect_certificate {| va_not_before := i64_min; va_not_after := i64_max |}
    [ae_der ark; ae_der ask; ae_der vek] in
  let? _ := Validity_at validity (va_not_before validity) in
  let stack := {| st_ark := ae_der ark; st_ask := ae_der ask; st_vek := ae_der vek |} in
  let? chip_id := ok_or (ae_chip_id vek) EvMissingCollateral in
  let? reported_tcb := ok_or (ae_reported_tcb vek) EvMissingCollateral in
  let? _ := collateral_snp (verify_amd_certificates stack chip_id reported_tcb
    (va_not_before validity) (va_not_after validity)) in
  let? (_, root) := collateral_error (parse_x509_certificate (ae_der ark)) in
  let? (_, issuer) := collateral_error (parse_x509_certificate (ae_der ask)) in
  Ok {| pl_digest := digest; pl_issuer := sha384 (x_public_key root);
        pl_ask_serial := serial_bytes (x_raw_serial issuer); pl_certificates := validity;
        pl_vcek := ae_der vek |}.

(** [BTreeSet::extend]. *)
Definition set_extend (l s : list bytes) : list bytes :=
  fold_left (fun s x => if bool_decide (x ∈ s) then s else x :: s) l s.

(** One turn of the loop over the platforms, with the digests used so far. *)
Definition verify_vcek (common : list ((bytes * bytes) * AmdCollateralEntry)) (prior : option Store)
    (state : list bytes * list (bytes * Platform)) (entry : bytes * AmdCollateralEntry)
  : result (list bytes * list (bytes * Platform)) EvidenceError :=
  let '(used, platforms) := state in
  let '(id, vek) := entry in
  let? ark := ok_or (common_get common (ae_ca_product_name vek) (ascii "ark")) EvMissingCollateral in
  let? ask := ok_or (common_get common (ae_ca_product_name vek) (ascii "ask")) EvMissingCollateral in
  let? crl := ok_or (common_get common (ae_ca_product_name vek) (ascii "crl")) EvMissingCollateral in
  let used := set_extend [ae_sha256 ark; ae_sha256 ask; ae_sha256 crl] used in
  let digest := ae_sha256 ark ++ ae_sha256 ask ++ ae_sha256 vek in
  let cached := entry ← (store ← prior; bm_get (so_platforms store) id);
                if bool_decide (pl_digest entry = digest) then Some entry else None in
  let? platform := match cached with Some cached => Ok cached | None => verify_platform ark ask vek digest end in
  Ok (used, bm_insert id platform platforms).

Definition Store_verify (rows : list (list (bytes * Value))) (prior : option Store) : result Store EvidenceError :=
  reject MAX_VENDOR_COLLATERAL <? zlen rows with EvTooLarge;
  let? expanded := collateral_snp (expand_bundle_vendor_collateral rows) in
  let? entries := collateral_snp (parse_amd_collateral_entries expanded) in
  let? (used, platforms) := foldR (verify_vcek (es_common entries) prior) ([], []) (es_vceks entries) in
  reject negb (zlen used =? zlen (es_common entries)) with EvCollateral (ascii "unused product collateral");
  Ok {| so_platforms := platforms |}.

Definition Store_validity (store : Store) (issuers : Issuers) (chip tcb : bytes) (now : Z)
  : result Validity EvidenceError :=
  let? platform := ok_or (bm_get (so_platforms store) (amd_platform_key chip tcb)) EvMissingCollateral in
  Revocations_validity issuers (pl_issuer platform) (pl_ask_serial platform) (pl_certificates platform) now.

Definition Store_vcek (store : Store) (chip tcb : bytes) : result bytes EvidenceError :=
  ok_or (pl_vcek <$> bm_get (so_platforms store) (amd_platform_key chip tcb)) EvMissingCollateral.

Definition Store_summary (store : Store) (issuers : Issuers) (now : Z) : list Value :=
  (fun '(id, platform) =>
    match Revocations_validity issuers (pl_issuer platform) (pl_ask_serial platform)
            (pl_certificates platform) now with
    | Ok validity =>
        JObject [(ascii "platform_id", JString id); (ascii "not_before_unix_ms", jint (va_not_before validity));
                 (ascii "not_after_unix_ms", jint (va_not_after validity)); (ascii "error", JNull)]
    | Err error => JObject [(ascii "platform_id", JString id); (ascii "error", JString (code error))]
    end) <$> so_platforms store.

End Collateral.

(** * Theory

    Vendor collateral: revocation never rolls back under any interleaving of the critical
    sections, what is retained is authentic, and a positive appraisal meets every signed
    limit. *)

(** ** CRL numbers *)

(** The byte order of numbers of one width is their numeric order. *)
Lemma bytes_ltb_value a b : zlen a = zlen b -> bytes_ltb a b = (be_value a <? be_value b).
Proof.
  revert b. induction a as [|x a IH]; intros [|y b] Hl; try (zlen_lia || done). zlen_norm.
  rewrite !be_value_cons. assert (zlen a = zlen b) as E by lia. rewrite <- E.
  cbn [bytes_ltb]. rewrite IH by done. pose proof (be_value_range a). pose proof (be_value_range b).
  rewrite <- E in *. set (w := 256 ^ zlen a) in *.
  case_bool_decide as Hxy.
  - subst y. rewrite Z.ltb_irrefl, orb_false_l, andb_true_l. apply eq_true_iff_eq. rewrite !Z.ltb_lt. lia.
  - assert (byte_to_Z x <> byte_to_Z y).
    { intros Ez. apply Hxy. by rewrite <- (byte_of_Z_to_Z x), Ez, byte_of_Z_to_Z. }
    rewrite andb_false_l, orb_false_r. apply eq_true_iff_eq. rewrite !Z.ltb_lt. nia.
Qed.

Lemma be_value_inj a b : zlen a = zlen b -> be_value a = be_value b -> a = b.
Proof.
  intros Hl Hv. rewrite <- (be_bytes_value a), <- (be_bytes_value b), Hv.
  unfold zlen in Hl. by replace (length a) with (length b) by lia.
Qed.

Definition crl_number (c : Crl) : Z := be_value (cr_number c).

(** ** One issuer *)

(** What one issuer knows only advances: its certificate stays, and its list is replaced
    only by one of a higher number that was not issued earlier. *)
Definition advances (i j : Issuer) : Prop :=
  is_certificate j = is_certificate i /\
  forall old, is_latest i = Some old -> exists new, is_latest j = Some new /\
    (crl_number old < crl_number new /\ va_not_before (cr_validity old) <= va_not_before (cr_validity new) \/
     new = old /\ (is_conflicting i = true -> is_conflicting j = true)).

#[export] Instance advances_preorder : PreOrder advances.
Proof.
  split.
  - intros i. split; [done|]. intros old ->. eauto 6.
  - intros i j k [Hc1 H1] [Hc2 H2]. split; [by rewrite Hc2|]. intros old Hold.
    destruct (H1 old Hold) as (mid & Hmid & Hle1). destruct (H2 mid Hmid) as (new & Hnew & Hle2).
    exists new. split; [done|].
    destruct Hle1 as [[? ?]|[-> ?]], Hle2 as [[? ?]|[-> ?]]; (left; lia) || (right; split; [done|auto]) || auto.
Qed.

Definition numbered (i : Issuer) : Prop := forall c, is_latest i = Some c -> zlen (cr_number c) = 20.

(** The issuer has taken a list into account: it knows a later one, or one of the same
    number, which has the same contents or is known to be in conflict. *)
Definition covers (i : Issuer) (crl : Crl) : Prop :=
  exists new, is_latest i = Some new /\
    (crl_number crl < crl_number new \/
     crl_number crl = crl_number new /\ (is_conflicting i = true \/ cr_contents new = cr_contents crl)).

Lemma covers_advances i j crl : covers i crl -> advances i j -> covers j crl.
Proof.
  intros (old & Hold & Hc) [_ Ha]. destruct (Ha old Hold) as (new & Hnew & Hle). exists new. split; [done|].
  destruct Hle as [[? ?]|[-> ?]]; [lia|]. tauto.
Qed.

Lemma issuer_learn_spec i crl :
  numbered i -> zlen (cr_number crl) = 20 ->
  let (j, r) := Issuer_learn i crl in
  advances i j /\
  (is_latest j = Some crl \/ is_latest j = is_latest i) /\
  (r = Ok tt \/ (exists old, is_latest i = Some old /\ crl_number crl <= crl_number old) -> covers j crl).
Proof.
  intros Hn Hc. unfold Issuer_learn, numbered, advances, covers in *.
  destruct (is_latest i) as [old|] eqn:El; cycle 1.
  { cbn. split_and!; try done; [by left|]. eauto 6. }
  specialize (Hn old eq_refl). rewrite bytes_ltb_value by congruence. fold (crl_number crl) (crl_number old).
  destruct (_ <? _) eqn:Hlt; [|case_bool_decide as Heq;
    [|assert (crl_number crl <> crl_number old) by (intros ?; apply Heq, be_value_inj; [congruence|done]);
      destruct (va_not_before _ <? _) eqn:Hv]]; zbool.
  - split_and!; [done|intros o [= <-]; eauto 6|by right|]. rewrite El. eauto.
  - assert (crl_number crl = crl_number old) by (unfold crl_number; congruence).
    destruct (negb _) eqn:Hd; zbool; cbn [is_certificate is_latest is_conflicting].
    + split_and!; [done|intros o [= <-]; eauto 6|by right|]. intros _. eauto 6.
    + rewrite El. split_and!; [done|intros o [= <-]; eauto 6|by right|]. intros _. eauto 6.
  - split_and!; [done|intros o [= <-]; eauto 6|by right|]. intros [?|(o & [= <-] & ?)]; [done|lia].
  - cbn. split_and!; [done| |by left|eauto 6]. intros o [= <-]. exists crl. split; [done|]. left. lia.
Qed.

(** ** Every interleaving *)

Section Steps.
Context `{Json} `{Base64} `{Hash} `{Encodings} `{X509} `{Unicode}.

(** A pinned AMD root that signs itself. *)
Definition root_authentic (id der : bytes) : Prop :=
  exists cert, parse_x509_certificate der = Some ([], cert) /\ id = sha384 (x_public_key cert) /\
    x_subject cert = x_issuer cert /\ sev_self_verify der = true /\
    exists profile, profile ∈ AMD_PRODUCT_PROFILES /\ pp_root_spki_sha384 profile = hex_encode id.

(** The critical sections that write: a root enters, or a list authenticated under the
    certificate of a known root is learned. *)
Inductive revocation_step : Issuers -> Issuers -> Prop :=
| step_root issuers id der :
    root_authentic id der -> revocation_step issuers (admit_root issuers id der)
| step_crl issuers id issuer der now crl :
    bm_get issuers id = Some issuer ->
    authenticate_crl (is_certificate issuer) der now = Ok crl ->
    revocation_step issuers (learn_crl issuers id crl).1.

Lemma root_of_row_authentic issuers row id der :
  root_of_row issuers row = Some (id, der) -> root_authentic id der.
Proof.
  unfold root_of_row. destruct (row_der row) as [d|]; [|done].
  destruct (parse_x509_certificate d) as [[remaining cert]|] eqn:Ep; [|done]. cbv zeta.
  destruct (_ || _) eqn:E; [done|]. repeat (case_match; [done|]). intros [= <- <-]. zbool.
  match goal with H : existsb _ _ = true |- _ => apply existsb_exists in H as (profile & Hin & Hp) end. zbool.
  match goal with H : zlen remaining = 0 |- _ => apply zlen_0_nil in H as -> end. exists cert. split_and!; try done. exists profile. by rewrite list_elem_of_In.
Qed.

Lemma observe_roots_steps issuers rows : rtc revocation_step issuers (observe_roots issuers rows).
Proof.
  revert issuers. unfold observe_roots. induction rows as [|row rows IH]; intros issuers; cbn [fold_left]; [done|].
  destruct (root_of_row issuers row) as [[id der]|] eqn:E; [|apply IH].
  eapply rtc_l; [|apply IH]. constructor. by eapply root_of_row_authentic.
Qed.

Lemma signing_root_spec roots der now id crl :
  signing_root roots der now = Some (id, crl) ->
  exists root, (id, root) ∈ roots /\ authenticate_crl root der now = Ok crl.
Proof.
  induction roots as [|[i root] roots IH]; cbn [signing_root]; [done|].
  destruct (authenticate_crl root der now) as [c|] eqn:E.
  - intros [= <- <-]. exists root. split; [by left|done].
  - intros Hs. destruct (IH Hs) as (r & Hin & Hr). exists r. split; [by right|done].
Qed.

Lemma observe_crl_steps issuers der now :
  bm_sorted issuers -> rtc revocation_step issuers (observe_crl issuers der now).1.
Proof.
  intros Hk. unfold observe_crl. destruct (known_crl issuers der); [done|].
  destruct (signing_root _ der now) as [[id crl]|] eqn:E; [|done].
  apply signing_root_spec in E as (root & Hin & Ha).
  apply list_elem_of_fmap in Hin as ([id' issuer] & [= -> ->] & Hin).
  apply rtc_once. econstructor; eauto using bm_sorted_get.
Qed.

Lemma step_sorted issuers issuers' : revocation_step issuers issuers' -> bm_sorted issuers -> bm_sorted issuers'.
Proof.
  destruct 1 as [issuers id der|issuers id issuer der now crl Hg]; intros Hs.
  - unfold admit_root. case_match; [done|]. by apply bm_insert_sorted.
  - unfold learn_crl. rewrite Hg. destruct (Issuer_learn issuer crl). by apply bm_insert_sorted.
Qed.

Lemma steps_sorted issuers issuers' : rtc revocation_step issuers issuers' -> bm_sorted issuers -> bm_sorted issuers'.
Proof. induction 1; eauto using step_sorted. Qed.

Lemma observe_crl_rows_steps now rows issuers failure :
  bm_sorted issuers -> rtc revocation_step issuers (fold_left (observe_crl_row now) rows (issuers, failure)).1.
Proof.
  revert issuers failure. induction rows as [|row rows IH]; intros issuers failure Hs; cbn [fold_left]; [done|].
  unfold observe_crl_row at 2. destruct (row_der row) as [der|e]; [|by apply IH].
  pose proof (observe_crl_steps issuers der now Hs) as Hst. destruct (observe_crl issuers der now) as [issuers' r].
  etrans; [exact Hst|]. apply IH. by eapply steps_sorted.
Qed.

(** Observing a body is a sequence of critical sections. *)
Lemma observe_steps issuers body now :
  bm_sorted issuers -> rtc revocation_step issuers (Revocations_observe issuers body now).1.
Proof.
  intros Hs. unfold Revocations_observe. destruct (_ ≫= as_array) as [l|]; [|done]. destruct (_ <? _); [done|].
  pose proof (observe_roots_steps issuers (rows_of_type (ascii "ark") l)) as Hr.
  pose proof (observe_crl_rows_steps now (rows_of_type (ascii "crl") l) _ None (steps_sorted _ _ Hr Hs)) as Hc.
  destruct (fold_left _ _ _). by etrans.
Qed.

(** ** What is retained *)

Lemma authenticate_crl_inv ark_der der now crl :
  authenticate_crl ark_der der now = Ok crl ->
  exists ark raw next, parse_x509_certificate ark_der = Some ([], ark) /\ parse_x509_crl der = Some ([], raw) /\
    rl_issuer raw = x_subject ark /\
    pss_sha384_verify (x_public_key ark) (rl_tbs raw) (rl_signature raw) = true /\
    cr_der crl = der /\ zlen (cr_number crl) = 20 /\ cr_contents crl = sha256 (rl_tbs raw) /\
    rl_next_update raw = Some next /\
    cr_validity crl = {| va_not_before := rl_last_update raw * 1000; va_not_after := next * 1000 |} /\
    collect_revoked [] (rl_revoked raw) = Ok (cr_revoked crl).
Proof.
  unfold authenticate_crl, collateral_error, collateral_snp, map_err, ok_or.
  destruct (parse_x509_certificate ark_der) as [[rem ark]|]; [|done].
  destruct (negb _) eqn:E1; [done|]. destruct (parse_x509_crl der) as [[rem2 raw]|]; [|done].
  destruct (_ || _) eqn:E2; [done|]. destruct (verify_amd_crl_signature raw ark) as [[]|] eqn:Hs; [|done].
  unfold checked_mul_1000. destruct (_ && _) eqn:E3; [|done]. destruct (rl_next_update raw) as [next|] eqn:Hnext; [|done].
  destruct ((i64_min <=? next * 1000) && _) eqn:E4; [|done]. destruct (_ || _) eqn:E5 in |- *; [done|].
  destruct (crl_number_and_scope raw ark) as [number|] eqn:Hn; [|done].
  destruct (collect_revoked [] _) as [revoked|] eqn:Hr; [|done]. intros [= <-]. zbool.
  repeat match goal with H : zlen _ = 0 |- _ => apply zlen_0_nil in H as -> end.
  exists ark, raw, next. split_and!; try done.
  - unfold verify_amd_crl_signature, ok_or in Hs. case_all. by zbool.
  - unfold crl_number_and_scope, ok_or in Hn. cbn [cr_number]. case_all. zbool. rewrite zlen_app, zlen_zeros; zlen_lia.
Qed.

Definition issuer_ok (id : bytes) (i : Issuer) : Prop :=
  root_authentic id (is_certificate i) /\
  forall crl, is_latest i = Some crl -> exists now, authenticate_crl (is_certificate i) (cr_der crl) now = Ok crl.

Definition issuers_ok (issuers : Issuers) : Prop := forall id i, bm_get issuers id = Some i -> issuer_ok id i.

Lemma issuer_ok_numbered id i : issuer_ok id i -> numbered i.
Proof.
  intros [_ Hl] crl Hc. destruct (Hl crl Hc) as (now & Ha). apply authenticate_crl_inv in Ha as (? & ? & ? & Ha).
  tauto.
Qed.

Lemma learn_crl_spec issuers id i der now crl :
  issuers_ok issuers -> bm_get issuers id = Some i -> authenticate_crl (is_certificate i) der now = Ok crl ->
  exists j, (learn_crl issuers id crl).1 = bm_insert id j issuers /\ issuer_ok id j /\ advances i j /\
    ((learn_crl issuers id crl).2 = Ok tt \/
     (exists old, is_latest i = Some old /\ crl_number crl <= crl_number old) -> covers j crl).
Proof.
  intros Hok Hg Ha. specialize (Hok id i Hg). pose proof (authenticate_crl_inv _ _ _ _ Ha) as Hi.
  destruct Hi as (ark & raw & next & _ & _ & _ & _ & Hder & Hn & _).
  pose proof (issuer_learn_spec i crl (issuer_ok_numbered id i Hok) Hn) as Hl. unfold learn_crl. rewrite Hg.
  destruct (Issuer_learn i crl) as [j r]. destruct Hl as (Hadv & Hlat & Hcov). exists j. split_and!; try done.
  destruct Hok as [Hr Hl], Hadv as [Hc _]. split; rewrite Hc; [done|]. intros c Hj.
  destruct Hlat as [E|E]; rewrite E in Hj; [|by apply Hl]. simplify_eq. eauto.
Qed.

Lemma step_spec issuers issuers' :
  revocation_step issuers issuers' -> issuers_ok issuers ->
  issuers_ok issuers' /\
  forall id i, bm_get issuers id = Some i -> exists j, bm_get issuers' id = Some j /\ advances i j.
Proof.
  destruct 1 as [issuers id der Hr|issuers id issuer der now crl Hg Ha]; intros Hok.
  - unfold admit_root. destruct (bm_get issuers id) as [old|] eqn:E.
    { split; [done|]. intros id' i Hi. by exists i. }
    split.
    + intros id' i. rewrite bm_get_insert. case_bool_decide; [|apply Hok]. intros [= <-]. by subst.
    + intros id' i Hi. exists i. rewrite bm_get_insert, bool_decide_false by congruence. done.
  - destruct (learn_crl_spec _ _ _ _ _ _ Hok Hg Ha) as (j & -> & Hj & Hadv & _). split.
    + intros id' i. rewrite bm_get_insert. case_bool_decide; [|apply Hok]. intros [= <-]. by subst.
    + intros id' i Hi. rewrite bm_get_insert. case_bool_decide; subst; [|by exists i].
      rewrite Hi in Hg. simplify_eq. by exists j.
Qed.

Lemma steps_spec issuers issuers' :
  rtc revocation_step issuers issuers' -> issuers_ok issuers ->
  issuers_ok issuers' /\
  forall id i, bm_get issuers id = Some i -> exists j, bm_get issuers' id = Some j /\ advances i j.
Proof.
  induction 1 as [|x y z Hs _ IH]; intros Hx.
  { split; [done|]. intros id i Hi. by exists i. }
  destruct (step_spec _ _ Hs Hx) as [Hy Hxy].
  destruct (IH Hy) as [Hz Hyz]. split; [done|]. intros id i Hi. destruct (Hxy _ _ Hi) as (j & Hj & ?).
  destruct (Hyz _ _ Hj) as (k & Hk & ?). exists k. split; [done|]. by etrans.
Qed.

Lemma validity_inv issuers id serial certificates now v :
  Revocations_validity issuers id serial certificates now = Ok v ->
  exists i crl, bm_get issuers id = Some i /\ is_latest i = Some crl /\ is_conflicting i = false /\
    (serial ∉ cr_revoked crl) /\ v = Validity_intersect certificates (cr_validity crl) /\
    va_not_before v <= now < va_not_after v.
Proof.
  unfold Revocations_validity, ok_or, Validity_at. intros. case_all. zbool. eauto 10.
Qed.

(** C20. Revocation never rolls back. Take any list that authenticates under a known AMD
    root and is presented at any point of any interleaving of the critical sections: if it
    is accepted, or its number is not above the one known, then every later positive
    appraisal under that root rests on an authenticated, unrevoking list with a higher
    number, or with the same number and the same contents. *)
Theorem revocation_no_rollback start middle final id issuer der time crl serial certificates now v :
  rtc revocation_step [] start ->
  bm_get start id = Some issuer ->
  authenticate_crl (is_certificate issuer) der time = Ok crl ->
  (learn_crl start id crl).2 = Ok tt \/
    (exists old, is_latest issuer = Some old /\ crl_number crl <= crl_number old) ->
  middle = (learn_crl start id crl).1 ->
  rtc revocation_step middle final ->
  Revocations_validity final id serial certificates now = Ok v ->
  exists i new, bm_get final id = Some i /\ is_latest i = Some new /\ issuer_ok id i /\
    (serial ∉ cr_revoked new) /\
    (crl_number crl < crl_number new \/
     crl_number crl = crl_number new /\ cr_contents new = cr_contents crl).
Proof.
  intros Hstart Hg Ha Hp -> Hfinal Hv. destruct (steps_spec _ _ Hstart) as [Hok _]; [done|].
  destruct (learn_crl_spec _ _ _ _ _ _ Hok Hg Ha) as (j & Hj & Hjok & _ & Hcov).
  assert (issuers_ok (learn_crl start id crl).1) as Hmid.
  { destruct (step_spec start (learn_crl start id crl).1) as [Hm _]; [|done|done]. by econstructor. }
  destruct (steps_spec _ _ Hfinal Hmid) as [Hfok Hadv].
  destruct (Hadv id j) as (k & Hk & Hjk).
  { by rewrite Hj, bm_get_insert, bool_decide_true. }
  destruct (validity_inv _ _ _ _ _ _ Hv) as (i & new & Hi & Hl & Hcf & Hs & _).
  rewrite Hk in Hi. simplify_eq. exists i, new.
  destruct (covers_advances _ _ _ (Hcov Hp) Hjk) as (new' & Hl' & Hn). simplify_eq.
  split_and!; try done; [by apply Hfok|]. destruct Hn as [?|[? [?|?]]]; auto; congruence.
Qed.

(** ** Platforms *)

(** A platform that was verified from some rows, under the name of its chip and TCB. *)
Definition platform_ok (id : bytes) (p : Platform) : Prop :=
  exists ark ask vek chip tcb, verify_platform ark ask vek (pl_digest p) = Ok p /\
    ae_chip_id vek = Some chip /\ ae_reported_tcb vek = Some tcb /\ id = amd_platform_key chip tcb.

Definition store_ok (store : Store) : Prop :=
  forall id p, bm_get (so_platforms store) id = Some p -> platform_ok id p.

Definition named (entries : list (bytes * AmdCollateralEntry)) : Prop :=
  Forall (fun '(id, vek) => exists chip tcb, ae_chip_id vek = Some chip /\ ae_reported_tcb vek = Some tcb /\
    id = amd_platform_key chip tcb) entries.

Lemma parse_row_named es row es' : parse_amd_row es row = Ok es' -> named (es_vceks es) -> named (es_vceks es').
Proof.
  unfold parse_amd_row. intros Hp Hn. cbv zeta in Hp.
  destruct (AmdKdsPayload_from_value _) as [payload|]; [|done]. cbn [ok_or] in Hp. repeat (destruct (_ || _); [done|]).
  destruct (negb _); [done|]. destruct (parse_time _); [|done].
  destruct (base64url_decode _) as [der|]; [|done]. cbn [ok_or] in Hp.
  destruct (negb _ || _); [done|]. destruct (bool_decide _) in Hp.
  - cbn [ae_chip_id ae_reported_tcb] in Hp. destruct (vd_chip_id row) as [chip|] eqn:Ec; [|done].
    cbn [ok_or] in Hp. destruct (str_to_lowercase <$> _) as [tcb|] eqn:Et; [|done]. cbn [ok_or] in Hp.
    destruct (bm_get _ _) in Hp; [done|]. simplify_eq. cbn [es_vceks]. unfold named. rewrite Forall_forall.
    intros x [->|Hx]%bm_insert_in; [by exists chip, tcb|]. by eapply Forall_forall in Hn.
  - destruct (_ || _); [done|]. by destruct (common_get _ _ _); simplify_eq.
Qed.

Lemma foldR_inv {A S F} (P : S -> Prop) (f : S -> A -> result S F) l s s' :
  (forall s x s', x ∈ l -> f s x = Ok s' -> P s -> P s') -> foldR f s l = Ok s' -> P s -> P s'.
Proof.
  revert s. induction l as [|x l IH]; intros s Hf; cbn [foldR]; [by intros [= <-]|].
  destruct (f s x) as [s1|] eqn:E; [|done]. intros Hl Hs. eapply IH; [|exact Hl|].
  - intros ? y ? Hy. apply Hf. by right.
  - eapply Hf; [by left|done|done].
Qed.

(** Reuse of earlier results keeps every platform verified. *)
Lemma store_verify_ok rows prior store :
  (forall p, prior = Some p -> store_ok p) -> Store_verify rows prior = Ok store -> store_ok store.
Proof.
  intros Hprior. unfold Store_verify, collateral_snp, map_err. destruct (_ <? _); [done|].
  destruct (expand_bundle_vendor_collateral rows) as [expanded|]; [|done].
  destruct (parse_amd_collateral_entries expanded) as [es|] eqn:Ep; [|done].
  assert (named (es_vceks es)) as Hn.
  { eapply (foldR_inv (fun es => named (es_vceks es))); [|exact Ep|by constructor].
    intros; by eapply parse_row_named. }
  destruct (foldR _ _ (es_vceks es)) as [[used platforms]|] eqn:Ef; [|done].
  destruct (negb _); [done|]. intros [= <-]. cbn [so_platforms].
  refine (foldR_inv (fun s => forall id p, bm_get s.2 id = Some p -> platform_ok id p) _ _ _ _ _ Ef _); [|done].
  intros [u ps] [id vek] [u' ps'] Hin Hv Hps. 
  destruct (proj1 (Forall_forall _ _) Hn _ Hin) as (chip & tcb & Hc & Ht & Hid).
  unfold verify_vcek, ok_or in Hv.
  destruct (common_get _ _ (ascii "ark")) as [ark|]; [|done]. destruct (common_get _ _ (ascii "ask")) as [ask|]; [|done].
  destruct (common_get _ _ (ascii "crl")) as [crl|]; [|done].
  remember (_ ≫= _) as cached eqn:Ec in Hv. symmetry in Ec. destruct (match cached with Some _ => _ | None => _ end) as [p|] eqn:Em; [|done].
  injection Hv as _ <-. intros id' q. cbn [snd]. rewrite bm_get_insert. case_bool_decide; [|apply Hps]. intros [= <-]. subst id'.
  destruct cached as [c|]; simplify_eq.
  - destruct prior as [pr|]; [|done]. cbn in Ec.
    destruct (bm_get (so_platforms pr) _) as [e|] eqn:Eg; [|done]. cbn in Ec. case_bool_decide; simplify_eq.
    by eapply Hprior.
  - exists ark, ask, vek, chip, tcb. split_and!; try done.
    enough (pl_digest p = ae_sha256 ark ++ ae_sha256 ask ++ ae_sha256 vek) as -> by done.
    unfold verify_platform in Em. clear - Em. case_all.
Qed.

(** Stores as successive refreshes build them. *)
Inductive built_store : Store -> Prop :=
| built_fresh rows store : Store_verify rows None = Ok store -> built_store store
| built_again rows prior store : built_store prior -> Store_verify rows (Some prior) = Ok store -> built_store store.

Lemma built_store_ok store : built_store store -> store_ok store.
Proof.
  induction 1 as [rows store Hv|rows prior store _ IH Hv]; eapply store_verify_ok; try exact Hv; [done|].
  by intros p [= <-].
Qed.

(** The platforms of a store are those of its rows: one for each VCEK, made from the ARK,
    ASK and CRL of its product by their digests. *)
Definition store_lists (rows : list (list (bytes * Value))) (store : Store) : Prop :=
  exists expanded es, expand_bundle_vendor_collateral rows = Ok expanded /\
    parse_amd_collateral_entries expanded = Ok es /\
    forall id, match bm_get (es_vceks es) id with
    | None => bm_get (so_platforms store) id = None
    | Some vek => exists p ark ask crl, bm_get (so_platforms store) id = Some p /\
        common_get (es_common es) (ae_ca_product_name vek) (ascii "ark") = Some ark /\
        common_get (es_common es) (ae_ca_product_name vek) (ascii "ask") = Some ask /\
        common_get (es_common es) (ae_ca_product_name vek) (ascii "crl") = Some crl /\
        pl_digest p = ae_sha256 ark ++ ae_sha256 ask ++ ae_sha256 vek
    end.

Lemma parse_row_sorted es row es' : parse_amd_row es row = Ok es' -> bm_sorted (es_vceks es) -> bm_sorted (es_vceks es').
Proof.
  unfold parse_amd_row. intros Hp Hn. cbv zeta in Hp.
  destruct (AmdKdsPayload_from_value _) as [payload|]; [|done]. cbn [ok_or] in Hp. repeat (destruct (_ || _); [done|]).
  destruct (negb _); [done|]. destruct (parse_time _); [|done].
  destruct (base64url_decode _) as [der|]; [|done]. cbn [ok_or] in Hp.
  destruct (negb _ || _); [done|]. destruct (bool_decide _) in Hp.
  - cbn [ae_chip_id ae_reported_tcb] in Hp. destruct (vd_chip_id row) as [chip|] eqn:Ec; [|done].
    cbn [ok_or] in Hp. destruct (str_to_lowercase <$> _) as [tcb|] eqn:Et; [|done]. cbn [ok_or] in Hp.
    destruct (bm_get _ _) in Hp; [done|]. simplify_eq. cbn [es_vceks]. by apply bm_insert_sorted.
  - destruct (_ || _); [done|]. by destruct (common_get _ _ _); simplify_eq.
Qed.

(** One turn of the loop over the platforms. *)
Lemma verify_vcek_inv common prior used platforms id vek used' platforms' :
  verify_vcek common prior (used, platforms) (id, vek) = Ok (used', platforms') ->
  exists p ark ask crl, platforms' = bm_insert id p platforms /\
    common_get common (ae_ca_product_name vek) (ascii "ark") = Some ark /\
    common_get common (ae_ca_product_name vek) (ascii "ask") = Some ask /\
    common_get common (ae_ca_product_name vek) (ascii "crl") = Some crl /\
    pl_digest p = ae_sha256 ark ++ ae_sha256 ask ++ ae_sha256 vek.
Proof.
  unfold verify_vcek, ok_or. intros Hv.
  destruct (common_get _ _ (ascii "ark")) as [ark|]; [|done]. destruct (common_get _ _ (ascii "ask")) as [ask|]; [|done].
  destruct (common_get _ _ (ascii "crl")) as [crl|]; [|done].
  remember (_ ≫= _) as cached eqn:Ec in Hv. symmetry in Ec. destruct (match cached with Some _ => _ | None => _ end) as [p|] eqn:Em; [|done].
  injection Hv as _ <-. exists p, ark, ask, crl. split_and!; try done. destruct cached as [c|]; simplify_eq.
  - destruct prior as [pr|]; [|done]. cbn in Ec.
    destruct (bm_get (so_platforms pr) _) as [e|]; [|done]. cbn in Ec. case_bool_decide; simplify_eq. done.
  - unfold verify_platform in Em. clear - Em. case_all.
Qed.

Lemma store_verify_lists rows prior store : Store_verify rows prior = Ok store -> store_lists rows store.
Proof.
  unfold Store_verify, collateral_snp, map_err. destruct (_ <? _); [done|].
  destruct (expand_bundle_vendor_collateral rows) as [expanded|] eqn:Ee; [|done].
  destruct (parse_amd_collateral_entries expanded) as [es|] eqn:Ep; [|done].
  destruct (foldR _ _ (es_vceks es)) as [[used platforms]|] eqn:Ef; [|done].
  destruct (negb _); [done|]. intros [= <-]. exists expanded, es. split_and!; [done|done|]. cbn [so_platforms].
  assert (bm_sorted (es_vceks es)) as Hs.
  { eapply (foldR_inv (fun es => bm_sorted (es_vceks es))); [|exact Ep|by constructor].
    intros; by eapply parse_row_sorted. }
  assert (forall l used0 platforms0, NoDup l.*1 ->
    foldR (verify_vcek (es_common es) prior) (used0, platforms0) l = Ok (used, platforms) ->
    forall id, match bm_get l id with
    | None => bm_get platforms id = bm_get platforms0 id
    | Some vek => exists p ark ask crl, bm_get platforms id = Some p /\
        common_get (es_common es) (ae_ca_product_name vek) (ascii "ark") = Some ark /\
        common_get (es_common es) (ae_ca_product_name vek) (ascii "ask") = Some ask /\
        common_get (es_common es) (ae_ca_product_name vek) (ascii "crl") = Some crl /\
        pl_digest p = ae_sha256 ark ++ ae_sha256 ask ++ ae_sha256 vek
    end) as Hgen; [|by apply (Hgen _ [] []); [apply bm_sorted_nodup|]].
  clear. induction l as [|[k vek] l IH]; intros used0 platforms0 Hn; cbn [foldR]; [by intros [= -> ->]|].
  destruct (verify_vcek _ _ _ _) as [[used1 platforms1]|] eqn:E; [|done]. intros Hf id.
  apply verify_vcek_inv in E as (p & ark & ask & crl & -> & Ha & Hk & Hc & Hd).
  apply NoDup_cons in Hn as [Hk' Hn]. specialize (IH _ _ Hn Hf id). rewrite bm_get_insert in IH.
  assert (bm_get ((k, vek) :: l) id = if bool_decide (k = id) then Some vek else bm_get l id) as ->
    by (unfold bm_get; cbn [List.find]; by case_bool_decide).
  case_bool_decide as E; [|done]. subst id. rewrite (proj2 (bm_get_none l k)) in IH by done. eauto 10.
Qed.

(** A certificate is valid at a time, in milliseconds. *)
Definition cert_covers (cert : X509Certificate) (now : Z) : Prop :=
  x_not_before cert * 1000 <= now < x_not_after cert * 1000.

Lemma intersect_certificate_inv v der w :
  intersect_certificate v der = Ok w ->
  exists cert, parse_x509_certificate der = Some ([], cert) /\
    i64_min <= x_not_before cert * 1000 /\ x_not_after cert * 1000 <= i64_max /\
    forall now, va_not_before w <= now < va_not_after w <->
      va_not_before v <= now < va_not_after v /\ cert_covers cert now.
Proof.
  unfold intersect_certificate, collateral_error, ok_or, checked_mul_1000. intros. case_all. zbool.
  match goal with H : zlen _ = 0 |- _ => apply zlen_0_nil in H as -> end.
  eexists. split_and!; [done|lia|lia|]. intros now. unfold cert_covers. cbn. lia.
Qed.

(** ** What a VCEK names *)

(** The contents of an extension of AMD, which occurs once. *)
Definition amd_extension (c : X509Certificate) (suffix value : bytes) : Prop :=
  (exists e, e ∈ x_extensions c /\ xe_oid e = ascii "1.3.6.1.4.1.3704.1." ++ suffix /\ xe_value e = value) /\
  forall e, e ∈ x_extensions c -> xe_oid e = ascii "1.3.6.1.4.1.3704.1." ++ suffix -> xe_value e = value.

(** The DER encoding of a number below 256. *)
Definition der_u8 (b : byte) : bytes := if byte_to_Z b <? 128 then [x02; x01; b] else [x02; x02; x00; b].

(** The extension that carries each byte of a TCB. *)
Definition tcb_suffixes (layout : AmdTcbLayout) : list bytes :=
  match layout with
  | Family19h => [ascii "3.1"; ascii "3.2"; ascii "3.4"; ascii "3.5"; ascii "3.6"; ascii "3.7"; ascii "3.3"; ascii "3.8"]
  | Family1ah => [ascii "3.9"; ascii "3.1"; ascii "3.2"; ascii "3.3"; ascii "3.5"; ascii "3.6"; ascii "3.7"; ascii "3.8"]
  end.

(** The certificate names the chip, the eight bytes of its TCB and a product. *)
Record vcek_for (vek : X509Certificate) (chip tcb : bytes) (product : AmdProductProfile) : Prop := {
  vf_product : product ∈ AMD_PRODUCT_PROFILES;
  vf_name : exists text, amd_extension vek (ascii "2") (x16 :: byte_of_Z (zlen text) :: text) /\
    (text = pp_product_name product \/ exists stepping, text = pp_product_name product ++ ascii "-" ++ stepping);
  vf_chip : exists c h value, hex_decode chip = Some c /\ zlen c = 64 /\
    match pp_tcb_layout product with Family19h => h = c | Family1ah => c = h ++ zeros 56 /\ h <> zeros 8 end /\
    amd_extension vek (ascii "4") value /\ (value = h \/ value = x04 :: byte_of_Z (zlen h) :: h);
  vf_tcb : exists t, hex_decode tcb = Some t /\ zlen t = 8 /\
    Forall2 (fun suffix b => amd_extension vek suffix (der_u8 b)) (tcb_suffixes (pp_tcb_layout product)) t
}.

Lemma strip_prefix_spec p l r : strip_prefix p l = Some r <-> l = p ++ r.
Proof.
  revert l. induction p as [|x p IH]; intros l; cbn; [split; congruence|].
  destruct l as [|y l]; [split; done|]. case_bool_decide as E; [subst; rewrite IH; split; congruence|split; congruence].
Qed.

Lemma vcek_extensions_sound found extensions out oid value :
  vcek_extensions found extensions = Ok out -> strip_prefix AMD_OID oid <> None -> bm_get out oid = Some value ->
  (bm_get found oid = Some value \/ exists e, e ∈ extensions /\ xe_oid e = oid /\ xe_value e = value) /\
  forall e, e ∈ extensions -> xe_oid e = oid -> bm_get found oid = None /\ xe_value e = value.
Proof.
  intros Hv Hp Ho. revert found Hv. induction extensions as [|x extensions IH]; intros found; cbn [vcek_extensions].
  { intros [= <-]. split; [by left|]. by intros e He%not_elem_of_nil. }
  destruct (strip_prefix AMD_OID (xe_oid x)) as [suffix|] eqn:Ex.
  - destruct (bm_get found (xe_oid x)) eqn:Eg; [done|]. intros [Hf Hu]%IH. rewrite bm_get_insert in Hf, Hu. split.
    + destruct Hf as [Hf|(e & He & Hid & Hval)]; [|right; exists e; split_and!; [by right|done|done]].
      case_bool_decide as E; [|by left]. injection Hf as Hf. right. exists x. split_and!; [by left|done|done].
    + intros e [->|He]%elem_of_cons Hid.
      * split; [by rewrite <- Hid|]. rewrite bool_decide_true in Hf by congruence.
        destruct Hf as [[= Hf]|(e & He & Hid' & Hval)]; [done|].
        destruct (Hu e He Hid') as [Hn _]. rewrite bool_decide_true in Hn by congruence. done.
      * destruct (Hu e He Hid) as [Hn Hval]. case_bool_decide; [done|]. by split.
  - intros [Hf Hu]%IH. split.
    + destruct Hf as [Hf|(e & He & ?)]; [by left|]. right. exists e. split; [by right|done].
    + intros e [->|He]%elem_of_cons Hid; [congruence|by apply Hu].
Qed.

Lemma required_sound vek out suffix value :
  vcek_extensions [] (x_extensions vek) = Ok out -> bm_get out (amd_oid suffix) = Some value ->
  amd_extension vek suffix value.
Proof.
  intros Hv Hr. unfold amd_oid in Hr.
  destruct (vcek_extensions_sound _ _ _ (AMD_OID ++ suffix) value Hv) as [[Hf|Hf] Hu]; [|done|done|].
  - by rewrite (proj2 (strip_prefix_spec AMD_OID _ suffix)).
  - split; [done|]. intros e He Hid. by apply Hu.
Qed.

Lemma parse_der_u8_sound value b : parse_der_u8 value = Some (byte_to_Z b) -> value = der_u8 b.
Proof.
  assert (forall c, byte_to_Z c = byte_to_Z b -> c = b) as Hinj.
  { intros c E. by rewrite <- (byte_of_Z_to_Z c), E, byte_of_Z_to_Z. }
  unfold parse_der_u8, der_u8. intros Hv.
  repeat (case_match; try done); simplify_eq; zbool; repeat match goal with H : byte_to_Z _ = byte_to_Z b |- _ =>
    apply Hinj in H end; subst; (done || lia).
Qed.

Lemma vcek_name_sound text product :
  amd_product_from_vcek_name text = Some product ->
  product ∈ AMD_PRODUCT_PROFILES /\
  (text = pp_product_name product \/ exists stepping, text = pp_product_name product ++ ascii "-" ++ stepping).
Proof.
  unfold amd_product_from_vcek_name. intros [Hin Hm]%find_some. rewrite <- list_elem_of_In in Hin. split; [done|].
  unfold vcek_name_matches in Hm. apply orb_true_iff in Hm as [Hm|Hm]; [left; by zbool|right].
  destruct (strip_prefix (pp_product_name product) text) as [rest|] eqn:E1; [|done]. cbn [mbind option_bind] in Hm.
  destruct (strip_prefix (ascii "-") rest) as [stepping|] eqn:E2; [|done].
  apply strip_prefix_spec in E1, E2. exists stepping. congruence.
Qed.

Lemma byte_length n (l : bytes) : byte_to_Z n = zlen l -> n = byte_of_Z (zlen l).
Proof. intros <-. by rewrite byte_of_Z_to_Z. Qed.

Lemma parse_der_ia5_sound value text :
  parse_der_ia5_string value = Some text -> value = x16 :: byte_of_Z (zlen text) :: text.
Proof.
  unfold parse_der_ia5_string. intros Hv. destruct value as [|tag [|len rest]]; [done|by destruct tag|].
  destruct tag; try done. destruct (_ || _ || _) eqn:E; [done|]. zbool. simplify_eq. f_equal. f_equal. by apply byte_length.
Qed.

Lemma parse_der_octets_sound value h :
  parse_der_octet_string value = Some h -> value = h \/ value = x04 :: byte_of_Z (zlen h) :: h.
Proof.
  unfold parse_der_octet_string. destruct (_ || _); [intros [= ->]; by left|]. intros Hv. right.
  destruct value as [|tag [|len rest]]; [done|by destruct tag|].
  destruct tag; try done. destruct (_ && _) eqn:E; [|done]. zbool. simplify_eq. f_equal. f_equal. by apply byte_length.
Qed.

Lemma hwid_sound layout chip h :
  zlen chip = 64 -> expected_hwid layout chip = Ok h ->
  match layout with Family19h => h = chip | Family1ah => chip = h ++ zeros 56 /\ h <> zeros 8 end.
Proof.
  unfold expected_hwid. intros Hl. destruct layout; [congruence|]. intros Hv. pass Hv by Hz. injection Hv as <-. zbool.
  split.
  - rewrite <- (slice_to_from chip 8) at 1. f_equal.
    apply (forallb_replicate x00 _ 56); [rewrite zlen_slice_from; lia|done].
  - intros E. rewrite E in *. done.
Qed.

Lemma tcb_extensions_sound vek out t layout :
  vcek_extensions [] (x_extensions vek) = Ok out -> zlen t = 8 ->
  foldR (fun _ entry => check_tcb_extension out t entry) tt (tcb_extensions layout) = Ok tt ->
  Forall2 (fun suffix b => amd_extension vek suffix (der_u8 b)) (tcb_suffixes layout) t.
Proof.
  intros Hv Hl Hf. pose proof (foldR_unit _ _ Hf) as Hc. clear Hf.
  assert (forall suffix i b, (amd_oid suffix, i) ∈ tcb_extensions layout -> byte_at t i = byte_to_Z b ->
    amd_extension vek suffix (der_u8 b)) as He.
  { intros suffix i b Hin Hb. apply Hc in Hin. unfold check_tcb_extension in Hin. rewrite Hb in Hin. pass Hin by Hx.
    pass Hin as der by Hd. pass Hin as value by Hp. pass Hin by Heq. zbool. subst value.
    apply parse_der_u8_sound in Hp. subst der. by eapply required_sound. }
  do 9 (destruct t as [|? t]; [try (exfalso; clear - Hl; zlen_lia)|]); [|exfalso; clear - Hl; zlen_lia].
  destruct layout; cbn [tcb_suffixes]; repeat (constructor; [eapply He; [cbn; rewrite !elem_of_cons; eauto 20|reflexivity]|]);
    constructor.
Qed.

Lemma vcek_extensions_for vek chip tcb product :
  validate_vcek_extensions vek chip tcb = Ok product -> vcek_for vek chip tcb product.
Proof.
  unfold validate_vcek_extensions. intros Hv. pass Hv as t by Ht. pass Hv by Hl. pass Hv as out by Ho.
  pass Hv as d1 by Hd1. pass Hv as sv by Hsv. pass Hv as d2 by Hd2. pass Hv as text by Htext. pass Hv as profile by Hp.
  pass Hv by Hstruct. pass Hv as [] by Hf. pass Hv as c by Hc. pass Hv by Hcl. pass Hv as hw by Hhw.
  pass Hv as cc by Hcc. pass Hv as h by Hh. pass Hv by Hsame. injection Hv as ->. zbool. subst cc.
  apply vcek_name_sound in Hp as [Hin Hname]. split; [done| | |].
  - exists text. split; [|done]. rewrite <- (parse_der_ia5_sound _ _ Htext). by eapply required_sound.
  - exists c, h, hw. split_and!; [done|done|by apply hwid_sound|by eapply required_sound|by apply parse_der_octets_sound].
  - exists t. split_and!; [done|done|by eapply tcb_extensions_sound].
Qed.

(** The certificates of a verified platform: a chain from a pinned root to a key that
    names the chip and its TCB. *)
Record chain_of (p : Platform) (chip tcb : bytes) (ark ask vek : X509Certificate) : Prop := {
  ch_ders : exists ark_der ask_der,
    parse_x509_certificate ark_der = Some ([], ark) /\ parse_x509_certificate ask_der = Some ([], ask) /\
    parse_x509_certificate (pl_vcek p) = Some ([], vek) /\ sev_chain_verify ark_der ask_der (pl_vcek p) = true;
  ch_product : exists product, vcek_for vek chip tcb product /\
    hex_encode (sha384 (x_public_key ark)) = pp_root_spki_sha384 product;
  ch_issuer : pl_issuer p = sha384 (x_public_key ark);
  ch_names : x_subject ark = x_issuer ark /\ x_issuer ask = x_subject ark /\ x_issuer vek = x_subject ask;
  ch_serial : pl_ask_serial p = serial_bytes (x_raw_serial ask);
  ch_interval now : va_not_before (pl_certificates p) <= now < va_not_after (pl_certificates p) <->
    cert_covers ark now /\ cert_covers ask now /\ cert_covers vek now
}.

Lemma amd_certificates_inv stack chip tcb created expires ark ask vek :
  verify_amd_certificates stack chip tcb created expires = Ok tt ->
  parse_x509_certificate (st_ark stack) = Some ([], ark) ->
  parse_x509_certificate (st_ask stack) = Some ([], ask) ->
  parse_x509_certificate (st_vek stack) = Some ([], vek) ->
  sev_chain_verify (st_ark stack) (st_ask stack) (st_vek stack) = true /\
  (exists product, vcek_for vek chip tcb product /\
    hex_encode (sha384 (x_public_key ark)) = pp_root_spki_sha384 product) /\
  x_subject ark = x_issuer ark /\ x_issuer ask = x_subject ark /\ x_issuer vek = x_subject ask.
Proof.
  intros Hv Ha Hs Hk. unfold verify_amd_certificates, check_interval, ok_or in Hv. rewrite Ha, Hs, Hk in Hv.
  case_all. zbool. eauto 10 using vcek_extensions_for.
Qed.

Lemma platform_chain ark ask vek digest p chip tcb :
  verify_platform ark ask vek digest = Ok p ->
  ae_chip_id vek = Some chip -> ae_reported_tcb vek = Some tcb ->
  exists ark_c ask_c vek_c, chain_of p chip tcb ark_c ask_c vek_c.
Proof.
  intros Hv Hc Ht. unfold verify_platform in Hv. rewrite Hc, Ht in Hv. cbn [foldR ok_or] in Hv.
  destruct (intersect_certificate _ (ae_der ark)) as [v1|] eqn:E1; [|done].
  destruct (intersect_certificate v1 _) as [v2|] eqn:E2; [|done].
  destruct (intersect_certificate v2 _) as [v3|] eqn:E3; [|done].
  destruct (Validity_at v3 _); [|done]. unfold collateral_snp, map_err in Hv.
  destruct (verify_amd_certificates _ _ _ _ _) as [[]|] eqn:Ev; [|done].
  apply intersect_certificate_inv in E1 as (ark_c & P1 & L1 & U1 & I1), E2 as (ask_c & P2 & _ & _ & I2),
    E3 as (vek_c & P3 & _ & _ & I3).
  unfold collateral_error in Hv. rewrite P1, P2 in Hv. cbn [ok_or] in Hv. simplify_eq.
  destruct (amd_certificates_inv _ _ _ _ _ _ _ _ Ev P1 P2 P3) as (Hch & Hprod & Hnames).
  exists ark_c, ask_c, vek_c. split; cbn; try done; [by exists (ae_der ark), (ae_der ask)|].
  intros now. rewrite I3, I2, I1. cbn. unfold cert_covers in *. split; [tauto|]. intros (? & ? & ?). split_and!; (done || lia).
Qed.

(** ** Revocation of the intermediate certificate *)

Lemma serial_bytes_value l : be_value (serial_bytes l) = be_value l.
Proof.
  induction l as [|b l IH]; [done|]. cbn [serial_bytes]. case_bool_decide; [|done]. subst. rewrite IH, be_value_cons.
  change (byte_to_Z x00) with 0. lia.
Qed.

Lemma serial_bytes_head l : match serial_bytes l with [] => True | b :: _ => b <> x00 end.
Proof. induction l as [|b l IH]; [done|]. cbn [serial_bytes]. by case_bool_decide. Qed.

Lemma value_head b l : b <> x00 -> 256 ^ zlen l <= be_value (b :: l).
Proof.
  intros Hb. rewrite be_value_cons. pose proof (be_value_range l). pose proof (byte_to_Z_range b).
  assert (byte_to_Z b <> 0) by (intros E; apply Hb; by rewrite <- (byte_of_Z_to_Z b), E). nia.
Qed.

(** The serial numbers of certificates are compared as numbers. *)
Lemma serial_bytes_eq a b : be_value a = be_value b -> serial_bytes a = serial_bytes b.
Proof.
  rewrite <- (serial_bytes_value a), <- (serial_bytes_value b).
  pose proof (serial_bytes_head a) as Ha. pose proof (serial_bytes_head b) as Hb.
  generalize dependent (serial_bytes b). generalize dependent (serial_bytes a). clear.
  assert (forall x l y, be_value (x :: l) = be_value y -> x <> x00 -> zlen y <= zlen l -> False) as Hlong.
  { intros x l y E Hx Hl. pose proof (value_head x l Hx). pose proof (be_value_range y) as [_ Hy].
    assert (256 ^ zlen y <= 256 ^ zlen l) by (apply Z.pow_le_mono_r; lia). lia. }
  intros l Hl r Hr E. destruct l as [|x l], r as [|y r]; [done|exfalso..|].
  - apply (Hlong y r []); [done|done|zlen_lia].
  - apply (Hlong x l []); [done|done|zlen_lia].
  - apply be_value_inj; [|done]. zlen_norm. destruct (Z.lt_trichotomy (zlen l) (zlen r)) as [Hlt|[->|Hlt]]; [exfalso|done|exfalso].
    + apply (Hlong y r (x :: l)); [done|done|zlen_lia].
    + apply (Hlong x l (y :: r)); [done|done|zlen_lia].
Qed.

Lemma collect_revoked_all start entries out :
  collect_revoked start entries = Ok out ->
  (start ⊆ out) /\ Forall (fun entry => serial_bytes (rc_raw_serial entry) ∈ out) entries.
Proof.
  revert start. induction entries as [|e entries IH]; intros start; cbn [collect_revoked].
  { intros [= <-]. split; [done|constructor]. }
  destruct (check_revoked_extensions _ _); [|done]. cbv zeta. case_bool_decide; [done|]. intros [Hs Hf]%IH.
  split; [set_solver|]. constructor; [set_solver|done].
Qed.

(** A list that the root signed, that names when it is current, and on which a serial number
    does not occur. *)
Record crl_for (root : X509Certificate) (serial : bytes) (crl : Crl) : Prop := {
  cl_list : exists raw next, parse_x509_crl (cr_der crl) = Some ([], raw) /\
    rl_issuer raw = x_subject root /\
    pss_sha384_verify (x_public_key root) (rl_tbs raw) (rl_signature raw) = true /\
    rl_next_update raw = Some next /\
    cr_validity crl = {| va_not_before := rl_last_update raw * 1000; va_not_after := next * 1000 |} /\
    Forall (fun entry => be_value (rc_raw_serial entry) <> be_value serial) (rl_revoked raw)
}.

Lemma authentic_crl_for root_der root time crl serial :
  parse_x509_certificate root_der = Some ([], root) ->
  authenticate_crl root_der (cr_der crl) time = Ok crl -> (serial_bytes serial ∉ cr_revoked crl) ->
  crl_for root serial crl.
Proof.
  intros Hp (ark & raw & next & Hark & Hraw & Hiss & Hsig & _ & _ & _ & Hnext & Hval & Hrev)%authenticate_crl_inv Hs.
  rewrite Hp in Hark. injection Hark as <-. split. exists raw, next. split_and!; try done.
  apply collect_revoked_all in Hrev as [_ Hf]. eapply Forall_impl; [exact Hf|]. intros e He E. apply Hs.
  by rewrite <- (serial_bytes_eq _ _ E).
Qed.

(** C19. A positive appraisal of a platform, after any sequence of verified stores and any
    interleaving of observations. The store's platform holds a VCEK that ends a signed chain
    from a pinned AMD root and names that chip and TCB byte for byte. What is known of that
    very root is not in conflict, and its latest list is signed by the root and does not
    list the serial number of the intermediate certificate. The returned interval is exactly
    the time in which the three certificates and that list are all valid, and the appraisal
    is within it. *)
Theorem collateral_appraisal_sound store issuers chip tcb now v :
  built_store store -> rtc revocation_step [] issuers ->
  Store_validity store issuers chip tcb now = Ok v ->
  exists p chip' tcb' ark ask vek issuer crl root,
    bm_get (so_platforms store) (amd_platform_key chip tcb) = Some p /\
    amd_platform_key chip tcb = amd_platform_key chip' tcb' /\
    Store_vcek store chip tcb = Ok (pl_vcek p) /\
    chain_of p chip' tcb' ark ask vek /\
    bm_get issuers (sha384 (x_public_key ark)) = Some issuer /\
    root_authentic (sha384 (x_public_key ark)) (is_certificate issuer) /\
    parse_x509_certificate (is_certificate issuer) = Some ([], root) /\
    is_conflicting issuer = false /\ is_latest issuer = Some crl /\ crl_for root (x_raw_serial ask) crl /\
    (forall t, va_not_before v <= t < va_not_after v <->
      cert_covers ark t /\ cert_covers ask t /\ cert_covers vek t /\
      va_not_before (cr_validity crl) <= t < va_not_after (cr_validity crl)) /\
    va_not_before v <= now < va_not_after v.
Proof.
  intros Hst Hsteps Hv. unfold Store_validity, Store_vcek, ok_or in *.
  destruct (bm_get (so_platforms store) _) as [p|] eqn:Eg; [|done]. cbn.
  destruct (validity_inv _ _ _ _ _ _ Hv) as (i & crl & Hi & Hl & Hcf & Hs & -> & Hnow).
  destruct (built_store_ok _ Hst _ _ Eg) as (ark & ask & vek & chip' & tcb' & Hp & Hc & Ht & Hk).
  destruct (platform_chain _ _ _ _ _ _ _ Hp Hc Ht) as (ark_c & ask_c & vek_c & Hch).
  destruct (steps_spec _ _ Hsteps) as [Hok _]; [done|]. destruct (Hok _ _ Hi) as [Hroot Hauth].
  destruct (Hauth _ Hl) as (time & Hcrl). pose proof Hch as [_ _ Hiss _ Hser Hint]. rewrite Hser, Hiss in *.
  pose proof Hroot as (root & Hparse & _).
  exists p, chip', tcb', ark_c, ask_c, vek_c, i, crl, root. split_and!; try (done || lia).
  - by eapply authentic_crl_for.
  - intros t. specialize (Hint t). cbn. rewrite Z.max_lub_iff, Z.min_glb_lt_iff. tauto.
Qed.

End Steps.
