(* ===== verification/Snapshot.v ===== *)
(** Evidence snapshots: [evidence.rs]. A refresh checks a complete candidate before it
    installs a snapshot, and keeps authenticated key and revocation decisions either way.
    Allocations compared with [Arc::ptr_eq] are named by a counter; the key state and the
    revocations that a snapshot shares with its verifier are passed where it reads them. *)

From S2P Require Import Prelude ApprovalsTheory Primitives BTree Json Signing Attestation Documents Deserialize Approvals.
From S2P Require Import Snp Releases Amd Collateral.

Open Scope Z_scope.

(** ** Observed checks *)

Inductive VerificationStep : Type :=
| SDecode | SSigstore | SKeyManifest | SVendorRevocations | SEnvelope | SApprovalManifest
| SGatewayRelease | SCatalogRelease | SHardwarePolicy | SVendorCollateral | SAccepted.

#[export] Instance VerificationStep_eq_dec : EqDecision VerificationStep.
Proof. solve_decision. Defined.

Record VerificationCheck : Type := {
  ck_step : VerificationStep;
  ck_reference : option bytes;
  ck_cached : bool
}.

#[export] Instance VerificationCheck_eq_dec : EqDecision VerificationCheck.
Proof. solve_decision. Defined.

(** Fallible work that reports to an observer: the reports in order, and the outcome. *)
Definition observed (A : Type) : Type := list VerificationCheck * result A EvidenceError.

Definition silent {A} (r : result A EvidenceError) : observed A := ([], r).
Definition checked (step : VerificationStep) (reference : option bytes) (cached : bool) : observed unit :=
  ([{| ck_step := step; ck_reference := reference; ck_cached := cached |}], Ok tt).
Definition obind {A B} (m : observed A) (f : A -> observed B) : observed B :=
  match m with
  | (log, Ok a) => let (log', r) := f a in (log ++ log', r)
  | (log, Err e) => (log, Err e)
  end.

Notation "'let!' x := e 'in' k" := (obind e (fun x => k))
  (at level 10, x pattern, e at level 200, k at level 200) : result_scope.

(** ** State *)

Record Cached (T : Type) : Type := { ca_digest : bytes; ca_verified_at : Z; ca_value : T }.
Arguments ca_digest {T}.
Arguments ca_verified_at {T}.
Arguments ca_value {T}.

Definition BUNDLE_ENVELOPE_SCHEMA : bytes := ascii "stogas.confidential-bundle-envelope.v1".
Definition BUNDLE_SCHEMA : bytes := ascii "stogas.confidential-bundle.v1".

Section Snapshot.
Context `{Json} `{Base64} `{Signatures} `{Hash} `{Encodings} `{Sigstore} `{X509} `{Unicode}.

Record Snapshot : Type := {
  sn_body_sha256 : bytes;
  sn_identity : Z;
  sn_approvals : VerifiedApprovals;
  sn_keys_evidence : LoggedDocument KeyManifest;
  sn_gateways : list (bytes * Cached VerifiedRelease);
  sn_catalogs : list (bytes * Cached VerifiedCatalogRelease);
  sn_hardware : VerifiedHardwarePolicy;
  sn_collateral_evidence : list (list (bytes * Value));
  sn_collateral : Store
}.

(** [ve_next] names the next allocation. *)
Record Verifier : Type := {
  ve_approvals : ApprovalVerifier;
  ve_current : option Snapshot;
  ve_revocations : Issuers;
  ve_next : Z
}.

Record Candidate : Type := {
  cd_body_sha256 : bytes;
  cd_keys : LoggedDocument KeyManifest;
  cd_approvals : VerifiedApprovals;
  cd_vendor_collateral : list (list (bytes * Value))
}.

(** The conversion of an approval error. *)
Definition approval {A} (r : result A ApprovalError) : result A EvidenceError := map_err EvApproval r.

(** ** Snapshot *)

Definition Snapshot_collateral_summary (s : Snapshot) (revocations : Issuers) (now_unix_ms : Z) : list Value :=
  Store_summary (sn_collateral s) revocations now_unix_ms.

Definition Snapshot_require_current_keys (s : Snapshot) (key_state : KeyState) : result unit EvidenceError :=
  approval (KeyState_require_current key_state (va_keys (sn_approvals s))).

Definition Snapshot_gateway (s : Snapshot) (release_id : bytes) : option VerifiedRelease :=
  ca_value <$> bm_get (sn_gateways s) release_id.

Definition Snapshot_catalog (s : Snapshot) (release_id : bytes) : option VerifiedCatalogRelease :=
  ca_value <$> bm_get (sn_catalogs s) release_id.

(** [max_by_key]: the last of the greatest. *)
Fixpoint max_by_key {A} (key : A -> Z) (best : option A) (l : list A) : option A :=
  match l with
  | [] => best
  | x :: l =>
      max_by_key key (match best with Some b => if key b <=? key x then Some x else Some b | None => Some x end) l
  end.

Definition compatible (gateway : VerifiedRelease) (catalog : VerifiedCatalogRelease) : bool :=
  (vc_minimum_gateway_sequence catalog <=? vl_sequence gateway)
  && (vl_minimum_catalog_sequence gateway <=? vc_sequence catalog).

Definition Snapshot_compatible_catalog (s : Snapshot) (key_state : KeyState) (gateway_id : bytes)
  : option (bytes * VerifiedCatalogRelease) :=
  match Snapshot_require_current_keys s key_state with
  | Err _ => None
  | Ok _ =>
      gateway ← Snapshot_gateway s gateway_id;
      (fun '(id, entry) => (id, ca_value entry))
      <$> max_by_key (fun '(_, entry) => vc_sequence (ca_value entry)) None
            (List.filter (fun '(_, entry) => compatible gateway (ca_value entry)) (sn_catalogs s))
  end.

Definition Snapshot_collateral_validity (s : Snapshot) (revocations : Issuers) (chip_id reported_tcb : bytes)
    (now_unix_ms : Z) : result Validity EvidenceError :=
  let? expires := approval (VerifiedApprovals_valid_until (sn_approvals s) now_unix_ms) in
  let? validity := Store_validity (sn_collateral s) revocations chip_id reported_tcb now_unix_ms in
  Ok {| va_not_before := va_not_before validity; va_not_after := Z.min (va_not_after validity) expires |}.

(** ** Parsing *)

Definition parse_json (b : bytes) : result Value EvidenceError :=
  reject MAX_INPUT_BYTES <? zlen b with EvTooLarge;
  ok_or (strict_json b) (EvInvalid []).

Definition parse_envelope (value : Value) : result Envelope EvidenceError :=
  let? digest := approval (payload_sha256 (value_index value (ascii "body"))) in
  let? envelope := ok_or (Envelope_from_value value) (EvInvalid []) in
  reject negb (bool_decide (en_schema envelope = BUNDLE_ENVELOPE_SCHEMA))
      || negb (bool_decide (bn_schema (en_body envelope) = BUNDLE_SCHEMA))
    with EvInvalid (ascii "unsupported bundle schema");
  reject negb (bool_decide (digest = en_body_sha256 envelope)) with EvInvalid (ascii "bundle body checksum differs");
  Ok envelope.

(** ** Verifier *)

Definition Verifier_new (environment : Environment) (root : RootKey) : result Verifier EvidenceError :=
  let? approvals := approval (ApprovalVerifier_new environment root) in
  Ok {| ve_approvals := approvals; ve_current := None; ve_revocations := []; ve_next := 0 |}.

Definition set_approvals (v : Verifier) (approvals : ApprovalVerifier) : Verifier :=
  {| ve_approvals := approvals; ve_current := ve_current v; ve_revocations := ve_revocations v;
     ve_next := ve_next v |}.

Definition Verifier_verify_key_manifest (v : Verifier) (b : bytes) (now_unix_ms : Z)
  : Verifier * result KeyManifest EvidenceError :=
  let trust := match ve_current v with
               | Some snapshot => Ok (vs_trusted_root (va_sigstore (sn_approvals snapshot)))
               | None => ok_or embedded_root (EvApproval ASigstore)
               end in
  match trust with
  | Err e => (v, Err e)
  | Ok trust =>
      let (approvals, r) := verify_key_manifest (ve_approvals v) b trust now_unix_ms in
      (set_approvals v approvals, approval r)
  end.

(** [Verifier::sigstore]: fresh files are verified into a new allocation. *)
Definition Verifier_sigstore (v : Verifier) (files : Value) : result (VerifiedSigstore * bool) EvidenceError :=
  let? files := ok_or (SigstoreFiles_from_value files) (EvInvalid []) in
  let? digest := approval (payload_sha256 (SigstoreFiles_to_value files)) in
  let fresh := let? sigstore := approval (VerifiedSigstore_verify (ve_next v) files) in Ok (sigstore, false) in
  match ve_current v with
  | Some snapshot =>
      if bool_decide (vs_digest (va_sigstore (sn_approvals snapshot)) = digest)
      then Ok (va_sigstore (sn_approvals snapshot), true) else fresh
  | None => fresh
  end.

(** [cached]: the entry and whether it was reused. *)
Definition cached {T} (prior : option (Cached T)) (digest : bytes) (now_unix_ms : Z)
    (verify : result T ApprovalError) : result (Cached T * bool) EvidenceError :=
  match prior with
  | Some entry =>
      if bool_decide (ca_digest entry = digest) && (ca_verified_at entry <=? now_unix_ms)
      then Ok ({| ca_digest := digest; ca_verified_at := ca_verified_at entry; ca_value := ca_value entry |}, true)
      else let? value := approval verify in
           Ok ({| ca_digest := digest; ca_verified_at := now_unix_ms; ca_value := value |}, false)
  | None =>
      let? value := approval verify in
      Ok ({| ca_digest := digest; ca_verified_at := now_unix_ms; ca_value := value |}, false)
  end.

Definition ReleaseEvidence_to_value {T} (document_to_value : T -> Value) (r : ReleaseEvidence T) : Value :=
  JObject [(ascii "document", document_to_value (ev_document r)); (ascii "provenance", ev_provenance r)].

(** The loops over the listed gateways and catalogs. *)
Fixpoint verify_releases {T V} (step : VerificationStep) (document_to_value : T -> Value)
    (verify : ReleaseEvidence T -> result V ApprovalError) (prior : option (list (bytes * Cached V)))
    (now_unix_ms : Z) (verified : list (bytes * Cached V)) (releases : list (ReleaseEvidence T))
  : observed (list (bytes * Cached V)) :=
  match releases with
  | [] => silent (Ok verified)
  | release :: releases =>
      let! id := silent (approval (payload_sha256 (document_to_value (ev_document release)))) in
      let! digest := silent (approval (payload_sha256 (ReleaseEvidence_to_value document_to_value release))) in
      let! (entry, reused) := silent (cached (entries ← prior; bm_get entries id) digest now_unix_ms (verify release)) in
      let! _ := checked step (Some id) reused in
      verify_releases step document_to_value verify prior now_unix_ms (bm_insert id entry verified) releases
  end.

Definition verify_snapshot (v : Verifier) (candidate : Candidate) (now_unix_ms : Z) : observed Snapshot :=
  let approvals := cd_approvals candidate in
  let prior := ve_current v in
  let releases :=
    snapshot ← prior;
    if vs_id (va_sigstore (sn_approvals snapshot)) =? vs_id (va_sigstore approvals) then Some snapshot else None in
  let! gateways := verify_releases SGatewayRelease GatewayReleaseManifest_to_value
    (fun gateway => verify_gateway approvals gateway now_unix_ms) (sn_gateways <$> releases) now_unix_ms []
    (am_gateways (va_manifest approvals)) in
  let! catalogs := verify_releases SCatalogRelease CatalogReleaseManifest_to_value
    (fun catalog => verify_catalog approvals catalog now_unix_ms) (sn_catalogs <$> releases) now_unix_ms []
    (am_catalogs (va_manifest approvals)) in
  let! hardware := silent (approval (verify_hardware_policy approvals)) in
  let! _ := checked SHardwarePolicy None false in
  let! collateral := silent (Store_verify (cd_vendor_collateral candidate) (sn_collateral <$> prior)) in
  let! _ := checked SVendorCollateral None false in
  silent (Ok {| sn_body_sha256 := cd_body_sha256 candidate; sn_identity := ve_next v + 1;
                sn_approvals := approvals; sn_keys_evidence := cd_keys candidate;
                sn_gateways := gateways; sn_catalogs := catalogs; sn_hardware := hardware;
                sn_collateral_evidence := cd_vendor_collateral candidate; sn_collateral := collateral |}).

(** ** refresh *)

(** The first authority: the Sigstore files and the key manifest logged under them. *)
Definition observe_authority (v : Verifier) (value : Value) (now_unix_ms : Z)
  : Verifier * observed (VerifiedSigstore * VerifiedKeys) :=
  let body := value_index value (ascii "body") in
  match Verifier_sigstore v (value_index body (ascii "sigstore")) with
  | Err e => (v, silent (Err e))
  | Ok (sigstore, reused) =>
      let (approvals, r) := observe_keys (ve_approvals v) (json_to_vec (value_index body (ascii "keys")))
        (vs_trusted_root sigstore) now_unix_ms in
      (set_approvals v approvals,
       let! _ := checked SSigstore None reused in
       let! keys := silent (approval r) in
       let! _ := checked SKeyManifest None false in
       silent (Ok (sigstore, keys)))
  end.

(** The second authority: the vendor's revocation lists. *)
Definition observe_vendor (v : Verifier) (value : Value) (now_unix_ms : Z) : Verifier * result unit EvidenceError :=
  let (revocations, r) := Revocations_observe (ve_revocations v) (value_index value (ascii "body")) now_unix_ms in
  ({| ve_approvals := ve_approvals v; ve_current := ve_current v; ve_revocations := revocations;
      ve_next := ve_next v |}, r).

(** The complete candidate, once both authorities were heard. *)
Definition verify_candidate (v : Verifier) (value : Value) (sigstore : VerifiedSigstore) (keys : VerifiedKeys)
    (now_unix_ms : Z) : observed Snapshot :=
  let! envelope := silent (parse_envelope value) in
  let! _ := checked SEnvelope None false in
  let body := en_body envelope in
  let! approvals := silent (approval (verify_with_keys (ve_approvals v) keys (bn_approvals body) sigstore now_unix_ms)) in
  let! _ := checked SApprovalManifest None false in
  verify_snapshot v {| cd_body_sha256 := en_body_sha256 envelope; cd_keys := bn_keys body;
                       cd_approvals := approvals; cd_vendor_collateral := bn_vendor_collateral body |} now_unix_ms.

(** Installing the snapshot; both allocations of the refresh are used up. *)
Definition install (v : Verifier) (snapshot : Snapshot) : Verifier * observed Snapshot :=
  let (approvals, r) := accept (ve_approvals v) (sn_approvals snapshot) in
  match r with
  | Err e => (set_approvals v approvals, silent (Err (EvApproval e)))
  | Ok _ =>
      ({| ve_approvals := approvals; ve_current := Some snapshot; ve_revocations := ve_revocations v;
          ve_next := ve_next v + 2 |},
       let! _ := checked SAccepted None false in silent (Ok snapshot))
  end.

(** Work on an observed outcome that may change the verifier. *)
Definition continue {A B} (v : Verifier) (m : observed A) (f : A -> Verifier * observed B) : Verifier * observed B :=
  match m with
  | (log, Err e) => (v, (log, Err e))
  | (log, Ok a) => let '(v, (log', r)) := f a in (v, (log ++ log', r))
  end.

Definition refresh_observed (v : Verifier) (b : bytes) (now_unix_ms : Z) : Verifier * observed Snapshot :=
  continue v (let! value := silent (parse_json b) in let! _ := checked SDecode None false in silent (Ok value))
    (fun value =>
      let (v, keys) := observe_authority v value now_unix_ms in
      let (v, vendor) := observe_vendor v value now_unix_ms in
      let keys :=
        let! keys := keys in
        let! _ := match vendor with Ok _ => checked SVendorRevocations None false | Err _ => silent (Ok tt) end in
        silent (let? _ := vendor in Ok keys) in
      continue v keys (fun '(sigstore, keys) =>
        continue v (verify_candidate v value sigstore keys now_unix_ms) (install v))).

Definition refresh (v : Verifier) (b : bytes) (now_unix_ms : Z) : Verifier * result Snapshot EvidenceError :=
  let '(v, (_, r)) := refresh_observed v b now_unix_ms in (v, r).

End Snapshot.

(** * Theory

    Evidence snapshots: refreshes are atomic, nothing rolls back, every cached result is
    what verification under the current decision gave, and the selected catalog is the
    newest compatible one. *)

(** ** The observer *)

Lemma obind_ok {A B} (m : observed A) (f : A -> observed B) log b :
  obind m f = (log, Ok b) -> exists log1 a log2, m = (log1, Ok a) /\ f a = (log2, Ok b) /\ log = log1 ++ log2.
Proof.
  destruct m as [log1 [a|e]]; cbn; [|by intros [=]]. destruct (f a) as [log2 r] eqn:E. intros [= <- ->]. eauto 6.
Qed.

Lemma silent_ok {A} (r : result A EvidenceError) log a : silent r = (log, Ok a) -> log = [] /\ r = Ok a.
Proof. unfold silent. intros [= <- ->]. done. Qed.

Lemma checked_ok step reference reused log u :
  checked step reference reused = (log, Ok u) ->
  log = [{| ck_step := step; ck_reference := reference; ck_cached := reused |}].
Proof. unfold checked. by intros [= <- _]. Qed.

Lemma approval_ok {A} (r : result A ApprovalError) a : approval r = Ok a -> r = Ok a.
Proof. destruct r; [by intros [= ->]|done]. Qed.

(** Opens a chain of observed work that succeeded. *)
Ltac open_observed :=
  repeat match goal with
  | H : obind _ _ = (_, Ok _) |- _ => apply obind_ok in H as (? & ? & ? & ? & ? & ?)
  | H : silent _ = (_, Ok _) |- _ => apply silent_ok in H as [? ?]
  | H : checked _ _ _ = (_, Ok _) |- _ => apply checked_ok in H
  | H : approval _ = Ok _ |- _ => apply approval_ok in H
  | x : (_ * _)%type |- _ => destruct x
  end; simplify_eq; cbn beta iota zeta in *.

(** A log without acceptance. *)
Definition unaccepted (log : list VerificationCheck) : Prop := SAccepted ∉ ck_step <$> log.

Lemma unaccepted_nil : unaccepted [].
Proof. unfold unaccepted. by intros ?%not_elem_of_nil. Qed.

Lemma unaccepted_app log log' : unaccepted log -> unaccepted log' -> unaccepted (log ++ log').
Proof. unfold unaccepted. rewrite fmap_app, elem_of_app. tauto. Qed.

Lemma unaccepted_obind {A B} (m : observed A) (f : A -> observed B) :
  unaccepted m.1 -> (forall a, unaccepted (f a).1) -> unaccepted (obind m f).1.
Proof.
  destruct m as [log [a|e]]; intros Hm Hf; [|done]. cbn. specialize (Hf a). destruct (f a) as [log' r].
  by apply unaccepted_app.
Qed.

Lemma unaccepted_silent {A} (r : result A EvidenceError) : unaccepted (silent r).1.
Proof. apply unaccepted_nil. Qed.

Lemma unaccepted_checked step reference reused : step <> SAccepted -> unaccepted (checked step reference reused).1.
Proof. unfold unaccepted. cbn. rewrite list_elem_of_singleton. congruence. Qed.

#[export] Hint Resolve unaccepted_nil unaccepted_app unaccepted_silent unaccepted_checked : stogas.
#[export] Hint Extern 3 (unaccepted (obind _ _).1) => apply unaccepted_obind : stogas.

(** ** Catalogs *)

Lemma max_by_key_spec {A} (key : A -> Z) l best r :
  max_by_key key best l = r ->
  match r with
  | None => best = None /\ l = []
  | Some x => (best = Some x \/ x ∈ l) /\ (forall y, best = Some y \/ y ∈ l -> key y <= key x)
  end.
Proof.
  revert best r. induction l as [|x l IH]; intros best r; cbn [max_by_key].
  - intros <-. destruct best; [|done]. split; [by left|]. intros y [[= <-]|?%not_elem_of_nil]; done.
  - intros Hr. specialize (IH _ r Hr). destruct r as [z|].
    + destruct IH as [Hz Hmax]. setoid_rewrite elem_of_cons.
      destruct best as [b|]; [destruct (key b <=? key x) eqn:E; zbool|].
      * pose proof (Hmax x (or_introl eq_refl)). split; [destruct Hz as [[= ->]|?]; auto|].
        intros y [[= <-]|[->|Hy]]; [lia|lia|by apply Hmax; right].
      * pose proof (Hmax b (or_introl eq_refl)). split; [destruct Hz as [[= ->]|?]; auto|].
        intros y [[= <-]|[->|Hy]]; [lia|lia|by apply Hmax; right].
      * split; [destruct Hz as [[= ->]|?]; auto|]. intros y [?|[->|Hy]]; [done|by apply Hmax; left|by apply Hmax; right].
    + destruct IH as [IH _]. by repeat case_match.
Qed.

Section Snapshots.
Context `{Json} `{Base64} `{Signatures} `{Hash} `{Encodings} `{Sigstore} `{X509} `{Unicode}.

(** The catalog selected for a gateway is approved, readable by that gateway in both
    directions, and no approved readable catalog is newer; nothing is selected exactly when
    the root decision is superseded, the gateway is not approved, or no catalog fits. *)
Theorem compatible_catalog_newest s key_state gateway_id :
  match Snapshot_compatible_catalog s key_state gateway_id with
  | Some (id, catalog) =>
      Snapshot_require_current_keys s key_state = Ok tt /\
      exists gateway entry, Snapshot_gateway s gateway_id = Some gateway /\
        (id, entry) ∈ sn_catalogs s /\ ca_value entry = catalog /\ compatible gateway catalog = true /\
        forall id' entry', (id', entry') ∈ sn_catalogs s -> compatible gateway (ca_value entry') = true ->
          vc_sequence (ca_value entry') <= vc_sequence catalog
  | None =>
      Snapshot_require_current_keys s key_state <> Ok tt \/ Snapshot_gateway s gateway_id = None \/
      exists gateway, Snapshot_gateway s gateway_id = Some gateway /\
        forall id entry, (id, entry) ∈ sn_catalogs s -> compatible gateway (ca_value entry) = false
  end.
Proof.
  unfold Snapshot_compatible_catalog. destruct (Snapshot_require_current_keys s key_state) as [[]|e]; [|by left].
  destruct (Snapshot_gateway s gateway_id) as [gateway|]; cbn [mbind option_bind]; [|by right; left].
  set (fits := fun '(_, entry) => compatible gateway (ca_value entry)).
  set (key := fun '(_, entry) => vc_sequence (ca_value entry)).
  pose proof (max_by_key_spec key (List.filter fits (sn_catalogs s)) None _ eq_refl) as Hm.
  assert (forall id entry, (id, entry) ∈ List.filter fits (sn_catalogs s) <->
    (id, entry) ∈ sn_catalogs s /\ compatible gateway (ca_value entry) = true) as Hf.
  { intros. by rewrite !list_elem_of_In, filter_In. }
  destruct (max_by_key key None _) as [[id entry]|]; cbn [fmap option_fmap option_map].
  - destruct Hm as [[?|[? ?]%Hf] Hmax]; [done|]. split; [done|]. exists gateway, entry. split_and!; try done.
    intros id' entry' ? ?. apply (Hmax (id', entry')). right. by apply Hf.
  - destruct Hm as [_ Hnil]. right. right. exists gateway. split; [done|]. intros id entry Hin.
    destruct (compatible _ _) eqn:E; [|done]. assert ((id, entry) ∈ List.filter fits (sn_catalogs s)) as Hc by (by apply Hf).
    rewrite Hnil in Hc. by apply not_elem_of_nil in Hc.
Qed.

(** ** Refreshes *)

Lemma unaccepted_releases {T V} step (f : T -> Value) verify prior now verified releases :
  step <> SAccepted -> unaccepted (@verify_releases _ _ T V step f verify prior now verified releases).1.
Proof.
  intros Hs. revert verified. induction releases as [|r rs IH]; intros verified; cbn [verify_releases]; [auto with stogas|].
  apply unaccepted_obind; [auto with stogas|]. intros id. apply unaccepted_obind; [auto with stogas|]. intros digest.
  apply unaccepted_obind; [auto with stogas|]. intros [entry reused].
  apply unaccepted_obind; [auto with stogas|]. intros _. apply IH.
Qed.

Lemma unaccepted_candidate v value sigstore keys now : unaccepted (verify_candidate v value sigstore keys now).1.
Proof.
  unfold verify_candidate, verify_snapshot.
  repeat (apply unaccepted_obind; [by auto using unaccepted_releases with stogas|intros ?]); auto with stogas.
Qed.

(** What both authorities leave behind. *)
Lemma authority_frame v value now :
  let '(v', keys) := observe_authority v value now in
  ve_current v' = ve_current v /\ ve_revocations v' = ve_revocations v /\ ve_next v' = ve_next v /\
  av_accepted (ve_approvals v') = av_accepted (ve_approvals v) /\
  av_environment (ve_approvals v') = av_environment (ve_approvals v) /\
  learned_le (av_key_state (ve_approvals v)) (av_key_state (ve_approvals v')) /\
  unaccepted keys.1 /\
  (forall sigstore reused,
     Verifier_sigstore v (value_index (value_index value (ascii "body")) (ascii "sigstore")) = Ok (sigstore, reused) ->
     ve_approvals v' = (observe_keys (ve_approvals v)
       (json_to_vec (value_index (value_index value (ascii "body")) (ascii "keys")))
       (vs_trusted_root sigstore) now).1).
Proof.
  unfold observe_authority. destruct (Verifier_sigstore v _) as [[sigstore reused]|e].
  - pose proof (approval_step_le (ve_approvals v) (ObserveKeys
      (json_to_vec (value_index (value_index value (ascii "body")) (ascii "keys"))) (vs_trusted_root sigstore) now)) as [_ Hl].
    cbn [approval_step] in Hl.
    assert (av_accepted (observe_keys (ve_approvals v) (json_to_vec (value_index (value_index value (ascii "body")) (ascii "keys")))
              (vs_trusted_root sigstore) now).1 = av_accepted (ve_approvals v) /\
            av_environment (observe_keys (ve_approvals v) (json_to_vec (value_index (value_index value (ascii "body")) (ascii "keys")))
              (vs_trusted_root sigstore) now).1 = av_environment (ve_approvals v)) as [Ha He].
    { unfold observe_keys. destruct (ApprovalVerifier_verify_keys _ _ _ _) as [k|]; [|done].
      by destruct (KeyState_learn _ k). }
    destruct (observe_keys _ _ _ _) as [approvals r] eqn:Eo. cbn [fst] in *.
    split_and!; try done; [|intros ? ? [= <- _]; by rewrite Eo].
    repeat (apply unaccepted_obind; [by auto with stogas|intros ?]); auto with stogas.
  - split_and!; try done. apply unaccepted_nil.
Qed.

Lemma accept_frame a c :
  av_environment (accept a c).1 = av_environment a /\
  learned_le (av_key_state a) (av_key_state (accept a c).1) /\
  ((accept a c).2 = Ok tt -> av_accepted (accept a c).1 = Some c) /\
  ((accept a c).2 <> Ok tt -> av_accepted (accept a c).1 = av_accepted a).
Proof.
  pose proof (approval_step_le a (AcceptCandidate c)) as [_ Hl]. cbn [approval_step] in Hl.
  unfold accept in *. destruct (check_update a c) as [[]|]; [|done].
  by destruct (KeyState_learn _ _) as [state [[]|]].
Qed.

(** The decisions of both authorities in an input are kept. *)
Definition retained (v v' : Verifier) (value : Value) (now : Z) : Prop :=
  let body := value_index value (ascii "body") in
  ve_revocations v' = (Revocations_observe (ve_revocations v) body now).1 /\
  forall sigstore reused, Verifier_sigstore v (value_index body (ascii "sigstore")) = Ok (sigstore, reused) ->
    learned_le (av_key_state (observe_keys (ve_approvals v) (json_to_vec (value_index body (ascii "keys")))
                                (vs_trusted_root sigstore) now).1)
               (av_key_state (ve_approvals v')).

Lemma refresh_frame v b now :
  let '(v', (log, r)) := refresh_observed v b now in
  match r with
  | Ok s => ve_current v' = Some s /\ av_accepted (ve_approvals v') = Some (sn_approvals s) /\
            last (ck_step <$> log) = Some SAccepted
  | Err _ => ve_current v' = ve_current v /\ av_accepted (ve_approvals v') = av_accepted (ve_approvals v) /\
             SAccepted ∉ ck_step <$> log
  end /\
  learned_le (av_key_state (ve_approvals v)) (av_key_state (ve_approvals v')) /\
  forall value, parse_json b = Ok value -> retained v v' value now.
Proof.
  unfold refresh_observed. destruct (parse_json b) as [value|e]; cycle 1.
  { cbn. split_and!; try done. by intros ?%not_elem_of_nil. }
  cbn [silent checked obind continue]. pose proof (authority_frame v value now) as Hf.
  destruct (observe_authority v value now) as [v1 keys]. destruct Hf as (Hc & Hr & _ & Ha & _ & Hl & Hu & Hk).
  unfold observe_vendor. rewrite Hr. destruct (Revocations_observe _ _ now) as [revocations vendor] eqn:Ev.
  set (v2 := {| ve_approvals := ve_approvals v1 |}).
  match goal with |- context [continue v2 ?m _] => set (heard := m); assert (unaccepted heard.1) as Hh end.
  { apply unaccepted_obind; [done|]. intros ?. apply unaccepted_obind; [|auto with stogas].
    intros; destruct vendor; auto with stogas. }
  assert (forall v' : Verifier, ve_revocations v' = revocations ->
    learned_le (av_key_state (ve_approvals v1)) (av_key_state (ve_approvals v')) ->
    learned_le (av_key_state (ve_approvals v)) (av_key_state (ve_approvals v')) /\
    forall value', @Ok Value EvidenceError value = Ok value' -> retained v v' value' now) as Hrest.
  { intros v' Hrev Hle. split; [by etrans|]. intros ? [= <-]. split; [by rewrite Ev|].
    intros sigstore reused Hs. by rewrite <- (Hk _ _ Hs). }
  destruct heard as [log [[sigstore ks]|e]]; cbn [continue fst] in *; cycle 1.
  { split; [|by apply Hrest]. split_and!; [done|done|]. by apply (unaccepted_app [_]); [apply unaccepted_checked|]. }
  pose proof (unaccepted_candidate v2 value sigstore ks now) as Hv.
  destruct (verify_candidate v2 value sigstore ks now) as [log' [s|e]]; cbn [continue fst] in *; cycle 1.
  { split; [|by apply Hrest]. split_and!; [done|done|].
    apply (unaccepted_app [_]); [by apply unaccepted_checked|]. by apply unaccepted_app. }
  unfold install. pose proof (accept_frame (ve_approvals v2) (sn_approvals s)) as (_ & Hl2 & Hyes & Hno).
  destruct (accept (ve_approvals v2) (sn_approvals s)) as [approvals [[]|e]]; cbn [fst snd] in *.
  - cbn. split; [|by eapply (Hrest {| ve_approvals := approvals; ve_revocations := revocations |})]. split_and!; [done|by apply Hyes|].
    rewrite !fmap_app. cbn. by rewrite app_assoc, app_comm_cons, last_snoc.
  - cbn. split; [|by eapply (Hrest {| ve_approvals := approvals; ve_revocations := revocations |})]. split_and!; [done|by rewrite Hno|].
    rewrite app_nil_r. apply (unaccepted_app [{| ck_step := SDecode; ck_reference := None; ck_cached := false |}]);
      [by apply unaccepted_checked|]. by apply unaccepted_app.
Qed.

(** A refresh is atomic. When it fails, the current snapshot and the accepted decision
    are those from before and acceptance was never reported; when it succeeds they are the
    new ones and acceptance was the last report. In either case, whatever else the input
    contains, the vendor's revocations in it are retained exactly as observed, a root
    decision in it is kept, and the learned keys only advance. *)
Theorem refresh_atomic v b now :
  let '(v', (log, r)) := refresh_observed v b now in
  match r with
  | Ok s => ve_current v' = Some s /\ av_accepted (ve_approvals v') = Some (sn_approvals s) /\
            last (ck_step <$> log) = Some SAccepted
  | Err _ => ve_current v' = ve_current v /\ av_accepted (ve_approvals v') = av_accepted (ve_approvals v) /\
             SAccepted ∉ ck_step <$> log
  end /\
  learned_le (av_key_state (ve_approvals v)) (av_key_state (ve_approvals v')) /\
  forall value, parse_json b = Ok value -> retained v v' value now.
Proof. apply refresh_frame. Qed.

(** ** Cached results *)

(** Verification of a release depends on the decision through its Sigstore keys and its
    environment only. *)
Lemma verify_gateway_same a a' release now :
  va_sigstore a = va_sigstore a' -> km_environment (va_keys a) = km_environment (va_keys a') ->
  verify_gateway a release now = verify_gateway a' release now.
Proof. intros Hs He. unfold verify_gateway, accepts_provenance. by rewrite Hs, He. Qed.

Lemma verify_catalog_same a a' release now :
  va_sigstore a = va_sigstore a' -> km_environment (va_keys a) = km_environment (va_keys a') ->
  verify_catalog a release now = verify_catalog a' release now.
Proof. intros Hs He. unfold verify_catalog, accepts_provenance. by rewrite Hs, He. Qed.

Section Entries.
Context {T V : Type} (f : T -> Value) (verify : ReleaseEvidence T -> Z -> result V ApprovalError).

(** An entry holds what verification of a release with its digests gave at its time. *)
Definition entry_ok (id : bytes) (c : Cached V) : Prop :=
  exists release, verify release (ca_verified_at c) = Ok (ca_value c) /\
    payload_sha256 (f (ev_document release)) = Ok id /\
    payload_sha256 (ReleaseEvidence_to_value f release) = Ok (ca_digest c).

Definition entries_ok (m : list (bytes * Cached V)) : Prop := forall id c, bm_get m id = Some c -> entry_ok id c.

(** The entries are exactly those of a list of releases, by both digests: under an
    identifier is the entry of the last release that has it, and nothing is under an
    identifier that no release has. *)
Definition entries_list (releases : list (ReleaseEvidence T)) (m : list (bytes * Cached V)) : Prop :=
  forall id, match bm_get m id with
  | Some c => exists before release after, releases = before ++ release :: after /\
      payload_sha256 (f (ev_document release)) = Ok id /\
      payload_sha256 (ReleaseEvidence_to_value f release) = Ok (ca_digest c) /\
      Forall (fun other => payload_sha256 (f (ev_document other)) <> Ok id) after
  | None => Forall (fun release => payload_sha256 (f (ev_document release)) <> Ok id) releases
  end.

(** Every release of the list has an identifier. *)
Definition identified (releases : list (ReleaseEvidence T)) : Prop :=
  Forall (fun release => exists id, payload_sha256 (f (ev_document release)) = Ok id) releases.

(** No entry is from later than a time. *)
Definition verified_by (now : Z) (m : list (bytes * Cached V)) : Prop :=
  forall id c, bm_get m id = Some c -> ca_verified_at c <= now.

Lemma cached_entry prior id release now entry reused :
  (forall e, prior = Some e -> entry_ok id e) ->
  payload_sha256 (f (ev_document release)) = Ok id ->
  payload_sha256 (ReleaseEvidence_to_value f release) = Ok (ca_digest entry) ->
  cached prior (ca_digest entry) now (verify release now) = Ok (entry, reused) ->
  entry_ok id entry.
Proof.
  intros Hp Hid Hd. assert (forall value, verify release now = Ok value ->
    entry_ok id {| ca_digest := ca_digest entry; ca_verified_at := now; ca_value := value |}) as Hfresh.
  { intros value Hv. by exists release. }
  unfold cached, approval, map_err. destruct prior as [e|]; [destruct (_ && _) eqn:E|].
  - intros Hc. zbool. destruct (Hp e eq_refl) as (r & Hr & Hi & Hg). destruct entry. cbn in *.
    simplify_eq. by exists r.
  - destruct (verify release now) eqn:Ev; [|done]. intros [= <- _]. by apply Hfresh.
  - destruct (verify release now) eqn:Ev; [|done]. intros [= <- _]. by apply Hfresh.
Qed.

Lemma cached_digest prior digest now r entry reused :
  @cached V prior digest now r = Ok (entry, reused) -> ca_digest entry = digest /\ ca_verified_at entry <= now.
Proof. unfold cached, approval, map_err. intros. case_all; zbool; cbn; (done || lia). Qed.

Lemma entries_list_snoc l m id r c :
  payload_sha256 (f (ev_document r)) = Ok id -> payload_sha256 (ReleaseEvidence_to_value f r) = Ok (ca_digest c) ->
  entries_list l m -> entries_list (l ++ [r]) (bm_insert id c m).
Proof.
  intros Hid Hd Hl k. specialize (Hl k). rewrite bm_get_insert. case_bool_decide as E.
  - subst. by exists l, r, [].
  - assert (Forall (fun other => payload_sha256 (f (ev_document other)) <> Ok k) [r]) as Hr.
    { constructor; [|constructor]. rewrite Hid. congruence. }
    destruct (bm_get m k).
    + destruct Hl as (before & release & after & -> & ? & ? & Ha). exists before, release, (after ++ [r]).
      rewrite <- app_assoc. split_and!; [done|done|done|]. by apply Forall_app.
    + by apply Forall_app.
Qed.

Lemma verify_releases_ok step prior now releases verified done log m :
  (forall p, prior = Some p -> entries_ok p) ->
  entries_ok verified -> entries_list done verified -> verified_by now verified ->
  verify_releases step f (fun r => verify r now) prior now verified releases = (log, Ok m) ->
  entries_ok m /\ entries_list (done ++ releases) m /\ identified releases /\ verified_by now m.
Proof.
  intros Hp. revert verified done log. induction releases as [|r rs IH]; intros verified done log Hv Hl Ht Hm;
    cbn [verify_releases] in Hm; open_observed.
  { rewrite app_nil_r. split_and!; try done. constructor. }
  match goal with H : cached _ _ _ _ = Ok _ |- _ => destruct (cached_digest _ _ _ _ _ _ H) as [? Hat]; subst; rename H into Hc end.
  match goal with H : verify_releases _ _ _ _ _ _ _ = _ |- _ => rename H into Hr end.
  replace (done ++ r :: rs) with ((done ++ [r]) ++ rs) by (by rewrite <- app_assoc).
  destruct (fun H1 H2 H3 => IH _ (done ++ [r]) _ H1 H2 H3 Hr) as (He & Hl' & Hi & Ht').
  - intros id c0. rewrite bm_get_insert. case_bool_decide; [|apply Hv]. intros [= <-]. subst.
    eapply cached_entry; [| | |exact Hc]; [|done|done]. destruct prior as [p|]; [|done]. intros e. cbn. by apply Hp.
  - by apply entries_list_snoc.
  - intros id c0. rewrite bm_get_insert. case_bool_decide; [|apply Ht]. by intros [= <-].
  - split_and!; try done. constructor; [by eexists|done].
Qed.

End Entries.

(** ** The invariant of a verifier *)

(** A snapshot whose Sigstore keys were allocated before [next]. *)
Record snapshot_ok (next : Z) (environment : Environment) (s : Snapshot) : Prop := {
  so_allocated : vs_id (va_sigstore (sn_approvals s)) < next;
  so_environment : km_environment (va_keys (sn_approvals s)) = environment;
  so_gateways : entries_ok GatewayReleaseManifest_to_value (verify_gateway (sn_approvals s)) (sn_gateways s);
  so_gateways_listed :
    entries_list GatewayReleaseManifest_to_value (am_gateways (va_manifest (sn_approvals s))) (sn_gateways s);
  so_catalogs : entries_ok CatalogReleaseManifest_to_value (verify_catalog (sn_approvals s)) (sn_catalogs s);
  so_catalogs_listed :
    entries_list CatalogReleaseManifest_to_value (am_catalogs (va_manifest (sn_approvals s))) (sn_catalogs s);
  so_hardware : verify_hardware_policy (sn_approvals s) = Ok (sn_hardware s);
  so_collateral : built_store (sn_collateral s);
  so_rows : store_lists (sn_collateral_evidence s) (sn_collateral s)
}.

(** A snapshot that a refresh at a time gave: every listed release has an identifier and
    none of the results is from later. *)
Record snapshot_at (now : Z) (s : Snapshot) : Prop := {
  sa_gateways : identified GatewayReleaseManifest_to_value (am_gateways (va_manifest (sn_approvals s)));
  sa_catalogs : identified CatalogReleaseManifest_to_value (am_catalogs (va_manifest (sn_approvals s)));
  sa_gateway_times : verified_by now (sn_gateways s);
  sa_catalog_times : verified_by now (sn_catalogs s)
}.

Record verifier_ok (v : Verifier) : Prop := {
  vo_revocations : rtc revocation_step [] (ve_revocations v);
  vo_accepted : av_accepted (ve_approvals v) = sn_approvals <$> ve_current v;
  vo_current s : ve_current v = Some s -> snapshot_ok (ve_next v) (av_environment (ve_approvals v)) s
}.

Lemma verify_with_keys_inv v keys approvals sigstore now c :
  verify_with_keys v keys approvals sigstore now = Ok c ->
  va_sigstore c = sigstore /\ km_environment (va_keys c) = av_environment v.
Proof.
  unfold verify_with_keys, verify_online_approval, check_update.
  destruct (verify_document_inclusion _ _ _ _ _); [|done]. intros Hv.
  split; [|destruct (_ || _) eqn:E in Hv]; case_all; by zbool.
Qed.

(** The files select the current allocation, whose record is the current one, or a new one. *)
Lemma sigstore_spec v files sigstore reused :
  Verifier_sigstore v files = Ok (sigstore, reused) ->
  vs_id sigstore = ve_next v \/ exists s, ve_current v = Some s /\ sigstore = va_sigstore (sn_approvals s).
Proof.
  unfold Verifier_sigstore, ok_or. destruct (SigstoreFiles_from_value files) as [fs|]; [|done].
  destruct (approval (payload_sha256 _)) as [digest|]; [|done].
  assert (forall x, (let? sigstore := approval (VerifiedSigstore_verify (ve_next v) fs) in Ok (sigstore, false))
    = @Ok _ EvidenceError x -> vs_id x.1 = ve_next v) as Hfresh.
  { intros x. destruct (approval _) as [w|] eqn:E; [|done]. intros [= <-]. apply approval_ok in E.
    unfold VerifiedSigstore_verify, VerifiedSigstore_check, ok_or in E. by case_all. }
  destruct (ve_current v) as [s|]; [case_bool_decide|].
  - intros [= <- _]. right. by exists s.
  - intros Hx. left. by apply (Hfresh _ Hx).
  - intros Hx. left. by apply (Hfresh _ Hx).
Qed.

Lemma verify_snapshot_ok v candidate now log s :
  verifier_ok v ->
  km_environment (va_keys (cd_approvals candidate)) = av_environment (ve_approvals v) ->
  (vs_id (va_sigstore (cd_approvals candidate)) = ve_next v \/
   exists s, ve_current v = Some s /\ va_sigstore (cd_approvals candidate) = va_sigstore (sn_approvals s)) ->
  verify_snapshot v candidate now = (log, Ok s) ->
  sn_approvals s = cd_approvals candidate /\ snapshot_ok (ve_next v + 2) (av_environment (ve_approvals v)) s /\
  snapshot_at now s.
Proof.
  intros [_ _ Hok] He Hs Hv. unfold verify_snapshot in Hv.
  remember (snapshot ← ve_current v; _) as releases eqn:Er in Hv.
  assert (forall p, releases = Some p -> ve_current v = Some p /\
    va_sigstore (sn_approvals p) = va_sigstore (cd_approvals candidate)) as Hrel.
  { intros p ->. destruct (ve_current v) as [q|] eqn:Eq; [|done]. cbn in Er.
    destruct (_ =? _) eqn:Ei in Er; [|done]. simplify_eq. zbool. split; [done|].
    destruct Hs as [Hs|(? & [= <-] & Hs)]; [|done]. pose proof (so_allocated _ _ _ (Hok _ eq_refl)). lia. }
  clear Er. open_observed.
  match goal with H : verify_releases SGatewayRelease _ _ _ _ _ _ = _ |- _ =>
    apply (verify_releases_ok _ (verify_gateway (cd_approvals candidate)) _ _ _ _ _ []) in H as (Hg & Hgl & Hgi & Hgt); [|clear H..] end.
  2: { intros p Hp. destruct releases as [q|]; [|done]. destruct (Hrel _ eq_refl) as [Hq Eq]. injection Hp as <-.
       intros id c Hc. destruct (so_gateways _ _ _ (Hok _ Hq) id c Hc) as (r & Hr & ?). exists r. split; [|done].
       rewrite <- Hr. apply verify_gateway_same; [done|]. rewrite He. symmetry. apply (so_environment _ _ _ (Hok _ Hq)). }
  2, 3, 4: intros ?; (done || constructor).
  match goal with H : verify_releases SCatalogRelease _ _ _ _ _ _ = _ |- _ =>
    apply (verify_releases_ok _ (verify_catalog (cd_approvals candidate)) _ _ _ _ _ []) in H as (Hc & Hcl & Hci & Hct); [|clear H..] end.
  2: { intros p Hp. destruct releases as [q|]; [|done]. destruct (Hrel _ eq_refl) as [Hq Eq]. injection Hp as <-.
       intros id c Hc. destruct (so_catalogs _ _ _ (Hok _ Hq) id c Hc) as (r & Hr & ?). exists r. split; [|done].
       rewrite <- Hr. apply verify_catalog_same; [done|]. rewrite He. symmetry. apply (so_environment _ _ _ (Hok _ Hq)). }
  2, 3, 4: intros ?; (done || constructor).
  split; [done|]. split; [|by split]. split; cbn; try done.
  - destruct Hs as [Hs|(q & Hq & Hs)]; rewrite Hs; [lia|]. pose proof (so_allocated _ _ _ (Hok _ Hq)). lia.
  - destruct (ve_current v) as [q|] eqn:Eq; [|by eapply built_fresh].
    eapply built_again; [|done]. apply (so_collateral _ _ _ (Hok _ eq_refl)).
  - by eapply store_verify_lists.
Qed.

Lemma snapshot_ok_later next next' environment s :
  next <= next' -> snapshot_ok next environment s -> snapshot_ok next' environment s.
Proof. intros Hn []. split; try done. lia. Qed.

(** ** The life of a verifier *)

Inductive VerifierEvent : Type :=
| Refresh (b : bytes) (now : Z)
| LearnKeys (b : bytes) (now : Z).

Definition verifier_step (v : Verifier) (e : VerifierEvent) : Verifier :=
  match e with
  | Refresh b now => (refresh v b now).1
  | LearnKeys b now => (Verifier_verify_key_manifest v b now).1
  end.

(** Between two states: decisions and revocations only advance. *)
Definition later (v v' : Verifier) : Prop :=
  decision_le (av_accepted (ve_approvals v)) (av_accepted (ve_approvals v')) /\
  learned_le (av_key_state (ve_approvals v)) (av_key_state (ve_approvals v')) /\
  rtc revocation_step (ve_revocations v) (ve_revocations v') /\
  av_environment (ve_approvals v') = av_environment (ve_approvals v).

#[export] Instance later_preorder : PreOrder later.
Proof.
  split; [intros v; by split_and!|]. intros x y z (? & ? & ? & ?) (? & ? & ? & ?).
  split_and!; [by etrans..|congruence].
Qed.

(** Both authorities leave a verifier sound. *)
Lemma heard_ok v v1 keys v2 vendor value now :
  observe_authority v value now = (v1, keys) -> observe_vendor v1 value now = (v2, vendor) ->
  verifier_ok v -> verifier_ok v2 /\ later v v2 /\ ve_current v2 = ve_current v /\ ve_next v2 = ve_next v.
Proof.
  intros Hau Hve [Hr Ha Hc]. pose proof (authority_frame v value now) as Hf. rewrite Hau in Hf.
  destruct Hf as (F1 & F2 & F3 & F4 & F5 & F6 & _). unfold observe_vendor in Hve.
  pose proof (observe_steps (ve_revocations v1) (value_index value (ascii "body")) now) as Hs.
  rewrite F2 in Hs, Hve. specialize (Hs (steps_sorted _ _ Hr ltac:(constructor))).
  destruct (Revocations_observe _ _ now) as [rev r]. injection Hve as <- _. cbn [fst] in Hs.
  split_and!; try done.
  - split; cbn; [by etrans|by rewrite F4, F1|]. rewrite F1, F3, F5. apply Hc.
  - split_and!; cbn; try done. by rewrite F4.
Qed.

Lemma accept_decision a c : decision_le (av_accepted a) (av_accepted (accept a c).1).
Proof. apply (approval_step_le a (AcceptCandidate c)). Qed.

Lemma install_ok v s :
  verifier_ok v -> snapshot_ok (ve_next v + 2) (av_environment (ve_approvals v)) s ->
  verifier_ok (install v s).1 /\ later v (install v s).1.
Proof.
  intros [Hr Ha Hc] Hs. unfold install, later.
  pose proof (accept_frame (ve_approvals v) (sn_approvals s)) as (He & Hl & Hyes & Hno).
  pose proof (accept_decision (ve_approvals v) (sn_approvals s)) as Hd.
  destruct (accept (ve_approvals v) (sn_approvals s)) as [approvals [[]|e]]; cbn [fst snd] in *.
  - split; [|by split_and!]. split; cbn; [done|by apply Hyes|]. intros ? [= <-]. by rewrite He.
  - split; [|by split_and!]. split; cbn; [done|by rewrite Hno|]. by rewrite He.
Qed.

Lemma refresh_ok v b now :
  verifier_ok v -> verifier_ok (refresh v b now).1 /\ later v (refresh v b now).1 /\
  forall s, (refresh v b now).2 = Ok s -> snapshot_at now s.
Proof.
  intros Hok. unfold refresh, refresh_observed. destruct (parse_json b) as [value|e]; [|done].
  cbn [silent checked obind continue]. destruct (observe_authority v value now) as [v1 keys] eqn:E1.
  destruct (observe_vendor v1 value now) as [v2 vendor] eqn:E2.
  destruct (heard_ok _ _ _ _ _ _ _ E1 E2 Hok) as (Hok2 & Hlater & Hc2 & Hn2).
  destruct (let! keys := keys in _) as [log [[sigstore ks]|e]] eqn:Ek; cbn [continue]; [|done].
  destruct (verify_candidate v2 value sigstore ks now) as [log' [s|e]] eqn:Ev; cbn [continue]; [|done].
  enough (snapshot_ok (ve_next v2 + 2) (av_environment (ve_approvals v2)) s /\ snapshot_at now s) as [Hs Hat].
  { destruct (install_ok v2 s Hok2 Hs) as [Hi Hl]. assert (forall s', (install v2 s).2.2 = Ok s' -> s' = s) as Hsame.
    { intros s'. unfold install. destruct (accept _ _) as [a [|]]; cbn; [by intros [= <-]|done]. }
    destruct (install v2 s) as [v3 [log3 r]]. cbn in *.
    split_and!; [done|by etrans|]. intros s' ->. by rewrite (Hsame s'). }
  assert (exists reused, Verifier_sigstore v (value_index (value_index value (ascii "body")) (ascii "sigstore"))
    = Ok (sigstore, reused)) as (reused & Hsig).
  { unfold observe_authority in E1.
    destruct (Verifier_sigstore v _) as [[sg reused]|]; [|injection E1 as <- <-; cbn in Ek; done].
    destruct (observe_keys _ _ _ _) as [approvals r]. injection E1 as <- <-. destruct vendor; open_observed.
    destruct (approval r); simplify_eq. by exists reused. }
  apply sigstore_spec in Hsig. unfold verify_candidate in Ev. open_observed.
  match goal with H : verify_with_keys _ _ _ _ _ = Ok _ |- _ => apply verify_with_keys_inv in H as [Hsg Henv] end.
  match goal with H : verify_snapshot _ _ _ = _ |- _ => apply verify_snapshot_ok in H; [tauto|done|done|] end.
  cbn [cd_approvals]. rewrite Hsg, Hc2, Hn2. done.
Qed.

Lemma learn_keys_ok v b now :
  verifier_ok v -> verifier_ok (verifier_step v (LearnKeys b now)) /\ later v (verifier_step v (LearnKeys b now)).
Proof.
  intros [Hr Ha Hc]. cbn [verifier_step]. unfold Verifier_verify_key_manifest, later.
  destruct (match ve_current v with Some _ => _ | None => _ end) as [trust|e]; [|done]. unfold verify_key_manifest.
  pose proof (approval_step_le (ve_approvals v) (ObserveKeys b trust now)) as [Hd Hl]. cbn [approval_step] in Hd, Hl.
  assert (av_environment (observe_keys (ve_approvals v) b trust now).1 = av_environment (ve_approvals v) /\
          av_accepted (observe_keys (ve_approvals v) b trust now).1 = av_accepted (ve_approvals v)) as [He Hacc].
  { unfold observe_keys. destruct (ApprovalVerifier_verify_keys _ _ _ _) as [k|]; [|done].
    by destruct (KeyState_learn _ k). }
  destruct (observe_keys _ b trust now) as [approvals r]. cbn in *.
  split; [|by split_and!]. split; cbn; [done|by rewrite Hacc|by rewrite He].
Qed.

Lemma run_ok v events :
  verifier_ok v -> verifier_ok (fold_left verifier_step events v) /\ later v (fold_left verifier_step events v).
Proof.
  revert v. induction events as [|e events IH]; intros v Hok; cbn [fold_left]; [done|].
  assert (verifier_ok (verifier_step v e) /\ later v (verifier_step v e)) as [H1' H2'].
  { destruct e; [|by apply learn_keys_ok]. cbn [verifier_step]. by destruct (refresh_ok v b now Hok) as (? & ? & _). }
  destruct (IH _ H1') as [? ?]. split; [done|]. by etrans.
Qed.

Lemma new_ok environment root v :
  Verifier_new environment root = Ok v -> verifier_ok v /\ av_environment (ve_approvals v) = environment.
Proof.
  unfold Verifier_new. destruct (approval _) as [a|] eqn:E; [|done]. intros [= <-]. apply approval_ok in E.
  unfold ApprovalVerifier_new in E. destruct (decode_key _ _); [|done]. injection E as <-. by repeat split.
Qed.

(** The current snapshot is the result of a refresh. *)
Lemma current_origin v events s :
  ve_current v = None -> ve_current (fold_left verifier_step events v) = Some s ->
  exists before b now after, events = before ++ Refresh b now :: after /\
    (refresh (fold_left verifier_step before v) b now).2 = Ok s.
Proof.
  intros Hv. induction events as [|e events IH] using rev_ind; [cbn; congruence|]. rewrite fold_left_app. cbn [fold_left].
  set (v1 := fold_left verifier_step events v) in *. intros Hs.
  assert (ve_current v1 = Some s -> exists before b now after, events ++ [e] = before ++ Refresh b now :: after /\
    (refresh (fold_left verifier_step before v) b now).2 = Ok s) as Hold.
  { intros (before & b & now & after & -> & Hr)%IH. exists before, b, now, (after ++ [e]). by rewrite <- app_assoc. }
  destruct e as [b now|b now]; cbn [verifier_step] in Hs.
  - pose proof (refresh_frame v1 b now) as Hf. unfold refresh in Hs.
    destruct (refresh_observed v1 b now) as [v' [log [s'|e]]] eqn:Er; cbn [fst] in Hs; destruct Hf as [[Hc _] _].
    + exists events, b, now, []. split; [done|]. fold v1. unfold refresh. rewrite Er. cbn. congruence.
    + apply Hold. congruence.
  - apply Hold. unfold Verifier_verify_key_manifest in Hs. destruct (match ve_current v1 with Some _ => _ | None => _ end); [|done].
    by destruct (verify_key_manifest _ _ _ _).
Qed.

Lemma dedup_elem l x : x ∈ dedup l <-> x ∈ l.
Proof.
  induction l as [|a l IH]; [done|]. destruct l as [|b l]; [done|]. cbn [dedup] in *. case_bool_decide as E.
  - subst. rewrite IH. set_solver.
  - rewrite !elem_of_cons in *. tauto.
Qed.

(** What the summary of the hardware policy says of it. *)
Record hardware_of (policy : HardwarePolicy) (h : VerifiedHardwarePolicy) : Prop := {
  ho_digest : exists canonical, canonical_json (HardwarePolicy_to_value policy) = Some canonical /\
    vh_sha256 h = hex_encode (sha256 canonical);
  ho_version : vh_version h = hw_version policy /\ vh_policy_count h = zlen (hw_policies policy);
  ho_chips chip : chip ∈ vh_chip_ids h <-> exists profile, profile ∈ hw_policies policy /\ chip ∈ ap_chip_ids profile
}.

Lemma hardware_inv a h :
  verify_hardware_policy a = Ok h -> hardware_of (am_hardware_policy (va_manifest a)) h.
Proof.
  intros Hv%map_err_ok. unfold hardware_policy_of, validate_hardware_policy in Hv.
  set (policy := am_hardware_policy (va_manifest a)) in *. pass Hv as canonical by Hc. injection Hv as <-.
  pass Hc by Hshape. pass Hc as ? by Hp. apply ok_or_ok in Hc. split; cbn; [by exists canonical|done|]. intros chip.
  rewrite dedup_elem, merge_sort_Permutation, list_elem_of_bind. naive_solver.
Qed.

(** C18. Whatever a verifier is given over its life, its current snapshot is sound and
    complete. It came from a refresh. Its gateways and catalogs are exactly the releases its
    decision lists: each release is there under its identifier, the digest kept with it is
    that of the last listed release with that identifier, and there are no others. Each
    result is what verifying a release of those digests under this very decision's Sigstore
    keys and environment gave, not later than that refresh, also when it was reused from
    earlier snapshots. The hardware policy is the decision's. The platforms are those of the
    collateral rows, and each has a chain from a pinned root to its key. *)
Theorem snapshots_sound environment root v events s :
  Verifier_new environment root = Ok v ->
  ve_current (fold_left verifier_step events v) = Some s ->
  km_environment (va_keys (sn_approvals s)) = environment /\
  (exists before b now after, events = before ++ Refresh b now :: after /\
    (refresh (fold_left verifier_step before v) b now).2 = Ok s /\ snapshot_at now s) /\
  entries_ok GatewayReleaseManifest_to_value (verify_gateway (sn_approvals s)) (sn_gateways s) /\
  entries_list GatewayReleaseManifest_to_value (am_gateways (va_manifest (sn_approvals s))) (sn_gateways s) /\
  entries_ok CatalogReleaseManifest_to_value (verify_catalog (sn_approvals s)) (sn_catalogs s) /\
  entries_list CatalogReleaseManifest_to_value (am_catalogs (va_manifest (sn_approvals s))) (sn_catalogs s) /\
  hardware_of (am_hardware_policy (va_manifest (sn_approvals s))) (sn_hardware s) /\
  store_lists (sn_collateral_evidence s) (sn_collateral s) /\
  (forall id p, bm_get (so_platforms (sn_collateral s)) id = Some p ->
    exists chip tcb ark ask vek, id = amd_platform_key chip tcb /\ chain_of p chip tcb ark ask vek).
Proof.
  intros Hn Hs. destruct (new_ok _ _ _ Hn) as [Hok He]. destruct (run_ok v events Hok) as [[_ _ Hc] (_ & _ & _ & Henv)].
  assert (ve_current v = None) as Hv.
  { unfold Verifier_new in Hn. destruct (approval _); [|done]. by injection Hn as <-. }
  destruct (current_origin v events s Hv Hs) as (before & b & now & after & Hev & Hr).
  destruct (Hc s Hs). rewrite Henv, He in *. split_and!; try done.
  - exists before, b, now, after. split_and!; [done|done|]. destruct (run_ok v before Hok) as [Hb _].
    by apply (refresh_ok _ b now Hb).
  - by apply hardware_inv.
  - intros id p Hp. destruct (built_store_ok (sn_collateral s)) with id p as (ark & ask & vek & chip & tcb & Hver & Hch & Ht & Hid); [done|done|].
    destruct (platform_chain _ _ _ _ _ _ _ Hver Hch Ht) as (a & k & w & Hchain). by exists chip, tcb, a, k, w.
Qed.

(** Nothing rolls back over a verifier's life: between any two of its states, the
    installed decision is only replaced by one that supersedes it, the learned keys only
    advance, and the revocation state only takes authenticated steps, in whatever order
    inputs arrive and whichever of them fail. *)
Theorem snapshots_never_roll_back environment root v before after :
  Verifier_new environment root = Ok v ->
  let v1 := fold_left verifier_step before v in
  let v2 := fold_left verifier_step (before ++ after) v in
  decision_le (sn_approvals <$> ve_current v1) (sn_approvals <$> ve_current v2) /\
  learned_le (av_key_state (ve_approvals v1)) (av_key_state (ve_approvals v2)) /\
  rtc revocation_step (ve_revocations v1) (ve_revocations v2).
Proof.
  intros Hn v1 v2. destruct (new_ok _ _ _ Hn) as [Hok _]. destruct (run_ok v before Hok) as [Hok1 _]. fold v1 in Hok1.
  destruct (run_ok v1 after Hok1) as [Hok2 (? & ? & ? & _)]. unfold v2. rewrite fold_left_app. fold v1.
  rewrite <- (vo_accepted _ Hok1), <- (vo_accepted _ Hok2). done.
Qed.

End Snapshots.
