(* ===== verification/Certificates.v ===== *)
(** Certificate requests of a booted node ([lib.rs]) and the native TLS certificate
    ([attestation/certificate.rs]); the PKCS #10 parser and P-256 are parameters. *)

From S2P Require Import Prelude Primitives BTree Text Json Signing Attestation Documents Deserialize Approvals Snp Amd.

Open Scope Z_scope.

(** ** PKCS #10 *)

Inductive GeneralName : Type := DNSName (name : bytes) | OtherName.
Inductive RequestedExtension : Type := SubjectAlternativeName (general_names : list GeneralName) | OtherRequested.
Inductive CriAttribute : Type := ExtensionRequest (extensions : list RequestedExtension) | OtherAttribute.

(** Each common name is its text, when it is UTF-8; [cq_subject_attributes] counts the
    attributes of every relative name. *)
Record CertificationRequest : Type := {
  cq_version : Z;
  cq_signature_oid : bytes;
  cq_signature_parameters : bool;
  cq_signature_unused_bits : Z;
  cq_signature : bytes;
  cq_spki_oid : bytes;
  cq_spki_parameters : option bytes;
  cq_spki_unused_bits : Z;
  cq_spki_key : bytes;
  cq_spki_raw : bytes;
  cq_info_raw : bytes;
  cq_common_names : list (option bytes);
  cq_subject_attributes : Z;
  cq_attributes : list CriAttribute
}.

(** The parser returns the unread bytes, the bytes read and the request. *)
Class Pkcs10 := {
  csr_from_der : bytes -> option (bytes * bytes * CertificationRequest);
  p256_key : bytes -> bool;
  p256_signature : bytes -> bool;
  p256_verify (key message signature : bytes) : bool
}.

Definition OID_SIG_ECDSA_WITH_SHA256 : bytes := ascii "1.2.840.10045.4.3.2".
Definition OID_KEY_TYPE_EC_PUBLIC_KEY : bytes := ascii "1.2.840.10045.2.1".
Definition OID_EC_P256 : bytes := ascii "1.2.840.10045.3.1.7".

Section Certificates.
Context `{Base64} `{Hash} `{Encodings} `{X509} `{Unicode} `{Pkcs10}.

Definition verify_certificate_csr_key_and_signature (csr : CertificationRequest) (expected_tls_spki_sha256 : bytes)
  : result unit SnpError :=
  reject negb (cq_version csr =? 0) with Node (ascii "certificate CSR must use PKCS #10 version 1");
  reject negb (bool_decide (cq_signature_oid csr = OID_SIG_ECDSA_WITH_SHA256)) || cq_signature_parameters csr
      || negb (cq_signature_unused_bits csr =? 0)
    with Node (ascii "certificate CSR must use canonical ECDSA with SHA-256");
  reject negb (bool_decide (cq_spki_oid csr = OID_KEY_TYPE_EC_PUBLIC_KEY))
      || negb (bool_decide (cq_spki_parameters csr = Some OID_EC_P256))
      || negb (cq_spki_unused_bits csr =? 0)
    with Node (ascii "certificate CSR must contain a P-256 public key");
  reject negb (p256_key (cq_spki_key csr)) with Node (ascii "certificate CSR P-256 public key is invalid");
  reject negb (p256_signature (cq_signature csr)) with Node (ascii "certificate CSR signature is not canonical DER");
  reject negb (p256_verify (cq_spki_key csr) (cq_info_raw csr) (cq_signature csr))
    with Node (ascii "certificate CSR proof of possession is invalid");
  reject negb (bool_decide (hex_encode (sha256 (cq_spki_raw csr)) = expected_tls_spki_sha256))
    with Node (ascii "certificate CSR SPKI does not match the attested node key");
  Ok tt.

Definition verify_certificate_csr_subject (csr : CertificationRequest) (expected_common_name : option bytes)
  : result unit SnpError :=
  let? common_names := ok_or (mapM id (cq_common_names csr)) (Node (ascii "certificate CSR common name is not UTF-8")) in
  reject negb (bool_decide (common_names = option_list expected_common_name))
    with Node (ascii "certificate CSR common name differs from the certificate order");
  reject negb (cq_subject_attributes csr =? zlen common_names)
    with Node (ascii "certificate CSR contains unexpected subject attributes");
  Ok tt.

(** [name.trim().to_ascii_lowercase()]. *)
Definition normalize (name : bytes) : bytes := ascii_lower <$> str_trim name.

(** A [BTreeSet] of strings. *)
Definition string_set : Type := list (bytes * unit).
Definition set_of_list (l : list bytes) : string_set := bm_of_list ((fun x => (x, tt)) <$> l).

(** The loop over one extension's names. *)
Fixpoint collect_names (dns_names : string_set) (names : list GeneralName) : result string_set SnpError :=
  match names with
  | [] => Ok dns_names
  | DNSName name :: rest =>
      let normalized := normalize name in
      reject (zlen normalized =? 0) || bool_decide (is_Some (bm_get dns_names normalized))
        with Node (ascii "certificate CSR contains an empty or duplicate DNS SAN");
      collect_names (bm_insert normalized tt dns_names) rest
  | OtherName :: _ => Err (Node (ascii "certificate CSR SANs must contain only DNS names"))
  end.

(** The loop over the requested extensions, with the saturating 8-bit count. *)
Fixpoint collect_extensions (san_extensions : Z) (dns_names : string_set) (extensions : list RequestedExtension)
  : result (Z * string_set) SnpError :=
  match extensions with
  | [] => Ok (san_extensions, dns_names)
  | SubjectAlternativeName names :: rest =>
      let? dns_names := collect_names dns_names names in
      collect_extensions (Z.min u8_max (san_extensions + 1)) dns_names rest
  | OtherRequested :: _ => Err (Node (ascii "certificate CSR contains an unexpected requested extension"))
  end.

Definition verify_certificate_csr_dns_names (csr : CertificationRequest) (expected_dns_names : list bytes)
  : result unit SnpError :=
  match cq_attributes csr with
  | [ExtensionRequest extensions] =>
      let? (san_extensions, dns_names) := collect_extensions 0 [] extensions in
      reject negb (san_extensions =? 1) with Node (ascii "certificate CSR must contain exactly one DNS SAN extension");
      let expected := set_of_list (normalize <$> expected_dns_names) in
      reject (zlen expected =? 0) || negb (zlen expected =? zlen dns_names) || negb (bool_decide (expected = dns_names))
        with Node (ascii "certificate CSR DNS SANs differ from the certificate order");
      Ok tt
  | [OtherAttribute] => Err (Node (ascii "certificate CSR contains an unexpected attribute"))
  | _ => Err (Node (ascii "certificate CSR must contain exactly one extension-request attribute"))
  end.

Definition verify_certificate_csr (csr_der expected_tls_spki_sha256 : bytes) (expected_common_name : option bytes)
    (expected_dns_names : list bytes) : result unit SnpError :=
  reject (zlen csr_der =? 0) || (16 * 1024 <? zlen csr_der) with Node (ascii "certificate CSR has an invalid length");
  let? (remaining, raw, csr) := ok_or (csr_from_der csr_der) (Node (ascii "certificate CSR is not valid DER")) in
  reject negb (zlen remaining =? 0) || negb (zlen raw =? zlen csr_der)
    with Node (ascii "certificate CSR contains trailing data");
  let? _ := verify_certificate_csr_key_and_signature csr expected_tls_spki_sha256 in
  let? _ := verify_certificate_csr_subject csr expected_common_name in
  verify_certificate_csr_dns_names csr expected_dns_names.

(** ** attestation/certificate.rs *)

Definition MLDSA_OID : bytes := ascii "2.16.840.1.101.3.4.3.18".
Definition MAX_CERTIFICATE_BYTES : Z := 64 * 1024 - 13.
Definition CMW_OID : bytes := ascii "1.3.6.1.5.5.7.1.35".

(** [mldsa::public_key_from_spki]. *)
Definition mldsa_public_key_from_spki (der : bytes) : result bytes SigningError :=
  let? (oid, parameters, key) := ok_or (spki_from_der der) SgPublicKey in
  reject negb (bool_decide (oid = MLDSA_OID)) || parameters with SgPublicKey;
  let? key := ok_or key SgPublicKey in
  reject negb (zlen key =? MLDSA_PUBLIC_KEY_BYTES) with SgLength;
  Ok key.

Record ParsedNativeCertificate : Type := {
  nc_evidence : SessionEvidence;
  nc_signer_spki_sha256 : bytes;
  nc_not_before : Z;
  nc_not_after : Z
}.

Definition ParsedNativeCertificate_parse (der : bytes) : result ParsedNativeCertificate CertificateError :=
  reject MAX_CERTIFICATE_BYTES <? zlen der with CTooLarge;
  let? (remaining, certificate) := ok_or (parse_x509_certificate der) CCertificate in
  reject negb (zlen remaining =? 0) with CCertificate;
  let key := x_public_key certificate in
  let? _ := map_err (fun _ => CCertificate) (mldsa_public_key_from_spki key) in
  match List.filter (fun e => bool_decide (xe_oid e = CMW_OID)) (x_extensions certificate) with
  | [extension] =>
      let? evidence := SessionEvidence_from_extension (xe_value extension) in
      let? not_before := ok_or (checked_mul_1000 (x_not_before certificate)) CCertificate in
      let? not_after := ok_or (checked_mul_1000 (x_not_after certificate)) CCertificate in
      Ok {| nc_evidence := evidence; nc_signer_spki_sha256 := sha256 key; nc_not_before := not_before;
            nc_not_after := not_after |}
  | _ => Err CExtension
  end.

Definition ParsedNativeCertificate_valid_at (c : ParsedNativeCertificate) (now_unix_ms : Z)
  : result unit CertificateError :=
  reject (now_unix_ms <? nc_not_before c) || (nc_not_after c <=? now_unix_ms) with CCertificate;
  Ok tt.

End Certificates.
