(* ===== verification/Boot.v ===== *)
(** Boots, reports and sessions under a snapshot: [evidence/snp.rs], [evidence/boot.rs],
    [evidence/session.rs], [evidence/history.rs], and the boot producers of [gateway.rs]. *)

From S2P Require Import Prelude Json ApprovalsTheory SnpTheory Primitives BTree Record Ratchet Window Session Signing.
From S2P Require Import Attestation Setup Receipt Provisioning Documents Deserialize Approvals Snp Releases Amd Collateral.
From S2P Require Import Certificates Snapshot.

Open Scope Z_scope.

(** What a snapshot shares with the verifier that installed it: the learned keys and the
    vendor's revocations. *)
Record Shared : Type := { sh_key_state : KeyState; sh_revocations : Issuers }.

(** [invalid] and [attestation_error], by the reason where it is known. *)
Definition attestation {A} (o : option A) : result A EvidenceError := ok_or o (EvAttestation []).
Definition attestation_snp {A} (r : result A SnpError) : result A EvidenceError :=
  map_err (fun e => EvAttestation (snp_reason e)) r.

(** ** boot.rs: requests *)

Inductive BootRequestPurpose : Type := Certificate | Complete.

Definition boot_domain (purpose : BootRequestPurpose) : bytes :=
  match purpose with
  | Certificate => ascii "stogas.certificate-renewal.v1" ++ [x00]
  | Complete => ascii "stogas.registration-complete.v1" ++ [x00]
  end.

Definition request_message (purpose : BootRequestPurpose) (node_id : bytes) (issued_at_ms : Z) : bytes :=
  boot_domain purpose ++ node_id ++ [x00] ++ u64_be issued_at_ms.

Record BootRequestAuthorization : Type := { bq_node_id : bytes; bq_issued_at_ms : Z; bq_signature : bytes }.

Definition BootRequestAuthorization_from_value (v : Value) : option BootRequestAuthorization :=
  match struct_values [ascii "node_id"; ascii "issued_at_ms"; ascii "signature"] v with
  | Some [node_id; issued_at_ms; signature] =>
      node_id ← node_id ≫= as_str;
      issued_at_ms ← issued_at_ms ≫= as_i64;
      signature ← signature ≫= as_str;
      Some {| bq_node_id := node_id; bq_issued_at_ms := issued_at_ms; bq_signature := signature |}
  | _ => None
  end.

(** ** boot.rs: documents *)

Definition BOOT_SCHEMA : bytes := ascii "stogas.node-boot.v1".
Definition BOOT_PUBLICATION_SCHEMA : bytes := ascii "stogas.node-registration.v1".
Definition REPORT_DATA_SCHEMA : bytes := ascii "stogas.node-report.v1".

Record BootReportData : Type := {
  bd_schema : bytes;
  bd_environment : Environment;
  bd_signing_public_key : bytes;
  bd_hpke_public_key : bytes;
  bd_tls_spki_sha256 : bytes;
  bd_registration_challenge : bytes
}.

Record BootRecord : Type := {
  br_schema : bytes;
  br_gateway_release_id : bytes;
  br_report : bytes;
  br_report_data : BootReportData
}.

Record BootPublication : Type := { bp_schema : bytes; bp_boot : BootRecord; bp_evidence_sha256 : bytes }.

Record BootInclusion : Type := {
  bi_evidence_sha256 : bytes;
  bi_signature : StogasSignature;
  bi_inclusion : Value
}.

Definition BootReportData_to_value (d : BootReportData) : Value :=
  JObject [(ascii "schema", JString (bd_schema d)); (ascii "environment", Environment_to_value (bd_environment d));
           (ascii "signing_public_key", JString (bd_signing_public_key d));
           (ascii "hpke_public_key", JString (bd_hpke_public_key d));
           (ascii "tls_spki_sha256", JString (bd_tls_spki_sha256 d));
           (ascii "registration_challenge", JString (bd_registration_challenge d))].

Definition BootRecord_to_value (r : BootRecord) : Value :=
  JObject [(ascii "schema", JString (br_schema r)); (ascii "gateway_release_id", JString (br_gateway_release_id r));
           (ascii "report", JString (br_report r)); (ascii "report_data", BootReportData_to_value (br_report_data r))].

Definition BootPublication_to_value (p : BootPublication) : Value :=
  JObject [(ascii "schema", JString (bp_schema p)); (ascii "boot", BootRecord_to_value (bp_boot p));
           (ascii "evidence_sha256", JString (bp_evidence_sha256 p))].

Definition BootInclusion_to_value (i : BootInclusion) : Value :=
  JObject [(ascii "evidence_sha256", JString (bi_evidence_sha256 i));
           (ascii "signature", StogasSignature_to_value (bi_signature i)); (ascii "inclusion", bi_inclusion i)].

Definition BootReportData_from_value (v : Value) : option BootReportData :=
  match struct_values [ascii "schema"; ascii "environment"; ascii "signing_public_key"; ascii "hpke_public_key";
                       ascii "tls_spki_sha256"; ascii "registration_challenge"] v with
  | Some [schema; environment; signing; hpke; tls; challenge] =>
      schema ← schema ≫= as_str;
      environment ← environment ≫= Environment_from_value;
      signing ← signing ≫= as_str;
      hpke ← hpke ≫= as_str;
      tls ← tls ≫= as_str;
      challenge ← challenge ≫= as_str;
      Some {| bd_schema := schema; bd_environment := environment; bd_signing_public_key := signing;
              bd_hpke_public_key := hpke; bd_tls_spki_sha256 := tls; bd_registration_challenge := challenge |}
  | _ => None
  end.

Definition BootRecord_from_value (v : Value) : option BootRecord :=
  match struct_values [ascii "schema"; ascii "gateway_release_id"; ascii "report"; ascii "report_data"] v with
  | Some [schema; release; report; data] =>
      schema ← schema ≫= as_str;
      release ← release ≫= as_str;
      report ← report ≫= as_str;
      data ← data ≫= BootReportData_from_value;
      Some {| br_schema := schema; br_gateway_release_id := release; br_report := report; br_report_data := data |}
  | _ => None
  end.

Definition BootPublication_from_value (v : Value) : option BootPublication :=
  match struct_values [ascii "schema"; ascii "boot"; ascii "evidence_sha256"] v with
  | Some [schema; boot; evidence] =>
      schema ← schema ≫= as_str;
      boot ← boot ≫= BootRecord_from_value;
      evidence ← evidence ≫= as_str;
      Some {| bp_schema := schema; bp_boot := boot; bp_evidence_sha256 := evidence |}
  | _ => None
  end.

Definition BootInclusion_from_value (v : Value) : option BootInclusion :=
  match struct_values [ascii "evidence_sha256"; ascii "signature"; ascii "inclusion"] v with
  | Some [evidence; signature; inclusion] =>
      evidence ← evidence ≫= as_str;
      signature ← signature ≫= StogasSignature_from_value;
      inclusion ← inclusion;
      Some {| bi_evidence_sha256 := evidence; bi_signature := signature; bi_inclusion := inclusion |}
  | _ => None
  end.

(** The loops over the digits are those of [is_lower_hex]. *)
Definition lower_hex (n : Z) (value : bytes) : result bytes EvidenceError :=
  reject negb (is_lower_hex value n) with EvAttestation (ascii "noncanonical boot digest or challenge");
  let? b := attestation (hex_decode value) in
  reject negb (zlen b =? n) with EvAttestation (ascii "boot digest length");
  Ok b.

(** [Environment::api_origin]. *)
Definition api_origin (e : Environment) : bytes :=
  match e with
  | Production => ascii "https://api.stogas.ai"
  | Staging => ascii "https://api-staging.stogas.ai"
  end.

(** ** snp.rs *)

Record VerifiedSnpReport : Type := {
  vr_node_id : bytes;
  vr_report_id : bytes;
  vr_chip_id : bytes;
  vr_reported_tcb : bytes;
  vr_facts : SnpHardwareFacts;
  vr_validity : Validity
}.

Record RegisteredBootFacts : Type := {
  rf_node_id : bytes;
  rf_chip_id : bytes;
  rf_gateway_release_id : bytes;
  rf_hardware : SnpHardwareFacts
}.

Record VerifiedRegistration : Type := {
  vn_record : BootRecord;
  vn_hardware : VerifiedSnpReport;
  vn_document_sha256 : bytes
}.

Record VerifiedBoot : Type := { vb_identity : VerifiedRegistration; vb_integrated_time_unix_ms : Z }.

Record Artifacts : Type := { ar_report : bytes; ar_boot_document : bytes; ar_boot_inclusion : bytes }.

Record VerifiedSession : Type := {
  vx_boot : VerifiedBoot;
  vx_live : VerifiedSnpReport;
  vx_validity : Validity;
  vx_snapshot_identity : Z;
  vx_artifacts : Artifacts
}.

Definition MAX_ARCHIVE_BYTES : Z := 64 * 1024.

Section Boot.
Context `{Json} `{Base64} `{Signatures} `{Hash} `{Encodings} `{Sigstore} `{X509} `{Unicode} `{Pkcs10}.
Context `{Agreement} `{Hpke}.

(** [decode]: the size is checked before the text is decoded. *)
Definition boot_decode (value : bytes) (size : Z) : result bytes EvidenceError :=
  reject negb (zlen value =? (size * 8 + 5) / 6) with EvAttestation (ascii "boot public field size");
  let? b := attestation (base64url_decode value) in
  reject negb (zlen b =? size) || negb (bool_decide (base64url_encode b = value))
    with EvAttestation (ascii "noncanonical boot public field");
  Ok b.

Definition verify_boot_request (request expected_node_id public_key : bytes) (now_unix_ms : Z)
    (purpose : BootRequestPurpose) : result unit EvidenceError :=
  reject 5 * 1024 <? zlen request with EvTooLarge;
  let? value := attestation (strict_json request) in
  let? request := attestation (BootRequestAuthorization_from_value value) in
  reject negb (bool_decide (bq_node_id request = expected_node_id)) || (bq_issued_at_ms request <=? 0)
      || (300000 <? Z.abs (bq_issued_at_ms request - now_unix_ms))
    with EvAttestation (ascii "boot request identity or time differs");
  let? signature := boot_decode (bq_signature request) SIGNATURE_BYTES in
  map_err (fun _ => EvAttestation [])
    (signing_verify public_key (request_message purpose (bq_node_id request) (bq_issued_at_ms request)) signature).

Definition BootReportData_commitment (d : BootReportData) : result bytes EvidenceError :=
  reject negb (bool_decide (bd_schema d = REPORT_DATA_SCHEMA))
    with EvAttestation (ascii "unsupported boot report-data schema");
  let? _ := lower_hex 32 (bd_tls_spki_sha256 d) in
  let? _ := lower_hex 32 (bd_registration_challenge d) in
  let? _ := boot_decode (bd_signing_public_key d) SIGNING_PUBLIC_KEY_BYTES in
  let? recipient := boot_decode (bd_hpke_public_key d) 1216 in
  let? _ := attestation (XWing_public_from_bytes recipient) in
  let? canonical := attestation (canonical_payload (BootReportData_to_value d)) in
  Ok (sha512 canonical).

Definition Snapshot_verify_snp_report (s : Snapshot) (sh : Shared) (report expected_report_data release_id : bytes)
    (now_unix_ms : Z) : result VerifiedSnpReport EvidenceError :=
  let? _ := Snapshot_require_current_keys s (sh_key_state sh) in
  reject negb (zlen report =? SNP_REPORT_BYTES) with EvAttestation (ascii "SNP report has the wrong size");
  let? release := ok_or (Snapshot_gateway s release_id) (EvApproval (ANotApproved (ascii "gateway"))) in
  let report_id := slice report 320 352 in
  let chip_id := hex_encode (slice report 416 480) in
  let reported_tcb := hex_encode (slice report 384 392) in
  let? vcek := Store_vcek (sn_collateral s) chip_id reported_tcb in
  let? product := attestation_snp (validate_report_product_binding vcek report) in
  let? launch := attestation_snp (compatible_launch_policy (vl_launch_policies release) product) in
  let? _ := attestation_snp (check_raw_report_bindings
    {| ex_chip_id := chip_id; ex_reported_tcb := reported_tcb;
       ex_report_data_sha512 := hex_encode expected_report_data |}
    (vl_measurement release) launch report (Some (am_hardware_policy (va_manifest (sn_approvals s))))) in
  let? _ := attestation_snp (verify_raw_snp_report_signature_with_vcek report vcek) in
  let? validity := Snapshot_collateral_validity s (sh_revocations sh) chip_id reported_tcb now_unix_ms in
  Ok {| vr_node_id := snp_node_id report_id; vr_report_id := report_id; vr_chip_id := chip_id;
        vr_reported_tcb := reported_tcb; vr_facts := SnpHardwareFacts_from_report report;
        vr_validity := validity |}.

(** ** boot.rs: snapshots *)

Definition VerifiedRegistration_registered_facts (r : VerifiedRegistration) : RegisteredBootFacts :=
  {| rf_node_id := vr_node_id (vn_hardware r); rf_chip_id := vr_chip_id (vn_hardware r);
     rf_gateway_release_id := br_gateway_release_id (vn_record r); rf_hardware := vr_facts (vn_hardware r) |}.

Definition VerifiedRegistration_verify_csr (r : VerifiedRegistration) (csr_der : bytes) : result unit EvidenceError :=
  let? hostname := ok_or (strip_prefix (ascii "https://") (api_origin (bd_environment (br_report_data (vn_record r)))))
    (EvAttestation (ascii "invalid compiled API origin")) in
  attestation_snp (verify_certificate_csr csr_der (bd_tls_spki_sha256 (br_report_data (vn_record r)))
    (Some hostname) [hostname]).

Definition VerifiedRegistration_identity_summary (r : VerifiedRegistration) (integrated_time_unix_ms : option Z)
  : Value :=
  let data := br_report_data (vn_record r) in
  JObject [(ascii "node_id", JString (vr_node_id (vn_hardware r)));
           (ascii "chip_id", JString (vr_chip_id (vn_hardware r)));
           (ascii "reported_tcb", JString (vr_reported_tcb (vn_hardware r)));
           (ascii "boot_sha256", JString (hex_encode (vn_document_sha256 r)));
           (ascii "gateway_release_id", JString (br_gateway_release_id (vn_record r)));
           (ascii "signing_public_key", JString (bd_signing_public_key data));
           (ascii "hpke_public_key", JString (bd_hpke_public_key data));
           (ascii "tls_spki_sha256", JString (bd_tls_spki_sha256 data));
           (ascii "valid_from_unix_ms", jint (va_not_before (vr_validity (vn_hardware r))));
           (ascii "valid_until_unix_ms", jint (va_not_after (vr_validity (vn_hardware r))));
           (ascii "integrated_time_unix_ms",
             match integrated_time_unix_ms with Some t => jint t | None => JNull end)].

Definition VerifiedBoot_verify_csr (b : VerifiedBoot) (csr_der : bytes) : result unit EvidenceError :=
  VerifiedRegistration_verify_csr (vb_identity b) csr_der.

Definition Snapshot_appraise_registered_boot (s : Snapshot) (sh : Shared) (facts : RegisteredBootFacts)
    (now_unix_ms : Z) : result unit EvidenceError :=
  let? _ := Snapshot_require_current_keys s (sh_key_state sh) in
  let? _ := ok_or (Snapshot_gateway s (rf_gateway_release_id facts)) (EvApproval (ANotApproved (ascii "gateway"))) in
  let? _ := attestation_snp (appraise_hardware (am_hardware_policy (va_manifest (sn_approvals s)))
    (rf_chip_id facts) (SnpHardwareFacts_appraise (rf_hardware facts))) in
  let? _ := Snapshot_collateral_validity s (sh_revocations sh) (rf_chip_id facts)
    (SnpHardwareFacts_reported_tcb (rf_hardware facts)) now_unix_ms in
  Ok tt.

Definition parse_record (document : bytes) : result BootRecord EvidenceError :=
  reject MAX_EVIDENCE_BYTES <? zlen document with EvTooLarge;
  let? value := attestation (strict_json document) in
  let? canonical := attestation (canonical_json value) in
  reject negb (bool_decide (canonical = document)) with EvAttestation (ascii "noncanonical boot document");
  let? record := attestation (BootRecord_from_value value) in
  reject negb (bool_decide (br_schema record = BOOT_SCHEMA)) with EvAttestation (ascii "unsupported boot schema");
  let? _ := lower_hex 32 (br_gateway_release_id record) in
  Ok record.

Definition Snapshot_verify_boot_report (s : Snapshot) (sh : Shared) (document : bytes) (record : BootRecord)
    (now_unix_ms : Z) : result VerifiedRegistration EvidenceError :=
  reject negb (bool_decide (bd_environment (br_report_data record) = km_environment (va_keys (sn_approvals s))))
    with EvApproval AAuthority;
  let? report := boot_decode (br_report record) SNP_REPORT_BYTES in
  let? commitment := BootReportData_commitment (br_report_data record) in
  let? hardware := Snapshot_verify_snp_report s sh report commitment (br_gateway_release_id record) now_unix_ms in
  Ok {| vn_record := record; vn_hardware := hardware; vn_document_sha256 := sha256 document |}.

Definition Snapshot_verify_registration (s : Snapshot) (sh : Shared) (document challenge : bytes) (now_unix_ms : Z)
  : result VerifiedRegistration EvidenceError :=
  let? record := parse_record document in
  let? expected := lower_hex 32 (bd_registration_challenge (br_report_data record)) in
  reject negb (bool_decide (expected = challenge)) with EvAttestation (ascii "registration challenge differs");
  Snapshot_verify_boot_report s sh document record now_unix_ms.

Definition Snapshot_verify_registered_boot (s : Snapshot) (sh : Shared) (document registered_sha256 : bytes)
    (now_unix_ms : Z) : result VerifiedRegistration EvidenceError :=
  let? record := parse_record document in
  reject negb (bool_decide (sha256 document = registered_sha256))
    with EvAttestation (ascii "boot differs from registered digest");
  Snapshot_verify_boot_report s sh document record now_unix_ms.

(** The saturating sum of two lengths cannot saturate. *)
Definition Snapshot_verify_logged_boot (s : Snapshot) (sh : Shared) (document inclusion : bytes) (now_unix_ms : Z)
  : result VerifiedBoot EvidenceError :=
  let? record := parse_record document in
  reject MAX_EVIDENCE_BYTES <? zlen document + zlen inclusion with EvTooLarge;
  let? value := attestation (strict_json inclusion) in
  let? proof := attestation (BootInclusion_from_value value) in
  reject negb (is_lower_hex (bi_evidence_sha256 proof) 32) with EvAttestation (ascii "invalid initial evidence identity");
  let keys := va_keys (sn_approvals s) in
  let? signer := ok_or (List.find (fun key => bool_decide (ok_key_id key = ssg_key_id (bi_signature proof)))
                          (km_active_key keys :: km_retired_keys keys)) (EvApproval AInactiveKey) in
  let publication := BootPublication_to_value
    {| bp_schema := BOOT_PUBLICATION_SCHEMA; bp_boot := record; bp_evidence_sha256 := bi_evidence_sha256 proof |} in
  let? _ := approval (verify_signature publication (bi_signature proof) (ok_key_id signer) (ok_public_key signer)) in
  let? integrated := approval (verify_document_inclusion publication (bi_signature proof) (bi_inclusion proof)
    (vs_trusted_root (va_sigstore (sn_approvals s))) now_unix_ms) in
  let? identity := Snapshot_verify_boot_report s sh document record now_unix_ms in
  let? integrated := ok_or (checked_mul_1000 integrated) (EvAttestation (ascii "boot log time overflow")) in
  Ok {| vb_identity := identity; vb_integrated_time_unix_ms := integrated |}.

(** ** session.rs *)

Definition Snapshot_appraise_session (s : Snapshot) (sh : Shared) (artifacts : Artifacts) (now_unix_ms : Z)
  : result VerifiedSession EvidenceError :=
  let? boot := Snapshot_verify_logged_boot s sh (ar_boot_document artifacts) (ar_boot_inclusion artifacts) now_unix_ms in
  reject zlen (ar_report artifacts) <? 144 with EvAttestation (ascii "report length");
  let commitment := slice (ar_report artifacts) 80 144 in
  let? live := Snapshot_verify_snp_report s sh (ar_report artifacts) commitment
    (br_gateway_release_id (vn_record (vb_identity boot))) now_unix_ms in
  let hardware := vn_hardware (vb_identity boot) in
  reject negb (bool_decide (vr_report_id live = vr_report_id hardware))
      || negb (bool_decide (vr_chip_id live = vr_chip_id hardware))
    with EvAttestation (ascii "live report belongs to a different boot");
  Ok {| vx_boot := boot; vx_live := live;
        vx_validity := Validity_intersect (vr_validity hardware) (vr_validity live);
        vx_snapshot_identity := sn_identity s; vx_artifacts := artifacts |}.

Definition Snapshot_verify_session_identity (s : Snapshot) (sh : Shared) (evidence : SessionEvidence) (now_unix_ms : Z)
  : result VerifiedSession EvidenceError :=
  Snapshot_appraise_session s sh {| ar_report := se_report evidence; ar_boot_document := se_boot_document evidence;
    ar_boot_inclusion := se_boot_inclusion evidence |} now_unix_ms.

Definition Snapshot_verify_native_certificate (s : Snapshot) (sh : Shared) (certificate challenge : bytes)
    (now_unix_ms : Z) : result VerifiedSession EvidenceError :=
  let? parsed := map_err (fun _ => EvAttestation []) (ParsedNativeCertificate_parse certificate) in
  let? _ := map_err (fun _ => EvAttestation []) (ParsedNativeCertificate_valid_at parsed now_unix_ms) in
  let? _ := map_err (fun _ => EvAttestation []) (SessionEvidence_verify_channel_binding (nc_evidence parsed)
    (km_environment (va_keys (sn_approvals s))) challenge (nc_signer_spki_sha256 parsed)) in
  Snapshot_verify_session_identity s sh (nc_evidence parsed) now_unix_ms.

Definition Snapshot_reappraise_session (s : Snapshot) (sh : Shared) (session : VerifiedSession) (now_unix_ms : Z)
  : result VerifiedSession EvidenceError :=
  Snapshot_appraise_session s sh (vx_artifacts session) now_unix_ms.

Definition Snapshot_check_session (s : Snapshot) (sh : Shared) (session : VerifiedSession) (now_unix_ms : Z)
  : result Validity EvidenceError :=
  reject negb (sn_identity s =? vx_snapshot_identity session)
    with EvAttestation (ascii "session needs appraisal against this snapshot");
  let? _ := Snapshot_require_current_keys s (sh_key_state sh) in
  let boot := vn_hardware (vb_identity (vx_boot session)) in
  let? a := Snapshot_collateral_validity s (sh_revocations sh) (vr_chip_id boot) (vr_reported_tcb boot) now_unix_ms in
  let? b := Snapshot_collateral_validity s (sh_revocations sh) (vr_chip_id (vx_live session))
    (vr_reported_tcb (vx_live session)) now_unix_ms in
  Ok (Validity_intersect a b).

(** ** history.rs *)

Definition historical_verifier (v : Verifier) : result Verifier EvidenceError :=
  let? approvals := approval (historical_authority (ve_approvals v)) in
  Ok {| ve_approvals := approvals; ve_current := None; ve_revocations := []; ve_next := 0 |}.

Definition Archive_from_value (v : Value) : option (LoggedDocument BootPublication) :=
  match struct_values [ascii "document"; ascii "signature"; ascii "inclusion"] v with
  | Some [document; signature; inclusion] =>
      document ← document ≫= BootPublication_from_value;
      signature ← signature ≫= StogasSignature_from_value;
      inclusion ← inclusion;
      Some {| ld_document := document; ld_signature := signature; ld_inclusion := inclusion |}
  | _ => None
  end.

(** The candidate clock of an archive: one entry, a decimal second, not in the future. *)
Definition archive_time (inclusion : Value) (now_unix_ms : Z) : result Z EvidenceError :=
  match as_array (value_index (value_index inclusion (ascii "verificationMaterial")) (ascii "tlogEntries")) with
  | Some [entry] =>
      ok_or (text ← as_str (value_index entry (ascii "integratedTime"));
             seconds ← parse_i64 text;
             at_ ← checked_mul_1000 seconds;
             if (0 <? at_) && (at_ <=? now_unix_ms) then Some at_ else None)
        (EvInvalid (ascii "invalid boot archive log time"))
  | _ => Err (EvInvalid (ascii "boot archive requires one log entry"))
  end.

(** The refresh is that of a verifier of its own, dropped with it: its shared state is its own. *)
Definition Verifier_verify_boot_archive (v : Verifier) (archive evidence : bytes) (now_unix_ms : Z)
  : result VerifiedBoot EvidenceError :=
  reject (MAX_ARCHIVE_BYTES <? zlen archive) || (MAX_INPUT_BYTES <? zlen evidence) with EvTooLarge;
  let? value := ok_or (strict_json archive) (EvInvalid []) in
  let? archive := ok_or (Archive_from_value value) (EvInvalid []) in
  let? at_ := archive_time (ld_inclusion archive) now_unix_ms in
  let? historical := historical_verifier v in
  let (historical, r) := refresh historical evidence at_ in
  let? snapshot := r in
  let document := ld_document archive in
  reject negb (bool_decide (bp_schema document = BOOT_PUBLICATION_SCHEMA))
      || negb (bool_decide (sn_body_sha256 snapshot = bp_evidence_sha256 document))
    with EvInvalid (ascii "boot archive evidence identity differs");
  let? text := ok_or (canonical_json (BootRecord_to_value (bp_boot document))) (EvInvalid []) in
  let inclusion := json_to_vec (BootInclusion_to_value
    {| bi_evidence_sha256 := bp_evidence_sha256 document; bi_signature := ld_signature archive;
       bi_inclusion := ld_inclusion archive |}) in
  let shared := {| sh_key_state := av_key_state (ve_approvals historical);
                   sh_revocations := ve_revocations historical |} in
  let? boot := Snapshot_verify_logged_boot snapshot shared text inclusion at_ in
  reject negb (vb_integrated_time_unix_ms boot =? at_) with EvInvalid (ascii "boot archive log time differs");
  Ok boot.

(** ** gateway.rs *)

Definition boot_report_data (k : NodeKeys) (environment : Environment) (tls_spki_sha256 challenge : bytes)
  : BootReportData :=
  {| bd_schema := REPORT_DATA_SCHEMA; bd_environment := environment;
     bd_signing_public_key := base64url_encode (sk_public (nk_signing k));
     bd_hpke_public_key := nk_recipient_public k; bd_tls_spki_sha256 := hex_encode tls_spki_sha256;
     bd_registration_challenge := hex_encode challenge |}.

Definition NodeKeys_report_data (k : NodeKeys) (environment : Environment) (tls_spki_sha256 challenge : bytes)
  : result bytes GatewayError :=
  map_err (fun _ => Input (ascii "boot report data"))
    (BootReportData_commitment (boot_report_data k environment tls_spki_sha256 challenge)).

Definition NodeKeys_boot_document (k : NodeKeys) (environment : Environment)
    (tls_spki_sha256 challenge report gateway_release_id : bytes) : result bytes GatewayError :=
  let data := boot_report_data k environment tls_spki_sha256 challenge in
  let? commitment := map_err (fun _ => Input (ascii "boot report data")) (BootReportData_commitment data) in
  reject negb (zlen report =? REPORT_BYTES) || negb (bool_decide (slice report 80 144 = commitment))
    with Input (ascii "boot quote commits other report data");
  ok_or (canonical_json (BootRecord_to_value
    {| br_schema := BOOT_SCHEMA; br_gateway_release_id := hex_encode gateway_release_id;
       br_report := base64url_encode report; br_report_data := data |})) (Input (ascii "boot document")).

Definition NodeKeys_sign_boot_request `{Random} (k : NodeKeys) (purpose : BootRequestPurpose) (node_id : bytes)
    (issued_at_ms : Z) (g : rng) : rng * result bytes GatewayError :=
  let (g, r) := SigningKey_sign (nk_signing k) (request_message purpose node_id issued_at_ms) g in
  (g, map_err GSigning r).

(** The per-connection TLS signer. *)
Record TlsKey : Type := { tk_key : MldsaSigningKey }.

Definition TlsKey_generate `{Random} (g : rng) : rng * result TlsKey GatewayError :=
  let (g, r) := MldsaSigningKey_generate g in
  (g, map_err GSigning (let? key := r in Ok {| tk_key := key |})).

Definition TlsKey_public_key (k : TlsKey) : bytes := mk_public (tk_key k).

Definition TlsKey_sign `{Random} (k : TlsKey) (message : bytes) (g : rng) : rng * result bytes GatewayError :=
  let (g, r) := MldsaSigningKey_sign (tk_key k) message [] g in (g, map_err GSigning r).

End Boot.

(** * Theory

    Boots and sessions: what an accepted report, boot and session prove, that a session is
    rechecked against what was learned since, and that what gateways produce is accepted. *)

(** ** Hexadecimal text *)

Lemma lower_hex_encode l n : zlen l = n -> lower_hex n (hex_encode l) = Ok l.
Proof.
  intros Hl. unfold lower_hex. rewrite hex_encode_lower, hex_decode_encode by done. cbn [negb attestation ok_or].
  by rewrite (proj2 (Z.eqb_eq _ _)).
Qed.

(** ** Boot requests *)

Lemma boot_domain_split p p' a b : boot_domain p ++ a = boot_domain p' ++ b -> p = p' /\ a = b.
Proof. destruct p, p'; cbn; intros E; by simplify_eq. Qed.

(** The messages that boot requests sign are unambiguous: no signature for one purpose,
    node or time is one for another. *)
Theorem boot_requests_distinct p p' node node' time time' :
  0 <= time <= i64_max -> 0 <= time' <= i64_max ->
  request_message p node time = request_message p' node' time' ->
  p = p' /\ node = node' /\ time = time'.
Proof.
  unfold request_message, i64_max. intros Ht Ht' E. apply boot_domain_split in E as [-> E]. split; [done|].
  assert (length node = length node') as Hl.
  { apply (f_equal zlen) in E. zlen_norm. unfold zlen in E. lia. }
  apply app_inj_1 in E as [-> E]; [|done]. split; [done|]. apply (app_inj_1 [x00] [x00]) in E as [_ E]; [|done].
  apply be_bytes_inj in E; [done|..]; change (256 ^ Z.of_nat 8) with 18446744073709551616; lia.
Qed.

Section Boots.
Context `{Json} `{Base64} `{Signatures} `{Hash} `{Encodings} `{Sigstore} `{X509} `{Unicode} `{Pkcs10}.
Context `{Agreement} `{Hpke}.

(** ** Reports *)

(** What an accepted report proves: the keys are current; an approved release fixes its
    measurement and launch values; it carries exactly the expected data; the platform's
    VCEK signed it; and the platform is appraised at that time. *)
Record report_proof (s : Snapshot) (sh : Shared) (report data release_id : bytes) (now : Z) (v : VerifiedSnpReport)
  : Prop := {
  rp_keys : Snapshot_require_current_keys s (sh_key_state sh) = Ok tt;
  rp_release : exists release product launch,
    Snapshot_gateway s release_id = Some release /\
    compatible_launch_policy (vl_launch_policies release) product = Ok launch /\
    hex_decode (vl_measurement release) = Some (slice report 144 192) /\
    report_matches {| ex_chip_id := vr_chip_id v; ex_reported_tcb := vr_reported_tcb v;
                      ex_report_data_sha512 := hex_encode data |}
      (vl_measurement release) launch report (am_hardware_policy (va_manifest (sn_approvals s)));
  rp_data : slice report 80 144 = data;
  rp_chip : vr_chip_id v = hex_encode (slice report 416 480);
  rp_tcb : vr_reported_tcb v = hex_encode (slice report 384 392);
  rp_id : vr_report_id v = slice report 320 352;
  rp_signature : exists vcek_der vcek,
    Store_vcek (sn_collateral s) (vr_chip_id v) (vr_reported_tcb v) = Ok vcek_der /\
    parse_x509_certificate vcek_der = Some ([], vcek) /\
    p384_verify_prehash (x_public_key vcek) (sha384 (slice_to report 672))
      (rev (slice (slice report 672 1184) 0 48)) (rev (slice (slice report 672 1184) 72 120)) = true;
  rp_platform : exists validity,
    Store_validity (sn_collateral s) (sh_revocations sh) (vr_chip_id v) (vr_reported_tcb v) now = Ok validity;
  rp_interval : va_not_before (vr_validity v) <= now < va_not_after (vr_validity v);
  rp_expiry : now < va_expires_unix_ms (sn_approvals s)
}.

Lemma collateral_validity_inv s issuers chip tcb now v :
  Snapshot_collateral_validity s issuers chip tcb now = Ok v ->
  (exists validity, Store_validity (sn_collateral s) issuers chip tcb now = Ok validity) /\
  va_not_before v <= now < va_not_after v /\ now < va_expires_unix_ms (sn_approvals s).
Proof.
  unfold Snapshot_collateral_validity. destruct (approval _) as [expires|] eqn:Ee; [|done].
  apply approval_ok in Ee. unfold VerifiedApprovals_valid_until in Ee. destruct (_ <=? now) eqn:El in Ee; [done|].
  injection Ee as <-. zbool. destruct (Store_validity _ _ _ _ _) as [w|] eqn:Es; [|done]. intros [= <-]. cbn.
  split; [by eexists|]. unfold Store_validity, ok_or in Es. destruct (bm_get _ _) as [p|]; [|done].
  apply validity_inv in Es as (? & ? & _ & _ & _ & _ & _ & Hw). lia.
Qed.

Lemma report_signature_inv report vcek_der :
  verify_raw_snp_report_signature_with_vcek report vcek_der = Ok tt ->
  exists vcek, parse_x509_certificate vcek_der = Some ([], vcek) /\
    p384_verify_prehash (x_public_key vcek) (sha384 (slice_to report 672))
      (rev (slice (slice report 672 1184) 0 48)) (rev (slice (slice report 672 1184) 72 120)) = true.
Proof.
  unfold verify_raw_snp_report_signature_with_vcek, verify_raw_snp_report_signature, ok_or.
  destruct (parse_x509_certificate vcek_der) as [[remaining vcek]|]; [|done]. intros Hv.
  destruct (negb (zlen remaining =? 0)) eqn:E; [done|]. zbool. apply zlen_0_nil in E as ->.
  exists vcek. split; [done|]. case_all. by zbool.
Qed.

Lemma report_inv s sh report data release_id now v :
  Snapshot_verify_snp_report s sh report data release_id now = Ok v -> report_proof s sh report data release_id now v.
Proof.
  unfold Snapshot_verify_snp_report, attestation_snp, map_err, ok_or.
  destruct (Snapshot_require_current_keys _ _) as [[]|] eqn:Ek; [|done]. destruct (negb _); [done|].
  destruct (Snapshot_gateway s release_id) as [release|] eqn:Eg; [|done].
  destruct (Store_vcek _ _ _) as [vcek|] eqn:Ev; [|done].
  destruct (validate_report_product_binding vcek report) as [product|] eqn:Ep; [|done].
  destruct (compatible_launch_policy _ product) as [launch|] eqn:El; [|done].
  destruct (check_raw_report_bindings _ _ _ _ _) as [[]|] eqn:Eb; [|done].
  destruct (verify_raw_snp_report_signature_with_vcek report vcek) as [[]|] eqn:Es; [|done].
  destruct (Snapshot_collateral_validity _ _ _ _ _) as [validity|] eqn:Ec; [|done]. intros [= <-].
  apply bindings_match in Eb as Hm. pose proof (rm_report_data _ _ _ _ _ Hm) as Hd.
  pose proof (rm_measurement _ _ _ _ _ Hm) as Hmeas. cbn [ex_report_data_sha512] in Hd. rewrite hex_decode_encode in Hd. apply report_signature_inv in Es as (cert & Hp & Hs).
  apply collateral_validity_inv in Ec as (Hst & Hiv & Hex).
  split; cbn; eauto 10; congruence.
Qed.

(** ** Boots *)

(** What an accepted, logged boot proves. *)
Record boot_proof (s : Snapshot) (sh : Shared) (document : bytes) (now : Z) (b : VerifiedBoot) : Prop := {
  bo_document : parse_record document = Ok (vn_record (vb_identity b)) /\
    vn_document_sha256 (vb_identity b) = sha256 document;
  bo_environment :
    bd_environment (br_report_data (vn_record (vb_identity b))) = km_environment (va_keys (sn_approvals s));
  bo_report : exists report commitment,
    boot_decode (br_report (vn_record (vb_identity b))) SNP_REPORT_BYTES = Ok report /\
    BootReportData_commitment (br_report_data (vn_record (vb_identity b))) = Ok commitment /\
    report_proof s sh report commitment (br_gateway_release_id (vn_record (vb_identity b))) now
      (vn_hardware (vb_identity b));
  bo_logged : exists evidence signature inclusion signer payload seconds,
    signer ∈ km_active_key (va_keys (sn_approvals s)) :: km_retired_keys (va_keys (sn_approvals s)) /\
    json_canonical (BootPublication_to_value {| bp_schema := BOOT_PUBLICATION_SCHEMA;
      bp_boot := vn_record (vb_identity b); bp_evidence_sha256 := evidence |}) = Some payload /\
    verify_stogas_signature (ok_public_key signer) (STOGAS_SIGNATURE_DOMAIN ++ payload) (ssg_signature signature) = true /\
    verify_document_inclusion (BootPublication_to_value {| bp_schema := BOOT_PUBLICATION_SCHEMA;
      bp_boot := vn_record (vb_identity b); bp_evidence_sha256 := evidence |}) signature inclusion
      (vs_trusted_root (va_sigstore (sn_approvals s))) now = Ok seconds /\
    vb_integrated_time_unix_ms b = seconds * 1000
}.

Lemma boot_report_inv s sh document record now r :
  Snapshot_verify_boot_report s sh document record now = Ok r ->
  vn_record r = record /\ vn_document_sha256 r = sha256 document /\
  bd_environment (br_report_data record) = km_environment (va_keys (sn_approvals s)) /\
  exists report commitment, boot_decode (br_report record) SNP_REPORT_BYTES = Ok report /\
    BootReportData_commitment (br_report_data record) = Ok commitment /\
    report_proof s sh report commitment (br_gateway_release_id record) now (vn_hardware r).
Proof.
  unfold Snapshot_verify_boot_report. destruct (negb _) eqn:Ee; [done|]. zbool.
  destruct (boot_decode _ _) as [report|] eqn:Ed; [|done].
  destruct (BootReportData_commitment _) as [commitment|] eqn:Ec; [|done].
  destruct (Snapshot_verify_snp_report _ _ _ _ _ _) as [hardware|] eqn:Eh; [|done]. intros [= <-].
  apply report_inv in Eh. eauto 10.
Qed.

Lemma logged_boot_inv s sh document inclusion now b :
  Snapshot_verify_logged_boot s sh document inclusion now = Ok b -> boot_proof s sh document now b.
Proof.
  unfold Snapshot_verify_logged_boot, attestation, ok_or.
  destruct (parse_record document) as [record|] eqn:Er; [|done]. destruct (_ <? _); [done|].
  destruct (strict_json inclusion) as [value|]; [|done]. destruct (BootInclusion_from_value value) as [proof|]; [|done].
  destruct (negb _); [done|]. destruct (List.find _ _) as [signer|] eqn:Ef; [|done].
  destruct (approval (verify_signature _ _ _ _)) as [[]|] eqn:Es; [|done]. apply approval_ok in Es.
  destruct (approval (verify_document_inclusion _ _ _ _ _)) as [seconds|] eqn:Ei; [|done]. apply approval_ok in Ei.
  destruct (Snapshot_verify_boot_report _ _ _ _ _) as [identity|] eqn:Eb; [|done].
  unfold checked_mul_1000. destruct (_ && _); [|done]. intros [= <-].
  apply verify_signature_ok in Es as (_ & payload & Hp & Hv). apply find_some in Ef as [Hin _].
  apply boot_report_inv in Eb as (Hrec & Hsha & Henv & Hrep). split; cbn; rewrite ?Hrec; try done.
  exists (bi_evidence_sha256 proof), (bi_signature proof), (bi_inclusion proof), signer, payload, seconds.
  by rewrite list_elem_of_In.
Qed.

(** ** Sessions *)

(** What an appraisal of retained evidence proves at its time. *)
Definition session_appraised (s : Snapshot) (sh : Shared) (artifacts : Artifacts) (now : Z) (x : VerifiedSession) : Prop :=
  boot_proof s sh (ar_boot_document artifacts) now (vx_boot x) /\
  report_proof s sh (ar_report artifacts) (slice (ar_report artifacts) 80 144)
    (br_gateway_release_id (vn_record (vb_identity (vx_boot x)))) now (vx_live x) /\
  vr_report_id (vx_live x) = vr_report_id (vn_hardware (vb_identity (vx_boot x))) /\
  vr_chip_id (vx_live x) = vr_chip_id (vn_hardware (vb_identity (vx_boot x))) /\
  va_not_before (vx_validity x) <= now < va_not_after (vx_validity x) /\
  vx_snapshot_identity x = sn_identity s.

Lemma appraise_session_inv s sh artifacts now x :
  Snapshot_appraise_session s sh artifacts now = Ok x -> session_appraised s sh artifacts now x.
Proof.
  unfold Snapshot_appraise_session. destruct (Snapshot_verify_logged_boot _ _ _ _ _) as [b|] eqn:Eb; [|done].
  destruct (_ <? 144); [done|]. destruct (Snapshot_verify_snp_report _ _ _ _ _ _) as [live|] eqn:El; [|done].
  destruct (_ || _) eqn:Ei; [done|]. zbool. intros [= <-]. apply logged_boot_inv in Eb. apply report_inv in El.
  destruct Eb as [? ? (report & commitment & ? & ? & Hrp) ?]. pose proof (rp_interval _ _ _ _ _ _ _ Hrp).
  pose proof (rp_interval _ _ _ _ _ _ _ El). split_and!; try done; cbn; [|lia..]. split; eauto.
Qed.

(** What an accepted native certificate proves of its session. *)
Definition native_session_proof (s : Snapshot) (sh : Shared) (certificate challenge : bytes) (now : Z) (x : VerifiedSession)
  : Prop :=
  exists parsed cert,
    ParsedNativeCertificate_parse certificate = Ok parsed /\
    parse_x509_certificate certificate = Some ([], cert) /\
    nc_signer_spki_sha256 parsed = sha256 (x_public_key cert) /\
    nc_not_before parsed <= now < nc_not_after parsed /\
    BatchProof_verify (se_proof (nc_evidence parsed))
      (NativeTls (km_environment (va_keys (sn_approvals s))) (sha256 (se_boot_document (nc_evidence parsed)))
         challenge (sha256 (x_public_key cert)))
      (slice (se_report (nc_evidence parsed)) 80 144) = Ok tt /\
    boot_proof s sh (se_boot_document (nc_evidence parsed)) now (vx_boot x) /\
    report_proof s sh (se_report (nc_evidence parsed)) (slice (se_report (nc_evidence parsed)) 80 144)
      (br_gateway_release_id (vn_record (vb_identity (vx_boot x)))) now (vx_live x) /\
    vr_report_id (vx_live x) = vr_report_id (vn_hardware (vb_identity (vx_boot x))) /\
    vr_chip_id (vx_live x) = vr_chip_id (vn_hardware (vb_identity (vx_boot x))) /\
    va_not_before (vx_validity x) <= now < va_not_after (vx_validity x).

Lemma native_session_inv s sh certificate challenge now x :
  Snapshot_verify_native_certificate s sh certificate challenge now = Ok x ->
  native_session_proof s sh certificate challenge now x.
Proof.
  unfold Snapshot_verify_native_certificate, map_err.
  destruct (ParsedNativeCertificate_parse certificate) as [parsed|] eqn:Ep; [|done].
  destruct (ParsedNativeCertificate_valid_at parsed now) as [[]|] eqn:Ev; [|done].
  destruct (SessionEvidence_verify_channel_binding _ _ _ _) as [[]|] eqn:Ec; [|done]. intros Hx.
  apply appraise_session_inv in Hx as (Hb & Hr & Hid & Hchip & Hiv & _). exists parsed.
  assert (exists cert, parse_x509_certificate certificate = Some ([], cert) /\
    nc_signer_spki_sha256 parsed = sha256 (x_public_key cert)) as (cert & Hcert & Hspki).
  { unfold ParsedNativeCertificate_parse, ok_or in Ep. destruct (_ <? _); [done|].
    destruct (parse_x509_certificate certificate) as [[remaining cert]|]; [|done].
    destruct (negb (zlen remaining =? 0)) eqn:En; [done|]. zbool. apply zlen_0_nil in En as ->.
    exists cert. split; [done|]. case_all. }
  exists cert. unfold ParsedNativeCertificate_valid_at in Ev. destruct (_ || _) eqn:Et in Ev; [done|]. zbool.
  unfold SessionEvidence_verify_channel_binding, map_err in Ec. destruct (_ <? 144); [done|].
  rewrite Hspki in Ec. destruct (BatchProof_verify _ _ _) as [[]|] eqn:Eb; [|done]. split_and!; try done; lia.
Qed.

(** C17. A native TLS session is accepted only from a certificate that is current and whose
    key, with the client's fresh challenge and the exact boot document, is in the Merkle
    tree that the live report commits to; the live report and the logged boot's report are
    both signed by approved platforms running the approved release, for the same guest and
    chip; the boot was signed by a known key and logged; and the time is within every
    interval and before the root authorization ends. *)
Theorem native_session_sound s sh certificate challenge now x :
  Snapshot_verify_native_certificate s sh certificate challenge now = Ok x ->
  exists parsed cert,
    ParsedNativeCertificate_parse certificate = Ok parsed /\
    parse_x509_certificate certificate = Some ([], cert) /\
    nc_signer_spki_sha256 parsed = sha256 (x_public_key cert) /\
    nc_not_before parsed <= now < nc_not_after parsed /\
    BatchProof_verify (se_proof (nc_evidence parsed))
      (NativeTls (km_environment (va_keys (sn_approvals s))) (sha256 (se_boot_document (nc_evidence parsed)))
         challenge (sha256 (x_public_key cert)))
      (slice (se_report (nc_evidence parsed)) 80 144) = Ok tt /\
    boot_proof s sh (se_boot_document (nc_evidence parsed)) now (vx_boot x) /\
    report_proof s sh (se_report (nc_evidence parsed)) (slice (se_report (nc_evidence parsed)) 80 144)
      (br_gateway_release_id (vn_record (vb_identity (vx_boot x)))) now (vx_live x) /\
    vr_report_id (vx_live x) = vr_report_id (vn_hardware (vb_identity (vx_boot x))) /\
    vr_chip_id (vx_live x) = vr_chip_id (vn_hardware (vb_identity (vx_boot x))) /\
    va_not_before (vx_validity x) <= now < va_not_after (vx_validity x).
Proof. apply native_session_inv. Qed.

(** A key manifest is current for the keys learned so far: no two manifests of the newest
    generation conflict, and it is of that generation, or of an earlier one with the same
    signing key and no later expiry. *)
Definition keys_current (keys : KeyManifest) (state : KeyState) : Prop :=
  exists learned, state = Some learned /\ le_conflicting learned = false /\
  let current := vk_document (le_keys learned) in
  km_generation keys = km_generation current \/
  (km_generation keys < km_generation current
   /\ ok_key_id (km_active_key keys) = ok_key_id (km_active_key current)
   /\ ok_public_key (km_active_key keys) = ok_public_key (km_active_key current)
   /\ bytes_ltb (km_expires_at current) (km_expires_at keys) = false).

Lemma require_current_keys_inv s state :
  Snapshot_require_current_keys s state = Ok tt -> keys_current (va_keys (sn_approvals s)) state.
Proof.
  unfold Snapshot_require_current_keys, approval, KeyState_require_current, keys_current.
  destruct state as [learned|]; [|done]. simpl ok_or. cbn match.
  destruct (le_conflicting learned) eqn:Hc; [done|]. cbn match. destruct (_ && _) eqn:E; [done|]. intros _.
  exists learned. split_and!; [done..|]. cbv zeta. unfold OnlineKey_same_signer in E.
  rewrite andb_false_iff, !orb_false_iff in E.
  destruct E as [E|[[Hg Hs] He]]; [left; by zbool|]. rewrite negb_false_iff, andb_true_iff in Hs. destruct Hs. zbool.
  destruct (decide (km_generation (va_keys (sn_approvals s)) = km_generation (vk_document (le_keys learned)))); [by left|].
  right. split_and!; [lia|done..].
Qed.

(** A retained session is good for new work under a snapshot at a time: the snapshot is the
    one that appraised it, the keys are still the current ones, the root authorization has
    not ended, and for the boot's and the live platform the certificates are valid and the
    current revocation list is unconflicted, in force and free of the issuing certificate. *)
Definition session_current (s : Snapshot) (sh : Shared) (x : VerifiedSession) (now : Z) : Prop :=
  sn_identity s = vx_snapshot_identity x /\
  keys_current (va_keys (sn_approvals s)) (sh_key_state sh) /\
  now < va_expires_unix_ms (sn_approvals s) /\
  forall r, r = vx_live x \/ r = vn_hardware (vb_identity (vx_boot x)) ->
    exists p issuer crl,
      bm_get (so_platforms (sn_collateral s)) (amd_platform_key (vr_chip_id r) (vr_reported_tcb r)) = Some p /\
      va_not_before (pl_certificates p) <= now < va_not_after (pl_certificates p) /\
      bm_get (sh_revocations sh) (pl_issuer p) = Some issuer /\
      is_latest issuer = Some crl /\ is_conflicting issuer = false /\
      (pl_ask_serial p ∉ cr_revoked crl) /\
      va_not_before (cr_validity crl) <= now < va_not_after (cr_validity crl).

(** The check of a retained session accepts it only while it is good for new work. *)
Theorem session_recheck_sound s sh x now v :
  Snapshot_check_session s sh x now = Ok v ->
  session_current s sh x now /\ va_not_before v <= now < va_not_after v.
Proof.
  unfold Snapshot_check_session. destruct (negb _) eqn:Ei; [done|]. zbool.
  destruct (Snapshot_require_current_keys _ _) as [[]|] eqn:Ek; [|done].
  destruct (Snapshot_collateral_validity _ _ _ _ _) as [a|] eqn:Ea; [|done].
  destruct (Snapshot_collateral_validity _ _ (vr_chip_id (vx_live x)) _ _) as [b|] eqn:Eb; [|done]. intros [= <-].
  apply collateral_validity_inv in Ea as ((wa & Ha) & ? & ?), Eb as ((wb & Hb) & ? & ?).
  apply require_current_keys_inv in Ek. split; [|cbn; lia]. split_and!; try done.
  assert (forall r w, Store_validity (sn_collateral s) (sh_revocations sh) (vr_chip_id r) (vr_reported_tcb r) now = Ok w ->
    exists p issuer crl,
      bm_get (so_platforms (sn_collateral s)) (amd_platform_key (vr_chip_id r) (vr_reported_tcb r)) = Some p /\
      va_not_before (pl_certificates p) <= now < va_not_after (pl_certificates p) /\
      bm_get (sh_revocations sh) (pl_issuer p) = Some issuer /\
      is_latest issuer = Some crl /\ is_conflicting issuer = false /\ (pl_ask_serial p ∉ cr_revoked crl) /\
      va_not_before (cr_validity crl) <= now < va_not_after (cr_validity crl)) as Hone.
  { intros r w Hw. unfold Store_validity, ok_or in Hw. destruct (bm_get (so_platforms _) _) as [p|] eqn:Ep; [|done].
    apply validity_inv in Hw as (i & crl & Hi & Hl & Hc & Hs & -> & Hn). cbn in Hn.
    exists p, i, crl. split_and!; try done; lia. }
  intros r [->| ->]; by eapply Hone.
Qed.

(** ** Certificate requests *)

Lemma bm_insert_length {V} k (v : V) m : bm_get m k = None -> zlen (bm_insert k v m) = zlen m + 1.
Proof.
  unfold bm_get. induction m as [|[k1 v1] m IH]; cbn [bm_insert List.find]; [done|].
  case_bool_decide; [done|]. intros Hm. rewrite bool_decide_false by congruence.
  destruct (bytes_ltb k k1); [zlen_lia|]. rewrite !zlen_cons, IH by done. lia.
Qed.

Lemma collect_names_length d names d' : collect_names d names = Ok d' -> zlen d' = zlen d + zlen names.
Proof.
  revert d. induction names as [|[name|] names IH]; intros d; cbn [collect_names].
  - intros [= <-]. rewrite zlen_nil. lia.
  - destruct (_ || _) eqn:E; [done|]. zbool. intros Hc. apply IH in Hc.
    rewrite bm_insert_length in Hc; [zlen_lia|]. destruct (bm_get d _) eqn:En; [|done].
    match goal with H : ~ is_Some _ |- _ => destruct H; by eexists end.
  - done.
Qed.

Lemma collect_extensions_count count d extensions n d' :
  0 <= count <= u8_max -> collect_extensions count d extensions = Ok (n, d') ->
  n = Z.min u8_max (count + zlen extensions).
Proof.
  unfold u8_max. revert count d. induction extensions as [|[names|] extensions IH]; intros count d Hc; cbn [collect_extensions].
  - intros [= <- _]. rewrite zlen_nil. lia.
  - destruct (collect_names d names) as [d1|]; [|done]. intros He. apply IH in He; unfold u8_max in *; zlen_lia.
  - done.
Qed.

(** A certificate is ordered only for the node's attested key and its environment's
    one hostname: an accepted request proves possession of the key whose digest the boot
    quote carries, has that hostname as its only subject attribute, and as its only
    extension one DNS name that is the same hostname up to surrounding space and case. *)
Theorem csr_names_one_host r csr_der :
  VerifiedRegistration_verify_csr r csr_der = Ok tt ->
  exists host raw csr name,
    api_origin (bd_environment (br_report_data (vn_record r))) = ascii "https://" ++ host /\
    csr_from_der csr_der = Some ([], raw, csr) /\
    p256_verify (cq_spki_key csr) (cq_info_raw csr) (cq_signature csr) = true /\
    bd_tls_spki_sha256 (br_report_data (vn_record r)) = hex_encode (sha256 (cq_spki_raw csr)) /\
    cq_common_names csr = [Some host] /\ cq_subject_attributes csr = 1 /\
    cq_attributes csr = [ExtensionRequest [SubjectAlternativeName [DNSName name]]] /\
    normalize name = normalize host.
Proof.
  unfold VerifiedRegistration_verify_csr, attestation_snp, map_err, ok_or.
  assert (exists host, strip_prefix (ascii "https://") (api_origin (bd_environment (br_report_data (vn_record r)))) = Some host /\
    api_origin (bd_environment (br_report_data (vn_record r))) = ascii "https://" ++ host) as (host & -> & Hhost).
  { destruct (bd_environment _); by eexists. }
  destruct (verify_certificate_csr _ _ _ _) as [[]|] eqn:Ev; [|done]. intros _.
  unfold verify_certificate_csr, ok_or in Ev. destruct (_ || _); [done|].
  destruct (csr_from_der csr_der) as [[[remaining raw] csr]|] eqn:Ec; [|done].
  destruct (_ || _) eqn:Er in Ev; [done|]. zbool.
  match goal with H : zlen remaining = 0 |- _ => apply zlen_0_nil in H as -> end.
  destruct (verify_certificate_csr_key_and_signature _ _) as [[]|] eqn:Ek; [|done].
  destruct (verify_certificate_csr_subject _ _) as [[]|] eqn:Es; [|done].
  assert (cq_common_names csr = [Some host] /\ cq_subject_attributes csr = 1) as [Hcn Hsa].
  { unfold verify_certificate_csr_subject, ok_or in Es. destruct (mapM id _) as [names|] eqn:Em; [|done].
    destruct (negb _) eqn:En in Es; [done|]. zbool. cbn in En. subst names.
    destruct (negb _) eqn:Ea in Es; [done|]. zbool. split; [|done].
    apply mapM_Some in Em. inversion Em as [|a ? ? ? Ha Hn]; subst. inversion Hn. unfold id in Ha. by subst. }
  assert (exists name, cq_attributes csr = [ExtensionRequest [SubjectAlternativeName [DNSName name]]] /\
    normalize name = normalize host) as (name & Hat & Hname).
  { unfold verify_certificate_csr_dns_names in Ev. destruct (cq_attributes csr) as [|[extensions|] [|? ?]]; try done.
    destruct (collect_extensions 0 [] extensions) as [[n d]|] eqn:Ee; [|done].
    destruct (negb (n =? 1)) eqn:En; [done|]. zbool. subst n.
    destruct (_ || _) eqn:Ed in Ev; [done|]. zbool. pose proof Ee as Hcount.
    apply collect_extensions_count in Hcount; [|unfold u8_max; lia].
    destruct extensions as [|[names|] [|? ?]]; [done| |unfold u8_max in Hcount; zlen_lia|done|done].
    cbn [collect_extensions] in Ee. destruct (collect_names [] names) as [d1|] eqn:Ecn; [|done].
    injection Ee as <-. pose proof (collect_names_length _ _ _ Ecn) as Hl. cbn [fmap list_fmap] in *.
    change (set_of_list [normalize host]) with [(normalize host, tt)] in *.
    match goal with H : [(normalize host, tt)] = d1 |- _ => subst d1 end. rewrite zlen_nil in Hl.
    destruct names as [|[name|] [|? ?]]; [done| |zlen_lia|done|done].
    exists name. split; [done|]. cbn [collect_names] in Ecn. destruct (_ || _) in Ecn; [done|]. by injection Ecn. }
  exists host, raw, csr, name. unfold verify_certificate_csr_key_and_signature in Ek.
  split_and!; try done; case_all; by zbool.
Qed.

End Boots.

(** * Theory

    The boot documents that gateways write are read back as they were meant. *)

(** ** Texts *)

Lemma hex_encode_ascii l : is_ascii (hex_encode l).
Proof.
  unfold hex_encode, is_ascii. induction l as [|b l IH]; [done|]. cbn [fmap list_fmap concat].
  apply Forall_app. split; [|done]. by destruct b; repeat constructor.
Qed.

(** Turns the members of a struct that agree with strings into those strings. *)
Ltac same_strings :=
  repeat match goal with
  | H : Forall2 json_same (_ :: _) ?l |- _ => apply Forall2_cons_inv_l in H as (? & ? & ? & ? & ->)
  | H : Forall2 json_same [] ?l |- _ => apply Forall2_nil_inv_l in H as ->
  | H : json_same (JString _) _ |- _ => apply same_string in H as ->
  end.

Lemma report_data_read d v : json_same (BootReportData_to_value d) v -> BootReportData_from_value v = Some d.
Proof.
  unfold BootReportData_to_value, BootReportData_from_value. intros Hs.
  apply (struct_same [ascii "schema"; ascii "environment"; ascii "signing_public_key"; ascii "hpke_public_key";
                      ascii "tls_spki_sha256"; ascii "registration_challenge"]) in Hs as (values & -> & Hv);
    [|done|by apply (bool_decide_unpack _)].
  cbn [fmap list_fmap snd] in Hv. unfold Environment_to_value in Hv. destruct (bd_environment d) eqn:Ee; same_strings; cbn;
    destruct d; cbn in *; by subst.
Qed.

Lemma record_read r v : json_same (BootRecord_to_value r) v -> BootRecord_from_value v = Some r.
Proof.
  unfold BootRecord_to_value, BootRecord_from_value. intros Hs.
  apply (struct_same [ascii "schema"; ascii "gateway_release_id"; ascii "report"; ascii "report_data"])
    in Hs as (values & -> & Hv); [|done|by apply (bool_decide_unpack _)].
  cbn [fmap list_fmap snd] in Hv. same_strings. cbn.
  match goal with H : json_same (BootReportData_to_value _) _ |- _ => rewrite (report_data_read _ _ H) end.
  by destruct r.
Qed.

Section Documents.
Context `{Json} `{!CanonicalLaws} `{Base64} `{!Base64Laws} `{Signatures} `{Hash} `{Encodings} `{Sigstore} `{X509} `{Unicode} `{Pkcs10}.
Context `{Agreement} `{Hpke}.

Lemma boot_decode_encode b : boot_decode (base64url_encode b) (zlen b) = Ok b.
Proof.
  unfold boot_decode. rewrite base64url_length, base64url_roundtrip. cbn [attestation ok_or].
  rewrite Z.eqb_refl, bool_decide_true by done. cbn [negb orb].
  replace ((zlen b * 8 + 5) / 6) with ((4 * zlen b + 2) / 3); [by rewrite Z.eqb_refl|].
  Z.to_euclidean_division_equations. lia.
Qed.

Lemma plain_record k environment tls challenge report release :
  nk_recipient_public k = base64url_encode (xwing_keygen (default [] (nk_recipient k))) ->
  plain 8 (BootRecord_to_value
    {| br_schema := BOOT_SCHEMA; br_gateway_release_id := hex_encode release;
       br_report := base64url_encode report;
       br_report_data := boot_report_data k environment tls challenge |}).
Proof.
  intros Hk. assert (forall b, is_ascii (base64url_encode b)) as Hb by (intros; apply base64url_ascii).
  assert (forall l, forallb (fun b => byte_to_Z b <? 128) l = true -> is_ascii l) as Ha.
  { intros l Hl. apply Forall_forall. intros b Hin. apply list_elem_of_In in Hin. rewrite forallb_forall in Hl.
    apply Hl in Hin. by zbool. }
  assert (forall keys : list bytes, forallb (forallb (fun b => byte_to_Z b <? 128)) keys = true -> Forall is_ascii keys) as Hks.
  { intros keys Hl. apply Forall_forall. intros l Hin. apply Ha. apply list_elem_of_In in Hin.
    rewrite forallb_forall in Hl. by apply Hl. }
  unfold BootRecord_to_value, BootReportData_to_value, boot_report_data. cbn [plain].
  split_and!; [by apply (bool_decide_unpack _)|by apply Hks|].
  repeat (apply Forall_cons; split); try apply Forall_nil; cbn; try (by apply Ha); try apply Hb; try apply hex_encode_ascii; try done.
  split_and!; [by apply (bool_decide_unpack _)|by apply Hks|].
  repeat (apply Forall_cons; split); try apply Forall_nil; try (by apply Ha); try apply Hb; try apply hex_encode_ascii;
    try done; [by destruct environment; apply Ha|]. rewrite Hk. apply Hb.
Qed.

(** A gateway's boot document registers: if its quote commits this boot's keys, TLS key
    and challenge, then the document it writes is the canonical text of exactly that
    record, and a snapshot of its environment that accepts the quote accepts the document
    for that challenge, with the quote's hardware and the document's own digest. *)
Theorem boot_documents_register signing1 signing2 provisioning environment tls challenge report release document
    s sh now hardware :
  let k := NodeKeys_from_seeds signing1 signing2 provisioning in
  zlen tls = 32 -> zlen challenge = 32 -> zlen release = 32 ->
  NodeKeys_boot_document k environment tls challenge report release = Ok document ->
  zlen document <= MAX_EVIDENCE_BYTES ->
  km_environment (va_keys (sn_approvals s)) = environment ->
  Snapshot_verify_snp_report s sh report (slice report 80 144) (hex_encode release) now = Ok hardware ->
  NodeKeys_report_data k environment tls challenge = Ok (slice report 80 144) /\
  Snapshot_verify_registration s sh document challenge now = Ok
    {| vn_record := {| br_schema := BOOT_SCHEMA; br_gateway_release_id := hex_encode release;
                       br_report := base64url_encode report;
                       br_report_data := boot_report_data k environment tls challenge |};
       vn_hardware := hardware; vn_document_sha256 := sha256 document |}.
Proof.
  intros k Htls Hch Hrel Hdoc Hsize Henv Hhw. unfold NodeKeys_boot_document, NodeKeys_report_data, map_err, ok_or in *.
  set (record := {| br_schema := BOOT_SCHEMA |}) in *.
  destruct (BootReportData_commitment _) as [commitment|] eqn:Ec; [|done].
  destruct (_ || _) eqn:Eq; [done|]. zbool. subst commitment. split; [done|].
  unfold canonical_json in Hdoc. destruct (json_canonical (BootRecord_to_value record)) as [text|] eqn:Et; [|done].
  cbn [fmap option_fmap option_map] in Hdoc. injection Hdoc as <-.
  destruct (canonical_parses _ _ (plain_record k environment tls challenge report release eq_refl) Et)
    as (v & Hparse & Hsame & Hcanon).
  assert (parse_record (text ++ [x0a]) = Ok record) as Hrec.
  { unfold parse_record. rewrite (proj2 (Z.ltb_ge _ _)) by done. rewrite Hparse. cbn [attestation ok_or].
    unfold canonical_json. rewrite Hcanon. cbn [fmap option_fmap option_map attestation ok_or].
    rewrite bool_decide_true by done. cbn [negb]. rewrite (record_read record v Hsame). cbn [attestation ok_or].
    rewrite bool_decide_true by done. cbn [negb]. unfold record. cbn [br_gateway_release_id].
    by rewrite lower_hex_encode. }
  unfold Snapshot_verify_registration. rewrite Hrec. cbn [br_report_data record boot_report_data bd_registration_challenge].
  rewrite lower_hex_encode, bool_decide_true by done. cbn [negb].
  unfold Snapshot_verify_boot_report. cbn [br_report_data record boot_report_data bd_environment].
  rewrite bool_decide_true by done. cbn [negb]. change (br_report record) with (base64url_encode report).
  replace SNP_REPORT_BYTES with (zlen report) by done. rewrite boot_decode_encode.
  change (BootReportData_commitment _) with (BootReportData_commitment (boot_report_data k environment tls challenge)).
  rewrite Ec. change (br_gateway_release_id record) with (hex_encode release). by rewrite Hhw.
Qed.

End Documents.
