(* ===== verification/RemoteSigning.v ===== *)
(** Signing with keys that cannot be exported ([remote_signing_input] of [signing.rs] with
    [message_representative] of [signing/mldsa.rs]), the encoding of public keys, and the
    submissions of a publisher to Rekor ([RekorSubmissionKey]).

    The hash behind ML-DSA, the DER encoder and Ed25519ph are parameters. *)

From S2P Require Import Prelude Primitives Json Signing Attestation Documents Approvals Schemes Tlog Boot.

Open Scope Z_scope.

(** [libcrux_sha3] with a digest of 64 bytes, [spki]'s encoder for an algorithm without
    parameters, and [ed25519_dalek] with its pre-hashed signatures. *)
Class RemoteKeys := {
  shake256_64 : bytes -> bytes;
  spki_to_der (oid key : bytes) : option bytes;
  ed25519_to_der (secret : bytes) : option bytes;
  ed25519ph_sign (secret artifact : bytes) : option bytes
}.

Section RemoteSigning.
Context `{Signatures} `{Hash} `{Encodings} `{Json} `{RemoteKeys}.

(** ** signing/mldsa.rs *)

Definition message_representative (public_key message context : bytes) : result bytes SigningError :=
  let? _ := check_context context in
  reject negb (zlen public_key =? MLDSA_PUBLIC_KEY_BYTES) with SgLength;
  let tr := shake256_64 public_key in
  reject 255 <? zlen context with SgContext;
  Ok (shake256_64 (tr ++ [x00; byte_of_Z (zlen context)] ++ context ++ message)).

(** ** signing.rs *)

Definition public_key_spki (k : SigningKey) : result bytes SigningError :=
  ok_or (spki_to_der COMPOSITE_OID (sk_public k)) SgPublicKey.

Record RemoteSigningInput := mkRemoteInput { ri_mldsa_mu : bytes; ri_ed25519_message : bytes }.

Definition remote_signing_input (public_key message : bytes) : result RemoteSigningInput SigningError :=
  reject negb (zlen public_key =? SIGNING_PUBLIC_KEY_BYTES) with SgLength;
  reject MAX_INPUT_BYTES <? zlen message with SgTooLarge;
  let ed25519_message := representative message in
  let? mu := message_representative (slice_to public_key MLDSA_PUBLIC_KEY_BYTES) ed25519_message LABEL in
  Ok (mkRemoteInput mu ed25519_message).

(** ** Submissions *)

Record RekorSubmissionKey := mkSubmissionKey { rs_secret : bytes }.

Definition RekorSubmissionKey_from_seed (seed : bytes) : result RekorSubmissionKey SigningError :=
  reject negb (zlen seed =? 32) with SgSubmissionKey; Ok (mkSubmissionKey seed).

Definition submission_public_key_spki (k : RekorSubmissionKey) : result bytes SigningError :=
  ok_or (ed25519_to_der (rs_secret k)) SgPublicKey.

Definition public_key_pem (der : bytes) : bytes :=
  ascii "-----BEGIN PUBLIC KEY-----" ++ [x0a] ++ base64_encode der ++ [x0a]
    ++ ascii "-----END PUBLIC KEY-----" ++ [x0a].

Definition submission_to_value (digest signature pem : bytes) : Value :=
  JObject [(ascii "apiVersion", JString (ascii "0.0.1")); (ascii "kind", JString (ascii "hashedrekord"));
           (ascii "spec", JObject [
             (ascii "data", JObject [(ascii "hash", JObject [
               (ascii "algorithm", JString (ascii "sha512")); (ascii "value", JString (hex_encode digest))])]);
             (ascii "signature", JObject [
               (ascii "content", JString (base64_encode signature));
               (ascii "publicKey", JObject [(ascii "content", JString (base64_encode pem))])])])].

Definition prepare_submission (k : RekorSubmissionKey) (signed_document : bytes) : result bytes SigningError :=
  reject MAX_INPUT_BYTES <? zlen signed_document with SgTooLarge;
  let? signature := ok_or (ed25519ph_sign (rs_secret k) signed_document) SgSigning in
  let? der := submission_public_key_spki k in
  ok_or (canonical_json (submission_to_value (sha512 signed_document) signature (public_key_pem der))) SgSigning.

End RemoteSigning.

(** * Theory

    A signature assembled from two remote signers verifies as one composite signature, and what
    a publisher submits is what document inclusion checks. *)

(** FIPS 204's external message representative: a remote signer that signs it signs the message
    in the context. Encoded keys decode. *)
Class RemoteKeyLaws `{Signatures} `{Encodings} `{RekorPrimitives} `{RemoteKeys} (sign_mu : bytes -> bytes -> bytes -> option bytes)
    : Prop := {
  external_mu seed m c r : zlen c <= 255 ->
    sign_mu (ml_dsa_generate seed).1
      (shake256_64 (shake256_64 (ml_dsa_generate seed).2 ++ [x00; byte_of_Z (zlen c)] ++ c ++ m)) r
    = ml_dsa_sign (ml_dsa_generate seed).1 m c r;
  spki_decodes oid key der : spki_to_der oid key = Some der -> spki_from_der der = Some (oid, false, Some key);
  ed25519_der_decodes secret der : ed25519_to_der secret = Some der -> is_Some (ed25519_from_der der);
  pem_decodes der : pem_parse (public_key_pem der) = Some (ascii "PUBLIC KEY", der);
  ed25519ph_length secret m s : ed25519ph_sign secret m = Some s -> zlen s = 64;
  ed25519ph_correct secret der m s : ed25519_to_der secret = Some der -> ed25519ph_sign secret m = Some s ->
    ed25519ph_verify_strict der m s = true;
  base64_decodes b : base64_decode (base64_encode b) = Some b;
  base64_is_ascii b : is_ascii (base64_encode b)
}.

Section RemoteTheory.
Context `{Signatures} `{!SignatureLaws} `{Hash} `{Encodings} `{Json} `{!CanonicalLaws} `{SchemePrimitives}.
Context `{RekorPrimitives} `{RemoteKeys} (sign_mu : bytes -> bytes -> bytes -> option bytes) `{!RemoteKeyLaws sign_mu}.

Lemma zlen_label : zlen LABEL = 30.
Proof. reflexivity. Qed.

(** The remote input of a key is what its two components sign locally. *)
Lemma remote_input_spec seed1 seed2 message input :
  remote_signing_input (sk_public (SigningKey_from_seeds seed1 seed2)) message = Ok input ->
  ri_ed25519_message input = representative message
  /\ forall r, sign_mu (ml_dsa_generate seed1).1 (ri_mldsa_mu input) r
       = ml_dsa_sign (ml_dsa_generate seed1).1 (representative message) LABEL r.
Proof.
  unfold remote_signing_input, message_representative. intros Hx. pass Hx by Hl. pass Hx by Hm.
  pass Hx as mu by Hmu. injection Hx as <-. cbn [ri_ed25519_message ri_mldsa_mu]. split; [done|]. intros r.
  cbn [sk_public SigningKey_from_seeds MldsaSigningKey_from_seed mk_public] in Hmu.
  rewrite slice_to_app in Hmu by (symmetry; apply ml_dsa_public_length). pass Hmu as u by Hc. pass Hmu by Hn. pass Hmu by Hz.
  match type of Hmu with Ok ?x = _ => assert (x = mu) as <- by congruence end. apply external_mu. by rewrite zlen_label.
Qed.

(** Remote signing loses nothing: when two signers hold the components of a composite key and
    sign the two parts of its remote input, the joined signature is accepted for the message
    under the composite public key, exactly as a local signature would be, and it has the
    fixed length. *)
Theorem remote_signature_verifies seed1 seed2 message input r mldsa_signature :
  remote_signing_input (sk_public (SigningKey_from_seeds seed1 seed2)) message = Ok input ->
  sign_mu (ml_dsa_generate seed1).1 (ri_mldsa_mu input) r = Some mldsa_signature ->
  let joined := mldsa_signature ++ ed25519_sign seed2 (ri_ed25519_message input) in
  signing_verify (sk_public (SigningKey_from_seeds seed1 seed2)) message joined = Ok tt
  /\ zlen joined = SIGNATURE_BYTES.
Proof.
  intros Hi Hs joined. destruct (remote_input_spec _ _ _ _ Hi) as [He Hmu]. rewrite Hmu in Hs.
  unfold joined. rewrite He. by apply signature_parts_verify with (r := r).
Qed.

(** A published key decodes to the key. *)
Lemma spki_roundtrip seed1 seed2 der :
  public_key_spki (SigningKey_from_seeds seed1 seed2) = Ok der ->
  public_key_from_spki der = Ok (sk_public (SigningKey_from_seeds seed1 seed2)).
Proof.
  unfold public_key_spki. intros Hx. apply ok_or_ok in Hx. unfold public_key_from_spki. rewrite (spki_decodes _ _ _ Hx).
  cbn [ok_or]. rewrite bool_decide_true by done. cbn [negb orb sk_public SigningKey_from_seeds MldsaSigningKey_from_seed mk_public].
  by rewrite zlen_app, ml_dsa_public_length, ed25519_public_length.
Qed.

(** ** Submissions *)

(** The body that a log keeps for a submission, whatever the order of its members. *)
Lemma submission_read digest signature pem v :
  json_same (submission_to_value digest signature pem) v ->
  DocumentBody_from_value v = Some
    {| dy_api_version := ascii "0.0.1"; dy_kind := ascii "hashedrekord"; dy_algorithm := ascii "sha512";
       dy_value := hex_encode digest; dy_signature := base64_encode signature; dy_public_key := base64_encode pem |}.
Proof.
  unfold submission_to_value. intros Hs.
  unfold DocumentBody_from_value, DocumentSpec_from_value, DocumentData_from_value, DocumentHash_from_value,
    SubmissionSignature_from_value, SubmissionKey_from_value.
  repeat first [progress same_strings | progress cbn |
    match goal with
    | H : json_same (JObject ?fields) ?w |- context [struct_values ?names ?w] =>
        let values := fresh "values" in let E := fresh "E" in let F := fresh "F" in
        destruct (struct_same names fields w H) as (values & E & F);
          [reflexivity|by apply (bool_decide_unpack _)|rewrite E; clear E; cbn [fmap list_fmap snd] in F]
    end].
  reflexivity.
Qed.

Lemma submission_plain digest signature pem : plain 8 (submission_to_value digest signature pem).
Proof.
  repeat first [split | apply Forall_cons | apply Forall_nil | apply hex_encode_ascii | apply base64_is_ascii
    | by apply (bool_decide_unpack _) | by repeat constructor].
Qed.

(** The bundle that publishes a document: its digest, the submission's signature and the hint of
    the submission key. *)
Definition publishes (k : RekorSubmissionKey) (document : bytes) (bundle : DocumentBundle) : Prop :=
  db_algorithm bundle = ascii "SHA2_512" /\ base64_decode (db_digest bundle) = Some (sha512 document)
  /\ (exists der, ed25519_to_der (rs_secret k) = Some der /\ db_hint bundle = hex_encode (sha256 der))
  /\ (exists signature, ed25519ph_sign (rs_secret k) document = Some signature
        /\ base64_decode (db_signature bundle) = Some signature).

(** Publication completes: for the submission that a publisher prepares of a signed document, a log
    entry of the supported kind that keeps the submission and a bundle that carries its digest,
    signature and key hint pass the inclusion check's binding to exactly that document. *)
Theorem submission_binds k document text bundle entry :
  prepare_submission k document = Ok text ->
  te_kind entry = ascii "hashedrekord" -> te_version entry = ascii "0.0.1" ->
  te_canonicalized_body entry = base64_encode text -> publishes k document bundle ->
  verify_binding bundle entry document = Ok tt.
Proof.
  unfold prepare_submission, submission_public_key_spki. intros Hx Hk Hv Hb (Ha & Hd & (der & Hder & Hhint) & sig & Hsig & Hbs).
  pass Hx by Hl. pass Hx as s by Hs. pass Hx as der' by Hder'. apply ok_or_ok in Hx.
  rewrite Hder in Hder'. injection Hder' as <-. rewrite Hsig in Hs. injection Hs as <-.
  unfold canonical_json in Hx. destruct (json_canonical _) as [canonical|] eqn:Hc; [|done]. injection Hx as <-.
  destruct (canonical_parses _ _ (submission_plain _ _ _) Hc) as (v & Hp & Hsame & _).
  unfold verify_binding, document_decode. rewrite Hk, Hv, Hb, !bool_decide_true by done. cbn [negb orb].
  rewrite base64_decodes. cbn [ok_or]. rewrite Hp. cbn [ok_or]. rewrite (submission_read _ _ _ _ Hsame). cbn [ok_or].
  cbn [dy_kind dy_api_version dy_algorithm dy_value dy_signature dy_public_key].
  rewrite Hd, !bool_decide_true by done. cbn [negb orb ok_or]. rewrite bool_decide_true by done. cbn [negb].
  rewrite base64_decodes. cbn [ok_or]. rewrite pem_decodes. cbn [ok_or]. rewrite Hhint, !bool_decide_true by done.
  cbn [negb orb]. destruct (ed25519_der_decodes _ _ Hder) as [weak ->]. cbn [ok_or]. rewrite base64_decodes. cbn [ok_or].
  rewrite Hbs. cbn [ok_or]. rewrite bool_decide_true, (ed25519ph_length _ _ _ Hsig) by done.
  by rewrite (ed25519ph_correct _ _ _ _ Hder Hsig).
Qed.
End RemoteTheory.
