(* ===== verification/Http2Pool.v ===== *)
(** The pool of HTTP/2 connections of the client ([sdk/src/http2_pool.rs]).

    Connections are shared objects: the pool's list, every lease and the connection's own
    tasks hold references to one [Channel], so channels live in a store indexed by their
    identity and every operation says which channel it touches. The lock-protected [State]
    and the atomics of [Activity] are threaded explicitly, one definition per critical
    section; [step] interleaves the sections of all tasks. Hyper's request handle is the
    parameter [Sender]; whether it is closed is what the handle reports at that moment. *)

From S2P Require Import Prelude.

Definition SETUP_BUDGET : Z := 15.
Definition REFUSED_STREAM : Z := 7.

Record Limits := mkLimits {
  limit_connections : Z;
  limit_waiting_requests : Z;
  limit_waiting_bytes : Z }.

(** A failed connector carries the code of its attested-TLS error, when it is one. *)
Inductive PoolError :=
| Pool_Closed
| Pool_Capacity
| Pool_Deadline
| Pool_ResponseDeadline
| Pool_Connect (tls_code : option bytes)
| Pool_Protocol
| Pool_Request (not_sent : bool)
| Pool_CloseDeadline.

(** The atomics of one connection. *)
Record Activity := mkActivity {
  active : Z;
  maximum : Z;
  retired : bool;
  finished : bool;
  force_close : bool }.

Definition set_active n a := mkActivity n (maximum a) (retired a) (finished a) (force_close a).
Definition set_maximum n a := mkActivity (active a) n (retired a) (finished a) (force_close a).
Definition set_retired a := mkActivity (active a) (maximum a) true (finished a) (force_close a).
Definition set_finished a := mkActivity (active a) (maximum a) (retired a) true (force_close a).
Definition set_force_close a := mkActivity (active a) (maximum a) (retired a) (finished a) true.

(** [AtomicUsize] arithmetic wraps. *)
Definition usize_modulus : Z := 2 ^ 64.
Definition fetch_add (n : Z) : Z := (n + 1) mod usize_modulus.
Definition fetch_sub (n : Z) : Z := (n - 1) mod usize_modulus.

Section Pool.
Context {Sender Metadata : Type}.

Record Channel := mkChannel {
  sender : option Sender;
  metadata : Metadata;
  activity : Activity }.

Record State := mkState {
  channels : list nat;
  connecting : bool;
  closed : bool;
  waiting_requests : Z;
  waiting_bytes : Z }.

(** The lock-protected state and the store of connections. *)
Record Pool := mkPool { state : State; store : gmap nat Channel }.

Definition Pool_new : Pool := mkPool (mkState [] false false 0 0) ∅.

Definition with_channels l s :=
  mkState l (connecting s) (closed s) (waiting_requests s) (waiting_bytes s).
Definition with_connecting b s :=
  mkState (channels s) b (closed s) (waiting_requests s) (waiting_bytes s).
Definition with_closed s :=
  mkState (channels s) (connecting s) true (waiting_requests s) (waiting_bytes s).
Definition with_waiting n b s := mkState (channels s) (connecting s) (closed s) n b.

Definition on_activity (f : Activity -> Activity) (c : Channel) : Channel :=
  mkChannel (sender c) (metadata c) (f (activity c)).
Definition touch (f : Activity -> Activity) (c : nat) (p : Pool) : Pool :=
  mkPool (state p) (alter (on_activity f) c (store p)).

(** What is known of a connection by its identity. *)
Definition active_of (st : gmap nat Channel) (c : nat) : Z :=
  match st !! c with Some ch => active (activity ch) | None => 0 end.
Definition is_finished (st : gmap nat Channel) (c : nat) : bool :=
  match st !! c with Some ch => finished (activity ch) | None => false end.
Definition is_retired (st : gmap nat Channel) (c : nat) : bool :=
  match st !! c with Some ch => retired (activity ch) | None => false end.
Definition has_room (st : gmap nat Channel) (c : nat) : bool :=
  match st !! c with
  | Some ch => negb (retired (activity ch)) && (active (activity ch) <? maximum (activity ch))
  | None => false
  end.

(** *** Waiting *)

Definition Waiting_new (limits : Limits) (bytes : Z) (s : State) : result State PoolError :=
  reject closed s with Pool_Closed;
  reject (limit_waiting_requests limits <=? waiting_requests s)
      || (Z.max 0 (limit_waiting_bytes limits - waiting_bytes s) <? bytes) with Pool_Capacity;
  Ok (with_waiting (waiting_requests s + 1) (waiting_bytes s + bytes) s).

Definition Waiting_drop (bytes : Z) (s : State) : State :=
  with_waiting ((waiting_requests s - 1) mod usize_modulus)
    ((waiting_bytes s - bytes) mod usize_modulus) s.

(** *** Assignment *)

Record Permit := mkPermit {
  permit_channel : nat;
  permit_sender : Sender;
  permit_metadata : Metadata }.

Inductive Selection := Assigned (permit : Permit) | Establish | Wait.

(** The loop over the eligible connections, from the least loaded: an open handle is
    leased; a connection whose handle is gone or closed is retired. *)
Fixpoint assign (is_closed : Sender -> bool) (eligible : list nat) (st : gmap nat Channel)
    : option Permit * gmap nat Channel :=
  match eligible with
  | [] => (None, st)
  | c :: eligible =>
      match st !! c with
      | None => assign is_closed eligible st
      | Some ch =>
          match sender ch with
          | Some handle =>
              if is_closed handle
              then assign is_closed eligible (<[c := on_activity set_retired ch]> st)
              else (Some (mkPermit c handle (metadata ch)),
                    <[c := on_activity (fun a => set_active (fetch_add (active a)) a) ch]> st)
          | None => assign is_closed eligible (<[c := on_activity set_retired ch]> st)
          end
      end
  end.

Definition serving (st : gmap nat Channel) (l : list nat) : Z :=
  zlen (filter (fun c => is_retired st c = false) l).

Definition eligible (st : gmap nat Channel) (l : list nat) : list nat :=
  sort_by_key (active_of st) (filter (fun c => has_room st c = true) l).

Definition may_establish (limits : Limits) (s : State) (st : gmap nat Channel) : bool :=
  negb (connecting s)
  && (serving st (channels s) <? limit_connections limits)
  && (zlen (channels s) <=? limit_connections limits).

(** One turn of the loop of [acquire], under the lock. *)
Definition acquire_turn (limits : Limits) (is_closed : Sender -> bool) (p : Pool)
    : result Selection PoolError * Pool :=
  if closed (state p) then (Err Pool_Closed, p)
  else
    let l := filter (fun c => is_finished (store p) c = false) (channels (state p)) in
    let s := with_channels l (state p) in
    match assign is_closed (eligible (store p) l) (store p) with
    | (Some permit, st) => (Ok (Assigned permit), mkPool s st)
    | (None, st) =>
        if may_establish limits s st
        then (Ok Establish, mkPool (with_connecting true s) st)
        else (Ok Wait, mkPool s st)
    end.

(** The deadline the connector gets. *)
Definition connect_deadline (deadline now : Z) : Z := Z.min deadline (now + SETUP_BUDGET).

(** The connection [Channel::open] creates, and its wait for the peer's settings: [None]
    keeps waiting. *)
Definition Channel_new (handle : Sender) (m : Metadata) : Channel :=
  mkChannel (Some handle) m (mkActivity 0 0 false false false).
Definition open_ready (a : Activity) : option (result unit PoolError) :=
  if finished a then Some (Err Pool_Closed)
  else if 0 <? maximum a then Some (Ok ())
  else None.

(** An established connection joins the pool unless the pool closed. *)
Definition establish_push (c : nat) (p : Pool) : result Pool PoolError :=
  reject closed (state p) with Pool_Closed;
  Ok (mkPool (with_channels (channels (state p) ++ [c]) (state p)) (store p)).

Definition Establishment_drop (p : Pool) : Pool :=
  mkPool (with_connecting false (state p)) (store p).

Definition Lease_drop (c : nat) (p : Pool) : Pool :=
  touch (fun a => set_active (fetch_sub (active a)) a) c p.

(** *** The connection's own tasks *)

(** One poll of the dispatcher: note the peer's stream limit, and retire the connection when
    its handle is closed. The flag says whether waiters are notified. *)
Definition observe (is_closed : Sender -> bool) (limit : Z) (c : nat) (p : Pool) : bool * Pool :=
  match store p !! c with
  | None => (false, p)
  | Some ch =>
      let a := activity ch in
      let handle_closed := match sender ch with Some h => is_closed h | None => false end in
      (negb (maximum a =? limit) || (handle_closed && negb (retired a)),
       touch (fun a => let a := set_maximum limit a in
                       if handle_closed then set_retired a else a) c p)
  end.

(** The dispatcher has ended. *)
Definition dispatcher_ended (c : nat) (p : Pool) : Pool := touch set_retired c p.
(** The connection's I/O object is dropped. *)
Definition OwnedIo_drop (c : nat) (p : Pool) : Pool := touch set_finished c p.
(** The last owner of a [Channel], or an expired [close], aborts its socket. *)
Definition Activity_force_close (c : nat) (p : Pool) : Pool := touch set_force_close c p.
Definition poll_io (a : Activity) : result unit unit :=
  if force_close a then Err () else Ok ().

(** *** Sending *)

(** What the HTTP/2 library reports of a failed request: the error's cause, when it is one of
    the protocol's. *)
Record H2Error := mkH2Error { is_remote : bool; is_go_away : bool; reason : option Z }.

Definition send_ready (now deadline : Z) (permit : Permit) (p : Pool) : result unit PoolError :=
  reject deadline <=? now with Pool_Deadline;
  reject is_retired (store p) (permit_channel permit) with Pool_Closed;
  Ok ().

Definition refusal (cause : option H2Error) : option H2Error :=
  match cause with Some e => if is_remote e then Some e else None | None => None end.
Definition going_away (cause : option H2Error) : bool :=
  match refusal cause with Some e => is_go_away e | None => false end.
Definition refused_stream (cause : option H2Error) : bool :=
  match refusal cause with Some e => bool_decide (reason e = Some REFUSED_STREAM) | None => false end.

(** The closure over a failed request. *)
Definition send_failed (returned : bool) (cause : option H2Error) (c : nat) (p : Pool)
    : PoolError * Pool :=
  let p := if going_away cause then touch set_retired c p else p in
  (Pool_Request (returned || going_away cause || refused_stream cause), p).

(** What the HTTP/2 library makes of a submitted request. *)
Inductive Transport (R : Type) :=
| Tr_late
| Tr_failed (returned : bool) (cause : option H2Error)
| Tr_response (response : R).

Definition Permit_send {R} (now deadline : Z) (permit : Permit) (outcome : Transport R) (p : Pool)
    : result R PoolError * Pool :=
  match send_ready now deadline permit p with
  | Err e => (Err e, p)
  | Ok _ =>
      match outcome with
      | Tr_late _ => (Err Pool_ResponseDeadline, p)
      | Tr_failed _ returned cause =>
          let (e, p) := send_failed returned cause (permit_channel permit) p in (Err e, p)
      | Tr_response _ r => (Ok r, p)
      end
  end.

Definition OwnedBody_retire (c : nat) (p : Pool) : Pool := touch set_retired c p.

(** Whether a poll of an owned body lets go of its lease. *)
Inductive Polled := Pending | Frame | Ended | Failed.
Definition body_releases (polled : Polled) (is_end_stream : bool) : bool :=
  match polled with Ended | Failed => true | _ => is_end_stream end.

(** *** Closing *)

Definition retire_and_take (ch : Channel) : Channel :=
  mkChannel None (metadata ch) (set_retired (activity ch)).

Definition close_start (p : Pool) : Pool :=
  mkPool (with_closed (state p))
    (fold_left (fun st c => alter retire_and_take c st) (channels (state p)) (store p)).

Definition close_complete (p : Pool) : bool :=
  negb (connecting (state p)) && forallb (is_finished (store p)) (channels (state p)).

Definition close_expired (p : Pool) : Pool :=
  mkPool (state p)
    (fold_left (fun st c => alter (on_activity set_force_close) c st)
       (channels (state p)) (store p)).

(** ** Interleaving

    The guards alive in the client's tasks: waiting requests with their bytes, the
    establishments with the connection they have opened, and the leases with their number
    of holders (a lease is shared by the upload and the response body). *)
Record World := mkWorld {
  pool : Pool;
  waits : list Z;
  establishments : list (option nat);
  leases : list (nat * nat) }.

Definition World_new : World := mkWorld Pool_new [] [] [].

(** A step of some task; the flag says whether it notifies the waiting requests. *)
Inductive step (limits : Limits) : World -> bool -> World -> Prop :=
| step_wait bytes s p ws es ls :
    0 <= bytes ->
    Waiting_new limits bytes (state p) = Ok s ->
    step limits (mkWorld p ws es ls) false (mkWorld (mkPool s (store p)) (bytes :: ws) es ls)
| step_wait_drop bytes p ws ws' es ls :
    step limits (mkWorld p (ws ++ bytes :: ws') es ls) false
      (mkWorld (mkPool (Waiting_drop bytes (state p)) (store p)) (ws ++ ws') es ls)
| step_assign is_closed permit p p' ws es ls :
    acquire_turn limits is_closed p = (Ok (Assigned permit), p') ->
    step limits (mkWorld p ws es ls) false
      (mkWorld p' ws es ((permit_channel permit, 1%nat) :: ls))
| step_establish is_closed p p' ws es ls :
    acquire_turn limits is_closed p = (Ok Establish, p') ->
    step limits (mkWorld p ws es ls) false (mkWorld p' ws (None :: es) ls)
| step_sleep is_closed p p' ws es ls :
    acquire_turn limits is_closed p = (Ok Wait, p') ->
    step limits (mkWorld p ws es ls) false (mkWorld p' ws es ls)
| step_open c handle m p ws es es' ls :
    store p !! c = None ->
    step limits (mkWorld p ws (es ++ None :: es') ls) false
      (mkWorld (mkPool (state p) (<[c := Channel_new handle m]> (store p)))
         ws (es ++ Some c :: es') ls)
| step_push c p p' ws es es' ls :
    (exists ch, store p !! c = Some ch /\ open_ready (activity ch) = Some (Ok ())) ->
    establish_push c p = Ok p' ->
    step limits (mkWorld p ws (es ++ Some c :: es') ls) true
      (mkWorld (Establishment_drop p') ws (es ++ es') ls)
| step_abandon o p ws es es' ls :
    step limits (mkWorld p ws (es ++ o :: es') ls) true
      (mkWorld (Establishment_drop p) ws (es ++ es') ls)
| step_observe is_closed limit c notified p p' ws es ls :
    0 <= limit < usize_modulus ->
    observe is_closed limit c p = (notified, p') ->
    step limits (mkWorld p ws es ls) notified (mkWorld p' ws es ls)
| step_dispatcher_ended c p ws es ls :
    step limits (mkWorld p ws es ls) true (mkWorld (dispatcher_ended c p) ws es ls)
| step_io_dropped c p ws es ls :
    step limits (mkWorld p ws es ls) true (mkWorld (OwnedIo_drop c p) ws es ls)
| step_force c p ws es ls :
    step limits (mkWorld p ws es ls) false (mkWorld (Activity_force_close c p) ws es ls)
| step_send_failed returned cause c n e p p' ws es ls ls' :
    send_failed returned cause c p = (e, p') ->
    step limits (mkWorld p ws es (ls ++ (c, n) :: ls')) (going_away cause)
      (mkWorld p' ws es (ls ++ (c, n) :: ls'))
| step_retire c n p ws es ls ls' :
    step limits (mkWorld p ws es (ls ++ (c, n) :: ls')) true
      (mkWorld (OwnedBody_retire c p) ws es (ls ++ (c, n) :: ls'))
| step_share c n p ws es ls ls' :
    step limits (mkWorld p ws es (ls ++ (c, n) :: ls')) false
      (mkWorld p ws es (ls ++ (c, S n) :: ls'))
| step_unshare c n p ws es ls ls' :
    step limits (mkWorld p ws es (ls ++ (c, S (S n)) :: ls')) false
      (mkWorld p ws es (ls ++ (c, S n) :: ls'))
| step_release c p ws es ls ls' :
    step limits (mkWorld p ws es (ls ++ (c, 1%nat) :: ls')) true
      (mkWorld (Lease_drop c p) ws es (ls ++ ls'))
| step_close p ws es ls :
    step limits (mkWorld p ws es ls) true (mkWorld (close_start p) ws es ls)
| step_close_expired p ws es ls :
    step limits (mkWorld p ws es ls) false (mkWorld (close_expired p) ws es ls).

Definition steps (limits : Limits) : World -> World -> Prop :=
  rtc (fun w w' => exists notified, step limits w notified w').

Definition reachable (limits : Limits) (w : World) : Prop := steps limits World_new w.
End Pool.

Arguments Channel : clear implicits.
Arguments State : clear implicits.
Arguments Pool : clear implicits.
Arguments Permit : clear implicits.
Arguments Selection : clear implicits.
Arguments World : clear implicits.
Arguments Tr_late {R}.
Arguments Tr_failed {R}.
Arguments Tr_response {R}.

(** * Theory

    What holds of the HTTP/2 pool in every interleaving: its accounts are exact and within the
    configured limits, assignments go to the least loaded open connection, a retired
    connection is never assigned again, and no waiting request misses a wake-up. *)

Section PoolTheory.
Context {Sender Metadata : Type}.
Implicit Types (st : gmap nat (Channel Sender Metadata)) (p : Pool Sender Metadata)
  (w : World Sender Metadata) (c : nat).

(** ** How the store of connections evolves *)

(** Connections are never forgotten; retirement, the end of I/O and the loss of the handle
    are permanent. *)
Record later (ch ch' : Channel Sender Metadata) : Prop := mkLater {
  later_retired : retired (activity ch) = true -> retired (activity ch') = true;
  later_finished : finished (activity ch) = true -> finished (activity ch') = true;
  later_sender : sender ch = None -> sender ch' = None;
  later_metadata : metadata ch' = metadata ch }.

Definition evolves st st' : Prop :=
  forall c ch, st !! c = Some ch -> exists ch', st' !! c = Some ch' /\ later ch ch'.

#[local] Instance later_preorder : PreOrder later.
Proof. split; [done|]. intros ? ? ? [] []. split; naive_solver congruence. Qed.

#[local] Instance evolves_preorder : PreOrder evolves.
Proof.
  split; [intros st c ch E; by exists ch|].
  intros s1 s2 s3 H1 H2 c ch E. destruct (H1 _ _ E) as (ch2 & E2 & L2).
  destruct (H2 _ _ E2) as (ch3 & E3 & L3). exists ch3. split; [done|]. by etrans.
Qed.

Lemma evolves_insert st c ch ch' :
  st !! c = Some ch -> later ch ch' -> evolves st (<[c := ch']> st).
Proof.
  intros E L c0 ch0 E0. destruct (decide (c0 = c)) as [->|].
  - exists ch'. rewrite lookup_insert_eq. by simplify_eq.
  - exists ch0. by rewrite lookup_insert_ne.
Qed.

Lemma evolves_fresh st c ch : st !! c = None -> evolves st (<[c := ch]> st).
Proof. intros E c0 ch0 E0. exists ch0. rewrite lookup_insert_ne by congruence. done. Qed.

Lemma evolves_alter f c st : (forall ch, later ch (f ch)) -> evolves st (alter f c st).
Proof.
  intros Hf c0 ch0 E0. destruct (decide (c0 = c)) as [->|].
  - exists (f ch0). by rewrite lookup_alter_eq, E0.
  - exists ch0. by rewrite lookup_alter_ne.
Qed.

Lemma evolves_fold f l st :
  (forall ch, later ch (f ch)) -> evolves st (fold_left (fun st c => alter f c st) l st).
Proof.
  intros Hf. revert st. induction l as [|c l IH]; intros st; simpl; [done|].
  etrans; [by apply (evolves_alter f c)|apply IH].
Qed.

(** The changes of [Activity] the operations make keep or set its flags. *)
Definition keeps_flags (f : Activity -> Activity) : Prop :=
  forall a, (retired a = true -> retired (f a) = true)
         /\ (finished a = true -> finished (f a) = true).

Lemma later_on_activity f ch : keeps_flags f -> later ch (on_activity f ch).
Proof. intros Hf. destruct (Hf (activity ch)). by split. Qed.

Lemma evolves_touch f c p : keeps_flags f -> evolves (store p) (store (touch f c p)).
Proof. intros. apply evolves_alter. intros. by apply later_on_activity. Qed.

Lemma assign_evolves is_closed l st permit st' :
  assign is_closed l st = (permit, st') -> evolves st st'.
Proof.
  revert st. induction l as [|c l IH]; intros st; simpl; [by intros [= <- <-]|].
  destruct (st !! c) as [ch|] eqn:E; [|apply IH].
  assert (Hr : evolves st (<[c := on_activity set_retired ch]> st))
    by (apply (evolves_insert _ _ _ _ E); by split).
  destruct (sender ch) as [h|] eqn:Hs.
  - destruct (is_closed h); [intros H; etrans; [exact Hr|by apply IH]|].
    intros [= <- <-]. apply (evolves_insert _ _ _ _ E). by split.
  - intros H. etrans; [exact Hr|by apply IH].
Qed.

Lemma acquire_turn_evolves limits is_closed p r p' :
  acquire_turn limits is_closed p = (r, p') -> evolves (store p) (store p').
Proof.
  unfold acquire_turn. destruct (closed _); [by intros [= <- <-]|].
  destruct (assign _ _ _) as [[permit|] st] eqn:E; apply assign_evolves in E;
    [|destruct (may_establish _ _ _)]; by intros [= <- <-].
Qed.

Lemma step_evolves limits w b w' :
  step limits w b w' -> evolves (store (pool w)) (store (pool w')).
Proof.
  destruct 1; simpl; try done; try by eapply acquire_turn_evolves.
  - by apply evolves_fresh.
  - unfold establish_push in *. by case_all.
  - unfold observe in *. destruct (store p !! c); simplify_eq; [|done].
    apply evolves_touch. intros a. by repeat case_match.
  - by apply evolves_touch.
  - by apply evolves_touch.
  - by apply evolves_touch.
  - unfold send_failed in *. simplify_eq. case_match; [by apply evolves_touch|done].
  - by apply evolves_touch.
  - by apply evolves_touch.
  - by apply evolves_fold.
  - by apply evolves_fold.
Qed.

Lemma steps_evolve limits w w' :
  steps limits w w' -> evolves (store (pool w)) (store (pool w')).
Proof.
  induction 1 as [|w w1 w' (b & Hs) _ IH]; [done|]. etrans; [by eapply step_evolves|exact IH].
Qed.

Lemma evolves_retired st st' c : evolves st st' -> is_retired st c = true -> is_retired st' c = true.
Proof.
  unfold is_retired. intros He. destruct (st !! c) as [ch|] eqn:E; [|done].
  destruct (He _ _ E) as (ch' & -> & []). auto.
Qed.

(** ** The assignment loop *)

Definition open_handle (is_closed : Sender -> bool) st c : bool :=
  match st !! c with
  | Some ch => match sender ch with Some h => negb (is_closed h) | None => false end
  | None => false
  end.

Definition retire_all (l : list nat) st : gmap nat (Channel Sender Metadata) :=
  fold_left (fun st c => alter (on_activity set_retired) c st) l st.

Lemma lookup_retire_all l st c :
  retire_all l st !! c = if decide (c ∈ l) then on_activity set_retired <$> st !! c else st !! c.
Proof.
  revert st. induction l as [|x l IH]; intros st; simpl; [done|]. unfold retire_all in *. rewrite IH.
  destruct (decide (c = x)) as [->|].
  - rewrite lookup_alter_eq, (decide_True (P := x ∈ x :: l)) by left.
    case_decide; [|done]. by destruct (st !! x).
  - rewrite lookup_alter_ne by done. repeat case_decide; set_solver.
Qed.

Lemma open_handle_retire is_closed st x c :
  open_handle is_closed (alter (on_activity set_retired) x st) c = open_handle is_closed st c.
Proof.
  unfold open_handle. destruct (decide (c = x)) as [->|].
  - rewrite lookup_alter_eq. by destruct (st !! x).
  - by rewrite lookup_alter_ne.
Qed.

Definition lease_one : Channel Sender Metadata -> Channel Sender Metadata :=
  on_activity (fun a => set_active (fetch_add (active a)) a).

(** The loop retires the connections it passes and leases the first with an open handle. *)
Definition assigned_from is_closed (l : list nat) st
    (r : option (Permit Sender Metadata) * gmap nat (Channel Sender Metadata)) : Prop :=
  match r with
  | (None, st') => st' = retire_all l st /\ Forall (fun c => open_handle is_closed st c = false) l
  | (Some permit, st') =>
      exists l1 l2 ch, l = l1 ++ permit_channel permit :: l2
        /\ Forall (fun c => open_handle is_closed st c = false) l1
        /\ open_handle is_closed st (permit_channel permit) = true
        /\ st !! permit_channel permit = Some ch
        /\ sender ch = Some (permit_sender permit) /\ permit_metadata permit = metadata ch
        /\ st' = alter lease_one (permit_channel permit) (retire_all l1 st)
  end.

Lemma assigned_from_skip is_closed c l st r :
  open_handle is_closed st c = false ->
  assigned_from is_closed l (alter (on_activity set_retired) c st) r ->
  assigned_from is_closed (c :: l) st r.
Proof.
  intros Hc. destruct r as [[permit|] st']; simpl.
  - intros (l1 & l2 & ch & -> & Hl & Ho & Hch & Hs & Hm & ->).
    setoid_rewrite open_handle_retire in Hl. rewrite open_handle_retire in Ho.
    assert (permit_channel permit <> c) by congruence. rewrite lookup_alter_ne in Hch by done.
    exists (c :: l1), l2, ch. repeat split; try done. by constructor.
  - intros [-> Hl]. setoid_rewrite open_handle_retire in Hl. split; [done|]. by constructor.
Qed.

Lemma insert_is_alter f st c ch : st !! c = Some ch -> <[c := f ch]> st = alter f c st.
Proof.
  intros E. apply map_eq. intros i. destruct (decide (i = c)) as [->|].
  - by rewrite lookup_insert_eq, lookup_alter_eq, E.
  - by rewrite lookup_insert_ne, lookup_alter_ne.
Qed.

Lemma assign_spec is_closed l st : assigned_from is_closed l st (assign is_closed l st).
Proof.
  revert st. induction l as [|c l IH]; intros st; simpl; [done|].
  destruct (st !! c) as [ch|] eqn:E; [destruct (sender ch) as [h|] eqn:Hs; [destruct (is_closed h) eqn:Hh|]|].
  - rewrite (insert_is_alter _ _ _ _ E). apply assigned_from_skip; [|apply IH].
    unfold open_handle. by rewrite E, Hs, Hh.
  - exists [], l, ch. simpl. unfold open_handle. rewrite E, Hs, Hh. repeat split; try done.
    by rewrite <- (insert_is_alter _ _ _ _ E).
  - rewrite (insert_is_alter _ _ _ _ E). apply assigned_from_skip; [|apply IH].
    unfold open_handle. by rewrite E, Hs.
  - apply assigned_from_skip; [unfold open_handle; by rewrite E|].
    replace (alter _ c st) with st; [apply IH|]. apply map_eq. intros i.
    destruct (decide (i = c)) as [->|]; [by rewrite lookup_alter_eq, E|by rewrite lookup_alter_ne].
Qed.

(** ** The accounts *)

(** The leases on a connection are counted exactly, within the machine's range. *)
Definition counted (ls : list (nat * nat)) c (ch : Channel Sender Metadata) : Prop :=
  active (activity ch) = held ls c /\ held ls c < usize_modulus
  /\ 0 <= maximum (activity ch) < usize_modulus.

Definition leases_ok st (ls : list (nat * nat)) : Prop :=
  map_Forall (counted ls) st /\ Forall (fun l => is_Some (st !! fst l)) ls.

Definition waits_ok limits (s : State) (ws : list Z) : Prop :=
  waiting_requests s = zlen ws /\ waiting_bytes s = total ws /\ Forall (Z.le 0) ws
  /\ zlen ws <= limit_waiting_requests limits /\ total ws <= limit_waiting_bytes limits.

Definition connections_ok limits (s : State) st (es : list (option nat)) : Prop :=
  zlen es = Z.b2z (connecting s)
  /\ zlen (channels s) + Z.b2z (connecting s) <= limit_connections limits + 1
  /\ serving st (channels s) + Z.b2z (connecting s) <= limit_connections limits
  /\ Forall (fun c => is_Some (st !! c)) (channels s).

Definition closed_ok (s : State) st : Prop :=
  closed s = true ->
  Forall (fun c => exists ch, st !! c = Some ch /\ retired (activity ch) = true /\ sender ch = None)
    (channels s).

Record accounted limits w : Prop := mkAccounted {
  acc_waits : waits_ok limits (state (pool w)) (waits w);
  acc_connections : connections_ok limits (state (pool w)) (store (pool w)) (establishments w);
  acc_leases : leases_ok (store (pool w)) (leases w);
  acc_closed : closed_ok (state (pool w)) (store (pool w)) }.

(** *** Waiting requests *)

Definition limits_ok (limits : Limits) : Prop :=
  0 < limit_connections limits
  /\ 0 < limit_waiting_requests limits < usize_modulus
  /\ 0 < limit_waiting_bytes limits < usize_modulus.

Lemma Waiting_new_ok limits bytes s s' ws :
  0 <= bytes -> Waiting_new limits bytes s = Ok s' ->
  waits_ok limits s ws -> waits_ok limits s' (bytes :: ws).
Proof.
  unfold Waiting_new. intros Hb H. pass H by Hc. pass H by Hf. zbool. simplify_eq.
  intros (Hr & Ht & Hp & Hl & Hm). unfold waits_ok. cbn. rewrite zlen_cons. fold (total ws).
  rewrite Hr, Ht in *. repeat split; try lia. by constructor.
Qed.

Lemma Waiting_drop_ok limits bytes s ws ws' :
  limits_ok limits -> waits_ok limits s (ws ++ bytes :: ws') ->
  waits_ok limits (Waiting_drop bytes s) (ws ++ ws').
Proof.
  intros (_ & Hq & Hb) (Hr & Ht & Hp & Hl & Hm). unfold waits_ok. cbn. rewrite Hr, Ht in *.
  apply Forall_app in Hp as [Hp1 Hp2]. apply Forall_cons in Hp2 as [Hp0 Hp2].
  rewrite !total_app in *. cbn in Hm. fold (total ws') in Hm. cbn [total foldr]. fold (total ws').
  pose proof (total_nonneg _ Hp1). pose proof (total_nonneg _ Hp2).
  rewrite !zlen_app, zlen_cons in *. pose proof (zlen_nonneg ws). pose proof (zlen_nonneg ws').
  repeat split; try lia; [rewrite Z.mod_small; lia| |by apply Forall_app].
  rewrite Z.mod_small; unfold total in *; simpl; lia.
Qed.

(** *** Connections *)

Definition known st (l : list nat) : Prop := Forall (fun c => is_Some (st !! c)) l.

Lemma evolves_known st st' l : evolves st st' -> known st l -> known st' l.
Proof.
  intros He Hk. eapply Forall_impl; [exact Hk|]. intros c [ch E]. destruct (He _ _ E) as (ch' & E' & _). by exists ch'.
Qed.

Lemma known_filter st l (P : nat -> Prop) `{forall c, Decision (P c)} : known st l -> known st (filter P l).
Proof. unfold known. rewrite !Forall_forall. intros Hk c [_ Hc]%list_elem_of_filter. auto. Qed.

Lemma serving_app st l l' : serving st (l ++ l') = serving st l + serving st l'.
Proof. unfold serving. by rewrite filter_app, zlen_app. Qed.

Lemma serving_one st c : serving st [c] <= 1.
Proof. apply zlen_filter_one. Qed.

Lemma serving_filter st l (P : nat -> Prop) `{forall c, Decision (P c)} :
  serving st (filter P l) <= serving st l.
Proof. apply zlen_filter_filter. Qed.

Lemma evolves_serving st st' l : evolves st st' -> serving st' l <= serving st l.
Proof.
  intros He. apply zlen_filter_le. intros c _ Hc. pose proof (evolves_retired _ _ c He).
  destruct (is_retired st c); naive_solver.
Qed.

(** Any evolution of the store keeps the connection accounts. *)
Lemma connections_ok_evolves limits s s' st st' es :
  channels s' = channels s -> connecting s' = connecting s ->
  evolves st st' -> connections_ok limits s st es -> connections_ok limits s' st' es.
Proof.
  intros Hc Hn He (Hs & Hl & Hv & Hk). unfold connections_ok. rewrite Hc, Hn.
  pose proof (evolves_serving _ _ (channels s) He). repeat split; [done|done|lia|].
  by eapply evolves_known.
Qed.

Lemma acquire_turn_connections limits is_closed p p' sel es :
  acquire_turn limits is_closed p = (Ok sel, p') ->
  connections_ok limits (state p) (store p) es ->
  connections_ok limits (state p') (store p')
    (match sel with Establish => None :: es | _ => es end).
Proof.
  intros H. pose proof (acquire_turn_evolves _ _ _ _ _ H) as He. revert H.
  unfold acquire_turn. destruct (closed _); [done|].
  destruct (assign _ _ _) as [[permit|] st] eqn:E; [|destruct (may_establish _ _ _) eqn:Hm];
    intros [= <- <-]; simpl in *; intros (Hs & Hl & Hv & Hk).
  all: set (l := filter _ (channels (state p))) in *.
  all: assert (Hfl : zlen l <= zlen (channels (state p))) by apply zlen_filter.
  all: assert (Hfv : serving st l <= serving (store p) (channels (state p)))
         by (etrans; [apply (evolves_serving _ _ _ He)|apply serving_filter]).
  all: assert (Hfk : known st l) by (eapply evolves_known; [done|by apply known_filter]).
  all: unfold connections_ok; simpl; try (repeat split; [done|lia|lia|done]).
  unfold may_establish in Hm. simpl in Hm. zbool.
  rewrite zlen_cons. destruct (connecting (state p)); simpl in *; [done|].
  repeat split; [lia|lia|lia|done].
Qed.

Lemma connections_push limits c p p' es es' :
  establish_push c p = Ok p' -> is_Some (store p !! c) ->
  connections_ok limits (state p) (store p) (es ++ Some c :: es') ->
  connections_ok limits (state (Establishment_drop p')) (store p') (es ++ es').
Proof.
  unfold establish_push. intros H. pass H by Hc. injection H as <-.
  intros Hch (Hs & Hl & Hv & Hk). unfold connections_ok. simpl.
  rewrite zlen_app, zlen_cons in Hs. rewrite !zlen_app, serving_app. change (zlen [c]) with 1.
  pose proof (serving_one (store p) c). pose proof (zlen_nonneg es). pose proof (zlen_nonneg es').
  destruct (connecting (state p)); simpl in *; [|lia].
  repeat split; [lia|lia|lia|]. apply Forall_app. by rewrite Forall_singleton.
Qed.

Lemma connections_abandon limits o p es es' :
  connections_ok limits (state p) (store p) (es ++ o :: es') ->
  connections_ok limits (state (Establishment_drop p)) (store p) (es ++ es').
Proof.
  intros (Hs & Hl & Hv & Hk). unfold connections_ok. simpl.
  rewrite zlen_app, zlen_cons in Hs. rewrite zlen_app. pose proof (zlen_nonneg es).
  pose proof (zlen_nonneg es'). destruct (connecting (state p)); simpl in *; [|lia].
  repeat split; [lia|lia|lia|done].
Qed.

(** *** Leases *)

Lemma leases_ok_fresh st ls c h m :
  st !! c = None -> leases_ok st ls -> leases_ok (<[c := Channel_new h m]> st) ls.
Proof.
  intros E [Hc Hl]. assert (Hne : Forall (fun l => fst l <> c) ls).
  { eapply Forall_impl; [exact Hl|]. intros l [ch E'] <-. congruence. }
  split.
  - apply map_Forall_insert_2; [|done]. unfold counted. by rewrite held_none.
  - rewrite Forall_forall in *. intros l Hin. rewrite lookup_insert_ne by (symmetry; auto). auto.
Qed.

Definition keeps_counts (f : Activity -> Activity) : Prop :=
  forall a, active (f a) = active a
    /\ (0 <= maximum a < usize_modulus -> 0 <= maximum (f a) < usize_modulus).

Definition same_held (ls ls' : list (nat * nat)) : Prop :=
  (forall c, held ls' c = held ls c) /\ Forall2 (fun l l' => fst l = fst l') ls ls'.

Lemma leases_ok_alter st ls (g : Channel Sender Metadata -> Channel Sender Metadata) c :
  (forall ch, active (activity (g ch)) = active (activity ch)
    /\ (0 <= maximum (activity ch) < usize_modulus -> 0 <= maximum (activity (g ch)) < usize_modulus)) ->
  leases_ok st ls -> leases_ok (alter g c st) ls.
Proof.
  intros Hg [Hc Hl]. split.
  - intros c0 ch0 E. apply lookup_alter_Some in E as [(-> & ch & E & ->)|[Hne E]]; [|by apply Hc].
    destruct (Hc _ _ E) as (Ha & Hh & Hm). destruct (Hg ch) as [Hga Hgm].
    unfold counted. rewrite Hga. auto.
  - eapply Forall_impl; [exact Hl|]. intros l Hs. by rewrite lookup_alter_is_Some.
Qed.

Lemma leases_ok_touch p ls f c :
  keeps_counts f -> leases_ok (store p) ls -> leases_ok (store (touch f c p)) ls.
Proof. intros Hf. apply leases_ok_alter. intros ch. apply Hf. Qed.

Lemma leases_ok_fold st ls l (g : Channel Sender Metadata -> Channel Sender Metadata) :
  (forall ch, activity (g ch) = activity (on_activity set_retired ch)
           \/ activity (g ch) = activity (on_activity set_force_close ch)) ->
  leases_ok st ls -> leases_ok (fold_left (fun st c => alter g c st) l st) ls.
Proof.
  intros Hg. revert st. induction l as [|c l IH]; intros st H; simpl; [done|]. apply IH.
  apply leases_ok_alter; [|done]. intros ch. destruct (Hg ch) as [-> | ->]; done.
Qed.

(** Giving out and taking back one lease. *)
Lemma leases_ok_add st ls c ch :
  st !! c = Some ch -> active (activity ch) < maximum (activity ch) ->
  leases_ok st ls -> leases_ok (alter lease_one c st) ((c, 1%nat) :: ls).
Proof.
  intros E Hroom [Hc Hl]. split.
  - intros c0 ch0 E0. unfold counted. rewrite held_cons. simpl.
    apply lookup_alter_Some in E0 as [(-> & ch1 & E1 & ->)|[Hne E0]].
    + simplify_eq. destruct (Hc _ _ E) as (Ha & Hh & Hm). rewrite decide_True by done. simpl.
      pose proof (held_nonneg ls c0). unfold fetch_add. rewrite Z.mod_small; lia.
    + rewrite decide_False by done. by apply Hc.
  - constructor; simpl; [rewrite lookup_alter_is_Some; by exists ch|].
    eapply Forall_impl; [exact Hl|]. intros l Hs. by rewrite lookup_alter_is_Some.
Qed.

Lemma leases_ok_release p ls ls' c n :
  leases_ok (store p) (ls ++ (c, n) :: ls') -> leases_ok (store (Lease_drop c p)) (ls ++ ls').
Proof.
  intros [Hc Hl]. apply Forall_app in Hl as [Hl1 Hl2]. apply Forall_cons in Hl2 as [_ Hl2]. split.
  - intros c0 ch0 E0. cbn [Lease_drop touch store] in E0.
    apply lookup_alter_Some in E0 as [(-> & ch1 & E1 & ->)|[Hne E0]].
    + destruct (Hc _ _ E1) as (Ha & Hh & Hm). unfold counted. rewrite held_app in *.
      rewrite held_cons in *. simpl in *. rewrite decide_True in * by done.
      pose proof (held_nonneg ls c0). pose proof (held_nonneg ls' c0).
      unfold fetch_sub. rewrite Z.mod_small; lia.
    + destruct (Hc _ _ E0) as (Ha & Hh & Hm). unfold counted. rewrite held_app in *.
      rewrite held_cons in *. simpl in *. rewrite decide_False in * by done. lia.
  - apply Forall_app. split; (eapply Forall_impl; [eassumption|]); intros l Hs;
      simpl; by rewrite lookup_alter_is_Some.
Qed.

Lemma leases_ok_share st ls ls' c n m :
  leases_ok st (ls ++ (c, n) :: ls') -> leases_ok st (ls ++ (c, m) :: ls').
Proof.
  intros [Hc Hl]. split.
  - intros c0 ch0 E0. specialize (Hc _ _ E0). unfold counted in *. by rewrite held_app, held_cons in *.
  - rewrite Forall_app, Forall_cons in *. naive_solver.
Qed.

Lemma eligible_room st l c : c ∈ eligible st l -> c ∈ l /\ has_room st c = true.
Proof. unfold eligible. rewrite elem_of_sort_by_key, list_elem_of_filter. tauto. Qed.

Lemma has_room_spec st c :
  has_room st c = true <-> exists ch, st !! c = Some ch
    /\ retired (activity ch) = false /\ active (activity ch) < maximum (activity ch).
Proof.
  unfold has_room. destruct (st !! c) as [ch|]; [|naive_solver].
  rewrite andb_true_iff, negb_true_iff, Z.ltb_lt. naive_solver.
Qed.

(** What one assignment does. *)
Lemma acquire_turn_assigned limits is_closed p permit p' :
  acquire_turn limits is_closed p = (Ok (Assigned permit), p') ->
  exists l l1 l2 ch,
    l = filter (fun c => is_finished (store p) c = false) (channels (state p))
    /\ closed (state p) = false /\ state p' = with_channels l (state p)
    /\ eligible (store p) l = l1 ++ permit_channel permit :: l2
    /\ Forall (fun c => open_handle is_closed (store p) c = false) l1
    /\ open_handle is_closed (store p) (permit_channel permit) = true
    /\ store p !! permit_channel permit = Some ch
    /\ sender ch = Some (permit_sender permit) /\ permit_metadata permit = metadata ch
    /\ store p' = alter lease_one (permit_channel permit) (retire_all l1 (store p)).
Proof.
  unfold acquire_turn. destruct (closed _) eqn:Hc; [done|].
  set (l := filter _ (channels _)). pose proof (assign_spec is_closed (eligible (store p) l) (store p)) as Ha.
  destruct (assign _ _ _) as [[permit0|] st]; [|by destruct (may_establish _ _ _)].
  intros [= -> <-]. destruct Ha as (l1 & l2 & ch & H). by exists l, l1, l2, ch.
Qed.

Lemma acquire_turn_unassigned limits is_closed p sel p' :
  acquire_turn limits is_closed p = (Ok sel, p') ->
  match sel with Assigned _ => False | _ => True end ->
  exists l,
    l = filter (fun c => is_finished (store p) c = false) (channels (state p))
    /\ closed (state p) = false
    /\ store p' = retire_all (eligible (store p) l) (store p)
    /\ match sel with
       | Wait => state p' = with_channels l (state p)
                 /\ may_establish limits (state p') (store p') = false
       | _ => state p' = with_connecting true (with_channels l (state p))
       end.
Proof.
  unfold acquire_turn. destruct (closed _) eqn:Hc; [done|]. set (l := filter _ (channels _)).
  pose proof (assign_spec is_closed (eligible (store p) l) (store p)) as Ha.
  destruct (assign _ _ _) as [[permit0|] st]; [by intros [= <- <-]|]. destruct Ha as [-> _].
  destruct (may_establish _ _ _) eqn:Hm; intros [= <- <-] _; by exists l.
Qed.

Lemma acquire_turn_leases limits is_closed p p' sel ls :
  acquire_turn limits is_closed p = (Ok sel, p') ->
  leases_ok (store p) ls ->
  leases_ok (store p')
    (match sel with Assigned permit => (permit_channel permit, 1%nat) :: ls | _ => ls end).
Proof.
  intros H Hok. destruct sel as [permit| |].
  - apply acquire_turn_assigned in H as (l & l1 & l2 & ch & Hl & _ & _ & He & Hf & Ho & Hch & _ & _ & ->).
    assert (Hin : permit_channel permit ∈ eligible (store p) l) by (rewrite He; set_solver).
    apply eligible_room in Hin as [_ (ch' & E' & _ & Hroom)%has_room_spec]. simplify_eq.
    apply (leases_ok_add _ _ _ ch); [|done|by apply leases_ok_fold; [left|]].
    rewrite lookup_retire_all, decide_False; [done|].
    intros Hl1. rewrite Forall_forall in Hf. rewrite (Hf _ Hl1) in Ho. done.
  - apply acquire_turn_unassigned in H as (l & _ & _ & -> & _); [|done]. by apply leases_ok_fold; [left|].
  - apply acquire_turn_unassigned in H as (l & _ & _ & -> & _); [|done]. by apply leases_ok_fold; [left|].
Qed.

(** *** Closing *)

Lemma closed_ok_evolves s s' st st' :
  channels s' = channels s -> closed s' = closed s -> evolves st st' ->
  closed_ok s st -> closed_ok s' st'.
Proof.
  intros Hc Hd He H. unfold closed_ok. rewrite Hc, Hd. intros Hcl. eapply Forall_impl; [by apply H|].
  intros c (ch & E & Hr & Hs). destruct (He _ _ E) as (ch' & E' & []). exists ch'. auto.
Qed.

Lemma later_retire_and_take (ch : Channel Sender Metadata) : later ch (retire_and_take ch).
Proof. by split. Qed.

Lemma close_start_closed p :
  known (store p) (channels (state p)) -> closed_ok (state (close_start p)) (store (close_start p)).
Proof.
  intros Hk _. simpl. generalize dependent (store p).
  induction (channels (state p)) as [|c l IH]; intros st Hk; [constructor|].
  apply Forall_cons in Hk as [[ch E] Hk]. simpl.
  assert (He : evolves st (alter retire_and_take c st))
    by apply evolves_alter, later_retire_and_take.
  constructor; [|apply IH; by eapply evolves_known].
  destruct (evolves_fold retire_and_take l (alter retire_and_take c st) later_retire_and_take c
    (retire_and_take ch)) as (ch' & E' & []); [by rewrite lookup_alter_eq, E|].
  exists ch'. auto.
Qed.

Lemma acquire_turn_open limits is_closed p sel p' :
  acquire_turn limits is_closed p = (Ok sel, p') -> closed (state p) = false /\ closed (state p') = false.
Proof.
  unfold acquire_turn. destruct (closed _) eqn:Hc; [done|].
  destruct (assign _ _ _) as [[?|] ?]; [|destruct (may_establish _ _ _)]; by intros [= <- <-].
Qed.

Lemma acquire_turn_waits limits is_closed p sel p' ws :
  acquire_turn limits is_closed p = (Ok sel, p') ->
  waits_ok limits (state p) ws -> waits_ok limits (state p') ws.
Proof.
  unfold acquire_turn. destruct (closed _) eqn:Hc; [done|].
  destruct (assign _ _ _) as [[?|] ?]; [|destruct (may_establish _ _ _)]; by intros [= <- <-].
Qed.

Lemma accounted_turn limits is_closed p sel p' ws es ls :
  acquire_turn limits is_closed p = (Ok sel, p') ->
  accounted limits (mkWorld p ws es ls) ->
  accounted limits (mkWorld p' ws (match sel with Establish => None :: es | _ => es end)
    (match sel with Assigned permit => (permit_channel permit, 1%nat) :: ls | _ => ls end)).
Proof.
  intros H [Hw Hc Hl Hd]. split; simpl in *.
  - by eapply acquire_turn_waits.
  - by eapply acquire_turn_connections.
  - by eapply acquire_turn_leases.
  - destruct (acquire_turn_open _ _ _ _ _ H) as [_ Hf]. intros Ht. congruence.
Qed.

(** A step that only evolves the store and keeps the guards. *)
Lemma accounted_store limits s st st' ws es ls ls' :
  evolves st st' -> leases_ok st' ls' ->
  accounted limits (mkWorld (mkPool s st) ws es ls) -> accounted limits (mkWorld (mkPool s st') ws es ls').
Proof.
  intros He Hl' [Hw Hc Hl Hd]. split; simpl in *; [done| |done|by eapply closed_ok_evolves].
  by eapply connections_ok_evolves.
Qed.

Lemma accounted_touch limits f c p ws es ls :
  keeps_flags f -> keeps_counts f ->
  accounted limits (mkWorld p ws es ls) -> accounted limits (mkWorld (touch f c p) ws es ls).
Proof.
  intros Hf Hn H. destruct p as [s st]. eapply accounted_store; [by apply (evolves_touch f c (mkPool s st))| |done].
  apply (leases_ok_touch (mkPool s st)); [done|]. apply H.
Qed.

Lemma step_accounted limits w b w' :
  limits_ok limits -> step limits w b w' -> accounted limits w -> accounted limits w'.
Proof.
  intros Hlim Hs H. pose proof (step_evolves _ _ _ _ Hs) as He. destruct Hs; simpl in He.
  - destruct H as [Hw Hc Hl Hd]. unfold Waiting_new in *. split; simpl in *;
      [by eapply Waiting_new_ok| | done|]; case_all.
  - destruct H as [Hw Hc Hl Hd]. split; simpl in *; [by apply Waiting_drop_ok|done|done|done].
  - by apply (accounted_turn _ _ _ _ _ _ _ _ H0).
  - by apply (accounted_turn _ _ _ _ _ _ _ _ H0).
  - by apply (accounted_turn _ _ _ _ _ _ _ _ H0).
  - destruct H as [Hw Hc [Hl Hk] Hd]. split; simpl in *; [done| | |by eapply closed_ok_evolves].
    + destruct Hc as (Hc & Hc'). eapply connections_ok_evolves; [done|done|exact He|].
      split; [|done]. rewrite zlen_app, zlen_cons in *. lia.
    + by apply leases_ok_fresh.
  - destruct H as [Hw Hc Hl Hd]. destruct H0 as (ch & E & _). split; simpl in *.
    + unfold establish_push in *. by case_all.
    + eapply connections_push; [done|by exists ch|done].
    + unfold establish_push in *. by case_all.
    + unfold establish_push in *. case_all. intros Ht. simpl in Ht. congruence.
  - destruct H as [Hw Hc Hl Hd]. split; simpl in *; [done|by eapply connections_abandon|done|done].
  - unfold observe in *. destruct (store p !! c); simplify_eq; [|done].
    apply accounted_touch; [intros a; by repeat case_match|intros a; by repeat case_match|done].
  - by apply accounted_touch.
  - by apply accounted_touch.
  - by apply accounted_touch.
  - unfold send_failed in *. simplify_eq. destruct (going_away _); [|done]. by apply accounted_touch.
  - by apply accounted_touch.
  - destruct p as [s st]. eapply accounted_store; [exact He| |exact H]. eapply leases_ok_share, H.
  - destruct p as [s st]. eapply accounted_store; [exact He| |exact H]. eapply leases_ok_share, H.
  - destruct p as [s st]. eapply accounted_store; [exact He| |exact H]. eapply leases_ok_release, H.
  - destruct H as [Hw Hc Hl Hd]. split; simpl in *; [done| | |].
    + by eapply connections_ok_evolves.
    + by apply leases_ok_fold; [left|].
    + apply close_start_closed, Hc.
  - destruct p as [s st]. eapply accounted_store; [exact He| |exact H].
    apply leases_ok_fold; [by right|apply H].
Qed.

Lemma accounted_new limits : limits_ok limits -> accounted limits World_new.
Proof.
  intros (Hc & Hr & Hb). split; simpl.
  - unfold waits_ok, zlen, total. simpl. repeat split; try lia. constructor.
  - unfold connections_ok, serving, zlen. simpl. repeat split; try lia. constructor.
  - split; [apply map_Forall_empty|constructor].
  - intros [=].
Qed.

Lemma reachable_accounted limits w : limits_ok limits -> reachable limits w -> accounted limits w.
Proof.
  intros Hl. unfold reachable, steps. pose proof (accounted_new _ Hl) as H0. intros Hs.
  induction Hs as [|w0 w1 w2 (b & Hs) _ IH]; [done|]. apply IH. by eapply step_accounted.
Qed.

(** C31. In every interleaving of requests, connections and closures the pool's accounts are
    exact: the waiting budget counts the waiting requests and their bytes within the limits,
    at most one connection is being established, at most the configured number serves and
    one more is kept, and each connection counts the leases that are held on it. *)
Theorem pool_accounts limits w :
  limits_ok limits -> reachable limits w ->
  let s := state (pool w) in
  waiting_requests s = zlen (waits w) /\ zlen (waits w) <= limit_waiting_requests limits
  /\ waiting_bytes s = total (waits w) /\ total (waits w) <= limit_waiting_bytes limits
  /\ zlen (establishments w) = Z.b2z (connecting s)
  /\ serving (store (pool w)) (channels s) + Z.b2z (connecting s) <= limit_connections limits
  /\ zlen (channels s) + Z.b2z (connecting s) <= limit_connections limits + 1
  /\ (forall c ch, store (pool w) !! c = Some ch -> active (activity ch) = held (leases w) c).
Proof.
  intros Hl Hr. destruct (reachable_accounted _ _ Hl Hr) as [(Hw1 & Hw2 & _ & Hw3 & Hw4) (Hc1 & Hc2 & Hc3 & _) [Hk _] _].
  simpl. repeat split; try done; try lia. intros c ch E. by destruct (Hk _ _ E).
Qed.

(** ** Assignments *)

(** A stream is assigned only by an open pool, to a listed connection that has neither
    finished nor retired, whose handle is open, and which has a stream to spare; no other
    such connection carries fewer streams; the assignment takes exactly one stream. *)
Theorem assignment_least_loaded limits w is_closed permit p' :
  limits_ok limits -> reachable limits w ->
  acquire_turn limits is_closed (pool w) = (Ok (Assigned permit), p') ->
  let c := permit_channel permit in
  let usable c := (c ∈ channels (state (pool w))) /\ is_finished (store (pool w)) c = false
    /\ has_room (store (pool w)) c = true /\ open_handle is_closed (store (pool w)) c = true in
  closed (state (pool w)) = false /\ usable c
  /\ (forall c', usable c' -> active_of (store (pool w)) c <= active_of (store (pool w)) c')
  /\ active_of (store p') c = active_of (store (pool w)) c + 1.
Proof.
  intros Hl Hr H. simpl. pose proof (reachable_accounted _ _ Hl Hr) as [_ _ [Hcount _] _].
  apply acquire_turn_assigned in H as (l & l1 & l2 & ch & -> & Hc & _ & He & Hf & Ho & Hch & _ & _ & Hst).
  assert (Hin : permit_channel permit ∈ eligible (store (pool w))
    (filter (fun c => is_finished (store (pool w)) c = false) (channels (state (pool w))))) by (rewrite He; set_solver).
  apply eligible_room in Hin as [[Hfin Hlist]%list_elem_of_filter Hroom]. split_and!; try done.
  - intros c' (Hl' & Hf' & Hr' & Ho').
    assert (Hin' : c' ∈ l1 ++ permit_channel permit :: l2).
    { rewrite <- He. unfold eligible. rewrite elem_of_sort_by_key, !list_elem_of_filter. done. }
    apply elem_of_app in Hin' as [Hin'|Hin']; [rewrite Forall_forall in Hf; rewrite (Hf _ Hin') in Ho'; done|].
    apply elem_of_cons in Hin' as [->|Hin']; [lia|].
    apply (strongly_sorted_before (key_order (active_of (store (pool w)))) l1 _ l2); [|done].
    rewrite <- He. apply sort_by_key_sorted.
  - rewrite Hst. unfold active_of. rewrite lookup_alter_eq, lookup_retire_all, decide_False, Hch.
    + simpl. apply has_room_spec in Hroom as (ch' & E' & _ & Hroom). simplify_eq.
      destruct (Hcount _ _ Hch) as (Ha & Hh & Hm). pose proof (held_nonneg (leases w) (permit_channel permit)).
      unfold fetch_add. rewrite Z.mod_small; lia.
    + intros Hl1. rewrite Forall_forall in Hf. rewrite (Hf _ Hl1) in Ho. done.
Qed.

(** Once a connection is retired (its peer went away, its body asked for it, its dispatcher
    ended, or the pool closed), no later step of any task assigns a stream of it, and a
    permit obtained earlier sends nothing. *)
Theorem retired_never_assigned limits w w' c is_closed permit p' now deadline :
  is_retired (store (pool w)) c = true -> steps limits w w' ->
  (acquire_turn limits is_closed (pool w') = (Ok (Assigned permit), p') -> permit_channel permit <> c)
  /\ (permit_channel permit = c -> exists e, send_ready now deadline permit (pool w') = Err e).
Proof.
  intros Hr Hs. apply steps_evolve in Hs. pose proof (evolves_retired _ _ _ Hs Hr) as Hr'. split.
  - intros H <-. apply acquire_turn_assigned in H as (l & l1 & l2 & ch & -> & Hc & _ & He & _).
    assert (Hin : permit_channel permit ∈ eligible (store (pool w'))
      (filter (fun c => is_finished (store (pool w')) c = false) (channels (state (pool w'))))) by (rewrite He; set_solver).
    apply eligible_room in Hin as [_ (ch' & E & Hret & _)%has_room_spec].
    unfold is_retired in Hr'. rewrite E in Hr'. congruence.
  - intros Hp. rewrite <- Hp in Hr'. unfold send_ready. rewrite Hr'.
    destruct (deadline <=? now); eauto.
Qed.

(** ** Wake-ups *)

Definition live st (l : list nat) : list nat := filter (fun c => is_finished st c = false) l.

(** A turn of [acquire] would wait, whatever the handles report. *)
Definition asleep limits (s : State) st : Prop :=
  closed s = false
  /\ Forall (fun c => has_room st c = false) (live st (channels s))
  /\ may_establish limits (with_channels (live st (channels s)) s) st = false.

Definition same_view st st' c : Prop :=
  is_finished st' c = is_finished st c /\ is_retired st' c = is_retired st c
  /\ has_room st' c = has_room st c.

Lemma asleep_congr limits s s' st st' :
  closed s' = closed s -> channels s' = channels s -> connecting s' = connecting s ->
  Forall (same_view st st') (channels s) -> asleep limits s st -> asleep limits s' st'.
Proof.
  intros Hd Hc Hn Hv (Hcl & Hroom & Hm). rewrite Forall_forall in Hv.
  assert (Hlive : live st' (channels s') = live st (channels s)).
  { rewrite Hc. apply filter_ext_in. intros c Hin. by destruct (Hv c Hin) as (-> & _ & _). }
  assert (Hin : forall c, c ∈ live st (channels s) -> same_view st st' c).
  { intros c [_ H]%list_elem_of_filter. auto. }
  unfold asleep. rewrite Hlive, Hd. split_and!; [done| |].
  - rewrite Forall_forall in *. intros c H. destruct (Hin c H) as (_ & _ & ->). auto.
  - revert Hm. unfold may_establish. simpl. rewrite Hn.
    replace (serving st' (live st (channels s))) with (serving st (live st (channels s))); [done|].
    unfold serving. f_equal. apply filter_ext_in. intros c H. by destruct (Hin c H) as (_ & -> & _).
Qed.

Lemma same_view_alter f x st c :
  (forall ch, f ch = ch \/ f ch = on_activity set_force_close ch) -> same_view st (alter f x st) c.
Proof.
  intros Hf. unfold same_view, is_finished, is_retired, has_room. destruct (decide (c = x)) as [->|].
  - rewrite lookup_alter_eq. destruct (st !! x) as [ch|]; [|done]. simpl.
    by destruct (Hf ch) as [-> | ->].
  - by rewrite lookup_alter_ne.
Qed.

Lemma same_view_fold l st c :
  same_view st (fold_left (fun st c => alter (on_activity set_force_close) c st) l st) c.
Proof.
  revert st. induction l as [|x l IH]; intros st; simpl; [done|].
  destruct (IH (alter (on_activity set_force_close) x st)) as (H1 & H2 & H3).
  destruct (same_view_alter (on_activity set_force_close) x st c) as (H4 & H5 & H6); [auto|].
  unfold same_view. rewrite H1, H2, H3. done.
Qed.

Lemma same_view_fresh st x ch c : is_Some (st !! c) -> st !! x = None -> same_view st (<[x := ch]> st) c.
Proof.
  intros [ch' E] Hx. unfold same_view, is_finished, is_retired, has_room.
  by rewrite lookup_insert_ne by congruence.
Qed.

Lemma eligible_nil st l : Forall (fun c => has_room st c = false) l -> eligible st l = [].
Proof.
  intros H. unfold eligible. replace (filter _ l) with (@nil nat); [done|].
  induction H; [done|]. rewrite filter_cons, decide_False by congruence. done.
Qed.

(** A sleeping request stays asleep when it looks again. *)
Lemma asleep_turn limits is_closed p :
  asleep limits (state p) (store p) ->
  acquire_turn limits is_closed p
    = (Ok Wait, mkPool (with_channels (live (store p) (channels (state p))) (state p)) (store p)).
Proof.
  intros (Hc & Hroom & Hm). unfold acquire_turn. rewrite Hc. fold (live (store p) (channels (state p))).
  rewrite (eligible_nil _ _ Hroom). simpl. by rewrite Hm.
Qed.

Lemma live_idem st l : live st (live st l) = live st l.
Proof.
  unfold live. induction l as [|c l IH]; [done|]. rewrite !filter_cons.
  destruct (decide (is_finished st c = false)); [|done]. by rewrite filter_cons, decide_True, IH.
Qed.

Lemma asleep_live limits s st : asleep limits s st -> asleep limits (with_channels (live st (channels s)) s) st.
Proof. intros (Hc & Hroom & Hm). unfold asleep. simpl. by rewrite !live_idem. Qed.

(** A request goes to sleep only in such a state. *)
Lemma wait_asleep limits is_closed p p' :
  acquire_turn limits is_closed p = (Ok Wait, p') -> asleep limits (state p') (store p').
Proof.
  intros H. apply acquire_turn_unassigned in H as (l & Hl & Hc & Hst & Hs & Hm); [|done].
  assert (Hfin : forall c, is_finished (store p') c = is_finished (store p) c).
  { intros c. rewrite Hst. unfold is_finished. rewrite lookup_retire_all.
    case_decide; [|done]. by destruct (store p !! c). }
  assert (Hlive : live (store p') l = l).
  { rewrite Hl at 2. rewrite Hl. unfold live. rewrite (filter_ext_in _ (fun c => is_finished (store p) c = false))
      by (intros c _; by rewrite Hfin). apply live_idem. }
  unfold asleep. rewrite Hs in *. simpl. rewrite Hlive. split_and!; [done| |exact Hm].
  rewrite Forall_forall. intros c Hin. apply not_true_iff_false. rewrite has_room_spec. intros (ch & E & Hr & Ha).
  rewrite Hst, lookup_retire_all in E. case_decide as Hd.
  - destruct (store p !! c); [|done]. injection E as <-. done.
  - apply Hd. unfold eligible. rewrite elem_of_sort_by_key, list_elem_of_filter. split; [|done].
    apply has_room_spec. eauto.
Qed.

Lemma observe_unnoticed is_closed limit c p p' :
  observe is_closed limit c p = (false, p') -> p' = p.
Proof.
  unfold observe. destruct (store p !! c) as [ch|] eqn:E; [|by intros [= <-]].
  intros [= Hn <-]. apply orb_false_iff in Hn as [Hm Hr]. zbool. destruct p as [s st]. unfold touch. simpl in *.
  f_equal. rewrite <- (insert_is_alter _ _ _ _ E). apply insert_id. rewrite E. f_equal.
  destruct ch as [h m [n x r f k]]. simpl in *. subst x. unfold on_activity. simpl.
  destruct h as [h|]; [|done]. destruct (is_closed h); [|done]. destruct r; [done|]. done.
Qed.

Lemma quiet_step_asleep limits w w' :
  step limits w false w' -> accounted limits w ->
  asleep limits (state (pool w)) (store (pool w)) -> asleep limits (state (pool w')) (store (pool w')).
Proof.
  intros Hs [_ (_ & _ & _ & Hk) _ _] Ha. inversion Hs; subst; simpl in *; try done.
  - unfold Waiting_new in *. case_all.
  - rewrite asleep_turn in *; congruence.
  - rewrite asleep_turn in *; congruence.
  - rewrite asleep_turn in H by done. simplify_eq. simpl. by apply asleep_live.
  - eapply asleep_congr; [done..| |exact Ha]. eapply Forall_impl; [exact Hk|].
    intros c0 Hc0. by apply same_view_fresh.
  - match goal with H : observe _ _ _ _ = _ |- _ => apply observe_unnoticed in H as -> end. done.
  - eapply asleep_congr; [done..| |exact Ha]. apply Forall_true. intros. apply same_view_alter. auto.
  - match goal with H : send_failed _ _ _ _ = _, H' : going_away _ = false |- _ =>
      unfold send_failed in H; rewrite H' in H end. by simplify_eq.
  - eapply asleep_congr; [done..| |exact Ha]. apply Forall_true. intros. apply same_view_fold.
Qed.

(** C32. No wake-up is lost: from the moment a request finds nothing to do and waits, any
    sequence of steps of other tasks that notifies nobody leaves nothing for it to do; a
    turn in between, whatever the handles then report, would only wait again. *)
Theorem no_lost_wakeup limits w w' is_closed p0 is_closed' :
  limits_ok limits -> reachable limits w ->
  acquire_turn limits is_closed (pool w) = (Ok Wait, p0) ->
  rtc (fun a b => step limits a false b) (mkWorld p0 (waits w) (establishments w) (leases w)) w' ->
  exists p', acquire_turn limits is_closed' (pool w') = (Ok Wait, p').
Proof.
  intros Hl Hr Hw Hs.
  assert (H0 : accounted limits (mkWorld p0 (waits w) (establishments w) (leases w))).
  { destruct w as [p ws es ls]. apply (accounted_turn _ _ _ _ _ _ _ _ Hw). by apply (reachable_accounted _ (mkWorld p ws es ls)). }
  pose proof (wait_asleep _ _ _ _ Hw) as Ha.
  assert (Hf : asleep limits (state (pool w')) (store (pool w'))).
  { remember (mkWorld p0 (waits w) (establishments w) (leases w)) as w0. 
    assert (Ha0 : asleep limits (state (pool w0)) (store (pool w0))) by by subst.
    clear Heqw0 Ha Hw. induction Hs as [|w0 w1 w2 Hs _ IH]; [done|]. apply IH.
    - by eapply step_accounted.
    - by eapply quiet_step_asleep. }
  rewrite (asleep_turn _ _ _ Hf). eauto.
Qed.

(** ** Closing *)

Lemma step_closed limits w b w' :
  step limits w b w' -> closed (state (pool w)) = true -> closed (state (pool w')) = true.
Proof.
  destruct 1; simpl; try done;
    try (intros Hc; apply acquire_turn_open in H as [Hf _]; congruence).
  - unfold Waiting_new in *. by case_all.
  - unfold establish_push in *. by case_all.
  - unfold observe in *. destruct (store p !! c); by simplify_eq.
  - unfold send_failed in *. simplify_eq. by destruct (going_away _).
Qed.

(** A closed pool stays closed: it assigns nothing and takes in no connection, and each
    connection it still lists is retired and has given up its handle. *)
Theorem closed_pool_drains limits w w' is_closed c :
  limits_ok limits -> reachable limits w -> closed (state (pool w)) = true -> steps limits w w' ->
  acquire_turn limits is_closed (pool w') = (Err Pool_Closed, pool w')
  /\ establish_push c (pool w') = Err Pool_Closed
  /\ Forall (fun c => exists ch, store (pool w') !! c = Some ch
               /\ retired (activity ch) = true /\ sender ch = None) (channels (state (pool w'))).
Proof.
  intros Hl Hr Hc Hs.
  assert (Hc' : closed (state (pool w')) = true).
  { clear Hr. induction Hs as [|w w1 w' (b & Hs) _ IH]; [done|]. apply IH. by eapply step_closed. }
  assert (Hr' : reachable limits w') by (unfold reachable, steps in *; by etrans).
  destruct (reachable_accounted _ _ Hl Hr') as [_ _ _ Hd].
  unfold acquire_turn, establish_push. rewrite Hc'. split_and!; [done|done|by apply Hd].
Qed.

(** A failed request is reported as not sent exactly when its message came back, or the peer
    went away or refused the stream; a peer that went away retires the connection. *)
Theorem send_failed_exact returned cause c p :
  let '(e, p') := send_failed returned cause c p in
  (e = Pool_Request true <->
     returned = true \/ exists h, cause = Some h /\ is_remote h = true
       /\ (is_go_away h = true \/ reason h = Some REFUSED_STREAM))
  /\ (going_away cause = true -> is_Some (store p !! c) -> is_retired (store p') c = true).
Proof.
  unfold send_failed. simpl. split.
  - unfold going_away, refused_stream, refusal. destruct cause as [h|]; [|destruct returned; naive_solver].
    destruct (is_remote h) eqn:Hr.
    + split.
      * intros [= H]. apply orb_true_iff in H as [[H|H]%orb_true_iff|H%bool_decide_eq_true]; naive_solver.
      * intros [-> | (h0 & [= <-] & _ & [Hg|Hg])]; [done|by rewrite Hg, orb_true_r|].
        by rewrite (bool_decide_eq_true_2 _ Hg), orb_true_r.
    + rewrite !orb_false_r. split; [intros [= ->]; auto|]. intros [->|(h0 & [= <-] & ? & _)]; congruence.
  - intros -> [ch E]. unfold is_retired. simpl. by rewrite lookup_alter_eq, E.
Qed.
End PoolTheory.
