(* ===== verification/HttpTypes.v ===== *)
(** HTTP messages as the client handles them, and what it uses of the [http] crate: header
    maps, and the texts the crate accepts as header names and values, which are parameters.

    A header map is the crate's vector of entries: each is a name (lowercase, and no two
    entries have the same name) with its values, the first and then the extra ones in the
    order they were appended. Lookups find a name's entry; iteration goes through the entries
    in the order of the vector and yields every value of each; [append] adds to the entry of
    the name, [insert] replaces its values where it is, and [remove] moves the last entry
    of the vector into the place of the removed one. *)

From S2P Require Import Prelude.

Abbreviation HeaderMap := (list (bytes * list bytes)).

(** [HeaderValue::to_str], [HeaderValue::from_str] and [HeaderName::try_from] (which
    lowercases). *)
Class HttpText := {
  header_to_str : bytes -> option bytes;
  header_from_str : bytes -> option bytes;
  header_name : bytes -> option bytes }.

(** The entry of a name, with its index. *)
Definition header_find (h : HeaderMap) (name : bytes) : option (nat * (bytes * list bytes)) :=
  list_find (fun e => e.1 = name) h.

(** [get_all], [get], [contains_key], [keys] and [iter]. *)
Definition header_all (h : HeaderMap) (name : bytes) : list bytes :=
  match header_find h name with Some (_, e) => e.2 | None => [] end.
Definition header_get (h : HeaderMap) (name : bytes) : option bytes := head (header_all h name).
Definition header_contains (h : HeaderMap) (name : bytes) : bool := bool_decide (name ∈ h.*1).
Definition header_keys (h : HeaderMap) : list bytes := h.*1.
Definition header_iter (h : HeaderMap) : list (bytes * bytes) :=
  h ≫= fun e => (fun value => (e.1, value)) <$> e.2.

(** [Vec::swap_remove] at an index of the vector. *)
Definition swap_remove {A} (i : nat) (l : list A) : list A :=
  match last l with
  | None => l
  | Some x => take (length l - 1)%nat (<[i := x]> l)
  end.

(** [remove], [insert] and [append]. *)
Definition header_remove (h : HeaderMap) (name : bytes) : HeaderMap :=
  match header_find h name with Some (i, _) => swap_remove i h | None => h end.
Definition header_insert (h : HeaderMap) (name value : bytes) : HeaderMap :=
  match header_find h name with
  | Some (i, _) => <[i := (name, [value])]> h
  | None => h ++ [(name, [value])]
  end.
Definition header_append (h : HeaderMap) (name value : bytes) : HeaderMap :=
  match header_find h name with
  | Some (i, e) => <[i := (name, e.2 ++ [value])]> h
  | None => h ++ [(name, [value])]
  end.

(** The map of a sequence of appended headers ([Builder::header] appends). *)
Definition headers_of (l : list (bytes * bytes)) : HeaderMap :=
  fold_left (fun h e => header_append h e.1 e.2) l [].

Record HttpRequest := mkHttpRequest {
  rq_method : bytes;
  rq_path : bytes;
  rq_query : option bytes;
  rq_headers : HeaderMap;
  rq_body : bytes }.

Record HttpResponse (B : Type) := mkHttpResponse {
  rs_status : Z;
  rs_headers : HeaderMap;
  rs_body : B }.
Arguments mkHttpResponse {B}.
Arguments rs_status {B}.
Arguments rs_headers {B}.
Arguments rs_body {B}.

(** Removal by swapping keeps the other elements. *)
Lemma swap_remove_delete {A} i (l : list A) : (i < length l)%nat -> swap_remove i l ≡ₚ delete i l.
Proof.
  intros Hi. unfold swap_remove. destruct l as [|x l0 _] using rev_ind; [simpl in Hi; lia|].
  rewrite last_snoc, length_app in *. simpl in *. replace (length l0 + 1 - 1)%nat with (length l0) by lia.
  destruct (decide (i < length l0)%nat) as [Hl|Hl].
  - rewrite insert_app_l, take_app_length' by (rewrite ?length_insert; done || lia).
    rewrite delete_take_drop, take_app_le, drop_app_le by lia. rewrite insert_take_drop by done. solve_Permutation.
  - replace i with (length l0) by lia.
    rewrite list_insert_id by (rewrite lookup_app_r, Nat.sub_diag by lia; done).
    rewrite take_app_length, delete_take_drop, take_app_length, drop_ge by (rewrite length_app; simpl; lia).
    by rewrite app_nil_r.
Qed.

Lemma list_filter_all {A} (P : A -> Prop) `{!forall x, Decision (P x)} (l : list A) : Forall P l -> filter P l = l.
Proof. induction 1 as [|x l Hx _ IH]; [done|]. by rewrite filter_cons_True, IH. Qed.

(** Removing a name from a map drops its entry and nothing else. *)
Lemma header_remove_filter h name :
  NoDup (header_keys h) -> header_remove h name ≡ₚ filter (fun e => e.1 <> name) h.
Proof.
  unfold header_keys, header_remove, header_find. intros Hd. destruct (list_find _ h) as [[i e]|] eqn:Hf.
  - apply list_find_Some in Hf as (Hi & <- & _). rewrite swap_remove_delete by (by eapply lookup_lt_Some).
    apply list_elem_of_split_length in Hi as (before & after & -> & ->).
    rewrite delete_middle, filter_app, filter_cons_False by auto.
    rewrite fmap_app, fmap_cons in Hd. apply NoDup_app in Hd as (_ & Hb & [Ha _]%NoDup_cons).
    rewrite !list_filter_all; [done|..]; apply Forall_forall; intros e' He' E.
    + apply Ha. rewrite <- E. by apply list_elem_of_fmap_2.
    + apply (Hb e'.1); [by apply list_elem_of_fmap_2|]. rewrite E. by left.
  - apply list_find_None in Hf. by rewrite list_filter_all.
Qed.

Lemma header_find_here before e after :
  Forall (fun x => x.1 <> e.1) before -> header_find (before ++ e :: after) e.1 = Some (length before, e).
Proof.
  intros Hb. apply list_find_Some. split_and!; [by rewrite lookup_app_r, Nat.sub_diag|done|].
  intros j y Hj Hlt. rewrite lookup_app_l in Hj by done. exact (proj1 (Forall_lookup _ _) Hb j y Hj).
Qed.

Lemma header_all_spec h name v vs :
  header_all h name = v :: vs <->
  exists before after, h = before ++ (name, v :: vs) :: after /\ Forall (fun x => x.1 <> name) before.
Proof.
  unfold header_all, header_find. split.
  - destruct (list_find _ h) as [[i [k l]]|] eqn:Hf; [|done]. simpl. intros ->.
    apply list_find_Some in Hf as (Hi & <- & Hb). exists (take i h), (drop (S i) h).
    split; [by rewrite take_drop_middle|]. apply Forall_lookup. intros j y [Hj Hlt]%lookup_take_Some. by eapply Hb.
  - intros (before & after & -> & Hb). pose proof (header_find_here before (name, v :: vs) after Hb) as E.
    unfold header_find in E. simpl in E. by rewrite E.
Qed.

Lemma header_all_insert h name value : header_all (header_insert h name value) name = [value].
Proof.
  unfold header_insert. destruct (header_find h name) as [[i e]|] eqn:Hf; apply header_all_spec; unfold header_find in Hf.
  - apply list_find_Some in Hf as (Hi & _ & Hb). exists (take i h), (drop (S i) h).
    split; [by rewrite insert_take_drop by (by eapply lookup_lt_Some)|].
    apply Forall_lookup. intros j y [Hj Hlt]%lookup_take_Some. by eapply Hb.
  - apply list_find_None in Hf. by exists h, [].
Qed.

Lemma header_all_cons e h name :
  header_all (e :: h) name = if decide (e.1 = name) then e.2 else header_all h name.
Proof.
  unfold header_all, header_find. simpl. case_decide; [done|]. by destruct (list_find _ h) as [[i x]|].
Qed.

Lemma header_all_snoc h e name : e.1 <> name -> header_all (h ++ [e]) name = header_all h name.
Proof.
  intros He. induction h as [|x h IH]; simpl; rewrite !header_all_cons; [by rewrite decide_False|].
  by rewrite IH.
Qed.

Lemma header_all_update h i e x name :
  h !! i = Some e -> x.1 = e.1 -> e.1 <> name -> header_all (<[i := x]> h) name = header_all h name.
Proof.
  intros Hi Hx Hn. revert i Hi. induction h as [|y h IH]; intros [|i] Hi; simplify_eq/=; rewrite !header_all_cons.
  - by rewrite !decide_False by congruence.
  - by rewrite (IH i).
Qed.

Lemma header_all_append h name value name' :
  name <> name' -> header_all (header_append h name value) name' = header_all h name'.
Proof.
  intros Hn. unfold header_append. destruct (header_find h name) as [[i e]|] eqn:Hf; [|by apply header_all_snoc].
  apply list_find_Some in Hf as (Hi & <- & _). by apply (header_all_update _ _ e).
Qed.
