(* ===== verification/EncryptedHttp.v ===== *)
(** HTTP carriage of one exchange of a verified session ([sdk/src/encrypted_http.rs]): the
    request's metadata and body become records of the channel ([Upload]), and the records of
    the response become a status, headers and a body ([Incoming]).

    The outer HTTP client is a parameter of each run: what it delivers is a [Source] (the
    chunks of the outer response and how it ends). Readings of the clock are the successive
    entries of a [Clock]. *)

From S2P Require Import Prelude RecordTheory RecordSafety Stream Primitives Sse Json Text Snp Receipt Record Ratchet.
From S2P Require Import Window Session HttpTypes.

Open Scope Z_scope.

Definition CONTENT_TYPE : bytes := ascii "application/vnd.stogas.session".
Definition MAX_HTTP_METADATA_BYTES : Z := 16 * 1024.
Definition MAX_REQUEST_BYTES : Z := 128 * 1024 * 1024.

Inductive EncryptedHttpError :=
| Eh_Request
| Eh_NotSentDeadline
| Eh_Deadline
| Eh_Http
| Eh_Response
| Eh_Metadata
| Eh_Record (e : Error)
| Eh_Completion.

(** ** Requests *)

Definition encrypted_paths : list bytes :=
  [ascii "/v1/chat/completions"; ascii "/v1/responses";
   ascii "/v1/policies/validate"; ascii "/v1/policies/simulate"].

Definition forbidden_headers : list bytes :=
  [ascii "host"; ascii "connection"; ascii "transfer-encoding"; ascii "te"; ascii "trailer";
   ascii "upgrade"; ascii "expect"; ascii "stogas-node-id"; ascii "forwarded";
   ascii "x-forwarded-for"; ascii "x-forwarded-host"; ascii "x-forwarded-proto"].

Definition carried_request (request : HttpRequest) : bool :=
  (bool_decide (rq_method request = ascii "POST") && bool_decide (rq_path request ∈ encrypted_paths))
  || (bool_decide (rq_method request = ascii "DELETE")
      && bool_decide (rq_path request = ascii "/v1/session") && bool_decide (rq_body request = [])).

(** One turn of the header loop of [request_metadata]. *)
Definition carry_header `{HttpText} (headers : list (bytes * Value)) (header : bytes * bytes)
    : result (list (bytes * Value)) EncryptedHttpError :=
  let (name, value) := header in
  if bool_decide (name = ascii "content-length") then Ok headers else
  reject bool_decide (name ∈ forbidden_headers) || bool_decide (name ∈ headers.*1) with Eh_Request;
  let? text := ok_or (header_to_str value) Eh_Request in
  Ok (headers ++ [(name, JString text)]).

Definition request_metadata `{HttpText} `{Json} (request : HttpRequest) : result bytes EncryptedHttpError :=
  reject bool_decide (rq_query request <> None) || (MAX_REQUEST_BYTES <? zlen (rq_body request))
      || negb (carried_request request) with Eh_Request;
  let? headers := foldR carry_header [] (header_iter (rq_headers request)) in
  let text := json_to_vec (JObject [
    (ascii "method", JString (rq_method request)); (ascii "path", JString (rq_path request));
    (ascii "headers", JObject headers)]) in
  reject MAX_HTTP_METADATA_BYTES <? zlen text with Eh_Request;
  Ok text.

Record Upload := mkUpload {
  up_encoder : RequestEncoder;
  up_body : bytes;
  up_initial : list bytes;
  up_finished : bool }.

(** ** Responses *)

Record ResponseMetadata := mkResponseMetadata {
  rm_status : Z;
  rm_headers : HeaderMap;
  rm_refused : bool }.

Definition response_headers_allowed : list bytes :=
  [ascii "content-type"; ascii "cache-control"; ascii "retry-after"].

Definition accept_header `{HttpText} (headers : HeaderMap) (entry : bytes * Value)
    : result HeaderMap EncryptedHttpError :=
  let? name := ok_or (header_name (fst entry)) Eh_Metadata in
  reject negb (bool_decide (name ∈ response_headers_allowed)) || header_contains headers name
    with Eh_Metadata;
  let? text := ok_or (as_str (snd entry)) Eh_Metadata in
  let? value := ok_or (header_from_str text) Eh_Metadata in
  Ok (header_insert headers name value).

Definition response_metadata `{HttpText} `{Json} (b : bytes) : result ResponseMetadata EncryptedHttpError :=
  reject MAX_HTTP_METADATA_BYTES <? zlen b with Eh_Metadata;
  let? value := ok_or (json_from_slice b) Eh_Metadata in
  let? object := ok_or (match value with JObject fields => Some fields | _ => None end) Eh_Metadata in
  reject negb (forallb (fun '(key, _) =>
      bool_decide (key ∈ [ascii "status"; ascii "headers"; ascii "refused"])) object) with Eh_Metadata;
  let? refused := match field object (ascii "refused") with
    | None => Ok false
    | Some (JBool value) => Ok value
    | Some _ => Err Eh_Metadata
    end in
  let? status := ok_or
    (match field object (ascii "status") with Some v => as_uint u64_max v | None => None end) Eh_Metadata in
  reject negb ((200 <=? status) && (status <=? 599)) with Eh_Metadata;
  let? values := ok_or
    (match field object (ascii "headers") with Some (JObject fields) => Some fields | _ => None end)
    Eh_Metadata in
  let? headers := foldR accept_header [] values in
  Ok (mkResponseMetadata status headers refused).

(** [v.split(';').next()]. *)
Fixpoint before_semicolon (v : bytes) : bytes :=
  match v with [] => [] | b :: v => if bool_decide (b = x3b) then [] else b :: before_semicolon v end.

Definition is_event_stream `{HttpText} (headers : HeaderMap) : bool :=
  match header_get headers (ascii "content-type") with
  | Some v =>
      match header_to_str v with
      | Some v => eq_ignore_ascii_case (str_trim (before_semicolon v)) (ascii "text/event-stream")
      | None => false
      end
  | None => false
  end.

Definition body_status (status : Z) : bool :=
  negb ((status =? 204) || (status =? 205) || (status =? 304)).

(** How the outer response ends: its body is complete, its transport fails, or nothing more
    comes before the deadline. *)
Inductive Ending := Complete | Broken | Late.

Record Clock := mkClock { ck_late : nat -> bool; ck_elapsed_ms : nat -> Z }.

(** What the decoder's callback changes. [pc_acknowledged] says whether the notification of
    the first authenticated record is still owed. *)
Record Pieces := mkPieces {
  pc_pending : list bytes;
  pc_metadata : option ResponseMetadata;
  pc_completion : option SseBody;
  pc_body_allowed : bool;
  pc_acknowledged : bool;
  pc_metadata_error : bool }.

Record Incoming := mkIncoming {
  in_chunks : list bytes;
  in_ending : Ending;
  in_decoder : option ResponseDecoder;
  in_input : bytes;
  in_pieces : Pieces;
  in_tick : nat }.

Section Carriage.
Context `{Kdf} `{Hash} `{Aead} `{Agreement} `{HttpText} `{Json}.

(** The callback of [push]. *)
Definition take_piece (s : Pieces) (kind : Kind) (content : bytes) : Pieces * result unit Error :=
  let s := mkPieces (pc_pending s) (pc_metadata s) (pc_completion s) (pc_body_allowed s) false
             (pc_metadata_error s) in
  match kind with
  | Metadata =>
      match response_metadata content with
      | Ok metadata =>
          (mkPieces (pc_pending s) (Some metadata)
             (if is_event_stream (rm_headers metadata) then Some StreamCompletion_default
              else pc_completion s)
             (body_status (rm_status metadata)) false (pc_metadata_error s), Ok tt)
      | Err _ =>
          (mkPieces (pc_pending s) (pc_metadata s) (pc_completion s) (pc_body_allowed s) false true,
           Err Record_)
      end
  | Data =>
      if negb (pc_body_allowed s) then (s, Err Record_)
      else
        match pc_completion s with
        | Some completion =>
            match StreamCompletion_push completion content with
            | (completion, Ok out) =>
                (mkPieces (pc_pending s ++ out) (pc_metadata s) (Some completion)
                   (pc_body_allowed s) false (pc_metadata_error s), Ok tt)
            | (completion, Err _) =>
                (mkPieces (pc_pending s) (pc_metadata s) (Some completion)
                   (pc_body_allowed s) false (pc_metadata_error s), Err Record_)
            end
        | None =>
            (mkPieces (pc_pending s ++ [content]) (pc_metadata s) None
               (pc_body_allowed s) false (pc_metadata_error s), Ok tt)
        end
  | Finished | Keepalive => (s, Ok tt)
  end.

(** The outer body ended: the decoder, then the event stream, must be complete. *)
Definition Incoming_end (sh : Shared) (st : Incoming)
    : Shared * Incoming * result unit EncryptedHttpError :=
  let p := in_pieces st in
  let closed p := mkIncoming (in_chunks st) (in_ending st) None (in_input st) p (in_tick st) in
  match in_decoder st with
  | None => (sh, st, Err Eh_Metadata)
  | Some d =>
      match ResponseDecoder_finish sh d with
      | (sh, Err e) => (sh, closed p, Err (Eh_Record e))
      | (sh, Ok _) =>
          match pc_completion p with
          | None => (sh, closed p, Ok tt)
          | Some completion =>
              let taken pending := mkPieces pending (pc_metadata p) None (pc_body_allowed p)
                                     (pc_acknowledged p) (pc_metadata_error p) in
              match StreamCompletion_finish completion with
              | Err _ => (sh, closed (taken (pc_pending p)), Err Eh_Completion)
              | Ok _ => (sh, closed (taken (pc_pending p ++ [[x0a; x0a]])), Ok tt)
              end
          end
      end
  end.

(** Hand at most one record's size of input to the decoder. *)
Definition Incoming_feed (clock : Clock) (sh : Shared) (st : Incoming)
    : Shared * Incoming * result unit EncryptedHttpError :=
  let size := Z.min (zlen (in_input st)) MAX_RECORD_BYTES in
  let piece := slice_to (in_input st) size in
  let rest := slice_from (in_input st) size in
  match in_decoder st with
  | None => (sh, mkIncoming (in_chunks st) (in_ending st) None rest (in_pieces st) (in_tick st),
             Err Eh_Metadata)
  | Some d =>
      let p := in_pieces st in
      let p := mkPieces (pc_pending p) (pc_metadata p) (pc_completion p) (pc_body_allowed p)
                 (pc_acknowledged p) false in
      let '(sh, d, p, out) :=
        ResponseDecoder_push take_piece sh d p piece (ck_elapsed_ms clock (in_tick st)) in
      (sh, mkIncoming (in_chunks st) (in_ending st) (Some d) rest p (S (in_tick st)),
       match out with
       | Ok _ => Ok tt
       | Err e => Err (if pc_metadata_error p then Eh_Metadata else Eh_Record e)
       end)
  end.

Definition Incoming_advance (clock : Clock) (sh : Shared) (st : Incoming)
    : Shared * Incoming * result unit EncryptedHttpError :=
  let late := ck_late clock (in_tick st) in
  let st := mkIncoming (in_chunks st) (in_ending st) (in_decoder st) (in_input st) (in_pieces st)
              (S (in_tick st)) in
  if late then (sh, st, Err Eh_Deadline)
  else
    match in_input st with
    | _ :: _ => Incoming_feed clock sh st
    | [] =>
        match in_chunks st with
        | chunk :: chunks =>
            Incoming_feed clock sh
              (mkIncoming chunks (in_ending st) (in_decoder st) chunk (in_pieces st) (in_tick st))
        | [] =>
            match in_ending st with
            | Late => (sh, st, Err Eh_Deadline)
            | Broken => (sh, st, Err Eh_Http)
            | Complete => Incoming_end sh st
            end
        end
    end.

(** [next]; every turn that does not return consumes input, a chunk or the decoder. *)
Fixpoint next_loop (fuel : nat) (clock : Clock) (sh : Shared) (st : Incoming)
    : Shared * Incoming * option (result (option bytes) EncryptedHttpError) :=
  match fuel with
  | O => (sh, st, None)
  | S fuel =>
      let late := ck_late clock (in_tick st) in
      let p := in_pieces st in
      let st := mkIncoming (in_chunks st) (in_ending st) (in_decoder st) (in_input st) p (S (in_tick st)) in
      if late then (sh, st, Some (Err Eh_Deadline))
      else
        match pc_pending p with
        | b :: pending =>
            (sh, mkIncoming (in_chunks st) (in_ending st) (in_decoder st) (in_input st)
                   (mkPieces pending (pc_metadata p) (pc_completion p) (pc_body_allowed p)
                      (pc_acknowledged p) (pc_metadata_error p)) (in_tick st),
             Some (Ok (Some b)))
        | [] =>
            match in_decoder st with
            | None => (sh, st, Some (Ok None))
            | Some _ =>
                match Incoming_advance clock sh st with
                | (sh, st, Ok _) => next_loop fuel clock sh st
                | (sh, st, Err e) => (sh, st, Some (Err e))
                end
            end
        end
  end.

Definition incoming_work (st : Incoming) : nat :=
  (length (in_input st) + foldr (fun c n => S (length c) + n) 0 (in_chunks st)
   + match in_decoder st with Some _ => 1 | None => 0 end)%nat.

Definition Incoming_next (clock : Clock) (sh : Shared) (st : Incoming) :=
  next_loop (S (incoming_work st)) clock sh st.

(** ** Uploads *)

(** [Upload::next]; [cancelled] is the shared flag, [late] the deadline check. *)
Definition Upload_next (cancelled late : bool) (u : Upload)
    : Upload * result (option bytes) EncryptedHttpError :=
  if cancelled then (u, Ok None)
  else if late then (u, Err Eh_Deadline)
  else
    match up_initial u with
    | b :: initial => (mkUpload (up_encoder u) (up_body u) initial (up_finished u), Ok (Some b))
    | [] =>
        let sealed kind body content finished :=
          let (encoder, out) := RequestEncoder_seal (up_encoder u) kind content in
          (mkUpload encoder body [] finished,
           match out with Ok enc => Ok (Some enc) | Err e => Err (Eh_Record e) end) in
        match up_body u with
        | _ :: _ =>
            let size := Z.min (zlen (up_body u)) MAX_RECORD_PLAINTEXT in
            sealed Data (slice_from (up_body u) size) (slice_to (up_body u) size) (up_finished u)
        | [] => if up_finished u then (u, Ok None) else sealed Finished [] [] true
        end
    end.

(** ** One exchange *)

(** Everything before the outer request: on an error nothing is sent and the exchange is
    dropped. *)
Definition send_prepare (sh : Shared) (node_id : bytes) (exchange : ClientRequest)
    (request : HttpRequest) (late : bool)
    : Shared * result (Upload * ResponseDecoder) EncryptedHttpError :=
  let dropped := ResponseReader_drop sh (cr_reader exchange) in
  match request_metadata request with
  | Err e => (dropped, Err e)
  | Ok metadata =>
      match header_from_str node_id with
      | None => (dropped, Err Eh_Request)
      | Some _ =>
          if late then (dropped, Err Eh_NotSentDeadline)
          else
            match RequestEncoder_seal (cr_writer exchange) Metadata metadata with
            | (_, Err _) => (dropped, Err Eh_Request)
            | (encoder, Ok record) =>
                (sh, Ok (mkUpload encoder (rq_body request)
                           [RequestEncoder_prefix (cr_writer exchange); record] false,
                         ResponseDecoder_new exchange))
            end
      end
  end.

(** What the outer HTTP client returns. *)
Inductive Outer :=
| Outer_late
| Outer_failed
| Outer_response (status : Z) (headers : HeaderMap) (content_length : option Z)
    (chunks : list bytes) (ending : Ending).

Definition outer_accepted (status : Z) (headers : HeaderMap) (content_length : option Z) : bool :=
  (status =? 200)
  && bool_decide ((header_get headers (ascii "content-type") ≫= header_to_str) = Some CONTENT_TYPE)
  && match content_length with Some n => n <=? MAX_RESPONSE_WIRE_BYTES | None => true end.

Definition Incoming_new (decoder : ResponseDecoder) (chunks : list bytes) (ending : Ending)
    (acknowledged : bool) : Incoming :=
  mkIncoming chunks ending (Some decoder) []
    (mkPieces [] None None false acknowledged false) 0.

(** The loops of [send]: until the metadata, or to the end. *)
Fixpoint advance_until (fuel : nat) (stop : Incoming -> bool) (clock : Clock) (sh : Shared)
    (st : Incoming) : Shared * Incoming * option (result unit EncryptedHttpError) :=
  match fuel with
  | O => (sh, st, None)
  | S fuel =>
      if stop st then (sh, st, Some (Ok tt))
      else
        match Incoming_advance clock sh st with
        | (sh, st, Ok _) => advance_until fuel stop clock sh st
        | (sh, st, Err e) => (sh, st, Some (Err e))
        end
  end.

Definition has_metadata (st : Incoming) : bool :=
  bool_decide (is_Some (pc_metadata (in_pieces st))) || bool_decide (in_decoder st = None).
Definition at_end (st : Incoming) : bool :=
  match in_decoder st with None => true | Some _ => false end.

(** [state.metadata.take()]. *)
Definition take_metadata (st : Incoming) : Incoming :=
  let p := in_pieces st in
  mkIncoming (in_chunks st) (in_ending st) (in_decoder st) (in_input st)
    (mkPieces (pc_pending p) None (pc_completion p) (pc_body_allowed p) (pc_acknowledged p)
       (pc_metadata_error p)) (in_tick st).

(** A response with the metadata's status and headers; its body is what [Incoming_next]
    yields, or empty. *)
Definition send_receive (clock : Clock) (sh : Shared) (decoder : ResponseDecoder) (outer : Outer)
    (acknowledged : bool)
    : Shared * option (result (ResponseMetadata * option Incoming) EncryptedHttpError) :=
  let drop sh (st : Incoming) :=
    match in_decoder st with Some d => fst (ResponseDecoder_close sh d) | None => sh end in
  match outer with
  | Outer_late => (fst (ResponseDecoder_close sh decoder), Some (Err Eh_Deadline))
  | Outer_failed => (fst (ResponseDecoder_close sh decoder), Some (Err Eh_Http))
  | Outer_response status headers content_length chunks ending =>
      if negb (outer_accepted status headers content_length)
      then (fst (ResponseDecoder_close sh decoder), Some (Err Eh_Response))
      else
        let st := Incoming_new decoder chunks ending acknowledged in
        match advance_until (S (incoming_work st)) has_metadata clock sh st with
        | (sh, st, None) => (sh, None)
        | (sh, st, Some (Err e)) => (drop sh st, Some (Err e))
        | (sh, st, Some (Ok _)) =>
            match pc_metadata (in_pieces st) with
            | None => (drop sh st, Some (Err Eh_Metadata))
            | Some metadata =>
                let st := take_metadata st in
                if pc_body_allowed (in_pieces st) then (sh, Some (Ok (metadata, Some st)))
                else
                  match advance_until (S (incoming_work st)) at_end clock sh st with
                  | (sh, st, None) => (sh, None)
                  | (sh, st, Some (Err e)) => (drop sh st, Some (Err e))
                  | (sh, st, Some (Ok _)) => (sh, Some (Ok (metadata, None)))
                  end
            end
        end
  end.
End Carriage.

(** * Theory

    What the HTTP carriage of an exchange guarantees: requests that may be sent upload
    completely and open to the same metadata and body; a response body that ends without an
    error is exactly the authenticated data of a complete response; the loops terminate; and
    errors say on which side of the submission they happened. *)

(** ** The decoder's callback against the list of records *)

Section Emit.
Context {X S : Type}
  (open : X -> ResponseReader -> bytes -> X * ResponseReader * bytes * option (result (Kind * bytes) Error))
  (emit : S -> Kind -> bytes -> S * result unit Error).

Fixpoint emit_all (s : S) (msgs : list (Kind * bytes)) : option S :=
  match msgs with
  | [] => Some s
  | (k, c) :: msgs => match emit s k c with (s, Ok _) => emit_all s msgs | (_, Err _) => None end
  end.

Lemma emit_all_app s msgs more : emit_all s (msgs ++ more) = emit_all s msgs ≫= fun s => emit_all s more.
Proof.
  revert s. induction msgs as [|[k c] msgs IH]; intros s; simpl; [done|].
  destruct (emit s k c) as [s' [[]|]]; [apply IH|done].
Qed.

Lemma take_record_collect x d s x' d' s' :
  take_record open emit x d s = (x', d', s', Some (Ok tt)) ->
  exists k c, emit s k c = (s', Ok tt)
    /\ forall l, take_record open collect x d l = (x', d', l ++ [(k, c)], Some (Ok tt)).
Proof.
  unfold take_record. destruct (rd_request d) as [r|]; [|done].
  destruct (open x r (rd_buffer d)) as [[[x1 r1] b1] [[[k c]|]|]]; try done.
  destruct (emit s k c) as [s1 [[]|]] eqn:E; [|done]. intros [= <- <- <-]. exists k, c. by rewrite E.
Qed.

Lemma feed_collect x d s input x' d' s' :
  feed open emit x d s input = (x', d', s', Some (Ok tt)) ->
  exists msgs, emit_all s msgs = Some s'
    /\ forall l, feed open collect x d l input = (x', d', l ++ msgs, Some (Ok tt)).
Proof.
  revert x d s. induction input as [|b input IH]; intros x d s; simpl.
  { intros [= <- <- <-]. exists []. split; [done|]. intros l. by rewrite app_nil_r. }
  unfold feed1. destruct (rd_finished d); [done|].
  destruct (negb _); [|destruct (rd_needed d =? 4); [destruct (record_size _); [|done]|]].
  - intros H. apply IH in H as (msgs & He & Hl). eauto.
  - intros H. apply IH in H as (msgs & He & Hl). eauto.
  - destruct (take_record _ _ _ _ _) as [[[x1 d1] s1] [[[]|]|]] eqn:E; try done. intros H.
    apply take_record_collect in E as (k & c & Ek & El). apply IH in H as (msgs & He & Hl).
    exists ((k, c) :: msgs). simpl. rewrite Ek. split; [done|]. intros l. rewrite El, Hl. by rewrite <- app_assoc.
Qed.
End Emit.

Section Push.
Context `{Kdf} `{Hash} `{Aead} `{Agreement}.

Lemma push_ok_request {S} emit sh d (s : S) input now sh' d' s' :
  ResponseDecoder_push emit sh d s input now = (sh', d', s', Ok tt) -> is_Some (rd_request d).
Proof. unfold ResponseDecoder_push. destruct (rd_request d); [eauto|done]. Qed.

(** A push that succeeds opened some records and handed each to the callback. *)
Lemma push_collect {S} emit sh d (s : S) input now sh' d' s' :
  decoder_wf d -> ResponseDecoder_push emit sh d s input now = (sh', d', s', Ok tt) ->
  exists msgs, emit_all emit s msgs = Some s' /\ decoder_wf d'
    /\ forall l, ResponseDecoder_push collect sh d l input now = (sh', d', l ++ msgs, Ok tt).
Proof.
  intros Hwf H3. pose proof (push_ok_request _ _ _ _ _ _ _ _ _ H3) as Hr.
  rewrite push_feed in H3 by done. unfold settle in H3.
  destruct (feed _ emit _ _ _ _) as [[[x1 d1] s1] [[[]|]|]] eqn:E; simplify_eq.
  pose proof (feed_wf _ _ _ _ _ _ _ _ _ Hwf E) as Hwf'.
  apply feed_collect in E as (msgs & He & Hl). exists msgs. split_and!; [done|done|].
  intros l. by rewrite push_feed, Hl.
Qed.

(** Pushes one after the other, each at its time. *)
Fixpoint push_each (sh : Shared) (d : ResponseDecoder) (msgs : list (Kind * bytes))
    (pushes : list (bytes * Z)) : Shared * ResponseDecoder * list (Kind * bytes) * result unit Error :=
  match pushes with
  | [] => (sh, d, msgs, Ok tt)
  | (input, now) :: pushes =>
      match ResponseDecoder_push collect sh d msgs input now with
      | (sh, d, msgs, Ok _) => push_each sh d msgs pushes
      | out => out
      end
  end.

Lemma push_each_snoc sh d msgs pushes input now sh1 d1 msgs1 :
  push_each sh d msgs pushes = (sh1, d1, msgs1, Ok tt) ->
  push_each sh d msgs (pushes ++ [(input, now)]) = ResponseDecoder_push collect sh1 d1 msgs1 input now.
Proof.
  revert sh d msgs. induction pushes as [|[i n] pushes IH]; intros sh d msgs; simpl.
  - intros [= <- <- <-]. by destruct (ResponseDecoder_push _ _ _ _ _ _) as [[[? ?] ?] [[]|]].
  - destruct (ResponseDecoder_push collect sh d msgs i n) as [[[? ?] ?] [[]|]]; [apply IH|done].
Qed.
End Push.

(** ** What the records of a response mean *)

Section Responses.
Context `{Kdf} `{Hash} `{Aead} `{Agreement} `{HttpText} `{Json}.

(** The reading of a response: its metadata, whether it may have a body, and the event
    stream that checks it. *)
Record Reading := mkReading {
  rg_metadata : option ResponseMetadata;
  rg_allowed : bool;
  rg_completion : option SseBody }.

Definition Reading_new : Reading := mkReading None false None.

(** The meaning of one record, with the body bytes it releases. *)
Definition read_record (g : Reading) (kind : Kind) (content : bytes) : option (Reading * list bytes) :=
  match kind with
  | Metadata =>
      match response_metadata content with
      | Ok m => Some (mkReading (Some m) (body_status (rm_status m))
          (if is_event_stream (rm_headers m) then Some StreamCompletion_default else rg_completion g), [])
      | Err _ => None
      end
  | Data =>
      if rg_allowed g then
        match rg_completion g with
        | None => Some (g, [content])
        | Some completion =>
            match StreamCompletion_push completion content with
            | (completion, Ok out) => Some (mkReading (rg_metadata g) (rg_allowed g) (Some completion), out)
            | _ => None
            end
        end
      else None
  | Finished | Keepalive => Some (g, [])
  end.

Fixpoint read_records (g : Reading) (msgs : list (Kind * bytes)) : option (Reading * list bytes) :=
  match msgs with
  | [] => Some (g, [])
  | (k, c) :: msgs =>
      '(g, out) ← read_record g k c; '(g, more) ← read_records g msgs; Some (g, out ++ more)
  end.

Lemma read_records_app g msgs more :
  read_records g (msgs ++ more) =
  '(g, out) ← read_records g msgs; '(g, out') ← read_records g more; Some (g, out ++ out').
Proof.
  revert g. induction msgs as [|[k c] msgs IH]; intros g; simpl.
  - by destruct (read_records g more) as [[]|].
  - destruct (read_record g k c) as [[g1 o1]|]; simpl; [|done]. rewrite IH.
    destruct (read_records g1 msgs) as [[g2 o2]|]; simpl; [|done].
    destruct (read_records g2 more) as [[g3 o3]|]; simpl; [|done]. by rewrite app_assoc.
Qed.

Definition data_of (msgs : list (Kind * bytes)) : list bytes :=
  snd <$> filter (fun m => fst m = Data) msgs.

(** A response that is no event stream releases its data records unchanged. *)
Lemma read_records_data g msgs g' released :
  read_records g msgs = Some (g', released) -> rg_completion g' = None ->
  rg_completion g = None /\ released = data_of msgs.
Proof.
  revert g released. induction msgs as [|[k c] msgs IH]; intros g released; simpl; [by intros [= <- <-]|].
  destruct (read_record g k c) as [[g1 o1]|] eqn:Hk; simpl; [|done].
  destruct (read_records g1 msgs) as [[g2 o2]|] eqn:Hms; simpl; [|done]. intros [= <- <-] Hc.
  destruct (IH _ _ Hms Hc) as [Hc1 ->]. unfold data_of. rewrite filter_cons. unfold read_record in Hk.
  destruct k; simpl; try (simplify_eq; by rewrite ?app_nil_l).
  - destruct (response_metadata c) as [m|]; [|done]. simplify_eq. simpl in Hc1. by destruct (is_event_stream _).
  - destruct (rg_allowed g); [|done]. destruct (rg_completion g) as [s|] eqn:Hg; [|by simplify_eq].
    destruct (StreamCompletion_push s c) as [s' [o|]]; [|done]. by simplify_eq.
Qed.

(** The pieces held by [Incoming] after a reading, when [out] has left through [next]. *)
Definition holds (g : Reading) (released out : list bytes) (p : Pieces) : Prop :=
  out ++ pc_pending p = released /\ rg_allowed g = pc_body_allowed p
  /\ rg_completion g = pc_completion p /\ pc_metadata_error p = false.

Lemma take_piece_reads g released out p k c p' :
  holds g released out p -> take_piece p k c = (p', Ok tt) ->
  exists g' more, read_record g k c = Some (g', more) /\ holds g' (released ++ more) out p'
    /\ pc_metadata p' = match k with Metadata => rg_metadata g' | _ => pc_metadata p end
    /\ (k <> Metadata -> rg_metadata g' = rg_metadata g).
Proof.
  intros (<- & Ha & Hc & He). unfold take_piece, read_record, holds. rewrite Ha, Hc. destruct k; simpl.
  - destruct (response_metadata c) as [m|]; [|done]. intros [= <-]. simpl.
    eexists _, _. split; [done|]. simpl. rewrite !app_nil_r. done.
  - destruct (pc_body_allowed p) eqn:Hp; simpl; [|done]. destruct (pc_completion p) as [s|] eqn:Hs.
    + destruct (StreamCompletion_push s c) as [s' [out'|]]; [|done]. intros [= <-]. simpl.
      eexists _, _. split; [done|]. simpl. by rewrite ?Hp, ?app_assoc.
    + intros [= <-]. simpl. eexists _, _. split; [done|]. simpl. by rewrite app_assoc, Ha, Hc.
  - intros [= <-]. simpl. eexists _, _. split; [done|]. simpl. by rewrite app_nil_r, Ha, Hc.
  - intros [= <-]. simpl. eexists _, _. split; [done|]. simpl. by rewrite app_nil_r, Ha, Hc.
Qed.

Lemma take_pieces_read g released out p msgs p' :
  holds g released out p -> rg_metadata g = pc_metadata p \/ pc_metadata p = None ->
  emit_all take_piece p msgs = Some p' ->
  exists g' more, read_records g msgs = Some (g', more) /\ holds g' (released ++ more) out p'
    /\ (rg_metadata g' = pc_metadata p' \/ pc_metadata p' = None).
Proof.
  revert g released p. induction msgs as [|[k c] msgs IH]; intros g released p Hh Hm; simpl.
  - intros [= <-]. exists g, []. by rewrite app_nil_r.
  - destruct (take_piece p k c) as [p1 [[]|]] eqn:E; [|done]. intros Hrest.
    destruct (take_piece_reads _ _ _ _ _ _ _ Hh E) as (g1 & more1 & Hr1 & Hh1 & Hm1 & Hk1).
    destruct (IH g1 (released ++ more1) p1) as (g2 & more2 & Hr2 & Hh2 & Hm2); [done| |done|].
    { destruct k; [left; done| | |]; rewrite Hm1, Hk1 by done; done. }
    exists g2, (more1 ++ more2). rewrite Hr1. simpl. rewrite Hr2. simpl. by rewrite app_assoc.
Qed.

(** ** The state of a response being read *)

(** The bytes that end a complete event stream; none for another body. *)
Definition closing (g : Reading) : option (list bytes) :=
  match rg_completion g with
  | None => Some []
  | Some s => match StreamCompletion_finish s with Ok _ => Some [[x0a; x0a]] | Err _ => None end
  end.

Section Run.
Context (sh0 : Shared) (d0 : ResponseDecoder) (wire : bytes) (fin : Ending).

(** The records [msgs] have been read from a prefix of the outer body, [seen] among the
    first of them; [out] has been released to the consumer. *)
Definition running (seen : list (Kind * bytes)) (out : list bytes) (sh : Shared) (st : Incoming) : Prop :=
  exists pushes msgs g released d,
    push_each sh0 d0 [] pushes = (sh, d, msgs, Ok tt)
    /\ concat pushes.*1 ++ in_input st ++ concat (in_chunks st) = wire
    /\ (in_decoder st = Some d /\ in_ending st = fin) /\ decoder_wf d /\ seen `prefix_of` msgs
    /\ read_records Reading_new msgs = Some (g, released) /\ holds g released out (in_pieces st)
    /\ (rg_metadata g = pc_metadata (in_pieces st) \/ pc_metadata (in_pieces st) = None).

(** The outer body has ended and every check passed. *)
Definition ended (seen : list (Kind * bytes)) (out : list bytes) (st : Incoming) : Prop :=
  exists pushes sh d msgs g released tail sh',
    push_each sh0 d0 [] pushes = (sh, d, msgs, Ok tt)
    /\ concat pushes.*1 = wire /\ ResponseDecoder_finish sh d = (sh', Ok tt)
    /\ fin = Complete /\ seen `prefix_of` msgs
    /\ read_records Reading_new msgs = Some (g, released) /\ closing g = Some tail
    /\ out ++ pc_pending (in_pieces st) = released ++ tail
    /\ (rg_metadata g = pc_metadata (in_pieces st) \/ pc_metadata (in_pieces st) = None)
    /\ in_decoder st = None.

Lemma tick_running seen out sh st n :
  running seen out sh st ->
  running seen out sh (mkIncoming (in_chunks st) (in_ending st) (in_decoder st) (in_input st) (in_pieces st) n).
Proof. done. Qed.

Lemma feed_running clock seen out sh st sh' st' :
  running seen out sh st -> Incoming_feed clock sh st = (sh', st', Ok tt) -> running seen out sh' st'.
Proof.
  intros (pushes & msgs & g & released & d & Hp & Hw & [Hd Hfin] & Hwf & Hpre & Hr & Hh & Hm).
  unfold Incoming_feed. rewrite Hd. set (size := Z.min _ _). set (p0 := mkPieces _ _ _ _ _ false).
  destruct (ResponseDecoder_push _ _ _ _ _ _) as [[[sh1 d1] p1] [[]|]] eqn:E; [|done]. intros [= <- <-].
  destruct (push_collect _ _ _ _ _ _ _ _ _ Hwf E) as (new & He & Hwf' & Hl).
  assert (Hh0 : holds g released out p0).
  { destruct Hh as (? & ? & ? & ?). by split_and!. }
  destruct (take_pieces_read _ _ _ _ _ _ Hh0 Hm He) as (g' & more & Hr' & Hh' & Hm').
  exists (pushes ++ [(slice_to (in_input st) size, ck_elapsed_ms clock (in_tick st))]), (msgs ++ new), g',
    (released ++ more), d1. simpl. split_and!; try done.
  - rewrite (push_each_snoc _ _ _ _ _ _ _ _ _ Hp), Hl. done.
  - rewrite fmap_app, concat_app. simpl. rewrite app_nil_r, <- Hw, <- app_assoc. f_equal.
    by rewrite app_assoc, slice_to_from.
  - by apply prefix_app_r.
  - rewrite read_records_app, Hr. simpl. by rewrite Hr'.
Qed.

Lemma advance_running clock seen out sh st sh' st' :
  running seen out sh st -> Incoming_advance clock sh st = (sh', st', Ok tt) ->
  running seen out sh' st' \/ ended seen out st'.
Proof.
  intros Hrun. unfold Incoming_advance. destruct (ck_late _ _); [done|]. simpl.
  destruct (in_input st) as [|b input] eqn:Hi.
  - destruct (in_chunks st) as [|chunk chunks] eqn:Hc.
    + destruct (in_ending st) eqn:Hend; try done.
      destruct Hrun as (pushes & msgs & g & released & d & Hp & Hw & [Hd Hfin] & Hwf & Hpre & Hr & Hh & Hm).
      unfold Incoming_end. simpl. rewrite Hd.
      destruct (ResponseDecoder_finish sh d) as [sh1 [[]|]] eqn:Hf; [|done].
      destruct Hh as (Hout & Ha & Hcp & He). rewrite Hi, Hc in Hw. simpl in Hw. rewrite app_nil_r in Hw.
      destruct (pc_completion (in_pieces st)) as [s|] eqn:Hs.
      * destruct (StreamCompletion_finish s) as [[]|] eqn:Hsf; [|done]. intros [= <- <-]. right.
        exists pushes, sh, d, msgs, g, released, [[x0a; x0a]], sh1. simpl. split_and!; try done; try congruence.
        -- unfold closing. by rewrite Hcp, Hsf.
        -- by rewrite app_assoc, Hout.
      * intros [= <- <-]. right. exists pushes, sh, d, msgs, g, released, [], sh1. simpl. split_and!; try done; try congruence.
        -- unfold closing. by rewrite Hcp.
        -- by rewrite app_nil_r.
    + intros Hf. left. eapply feed_running; [|exact Hf].
      destruct Hrun as (pushes & msgs & g & released & d & Hp & Hw & Hrest).
      exists pushes, msgs, g, released, d. split_and!; try done; try apply Hrest.
      rewrite Hi, Hc in Hw. done.
  - intros Hf. left. eapply feed_running; [|exact Hf]. rewrite <- Hi. by apply tick_running.
Qed.

Definition reading seen out sh st : Prop := running seen out sh st \/ ended seen out st.

Lemma advance_reading clock seen out sh st sh' st' :
  reading seen out sh st -> is_Some (in_decoder st) ->
  Incoming_advance clock sh st = (sh', st', Ok tt) -> reading seen out sh' st'.
Proof.
  intros [Hr|Hr] [d Hd]; [by apply advance_running|].
  destruct Hr as (?&?&?&?&?&?&?&?&_&_&_&_&_&_&_&_&_&Hn). congruence.
Qed.

(** Handing out pending bytes moves them to what the consumer has. *)
Lemma pop_reading seen out sh st b pending n :
  pc_pending (in_pieces st) = b :: pending -> reading seen out sh st ->
  reading seen (out ++ [b]) sh
    (mkIncoming (in_chunks st) (in_ending st) (in_decoder st) (in_input st)
       (mkPieces pending (pc_metadata (in_pieces st)) (pc_completion (in_pieces st))
          (pc_body_allowed (in_pieces st)) (pc_acknowledged (in_pieces st))
          (pc_metadata_error (in_pieces st))) n).
Proof.
  intros Hb [Hr|Hr].
  - left. destruct Hr as (pushes & msgs & g & released & d & Hp & Hw & [Hd Hfin] & Hwf & Hpre & Hrd & Hh & Hm).
    exists pushes, msgs, g, released, d. split_and!; try done. destruct Hh as (Ho & Ha & Hc & He).
    split_and!; try done. simpl. rewrite Hb in Ho. by rewrite <- app_assoc.
  - right. destruct Hr as (pushes & sh1 & d & msgs & g & released & tail & sh2 & H5).
    exists pushes, sh1, d, msgs, g, released, tail, sh2. destruct_and! H5. split_and!; try done.
    simpl. rewrite Hb in *. by rewrite <- app_assoc.
Qed.

Lemma next_reading fuel clock seen out sh st sh' st' r :
  reading seen out sh st -> next_loop fuel clock sh st = (sh', st', Some (Ok r)) ->
  match r with
  | Some b => reading seen (out ++ [b]) sh' st'
  | None => ended seen out st' /\ pc_pending (in_pieces st') = []
  end.
Proof.
  revert sh st. induction fuel as [|fuel IH]; intros sh st Hr; simpl; [done|].
  destruct (ck_late _ _); [done|]. destruct (pc_pending (in_pieces st)) as [|b pending] eqn:Hp.
  - destruct (in_decoder st) as [d|] eqn:Hd.
    + destruct (Incoming_advance _ _ _) as [[sh1 st1] [[]|]] eqn:Ha; [|done]. apply IH.
      rewrite <- Hd in Ha. eapply advance_reading; [| |exact Ha]; [exact Hr|by exists d].
    + intros [= <- <- <-]. split; [|done].
      destruct Hr as [(?&?&?&?&?&_&_&[Hn _]&_)|Hr]; [congruence|].
      unfold ended in *. simpl. by rewrite Hd in Hr.
  - intros [= <- <- <-]. by apply pop_reading.
Qed.
End Run.

(** A consumer that reads the body to its end, with what it got. *)
Fixpoint drain (fuel : nat) (clock : Clock) (sh : Shared) (st : Incoming)
    : list bytes * option (result unit EncryptedHttpError) :=
  match fuel with
  | O => ([], None)
  | S fuel =>
      match Incoming_next clock sh st with
      | (sh, st, Some (Ok (Some b))) => let (out, r) := drain fuel clock sh st in (b :: out, r)
      | (_, _, Some (Ok None)) => ([], Some (Ok tt))
      | (_, _, Some (Err e)) => ([], Some (Err e))
      | (_, _, None) => ([], None)
      end
  end.

Lemma drain_ended sh0 d0 wire fin fuel clock seen out sh st more :
  reading sh0 d0 wire fin seen out sh st -> drain fuel clock sh st = (more, Some (Ok tt)) ->
  exists st', ended sh0 d0 wire fin seen (out ++ more) st' /\ pc_pending (in_pieces st') = [].
Proof.
  revert out sh st more. induction fuel as [|fuel IH]; intros out sh st more Hr; simpl; [done|].
  destruct (Incoming_next clock sh st) as [[sh1 st1] [[[b|]|]|]] eqn:Hn; try done;
    unfold Incoming_next in Hn; pose proof (next_reading _ _ _ _ _ _ _ _ _ _ _ _ _ Hr Hn) as Hx.
  - destruct (drain fuel clock sh1 st1) as [more1 r] eqn:Hd. intros [= <- ->].
    destruct (IH _ _ _ _ Hx Hd) as (st' & He & Hp). exists st'. by rewrite <- app_assoc in He.
  - intros [= <-]. exists st1. by rewrite app_nil_r.
Qed.

Lemma advance_until_reading sh0 d0 wire fin fuel stop clock seen out sh st sh' st' :
  (forall st, stop st = false -> is_Some (in_decoder st)) ->
  reading sh0 d0 wire fin seen out sh st ->
  advance_until fuel stop clock sh st = (sh', st', Some (Ok tt)) ->
  reading sh0 d0 wire fin seen out sh' st' /\ stop st' = true.
Proof.
  intros Hstop. revert sh st. induction fuel as [|fuel IH]; intros sh st Hr; simpl; [done|].
  destruct (stop st) eqn:Hs; [by intros [= <- <-]|].
  destruct (Incoming_advance _ _ _) as [[sh1 st1] [[]|]] eqn:Ha; [|done]. apply IH.
  eapply advance_reading; [done|by apply Hstop|done].
Qed.

Lemma has_metadata_false st : has_metadata st = false -> is_Some (in_decoder st).
Proof.
  unfold has_metadata. intros [_ Hd]%orb_false_iff. apply bool_decide_eq_false in Hd.
  destruct (in_decoder st); [eauto|done].
Qed.

Lemma at_end_false st : at_end st = false -> is_Some (in_decoder st).
Proof. unfold at_end. destruct (in_decoder st); [eauto|done]. Qed.

Lemma new_reading sh exchange chunks ending ack :
  reading sh (ResponseDecoder_new exchange) (concat chunks) ending [] [] sh
    (Incoming_new (ResponseDecoder_new exchange) chunks ending ack).
Proof.
  left. exists [], [], Reading_new, [], (ResponseDecoder_new exchange). simpl. split_and!; try done; [|by left].
  apply from_reader_wf.
Qed.


(** What has been read when the metadata is taken. *)
Lemma take_metadata_reading sh0 d0 wire fin sh st metadata :
  reading sh0 d0 wire fin [] [] sh st -> pc_metadata (in_pieces st) = Some metadata ->
  exists seen g released, read_records Reading_new seen = Some (g, released)
    /\ rg_metadata g = Some metadata /\ reading sh0 d0 wire fin seen [] sh (take_metadata st).
Proof.
  intros [Hr|Hr] Hmd.
  - destruct Hr as (pushes & msgs & g & released & d & Hp & Hw & [Hd Hfin] & Hwf & Hpre & Hrd & Hh & Hm).
    exists msgs, g, released. split_and!; [done|by destruct Hm; congruence|].
    left. exists pushes, msgs, g, released, d. split_and!; try done. by right.
  - destruct Hr as (pushes & sh1 & d & msgs & g & released & tail & sh2 & Hp & Hw & Hf & He & Hpre & Hrd & Hcl & Ho & Hm & Hn).
    exists msgs, g, released. split_and!; [done|by destruct Hm; congruence|].
    right. exists pushes, sh1, d, msgs, g, released, tail, sh2. split_and!; try done. by right.
Qed.

Lemma send_receive_ok clock sh exchange outer ack sh1 metadata st :
  send_receive clock sh (ResponseDecoder_new exchange) outer ack = (sh1, Some (Ok (metadata, Some st))) ->
  exists status headers content_length chunks ending seen g released,
    outer = Outer_response status headers content_length chunks ending
    /\ outer_accepted status headers content_length = true
    /\ read_records Reading_new seen = Some (g, released) /\ rg_metadata g = Some metadata
    /\ reading sh (ResponseDecoder_new exchange) (concat chunks) ending seen [] sh1 st.
Proof.
  unfold send_receive. destruct outer as [| |status headers content_length chunks ending]; try done.
  destruct (outer_accepted _ _ _) eqn:Hacc; cbn [negb]; [|done].
  destruct (advance_until _ has_metadata _ _ _) as [[sh2 st2] [[[]|]|]] eqn:Ha; try done.
  apply (advance_until_reading sh (ResponseDecoder_new exchange) (concat chunks) ending _ _ _ [] []) in Ha as [Hr _];
    [|exact has_metadata_false|apply new_reading].
  destruct (pc_metadata (in_pieces st2)) as [m|] eqn:Hm; [|done].
  destruct (take_metadata_reading _ _ _ _ _ _ _ Hr Hm) as (seen & g & released & Hrd & Hg & Hr').
  cbn zeta. destruct (pc_body_allowed _).
  - intros [= <- <- <-]. by exists status, headers, content_length, chunks, ending, seen, g, released.
  - destruct (advance_until _ at_end _ _ _) as [[sh3 st3] [[[]|]|]]; done.
Qed.


(** ** Termination and errors *)

Lemma feed_work clock sh st sh' st' r d :
  in_decoder st = Some d -> Incoming_feed clock sh st = (sh', st', r) ->
  (incoming_work st' <= incoming_work st)%nat
  /\ (in_input st <> [] -> (incoming_work st' < incoming_work st)%nat).
Proof.
  intros Hd. unfold Incoming_feed. rewrite Hd. set (size := Z.min _ _).
  assert (Hlen : length (slice_from (in_input st) size) = (length (in_input st) - Z.to_nat size)%nat).
  { unfold slice_from. by rewrite length_drop. }
  destruct (ResponseDecoder_push _ _ _ _ _ _) as [[[sh1 d1] p1] out]. intros [= <- <- <-].
  unfold incoming_work. simpl. rewrite Hlen, Hd. split; [lia|]. intros Hne.
  assert (0 < length (in_input st))%nat by (destruct (in_input st); [done|simpl; lia]).
  assert (1 <= size). { unfold size, zlen. record_consts. lia. } lia.
Qed.

Lemma advance_work clock sh st sh' st' :
  is_Some (in_decoder st) -> Incoming_advance clock sh st = (sh', st', Ok tt) ->
  (incoming_work st' < incoming_work st)%nat.
Proof.
  intros [d Hd]. unfold Incoming_advance. destruct (ck_late _ _); [done|]. simpl.
  destruct (in_input st) as [|b input] eqn:Hi.
  - destruct (in_chunks st) as [|chunk chunks] eqn:Hc.
    + destruct (in_ending st); try done. unfold Incoming_end. simpl. rewrite Hd.
      destruct (ResponseDecoder_finish sh d) as [sh1 [[]|]]; [|done].
      destruct (pc_completion _) as [s|]; [destruct (StreamCompletion_finish s); [|done]|];
        intros [= <- <-]; unfold incoming_work; simpl; rewrite Hi, Hc, Hd; simpl; lia.
    + intros Hf. eapply feed_work in Hf as [Hf _]; [|exact Hd]. revert Hf.
      unfold incoming_work. simpl. rewrite Hi, Hc, Hd. simpl. lia.
  - intros Hf. eapply feed_work in Hf as [_ Hf]; [|exact Hd]. specialize (Hf ltac:(done)). revert Hf.
    unfold incoming_work. simpl. rewrite Hi, Hd. simpl. lia.
Qed.

Lemma next_loop_total fuel clock sh st :
  (incoming_work st < fuel)%nat -> exists sh' st' r, next_loop fuel clock sh st = (sh', st', Some r).
Proof.
  revert sh st. induction fuel as [|fuel IH]; intros sh st Hf; [lia|]. simpl.
  destruct (ck_late _ _); [eauto|]. destruct (pc_pending _); [|eauto].
  destruct (in_decoder st) as [d|] eqn:Hd; [|eauto].
  destruct (Incoming_advance _ _ _) as [[sh1 st1] [[]|]] eqn:Ha; [|eauto].
  apply advance_work in Ha; [|by exists d]. apply IH. unfold incoming_work in *. simpl in *. rewrite Hd in *. lia.
Qed.

Lemma advance_until_total fuel stop clock sh st :
  (forall st, stop st = false -> is_Some (in_decoder st)) -> (incoming_work st < fuel)%nat ->
  exists sh' st' r, advance_until fuel stop clock sh st = (sh', st', Some r).
Proof.
  intros Hstop. revert sh st. induction fuel as [|fuel IH]; intros sh st Hf; [lia|]. simpl.
  destruct (stop st) eqn:Hs; [eauto|].
  destruct (Incoming_advance _ _ _) as [[sh1 st1] [[]|]] eqn:Ha; [|eauto].
  apply advance_work in Ha; [|by apply Hstop]. apply IH. lia.
Qed.

Definition not_submitted (e : EncryptedHttpError) : Prop := e = Eh_Request \/ e = Eh_NotSentDeadline.

Lemma advance_error clock sh st sh' st' e :
  Incoming_advance clock sh st = (sh', st', Err e) -> ~ not_submitted e.
Proof.
  unfold not_submitted, Incoming_advance, Incoming_feed, Incoming_end.
  destruct (ck_late _ _); [naive_solver|]. simpl. intros Ha [-> | ->]; revert Ha;
    repeat (case_match; try done); naive_solver.
Qed.

Lemma advance_until_error fuel stop clock sh st sh' st' e :
  advance_until fuel stop clock sh st = (sh', st', Some (Err e)) -> ~ not_submitted e.
Proof.
  revert sh st. induction fuel as [|fuel IH]; intros sh st; simpl; [done|]. destruct (stop st); [done|].
  destruct (Incoming_advance _ _ _) as [[sh1 st1] [[]|]] eqn:Ha; [apply IH|].
  intros [= <- <- <-]. by eapply advance_error.
Qed.

Lemma carry_headers_error l headers e : foldR carry_header l headers = Err e -> e = Eh_Request.
Proof.
  revert l. induction headers as [|[n v] headers IH]; intros l; cbn [foldR]; [done|].
  destruct (carry_header l (n, v)) as [l1|e1] eqn:E; [apply IH|]. intros [= <-].
  unfold carry_header in E. destruct (header_to_str v); simpl in E; case_all.
Qed.

Lemma send_prepare_error sh node_id exchange request late sh' e :
  send_prepare sh node_id exchange request late = (sh', Err e) -> not_submitted e.
Proof.
  unfold not_submitted, send_prepare. destruct (request_metadata request) as [m|e0] eqn:Hm.
  - destruct (header_from_str node_id); [|naive_solver]. destruct late; [naive_solver|].
    destruct (RequestEncoder_seal _ _ _) as [enc [rec|]]; naive_solver.
  - intros [= _ <-]. left. revert Hm. unfold request_metadata. destruct (_ || _ || _); [by intros [= <-]|].
    destruct (foldR carry_header [] _) as [l|e1] eqn:Hf; [by case_match; [intros [= <-]|]|].
    intros [= <-]. by apply carry_headers_error in Hf.
Qed.

Lemma send_receive_total clock sh decoder outer ack :
  exists sh' r, send_receive clock sh decoder outer ack = (sh', Some r)
    /\ forall e, r = Err e -> ~ not_submitted e.
Proof.
  unfold send_receive. unfold not_submitted.
  destruct outer as [| |status headers len chunks ending]; [naive_solver..|].
  destruct (outer_accepted _ _ _); cbn [negb]; [|naive_solver].
  destruct (advance_until_total (S (incoming_work (Incoming_new decoder chunks ending ack))) has_metadata clock sh
    (Incoming_new decoder chunks ending ack) has_metadata_false ltac:(lia)) as (sh1 & st1 & r1 & E1).
  rewrite E1. destruct r1 as [[]|e1]; [|apply advance_until_error in E1; eexists _, _; split; [done|]; by intros ? [= <-]].
  destruct (pc_metadata _) as [m|]; [|naive_solver]. cbn zeta. destruct (pc_body_allowed _); [naive_solver|].
  destruct (advance_until_total (S (incoming_work (take_metadata st1))) at_end clock sh1
    (take_metadata st1) at_end_false ltac:(lia)) as (sh2 & st2 & r2 & E2).
  rewrite E2. destruct r2 as [[]|e2]; [naive_solver|]. apply advance_until_error in E2.
  eexists _, _; split; [done|]; by intros ? [= <-].
Qed.

(** The two halves of a send report their errors apart: an error before the outer request
    says that nothing was sent, an error after it never does; and both halves always
    return, as does every read of the body. *)
Theorem send_errors_separate clock sh node_id exchange request late decoder outer ack st :
  (forall sh' e, send_prepare sh node_id exchange request late = (sh', Err e) -> not_submitted e)
  /\ (exists sh' r, send_receive clock sh decoder outer ack = (sh', Some r)
       /\ forall e, r = Err e -> ~ not_submitted e)
  /\ (exists sh' st' r, Incoming_next clock sh st = (sh', st', Some r)).
Proof.
  split_and!; [intros ? ?; apply send_prepare_error|apply send_receive_total|].
  unfold Incoming_next. apply next_loop_total. lia.
Qed.

End Responses.

(** ** Uploads *)

Section Uploads.
Context `{KdfLaws} `{AeadLaws} `{HttpText} `{Json}.

(** The outer client reads the upload to its end, undisturbed. *)
Fixpoint upload_run (fuel : nat) (u : Upload) : list bytes * option (result unit EncryptedHttpError) :=
  match fuel with
  | O => ([], None)
  | S fuel =>
      match Upload_next false false u with
      | (u, Ok (Some b)) => let (out, r) := upload_run fuel u in (b :: out, r)
      | (_, Ok None) => ([], Some (Ok tt))
      | (_, Err e) => ([], Some (Err e))
      end
  end.

Definition body_parts (n : nat) (body : bytes) : list bytes := parts n MAX_RECORD_PLAINTEXT body.
Definition body_messages (n : nat) (body : bytes) : list (Kind * bytes) :=
  map (pair Data) (body_parts n body) ++ [(Finished, [])].

Lemma body_parts_step n b body :
  body_parts (S n) (b :: body) =
  slice_to (b :: body) MAX_RECORD_PLAINTEXT :: body_parts n (slice_from (b :: body) MAX_RECORD_PLAINTEXT).
Proof. done. Qed.

Lemma slice_min_to {A} (l : list A) n : 0 <= n -> slice_to l (Z.min (zlen l) n) = slice_to l n.
Proof.
  intros Hn. unfold slice_to, zlen. destruct (Z.le_ge_cases (Z.of_nat (length l)) n).
  - rewrite Z.min_l, !take_ge by lia. done.
  - by rewrite Z.min_r by lia.
Qed.
Lemma slice_min_from {A} (l : list A) n : 0 <= n -> slice_from l (Z.min (zlen l) n) = slice_from l n.
Proof.
  intros Hn. unfold slice_from, zlen. destruct (Z.le_ge_cases (Z.of_nat (length l)) n).
  - rewrite Z.min_l, !drop_ge by lia. done.
  - by rewrite Z.min_r by lia.
Qed.

Lemma body_parts_concat n body : (length body <= n)%nat -> concat (body_parts n body) = body.
Proof.
  revert body. induction n as [|n IH]; intros [|b body] Hn; try done; [cbn [length] in Hn; lia|].
  rewrite body_parts_step. cbn [concat]. rewrite IH, slice_to_from; [done|].
  unfold slice_from. rewrite length_drop. record_consts. cbn [length] in *. lia.
Qed.

Lemma parts_request_body n body budget :
  (length body <= n)%nat -> zlen body <= budget -> request_body budget (body_messages n body).
Proof.
  revert body budget. induction n as [|n IH]; intros [|b body] budget Hn Hb;
    try (exists [], []; simpl; unfold zlen in Hb; simpl in Hb; split_and!; [done|by apply Forall_nil|by left|cbn; lia]).
  unfold body_messages. rewrite body_parts_step. cbn [map app]. set (l := b :: body) in *.
  assert (0 < zlen l) by (unfold zlen, l; simpl; lia).
  destruct (Z.lt_ge_cases (zlen l) MAX_RECORD_PLAINTEXT) as [Hs|Hs].
  - assert (slice_to l MAX_RECORD_PLAINTEXT = l) as -> by (unfold slice_to; apply take_ge; unfold zlen in *; lia).
    assert (slice_from l MAX_RECORD_PLAINTEXT = []) as -> by (unfold slice_from; apply drop_ge; unfold zlen in *; lia).
    apply request_body_data; [lia|]. rewrite (proj2 (Z.ltb_lt _ _) Hs). split; [done|]. by destruct n.
  - assert (zlen (slice_to l MAX_RECORD_PLAINTEXT) = MAX_RECORD_PLAINTEXT) as Hl.
    { apply zlen_slice_to. split; [record_consts; lia|done]. }
    apply request_body_data; [rewrite Hl; record_consts; lia|]. rewrite Hl, Z.ltb_irrefl. apply IH.
    + unfold slice_from. rewrite length_drop. record_consts. unfold l in *. cbn [length] in *. lia.
    + rewrite zlen_slice_from by (record_consts; lia). lia.
Qed.

Lemma upload_run_seals n fuel encoder body w' encs :
  seal_stream (re_records encoder) (body_messages n body) = (w', Ok encs) ->
  (length body <= n)%nat -> (n + 2 <= fuel)%nat ->
  upload_run fuel (mkUpload encoder body [] false) = (encs, Some (Ok tt)).
Proof.
  revert fuel encoder body encs. induction n as [|n IH]; intros fuel encoder [|b body] encs Hs Hn Hf;
    try (cbn [length] in Hn; lia).
  3: { destruct fuel as [|fuel]; [lia|]. unfold body_messages in Hs. rewrite body_parts_step in Hs.
       cbn [map app seal_stream] in Hs. cbn [upload_run Upload_next up_initial up_body up_encoder].
       rewrite slice_min_to, slice_min_from by (record_consts; lia). unfold RequestEncoder_seal at 1.
       destruct (Records_seal (re_records encoder) Data _) as [w1 [enc|]] eqn:E; [|done].
       destruct (seal_stream w1 _) as [w2 [encs'|]] eqn:Es; [|done]. simplify_eq. cbn [up_finished].
       rewrite (IH fuel _ _ encs'); [done|exact Es| |lia].
       unfold slice_from. rewrite length_drop. record_consts. cbn [length] in *. lia. }
  all: do 2 (destruct fuel as [|fuel]; [lia|]); simpl in Hs |- *; unfold RequestEncoder_seal;
    destruct (Records_seal (re_records encoder) Finished []) as [w1 [enc|]]; [|done]; by simplify_eq.
Qed.

End Uploads.
