(* ===== verification/EvidenceClient.v ===== *)
(** Demand-driven acquisition of evidence ([sdk/src/evidence_client.rs]): two fixed origins,
    one cached representation for each, a cooldown after a failed attempt, and the
    networkless verifier, whose installed snapshot the client publishes as current.

    Acquisitions are serialized by an asynchronous lock and all verification runs on one
    worker, so each is one step of the client's state. A deadline that expires while the
    worker is busy does not stop the worker: its result takes effect before any later
    verification, and only the waiting attempt reports the deadline. What the origins deliver
    and what the clocks read are parameters of each attempt. *)

From S2P Require Import Prelude ApprovalsTheory Snapshot Primitives BTree Json Record Ratchet Window Session Signing.
From S2P Require Import Attestation Setup Receipt Provisioning Documents Deserialize Approvals Snp Releases Amd Collateral.
From S2P Require Import Certificates Boot.

Open Scope Z_scope.

(** Times of the monotonic clock are in milliseconds. *)
Definition ORIGIN_BUDGET : Z := 5000.
Definition RECOVERY_BUDGET : Z := 15000.

Inductive AcquireError :=
| Aq_Deadline
| Aq_Cooldown
| Aq_Delivery
| Aq_Configuration
| Aq_Http (status : Z)
| Aq_TooLarge
| Aq_MissingRepresentation
| Aq_Verification (e : EvidenceError)
| Aq_Worker
| Aq_State.

Definition AcquireError_code (e : AcquireError) : bytes :=
  match e with
  | Aq_Verification e => code e
  | Aq_TooLarge => ascii "evidence_too_large"
  | Aq_Worker | Aq_State | Aq_Configuration => ascii "verification_unavailable"
  | _ => ascii "evidence_unavailable"
  end.

Record Representation := mkRepresentation { rp_bytes : bytes; rp_etag : option bytes }.

(** What an origin answers: nothing in time, a transport error, or a response whose body comes
    in chunks and may break off. *)
Inductive Delivery :=
| Dl_late
| Dl_failed
| Dl_response (status : Z) (content_length : option Z) (etag : option bytes)
    (chunks : list bytes) (broken : bool).

(** The header of a conditional request. *)
Definition if_none_match (cached : option Representation) : option bytes := cached ≫= rp_etag.

Fixpoint read_chunks (received : bytes) (chunks : list bytes) (broken : bool) : result bytes AcquireError :=
  match chunks with
  | [] => if broken then Err Aq_Delivery else Ok received
  | chunk :: chunks =>
      reject Z.max 0 (MAX_INPUT_BYTES - zlen received) <? zlen chunk with Aq_TooLarge;
      read_chunks (received ++ chunk) chunks broken
  end.

Definition download (cached : option Representation) (delivery : Delivery) : result Representation AcquireError :=
  match delivery with
  | Dl_late => Err Aq_Deadline
  | Dl_failed => Err Aq_Delivery
  | Dl_response status content_length etag chunks broken =>
      if status =? 304 then ok_or cached Aq_MissingRepresentation
      else
        reject negb (status =? 200) with Aq_Http status;
        reject match content_length with Some n => MAX_INPUT_BYTES <? n | None => false end with Aq_TooLarge;
        let? received := read_chunks [] chunks broken in
        Ok (mkRepresentation received etag)
  end.

Section Acquire.
Context `{Json} `{Base64} `{Signatures} `{Hash} `{Encodings} `{Sigstore} `{X509} `{Unicode}.

Record EvidenceClient := mkEvidenceClient {
  ec_verifier : Verifier;
  ec_current : option Snapshot;
  ec_representations : list (option Representation);
  ec_retry_after : option Z }.

Definition EvidenceClient_new (environment : Environment) (root : RootKey) : result EvidenceClient AcquireError :=
  let? verifier := map_err Aq_Verification (Verifier_new environment root) in
  Ok (mkEvidenceClient verifier None [None; None] None).

(** What a snapshot shares with the client's verifier. *)
Definition shared_of (v : Verifier) : Shared :=
  {| sh_key_state := av_key_state (ve_approvals v); sh_revocations := ve_revocations v |}.

(** A caller's offline check of a snapshot. *)
Definition Check : Type := Snapshot -> Shared -> result unit EvidenceError.

(** The checks before a snapshot resolves a failed verification. *)
Definition resolves (check : Check) (now : result Z AcquireError) (c : EvidenceClient) (s : Snapshot)
    : result unit AcquireError :=
  let? _ := map_err Aq_Verification
    (Snapshot_require_current_keys s (sh_key_state (shared_of (ec_verifier c)))) in
  let? now := now in
  let? _ := map_err (fun e => Aq_Verification (EvApproval e)) (VerifiedApprovals_valid_until (sn_approvals s) now) in
  map_err Aq_Verification (check s (shared_of (ec_verifier c))).

(** One attempt: the delivery, the wall clock at the refresh and at the check, and whether
    the attempt's deadline expires while the worker runs each. *)
Record Attempt := mkAttempt {
  at_delivery : Delivery;
  at_refresh_now : result Z AcquireError;
  at_refresh_late : bool;
  at_check_now : result Z AcquireError;
  at_check_late : bool }.

(** The worker's refresh: an accepted snapshot becomes current. *)
Definition refresh_current (b : bytes) (now : result Z AcquireError) (c : EvidenceClient)
    : EvidenceClient * result Snapshot AcquireError :=
  match now with
  | Err e => (c, Err e)
  | Ok now =>
      match refresh (ec_verifier c) b now with
      | (v, Ok s) => (mkEvidenceClient v (Some s) (ec_representations c) (ec_retry_after c), Ok s)
      | (v, Err e) =>
          (mkEvidenceClient v (ec_current c) (ec_representations c) (ec_retry_after c), Err (Aq_Verification e))
      end
  end.

Definition attempt (check : option Check) (index : nat) (a : Attempt) (c : EvidenceClient)
    : EvidenceClient * result Snapshot AcquireError :=
  match download (mjoin (ec_representations c !! index)) (at_delivery a) with
  | Err e => (c, Err e)
  | Ok candidate =>
      let (c, refreshed) := refresh_current (rp_bytes candidate) (at_refresh_now a) c in
      if at_refresh_late a then (c, Err Aq_Deadline)
      else
        match refreshed with
        | Err e => (c, Err e)
        | Ok s =>
            let c := mkEvidenceClient (ec_verifier c) (ec_current c)
                       (<[index := Some candidate]> (ec_representations c)) (ec_retry_after c) in
            match check with
            | None => (c, Ok s)
            | Some check =>
                if at_check_late a then (c, Err Aq_Deadline)
                else (c, let? _ := resolves check (at_check_now a) c s in Ok s)
            end
        end
  end.

(** The loop over the origins. When the caller's deadline leaves no time for an attempt, the
    call reports the deadline and no cooldown starts; [cooldown] is the time it would end. *)
Fixpoint try_origins (check : option Check) (index origins : nat) (attempts : list Attempt)
    (cooldown : Z) (failure : AcquireError) (c : EvidenceClient)
    : EvidenceClient * result Snapshot AcquireError :=
  match origins with
  | O => (mkEvidenceClient (ec_verifier c) (ec_current c) (ec_representations c) (Some cooldown), Err failure)
  | S origins =>
      match attempts with
      | [] => (c, Err Aq_Deadline)
      | a :: attempts =>
          match attempt check index a c with
          | (c, Ok s) =>
              (mkEvidenceClient (ec_verifier c) (ec_current c) (ec_representations c) None, Ok s)
          | (c, Err e) => try_origins check (S index) origins attempts cooldown e c
          end
      end
  end.

Definition acquire_inner (check : option Check) (now : Z) (check_now : result Z AcquireError)
    (attempts : list Attempt) (cooldown : Z) (c : EvidenceClient)
    : EvidenceClient * result Snapshot AcquireError :=
  match (match check, ec_current c with
         | Some check, Some s =>
             match resolves check check_now c s with Ok _ => Some s | Err _ => None end
         | _, _ => None
         end) with
  | Some s => (c, Ok s)
  | None =>
      if match ec_retry_after c with Some until => now <? until | None => false end
      then (c, Err Aq_Cooldown)
      else try_origins check 0 2 attempts cooldown Aq_Deadline c
  end.

(** [acquire]: its deadline, and the call itself. *)
Definition acquire_deadline (now deadline : Z) : Z := Z.min deadline (now + RECOVERY_BUDGET).
Definition acquire (check : option Check) (now deadline : Z) (check_now : result Z AcquireError)
    (attempts : list Attempt) (cooldown : Z) (c : EvidenceClient)
    : EvidenceClient * result Snapshot AcquireError :=
  if deadline <=? now then (c, Err Aq_Deadline)
  else acquire_inner check now check_now attempts cooldown c.

Definition EvidenceClient_refresh := acquire None.
Definition EvidenceClient_recover (check : Check) := acquire (Some check).
End Acquire.

(** * Theory

    What acquisition guarantees: the published snapshot is always the one the verifier
    installed, a recovery returns only a snapshot that resolves the caller's check, failures
    never lose accepted state, and downloads are bounded. *)

Lemma read_chunks_bounded received chunks broken b :
  zlen received <= MAX_INPUT_BYTES -> read_chunks received chunks broken = Ok b ->
  zlen b <= MAX_INPUT_BYTES /\ b = received ++ concat chunks.
Proof.
  revert received. induction chunks as [|c chunks IH]; intros received Hr; simpl.
  - destruct broken; [done|]. intros [= <-]. by rewrite app_nil_r.
  - intros Hx. pass Hx by Hc. zbool. apply IH in Hx as [Hb ->].
    + split; [done|]. by rewrite <- app_assoc.
    + rewrite zlen_app. pose proof (zlen_nonneg c). lia.
Qed.

Section Acquisition.
Context `{Json} `{Base64} `{Signatures} `{Hash} `{Encodings} `{Sigstore} `{X509} `{Unicode}.

Definition bounded_representation (r : option Representation) : Prop :=
  match r with Some r => zlen (rp_bytes r) <= MAX_INPUT_BYTES | None => True end.

Record client_ok (c : EvidenceClient) : Prop := mkClientOk {
  ok_current : ec_current c = ve_current (ec_verifier c);
  ok_bounded : Forall bounded_representation (ec_representations c);
  ok_origins : length (ec_representations c) = 2%nat }.

Lemma download_bounded cached delivery r :
  bounded_representation cached -> download cached delivery = Ok r -> zlen (rp_bytes r) <= MAX_INPUT_BYTES.
Proof.
  unfold download. destruct delivery as [| |status len etag chunks broken]; try done.
  destruct (status =? 304); [destruct cached; [by intros ? [= <-]|done]|]. intros _ Hx.
  pass Hx by Hs. pass Hx by Hl. pass Hx as b by Hb. injection Hx as <-.
  apply read_chunks_bounded in Hb as [Hb _]; [done|]. unfold MAX_INPUT_BYTES. done.
Qed.

(** How the verifier and what it learned evolve. *)
Definition advances (c c' : EvidenceClient) : Prop :=
  learned_le (av_key_state (ve_approvals (ec_verifier c))) (av_key_state (ve_approvals (ec_verifier c')))
  /\ (ec_current c' = ec_current c
      \/ exists v b t v' s, refresh v b t = (v', Ok s) /\ ec_current c' = Some s).

#[local] Instance advances_preorder : PreOrder advances.
Proof.
  split; [intros c; split; [done|by left]|]. intros c1 c2 c3 [L1 C1] [L2 C2]. split; [by etrans|].
  destruct C2 as [C2|C2]; [rewrite C2; exact C1|by right].
Qed.

Lemma refresh_current_ok b now c c' r :
  client_ok c -> refresh_current b now c = (c', r) ->
  client_ok c' /\ advances c c' /\ ec_representations c' = ec_representations c
  /\ ec_retry_after c' = ec_retry_after c /\ (forall s, r = Ok s -> ec_current c' = Some s).
Proof.
  intros [Hc Hb Hn]. unfold refresh_current. destruct now as [now|e]; [|by intros [= <- <-]].
  destruct (refresh (ec_verifier c) b now) as [v res] eqn:Hrefresh. pose proof Hrefresh as Hf.
  unfold refresh in Hf. pose proof (refresh_frame (ec_verifier c) b now) as Hframe.
  destruct (refresh_observed (ec_verifier c) b now) as [v1 [log r1]]. injection Hf as -> ->.
  destruct Hframe as (Hcur & Hle & _). destruct res as [s|e]; destruct Hcur as (Hcur & _ & _);
    intros [= <- <-]; split_and!; try done; try (split; simpl; [congruence|done|done]).
  - split; [done|]. right. by exists (ec_verifier c), b, now, v, s.
  - by intros ? [= <-].
  - split; [done|by left].
Qed.

Lemma attempt_ok check index a c c' r :
  client_ok c -> attempt check index a c = (c', r) ->
  client_ok c' /\ advances c c' /\ ec_retry_after c' = ec_retry_after c
  /\ (forall s, r = Ok s -> ec_current c' = Some s
        /\ match check with None => True | Some check => exists t, resolves check (Ok t) c' s = Ok tt end).
Proof.
  intros Hok. unfold attempt. destruct (download _ _) as [candidate|e] eqn:Hd; [|by intros [= <- <-]].
  assert (Hcand : zlen (rp_bytes candidate) <= MAX_INPUT_BYTES).
  { eapply download_bounded; [|exact Hd]. destruct (ec_representations c !! index) as [rep|] eqn:E; [|done].
    destruct Hok as [_ Hb _]. simpl. by eapply (Forall_lookup_1 _ _ index). }
  destruct (refresh_current _ _ c) as [c1 res] eqn:Hr.
  destruct (refresh_current_ok _ _ _ _ _ Hok Hr) as (Hok1 & Hadv & Hrep & Hretry & Hs).
  destruct (at_refresh_late a); [by intros [= <- <-]|]. destruct res as [s|e]; [|by intros [= <- <-]].
  set (c2 := mkEvidenceClient _ _ _ _).
  assert (Hok2 : client_ok c2).
  { destruct Hok1. split; simpl; [done| |by rewrite length_insert]. by apply Forall_insert. }
  destruct check as [check|].
  - destruct (at_check_late a); [by intros [= <- <-]|]. intros [= <- <-]. split_and!; try done.
    intros s' Hx. pass Hx as u by Hres. injection Hx as <-. destruct u. split; [by apply Hs|].
    unfold resolves in *. destruct (at_check_now a) as [t|]; [by exists t|].
    by destruct (map_err _ _).
  - intros [= <- <-]. split_and!; try done. intros ? [= <-]. split; [by apply Hs|done].
Qed.

Lemma try_origins_ok check index origins attempts cooldown failure c c' r :
  client_ok c -> try_origins check index origins attempts cooldown failure c = (c', r) ->
  client_ok c' /\ advances c c'
  /\ (forall s, r = Ok s -> ec_current c' = Some s
        /\ match check with None => True | Some check => exists t, resolves check (Ok t) c' s = Ok tt end)
  /\ (forall e, r = Err e -> (origins <= length attempts)%nat -> ec_retry_after c' = Some cooldown).
Proof.
  revert index attempts failure c. induction origins as [|origins IH]; intros index attempts failure c Hok; simpl.
  { intros [= <- <-]. destruct Hok. split_and!; [by split|by split; [|left]|done|done]. }
  destruct attempts as [|a attempts].
  { intros [= <- <-]. split_and!; try done. intros e _ Hx. simpl in Hx. lia. }
  destruct (attempt check index a c) as [c1 [s|e]] eqn:Ha;
    destruct (attempt_ok _ _ _ _ _ _ Hok Ha) as (Hok1 & Hadv & Hretry & Hs).
  - intros [= <- <-]. destruct Hok1. split_and!; [by split|done| |done]. intros s' [= <-]. simpl. by apply Hs.
  - intros Hx. destruct (IH _ _ _ _ Hok1 Hx) as (Hok2 & Hadv2 & Hs2 & He2).
    split_and!; [done|by etrans|done|]. intros e' Hr Hl. apply (He2 _ Hr). simpl in Hl. lia.
Qed.

Lemma acquire_ok check now deadline check_now attempts cooldown c c' r :
  client_ok c -> acquire check now deadline check_now attempts cooldown c = (c', r) ->
  client_ok c' /\ advances c c'
  /\ (forall s, r = Ok s -> ec_current c' = Some s
        /\ match check with None => True | Some check => exists t, resolves check (Ok t) c' s = Ok tt end).
Proof.
  intros Hok. unfold acquire, acquire_inner. destruct (deadline <=? now); [by intros [= <- <-]|].
  destruct (match check with Some _ => _ | None => None end) as [s|] eqn:Hm.
  - intros [= <- <-]. split_and!; try done. destruct check as [check|]; [|done].
    destruct (ec_current c) as [s0|] eqn:Hc; [|done]. destruct (resolves check check_now c s0) as [[]|] eqn:Hr; [|done].
    injection Hm as <-. intros ? [= <-]. split; [done|]. unfold resolves in *.
    destruct check_now as [t|]; [by exists t|]. by destruct (map_err _ _).
  - destruct (match ec_retry_after c with Some _ => _ | None => false end); [by intros [= <- <-]|].
    intros Hx. destruct (try_origins_ok _ _ _ _ _ _ _ _ _ Hok Hx) as (? & ? & ? & _). done.
Qed.

(** Recovery resolves the failure it was called for: whatever the origins deliver and
    the clocks read, the snapshot it returns is the one the verifier has installed and the
    client publishes, under keys that are still current, within its decisions' validity at
    some reading of the clock, and it passes the caller's own check. *)
Theorem recovery_resolves check now deadline check_now attempts cooldown c c' s :
  client_ok c -> EvidenceClient_recover check now deadline check_now attempts cooldown c = (c', Ok s) ->
  ec_current c' = Some s /\ ve_current (ec_verifier c') = Some s
  /\ Snapshot_require_current_keys s (sh_key_state (shared_of (ec_verifier c'))) = Ok tt
  /\ (exists t until, VerifiedApprovals_valid_until (sn_approvals s) t = Ok until)
  /\ check s (shared_of (ec_verifier c')) = Ok tt.
Proof.
  intros Hok Hx. destruct (acquire_ok _ _ _ _ _ _ _ _ _ Hok Hx) as (Hok' & _ & Hs).
  destruct (Hs s eq_refl) as [Hc [t Hr]]. pose proof (ok_current _ Hok') as Hv. unfold resolves in Hr.
  pass Hr as u by Hk. destruct u. pass Hr as until by Hu. apply map_err_ok in Hr.
  split_and!; [done|congruence|done|by exists t, until|done].
Qed.

(** Whatever an acquisition returns, accepted state is never lost: what is published stays,
    or is a snapshot that a refresh accepted, and learned keys only advance; the cached
    bodies stay within the input limit; and after both origins failed nothing is tried
    before the cooldown ends. *)
Theorem acquisition_safe check now deadline check_now attempts cooldown c c' r :
  client_ok c -> acquire check now deadline check_now attempts cooldown c = (c', r) ->
  client_ok c' /\ advances c c'.
Proof. intros Hok Hx. by destruct (acquire_ok _ _ _ _ _ _ _ _ _ Hok Hx) as (? & ? & _). Qed.

Theorem cooldown_holds check now deadline check_now attempts c until :
  ec_retry_after c = Some until -> now < until -> now < deadline ->
  (forall check' s, check = Some check' -> ec_current c = Some s -> exists e, resolves check' check_now c s = Err e) ->
  forall cooldown, acquire check now deadline check_now attempts cooldown c = (c, Err Aq_Cooldown).
Proof.
  intros Hu Hn Hd Hc cooldown. unfold acquire, acquire_inner. rewrite (proj2 (Z.leb_gt _ _)) by lia.
  rewrite Hu, (proj2 (Z.ltb_lt _ _) Hn). destruct check as [check|]; [|done].
  destruct (ec_current c) as [s|]; [|done]. by destruct (Hc check s eq_refl eq_refl) as [e ->].
Qed.
End Acquisition.
