(* ===== verification/ReceiptHttp.v ===== *)
(** Content receipts of HTTP responses ([sdk/src/receipt_http.rs]): a buffered response is
    returned only with a valid receipt, and the last event of a streamed one only after its
    receipt was verified. The response body is a parameter: its items and how it ends. *)

From S2P Require Import Prelude SseTheory Receipt Primitives Json Signing Sse Text Snp HttpTypes.
From S2P Require Import EncryptedHttp.

Open Scope Z_scope.

Inductive ReceiptHttpError := Rh_Deadline | Rh_Body | Rh_Receipt (e : ReceiptError).

(** A response body that is read item by item. *)
Record Source := mkSource { src_items : list bytes; src_ending : Ending }.

Definition is_success (status : Z) : bool := (200 <=? status) && (status <=? 299).

(** [to_bytes(body, limit)] under a deadline. *)
Fixpoint collect_body (limit : Z) (received : bytes) (items : list bytes) (ending : Ending)
    : result bytes ReceiptHttpError :=
  match items with
  | [] =>
      match ending with
      | Complete => Ok received
      | Broken => Err Rh_Body
      | Late => Err Rh_Deadline
      end
  | b :: items =>
      reject limit <? zlen received + zlen b with Rh_Body;
      collect_body limit (received ++ b) items ending
  end.

Section Receipts.
Context `{Json} `{Base64} `{Signatures} `{Hash} `{HttpText}.

(** The state of a streamed response. *)
Record StreamState := mkStreamState {
  ss_source : Source;
  ss_receipt : option Stream;
  ss_pending : list bytes;
  ss_tick : nat }.

(** What [verify] returns: the response unchanged, a checked body, or a checked stream. *)
Inductive Verified := Unchecked (body : Source) | Buffered (body : bytes) | Streamed (state : StreamState).

Definition verify (status : Z) (headers : HeaderMap) (body : Source) (boot : VerifiedBoot) (request : bytes)
    : result Verified ReceiptHttpError :=
  if negb (is_success status) then Ok (Unchecked body)
  else if negb (is_event_stream headers) then
    let? b := collect_body MAX_BUFFERED_BYTES [] (src_items body) (src_ending body) in
    let? _ := map_err Rh_Receipt (verify_buffered boot request b) in
    Ok (Buffered b)
  else Ok (Streamed (mkStreamState body (Some (Stream_new request)) [] 0)).

(** [StreamState::next]; each turn that does not return takes an item or the receipt. [late]
    answers the successive deadline checks. *)
Fixpoint stream_next (fuel : nat) (late : nat -> bool) (boot : VerifiedBoot) (st : StreamState)
    : StreamState * option (result (option bytes) ReceiptHttpError) :=
  match fuel with
  | O => (st, None)
  | S fuel =>
      let tick := S (ss_tick st) in
      let st' source receipt pending := mkStreamState source receipt pending tick in
      if late (ss_tick st) then (st' (ss_source st) (ss_receipt st) (ss_pending st), Some (Err Rh_Deadline))
      else
        match ss_pending st with
        | b :: pending => (st' (ss_source st) (ss_receipt st) pending, Some (Ok (Some b)))
        | [] =>
            match ss_receipt st with
            | None => (st' (ss_source st) None [], Some (Ok None))
            | Some receipt =>
                match src_items (ss_source st) with
                | item :: items =>
                    let source := mkSource items (src_ending (ss_source st)) in
                    match Stream_push receipt item with
                    | (receipt, Ok out) => stream_next fuel late boot (st' source (Some receipt) out)
                    | (receipt, Err e) => (st' source (Some receipt) [], Some (Err (Rh_Receipt e)))
                    end
                | [] =>
                    match src_ending (ss_source st) with
                    | Late => (st' (ss_source st) (Some receipt) [], Some (Err Rh_Deadline))
                    | Broken => (st' (ss_source st) (Some receipt) [], Some (Err Rh_Body))
                    | Complete =>
                        (st' (ss_source st) None [],
                         Some (match Stream_finish receipt boot with
                               | Ok _ => Ok (Some [x0a; x0a])
                               | Err e => Err (Rh_Receipt e)
                               end))
                    end
                end
            end
        end
  end.

Definition StreamState_next (late : nat -> bool) (boot : VerifiedBoot) (st : StreamState) :=
  stream_next (S (S (length (src_items (ss_source st))))) late boot st.

(** A consumer that reads the stream to its end. *)
Fixpoint read_stream (fuel : nat) (late : nat -> bool) (boot : VerifiedBoot) (st : StreamState)
    : list bytes * option (result unit ReceiptHttpError) :=
  match fuel with
  | O => ([], None)
  | S fuel =>
      match StreamState_next late boot st with
      | (st, Some (Ok (Some b))) => let (out, r) := read_stream fuel late boot st in (b :: out, r)
      | (_, Some (Ok None)) => ([], Some (Ok tt))
      | (_, Some (Err e)) => ([], Some (Err e))
      | (_, None) => ([], None)
      end
  end.
End Receipts.

(** * Theory

    What a consumer of a receipted response may rely on: a body read to its end without an
    error is byte for byte what arrived, and its receipt was verified for exactly it. *)

Section Theory.
Context `{Json} `{Base64} `{Signatures} `{Hash} `{HttpText}.

Lemma collect_body_ok limit received items ending b :
  collect_body limit received items ending = Ok b -> b = received ++ concat items /\ ending = Complete.
Proof.
  revert received. induction items as [|i items IH]; intros received; simpl.
  - destruct ending; try done. intros [= <-]. by rewrite app_nil_r.
  - intros Hx. pass Hx by Hl. apply IH in Hx as [-> ->]. by rewrite <- app_assoc.
Qed.

Lemma stream_run_snoc s chunks s1 out c s2 more :
  stream_run s chunks = (s1, Ok out) -> Stream_push s1 c = (s2, Ok more) ->
  stream_run s (chunks ++ [c]) = (s2, Ok (out ++ concat more)).
Proof.
  revert s out. induction chunks as [|c0 chunks IH]; intros s out; simpl.
  - intros [= <- <-] Hp. rewrite Hp. simpl. by rewrite app_nil_r.
  - destruct (Stream_push s c0) as [s0 [o0|]]; [|done].
    destruct (stream_run s0 chunks) as [s3 [o3|]] eqn:E; [|done]. intros [= <- <-] Hp.
    rewrite (IH _ _ E Hp). by rewrite app_assoc.
Qed.

Section Run.
Context (boot : VerifiedBoot) (request : bytes) (body : Source).

Definition receiving (given : list bytes) (st : StreamState) : Prop :=
  exists consumed s outs,
    stream_run (Stream_new request) consumed = (s, Ok outs)
    /\ consumed ++ src_items (ss_source st) = src_items body
    /\ src_ending (ss_source st) = src_ending body
    /\ ss_receipt st = Some s /\ concat (given ++ ss_pending st) = outs.

Definition received (given : list bytes) (st : StreamState) : Prop :=
  ss_receipt st = None /\ ss_pending st = []
  /\ exists s outs vm,
    stream_run (Stream_new request) (src_items body) = (s, Ok outs) /\ Stream_finish s boot = Ok vm
    /\ src_ending body = Complete /\ concat given = outs ++ [x0a; x0a].

Lemma next_receiving fuel late given st st' r :
  receiving given st \/ received given st ->
  stream_next fuel late boot st = (st', Some (Ok r)) ->
  match r with
  | Some b => receiving (given ++ [b]) st' \/ received (given ++ [b]) st'
  | None => received given st'
  end.
Proof.
  revert st. induction fuel as [|fuel IH]; intros st Hst; simpl; [done|].
  destruct (late _); [done|]. destruct Hst as [Hst|(Hn & Hp & Hr)].
  - destruct Hst as (consumed & s & outs & Hrun & Hitems & Hend & Hrec & Hout). rewrite Hrec.
    destruct (ss_pending st) as [|b pending].
    + rewrite app_nil_r in Hout. destruct (src_items (ss_source st)) as [|item items] eqn:Hi.
      * destruct (src_ending (ss_source st)) eqn:He; try done.
        destruct (Stream_finish s boot) as [vm|] eqn:Hf; [|done]. intros [= <- <-]. right.
        split_and!; [done|done|]. exists s, outs, vm. rewrite app_nil_r in Hitems. subst consumed.
        split_and!; [done|done|done|]. by rewrite concat_app, Hout.
      * destruct (Stream_push s item) as [s1 [out|]] eqn:Hpush; [|done]. apply IH. left.
        exists (consumed ++ [item]), s1, (outs ++ concat out). simpl.
        split_and!; [by eapply stream_run_snoc|by rewrite <- app_assoc|done|done|by rewrite concat_app, Hout].
    + intros [= <- <-]. left. exists consumed, s, outs. simpl. split_and!; try done.
      by rewrite <- app_assoc.
  - rewrite Hn, Hp. intros [= <- <-]. by split_and!.
Qed.

Lemma read_received fuel late given st out :
  receiving given st \/ received given st -> read_stream fuel late boot st = (out, Some (Ok tt)) ->
  exists st', received (given ++ out) st'.
Proof.
  revert given st out. induction fuel as [|fuel IH]; intros given st out Hst; simpl; [done|].
  destruct (StreamState_next late boot st) as [st1 [[[b|]|]|]] eqn:Hn; try done;
    pose proof (next_receiving _ _ _ _ _ _ Hst Hn) as Hx.
  - destruct (read_stream fuel late boot st1) as [out1 r] eqn:Hr. intros [= <- ->].
    destruct (IH _ _ _ Hx Hr) as [st' Hd]. exists st'. by rewrite <- app_assoc in Hd.
  - intros [= <-]. exists st1. by rewrite app_nil_r.
Qed.
End Run.

(** With a requested receipt, a successful response is delivered unchanged or not at all:
    a buffered body is handed over only when its receipt verifies for exactly these bytes,
    and a streamed body that ends without an error is, byte for byte, the complete body that
    arrived, of which the boot's receipt was verified before its last event was shown. *)
Theorem receipted_body_exact status headers body boot request v :
  verify status headers body boot request = Ok v -> is_success status = true ->
  match v with
  | Unchecked _ => False
  | Buffered b => b = concat (src_items body) /\ src_ending body = Complete
      /\ exists vm, verify_buffered boot request b = Ok vm
  | Streamed st => forall fuel late out, read_stream fuel late boot st = (out, Some (Ok tt)) ->
      concat out = concat (src_items body) /\ src_ending body = Complete
      /\ exists s outs vm, stream_run (Stream_new request) (src_items body) = (s, Ok outs)
           /\ Stream_finish s boot = Ok vm
  end.
Proof.
  unfold verify. intros Hv Hs. rewrite Hs in Hv. cbn [negb] in Hv.
  destruct (is_event_stream headers); cbn [negb] in Hv.
  - injection Hv as <-. intros fuel late out Hr.
    assert (H0' : receiving request body [] (mkStreamState body (Some (Stream_new request)) [] 0)).
    { exists [], (Stream_new request), []. by split_and!. }
    destruct (read_received boot request body _ _ [] _ _ (or_introl H0') Hr)
      as (st' & _ & _ & s & outs & vm & Hrun & Hf & Hend & Hout).
    split_and!; [|done|by exists s, outs, vm]. simpl in Hout. rewrite Hout.
    destruct (stream_run_body _ _ _ _ Hrun) as [Hsse _].
    unfold Stream_finish, Stream_signed in Hf.
    destruct (SseBody_finish (str_body s)) as [[proof digest]|] eqn:Hfin; [|done].
    by destruct (finished_content _ _ _ _ _ Hsse Hfin) as (fs & t & _ & _ & _ & _ & Ho & _).
  - pass Hv as b by Hb. pass Hv as vm by Hr. injection Hv as <-.
    apply collect_body_ok in Hb as [-> ->]. split_and!; [done|done|by exists vm].
Qed.

(** A response that is not successful is passed on as it is, without a receipt. *)
Theorem failed_response_unchecked status headers body boot request :
  is_success status = false -> verify status headers body boot request = Ok (Unchecked body).
Proof. unfold verify. by intros ->. Qed.
End Theory.
