(* ===== verification/NativeHttp.v ===== *)
(** Native requests over attested HTTP/2 ([sdk/src/native_http.rs]): what a request retains,
    the appraisal a connection needs before each request ([Channel::prepare]), and a send that
    submits again only what was not processed.

    The pool's acquisitions and the submissions are parameters of a send: the n-th
    acquisition gives a connection's context or an error, the n-th dispatch is refused before
    submission or gets an outcome of the HTTP/2 library. *)

From S2P Require Import Prelude ApprovalsTheory Snapshot Primitives BTree Json Record Ratchet Window Session Signing.
From S2P Require Import Attestation Setup Receipt Provisioning Documents Deserialize Approvals Snp Releases Amd Collateral.
From S2P Require Import Certificates Boot EvidenceClient HttpTypes Http2Pool EncryptedHttp ReceiptHttp.

Open Scope Z_scope.

Inductive NativeError :=
| Nh_Pool (e : PoolError)
| Nh_Evidence (e : AcquireError)
| Nh_Recovery (verification : EvidenceError) (acquisition : AcquireError)
| Nh_Size
| Nh_Metadata
| Nh_Receipt (e : ReceiptHttpError).

Definition NativeError_code (e : NativeError) : bytes :=
  match e with
  | Nh_Evidence e => AcquireError_code e
  | Nh_Recovery verification _ => code verification
  | Nh_Pool (Pool_Connect (Some tls)) => tls
  | Nh_Pool (Pool_Connect None) => ascii "connection_failed"
  | Nh_Pool Pool_Deadline => ascii "setup_deadline"
  | Nh_Pool Pool_Capacity => ascii "client_capacity"
  | Nh_Pool Pool_Closed => ascii "closed"
  | Nh_Pool _ => ascii "transport_failed"
  | Nh_Receipt _ => ascii "receipt_failed"
  | Nh_Size | Nh_Metadata => ascii "invalid_request"
  end.

(** [Stogas-Metadata] asks for a receipt; any other use of it is refused. *)
Definition requested_metadata (headers : HeaderMap) : option bool :=
  match header_all headers (ascii "stogas-metadata") with
  | [] => Some false
  | [value] => if bool_decide (value = ascii "v1") then Some true else None
  | _ => None
  end.

(** [usize::checked_add]. *)
Definition checked_add (a b : Z) : option Z := if a + b <=? u64_max then Some (a + b) else None.

(** The bytes a waiting request retains: body, URI and headers. *)
Fixpoint retained_headers (size : Z) (headers : list (bytes * bytes)) : option Z :=
  match headers with
  | [] => Some size
  | (name, value) :: headers =>
      size ← checked_add size (zlen name); size ← checked_add size (zlen value); retained_headers size headers
  end.
Definition retained_size (body_length uri_length : Z) (headers : HeaderMap) : option Z :=
  size ← checked_add body_length uri_length; retained_headers size (header_iter headers).

(** A response as far as a send looks at it. *)
Record Answer := mkAnswer { an_status : Z; an_headers : HeaderMap; an_body : Source }.

Definition refused (r : Answer) : bool :=
  (an_status r =? 503) && bool_decide (header_get (an_headers r) (ascii "stogas-refused") = Some (ascii "?1")).

Definition MAX_REFUSAL_BYTES : Z := 1024.
Definition read_refusal (r : Answer) : option Answer :=
  match collect_body MAX_REFUSAL_BYTES [] (src_items (an_body r)) (src_ending (an_body r)) with
  | Ok b => Some (mkAnswer (an_status r) (an_headers r) (mkSource [b] Complete))
  | Err _ => None
  end.

(** ** Sending *)

(** A dispatch ends before submission, or the library answers. *)
Inductive Dispatch := Dp_unready (e : PoolError) | Dp_transport (t : Transport Answer).

Definition dispatch_result (d : Dispatch) : result Answer PoolError :=
  match d with
  | Dp_unready e => Err e
  | Dp_transport Tr_late => Err Pool_ResponseDeadline
  | Dp_transport (Tr_failed returned cause) =>
      Err (Pool_Request (returned || going_away cause || refused_stream cause))
  | Dp_transport (Tr_response r) => Ok r
  end.

Section Send.
Context {Ctx : Type} (acquires : nat -> result Ctx NativeError) (dispatches : nat -> Dispatch).

(** [submit]: the dispatches made, and the outcome. *)
Definition submit (i : nat) : list Dispatch * result (Answer * Ctx) NativeError :=
  match acquires i with
  | Err e => ([], Err e)
  | Ok ctx =>
      let d := dispatches i in
      ([d], match dispatch_result d with Ok r => Ok (r, ctx) | Err e => Err (Nh_Pool e) end)
  end.

Definition send_twice : list Dispatch * result (Answer * Ctx) NativeError :=
  match submit 0 with
  | (sent, Err (Nh_Pool (Pool_Closed | Pool_Request true))) =>
      let (again, r) := submit 1 in (sent ++ again, r)
  | (sent, Ok (response, ctx)) =>
      if refused response then
        let refusal := read_refusal response in
        match acquires 1%nat with
        | Ok ctx' =>
            let d := dispatches 1%nat in
            (sent ++ [d],
             match dispatch_result d with Ok r => Ok (r, ctx') | Err e => Err (Nh_Pool e) end)
        | Err e => (sent, match refusal with Some r => Ok (r, ctx) | None => Err e end)
        end
      else (sent, Ok (response, ctx))
  | (sent, Err e) => (sent, Err e)
  end.

Context `{Json} `{Base64} `{Signatures} `{Hash} `{HttpText} (boot_of : Ctx -> Receipt.VerifiedBoot).

(** A response with the context in its extensions. *)
Record NativeResponse := mkNativeResponse {
  nr_status : Z;
  nr_headers : HeaderMap;
  nr_body : Verified;
  nr_context : Ctx }.

(** [send]; [uri_length] is the length of the request's URI text. *)
Definition native_send (request : HttpRequest) (uri_length : Z)
    : list Dispatch * result NativeResponse NativeError :=
  match requested_metadata (rq_headers request) with
  | None => ([], Err Nh_Metadata)
  | Some requested =>
      match retained_size (zlen (rq_body request)) uri_length (rq_headers request) with
      | None => ([], Err Nh_Size)
      | Some _ =>
          let (sent, r) := send_twice in
          (sent,
           let? (response, ctx) := r in
           let? v := if requested
             then map_err Nh_Receipt
                    (verify (an_status response) (an_headers response) (an_body response) (boot_of ctx)
                       (sha256 (rq_body request)))
             else Ok (Unchecked (an_body response)) in
           Ok (mkNativeResponse (an_status response) (an_headers response) v ctx))
      end
  end.
End Send.
Arguments mkNativeResponse {Ctx}.
Arguments nr_status {Ctx}.
Arguments nr_headers {Ctx}.
Arguments nr_body {Ctx}.
Arguments nr_context {Ctx}.

(** ** Appraisal before each request *)

Section Prepare.
Context `{Json} `{Base64} `{Signatures} `{Hash} `{Encodings} `{Sigstore} `{X509} `{Unicode} `{Agreement}.

Record RequestContext := mkRequestContext { rx_snapshot : Snapshot; rx_session : VerifiedSession }.

(** What a preparation meets: the successive readings of the wall clock, whether a deadline
    expires while a reappraisal waits for the worker, and what a recovery meets. *)
Record Preparation := mkPreparation {
  pn_now : nat -> result Z AcquireError;
  pn_late : nat -> bool;
  pn_recovery_now : Z;
  pn_recovery_check_now : result Z AcquireError;
  pn_attempts : list Attempt;
  pn_cooldown : Z }.

(** [EvidenceClient::reappraise_session]. *)
Definition reappraise (late : bool) (snapshot : Snapshot) (sh : Shared) (session : VerifiedSession) (now : Z)
    : result VerifiedSession AcquireError :=
  reject late with Aq_Deadline;
  map_err Aq_Verification (Snapshot_reappraise_session snapshot sh session now).

(** The check a recovery must pass: the same session is accepted. *)
Definition reappraises (session : VerifiedSession) (now : result Z AcquireError) : Check :=
  fun snapshot sh =>
    let? time := map_err (fun _ => EvInvalid (ascii "local time")) now in
    let? _ := Snapshot_reappraise_session snapshot sh session time in Ok tt.

(** The new appraisal of the session: under the latest snapshot, or under a recovered one. *)
Definition appraise_again (e : Preparation) (deadline : Z) (latest : Snapshot) (session : VerifiedSession)
    (c : EvidenceClient) : EvidenceClient * result (Snapshot * VerifiedSession) NativeError :=
  match pn_now e 1%nat with
  | Err err => (c, Err (Nh_Evidence err))
  | Ok now =>
      match reappraise (pn_late e 0%nat) latest (shared_of (ec_verifier c)) session now with
      | Ok session => (c, Ok (latest, session))
      | Err (Aq_Verification verification) =>
          match EvidenceClient_recover (reappraises session (pn_now e 2%nat)) (pn_recovery_now e) deadline
                  (pn_recovery_check_now e) (pn_attempts e) (pn_cooldown e) c with
          | (c, Err acquisition) => (c, Err (Nh_Recovery verification acquisition))
          | (c, Ok snapshot) =>
              (c, match pn_now e 3%nat with
                  | Err err => Err (Nh_Evidence err)
                  | Ok now =>
                      match reappraise (pn_late e 1%nat) snapshot (shared_of (ec_verifier c)) session now with
                      | Ok session => Ok (snapshot, session)
                      | Err err => Err (Nh_Evidence err)
                      end
                  end)
          end
      | Err err => (c, Err (Nh_Evidence err))
      end
  end.

(** [prepare]; the retained context is behind a lock. *)
Definition prepare (e : Preparation) (now deadline : Z) (c : EvidenceClient) (retained : RequestContext)
    : EvidenceClient * RequestContext * result RequestContext NativeError :=
  if deadline <=? now then (c, retained, Err (Nh_Evidence Aq_Deadline))
  else
    match ec_current c with
    | None => (c, retained, Err (Nh_Evidence Aq_State))
    | Some latest =>
        let same := sn_identity latest =? sn_identity (rx_snapshot retained) in
        match (if same then pn_now e 0%nat else Ok 0) with
        | Err err => (c, retained, Err (Nh_Evidence err))
        | Ok t =>
            if same && match Snapshot_check_session latest (shared_of (ec_verifier c)) (rx_session retained) t with
                       | Ok _ => true | Err _ => false end
            then (c, retained, Ok retained)
            else
              match appraise_again e deadline latest (rx_session retained) c with
              | (c, Err err) => (c, retained, Err err)
              | (c, Ok (snapshot, session)) =>
                  let context := mkRequestContext snapshot session in
                  match pn_now e 4%nat with
                  | Err err => (c, retained, Err (Nh_Evidence err))
                  | Ok now =>
                      match Snapshot_check_session snapshot (shared_of (ec_verifier c)) session now with
                      | Err err => (c, retained, Err (Nh_Evidence (Aq_Verification err)))
                      | Ok _ => (c, context, Ok context)
                      end
                  end
              end
        end
    end.

(** [Client::acquire]: a connection of the pool with its retained context, appraised again. *)
Definition native_acquire (permit : result RequestContext PoolError) (e : Preparation) (now deadline : Z)
    (c : EvidenceClient) : EvidenceClient * result RequestContext NativeError :=
  match permit with
  | Err err => (c, Err (Nh_Pool err))
  | Ok retained => let '(c, _, out) := prepare e now deadline c retained in (c, out)
  end.
End Prepare.

(** * Theory

    What a native send guarantees: an answer is never bought with a second execution, reported
    states of the submission are honest, and every request has a checked appraisal. *)

(** An authenticated refusal: status 503, and the first value under [stogas-refused] is the
    text [?1]. Its code is the text [3f 31]. *)
Definition authentic_refusal (r : Answer) : Prop :=
  an_status r = 503 /\
  exists before extra after, an_headers r = before ++ (ascii "stogas-refused", [x3f; x31] :: extra) :: after /\
    Forall (fun e => e.1 <> ascii "stogas-refused") before.

(** The peer says it did not process the stream: its GOAWAY frame, or a reset with the code
    7 of HTTP/2 (REFUSED_STREAM). *)
Definition peer_unprocessed (cause : option H2Error) : Prop :=
  exists h, cause = Some h /\ is_remote h = true /\ (is_go_away h = true \/ reason h = Some 7).

(** The gateway has not processed a dispatched request: it was never submitted, the library
    returned it, the peer says so, or the gateway answered with a refusal. *)
Definition unprocessed (d : Dispatch) : Prop :=
  match d with
  | Dp_unready _ => True
  | Dp_transport Tr_late => False
  | Dp_transport (Tr_failed returned cause) => returned = true \/ peer_unprocessed cause
  | Dp_transport (Tr_response r) => authentic_refusal r
  end.

Lemma refused_authentic r : refused r = true <-> authentic_refusal r.
Proof.
  unfold refused, authentic_refusal, header_get. rewrite andb_true_iff, Z.eqb_eq, bool_decide_eq_true.
  change [x3f; x31] with (ascii "?1"). apply and_iff_compat_l.
  split.
  - destruct (header_all _ _) as [|v vs] eqn:E; [done|]. intros [= ->].
    apply header_all_spec in E as (before & after & ?). by exists before, vs, after.
  - intros (before & extra & after & Hh & Hb).
    assert (header_all (an_headers r) (ascii "stogas-refused") = ascii "?1" :: extra) as ->; [|done].
    apply header_all_spec. eauto.
Qed.

Lemma peer_unprocessed_cause cause : going_away cause || refused_stream cause = true <-> peer_unprocessed cause.
Proof.
  unfold going_away, refused_stream, refusal, peer_unprocessed.
  destruct cause as [h|]; [|split; [done|by intros (? & ? & _)]]. destruct (is_remote h) eqn:Er; cbn.
  - rewrite orb_true_iff, bool_decide_eq_true. change REFUSED_STREAM with 7. naive_solver.
  - split; [done|]. intros (h' & [= <-] & ? & _). congruence.
Qed.

#[export] Instance unprocessed_dec d : Decision (unprocessed d).
Proof.
  destruct d as [e|[|returned cause|r]]; cbn.
  - by left.
  - right. by intros [].
  - destruct (decide (returned || (going_away cause || refused_stream cause) = true)) as [E|E]; [left|right];
      rewrite <- peer_unprocessed_cause.
    + by apply orb_true_iff in E.
    + intros Hx. apply E. by apply orb_true_iff.
  - destruct (decide (refused r = true)) as [E|E]; [left|right]; by rewrite <- refused_authentic.
Defined.

(** Whether the gateway may have processed a dispatched request. *)
Definition may_run (d : Dispatch) : bool := negb (bool_decide (unprocessed d)).

(** A dispatch that is refused before submission reports it so. *)
Definition unready_ok (d : Dispatch) : Prop :=
  forall e, d = Dp_unready e -> e = Pool_Deadline \/ e = Pool_Closed.

(** The errors that say the request may have run. *)
Definition submitted_error (e : NativeError) : bool :=
  match e with
  | Nh_Receipt _ | Nh_Pool (Pool_ResponseDeadline | Pool_Request false) => true
  | _ => false
  end.

Section Sends.
Context {Ctx : Type} (acquires : nat -> result Ctx NativeError) (dispatches : nat -> Dispatch).
Context (Hunready : forall i, unready_ok (dispatches i)).

Lemma dispatch_error_runs i e :
  dispatch_result (dispatches i) = Err e -> may_run (dispatches i) = submitted_error (Nh_Pool e).
Proof.
  pose proof (Hunready i) as Hu. unfold dispatch_result, may_run, unready_ok in *.
  destruct (dispatches i) as [e0|[|returned cause|r]]; intros [= <-].
  - rewrite bool_decide_true by done. by destruct (Hu e0 eq_refl) as [-> | ->].
  - rewrite bool_decide_false; [done|]. by intros [].
  - cbn [submitted_error unprocessed]. rewrite <- orb_assoc.
    destruct (returned || (going_away cause || refused_stream cause)) eqn:E.
    + rewrite bool_decide_true; [done|]. rewrite <- peer_unprocessed_cause. by apply orb_true_iff in E.
    + rewrite bool_decide_false; [done|]. rewrite <- peer_unprocessed_cause. intros Hx. apply orb_true_iff in Hx. congruence.
Qed.

(** What the first submission leaves when it is repeated. *)
Lemma submit_spec i sent r :
  submit acquires dispatches i = (sent, r) ->
  (sent = [] /\ exists e, acquires i = Err e /\ r = Err e)
  \/ (sent = [dispatches i] /\ exists ctx, acquires i = Ok ctx
      /\ r = match dispatch_result (dispatches i) with Ok a => Ok (a, ctx) | Err e => Err (Nh_Pool e) end).
Proof. unfold submit. destruct (acquires i) as [ctx|e]; intros [= <- <-]; [right|left]; eauto. Qed.

Lemma response_runs i a : dispatch_result (dispatches i) = Ok a -> may_run (dispatches i) = negb (refused a).
Proof.
  unfold dispatch_result, may_run. destruct (dispatches i) as [|[| |r]]; try done. intros [= <-]. cbn [unprocessed].
  f_equal. apply eq_true_iff_eq. by rewrite bool_decide_eq_true, refused_authentic.
Qed.

(** An answer is that of the last dispatch. *)
Lemma send_twice_answer sent a ctx :
  send_twice acquires dispatches = (sent, Ok (a, ctx)) ->
  exists before answer, sent = before ++ [Dp_transport (Tr_response answer)]
    /\ an_status a = an_status answer /\ an_headers a = an_headers answer.
Proof.
  assert (Hres : forall i a, dispatch_result (dispatches i) = Ok a -> dispatches i = Dp_transport (Tr_response a)).
  { intros i a0. unfold dispatch_result. by destruct (dispatches i) as [|[| |]]; intros [= <-]. }
  assert (Hsub : forall i l a ctx, submit acquires dispatches i = (l, Ok (a, ctx)) ->
    l = [Dp_transport (Tr_response a)]).
  { intros i l a0 ctx0 [(_ & e & _ & ?)|(-> & ctx1 & _ & Hr)]%submit_spec; [done|].
    destruct (dispatch_result (dispatches i)) as [a1|] eqn:Hd; [|done]. injection Hr as -> _. by rewrite (Hres _ _ Hd). }
  unfold send_twice. destruct (submit acquires dispatches 0%nat) as [sent0 [[r0 ctx0]|e]] eqn:H0.
  - apply Hsub in H0 as ->. destruct (refused r0); [|intros [= <- <- <-]; by exists [], r0].
    destruct (acquires 1%nat) as [ctx1|].
    + destruct (dispatch_result (dispatches 1%nat)) as [a1|] eqn:Hd; [|done]. intros [= <- <- <-].
      exists [Dp_transport (Tr_response r0)], a1. by rewrite (Hres _ _ Hd).
    + unfold read_refusal. destruct (collect_body _ _ _ _); [|done]. intros [= <- <- <-]. by exists [], r0.
  - assert (Hsecond : (let (again, r1) := submit acquires dispatches 1%nat in (sent0 ++ again, r1)) = (sent, Ok (a, ctx)) ->
      exists before answer, sent = before ++ [Dp_transport (Tr_response answer)]
        /\ an_status a = an_status answer /\ an_headers a = an_headers answer).
    { destruct (submit acquires dispatches 1%nat) as [again r1] eqn:H1. intros [= <- ->]. apply Hsub in H1 as ->.
      by exists sent0, a. }
    destruct e as [[]| | | | |]; try done. by destruct not_sent.
Qed.

(** A request is submitted at most twice, again only when the first submission did not run,
    and a failure that does not say otherwise means that nothing ran. *)
Lemma send_twice_spec sent r :
  (forall i e, acquires i = Err e -> submitted_error e = false) ->
  send_twice acquires dispatches = (sent, r) ->
  (length sent <= 2)%nat
  /\ (forall d d' rest, sent = d :: d' :: rest -> may_run d = false)
  /\ (forall e, r = Err e -> submitted_error e = false -> Forall (fun d => may_run d = false) sent).
Proof.
  intros Hacq. unfold send_twice. destruct (submit acquires dispatches 0) as [sent0 r0] eqn:H0.
  apply submit_spec in H0 as [(-> & e & Ha & ->)|(-> & ctx & Ha & ->)].
  - (* no connection for the first submission *)
    destruct e as [[| | | | | |[]|]| | | | |]; try (intros [= <- <-]; split_and!; [simpl; lia|done|constructor]).
    all: destruct (submit acquires dispatches 1) as [sent1 r1] eqn:H1; intros [= <- <-];
      apply submit_spec in H1 as [(-> & e & Ha1 & ->)|(-> & ctx & Ha1 & ->)];
      (split_and!; [simpl; lia|done|]); intros e' He' Hs; try constructor; try done;
      destruct (dispatch_result (dispatches 1)) as [a|e1] eqn:Hd; simplify_eq;
      by rewrite (dispatch_error_runs _ _ Hd).
  - destruct (dispatch_result (dispatches 0)) as [a|e] eqn:Hd.
    + pose proof (response_runs _ _ Hd) as Hrun. destruct (refused a) eqn:Hr.
      * destruct (acquires 1%nat) as [ctx'|e] eqn:Ha1; intros [= <- <-].
        -- split_and!; [simpl; lia|by intros ? ? ? [= <- _ _]|]. intros e He Hs.
           destruct (dispatch_result (dispatches 1)) as [a1|e1] eqn:Hd1; simplify_eq.
           constructor; [done|]. constructor; [|done]. by rewrite (dispatch_error_runs _ _ Hd1).
        -- split_and!; [simpl; lia|done|]. intros e' He Hs. by constructor.
      * intros [= <- <-]. by split_and!; [simpl; lia| |].
    + pose proof (dispatch_error_runs _ _ Hd) as Hrun.
      destruct e as [| | | | | |[]|]; try (intros [= <- <-]; split_and!; [simpl; lia|done|];
        intros e' [= <-] Hs; constructor; [congruence|done]).
      all: destruct (submit acquires dispatches 1) as [sent1 r1] eqn:H1; intros [= <- <-];
        apply submit_spec in H1 as [(-> & e & Ha1 & ->)|(-> & ctx' & Ha1 & ->)];
        (split_and!; [simpl; lia|by intros ? ? ? [= <- _]|]); intros e' He' Hs;
        (constructor; [done|]); try done; constructor; [|done];
        destruct (dispatch_result (dispatches 1)) as [a|e1] eqn:Hd1; simplify_eq;
        by rewrite (dispatch_error_runs _ _ Hd1).
Qed.
End Sends.

Lemma native_send_spec `{Json} `{Base64} `{Signatures} `{Hash} `{HttpText} {Ctx : Type}
    (acquires : nat -> result Ctx NativeError) dispatches boot_of request uri_length sent r :
  (forall i, unready_ok (dispatches i)) ->
  (forall i e, acquires i = Err e -> submitted_error e = false) ->
  native_send acquires dispatches boot_of request uri_length = (sent, r) ->
  (length sent <= 2)%nat
  /\ (length (filter (fun d => may_run d = true) sent) <= 1)%nat
  /\ (forall e, r = Err e -> submitted_error e = false -> Forall (fun d => may_run d = false) sent)
  /\ (forall response, r = Ok response -> exists before answer,
        sent = before ++ [Dp_transport (Tr_response answer)]
        /\ nr_status response = an_status answer /\ nr_headers response = an_headers answer).
Proof.
  intros Hu Ha. unfold native_send. destruct (requested_metadata _) as [requested|]; cycle 1.
  { intros [= <- <-]. split_and!; [simpl; lia|simpl; lia|constructor|done]. }
  destruct (retained_size _ _ _); cycle 1. { intros [= <- <-]. split_and!; [simpl; lia|simpl; lia|constructor|done]. }
  destruct (send_twice acquires dispatches) as [sent0 r0] eqn:Hs.
  destruct (send_twice_spec _ _ Hu _ _ Ha Hs) as (Hlen & Hfirst & Herr). intros [= <- <-]. split_and!; [done| | |].
  - destruct sent0 as [|d [|d' rest]]; [simpl; lia| |].
    + rewrite filter_cons. case_decide; simpl; lia.
    + rewrite filter_cons, decide_False by (rewrite (Hfirst d d' rest); done).
      destruct rest; [|simpl in Hlen; lia]. rewrite filter_cons. case_decide; simpl; lia.
  - intros e He Hse. destruct r0 as [[response ctx]|e0]; [|by apply (Herr e0); [|injection He as ->]].
    simpl in He. destruct requested; [|done]. destruct (verify _ _ _ _ _); [done|]. injection He as <-. done.
  - intros response Hx. pass Hx as [a ctx] by Hr. subst r0. pass Hx as v by Hv. injection Hx as <-.
    by apply (send_twice_answer acquires dispatches sent0 a ctx).
Qed.

(** C15. A native request is executed at most once, whatever the connections do: it is
    dispatched at most twice, at most one of the dispatches may have been processed at the
    gateway, an error that does not say that execution is unknown means that none was, and an
    answer has the status and headers of the last dispatch's response. A dispatch counts as
    unprocessed only when it was not submitted, when the library returned it, when the peer
    sent GOAWAY or reset the stream with REFUSED_STREAM, or when the gateway's answer is a 503
    that carries the refusal mark. *)
Theorem native_send_once `{Json} `{Base64} `{Signatures} `{Hash} `{HttpText} {Ctx : Type}
    (acquires : nat -> result Ctx NativeError) dispatches boot_of request uri_length sent r :
  (forall i, unready_ok (dispatches i)) ->
  (forall i e, acquires i = Err e -> submitted_error e = false) ->
  native_send acquires dispatches boot_of request uri_length = (sent, r) ->
  (length sent <= 2)%nat
  /\ (length (filter (fun d => may_run d = true) sent) <= 1)%nat
  /\ (forall e, r = Err e -> submitted_error e = false -> Forall (fun d => may_run d = false) sent)
  /\ (forall response, r = Ok response -> exists before answer,
        sent = before ++ [Dp_transport (Tr_response answer)]
        /\ nr_status response = an_status answer /\ nr_headers response = an_headers answer).
Proof. apply native_send_spec. Qed.

(** ** Appraisal *)

Section Prepared.
Context `{Json} `{Base64} `{Signatures} `{Hash} `{Encodings} `{Sigstore} `{X509} `{Unicode} `{Agreement}.

Lemma reappraised_artifacts snapshot sh session now session' :
  Snapshot_reappraise_session snapshot sh session now = Ok session' ->
  vx_artifacts session' = vx_artifacts session /\ vx_snapshot_identity session' = sn_identity snapshot.
Proof.
  unfold Snapshot_reappraise_session, Snapshot_appraise_session. intros Hx.
  pass Hx as boot by Hb. pass Hx by Hl. pass Hx as live by Hv. pass Hx by Hs. by injection Hx as <-.
Qed.

Lemma appraise_again_ok e deadline latest session c c' snapshot session' :
  client_ok c -> ec_current c = Some latest ->
  appraise_again e deadline latest session c = (c', Ok (snapshot, session')) ->
  ec_current c' = Some snapshot /\ vx_artifacts session' = vx_artifacts session
  /\ exists t, Snapshot_reappraise_session snapshot (shared_of (ec_verifier c')) session t = Ok session'.
Proof.
  intros Hok Hc. unfold appraise_again. destruct (pn_now e 1%nat) as [t|]; [|done].
  unfold reappraise. destruct (pn_late e 0%nat); [done|].
  destruct (Snapshot_reappraise_session latest _ session t) as [s0|v] eqn:Hr; cbn [map_err].
  - intros [= <- <- <-]. split_and!; [done|by eapply reappraised_artifacts|by exists t].
  - destruct (EvidenceClient_recover _ _ _ _ _ _ _) as [c1 [snap|]] eqn:Hrec; [|done].
    destruct (acquire_ok _ _ _ _ _ _ _ _ _ Hok Hrec) as (_ & _ & Hs). destruct (Hs snap eq_refl) as [Hcur _].
    destruct (pn_now e 3%nat) as [t3|]; [|done]. destruct (pn_late e 1%nat); [done|].
    destruct (Snapshot_reappraise_session snap _ session t3) as [s1|] eqn:Hr1; cbn [map_err]; [|done].
    intros [= <- <- <-]. split_and!; [done|by eapply reappraised_artifacts|by exists t3].
Qed.

Lemma appraise_again_client_ok e deadline latest session c c' r :
  client_ok c -> appraise_again e deadline latest session c = (c', r) -> client_ok c'.
Proof.
  intros Hok. unfold appraise_again. destruct (pn_now e 1%nat) as [t|]; [|by intros [= <- _]].
  destruct (reappraise _ latest _ session t) as [s|[]]; try by intros [= <- _].
  destruct (EvidenceClient_recover _ _ _ _ _ _ _) as [c1 r1] eqn:Hrec.
  destruct (acquire_ok _ _ _ _ _ _ _ _ _ Hok Hrec) as [Hok1 _]. by destruct r1; intros [= <- _].
Qed.

(** A preparation keeps the client's evidence sound, and the retained context is the old one
    or one for the same evidence. *)
Lemma prepare_frame e now deadline c retained c' retained' r :
  client_ok c -> prepare e now deadline c retained = (c', retained', r) ->
  client_ok c' /\ vx_artifacts (rx_session retained') = vx_artifacts (rx_session retained).
Proof.
  intros Hok. unfold prepare. destruct (deadline <=? now); [by intros [= <- <- _]|].
  destruct (ec_current c) as [latest|] eqn:Hc; [|by intros [= <- <- _]].
  destruct (if _ =? _ then _ else _) as [t|]; [|by intros [= <- <- _]].
  destruct (_ && _); [by intros [= <- <- _]|].
  destruct (appraise_again e deadline latest (rx_session retained) c) as [c1 r1] eqn:Ha.
  pose proof (appraise_again_client_ok _ _ _ _ _ _ _ Hok Ha) as Hok1.
  destruct r1 as [[snapshot session]|]; [|by intros [= <- <- _]].
  destruct (appraise_again_ok _ _ _ _ _ _ _ _ Hok Hc Ha) as (_ & Hart & _).
  destruct (pn_now e 4%nat) as [t4|]; [|by intros [= <- <- _]].
  destruct (Snapshot_check_session snapshot _ session t4); by intros [= <- <- _].
Qed.

(** What a prepared request's appraisal shows. *)
Definition appraised (c : EvidenceClient) (context : RequestContext) : Prop :=
  exists latest t, ec_current c = Some latest
    /\ sn_identity latest = sn_identity (rx_snapshot context)
    /\ session_current latest (shared_of (ec_verifier c)) (rx_session context) t.

(** How a context is fresh when [c] is the client's evidence before the preparation and [c']
    after it. Either the snapshot that [c] publishes is the one of the retained context, whose
    session is still good under it; or the retained evidence was appraised again, under the
    snapshot that [c] publishes or one that a recovery then published, and the new session is
    good under that one. The times are those read by this preparation. *)
Definition freshly_appraised (e : Preparation) (deadline : Z) (c c' : EvidenceClient) (retained context : RequestContext)
  : Prop :=
  exists latest, ec_current c = Some latest /\
  ((c' = c /\ context = retained /\ sn_identity latest = sn_identity (rx_snapshot context)
     /\ exists t, pn_now e 0%nat = Ok t /\ session_current latest (shared_of (ec_verifier c)) (rx_session context) t)
   \/ (ec_current c' = Some (rx_snapshot context)
       /\ (exists t, session_appraised (rx_snapshot context) (shared_of (ec_verifier c')) (vx_artifacts (rx_session retained))
                       t (rx_session context)
             /\ (c' = c /\ pn_now e 1%nat = Ok t
                 \/ pn_now e 3%nat = Ok t /\ exists check, EvidenceClient_recover check (pn_recovery_now e) deadline
                      (pn_recovery_check_now e) (pn_attempts e) (pn_cooldown e) c = (c', Ok (rx_snapshot context))))
       /\ exists t, pn_now e 4%nat = Ok t
            /\ session_current (rx_snapshot context) (shared_of (ec_verifier c')) (rx_session context) t)).

Lemma appraise_again_fresh e deadline latest session c c' snapshot session' :
  appraise_again e deadline latest session c = (c', Ok (snapshot, session')) ->
  exists t, session_appraised snapshot (shared_of (ec_verifier c')) (vx_artifacts session) t session'
    /\ (c' = c /\ pn_now e 1%nat = Ok t
        \/ pn_now e 3%nat = Ok t /\ exists check, EvidenceClient_recover check (pn_recovery_now e) deadline
             (pn_recovery_check_now e) (pn_attempts e) (pn_cooldown e) c = (c', Ok snapshot)).
Proof.
  unfold appraise_again. destruct (pn_now e 1%nat) as [t|] eqn:Ht; [|done].
  unfold reappraise. destruct (pn_late e 0%nat); [done|].
  destruct (Snapshot_reappraise_session latest _ session t) as [s0|v] eqn:Hr; cbn [map_err].
  - intros [= <- <- <-]. exists t. split; [by apply appraise_session_inv|by left].
  - destruct (EvidenceClient_recover _ _ _ _ _ _ _) as [c1 [snap|]] eqn:Hrec; [|done].
    destruct (pn_now e 3%nat) as [t3|] eqn:Ht3; [|done]. destruct (pn_late e 1%nat); [done|].
    destruct (Snapshot_reappraise_session snap _ session t3) as [s1|] eqn:Hr1; cbn [map_err]; [|done].
    intros [= <- <- <-]. exists t3. split; [by apply appraise_session_inv|]. right. split; [done|]. by eexists.
Qed.

Lemma prepare_fresh e now deadline c retained c' retained' context :
  client_ok c -> prepare e now deadline c retained = (c', retained', Ok context) ->
  retained' = context /\ vx_artifacts (rx_session context) = vx_artifacts (rx_session retained)
  /\ freshly_appraised e deadline c c' retained context.
Proof.
  intros Hok. unfold prepare. destruct (deadline <=? now); [done|].
  destruct (ec_current c) as [latest|] eqn:Hc; [|done].
  destruct (sn_identity latest =? sn_identity (rx_snapshot retained)) eqn:Hid; zbool.
  - destruct (pn_now e 0%nat) as [t|] eqn:Ht; [|done]. cbn [andb].
    destruct (Snapshot_check_session latest _ _ t) as [validity|] eqn:Hv.
    { intros [= <- <- <-]. split_and!; [done|done|]. exists latest. split; [done|]. left.
      split_and!; [done|done|done|]. exists t. split; [done|]. by apply session_recheck_sound in Hv as [Hv _]. }
    destruct (appraise_again e deadline latest (rx_session retained) c) as [c1 [[snapshot session]|]] eqn:Ha; [|done].
    destruct (appraise_again_ok _ _ _ _ _ _ _ _ Hok Hc Ha) as (Hcur & Hart & _). apply appraise_again_fresh in Ha.
    destruct (pn_now e 4%nat) as [t4|] eqn:Ht4; [|done].
    destruct (Snapshot_check_session snapshot _ session t4) as [validity|] eqn:Hv4; [|done].
    intros [= <- <- <-]. split_and!; [done|done|]. exists latest. split; [done|]. right. cbn.
    split_and!; [done|done|]. exists t4. split; [done|]. by apply session_recheck_sound in Hv4 as [Hv4 _].
  - cbn [andb]. destruct (appraise_again e deadline latest (rx_session retained) c) as [c1 [[snapshot session]|]] eqn:Ha; [|done].
    destruct (appraise_again_ok _ _ _ _ _ _ _ _ Hok Hc Ha) as (Hcur & Hart & _). apply appraise_again_fresh in Ha.
    destruct (pn_now e 4%nat) as [t4|] eqn:Ht4; [|done].
    destruct (Snapshot_check_session snapshot _ session t4) as [validity|] eqn:Hv4; [|done].
    intros [= <- <- <-]. split_and!; [done|done|]. exists latest. split; [done|]. right. cbn.
    split_and!; [done|done|]. exists t4. split; [done|]. by apply session_recheck_sound in Hv4 as [Hv4 _].
Qed.

(** A fresh context belongs to the snapshot the client publishes after the preparation. *)
Lemma fresh_appraised e deadline c c' retained context :
  freshly_appraised e deadline c c' retained context -> appraised c' context.
Proof.
  intros (latest & Hc & [(-> & -> & Hid & t & _ & Hs)|(Hcur & _ & t & _ & Hs)]).
  - by exists latest, t.
  - by exists (rx_snapshot context), t.
Qed.

Lemma prepare_spec e now deadline c retained c' retained' context :
  client_ok c -> prepare e now deadline c retained = (c', retained', Ok context) ->
  retained' = context
  /\ vx_artifacts (rx_session context) = vx_artifacts (rx_session retained) /\ appraised c' context.
Proof.
  intros Hok Hp. destruct (prepare_fresh _ _ _ _ _ _ _ _ Hok Hp) as (? & ? & ?). split_and!; [done|done|].
  by eapply fresh_appraised.
Qed.

(** No request goes out on a stale appraisal: a context that [prepare] returns is for the
    same evidence that set up the connection, was found good under the snapshot the client
    publishes, or under one it recovered for this request, at the times read during the
    preparation, and it is also the context the connection keeps. *)
Theorem prepared_context_current e now deadline c retained c' retained' context :
  client_ok c -> prepare e now deadline c retained = (c', retained', Ok context) ->
  retained' = context
  /\ vx_artifacts (rx_session context) = vx_artifacts (rx_session retained)
  /\ freshly_appraised e deadline c c' retained context.
Proof. apply prepare_fresh. Qed.

Lemma native_acquire_spec permit e now deadline c c' context :
  client_ok c -> native_acquire permit e now deadline c = (c', Ok context) ->
  exists retained, permit = Ok retained /\ client_ok c'
    /\ vx_artifacts (rx_session context) = vx_artifacts (rx_session retained) /\ appraised c' context.
Proof.
  intros Hok. unfold native_acquire. destruct permit as [retained|]; [|done].
  destruct (prepare e now deadline c retained) as [[c1 r1] out] eqn:Hp. intros [= -> ->].
  exists retained. destruct (prepare_frame _ _ _ _ _ _ _ _ Hok Hp) as [Hok' _].
  by destruct (prepare_spec _ _ _ _ _ _ _ _ Hok Hp) as (_ & Ha & Hv).
Qed.
End Prepared.

Lemma send_twice_context {Ctx : Type} (acquires : nat -> result Ctx NativeError) dispatches sent r ctx :
  send_twice acquires dispatches = (sent, Ok (r, ctx)) -> exists i, acquires i = Ok ctx.
Proof.
  assert (Hsub : forall i l r ctx, submit acquires dispatches i = (l, Ok (r, ctx)) -> acquires i = Ok ctx).
  { intros i l r' ctx'. unfold submit. destruct (acquires i) as [c|]; [|done].
    destruct (dispatch_result (dispatches i)); [by intros [= _ _ <-]|done]. }
  unfold send_twice. destruct (submit acquires dispatches 0%nat) as [sent0 [[r0 ctx0]|e]] eqn:H0.
  - apply Hsub in H0. destruct (refused r0); [|intros [= _ _ <-]; by exists 0%nat].
    destruct (acquires 1%nat) as [ctx1|] eqn:H1.
    + destruct (dispatch_result (dispatches 1%nat)); [intros [= _ _ <-]; by exists 1%nat|done].
    + destruct (read_refusal r0); [intros [= _ _ <-]; by exists 0%nat|done].
  - assert (Hsecond : (let (again, r1) := submit acquires dispatches 1%nat in (sent0 ++ again, r1)) = (sent, Ok (r, ctx)) ->
      exists i, acquires i = Ok ctx).
    { destruct (submit acquires dispatches 1%nat) as [again r1] eqn:H1. intros [= _ ->]. exists 1%nat. by eapply Hsub. }
    destruct e as [[]| | | | |]; try done. by destruct not_sent.
Qed.

(** No native request is answered without an appraisal, whatever the pool and the peer do: when
    each acquisition is a connection prepared by a client with sound evidence, the context of a
    response was appraised under the snapshot that was current when its request was prepared,
    and it is for the evidence of the connection that carried it. *)
Theorem native_send_attested `{Json} `{Base64} `{Signatures} `{Hash} `{Encodings} `{Sigstore} `{X509} `{Unicode} `{Agreement} `{HttpText}
    acquires permits dispatches boot_of request uri_length sent r :
  (forall i ctx, acquires i = Ok ctx -> exists e now deadline c c',
     client_ok c /\ native_acquire (permits i) e now deadline c = (c', Ok ctx)) ->
  native_send acquires dispatches boot_of request uri_length = (sent, Ok r) ->
  exists c i retained, client_ok c /\ appraised c (nr_context r) /\ permits i = Ok retained
    /\ vx_artifacts (rx_session (nr_context r)) = vx_artifacts (rx_session retained).
Proof.
  intros Ha. unfold native_send. destruct (requested_metadata _) as [requested|]; [|done].
  destruct (retained_size _ _ _); [|done]. destruct (send_twice acquires dispatches) as [sent0 r0] eqn:Hs.
  intros [= _ Hx]. pass Hx as [answer ctx] by Hr. pass Hx as v by Hv. injection Hx as <-. subst r0.
  destruct (send_twice_context _ _ _ _ _ Hs) as [i (e & now & deadline & c & c' & Hok & Hacq)%Ha].
  destruct (native_acquire_spec _ _ _ _ _ _ _ Hok Hacq) as (retained & Hp & Hok' & Hart & Happ). by exists c', i, retained.
Qed.
