(* ===== verification/NativeTls.v ===== *)
(** Attested TLS connections ([sdk/src/native_tls.rs], [sdk/src/native_tls/traffic.rs] and the
    connector of [sdk/src/native_http.rs]): a fresh challenge per connection, a certificate
    verifier that accepts only evidence for it, the required handshake profile, one recovery of
    evidence with one redial, and key updates that ride on normal writes.

    The TLS library is a parameter of each handshake: the certificates it asks the verifier
    about, and what was negotiated when it completes. *)

From S2P Require Import Prelude Primitives BTree Json Record Ratchet Window Session Signing Attestation Setup Receipt Provisioning.
From S2P Require Import Documents Deserialize Approvals Snp Releases Amd Collateral Certificates Snapshot Boot EvidenceClient.
From S2P Require Import Http2Pool HttpTypes EncryptedHttp ReceiptHttp NativeHttp.

Open Scope Z_scope.

Record VerificationFailure := mkVerificationFailure {
  vf_reason : EvidenceError;
  vf_certificate : option (bytes * bytes) }.

Inductive NativeTlsError :=
| Nt_Deadline
| Nt_Entropy
| Nt_Verification (failure : VerificationFailure)
| Nt_Evidence (e : AcquireError)
| Nt_Recovery (verification : VerificationFailure) (acquisition : AcquireError)
| Nt_Tls
| Nt_Configuration
| Nt_Profile
| Nt_State.

Definition NativeTlsError_code (e : NativeTlsError) : bytes :=
  match e with
  | Nt_Verification failure | Nt_Recovery failure _ => code (vf_reason failure)
  | Nt_Evidence e => AcquireError_code e
  | Nt_Profile => ascii "unsupported_profile"
  | Nt_Deadline => ascii "setup_deadline"
  | Nt_Tls => ascii "tls_failed"
  | _ => ascii "verification_unavailable"
  end.

(** [i64::try_from(seconds)] and [checked_mul(1000)]. *)
Definition checked_ms (seconds : Z) : option Z :=
  if seconds <=? i64_max then if seconds * 1000 <=? i64_max then Some (seconds * 1000) else None else None.

(** What a completed handshake negotiated. *)
Inductive CipherSuite := TLS13_AES_256_GCM_SHA384 | TLS13_CHACHA20_POLY1305_SHA256 | OtherSuite.
Inductive NamedGroup := X25519MLKEM768 | OtherGroup.
Record Negotiated := mkNegotiated {
  ng_tls13 : bool;
  ng_suite : option CipherSuite;
  ng_group : option NamedGroup;
  ng_alpn : option bytes }.

Definition required_profile (n : Negotiated) : bool :=
  ng_tls13 n
  && match ng_suite n with
     | Some (TLS13_AES_256_GCM_SHA384 | TLS13_CHACHA20_POLY1305_SHA256) => true
     | _ => false
     end
  && match ng_group n with Some X25519MLKEM768 => true | _ => false end
  && (bool_decide (ng_alpn n = Some (ascii "h2")) || bool_decide (ng_alpn n = Some (ascii "http/1.1"))).

(** A question to the verifier: the certificate, its intermediates and the time in seconds. *)
Record CertificateQuery := mkCertificateQuery {
  cq_certificate : bytes;
  cq_intermediates : list bytes;
  cq_now_seconds : Z }.

Inductive HandshakeEnd := Hs_late | Hs_failed | Hs_completed (negotiated : Negotiated).

Section NativeTls.
Context `{Json} `{Base64} `{Signatures} `{Hash} `{Encodings} `{Sigstore} `{X509} `{Unicode} `{Agreement} `{Random}.

(** [CertificateVerifier::verify_server_cert]: the stored result and whether the certificate is
    accepted. *)
Definition verify_server_cert (snapshot : Snapshot) (sh : Shared) (challenge : bytes) (q : CertificateQuery)
    (stored : option (result VerifiedSession VerificationFailure))
    : option (result VerifiedSession VerificationFailure) * bool :=
  match cq_intermediates q, checked_ms (cq_now_seconds q) with
  | [], Some now_ms =>
      match Snapshot_verify_native_certificate snapshot sh (cq_certificate q) challenge now_ms with
      | Ok session => (Some (Ok session), true)
      | Err reason => (Some (Err (mkVerificationFailure reason (Some (cq_certificate q, challenge)))), false)
      end
  | _, _ => (stored, false)
  end.

(** The questions of one handshake; the library ends at the first refusal. *)
Fixpoint ask_verifier (snapshot : Snapshot) (sh : Shared) (challenge : bytes) (queries : list CertificateQuery)
    (stored : option (result VerifiedSession VerificationFailure))
    : option (result VerifiedSession VerificationFailure) * bool :=
  match queries with
  | [] => (stored, true)
  | q :: queries =>
      match verify_server_cert snapshot sh challenge q stored with
      | (stored, true) => ask_verifier snapshot sh challenge queries stored
      | (stored, false) => (stored, false)
      end
  end.

(** What one handshake meets. A refused certificate fails the handshake. *)
Record HandshakeRun := mkHandshakeRun {
  hr_queries : list CertificateQuery;
  hr_end : HandshakeEnd;
  hr_now : result Z AcquireError }.

(** The protocols offered: the challenge first. *)
Definition alpn_protocols (challenge : bytes) : list bytes :=
  [ascii "stogas-attest-v1." ++ base64url_encode challenge; ascii "h2"; ascii "http/1.1"].

(** [Handshake::new]: current keys and a fresh challenge. *)
Definition Handshake_new (snapshot : Snapshot) (sh : Shared) (g : rng) : rng * result bytes NativeTlsError :=
  match Snapshot_require_current_keys snapshot (sh_key_state sh) with
  | Err reason => (g, Err (Nt_Verification (mkVerificationFailure reason None)))
  | Ok _ =>
      match rng_fill g 32 with
      | (g, None) => (g, Err Nt_Entropy)
      | (g, Some challenge) => (g, Ok challenge)
      end
  end.

Record TlsConnection := mkTlsConnection {
  tc_session : VerifiedSession;
  tc_snapshot : Snapshot;
  tc_negotiated : Negotiated }.

(** [connect], after the deadline check. *)
Definition tls_connect (e : HandshakeRun) (snapshot : Snapshot) (sh : Shared) (g : rng)
    : rng * result TlsConnection NativeTlsError :=
  match Handshake_new snapshot sh g with
  | (g, Err err) => (g, Err err)
  | (g, Ok challenge) =>
      let (appraised, accepted) := ask_verifier snapshot sh challenge (hr_queries e) None in
      (g,
       match hr_end e with
       | Hs_late => Err Nt_Deadline
       | ending =>
           match appraised with
           | Some (Err failure) => Err (Nt_Verification failure)
           | _ =>
               match ending with
               | Hs_completed negotiated =>
                   if negb accepted then Err Nt_Tls
                   else if negb (required_profile negotiated) then Err Nt_Profile
                   else
                     match appraised with
                     | Some (Ok session) =>
                         let? now := map_err Nt_Evidence (hr_now e) in
                         let? _ := map_err (fun reason => Nt_Verification (mkVerificationFailure reason None))
                           (Snapshot_check_session snapshot sh session now) in
                         Ok (mkTlsConnection session snapshot negotiated)
                     | _ => Err Nt_State
                     end
               | _ => Err Nt_Tls
               end
           end
       end)
  end.

(** [VerificationFailure::check]. *)
Definition VerificationFailure_check (f : VerificationFailure) (now_seconds : Z) : Check :=
  fun snapshot sh =>
    let? _ := Snapshot_require_current_keys snapshot (sh_key_state sh) in
    match vf_certificate f with
    | None => Ok tt
    | Some (certificate, challenge) =>
        let? now := ok_or (checked_ms now_seconds) (EvAttestation (ascii "invalid local time")) in
        let? _ := Snapshot_verify_native_certificate snapshot sh certificate challenge now in Ok tt
    end.

(** A dial opens a byte stream, fails or runs into the deadline. *)
Inductive Dial := Dial_late | Dial_failed | Dial_open (late : bool) (e : HandshakeRun).

Definition dial_and_connect (d : Dial) (snapshot : Snapshot) (sh : Shared) (g : rng)
    : rng * result TlsConnection NativeTlsError :=
  match d with
  | Dial_late => (g, Err Nt_Deadline)
  | Dial_failed => (g, Err Nt_Tls)
  | Dial_open late e => if late then (g, Err Nt_Deadline) else tls_connect e snapshot sh g
  end.

Record TlsRun := mkTlsRun {
  ts_initial : list Attempt;
  ts_initial_now : Z;
  ts_dials : nat -> Dial;
  ts_check_seconds : Z;
  ts_recovery_now : Z;
  ts_check_now : result Z AcquireError;
  ts_attempts : list Attempt;
  ts_cooldown : Z }.

(** [connect_with_evidence], with the number of dials. *)
Definition connect_with_evidence (e : TlsRun) (now deadline : Z) (c : EvidenceClient) (g : rng)
    : EvidenceClient * rng * nat * result TlsConnection NativeTlsError :=
  if deadline <=? now then (c, g, 0%nat, Err Nt_Deadline)
  else
    let (c, initial) := match ec_current c with
      | Some s => (c, Ok s)
      | None => EvidenceClient_recover (fun _ _ => Ok tt) (ts_initial_now e) deadline (ts_check_now e)
                  (ts_initial e) (ts_cooldown e) c
      end in
    match initial with
    | Err err => (c, g, 0%nat, Err (Nt_Evidence err))
    | Ok snapshot =>
        match dial_and_connect (ts_dials e 0%nat) snapshot (shared_of (ec_verifier c)) g with
        | (g, Err (Nt_Verification failure)) =>
            match EvidenceClient_recover (VerificationFailure_check failure (ts_check_seconds e)) (ts_recovery_now e)
                    deadline (ts_check_now e) (ts_attempts e) (ts_cooldown e) c with
            | (c, Err acquisition) => (c, g, 1%nat, Err (Nt_Recovery failure acquisition))
            | (c, Ok snapshot) =>
                let (g, out) := dial_and_connect (ts_dials e 1%nat) snapshot (shared_of (ec_verifier c)) g in
                (c, g, 2%nat, out)
            end
        | (g, out) => (c, g, 1%nat, out)
        end
    end.

(** The connector of the native client's pool: HTTP/2 only. *)
Definition pool_connect (e : TlsRun) (now deadline : Z) (c : EvidenceClient) (g : rng)
    : EvidenceClient * rng * result RequestContext PoolError :=
  let '(c, g, _, out) := connect_with_evidence e now deadline c g in
  (c, g,
   match out with
   | Err err => Err (Pool_Connect (Some (NativeTlsError_code err)))
   | Ok connection =>
       reject negb (bool_decide (ng_alpn (tc_negotiated connection) = Some (ascii "h2")))
         with Pool_Connect (Some (NativeTlsError_code Nt_Profile));
       Ok (mkRequestContext (tc_snapshot connection) (tc_session connection))
   end).
End NativeTls.

(** ** Traffic keys *)

(** Times of the monotonic clock are in milliseconds. *)
Definition KEY_UPDATE_INTERVAL : Z := 60000.

Record TrafficStream := mkTrafficStream {
  tf_updated_at : Z;
  tf_read : bool;
  tf_written : bool }.

Definition TrafficStream_new (now : Z) : TrafficStream := mkTrafficStream now false false.

(** [before_write]: two readings of the clock, and whether the library can update its keys. The
    flag tells whether it did. *)
Definition before_write (elapsed_at now : Z) (refreshed : bool) (s : TrafficStream)
    : TrafficStream * bool * result unit unit :=
  if tf_read s && tf_written s && (KEY_UPDATE_INTERVAL <=? elapsed_at - tf_updated_at s) then
    if refreshed then (mkTrafficStream now false false, true, Ok tt) else (s, false, Err tt)
  else (s, false, Ok tt).

(** What the stream beneath a write or a read returns; [None] is pending. *)
Definition wrote (result : option (result Z unit)) (s : TrafficStream) : TrafficStream :=
  match result with
  | Some (Ok n) => if 0 <? n then mkTrafficStream (tf_updated_at s) (tf_read s) true else s
  | _ => s
  end.

Definition poll_read (received : Z) (s : TrafficStream) : TrafficStream :=
  if 0 <? received then mkTrafficStream (tf_updated_at s) true (tf_written s) else s.

(** [poll_write] and [poll_write_vectored]; [empty] tells that no buffer holds a byte. *)
Definition poll_write (empty : bool) (elapsed_at now : Z) (refreshed : bool) (outcome : option (result Z unit))
    (s : TrafficStream) : TrafficStream * bool * option (result Z unit) :=
  if empty then (wrote outcome s, false, outcome)
  else
    match before_write elapsed_at now refreshed s with
    | (s, updated, Err _) => (s, updated, Some (Err tt))
    | (s, updated, Ok _) => (wrote outcome s, updated, outcome)
    end.

(** * Theory

    A TLS connection exists only with live evidence for its own challenge, and its key updates
    stay apart and follow traffic in both directions. *)

Section Connections.
Context `{Json} `{Base64} `{Signatures} `{Hash} `{Encodings} `{Sigstore} `{X509} `{Unicode} `{Agreement} `{Random}.

(** Every question is about a certificate alone, and the stored session answers the last. *)
Lemma ask_verifier_accepts snapshot sh challenge queries stored session :
  ask_verifier snapshot sh challenge queries stored = (Some (Ok session), true) ->
  Forall (fun q => cq_intermediates q = []) queries /\
  (queries = [] /\ stored = Some (Ok session) \/ exists before q, queries = before ++ [q]
    /\ Snapshot_verify_native_certificate snapshot sh (cq_certificate q) challenge (cq_now_seconds q * 1000) = Ok session).
Proof.
  revert stored. induction queries as [|q queries IH]; intros stored; simpl; [intros [= ->]; split; [constructor|by left]|].
  destruct (verify_server_cert snapshot sh challenge q stored) as [s1 []] eqn:Hv; [|done]. intros Ha.
  unfold verify_server_cert in Hv. destruct (cq_intermediates q) eqn:Hi; [|done].
  destruct (checked_ms _) as [t|] eqn:Ht; [|done].
  assert (t = cq_now_seconds q * 1000) as -> by (unfold checked_ms in Ht; repeat case_match; by simplify_eq).
  destruct (Snapshot_verify_native_certificate _ _ _ _ _) as [s|] eqn:Hs; [|done]. injection Hv as <-.
  destruct (IH _ Ha) as [Hf [[-> [= ->]]|(before & q' & -> & Hrest)]]; (split; [by constructor|]); right.
  - by exists [], q.
  - by exists (q :: before), q'.
Qed.

(** The required profile: TLS 1.3, one of two cipher suites, the hybrid group, and HTTP. *)
Definition profile_ok (n : Negotiated) : Prop :=
  ng_tls13 n = true
  /\ (ng_suite n = Some TLS13_AES_256_GCM_SHA384 \/ ng_suite n = Some TLS13_CHACHA20_POLY1305_SHA256)
  /\ ng_group n = Some X25519MLKEM768
  /\ (ng_alpn n = Some (ascii "h2") \/ ng_alpn n = Some (ascii "http/1.1")).

Lemma required_profile_ok n : required_profile n = true -> profile_ok n.
Proof.
  unfold required_profile, profile_ok. destruct n as [tls suite group alpn]; simpl. intros Hp.
  apply andb_true_iff in Hp as [[[-> Hs]%andb_true_iff Hg]%andb_true_iff Ha]. apply orb_true_iff in Ha. zbool.
  split_and!; [done|by destruct suite as [[]|]; auto|by destruct group as [[]|]|destruct Ha; zbool; auto].
Qed.

(** What a connection shows: the handshake completed with the required profile; its
    certificate, about which the library asked alone, carries evidence for the challenge
    drawn for this handshake at the time of the question; and at the time read after the
    handshake the session is still good under the same snapshot. *)
Record tls_attested (snapshot : Snapshot) (sh : Shared) (g g' : rng) (e : HandshakeRun) (conn : TlsConnection) : Prop :=
  mkTlsAttested {
    ta_snapshot : tc_snapshot conn = snapshot;
    ta_completed : hr_end e = Hs_completed (tc_negotiated conn);
    ta_profile : profile_ok (tc_negotiated conn);
    ta_keys : keys_current (va_keys (sn_approvals snapshot)) (sh_key_state sh);
    ta_alone : Forall (fun q => cq_intermediates q = []) (hr_queries e);
    ta_certificate : exists challenge before q, rng_fill g 32 = (g', Some challenge) /\ hr_queries e = before ++ [q]
      /\ native_session_proof snapshot sh (cq_certificate q) challenge (cq_now_seconds q * 1000) (tc_session conn);
    ta_current : exists t, hr_now e = Ok t /\ session_current snapshot sh (tc_session conn) t }.

Lemma tls_connect_attested e snapshot sh g g' conn :
  tls_connect e snapshot sh g = (g', Ok conn) -> tls_attested snapshot sh g g' e conn.
Proof.
  unfold tls_connect, Handshake_new. destruct (Snapshot_require_current_keys _ _) as [[]|] eqn:Hk; [|done].
  destruct (rng_fill g 32) as [g1 [challenge|]] eqn:Hg; [|done].
  destruct (ask_verifier _ _ _ _ _) as [appraised accepted] eqn:Ha. intros [= <- Hx].
  destruct (hr_end e) as [| |negotiated] eqn:Hend; [done| |]; destruct appraised as [[session|]|]; try done.
  - destruct accepted; cbn [negb] in Hx; [|done]. destruct (required_profile negotiated) eqn:Hp; cbn [negb] in Hx; [|done].
    pass Hx as t by Ht. pass Hx as validity by Hc. injection Hx as <-. apply session_recheck_sound in Hc as [Hc _].
    destruct (ask_verifier_accepts _ _ _ _ _ _ Ha) as [Hf [[_ ?]|(before & q & Hq & Hv)]]; [done|].
    split; try done; [by apply required_profile_ok|by apply require_current_keys_inv| |by exists t].
    exists challenge, before, q. split_and!; [done|done|by apply native_session_inv].
  - destruct accepted; cbn [negb] in Hx; [|done]. by destruct (required_profile negotiated).
Qed.

Lemma dial_attested d snapshot sh g g' conn :
  dial_and_connect d snapshot sh g = (g', Ok conn) -> exists e, d = Dial_open false e /\ tls_attested snapshot sh g g' e conn.
Proof.
  destruct d as [| |[] e]; try done. intros Hc. exists e. split; [done|]. by apply tls_connect_attested.
Qed.

(** C26. A TLS connection is handed over only with live evidence for it, whatever the network, the
    peer and the clocks do: within at most two dials, its own handshake drew a fresh challenge;
    the certificate that the library verified alone proves, at the time of that question, an
    attested session for exactly this challenge under the snapshot the client now publishes,
    with the keys and revocations learned so far; at the time read after the handshake
    completed the keys, the authorization, the platforms' certificates and their revocation
    lists are all still good under that snapshot; and the handshake has the required version,
    cipher suite, hybrid group and protocol. *)
Theorem native_connection_attested e now deadline c g c' g' dials conn :
  client_ok c -> connect_with_evidence e now deadline c g = (c', g', dials, Ok conn) ->
  client_ok c' /\ (1 <= dials <= 2)%nat /\ ec_current c' = Some (tc_snapshot conn)
  /\ exists run g0, ts_dials e (dials - 1) = Dial_open false run
       /\ tls_attested (tc_snapshot conn) (shared_of (ec_verifier c')) g0 g' run conn.
Proof.
  intros Hok. unfold connect_with_evidence. destruct (deadline <=? now); [done|].
  destruct (match ec_current c with Some _ => _ | None => _ end) as [c1 initial] eqn:Hinit.
  assert (Hok1 : client_ok c1 /\ forall s, initial = Ok s -> ec_current c1 = Some s).
  { destruct (ec_current c) as [s|] eqn:Hc.
    - injection Hinit as <- <-. split; [done|]. by intros ? [= <-].
    - destruct (acquire_ok _ _ _ _ _ _ _ _ _ Hok Hinit) as (Hok1 & _ & Hs). split; [done|]. intros s Hx. by apply Hs. }
  clear Hinit. destruct Hok1 as [Hok1 Hcur]. destruct initial as [snapshot|]; [|done]. specialize (Hcur _ eq_refl).
  destruct (dial_and_connect (ts_dials e 0%nat) _ _ _) as [g1 [conn1|err]] eqn:Hd.
  - intros [= <- <- <- <-]. apply dial_attested in Hd as (run & Hrun & Ha). pose proof (ta_snapshot _ _ _ _ _ _ Ha) as Hs.
    rewrite Hs. split_and!; [done|lia|lia|done|]. by exists run, g.
  - destruct err as [| |failure| | | | | |]; try done.
    destruct (EvidenceClient_recover _ _ _ _ _ _ _) as [c2 [snapshot2|]] eqn:Hrec; [|done].
    destruct (acquire_ok _ _ _ _ _ _ _ _ _ Hok1 Hrec) as (Hok2 & _ & Hs2). destruct (Hs2 _ eq_refl) as [Hcur2 _].
    destruct (dial_and_connect (ts_dials e 1%nat) _ _ _) as [g2 out] eqn:Hd2. intros [= <- <- <- ->].
    apply dial_attested in Hd2 as (run & Hrun & Ha). pose proof (ta_snapshot _ _ _ _ _ _ Ha) as Hs.
    rewrite Hs. split_and!; [done|lia|lia|done|]. by exists run, g1.
Qed.

(** The pool gets only HTTP/2 connections, with the context that was appraised. *)
Lemma pool_connect_context e now deadline c g c' g' ctx :
  pool_connect e now deadline c g = (c', g', Ok ctx) ->
  exists dials conn, connect_with_evidence e now deadline c g = (c', g', dials, Ok conn)
    /\ ng_alpn (tc_negotiated conn) = Some (ascii "h2")
    /\ ctx = mkRequestContext (tc_snapshot conn) (tc_session conn).
Proof.
  unfold pool_connect. destruct (connect_with_evidence _ _ _ _ _) as [[[c1 g1] dials] [conn|]]; [|done].
  intros [= <- <- Hx]. pass Hx by Ha. zbool. injection Hx as <-. by exists dials, conn.
Qed.
End Connections.

(** ** Traffic keys *)

Inductive TrafficOp :=
| TfRead (received : Z)
| TfWrite (empty : bool) (elapsed_at now : Z) (refreshed : bool) (outcome : option (result Z unit)).

(** The updates of a run, each with the two readings of its clock. *)
Fixpoint traffic_run (s : TrafficStream) (ops : list TrafficOp) : TrafficStream * list (Z * Z) :=
  match ops with
  | [] => (s, [])
  | TfRead n :: ops => traffic_run (poll_read n s) ops
  | TfWrite empty elapsed_at now refreshed outcome :: ops =>
      let '(s, updated, _) := poll_write empty elapsed_at now refreshed outcome s in
      let (s, updates) := traffic_run s ops in
      (s, if updated then (elapsed_at, now) :: updates else updates)
  end.

(** Each update is decided at least the interval after the last one was done. *)
Fixpoint spaced (last : Z) (updates : list (Z * Z)) : Prop :=
  match updates with
  | [] => True
  | (elapsed_at, now) :: updates => KEY_UPDATE_INTERVAL <= elapsed_at - last /\ spaced now updates
  end.

Definition is_read (op : TrafficOp) : bool := match op with TfRead n => 0 <? n | _ => false end.
Definition is_write (op : TrafficOp) : bool := match op with TfWrite _ _ _ _ (Some (Ok n)) => 0 <? n | _ => false end.

Definition flag (b : bool) : nat := if b then 1%nat else 0%nat.
Definition count (p : TrafficOp -> bool) (ops : list TrafficOp) : nat := length (filter (fun op => p op = true) ops).

Lemma count_cons p op ops : count p (op :: ops) = (flag (p op) + count p ops)%nat.
Proof. unfold count. rewrite filter_cons. by destruct (p op) eqn:E; [rewrite decide_True|rewrite decide_False]. Qed.

Lemma wrote_fields outcome s :
  tf_updated_at (wrote outcome s) = tf_updated_at s /\ tf_read (wrote outcome s) = tf_read s
  /\ (flag (tf_written (wrote outcome s)) <= flag (tf_written s)
        + flag (match outcome with Some (Ok n) => (0 <? n)%Z | _ => false end))%nat.
Proof. unfold wrote. destruct outcome as [[n|]|]; [destruct (0 <? n)|..]; simpl; (split_and!; [done|done|]); destruct (tf_written s); simpl; lia. Qed.

(** Updates from any state of the stream: each uses up a read and a write since the last. *)
Lemma traffic_run_spaced ops : forall s0 s updates, traffic_run s0 ops = (s, updates) ->
  spaced (tf_updated_at s0) updates /\ (length updates <= flag (tf_read s0) + count is_read ops)%nat
  /\ (length updates <= flag (tf_written s0) + count is_write ops)%nat.
Proof.
  induction ops as [|[n|empty t1 t2 refreshed outcome] ops IH]; intros s0 s updates; simpl.
  - intros [= <- <-]. simpl. lia.
  - intros Hr. apply IH in Hr as (Hs & H1 & H2). rewrite !count_cons. unfold poll_read in *. simpl in *.
    destruct (0 <? n); simpl in *; (split; [done|]); destruct (tf_read s0); simpl in *; lia.
  - rewrite !count_cons. unfold poll_write. destruct empty.
    + destruct (traffic_run _ ops) as [s1 l] eqn:Hr. intros [= <- <-]. apply IH in Hr as (Hs & H1 & H2).
      destruct (wrote_fields outcome s0) as (E1 & E2 & E3). rewrite E1 in Hs. rewrite E2 in H1.
      split_and!; [done|simpl; lia|]. simpl in *. lia.
    + unfold before_write. destruct (tf_read s0 && tf_written s0 && _) eqn:Hb.
      * apply andb_true_iff in Hb as [[Hrd Hwr]%andb_true_iff Ht]. zbool. destruct refreshed.
        -- destruct (traffic_run _ ops) as [s1 l] eqn:Hr. intros [= <- <-]. apply IH in Hr as (Hs & H1 & H2).
           destruct (wrote_fields outcome (mkTrafficStream t2 false false)) as (E1 & E2 & E3). rewrite E1 in Hs.
           rewrite E2 in H1. simpl in *. rewrite Hrd, Hwr. simpl. split_and!; [lia|done|lia|lia].
        -- destruct (traffic_run s0 ops) as [s1 l] eqn:Hr. intros [= <- <-]. apply IH in Hr as (Hs & H1 & H2).
           simpl. split_and!; [done|lia|lia].
      * destruct (traffic_run _ ops) as [s1 l] eqn:Hr. intros [= <- <-]. apply IH in Hr as (Hs & H1 & H2).
        destruct (wrote_fields outcome s0) as (E1 & E2 & E3). rewrite E1 in Hs. rewrite E2 in H1.
        simpl in *. split_and!; [done|lia|lia].
Qed.

(** Key updates never flood the peer, whatever the calls and the clock: each is decided at
    least sixty seconds after the one before it, the first at least sixty seconds after the
    connection, and there are never more updates than reads that got bytes, nor than writes
    that took some. *)
Theorem updates_spaced created ops s updates :
  traffic_run (TrafficStream_new created) ops = (s, updates) ->
  spaced created updates /\ (length updates <= count is_read ops)%nat /\ (length updates <= count is_write ops)%nat.
Proof. intros Hr. by apply traffic_run_spaced in Hr. Qed.
