(* ===== verification/EvidenceArchive.v ===== *)
(** Archived evidence for offline receipt checks ([sdk/src/evidence_archive.rs]): the public
    ledger stores a bundle as an index of content-addressed objects, and the client rebuilds it;
    and the summaries of verified and of archived evidence ([evidence.rs], [evidence/history.rs]).

    What each origin answers to each path, the order in which concurrent downloads complete and
    the deadline of an origin are parameters of a run. *)

From S2P Require Import Prelude Primitives BTree Json Signing Attestation Documents Deserialize Approvals Releases Amd Collateral Certificates Snapshot Boot SdkRelease EvidenceClient.
From S2P Require Import NativeHttp.

Open Scope Z_scope.

Definition MAX_INDEX_BYTES : Z := 128 * 1024.
Definition MAX_OBJECTS : Z := 1024.

(** [Ar_Panic] is the panic of an index into a map without the key. *)
Inductive ArchiveError :=
| Ar_Delivery
| Ar_Http (status : Z)
| Ar_TooLarge
| Ar_NoEvidence
| Ar_Index
| Ar_Identity
| Ar_References
| Ar_Differs (hash : bytes)
| Ar_Object
| Ar_Missing
| Ar_Payload
| Ar_Rebuilt
| Ar_Panic.

(** The failure of an origin is that of its download, or its deadline. *)
Inductive DownloadError :=
| Da_Argument
| Da_Client
| Da_Unavailable (failures : list (bytes * option ArchiveError)).

Record Archive := mkArchive { ar_boot : bytes; ar_evidence : bytes }.

(** [is_sha256]: 64 lowercase hexadecimal characters. *)
Definition hex_character (b : byte) : bool :=
  let z := byte_to_Z b in ((48 <=? z) && (z <=? 57)) || ((97 <=? z) && (z <=? 102)).
Definition is_sha256 (value : bytes) : bool := (zlen value =? 64) && forallb hex_character value.

(** [Environment::evidence_origins]. *)
Definition evidence_origins (e : Environment) : list bytes :=
  match e with
  | Production => [ascii "https://evidence.stogas.ai/evidence/latest.json";
                   ascii "https://evidence2.stogas.ai/evidence/latest.json"]
  | Staging => [ascii "https://evidence-staging.stogas.ai/evidence/latest.json";
                ascii "https://evidence2-staging.stogas.ai/evidence/latest.json"]
  end.

(** ** Downloads *)

Inductive Fetch :=
| Ft_failed
| Ft_response (status : Z) (chunks : list bytes) (broken : bool).

Fixpoint get_chunks (max_bytes : Z) (received : bytes) (chunks : list bytes) (broken : bool)
    : result bytes ArchiveError :=
  match chunks with
  | [] => if broken then Err Ar_Delivery else Ok received
  | chunk :: chunks =>
      reject Z.max 0 (max_bytes - zlen received) <? zlen chunk with Ar_TooLarge;
      get_chunks max_bytes (received ++ chunk) chunks broken
  end.

Definition get (fetch : Fetch) (max_bytes : Z) : result bytes ArchiveError :=
  match fetch with
  | Ft_failed => Err Ar_Delivery
  | Ft_response status chunks broken =>
      reject negb (status =? 200) with Ar_Http status;
      get_chunks max_bytes [] chunks broken
  end.

(** The path of a part of the ledger. *)
Definition ledger_path (kind hash : bytes) : bytes :=
  ascii "/ledger/" ++ kind ++ ascii "/" ++ hash ++ ascii ".json".

Record ArchiveRun := mkArchiveRun {
  run_get : bytes -> Fetch;
  run_order : list bytes -> list bytes;
  run_late : bool }.

(** ** The index *)

(** [serde_json::Map::insert]: in place, or at the end. *)
Fixpoint map_insert (fields : list (bytes * Value)) (key : bytes) (value : Value) : list (bytes * Value) :=
  match fields with
  | [] => [(key, value)]
  | (k, v) :: fields =>
      if bool_decide (k = key) then (k, value) :: fields else (k, v) :: map_insert fields key value
  end.

(** A [Value] read from a text: a repeated key replaces the value before it. *)
Fixpoint value_of_tree (v : Value) : Value :=
  match v with
  | JArray l => JArray (value_of_tree <$> l)
  | JObject fields =>
      JObject ((fix insert_all (fields : list (bytes * Value)) (m : list (bytes * Value)) :=
        match fields with [] => m | (k, v) :: fields => insert_all fields (map_insert m k (value_of_tree v)) end)
        fields [])
  | v => v
  end.

Record ArchivedCollateral := mkArchivedCollateral {
  ac_der : bytes;
  ac_metadata : list (bytes * Value) }.

Record Index := mkIndex {
  ix_schema : bytes;
  ix_body_sha256 : bytes;
  ix_sizes : list (bytes * Z);
  ix_sigstore : bytes;
  ix_keys : bytes;
  ix_approvals : bytes;
  ix_vendor_collateral : list ArchivedCollateral }.

(** The derived deserializers, from what a text holds. *)
Definition ArchivedCollateral_from_tree (v : Value) : option ArchivedCollateral :=
  match text_struct [ascii "der"; ascii "metadata"] v with
  | Some [der; metadata] =>
      der ← der ≫= as_str;
      metadata ← metadata;
      match value_of_tree metadata with JObject fields => Some (mkArchivedCollateral der fields) | _ => None end
  | _ => None
  end.

Definition Index_keys : list bytes :=
  [ascii "schema"; ascii "body_sha256"; ascii "sizes"; ascii "sigstore"; ascii "keys"; ascii "approvals";
   ascii "vendor_collateral"].
Definition Index_from_tree (v : Value) : option Index :=
  match text_struct Index_keys v with
  | Some [schema; body; sizes; sigstore; keys; approvals; collateral] =>
      schema ← schema ≫= as_str;
      body ← body ≫= as_str;
      sizes ← sizes ≫= as_map (as_uint u64_max);
      sigstore ← sigstore ≫= as_str;
      keys ← keys ≫= as_str;
      approvals ← approvals ≫= as_str;
      collateral ← collateral ≫= as_vec ArchivedCollateral_from_tree;
      Some (mkIndex schema body (bm_of_list sizes) sigstore keys approvals collateral)
  | _ => None
  end.

(** A [BTreeSet]: the distinct names in order. *)
Definition Index_references (index : Index) : list bytes :=
  (bm_of_list ((fun hash => (hash, tt))
     <$> [ix_sigstore index; ix_keys index; ix_approvals index] ++ (ac_der <$> ix_vendor_collateral index))).*1.

(** [try_fold] of [checked_add]. *)
Definition total_size (sizes : list Z) : option Z :=
  fold_left (fun total size => total ≫= fun total => checked_add total size) sizes (Some 0).

Section Archive.
Context `{Json} `{Hash}.

Definition Index_parse (b : bytes) (body_sha256 : bytes) : result Index ArchiveError :=
  let? index := ok_or (json_tree b ≫= Index_from_tree) Ar_Index in
  reject negb (bool_decide (ix_schema index = ascii "stogas.evidence-archive.v1")
               && bool_decide (ix_body_sha256 index = body_sha256)) with Ar_Identity;
  let references := Index_references index in
  reject negb ((zlen references <=? MAX_OBJECTS) && forallb is_sha256 references
               && (zlen (ix_sizes index) =? zlen references)
               && forallb (fun hash => bool_decide (is_Some (bm_get (ix_sizes index) hash))) references
               && match total_size (ix_sizes index).*2 with
                  | Some total => total <=? MAX_INPUT_BYTES
                  | None => false
                  end) with Ar_References;
  Ok index.

(** [assemble], with the objects by name. *)
Definition object (objects : list (bytes * Value)) (hash : bytes) : result Value ArchiveError :=
  ok_or (bm_get objects hash) Ar_Missing.

Fixpoint assemble_collateral (objects : list (bytes * Value)) (l : list ArchivedCollateral)
    : result (list Value) ArchiveError :=
  match l with
  | [] => Ok []
  | c :: l =>
      let? der := object objects (ac_der c) in
      let? rest := assemble_collateral objects l in
      Ok (JObject (map_insert (ac_metadata c) (ascii "der_base64url") der) :: rest)
  end.

Definition bundle_body (sigstore keys approvals : Value) (collateral : list Value) : Value :=
  JObject [(ascii "schema", JString (ascii "stogas.confidential-bundle.v1")); (ascii "sigstore", sigstore);
           (ascii "keys", keys); (ascii "approvals", approvals); (ascii "vendor_collateral", JArray collateral)].
Definition bundle_envelope (body_sha256 : bytes) (body : Value) : Value :=
  JObject [(ascii "schema", JString (ascii "stogas.confidential-bundle-envelope.v1"));
           (ascii "body_sha256", JString body_sha256); (ascii "body", body)].

Definition Index_assemble (index : Index) (objects : list (bytes * Value)) : result bytes ArchiveError :=
  let? collateral := assemble_collateral objects (ix_vendor_collateral index) in
  let? sigstore := object objects (ix_sigstore index) in
  let? keys := object objects (ix_keys index) in
  let? approvals := object objects (ix_approvals index) in
  let body := bundle_body sigstore keys approvals collateral in
  let? digest := map_err (fun _ => Ar_Payload) (payload_sha256 body) in
  reject negb (bool_decide (digest = ix_body_sha256 index)) with Ar_Rebuilt;
  Ok (json_to_vec (bundle_envelope (ix_body_sha256 index) body)).

(** ** One origin *)

(** The downloads of the objects, as they complete. *)
Fixpoint fetch_objects (fetch : bytes -> Fetch) (sizes : list (bytes * Z)) (hashes : list bytes)
    (objects : list (bytes * Value)) : result (list (bytes * Value)) ArchiveError :=
  match hashes with
  | [] => Ok objects
  | hash :: hashes =>
      let? size := ok_or (bm_get sizes hash) Ar_Panic in
      let? b := get (fetch (ledger_path (ascii "objects") hash)) size in
      reject negb (bool_decide (hex_encode (sha256 b) = hash)) with Ar_Differs hash;
      let? value := ok_or (json_from_slice b) Ar_Object in
      fetch_objects fetch sizes hashes (bm_insert hash value objects)
  end.

(** [pointer("/document/evidence_sha256")]. *)
Definition named_evidence (boot : bytes) : option bytes :=
  archive ← json_from_slice boot;
  document ← value_get archive (ascii "document");
  hash ← value_get document (ascii "evidence_sha256") ≫= as_str;
  if is_sha256 hash then Some hash else None.

Definition download_from (run : ArchiveRun) (boot_sha256 : bytes) : result Archive ArchiveError :=
  let? boot := get (run_get run (ledger_path (ascii "boots") boot_sha256)) MAX_ARCHIVE_BYTES in
  let? evidence_sha256 := ok_or (named_evidence boot) Ar_NoEvidence in
  let? text := get (run_get run (ledger_path (ascii "snapshots") evidence_sha256)) MAX_INDEX_BYTES in
  let? index := Index_parse text evidence_sha256 in
  let? objects := fetch_objects (run_get run) (ix_sizes index) (run_order run (Index_references index)) [] in
  let? evidence := Index_assemble index objects in
  Ok (mkArchive boot evidence).

(** [download]: the origins in order, each under its deadline. *)
Fixpoint try_archives (runs : bytes -> ArchiveRun) (boot_sha256 : bytes) (origins : list bytes)
    (failures : list (bytes * option ArchiveError)) : result Archive DownloadError :=
  match origins with
  | [] => Err (Da_Unavailable failures)
  | origin :: origins =>
      if run_late (runs origin) then try_archives runs boot_sha256 origins (failures ++ [(origin, None)])
      else
        match download_from (runs origin) boot_sha256 with
        | Ok archive => Ok archive
        | Err e => try_archives runs boot_sha256 origins (failures ++ [(origin, Some e)])
        end
  end.

Definition download_archive (client_built : bool) (runs : bytes -> ArchiveRun) (environment : Environment)
    (boot_sha256 : bytes) : result Archive DownloadError :=
  reject negb (is_sha256 boot_sha256) with Da_Argument;
  reject negb client_built with Da_Client;
  try_archives runs boot_sha256 (evidence_origins environment) [].
End Archive.

(** ** Summaries ([Snapshot::summary], [verify_evidence_archive]) *)

Definition ReleaseProvenance_to_value (p : ReleaseProvenance) : Value :=
  JString match p with Github => ascii "github" | StagingProvenance => ascii "staging" end.

(** A field that is left out when there is no value. *)
Definition optional_time (time : option Z) : list (bytes * Value) :=
  match time with Some t => [(ascii "github_integrated_time_unix_ms", jint t)] | None => [] end.

Definition VerifiedRelease_to_value (r : VerifiedRelease) : Value :=
  JObject (optional_time (vl_github_integrated_time_unix_ms r) ++
    [(ascii "igvm_sha256", JString (vl_igvm_sha256 r)); (ascii "launch_policies", LaunchPolicies_to_value (vl_launch_policies r));
     (ascii "measurement", JString (vl_measurement r)); (ascii "minimum_catalog_sequence", jnum (vl_minimum_catalog_sequence r));
     (ascii "provenance", ReleaseProvenance_to_value (vl_provenance r)); (ascii "release_tag", JString (vl_release_tag r));
     (ascii "release_manifest_sha256", JString (vl_release_manifest_sha256 r)); (ascii "sequence", jnum (vl_sequence r));
     (ascii "source_commit", JString (vl_source_commit r)); (ascii "source_repository", JString (vl_source_repository r));
     (ascii "source_sha256", JString (vl_source_sha256 r)); (ascii "vcpu_count", jnum (vl_vcpu_count r))]).

Definition VerifiedCatalogRelease_to_value (r : VerifiedCatalogRelease) : Value :=
  JObject (optional_time (vc_github_integrated_time_unix_ms r) ++
    [(ascii "minimum_gateway_sequence", jnum (vc_minimum_gateway_sequence r));
     (ascii "provenance", ReleaseProvenance_to_value (vc_provenance r)); (ascii "public_digest", JString (vc_public_digest r));
     (ascii "public_size_bytes", jnum (vc_public_size_bytes r)); (ascii "runtime_digest", JString (vc_runtime_digest r));
     (ascii "runtime_size_bytes", jnum (vc_runtime_size_bytes r)); (ascii "sequence", jnum (vc_sequence r));
     (ascii "source_commit", JString (vc_source_commit r)); (ascii "source_repository", JString (vc_source_repository r));
     (ascii "source_sha256", JString (vc_source_sha256 r)); (ascii "source_tag", JString (vc_source_tag r))]).

Definition VerifiedHardwarePolicy_to_value (h : VerifiedHardwarePolicy) : Value :=
  JObject [(ascii "chip_ids", JArray (JString <$> vh_chip_ids h)); (ascii "policy_count", jnum (vh_policy_count h));
           (ascii "sha256", JString (vh_sha256 h)); (ascii "version", jnum (vh_version h))].

(** [by_sequence]. The sort is unstable, so entries with one sequence could come in any order; [sorted_unique] shows that
    the sequences of approved releases, which differ, leave one order. *)
Definition by_sequence {T} (to_value : T -> Value) (sequence : T -> Z) (entries : list (bytes * Cached T)) : list Value :=
  (fun '(id, entry) => JObject [(ascii "release_id", JString id); (ascii "release", to_value (ca_value entry))])
    <$> sort_by_key (fun '(_, entry) => sequence (ca_value entry)) entries.

Section Summary.
Context `{Json} `{Base64} `{Signatures} `{Hash} `{Encodings} `{Sigstore} `{X509} `{Unicode}.

Definition VerifiedSigstore_summary (s : VerifiedSigstore) : Value :=
  JObject [(ascii "sigstore_sha256", JString (vs_digest s)); (ascii "root_version", jnum (vs_root_version s));
           (ascii "targets_version", jnum (vs_targets_version s))].

Definition Snapshot_summary (s : Snapshot) : Value :=
  JObject [(ascii "sigstore", VerifiedSigstore_summary (va_sigstore (sn_approvals s)));
           (ascii "keys", LoggedDocument_to_value KeyManifest_to_value (sn_keys_evidence s));
           (ascii "approvals", LoggedDocument_to_value ApprovalManifest_to_value (va_approvals (sn_approvals s)));
           (ascii "gateways", JArray (by_sequence VerifiedRelease_to_value vl_sequence (sn_gateways s)));
           (ascii "catalogs", JArray (by_sequence VerifiedCatalogRelease_to_value vc_sequence (sn_catalogs s)));
           (ascii "hardware_policy", VerifiedHardwarePolicy_to_value (sn_hardware s));
           (ascii "vendor_collateral", JArray (JObject <$> sn_collateral_evidence s))].

(** [Verifier::stogas] with the text of each environment's compiled root. *)
Definition Verifier_stogas (root_json : Environment -> bytes) (environment : Environment) : result Verifier EvidenceError :=
  let? root := approval (stogas_root (root_json environment)) in
  Verifier_new environment root.

Definition verify_evidence_archive (v : Verifier) (evidence : bytes) (now_unix_ms : Z) : result Value EvidenceError :=
  let? historical := historical_verifier v in
  let? snapshot := (refresh historical evidence now_unix_ms).2 in
  Ok (JObject [(ascii "body_sha256", JString (sn_body_sha256 snapshot)); (ascii "evidence", Snapshot_summary snapshot)]).
End Summary.

(** * Theory

    A rebuilt archive is exactly what the boot's publication names, its downloads stay within
    fixed bounds, and the published split of a bundle reassembles to it. *)

(** ** Bounds *)

Definition bytes_total (sizes : list Z) : Z := foldr Z.add 0 sizes.

Lemma bytes_total_perm l l' : l ≡ₚ l' -> bytes_total l = bytes_total l'.
Proof. unfold bytes_total. induction 1; simpl in *; lia. Qed.

Lemma total_size_exact sizes t : total_size sizes = Some t -> bytes_total sizes = t.
Proof.
  unfold total_size. assert (forall start, fold_left (fun total size => total ≫= fun total => checked_add total size)
    sizes (Some start) = Some t -> start + bytes_total sizes = t) as Hg.
  { induction sizes as [|n sizes IH]; intros start; simpl.
    - intros [= <-]. lia.
    - unfold checked_add at 2. destruct (start + n <=? u64_max).
      + intros Ht%IH. lia.
      + intros Hn. exfalso. clear IH. induction sizes; simpl in Hn; auto. done. }
  intros Ht%Hg. lia.
Qed.

Lemma get_chunks_bounded max_bytes received chunks broken b :
  zlen received <= Z.max 0 max_bytes -> get_chunks max_bytes received chunks broken = Ok b -> zlen b <= Z.max 0 max_bytes.
Proof.
  revert received. induction chunks as [|chunk chunks IH]; intros received Hr; cbn [get_chunks].
  - destruct broken; [done|]. by intros [= <-].
  - intros Hx. pass Hx by Hc. zbool. eapply IH; [|exact Hx]. zlen_lia.
Qed.

Lemma get_bounded fetch max_bytes b : 0 <= max_bytes -> get fetch max_bytes = Ok b -> zlen b <= max_bytes.
Proof.
  unfold get. destruct fetch as [|status chunks broken]; [done|]. intros Hm Hx. pass Hx by Hs.
  apply get_chunks_bounded in Hx; [lia|zlen_lia].
Qed.

Lemma references_nodup index : NoDup (Index_references index).
Proof. apply bm_sorted_nodup, bm_of_list_sorted. Qed.

(** What an index admits: at most 1024 objects, named by digests, whose sizes add up. *)
Record index_admitted (index : Index) (body_sha256 : bytes) : Prop := mkIndexAdmitted {
  ia_body : ix_body_sha256 index = body_sha256;
  ia_objects : zlen (Index_references index) <= MAX_OBJECTS;
  ia_names : Forall (fun hash => is_sha256 hash = true) (Index_references index);
  ia_sizes : Forall (fun hash => is_Some (bm_get (ix_sizes index) hash)) (Index_references index);
  ia_total : bytes_total ((fun hash => default 0 (bm_get (ix_sizes index) hash)) <$> Index_references index)
             <= MAX_INPUT_BYTES }.

Section Archive.
Context `{Json} `{Hash}.

Lemma Index_sizes_map t index : Index_from_tree t = Some index -> bm_sorted (ix_sizes index).
Proof.
  unfold Index_from_tree. destruct (text_struct Index_keys t) as [l|]; [|done].
  do 7 (destruct l as [|? l]; [done|]). destruct l; [|done]. intros Hx.
  repeat match goal with E : (_ ≫= _) = Some _ |- _ => apply bind_Some in E as (? & ? & ?) end.
  simplify_eq/=. apply bm_of_list_sorted.
Qed.

Lemma index_parsed b body_sha256 index : Index_parse b body_sha256 = Ok index -> index_admitted index body_sha256.
Proof.
  unfold Index_parse. intros Hx. pass Hx as i by Hi. apply bind_Some in Hi as (t & _ & Hi%Index_sizes_map).
  pass Hx by Hid. zbool. pass Hx by Href. injection Hx as <-. zbool.
  destruct (total_size _) as [total|] eqn:Ht; [|done]. zbool. apply total_size_exact in Ht.
  assert (Hs : Forall (fun hash => is_Some (bm_get (ix_sizes i) hash)) (Index_references i)).
  { eapply Forall_impl; [apply (forallb_all (fun hash => bool_decide (is_Some (bm_get (ix_sizes i) hash)))); done|].
    intros x Hsome. by apply bool_decide_eq_true in Hsome. }
  split; [done|done| |done|].
  - by apply forallb_all.
  - apply bm_sorted_nodup in Hi. rewrite (bytes_total_perm _ (ix_sizes i).*2); [lia|].
    rewrite <- (bm_values 0) by done. apply fmap_Permutation.
    apply submseteq_length_Permutation.
    + apply NoDup_submseteq; [apply references_nodup|]. intros x Hin. rewrite Forall_forall in Hs.
      destruct (Hs _ Hin) as [n Hn]. apply bm_get_in in Hn. apply list_elem_of_fmap. by exists (x, n).
    + rewrite length_fmap. unfold zlen in *. lia.
Qed.

(** ** Rebuilding *)

(** An object that the archive holds is the content its name commits to, of its declared size. *)
Definition content_addressed (fetch : bytes -> Fetch) (sizes : list (bytes * Z)) (hash : bytes) (v : Value) : Prop :=
  exists text size, bm_get sizes hash = Some size /\ get (fetch (ledger_path (ascii "objects") hash)) size = Ok text
    /\ hex_encode (sha256 text) = hash /\ json_from_slice text = Some v.

Lemma fetched_objects fetch sizes hashes objects out :
  fetch_objects fetch sizes hashes objects = Ok out ->
  forall hash v, bm_get out hash = Some v -> bm_get objects hash = Some v \/ content_addressed fetch sizes hash v.
Proof.
  revert objects. induction hashes as [|h hashes IH]; intros objects; cbn [fetch_objects].
  - intros [= <-]. auto.
  - intros Hx hash v Hv. pass Hx as size by Hs. pass Hx as b by Hb. pass Hx by Hd. pass Hx as value by Hj. zbool.
    destruct (IH _ Hx _ _ Hv) as [Hg|]; [|by right]. rewrite bm_get_insert in Hg. case_bool_decide as Hk; [|by left].
    injection Hg as ->. subst hash. right. by exists b, size.
Qed.

(** The collateral of a body: each entry's certificate is the object it names. *)
Definition collateral_named (objects : list (bytes * Value)) (c : ArchivedCollateral) (v : Value) : Prop :=
  exists der, bm_get objects (ac_der c) = Some der
    /\ v = JObject (map_insert (ac_metadata c) (ascii "der_base64url") der).

Lemma collateral_assembled objects l out :
  assemble_collateral objects l = Ok out <-> Forall2 (collateral_named objects) l out.
Proof.
  revert out. induction l as [|c l IH]; intros out; cbn [assemble_collateral].
  - split; [intros [= <-]; constructor|]. by intros ->%Forall2_nil_inv_l.
  - split.
    + intros Hx. pass Hx as der by Hd. pass Hx as rest by Hr. injection Hx as <-.
      constructor; [by exists der|by apply IH].
    + intros (v & rest & (der & Hd & ->) & Hr & ->)%Forall2_cons_inv_l. unfold object. rewrite Hd.
      cbn [ok_or]. by rewrite (proj2 (IH _) Hr).
Qed.

(** What a rebuilt bundle is: its body has the index's parts and the archived digest. *)
Record rebuilt (objects : list (bytes * Value)) (index : Index) (evidence : bytes) : Prop := mkRebuilt {
  rb_body : exists sigstore keys approvals collateral,
    bm_get objects (ix_sigstore index) = Some sigstore /\ bm_get objects (ix_keys index) = Some keys
    /\ bm_get objects (ix_approvals index) = Some approvals
    /\ Forall2 (collateral_named objects) (ix_vendor_collateral index) collateral
    /\ payload_sha256 (bundle_body sigstore keys approvals collateral) = Ok (ix_body_sha256 index)
    /\ evidence = json_to_vec (bundle_envelope (ix_body_sha256 index) (bundle_body sigstore keys approvals collateral)) }.

Lemma assembled index objects evidence : Index_assemble index objects = Ok evidence <-> rebuilt objects index evidence.
Proof.
  unfold Index_assemble, object. split.
  - intros Hx. pass Hx as collateral by Hc. pass Hx as sigstore by Hs. pass Hx as keys by Hk.
    pass Hx as approvals by Ha. pass Hx as digest by Hd. pass Hx by He. zbool. injection Hx as <-. subst.
    split. exists sigstore, keys, approvals, collateral. split_and!; try done. by apply collateral_assembled.
  - intros [(sigstore & keys & approvals & collateral & Hs & Hk & Ha & Hc & Hd & ->)].
    rewrite (proj2 (collateral_assembled _ _ _) Hc), Hs, Hk, Ha. cbn [ok_or]. rewrite Hd. cbn [map_err].
    by rewrite bool_decide_true.
Qed.

(** What a downloaded archive is: all of it comes from one origin in time, the publication names
    the evidence, and the evidence is rebuilt from objects that their names commit to. *)
Record archived (run : ArchiveRun) (boot_sha256 : bytes) (a : Archive) : Prop := mkArchived {
  av_in_time : run_late run = false;
  av_boot : get (run_get run (ledger_path (ascii "boots") boot_sha256)) MAX_ARCHIVE_BYTES = Ok (ar_boot a)
            /\ zlen (ar_boot a) <= MAX_ARCHIVE_BYTES;
  av_evidence : exists evidence_sha256 index objects,
    named_evidence (ar_boot a) = Some evidence_sha256
    /\ index_admitted index evidence_sha256
    /\ (forall hash v, bm_get objects hash = Some v -> content_addressed (run_get run) (ix_sizes index) hash v)
    /\ rebuilt objects index (ar_evidence a) }.

Lemma downloaded_from run boot_sha256 a :
  run_late run = false -> download_from run boot_sha256 = Ok a -> archived run boot_sha256 a.
Proof.
  intros Hl. unfold download_from. intros Hx. pass Hx as boot by Hb. pass Hx as named by Hn. pass Hx as text by Ht.
  pass Hx as index by Hi. pass Hx as objects by Ho. pass Hx as evidence by He. injection Hx as <-.
  split; [done|split; [done|by apply get_bounded in Hb]|].
  exists named, index, objects. split_and!; [done|by eapply index_parsed| |by apply assembled].
  intros hash v Hv. by destruct (fetched_objects _ _ _ _ _ Ho _ _ Hv).
Qed.

Lemma tried_archives runs boot_sha256 origins failures a :
  try_archives runs boot_sha256 origins failures = Ok a ->
  exists origin, origin ∈ origins /\ archived (runs origin) boot_sha256 a.
Proof.
  revert failures. induction origins as [|origin origins IH]; intros failures; cbn [try_archives]; [done|].
  assert (Hnext : forall f, try_archives runs boot_sha256 origins f = Ok a ->
    exists o, o ∈ origin :: origins /\ archived (runs o) boot_sha256 a).
  { intros f (o & Ho & Ha)%IH. exists o. split; [by right|done]. }
  destruct (run_late (runs origin)) eqn:Hl; [by apply Hnext|].
  destruct (download_from (runs origin) boot_sha256) as [a'|] eqn:Hd; [|by apply Hnext].
  intros [= ->]. exists origin. split; [by left|]. by apply downloaded_from.
Qed.

(** C30. Archived evidence is authentic or refused, whatever the origins answer and in whatever
    order their downloads complete: an archive comes within the deadline from one of the
    environment's fixed origins, its publication is at most 64 KiB and names the evidence by a
    lowercase digest, the index admits at most 1024 objects of 16 MiB together under names that
    are digests, every object used is the content its name commits to and within its declared
    size, and the rebuilt body has exactly the digest the publication names. *)
Theorem archive_authentic built runs environment boot_sha256 a :
  download_archive built runs environment boot_sha256 = Ok a ->
  is_sha256 boot_sha256 = true /\
  exists origin, origin ∈ evidence_origins environment /\ archived (runs origin) boot_sha256 a.
Proof.
  unfold download_archive. intros Hx. pass Hx by Hs. pass Hx by Hb. zbool. split; [done|]. by eapply tried_archives.
Qed.

(** The downloads of an index never look up a size it lacks, whatever the order. *)
Lemma fetch_objects_sized fetch sizes hashes objects :
  Forall (fun hash => is_Some (bm_get sizes hash)) hashes -> fetch_objects fetch sizes hashes objects <> Err Ar_Panic.
Proof.
  intros Hf. revert objects. induction Hf as [|hash hashes [size Hs] Hf IH]; intros objects; cbn [fetch_objects]; [done|].
  rewrite Hs. cbn [ok_or]. destruct (get _ size) as [b|e] eqn:Hg.
  - destruct (negb _); [done|]. destruct (json_from_slice b) as [v|]; [|done]. cbn [ok_or]. apply IH.
  - intros [= ->]. unfold get in Hg. destruct (fetch _) as [|status chunks broken]; [done|].
    destruct (negb _); [done|]. revert Hg. generalize (@nil byte). induction chunks as [|c chunks IHc]; intros r; cbn [get_chunks].
    + by destruct broken.
    + destruct (_ <? _); [done|]. apply IHc.
Qed.

(** The index of an origin cannot make the client panic: a size is looked up only for names
    the index declares, as long as completions are of downloads that were started. *)
Theorem archive_never_panics run b body_sha256 index objects :
  (forall l, Forall (fun x => x ∈ l) (run_order run l)) -> Index_parse b body_sha256 = Ok index ->
  fetch_objects (run_get run) (ix_sizes index) (run_order run (Index_references index)) objects <> Err Ar_Panic.
Proof.
  intros Ho Hi. apply fetch_objects_sized. eapply Forall_impl; [apply Ho|]. intros x Hin.
  apply index_parsed, ia_sizes in Hi. by eapply Forall_forall in Hi.
Qed.

(** ** The published split *)

(** A body's parts, and the index that names them. *)
Record Parts := mkParts {
  pr_sigstore : Value; pr_keys : Value; pr_approvals : Value;
  pr_collateral : list (Value * list (bytes * Value)) }.

Definition parts_list (p : Parts) : list Value :=
  [pr_sigstore p; pr_keys p; pr_approvals p] ++ (fst <$> pr_collateral p).
Definition parts_body (p : Parts) : Value :=
  bundle_body (pr_sigstore p) (pr_keys p) (pr_approvals p)
    ((fun '(der, metadata) => JObject (map_insert metadata (ascii "der_base64url") der)) <$> pr_collateral p).
Definition split_index (name : Value -> bytes) (sizes : list (bytes * Z)) (body_sha256 : bytes) (p : Parts) : Index :=
  mkIndex (ascii "stogas.evidence-archive.v1") body_sha256 sizes (name (pr_sigstore p)) (name (pr_keys p))
    (name (pr_approvals p)) ((fun '(der, metadata) => mkArchivedCollateral (name der) metadata) <$> pr_collateral p).
Definition split_objects (name : Value -> bytes) (p : Parts) : list (bytes * Value) :=
  bm_of_list ((fun v => (name v, v)) <$> parts_list p).

(** Splitting a bundle into named objects and rebuilding it gives it back: when names tell the
    bundle's own parts apart, the index of a body reassembles its objects, in any collateral
    metadata, to the envelope of exactly this body under its digest. *)
Theorem split_rebuilds name sizes p digest :
  (forall v w, v ∈ parts_list p -> w ∈ parts_list p -> name v = name w -> v = w) ->
  payload_sha256 (parts_body p) = Ok digest ->
  Index_assemble (split_index name sizes digest p) (split_objects name p)
  = Ok (json_to_vec (bundle_envelope digest (parts_body p))).
Proof.
  intros Hn Hd.
  assert (Hget : forall v, v ∈ parts_list p -> bm_get (split_objects name p) (name v) = Some v).
  { intros v Hv. apply bm_get_of_list.
    - apply list_elem_of_fmap. by exists v.
    - intros w (w' & [= Hw ->] & Hin)%list_elem_of_fmap. symmetry. by apply Hn. }
  apply assembled. split. exists (pr_sigstore p), (pr_keys p), (pr_approvals p). eexists.
  split_and!; [apply Hget; set_solver..| |exact Hd|done].
  cbn [split_index ix_vendor_collateral]. apply Forall2_fmap, Forall_Forall2_diag, Forall_forall.
  intros [der metadata] Hin. exists der. split; [|done]. apply Hget. unfold parts_list. apply elem_of_app. right.
  apply list_elem_of_fmap. by exists (der, metadata).
Qed.
End Archive.

(** ** Summaries *)

(** Distinct keys have one sorted order, so an unstable sort gives the stable one's. *)
Lemma sorted_unique {A} (key : A -> Z) (l l' : list A) :
  NoDup (key <$> l) -> l' ≡ₚ l -> StronglySorted (key_order key) l' -> l' = sort_by_key key l.
Proof.
  intros Hd Hp Hs. pose proof (sort_by_key_sorted key l) as Hs2. pose proof (sort_by_key_perm key l) as Hp2.
  assert (NoDup (key <$> l')) as Hd1 by by rewrite Hp.
  assert (l' ≡ₚ sort_by_key key l) as Hp3 by by rewrite Hp, Hp2. clear Hp Hp2 Hd. revert Hs2 Hp3. generalize (sort_by_key key l). clear l.
  induction Hs as [|x l' Hs IH Hx]; intros l Hl Hp; [by apply Permutation_nil_l in Hp as ->|].
  destruct l as [|y l]; [by apply Permutation_nil_r in Hp|]. inv Hl as [|? ? Hl' Hy]. cbn in Hd1. inv Hd1 as [|? ? Hn Hd].
  assert (x = y) as ->.
  { assert (x ∈ y :: l) as [->|Hin]%elem_of_cons by (rewrite <- Hp; left); [done|].
    assert (y ∈ x :: l') as [->|Hin']%elem_of_cons by (rewrite Hp; left); [done|].
    rewrite Forall_forall in Hx, Hy. specialize (Hx y Hin'). specialize (Hy x Hin). unfold key_order in *.
    destruct Hn. apply list_elem_of_fmap. exists y. split; [lia|done]. }
  f_equal. apply IH; [done|done|]. by apply Permutation_cons_inv in Hp.
Qed.

Section SummaryTheory.
Context `{Json} `{Base64} `{Signatures} `{Hash} `{Encodings} `{Sigstore} `{X509} `{Unicode}.

Lemma historical_new v : historical_verifier v = Verifier_new (av_environment (ve_approvals v)) (av_root (ve_approvals v)).
Proof. done. Qed.

(** Archived evidence is only summarized when it is authentic: the summary is that of a snapshot that a verifier
    with the same root and environment, and nothing learned, installs from exactly this bundle; its releases are
    approved and verified under its own decision, its hardware policy is the decision's, and each release is listed
    once, by ascending sequence. *)
Theorem archive_summary_sound v evidence now out :
  verify_evidence_archive v evidence now = Ok out ->
  exists s, out = JObject [(ascii "body_sha256", JString (sn_body_sha256 s)); (ascii "evidence", Snapshot_summary s)]
    /\ km_environment (va_keys (sn_approvals s)) = av_environment (ve_approvals v)
    /\ entries_ok GatewayReleaseManifest_to_value (verify_gateway (sn_approvals s)) (sn_gateways s)
    /\ entries_list GatewayReleaseManifest_to_value (am_gateways (va_manifest (sn_approvals s))) (sn_gateways s)
    /\ entries_ok CatalogReleaseManifest_to_value (verify_catalog (sn_approvals s)) (sn_catalogs s)
    /\ entries_list CatalogReleaseManifest_to_value (am_catalogs (va_manifest (sn_approvals s))) (sn_catalogs s)
    /\ verify_hardware_policy (sn_approvals s) = Ok (sn_hardware s)
    /\ exists gateways, gateways ≡ₚ sn_gateways s
         /\ StronglySorted Z.le ((fun e => vl_sequence (ca_value e.2)) <$> gateways)
         /\ by_sequence VerifiedRelease_to_value vl_sequence (sn_gateways s)
            = (fun '(id, e) => JObject [(ascii "release_id", JString id); (ascii "release", VerifiedRelease_to_value (ca_value e))]) <$> gateways.
Proof.
  unfold verify_evidence_archive. rewrite historical_new. intros Hx. pass Hx as h by Hh. pass Hx as s by Hs. injection Hx as <-.
  destruct (new_ok _ _ _ Hh) as [Hok He]. destruct (refresh_ok h evidence now Hok) as [[_ _ Hc] [(_ & _ & _ & Henv) _]].
  unfold refresh in *. pose proof (refresh_frame h evidence now) as Hf.
  destruct (refresh_observed h evidence now) as [h' [log r]]. cbn [fst snd] in *. subst r. destruct Hf as [(Hcur & _) _].
  destruct (Hc s Hcur). rewrite Henv, He in *. exists s. split_and!; try done.
  eexists. split; [apply sort_by_key_perm|]. split; [|done].
  generalize (sort_by_key_sorted (fun '(_, entry) => vl_sequence (ca_value entry)) (sn_gateways s)).
  induction 1 as [|[id x] l Hl IH Hx]; cbn; constructor; [done|]. rewrite Forall_fmap. eapply Forall_impl; [done|]. by intros [id' y].
Qed.
End SummaryTheory.
