(* ===== verification/EncryptedSetup.v ===== *)
(** Fresh encrypted setup over HTTP ([sdk/src/encrypted_setup.rs]): one hello, one bounded
    response, and its evidence appraised under the client's snapshot, with at most one
    recovery of evidence for the same response. The carriage and the clocks are parameters
    of each setup. *)

From S2P Require Import Prelude Primitives BTree Json Record Ratchet Window Session Signing Attestation Setup Receipt Provisioning.
From S2P Require Import Documents Deserialize Approvals Snp Releases Amd Collateral Certificates Snapshot Boot EvidenceClient.
From S2P Require Import HttpTypes EncryptedHttp ReceiptHttp.

Open Scope Z_scope.

Definition setup_deadline (now deadline : Z) : Z := Z.min deadline (now + RECOVERY_BUDGET).

Inductive SetupClientError :=
| Es_Deadline
| Es_Http
| Es_Response
| Es_State
| Es_Setup (e : SetupError EvidenceError)
| Es_Evidence (e : AcquireError)
| Es_Recovery (verification : EvidenceError) (acquisition : AcquireError).

(** [SetupError::Appraisal] holds an [evidence::Error]. *)
Definition appraisal_error (e : AppraisalError EvidenceError) : EvidenceError :=
  match e with ApprovalAuthority => EvApproval AAuthority | VerifierError e => e end.

Definition SetupClientError_code (e : SetupClientError) : bytes :=
  match e with
  | Es_Deadline => ascii "setup_deadline"
  | Es_Evidence e => AcquireError_code e
  | Es_Setup (Appraisal e) => code (appraisal_error e)
  | Es_Recovery e _ => code e
  | Es_Setup _ => ascii "invalid_attestation"
  | Es_Response | Es_Http => ascii "setup_delivery_failed"
  | Es_State => ascii "verification_unavailable"
  end.

(** The bounded body of the setup response. *)
Fixpoint read_setup (received : bytes) (chunks : list bytes) (ending : Ending) : result bytes SetupClientError :=
  match chunks with
  | [] => match ending with Complete => Ok received | Broken => Err Es_Http | Late => Err Es_Deadline end
  | chunk :: chunks =>
      reject Z.max 0 (MAX_SERVER_SETUP_BYTES - zlen received) <? zlen chunk with Es_Response;
      read_setup (received ++ chunk) chunks ending
  end.

Section Setup.
Context `{Kdf} `{Aead} `{Agreement} `{Hpke} `{Random} `{HttpText}.
Context `{Json} `{Base64} `{Signatures} `{Hash} `{Encodings} `{Sigstore} `{X509} `{Unicode}.

Record Connection := mkConnection {
  cn_session : ClientSession;
  cn_shared : Session.Shared;
  cn_snapshot : Snapshot;
  cn_appraisal : VerifiedSession }.

(** What one setup meets: the outer response, the successive readings of the wall clock,
    whether a deadline expires while the worker is awaited, and what recoveries meet. *)
Record SetupRun := mkSetupRun {
  sr_initial : list Attempt;
  sr_initial_now : Z;
  sr_outer : Outer;
  sr_now : nat -> result Z AcquireError;
  sr_late : nat -> bool;
  sr_recovery_now : Z;
  sr_check_now : result Z AcquireError;
  sr_attempts : list Attempt;
  sr_cooldown : Z }.

Definition setup_environment (s : Snapshot) : Environment := km_environment (va_keys (sn_approvals s)).

(** [Attempt::check]: the retained response is accepted under a recovered snapshot. *)
Definition setup_check (pending : PendingSetup) (response : bytes) (now : result Z AcquireError) : Check :=
  fun snapshot sh =>
    let? now := map_err (fun _ => EvInvalid (ascii "local clock unavailable")) now in
    match PendingSetup_check_evidence pending response (setup_environment snapshot)
            (fun evidence => Snapshot_verify_session_identity snapshot sh evidence now) with
    | Ok _ => Ok tt
    | Err (Appraisal e) => Err (appraisal_error e)
    | Err _ => Err (EvAttestation [])
    end.

(** [complete], on the worker. *)
Definition setup_complete (late : bool) (now : result Z AcquireError) (pending : PendingSetup)
    (response : bytes) (snapshot : Snapshot) (c : EvidenceClient)
    : PendingSetup * result Connection SetupClientError :=
  match now with
  | Err e => (pending, Err (Es_Evidence (if late then Aq_Deadline else e)))
  | Ok now =>
      let (pending, out) := PendingSetup_complete_verified pending response (setup_environment snapshot)
        (fun evidence => Snapshot_verify_session_identity snapshot (shared_of (ec_verifier c)) evidence now) in
      (pending,
       if late then Err (Es_Evidence Aq_Deadline)
       else match out with
            | Err e => Err (Es_Setup e)
            | Ok (session, shared, appraisal) => Ok (mkConnection session shared snapshot appraisal)
            end)
  end.

Definition connect_inner (e : SetupRun) (environment : Environment) (deadline : Z) (c : EvidenceClient) (g : rng)
    : EvidenceClient * rng * result Connection SetupClientError :=
  let (c, initial) := match ec_current c with
    | Some s => (c, Ok s)
    | None => EvidenceClient_recover (fun _ _ => Ok tt) (sr_initial_now e) deadline (sr_now e 0%nat)
                (sr_initial e) (sr_cooldown e) c
    end in
  match initial with
  | Err err => (c, g, Err (Es_Evidence err))
  | Ok snapshot =>
      match PendingSetup_new environment g with
      | (g, Err err) => (c, g, Err (if sr_late e 0%nat then Es_Evidence Aq_Deadline else Es_Setup err))
      | (g, Ok pending) =>
          if sr_late e 0%nat then (c, g, Err (Es_Evidence Aq_Deadline))
          else
            match sr_outer e with
            | Outer_late => (c, g, Err Es_Deadline)
            | Outer_failed => (c, g, Err Es_Http)
            | Outer_response status headers content_length chunks ending =>
                if negb (status =? 200)
                   || negb (bool_decide ((header_get headers (ascii "content-type") ≫= header_to_str)
                                         = Some CONTENT_TYPE))
                   || match content_length with Some n => MAX_SERVER_SETUP_BYTES <? n | None => false end
                then (c, g, Err Es_Response)
                else
                  match read_setup [] chunks ending with
                  | Err err => (c, g, Err err)
                  | Ok response =>
                      match setup_complete (sr_late e 1%nat) (sr_now e 1%nat) pending response snapshot c with
                      | (pending, Err (Es_Setup (Appraisal verification))) =>
                          match EvidenceClient_recover (setup_check pending response (sr_now e 2%nat))
                                  (sr_recovery_now e) deadline (sr_check_now e) (sr_attempts e) (sr_cooldown e) c with
                          | (c, Err acquisition) =>
                              (c, g, Err (Es_Recovery (appraisal_error verification) acquisition))
                          | (c, Ok snapshot) =>
                              (c, g, snd (setup_complete (sr_late e 2%nat) (sr_now e 3%nat) pending response snapshot c))
                          end
                      | (_, out) => (c, g, out)
                      end
                  end
            end
      end
  end.

Definition connect (e : SetupRun) (environment : Environment) (now deadline : Z) (c : EvidenceClient) (g : rng)
    : EvidenceClient * rng * result Connection SetupClientError :=
  if deadline <=? now then (c, g, Err Es_Deadline)
  else connect_inner e environment (setup_deadline now deadline) c g.
End Setup.

(** * Theory

    A connection exists only with evidence: whatever the carriage delivers and the clocks
    read, a session that [connect] returns was set up with this client's hello and appraised
    under the snapshot that is current when it returns. *)

Lemma read_setup_bounded received chunks ending b :
  zlen received <= MAX_SERVER_SETUP_BYTES -> read_setup received chunks ending = Ok b ->
  zlen b <= MAX_SERVER_SETUP_BYTES.
Proof.
  revert received. induction chunks as [|c chunks IH]; intros received Hr; simpl.
  - destruct ending; try done. by intros [= <-].
  - intros Hx. pass Hx by Hc. zbool. apply IH in Hx; [done|]. rewrite zlen_app. pose proof (zlen_nonneg c). lia.
Qed.

Section Connections.
Context `{Kdf} `{Aead} `{Agreement} `{Hpke} `{Random} `{HttpText}.
Context `{Json} `{Base64} `{Signatures} `{Hash} `{Encodings} `{Sigstore} `{X509} `{Unicode}.

Lemma finish_not_appraisal p parsed p' (e : AppraisalError EvidenceError) :
  PendingSetup_finish p parsed = (p', Err (Appraisal e)) -> False.
Proof.
  unfold PendingSetup_finish. destruct (XWing_encapped_from_bytes _); [|done].
  destruct (pd_private_key p); [|done]. intros [= _ Hx]. revert Hx.
  destruct (setup_receiver _ _ _); simpl; [|done]. destruct (Setup.export _ _ _); simpl; [|done].
  destruct (negb _); [done|]. destruct (Setup.export _ _ _); simpl; [|done]. by destruct (ClientSession_new _ _ _ _).
Qed.

Lemma finish_shared {V} p parsed p' session shared :
  PendingSetup_finish (V := V) p parsed = (p', Ok (session, shared)) -> cs_shared session = true.
Proof.
  unfold PendingSetup_finish. destruct (XWing_encapped_from_bytes _); [|done].
  destruct (pd_private_key p); [|done]. intros [= _ Hx]. revert Hx.
  destruct (setup_receiver _ _ _); simpl; [|done]. destruct (Setup.export _ _ _); simpl; [|done].
  destruct (negb _); [done|]. destruct (Setup.export _ _ _); simpl; [|done].
  unfold ClientSession_new. destruct (Peer_initiator _ _); simpl; [|done]. by intros [= <- _].
Qed.

(** What one completion shows. *)
Definition completed (pending : PendingSetup) (response : bytes) (sh : Shared) (conn : Connection) : Prop :=
  exists parsed pending' t,
    PendingSetup_inspect (V := EvidenceError) pending response = Ok parsed
    /\ pd_environment pending = setup_environment (cn_snapshot conn)
    /\ Snapshot_verify_session_identity (cn_snapshot conn) sh (sv_evidence parsed) t = Ok (cn_appraisal conn)
    /\ PendingSetup_finish (V := EvidenceError) pending parsed = (pending', Ok (cn_session conn, cn_shared conn)).

Lemma setup_complete_spec late now pending response snapshot c pending' out :
  setup_complete late now pending response snapshot c = (pending', out) ->
  match out with
  | Ok conn => cn_snapshot conn = snapshot /\ completed pending response (shared_of (ec_verifier c)) conn
  | Err (Es_Setup (Appraisal _)) => pending' = pending
  | Err _ => True
  end.
Proof.
  unfold setup_complete. destruct now as [now|e]; [|by intros [= <- <-]; destruct late].
  unfold PendingSetup_complete_verified.
  destruct (PendingSetup_inspect_verified _ _ _ _) as [[parsed verified]|e] eqn:Hi.
  - destruct (PendingSetup_finish pending parsed) as [p1 [[session shared]|e]] eqn:Hf; intros [= <- <-];
      destruct late; try done.
    + split; [done|]. unfold PendingSetup_inspect_verified in Hi. pass Hi by Henv. pass Hi as q by Hq.
      pass Hi as v by Hv. injection Hi as -> ->. zbool.
      exists parsed, p1, now. by split_and!.
    + destruct e; try done. by apply finish_not_appraisal in Hf.
  - intros [= <- <-]. destruct late; [done|]. by destruct e.
Qed.

Lemma connect_client_ok e environment now deadline c g c' g' out :
  client_ok c -> connect e environment now deadline c g = (c', g', out) -> client_ok c'.
Proof.
  intros Hok. unfold connect. destruct (deadline <=? now); [by intros [= <- _ _]|]. unfold connect_inner.
  destruct (match ec_current c with Some _ => _ | None => _ end) as [c1 initial] eqn:Hinit.
  assert (Hok1 : client_ok c1).
  { destruct (ec_current c); [by injection Hinit as <- _|]. by destruct (acquire_ok _ _ _ _ _ _ _ _ _ Hok Hinit). }
  clear Hinit. destruct initial as [snapshot|]; [|by intros [= <- _ _]].
  destruct (PendingSetup_new environment g) as [g1 [pending|]]; [|by intros [= <- _ _]].
  destruct (sr_late e 0%nat); [by intros [= <- _ _]|].
  destruct (sr_outer e) as [| |status headers len chunks ending]; [by intros [= <- _ _]..|].
  destruct (_ || _ || _); [by intros [= <- _ _]|]. destruct (read_setup [] chunks ending); [|by intros [= <- _ _]].
  destruct (setup_complete _ _ _ _ _ c1) as [p1 [conn|err]]; [by intros [= <- _ _]|].
  destruct err as [| | | |[]| |]; try by intros [= <- _ _].
  destruct (EvidenceClient_recover _ _ _ _ _ _ _) as [c2 r2] eqn:Hrec.
  destruct (acquire_ok _ _ _ _ _ _ _ _ _ Hok1 Hrec) as [Hok2 _]. destruct r2; by intros [= <- _ _].
Qed.

(** A session is set up only with current evidence for this very setup: the response is
    bounded and proves that the quoted gateway answered this client's fresh hello, the
    gateway's boot, report and channel were verified under the snapshot the client now
    publishes, in the environment asked for, with the keys and revocations learned so far,
    and the session comes from the secret encapsulated to this hello. *)
Theorem connect_attested e environment now deadline c g c' g' conn :
  client_ok c -> connect e environment now deadline c g = (c', g', Ok conn) ->
  ec_current c' = Some (cn_snapshot conn)
  /\ setup_environment (cn_snapshot conn) = environment /\ cs_shared (cn_session conn) = true
  /\ exists pending response,
       PendingSetup_new (V := EvidenceError) environment g = (g', Ok pending)
       /\ zlen response <= MAX_SERVER_SETUP_BYTES
       /\ completed pending response (shared_of (ec_verifier c')) conn.
Proof.
  intros Hok. unfold connect. destruct (deadline <=? now); [done|]. unfold connect_inner.
  destruct (match ec_current c with Some _ => _ | None => _ end) as [c1 initial] eqn:Hinit.
  assert (Hok1 : client_ok c1 /\ forall s, initial = Ok s -> ec_current c1 = Some s).
  { destruct (ec_current c) as [s|] eqn:Hc.
    - injection Hinit as <- <-. split; [done|]. by intros ? [= <-].
    - destruct (acquire_ok _ _ _ _ _ _ _ _ _ Hok Hinit) as (Hok1 & _ & Hs). split; [done|]. intros s Hx. by apply Hs. }
  destruct Hok1 as [Hok1 Hcur]. destruct initial as [snapshot|]; [|done]. specialize (Hcur _ eq_refl).
  destruct (PendingSetup_new environment g) as [g1 [pending|]] eqn:Hp; [|done].
  assert (Henv : pd_environment pending = environment).
  { unfold PendingSetup_new in Hp. destruct (rng_fill g 32) as [? [?|]]; [|done].
    destruct (XWing_private_from_bytes _); [|done]. destruct (rng_fill _ 32) as [? [?|]]; [|done]. by injection Hp as <- <-. }
  destruct (sr_late e 0%nat); [done|]. destruct (sr_outer e) as [| |status headers len chunks ending]; try done.
  destruct (_ || _ || _); [done|]. destruct (read_setup [] chunks ending) as [response|] eqn:Hr; [|done].
  apply read_setup_bounded in Hr; [|unfold MAX_SERVER_SETUP_BYTES; by cbv].
  assert (Hfin : forall c2 conn0, ec_current c2 = Some (cn_snapshot conn0) ->
    completed pending response (shared_of (ec_verifier c2)) conn0 ->
    ec_current c2 = Some (cn_snapshot conn0) /\ setup_environment (cn_snapshot conn0) = environment
    /\ cs_shared (cn_session conn0) = true /\ exists pending0 response0,
       (g1, @Ok _ (SetupError EvidenceError) pending) = (g1, Ok pending0)
       /\ zlen response0 <= MAX_SERVER_SETUP_BYTES
       /\ completed pending0 response0 (shared_of (ec_verifier c2)) conn0).
  { intros c2 conn0 Hc2 Hd. destruct Hd as (parsed & p' & t & Hin & He & Hv & Hf).
    split_and!; [done|congruence|by eapply finish_shared|]. exists pending, response.
    split_and!; [done|done|]. by exists parsed, p', t. }
  destruct (setup_complete (sr_late e 1%nat) _ pending response snapshot c1) as [p1 out] eqn:Hc1.
  pose proof (setup_complete_spec _ _ _ _ _ _ _ _ Hc1) as Hs1. destruct out as [conn1|err].
  - intros [= <- <- <-]. destruct Hs1 as [Hsn Hd]. apply Hfin; [by rewrite Hsn|done].
  - destruct err as [| | | |[e0|e0|e0|e0|e0]| |]; try done. subst p1.
    clear Hinit. destruct (EvidenceClient_recover _ _ _ _ _ _ _) as [c2 [snapshot2|]] eqn:Hrec; [|done].
    destruct (acquire_ok _ _ _ _ _ _ _ _ _ Hok1 Hrec) as (_ & _ & Hs2). destruct (Hs2 _ eq_refl) as [Hcur2 _].
    destruct (setup_complete (sr_late e 2%nat) _ pending response snapshot2 c2) as [p2 out2] eqn:Hc2.
    pose proof (setup_complete_spec _ _ _ _ _ _ _ _ Hc2) as Hs3. cbn [snd]. destruct out2 as [conn2|]; [|done].
    intros [= <- <- <-]. destruct Hs3 as [Hsn Hd]. apply Hfin; [by rewrite Hsn|done].
Qed.
End Connections.
