(* ===== verification/EncryptedClient.v ===== *)
(** Reusable encrypted sessions of the client ([sdk/src/encrypted_client.rs]).

    Each session is a shared object ([Owner]) in a store indexed by identity: the client's
    list, the leases of running requests and the requests themselves refer to it. The
    lock-protected [ClientState] and the owners are threaded explicitly, one definition per
    critical section; [client_step] interleaves the sections of all tasks. *)

From S2P Require Import Prelude Primitives BTree Json Record Ratchet Window Session Signing Attestation.
From S2P Require Import Setup Receipt Provisioning Documents Deserialize Approvals Snp Releases Amd Collateral Certificates.
From S2P Require Import Snapshot Boot EvidenceClient HttpTypes Http2Pool EncryptedHttp ReceiptHttp NativeHttp EncryptedSetup.
From S2P Require Import Record Ratchet Window Session.

Open Scope Z_scope.

Inductive ClientError :=
| Ec_Closed
| Ec_State
| Ec_Deadline
| Ec_CloseDeadline
| Ec_Metadata
| Ec_Setup (e : SetupClientError)
| Ec_Evidence (e : AcquireError)
| Ec_Appraisal (e : NativeError)
| Ec_Record (e : Error)
| Ec_Http (e : EncryptedHttpError)
| Ec_Receipt (e : ReceiptHttpError).

Definition ClientError_code (e : ClientError) : bytes :=
  match e with
  | Ec_Evidence e => AcquireError_code e
  | Ec_Appraisal e => NativeError_code e
  | Ec_Setup e => SetupClientError_code e
  | Ec_Closed => ascii "closed"
  | Ec_Deadline => ascii "setup_deadline"
  | Ec_Metadata | Ec_Http (Eh_Request | Eh_NotSentDeadline) => ascii "invalid_request"
  | Ec_Receipt _ => ascii "receipt_failed"
  | Ec_Record _ | Ec_State => ascii "verification_unavailable"
  | Ec_CloseDeadline | Ec_Http _ => ascii "transport_failed"
  end.

(** Wall times are in nanoseconds. *)
Definition second : Z := 1000000000.

(** The session's core, its shared ratchet state, and the owner's bookkeeping. *)
Record Owner := mkOwner {
  ow_node_id : bytes;
  ow_core : ClientSession;
  ow_shared : Shared;
  ow_active : Z;
  ow_dispatched : Z;
  ow_retired : bool;
  ow_forced : bool }.

Definition Owner_new (node_id : bytes) (core : ClientSession) (shared : Shared) (started : Z) : Owner :=
  mkOwner node_id core shared 0 started false false.

(** [retired = true; core.close()]. *)
Definition Owner_retire (o : Owner) : Owner :=
  mkOwner (ow_node_id o) (ClientSession_close (ow_core o)) (ow_shared o) (ow_active o)
    (ow_dispatched o) true (ow_forced o).
Definition Owner_force (o : Owner) : Owner :=
  mkOwner (ow_node_id o) (ClientSession_close (ow_core o)) (ow_shared o) (ow_active o)
    (ow_dispatched o) true true.
(** [active -= 1] on a [usize]. *)
Definition Lease_release (o : Owner) : Owner :=
  mkOwner (ow_node_id o) (ow_core o) (ow_shared o) ((ow_active o - 1) mod 2 ^ 64)
    (ow_dispatched o) (ow_retired o) (ow_forced o).
Definition with_shared (sh : Shared) (o : Owner) : Owner :=
  mkOwner (ow_node_id o) (ow_core o) sh (ow_active o) (ow_dispatched o) (ow_retired o) (ow_forced o).
Definition with_lease (now : Z) (o : Owner) : Owner :=
  mkOwner (ow_node_id o) (ow_core o) (ow_shared o) ((ow_active o + 1) mod 2 ^ 64) now
    (ow_retired o) (ow_forced o).

Record ClientState := mkClientState {
  cl_owners : list nat;
  cl_opening : bool;
  cl_closed : bool }.

(** The lock-protected state and the store of sessions. *)
Record Client := mkClient { cl_state : ClientState; cl_store : gmap nat Owner }.

Definition Client_new : Client := mkClient (mkClientState [] false false) ∅.

Definition owners_of (c : Client) : list nat := cl_owners (cl_state c).
Definition with_owners l s := mkClientState l (cl_opening s) (cl_closed s).
Definition with_opening b s := mkClientState (cl_owners s) b (cl_closed s).

Definition owner_active (st : gmap nat Owner) (i : nat) : Z :=
  match st !! i with Some o => ow_active o | None => 0 end.
Definition owner_retired (st : gmap nat Owner) (i : nat) : bool :=
  match st !! i with Some o => ow_retired o | None => false end.

(** The idle check of [retain]: a clock that moved back is not fresh. *)
Definition is_fresh (now : Z) (o : Owner) : bool :=
  (ow_dispatched o <=? now) && (now - ow_dispatched o <? cs_idle_seconds (ow_core o) * second).
Definition idle_check (now : Z) (o : Owner) : Owner := if is_fresh now o then o else Owner_retire o.
Definition is_kept (o : Owner) : bool := negb (ow_retired o && (ow_active o =? 0)).

Inductive Selection :=
| Ready (owner : nat) (request : ClientRequest)
| Opening
| Wait.

Section Client.
Context `{Kdf} `{Hash} `{Aead} `{Agreement} `{Random}.

(** The loop over the sessions, from the least loaded. [now_ms] is the elapsed time of the
    ratchet, [now] the wall time. *)
Fixpoint select_loop (now_ms now : Z) (owners : list nat) (st : gmap nat Owner) (g : rng)
    : gmap nat Owner * rng * result (option (nat * ClientRequest)) ClientError :=
  match owners with
  | [] => (st, g, Ok None)
  | i :: owners =>
      match st !! i with
      | None => select_loop now_ms now owners st g
      | Some o =>
          if ow_retired o then select_loop now_ms now owners st g
          else
            match ClientSession_expire (ow_core o) (ow_shared o) now_ms with
            | (_, Err _) => (st, g, Err Ec_State)
            | (sh, Ok _) =>
                match ClientSession_request (ow_core o) sh g with
                | (sh, g, Ok request) =>
                    (<[i := with_lease now (with_shared sh o)]> st, g, Ok (Some (i, request)))
                | (sh, g, Err Pending) =>
                    select_loop now_ms now owners (<[i := with_shared sh o]> st) g
                | (sh, g, Err (Limit | Closed)) =>
                    select_loop now_ms now owners (<[i := Owner_retire (with_shared sh o)]> st) g
                | (sh, g, Err e) => (<[i := with_shared sh o]> st, g, Err (Ec_Record e))
                end
            end
      end
  end.

Definition serving_owners (st : gmap nat Owner) (l : list nat) : Z :=
  zlen (filter (fun i => owner_retired st i = false) l).

Definition may_open (maximum : Z) (s : ClientState) (st : gmap nat Owner) : bool :=
  negb (cl_opening s) && (serving_owners st (cl_owners s) <? maximum)
  && (zlen (cl_owners s) <=? maximum).

(** Every listed session gets the idle check; sessions with nothing left to do go. *)
Definition idle_all (now : Z) (l : list nat) (st : gmap nat Owner) : gmap nat Owner :=
  fold_left (fun st i => alter (idle_check now) i st) l st.
Definition kept (st : gmap nat Owner) (l : list nat) : list nat :=
  filter (fun i => match st !! i with Some o => is_kept o | None => true end = true) l.

Definition select (maximum now_ms now : Z) (c : Client) (g : rng)
    : Client * rng * result Selection ClientError :=
  if cl_closed (cl_state c) then (c, g, Err Ec_Closed)
  else
    let st := idle_all now (owners_of c) (cl_store c) in
    let l := sort_by_key (owner_active st) (kept st (owners_of c)) in
    let s := with_owners l (cl_state c) in
    match select_loop now_ms now l st g with
    | (st, g, Err e) => (mkClient s st, g, Err e)
    | (st, g, Ok (Some (i, request))) => (mkClient s st, g, Ok (Ready i request))
    | (st, g, Ok None) =>
        if may_open maximum s st
        then (mkClient (with_opening true s) st, g, Ok Opening)
        else (mkClient s st, g, Ok Wait)
    end.

(** An established session joins the client unless it closed. *)
Definition push_owner (i : nat) (c : Client) : result Client ClientError :=
  reject cl_closed (cl_state c) with Ec_Closed;
  Ok (mkClient (with_owners (owners_of c ++ [i]) (cl_state c)) (cl_store c)).

Definition Opening_drop (c : Client) : Client :=
  mkClient (with_opening false (cl_state c)) (cl_store c).

Definition update_owner (f : Owner -> Owner) (i : nat) (c : Client) : Client :=
  mkClient (cl_state c) (alter f i (cl_store c)).

(** A refusal retires every listed session of the refusing node. *)
Definition retire_node (node_id : bytes) (c : Client) : Client :=
  mkClient (cl_state c)
    (fold_left (fun st i => alter (fun o => if bool_decide (ow_node_id o = node_id)
                                            then Owner_retire o else o) i st)
       (owners_of c) (cl_store c)).

(** The end of an exchange in [exchange]: its session is retired on an error, and all of its
    node's on a refusal. *)
Inductive Exchanged := Answered | RefusedBySession | FailedExchange.
Definition exchange_ended (outcome : Exchanged) (i : nat) (c : Client) : Client :=
  match outcome with
  | FailedExchange => update_owner Owner_retire i c
  | RefusedBySession =>
      match cl_store c !! i with Some o => retire_node (ow_node_id o) c | None => c end
  | Answered => c
  end.

(** Closing: no new work; when all is idle the sessions are taken out and each sends one
    last request. *)
Definition close_begin (c : Client) : Client :=
  mkClient (mkClientState (owners_of c) (cl_opening (cl_state c)) true) (cl_store c).
Definition close_idle (c : Client) : bool :=
  negb (cl_opening (cl_state c)) && forallb (fun i => owner_active (cl_store c) i =? 0) (owners_of c).
Definition close_take (c : Client) : Client * list nat :=
  (mkClient (with_owners [] (cl_state c)) (cl_store c), owners_of c).
Definition close_request (i : nat) (c : Client) (g : rng) : Client * rng * option ClientRequest :=
  match cl_store c !! i with
  | None => (c, g, None)
  | Some o =>
      let '(sh, g, request) := ClientSession_request (ow_core o) (ow_shared o) g in
      let o := with_shared sh o in
      (mkClient (cl_state c)
         (<[i := mkOwner (ow_node_id o) (ClientSession_close (ow_core o)) (ow_shared o) (ow_active o)
                   (ow_dispatched o) (ow_retired o) (ow_forced o)]> (cl_store c)),
       g, match request with Ok r => Some r | Err _ => None end)
  end.
Definition close_deadline (c : Client) : Client :=
  mkClient (cl_state c) (fold_left (fun st i => alter Owner_force i st) (owners_of c) (cl_store c)).

(** Whether the body of a response still delivers: [OwnedResponse::next]. *)
Inductive BodyItem := BodyBytes (b : bytes) | BodyEnd | BodyError.
Definition owned_next (forced : bool) (item : BodyItem) (i : nat) (c : Client)
    : Client * result (option bytes) unit :=
  if forced then (c, Err ())
  else
    match item with
    | BodyBytes b => (c, Ok (Some b))
    | BodyEnd => (c, Ok None)
    | BodyError => (update_owner Owner_retire i c, Err ())
    end.

(** ** Interleaving *)

(** The guards alive in the client's tasks: openings, and the leases of running requests,
    which are objects in memory, so a [usize] can count them. *)
Record ClientWorld := mkClientWorld {
  cw_client : Client;
  cw_openings : nat;
  cw_leases : list (nat * nat) }.

Inductive client_step (maximum : Z) : ClientWorld -> ClientWorld -> Prop :=
| cstep_ready now_ms now g g' i request c c' n ls :
    zlen ls + 1 < 2 ^ 64 ->
    select maximum now_ms now c g = (c', g', Ok (Ready i request)) ->
    client_step maximum (mkClientWorld c n ls) (mkClientWorld c' n ((i, 1%nat) :: ls))
| cstep_open now_ms now g g' c c' n ls :
    select maximum now_ms now c g = (c', g', Ok Opening) ->
    client_step maximum (mkClientWorld c n ls) (mkClientWorld c' (S n) ls)
| cstep_wait now_ms now g g' c c' n ls :
    select maximum now_ms now c g = (c', g', Ok Wait) ->
    client_step maximum (mkClientWorld c n ls) (mkClientWorld c' n ls)
| cstep_select_failed now_ms now g g' e c c' n ls :
    select maximum now_ms now c g = (c', g', Err e) ->
    client_step maximum (mkClientWorld c n ls) (mkClientWorld c' n ls)
| cstep_establish i node_id core shared started c c' n ls :
    cl_store c !! i = None -> cs_shared core = true ->
    push_owner i (mkClient (cl_state c) (<[i := Owner_new node_id core shared started]> (cl_store c))) = Ok c' ->
    client_step maximum (mkClientWorld c (S n) ls) (mkClientWorld (Opening_drop c') n ls)
| cstep_abandon c n ls :
    client_step maximum (mkClientWorld c (S n) ls) (mkClientWorld (Opening_drop c) n ls)
| cstep_shared i sh c n ls :
    client_step maximum (mkClientWorld c n ls) (mkClientWorld (update_owner (with_shared sh) i c) n ls)
| cstep_exchange_ended outcome i k c n ls ls' :
    client_step maximum (mkClientWorld c n (ls ++ (i, k) :: ls'))
      (mkClientWorld (exchange_ended outcome i c) n (ls ++ (i, k) :: ls'))
| cstep_retire i k c n ls ls' :
    client_step maximum (mkClientWorld c n (ls ++ (i, k) :: ls'))
      (mkClientWorld (update_owner Owner_retire i c) n (ls ++ (i, k) :: ls'))
| cstep_release i k c n ls ls' :
    client_step maximum (mkClientWorld c n (ls ++ (i, k) :: ls'))
      (mkClientWorld (update_owner Lease_release i c) n (ls ++ ls'))
| cstep_close c n ls :
    client_step maximum (mkClientWorld c n ls) (mkClientWorld (close_begin c) n ls)
| cstep_close_take c n ls :
    cl_closed (cl_state c) = true -> close_idle c = true ->
    client_step maximum (mkClientWorld c n ls) (mkClientWorld (fst (close_take c)) n ls)
| cstep_close_request i g g' r c c' n ls :
    i ∉ owners_of c -> close_request i c g = (c', g', r) ->
    client_step maximum (mkClientWorld c n ls) (mkClientWorld c' n ls)
| cstep_close_deadline c n ls :
    client_step maximum (mkClientWorld c n ls) (mkClientWorld (close_deadline c) n ls).

Definition client_reachable (maximum : Z) : ClientWorld -> Prop :=
  rtc (client_step maximum) (mkClientWorld Client_new 0 []).
End Client.

(** * Theory

    What holds of the client's encrypted sessions in every interleaving: their accounts are
    exact and bounded, a retired session serves nothing, and selection picks the least loaded
    session that can take a request. *)

(** ** How sessions evolve *)

(** Retirement is permanent, and a session that is not retired still has its core. *)
Record owner_later (o o' : Owner) : Prop := mkOwnerLater {
  ol_node : ow_node_id o' = ow_node_id o;
  ol_retired : ow_retired o = true -> ow_retired o' = true;
  ol_core : ow_retired o' = false -> ow_core o' = ow_core o }.

#[export] Instance owner_later_preorder : PreOrder owner_later.
Proof.
  split; [done|]. intros o1 o2 o3 [N1 R1 C1] [N2 R2 C2]. split; [congruence|auto|].
  intros H. rewrite C2 by done. apply C1. destruct (ow_retired o2); naive_solver.
Qed.

Definition owners_evolve (st st' : gmap nat Owner) : Prop :=
  forall i o, st !! i = Some o -> exists o', st' !! i = Some o' /\ owner_later o o'.

#[export] Instance owners_evolve_preorder : PreOrder owners_evolve.
Proof.
  split; [intros st i o E; by exists o|].
  intros s1 s2 s3 H1 H2 i o E. destruct (H1 _ _ E) as (o2 & E2 & L2).
  destruct (H2 _ _ E2) as (o3 & E3 & L3). exists o3. split; [done|]. by etrans.
Qed.

Lemma owners_evolve_insert st i o o' :
  st !! i = Some o -> owner_later o o' -> owners_evolve st (<[i := o']> st).
Proof.
  intros E L j oj Ej. destruct (decide (j = i)) as [->|].
  - exists o'. rewrite lookup_insert_eq. by simplify_eq.
  - exists oj. by rewrite lookup_insert_ne.
Qed.

Lemma owners_evolve_alter f i st : (forall o, owner_later o (f o)) -> owners_evolve st (alter f i st).
Proof.
  intros Hf j o E. destruct (decide (j = i)) as [->|].
  - exists (f o). by rewrite lookup_alter_eq, E.
  - exists o. by rewrite lookup_alter_ne.
Qed.

Lemma owners_evolve_fold f l st :
  (forall o, owner_later o (f o)) -> owners_evolve st (fold_left (fun st i => alter f i st) l st).
Proof.
  intros Hf. revert st. induction l as [|i l IH]; intros st; simpl; [done|].
  etrans; [by apply (owners_evolve_alter f i)|apply IH].
Qed.

Lemma owners_evolve_fresh st i o : st !! i = None -> owners_evolve st (<[i := o]> st).
Proof. intros E j oj Ej. exists oj. rewrite lookup_insert_ne by congruence. done. Qed.

Lemma later_retire o : owner_later o (Owner_retire o).
Proof. by split. Qed.
Lemma later_idle now o : owner_later o (idle_check now o).
Proof. unfold idle_check. by destruct (is_fresh now o). Qed.
Lemma later_force o : owner_later o (Owner_force o).
Proof. by split. Qed.
#[export] Hint Resolve later_retire later_idle later_force : stogas.

(** The number of leases of every session, which only selection and release change. *)
Definition same_active (st st' : gmap nat Owner) : Prop :=
  forall i, ow_active <$> st' !! i = ow_active <$> st !! i.

Lemma same_active_alter f i st : (forall o, ow_active (f o) = ow_active o) -> same_active st (alter f i st).
Proof.
  intros Hf j. destruct (decide (j = i)) as [->|].
  - rewrite lookup_alter_eq. destruct (st !! i); simpl; [by rewrite Hf|done].
  - by rewrite lookup_alter_ne.
Qed.

Lemma same_active_fold f l st :
  (forall o, ow_active (f o) = ow_active o) -> same_active st (fold_left (fun st i => alter f i st) l st).
Proof.
  intros Hf. revert st. induction l as [|i l IH]; intros st j; simpl; [done|].
  rewrite (IH (alter f i st) j). by apply same_active_alter.
Qed.

Lemma same_active_insert st i o o' :
  st !! i = Some o -> ow_active o' = ow_active o -> same_active st (<[i := o']> st).
Proof.
  intros E Ha j. destruct (decide (j = i)) as [->|].
  - rewrite lookup_insert_eq, E. simpl. by rewrite Ha.
  - by rewrite lookup_insert_ne.
Qed.

Lemma idle_active now o : ow_active (idle_check now o) = ow_active o.
Proof. unfold idle_check. by destruct (is_fresh now o). Qed.

Section Sessions.
Context `{Kdf} `{Hash} `{Aead} `{Agreement} `{Random}.

(** ** The selection loop *)

Lemma select_loop_evolves now_ms now l st g st' g' r :
  select_loop now_ms now l st g = (st', g', r) -> owners_evolve st st'.
Proof.
  revert st g. induction l as [|i l IH]; intros st g; simpl; [by intros [= <- <- <-]|].
  destruct (st !! i) as [o|] eqn:E; [|apply IH]. destruct (ow_retired o) eqn:Hr; [apply IH|].
  destruct (ClientSession_expire _ _ _) as [sh [[]|]]; [|by intros [= <- <- <-]].
  assert (Hs : forall sh', owners_evolve st (<[i := with_shared sh' o]> st))
    by (intros; apply (owners_evolve_insert _ _ _ _ E); by split).
  assert (Ht : forall sh', owners_evolve st (<[i := Owner_retire (with_shared sh' o)]> st))
    by (intros; apply (owners_evolve_insert _ _ _ _ E); by split).
  destruct (ClientSession_request _ _ _) as [[sh1 g1] [request|[]]];
    try (by intros [= <- <- <-]); try (intros Hx; apply IH in Hx; etrans; [|exact Hx]; done).
  intros [= <- <- <-]. apply (owners_evolve_insert _ _ _ _ E). by split.
Qed.

(** Where the loop finds a session: all before it are retired or full, and its lease and
    dispatch time are the only accounts that change. *)
Lemma select_loop_active now_ms now l st g st' g' r :
  select_loop now_ms now l st g = (st', g', r) ->
  match r with
  | Ok (Some (i, _)) => exists st1 o, same_active st st1 /\ owners_evolve st st1
      /\ i ∈ l /\ st1 !! i = Some o /\ ow_retired o = false
      /\ st' = <[i := with_lease now o]> st1
  | _ => same_active st st'
  end.
Proof.
  revert st g. induction l as [|i l IH]; intros st g; simpl; [by intros [= <- <- <-]|].
  assert (Hskip : forall st1 g1, same_active st st1 -> owners_evolve st st1 ->
    select_loop now_ms now l st1 g1 = (st', g', r) ->
    match r with
    | Ok (Some (j, _)) => exists st1 o, same_active st st1 /\ owners_evolve st st1
        /\ j ∈ i :: l /\ st1 !! j = Some o /\ ow_retired o = false /\ st' = <[j := with_lease now o]> st1
    | _ => same_active st st'
    end).
  { intros st1 g1 Ha He Hx. apply IH in Hx. destruct r as [[[j request]|]|e].
    - destruct Hx as (st2 & o & Ha2 & He2 & Hin & Ej & Hr & ->). exists st2, o. split_and!; try done.
      + intros k. by rewrite Ha2, Ha.
      + by etrans.
      + by right.
    - intros k. by rewrite Hx, Ha.
    - intros k. by rewrite Hx, Ha. }
  destruct (st !! i) as [o|] eqn:E; [|by apply Hskip]. destruct (ow_retired o) eqn:Hr; [by apply Hskip|].
  destruct (ClientSession_expire _ _ _) as [sh [[]|]]; [|by intros [= <- <- <-]].
  assert (Hs : forall sh', same_active st (<[i := with_shared sh' o]> st)
      /\ owners_evolve st (<[i := with_shared sh' o]> st)).
  { intros. split; [by apply (same_active_insert _ _ _ _ E)|]. apply (owners_evolve_insert _ _ _ _ E). by split. }
  assert (Ht : forall sh', same_active st (<[i := Owner_retire (with_shared sh' o)]> st)
      /\ owners_evolve st (<[i := Owner_retire (with_shared sh' o)]> st)).
  { intros. split; [by apply (same_active_insert _ _ _ _ E)|]. apply (owners_evolve_insert _ _ _ _ E). by split. }
  destruct (ClientSession_request _ _ _) as [[sh1 g1] [request|[]]];
    try (intros [= <- <- <-]; by apply Hs); try (apply Hskip; [apply Hs|apply Hs]); try (apply Hskip; [apply Ht|apply Ht]).
  intros [= <- <- <-]. exists (<[i := with_shared sh1 o]> st), (with_shared sh1 o). destruct (Hs sh1).
  split_and!; try done; [by left|by rewrite lookup_insert_eq|]. by rewrite insert_insert_eq.
Qed.

(** ** The accounts *)

Definition known_owners (st : gmap nat Owner) (l : list nat) : Prop :=
  Forall (fun i => is_Some (st !! i)) l.

(** A session that is not retired still has its core. *)
Definition cores_ok (st : gmap nat Owner) (l : list nat) : Prop :=
  Forall (fun i => forall o, st !! i = Some o -> ow_retired o = false -> cs_shared (ow_core o) = true) l.

Definition leases_counted (st : gmap nat Owner) (ls : list (nat * nat)) : Prop :=
  map_Forall (fun i o => ow_active o = held ls i) st
  /\ Forall (fun l => is_Some (st !! fst l)) ls /\ zlen ls < 2 ^ 64.

Definition owners_bounded (maximum : Z) (s : ClientState) (st : gmap nat Owner) (n : nat) : Prop :=
  Z.of_nat n = Z.b2z (cl_opening s)
  /\ zlen (cl_owners s) + Z.b2z (cl_opening s) <= maximum + 1
  /\ serving_owners st (cl_owners s) + Z.b2z (cl_opening s) <= maximum.

Record sessions_ok (maximum : Z) (w : ClientWorld) : Prop := mkSessionsOk {
  so_bounded : owners_bounded maximum (cl_state (cw_client w)) (cl_store (cw_client w)) (cw_openings w);
  so_known : known_owners (cl_store (cw_client w)) (owners_of (cw_client w));
  so_cores : cores_ok (cl_store (cw_client w)) (owners_of (cw_client w));
  so_leases : leases_counted (cl_store (cw_client w)) (cw_leases w) }.

#[local] Instance known_owners_perm st : Proper (Permutation ==> iff) (known_owners st).
Proof. intros l l' Hp. unfold known_owners. by rewrite Hp. Qed.
#[local] Instance cores_ok_perm st : Proper (Permutation ==> iff) (cores_ok st).
Proof. intros l l' Hp. unfold cores_ok. by rewrite Hp. Qed.

Lemma evolve_known st st' l : owners_evolve st st' -> known_owners st l -> known_owners st' l.
Proof.
  intros He Hk. eapply Forall_impl; [exact Hk|]. intros i [o E]. destruct (He _ _ E) as (o' & E' & _). by exists o'.
Qed.

Lemma evolve_cores st st' l :
  owners_evolve st st' -> known_owners st l -> cores_ok st l -> cores_ok st' l.
Proof.
  unfold known_owners, cores_ok. rewrite !Forall_forall. intros He Hk Hc i Hi o' E' Hr.
  destruct (Hk i Hi) as [o E]. destruct (He _ _ E) as (o2 & E2 & []). simplify_eq.
  rewrite ol_core0 by done. apply (Hc i Hi o E). destruct (ow_retired o); naive_solver.
Qed.

Lemma evolve_retired st st' i :
  owners_evolve st st' -> owner_retired st i = true -> owner_retired st' i = true.
Proof.
  unfold owner_retired. intros He. destruct (st !! i) as [o|] eqn:E; [|done].
  destruct (He _ _ E) as (o' & -> & []). auto.
Qed.

Lemma evolve_serving st st' l :
  owners_evolve st st' -> serving_owners st' l <= serving_owners st l.
Proof.
  intros He. apply zlen_filter_le. intros i _ Hi. pose proof (evolve_retired _ _ i He).
  destruct (owner_retired st i); naive_solver.
Qed.

Lemma serving_perm st l l' : l ≡ₚ l' -> serving_owners st l = serving_owners st l'.
Proof. unfold serving_owners, zlen. intros Hp. by rewrite Hp. Qed.

Lemma zlen_perm {A} (l l' : list A) : l ≡ₚ l' -> zlen l = zlen l'.
Proof. unfold zlen. intros Hp. by rewrite Hp. Qed.

Lemma leases_same st st' ls : same_active st st' -> leases_counted st ls -> leases_counted st' ls.
Proof.
  intros Ha (Hm & Hl & Hn). split_and!; [|  |done].
  - intros i o' E'. specialize (Ha i). rewrite E' in Ha. destruct (st !! i) as [o|] eqn:E; [|done].
    injection Ha as ->. by apply Hm.
  - eapply Forall_impl; [exact Hl|]. intros l [o E]. specialize (Ha (fst l)). rewrite E in Ha.
    destruct (st' !! fst l); [eauto|done].
Qed.

Lemma leases_take st ls i o now :
  st !! i = Some o -> zlen ls + 1 < 2 ^ 64 -> leases_counted st ls ->
  leases_counted (<[i := with_lease now o]> st) ((i, 1%nat) :: ls).
Proof.
  intros E Hn (Hm & Hl & _). split_and!.
  - intros j oj Ej. rewrite held_cons. simpl. destruct (decide (j = i)) as [->|].
    + rewrite lookup_insert_eq in Ej. injection Ej as <-. rewrite decide_True by done. simpl.
      pose proof (Hm _ _ E) as Hh. cbn beta in Hh. rewrite Hh. pose proof (held_nonneg ls i).
      assert (held ls i <= zlen ls) by apply zlen_filter. rewrite Z.mod_small; lia.
    + rewrite lookup_insert_ne in Ej by done. rewrite decide_False by done. by apply Hm.
  - constructor; simpl; [rewrite lookup_insert_eq; eauto|]. eapply Forall_impl; [exact Hl|].
    intros l Hs. destruct (decide (fst l = i)) as [->|]; [rewrite lookup_insert_eq; eauto|].
    by rewrite lookup_insert_ne.
  - rewrite zlen_cons. lia.
Qed.

Lemma leases_return st ls ls' i k :
  leases_counted st (ls ++ (i, k) :: ls') -> leases_counted (alter Lease_release i st) (ls ++ ls').
Proof.
  intros (Hm & Hl & Hn). apply Forall_app in Hl as [Hl1 Hl2]. apply Forall_cons in Hl2 as [_ Hl2].
  rewrite zlen_app, zlen_cons in Hn. split_and!; [| |rewrite zlen_app; lia].
  - intros j oj Ej. apply lookup_alter_Some in Ej as [(-> & o & E & ->)|[Hne E]];
      specialize (Hm _ _ E); cbn beta in Hm; rewrite held_app, held_cons in Hm; rewrite held_app; simpl in *.
    + rewrite decide_True in Hm by done. rewrite Hm. pose proof (held_nonneg ls j).
      pose proof (held_nonneg ls' j). assert (held ls j <= zlen ls) by apply zlen_filter.
      assert (held ls' j <= zlen ls') by apply zlen_filter. rewrite Z.mod_small; lia.
    + rewrite decide_False in Hm by done. lia.
  - apply Forall_app. split; (eapply Forall_impl; [eassumption|]); intros l Hs; by rewrite lookup_alter_is_Some.
Qed.

Lemma leases_fresh st ls i node_id core shared started :
  st !! i = None -> leases_counted st ls ->
  leases_counted (<[i := Owner_new node_id core shared started]> st) ls.
Proof.
  intros E (Hm & Hl & Hn). assert (Hne : Forall (fun l => fst l <> i) ls).
  { eapply Forall_impl; [exact Hl|]. intros l [o E'] <-. congruence. }
  split_and!; [| |done].
  - apply map_Forall_insert_2; [|done]. by rewrite held_none.
  - rewrite Forall_forall in *. intros l Hin. rewrite lookup_insert_ne by (symmetry; auto). auto.
Qed.

(** *** Selection *)

(** What every selection of an open client does to its state and store. *)
Lemma select_shape maximum now_ms now c g c' g' r :
  select maximum now_ms now c g = (c', g', r) -> cl_closed (cl_state c) = false ->
  exists st0 l, st0 = idle_all now (owners_of c) (cl_store c) /\ l ≡ₚ kept st0 (owners_of c)
    /\ owners_evolve (cl_store c) st0 /\ same_active (cl_store c) st0
    /\ owners_evolve st0 (cl_store c')
    /\ cl_state c' = with_opening (match r with Ok Opening => true | _ => cl_opening (cl_state c) end)
                       (with_owners l (cl_state c))
    /\ (r = Ok Opening -> may_open maximum (with_owners l (cl_state c)) (cl_store c') = true).
Proof.
  unfold select. intros Hs Hc. rewrite Hc in Hs.
  set (st0 := idle_all now (owners_of c) (cl_store c)) in *. set (l := sort_by_key _ _) in *.
  exists st0, l. assert (He : owners_evolve (cl_store c) st0).
  { apply owners_evolve_fold. intros. apply later_idle. }
  assert (Ha : same_active (cl_store c) st0) by (apply same_active_fold; intros; apply idle_active).
  assert (Hp : l ≡ₚ kept st0 (owners_of c)) by apply sort_by_key_perm.
  destruct (select_loop now_ms now l st0 g) as [[st1 g1] [[[i request]|]|e]] eqn:Hl;
    apply select_loop_evolves in Hl; [| destruct (may_open _ _ _) eqn:Hm|];
    injection Hs as <- <- <-; split_and!; try done; by destruct (cl_state c) as [? [] ?].
Qed.

Lemma kept_known st l : known_owners st l -> known_owners st (kept st l).
Proof. unfold known_owners, kept. rewrite !Forall_forall. intros Hk i [_ Hi]%list_elem_of_filter. auto. Qed.
Lemma kept_cores st l : cores_ok st l -> cores_ok st (kept st l).
Proof. unfold cores_ok, kept. rewrite !Forall_forall. intros Hk i [_ Hi]%list_elem_of_filter. by apply Hk. Qed.

Lemma select_bounded maximum now_ms now c g c' g' r n :
  select maximum now_ms now c g = (c', g', r) -> cl_closed (cl_state c) = false ->
  owners_bounded maximum (cl_state c) (cl_store c) n ->
  known_owners (cl_store c) (owners_of c) -> cores_ok (cl_store c) (owners_of c) ->
  owners_bounded maximum (cl_state c') (cl_store c') (match r with Ok Opening => S n | _ => n end)
  /\ known_owners (cl_store c') (owners_of c') /\ cores_ok (cl_store c') (owners_of c').
Proof.
  intros Hs Hcl (Hn & Hl & Hv) Hk Hc.
  destruct (select_shape _ _ _ _ _ _ _ _ Hs Hcl) as (st0 & l & Hst0 & Hp & He0 & Ha0 & He1 & Hst & Hm).
  assert (He : owners_evolve (cl_store c) (cl_store c')) by by etrans.
  assert (Hk0 : known_owners (cl_store c') l).
  { rewrite Hp. apply (evolve_known st0); [done|]. apply kept_known. by eapply evolve_known. }
  assert (Hzl : zlen l <= zlen (owners_of c)) by (rewrite (zlen_perm _ _ Hp); apply zlen_filter).
  assert (Hzv : serving_owners (cl_store c') l <= serving_owners (cl_store c) (owners_of c)).
  { rewrite (serving_perm _ _ _ Hp). etrans; [apply (evolve_serving (cl_store c)); done|]. apply zlen_filter_filter. }
  assert (owners_of c' = l) as -> by (unfold owners_of; by rewrite Hst).
  rewrite Hst. split_and!; [|done|].
  - unfold owners_bounded in *. unfold owners_of in *. simpl.
    destruct r as [[| |]|]; simpl; try (split_and!; [done|lia|lia]).
    specialize (Hm eq_refl). unfold may_open in Hm. simpl in Hm.
    destruct (cl_opening (cl_state c)); [done|]. simpl in *.
    apply andb_true_iff in Hm as [Hm1 Hm2]. zbool. lia.
  - rewrite Hp. apply (evolve_cores st0); [done|apply kept_known; by eapply evolve_known|].
    apply kept_cores. by eapply (evolve_cores (cl_store c)).
Qed.

Lemma select_leases maximum now_ms now c g c' g' r ls :
  select maximum now_ms now c g = (c', g', r) ->
  (match r with Ok (Ready _ _) => zlen ls + 1 < 2 ^ 64 | _ => True end) ->
  leases_counted (cl_store c) ls ->
  leases_counted (cl_store c') (match r with Ok (Ready i _) => (i, 1%nat) :: ls | _ => ls end).
Proof.
  unfold select. destruct (cl_closed _); [by intros [= <- <- <-]|].
  set (st0 := idle_all now (owners_of c) (cl_store c)). set (l := sort_by_key _ _).
  assert (Ha : same_active (cl_store c) st0) by (apply same_active_fold; intros; apply idle_active).
  intros Hs Hn Hl. apply (leases_same _ st0) in Hl; [|done].
  destruct (select_loop now_ms now l st0 g) as [[st1 g1] [[[i request]|]|e]] eqn:Hx;
    apply select_loop_active in Hx; [|destruct (may_open _ _ _)|]; injection Hs as <- <- <-; simpl;
    try by eapply leases_same.
  destruct Hx as (st2 & o & Ha2 & _ & _ & E & _ & ->). apply leases_take; [done|done|]. by eapply leases_same.
Qed.

Lemma select_failed_closed maximum now_ms now c g c' g' r :
  select maximum now_ms now c g = (c', g', r) -> cl_closed (cl_state c) = true -> c' = c /\ r = Err Ec_Closed.
Proof. unfold select. intros Hs Hc. rewrite Hc in Hs. by injection Hs as <- <- <-. Qed.

Lemma select_ok maximum now_ms now c g c' g' r n ls :
  select maximum now_ms now c g = (c', g', r) ->
  (match r with Ok (Ready _ _) => zlen ls + 1 < 2 ^ 64 | _ => True end) ->
  sessions_ok maximum (mkClientWorld c n ls) ->
  sessions_ok maximum (mkClientWorld c' (match r with Ok Opening => S n | _ => n end)
    (match r with Ok (Ready i _) => (i, 1%nat) :: ls | _ => ls end)).
Proof.
  intros Hs Hn [Hb Hk Hc Hl]. simpl in *. destruct (cl_closed (cl_state c)) eqn:Hcl.
  - destruct (select_failed_closed _ _ _ _ _ _ _ _ Hs Hcl) as [-> ->]. by split.
  - destruct (select_bounded _ _ _ _ _ _ _ _ _ Hs Hcl Hb Hk Hc) as (? & ? & ?).
    split; simpl; [done|done|done|]. by eapply select_leases.
Qed.

(** A change of the store that keeps the lists and evolves the sessions. *)
Lemma sessions_ok_evolve maximum s st st' n ls ls' :
  owners_evolve st st' -> leases_counted st' ls' ->
  sessions_ok maximum (mkClientWorld (mkClient s st) n ls) ->
  sessions_ok maximum (mkClientWorld (mkClient s st') n ls').
Proof.
  intros He Hl' [(Hn & Hb & Hv) Hk Hc _]. simpl in *. split; simpl; [|by eapply evolve_known|by eapply evolve_cores|done].
  unfold owners_bounded. pose proof (evolve_serving _ _ (cl_owners s) He). split_and!; [done|done|lia].
Qed.

Lemma sessions_ok_update maximum f i c n ls :
  (forall o, owner_later o (f o)) -> (forall o, ow_active (f o) = ow_active o) ->
  sessions_ok maximum (mkClientWorld c n ls) ->
  sessions_ok maximum (mkClientWorld (update_owner f i c) n ls).
Proof.
  intros Hf Ha Hok. destruct c as [s st]. eapply sessions_ok_evolve; [by apply (owners_evolve_alter f i)| |done].
  eapply leases_same; [by apply same_active_alter|apply Hok].
Qed.

Lemma sessions_ok_fold maximum f l c n ls :
  (forall o, owner_later o (f o)) -> (forall o, ow_active (f o) = ow_active o) ->
  sessions_ok maximum (mkClientWorld c n ls) ->
  sessions_ok maximum (mkClientWorld (mkClient (cl_state c)
    (fold_left (fun st i => alter f i st) l (cl_store c))) n ls).
Proof.
  intros Hf Ha Hok. destruct c as [s st]. eapply sessions_ok_evolve; [by apply (owners_evolve_fold f l)| |done].
  eapply leases_same; [by apply same_active_fold|apply Hok].
Qed.

Lemma establish_ok maximum i node_id core shared started c c' n ls :
  cl_store c !! i = None -> cs_shared core = true ->
  push_owner i (mkClient (cl_state c) (<[i := Owner_new node_id core shared started]> (cl_store c))) = Ok c' ->
  sessions_ok maximum (mkClientWorld c (S n) ls) ->
  sessions_ok maximum (mkClientWorld (Opening_drop c') n ls).
Proof.
  intros E Hcore Hp [(Hn & Hb & Hv) Hk Hc Hl]. unfold push_owner in Hp. simpl in *.
  destruct (cl_closed _); [done|]. injection Hp as <-.
  set (o := Owner_new node_id core shared started) in *.
  assert (He : owners_evolve (cl_store c) (<[i := o]> (cl_store c))) by by apply owners_evolve_fresh.
  destruct (cl_opening (cl_state c)) eqn:Ho; [|simpl in *; lia].
  split; unfold owners_bounded, owners_of in *; simpl in *.
  - pose proof (evolve_serving _ _ (cl_owners (cl_state c)) He) as Hev. unfold serving_owners in *.
    rewrite filter_app, !zlen_app. change (zlen [i]) with 1.
    pose proof (zlen_filter_one (fun j => owner_retired (<[i := o]> (cl_store c)) j = false) i). lia.
  - apply Forall_app. split; [by eapply evolve_known|]. apply Forall_singleton. rewrite lookup_insert_eq. eauto.
  - apply Forall_app. split; [by eapply evolve_cores|]. apply Forall_singleton. rewrite lookup_insert_eq.
    by intros ? [= <-] _.
  - by apply leases_fresh.
Qed.

Lemma client_step_ok maximum w w' :
  client_step maximum w w' -> sessions_ok maximum w -> sessions_ok maximum w'.
Proof.
  intros Hs Hok. destruct Hs.
  - by apply (select_ok _ _ _ _ _ _ _ _ _ _ H5).
  - by apply (select_ok _ _ _ _ _ _ _ _ _ ls H4).
  - by apply (select_ok _ _ _ _ _ _ _ _ _ ls H4).
  - by apply (select_ok _ _ _ _ _ _ _ _ n ls H4).
  - by eapply establish_ok.
  - destruct Hok as [(Hn & Hb & Hv) Hk Hc Hl]. simpl in *. destruct (cl_opening _) eqn:Ho; [|simpl in *; lia].
    split; simpl; try done. unfold owners_bounded in *. simpl in *. lia.
  - apply sessions_ok_update; [by split|done|done].
  - destruct outcome; simpl; [done| |by apply sessions_ok_update; [apply later_retire|..]].
    destruct (cl_store c !! i); [|done].
    apply sessions_ok_fold; [intros x|intros x|done]; by destruct (bool_decide _).
  - by apply sessions_ok_update; [apply later_retire|..].
  - destruct c as [s st]. eapply sessions_ok_evolve; [apply (owners_evolve_alter Lease_release i); by split| |done].
    apply (leases_return _ _ _ _ k), Hok.
  - destruct Hok. by split.
  - destruct Hok as [(Hn & Hb & Hv) Hk Hc Hl]. split; simpl in *; [|constructor|constructor|done].
    unfold owners_bounded, serving_owners, owners_of, zlen in *. simpl in *. lia.
  - unfold close_request in *. destruct (cl_store c !! i) as [o|] eqn:E; [|by simplify_eq].
    destruct (ClientSession_request _ _ _) as [[sh g1] req]. simplify_eq. destruct Hok as [(Hn & Hb & Hv) Hk Hc Hl].
    simpl in *. set (o' := mkOwner _ _ _ _ _ _ _).
    assert (Hne : forall j, j ∈ owners_of c -> <[i := o']> (cl_store c) !! j = cl_store c !! j).
    { intros j Hj. rewrite lookup_insert_ne; [done|]. by intros ->. }
    split; simpl; unfold owners_of in *; simpl.
    + split_and!; [done|done|]. replace (serving_owners _ _) with (serving_owners (cl_store c) (cl_owners (cl_state c))); [done|].
      unfold serving_owners. f_equal. apply filter_ext_in. intros j Hj. unfold owner_retired. by rewrite Hne.
    + unfold known_owners in *. rewrite Forall_forall in *. intros j Hj. rewrite Hne by done. auto.
    + unfold cores_ok in *. rewrite Forall_forall in *. intros j Hj. rewrite Hne by done. by apply Hc.
    + eapply leases_same; [|done]. by apply (same_active_insert _ _ _ _ E).
  - apply sessions_ok_fold; [apply later_force|done|done].
Qed.

Lemma client_reachable_ok maximum w : 0 < maximum -> client_reachable maximum w -> sessions_ok maximum w.
Proof.
  intros Hm. unfold client_reachable.
  assert (H0' : sessions_ok maximum (mkClientWorld Client_new 0 [])).
  { split; unfold owners_bounded, serving_owners, zlen; simpl; [lia|constructor|constructor|].
    split_and!; [apply map_Forall_empty|constructor|done]. }
  induction 1 as [|w0 w1 w2 Hs _ IH]; [done|]. apply IH. by eapply client_step_ok.
Qed.

(** In every interleaving of requests, session setups and closure the client's accounts
    are exact: at most one session is being opened, at most the configured number serves
    and one more is kept, each session counts the requests that lease it, and a session
    that is not retired still has its key material. *)
Theorem session_accounts maximum w :
  0 < maximum -> client_reachable maximum w ->
  let s := cl_state (cw_client w) in
  Z.of_nat (cw_openings w) = Z.b2z (cl_opening s)
  /\ serving_owners (cl_store (cw_client w)) (cl_owners s) + Z.b2z (cl_opening s) <= maximum
  /\ zlen (cl_owners s) + Z.b2z (cl_opening s) <= maximum + 1
  /\ (forall i o, cl_store (cw_client w) !! i = Some o -> ow_active o = held (cw_leases w) i)
  /\ (forall i o, i ∈ cl_owners s -> cl_store (cw_client w) !! i = Some o ->
        ow_retired o = false -> cs_shared (ow_core o) = true).
Proof.
  intros Hm Hr. destruct (client_reachable_ok _ _ Hm Hr) as [(Hn & Hb & Hv) Hk Hc (Ha & _ & _)].
  simpl. split_and!; [done|done|done|intros i o E; by apply Ha|].
  intros i o Hi. unfold cores_ok in Hc. rewrite Forall_forall in Hc. by apply Hc.
Qed.

(** ** Selection *)

Lemma idle_all_fresh now l st i o :
  i ∈ l -> st !! i = Some o -> owner_retired (idle_all now l st) i = false ->
  is_fresh now o = true /\ ow_retired o = false.
Proof.
  intros Hi E Hr. unfold idle_all in Hr. revert st o E Hr.
  induction l as [|j l IH]; intros st o E Hr; [by apply elem_of_nil in Hi|]. simpl in Hr.
  destruct (decide (j = i)) as [->|Hne].
  - assert (Hr' : owner_retired (alter (idle_check now) i st) i = false).
    { destruct (owner_retired (alter (idle_check now) i st) i) eqn:Hx; [|done].
      rewrite <- Hr. symmetry. eapply evolve_retired; [|exact Hx].
      apply owners_evolve_fold. intros. apply later_idle. }
    unfold owner_retired in Hr'. rewrite lookup_alter_eq, E in Hr'. simpl in Hr'. unfold idle_check in Hr'.
    by destruct (is_fresh now o).
  - apply (IH ltac:(set_solver) (alter (idle_check now) j st)); [by rewrite lookup_alter_ne|done].
Qed.

Lemma select_loop_no_state now_ms now l st g st' g' r :
  select_loop now_ms now l st g = (st', g', r) -> cores_ok st l -> known_owners st l -> r <> Err Ec_State.
Proof.
  revert st g. induction l as [|i l IH]; intros st g; simpl; [by intros [= <- <- <-]|].
  intros Hx [Hc Hcs]%Forall_cons [Hk Hks]%Forall_cons.
  destruct (st !! i) as [o|] eqn:E; [|by eapply IH]. destruct (ow_retired o) eqn:Hr; [by eapply IH|].
  specialize (Hc o eq_refl Hr). unfold ClientSession_expire in Hx. rewrite Hc in Hx.
  assert (Hs : forall o', owner_later o o' -> cores_ok (<[i := o']> st) l /\ known_owners (<[i := o']> st) l).
  { intros o' Ho. pose proof (owners_evolve_insert _ _ _ _ E Ho) as He.
    split; [by eapply evolve_cores|by eapply evolve_known]. }
  destruct (ClientSession_request _ _ _) as [[sh1 g1] [request|[]]]; try (by injection Hx as <- <- <-);
    (eapply IH; [exact Hx|apply Hs; by split|apply Hs; by split]).
Qed.

(** A request is started only by an open client, in a listed session that is not retired
    and was last used within its idle time, whose number of running requests grows by one;
    and no selection fails for lack of a session's key material. *)
Theorem selection_sound maximum w now_ms now g c' g' r :
  0 < maximum -> client_reachable maximum w -> zlen (cw_leases w) + 1 < 2 ^ 64 ->
  select maximum now_ms now (cw_client w) g = (c', g', r) ->
  r <> Err Ec_State
  /\ (forall i request, r = Ok (Ready i request) ->
        cl_closed (cl_state (cw_client w)) = false
        /\ i ∈ owners_of (cw_client w)
        /\ (exists o, cl_store (cw_client w) !! i = Some o /\ ow_retired o = false /\ is_fresh now o = true)
        /\ owner_active (cl_store c') i = owner_active (cl_store (cw_client w)) i + 1
        /\ owner_retired (cl_store c') i = false).
Proof.
  intros Hm Hr Hlen Hs. destruct (client_reachable_ok _ _ Hm Hr) as [_ Hk Hc (Ha & _ & _)].
  unfold select in Hs. destruct (cl_closed _) eqn:Hcl; [injection Hs as <- <- <-; naive_solver|].
  set (c := cw_client w) in *. set (st0 := idle_all now (owners_of c) (cl_store c)) in *. set (l := sort_by_key _ _) in *.
  assert (He : owners_evolve (cl_store c) st0) by (apply owners_evolve_fold; intros; apply later_idle).
  assert (Hsa : same_active (cl_store c) st0) by (apply same_active_fold; intros; apply idle_active).
  assert (Hp : l ≡ₚ kept st0 (owners_of c)) by apply sort_by_key_perm.
  assert (Hcores : cores_ok st0 l) by (rewrite Hp; apply kept_cores; by eapply evolve_cores).
  assert (Hknown : known_owners st0 l) by (rewrite Hp; apply kept_known; by eapply evolve_known).
  destruct (select_loop now_ms now l st0 g) as [[st1 g1] r1] eqn:Hx.
  pose proof (select_loop_no_state _ _ _ _ _ _ _ _ Hx Hcores Hknown) as Hns.
  apply select_loop_active in Hx.
  destruct r1 as [[[i request]|]|e]; [|destruct (may_open _ _ _)|]; injection Hs as <- <- <-; try (split; [naive_solver|done]).
  split; [done|]. intros j request' [= <- <-]. destruct Hx as (st2 & o2 & Ha2 & He2 & Hin & E2 & Hr2 & ->).
  rewrite Hp in Hin. apply list_elem_of_filter in Hin as [_ Hin]. simpl.
  unfold known_owners in Hk. rewrite Forall_forall in Hk. destruct (Hk _ Hin) as [o E].
  assert (Hret : owner_retired st0 i = false).
  { destruct (owner_retired st0 i) eqn:Hx; [|done]. apply (evolve_retired st0 st2) in Hx; [|done].
    unfold owner_retired in Hx. rewrite E2 in Hx. congruence. }
  destruct (idle_all_fresh _ _ _ _ _ Hin E Hret) as [Hfresh Hnr].
  split_and!; [done|done|by exists o| |unfold owner_retired; by rewrite lookup_insert_eq].
  unfold owner_active. rewrite lookup_insert_eq, E. simpl.
  assert (ow_active o2 = ow_active o) as ->.
  { specialize (Ha2 i). specialize (Hsa i). rewrite E2, Hsa, E in Ha2. by injection Ha2. }
  pose proof (Ha _ _ E) as Hh. cbn beta in Hh. rewrite Hh. pose proof (held_nonneg (cw_leases w) i).
  assert (held (cw_leases w) i <= zlen (cw_leases w)) by apply zlen_filter. rewrite Z.mod_small; lia.
Qed.
End Sessions.
