(* ===== verification/EncryptedSend.v ===== *)
(** Requests on encrypted sessions ([sdk/src/encrypted_client.rs]: [acquire], [exchange],
    [send], [own]): a session is selected or set up, its evidence appraised again, the request
    carried once, and carried once more through another session only when the gateway refused
    it inside the first.

    What a request meets is a parameter: each turn of [acquire] has its clock readings, its
    setup or preparation, and what other tasks did to the shared state while it waited. *)

From S2P Require Import Prelude Primitives BTree Json Signing Attestation Setup Receipt Provisioning Documents.
From S2P Require Import Deserialize Approvals Snp Releases Amd Collateral Certificates Snapshot Boot EvidenceClient HttpTypes.
From S2P Require Import Http2Pool EncryptedHttp ReceiptHttp NativeHttp EncryptedSetup Record Ratchet Window Session EncryptedClient.

Open Scope Z_scope.

Section Send.
Context `{Kdf} `{Aead} `{Agreement} `{Hpke} `{Random} `{HttpText}.
Context `{Json} `{Base64} `{Signatures} `{Hash} `{Encodings} `{Sigstore} `{X509} `{Unicode}.

(** The client's shared state: its sessions, the retained context of each session's
    [Channel], the evidence client, and the identity of the next session. *)
Record Sessions := mkSessions {
  ws_client : Client;
  ws_channels : gmap nat RequestContext;
  ws_evidence : EvidenceClient;
  ws_next : nat }.

Definition with_client (c : Client) (w : Sessions) : Sessions :=
  mkSessions c (ws_channels w) (ws_evidence w) (ws_next w).
Definition with_evidence (ev : EvidenceClient) (w : Sessions) : Sessions :=
  mkSessions (ws_client w) (ws_channels w) ev (ws_next w).
Definition with_channel (i : nat) (ctx : RequestContext) (w : Sessions) : Sessions :=
  mkSessions (ws_client w) (<[i := ctx]> (ws_channels w)) (ws_evidence w) (ws_next w).
Definition update_session (f : Owner -> Owner) (i : nat) (w : Sessions) : Sessions :=
  with_client (update_owner f i (ws_client w)) w.

Record Selected := mkSelected {
  sl_owner : nat;
  sl_exchange : ClientRequest;
  sl_context : RequestContext }.

(** ** Acquisition *)

Record Turn := mkTurn {
  tn_now_ms : Z;
  tn_now : Z;
  tn_instant : Z;
  tn_others : Sessions -> Sessions;
  tn_preparation : Preparation;
  tn_setup : SetupRun;
  tn_closing : bool;
  tn_expired : bool }.

(** A request that is given up before its exchange: the lease and the reader are dropped. *)
Definition abandon (i : nat) (request : ClientRequest) : Sessions -> Sessions :=
  update_session (fun o => Lease_release (with_shared (ResponseReader_drop (ow_shared o) (cr_reader request)) o)) i.

(** The selected session's evidence is appraised before the request. *)
Definition ready_turn (deadline : Z) (t : Turn) (i : nat) (request : ClientRequest) (w : Sessions)
    : Sessions * result Selected ClientError :=
  match ws_channels w !! i with
  | None => (abandon i request w, Err Ec_State)
  | Some retained =>
      let '(ev, retained, out) := prepare (tn_preparation t) (tn_instant t) deadline (ws_evidence w) retained in
      let w := tn_others t (with_channel i retained (with_evidence ev w)) in
      if tn_expired t then (abandon i request w, Err Ec_Deadline)
      else
        match out with
        | Err e => (abandon i request (update_session Owner_retire i w), Err (Ec_Appraisal e))
        | Ok context =>
            if cl_closed (cl_state (ws_client w)) then (abandon i request w, Err Ec_Closed)
            else (w, Ok (mkSelected i request context))
        end
  end.

(** [Owner::new] and the push of an established session. *)
Definition add_session (started : Z) (conn : Connection) (w : Sessions) : result Sessions ClientError :=
  let i := ws_next w in
  let owner := Owner_new (vr_node_id (vn_hardware (vb_identity (vx_boot (cn_appraisal conn))))) (cn_session conn) (cn_shared conn) started in
  let c := ws_client w in
  let? c := push_owner i (mkClient (cl_state c) (<[i := owner]> (cl_store c))) in
  Ok (mkSessions c (<[i := mkRequestContext (cn_snapshot conn) (cn_appraisal conn)]> (ws_channels w))
        (ws_evidence w) (S i)).

Definition opening_turn (environment : Environment) (deadline : Z) (t : Turn) (w : Sessions) (g : rng)
    : Sessions * rng * option ClientError :=
  let opened w := with_client (Opening_drop (ws_client w)) w in
  if tn_closing t then (opened (tn_others t w), g, Some Ec_Closed)
  else
    let '(ev, g, out) := connect (tn_setup t) environment (tn_instant t) deadline (ws_evidence w) g in
    let w := tn_others t (with_evidence ev w) in
    if tn_expired t then (opened w, g, Some Ec_Deadline)
    else
      match out with
      | Err e => (opened w, g, Some (Ec_Setup e))
      | Ok conn =>
          match add_session (tn_now t) conn w with
          | Err e => (opened w, g, Some e)
          | Ok w => (opened w, g, None)
          end
      end.

(** The setup deadline of [acquire]: at most 15 s, in milliseconds of the monotonic clock. *)
Definition session_deadline (now deadline : Z) : Z := Z.min deadline (now + 15000).

(** The turns end at the setup deadline. *)
Fixpoint acquire_session (maximum : Z) (environment : Environment) (deadline : Z) (turns : list Turn)
    (w : Sessions) (g : rng) : Sessions * rng * result Selected ClientError :=
  match turns with
  | [] => (w, g, Err Ec_Deadline)
  | t :: turns =>
      match select maximum (tn_now_ms t) (tn_now t) (ws_client w) g with
      | (c, g, Err e) => (with_client c w, g, Err e)
      | (c, g, Ok (Ready i request)) =>
          let (w, out) := ready_turn deadline t i request (with_client c w) in (w, g, out)
      | (c, g, Ok Opening) =>
          match opening_turn environment deadline t (with_client c w) g with
          | (w, g, Some e) => (w, g, Err e)
          | (w, g, None) => acquire_session maximum environment deadline turns w g
          end
      | (c, g, Ok Wait) =>
          acquire_session maximum environment deadline turns (tn_others t (with_client c w)) g
      end
  end.

(** ** One exchange *)

Record ExchangeRun := mkExchangeRun {
  xr_late : bool;
  xr_outer : Outer;
  xr_clock : Clock;
  xr_forced : nat -> bool;
  xr_reads : nat }.

(** [encrypted_http::send]; the flag tells whether the outer request was submitted. *)
Definition http_send (x : ExchangeRun) (sh : Shared) (node_id : bytes) (exchange : ClientRequest)
    (request : HttpRequest) (acknowledged : bool)
    : Shared * bool * option (result (ResponseMetadata * option Incoming) EncryptedHttpError) :=
  match send_prepare sh node_id exchange request (xr_late x) with
  | (sh, Err e) => (sh, false, Some (Err e))
  | (sh, Ok (_, decoder)) =>
      let (sh, r) := send_receive (xr_clock x) sh decoder (xr_outer x) acknowledged in (sh, true, r)
  end.

(** What one exchange did, for the record of the whole send. *)
Record Sent := mkSent { sent_submitted : bool; sent_refused : bool; sent_context : RequestContext }.

Record Received := mkReceived {
  rv_owner : nat;
  rv_metadata : ResponseMetadata;
  rv_body : option Incoming;
  rv_shared : Shared;
  rv_context : RequestContext }.

Definition run_exchange (x : ExchangeRun) (request : HttpRequest) (s : Selected) (w : Sessions)
    : Sessions * list Sent * option (result Received ClientError) :=
  let i := sl_owner s in
  match cl_store (ws_client w) !! i with
  | None => (w, [], Some (Err Ec_State))
  | Some o =>
      let '(sh, submitted, r) :=
        http_send x (ow_shared o) (ow_node_id o) (sl_exchange s) request true in
      let w := update_session (with_shared sh) i w in
      let ended outcome := with_client (exchange_ended outcome i (ws_client w)) w in
      match r with
      | None => (w, [mkSent submitted false (sl_context s)], None)
      | Some (Err e) =>
          (update_session Lease_release i (ended FailedExchange), [mkSent submitted false (sl_context s)], Some (Err (Ec_Http e)))
      | Some (Ok (metadata, body)) =>
          (ended (if rm_refused metadata then RefusedBySession else Answered),
           [mkSent submitted (rm_refused metadata) (sl_context s)],
           Some (Ok (mkReceived i metadata body sh (sl_context s))))
      end
  end.

(** ** Bodies *)

(** What a reader of the body gets through [next]: [reads] reads finish before the deadline.
    The last part tells whether the source itself failed. *)
Fixpoint read_body (reads n : nat) (forced : nat -> bool) (clock : Clock) (sh : Shared) (st : option Incoming)
    : list bytes * Ending * bool :=
  match reads with
  | O => ([], Late, false)
  | S reads =>
      if forced n then ([], Broken, false)
      else
        match st with
        | None => ([], Complete, false)
        | Some st =>
            match Incoming_next clock sh st with
            | (sh, st, Some (Ok (Some b))) =>
                let '(out, ending, failed) := read_body reads (S n) forced clock sh (Some st) in
                (b :: out, ending, failed)
            | (_, _, Some (Ok None)) => ([], Complete, false)
            | (_, _, Some (Err _)) => ([], Broken, true)
            | (_, _, None) => ([], Late, false)
            end
        end
  end.

(** The body of [OwnedResponse], and the body as it arrives. *)
Definition owned_body (x : ExchangeRun) (r : Received) : Source * bool :=
  let '(items, ending, failed) :=
    read_body (xr_reads x) 0 (xr_forced x) (xr_clock x) (rv_shared r) (rv_body r) in
  (mkSource items ending, failed).
Definition plain_body (x : ExchangeRun) (r : Received) : Source :=
  let '(items, ending, _) :=
    read_body (xr_reads x) 0 (fun _ => false) (xr_clock x) (rv_shared r) (rv_body r) in
  mkSource items ending.

Record EncryptedResponse := mkEncryptedResponse {
  er_status : Z;
  er_headers : HeaderMap;
  er_body : Verified;
  er_context : RequestContext }.

(** What a receipt uses of the verified boot of a response's context. *)
Definition receipt_boot (ctx : RequestContext) : Receipt.VerifiedBoot :=
  let registration := vb_identity (vx_boot (rx_session ctx)) in
  {| vb_node_id := vr_node_id (vn_hardware registration);
     vb_signing_public_key := bd_signing_public_key (br_report_data (vn_record registration));
     vb_document_sha256 := vn_document_sha256 registration |}.

(** Whether [own] reads the whole body itself: for the receipt of a buffered response. *)
Definition reads_all (digest : option bytes) (r : Received) (body : Source) : bool :=
  bool_decide (is_Some digest) && is_success (rm_status (rv_metadata r))
  && negb (is_event_stream (rm_headers (rv_metadata r)))
  && match collect_body MAX_BUFFERED_BYTES [] (src_items body) Complete with Ok _ => true | Err _ => false end.

(** [own]: a requested receipt is checked before the response returns. A source that fails
    while it is read retires the session; other bodies are read by the caller. *)
Definition own (x : ExchangeRun) (digest : option bytes) (r : Received) (w : Sessions)
    : Sessions * result EncryptedResponse ClientError :=
  let (body, failed) := owned_body x r in
  let response v :=
    mkEncryptedResponse (rm_status (rv_metadata r)) (rm_headers (rv_metadata r)) v (rv_context r) in
  (if failed && reads_all digest r body then update_session Owner_retire (rv_owner r) w else w,
   match digest with
   | None => Ok (response (Unchecked body))
   | Some digest =>
       let? v := map_err Ec_Receipt
         (verify (rm_status (rv_metadata r)) (rm_headers (rv_metadata r)) body (receipt_boot (rv_context r)) digest) in
       Ok (response v)
   end).

(** ** Sending *)

Record SendRun := mkSendRun {
  sd_deadline : Z;
  sd_now : nat -> Z;
  sd_turns : nat -> list Turn;
  sd_exchange : nat -> ExchangeRun }.

Definition exchange_owned (x : ExchangeRun) (request : HttpRequest) (digest : option bytes)
    (s : Selected) (w : Sessions) : Sessions * list Sent * option (result EncryptedResponse ClientError) :=
  match run_exchange x request s w with
  | (w, sent, None) => (w, sent, None)
  | (w, sent, Some (Err e)) => (w, sent, Some (Err e))
  | (w, sent, Some (Ok r)) => let (w, out) := own x digest r w in (w, sent, Some out)
  end.

Definition send_digest (e : SendRun) (maximum : Z) (environment : Environment) (request : HttpRequest)
    (digest : option bytes) (w : Sessions) (g : rng)
    : Sessions * list Sent * option (result EncryptedResponse ClientError) :=
  let '(w, g, selected) := acquire_session maximum environment (session_deadline (sd_now e 0%nat) (sd_deadline e)) (sd_turns e 0%nat) w g in
  match selected with
  | Err err => (w, [], Some (Err err))
  | Ok s =>
      match run_exchange (sd_exchange e 0%nat) request s w with
      | (w, sent, None) => (w, sent, None)
      | (w, sent, Some (Err err)) => (w, sent, Some (Err err))
      | (w, sent, Some (Ok r)) =>
          if negb (rm_refused (rv_metadata r)) then
            let (w, out) := own (sd_exchange e 0%nat) digest r w in (w, sent, Some out)
          else
            let answer := mkAnswer (rm_status (rv_metadata r)) (rm_headers (rv_metadata r))
                            (plain_body (sd_exchange e 0%nat) r) in
            let refusal := read_refusal answer in
            let w := update_session Lease_release (rv_owner r) w in
            let '(w, g, selected) := acquire_session maximum environment (session_deadline (sd_now e 1%nat) (sd_deadline e)) (sd_turns e 1%nat) w g in
            match selected with
            | Ok s =>
                let '(w, again, out) := exchange_owned (sd_exchange e 1%nat) request digest s w in
                (w, sent ++ again, out)
            | Err err =>
                (w, sent,
                 Some (match refusal with
                       | None => Err err
                       | Some a => Ok (mkEncryptedResponse (an_status a) (an_headers a)
                                         (Unchecked (an_body a)) (rv_context r))
                       end))
            end
      end
  end.

Definition encrypted_send (e : SendRun) (maximum : Z) (environment : Environment) (request : HttpRequest)
    (w : Sessions) (g : rng) : Sessions * list Sent * option (result EncryptedResponse ClientError) :=
  match requested_metadata (rq_headers request) with
  | None => (w, [], Some (Err Ec_Metadata))
  | Some requested =>
      send_digest e maximum environment request
        (if requested then Some (sha256 (rq_body request)) else None) w g
  end.
End Send.

(** * Theory

    What a send on encrypted sessions guarantees, from setup to response: a request is executed
    at most once and its errors say so, nothing is submitted without evidence that was verified
    at setup and appraised for this request, and a send always returns. *)

(** The errors that leave execution unknown. *)
Definition execution_unknown (e : ClientError) : bool :=
  match e with
  | Ec_Receipt _ => true
  | Ec_Http (Eh_Request | Eh_NotSentDeadline) => false
  | Ec_Http _ => true
  | _ => false
  end.

Section Sends.
Context `{Kdf} `{Aead} `{Agreement} `{Hpke} `{Random} `{HttpText}.
Context `{Json} `{Base64} `{Signatures} `{Hash} `{Encodings} `{Sigstore} `{X509} `{Unicode}.

(** Whether the gateway may have processed the request of an exchange. *)
Definition exchange_may_run (s : Sent) : bool := sent_submitted s && negb (sent_refused s).

(** ** Execution *)

Lemma http_send_spec x sh node_id exchange request ack :
  exists sh' submitted r, http_send x sh node_id exchange request ack = (sh', submitted, Some r)
    /\ (submitted = false -> exists e, r = Err e /\ execution_unknown (Ec_Http e) = false)
    /\ (forall e, r = Err e -> execution_unknown (Ec_Http e) = submitted).
Proof.
  unfold http_send. destruct (send_prepare _ _ _ _ _) as [sh1 [[u d]|e]] eqn:Hp.
  - destruct (send_receive_total (xr_clock x) sh1 d (xr_outer x) ack) as (sh2 & r & -> & Hr).
    exists sh2, true, r. split_and!; [done|done|]. intros e ->. specialize (Hr _ eq_refl).
    unfold not_submitted in Hr. destruct e; naive_solver.
  - apply send_prepare_error in Hp. exists sh1, false, (Err e). split_and!; [done| |].
    + intros _. exists e. by destruct Hp as [-> | ->].
    + intros ? [= <-]. by destruct Hp as [-> | ->].
Qed.

Lemma exchange_ended_evolves outcome i c : owners_evolve (cl_store c) (cl_store (exchange_ended outcome i c)).
Proof.
  destruct outcome; simpl; [done| |apply owners_evolve_alter; auto with stogas].
  destruct (cl_store c !! i) as [o|]; [|done]. apply owners_evolve_fold. intros o1. by case_bool_decide.
Qed.

(** An exchange always returns, reports its own error, and a response tells whether the
    gateway refused. *)
Lemma run_exchange_spec x request s w :
  exists w' sent r, run_exchange x request s w = (w', sent, Some r) /\ (length sent <= 1)%nat
    /\ (forall e, r = Err e -> execution_unknown e = false -> Forall (fun s => exchange_may_run s = false) sent)
    /\ (forall rv, r = Ok rv -> exists s', sent = [s'] /\ sent_context s' = rv_context rv
          /\ exchange_may_run s' = negb (rm_refused (rv_metadata rv)))
    /\ Forall (fun s' => sent_context s' = sl_context s) sent
    /\ owners_evolve (cl_store (ws_client w)) (cl_store (ws_client w'))
    /\ ws_channels w' = ws_channels w /\ ws_evidence w' = ws_evidence w.
Proof.
  unfold run_exchange. destruct (cl_store _ !! _) as [o|] eqn:Ho.
  2: { eexists _, _, _. split; [done|]. by split_and!; [simpl; lia|constructor|intros ? [=]|constructor|..]. }
  destruct (http_send_spec x (ow_shared o) (ow_node_id o) (sl_exchange s) request true)
    as (sh & submitted & r & -> & Hns & He).
  assert (Hev : forall f, (forall o, owner_later o (f o)) ->
    owners_evolve (cl_store (ws_client w)) (cl_store (ws_client (update_session f (sl_owner s) w))))
    by (intros; by apply owners_evolve_alter).
  assert (Hsh : forall o, owner_later o (with_shared sh o)) by by split.
  destruct r as [[metadata body]|e].
  - destruct submitted; [|by destruct (Hns eq_refl) as (? & ? & _)].
    eexists _, _, _. split; [done|]. split_and!; [simpl; lia|done| |by repeat constructor| |done|done].
    + intros ? [= <-]. eexists. by split_and!.
    + etrans; [by apply (Hev _ Hsh)|]. apply exchange_ended_evolves.
  - eexists _, _, _. split; [done|]. split_and!; [simpl; lia| |done|by repeat constructor| |done|done].
    + intros ? [= <-] Hu. constructor; [|done]. unfold exchange_may_run. simpl. by rewrite <- (He _ eq_refl), Hu.
    + etrans; [by apply (Hev _ Hsh)|]. etrans; [apply (exchange_ended_evolves FailedExchange (sl_owner s))|].
      by apply owners_evolve_alter.
Qed.

Lemma own_result x digest r w w' out e :
  own x digest r w = (w', out) -> out = Err e -> execution_unknown e = true.
Proof.
  unfold own. destruct (owned_body x r) as [body failed]. intros [= _ <-].
  destruct digest; [|done]. destruct (verify _ _ _ _ _); [done|]. by intros [= <-].
Qed.

Lemma own_context x digest r w w' rs : own x digest r w = (w', Ok rs) -> er_context rs = rv_context r.
Proof.
  unfold own. destruct (owned_body x r) as [body failed]. intros [= _ Ho].
  destruct digest; [|by injection Ho as <-]. destruct (verify _ _ _ _ _); [|done]. by injection Ho as <-.
Qed.

Lemma own_frame x digest r w w' out :
  own x digest r w = (w', out) ->
  owners_evolve (cl_store (ws_client w)) (cl_store (ws_client w'))
  /\ ws_channels w' = ws_channels w /\ ws_evidence w' = ws_evidence w.
Proof.
  unfold own. destruct (owned_body x r) as [body failed]. intros [= <- _].
  destruct (_ && _); [|done]. split_and!; try done. apply owners_evolve_alter. auto with stogas.
Qed.

(** Acquiring a session submits nothing. *)
Lemma select_error maximum now_ms now c g c' g' e :
  select maximum now_ms now c g = (c', g', Err e) -> execution_unknown e = false.
Proof.
  unfold select. destruct (cl_closed _); [by intros [= _ _ <-]|].
  assert (Hl : forall l st g st' g' e, select_loop now_ms now l st g = (st', g', Err e) -> execution_unknown e = false).
  { clear. induction l as [|i l IH]; intros st g st' g' e; simpl; [done|].
    destruct (st !! i) as [o|]; [|apply IH]. destruct (ow_retired o); [apply IH|].
    destruct (ClientSession_expire _ _ _) as [sh [[]|]]; [|by intros [= _ _ <-]].
    destruct (ClientSession_request _ _ _) as [[sh' g1] [request|[]]]; try done; try apply IH;
      by intros [= _ _ <-]. }
  destruct (select_loop _ _ _ _ _) as [[st g1] [[[i request]|]|e1]] eqn:E; [done| |].
  - by destruct (may_open _ _ _).
  - intros [= _ _ <-]. by eapply Hl.
Qed.

Lemma acquire_error maximum environment deadline turns w g w' g' e :
  acquire_session maximum environment deadline turns w g = (w', g', Err e) -> execution_unknown e = false.
Proof.
  revert w g. induction turns as [|t turns IH]; intros w g; simpl; [by intros [= _ _ <-]|].
  destruct (select _ _ _ _ _) as [[c g1] [[i request| |]|e1]] eqn:Hs.
  - unfold ready_turn. destruct (_ !! i) as [retained|]; [|by intros [= _ _ <-]].
    destruct (prepare _ _ _ _ _) as [[ev retained'] out]. destruct (tn_expired t); [by intros [= _ _ <-]|].
    destruct out; [|by intros [= _ _ <-]]. destruct (cl_closed _); [by intros [= _ _ <-]|done].
  - unfold opening_turn. destruct (tn_closing t); [by intros [= _ _ <-]|].
    destruct (connect _ _ _ _ _ _) as [[ev g2] out]. destruct (tn_expired t); [by intros [= _ _ <-]|].
    destruct out as [conn|]; [|by intros [= _ _ <-]]. unfold add_session, push_owner.
    destruct (cl_closed _); simpl; [by intros [= _ _ <-]|apply IH].
  - apply IH.
  - intros [= _ _ <-]. by eapply select_error.
Qed.

Lemma exchange_owned_spec x request digest s w :
  exists w' sent r, exchange_owned x request digest s w = (w', sent, Some r) /\ (length sent <= 1)%nat
    /\ (forall e, r = Err e -> execution_unknown e = false -> Forall (fun s => exchange_may_run s = false) sent).
Proof.
  unfold exchange_owned. destruct (run_exchange_spec x request s w) as (w1 & sent & r & -> & Hl & He & _).
  destruct r as [rv|e].
  - destruct (own x digest rv w1) as [w2 out] eqn:Ho. exists w2, sent, out. split_and!; [done|done|].
    intros e Hout. pose proof (own_result _ _ _ _ _ _ _ Ho Hout). congruence.
  - exists w1, sent, (Err e). split_and!; [done|done|]. intros err [= <-]. by apply He.
Qed.

Lemma at_most_one (s : Sent) l :
  exchange_may_run s = false -> (length l <= 1)%nat ->
  (length (filter (fun s => exchange_may_run s = true) ([s] ++ l)) <= 1)%nat.
Proof.
  intros Hs Hl. simpl. rewrite filter_cons, decide_False by (by rewrite Hs).
  etrans; [apply length_filter|done].
Qed.

Lemma encrypted_send_spec e maximum environment request w g :
  exists w' sent out, encrypted_send e maximum environment request w g = (w', sent, Some out)
    /\ (length sent <= 2)%nat
    /\ (length (filter (fun s => exchange_may_run s = true) sent) <= 1)%nat
    /\ (forall err, out = Err err -> execution_unknown err = false ->
          Forall (fun s => exchange_may_run s = false) sent).
Proof.
  unfold encrypted_send. destruct (requested_metadata _) as [requested|].
  2: { eexists _, [], _. split; [done|]. by split_and!; [simpl; lia|simpl; lia|]. }
  unfold send_digest. destruct (acquire_session _ _ _ _ w g) as [[w1 g1] [s|err]].
  2: { eexists _, [], _. split; [done|]. by split_and!; [simpl; lia|simpl; lia|]. }
  destruct (run_exchange_spec (sd_exchange e 0%nat) request s w1) as (w2 & sent & r & -> & Hl & He & Hok & _).
  assert (Hf : (length (filter (fun s => exchange_may_run s = true) sent) <= 1)%nat)
    by (etrans; [apply length_filter|done]).
  destruct r as [rv|err].
  2: { exists w2, sent, (Err err). split_and!; [done|lia|done|]. intros ? [= <-]. by apply He. }
  destruct (Hok _ eq_refl) as (s0 & -> & _ & Hrun). destruct (rm_refused (rv_metadata rv)) eqn:Hr; cbn [negb].
  - destruct (acquire_session _ _ _ _ _ g1) as [[w3 g3] [s2|err]].
    + destruct (exchange_owned_spec (sd_exchange e 1%nat) request
        (if requested then Some (sha256 (rq_body request)) else None) s2 w3) as (w4 & again & out & -> & Hl2 & He2).
      exists w4, ([s0] ++ again), out. split_and!; [done|simpl; lia|by apply at_most_one|].
      intros err Herr Hu. constructor; [done|]. by apply (He2 err).
    + eexists _, [s0], _. split; [done|]. split_and!; [simpl; lia|done|]. intros ? _ _. by constructor.
  - destruct (own _ _ rv w2) as [w3 out] eqn:Ho. exists w3, [s0], out. split_and!; [done|simpl; lia|done|].
    intros err Herr. pose proof (own_result _ _ _ _ _ _ _ Ho Herr). congruence.
Qed.


(** An error of the carriage that leaves execution unknown comes from a submitted exchange. *)
Lemma exchange_error_ran x request s w w' sent e :
  run_exchange x request s w = (w', sent, Some (Err (Ec_Http e))) -> execution_unknown (Ec_Http e) = true ->
  Exists (fun s => exchange_may_run s = true) sent.
Proof.
  unfold run_exchange. destruct (cl_store _ !! _) as [o|]; [|done].
  destruct (http_send_spec x (ow_shared o) (ow_node_id o) (sl_exchange s) request true)
    as (sh & submitted & r & -> & _ & He). destruct r as [[metadata body]|e0]; [done|].
  intros [= _ <- ->] Hu. apply Exists_cons_hd. unfold exchange_may_run. simpl. by rewrite <- (He _ eq_refl), Hu.
Qed.

Lemma own_receipt_error x digest r w w' e : own x digest r w = (w', Err e) -> exists e', e = Ec_Receipt e'.
Proof.
  unfold own. destruct (owned_body x r) as [body failed]. intros [= _ Ho].
  destruct digest; [|done]. destruct (verify _ _ _ _ _); [done|]. injection Ho as <-. by eexists.
Qed.

Lemma exchange_owned_error_ran x request digest s w w' sent e :
  exchange_owned x request digest s w = (w', sent, Some (Err (Ec_Http e))) -> execution_unknown (Ec_Http e) = true ->
  Exists (fun s => exchange_may_run s = true) sent.
Proof.
  unfold exchange_owned. destruct (run_exchange x request s w) as [[w1 sent1] [[rv|e1]|]] eqn:Hx; [| |done].
  - destruct (own x digest rv w1) as [w2 out] eqn:Ho. intros [= _ _ ->].
    by apply own_receipt_error in Ho as [? ?].
  - intros [= _ <- ->]. by eapply exchange_error_ran.
Qed.

Lemma send_error_ran e maximum environment request w g w' sent err :
  encrypted_send e maximum environment request w g = (w', sent, Some (Err (Ec_Http err))) ->
  execution_unknown (Ec_Http err) = true -> Exists (fun s => exchange_may_run s = true) sent.
Proof.
  unfold encrypted_send. destruct (requested_metadata _) as [requested|]; [|done]. unfold send_digest.
  set (digest := if requested then _ else _).
  destruct (acquire_session _ _ _ _ w g) as [[w1 g1] [s|e1]] eqn:Ha; cycle 1.
  { intros [= _ _ ->]. apply acquire_error in Ha. congruence. }
  destruct (run_exchange _ request s w1) as [[w2 sent1] [[rv|e1]|]] eqn:Hx; [| |done].
  - destruct (rm_refused (rv_metadata rv)); cbn [negb].
    + destruct (acquire_session _ _ _ _ _ g1) as [[w3 g3] [s2|e2]] eqn:Ha3.
      * destruct (exchange_owned _ _ _ s2 w3) as [[w4 again] out] eqn:Ho. intros [= _ <- ->] Hu.
        apply Exists_app. right. by eapply exchange_owned_error_ran.
      * destruct (read_refusal _); [done|]. intros [= _ _ ->]. apply acquire_error in Ha3. congruence.
    + destruct (own _ digest rv w2) as [w3 out] eqn:Ho. intros [= _ _ ->].
      by apply own_receipt_error in Ho as [? ?].
  - intros [= _ <- ->]. by eapply exchange_error_ran.
Qed.

(** ** Evidence *)

(** The session of [o] was set up with verified evidence, and [ctx] is for that evidence. *)
Definition bound (environment : Environment) (o : Owner) (ctx : RequestContext) : Prop :=
  exists pending response sh conn,
    completed pending response sh conn /\ setup_environment (cn_snapshot conn) = environment
    /\ vx_artifacts (rx_session ctx) = vx_artifacts (cn_appraisal conn)
    /\ ow_node_id o = vr_node_id (vn_hardware (vb_identity (vx_boot (cn_appraisal conn))))
    /\ (ow_retired o = false -> ow_core o = cn_session conn).

Record sessions_attested (environment : Environment) (w : Sessions) : Prop := mkSessionsAttested {
  sa_evidence : client_ok (ws_evidence w);
  sa_bound : forall i ctx, ws_channels w !! i = Some ctx ->
    exists o, cl_store (ws_client w) !! i = Some o /\ bound environment o ctx }.

(** What vouches for a request's context: the evidence verified at setup, and an appraisal
    of it under the snapshot that a client with sound evidence publishes. *)
Definition vouched (environment : Environment) (ctx : RequestContext) : Prop :=
  (exists o, bound environment o ctx) /\ exists c, client_ok c /\ appraised c ctx.

(** The turn [u] and the shared state [wu] in which an acquisition has selected session [i]
    and prepares the request on it. *)
Inductive prepares (maximum : Z) (environment : Environment) (deadline : Z)
    : list Turn -> Sessions -> rng -> Turn -> Sessions -> nat -> Prop :=
| prepares_selected t turns w g c g1 i request :
    select maximum (tn_now_ms t) (tn_now t) (ws_client w) g = (c, g1, Ok (Ready i request)) ->
    prepares maximum environment deadline (t :: turns) w g t (with_client c w) i
| prepares_opened t turns w g c g1 w1 g2 u wu i :
    select maximum (tn_now_ms t) (tn_now t) (ws_client w) g = (c, g1, Ok Opening) ->
    opening_turn environment deadline t (with_client c w) g1 = (w1, g2, None) ->
    prepares maximum environment deadline turns w1 g2 u wu i ->
    prepares maximum environment deadline (t :: turns) w g u wu i
| prepares_waited t turns w g c g1 u wu i :
    select maximum (tn_now_ms t) (tn_now t) (ws_client w) g = (c, g1, Ok Wait) ->
    prepares maximum environment deadline turns (tn_others t (with_client c w)) g1 u wu i ->
    prepares maximum environment deadline (t :: turns) w g u wu i.

(** The context of a request is vouched for in the state in which it was prepared: the
    session's retained evidence was verified at setup, and the context is fresh for the
    evidence that the client has in that very state. *)
Definition vouched_in (environment : Environment) (deadline : Z) (t : Turn) (w : Sessions) (i : nat) (ctx : RequestContext)
  : Prop :=
  exists retained o ev,
    ws_channels w !! i = Some retained /\ cl_store (ws_client w) !! i = Some o /\ bound environment o ctx
    /\ client_ok (ws_evidence w) /\ client_ok ev
    /\ freshly_appraised (tn_preparation t) deadline (ws_evidence w) ev retained ctx.

(** The two acquisitions of a send: the second follows a refused exchange. *)
Inductive acquisition (e : SendRun) (maximum : Z) (environment : Environment) (request : HttpRequest) (w : Sessions) (g : rng)
    : nat -> Sessions -> rng -> Prop :=
| acquisition_first : acquisition e maximum environment request w g 0%nat w g
| acquisition_second w1 g1 s w2 sent r :
    acquire_session maximum environment (session_deadline (sd_now e 0%nat) (sd_deadline e)) (sd_turns e 0%nat) w g
      = (w1, g1, Ok s) ->
    run_exchange (sd_exchange e 0%nat) request s w1 = (w2, sent, Some (Ok r)) ->
    rm_refused (rv_metadata r) = true ->
    acquisition e maximum environment request w g 1%nat (update_session Lease_release (rv_owner r) w2) g1.

(** The context of an exchange was prepared, and vouched for, during an acquisition of this
    send. *)
Definition prepared_for (e : SendRun) (maximum : Z) (environment : Environment) (request : HttpRequest) (w : Sessions)
    (g : rng) (ctx : RequestContext) : Prop :=
  exists n wn gn t wt i,
    acquisition e maximum environment request w g n wn gn
    /\ prepares maximum environment (session_deadline (sd_now e n) (sd_deadline e)) (sd_turns e n) wn gn t wt i
    /\ vouched_in environment (session_deadline (sd_now e n) (sd_deadline e)) t wt i ctx.

Lemma vouched_in_vouched environment deadline t w i ctx : vouched_in environment deadline t w i ctx -> vouched environment ctx.
Proof.
  intros (retained & o & ev & _ & _ & Hb & _ & Hev & Hf). split; [by exists o|]. exists ev. split; [done|].
  by eapply fresh_appraised.
Qed.

Lemma bound_later environment o o' ctx : owner_later o o' -> bound environment o ctx -> bound environment o' ctx.
Proof.
  intros [Hn Hr Hc] (pending & response & sh & conn & Hd & He & Ha & Hi & Hcore).
  exists pending, response, sh, conn. split_and!; [done..|congruence|]. intros Hf. rewrite Hc by done.
  apply Hcore. destruct (ow_retired o); naive_solver.
Qed.

Lemma bound_artifacts environment o ctx ctx' :
  vx_artifacts (rx_session ctx') = vx_artifacts (rx_session ctx) -> bound environment o ctx -> bound environment o ctx'.
Proof.
  intros Ha (pending & response & sh & conn & Hd & He & Hb & Hrest). exists pending, response, sh, conn.
  split_and!; [done|done|congruence|apply Hrest..].
Qed.

Lemma attested_evolve environment w w' :
  owners_evolve (cl_store (ws_client w)) (cl_store (ws_client w')) -> ws_channels w' = ws_channels w ->
  ws_evidence w' = ws_evidence w -> sessions_attested environment w -> sessions_attested environment w'.
Proof.
  intros Hev Hch Hec [Hok Hb]. split; [by rewrite Hec|]. rewrite Hch. intros i ctx Hi.
  destruct (Hb _ _ Hi) as (o & Ho & Hbound). destruct (Hev _ _ Ho) as (o' & Ho' & Hl).
  exists o'. split; [done|]. by eapply bound_later.
Qed.

Lemma attested_update environment f i w :
  (forall o, owner_later o (f o)) -> sessions_attested environment w ->
  sessions_attested environment (update_session f i w).
Proof. intros Hf. apply attested_evolve; [by apply owners_evolve_alter|done|done]. Qed.

Lemma attested_evidence environment ev w :
  client_ok ev -> sessions_attested environment w -> sessions_attested environment (with_evidence ev w).
Proof. intros Hok [_ Hb]. by split. Qed.

Lemma attested_channel environment i ctx ctx' w :
  ws_channels w !! i = Some ctx -> vx_artifacts (rx_session ctx') = vx_artifacts (rx_session ctx) ->
  sessions_attested environment w -> sessions_attested environment (with_channel i ctx' w).
Proof.
  intros Hi Ha [Hok Hb]. split; [done|]. intros j c0. simpl. destruct (decide (j = i)) as [->|].
  - rewrite lookup_insert_eq. intros [= <-]. destruct (Hb _ _ Hi) as (o & Ho & Hbound). exists o.
    split; [done|]. by eapply bound_artifacts.
  - rewrite lookup_insert_ne by done. apply Hb.
Qed.

Lemma attested_abandon environment i request w :
  sessions_attested environment w -> sessions_attested environment (abandon i request w).
Proof. apply attested_update. by split. Qed.

Lemma select_evolves maximum now_ms now c g c' g' r :
  select maximum now_ms now c g = (c', g', r) -> owners_evolve (cl_store c) (cl_store c').
Proof.
  destruct (cl_closed (cl_state c)) eqn:Hc; intros Hs.
  - unfold select in Hs. rewrite Hc in Hs. by injection Hs as <- _ _.
  - destruct (select_shape _ _ _ _ _ _ _ _ Hs Hc) as (st0 & l & _ & _ & H01 & _ & H02 & _). by etrans.
Qed.

Lemma attested_select environment maximum now_ms now w g c' g' r :
  select maximum now_ms now (ws_client w) g = (c', g', r) -> sessions_attested environment w ->
  sessions_attested environment (with_client c' w).
Proof. intros Hs. apply attested_evolve; [by eapply select_evolves|done|done]. Qed.

(** Other tasks of the client keep the invariant. *)
Definition others_ok (environment : Environment) (t : Turn) : Prop :=
  forall w, sessions_attested environment w -> sessions_attested environment (tn_others t w).

Lemma ready_turn_attested environment deadline t i request w w' out :
  others_ok environment t -> sessions_attested environment w ->
  ready_turn deadline t i request w = (w', out) ->
  sessions_attested environment w' /\ (forall s, out = Ok s -> vouched_in environment deadline t w i (sl_context s)).
Proof.
  intros Ho Hw. unfold ready_turn. destruct (ws_channels w !! i) as [retained|] eqn:Hi; cycle 1.
  { intros [= <- <-]. split; [by apply attested_abandon|done]. }
  destruct (prepare _ _ _ _ _) as [[ev retained'] r] eqn:Hp.
  destruct (prepare_frame _ _ _ _ _ _ _ _ (sa_evidence _ _ Hw) Hp) as [Hev Hart].
  set (w1 := tn_others t _). assert (Hw1 : sessions_attested environment w1).
  { apply Ho, (attested_channel _ _ retained); [done|done|by apply attested_evidence]. }
  destruct (tn_expired t); [intros [= <- <-]; split; [by apply attested_abandon|done]|].
  destruct r as [context|e].
  - destruct (cl_closed _); intros [= <- <-]; split; [by apply attested_abandon|done|done|].
    intros s [= <-]. simpl. destruct (prepare_fresh _ _ _ _ _ _ _ _ (sa_evidence _ _ Hw) Hp) as (-> & Ha & Hf).
    destruct (sa_bound _ _ Hw _ _ Hi) as (o & Hst & Hb). exists retained, o, ev.
    split_and!; [done|done|by eapply bound_artifacts|by apply (sa_evidence environment)|done|done].
  - intros [= <- <-]. split; [|done]. apply attested_abandon, attested_update; auto with stogas.
Qed.

Lemma add_session_attested environment started conn pending response sh w w' :
  completed pending response sh conn -> setup_environment (cn_snapshot conn) = environment ->
  sessions_attested environment w -> add_session started conn w = Ok w' -> sessions_attested environment w'.
Proof.
  intros Hd He [Hok Hb]. unfold add_session, push_owner. simpl. destruct (cl_closed _); simpl; [done|].
  intros [= <-]. split; [done|]. simpl. intros i ctx. destruct (decide (i = ws_next w)) as [->|].
  - rewrite !lookup_insert_eq. intros [= <-]. eexists. split; [done|].
    exists pending, response, sh, conn. by split_and!.
  - rewrite !lookup_insert_ne by done. apply Hb.
Qed.

Lemma opening_turn_attested environment deadline t w g w' g' out :
  others_ok environment t -> sessions_attested environment w ->
  opening_turn environment deadline t w g = (w', g', out) -> sessions_attested environment w'.
Proof.
  intros Ho Hw. unfold opening_turn. destruct (tn_closing t); [intros [= <- _ _]; apply (attested_evolve _ (tn_others t w)); by try apply Ho|].
  destruct (connect _ _ _ _ _ _) as [[ev g1] r] eqn:Hc.
  pose proof (connect_client_ok _ _ _ _ _ _ _ _ _ (sa_evidence _ _ Hw) Hc) as Hev.
  set (w1 := tn_others t _). assert (Hw1 : sessions_attested environment w1) by (by apply Ho, attested_evidence).
  destruct (tn_expired t); [intros [= <- _ _]; by apply (attested_evolve _ w1)|].
  destruct r as [conn|]; [|intros [= <- _ _]; by apply (attested_evolve _ w1)].
  destruct (connect_attested _ _ _ _ _ _ _ _ _ (sa_evidence _ _ Hw) Hc) as (_ & He & _ & pending & response & _ & _ & Hd).
  destruct (add_session _ conn w1) as [w2|] eqn:Ha; intros [= <- _ _]; [|by apply (attested_evolve _ w1)].
  apply (attested_evolve _ w2); [done..|]. by eapply add_session_attested.
Qed.

Lemma acquire_prepared maximum environment deadline turns w g w' g' out :
  Forall (others_ok environment) turns -> sessions_attested environment w ->
  acquire_session maximum environment deadline turns w g = (w', g', out) ->
  sessions_attested environment w' /\
  (forall s, out = Ok s -> exists t wt i, prepares maximum environment deadline turns w g t wt i
     /\ vouched_in environment deadline t wt i (sl_context s)).
Proof.
  revert w g. induction turns as [|t turns IH]; intros w g Hot Hw; simpl; [by intros [= <- _ <-]|].
  apply Forall_cons in Hot as [Ho Hot]. destruct (select _ _ _ _ _) as [[c g1] r] eqn:Hs.
  pose proof (attested_select _ _ _ _ _ _ _ _ _ Hs Hw) as Hw1. destruct r as [[i request| |]|e].
  - destruct (ready_turn _ _ _ _ _) as [w2 out2] eqn:Hr. intros [= <- _ <-].
    destruct (ready_turn_attested _ _ _ _ _ _ _ _ Ho Hw1 Hr) as [Hw2 Hv]. split; [done|]. intros s Hx.
    exists t, (with_client c w), i. split; [by econstructor|by apply Hv].
  - destruct (opening_turn _ _ _ _ _) as [[w2 g2] [e|]] eqn:Ht;
      pose proof (opening_turn_attested _ _ _ _ _ _ _ _ Ho Hw1 Ht) as Hw2; [by intros [= <- _ <-]|].
    intros Ha. destruct (IH _ _ Hot Hw2 Ha) as [Hw' Hv]. split; [done|]. intros s Hx.
    destruct (Hv s Hx) as (u & wu & i & Hp & Hin). exists u, wu, i. split; [by eapply prepares_opened|done].
  - intros Ha. destruct (IH _ _ Hot (Ho _ Hw1) Ha) as [Hw' Hv]. split; [done|]. intros s Hx.
    destruct (Hv s Hx) as (u & wu & i & Hp & Hin). exists u, wu, i. split; [by eapply prepares_waited|done].
  - by intros [= <- _ <-].
Qed.

Lemma acquire_attested maximum environment deadline turns w g w' g' out :
  Forall (others_ok environment) turns -> sessions_attested environment w ->
  acquire_session maximum environment deadline turns w g = (w', g', out) ->
  sessions_attested environment w' /\ (forall s, out = Ok s -> vouched environment (sl_context s)).
Proof.
  intros Hot Hw Ha. destruct (acquire_prepared _ _ _ _ _ _ _ _ _ Hot Hw Ha) as [Hw' Hv]. split; [done|].
  intros s Hs. destruct (Hv s Hs) as (t & wt & i & _ & Hin). by eapply vouched_in_vouched.
Qed.

Lemma exchange_owned_attested (P : RequestContext -> Prop) x request digest s environment w w' sent out :
  sessions_attested environment w -> P (sl_context s) ->
  exchange_owned x request digest s w = (w', sent, out) ->
  sessions_attested environment w' /\ Forall (fun s => P (sent_context s)) sent
  /\ (forall r, out = Some (Ok r) -> er_context r ∈ sent_context <$> sent).
Proof.
  intros Hw Hv. unfold exchange_owned.
  destruct (run_exchange_spec x request s w) as (w1 & sent1 & r & -> & _ & _ & Hrv & Hctx & Hev & Hch & Hec).
  pose proof (attested_evolve environment _ _ Hev Hch Hec Hw) as Hw1.
  assert (Hs : Forall (fun s => P (sent_context s)) sent1)
    by (eapply Forall_impl; [exact Hctx|by intros ? ->]).
  destruct r as [rv|e]; [|by intros [= <- <- <-]]. destruct (own x digest rv w1) as [w2 out2] eqn:Ho.
  intros [= <- <- <-]. destruct (own_frame _ _ _ _ _ _ Ho) as (Hev2 & Hch2 & Hec2).
  split_and!; [by eapply attested_evolve|done|]. intros rs [= ->]. apply own_context in Ho as ->.
  destruct (Hrv _ eq_refl) as (s' & -> & <- & _). by apply list_elem_of_here.
Qed.

(** Every exchange of a send was prepared and vouched for. *)
Lemma encrypted_send_prepared e maximum environment request w g w' sent out :
  (forall n, Forall (others_ok environment) (sd_turns e n)) -> sessions_attested environment w ->
  encrypted_send e maximum environment request w g = (w', sent, out) ->
  sessions_attested environment w'
  /\ Forall (fun s => prepared_for e maximum environment request w g (sent_context s)) sent
  /\ (forall r, out = Some (Ok r) -> er_context r ∈ sent_context <$> sent).
Proof.
  intros Hot Hw. unfold encrypted_send. destruct (requested_metadata _) as [requested|]; [|by intros [= <- <- <-]].
  unfold send_digest. set (digest := if requested then _ else _).
  destruct (acquire_session _ _ _ _ w g) as [[w1 g1] r1] eqn:Ha.
  destruct (acquire_prepared _ _ _ _ _ _ _ _ _ (Hot 0%nat) Hw Ha) as [Hw1 Hv1].
  destruct r1 as [s|err]; [|by intros [= <- <- <-]]. destruct (Hv1 _ eq_refl) as (t & wt & i & Hp & Hin).
  assert (prepared_for e maximum environment request w g (sl_context s)) as Hps.
  { exists 0%nat, w, g, t, wt, i. split_and!; [constructor|done|done]. }
  pose proof (exchange_owned_attested (prepared_for e maximum environment request w g) (sd_exchange e 0%nat) request digest s environment w1) as Hx.
  unfold exchange_owned in Hx.
  destruct (run_exchange_spec (sd_exchange e 0%nat) request s w1) as (w2 & sent1 & r & Hr & _ & _ & Hrv & Hctx & Hev & Hch & Hec).
  rewrite Hr in *. destruct r as [rv|err]; [|by apply Hx].
  destruct (rm_refused (rv_metadata rv)) eqn:Hrefused; cbn [negb]; [|by apply Hx].
  pose proof (attested_evolve environment _ _ Hev Hch Hec Hw1) as Hw2.
  assert (Hs : Forall (fun s => prepared_for e maximum environment request w g (sent_context s)) sent1)
    by (eapply Forall_impl; [exact Hctx|by intros ? ->]).
  destruct (acquire_session _ _ _ _ (update_session _ _ _) g1) as [[w3 g3] r3] eqn:Ha3.
  destruct (acquire_prepared _ _ _ _ _ _ _ _ _ (Hot 1%nat)
    (attested_update _ Lease_release (rv_owner rv) _ ltac:(by split) Hw2) Ha3) as [Hw3 Hv3].
  destruct r3 as [s2|err].
  - destruct (exchange_owned _ _ _ s2 w3) as [[w4 again] out4] eqn:Ho. intros [= <- <- <-].
    destruct (Hv3 _ eq_refl) as (t3 & wt3 & i3 & Hp3 & Hin3).
    destruct (exchange_owned_attested (prepared_for e maximum environment request w g) _ _ _ _ _ _ _ _ _ Hw3
      ltac:(exists 1%nat; do 5 eexists; split_and!; [by eapply acquisition_second|exact Hp3|exact Hin3]) Ho) as (Hw4 & Hs4 & Hc4).
    split_and!; [done|by apply Forall_app|]. intros rs Hrs. rewrite fmap_app. apply elem_of_app. right. by apply Hc4.
  - intros [= <- <- <-]. split_and!; [done|done|]. intros rs. destruct (read_refusal _) as [a|]; [|done].
    intros [= <-]. simpl. destruct (Hrv _ eq_refl) as (s' & -> & <- & _). by apply list_elem_of_here.
Qed.

Lemma encrypted_send_vouched e maximum environment request w g w' sent out :
  (forall n, Forall (others_ok environment) (sd_turns e n)) -> sessions_attested environment w ->
  encrypted_send e maximum environment request w g = (w', sent, out) ->
  sessions_attested environment w' /\ Forall (fun s => vouched environment (sent_context s)) sent
  /\ (forall r, out = Some (Ok r) -> er_context r ∈ sent_context <$> sent).
Proof.
  intros Hot Hw Hs. destruct (encrypted_send_prepared _ _ _ _ _ _ _ _ _ Hot Hw Hs) as (Hw' & Hp & Hc). split_and!; [done| |done].
  eapply Forall_impl; [exact Hp|]. intros s' (n & wn & gn & t & wt & i & _ & _ & Hin). by eapply vouched_in_vouched.
Qed.

(** C11. No encrypted request leaves without evidence, whatever the carriage, the clocks and the
    client's other tasks do. Every exchange of a send was prepared in a turn of one of its two
    acquisitions, on a session of the client whose evidence was verified at setup for this
    client's own hello in its environment. In the very state of that turn, that evidence was
    found good under the snapshot the client then publishes, or appraised again under that one
    or under one that a recovery then published, at the times read by that preparation. The
    response keeps the context of the exchange that carried it, and the client's sessions stay
    bound to their evidence. *)
Theorem encrypted_send_attested e maximum environment request w g w' sent out :
  (forall n, Forall (others_ok environment) (sd_turns e n)) -> sessions_attested environment w ->
  encrypted_send e maximum environment request w g = (w', sent, out) ->
  sessions_attested environment w'
  /\ Forall (fun s => prepared_for e maximum environment request w g (sent_context s)) sent
  /\ (forall r, out = Some (Ok r) -> er_context r ∈ sent_context <$> sent).
Proof. apply encrypted_send_prepared. Qed.
End Sends.
