(* ===== verification/Proxy.v ===== *)
(** The loopback endpoint that applications call ([sdk/src/proxy.rs], [sdk/src/upstream.rs] and
    the options of [sdk/src/lib.rs]): which requests it accepts, what it forwards, what a web
    page may read, and how it reports failures.

    What the [url] and [http] crates parse, and the texts of errors, are parameters. *)

From S2P Require Import Prelude Primitives BTree Json Text Signing Attestation Setup Sse SseTheory Receipt Provisioning Documents Deserialize.
From S2P Require Import Approvals Snp Releases Amd Collateral Certificates Snapshot Boot EvidenceClient HttpTypes Http2Pool.
From S2P Require Import EncryptedHttp ReceiptHttp NativeHttp EncryptedSetup EncryptedClient EncryptedSend.

Open Scope Z_scope.

(** ** Options *)

(** The parts of a parsed URL that the client looks at. *)
Record Url := mkUrl {
  url_scheme : bytes;
  url_host : option bytes;
  url_username : bytes;
  url_password : option bytes;
  url_query : option bytes;
  url_fragment : option bytes;
  url_path : bytes;
  url_origin : bytes }.

Record SocketAddr := mkSocketAddr { sa_text : bytes; sa_is_loopback : bool }.

(** [Url::parse], [SocketAddr::from_str], [IpAddr::from_str] followed by [is_loopback], and
    [Method::from_bytes]. *)
Class WebText := {
  url_parse : bytes -> option Url;
  socket_addr : bytes -> option SocketAddr;
  ip_is_loopback : bytes -> bool;
  method_from_bytes : bytes -> option bytes }.

Inductive SecurityMode := Tls | E2ee.

Record TransportOptions := mkTransportOptions {
  to_environment : Environment;
  to_security : SecurityMode;
  to_max_connections : Z;
  to_base_url : option bytes }.

Definition TransportOptions_validate (o : TransportOptions) : result unit bytes :=
  reject to_max_connections o =? 0 with ascii "max_connections must be positive";
  Ok tt.

(** [Environment::e2ee_origin]. *)
Definition e2ee_origin (e : Environment) : bytes :=
  match e with
  | Production => ascii "https://e2ee.stogas.ai"
  | Staging => ascii "https://e2ee-staging.stogas.ai"
  end.

(** [matches!(url.path(), "" | "/")]. *)
Definition root_path (url : Url) : bool :=
  bool_decide (url_path url = []) || bool_decide (url_path url = ascii "/").

(** Neither credentials, a query, a fragment nor a path. *)
Definition bare_origin (url : Url) : bool :=
  bool_decide (is_Some (url_host url)) && bool_decide (url_username url = [])
  && bool_decide (url_password url = None) && bool_decide (url_query url = None)
  && bool_decide (url_fragment url = None) && root_path url.

Section Config.
Context `{WebText}.

(** [upstream::origin]. *)
Definition origin (options : TransportOptions) : result Url bytes :=
  let? _ := TransportOptions_validate options in
  let value := default (match to_security options with
                        | Tls => api_origin (to_environment options)
                        | E2ee => e2ee_origin (to_environment options)
                        end) (to_base_url options) in
  let? url := ok_or (url_parse value) (ascii "invalid upstream URL") in
  reject negb (bool_decide (url_scheme url = ascii "https")) || negb (bare_origin url)
    with ascii "upstream URL must be an HTTPS origin without credentials, query, fragment, or path";
  Ok url.

Definition secure_browser_origin (value : bytes) : result bytes bytes :=
  let? url := ok_or (url_parse value) (ascii "invalid browser origin") in
  let loopback_http := bool_decide (url_scheme url = ascii "http")
    && match url_host url with
       | Some host => eq_ignore_ascii_case host (ascii "localhost") || ip_is_loopback host
       | None => false
       end in
  reject (negb (bool_decide (url_scheme url = ascii "https")) && negb loopback_http) || negb (bare_origin url)
    with ascii "browser origin must be an HTTPS origin or an HTTP loopback origin";
  Ok (url_origin url).

Record ServeConfig := mkServeConfig {
  sc_options : TransportOptions;
  sc_upstream : Url;
  sc_listen : SocketAddr;
  sc_expected_host : bytes;
  sc_control_capability : bytes;
  sc_client_capability : bytes;
  sc_browser_origin : option bytes }.

(** [random_capability] of 32 random bytes. *)
Definition random_capability (random : bytes) : bytes := hex_encode random.

Definition ServeConfig_new (control client : bytes) (options : TransportOptions) (listen : bytes)
    (browser_origin : option bytes) : result ServeConfig bytes :=
  let? upstream := origin options in
  let? listen := ok_or (socket_addr listen) (ascii "invalid listen address") in
  reject negb (sa_is_loopback listen) with ascii "serve listener must use a loopback address";
  let? browser := match browser_origin with
    | None => Ok None
    | Some value => let? text := secure_browser_origin value in Ok (Some text)
    end in
  Ok (mkServeConfig options upstream listen (sa_text listen) (random_capability control)
        (random_capability client) browser).

Definition refresh_path (c : ServeConfig) : bytes :=
  ascii "/_stogas/" ++ sc_control_capability c ++ ascii "/refresh".
Definition base_url (c : ServeConfig) : bytes :=
  ascii "http://" ++ sc_expected_host c ++ ascii "/" ++ sc_client_capability c ++ ascii "/v1".
Definition refresh_url (c : ServeConfig) : bytes := ascii "http://" ++ sc_expected_host c ++ refresh_path c.
End Config.

(** ** Failures *)

Inductive Submission := NotSent | ExecutionUnknown.

Record Failure := mkFailure {
  fl_status : Z;
  fl_phase : bytes;
  fl_submission : Submission;
  fl_reason : bytes;
  fl_message : bytes }.

Definition BAD_GATEWAY : Z := 502.

Definition Failure_before (status : Z) (reason message : bytes) : Failure :=
  mkFailure status (ascii "request") NotSent reason message.

(** A failure of an upstream, reported by whether the request was submitted. *)
Definition Failure_upstream (submitted : bool) (reason message : bytes) : Failure :=
  mkFailure BAD_GATEWAY (if submitted then ascii "response" else ascii "setup")
    (if submitted then ExecutionUnknown else NotSent) reason message.

Definition Failure_evidence (text : bytes) (e : AcquireError) : Failure :=
  mkFailure BAD_GATEWAY (ascii "setup") NotSent (AcquireError_code e) text.

Definition Failure_native (text : bytes) (e : NativeError) : Failure :=
  Failure_upstream
    (match e with
     | Nh_Receipt _ | Nh_Pool (Pool_ResponseDeadline | Pool_Request false) => true
     | _ => false
     end) (NativeError_code e) text.

Definition Failure_encrypted (text : bytes) (e : ClientError) : Failure :=
  Failure_upstream
    (match e with
     | Ec_Receipt _ | Ec_Http (Eh_Deadline | Eh_Http | Eh_Response | Eh_Metadata | Eh_Record _) => true
     | _ => false
     end) (ClientError_code e) text.

(** ** Routes *)

Inductive Route := Refresh | Preflight | Inference (path : bytes).

(** [to_ascii_lowercase] and [split(',')]. *)
Definition to_ascii_lowercase (l : bytes) : bytes := ascii_lower <$> l.
Fixpoint split_commas (l : bytes) : list bytes :=
  match l with
  | [] => [[]]
  | b :: l =>
      if bool_decide (b = x2c) then [] :: split_commas l
      else match split_commas l with part :: parts => (b :: part) :: parts | [] => [[b]] end
  end.

Section Proxy.
Context `{WebText} `{HttpText}.

(** The API path after the client capability, such as [/v1/responses]. *)
Definition client_path (c : ServeConfig) (request : HttpRequest) : option bytes :=
  rest ← strip_prefix (ascii "/") (rq_path request);
  path ← strip_prefix (sc_client_capability c) rest;
  if starts_with path (ascii "/v1/") then Some path else None.

Definition route (c : ServeConfig) (request : HttpRequest) : result Route Failure :=
  let headers := rq_headers request in
  reject negb (zlen (header_all headers (ascii "host")) =? 1)
      || negb (bool_decide ((header_get headers (ascii "host") ≫= header_to_str) = Some (sc_expected_host c)))
    with Failure_before 421 (ascii "invalid_host") (ascii "invalid Host header");
  reject bool_decide (is_Some (rq_query request))
    with Failure_before 400 (ascii "invalid_path") (ascii "query parameters are not supported");
  let origin := header_get headers (ascii "origin") in
  if bool_decide (rq_path request = refresh_path c) then
    reject negb (bool_decide (rq_method request = ascii "POST")) || bool_decide (is_Some origin)
      with Failure_before 405 (ascii "invalid_refresh") (ascii "invalid refresh request");
    Ok Refresh
  else
    let? browser := match origin with
      | None => Ok false
      | Some origin =>
          if (zlen (header_all headers (ascii "origin")) =? 1)
             && match sc_browser_origin c with None => true | Some allowed => bool_decide (origin = allowed) end
          then Ok true
          else Err (Failure_before 403 (ascii "invalid_origin") (ascii "browser origin is not allowed"))
      end in
    let? path := ok_or (client_path c request)
      (Failure_before 404 (ascii "invalid_path") (ascii "invalid base URL")) in
    reject negb (bool_decide (path ∈ encrypted_paths))
      with Failure_before 404 (ascii "unsupported_path")
             (ascii "only chat completions, responses, policy validation and routing simulation are supported");
    if bool_decide (rq_method request = ascii "OPTIONS") && browser then Ok Preflight
    else
      reject negb (bool_decide (rq_method request = ascii "POST"))
        with Failure_before 405 (ascii "unsupported_method") (ascii "inference requires POST");
      Ok (Inference path).

(** ** Web pages *)

Definition browser_access (c : ServeConfig) (request : HttpRequest) : option bytes :=
  match header_all (rq_headers request) (ascii "origin") with
  | [origin] =>
      match client_path c request with
      | None => None
      | Some _ =>
          match sc_browser_origin c with
          | None => Some (ascii "*")
          | Some allowed => if bool_decide (origin = allowed) then Some origin else None
          end
      end
  | _ => None
  end.

Definition refused_preflight_names : list bytes := [ascii "cookie"; ascii "host"; ascii "origin"].

(** A requested header name that a page may not send. *)
Definition bad_preflight_name (name : bytes) : bool :=
  let name := str_trim name in
  bool_decide (name = []) || bool_decide (header_name name = None)
  || bool_decide (to_ascii_lowercase name ∈ refused_preflight_names).

Definition MAX_PREFLIGHT_HEADERS : Z := 2048.

(** The headers of the answer, or a status and a message. *)
Definition browser_preflight (request : HttpRequest) : result HeaderMap (Z * bytes) :=
  let headers := rq_headers request in
  let? method := ok_or
    (value ← header_get headers (ascii "access-control-request-method");
     text ← header_to_str value; method_from_bytes text)
    (400, ascii "invalid browser preflight") in
  reject negb (bool_decide (method = ascii "POST")) with (405, ascii "browser method is not allowed");
  let names := header_get headers (ascii "access-control-request-headers") in
  let? _ := match names with
    | None => Ok tt
    | Some value =>
        let? text := ok_or (header_to_str value) (400, ascii "invalid browser preflight") in
        reject (MAX_PREFLIGHT_HEADERS <? zlen text) || existsb bad_preflight_name (split_commas text)
          with (400, ascii "invalid browser preflight");
        Ok tt
    end in
  Ok (headers_of ([(ascii "access-control-allow-methods", ascii "POST, OPTIONS");
       (ascii "access-control-max-age", ascii "600")]
      ++ match names with Some value => [(ascii "access-control-allow-headers", value)] | None => [] end
      ++ (if bool_decide (header_get headers (ascii "access-control-request-private-network") = Some (ascii "true"))
          then [(ascii "access-control-allow-private-network", ascii "true")] else []))).

(** ** Forwarding *)

Definition hop_by_hop : list bytes :=
  [ascii "connection"; ascii "keep-alive"; ascii "proxy-authenticate"; ascii "proxy-authorization";
   ascii "te"; ascii "trailer"; ascii "transfer-encoding"; ascii "upgrade"].
Definition is_hop_by_hop (name : bytes) : bool := bool_decide (name ∈ hop_by_hop).
Definition is_local_browser_header (name : bytes) : bool :=
  bool_decide (name = ascii "origin") || starts_with name (ascii "access-control-").

(** The names in the [Connection] headers. *)
Definition connection_names (headers : HeaderMap) : list bytes :=
  concat ((fun text => (fun name => to_ascii_lowercase (str_trim name)) <$> split_commas text)
            <$> omap header_to_str (header_all headers (ascii "connection"))).

Definition dropped_request_name (headers : HeaderMap) (name : bytes) : bool :=
  is_hop_by_hop name || is_local_browser_header name || bool_decide (name = ascii "host")
  || bool_decide (name = ascii "content-length") || bool_decide (name ∈ connection_names headers).
Definition dropped_response_name (name : bytes) : bool :=
  is_hop_by_hop name || bool_decide (name = ascii "set-cookie").

(** [keys().filter(p)], then [remove] of each. *)
Definition remove_names (drop : bytes -> bool) (headers : HeaderMap) : HeaderMap :=
  fold_left header_remove (filter (fun name => drop name = true) (header_keys headers)) headers.

(** The request the upstream gets. *)
Definition forwarded (request : HttpRequest) (path body : bytes) : HttpRequest :=
  mkHttpRequest (rq_method request) path None
    (remove_names (dropped_request_name (rq_headers request)) (rq_headers request)) body.

Inductive UpstreamError := Up_native (e : NativeError) | Up_encrypted (e : ClientError).

(** The display texts of errors. *)
Context (describe : UpstreamError -> bytes) (describe_evidence : AcquireError -> bytes).

Definition Failure_of (e : UpstreamError) : Failure :=
  match e with
  | Up_native err => Failure_native (describe e) err
  | Up_encrypted err => Failure_encrypted (describe e) err
  end.

(** The upload under its deadline. *)
Definition read_upload (upload : Source) : result bytes Failure :=
  match collect_body MAX_REQUEST_BYTES [] (src_items upload) (src_ending upload) with
  | Ok body => Ok body
  | Err Rh_Deadline =>
      Err (Failure_before 408 (ascii "deadline") (ascii "request upload deadline expired"))
  | Err _ =>
      Err (Failure_before 413 (ascii "request_body")
             (ascii "request body exceeds its byte limit or was interrupted"))
  end.

Section Forward.
Context `{Json} `{Base64} `{Signatures} `{Hash} `{Encodings} `{Sigstore} `{X509} `{Unicode} `{Agreement}.
(** The two upstreams: what the sends of [native_http] and [encrypted_client] do. *)
Definition native_upstream {Ctx} (acquires : nat -> result Ctx NativeError) (dispatches : nat -> Dispatch)
    (boot_of : Ctx -> Receipt.VerifiedBoot) (uri_length : Z) (request : HttpRequest) (ev : EvidenceClient)
    : EvidenceClient * list Dispatch * result (Z * HeaderMap * Verified) UpstreamError :=
  let (sent, out) := native_send acquires dispatches boot_of request uri_length in
  (ev, sent,
   match out with
   | Ok r => Ok (nr_status r, nr_headers r, nr_body r)
   | Err e => Err (Up_native e)
   end).

Definition encrypted_upstream `{Kdf} `{Aead} `{Hpke} `{Random} (e : SendRun) (maximum : Z)
    (environment : Environment) (w : Sessions) (g : rng) (request : HttpRequest) (ev : EvidenceClient)
    : EvidenceClient * list Sent * result (Z * HeaderMap * Verified) UpstreamError :=
  let '(w, sent, out) := encrypted_send e maximum environment request (with_evidence ev w) g in
  (ws_evidence w, sent,
   match out with
   | Some (Ok r) => Ok (er_status r, er_headers r, er_body r)
   | Some (Err e) => Err (Up_encrypted e)
   | None => Err (Up_encrypted Ec_State)
   end).

(** What the upstream does with a request, with a record [T] of its dispatches; it shares the
    evidence client. *)
Context {T : Type}.
Context (upstream : HttpRequest -> EvidenceClient ->
           EvidenceClient * list T * result (Z * HeaderMap * Verified) UpstreamError).

Definition forward_request (request : HttpRequest) (upload : Source) (path : bytes) (ev : EvidenceClient)
    : EvidenceClient * list T * result (HttpResponse (option Verified)) Failure :=
  match read_upload upload with
  | Err f => (ev, [], Err f)
  | Ok body =>
      let '(ev, sent, out) := upstream (forwarded request path body) ev in
      (ev, sent,
       match out with
       | Err e => Err (Failure_of e)
       | Ok (status, headers, body) =>
           Ok (mkHttpResponse status (remove_names dropped_response_name headers) (Some body))
       end)
  end.

(** What a refresh of the evidence meets. *)
Record RefreshRun := mkRefreshRun {
  fr_now : Z;
  fr_check_now : result Z AcquireError;
  fr_attempts : list Attempt;
  fr_cooldown : Z }.

Definition PROXY_SETUP_BUDGET : Z := 15000.

Definition refresh_request (run : RefreshRun) (ev : EvidenceClient)
    : EvidenceClient * result (HttpResponse (option Verified)) Failure :=
  let original := ec_current ev in
  let (ev, refreshed) := EvidenceClient_refresh (fr_now run) (fr_now run + PROXY_SETUP_BUDGET)
    (fr_check_now run) (fr_attempts run) (fr_cooldown run) ev in
  (ev,
   let? snapshot := map_err (fun e => Failure_evidence (describe_evidence e) e) refreshed in
   let changed := match original with
     | None => true
     | Some old => negb (bool_decide (sn_body_sha256 old = sn_body_sha256 snapshot))
     end in
   Ok (mkHttpResponse (if changed then 200 else 204) (headers_of [(ascii "cache-control", ascii "no-store")]) None)).

Definition proxy_request_inner (c : ServeConfig) (request : HttpRequest) (upload : Source)
    (run : RefreshRun) (ev : EvidenceClient)
    : EvidenceClient * list T * result (HttpResponse (option Verified)) Failure :=
  match route c request with
  | Err f => (ev, [], Err f)
  | Ok Refresh => let (ev, out) := refresh_request run ev in (ev, [], out)
  | Ok Preflight =>
      (ev, [], match browser_preflight request with
               | Ok headers => Ok (mkHttpResponse 204 headers None)
               | Err (status, message) => Err (Failure_before status (ascii "invalid_preflight") message)
               end)
  | Ok (Inference path) => forward_request request upload path ev
  end.

Inductive ProxyBody := Pb_empty | Pb_error (v : Value) | Pb_upstream (v : Verified).

Definition submission_text (s : Submission) : bytes :=
  match s with NotSent => ascii "not_sent" | ExecutionUnknown => ascii "execution_unknown" end.

(** The error object of a failure. *)
Definition failure_value (f : Failure) : Value :=
  JObject [(ascii "error", JObject [
    (ascii "type", JString (ascii "stogas_transport_error")); (ascii "message", JString (fl_message f));
    (ascii "code", JString (fl_reason f));
    (ascii "stogas", JObject [(ascii "phase", JString (fl_phase f));
      (ascii "submission", JString (submission_text (fl_submission f)));
      (ascii "reason", JString (fl_reason f))])])].

Definition allow_origin (access : option bytes) (headers : HeaderMap) : HeaderMap :=
  match access with
  | None => headers
  | Some origin =>
      header_append (header_insert headers (ascii "access-control-allow-origin") origin)
        (ascii "vary") (ascii "Origin")
  end.

Definition proxy_request (c : ServeConfig) (request : HttpRequest) (upload : Source)
    (run : RefreshRun) (ev : EvidenceClient) : EvidenceClient * list T * HttpResponse ProxyBody :=
  let '(ev, sent, out) := proxy_request_inner c request upload run ev in
  let response := match out with
    | Ok r => mkHttpResponse (rs_status r) (rs_headers r)
                (match rs_body r with Some v => Pb_upstream v | None => Pb_empty end)
    | Err f => mkHttpResponse (fl_status f)
                 (headers_of [(ascii "content-type", ascii "application/json"); (ascii "cache-control", ascii "no-store")])
                 (Pb_error (failure_value f))
    end in
  (ev, sent,
   mkHttpResponse (rs_status response) (allow_origin (browser_access c request) (rs_headers response))
     (rs_body response)).
End Forward.
End Proxy.

(** * Theory

    What the loopback endpoint guarantees: only requests with its capability reach the upstream,
    web pages without it read nothing, requests are forwarded exactly, and failures are
    reported honestly. *)

(** ** Headers *)

Lemma header_remove_all (names : list bytes) (h : HeaderMap) :
  NoDup (header_keys h) -> fold_left header_remove names h ≡ₚ filter (fun e => e.1 ∉ names) h.
Proof.
  revert h. induction names as [|n names IH]; intros h Hd; simpl.
  - rewrite list_filter_all; [done|]. apply Forall_forall. intros e _. apply not_elem_of_nil.
  - pose proof (header_remove_filter h n Hd) as Hr. rewrite IH.
    + rewrite Hr, list_filter_filter. apply reflexive_eq, list_filter_iff. intros [k v]. simpl.
      rewrite not_elem_of_cons. naive_solver.
    + unfold header_keys in *. rewrite Hr. eapply sublist_NoDup; [exact Hd|]. apply fmap_sublist, sublist_filter.
Qed.

Lemma filter_agree {A} (P Q : A -> Prop) `{!forall x, Decision (P x)} `{!forall x, Decision (Q x)} (l : list A) :
  (forall x, x ∈ l -> P x <-> Q x) -> filter P l = filter Q l.
Proof.
  induction l as [|x l IH]; intros Hx; [done|]. rewrite !filter_cons.
  rewrite IH by (intros y Hy; apply Hx; by right). specialize (Hx x (list_elem_of_here _ _)).
  repeat case_decide; naive_solver.
Qed.

Lemma remove_names_filter drop (h : HeaderMap) :
  NoDup (header_keys h) -> remove_names drop h ≡ₚ filter (fun e => drop e.1 = false) h.
Proof.
  intros Hd. unfold remove_names. rewrite header_remove_all by done. apply reflexive_eq, filter_agree.
  intros [k v] Hin. simpl. rewrite list_elem_of_filter. split.
  - intros Hn. destruct (drop k); [|done]. destruct Hn. split; [done|]. by apply (list_elem_of_fmap_2 fst) in Hin.
  - intros E [Ht _]. congruence.
Qed.

Section Endpoint.
Context `{WebText} `{HttpText}.

(** No API path without the capability in the request's path. *)
Lemma client_path_none c request :
  (forall rest, rq_path request <> ascii "/" ++ sc_client_capability c ++ ascii "/v1/" ++ rest) ->
  client_path c request = None.
Proof.
  intros Hn. unfold client_path. destruct (strip_prefix (ascii "/") _) as [rest|] eqn:H1; simpl; [|done].
  destruct (strip_prefix _ rest) as [p|] eqn:H2; simpl; [|done]. case_match eqn:Hp; [|done].
  change (starts_with p (ascii "/v1/") = true) in Hp.
  apply strip_prefix_spec in H1. apply strip_prefix_spec in H2 as ->. apply starts_with_spec in Hp as [r ->].
  by destruct (Hn r).
Qed.

Lemma client_path_spec c request path :
  client_path c request = Some path ->
  rq_path request = ascii "/" ++ sc_client_capability c ++ path.
Proof.
  unfold client_path. destruct (strip_prefix (ascii "/") _) as [rest|] eqn:H1; simpl; [|done].
  destruct (strip_prefix _ rest) as [p|] eqn:H2; simpl; [|done]. case_match; [|done].
  intros [= <-]. apply strip_prefix_spec in H1 as ->. by apply strip_prefix_spec in H2 as ->.
Qed.

(** The request names this endpoint, once. *)
Definition own_host (c : ServeConfig) (request : HttpRequest) : Prop :=
  exists value, header_all (rq_headers request) (ascii "host") = [value]
    /\ header_to_str value = Some (sc_expected_host c).

(** The origin of a request from a web page, if it may call. *)
Definition allowed_page (c : ServeConfig) (request : HttpRequest) : Prop :=
  exists origin, header_all (rq_headers request) (ascii "origin") = [origin]
    /\ forall allowed, sc_browser_origin c = Some allowed -> origin = allowed.

(** What each route stands for. *)
Definition route_claims (c : ServeConfig) (request : HttpRequest) (r : Route) : Prop :=
  match r with
  | Refresh =>
      rq_path request = refresh_path c /\ rq_method request = ascii "POST"
      /\ header_all (rq_headers request) (ascii "origin") = []
  | Preflight =>
      allowed_page c request /\ rq_method request = ascii "OPTIONS"
      /\ exists path, path ∈ encrypted_paths /\ rq_path request = ascii "/" ++ sc_client_capability c ++ path
  | Inference path =>
      (header_all (rq_headers request) (ascii "origin") = [] \/ allowed_page c request)
      /\ rq_method request = ascii "POST" /\ path ∈ encrypted_paths
      /\ rq_path request = ascii "/" ++ sc_client_capability c ++ path
  end.

Lemma header_get_none h name : header_get h name = None -> header_all h name = [].
Proof. unfold header_get. by destruct (header_all h name). Qed.
Lemma header_get_single h name value :
  header_get h name = Some value -> zlen (header_all h name) = 1 -> header_all h name = [value].
Proof.
  unfold header_get. destruct (header_all h name) as [|v [|v' l]]; [done|by intros [= ->]|].
  unfold zlen. simpl. lia.
Qed.

(** The endpoint serves only requests that know its capability and name its own address:
    a request is routed only when it has exactly one [Host], which is the endpoint's, and no
    query; the refresh route needs the control capability, POST and no [Origin]; inference
    and preflights need the client capability before one of the supported API paths, POST or
    OPTIONS, and at most one [Origin], which is the configured one if one is configured. *)
Theorem route_sound c request r :
  route c request = Ok r ->
  own_host c request /\ rq_query request = None /\ route_claims c request r.
Proof.
  unfold route. intros Hx. pass Hx by Hh. apply orb_false_iff in Hh as [Hh1 Hh2]. zbool.
  pass Hx by Hq. apply bool_decide_eq_false, eq_None_not_Some in Hq.
  assert (Hhost : own_host c request).
  { destruct (header_get (rq_headers request) (ascii "host")) as [v|] eqn:Hg; [|done].
    exists v. split; [by apply header_get_single|done]. }
  split_and!; [done|done|]. case_bool_decide as Hp.
  - pass Hx by Hr. apply orb_false_iff in Hr as [Hr1 Hr2]. zbool. injection Hx as <-.
    split_and!; [done|done|]. by apply header_get_none, eq_None_not_Some.
  - pass Hx as browser by Hb. pass Hx as path by Hpath. pass Hx by Hs. zbool.
    apply client_path_spec in Hpath.
    assert (Hpage : if browser then allowed_page c request else header_all (rq_headers request) (ascii "origin") = []).
    { destruct (header_get (rq_headers request) (ascii "origin")) as [o|] eqn:Ho; cycle 1.
      { injection Hb as <-. by apply header_get_none. }
      destruct (zlen (header_all (rq_headers request) (ascii "origin")) =? 1) eqn:Hone; [|done]. zbool. destruct (sc_browser_origin c) as [a|] eqn:Ha; simpl in Hb.
      - destruct (bool_decide (o = a)) eqn:Hoa; [|done]. zbool. injection Hb as <-. exists o. split; [by apply header_get_single|]. intros ?. congruence.
      - injection Hb as <-. exists o. split; [by apply header_get_single|]. intros ?. congruence. }
    destruct (_ && browser) eqn:Hm.
    + injection Hx as <-. apply andb_true_iff in Hm as [Hm ->]. zbool. split_and!; [done|done|]. by exists path.
    + pass Hx by Hpost. zbool. injection Hx as <-. destruct browser; split_and!; try done; first [by left|by right].
Qed.

(** ** Forwarding *)

Definition passes (request : HttpRequest) (name : bytes) : Prop :=
  (name ∉ hop_by_hop) /\ (name ∉ [ascii "origin"; ascii "host"; ascii "content-length"])
  /\ starts_with name (ascii "access-control-") = false /\ (name ∉ connection_names (rq_headers request)).

Lemma dropped_request_spec request name :
  dropped_request_name (rq_headers request) name = false <-> passes request name.
Proof.
  unfold dropped_request_name, is_hop_by_hop, is_local_browser_header, passes.
  rewrite !orb_false_iff, !bool_decide_eq_false. rewrite !not_elem_of_cons.
  pose proof (not_elem_of_nil name). naive_solver.
Qed.

Lemma read_upload_exact upload body :
  read_upload upload = Ok body -> body = concat (src_items upload) /\ src_ending upload = Complete
    /\ zlen body <= MAX_REQUEST_BYTES.
Proof.
  unfold read_upload. destruct (collect_body _ _ _ _) as [b|[]] eqn:Hc; try done. intros [= <-].
  assert (Hg : forall items received, zlen received <= MAX_REQUEST_BYTES ->
    collect_body MAX_REQUEST_BYTES received items (src_ending upload) = Ok b ->
    b = received ++ concat items /\ src_ending upload = Complete /\ zlen b <= MAX_REQUEST_BYTES).
  { clear Hc. induction items as [|x items IH]; intros received Hr; simpl.
    - destruct (src_ending upload); try done. intros [= <-]. by rewrite app_nil_r.
    - intros Hx. pass Hx by Hl. zbool. apply IH in Hx as (-> & ? & ?); [|rewrite zlen_app; lia].
      split_and!; [by rewrite <- app_assoc|done|done]. }
  apply Hg in Hc; [done|]. by cbv.
Qed.

(** ** Pages *)

Lemma access_needs_path c request : client_path c request = None -> browser_access c request = None.
Proof. unfold browser_access. intros ->. by destruct (header_all _ _) as [|o [|]]. Qed.

Lemma route_needs_path c request path : route c request = Ok (Inference path) -> client_path c request = Some path.
Proof.
  unfold route. intros Hx. pass Hx by G1. pass Hx by G2. case_bool_decide; [by pass Hx by G3|].
  pass Hx as browser by Hb. pass Hx as p by Hp. pass Hx by G4. destruct (_ && browser); [done|].
  pass Hx by G5. by injection Hx as ->.
Qed.
End Endpoint.

(** ** The whole handler *)

Section Handler.
Context `{WebText} `{HttpText}.
Context `{Json} `{Base64} `{Signatures} `{Hash} `{Encodings} `{Sigstore} `{X509} `{Unicode} `{Agreement}.
Context (describe : UpstreamError -> bytes) (describe_evidence : AcquireError -> bytes) {T : Type}.
Context (upstream : HttpRequest -> EvidenceClient ->
           EvidenceClient * list T * result (Z * HeaderMap * Verified) UpstreamError).

(** The upstream is called at most once, with this request. *)
Lemma inner_sent c request upload run ev ev' sent out :
  proxy_request_inner describe describe_evidence upstream c request upload run ev = (ev', sent, out) ->
  sent = [] \/ exists path body,
    route c request = Ok (Inference path) /\ read_upload upload = Ok body
    /\ sent = (upstream (forwarded request path body) ev).1.2.
Proof.
  unfold proxy_request_inner. destruct (route c request) as [[| |path]|f] eqn:Hr; try (intros [= _ <- _]; by left).
  - destruct (refresh_request _ _ _) as [ev1 out1]. intros [= _ <- _]. by left.
  - unfold forward_request. destruct (read_upload upload) as [body|] eqn:Hb; [|intros [= _ <- _]; by left].
    destruct (upstream _ ev) as [[ev1 sent1] out1] eqn:Hu. intros [= _ <- _]. right. exists path, body.
    by rewrite Hu.
Qed.

(** C27. What reaches the upstream is the application's request and nothing else: if anything is
    dispatched, the request was routed to inference, and the upstream got its method, the API
    path without the capability, no query, its complete body of at most 128 MiB, and exactly
    its headers (every name with all its values in their order, each name once, the names
    possibly in another order) without those that concern the connection to the endpoint
    itself: hop-by-hop headers and those named by [Connection], [Host], [Content-Length],
    [Origin] and the CORS headers. The hypothesis is the header map's own invariant. *)
Theorem forwarded_exactly c request upload run ev ev' sent response :
  NoDup (header_keys (rq_headers request)) ->
  proxy_request describe describe_evidence upstream c request upload run ev = (ev', sent, response) ->
  sent = [] \/ exists path headers,
    route c request = Ok (Inference path)
    /\ rq_path request = ascii "/" ++ sc_client_capability c ++ path
    /\ src_ending upload = Complete
    /\ zlen (concat (src_items upload)) <= MAX_REQUEST_BYTES
    /\ headers ≡ₚ filter (fun e => passes request e.1) (rq_headers request)
    /\ sent = (upstream (mkHttpRequest (rq_method request) path None headers (concat (src_items upload))) ev).1.2.
Proof.
  intros Hd. unfold proxy_request. destruct (proxy_request_inner _ _ _ _ _ _ _ _) as [[ev1 sent1] out] eqn:Hi.
  intros [= _ <- _]. apply inner_sent in Hi as [->|(path & body & Hr & Hb & ->)]; [by left|right].
  exists path, (rq_headers (forwarded request path body)). apply read_upload_exact in Hb as (-> & He & Hl).
  split_and!; [done|by apply client_path_spec, route_needs_path|done|done| |done].
  cbn [forwarded rq_headers]. rewrite remove_names_filter by done. apply reflexive_eq, list_filter_iff. intros [k v].
  simpl. apply dropped_request_spec.
Qed.

(** The headers of the endpoint's own answers. *)
Lemma inner_headers c request upload run ev ev' sent r :
  proxy_request_inner describe describe_evidence upstream c request upload run ev = (ev', sent, Ok r) ->
  client_path c request = None -> header_all (rs_headers r) (ascii "access-control-allow-origin") = [].
Proof.
  unfold proxy_request_inner. destruct (route c request) as [[| |path]|f] eqn:Hr; [| | |done].
  - unfold refresh_request. destruct (EvidenceClient_refresh _ _ _ _ _ _) as [ev1 [s|e]]; [|done].
    by intros [= _ _ <-].
  - destruct (browser_preflight request) as [headers|[status message]] eqn:Hp; [|done]. intros [= _ _ <-] _.
    unfold browser_preflight in Hp. pass Hp as method by G1. pass Hp by G2. pass Hp as u by G3. injection Hp as <-.
    cbn [rs_headers]. destruct (header_get _ (ascii "access-control-request-headers")), (bool_decide (_ = Some _)); by vm_compute.
  - intros _ Hn. apply route_needs_path in Hr. congruence.
Qed.

(** C28. A web page reads nothing without the client capability: to a request whose path does
    not begin with a slash, the endpoint's capability and [/v1/], byte for byte, no answer
    has an [Access-Control-Allow-Origin] header, whatever the route, the error or the other
    headers, and nothing is sent upstream. *)
Theorem page_isolated c request upload run ev ev' sent response :
  proxy_request describe describe_evidence upstream c request upload run ev = (ev', sent, response) ->
  (forall rest, rq_path request <> ascii "/" ++ sc_client_capability c ++ ascii "/v1/" ++ rest) ->
  header_all (rs_headers response) (ascii "access-control-allow-origin") = [] /\ sent = [].
Proof.
  unfold proxy_request. destruct (proxy_request_inner _ _ _ _ _ _ _ _) as [[ev1 sent1] out] eqn:Hi.
  intros [= _ <- <-] Hn%client_path_none. rewrite access_needs_path by done. simpl. split.
  - destruct out as [r|f]; [|done]. by eapply inner_headers.
  - apply inner_sent in Hi as [->|(path & body & Hr & _)]; [done|]. apply route_needs_path in Hr. congruence.
Qed.

(** An answer to a page that may read names its origin, or any if none is configured. *)
Lemma page_reads c request upload run ev ev' sent response origin :
  proxy_request describe describe_evidence upstream c request upload run ev = (ev', sent, response) ->
  header_all (rq_headers request) (ascii "origin") = [origin] -> is_Some (client_path c request) ->
  (sc_browser_origin c = None -> header_all (rs_headers response) (ascii "access-control-allow-origin") = [ascii "*"])
  /\ (sc_browser_origin c = Some origin ->
      header_all (rs_headers response) (ascii "access-control-allow-origin") = [origin]).
Proof.
  unfold proxy_request. destruct (proxy_request_inner _ _ _ _ _ _ _ _) as [[ev1 sent1] out].
  intros [= _ _ <-] Ho [path Hp]. cbn [rs_headers]. unfold browser_access. rewrite Ho, Hp.
  assert (Ha : forall v h, header_all (header_append (header_insert h (ascii "access-control-allow-origin") v)
    (ascii "vary") (ascii "Origin")) (ascii "access-control-allow-origin") = [v]).
  { intros v h. rewrite header_all_append by done. apply header_all_insert. }
  split; intros ->; [by apply Ha|]. rewrite bool_decide_true by done. by apply Ha.
Qed.
End Handler.

(** ** Failures *)

Lemma native_submission text e : fl_submission (Failure_native text e) = NotSent -> submitted_error e = false.
Proof. by destruct e as [[| | | | | |[]|]| | | | |]. Qed.

Lemma encrypted_submission text e :
  fl_submission (Failure_encrypted text e) = NotSent -> e = Ec_Http Eh_Completion \/ execution_unknown e = false.
Proof. destruct e as [| | | | | | | | |[]|]; simpl; auto; done. Qed.

Section Failures.
Context `{WebText} `{HttpText} `{Kdf} `{Aead} `{Hpke} `{Random}.
Context `{Json} `{Base64} `{Signatures} `{Hash} `{Encodings} `{Sigstore} `{X509} `{Unicode} `{Agreement}.
Context (describe : UpstreamError -> bytes) (describe_evidence : AcquireError -> bytes).

(** Failures of the endpoint come before the upstream, or from it. *)
Lemma inner_failure {T} (upstream : HttpRequest -> EvidenceClient ->
    EvidenceClient * list T * result (Z * HeaderMap * Verified) UpstreamError) c request upload run ev ev' sent f :
  proxy_request_inner describe describe_evidence upstream c request upload run ev = (ev', sent, Err f) ->
  sent = [] \/ exists forward e, upstream forward ev = (ev', sent, Err e) /\ f = Failure_of describe e.
Proof.
  unfold proxy_request_inner. destruct (route c request) as [[| |path]|f0]; try (intros [= _ <- _]; by left).
  - destruct (refresh_request _ _ _) as [ev1 out1]. intros [= _ <- _]. by left.
  - unfold forward_request. destruct (read_upload upload) as [body|]; [|intros [= _ <- _]; by left].
    destruct (upstream _ ev) as [[ev1 sent1] [[[status headers] v]|e]] eqn:Hu; [done|].
    intros [= <- <- <-]. right. by exists (forwarded request path body), e.
Qed.

(** C16. The endpoint's errors are honest about execution: when an answer's error says the request
    was not sent, no dispatch of it can have run at the gateway, over native TLS whatever the
    connections do, and over encrypted sessions unless the error is the incomplete event
    stream of a response without a body. *)
Theorem failures_honest {Ctx : Type} (acquires : nat -> result Ctx NativeError) dispatches boot_of uri_length
    e maximum environment w g c request upload run ev :
  (forall i, unready_ok (dispatches i)) ->
  (forall i err, acquires i = Err err -> submitted_error err = false) ->
  (forall ev' sent f,
    proxy_request_inner describe describe_evidence (native_upstream acquires dispatches boot_of uri_length)
      c request upload run ev = (ev', sent, Err f) ->
    fl_submission f = NotSent -> Forall (fun d => may_run d = false) sent)
  /\ (forall ev' sent f,
    proxy_request_inner describe describe_evidence (encrypted_upstream e maximum environment w g)
      c request upload run ev = (ev', sent, Err f) ->
    fl_submission f = NotSent ->
    Forall (fun s => exchange_may_run s = false) sent
    \/ f = Failure_encrypted (describe (Up_encrypted (Ec_Http Eh_Completion))) (Ec_Http Eh_Completion)).
Proof.
  intros Hu Ha. split; intros ev' sent f Hi Hs.
  - apply inner_failure in Hi as [->|(forward & err & Hn & ->)]; [constructor|].
    unfold native_upstream in Hn. destruct (native_send _ _ _ _ _) as [sent1 out] eqn:Hsend. injection Hn as -> -> Ho.
    destruct out as [|e1]; [done|]. injection Ho as <-. apply native_submission in Hs.
    destruct (native_send_spec _ _ _ _ _ _ _ Hu Ha Hsend) as (_ & _ & Hh & _). by apply (Hh e1).
  - apply inner_failure in Hi as [->|(forward & err & Hn & ->)]; [left; constructor|].
    unfold encrypted_upstream in Hn.
    destruct (encrypted_send_spec e maximum environment forward (with_evidence ev w) g) as (w' & sent1 & out & Hsend & _ & _ & Hh).
    rewrite Hsend in Hn.
    destruct out as [r|e1]; [done|]. injection Hn as _ <- <-. apply encrypted_submission in Hs as [->|Hs]; [by right|].
    left. by apply (Hh e1).
Qed.

(** C39. One error of encrypted requests is reported wrongly: when the event stream of a response
    without a body is incomplete, the exchange was submitted and was not refused, so the gateway
    may have run the request, but the endpoint reports it as a failed setup that was not sent. *)
Theorem completion_misreported e maximum environment w g request ev ev' sent :
  encrypted_upstream e maximum environment w g request ev
    = (ev', sent, Err (Up_encrypted (Ec_Http Eh_Completion))) ->
  Exists (fun s => exchange_may_run s = true) sent
  /\ fl_submission (Failure_of describe (Up_encrypted (Ec_Http Eh_Completion))) = NotSent
  /\ fl_phase (Failure_of describe (Up_encrypted (Ec_Http Eh_Completion))) = ascii "setup".
Proof.
  unfold encrypted_upstream.
  destruct (encrypted_send _ _ _ _ _ _) as [[w' sent1] [[r|err]|]] eqn:Hs; try done.
  intros [= _ <- ->]. split_and!; [|done|done]. by eapply send_error_ran.
Qed.
End Failures.
