(* ===== verification/Probe.v ===== *)
(** The admission probe ([sdk/src/probe.rs]) and the managed transport's handle
    ([sdk/src/lib.rs]: [Transport::close], [ensure_running], [refresh_bundle] and the terminal
    error that the worker and the handle share). *)

From S2P Require Import Prelude Record Ratchet Window Session Primitives BTree Json Text Signing Attestation Setup Sse Receipt.
From S2P Require Import Provisioning Documents Deserialize Approvals Snp Releases Amd Collateral Certificates Snapshot Boot.
From S2P Require Import EvidenceClient HttpTypes Http2Pool EncryptedHttp ReceiptHttp NativeHttp EncryptedSetup EncryptedClient.
From S2P Require Import EncryptedSend Proxy.

Open Scope Z_scope.

Definition PROBE_BODY : bytes :=
  let q := [x22] in
  ascii "{" ++ q ++ ascii "model" ++ q ++ ascii ":" ++ q ++ ascii "stogas-status-monitor" ++ q ++ ascii ","
  ++ q ++ ascii "messages" ++ q ++ ascii ":[{" ++ q ++ ascii "role" ++ q ++ ascii ":" ++ q ++ ascii "user" ++ q
  ++ ascii "," ++ q ++ ascii "content" ++ q ++ ascii ":" ++ q ++ ascii "ping" ++ q ++ ascii "}]}".
Definition RESPONSE_LIMIT : Z := 64 * 1024.

Record ProbeReport := mkProbeReport {
  pb_security : SecurityMode;
  pb_ready : bool;
  pb_node_id : option bytes;
  pb_http_status : option Z;
  pb_error_code : option bytes }.

Definition ProbeReport_new (security : SecurityMode) : ProbeReport := mkProbeReport security false None None None.

Definition probe_request : HttpRequest := mkHttpRequest (ascii "POST") (ascii "/v1/chat/completions") None
  (headers_of [(ascii "authorization", ascii "Bearer stogas-status-monitor-uncredentialed");
   (ascii "content-type", ascii "application/json"); (ascii "user-agent", ascii "stogas-probe/1")]) PROBE_BODY.

Section Probe.
Context `{Json} `{Base64} `{Signatures} `{Hash} `{Encodings} `{Sigstore} `{X509} `{Unicode} `{Agreement} `{WebText}.

(** [pointer] of two names in an object. *)
Definition pointer (v : Value) (outer inner : bytes) : option Value :=
  value_get v outer ≫= fun w => value_get w inner.

Definition rejection_error (status : Z) (body : bytes) : option bytes :=
  match json_from_slice body with
  | None => Some (ascii "invalid_probe_response")
  | Some value =>
      if (status =? 401)
         && bool_decide ((pointer value (ascii "error") (ascii "type") ≫= as_str) = Some (ascii "authentication_error"))
      then None
      else if status =? 503 then
        let code := pointer value (ascii "error") (ascii "code") ≫= as_str in
        Some (if bool_decide (code = Some (ascii "gateway_capacity_exceeded")) then ascii "gateway_capacity_exceeded"
              else if bool_decide (code = Some (ascii "gateway_draining")) then ascii "gateway_draining"
              else ascii "gateway_unavailable")
      else Some (ascii "invalid_probe_response")
  end.

(** A response: its status, the context in its extensions and its body. *)
Record ProbeResponse := mkProbeResponse {
  po_status : Z;
  po_context : option RequestContext;
  po_body : Source }.

Definition context_node_id (ctx : RequestContext) : bytes :=
  vr_node_id (vn_hardware (vb_identity (vx_boot (rx_session ctx)))).

Definition inspect_response (report : ProbeReport) (r : ProbeResponse) : ProbeReport :=
  let security := pb_security report in
  match po_context r with
  | None => mkProbeReport security (pb_ready report) (pb_node_id report) (Some (po_status r))
              (Some (ascii "verification_unavailable"))
  | Some context =>
      let node := Some (context_node_id context) in
      match collect_body RESPONSE_LIMIT [] (src_items (po_body r)) (src_ending (po_body r)) with
      | Err Rh_Deadline =>
          mkProbeReport security (pb_ready report) node (Some (po_status r)) (Some (ascii "response_deadline"))
      | Err _ =>
          mkProbeReport security (pb_ready report) node (Some (po_status r)) (Some (ascii "invalid_probe_response"))
      | Ok body =>
          let code := rejection_error (po_status r) body in
          mkProbeReport security (bool_decide (code = None)) node (Some (po_status r)) code
      end
  end.

(** The two upstreams; a probe asks for no receipt, so its body comes unchecked. *)
Definition body_source (v : Verified) : Source :=
  match v with
  | Unchecked body => body
  | Buffered b => mkSource [b] Complete
  | Streamed state => ss_source state
  end.

Definition native_probe `{HttpText} (acquires : nat -> result RequestContext NativeError)
    (dispatches : nat -> Dispatch) (uri_length : Z) (ev : EvidenceClient) (request : HttpRequest)
    : result ProbeResponse bytes :=
  match (native_send acquires dispatches receipt_boot request uri_length).2 with
  | Ok r => Ok (mkProbeResponse (nr_status r) (Some (nr_context r)) (body_source (nr_body r)))
  | Err e => Err (NativeError_code e)
  end.

(** A new encrypted client: no sessions, the refreshed evidence. *)
Definition new_sessions (ev : EvidenceClient) : Sessions := mkSessions Client_new ∅ ev 0.

Definition encrypted_probe `{Kdf} `{Aead} `{Hpke} `{Random} `{HttpText} (e : SendRun) (maximum : Z)
    (environment : Environment) (g : rng) (ev : EvidenceClient) (request : HttpRequest)
    : result ProbeResponse bytes :=
  match (encrypted_send e maximum environment request (new_sessions ev) g).2 with
  | Some (Ok r) => Ok (mkProbeResponse (er_status r) (Some (er_context r)) (body_source (er_body r)))
  | Some (Err e) => Err (ClientError_code e)
  | None => Err (ClientError_code Ec_State)
  end.

(** [check]; [built] is the outcome of [Upstream::new], and [send] what the fresh upstream does
    with the request. *)
Definition probe_check (root : RootKey) (run : RefreshRun) (timeout : Z) (options : TransportOptions)
    (built : result unit bytes) (send : EvidenceClient -> HttpRequest -> result ProbeResponse bytes) : result ProbeReport bytes :=
  let? _ := origin options in
  reject timeout =? 0 with ascii "probe timeout must be positive";
  let report := ProbeReport_new (to_security options) in
  let? evidence := map_err AcquireError_code (EvidenceClient_new (to_environment options) root) in
  let coded code := mkProbeReport (to_security options) false None None (Some code) in
  match EvidenceClient_refresh (fr_now run) (fr_now run + timeout) (fr_check_now run) (fr_attempts run)
          (fr_cooldown run) evidence with
  | (_, Err e) => Ok (coded (AcquireError_code e))
  | (evidence, Ok _) =>
      let? _ := built in
      Ok (match send evidence probe_request with
          | Ok response => inspect_response report response
          | Err code => coded code
          end)
  end.
End Probe.

(** ** The managed transport *)

(** The worker's end, as a join and the handle see it. *)
Inductive WorkerEnd := Worker_stopped | Worker_panicked.

Record Transport := mkTransport {
  tp_shutdown : bool;
  tp_thread : bool;
  tp_terminal_error : option bytes }.

(** The first terminal error stays. *)
Definition record_transport_terminal_error (message : bytes) (current : option bytes) : option bytes :=
  match current with None => Some message | Some _ => current end.

(** What the worker records when it ends; [outcome] is the text of its error. *)
Definition worker_message (outcome : result (option bytes) unit) : bytes :=
  match outcome with
  | Ok None => ascii "managed transport stopped"
  | Ok (Some error) => ascii "managed transport stopped: " ++ error
  | Err _ => ascii "managed transport worker panicked"
  end.
Definition worker_ends (outcome : result (option bytes) unit) (t : Transport) : Transport :=
  mkTransport (tp_shutdown t) (tp_thread t)
    (record_transport_terminal_error (worker_message outcome) (tp_terminal_error t)).

(** [Drop]: the signal without a wait. *)
Definition drop_transport (t : Transport) : Transport := mkTransport false (tp_thread t) (tp_terminal_error t).

(** What [start] hears from the worker: its endpoints, an error, or nothing. *)
Inductive Ready := Rd_endpoints | Rd_error (error : bytes) | Rd_gone.

(** [start]; [config] is the outcome of [ServeConfig::new], [spawned] that of the thread, and
    [terminal] the error recorded by the time a worker without endpoints was joined. *)
Definition transport_start (options : TransportOptions) (config spawned : result unit bytes) (ready : Ready)
    (joined : WorkerEnd) (terminal : option bytes) : result Transport bytes :=
  let? _ := TransportOptions_validate options in
  let? _ := config in
  let? _ := spawned in
  let panicked := ascii "Stogas transport worker panicked during initialization" in
  let stopped := ascii "Stogas transport stopped before initialization completed" in
  match ready with
  | Rd_endpoints => Ok (mkTransport true true None)
  | Rd_error error => match joined with Worker_panicked => Err panicked | Worker_stopped => Err error end
  | Rd_gone =>
      match joined with
      | Worker_panicked => Err panicked
      | Worker_stopped => Err (match terminal with Some error => stopped ++ ascii ": " ++ error | None => stopped end)
      end
  end.

(** [close]: [received] tells whether the worker took the signal; the join waits for the worker,
    which records its end first. *)
Definition close_transport (received : bool) (outcome : result (option bytes) unit) (joined : WorkerEnd)
    (t : Transport) : Transport :=
  let error := tp_terminal_error t in
  let error := if tp_shutdown t && negb received
    then record_transport_terminal_error (ascii "managed transport stopped before shutdown") error else error in
  let error := if tp_thread t then
      let error := record_transport_terminal_error (worker_message outcome) error in
      match joined with
      | Worker_panicked => record_transport_terminal_error (ascii "managed transport worker panicked") error
      | Worker_stopped => error
      end
    else error in
  mkTransport false false (record_transport_terminal_error (ascii "managed transport is closed") error).

(** [ensure_running]; [finished] tells whether the worker's thread has ended. *)
Definition ensure_running (finished : bool) (t : Transport) : result unit bytes :=
  match tp_terminal_error t with
  | Some error => Err error
  | None =>
      reject negb (tp_thread t) || finished with ascii "managed transport is not running";
      Ok tt
  end.

(** [split_ascii_whitespace]. *)
Definition ascii_whitespace (b : byte) : bool := bool_decide (b ∈ [x20; x09; x0a; x0c; x0d]).
Fixpoint whitespace_words (word : bytes) (l : bytes) : list bytes :=
  match l with
  | [] => match word with [] => [] | _ => [rev word] end
  | b :: l =>
      if ascii_whitespace b then match word with [] => whitespace_words [] l | _ => rev word :: whitespace_words [] l end
      else whitespace_words (b :: word) l
  end.
Definition split_ascii_whitespace (l : bytes) : list bytes := whitespace_words [] l.

Definition MAX_MANAGED_RESPONSE_LINE_BYTES : Z := 8 * 1024.
Definition MAX_MANAGED_ERROR_BYTES : Z := 8 * 1024.

(** The status in a line of at most [MAX_MANAGED_RESPONSE_LINE_BYTES] bytes. *)
Definition managed_status (status_line : bytes) : option Z :=
  if (MAX_MANAGED_RESPONSE_LINE_BYTES <? zlen status_line)
     || negb (bool_decide (last status_line = Some x0a)) then None
  else split_ascii_whitespace status_line !! 1%nat ≫= parse_unsigned u16_max.

(** [read_line] under [take]: up to the end of a line, or the limit. The rest is [None] when
    neither was reached. *)
Fixpoint read_line (limit : nat) (l : bytes) : bytes * option bytes :=
  match limit, l with
  | O, _ => ([], Some l)
  | _, [] => ([], None)
  | S limit, b :: l =>
      if bool_decide (b = x0a) then ([b], Some l) else let (line, rest) := read_line limit l in (b :: line, rest)
  end.

Inductive RefreshError :=
| Rf_Io
| Rf_Invalid
| Rf_Http (status : Z) (message : option bytes).

(** The answer to a refresh: the connection delivers [received], then ends or
    breaks. *)
Definition refresh_answer (received : bytes) (broken : bool) : result bool RefreshError :=
  let (line, rest) := read_line (Z.to_nat (MAX_MANAGED_RESPONSE_LINE_BYTES + 1)) received in
  reject broken && bool_decide (rest = None) with Rf_Io;
  let? line := ok_or (from_utf8 line) Rf_Io in
  let? status := ok_or (managed_status line) Rf_Invalid in
  if status =? 200 then Ok true
  else if status =? 204 then Ok false
  else
    let rest := default [] rest in
    let limit := MAX_MANAGED_ERROR_BYTES + 1 in
    reject broken && (zlen rest <? limit) with Rf_Io;
    let remainder := take (Z.to_nat limit) rest in
    Err (Rf_Http status (if MAX_MANAGED_ERROR_BYTES <? zlen remainder then None else Some remainder)).

(** [refresh_bundle]; an I/O error gives way to a terminal error recorded meanwhile. *)
Definition refresh_bundle (finished : bool) (answer : option (bytes * bool)) (meanwhile : option bytes) (t : Transport)
    : result bool (bytes + RefreshError) :=
  let? _ := map_err inl (ensure_running finished t) in
  let io := match meanwhile with Some error => inl error | None => inr Rf_Io end in
  match answer with
  | None => Err io
  | Some (received, broken) => map_err (fun e => match e with Rf_Io => io | e => inr e end) (refresh_answer received broken)
  end.

(** * Theory

    A probe reports readiness only for a verified gateway that refused the uncredentialed
    request, and a managed transport that has stopped says so from then on. *)

Section Probes.
Context `{Json} `{Base64} `{Signatures} `{Hash} `{Encodings} `{Sigstore} `{X509} `{Unicode} `{Agreement} `{WebText}.

(** Only one answer shows admission. *)
Lemma rejection_error_none status body :
  rejection_error status body = None <->
  status = 401 /\ exists v, json_from_slice body = Some v
    /\ (pointer v (ascii "error") (ascii "type") ≫= as_str) = Some (ascii "authentication_error").
Proof.
  unfold rejection_error. destruct (json_from_slice body) as [v|]; [|naive_solver].
  destruct (_ && _) eqn:E; zbool; [naive_solver|]. split.
  - by destruct (status =? 503).
  - intros (-> & v' & [= <-] & Ht). rewrite bool_decide_true in E by done. done.
Qed.

(** What a ready report shows of the response it came from. *)
Record admitted (r : ProbeResponse) (ctx : RequestContext) : Prop := mkAdmitted {
  ad_context : po_context r = Some ctx;
  ad_status : po_status r = 401;
  ad_body : exists body v, collect_body RESPONSE_LIMIT [] (src_items (po_body r)) (src_ending (po_body r)) = Ok body
    /\ json_from_slice body = Some v
    /\ (pointer v (ascii "error") (ascii "type") ≫= as_str) = Some (ascii "authentication_error") }.

Lemma inspect_ready report r :
  pb_ready report = false ->
  let report' := inspect_response report r in
  (pb_ready report' = true <-> pb_error_code report' = None)
  /\ (pb_ready report' = true -> exists ctx, pb_node_id report' = Some (context_node_id ctx) /\ admitted r ctx).
Proof.
  intros Hf. unfold inspect_response. destruct (po_context r) as [ctx|] eqn:Hc; simpl; [|by rewrite Hf].
  destruct (collect_body _ _ _ _) as [body|[]] eqn:Hb; simpl; try by rewrite Hf.
  rewrite bool_decide_eq_true. split; [done|]. intros Hr. exists ctx. split; [done|].
  apply rejection_error_none in Hr as (Hs & v & Hv & Ht). split; [done|done|]. by exists body, v.
Qed.

(** A probe reports readiness exactly when it reports no error, and then only for a verified
    admission: in this very call the evidence was acquired afresh by a new client, the request
    was answered with a context, whose node is the one reported, and the answer was the
    gateway's own authentication error with status 401 in at most 64 KiB. *)
Theorem probe_ready_sound root run timeout options built send report :
  probe_check root run timeout options built send = Ok report ->
  (pb_ready report = true <-> pb_error_code report = None)
  /\ (pb_ready report = true -> exists c ev s r ctx,
       EvidenceClient_new (to_environment options) root = Ok c
       /\ EvidenceClient_refresh (fr_now run) (fr_now run + timeout) (fr_check_now run) (fr_attempts run)
            (fr_cooldown run) c = (ev, Ok s)
       /\ send ev probe_request = Ok r /\ pb_node_id report = Some (context_node_id ctx) /\ admitted r ctx).
Proof.
  unfold probe_check. intros Hx. pass Hx as url by Ho. pass Hx by Ht. pass Hx as c by Hc.
  destruct (EvidenceClient_refresh _ _ _ _ _ c) as [ev [s|e]] eqn:Hr; [|by injection Hx as <-].
  pass Hx as u by Hb. injection Hx as <-. destruct (send ev probe_request) as [r|code] eqn:Hs; [|done].
  destruct (inspect_ready (ProbeReport_new (to_security options)) r eq_refl) as [Hiff Hready].
  split; [exact Hiff|]. intros Hx. destruct (Hready Hx) as (ctx & Hn & Ha). by exists c, ev, s, r, ctx.
Qed.

Lemma new_client_ok environment root c : EvidenceClient_new environment root = Ok c -> client_ok c.
Proof.
  unfold EvidenceClient_new. intros Hx. pass Hx as v by Hv. injection Hx as <-. unfold Verifier_new in Hv.
  pass Hv as a by Ha. injection Hv as <-. split; [done|by repeat constructor|done].
Qed.

Context `{Kdf} `{Aead} `{Hpke} `{Random} `{HttpText}.

Lemma new_sessions_attested environment ev : client_ok ev -> sessions_attested environment (new_sessions ev).
Proof. intros Hok. split; [done|]. intros i ctx Hx. cbn in Hx. by rewrite lookup_empty in Hx. Qed.

(** A gateway that a probe calls ready over the encrypted transport is attested, whatever the
    network does: the context of its answer belongs to a session that this probe set up with
    evidence verified for its own hello in the chosen environment, appraised again before the
    request. *)
Theorem probe_attested e maximum g root run timeout options built report :
  (forall n, Forall (others_ok (to_environment options)) (sd_turns e n)) ->
  probe_check root run timeout options built (encrypted_probe e maximum (to_environment options) g) = Ok report ->
  pb_ready report = true ->
  exists ctx, vouched (to_environment options) ctx /\ pb_node_id report = Some (context_node_id ctx)
    /\ pb_http_status report = Some 401.
Proof.
  intros Hot. unfold probe_check. intros Hx Hready. pass Hx as url by Ho. pass Hx by Ht. pass Hx as c by Hc.
  destruct (EvidenceClient_refresh _ _ _ _ _ c) as [ev [s|err]] eqn:Hr; [|by injection Hx as <-].
  pass Hx as u by Hb. injection Hx as <-.
  destruct (acquire_ok _ _ _ _ _ _ _ _ _ (new_client_ok _ _ _ Hc) Hr) as [Hev _].
  unfold encrypted_probe in *.
  destruct (encrypted_send e maximum _ probe_request (new_sessions ev) g) as [[w' sent] out] eqn:Hs; cbn [snd] in *.
  destruct (encrypted_send_vouched _ _ _ _ _ _ _ _ _ Hot (new_sessions_attested _ _ Hev) Hs) as (_ & Hv & Hctx).
  destruct out as [[r|err]|]; try done.
  apply inspect_ready in Hready as (ctx & Hn & Had); [|done]. destruct Had as [[= <-] Hst _].
  exists (er_context r). cbn [po_status] in Hst. split_and!.
  - specialize (Hctx r eq_refl). apply list_elem_of_fmap in Hctx as (x & -> & Hin). rewrite Forall_forall in Hv. by apply Hv.
  - done.
  - unfold inspect_response. cbn [po_context po_status]. rewrite Hst. by repeat case_match.
Qed.
End Probes.

(** ** The managed transport *)

(** A handle exists only for a worker that announced its endpoints, and it starts running. *)
Lemma started_runs options config spawned ready joined terminal t :
  transport_start options config spawned ready joined terminal = Ok t ->
  0 <> to_max_connections options /\ ready = Rd_endpoints /\ ensure_running false t = Ok tt.
Proof.
  unfold transport_start. intros Hx. pass Hx as u by Hv. pass Hx as u1 by Hc. pass Hx as u2 by Hs.
  unfold TransportOptions_validate in Hv. pass Hv by Hm. zbool.
  destruct ready; [by injection Hx as <-|by destruct joined..].
Qed.

(** What happens to a handle: its worker ends, or it is closed. *)
Inductive TransportStep : Transport -> Transport -> Prop :=
| Step_worker outcome t : TransportStep t (worker_ends outcome t)
| Step_close received outcome joined t : TransportStep t (close_transport received outcome joined t).

Lemma record_first message error current :
  current = Some error -> record_transport_terminal_error message current = Some error.
Proof. by intros ->. Qed.

Lemma step_keeps_error t t' error :
  TransportStep t t' -> tp_terminal_error t = Some error -> tp_terminal_error t' = Some error.
Proof.
  intros Hs He. destruct Hs; cbn [worker_ends close_transport tp_terminal_error]; rewrite He;
    repeat case_match; by rewrite ?record_first by done.
Qed.

Lemma close_records received outcome joined t :
  is_Some (tp_terminal_error (close_transport received outcome joined t)).
Proof. unfold close_transport. cbn [tp_terminal_error]. unfold record_transport_terminal_error at 1. case_match; eauto. Qed.

(** A transport that has stopped stays stopped and keeps its reason: once its worker has ended
    or the handle was closed, there is a first terminal error, and after any further steps, in
    any order, every refresh is refused with exactly this error and sends nothing. *)
Theorem stopped_transport_refuses t0 t1 t2 :
  TransportStep t0 t1 -> rtc TransportStep t1 t2 ->
  exists error, tp_terminal_error t1 = Some error
    /\ (forall before, tp_terminal_error t0 = Some before -> before = error)
    /\ forall finished answer meanwhile, refresh_bundle finished answer meanwhile t2 = Err (inl error).
Proof.
  intros Hs Hr.
  assert (is_Some (tp_terminal_error t1)) as [error He].
  { destruct Hs; [|apply close_records]. cbn. unfold record_transport_terminal_error. case_match; eauto. }
  exists error. split_and!; [done| |].
  - intros before Hb. pose proof (step_keeps_error _ _ _ Hs Hb). congruence.
  - intros finished answer meanwhile.
    assert (tp_terminal_error t2 = Some error) as He2.
    { clear Hs. induction Hr as [|t1 t t2 Hst _ IH]; [done|]. apply IH. by eapply step_keeps_error. }
    unfold refresh_bundle, ensure_running. by rewrite He2.
Qed.

(** A refresh reports a change only for the status 200 in a bounded status line, and quotes at
    most a bounded error. *)
Theorem refresh_answer_bounded received broken :
  (forall changed, refresh_answer received broken = Ok changed ->
     exists line, managed_status line = Some (if changed then 200 else 204)
       /\ zlen line <= MAX_MANAGED_RESPONSE_LINE_BYTES)
  /\ (forall status message, refresh_answer received broken = Err (Rf_Http status (Some message)) ->
       status <> 200 /\ status <> 204 /\ zlen message <= MAX_MANAGED_ERROR_BYTES).
Proof.
  unfold refresh_answer. destruct (read_line _ received) as [line rest] eqn:Hl. split.
  - intros changed Hx. pass Hx by Hio. pass Hx as text by Hu. pass Hx as status by Hs.
    exists text. assert (status = if changed then 200 else 204) as ->.
    { destruct (status =? 200) eqn:E1; zbool; [by injection Hx as <-|].
      destruct (status =? 204) eqn:E2; zbool; [by injection Hx as <-|]. by repeat case_match. }
    split; [done|]. unfold managed_status in Hs. destruct (_ || _) eqn:E; [done|]. by zbool.
  - intros status message. destruct (broken && _); [done|]. destruct (from_utf8 line) as [text|]; [|done]. cbn [ok_or].
    destruct (managed_status text) as [s|]; [|done]. cbn [ok_or].
    destruct (s =? 200) eqn:E1; [done|]. destruct (s =? 204) eqn:E2; [done|]. zbool.
    destruct (broken && _); [done|]. destruct (MAX_MANAGED_ERROR_BYTES <? _) eqn:E; [done|]. zbool.
    intros [= <- <-]. done.
Qed.
