(* ===== verification/BrowserChannel.v ===== *)
(** Encrypted requests in a browser ([wasm/src/channel.rs], [wasm/src/channel/request.rs]): a
    request moves its keys into the one operation that runs, a promise that JavaScript may free,
    call again or throw into at any time, and everything but a completed operation consumes them.

    A promise has two steps, the call and its settlement; in between JavaScript runs other calls.
    The operations hold for any cipher [C]; the browser's own ([wasm/src/host_cipher.rs]) chooses between
    WebCrypto, a parameter, and the portable one, and is shown to be such a cipher. The clocks, the callback and what JavaScript frees while
    an operation waits are parameters of a settlement. *)

From S2P Require Import Prelude Primitives BTree Json Signing Attestation Setup Sse Receipt Provisioning Documents Deserialize.
From S2P Require Import Approvals Snp Releases Amd Collateral Certificates Snapshot Boot EvidenceClient HttpTypes EncryptedHttp.
From S2P Require Import ReceiptHttp NativeHttp EncryptedSetup EncryptedSend Record RecordTheory Ratchet Window Session Stream.

Open Scope Z_scope.

Inductive BrowserError :=
| Be_channel (e : Error)
| Be_callback
| Be_clock
| Be_incomplete
| Be_no_receipt.

Record RequestIo := mkRequestIo {
  io_request : option ClientRequest;
  io_decoder : option ResponseDecoder;
  io_hashed : option bytes;
  io_finished : bool }.

(** An operation whose promise has not settled, with the keys it took. *)
Inductive BrowserOp := Op_seal (kind : Kind) (content : bytes) | Op_push (input : bytes).

Record RequestState := mkRequestState {
  st_io : option RequestIo;
  st_closed : bool;
  st_pending : option (BrowserOp * RequestIo) }.

(** Dropping the keys drops the reader, which gives up its pending start. *)
Definition drop_io (sh : Shared) (io : RequestIo) : Shared :=
  let sh := match io_request io with Some request => ResponseReader_drop sh (cr_reader request) | None => sh end in
  match io_decoder io with
  | Some decoder => match rd_request decoder with Some reader => ResponseReader_drop sh reader | None => sh end
  | None => sh
  end.

(** [RequestState::close]. *)
Definition RequestState_close (sh : Shared) (s : RequestState) : Shared * RequestState :=
  (match st_io s with Some io => drop_io sh io | None => sh end, mkRequestState None true (st_pending s)).

(** [Operation::begin] and [commit]; an operation that is dropped without a commit closes. *)
Definition Operation_begin (s : RequestState) : result RequestIo BrowserError :=
  if st_closed s then Err (Be_channel Closed) else ok_or (st_io s) (Be_channel Pending).

Definition Operation_drop (sh : Shared) (io : RequestIo) : Shared * RequestState :=
  (drop_io sh io, mkRequestState None true None).

Definition Operation_commit (sh : Shared) (s : RequestState) (io : RequestIo)
    : Shared * RequestState * result unit BrowserError :=
  if st_closed s then (Operation_drop sh io, Err (Be_channel Closed))
  else (sh, mkRequestState (Some io) false None, Ok tt).

(** [EncryptedRequest::new]. *)
Definition EncryptedRequest_new (request : ClientRequest) (receipt : bool) : RequestState :=
  mkRequestState (Some (mkRequestIo (Some request) None (if receipt then Some [] else None) false)) false None.

(** The destructor that [free] runs. *)
Definition EncryptedRequest_free : Shared -> RequestState -> Shared * RequestState := RequestState_close.

(** ** Calls *)

Definition call_seal (kind : byte) (content : bytes) (sh : Shared) (s : RequestState)
    : Shared * RequestState * result unit BrowserError :=
  match Operation_begin s with
  | Err e => (sh, s, Err e)
  | Ok io =>
      match Kind_try_from kind with
      | Err e => (Operation_drop sh io, Err (Be_channel e))
      | Ok kind => (sh, mkRequestState None false (Some (Op_seal kind content, io)), Ok tt)
      end
  end.

Definition call_push (input : bytes) (sh : Shared) (s : RequestState)
    : Shared * RequestState * result unit BrowserError :=
  match Operation_begin s with
  | Err e => (sh, s, Err e)
  | Ok io => (sh, mkRequestState None false (Some (Op_push input, io)), Ok tt)
  end.

(** [response_completion] and the digest of [response_receipt]. *)
Definition response_completion (s : RequestState) : result SseBody BrowserError :=
  reject st_closed s with Be_channel Closed;
  reject negb (match st_io s with Some io => io_finished io | None => false end) with Be_incomplete;
  Ok StreamCompletion_default.

(** ** Settlements *)

(** What the callback does with a record. *)
Inductive Callback := Cb_returns | Cb_frees | Cb_throws.

(** The records that reached the callback, whether the request was freed, and an exception. *)
Record Emitted := mkEmitted {
  em_records : list (Kind * bytes);
  em_closed : bool;
  em_thrown : bool }.

Definition emit_record (callback : nat -> Callback) (s : Emitted) (kind : Kind) (content : bytes)
    : Emitted * result unit Error :=
  if em_closed s then (s, Err Closed)
  else
    let records := em_records s ++ [(kind, content)] in
    match callback (length (em_records s)) with
    | Cb_returns => (mkEmitted records false (em_thrown s), Ok tt)
    | Cb_frees => (mkEmitted records true (em_thrown s), Ok tt)
    | Cb_throws => (mkEmitted records false true, Err Closed)
    end.

Section Browser.
Context `{Kdf} `{Aead} `{Agreement} `{Random} {C : Type} `{Cipher C}.
Context `{Json} `{Base64} `{Signatures} `{Hash} `{Encodings} `{Sigstore} `{X509} `{Unicode}.

Definition response_receipt (s : RequestState) : result bytes BrowserError :=
  reject st_closed s with Be_channel Closed;
  match st_io s with
  | None => Err Be_incomplete
  | Some io =>
      reject negb (io_finished io) with Be_incomplete;
      let? hashed := ok_or (io_hashed io) Be_no_receipt in
      Ok (sha256 hashed)
  end.

(** A sealed record updates the digest and the completion. *)
Definition sealed_io (io : RequestIo) (request : ClientRequest) (kind : Kind) (content : bytes) : RequestIo :=
  mkRequestIo (Some request) (io_decoder io)
    (if bool_decide (kind = Data) then (fun h => h ++ content) <$> io_hashed io else io_hashed io)
    (io_finished io || bool_decide (kind = Finished)).

(** The rest of [seal]; [freed] tells that the request was freed while WebCrypto ran. *)
Definition settle_seal (freed : bool) (kind : Kind) (content : bytes) (io : RequestIo) (sh : Shared) (s : RequestState)
    : Shared * RequestState * result bytes BrowserError :=
  match io_request io with
  | None => (Operation_drop sh io, Err (Be_channel Closed))
  | Some request =>
      if st_closed s then (Operation_drop sh io, Err (Be_channel Closed))
      else
        let (writer, out) := RequestEncoder_seal_async (C := C) freed (cr_writer request) kind content in
        let request := {| cr_writer := writer; cr_reader := cr_reader request |} in
        match out with
        | None => (Operation_drop sh (mkRequestIo (Some request) (io_decoder io) (io_hashed io) (io_finished io)),
                   Err (Be_channel Closed))
        | Some (Err e) => (Operation_drop sh (mkRequestIo (Some request) (io_decoder io) (io_hashed io) (io_finished io)),
                           Err (Be_channel e))
        | Some (Ok record) =>
            let '(sh, s, out) := Operation_commit sh s (sealed_io io request kind content) in
            (sh, s, match out with Ok _ => Ok record | Err e => Err e end)
        end
  end.

(** The rest of [push]: the first push turns the request into its decoder. The records that
    reached the callback come with the outcome. *)
Definition settle_push (schedule : list bool) (callback : nat -> Callback) (now_ms : option Z) (input : bytes)
    (io : RequestIo) (sh : Shared) (s : RequestState)
    : Shared * RequestState * list (Kind * bytes) * result unit BrowserError :=
  let decoder := match io_request io with Some request => Some (ResponseDecoder_new request) | None => io_decoder io end in
  let io := mkRequestIo None decoder (io_hashed io) (io_finished io) in
  match decoder, now_ms with
  | None, _ => (Operation_drop sh io, [], Err (Be_channel Closed))
  | _, None => (Operation_drop sh io, [], Err Be_clock)
  | Some decoder, Some now_ms =>
      if st_closed s then (Operation_drop sh io, [], Err (Be_channel Closed))
      else
        let '(sh, decoder, emitted, out) :=
          ResponseDecoder_push_async (C := C) (emit_record callback) schedule sh decoder (mkEmitted [] false false) input now_ms in
        let io := mkRequestIo None (Some decoder) (io_hashed io) (io_finished io) in
        let failed e := (Operation_drop sh io, em_records emitted, Err e) in
        if em_thrown emitted then failed Be_callback
        else if em_closed emitted then failed (Be_channel Closed)
        else
          match out with
          | None => failed (Be_channel Closed)
          | Some (Err e) => failed (Be_channel e)
          | Some (Ok _) =>
              let '(sh, s, out) := Operation_commit sh s io in (sh, s, em_records emitted, out)
          end
  end.

(** [finish] runs in one step. *)
Definition finish_response (sh : Shared) (s : RequestState) : Shared * RequestState * result unit BrowserError :=
  match Operation_begin s with
  | Err e => (sh, s, Err e)
  | Ok io =>
      let sh := match io_request io with Some request => ResponseReader_drop sh (cr_reader request) | None => sh end in
      let io' := mkRequestIo None None (io_hashed io) (io_finished io) in
      match io_decoder io with
      | None => (Operation_drop sh io', Err (Be_channel Truncated))
      | Some decoder =>
          match ResponseDecoder_finish sh decoder with
          | (sh, Err e) => (Operation_drop sh io', Err (Be_channel e))
          | (sh, Ok _) => Operation_commit sh (mkRequestState None false None) io'
          end
      end
  end.

(** ** Sessions *)

Record BrowserSession := mkBrowserSession {
  bs_core : ClientSession;
  bs_appraisal : VerifiedSession;
  bs_snapshot : Snapshot }.

Record BrowserRequest := mkBrowserRequest {
  bq_prefix : bytes;
  bq_state : RequestState;
  bq_snapshot : Snapshot;
  bq_appraisal : VerifiedSession }.

Inductive BrowserSessionError :=
| Bs_clock
| Bs_evidence (e : EvidenceError)
| Bs_channel (e : Error).

(** The appraisal before a request: a check under the same snapshot, or a new appraisal. *)
Definition browser_appraise (snapshot : Snapshot) (ev : Boot.Shared) (now : Z) (s : BrowserSession)
    : result BrowserSession BrowserSessionError :=
  if sn_identity snapshot =? sn_identity (bs_snapshot s) then
    let? _ := map_err Bs_evidence (Snapshot_check_session snapshot ev (bs_appraisal s) now) in Ok s
  else
    let? appraisal := map_err Bs_evidence (Snapshot_reappraise_session snapshot ev (bs_appraisal s) now) in
    Ok (mkBrowserSession (bs_core s) appraisal snapshot).

Definition EncryptedSession_request (snapshot : Snapshot) (ev : Boot.Shared) (receipt : bool)
    (now elapsed : option Z) (s : BrowserSession) (sh : Shared) (g : rng)
    : BrowserSession * Shared * rng * result BrowserRequest BrowserSessionError :=
  match now with
  | None => (s, sh, g, Err Bs_clock)
  | Some now =>
      match browser_appraise snapshot ev now s with
      | Err e => (s, sh, g, Err e)
      | Ok s =>
          match elapsed with
          | None => (s, sh, g, Err Bs_clock)
          | Some elapsed =>
              match ClientSession_expire (bs_core s) sh elapsed with
              | (sh, Err e) => (s, sh, g, Err (Bs_channel e))
              | (sh, Ok _) =>
                  match ClientSession_request (bs_core s) sh g with
                  | (sh, g, Err e) => (s, sh, g, Err (Bs_channel e))
                  | (sh, g, Ok request) =>
                      (s, sh, g,
                       Ok (mkBrowserRequest (RequestEncoder_prefix (cr_writer request))
                             (EncryptedRequest_new request receipt) (bs_snapshot s) (bs_appraisal s)))
                  end
              end
          end
      end
  end.

(** ** Receipts *)

Record ResponseReceipt := mkResponseReceipt {
  rt_appraisal : VerifiedSession;
  rt_request : bytes;
  rt_stream : option Receipt.Stream;
  rt_finished : bool }.

Inductive ReceiptFailure := Rt_closed | Rt_empty | Rt_receipt (e : ReceiptError).

Definition BrowserRequest_receipt (r : BrowserRequest) : result ResponseReceipt BrowserError :=
  let? digest := response_receipt (bq_state r) in
  Ok (mkResponseReceipt (bq_appraisal r) digest None false).

Definition push_sse (b : bytes) (r : ResponseReceipt) : ResponseReceipt * result (list bytes) ReceiptFailure :=
  if rt_finished r then (r, Err Rt_closed)
  else
    let stream := default (Stream_new (rt_request r)) (rt_stream r) in
    match Stream_push stream b with
    | (stream, Ok chunks) => (mkResponseReceipt (rt_appraisal r) (rt_request r) (Some stream) false, Ok chunks)
    | (_, Err e) => (mkResponseReceipt (rt_appraisal r) (rt_request r) None true, Err (Rt_receipt e))
    end.

(** The boot of an appraisal, as receipts use it. *)
Definition appraisal_boot (session : VerifiedSession) : Receipt.VerifiedBoot :=
  let registration := vb_identity (vx_boot session) in
  {| vb_node_id := vr_node_id (vn_hardware registration);
     vb_signing_public_key := bd_signing_public_key (br_report_data (vn_record registration));
     vb_document_sha256 := vn_document_sha256 registration |}.

Definition finish_sse (r : ResponseReceipt) : ResponseReceipt * result VerifiedMetadata ReceiptFailure :=
  if rt_finished r then (r, Err Rt_closed)
  else
    (mkResponseReceipt (rt_appraisal r) (rt_request r) None true,
     let? stream := ok_or (rt_stream r) Rt_empty in
     map_err Rt_receipt (Stream_finish stream (appraisal_boot (rt_appraisal r)))).

(** [EncryptedRequest::verify_receipt]: content that ended under the request's own boot key. *)
Inductive DigestFailure := Df_request | Df_response | Df_receipt (e : ReceiptError).
Definition BrowserRequest_verify_receipt (receipt request_sha256 response_sha256 : bytes) (r : BrowserRequest)
    : result VerifiedReceipt DigestFailure :=
  reject negb (zlen request_sha256 =? 32) with Df_request;
  reject negb (zlen response_sha256 =? 32) with Df_response;
  let? verified := map_err Df_receipt
    (verify_metadata receipt (appraisal_boot (bq_appraisal r)) request_sha256 response_sha256) in
  Ok (vm_receipt verified).

(** [EncryptedSession::close]. *)
Definition EncryptedSession_close (s : BrowserSession) : BrowserSession :=
  mkBrowserSession (ClientSession_close (bs_core s)) (bs_appraisal s) (bs_snapshot s).

(** [ResponseCompletion]: a stream that is not yet finished. *)
Definition completion_push (b : bytes) (core : option SseBody) : option SseBody * result (list bytes) ReceiptFailure :=
  match core with
  | None => (None, Err Rt_closed)
  | Some stream =>
      let (stream, out) := StreamCompletion_push stream b in (Some stream, map_err Rt_receipt out)
  end.
Definition completion_finish (core : option SseBody) : option SseBody * result unit ReceiptFailure :=
  (None,
   let? stream := ok_or core Rt_closed in map_err Rt_receipt (StreamCompletion_finish stream)).

Definition finish_buffered (response : bytes) (r : ResponseReceipt)
    : ResponseReceipt * result VerifiedMetadata ReceiptFailure :=
  if rt_finished r || bool_decide (is_Some (rt_stream r)) then (r, Err Rt_closed)
  else
    (mkResponseReceipt (rt_appraisal r) (rt_request r) (rt_stream r) true,
     map_err Rt_receipt (verify_buffered (appraisal_boot (rt_appraisal r)) (rt_request r) response)).
End Browser.

(** ** The cipher of the browser ([host_cipher.rs]) *)

(** [SubtleCrypto]: importing a key, which may say that the algorithm is not supported, and both operations. A promise
    that rejects, or a call that throws, has no value. *)
Inductive ImportFailure := NotSupportedError | OtherFailure.

Class WebCrypto (K : Type) := {
  web_import : bytes -> result K ImportFailure;
  web_encrypt : K -> bytes -> bytes -> bytes -> option bytes;
  web_decrypt : K -> bytes -> bytes -> bytes -> option bytes
}.

Definition RUST_RECORD_BYTES : Z := 256.

Inductive HostKey (K : Type) := HPending (key : bytes) | HWeb (key : K) | HRust (cipher : SoftwareCipher) | HClosed.
Arguments HPending {K} key.
Arguments HWeb {K} key.
Arguments HRust {K} cipher.
Arguments HClosed {K}.

(** Whether this record still has the service, and its key. *)
Record HostCipher (K : Type) := mkHostCipher { hc_subtle : bool; hc_key : HostKey K }.
Arguments mkHostCipher {K}.
Arguments hc_subtle {K}.
Arguments hc_key {K}.

Section HostCipher.
Context `{Aead} {K : Type} `{WebCrypto K}.

(** [import]: the first operation decides, by its length, which implementation has the key. *)
Definition HostCipher_import (c : HostCipher K) (length : Z) : HostCipher K * result unit Error :=
  match hc_key c with
  | HPending key =>
      let closed := mkHostCipher (hc_subtle c) HClosed in
      if length <=? RUST_RECORD_BYTES then
        match SoftwareCipher_new key with
        | Ok cipher => (mkHostCipher (hc_subtle c) (HRust cipher), Ok tt)
        | Err e => (closed, Err e)
        end
      else if negb (hc_subtle c) then (closed, Err Closed)
      else match web_import key with
           | Ok k => (mkHostCipher (hc_subtle c) (HWeb k), Ok tt)
           | Err NotSupportedError =>
               match SoftwareCipher_new key with
               | Ok cipher => (mkHostCipher false (HRust cipher), Ok tt)
               | Err e => (closed, Err e)
               end
           | Err OtherFailure => (closed, Err Crypto)
           end
  | _ => (c, Ok tt)
  end.

(** [from_key] with the capability [SUBTLE] of the instance. *)
Definition HostCipher_from_key (subtle : bool) (key : bytes) : result (HostCipher K) Error :=
  if subtle then Ok (mkHostCipher true (HPending key))
  else let? cipher := SoftwareCipher_new key in Ok (mkHostCipher false (HRust cipher)).

Definition HostCipher_encrypt (c : HostCipher K) (nonce aad plaintext : bytes)
    : HostCipher K * result (bytes * bytes) Error :=
  match HostCipher_import c (zlen plaintext) with
  | (c, Err e) => (c, Err e)
  | (c, Ok _) =>
      (c, match hc_key c with
          | HRust cipher => SoftwareCipher_encrypt_now cipher nonce aad plaintext
          | HWeb key =>
              reject negb (hc_subtle c) with Closed;
              let? encrypted := ok_or (web_encrypt key nonce aad plaintext) Crypto in
              let length := zlen plaintext in
              reject u32_max <? length with Limit;
              reject negb (zlen encrypted =? length + 16) with Crypto;
              Ok (slice_to encrypted length, slice encrypted length (length + 16))
          | _ => Err Closed
          end)
  end.

(** The buffer after the call: only a plaintext of the right length replaces the ciphertext. *)
Definition HostCipher_decrypt (c : HostCipher K) (nonce aad sealed : bytes)
    : HostCipher K * bytes * result unit Error :=
  match HostCipher_import c (Z.max 0 (zlen sealed - 16)) with
  | (c, Err e) => (c, sealed, Err e)
  | (c, Ok _) =>
      match hc_key c with
      | HRust cipher => let (sealed, out) := SoftwareCipher_decrypt_now cipher nonce aad sealed in (c, sealed, out)
      | HWeb key =>
          if negb (hc_subtle c) then (c, sealed, Err Closed) else
          match web_decrypt key nonce aad sealed with
          | None => (c, sealed, Err Authentication)
          | Some plaintext =>
              if zlen sealed <? 16 then (c, sealed, Err Record_)
              else if negb (zlen plaintext =? zlen sealed - 16) then (c, sealed, Err Crypto)
              else (c, plaintext ++ slice_from sealed (zlen sealed - 16), Ok tt)
          end
      | _ => (c, sealed, Err Closed)
      end
  end.
End HostCipher.

(** * Theory

    A browser request's keys have one owner and are consumed by every failure, its receipt covers
    exactly what was sealed, and its evidence was checked before its first byte. *)

(** ** Runs *)

Section Runs.
Context `{Kdf} `{Aead} `{Agreement} `{Random} {C : Type} `{Cipher C}.
Context `{Json} `{Base64} `{Signatures} `{Hash} `{Encodings} `{Sigstore} `{X509} `{Unicode}.

(** A request with what it handed out: the records sealed for the upload, with their content,
    and the records its callback got. *)
Record World := mkWorld {
  wd_shared : Shared;
  wd_state : RequestState;
  wd_sealed : list (Kind * bytes);
  wd_emitted : list (Kind * bytes) }.

(** What JavaScript can do, in any order; other requests of the session change the shared state. *)
Inductive BrowserStep :=
| Bp_seal (kind : byte) (content : bytes)
| Bp_push (input : bytes)
| Bp_settle (freed : bool) (schedule : list bool) (callback : nat -> Callback) (now_ms : option Z)
| Bp_finish
| Bp_free
| Bp_others (f : Shared -> Shared).

Definition browser_step (w : World) (step : BrowserStep) : World :=
  let 'mkWorld sh s sealed emitted := w in
  match step with
  | Bp_seal kind content => let '(sh, s, _) := call_seal kind content sh s in mkWorld sh s sealed emitted
  | Bp_push input => let '(sh, s, _) := call_push input sh s in mkWorld sh s sealed emitted
  | Bp_settle freed schedule callback now_ms =>
      match st_pending s with
      | None => w
      | Some (Op_seal kind content, io) =>
          let '(sh, s, out) := settle_seal (C := C) freed kind content io sh s in
          mkWorld sh s (match out with Ok _ => sealed ++ [(kind, content)] | Err _ => sealed end) emitted
      | Some (Op_push input, io) =>
          let '(sh, s, records, _) := settle_push (C := C) schedule callback now_ms input io sh s in
          mkWorld sh s sealed (emitted ++ records)
      end
  | Bp_finish => let '(sh, s, _) := finish_response sh s in mkWorld sh s sealed emitted
  | Bp_free => let (sh, s) := EncryptedRequest_free sh s in mkWorld sh s sealed emitted
  | Bp_others f => mkWorld (f sh) s sealed emitted
  end.

Definition browser_run (w : World) (steps : list BrowserStep) : World := fold_left browser_step steps w.

(** ** Ownership *)

(** The content that a receipt covers, and whether the upload is complete. *)
Definition data_of (sealed : list (Kind * bytes)) : bytes :=
  concat (snd <$> filter (fun e => e.1 = Data) sealed).
Definition upload_finished (sealed : list (Kind * bytes)) : bool := existsb (fun e => bool_decide (e.1 = Finished)) sealed.

(** The keys know what was sealed with them. *)
Definition io_accounts (receipt : bool) (sealed : list (Kind * bytes)) (io : RequestIo) : Prop :=
  io_hashed io = (if receipt then Some (data_of sealed) else None) /\ io_finished io = upload_finished sealed.

(** An open request's keys are in its cell or in the one pending operation; a closed request
    has none in its cell. *)
Definition owned (receipt : bool) (w : World) : Prop :=
  match st_closed (wd_state w), st_io (wd_state w), st_pending (wd_state w) with
  | true, None, _ => True
  | false, Some io, None | false, None, Some (_, io) => io_accounts receipt (wd_sealed w) io
  | _, _, _ => False
  end.

Lemma data_of_snoc sealed kind content :
  data_of (sealed ++ [(kind, content)]) = data_of sealed ++ (if bool_decide (kind = Data) then content else []).
Proof.
  unfold data_of. rewrite filter_app, fmap_app, concat_app. f_equal. rewrite filter_cons, filter_nil. simpl.
  case_decide; case_bool_decide; try done. simpl. by rewrite app_nil_r.
Qed.

Lemma upload_finished_snoc sealed kind content :
  upload_finished (sealed ++ [(kind, content)]) = upload_finished sealed || bool_decide (kind = Finished).
Proof. unfold upload_finished. rewrite existsb_app. simpl. by rewrite orb_false_r. Qed.

Lemma sealed_accounts receipt sealed io request kind content :
  io_accounts receipt sealed io -> io_accounts receipt (sealed ++ [(kind, content)]) (sealed_io io request kind content).
Proof.
  intros [Hh Hf]. split; cbn [sealed_io io_hashed io_finished].
  - rewrite Hh, data_of_snoc. destruct receipt; case_bool_decide; simpl; by rewrite ?app_nil_r.
  - by rewrite Hf, upload_finished_snoc.
Qed.

(** Every step keeps the ownership of the keys. *)
Lemma step_owned receipt w step : owned receipt w -> owned receipt (browser_step w step).
Proof.
  destruct w as [sh [io closed pending] sealed emitted]. unfold owned. cbn [wd_state wd_sealed st_closed st_io st_pending].
  intros Ho. destruct step as [kind content|input|freed schedule callback now_ms| | |f]; cbn [browser_step].
  - unfold call_seal, Operation_begin. cbn. destruct closed; [done|]. destruct io as [io|]; cbn; [|done].
    destruct pending; [done|]. by destruct (Kind_try_from kind).
  - unfold call_push, Operation_begin. cbn. destruct closed; [done|]. destruct io as [io|]; cbn; [|done].
    by destruct pending.
  - destruct pending as [[[kind content|input] io']|]; cbn; [| |done].
    + unfold settle_seal, Operation_commit. destruct (io_request io') as [request|]; [|by cbn].
      cbn [st_closed]. destruct closed; [by cbn|]. destruct io; [done|].
      destruct (RequestEncoder_seal_async _ _ _ _) as [writer [[record|]|]]; cbn; try done. by apply sealed_accounts.
    + unfold settle_push, Operation_commit. set (decoder := match io_request io' with Some _ => _ | None => _ end).
      destruct decoder as [decoder|]; [|by cbn]. destruct now_ms as [now_ms|]; [|by cbn].
      cbn [st_closed]. destruct closed; [by cbn|]. destruct io; [done|].
      destruct (ResponseDecoder_push_async _ _ _ _ _ _ _) as [[[sh1 d1] em] out].
      destruct (em_thrown em); [by cbn|]. destruct (em_closed em); [by cbn|]. by destruct out as [[]|]; cbn.
  - unfold finish_response, Operation_begin. cbn. destruct closed; [done|]. destruct io as [io|]; cbn; [|done].
    destruct pending; [done|]. destruct (io_decoder io) as [decoder|]; [|by cbn].
    by destruct (ResponseDecoder_finish _ decoder) as [sh1 []]; cbn.
  - done.
  - done.
Qed.

Lemma run_owned receipt w steps : owned receipt w -> owned receipt (browser_run w steps).
Proof. revert w. induction steps as [|step steps IH]; intros w Ho; [done|]. by apply IH, step_owned. Qed.

(** A closed request stays closed and hands out nothing more. *)
Definition consumed (w w' : World) : Prop :=
  st_closed (wd_state w') = true /\ wd_sealed w' = wd_sealed w /\ wd_emitted w' = wd_emitted w.

Lemma step_consumed w step : st_closed (wd_state w) = true -> consumed w (browser_step w step).
Proof.
  destruct w as [sh [io closed pending] sealed emitted]. unfold consumed. cbn [wd_state wd_sealed wd_emitted st_closed].
  intros ->. destruct step as [kind content|input|freed schedule callback now_ms| | |f]; cbn [browser_step].
  1,2: by cbn. 2-4: by cbn. destruct pending as [[[kind content|input] io']|]; cbn; [| |done].
  - unfold settle_seal. cbn. by destruct (io_request io').
  - unfold settle_push. cbn. set (decoder := match io_request io' with Some _ => _ | None => _ end).
    destruct decoder; [|by rewrite app_nil_r]. destruct now_ms; by rewrite app_nil_r.
Qed.

Lemma run_consumed w steps : st_closed (wd_state w) = true -> consumed w (browser_run w steps).
Proof.
  revert w. induction steps as [|step steps IH]; intros w Hc; [by split|].
  destruct (step_consumed w step Hc) as (Hc1 & Hs1 & He1). destruct (IH _ Hc1) as (Hc2 & Hs2 & He2).
  split_and!; [done|by rewrite <- Hs1|by rewrite <- He1].
Qed.

(** A new request of a session. *)
Definition new_world (sh : Shared) (request : ClientRequest) (receipt : bool) : World :=
  mkWorld sh (EncryptedRequest_new request receipt) [] [].

Lemma new_owned sh request receipt : owned receipt (new_world sh request receipt).
Proof. unfold owned, io_accounts. cbn. by destruct receipt. Qed.

(** C23. The keys of a browser request have exactly one owner at every point of every run of calls,
    settlements, callbacks, exceptions and frees: an open request holds them in its cell or in
    its one pending operation, never both, so overlapping operations are refused; and once it
    is closed, by a failure, an exception or a free, it holds none, stays closed, and no record
    is sealed or delivered ever after. *)
Theorem browser_keys_owned sh request receipt before after :
  let w := browser_run (new_world sh request receipt) before in
  let w' := browser_run w after in
  (if st_closed (wd_state w) then st_io (wd_state w) = None /\ consumed w w'
   else is_Some (st_io (wd_state w)) <-> st_pending (wd_state w) = None)
  /\ (is_Some (st_pending (wd_state w)) -> forall kind content input,
       (call_seal kind content (wd_shared w) (wd_state w)).2
         = Err (Be_channel (if st_closed (wd_state w) then Closed else Pending))
       /\ (call_push input (wd_shared w) (wd_state w)).2
         = Err (Be_channel (if st_closed (wd_state w) then Closed else Pending))).
Proof.
  intros w w'. pose proof (run_owned receipt _ before (new_owned sh request receipt)) as Ho. fold w in Ho.
  assert (Hcons : st_closed (wd_state w) = true -> consumed w w') by apply run_consumed. clearbody w w'.
  destruct w as [sh1 [io closed pending] sealed emitted]. unfold owned in Ho.
  cbn [wd_state wd_shared st_closed st_io st_pending] in *. destruct closed.
  - destruct io; [done|]. split; [split; [done|by apply Hcons]|]. intros [p ->] kind content input. by cbn.
  - destruct io as [io|], pending as [[op io']|]; [done| |split; [by split; [intros []|]|]|done].
    + split; [by split|]. by intros [].
    + intros _ kind content input. by cbn.
Qed.

(** A receipt is requested for exactly what was uploaded: whatever the order of calls, when a
    request gives out its receipt verifier, the request digest in it is that of the data records
    sealed so far, in their order and without those that failed, and the upload was finished. *)
Theorem browser_receipt_exact sh request receipt steps digest :
  let w := browser_run (new_world sh request receipt) steps in
  response_receipt (wd_state w) = Ok digest ->
  receipt = true /\ digest = sha256 (data_of (wd_sealed w)) /\ upload_finished (wd_sealed w) = true.
Proof.
  intros w. pose proof (run_owned receipt _ steps (new_owned sh request receipt)) as Ho. fold w in Ho. clearbody w.
  destruct w as [sh1 [io closed pending] sealed emitted]. unfold owned in Ho. unfold response_receipt.
  cbn [wd_state wd_sealed st_closed st_io st_pending] in *. destruct closed; [done|].
  destruct io as [io|]; [|done]. destruct pending; [done|]. destruct Ho as [Hh Hf]. rewrite Hf, Hh.
  intros Hx. pass Hx by Hu. zbool. pass Hx as hashed by Hd. injection Hx as <-. destruct receipt; [|done].
  by injection Hd as <-.
Qed.

(** ** Evidence *)

(** A request is made only after its session's evidence passed under the caller's snapshot, for
    the same evidence that set the session up, and it keeps that appraisal. *)
Theorem browser_request_attested snapshot ev receipt now elapsed s sh g s' sh' g' r :
  EncryptedSession_request snapshot ev receipt now elapsed s sh g = (s', sh', g', Ok r) ->
  exists t, now = Some t /\ sn_identity (bq_snapshot r) = sn_identity snapshot
    /\ vx_artifacts (bq_appraisal r) = vx_artifacts (bs_appraisal s)
    /\ ((bq_appraisal r = bs_appraisal s
          /\ exists validity, Snapshot_check_session snapshot ev (bs_appraisal s) t = Ok validity)
        \/ Snapshot_reappraise_session snapshot ev (bs_appraisal s) t = Ok (bq_appraisal r))
    /\ bs_appraisal s' = bq_appraisal r /\ bs_snapshot s' = bq_snapshot r.
Proof.
  unfold EncryptedSession_request. destruct now as [t|]; [|done].
  destruct (browser_appraise snapshot ev t s) as [s1|] eqn:Ha; [|done]. destruct elapsed as [elapsed|]; [|done].
  destruct (ClientSession_expire (bs_core s1) sh elapsed) as [sh1 []]; [|done].
  destruct (ClientSession_request (bs_core s1) sh1 g) as [[sh2 g2] [request|]]; [|done].
  intros [= <- <- <- <-]. exists t. split; [done|]. unfold browser_appraise in Ha. cbn [bq_snapshot bq_appraisal].
  destruct (_ =? _) eqn:Hid; zbool.
  - pass Ha as validity by Hv. injection Ha as <-. split_and!; try done. left. split; [done|]. by exists validity.
  - pass Ha as appraisal by Hv. injection Ha as <-. cbn. split_and!; try done; [|by right].
    by apply reappraised_artifacts in Hv as [? _].
Qed.

(** ** Receipts *)

(** Pushes of a stream, all of which were accepted. *)
Fixpoint pushed (s : Receipt.Stream) (chunks : list bytes) : option (Receipt.Stream * list bytes) :=
  match chunks with
  | [] => Some (s, [])
  | b :: chunks =>
      match Stream_push s b with
      | (s, Ok out) => '(s, rest) ← pushed s chunks; Some (s, out ++ rest)
      | (_, Err _) => None
      end
  end.

Definition push_all (r : ResponseReceipt) (chunks : list bytes) : ResponseReceipt :=
  fold_left (fun r b => (push_sse b r).1) chunks r.

Lemma push_all_finished r chunks : rt_finished r = true -> push_all r chunks = r.
Proof.
  unfold push_all. revert r. induction chunks as [|b chunks IH]; intros r Hf; [done|]. simpl.
  assert (push_sse b r = (r, Err Rt_closed)) as -> by (unfold push_sse; by rewrite Hf). by apply IH.
Qed.

(** The verifier's stream after pushes none of which failed. *)
Lemma push_all_stream r chunks :
  rt_finished (push_all r chunks) = false ->
  rt_finished r = false /\ rt_appraisal (push_all r chunks) = rt_appraisal r /\ rt_request (push_all r chunks) = rt_request r
  /\ exists out, pushed (default (Stream_new (rt_request r)) (rt_stream r)) chunks
                 = Some (default (Stream_new (rt_request r)) (rt_stream (push_all r chunks)), out).
Proof.
  revert r. induction chunks as [|b chunks IH]; intros r Hf.
  { cbn in *. split_and!; [done..|]. by eexists. }
  assert (Hr : rt_finished r = false).
  { destruct (rt_finished r) eqn:E; [|done]. rewrite push_all_finished in Hf by done. congruence. }
  split; [done|]. change (push_all r (b :: chunks)) with (push_all (push_sse b r).1 chunks) in *. cbn [pushed].
  assert (Hone : push_sse b r = match Stream_push (default (Stream_new (rt_request r)) (rt_stream r)) b with
    | (stream, Ok chunks) => (mkResponseReceipt (rt_appraisal r) (rt_request r) (Some stream) false, Ok chunks)
    | (_, Err e) => (mkResponseReceipt (rt_appraisal r) (rt_request r) None true, Err (Rt_receipt e)) end)
    by (unfold push_sse; by rewrite Hr).
  rewrite Hone in Hf |- *. clear Hone.
  destruct (Stream_push _ b) as [stream [out|e]] eqn:Hp; cbn [fst] in *.
  - destruct (IH _ Hf) as (_ & Ha & Hq & outs & Hpush). cbn [rt_appraisal rt_request rt_stream from_option id] in *.
    split_and!; [done|done|]. rewrite Hpush. cbn. by eexists.
  - rewrite push_all_finished in Hf by done. done.
Qed.

(** A browser releases the end of a stream only for verified content: when [finish_sse] succeeds
    after any pushes, every push was accepted, the receipt of the whole stream verifies under
    the boot key of the request's own appraisal and for the request's digest, and the verifier
    never succeeds again. *)
Theorem browser_receipt_once r chunks verified again more response :
  rt_stream r = None -> finish_sse (push_all r chunks) = (again, Ok verified) ->
  (exists stream out, pushed (Stream_new (rt_request r)) chunks = Some (stream, out)
     /\ Stream_finish stream (appraisal_boot (rt_appraisal r)) = Ok verified)
  /\ (finish_sse (push_all again more)).2 = Err Rt_closed
  /\ (finish_buffered response (push_all again more)).2 = Err Rt_closed.
Proof.
  intros Hn. unfold finish_sse at 1. destruct (rt_finished (push_all r chunks)) eqn:Hf; [done|].
  intros [= <- Hx]. pass Hx as stream by Hs. apply map_err_ok in Hx.
  destruct (push_all_stream r chunks Hf) as (_ & Ha & Hq & out & Hp). rewrite Hn, Hs in Hp. cbn [from_option id] in Hp.
  rewrite push_all_finished by done. split; [|done]. exists stream, out. rewrite <- Ha. done.
Qed.
End Runs.

(** ** The cipher of the browser *)

(** What a platform's AES-GCM promises: an imported key stands for its bytes, and a value that comes back is that of
    AES-GCM, with the tag after the ciphertext. *)
Class WebCryptoLaws {K : Type} `{Aead} `{WebCrypto K} (web_key : K -> bytes) : Prop := {
  web_import_key key k : web_import key = Ok k -> web_key k = key;
  web_encrypt_gcm k nonce aad pt out :
    web_encrypt k nonce aad pt = Some out -> exists ct tag, gcm_seal (web_key k) nonce aad pt = Some (ct, tag) /\ out = ct ++ tag;
  web_decrypt_gcm k nonce aad sealed pt :
    web_decrypt k nonce aad sealed = Some pt ->
    16 <= zlen sealed /\
    gcm_open (web_key k) nonce aad (slice_to sealed (zlen sealed - 16)) (slice_from sealed (zlen sealed - 16)) = Some pt
}.

Section Host.
Context `{AeadLaws} {K : Type} `{WebCrypto K} (web_key : K -> bytes) `{!WebCryptoLaws web_key}.

(** The key that a cipher holds. *)
Definition host_holds (c : HostCipher K) (key : bytes) : Prop :=
  match hc_key c with
  | HPending k => k = key
  | HWeb k => web_key k = key
  | HRust cipher => sc_key cipher = key
  | HClosed => True
  end.

Lemma import_holds c length c' out key : HostCipher_import c length = (c', out) -> host_holds c key -> host_holds c' key.
Proof.
  destruct c as [subtle [k|k|k|]]; unfold HostCipher_import, SoftwareCipher_new; cbn [hc_key hc_subtle]; intros Hi Hk;
    [|by injection Hi as <- _..].
  case_all; unfold host_holds in *; cbn [hc_key sc_key] in *; try done. subst. by eapply web_import_key.
Qed.

(** Whichever implementation has the key, what it produces is the portable cipher's. *)
Lemma host_encrypt_software c key nonce aad pt c' out :
  host_holds c key -> HostCipher_encrypt c nonce aad pt = (c', Ok out) ->
  SoftwareCipher_encrypt_now {| sc_key := key |} nonce aad pt = Ok out.
Proof.
  intros Hk. unfold HostCipher_encrypt. destruct (HostCipher_import c _) as [c1 [[]|]] eqn:Hi; [|done].
  pose proof (import_holds _ _ _ _ _ Hi Hk) as Hk1. unfold host_holds in Hk1. intros [= <- Hx].
  destruct (hc_key c1) as [|k|[k]|]; try done; cbn in Hk1; subst key; [|done].
  pass Hx by Hu. pass Hx as encrypted by He. apply web_encrypt_gcm in He as (ct & tag & Hs & ->). pass Hx by Hl. pass Hx by Hn.
  destruct (gcm_seal_lengths _ _ _ _ _ _ Hs) as [Hc Ht]. injection Hx as <-. unfold SoftwareCipher_encrypt_now. cbn [sc_key].
  rewrite Hs. cbn [ok_or]. rewrite slice_to_app by done. do 2 f_equal.
  change (slice ?l ?a ?b) with (slice_to (slice_from l a) (b - a)). rewrite slice_from_app by done.
  rewrite <- (app_nil_r tag) at 2. symmetry. apply slice_to_app. lia.
Qed.

Lemma host_decrypt_software c key nonce aad sealed c' buffer :
  host_holds c key -> HostCipher_decrypt c nonce aad sealed = (c', buffer, Ok tt) ->
  SoftwareCipher_decrypt_now {| sc_key := key |} nonce aad sealed = (buffer, Ok tt).
Proof.
  intros Hk. unfold HostCipher_decrypt. destruct (HostCipher_import c _) as [c1 [[]|]] eqn:Hi; [|done].
  pose proof (import_holds _ _ _ _ _ Hi Hk) as Hk1. unfold host_holds in Hk1. intros Hx.
  destruct (hc_key c1) as [|k|[k]|]; try done; cbn in Hk1; subst key.
  - destruct (negb (hc_subtle c1)); [done|]. destruct (web_decrypt k nonce aad sealed) as [pt|] eqn:Hw; [|done].
    apply web_decrypt_gcm in Hw as [H16 Hg]. destruct (zlen sealed <? 16) eqn:Es; [done|]. destruct (negb _); [done|].
    injection Hx as <- <-. unfold SoftwareCipher_decrypt_now. rewrite Es. cbn [sc_key]. by rewrite Hg.
  - destruct (SoftwareCipher_decrypt_now _ _ _ _) as [b o] eqn:Hd. by injection Hx as <- <- ->.
Qed.

(** A record that is not opened leaves the buffer as it was. *)
Lemma host_decrypt_refused c nonce aad sealed c' buffer e :
  HostCipher_decrypt c nonce aad sealed = (c', buffer, Err e) -> buffer = sealed.
Proof.
  unfold HostCipher_decrypt, SoftwareCipher_decrypt_now. destruct (HostCipher_import c _) as [c1 [[]|]]; [|by intros [= _ <- _]].
  destruct (hc_key c1); cbn zeta; repeat case_match; intros; by simplify_eq.
Qed.

(** An implementation, once chosen, is kept, whatever fails. *)
Lemma host_choice_fixed c length c' out :
  HostCipher_import c length = (c', out) -> forall length', HostCipher_import c' length' = (c', Ok tt).
Proof.
  destruct c as [subtle [k|k|k|]]; unfold HostCipher_import, SoftwareCipher_new; cbn [hc_key hc_subtle]; intros Hi length';
    [|by injection Hi as <- _..]. case_all.
Qed.

(** A platform that has AES-GCM, or says that it has not. *)
Class WebCryptoTotal : Prop := {
  web_import_total key : zlen key = 32 -> web_import (K := K) key <> Err OtherFailure;
  web_encrypt_total k nonce aad pt : zlen pt <= 65536 -> is_Some (web_encrypt (K := K) k nonce aad pt);
  web_decrypt_total k nonce aad sealed pt :
    16 <= zlen sealed ->
    gcm_open (web_key k) nonce aad (slice_to sealed (zlen sealed - 16)) (slice_from sealed (zlen sealed - 16)) = Some pt ->
    is_Some (web_decrypt (K := K) k nonce aad sealed)
}.

(** The cipher of one record as [from_key] makes it: each record has a fresh key. *)
Record FreshCipher := mkFresh { fc_subtle : bool; fc_key : bytes; fc_size : zlen fc_key = 32 }.

Definition fresh_host (c : FreshCipher) : HostCipher K :=
  if fc_subtle c then mkHostCipher true (HPending (fc_key c)) else mkHostCipher false (HRust {| sc_key := fc_key c |}).

Lemma fresh_from_key c : HostCipher_from_key (fc_subtle c) (fc_key c) = Ok (fresh_host c).
Proof.
  unfold HostCipher_from_key, fresh_host, SoftwareCipher_new. destruct (fc_subtle c); [done|].
  by rewrite (proj2 (Z.eqb_eq _ _) (fc_size c)).
Qed.

Lemma fresh_holds c : host_holds (fresh_host c) (fc_key c).
Proof. unfold fresh_host. by destruct (fc_subtle c). Qed.

#[local] Instance FreshCipher_Cipher (subtle : bool) : Cipher FreshCipher := {
  from_key key := match decide (zlen key = 32) with left Hk => Ok (mkFresh subtle key Hk) | right _ => Err Crypto end;
  encrypt c nonce aad pt := (HostCipher_encrypt (fresh_host c) nonce aad pt).2;
  decrypt c nonce aad sealed :=
    let '(_, buffer, out) := HostCipher_decrypt (fresh_host c) nonce aad sealed in (buffer, out)
}.

Lemma import_total c length key subtle :
  WebCryptoTotal -> zlen key = 32 -> c = mkHostCipher subtle (HPending key) -> subtle = true ->
  exists c', HostCipher_import c length = (c', Ok tt) /\ match hc_key c' with
    | HWeb _ => hc_subtle c' = true | HRust _ => True | _ => False end.
Proof.
  intros Ht Hk -> ->. unfold HostCipher_import, SoftwareCipher_new. cbn [hc_key hc_subtle negb].
  rewrite (proj2 (Z.eqb_eq _ _) Hk). destruct (_ <=? _); [by eexists|].
  destruct (web_import key) as [k|[]] eqn:Hi; [by eexists..|]. by destruct (web_import_total key Hk).
Qed.

Lemma fresh_import c length :
  WebCryptoTotal ->
  exists c', HostCipher_import (fresh_host c) length = (c', Ok tt) /\ host_holds c' (fc_key c) /\ match hc_key c' with
    | HWeb _ => hc_subtle c' = true | HRust _ => True | _ => False end.
Proof.
  intros Ht. destruct (HostCipher_import (fresh_host c) length) as [c1 out] eqn:Hi.
  pose proof (import_holds _ _ _ _ _ Hi (fresh_holds c)) as Hk. unfold fresh_host in Hi. destruct (fc_subtle c).
  - destruct (import_total _ length (fc_key c) true Ht (fc_size c) eq_refl eq_refl) as (c2 & Hi2 & Hc2).
    rewrite Hi2 in Hi. injection Hi as -> <-. by exists c1.
  - injection Hi as <- <-. by exists (mkHostCipher false (HRust {| sc_key := fc_key c |})).
Qed.

(** On such a platform the host cipher is the portable one. *)
Lemma host_is_software c nonce aad pt :
  WebCryptoTotal -> zlen pt <= 65536 ->
  (HostCipher_encrypt (fresh_host c) nonce aad pt).2 = SoftwareCipher_encrypt_now {| sc_key := fc_key c |} nonce aad pt.
Proof.
  intros Ht Hp. destruct (HostCipher_encrypt (fresh_host c) nonce aad pt) as [c' [out|e]] eqn:He.
  { by rewrite (host_encrypt_software _ _ _ _ _ _ _ (fresh_holds c) He). }
  exfalso. unfold HostCipher_encrypt in He. destruct (fresh_import c (zlen pt) Ht) as (c1 & Hi & Hk & Hc). rewrite Hi in He.
  unfold host_holds in Hk. destruct (hc_key c1) as [|k|k|]; try done.
  - destruct (web_encrypt_total k nonce aad pt Hp) as [out Ho]. rewrite Hc, Ho in He. cbn [negb ok_or] in He.
    apply web_encrypt_gcm in Ho as (ct & tag & Hs & ->). destruct (gcm_seal_lengths _ _ _ _ _ _ Hs) as [Hl Hg].
    rewrite (proj2 (Z.ltb_ge u32_max (zlen pt))) in He by (unfold u32_max; lia).
    rewrite zlen_app, Hl, Hg, Z.eqb_refl in He. done.
  - unfold SoftwareCipher_encrypt_now in He. destruct (gcm_seal_total (sc_key k) nonce aad pt) as [[ct tag] Hs]; [lia|].
    by rewrite Hs in He.
Qed.

Lemma host_opens c nonce aad pt ct tag :
  WebCryptoTotal -> gcm_seal (fc_key c) nonce aad pt = Some (ct, tag) ->
  exists c', HostCipher_decrypt (fresh_host c) nonce aad (ct ++ tag) = (c', pt ++ tag, Ok tt).
Proof.
  intros Ht Hs. destruct (gcm_seal_lengths _ _ _ _ _ _ Hs) as [Hl Hg]. pose proof (zlen_nonneg ct).
  unfold HostCipher_decrypt. destruct (fresh_import c (Z.max 0 (zlen (ct ++ tag) - 16)) Ht) as (c1 & -> & Hk & Hc).
  assert (Hz : zlen (ct ++ tag) - 16 = zlen ct) by (rewrite zlen_app; lia). exists c1. unfold host_holds in Hk.
  destruct (hc_key c1) as [|k|[k]|]; try done; cbn [sc_key] in Hk; rewrite <- Hk in Hs; apply gcm_open_seal in Hs.
  - rewrite Hc. cbn [negb].
    destruct (web_decrypt_total k nonce aad (ct ++ tag) pt) as [out Ho]; [lia|by rewrite Hz, slice_to_app, slice_from_app|].
    rewrite Ho. pose proof Ho as Hw. apply web_decrypt_gcm in Hw as [_ Hw]. rewrite Hz, slice_to_app, slice_from_app, Hs in Hw by done.
    injection Hw as <-. rewrite (proj2 (Z.ltb_ge _ _)), Hz by lia. rewrite slice_from_app by done. by rewrite Hl, Z.eqb_refl.
  - unfold SoftwareCipher_decrypt_now. rewrite (proj2 (Z.ltb_ge _ _)) by lia. cbn zeta. cbn [sc_key].
    by rewrite Hz, slice_to_app, slice_from_app, Hs by done.
Qed.

(** Where the platform has AES-GCM or says that it has not, the browser's cipher is one that the record layer may use: so
    every theorem about records sealed and opened by a cipher holds of it. *)
Theorem host_cipher_laws subtle : WebCryptoTotal -> @CipherLaws FreshCipher (FreshCipher_Cipher subtle).
Proof.
  intros Ht. split; cbn.
  - intros key Hk. destruct (decide _); [by eexists|done].
  - intros c nonce aad pt Hp. rewrite (host_is_software c nonce aad pt Ht Hp).
    exact (encrypt_total (C := SoftwareCipher) {| sc_key := fc_key c |} nonce aad pt Hp).
  - intros c nonce aad pt ct tag He. destruct (HostCipher_encrypt _ _ _ _) as [c' out] eqn:Hh. cbn in He. subst out.
    eapply (encrypt_lengths (C := SoftwareCipher)). exact (host_encrypt_software _ _ _ _ _ _ _ (fresh_holds c) Hh).
  - intros c nonce aad pt ct tag He. destruct (HostCipher_encrypt _ _ _ _) as [c' out] eqn:Hh. cbn in He. subst out.
    apply host_encrypt_software with (key := fc_key c) in Hh; [|apply fresh_holds].
    apply ok_or_ok in Hh. cbn [sc_key] in Hh. by destruct (host_opens c nonce aad pt ct tag Ht Hh) as [c2 ->].
  - intros c nonce aad sealed buffer out Hd. destruct (HostCipher_decrypt _ _ _ _) as [[c' b] o] eqn:Hh. injection Hd as <- <-.
    destruct o as [[]|e]; [|by rewrite (host_decrypt_refused _ _ _ _ _ _ _ Hh)].
    eapply (decrypt_length (C := SoftwareCipher)). exact (host_decrypt_software _ _ _ _ _ _ _ (fresh_holds c) Hh).
Qed.

(** Whatever the platform does, the browser's cipher produces and accepts only what AES-GCM does under its key: a record
    that is sealed or opened is the portable cipher's, one that is refused leaves the buffer as it was, and the first
    operation fixes the implementation for all others, failed ones included. *)
Theorem host_cipher_exact subtle key c nonce aad pt sealed :
  HostCipher_from_key subtle key = Ok c ->
  (forall c' out, HostCipher_encrypt c nonce aad pt = (c', Ok out) ->
     SoftwareCipher_encrypt_now {| sc_key := key |} nonce aad pt = Ok out)
  /\ (forall c' buffer, HostCipher_decrypt c nonce aad sealed = (c', buffer, Ok tt) ->
     SoftwareCipher_decrypt_now {| sc_key := key |} nonce aad sealed = (buffer, Ok tt))
  /\ (forall c' buffer e, HostCipher_decrypt c nonce aad sealed = (c', buffer, Err e) -> buffer = sealed)
  /\ forall c' pt' nonce' aad' out, HostCipher_encrypt c nonce aad pt = (c', out) -> (HostCipher_encrypt c' nonce' aad' pt').1 = c'.
Proof.
  intros Hf. assert (Hk : host_holds c key).
  { unfold HostCipher_from_key, SoftwareCipher_new in Hf. by case_all. }
  split_and!.
  - intros c' out. by apply host_encrypt_software.
  - intros c' buffer. by apply host_decrypt_software.
  - intros c' buffer e. apply host_decrypt_refused.
  - intros c' pt' nonce' aad' out. unfold HostCipher_encrypt. destruct (HostCipher_import c _) as [c1 o1] eqn:Hi.
    intros Hx. assert (c' = c1) as -> by by destruct o1; injection Hx.
    rewrite (host_choice_fixed _ _ _ _ Hi). done.
Qed.
End Host.
