(* ===== verification/CustomerEncryption.v ===== *)
(** Customer encryption of the command line ([cli/src/customer_encryption.rs]): an organization key
    seals plugin settings and provider credentials for one purpose, and files are never
    overwritten.

    The file system is a function from paths to contents; a file that cannot be opened has none.
    How a write ends is a parameter. *)

From S2P Require Import Prelude AttestationTheory Primitives Json Text Signing Attestation Setup.

Open Scope Z_scope.

(** [aws_lc_rs::hkdf]: extraction with a salt over SHA-256, a pseudorandom key of one block. *)
Class Extract := { hkdf_sha256_extract : bytes -> bytes -> bytes }.
Class ExtractLaws `{Extract} : Prop := { hkdf_extract_length salt ikm : zlen (hkdf_sha256_extract salt ikm) = 32 }.

(** [serde_json::to_vec_pretty]. *)
Class PrettyJson := { json_to_vec_pretty : Value -> bytes }.

Inductive CustomerError :=
| Ce_Open
| Ce_Size
| Ce_Key
| Ce_Random
| Ce_Purpose
| Ce_Input
| Ce_Plugins
| Ce_Credential
| Ce_Derive
| Ce_Seal
| Ce_Exists
| Ce_Write.

(** ** Files *)

Definition Files : Type := bytes -> option bytes.
Definition file_put (fs : Files) (path content : bytes) : Files :=
  fun p => if bool_decide (p = path) then Some content else fs p.

Definition read_private (fs : Files) (path : bytes) (maximum : Z) : result bytes CustomerError :=
  let? content := ok_or (fs path) Ce_Open in
  let content := take (Z.to_nat (maximum + 1)) content in
  reject maximum <? zlen content with Ce_Size;
  Ok content.

(** A new file that cannot be made, one that is cut off while it is written, or a whole one. *)
Inductive WriteRun := Wr_refused | Wr_partial (n : nat) | Wr_complete.

Definition write_new (fs : Files) (path content : bytes) (run : WriteRun) : Files * result unit CustomerError :=
  if bool_decide (is_Some (fs path)) then (fs, Err Ce_Exists)
  else
    match run with
    | Wr_refused => (fs, Err Ce_Exists)
    | Wr_partial n => (file_put fs path (take n content), Err Ce_Write)
    | Wr_complete => (file_put fs path content, Ok tt)
    end.

(** ** Keys and envelopes *)

Definition plugins : bytes := ascii "plugins".
Definition credential_purposes : list bytes := [ascii "byok/openai"; ascii "byok/anthropic"; ascii "byok/chutes"].

Definition purpose_maximum (purpose : bytes) : option Z :=
  if bool_decide (purpose = plugins) then Some 262144
  else if bool_decide (purpose ∈ credential_purposes) then Some 4096 else None.

(** [0x21..=0x7e]. *)
Definition credential_byte (b : byte) : bool := let z := byte_to_Z b in (33 <=? z) && (z <=? 126).

Section Customer.
Context `{Kdf} `{Extract} `{Aead} `{Hash} `{Json} `{PrettyJson} `{Base64}.

Definition key_id (root : bytes) : bytes := hex_encode (sha256 (ascii "stogas.customer-key.v1" ++ [x00] ++ root)).

(** [join] with a zero byte. *)
Definition customer_context (organization purpose id : bytes) : bytes :=
  ascii "stogas.customer-content.v1" ++ [x00] ++ organization ++ [x00] ++ purpose ++ [x00] ++ id.

(** The content rules of a purpose. *)
Definition check_content (purpose plaintext : bytes) : result unit CustomerError :=
  if bool_decide (purpose = plugins) then
    match json_from_slice plaintext with
    | Some (JObject _) => Ok tt
    | _ => Err Ce_Plugins
    end
  else
    reject existsb (fun b => negb (credential_byte b)) plaintext with Ce_Credential;
    Ok tt.

Definition customer_envelope (id salt nonce blob : bytes) : Value :=
  JObject [(ascii "version", jnum 1); (ascii "keyId", JString id);
           (ascii "salt", JString (base64url_encode salt)); (ascii "nonce", JString (base64url_encode nonce));
           (ascii "blob", JString (base64url_encode blob))].

Definition customer_seal (root organization purpose plaintext salt nonce : bytes) : result Value CustomerError :=
  let? maximum := ok_or (purpose_maximum purpose) Ce_Purpose in
  reject negb (zlen root =? 32) || (zlen organization =? 0) || bool_decide (x00 ∈ organization)
      || (zlen plaintext =? 0) || (maximum <? zlen plaintext) with Ce_Input;
  let? _ := check_content purpose plaintext in
  let id := key_id root in
  let context := customer_context organization purpose id in
  let prk := hkdf_sha256_extract salt root in
  let? material := ok_or (hkdf_sha256_expand prk context 32) Ce_Derive in
  let? (ciphertext, tag) := ok_or (gcm_seal material nonce context plaintext) Ce_Seal in
  Ok (customer_envelope id salt nonce (ciphertext ++ tag)).

(** ** Commands *)

Definition generate_key `{Random} (output : bytes) (run : WriteRun) (fs : Files) (g : rng)
    : Files * rng * result bytes CustomerError :=
  match rng_fill g 32 with
  | (g, None) => (fs, g, Err Ce_Random)
  | (g, Some root) =>
      let (fs, written) := write_new fs output (base64url_encode root) run in
      (fs, g, match written with Ok _ => Ok (key_id root) | Err e => Err e end)
  end.

(** The organization key in a file. *)
Definition read_key (fs : Files) (key_file : bytes) : result bytes CustomerError :=
  let? encoded := read_private fs key_file 128 in
  let? text := ok_or (from_utf8 encoded) Ce_Key in
  let text := str_trim text in
  let? root := ok_or (base64url_decode text) Ce_Key in
  reject negb (zlen root =? 32) || negb (bool_decide (base64url_encode root = text)) with Ce_Key;
  Ok root.

Definition encrypt_file `{Random} (key_file organization purpose input output : bytes) (run : WriteRun)
    (fs : Files) (g : rng) : Files * rng * result unit CustomerError :=
  match
    let? root := read_key fs key_file in
    let maximum := if bool_decide (purpose = plugins) then 262144 else 4096 in
    let? plaintext := read_private fs input maximum in
    Ok (root, plaintext)
  with
  | Err e => (fs, g, Err e)
  | Ok (root, plaintext) =>
      match rng_fill g 32 with
      | (g, None) => (fs, g, Err Ce_Random)
      | (g, Some salt) =>
          match rng_fill g 12 with
          | (g, None) => (fs, g, Err Ce_Random)
          | (g, Some nonce) =>
              match customer_seal root organization purpose plaintext salt nonce with
              | Err e => (fs, g, Err e)
              | Ok envelope => let (fs, written) := write_new fs output (json_to_vec_pretty envelope) run in (fs, g, written)
              end
          end
      end
  end.
End Customer.

(** * Theory

    Customer envelopes open to what was encrypted, for their organization, purpose and key only,
    and commands never change an existing file. *)

(** ** Contexts *)

Lemma separated_inj {A} (x : A) a a' r r' :
  x ∉ a -> x ∉ a' -> a ++ x :: r = a' ++ x :: r' -> a = a' /\ r = r'.
Proof.
  revert a'. induction a as [|y a IH]; intros [|y' a'] Ha Ha' He; simplify_eq/=.
  - done.
  - destruct Ha'. by left.
  - destruct Ha. by left.
  - rewrite not_elem_of_cons in Ha, Ha'. destruct (IH a') as [-> ->]; tauto.
Qed.

Lemma purpose_plain purpose maximum : purpose_maximum purpose = Some maximum -> x00 ∉ purpose.
Proof.
  unfold purpose_maximum. case_bool_decide as Hp; [subst; intros _; by apply (bool_decide_unpack _)|].
  case_bool_decide as Hc; [|done]. intros _. unfold credential_purposes in Hc.
  repeat (apply elem_of_cons in Hc as [->|Hc]; [by apply (bool_decide_unpack _)|]). by apply not_elem_of_nil in Hc.
Qed.

(** The context tells organizations, purposes and keys apart. *)
Lemma customer_context_inj organization purpose id organization' purpose' id' :
  x00 ∉ organization -> x00 ∉ organization' -> x00 ∉ purpose -> x00 ∉ purpose' ->
  customer_context organization purpose id = customer_context organization' purpose' id' ->
  organization = organization' /\ purpose = purpose' /\ id = id'.
Proof.
  intros Ho Ho' Hp Hp' He. unfold customer_context in He. cbn [app] in He. apply app_inv_head in He. injection He as He.
  apply separated_inj in He as [-> He]; [|done..]. by apply separated_inj in He as [-> ->].
Qed.

Section Customer.
Context `{Kdf} `{KL : !KdfLaws} `{Extract} `{EL : !ExtractLaws} `{Aead} `{AL : !AeadLaws}.
Context `{Hash} `{Json} `{PrettyJson} `{Base64} `{BL : !Base64Laws}.

(** ** Reading an envelope *)

(** A reader with the organization's key: the envelope's own fields, and the context of what the
    reader expects. *)
Definition envelope_bytes (v : Value) (key : bytes) : option bytes :=
  text ← value_get v key ≫= as_str; base64url_decode text.
Definition customer_open (root organization purpose : bytes) (v : Value) : option bytes :=
  id ← value_get v (ascii "keyId") ≫= as_str;
  if negb (bool_decide (id = key_id root)) then None
  else
    salt ← envelope_bytes v (ascii "salt");
    nonce ← envelope_bytes v (ascii "nonce");
    blob ← envelope_bytes v (ascii "blob");
    let context := customer_context organization purpose id in
    material ← hkdf_sha256_expand (hkdf_sha256_extract salt root) context 32;
    let n := Z.to_nat (zlen blob - 16) in
    gcm_open material nonce context (take n blob) (drop n blob).

Lemma envelope_fields id salt nonce blob :
  let v := customer_envelope id salt nonce blob in
  (value_get v (ascii "keyId") ≫= as_str) = Some id /\ envelope_bytes v (ascii "salt") = Some salt
  /\ envelope_bytes v (ascii "nonce") = Some nonce /\ envelope_bytes v (ascii "blob") = Some blob.
Proof.
  assert (forall key b, (value_get (customer_envelope id salt nonce blob) key ≫= as_str) = Some (base64url_encode b) ->
    envelope_bytes (customer_envelope id salt nonce blob) key = Some b) as Hf.
  { intros key b Hk. unfold envelope_bytes. rewrite Hk. apply base64url_roundtrip. }
  split_and!; [done|by apply Hf..].
Qed.

(** What a seal accepts. *)
Record sealable (root organization purpose plaintext : bytes) : Prop := mkSealable {
  sb_root : zlen root = 32;
  sb_organization : organization <> [] /\ x00 ∉ organization;
  sb_size : exists maximum, purpose_maximum purpose = Some maximum /\ 0 < zlen plaintext <= maximum;
  sb_content : check_content purpose plaintext = Ok tt }.

Lemma customer_seal_accepts root organization purpose plaintext salt nonce v :
  customer_seal root organization purpose plaintext salt nonce = Ok v ->
  sealable root organization purpose plaintext
  /\ exists material ciphertext tag,
       let context := customer_context organization purpose (key_id root) in
       hkdf_sha256_expand (hkdf_sha256_extract salt root) context 32 = Some material
       /\ gcm_seal material nonce context plaintext = Some (ciphertext, tag)
       /\ v = customer_envelope (key_id root) salt nonce (ciphertext ++ tag).
Proof.
  unfold customer_seal. intros Hx. pass Hx as maximum by Hm. pass Hx by Hi. pass Hx as [] by Hc.
  pass Hx as material by Hk. pass Hx as [ciphertext tag] by Hs. injection Hx as <-. zbool. split.
  - split; [done| |exists maximum; split; [done|zlen_lia]|done]. split; [|done]. by intros ->.
  - by exists material, ciphertext, tag.
Qed.

Lemma sealed_opens root organization purpose plaintext salt nonce v :
  customer_seal root organization purpose plaintext salt nonce = Ok v ->
  customer_open root organization purpose v = Some plaintext.
Proof.
  intros Hv. apply customer_seal_accepts in Hv as (_ & material & ciphertext & tag & Hk & Hs & ->).
  unfold customer_open. destruct (envelope_fields (key_id root) salt nonce (ciphertext ++ tag)) as (-> & -> & -> & ->).
  cbn [mbind option_bind]. rewrite bool_decide_true by done. cbn [negb mbind option_bind]. rewrite Hk.
  cbn [mbind option_bind].
  destruct (gcm_seal_lengths _ _ _ _ _ _ Hs) as [Hl Ht].
  replace (Z.to_nat (zlen (ciphertext ++ tag) - 16)) with (length ciphertext) by (rewrite zlen_app, Ht; unfold zlen; lia).
  rewrite take_app_length, drop_app_length. by eapply gcm_open_seal.
Qed.

(** A customer envelope is sealed exactly when its inputs are valid, and it opens to what was
    sealed: for a 32-byte key, a nonempty organization without zero bytes, a supported purpose
    and content of its size and form the seal succeeds, otherwise it fails; and a reader with
    the same key, organization and purpose gets back the plaintext. *)
Theorem customer_roundtrip root organization purpose plaintext salt nonce :
  (sealable root organization purpose plaintext <->
     exists v, customer_seal root organization purpose plaintext salt nonce = Ok v)
  /\ forall v, customer_seal root organization purpose plaintext salt nonce = Ok v ->
       customer_open root organization purpose v = Some plaintext.
Proof.
  split; [split|].
  - intros [Hr [Ho Hz] (maximum & Hm & Hp) Hc]. unfold customer_seal. rewrite Hm. cbn [ok_or].
    assert (negb (zlen root =? 32) || (zlen organization =? 0) || bool_decide (x00 ∈ organization)
      || (zlen plaintext =? 0) || (maximum <? zlen plaintext) = false) as ->.
    { rewrite !orb_false_iff, negb_false_iff, Z.eqb_eq, !Z.eqb_neq, Z.ltb_ge, bool_decide_eq_false.
      split_and!; [done| |done|lia|lia]. destruct organization; [done|]. zlen_lia. }
    rewrite Hc. set (context := customer_context _ _ _).
    destruct (hkdf_sha256_total (hkdf_sha256_extract salt root) context 32) as [material ->];
      [by rewrite hkdf_extract_length|lia|]. cbn [ok_or].
    assert (zlen plaintext <= 262144).
    { unfold purpose_maximum in Hm. repeat case_bool_decide; simplify_eq; lia. }
    destruct (gcm_seal_total material nonce context plaintext) as [[ciphertext tag] ->]; [lia|]. by eexists.
  - intros [v Hv]. by apply customer_seal_accepts in Hv as [? _].
  - intros v. apply sealed_opens.
Qed.

(** What is authenticated with an envelope determines its organization, purpose and key: equal
    contexts of two seals come from the same three. *)
Lemma sealed_context_binds root organization purpose plaintext root' organization' purpose' plaintext' :
  sealable root organization purpose plaintext -> sealable root' organization' purpose' plaintext' ->
  customer_context organization purpose (key_id root) = customer_context organization' purpose' (key_id root') ->
  organization = organization' /\ purpose = purpose' /\ key_id root = key_id root'.
Proof.
  intros [_ [_ Ho] (m & Hm & _) _] [_ [_ Ho'] (m' & Hm' & _) _]. apply customer_context_inj; try done;
    by eapply purpose_plain.
Qed.

(** ** Files *)

(** Files that existed keep their content. *)
Definition files_kept (fs fs' : Files) : Prop := forall path content, fs path = Some content -> fs' path = Some content.

(** An outcome that left every file as it was. *)
Ltac unchanged := (intros [= <- _ <-] || intros [= <- <-]); split_and!; [by intros ? ?|done|done].

Lemma write_new_spec fs path content run fs' out :
  write_new fs path content run = (fs', out) ->
  files_kept fs fs' /\ (forall other, other <> path -> fs' other = fs other)
  /\ (out = Ok tt -> fs path = None /\ fs' path = Some content).
Proof.
  unfold write_new. case_bool_decide as He; [unchanged|]. apply eq_None_not_Some in He.
  assert (Hput : forall c, files_kept fs (file_put fs path c) /\ forall other, other <> path -> file_put fs path c other = fs other).
  { intros c. unfold file_put. split; [intros p x Hp; rewrite bool_decide_false; [done|]; congruence|].
    intros other Ho. by rewrite bool_decide_false. }
  destruct run as [|n|]; [unchanged|..]; intros [= <- <-]; (split_and!; [apply Hput|apply Hput|]); [done|].
  intros _. split; [done|]. unfold file_put. by rewrite bool_decide_true.
Qed.

Lemma read_private_spec fs path maximum content :
  0 <= maximum -> read_private fs path maximum = Ok content -> fs path = Some content /\ zlen content <= maximum.
Proof.
  intros Hm. unfold read_private. intros Hx. pass Hx as whole by Hw. pass Hx by Hs. injection Hx as <-. zbool.
  assert (length whole <= Z.to_nat maximum)%nat.
  { destruct (decide (length whole <= Z.to_nat (maximum + 1))%nat).
    - rewrite take_ge in Hs by done. unfold zlen in Hs. lia.
    - unfold zlen in Hs. rewrite length_take in Hs. lia. }
  rewrite take_ge by lia. unfold zlen. split; [done|lia].
Qed.

Context `{Random}.

(** Customer commands never change an existing file, however a write ends, and what they report is
    what they wrote: a generated key is new, 32 bytes, in base64url, and its name is printed; an
    encrypted file is new and holds an envelope that the key in the key file opens, for its
    organization and purpose, to exactly the bytes of the input file; no other file changes. *)
Theorem customer_files_safe `{RandomLaws} key_file organization purpose input output run fs g :
  (forall fs' g' out, generate_key output run fs g = (fs', g', out) ->
     files_kept fs fs' /\ (forall other, other <> output -> fs' other = fs other)
     /\ forall id, out = Ok id -> fs output = None
          /\ exists root, zlen root = 32 /\ id = key_id root /\ fs' output = Some (base64url_encode root))
  /\ (forall fs' g' out, encrypt_file key_file organization purpose input output run fs g = (fs', g', out) ->
     files_kept fs fs' /\ (forall other, other <> output -> fs' other = fs other)
     /\ (out = Ok tt -> fs output = None
          /\ exists root plaintext v, read_key fs key_file = Ok root /\ fs input = Some plaintext
               /\ fs' output = Some (json_to_vec_pretty v)
               /\ customer_open root organization purpose v = Some plaintext)).
Proof.
  split; intros fs' g' out.
  - unfold generate_key. destruct (rng_fill g 32) as [g1 [root|]] eqn:Hg; [|unchanged].
    destruct (write_new fs output _ run) as [fs1 written] eqn:Hw. apply write_new_spec in Hw as (Hk & Ho & Hok).
    intros [= <- _ <-]. split_and!; [done|done|]. intros id Hid. destruct written as [[]|]; [|done]. injection Hid as <-.
    destruct (Hok eq_refl) as [Hn Hf]. split; [done|]. exists root. split_and!; try done. by eapply rng_fill_length in Hg.
  - unfold encrypt_file. destruct (let? root := read_key fs key_file in _) as [[root plaintext]|e] eqn:Hr; [|unchanged].
    pass Hr as root' by Hkey. pass Hr as plaintext' by Hin. injection Hr as -> ->.
    apply read_private_spec in Hin as [Hin _]; [|by case_bool_decide].
    destruct (rng_fill g 32) as [g1 [salt|]]; [|unchanged].
    destruct (rng_fill g1 12) as [g2 [nonce|]]; [|unchanged].
    destruct (customer_seal _ _ _ _ salt nonce) as [v|] eqn:Hs; [|unchanged].
    destruct (write_new fs output _ run) as [fs1 written] eqn:Hw. apply write_new_spec in Hw as (Hk & Ho & Hok).
    intros [= <- _ <-]. split_and!; [done|done|]. intros ->. destruct (Hok eq_refl) as [Hn Hf]. split; [done|].
    exists root, plaintext, v. split_and!; try done. by eapply sealed_opens.
Qed.
End Customer.
