(* ===== verification/CommandLine.v ===== *)
(** The verifying commands of the command line ([cli/src/main.rs]: [verify_proof_files] and the
    readers of files; [cli/src/sdk_release.rs]): a receipt is checked offline against archived
    evidence, and a downloaded release file by file.

    The file system is a function from paths to contents; how a file is cut into reads, and what
    the ledger's origins answer, are parameters. *)

From S2P Require Import Prelude SseTheory Primitives BTree Json Signing Attestation Sse Receipt Documents Deserialize.
From S2P Require Import Approvals Snp Releases Amd Collateral Certificates Snapshot Boot SdkRelease EvidenceArchive CustomerEncryption.

Open Scope Z_scope.

Inductive CliError :=
| Cl_Read
| Cl_TooLarge
| Cl_Receipt (e : ReceiptError)
| Cl_NoReceipt
| Cl_Archive (e : DownloadError)
| Cl_Evidence (e : EvidenceError)
| Cl_Release (e : ApprovalError)
| Cl_Name
| Cl_Foreign (name : bytes)
| Cl_Size (name : bytes)
| Cl_Digest (name : bytes)
| Cl_NoArtifacts.

Definition read_bounded_file (fs : Files) (path : bytes) (maximum : Z) : result bytes CliError :=
  let? content := ok_or (fs path) Cl_Read in
  let content := take (Z.to_nat (maximum + 1)) content in
  reject maximum <? zlen content with Cl_TooLarge;
  Ok content.

Record ProofArgs := mkProofArgs {
  pa_proof : option bytes;
  pa_stream : bool;
  pa_request : bytes;
  pa_response : bytes;
  pa_bundle : option bytes;
  pa_boot : option bytes;
  pa_environment : Environment;
  pa_now_unix_ms : option Z }.

Section Proofs.
Context `{Json} `{Base64} `{Signatures} `{Hash} `{Encodings} `{Sigstore} `{X509} `{Unicode} `{Agreement}.

Definition hash_file (fs : Files) (path : bytes) : result bytes CliError :=
  let? content := ok_or (fs path) Cl_Read in Ok (sha256 content).

(** [read_signed_response]; [reads] cuts the file of a stream into its reads. *)
Definition read_signed_response (reads : bytes -> list bytes) (fs : Files) (a : ProofArgs) (request : bytes)
    : result Signed CliError :=
  match pa_proof a with
  | Some path =>
      let? proof := read_bounded_file fs path MAX_METADATA_BYTES in
      let? response := hash_file fs (pa_response a) in
      map_err Cl_Receipt (Signed_detached request proof response)
  | None =>
      if pa_stream a then
        let? content := ok_or (fs (pa_response a)) Cl_Read in
        let (stream, pushed) := stream_run (Stream_new request) (reads content) in
        let? _ := map_err Cl_Receipt pushed in
        map_err Cl_Receipt (Stream_signed stream)
      else
        let? response := read_bounded_file fs (pa_response a) MAX_BUFFERED_BYTES in
        map_err Cl_Receipt (Signed_buffered request response)
  end.

(** What a receipt uses of an appraised boot. *)
Definition boot_of_archive (boot : Boot.VerifiedBoot) : Receipt.VerifiedBoot :=
  let registration := vb_identity boot in
  {| vb_node_id := vr_node_id (vn_hardware registration);
     vb_signing_public_key := bd_signing_public_key (br_report_data (vn_record registration));
     vb_document_sha256 := vn_document_sha256 registration |}.

(** The boot archive and the evidence: both files, or the download. *)
Definition proof_evidence (built : bool) (runs : bytes -> ArchiveRun) (fs : Files) (a : ProofArgs) (signed : Signed)
    : result (bytes * bytes) CliError :=
  match pa_boot a, pa_bundle a with
  | Some boot, Some bundle =>
      let? archive := read_bounded_file fs boot MAX_ARCHIVE_BYTES in
      let? bundle := read_bounded_file fs bundle MAX_INPUT_BYTES in
      Ok (archive, bundle)
  | _, _ =>
      let? boot := ok_or (Signed_boot_sha256 signed) Cl_NoReceipt in
      let? archive := map_err Cl_Archive (download_archive built runs (pa_environment a) boot) in
      Ok (ar_boot archive, ar_evidence archive)
  end.

Definition verify_proof_files (reads : bytes -> list bytes) (built : bool) (runs : bytes -> ArchiveRun) (clock : Z)
    (fs : Files) (a : ProofArgs) (verifier : Verifier) : result VerifiedReceipt CliError :=
  let now := default clock (pa_now_unix_ms a) in
  let? request := hash_file fs (pa_request a) in
  let? signed := read_signed_response reads fs a request in
  let? (archive, bundle) := proof_evidence built runs fs a signed in
  let? boot := map_err Cl_Evidence (Verifier_verify_boot_archive verifier archive bundle now) in
  let? verified := map_err Cl_Receipt (Signed_verify signed (boot_of_archive boot)) in
  Ok (vm_receipt verified).

(** ** Releases *)

(** A directory entry: its name, unless that is no text, and its content if it is a regular file. *)
Record Entry := mkEntry { en_name : option bytes; en_file : option bytes }.

Fixpoint verify_artifacts_loop (manifest : Manifest) (entries : list Entry) (verified : list bytes)
    : result (list bytes) CliError :=
  match entries with
  | [] => Ok verified
  | entry :: entries =>
      let? name := ok_or (en_name entry) Cl_Name in
      if bool_decide (name ∈ METADATA) then verify_artifacts_loop manifest entries verified
      else
        let? artifact := ok_or (List.find (fun a => bool_decide (at_name a = name)) (mf_artifacts manifest))
          (Cl_Foreign name) in
        let? content := match en_file entry with
          | Some content => if zlen content =? at_size artifact then Ok content else Err (Cl_Size name)
          | None => Err (Cl_Size name)
          end in
        reject negb (bool_decide (hex_encode (sha256 content) = at_sha256 artifact)) with Cl_Digest name;
        verify_artifacts_loop manifest entries (verified ++ [name])
  end.

Definition verify_artifacts (manifest : Manifest) (entries : list Entry) : result (list bytes) CliError :=
  let? verified := verify_artifacts_loop manifest entries [] in
  reject bool_decide (verified = []) with Cl_NoArtifacts;
  Ok verified.

(** [verify_directory]; [in_directory] joins a name to the directory's path. *)
Definition verify_directory (root_json : bytes) (in_directory : bytes -> bytes) (fs : Files) (entries : list Entry)
    (clock : Z) : result (Manifest * list bytes) CliError :=
  let read name := read_bounded_file fs (in_directory name) MAX_INPUT_BYTES in
  let? manifest_bytes := read MANIFEST in
  let? attestation := read ATTESTATION in
  let? qualification := read QUALIFICATION in
  let? signature := read SIGNATURE in
  let? manifest := map_err Cl_Release
    (sdk_release_verify root_json manifest_bytes attestation qualification signature clock) in
  let? verified := verify_artifacts manifest entries in
  Ok (manifest, verified).
End Proofs.

(** * Theory

    A receipt that the command accepts covers the files it was given under a boot whose archive was
    verified, and a release directory that it accepts holds nothing but the release. *)

Lemma bounded_file_spec fs path maximum content :
  0 <= maximum -> read_bounded_file fs path maximum = Ok content -> fs path = Some content /\ zlen content <= maximum.
Proof.
  intros Hm Hx. apply (read_private_spec fs path maximum content Hm). unfold read_private, read_bounded_file in *.
  destruct (fs path) as [whole|]; [|done]. cbn [ok_or] in *. revert Hx. destruct (_ <? _); [done|by intros [= ->]].
Qed.

Section ProofTheory.
Context `{Json} `{Base64} `{Signatures} `{HashLaws} `{Encodings} `{Sigstore} `{X509} `{Unicode} `{Agreement}.

(** What the signed digest of each kind of response covers. *)
Definition response_covered (a : ProofArgs) (response : bytes) (signed : Signed) : Prop :=
  match pa_proof a, pa_stream a with
  | Some _, _ => sg_response signed = sha256 response
  | None, true => exists fs t proof,
      response = wire fs ++ receipt_bytes proof ++ t ++ SSE_EVENT_END
      /\ Forall frame_ok fs /\ receipt_ok proof /\ terminal_ok t
      /\ strict_json proof = Some (sg_metadata signed)
      /\ sg_response signed = sha256 (content fs ++ t ++ SSE_EVENT_END)
  | None, false => exists metadata body,
      split_buffered_response strict_object response (64 * 1024 * 1024) = Ok (metadata, body)
      /\ strict_json metadata = Some (sg_metadata signed) /\ sg_response signed = sha256 body
  end.

Lemma detached_spec request metadata response signed :
  Signed_detached request metadata response = Ok signed ->
  strict_json metadata = Some (sg_metadata signed) /\ sg_request signed = request /\ sg_response signed = response.
Proof. unfold Signed_detached. intros Hx. pass Hx by Hl. pass Hx as v by Hv. by injection Hx as <-. Qed.

Lemma signed_response_covers reads fs a request signed :
  (forall b, concat (reads b) = b) -> read_signed_response reads fs a request = Ok signed ->
  sg_request signed = request
  /\ exists response, fs (pa_response a) = Some response /\ response_covered a response signed.
Proof.
  intros Hr. unfold read_signed_response, response_covered. destruct (pa_proof a) as [path|].
  - intros Hx. pass Hx as proof by Hp. pass Hx as digest by Hh. apply map_err_ok, detached_spec in Hx as (_ & Hq & Hd).
    split; [done|]. unfold hash_file in Hh. pass Hh as response by Hf. injection Hh as <-. by exists response.
  - destruct (pa_stream a).
    + intros Hx. pass Hx as response by Hf. destruct (stream_run _ _) as [stream pushed] eqn:Hrun.
      pass Hx as out by Hp. apply map_err_ok in Hx. subst pushed.
      destruct (stream_run_body _ _ _ _ Hrun) as [Hsse Hreq]. unfold Stream_signed in Hx.
      pass Hx as [proof digest] by Hfin.
      destruct (finished_content _ _ _ _ _ Hsse Hfin) as (frames & t & Hw & Hfs & Hpr & Ht & _ & ->).
      apply detached_spec in Hx as (Hj & Hq & Hd). split; [by rewrite Hq, Hreq|].
      exists response. split; [done|]. exists frames, t, proof. rewrite Hr in Hw. done.
    + intros Hx. pass Hx as response by Hb. apply map_err_ok in Hx. apply bounded_file_spec in Hb as [Hf _]; [|done].
      unfold Signed_buffered in Hx. pass Hx as [metadata body] by Hs. apply detached_spec in Hx as (Hj & Hq & Hd).
      split; [done|]. exists response. split; [done|]. by exists metadata, body.
Qed.

(** Where the boot archive and the evidence come from. *)
Definition evidence_from (built : bool) (runs : bytes -> ArchiveRun) (fs : Files) (a : ProofArgs) (signed : Signed)
    (archive bundle : bytes) : Prop :=
  (exists boot_path bundle_path, pa_boot a = Some boot_path /\ pa_bundle a = Some bundle_path
     /\ fs boot_path = Some archive /\ fs bundle_path = Some bundle)
  \/ (exists boot origin, Signed_boot_sha256 signed = Some boot /\ origin ∈ evidence_origins (pa_environment a)
        /\ archived (runs origin) boot (mkArchive archive bundle)).

Lemma proof_evidence_spec built runs fs a signed archive bundle :
  proof_evidence built runs fs a signed = Ok (archive, bundle) -> evidence_from built runs fs a signed archive bundle.
Proof.
  assert (Hdown : (let? boot := ok_or (Signed_boot_sha256 signed) Cl_NoReceipt in
    let? found := map_err Cl_Archive (download_archive built runs (pa_environment a) boot) in
    Ok (ar_boot found, ar_evidence found)) = Ok (archive, bundle) -> evidence_from built runs fs a signed archive bundle).
  { intros Hx. pass Hx as boot by Hb. pass Hx as found by Hd. injection Hx as <- <-. unfold download_archive in Hd.
    pass Hd by Hs. pass Hd by Hbuilt. apply tried_archives in Hd as (origin & Ho & Ha). right. exists boot, origin.
    split_and!; try done. by destruct found. }
  unfold proof_evidence. destruct (pa_boot a) as [boot|] eqn:Eb, (pa_bundle a) as [file|] eqn:Ef; try done.
  intros Hx. pass Hx as content by Hc. pass Hx as evidence by He. injection Hx as -> ->.
  apply bounded_file_spec in Hc as [Hc _]; [|done]. apply bounded_file_spec in He as [He _]; [|done].
  left. by exists boot, file.
Qed.

(** A receipt that the offline check accepts proves the given files, whatever the ledger's origins
    answer: the boot archive and evidence are the given files or an authentic archive of the boot
    that the receipt names, the verifier accepts that archive at the given time, both signatures
    of that boot's key cover the digest of the request file and of the response's content, which
    is all of the response file but its receipt and keepalives, and the reported digests are theirs. *)
Theorem proof_sound reads built runs clock fs a verifier receipt :
  (forall b, concat (reads b) = b) ->
  verify_proof_files reads built runs clock fs a verifier = Ok receipt ->
  exists request response signed archive bundle boot,
    fs (pa_request a) = Some request /\ fs (pa_response a) = Some response
    /\ sg_request signed = sha256 request /\ response_covered a response signed
    /\ evidence_from built runs fs a signed archive bundle
    /\ Verifier_verify_boot_archive verifier archive bundle (default clock (pa_now_unix_ms a)) = Ok boot
    /\ receipt_proves (boot_of_archive boot) (sha256 request) (sg_response signed) (sg_metadata signed)
    /\ vr_request_sha256 receipt = hex_encode (sha256 request)
    /\ vr_response_sha256 receipt = hex_encode (sg_response signed).
Proof.
  intros Hr. unfold verify_proof_files. intros Hx. pass Hx as digest by Hq. pass Hx as signed by Hs.
  pass Hx as [archive bundle] by He. pass Hx as boot by Hb. pass Hx as vm by Hv. injection Hx as <-.
  unfold hash_file in Hq. pass Hq as request by Hf. injection Hq as <-.
  destruct (signed_response_covers _ _ _ _ _ Hr Hs) as (Hsr & response & Hresp & Hcov).
  apply signed_verify_ok in Hv as (_ & -> & Hproves). rewrite Hsr in Hproves.
  exists request, response, signed, archive, bundle, boot. cbn. rewrite Hsr.
  split_and!; try done. by apply proof_evidence_spec.
Qed.

(** ** Releases *)

(** A file of the release: regular, with the listed size and digest. *)
Definition listed (manifest : Manifest) (entry : Entry) (name : bytes) : Prop :=
  en_name entry = Some name /\ exists artifact content, artifact ∈ mf_artifacts manifest /\ at_name artifact = name
    /\ en_file entry = Some content /\ zlen content = at_size artifact
    /\ hex_encode (sha256 content) = at_sha256 artifact.

(** The names of the entries that are not the release's own proofs. *)
Definition artifact_names (entries : list Entry) : list bytes :=
  omap (fun e => name ← en_name e; if bool_decide (name ∈ METADATA) then None else Some name) entries.

Lemma verify_artifacts_loop_spec manifest entries verified out :
  verify_artifacts_loop manifest entries verified = Ok out ->
  out = verified ++ artifact_names entries
  /\ Forall (fun e => exists name, en_name e = Some name /\ (name ∈ METADATA \/ listed manifest e name)) entries.
Proof.
  revert verified. induction entries as [|e entries IH]; intros verified; cbn [verify_artifacts_loop].
  - intros [= <-]. cbn. by rewrite app_nil_r.
  - intros Hx. pass Hx as name by Hn. unfold artifact_names. cbn [omap list_omap]. rewrite Hn. cbn [mbind option_bind].
    fold (artifact_names entries). destruct (bool_decide (name ∈ METADATA)) eqn:Hm; zbool.
    + apply IH in Hx as [-> Hf]. split; [done|]. constructor; [|done]. exists name. auto.
    + pass Hx as artifact by Ha. pass Hx as content by Hc. pass Hx by Hd. zbool. apply IH in Hx as [-> Hf].
      split; [by rewrite <- app_assoc|]. constructor; [|done]. exists name. split; [done|]. right. split; [done|].
      apply find_some in Ha as [Hin Hname]. zbool. exists artifact, content. apply list_elem_of_In in Hin.
      destruct (en_file e) as [c|]; [|done]. destruct (_ =? _) eqn:Hs; [|done]. injection Hc as ->. by zbool.
Qed.

(** A release directory is accepted only as the release: its proofs verify for a manifest, every
    other entry is a regular file that the manifest lists with exactly its size and digest, so
    nothing foreign is beside it, and at least one artifact was checked. *)
Theorem release_directory_sound root_json in_directory fs entries clock manifest names :
  verify_directory root_json in_directory fs entries clock = Ok (manifest, names) ->
  (exists m a q s, fs (in_directory MANIFEST) = Some m /\ fs (in_directory ATTESTATION) = Some a
     /\ fs (in_directory QUALIFICATION) = Some q /\ fs (in_directory SIGNATURE) = Some s
     /\ sdk_release_verify root_json m a q s clock = Ok manifest)
  /\ names = artifact_names entries /\ names <> []
  /\ Forall (fun e => exists name, en_name e = Some name /\ (name ∈ METADATA \/ listed manifest e name)) entries.
Proof.
  unfold verify_directory. intros Hx. pass Hx as m by Hm. pass Hx as a by Ha. pass Hx as q by Hq. pass Hx as s by Hs.
  pass Hx as manifest' by Hv. pass Hx as verified by Hart. injection Hx as -> ->.
  apply bounded_file_spec in Hm as [Hm _], Ha as [Ha _], Hq as [Hq _], Hs as [Hs _]; try done.
  unfold verify_artifacts in Hart. pass Hart as out by Hl. pass Hart by Hne. injection Hart as ->. zbool.
  apply verify_artifacts_loop_spec in Hl as [-> Hf]. split; [by exists m, a, q, s|]. done.
Qed.
End ProofTheory.
