(* ===== verification/Altcha.v ===== *)
(** The proof of work of the dashboard ([cli/src/altcha.rs]): threads search the counters of a
    challenge for a derived key with the demanded prefix.

    A turn of a thread is one read of the shared flag and the clock, or one derivation with its
    consequences; a schedule is any list of such turns. PBKDF2 is a parameter. *)

From S2P Require Import Prelude Primitives Json Text Signing Attestation Snp Approvals.

Open Scope Z_scope.

(** [aws_lc_rs::pbkdf2] over HMAC-SHA-256: iterations, salt, password and the key's length. *)
Class Pbkdf2 := { pbkdf2_sha256 (cost : Z) (salt password : bytes) (length : Z) : bytes }.

(** ** Challenges *)

Record Puzzle := mkPuzzle {
  pz_nonce : bytes;
  pz_salt : bytes;
  pz_prefix : bytes;
  pz_cost : Z;
  pz_key_length : Z;
  pz_expires_at : Z }.

Inductive SolveError :=
| Sv_Algorithm
| Sv_Field (name : bytes)
| Sv_Hex (name : bytes)
| Sv_Cost
| Sv_KeyLength
| Sv_Expiry
| Sv_Panic
| Sv_Threads
| Sv_Expired.

Definition puzzle_field (parameters : Value) (name : bytes) : result bytes SolveError :=
  ok_or (as_str (value_index parameters name)) (Sv_Field name).

(** The checks of a challenge; a time that the system clock cannot hold panics. *)
Definition read_puzzle (challenge : Value) : result Puzzle SolveError :=
  let parameters := value_index challenge (ascii "parameters") in
  reject negb (bool_decide (as_str (value_index parameters (ascii "algorithm")) = Some (ascii "PBKDF2/SHA-256")))
    with Sv_Algorithm;
  let? nonce := puzzle_field parameters (ascii "nonce") in
  let? nonce := ok_or (hex_decode nonce) (Sv_Hex (ascii "nonce")) in
  let? salt := puzzle_field parameters (ascii "salt") in
  let? salt := ok_or (hex_decode salt) (Sv_Hex (ascii "salt")) in
  let? prefix := puzzle_field parameters (ascii "keyPrefix") in
  let? cost := ok_or (as_uint u64_max (value_index parameters (ascii "cost"))) Sv_Cost in
  reject (u32_max <? cost) || (cost =? 0) with Sv_Cost;
  let? key_length := ok_or (as_uint u64_max (value_index parameters (ascii "keyLength"))) Sv_KeyLength in
  reject negb ((1 <=? key_length) && (key_length <=? 64)) with Sv_KeyLength;
  let? expires_at := ok_or (as_uint u64_max (value_index parameters (ascii "expiresAt"))) Sv_Expiry in
  reject i64_max <? expires_at with Sv_Panic;
  Ok (mkPuzzle nonce salt prefix cost key_length expires_at).

(** ** The search *)

Inductive Thread := Checking (counter : Z) | Deriving (counter : Z) | Stopped.

#[export] Instance Thread_eq_dec : EqDecision Thread.
Proof. solve_decision. Defined.

Record Search := mkSearch {
  sr_threads : list Thread;
  sr_done : bool;
  sr_found : option (Z * bytes) }.

Section Altcha.
Context `{Json} `{Encodings} `{Pbkdf2}.

Definition derived_key (p : Puzzle) (counter : Z) : bytes :=
  hex_encode (pbkdf2_sha256 (pz_cost p) (pz_salt p) (pz_nonce p ++ u32_be counter) (pz_key_length p)).

Definition solves (p : Puzzle) (counter : Z) : bool := has_prefix (pz_prefix p) (derived_key p counter).

(** A thread starts at its own number. *)
Definition search_start (step : Z) : Search :=
  mkSearch ((fun i => Checking (Z.of_nat i)) <$> seq 0 (Z.to_nat step)) false None.

(** [counter.checked_add(step)]. *)
Definition next_counter (step counter : Z) : Thread :=
  if counter + step <=? u32_max then Checking (counter + step) else Stopped.

(** One turn of thread [i], which reads the clock as [now] when it reads it. *)
Definition search_turn (p : Puzzle) (step : Z) (s : Search) (turn : nat * Z) : Search :=
  let (i, now) := turn in
  let become t := <[i := t]> (sr_threads s) in
  match sr_threads s !! i with
  | Some (Checking counter) =>
      if negb (sr_done s) && (now <? pz_expires_at p) then mkSearch (become (Deriving counter)) (sr_done s) (sr_found s)
      else mkSearch (become Stopped) (sr_done s) (sr_found s)
  | Some (Deriving counter) =>
      if solves p counter then mkSearch (become Stopped) true (Some (counter, derived_key p counter))
      else mkSearch (become (next_counter step counter)) (sr_done s) (sr_found s)
  | Some Stopped | None => s
  end.

Definition search_run (p : Puzzle) (step : Z) (turns : list (nat * Z)) : Search :=
  fold_left (search_turn p step) turns (search_start step).

(** The scope waits for every thread. *)
Definition search_joined (s : Search) : bool := forallb (fun t => bool_decide (t = Stopped)) (sr_threads s).

Definition payload (challenge : Value) (counter : Z) (key : bytes) : bytes :=
  base64_encode (json_to_vec (JObject [(ascii "challenge", challenge);
    (ascii "solution", JObject [(ascii "counter", jnum counter); (ascii "derivedKey", JString key)])])).

(** [solve] under a schedule; none while threads still run. *)
Definition solve (challenge : Value) (threads : Z) (turns : list (nat * Z)) : option (result bytes SolveError) :=
  match read_puzzle challenge with
  | Err e => Some (Err e)
  | Ok p =>
      if u32_max <? threads then Some (Err Sv_Threads)
      else
        let s := search_run p threads turns in
        if search_joined s then
          Some (match sr_found s with
                | Some (counter, key) => Ok (payload challenge counter key)
                | None => Err Sv_Expired
                end)
        else None
  end.
End Altcha.

(** * Theory

    A solution is one, however the threads interleave; without an expiry a search that ends
    without one has tried every counter; and every fair schedule ends. *)

Section AltchaTheory.
Context `{Json} `{Encodings} `{Pbkdf2}.
Variables (p : Puzzle) (step : Z).
Hypothesis Hstep : 0 < step <= u32_max.

(** What a thread has tried: all counters of its residue below its own. *)
Definition tried_below (i : nat) (bound : Z) : Prop :=
  forall c, 0 <= c < bound -> c mod step = Z.of_nat i -> solves p c = false.

Definition thread_ok (done : bool) (late : Prop) (i : nat) (t : Thread) : Prop :=
  match t with
  | Checking c | Deriving c => 0 <= c <= u32_max /\ c mod step = Z.of_nat i /\ tried_below i c
  | Stopped => done = true \/ late \/ tried_below i (u32_max + 1)
  end.

(** [late] is whether some turn read a clock at or past the expiry. *)
Record search_ok (late : Prop) (s : Search) : Prop := {
  so_count : zlen (sr_threads s) = step;
  so_threads i t : sr_threads s !! i = Some t -> thread_ok (sr_done s) late i t;
  so_done : sr_done s = true <-> is_Some (sr_found s);
  so_found c k : sr_found s = Some (c, k) -> 0 <= c <= u32_max /\ k = derived_key p c /\ solves p c = true }.

Lemma tried_next i c : 0 <= c -> c mod step = Z.of_nat i -> solves p c = false -> tried_below i c -> tried_below i (c + step).
Proof.
  intros Hc Hm Hs Ht c' Hr Hm'. destruct (decide (c' < c)) as [|Hge]; [apply Ht; [lia|done]|].
  assert (c' = c) as ->; [|done]. rewrite <- Hm in Hm'. clear -Hr Hm' Hge Hstep.
  assert ((c' - c) mod step = 0) as E by (by rewrite Zminus_mod, Hm', Z.sub_diag, Zmod_0_l).
  rewrite Z.mod_small in E by lia. lia.
Qed.

Lemma tried_mono i a b : a <= b -> tried_below i b -> tried_below i a.
Proof. intros Hab Ht c Hc. apply Ht. lia. Qed.

Lemma start_ok : search_ok False (search_start step).
Proof.
  split; cbn [search_start sr_threads sr_done sr_found].
  - unfold zlen. rewrite length_fmap, length_seq. lia.
  - intros i t. rewrite list_lookup_fmap. destruct (seq _ _ !! i) as [j|] eqn:E; [|done]. intros [= <-].
    apply lookup_seq in E as [-> Hj]. cbn [thread_ok]. rewrite Nat.add_0_l. split; [lia|].
    split; [apply Z.mod_small; lia|]. intros c Hc Hm. rewrite Z.mod_small in Hm by lia. lia.
  - split; [done|]. by intros [? ?].
  - done.
Qed.

Lemma thread_ok_mono (done done' : bool) (late late' : Prop) i t :
  (done = true -> done' = true) -> (late -> late') -> thread_ok done late i t -> thread_ok done' late' i t.
Proof. destruct t; cbn; naive_solver. Qed.

Lemma search_ok_late (late late' : Prop) s : (late -> late') -> search_ok late s -> search_ok late' s.
Proof. intros Hl [Hc Ht Hd Hf]. split; try done. intros. by eapply thread_ok_mono, Ht. Qed.

(** One thread goes on, and perhaps finds a solution. *)
Lemma thread_step_ok late s i t done found :
  search_ok late s -> (sr_done s = true -> done = true) -> (done = true <-> is_Some found) ->
  (forall c k, found = Some (c, k) -> 0 <= c <= u32_max /\ k = derived_key p c /\ solves p c = true) ->
  thread_ok done late i t -> search_ok late (mkSearch (<[i := t]> (sr_threads s)) done found).
Proof.
  intros [Hc Ht Hd Hf] Hdone Hiff Hfound Hi. split; cbn [sr_threads sr_done sr_found]; try done.
  - unfold zlen in *. by rewrite length_insert.
  - intros j u. rewrite list_lookup_insert_Some. intros [(-> & <- & _)|[_ Hj]]; [done|]. by eapply thread_ok_mono, Ht.
Qed.

Lemma turn_ok late s turn :
  search_ok late s -> search_ok (late \/ pz_expires_at p <= turn.2) (search_turn p step s turn).
Proof.
  destruct turn as [i now]. cbn [snd]. intros Hs.
  apply (search_ok_late _ (late \/ pz_expires_at p <= now)) in Hs; [|by left].
  unfold search_turn. destruct (sr_threads s !! i) as [[c|c|]|] eqn:Ei; [| |done..].
  - destruct (so_threads _ _ Hs _ _ Ei) as (Hr & Hm & Hb).
    destruct (negb (sr_done s) && (now <? pz_expires_at p)) eqn:E; apply thread_step_ok; try exact (so_done _ _ Hs); try exact (so_found _ _ Hs); try done.
    apply andb_false_iff in E as [E|E]; zbool; [by left|right; left; by right].
  - destruct (so_threads _ _ Hs _ _ Ei) as (Hr & Hm & Hb). destruct (solves p c) eqn:E; apply thread_step_ok; try exact (so_done _ _ Hs); try exact (so_found _ _ Hs); try done.
    + by intros c' k [= <- <-].
    + by left.
    + pose proof (tried_next i c ltac:(lia) Hm E Hb) as Hn.
      unfold next_counter. destruct (c + step <=? u32_max) eqn:Eb; zbool; cbn [thread_ok].
      * split; [lia|]. split; [|done]. by rewrite <- Zplus_mod_idemp_r, Z_mod_same_full, Z.add_0_r.
      * right. right. eapply tried_mono; [|done]. lia.
Qed.

Lemma search_run_ok turns late s :
  search_ok late s ->
  search_ok (late \/ Exists (fun turn => pz_expires_at p <= turn.2) turns) (fold_left (search_turn p step) turns s).
Proof.
  revert late s. induction turns as [|turn turns IH]; intros late s Hs; cbn [fold_left].
  - eapply search_ok_late; [|done]. by left.
  - apply (turn_ok _ _ turn), IH in Hs. eapply search_ok_late; [|done].
    intros [[?|?]|?]; [by left|right; by left|right; by right].
Qed.

(** A search that ends in time without a solution has tried every counter. *)
Lemma exhausted turns :
  Forall (fun turn => turn.2 < pz_expires_at p) turns -> search_joined (search_run p step turns) = true ->
  sr_found (search_run p step turns) = None -> forall c, 0 <= c <= u32_max -> solves p c = false.
Proof.
  intros Hin Hj Hn c Hc. destruct (search_run_ok turns False _ start_ok) as [Hlen Ht Hd _].
  fold (search_run p step turns) in Hlen, Ht, Hd.
  pose proof (Z.mod_pos_bound c step ltac:(lia)) as Hm.
  destruct (lookup_lt_is_Some_2 (sr_threads (search_run p step turns)) (Z.to_nat (c mod step))) as [t Hi];
    [unfold zlen in Hlen; lia|].
  unfold search_joined in Hj. apply forallb_all in Hj. eapply Forall_lookup_1 in Hj; [|done]. zbool. subst t.
  destruct (Ht _ _ Hi) as [Hdone|[[[]|Hlate]|Htried]].
  - apply Hd in Hdone as [? Hs]. by rewrite Hs in Hn.
  - apply Exists_exists in Hlate as (turn & Hturn & Hl). eapply Forall_forall in Hin; [|done]. lia.
  - apply Htried; lia.
Qed.

(** ** Ending *)

(** The turns a thread can still take. *)
Definition work (t : Thread) : Z :=
  match t with
  | Checking c => 2 * (u32_max - c) + 2
  | Deriving c => 2 * (u32_max - c) + 1
  | Stopped => 0
  end.

Definition turns_of (i : nat) (turns : list (nat * Z)) : Z := zlen (filter (fun turn => turn.1 = i) turns).

Lemma next_work c : 0 <= c <= u32_max -> 0 <= work (next_counter step c) < 2 * (u32_max - c) + 1.
Proof. intros Hc. unfold next_counter. destruct (_ <=? _) eqn:E; zbool; cbn [work]; lia. Qed.

Lemma turn_work late s turn i t :
  search_ok late s -> sr_threads s !! i = Some t ->
  exists t', sr_threads (search_turn p step s turn) !! i = Some t'
    /\ work t' <= Z.max 0 (work t - (if bool_decide (turn.1 = i) then 1 else 0)).
Proof.
  intros Hs Hi. destruct turn as [j now]. cbn [fst].
  assert (forall t', 0 <= work t' <= Z.max 0 (work t - 1) -> forall d f,
    exists t'', sr_threads (mkSearch (<[i := t']> (sr_threads s)) d f) !! i = Some t''
      /\ work t'' <= Z.max 0 (work t - 1)) as Hown.
  { intros t' Ht' d f. exists t'. split; [|lia]. cbn. rewrite list_lookup_insert_eq; [done|]. by apply lookup_lt_Some in Hi. }
  pose proof (so_threads _ _ Hs _ _ Hi) as Hok.
  unfold search_turn. case_bool_decide as Hji.
  - subst j. rewrite Hi. destruct t as [c|c|]; cbn [thread_ok] in Hok.
    + destruct (_ && _); apply Hown; cbn [work]; lia.
    + destruct (solves p c); apply Hown; [cbn [work]; lia|].
      pose proof (next_work c ltac:(lia)). cbn [work]. lia.
    + exists Stopped. split; [done|]. cbn [work]. lia.
  - exists t. split; [|lia]. destruct (sr_threads s !! j) as [[c|c|]|]; [destruct (_ && _)|destruct (solves p c)| |];
      cbn [sr_threads]; rewrite ?list_lookup_insert_ne by done; done.
Qed.

Lemma run_work turns late s i t :
  search_ok late s -> sr_threads s !! i = Some t ->
  exists t', sr_threads (fold_left (search_turn p step) turns s) !! i = Some t'
    /\ work t' <= Z.max 0 (work t - turns_of i turns).
Proof.
  revert late s t. induction turns as [|turn turns IH]; intros late s t Hs Hi; cbn [fold_left].
  - exists t. split; [done|]. unfold turns_of. cbn. unfold zlen. cbn. lia.
  - destruct (turn_work _ _ turn _ _ Hs Hi) as (t1 & Hi1 & Hw1).
    destruct (IH _ _ _ (turn_ok _ _ turn Hs) Hi1) as (t2 & Hi2 & Hw2). exists t2. split; [done|].
    unfold turns_of in *. rewrite filter_cons. revert Hw1. case_bool_decide as E; case_decide; try done; intros Hw1;
      pose proof (zlen_nonneg (filter (fun turn => turn.1 = i) turns)); rewrite ?zlen_cons; lia.
Qed.

Lemma fair_joins turns :
  (forall i, (Z.of_nat i < step) -> 2 * (u32_max + 1) <= turns_of i turns) -> search_joined (search_run p step turns) = true.
Proof.
  intros Hfair. unfold search_joined. apply forallb_forall. intros t Hin. apply list_elem_of_In, list_elem_of_lookup in Hin as [i Hi].
  pose proof (so_count _ _ (search_run_ok turns False _ start_ok)) as Hlen. unfold zlen in Hlen.
  pose proof (lookup_lt_Some _ _ _ Hi) as Hlt. unfold search_run in Hi, Hlt.
  destruct (lookup_lt_is_Some_2 (sr_threads (search_start step)) i) as [t0 Hi0].
  { cbn. rewrite length_fmap, length_seq. lia. }
  destruct (run_work turns _ _ _ _ start_ok Hi0) as (t' & Hi' & Hw). rewrite Hi in Hi'. injection Hi' as <-.
  pose proof (so_threads _ _ start_ok _ _ Hi0) as Hok0. specialize (Hfair i ltac:(lia)).
  assert (work t0 <= 2 * (u32_max + 1)) by (destruct t0; cbn [thread_ok work] in *; lia).
  pose proof (so_threads _ _ (search_run_ok turns False _ start_ok) _ _ Hi) as Hok.
  apply bool_decide_eq_true. destruct t; cbn [thread_ok work] in *; [lia|lia|done].
Qed.
End AltchaTheory.

Lemma never_expired challenge : read_puzzle challenge <> Err Sv_Expired.
Proof.
  unfold read_puzzle, puzzle_field.
  repeat match goal with
  | |- match ok_or ?o _ with _ => _ end <> _ => destruct o; cbn [ok_or]; [|done]
  | |- (if ?b then _ else _) <> _ => destruct b; [done|]
  end. done.
Qed.

Section AltchaTheorems.
Context `{Json} `{Encodings} `{Pbkdf2}.

(** A proof of work that is handed over is a solution of its challenge, however the threads
    interleave and whichever of them stores last: its counter has 32 bits, the reported key is
    the one derived from the challenge's nonce and that counter, and it has the demanded
    prefix. A search that no clock cuts short gives up only when no counter solves the
    challenge. *)
Theorem proof_of_work_exact challenge threads turns out :
  0 < threads -> solve challenge threads turns = Some out ->
  match out with
  | Ok text => exists p counter, read_puzzle challenge = Ok p /\ 0 <= counter <= u32_max
      /\ text = payload challenge counter (derived_key p counter) /\ solves p counter = true
  | Err Sv_Expired => exists p, read_puzzle challenge = Ok p
      /\ (Exists (fun turn => pz_expires_at p <= turn.2) turns
          \/ forall counter, 0 <= counter <= u32_max -> solves p counter = false)
  | Err e => read_puzzle challenge = Err e \/ e = Sv_Threads
  end.
Proof.
  intros Hpos. unfold solve. destruct (read_puzzle challenge) as [p|e] eqn:Hp.
  2: { intros [= <-]. destruct e; try (by left). exfalso. by apply never_expired in Hp. }
  destruct (u32_max <? threads) eqn:Ht; [intros [= <-]; by right|]. zbool.
  destruct (search_joined _) eqn:Hj; [|done]. intros [= <-]. assert (0 < threads <= u32_max) as Hstep by lia.
  destruct (sr_found _) as [[counter key]|] eqn:Hf.
  - destruct (so_found _ _ _ _ (search_run_ok p threads Hstep turns False _ (start_ok p threads Hstep)) counter key Hf)
      as (Hr & -> & Hs). by exists p, counter.
  - exists p. split; [done|]. destruct (decide (Exists (fun turn => pz_expires_at p <= turn.2) turns)) as [|Hn]; [by left|].
    right. apply not_Exists_Forall in Hn; [|intros ?; apply _].
    apply (exhausted p threads Hstep turns); [|done|done]. eapply Forall_impl; [done|]. cbn. lia.
Qed.

(** Every challenge is answered under a schedule that gives each thread enough turns. *)
Theorem proof_of_work_ends challenge threads turns :
  0 < threads -> (forall i, Z.of_nat i < threads -> 2 * (u32_max + 1) <= turns_of i turns) ->
  is_Some (solve challenge threads turns).
Proof.
  intros Hpos Hfair. unfold solve. destruct (read_puzzle challenge) as [p|]; [|done].
  destruct (u32_max <? threads) eqn:Ht; [done|]. zbool. by rewrite fair_joins by (done || lia).
Qed.
End AltchaTheorems.
