(* ===== verification/Dashboard.v ===== *)
(** The account commands: the dashboard client ([cli/src/dashboard.rs]), the access token of this
    machine ([cli/src/credentials.rs]), sign-up, sign-in, sign-out ([cli/src/account.rs]) and the
    direct call of the API ([run_api] of [cli/src/main.rs]).

    A command runs against a world: the server answers each request from all requests so far,
    standard input is a text, the keychain may fail at any use. URLs are the [url] crate's and a
    parameter. *)

From S2P Require Import Prelude Primitives Json Text Signing Attestation Snp Approvals TrustRoot ReceiptHttp CustomerEncryption Altcha.

Open Scope Z_scope.

(** [url::Url]: parsing, joining a reference, the serialized origin and the path. *)
Class Urls := {
  Url : Type;
  url_parse : bytes -> option Url;
  url_join : Url -> bytes -> option Url;
  url_origin : Url -> bytes;
  url_path : Url -> bytes
}.

(** ** Printing *)

(** [char::is_control]: the category Cc. *)
Definition is_control (c : bytes) : bool :=
  match byte_to_Z <$> c with
  | [z] => (z <? 32) || (z =? 127)
  | [194; z] => (128 <=? z) && (z <? 160)
  | _ => false
  end.

Definition REPLACEMENT_CHARACTER : bytes := [xef; xbf; xbd].

Definition printable (text : bytes) : bytes :=
  concat ((fun c => if is_control c then REPLACEMENT_CHARACTER else c) <$> chars text).

(** ** Errors *)

Record Issue := mkIssue { is_path : bytes; is_message : bytes }.

Record ApiError := mkApiError {
  ae_status : Z;
  ae_code : option bytes;
  ae_message : bytes;
  ae_issues : list Issue }.

(** [anyhow::Error]: a refusal of the API, which [downcast_ref] finds, or any other error. A panic
    of the command ends it, and a run may also be cut off. *)
Inductive AnyError :=
| Any_api (e : ApiError)
| Any_other (text : bytes)
| Any_panic
| Any_running.

Definition other (text : bytes) {A} : result A AnyError := Err (Any_other text).

Definition Issue_from_value (v : Value) : option Issue :=
  match open_struct [ascii "path"; ascii "message"] v with
  | Some [path; message] => path ← path ≫= as_str; message ← message ≫= as_str; Some (mkIssue path message)
  | _ => None
  end.

(** The body of a refusal. *)
Definition Body_from_value (v : Value) : option (bytes * option bytes * list Issue) :=
  match open_struct [ascii "message"; ascii "code"; ascii "issues"] v with
  | Some [message; code; issues] =>
      message ← message ≫= as_str;
      code ← as_opt_str code;
      issues ← as_default_vec Issue_from_value issues;
      Some (message, code, issues)
  | _ => None
  end.

(** [StatusCode]'s text is the code and its reason. *)
Definition api_error `{Json} (status : Z) (body : bytes) : ApiError :=
  match json_tree body ≫= Body_from_value with
  | Some (message, code, issues) => mkApiError status code message issues
  | None => mkApiError status None (ascii "the dashboard answered " ++ decimal status) []
  end.

(** [fmt::Display] of a refusal. *)
Definition ApiError_to_string (e : ApiError) : bytes :=
  printable (ae_message e)
  ++ concat ((fun issue => [x0a] ++ ascii "  " ++ printable (is_path issue) ++ ascii ": " ++ printable (is_message issue))
       <$> ae_issues e)
  ++ (if (ae_status e =? 401)
         && bool_decide (ae_code e ∈ Some <$> [ascii "AUTH_REQUIRED"; ascii "TOKEN_EXPIRED"; ascii "TOKEN_EXPOSED"])
      then [x0a] ++ ascii "Sign in again with `stogas login`, or set STOGAS_TOKEN." else []).

(** ** The world of a command *)

Definition ORIGIN : bytes := ascii "https://app.stogas.ai".
Definition MAX_BODY_BYTES : Z := 32 * 1024 * 1024.

Inductive Reply :=
| Rp_unreachable
| Rp_answer (status : Z) (chunks : list bytes) (whole : bool).

Inductive EnvToken := Tk_unset | Tk_invalid | Tk_present (token : bytes).

Section World.
Context `{Urls}.

Record Sent := mkSent {
  se_method : bytes;
  se_url : Url;
  se_token : option bytes;
  se_body : option Value }.

Record World := mkWorld {
  w_server : list Sent -> Reply;
  w_sent : list Sent;
  w_stdin : bytes;
  w_stdout : list bytes;
  w_terminal : bool;
  w_prompt : option bytes;
  w_variable : EnvToken;
  w_keychain : option (option bytes);
  w_fault : nat -> bool;
  w_uses : nat;
  w_hostname : bytes;
  w_threads : Z;
  w_turns : Value -> list (nat * Z);
  w_files : Files }.

(** A command: it changes the world and returns or fails. *)
Definition Io (A : Type) : Type := World -> World * result A AnyError.

Definition io_of {A} (r : result A AnyError) : Io A := fun w => (w, r).
Definition io_ret {A} (a : A) : Io A := io_of (Ok a).
Definition io_fail {A} (text : bytes) : Io A := io_of (other text).
Definition io_bind {A B} (m : Io A) (k : A -> Io B) : Io B :=
  fun w => match m w with (w, Ok a) => k a w | (w, Err e) => (w, Err e) end.
(** The outcome as a value. *)
Definition io_try {A} (m : Io A) : Io (result A AnyError) := fun w => let (w, r) := m w in (w, Ok r).
End World.

Notation "'let!' x := m 'in' k" := (io_bind m (fun x => k))
  (at level 10, x pattern, m at level 200, k at level 200) : result_scope.

Section Dashboard.
Context `{Json} `{Encodings} `{Pbkdf2} `{Urls}.

(** ** Input and output *)

Definition println (line : bytes) : Io unit := fun w =>
  ({| w_server := w_server w; w_sent := w_sent w; w_stdin := w_stdin w; w_stdout := w_stdout w ++ [line];
      w_terminal := w_terminal w; w_prompt := w_prompt w; w_variable := w_variable w; w_keychain := w_keychain w;
      w_fault := w_fault w; w_uses := w_uses w; w_hostname := w_hostname w; w_threads := w_threads w;
      w_turns := w_turns w; w_files := w_files w |}, Ok tt).

(** [read_line] of standard input: through the newline, or what is left. *)
Fixpoint take_line (l : bytes) : bytes * bytes :=
  match l with
  | [] => ([], [])
  | b :: l => if bool_decide (b = x0a) then ([b], l) else let (line, rest) := take_line l in (b :: line, rest)
  end.

Definition read_stdin_line : Io bytes := fun w =>
  let (line, rest) := take_line (w_stdin w) in
  ({| w_server := w_server w; w_sent := w_sent w; w_stdin := rest; w_stdout := w_stdout w;
      w_terminal := w_terminal w; w_prompt := w_prompt w; w_variable := w_variable w; w_keychain := w_keychain w;
      w_fault := w_fault w; w_uses := w_uses w; w_hostname := w_hostname w; w_threads := w_threads w;
      w_turns := w_turns w; w_files := w_files w |},
   match from_utf8 line with Some line => Ok line | None => other (ascii "stream did not contain valid UTF-8") end).

(** The prompt goes to standard error. *)
Definition read_line (prompt : bytes) : Io bytes :=
  let! line := read_stdin_line in
  if bool_decide (line = []) then io_fail (ascii "the input ended") else io_ret (str_trim line).

(** ** credentials.rs *)

(** [keychain]: none without a keychain; otherwise the action on its entry, which may fail. *)
Definition keychain {T} (action : option bytes -> option bytes * T) : Io (option T) := fun w =>
  match w_keychain w with
  | None => (w, Ok None)
  | Some entry =>
      let used entry :=
        {| w_server := w_server w; w_sent := w_sent w; w_stdin := w_stdin w; w_stdout := w_stdout w;
           w_terminal := w_terminal w; w_prompt := w_prompt w; w_variable := w_variable w; w_keychain := Some entry;
           w_fault := w_fault w; w_uses := S (w_uses w); w_hostname := w_hostname w; w_threads := w_threads w;
           w_turns := w_turns w; w_files := w_files w |} in
      if w_fault w (w_uses w) then (used entry, other (ascii "could not use the system keychain"))
      else let (entry, value) := action entry in (used entry, Ok (Some value))
  end.

Definition stored : Io (option bytes) :=
  let! found := keychain (fun entry => (entry, entry)) in io_ret (mjoin found).

Definition store (token : bytes) : Io bool :=
  let! done := keychain (fun _ => (Some token, tt)) in io_ret (bool_decide (is_Some done)).

Definition delete : Io unit :=
  let! _ := keychain (fun _ => (None, tt)) in io_ret tt.

Definition token : Io (option bytes) := fun w =>
  match w_variable w with
  | Tk_present token => (w, Ok (Some token))
  | Tk_unset => stored w
  | Tk_invalid => (w, other (ascii "STOGAS_TOKEN is not valid UTF-8"))
  end.

(** ** dashboard.rs *)

Record Dashboard := mkDashboard { da_origin : Url; da_token : option bytes }.

Definition Dashboard_new (origin : bytes) (token : option bytes) : result Dashboard AnyError :=
  let? origin := ok_or (url_parse origin) (Any_other (ascii "invalid URL")) in
  Ok (mkDashboard origin token).

(** [Dashboard::url]: only paths under [/api/] on the dashboard's origin. *)
Definition dashboard_url (d : Dashboard) (path : bytes) : result Url AnyError :=
  if negb (has_prefix (ascii "/api/") path) then other (ascii "the path must start with /api/")
  else
    let? url := ok_or (url_join (da_origin d) path) (Any_other (ascii "invalid URL")) in
    if negb (bool_decide (url_origin url = url_origin (da_origin d))) || negb (has_prefix (ascii "/api/") (url_path url))
    then other (ascii "the path must stay under /api/ on the dashboard") else Ok url.

(** [HeaderValue::try_from]; a token that is no header value fails the request before it is sent. *)
Definition header_value (b : byte) : bool := let z := byte_to_Z b in ((32 <=? z) && negb (z =? 127)) || (z =? 9).

Fixpoint collect_response (body : bytes) (chunks : list bytes) (whole : bool) : result bytes AnyError :=
  match chunks with
  | [] => if whole then Ok body else other (ascii "the dashboard response ended early")
  | chunk :: chunks =>
      if MAX_BODY_BYTES <? zlen body + zlen chunk then other (ascii "the dashboard response exceeds ")
      else collect_response (body ++ chunk) chunks whole
  end.

Definition sent_request (s : Sent) (w : World) : World :=
  {| w_server := w_server w; w_sent := w_sent w ++ [s]; w_stdin := w_stdin w; w_stdout := w_stdout w;
     w_terminal := w_terminal w; w_prompt := w_prompt w; w_variable := w_variable w; w_keychain := w_keychain w;
     w_fault := w_fault w; w_uses := w_uses w; w_hostname := w_hostname w; w_threads := w_threads w;
     w_turns := w_turns w; w_files := w_files w |}.

(** What the server's reply to the last request makes of it. *)
Definition reply_body (reply : Reply) : result bytes AnyError :=
  match reply with
  | Rp_unreachable => other (ascii "could not reach the Stogas dashboard")
  | Rp_answer status chunks whole =>
      let? body := collect_response [] chunks whole in
      if is_success status then Ok body else Err (Any_api (api_error status body))
  end.

Definition send (d : Dashboard) (method path : bytes) (body : option Value) : Io bytes := fun w =>
  match dashboard_url d path with
  | Err e => (w, Err e)
  | Ok url =>
      if forallb header_value (default [] (da_token d)) then
        let w := sent_request (mkSent method url (da_token d) body) w in
        (w, reply_body (w_server w (w_sent w)))
      else (w, other (ascii "could not reach the Stogas dashboard"))
  end.

(** [Dashboard::json], over the text of the response. *)
Definition dashboard_json {T} (read : bytes -> option T) (d : Dashboard) (method path : bytes) (body : option Value)
    : Io T :=
  let! text := send d method path body in
  io_of (ok_or (read text) (Any_other (ascii "the dashboard sent an unexpected response"))).

Definition get {T} (read : bytes -> option T) (d : Dashboard) (path : bytes) : Io T :=
  dashboard_json read d (ascii "GET") path None.
Definition post {T} (read : bytes -> option T) (d : Dashboard) (path : bytes) (body : Value) : Io T :=
  dashboard_json read d (ascii "POST") path (Some body).
Definition put {T} (read : bytes -> option T) (d : Dashboard) (path : bytes) (body : Value) : Io T :=
  dashboard_json read d (ascii "PUT") path (Some body).

(** ** account.rs *)

Definition PASSWORD_LENGTH : Z := 64.
Definition CODE_ATTEMPTS : nat := 3.
Definition HOST_LENGTH : nat := 86.

Definition refuse_environment_token : Io unit := fun w =>
  match w_variable w with
  | Tk_unset => (w, Ok tt)
  | _ => (w, other (ascii "STOGAS_TOKEN is set, and the CLI uses it instead of a saved token; unset it first"))
  end.

Definition signed_in : Io Dashboard :=
  let! found := token in
  match found with
  | Some token => io_of (Dashboard_new ORIGIN (Some token))
  | None => io_fail (ascii "not signed in; run `stogas login`, or set STOGAS_TOKEN")
  end.

(** The challenge is solved on other threads; a panic there is an error here. *)
Definition proof_of_work (d : Dashboard) : Io bytes :=
  let! challenge := get json_from_slice d (ascii "/api/auth/challenge") in
  fun w => (w, match solve challenge (w_threads w) (w_turns w challenge) with
               | Some (Ok text) => Ok text
               | Some (Err _) => other (ascii "the proof of work failed")
               | None => Err Any_running
               end).

Definition Account_from_slice (text : bytes) : option bytes :=
  match json_tree text ≫= open_struct [ascii "token"] with
  | Some [token] => token ≫= as_str
  | _ => None
  end.

Definition register (d : Dashboard) : Io bytes :=
  let! altcha := proof_of_work d in
  post Account_from_slice d (ascii "/api/auth/register") (JObject [(ascii "altcha", JString altcha)]).

Inductive SignIn := SignedIn (token : bytes) | CodeWanted (challenge_token : bytes).

(** An untagged enum takes the first variant that fits. *)
Definition SignIn_from_slice (text : bytes) : option SignIn :=
  tree ← json_tree text;
  let read name := match open_struct [name] tree with Some [v] => v ≫= as_str | _ => None end in
  match read (ascii "token") with
  | Some token => Some (SignedIn token)
  | None => CodeWanted <$> read (ascii "challengeToken")
  end.

Definition host_byte (b : byte) : bool :=
  let z := byte_to_Z b in
  is_digit b || ((65 <=? z) && (z <=? 90)) || ((97 <=? z) && (z <=? 122)) || bool_decide (b ∈ [x2d; x2e; x5f]).

Definition host_name (hostname : bytes) : bytes :=
  concat (take HOST_LENGTH (List.filter (fun c => match c with [b] => host_byte b | _ => false end) (chars hostname))).

Definition token_settings (hostname : bytes) : Value :=
  let host := host_name hostname in
  JObject [(ascii "name", JString (if bool_decide (host = []) then ascii "Stogas CLI" else ascii "Stogas CLI on " ++ host));
           (ascii "access", JString (ascii "write")); (ascii "organizationIds", JNull); (ascii "expiresAt", JNull)].

Definition is_code (code : bytes) : bool := (zlen code =? 6) && forallb is_digit code.

Definition code_refused (e : AnyError) : bool :=
  match e with Any_api e => bool_decide (ae_code e = Some (ascii "TWO_FACTOR_INVALID")) | _ => false end.

(** The attempts that are left, this one included. *)
Fixpoint code_attempts (attempts : nat) (d : Dashboard) (challenge_token : bytes) (settings : Value) : Io bytes :=
  match attempts with
  | O => io_fail (ascii "no valid authenticator code after 3 tries")
  | S attempts =>
      let! line := read_line (ascii "Authenticator code: ") in
      let code := concat (split_whitespace line) in
      if negb (is_code code) then code_attempts attempts d challenge_token settings
      else
        let! created := io_try (post SignIn_from_slice d (ascii "/api/auth/access-token/2fa")
          (JObject [(ascii "challengeToken", JString challenge_token); (ascii "code", JString code);
                    (ascii "settings", settings)])) in
        match created with
        | Ok (SignedIn token) => io_ret token
        | Ok (CodeWanted _) => io_fail (ascii "the dashboard asked for another code")
        | Err e =>
            if (1 <=? attempts)%nat && code_refused e then code_attempts attempts d challenge_token settings
            else io_of (Err e)
        end
  end.

Definition create_token (d : Dashboard) (password : bytes) : Io bytes :=
  let! hostname := (fun w => (w, Ok (w_hostname w))) in
  let settings := token_settings hostname in
  let! altcha := proof_of_work d in
  let! sign_in := post SignIn_from_slice d (ascii "/api/auth/access-token")
    (JObject [(ascii "altcha", JString altcha); (ascii "password", JString password); (ascii "settings", settings)]) in
  match sign_in with
  | SignedIn token => io_ret token
  | CodeWanted challenge_token => code_attempts CODE_ATTEMPTS d challenge_token settings
  end.

Definition revoke (origin token : bytes) : Io unit :=
  let! d := io_of (Dashboard_new origin (Some token)) in
  let! _ := send d (ascii "POST") (ascii "/api/auth/logout") None in
  io_ret tt.

(** The new token first, then the one it replaces. *)
Definition save (token : bytes) : Io unit :=
  let! previous := stored in
  let! kept := store token in
  let! _ := if kept then io_ret tt else println token in
  match previous with
  | Some previous => let! _ := io_try (revoke ORIGIN previous) in io_ret tt
  | None => io_ret tt
  end.

Definition read_password : Io bytes :=
  let! terminal := (fun w => (w, Ok (w_terminal w))) in
  let! line := if (terminal : bool)
    then (fun w => (w, ok_or (w_prompt w) (Any_other (ascii "the terminal failed")))) else read_stdin_line in
  io_ret (str_trim line).

Definition signup : Io unit :=
  let! _ := refuse_environment_token in
  let! d := io_of (Dashboard_new ORIGIN None) in
  let! password := register d in
  let! _ := println password in
  let! token := create_token d password in
  save token.

Definition login : Io unit :=
  let! _ := refuse_environment_token in
  let! password := read_password in
  if negb (zlen (chars password) =? PASSWORD_LENGTH) then io_fail (ascii "the password has 64 characters")
  else
    let! d := io_of (Dashboard_new ORIGIN None) in
    let! token := create_token d password in
    save token.

Definition logout : Io unit :=
  let! _ := refuse_environment_token in
  let! found := stored in
  match found with
  | None => io_ret tt
  | Some token =>
      let! _ := revoke ORIGIN token in
      delete
  end.

(** ** main.rs: the direct call *)

(** [read_bounded_input]: a file, or the rest of standard input. *)
Definition read_bounded_input (path : bytes) (maximum : Z) : Io bytes := fun w =>
  let bounded content :=
    let content := take (Z.to_nat (maximum + 1)) content in
    if maximum <? zlen content then other (ascii "input exceeds ") else Ok content in
  if bool_decide (path = ascii "-") then
    ({| w_server := w_server w; w_sent := w_sent w; w_stdin := drop (Z.to_nat (maximum + 1)) (w_stdin w);
        w_stdout := w_stdout w; w_terminal := w_terminal w; w_prompt := w_prompt w; w_variable := w_variable w;
        w_keychain := w_keychain w; w_fault := w_fault w; w_uses := w_uses w; w_hostname := w_hostname w;
        w_threads := w_threads w; w_turns := w_turns w; w_files := w_files w |}, bounded (w_stdin w))
  else
    (w, match w_files w path with Some content => bounded content | None => other (ascii "could not read ") end).

Fixpoint print_lines (l : list bytes) : Io unit :=
  match l with
  | [] => io_ret tt
  | line :: l => let! _ := println (printable line) in print_lines l
  end.

(** [stdout_terminal]: whether standard output is a terminal; otherwise the response is written as it is. *)
Definition run_api `{PrettyJson} (stdout_terminal : bool) (method path : bytes) (input : option bytes) : Io unit :=
  let! body := match input with
    | Some input =>
        let! text := read_bounded_input input MAX_BODY_BYTES in
        let! value := io_of (ok_or (json_from_slice text) (Any_other (ascii "the request body is not JSON"))) in
        io_ret (Some value)
    | None => io_ret None
    end in
  let! d := signed_in in
  let! response := send d method path body in
  if negb stdout_terminal then println response
  else if bool_decide (response = []) then io_ret tt
  else
    let! value := io_of (ok_or (json_from_slice response)
      (Any_other (ascii "the response is not JSON; send it to a file instead"))) in
    print_lines (lines (json_to_vec_pretty value)).
End Dashboard.

(** * Theory

    Requests stay under the API of the dashboard, a token is given up only in the right order, and
    what the server sends cannot drive the terminal. *)

(** ** Texts *)

(** Characters as [chars] cuts them. *)
Definition cut_well (c : bytes) : Prop := match c with b :: _ => utf8_width b = length c | [] => False end.

Lemma chars_loop_concat cs fuel :
  Forall cut_well cs -> (length (concat cs) <= fuel)%nat -> chars_loop fuel (concat cs) = cs.
Proof.
  revert fuel. induction cs as [|c cs IH]; intros fuel Hcs Hfuel; cbn [concat] in *; [by destruct fuel|].
  apply Forall_cons in Hcs as [Hc Hcs]. destruct c as [|b c]; [done|]. cbn [cut_well] in Hc.
  rewrite length_app in Hfuel. cbn [length] in Hfuel. destruct fuel as [|fuel]; [lia|].
  cbn [app chars_loop]. rewrite Hc. change (b :: c ++ concat cs) with ((b :: c) ++ concat cs).
  rewrite take_app_length, drop_app_length, IH; [done|done|]. lia.
Qed.

Lemma chars_of_concat cs : Forall cut_well cs -> chars (concat cs) = cs.
Proof. intros Hcs. by apply chars_loop_concat. Qed.

Lemma utf8_char_cut c : utf8_char c = true -> cut_well c.
Proof.
  unfold utf8_char, cut_well, utf8_width, in_range.
  destruct c as [|a [|b [|c [|d [|]]]]]; cbn [length]; try done; intros Hc.
  - zbool. by rewrite (proj2 (Z.ltb_lt _ _)) by lia.
  - zbool. rewrite (proj2 (Z.ltb_ge _ _)), (proj2 (Z.ltb_lt (byte_to_Z a) 224)) by lia. done.
  - destruct a; try done; revert Hc; cbn; rewrite ?andb_false_r; done.
  - destruct a; try done; revert Hc; cbn; rewrite ?andb_false_r; done.
Qed.

Lemma from_utf8_chars l : from_utf8 l = Some l -> Forall (fun c => utf8_char c = true) (chars l).
Proof. unfold from_utf8. destruct (forallb _ _) eqn:E; [|done]. intros _. by apply forallb_all. Qed.

Lemma printable_chars text :
  from_utf8 text = Some text ->
  chars (printable text) = (fun c => if is_control c then REPLACEMENT_CHARACTER else c) <$> chars text.
Proof.
  intros Hv%from_utf8_chars. apply chars_of_concat, Forall_fmap. eapply Forall_impl; [done|]. cbn. intros c Hc.
  destruct (is_control c); [done|by apply utf8_char_cut].
Qed.

(** Server text is inert on a terminal: what is printed of a text has one character for each of its
    characters, none of them a control character, and is the text itself when it has none. *)
Theorem printable_inert text :
  from_utf8 text = Some text ->
  zlen (chars (printable text)) = zlen (chars text)
  /\ Forall (fun c => is_control c = false) (chars (printable text))
  /\ (Forall (fun c => is_control c = false) (chars text) -> printable text = text).
Proof.
  intros Hv. rewrite (printable_chars _ Hv). split; [unfold zlen; by rewrite length_fmap|]. split.
  - apply Forall_fmap, Forall_forall. intros c _. cbn. by destruct (is_control c) eqn:E.
  - intros Hn. unfold printable. rewrite <- (chars_concat text) at 2. f_equal.
    rewrite <- (list_fmap_id (chars text)) at 2. apply Forall_fmap_ext_1. eapply Forall_impl; [done|].
    cbn. by intros c ->.
Qed.

(** ** Commands *)

(** A command whose every run takes the world along a relation. *)
Definition along `{Urls} {A} (R : World -> World -> Prop) (m : Io A) : Prop := forall w w' r, m w = (w', r) -> R w w'.

Section Along.
Context `{Urls} (R : World -> World -> Prop) `{!PreOrder R}.

Lemma along_of {A} (r : result A AnyError) : along R (io_of r).
Proof. intros w w' r' [= <- <-]. done. Qed.
Lemma along_read {A} (f : World -> result A AnyError) : along R (fun w => (w, f w)).
Proof. intros w w' r' [= <- <-]. done. Qed.
Lemma along_bind {A B} (m : Io A) (k : A -> Io B) : along R m -> (forall a, along R (k a)) -> along R (io_bind m k).
Proof.
  intros Hm Hk w w' r. unfold io_bind. destruct (m w) as [w1 [a|e]] eqn:E.
  - intros Hr. etrans; [by eapply Hm|by eapply Hk].
  - intros [= <- <-]. by eapply Hm.
Qed.
Lemma along_after {A B} (P : A -> Prop) (m : Io A) (k : A -> Io B) :
  along R m -> (forall w w' a, m w = (w', Ok a) -> P a) -> (forall a, P a -> along R (k a)) -> along R (io_bind m k).
Proof.
  intros Hm Hp Hk w w' r. unfold io_bind. destruct (m w) as [w1 [a|e]] eqn:E.
  - intros Hr. etrans; [by eapply Hm|]. eapply Hk; [by eapply Hp|done].
  - intros [= <- <-]. by eapply Hm.
Qed.
Lemma along_try {A} (m : Io A) : along R m -> along R (io_try m).
Proof. intros Hm w w' r. unfold io_try. destruct (m w) as [w1 r1] eqn:E. intros [= <- <-]. by eapply Hm. Qed.
End Along.

Create HintDb io.

(** Follows a command step by step; what is left are the steps without a lemma in [io]. *)
Ltac follow :=
  repeat first
    [ progress intros
    | solve [auto with io]
    | solve [apply along_of; apply _ | apply along_read; apply _]
    | apply along_bind; [apply _| |]
    | apply along_try
    | match goal with |- along _ (if ?b then _ else _) => destruct b end
    | match goal with |- along _ (match ?x with _ => _ end) => destruct x end ].

(** A value that a successful command went through. *)
Lemma io_bind_ok `{Urls} {A B} (m : Io A) (k : A -> Io B) w w' b :
  io_bind m k w = (w', Ok b) -> exists a w1, m w = (w1, Ok a) /\ k a w1 = (w', Ok b).
Proof. unfold io_bind. destruct (m w) as [w1 [a|e]]; [|done]. intros Hk. by exists a, w1. Qed.

Section Confinement.
Context `{Json} `{Encodings} `{Pbkdf2} `{Urls}.

(** A request to the API of the dashboard. *)
Definition confined (s : Sent) : Prop :=
  has_prefix (ascii "/api/") (url_path (se_url s)) = true
  /\ exists origin, url_parse ORIGIN = Some origin /\ url_origin (se_url s) = url_origin origin.

(** Requests are added and all of them are confined; output is only added; the server stays. *)
Record advances (w w' : World) : Prop := {
  ad_sent : exists new, w_sent w' = w_sent w ++ new /\ Forall confined new;
  ad_stdout : exists new, w_stdout w' = w_stdout w ++ new;
  ad_server : w_server w' = w_server w;
  ad_variable : w_variable w' = w_variable w }.

#[global] Instance advances_preorder : PreOrder advances.
Proof.
  split.
  - intros w. split; try done; exists []; by rewrite app_nil_r.
  - intros a b c [(n1 & E1 & F1) (o1 & O1) S1 V1] [(n2 & E2 & F2) (o2 & O2) S2 V2]. split; try congruence.
    + exists (n1 ++ n2). split; [by rewrite E2, E1, app_assoc|by apply Forall_app].
    + exists (o1 ++ o2). by rewrite O2, O1, app_assoc.
Qed.

Definition of_origin (d : Dashboard) : Prop := url_parse ORIGIN = Some (da_origin d).

Lemma new_of_origin token d : Dashboard_new ORIGIN token = Ok d -> of_origin d /\ da_token d = token.
Proof. unfold Dashboard_new. intros Hx. pass Hx as origin by Ho. by injection Hx as <-. Qed.

Lemma dashboard_url_confined d path url :
  of_origin d -> dashboard_url d path = Ok url -> forall method token body, confined (mkSent method url token body).
Proof.
  unfold dashboard_url, other. intros Ho Hx method token body. pass Hx by Hp. pass Hx as u by Hu.
  pass Hx by Hc. injection Hx as ->. zbool. split; [done|]. by exists (da_origin d).
Qed.

Lemma send_along d method path body : of_origin d -> along advances (send d method path body).
Proof.
  intros Ho w w' r. unfold send. destruct (dashboard_url d path) as [url|e] eqn:Hu; [|by intros [= <- <-]].
  destruct (forallb _ _); [|by intros [= <- <-]]. intros [= <- <-]. split; try done; cbn.
  - eexists. split; [done|]. constructor; [|done]. by eapply dashboard_url_confined.
  - exists []. by rewrite app_nil_r.
Qed.

Lemma json_along {T} (read : bytes -> option T) d method path body :
  of_origin d -> along advances (dashboard_json read d method path body).
Proof. intros Ho. unfold dashboard_json. follow. by apply send_along. Qed.

(** Steps that send nothing and keep the output. *)
Lemma quiet_advances w w' :
  w_sent w' = w_sent w -> (exists new, w_stdout w' = w_stdout w ++ new) -> w_server w' = w_server w ->
  w_variable w' = w_variable w -> advances w w'.
Proof. intros Es Eo Ev Ex. split; try done. exists []. by rewrite app_nil_r. Qed.

Lemma keychain_along {T} (action : option bytes -> option bytes * T) : along advances (keychain action).
Proof.
  intros w w' r. unfold keychain. destruct (w_keychain w) as [entry|]; [|by intros [= <- <-]].
  destruct (w_fault _ _); [|destruct (action entry)]; intros [= <- <-]; apply quiet_advances; try done;
    exists []; by rewrite app_nil_r.
Qed.

Lemma println_along line : along advances (println line).
Proof. intros w w' r [= <- <-]. apply quiet_advances; try done. by exists [line]. Qed.

Lemma stdin_along : along advances read_stdin_line.
Proof.
  intros w w' r. unfold read_stdin_line. destruct (take_line _) as [line rest]. intros [= <- <-].
  apply quiet_advances; try done. exists []. by rewrite app_nil_r.
Qed.

#[local] Hint Resolve keychain_along println_along stdin_along send_along json_along : io.

Lemma read_line_along prompt : along advances (read_line prompt).
Proof. unfold read_line. follow. Qed.
Lemma stored_along : along advances stored.
Proof. unfold stored. follow. Qed.
Lemma store_along token : along advances (store token).
Proof. unfold store. follow. Qed.
Lemma delete_along : along advances delete.
Proof. unfold delete. follow. Qed.
Lemma proof_of_work_along d : of_origin d -> along advances (proof_of_work d).
Proof. intros Ho. unfold proof_of_work, get. follow. Qed.

Lemma with_dashboard {B} token (k : Dashboard -> Io B) :
  (forall d, of_origin d -> along advances (k d)) -> along advances (io_bind (io_of (Dashboard_new ORIGIN token)) k).
Proof.
  intros Hk. apply (along_after _ of_origin); [follow| |done]. intros w w' d [= _ E]. by apply new_of_origin in E as [Ho _].
Qed.

Lemma revoke_along token : along advances (revoke ORIGIN token).
Proof. unfold revoke. apply with_dashboard. follow. Qed.

Lemma code_attempts_along n d challenge settings : of_origin d -> along advances (code_attempts n d challenge settings).
Proof.
  intros Ho. induction n as [|n IH]; cbn [code_attempts]; [follow|]. unfold post. follow; apply read_line_along.
Qed.

#[local] Hint Resolve read_line_along stored_along store_along delete_along proof_of_work_along revoke_along
  code_attempts_along : io.

Lemma create_token_along d password : of_origin d -> along advances (create_token d password).
Proof. intros Ho. unfold create_token, post. follow. Qed.
Lemma save_along token : along advances (save token).
Proof. unfold save. follow. Qed.
Lemma register_along d : of_origin d -> along advances (register d).
Proof. intros Ho. unfold register, post. follow. Qed.
Lemma token_along : along advances token.
Proof. intros w w' r. unfold token. destruct (w_variable w); [by apply stored_along|by intros [= <- <-]..]. Qed.
Lemma signed_in_along : along advances signed_in.
Proof. unfold signed_in. follow. apply token_along. Qed.
Lemma signed_in_origin w w' d : signed_in w = (w', Ok d) -> of_origin d.
Proof.
  unfold signed_in. intros (found & w1 & _ & Hk)%io_bind_ok. destruct found as [token|]; [|done].
  injection Hk as _ E. by apply new_of_origin in E as [Ho _].
Qed.
Lemma refuse_along : along advances refuse_environment_token.
Proof. intros w w' r. unfold refuse_environment_token. destruct (w_variable w); by intros [= <- <-]. Qed.
Lemma input_along path maximum : along advances (read_bounded_input path maximum).
Proof.
  intros w w' r. unfold read_bounded_input. destruct (bool_decide _); intros [= <- <-]; [|done].
  apply quiet_advances; try done. exists []. by rewrite app_nil_r.
Qed.
Lemma print_lines_along l : along advances (print_lines l).
Proof. induction l as [|line l IH]; cbn [print_lines]; follow. Qed.

#[local] Hint Resolve create_token_along save_along register_along signed_in_along refuse_along input_along
  print_lines_along : io.

Lemma signup_along : along advances signup.
Proof. unfold signup. apply along_bind; [apply _|follow|]. intros _. apply with_dashboard. follow. Qed.
Lemma login_along : along advances login.
Proof.
  unfold login, read_password. apply along_bind; [apply _|follow|]. intros _.
  apply along_bind; [apply _|follow|]. intros password. destruct (negb _); [follow|]. apply with_dashboard. follow.
Qed.
Lemma logout_along : along advances logout.
Proof. unfold logout. follow. Qed.
Lemma run_api_along `{PrettyJson} terminal method path input : along advances (run_api terminal method path input).
Proof.
  unfold run_api. apply along_bind; [apply _|follow|]. intros body.
  apply (along_after _ of_origin); [follow|apply signed_in_origin|]. follow.
Qed.

(** The account commands and the direct call. *)
Inductive AccountCommand :=
| Cmd_signup | Cmd_login | Cmd_logout | Cmd_api (stdout_terminal : bool) (method path : bytes) (input : option bytes).

Definition run_account `{PrettyJson} (c : AccountCommand) : Io unit :=
  match c with
  | Cmd_signup => signup
  | Cmd_login => login
  | Cmd_logout => logout
  | Cmd_api terminal method path input => run_api terminal method path input
  end.

(** The access token and the password never leave the dashboard's API: whatever the server answers,
    the user types and the keychain does, every request of the account commands, and of the
    direct call with any path, goes to a URL under /api/ on the dashboard's own origin. *)
Theorem requests_confined `{PrettyJson} c w w' r :
  run_account c w = (w', r) -> exists new, w_sent w' = w_sent w ++ new /\ Forall confined new.
Proof.
  assert (along advances (run_account c)) as Ha
    by (destruct c; [apply signup_along|apply login_along|apply logout_along|apply run_api_along]).
  intros Hr. by destruct (Ha _ _ _ Hr).
Qed.

(** With a token in the environment the account commands do nothing. *)
Lemma environment_token_refused w :
  w_variable w <> Tk_unset ->
  Forall (fun m : Io unit => exists e, m w = (w, Err e)) [signup; login; logout].
Proof.
  intros Hv. repeat constructor; unfold signup, login, logout, io_bind at 1, refuse_environment_token;
    destruct (w_variable w); try done; by eexists.
Qed.
End Confinement.

(** ** Tokens *)

Section Tokens.
Context `{Json} `{Encodings} `{Pbkdf2} `{Urls}.

(** The request that gives up a token, and that the server took it. *)
Definition revokes (token : bytes) (s : Sent) : Prop :=
  se_method s = ascii "POST" /\ se_token s = Some token /\ se_body s = None
  /\ exists origin, url_parse ORIGIN = Some origin /\ url_join origin (ascii "/api/auth/logout") = Some (se_url s).

Lemma dashboard_send_spec d method path body w w' r :
  send d method path body w = (w', r) ->
  (w' = w /\ exists e, r = Err e)
  \/ exists url, dashboard_url d path = Ok url /\ w' = sent_request (mkSent method url (da_token d) body) w
       /\ r = reply_body (w_server w (w_sent w')).
Proof.
  unfold send. destruct (dashboard_url d path) as [url|e]; [|intros [= <- <-]; left; by eauto].
  destruct (forallb _ _); [|intros [= <- <-]; left; unfold other; by eauto]. intros [= <- <-]. right. by exists url.
Qed.

Lemma revoke_spec token w w' r :
  revoke ORIGIN token w = (w', r) ->
  (w' = w /\ exists e, r = Err e)
  \/ exists s, revokes token s /\ w' = sent_request s w
       /\ r = (let? _ := reply_body (w_server w (w_sent w ++ [s])) in Ok tt).
Proof.
  unfold revoke, io_bind, io_of, io_ret. destruct (Dashboard_new ORIGIN (Some token)) as [d|e] eqn:Hd.
  2: { intros [= <- <-]. left. by eauto. }
  apply new_of_origin in Hd as [Ho Ht]. destruct (send _ _ _ _ w) as [w1 r1] eqn:Hs.
  apply dashboard_send_spec in Hs as [[-> [e ->]]|(url & Hu & -> & ->)]; [intros [= <- <-]; left; by eauto|].
  intros Hr. right. exists (mkSent (ascii "POST") url (da_token d) None). split.
  - split_and!; try done. exists (da_origin d). split; [done|]. unfold dashboard_url, other in Hu.
    pass Hu by H4. pass Hu as u by Hj. pass Hu by H5. by injection Hu as ->.
  - change (w_sent (sent_request (mkSent (ascii "POST") url (da_token d) None) w))
      with (w_sent w ++ [mkSent (ascii "POST") url (da_token d) None]) in Hr.
    destruct (reply_body _); by injection Hr as <- <-.
Qed.

Lemma stored_spec w w' r :
  stored w = (w', r) ->
  w_keychain w' = w_keychain w /\ w_sent w' = w_sent w /\ w_stdout w' = w_stdout w /\ w_server w' = w_server w
  /\ (forall found, r = Ok found -> found = mjoin (w_keychain w)).
Proof.
  unfold stored, io_bind, keychain. destruct (w_keychain w) as [entry|] eqn:Hk; [|intros [= <- <-]; naive_solver].
  destruct (w_fault _ _); intros [= <- <-]; cbn; rewrite ?Hk; naive_solver.
Qed.

Lemma store_spec token w w' r :
  store token w = (w', r) ->
  w_sent w' = w_sent w /\ w_stdout w' = w_stdout w /\ w_server w' = w_server w
  /\ match r with
     | Ok true => is_Some (w_keychain w) /\ w_keychain w' = Some (Some token)
     | Ok false => w_keychain w = None /\ w_keychain w' = None
     | Err _ => w_keychain w' = w_keychain w
     end.
Proof.
  unfold store, io_bind, keychain. destruct (w_keychain w) as [entry|] eqn:Hk; [|intros [= <- <-]; naive_solver].
  destruct (w_fault _ _); intros [= <- <-]; cbn; rewrite ?Hk; naive_solver.
Qed.

(** The new token where the user has it: in the keychain, or printed when there is none. *)
Definition handed_over (token : bytes) (w w' : World) : Prop :=
  (w_keychain w' = Some (Some token) /\ w_stdout w' = w_stdout w)
  \/ (w_keychain w = None /\ w_keychain w' = None /\ w_stdout w' = w_stdout w ++ [token]).

(** Signing in never loses a working token: the command that saves a new token ends with it in the
    keychain, or printed when there is no keychain, and only then sends a revocation, of the
    replaced token and no other; when it fails, the keychain is as it was and nothing was
    revoked. *)
Theorem save_replaces token w w' r :
  save token w = (w', r) ->
  match r with
  | Ok _ => handed_over token w w' /\ exists new, w_sent w' = w_sent w ++ new /\ (length new <= 1)%nat
      /\ Forall (fun s => exists previous, w_keychain w = Some (Some previous) /\ revokes previous s) new
  | Err _ => w_keychain w' = w_keychain w /\ w_sent w' = w_sent w
  end.
Proof.
  unfold save, io_bind at 1. destruct (stored w) as [w1 [previous|e]] eqn:Hs; apply stored_spec in Hs as (Hk1 & Hs1 & Ho1 & Hv1 & Hp).
  2: { intros [= <- <-]. done. }
  specialize (Hp _ eq_refl) as ->. unfold io_bind at 1.
  destruct (store token w1) as [w2 [kept|e]] eqn:Hst; apply store_spec in Hst as (Hs2 & Ho2 & Hv2 & Hk2).
  2: { intros [= <- <-]. split; congruence. }
  unfold io_bind at 1.
  destruct ((if kept then io_ret tt else println token) w2) as [w3 r3] eqn:H3.
  assert (r3 = Ok tt /\ w_sent w3 = w_sent w /\ w_server w3 = w_server w2 /\ handed_over token w w3) as (-> & Hs3 & Hv3 & Hh).
  { destruct kept; injection H3 as <- <-; cbn.
    - destruct Hk2 as [_ Hk2]. split_and!; try done; [congruence|]. left. split; [done|congruence].
    - destruct Hk2 as [Hn Hk2]. split_and!; try done; [congruence|]. right. split_and!; cbn; congruence. }
  destruct (mjoin (w_keychain w)) as [previous|] eqn:Hprev.
  2: { intros [= <- <-]. split; [done|]. exists []. rewrite app_nil_r. split_and!; [done|cbn; lia|constructor]. }
  unfold io_bind, io_try. destruct (revoke ORIGIN previous w3) as [w4 r4] eqn:Hr. intros [= <- <-].
  apply revoke_spec in Hr as [[-> _]|(s & Hrev & -> & _)].
  - split; [done|]. exists []. rewrite app_nil_r. split_and!; [done|cbn; lia|constructor].
  - split; [by destruct Hh as [[? ?]|(? & ? & ?)]; [left|right]|]. exists [s]. cbn. rewrite Hs3.
    split_and!; [done|lia|]. constructor; [|constructor]. exists previous. split; [|done].
    by destruct (w_keychain w) as [[?|]|]; [injection Hprev as ->|..].
Qed.

(** Signing out deletes the saved token only after the server has taken it back: when the keychain
    changes, it held a token, the one request sent was that token's revocation, the server
    accepted it, and the command succeeded. A refusal or an outage keeps the token. *)
Theorem logout_revokes_first w w' r :
  logout w = (w', r) ->
  w_keychain w' = w_keychain w
  \/ exists token s body, w_keychain w = Some (Some token) /\ w_keychain w' = Some None
       /\ w_sent w' = w_sent w ++ [s] /\ revokes token s
       /\ reply_body (w_server w (w_sent w ++ [s])) = Ok body /\ r = Ok tt.
Proof.
  unfold logout, io_bind at 1, refuse_environment_token.
  destruct (w_variable w); [|intros [= <- <-]; by left..].
  unfold io_bind at 1. destruct (stored w) as [w1 [found|e]] eqn:Hs; apply stored_spec in Hs as (Hk1 & Hs1 & Ho1 & Hv1 & Hp).
  2: { intros [= <- <-]. by left. }
  specialize (Hp _ eq_refl) as ->. destruct (mjoin (w_keychain w)) as [token|] eqn:Hm; [|intros [= <- <-]; by left].
  assert (w_keychain w = Some (Some token)) as Hk by (by destruct (w_keychain w) as [[?|]|]; [injection Hm as ->|..]).
  unfold io_bind at 1. destruct (revoke ORIGIN token w1) as [w2 r2] eqn:Hr.
  apply revoke_spec in Hr as [[-> [e ->]]|(s & Hrev & -> & ->)]; [intros [= <- <-]; by left|].
  rewrite Hv1, Hs1. destruct (reply_body _) as [body|e] eqn:Hb; [|intros [= <- <-]; by left].
  unfold delete, io_bind, keychain. cbn [sent_request w_keychain w_fault w_uses]. rewrite Hk1, Hk.
  destruct (w_fault _ _); intros [= <- <-]; [left; cbn; congruence|]. right. exists token, s, body. cbn. rewrite Hs1. done.
Qed.
End Tokens.

(** ** Sign-up and codes *)

Section SignUp.
Context `{Json} `{Encodings} `{Pbkdf2} `{Urls}.

Lemma collect_response_bounded body chunks whole out :
  zlen body <= MAX_BODY_BYTES -> collect_response body chunks whole = Ok out -> zlen out <= MAX_BODY_BYTES.
Proof.
  revert body. induction chunks as [|chunk chunks IH]; intros body Hb; cbn [collect_response].
  - destruct whole; [by intros [= <-]|done].
  - unfold other. destruct (_ <? _) eqn:E; [done|]. zbool. intros Hx. apply (IH (body ++ chunk)); [|done]. rewrite zlen_app. lia.
Qed.

(** A response is held only up to its bound. *)
Lemma send_bounded d method path body w w' out : send d method path body w = (w', Ok out) -> zlen out <= MAX_BODY_BYTES.
Proof.
  intros [[_ [e [=]]]|(url & _ & _ & Hr)]%dashboard_send_spec. unfold reply_body, other in Hr. symmetry in Hr.
  destruct (w_server w _) as [|status chunks whole]; [done|]. pass Hr as text by Ht.
  destruct (is_success status); [|done]. injection Hr as ->. eapply collect_response_bounded; [|done]. done.
Qed.

(** Signing up never loses the account: once the dashboard has created it, its password is printed
    before anything else can fail, whatever becomes of the sign-in that follows. *)
Theorem signup_shows_password d w w1 password w' r :
  w_variable w = Tk_unset -> Dashboard_new ORIGIN None = Ok d -> register d w = (w1, Ok password) ->
  signup w = (w', r) -> exists rest, w_stdout w' = w_stdout w1 ++ password :: rest.
Proof.
  intros Hv Hd Hreg. unfold signup, io_bind at 1, refuse_environment_token. rewrite Hv. unfold io_bind at 1, io_of. rewrite Hd.
  unfold io_bind at 1. rewrite Hreg. unfold io_bind at 1. destruct (println password w1) as [w2 r2] eqn:Hp.
  injection Hp as <- <-. intros Hr. apply new_of_origin in Hd as [Ho _].
  assert (along advances (let! token := create_token d password in save token)) as Ha.
  { apply along_bind; [apply _|by apply create_token_along|]. intros. apply save_along. }
  destruct (Ha _ _ _ Hr) as [_ [new E] _ _]. cbn [w_stdout] in E. exists new. by rewrite E, <- app_assoc.
Qed.

(** A submission of an authenticator code. *)
Definition code_request (challenge_token : bytes) (s : Sent) : Prop :=
  se_method s = ascii "POST" /\ exists code settings, is_code code = true
    /\ se_body s = Some (JObject [(ascii "challengeToken", JString challenge_token); (ascii "code", JString code);
                                  (ascii "settings", settings)]).

Lemma read_line_sent prompt w w' r : read_line prompt w = (w', r) -> w_sent w' = w_sent w.
Proof.
  unfold read_line, io_bind, read_stdin_line. destruct (take_line _) as [line rest]. destruct (from_utf8 line); [|by intros [= <- <-]].
  destruct (bool_decide _); by intros [= <- <-].
Qed.

(** An account is not locked by guesses: for one challenge no more codes are submitted than there are
    attempts ([CODE_ATTEMPTS], which is three), each of exactly six digits. *)
Theorem codes_bounded n d challenge_token settings w w' r :
  code_attempts n d challenge_token settings w = (w', r) ->
  exists new, w_sent w' = w_sent w ++ new /\ (length new <= n)%nat /\ Forall (code_request challenge_token) new.
Proof.
  revert w. induction n as [|n IH]; intros w; cbn [code_attempts].
  { intros [= <- <-]. exists []. rewrite app_nil_r. split_and!; [done|cbn; lia|constructor]. }
  unfold io_bind at 1. destruct (read_line _ w) as [w1 [line|e]] eqn:Hl; apply read_line_sent in Hl.
  2: { intros [= <- <-]. exists []. rewrite app_nil_r. split_and!; [done|cbn; lia|constructor]. }
  destruct (is_code _) eqn:Hc; cbn [negb].
  2: { intros (new & E & Hlen & Hf)%IH. exists new. rewrite E, Hl. split_and!; [done|lia|done]. }
  unfold io_bind at 1, io_try, post, dashboard_json, io_bind at 1.
  destruct (send _ _ _ _ w1) as [w2 r2] eqn:Hs.
  assert (exists new, w_sent w2 = w_sent w ++ new /\ (length new <= 1)%nat /\ Forall (code_request challenge_token) new)
    as (new & E & Hlen & Hf).
  { apply dashboard_send_spec in Hs as [[-> _]|(url & _ & -> & _)].
    - exists []. rewrite app_nil_r. split_and!; [done|cbn; lia|constructor].
    - eexists [_]. cbn. rewrite Hl. split_and!; [done|lia|]. constructor; [|constructor]. split; [done|]. by eexists _, _. }
  assert (forall r' : result bytes AnyError, (w2, r') = (w', r) ->
    exists new, w_sent w' = w_sent w ++ new /\ (length new <= S n)%nat /\ Forall (code_request challenge_token) new) as Hend.
  { intros r' [= <- <-]. exists new. split_and!; [done|lia|done]. }
  assert (code_attempts n d challenge_token settings w2 = (w', r) ->
    exists new, w_sent w' = w_sent w ++ new /\ (length new <= S n)%nat /\ Forall (code_request challenge_token) new) as Hmore.
  { intros (more & E' & Hlen' & Hf')%IH. exists (new ++ more). rewrite E', E, length_app.
    split_and!; [by rewrite app_assoc|lia|by apply Forall_app]. }
  destruct r2 as [text|e]; cbn beta match zeta.
  - unfold io_of. destruct (ok_or _ _) as [[token|again]|e]; [apply Hend..|]. destruct (_ && _); [apply Hmore|apply Hend].
  - destruct (_ && _); [apply Hmore|apply Hend].
Qed.
End SignUp.
