(* ===== verification/Topup.v ===== *)
(** Top-ups paid in cryptocurrency ([cli/src/topup.rs]): amounts, the choice of an asset, the billing
    location, the deposit address and the wait for the payment. Commands run in the world of
    [Dashboard]; the QR encoder, the sum of fees and Unicode's upper case are parameters. *)

From S2P Require Import Prelude Primitives Json Text Signing Attestation Snp Approvals TrustRoot Releases ReceiptHttp CustomerEncryption Altcha Dashboard.

Open Scope Z_scope.

(** ** Amounts *)

(** [split_once('.')] with its default. *)
Definition split_point (l : bytes) : bytes * bytes := default (l, []) (split_once (ascii ".") l).

(** [trim_start_matches('0')] and [trim_end_matches('0')]. *)
Fixpoint trim_zeros (l : bytes) : bytes :=
  match l with
  | b :: rest => if bool_decide (b = x30) then trim_zeros rest else l
  | [] => []
  end.
Definition trim_end_zeros (l : bytes) : bytes := rev (trim_zeros (rev l)).

Inductive AmountError := Am_form | Am_zero.

Definition parse_usd (value : bytes) : result bytes AmountError :=
  let digits := match value with b :: rest => if bool_decide (b = x24) then rest else value | [] => value end in
  let (whole, fraction) := split_point digits in
  if (bool_decide (whole = []) && bool_decide (fraction = [])) || negb (forallb is_digit (whole ++ fraction))
  then Err Am_form
  else
    let whole := match trim_zeros whole with [] => ascii "0" | whole => whole end in
    let fraction := trim_end_zeros fraction in
    if bool_decide (whole = ascii "0") && bool_decide (fraction = []) then Err Am_zero
    else if bool_decide (fraction = []) then Ok whole
    else Ok (whole ++ ascii "." ++ fraction).

Definition u128_max : Z := 2 ^ 128 - 1.
Definition checked_u128 (n : Z) : option Z := if n <=? u128_max then Some n else None.

(** [format!("{fraction:0<3}")]. *)
Definition pad3 (fraction : bytes) : bytes := fraction ++ replicate (3 - length fraction) x30.

Definition cents (amount : bytes) : option Z :=
  let (whole, fraction) := split_point amount in
  if bool_decide (whole = []) || negb (forallb is_digit (whole ++ fraction)) then None
  else
    let fraction := pad3 fraction in
    let round_up := if 53 <=? byte_to_Z (nth 2 fraction x00) then 1 else 0 in
    whole ← parse_unsigned u128_max whole;
    hundred ← checked_u128 (whole * 100);
    part ← parse_unsigned u128_max (take 2 fraction);
    checked_u128 (hundred + (part + round_up)).

(** Thirty-nine digits hold every [u128]. *)
Definition decimal_u128 (n : Z) : bytes := decimal_digits 39 n.
Definition two_digits (n : Z) : bytes := [byte_of_Z (48 + n / 10); byte_of_Z (48 + n mod 10)].

Definition dollars (amount : bytes) : bytes :=
  match cents amount with
  | None => printable amount
  | Some cents => decimal_u128 (cents / 100) ++ ascii "." ++ two_digits (cents mod 100)
  end.

(** [str::get] of a range: inside the text and between characters. *)
Definition boundary (l : bytes) (n : nat) : bool :=
  (n =? length l)%nat || match l !! n with Some b => negb (in_range 128 191 b) | None => false end.
Definition str_get (l : bytes) (a b : nat) : option bytes :=
  if (a <=? b)%nat && (b <=? length l)%nat && boundary l a && boundary l b then Some (take (b - a) (drop a l)) else None.

Definition utc_minute (timestamp : bytes) : bytes :=
  match str_get timestamp 0 10, str_get timestamp 11 16 with
  | Some date, Some time =>
      if bool_decide (last timestamp = Some x5a) then date ++ ascii " " ++ time ++ ascii " UTC" else printable timestamp
  | _, _ => printable timestamp
  end.

Definition is_hexdigit (b : byte) : bool :=
  let z := byte_to_Z b in is_digit b || ((65 <=? z) && (z <=? 70)) || ((97 <=? z) && (z <=? 102)).

Definition uuid_byte (index : nat) (b : byte) : bool :=
  if bool_decide (index ∈ [8%nat; 13%nat; 18%nat; 23%nat]) then bool_decide (b = x2d) else is_hexdigit b.

Definition parse_organization (value : bytes) : option bytes :=
  if (zlen value =? 36) && forallb (fun '(index, b) => uuid_byte index b) (zip (seq 0 (length value)) value)
  then Some (ascii_lower <$> value) else None.

(** ** Assets *)

Record Asset := mkAsset {
  as_coin_id : Z;
  as_chain : bytes;
  as_symbol : bytes;
  as_network : bytes;
  as_minimum_deposit : bytes }.

Inductive ChooseError :=
| Ch_unavailable (symbols : list bytes)
| Ch_network (networks : list bytes)
| Ch_several (networks : list bytes).

Definition choose (assets : list Asset) (currency : bytes) (network : option bytes) : result Asset ChooseError :=
  let matching := List.filter (fun a => eq_ignore_ascii_case (as_symbol a) currency) assets in
  let others := List.filter (fun a => negb (eq_ignore_ascii_case (as_symbol a) currency)) assets in
  if bool_decide (length matching = 0%nat) then
    Err (Ch_unavailable (dedup (merge_sort bytes_le ((fun a => printable (as_symbol a)) <$> others))))
  else
    let networks := (fun a => printable (as_chain a) ++ ascii " (" ++ printable (as_network a) ++ ascii ")") <$> matching in
    let matching := match network with
      | Some network => List.filter (fun a => eq_ignore_ascii_case (as_chain a) network
                                              || eq_ignore_ascii_case (as_network a) network) matching
      | None => matching
      end in
    match matching with
    | [asset] => Ok asset
    | [] => Err (Ch_network networks)
    | _ => Err (Ch_several networks)
    end.

(** ** What the API sends *)

Record Estimate := mkEstimate {
  et_credit_usd : bytes;
  et_amount_crypto : bytes;
  et_processor_fee_usd : bytes;
  et_conversion_fee_usd : bytes;
  et_network_cost_usd : bytes;
  et_platform_fee_usd : bytes }.

Definition Estimate_from_value (v : Value) : option Estimate :=
  match open_struct [ascii "creditUsd"; ascii "amountCrypto"; ascii "processorFeeUsd"; ascii "conversionFeeUsd";
                     ascii "networkCostUsd"; ascii "platformFeeUsd"] v with
  | Some [credit; amount; processor; conversion; network; platform] =>
      credit ← credit ≫= as_str; amount ← amount ≫= as_str; processor ← processor ≫= as_str;
      conversion ← conversion ≫= as_str; network ← network ≫= as_str; platform ← platform ≫= as_str;
      Some (mkEstimate credit amount processor conversion network platform)
  | _ => None
  end.

Definition Asset_from_value (v : Value) : option Asset :=
  match open_struct [ascii "coinId"; ascii "chain"; ascii "symbol"; ascii "network"; ascii "minimumDeposit"] v with
  | Some [coin; chain; symbol; network; minimum] =>
      coin ← coin ≫= as_uint u64_max; chain ← chain ≫= as_str; symbol ← symbol ≫= as_str;
      network ← network ≫= as_str; minimum ← minimum ≫= as_str; Some (mkAsset coin chain symbol network minimum)
  | _ => None
  end.

Record Payment := mkPayment {
  py_id : bytes;
  py_amount : bytes;
  py_attention : option bytes;
  py_credit_status : bytes;
  py_credit_usd : option bytes;
  py_currency : bytes;
  py_method : bytes;
  py_provider : bytes }.

Definition Payment_from_value (v : Value) : option Payment :=
  match open_struct [ascii "id"; ascii "amount"; ascii "attention"; ascii "creditStatus"; ascii "creditUsd";
                     ascii "currency"; ascii "method"; ascii "provider"] v with
  | Some [id; amount; attention; status; credit; currency; method; provider] =>
      id ← id ≫= as_str; amount ← amount ≫= as_str; attention ← as_opt_str attention; status ← status ≫= as_str;
      credit ← as_opt_str credit; currency ← currency ≫= as_str; method ← method ≫= as_str;
      provider ← provider ≫= as_str;
      Some (mkPayment id amount attention status credit currency method provider)
  | _ => None
  end.

Record Invoice := mkInvoice {
  in_address : bytes;
  in_estimate : option Estimate;
  in_expires_at : option bytes;
  in_payment_uri : option bytes }.

Definition Invoice_from_value (v : Value) : option Invoice :=
  match open_struct [ascii "address"; ascii "estimate"; ascii "expiresAt"; ascii "paymentUri"] v with
  | Some [address; estimate; expires; uri] =>
      address ← address ≫= as_str;
      estimate ← as_option Estimate_from_value estimate;
      expires ← as_opt_str expires; uri ← as_opt_str uri; Some (mkInvoice address estimate expires uri)
  | _ => None
  end.

Record Deposit := mkDeposit {
  dp_address : bytes;
  dp_memo : bytes;
  dp_asset : Asset;
  dp_estimate : Estimate;
  dp_testnet : bool }.

Definition Deposit_from_value (v : Value) : option Deposit :=
  match open_struct [ascii "address"; ascii "memo"; ascii "asset"; ascii "estimate"; ascii "testnet"] v with
  | Some [address; memo; asset; estimate; testnet] =>
      address ← address ≫= as_str; memo ← memo ≫= as_str; asset ← asset ≫= Asset_from_value;
      estimate ← estimate ≫= Estimate_from_value; testnet ← testnet ≫= as_bool;
      Some (mkDeposit address memo asset estimate testnet)
  | _ => None
  end.

(** A struct with one list. *)
Definition Vec_from_value {A} (name : bytes) (read : Value -> option A) (v : Value) : option (list A) :=
  match open_struct [name] v with Some [l] => l ≫= as_vec read | _ => None end.

(** ** Payments *)

Record Expected := mkExpected { ex_provider : bytes; ex_currency : bytes; ex_method : bytes }.

Definition describe (p : Payment) : bytes :=
  let received := ascii "Received " ++ printable (py_amount p) ++ ascii " " ++ printable (py_currency p) in
  let status := py_credit_status p in
  if bool_decide (status = ascii "credited") then
    received ++ ascii ". Added $" ++ dollars (default (ascii "0") (py_credit_usd p)) ++ ascii " in credit."
  else if bool_decide (status = ascii "not_creditable") then received ++ ascii ". It cannot be credited."
  else if bool_decide (status = ascii "review_required") then
    received ++ ascii ". It needs a review before it is credited."
  else if bool_decide (py_attention p = Some (ascii "provider_review")) then
    received ++ ascii ". The payment processor holds it for review. Contact billing@stogas.ai; another payment will not release it."
  else if bool_decide (status = ascii "waiting_settlement") then received ++ ascii ". Waiting for network confirmations."
  else if bool_decide (status = ascii "credit_failed") then
    received ++ ascii ". Adding the credit failed; it will be tried again."
  else received ++ ascii ". Adding the credit.".

Definition transient (e : AnyError) : bool :=
  match e with
  | Any_api refused => ((500 <=? ae_status refused) && (ae_status refused <=? 599)) || (ae_status refused =? 429)
  | _ => true
  end.

Definition has_code (e : AnyError) (code : bytes) : bool :=
  match e with Any_api refused => bool_decide (ae_code refused = Some code) | _ => false end.

(** [value[key] = x]: null becomes an object, and anything else than an object panics. *)
Definition value_set (v : Value) (key : bytes) (x : Value) : option Value :=
  match v with
  | JNull => Some (JObject [(key, x)])
  | JObject fields => Some (JObject (without fields key ++ [(key, x)]))
  | _ => None
  end.

Definition io_panic `{Urls} {A} (o : option A) : Io A := io_of (ok_or o Any_panic).

(** Unicode's upper case, the QR encoder and the sum of fees as text. *)
Class Terminal := {
  str_to_uppercase : bytes -> bytes;
  qr_code : bytes -> option bytes;
  fee_total : list bytes -> bytes
}.

Section Topup.
Context `{Json} `{Encodings} `{Pbkdf2} `{Urls} `{Terminal}.

(** A struct from the text of a response. *)
Definition from_text {T} (read : Value -> option T) (text : bytes) : option T := json_tree text ≫= read.

Definition payments (d : Dashboard) (base : bytes) : Io (list Payment) :=
  get (from_text (Vec_from_value (ascii "items") Payment_from_value)) d (base ++ ascii "/payments?limit=50").

Definition expected_payment (expected : Expected) (earlier : list bytes) (p : Payment) : bool :=
  negb (bool_decide (py_id p ∈ earlier)) && bool_decide (py_provider p = ex_provider expected)
  && bool_decide (py_currency p = ex_currency expected) && bool_decide (py_method p = ex_method expected).

(** The reported statuses by payment, the newest first. *)
Definition Reported : Type := list (bytes * bytes).
Definition reported_status (reported : Reported) (id : bytes) : option bytes :=
  snd <$> List.find (fun '(k, _) => bool_decide (k = id)) reported.

(** The payments of one check: reported when changed, until one is decided. *)
Fixpoint report (l : list Payment) (reported : Reported) : Io (Reported * option (result unit AnyError)) :=
  match l with
  | [] => io_ret (reported, None)
  | p :: l =>
      let status := describe p in
      let! reported :=
        if bool_decide (reported_status reported (py_id p) = Some status) then io_ret reported
        else let! _ := println status in io_ret ((py_id p, status) :: reported) in
      if bool_decide (py_credit_status p = ascii "credited") then io_ret (reported, Some (Ok tt))
      else if bool_decide (py_credit_status p ∈ [ascii "not_creditable"; ascii "review_required"]) then
        io_ret (reported, Some (other (ascii "stopped waiting; the Balance page shows the payment's status")))
      else report l reported
  end.

(** The loop of [wait], cut off after a number of checks. *)
Fixpoint wait_loop (checks : nat) (d : Dashboard) (base : bytes) (expected : Expected) (earlier : list bytes)
    (reported : Reported) : Io unit :=
  match checks with
  | O => io_of (Err Any_running)
  | S checks =>
      let! found := io_try (payments d base) in
      match found with
      | Err e => if transient e then wait_loop checks d base expected earlier reported else io_of (Err e)
      | Ok found =>
          let! (reported, decided) := report (List.filter (expected_payment expected earlier) found) reported in
          match decided with
          | Some r => io_of r
          | None => wait_loop checks d base expected earlier reported
          end
      end
  end.

Definition wait (checks : nat) (d : Dashboard) (base : bytes) (expected : Expected) (earlier : list bytes) : Io unit :=
  let! _ := println (ascii "Waiting for the payment. Press Ctrl-C to stop waiting.") in
  wait_loop checks d base expected earlier [].

(** ** The billing location *)

Definition location_field (path : bytes) : option (bytes * bytes) :=
  if bool_decide (path = ascii "address.countryCode") then
    Some (ascii "countryCode", ascii "Billing country (two-letter code, such as US): ")
  else if bool_decide (path = ascii "address.region") then
    Some (ascii "region", ascii "State or province (two-letter code): ")
  else if bool_decide (path = ascii "address.postalCode") then
    Some (ascii "postalCode", ascii "ZIP or postal code: ")
  else None.

(** Each refused field once; an issue about anything else ends the command with the refusal. *)
Fixpoint ask_issues (refusal : AnyError) (issues : list Issue) (asked : list bytes) (profile : Value) : Io Value :=
  match issues with
  | [] => io_ret profile
  | issue :: issues =>
      match location_field (is_path issue) with
      | None => io_of (Err refusal)
      | Some (name, prompt) =>
          if bool_decide (name ∈ asked) then ask_issues refusal issues asked profile
          else
            let! value := read_line prompt in
            if bool_decide (value = []) then io_fail (ascii "the top-up needs a billing location")
            else
              let! address := io_panic (value_set (value_index profile (ascii "address")) name
                (JString (str_to_uppercase value))) in
              let! profile := io_panic (value_set profile (ascii "address") address) in
              ask_issues refusal issues (name :: asked) profile
      end
  end.

Fixpoint location_loop (fuel : nat) (d : Dashboard) (path : bytes) (profile : Value) : Io unit :=
  match fuel with
  | O => io_of (Err Any_running)
  | S fuel =>
      let! accepted := io_try (put json_from_slice d path profile) in
      match accepted with
      | Ok _ => io_ret tt
      | Err (Any_api refused as e) =>
          if bool_decide (ae_code refused = Some (ascii "INVALID_REQUEST")) && negb (bool_decide (length (ae_issues refused) = 0%nat))
          then let! profile := ask_issues e (ae_issues refused) [] profile in location_loop fuel d path profile
          else io_of (Err e)
      | Err e => io_of (Err e)
      end
  end.

Definition EMPTY_ADDRESS : Value :=
  JObject [(ascii "city", JNull); (ascii "countryCode", JString []); (ascii "line1", JNull); (ascii "line2", JNull);
           (ascii "postalCode", JNull); (ascii "region", JNull)].

Definition with_address (profile : Value) : Io Value :=
  match value_index profile (ascii "address") with
  | JNull => io_panic (value_set profile (ascii "address") EMPTY_ADDRESS)
  | _ => io_ret profile
  end.

(** Every round that goes on reads a line, so the rest of standard input bounds the rounds. *)
Definition set_location (d : Dashboard) (base : bytes) : Io unit :=
  let path := base ++ ascii "/billing-profile" in
  let! profile := get json_from_slice d path in
  let profile := match profile with JObject fields => JObject (without fields (ascii "updatedAt")) | _ => profile end in
  let! profile := with_address profile in
  fun w => location_loop (S (length (w_stdin w))) d path profile w.

Definition with_location {T} (d : Dashboard) (base : bytes) (request : Io T) : Io T :=
  let! result := io_try request in
  match result with
  | Err e =>
      if has_code e (ascii "BILLING_LOCATION_REQUIRED") then let! _ := set_location d base in request else io_of (Err e)
  | Ok x => io_ret x
  end.

(** ** Deposits *)

Definition print_instructions (symbol network address : bytes) (estimate : option Estimate) : Io unit :=
  let symbol := printable symbol in
  let network := printable network in
  let! _ := println (match estimate with
    | Some e => ascii "Send " ++ printable (et_amount_crypto e) ++ ascii " " ++ symbol ++ ascii " to this " ++ network ++ ascii " address:"
    | None => ascii "Send " ++ symbol ++ ascii " to this " ++ network ++ ascii " address:"
    end) in
  let! _ := println (printable address) in
  println (match estimate with
    | Some e => ascii "You get about $" ++ dollars (et_credit_usd e) ++ ascii " in credit after $"
        ++ fee_total [et_processor_fee_usd e; et_conversion_fee_usd e; et_network_cost_usd e; et_platform_fee_usd e]
        ++ ascii " in estimated fees."
    | None => ascii "There is no current exchange rate. The credit uses the rate when the payment arrives."
    end).

Definition print_qr (stdout_terminal : bool) (text : bytes) : Io unit :=
  if stdout_terminal then
    let! code := io_of (ok_or (qr_code text) (Any_other (ascii "data too long"))) in println code
  else io_ret tt.

Definition print_if (c : bool) (line : bytes) : Io unit := if c then println line else io_ret tt.

Definition btcpay (stdout_terminal : bool) (d : Dashboard) (base method amount : bytes) : Io Expected :=
  let path := base ++ ascii "/btcpay/invoices/" ++ method in
  let body := JObject [(ascii "desiredCreditUsd", JString amount)] in
  let! invoice := with_location d base (post (from_text Invoice_from_value) d path body) in
  let network := if bool_decide (method = ascii "BTC") then ascii "Bitcoin" else ascii "Monero" in
  let! _ := print_instructions method network (in_address invoice) (in_estimate invoice) in
  let! _ := print_qr stdout_terminal (default (in_address invoice) (in_payment_uri invoice)) in
  let! _ := match in_expires_at invoice with
    | Some at_ => println (ascii "Use this address until " ++ utc_minute at_ ++ ascii ".")
    | None => io_ret tt
    end in
  io_ret (mkExpected (ascii "btcpay") method method).

Definition ccpayment (stdout_terminal : bool) (d : Dashboard) (base currency : bytes) (network : option bytes)
    (amount : bytes) : Io Expected :=
  let! assets := get (from_text (Vec_from_value (ascii "assets") Asset_from_value)) d (base ++ ascii "/ccpayment/assets") in
  let! asset := io_of (map_err (fun _ => Any_other (currency ++ ascii " is not available")) (choose assets currency network)) in
  let path := base ++ ascii "/ccpayment/address" in
  let body := JObject [(ascii "coinId", jnum (as_coin_id asset)); (ascii "chain", JString (as_chain asset));
                       (ascii "desiredCreditUsd", JString amount)] in
  let! deposit := with_location d base (post (from_text Deposit_from_value) d path body) in
  let asset := dp_asset deposit in
  let! _ := print_instructions (as_symbol asset) (as_network asset) (dp_address deposit) (Some (dp_estimate deposit)) in
  let! _ := print_if (negb (bool_decide (dp_memo deposit = [])))
    (ascii "Memo: " ++ printable (dp_memo deposit) ++ ascii " (required; send it with the payment)") in
  let! _ := print_if (existsb (in_range 49 57) (as_minimum_deposit asset))
    (ascii "Minimum deposit: " ++ printable (as_minimum_deposit asset) ++ ascii " " ++ printable (as_symbol asset)
     ++ ascii ". Smaller deposits may not be credited.") in
  let! _ := print_qr stdout_terminal (dp_address deposit) in
  let! _ := print_if (dp_testnet deposit) (ascii "Testnet: send test funds only. The credit has no cash value.") in
  io_ret (mkExpected (ascii "ccpayment") (as_symbol asset) (as_chain asset)).

(** ** The command *)

Record TopupArgs := mkTopupArgs {
  ta_amount : bytes;
  ta_currency : bytes;
  ta_network : option bytes;
  ta_organization : option bytes }.

(** [to_ascii_uppercase]. *)
Definition ascii_upper (b : byte) : byte := if in_range 97 122 b then byte_of_Z (byte_to_Z b - 32) else b.

Definition topup_base (organization : option bytes) : bytes :=
  match organization with
  | None => ascii "/api/funding"
  | Some organization => ascii "/api/" ++ organization ++ ascii "/funding"
  end.

Definition topup_run (checks : nat) (stdout_terminal : bool) (args : TopupArgs) : Io unit :=
  let currency := ascii_upper <$> ta_currency args in
  let btcpay_method := bool_decide (currency ∈ [ascii "BTC"; ascii "XMR"]) in
  if btcpay_method && bool_decide (is_Some (ta_network args)) then
    io_fail (currency ++ ascii " has one network; leave out --network")
  else
    let! d := signed_in in
    let base := topup_base (ta_organization args) in
    let! listed := payments d base in
    let earlier := py_id <$> listed in
    let! expected :=
      if btcpay_method then btcpay stdout_terminal d base currency (ta_amount args)
      else ccpayment stdout_terminal d base currency (ta_network args) (ta_amount args) in
    wait checks d base expected earlier.
End Topup.

(** * Theory of amounts

    Typed amounts are sent exactly and in one form only; shown amounts are rounded half up. *)

(** ** Digits *)

Lemma dec_value_app a b : dec_value (a ++ b) = dec_value a * 10 ^ zlen b + dec_value b.
Proof.
  induction b as [|x b IH] using rev_ind; [rewrite app_nil_r, zlen_nil; change (dec_value []) with 0; lia|].
  rewrite app_assoc, !dec_value_snoc, IH, zlen_app. change (zlen [x]) with 1.
  rewrite Z.pow_add_r by (lia || apply zlen_nonneg). lia.
Qed.

Lemma digit_range b : is_digit b = true -> 0 <= byte_to_Z b - 48 < 10.
Proof. unfold is_digit. intros. zbool. lia. Qed.

Lemma dec_value_bound l : forallb is_digit l = true -> 0 <= dec_value l < 10 ^ zlen l.
Proof.
  induction l as [|b l IH] using rev_ind; [done|]. rewrite forallb_app, dec_value_snoc, zlen_app. cbn [forallb]. intros. zbool.
  specialize (IH ltac:(done)). pose proof (digit_range b ltac:(done)). change (zlen [b]) with 1.
  rewrite Z.pow_add_r by (lia || apply zlen_nonneg). lia.
Qed.

Lemma dec_value_inj a b :
  forallb is_digit a = true -> forallb is_digit b = true -> zlen a = zlen b -> dec_value a = dec_value b -> a = b.
Proof.
  revert b. induction a as [|x a IH] using rev_ind; intros b Ha Hb Hl Hv.
  - symmetry. apply zlen_0_nil. rewrite <- Hl. done.
  - destruct (exists_last (l := b)) as (b' & y & ->); [intros ->; rewrite zlen_app in Hl; zlen_lia|].
    rewrite forallb_app in Ha, Hb. cbn [forallb] in Ha, Hb. zbool. rewrite !dec_value_snoc in Hv. rewrite !zlen_app in Hl.
    pose proof (digit_range x ltac:(done)). pose proof (digit_range y ltac:(done)).
    assert (byte_to_Z x = byte_to_Z y) as E by lia.
    rewrite (IH b'); try done; [|zlen_lia|lia]. f_equal. f_equal. rewrite <- (byte_of_Z_to_Z x), <- (byte_of_Z_to_Z y). by rewrite E.
Qed.

(** The text of a positive whole part: no leading zero. *)
Definition leading (l : bytes) : Prop := match l with b :: _ => b <> x30 | [] => False end.

Lemma digit_nonzero b : is_digit b = true -> b <> x30 -> 1 <= byte_to_Z b - 48.
Proof.
  intros Hd Hn. pose proof (digit_range b Hd). destruct (decide (byte_to_Z b = 48)) as [E|]; [|lia].
  destruct Hn. rewrite <- (byte_of_Z_to_Z b), E. reflexivity.
Qed.

Lemma leading_bound l : forallb is_digit l = true -> leading l -> 10 ^ (zlen l - 1) <= dec_value l.
Proof.
  destruct l as [|b l]; [done|]. cbn [forallb leading]. intros Hd Hn. zbool.
  change (b :: l) with ([b] ++ l). rewrite dec_value_app, zlen_app. change (zlen [b]) with 1.
  replace (1 + zlen l - 1) with (zlen l) by lia. change (dec_value [b]) with (byte_to_Z b - 48).
  pose proof (digit_nonzero b ltac:(done) Hn). pose proof (dec_value_bound l ltac:(done)).
  assert (0 < 10 ^ zlen l) by (apply Z.pow_pos_nonneg; [lia|apply zlen_nonneg]). nia.
Qed.

Lemma leading_length a b :
  forallb is_digit a = true -> forallb is_digit b = true -> leading a -> dec_value a = dec_value b -> zlen a <= zlen b.
Proof.
  intros Ha Hb Hl Hv. pose proof (leading_bound a Ha Hl). pose proof (dec_value_bound b Hb).
  destruct (decide (zlen a <= zlen b)) as [|Hgt]; [done|]. exfalso.
  assert (10 ^ zlen b <= 10 ^ (zlen a - 1)) by (apply Z.pow_le_mono_r; lia). lia.
Qed.

Lemma leading_inj a b :
  forallb is_digit a = true -> forallb is_digit b = true -> leading a -> leading b -> dec_value a = dec_value b -> a = b.
Proof.
  intros Ha Hb La Lb Hv. apply dec_value_inj; try done.
  pose proof (leading_length a b Ha Hb La Hv). pose proof (leading_length b a Hb Ha Lb ltac:(done)). lia.
Qed.

Lemma trim_zeros_spec l : exists n, l = replicate n x30 ++ trim_zeros l /\ (trim_zeros l = [] \/ leading (trim_zeros l)).
Proof.
  induction l as [|b l (n & E & H)]; cbn [trim_zeros]; [exists O; auto|]. case_bool_decide as Hb.
  - subst b. exists (S n). cbn. by rewrite <- E.
  - exists O. auto.
Qed.

Lemma dec_value_zeros n : dec_value (replicate n x30) = 0.
Proof. induction n as [|n IH]; [done|]. rewrite replicate_S_end, dec_value_snoc, IH. done. Qed.

Lemma digits_zeros n : forallb is_digit (replicate n x30) = true.
Proof. by induction n. Qed.

(** ** Amounts *)

(** What a user typed: an optional dollar sign, then both sides of the point. *)
Definition typed_amount (value : bytes) : bytes * bytes :=
  split_point (match value with b :: rest => if bool_decide (b = x24) then rest else value | [] => value end).

Definition digits_only (a : bytes * bytes) : Prop := forallb is_digit (a.1 ++ a.2) = true.

(** The same number: whole and fraction over a power of ten. *)
Definition same_amount (a b : bytes * bytes) : Prop :=
  dec_value (a.1 ++ a.2) * 10 ^ zlen b.2 = dec_value (b.1 ++ b.2) * 10 ^ zlen a.2.

(** No leading and no trailing zero. *)
Definition exact_form (a : bytes * bytes) : Prop :=
  (a.1 = ascii "0" \/ leading a.1) /\ (a.2 = [] \/ leading (rev a.2)).

Definition show_amount (a : bytes * bytes) : bytes := if bool_decide (a.2 = []) then a.1 else a.1 ++ ascii "." ++ a.2.

Lemma has_prefix_point b l : has_prefix (ascii ".") (b :: l) = bool_decide (b = x2e).
Proof.
  unfold has_prefix. cbn. rewrite take_0. apply bool_decide_ext. split; [by intros [= ->]|by intros ->].
Qed.

Lemma digit_no_point b : is_digit b = true -> bool_decide (b = x2e) = false.
Proof. intros Hd. apply bool_decide_eq_false. by intros ->. Qed.

Lemma split_point_show a : digits_only a -> split_point (show_amount a) = a.
Proof.
  destruct a as [w f]. unfold digits_only, show_amount, split_point. cbn [fst snd]. rewrite forallb_app. intros Hd. zbool.
  assert (forall l, forallb is_digit l = true -> split_once (ascii ".") l = None) as Hnone.
  { induction l as [|b l IH]; [done|]. cbn [forallb]. intros. zbool. cbn [split_once].
    rewrite has_prefix_point, digit_no_point by done. by rewrite IH. }
  assert (forall l, forallb is_digit l = true -> split_once (ascii ".") (l ++ ascii "." ++ f) = Some (l, f)) as Hsome.
  { induction l as [|b l IH]; [intros _; cbn; by rewrite ?drop_0|]. cbn [forallb app]. intros. zbool. cbn [split_once].
    rewrite has_prefix_point, digit_no_point by done. by rewrite IH. }
  case_bool_decide as Hf; [subst f; by rewrite Hnone|by rewrite Hsome].
Qed.

Lemma forallb_rev {A} (f : A -> bool) l : forallb f (rev l) = forallb f l.
Proof. induction l as [|x l IH]; [done|]. cbn [rev forallb]. rewrite forallb_app, IH. cbn. by rewrite andb_true_r, andb_comm. Qed.

(** The trimmed parts have the value of the typed ones. *)
Lemma trimmed_amount w f :
  digits_only (w, f) ->
  let w' := match trim_zeros w with [] => ascii "0" | l => l end in
  let f' := trim_end_zeros f in
  digits_only (w', f') /\ exact_form (w', f') /\ same_amount (w, f) (w', f').
Proof.
  intros Hd w' f'. unfold digits_only in *. cbn [fst snd] in *. rewrite forallb_app in Hd. zbool.
  destruct (trim_zeros_spec w) as (n & Ew & Lw). destruct (trim_zeros_spec (rev f)) as (m & Ef & Lf).
  assert (f = f' ++ replicate m x30) as Ef'.
  { unfold f', trim_end_zeros. rewrite <- (rev_involutive f) at 1. rewrite Ef at 1. rewrite rev_app_distr. f_equal. clear.
    induction m as [|m IH]; [done|]. cbn [replicate rev]. rewrite IH. symmetry. apply replicate_S_end. }
  assert (forallb is_digit f' = true) as Hf' by (rewrite Ef', forallb_app in *; zbool; done).
  assert (forallb is_digit w' = true /\ dec_value w' = dec_value w /\ (w' = ascii "0" \/ leading w')) as (Hw' & Vw & Lw').
  { assert (forallb is_digit (replicate n x30 ++ trim_zeros w) = true) as Hall by congruence.
    assert (dec_value w = dec_value (trim_zeros w)) as -> by (rewrite Ew at 1; rewrite dec_value_app, dec_value_zeros; lia).
    rewrite forallb_app in Hall. zbool. unfold w'. destruct (trim_zeros w) as [|b l]; [by auto|].
    destruct Lw as [[=]|Lw]. by auto. }
  split_and!; [by rewrite forallb_app, Hw'| |].
  - split; [done|]. unfold f', trim_end_zeros in *. cbn [snd]. rewrite rev_involutive. destruct Lf as [->|Lf]; [by left|by right].
  - unfold same_amount. cbn [fst snd]. rewrite Ef', !dec_value_app, dec_value_zeros, Vw, zlen_app.
    rewrite Z.pow_add_r by apply zlen_nonneg. lia.
Qed.

Lemma parts_unique u v x y A B :
  0 < A -> 0 < B -> 0 <= x < A -> 0 <= y < B -> (u * A + x) * B = (v * B + y) * A -> u = v /\ x * B = y * A.
Proof.
  intros HA HB Hx Hy E. assert (0 <= x * B < A * B) by nia. assert (0 <= y * A < A * B) by nia.
  assert (u * (A * B) + x * B = v * (A * B) + y * A) as Es by lia.
  assert (u = v) as ->; [|split; [done|lia]].
  destruct (Z.lt_trichotomy u v) as [Hlt|[->|Hlt]]; [|done|]; exfalso.
  - assert (A * B <= (v - u) * (A * B)) by nia. lia.
  - assert (A * B <= (u - v) * (A * B)) by nia. lia.
Qed.

Lemma same_amount_parts a b :
  digits_only a -> digits_only b -> same_amount a b ->
  dec_value a.1 = dec_value b.1 /\ dec_value a.2 * 10 ^ zlen b.2 = dec_value b.2 * 10 ^ zlen a.2.
Proof.
  destruct a as [wa fa], b as [wb fb]. unfold digits_only, same_amount. cbn [fst snd]. rewrite !forallb_app. intros Ha Hb. zbool.
  rewrite !dec_value_app. intros E. pose proof (dec_value_bound fa ltac:(done)). pose proof (dec_value_bound fb ltac:(done)).
  pose proof (zlen_nonneg fa). pose proof (zlen_nonneg fb).
  assert (0 < 10 ^ zlen fa) by (apply Z.pow_pos_nonneg; lia). assert (0 < 10 ^ zlen fb) by (apply Z.pow_pos_nonneg; lia).
  by apply parts_unique.
Qed.

Lemma exact_fraction fa fb :
  forallb is_digit fa = true -> forallb is_digit fb = true -> fa = [] \/ leading (rev fa) ->
  dec_value fa * 10 ^ zlen fb = dec_value fb * 10 ^ zlen fa -> zlen fa <= zlen fb.
Proof.
  intros Ha Hb [->|L] E; [rewrite zlen_nil; apply zlen_nonneg|].
  destruct (decide (zlen fa <= zlen fb)) as [|Hgt]; [done|]. exfalso.
  destruct (rev fa) as [|x r] eqn:Er; [done|]. apply (f_equal (@rev byte)) in Er. rewrite rev_involutive in Er. cbn [rev] in Er. subst fa.
  rewrite forallb_app in Ha. cbn [forallb leading] in Ha, L. zbool. pose proof (digit_nonzero x ltac:(done) L).
  pose proof (digit_range x ltac:(done)). rewrite dec_value_snoc, zlen_app in *. change (zlen [x]) with 1 in *.
  pose proof (zlen_nonneg fb). set (d := zlen (rev r) - zlen fb).
  replace (zlen (rev r) + 1) with (zlen fb + (d + 1)) in E by lia.
  rewrite Z.pow_add_r, (Z.pow_add_r 10 d 1) in E by lia. assert (0 < 10 ^ zlen fb) by (apply Z.pow_pos_nonneg; lia).
  assert (dec_value (rev r) * 10 + (byte_to_Z x - 48) = dec_value fb * 10 ^ d * 10) by nia. lia.
Qed.

(** Two exact forms of one number are one text. *)
Lemma exact_form_unique a b :
  digits_only a -> digits_only b -> exact_form a -> exact_form b -> same_amount a b -> a = b.
Proof.
  intros Ha Hb [Ea Fa] [Eb Fb] Hs. destruct (same_amount_parts _ _ Ha Hb Hs) as [Vw Vf].
  destruct a as [wa fa], b as [wb fb]. unfold digits_only in *. cbn [fst snd] in *. rewrite forallb_app in Ha, Hb. zbool.
  f_equal.
  - assert (forall w, forallb is_digit w = true -> leading w -> dec_value w <> dec_value (ascii "0")) as Hpos.
    { intros w Hw Hl. pose proof (leading_bound w Hw Hl). destruct w as [|b w]; [done|]. rewrite zlen_cons in *.
      pose proof (zlen_nonneg w). assert (0 < 10 ^ (1 + zlen w - 1)) by (apply Z.pow_pos_nonneg; lia).
      change (dec_value (ascii "0")) with 0. lia. }
    destruct Ea as [->|La], Eb as [->|Lb]; [done| | |by apply leading_inj].
    + by destruct (Hpos wb).
    + by destruct (Hpos wa).
  - pose proof (exact_fraction fa fb ltac:(done) ltac:(done) Fa Vf).
    pose proof (exact_fraction fb fa ltac:(done) ltac:(done) Fb ltac:(done)).
    assert (zlen fa = zlen fb) as El by lia. apply dec_value_inj; try done. rewrite El in Vf.
    assert (0 < 10 ^ zlen fb) by (apply Z.pow_pos_nonneg; [lia|apply zlen_nonneg]). nia.
Qed.

Lemma typed_show a : digits_only a -> exact_form a -> typed_amount (show_amount a) = a.
Proof.
  intros Hd He. rewrite <- (split_point_show a Hd) at 2. unfold typed_amount. f_equal.
  assert (forall b rest, show_amount a = b :: rest -> bool_decide (b = x24) = false) as Hb.
  { intros b rest E. apply bool_decide_eq_false. intros ->. destruct a as [[|x w] f]; [by destruct He as [[[=]|[]] _]|].
    unfold digits_only in Hd. cbn in Hd. zbool. unfold show_amount in E. cbn [fst snd] in E.
    destruct (bool_decide _); injection E as -> _; done. }
  destruct (show_amount a) as [|b rest]; [done|]. by rewrite (Hb b rest).
Qed.

Lemma same_trans a b c :
  same_amount a b -> same_amount b c -> same_amount a c.
Proof.
  unfold same_amount. intros E1 E2. pose proof (zlen_nonneg b.2). assert (0 < 10 ^ zlen b.2) by (apply Z.pow_pos_nonneg; lia).
  apply (Z.mul_cancel_r _ _ (10 ^ zlen b.2)); [lia|].
  replace (dec_value (a.1 ++ a.2) * 10 ^ zlen c.2 * 10 ^ zlen b.2) with (dec_value (a.1 ++ a.2) * 10 ^ zlen b.2 * 10 ^ zlen c.2) by lia.
  rewrite E1. replace (dec_value (b.1 ++ b.2) * 10 ^ zlen a.2 * 10 ^ zlen c.2)
    with (dec_value (b.1 ++ b.2) * 10 ^ zlen c.2 * 10 ^ zlen a.2) by lia. rewrite E2. lia.
Qed.

Lemma same_sym a b : same_amount a b -> same_amount b a.
Proof. unfold same_amount. lia. Qed.

Lemma trim_zeros_leading l : leading l -> trim_zeros l = l.
Proof. destruct l as [|b l]; [done|]. cbn. intros Hn. by rewrite bool_decide_false. Qed.

Lemma show_parses a :
  digits_only a -> exact_form a -> a <> (ascii "0", []) -> parse_usd (show_amount a) = Ok (show_amount a).
Proof.
  intros Hd He Hn. unfold parse_usd. fold (typed_amount (show_amount a)). rewrite (typed_show a Hd He).
  destruct a as [w f]. destruct He as [Ew Ef]. unfold digits_only in Hd. cbn [fst snd] in *.
  rewrite Hd. cbn [negb]. rewrite orb_false_r.
  assert (w <> []) as Hw by (destruct Ew as [->|L]; [done|by destruct w]). rewrite (bool_decide_false (w = [])) by done. cbn [andb].
  assert (match trim_zeros w with [] => ascii "0" | l => l end = w) as Ew'.
  { destruct Ew as [->|L]; [reflexivity|]. rewrite (trim_zeros_leading _ L). by destruct w. }
  assert (trim_end_zeros f = f) as Ef'.
  { unfold trim_end_zeros. destruct Ef as [->|L]; [done|]. by rewrite (trim_zeros_leading _ L), rev_involutive. }
  rewrite Ew', Ef'. unfold show_amount. cbn [fst snd]. case_bool_decide as E1; case_bool_decide as E2; cbn [andb]; try done.
  subst. done.
Qed.

Lemma parse_usd_spec value s :
  parse_usd value = Ok s ->
  exists a, s = show_amount a /\ digits_only (typed_amount value) /\ digits_only a /\ exact_form a
    /\ same_amount (typed_amount value) a /\ a <> (ascii "0", []).
Proof.
  unfold parse_usd. fold (typed_amount value). destruct (typed_amount value) as [w f] eqn:Et.
  destruct (_ || _) eqn:Hg; [done|]. zbool. destruct (trimmed_amount w f) as (Hd & He & Hs); [done|].
  set (w' := match trim_zeros w with [] => _ | _ => _ end) in *. set (f' := trim_end_zeros f) in *.
  intros Hr. pass Hr by Hz. exists (w', f'). split_and!; try done.
  - unfold show_amount. cbn [fst snd]. destruct (bool_decide (f' = [])); by injection Hr as <-.
  - intros [= -> ->]. done.
Qed.

(** The value of an exact form is positive unless it is zero. *)
Lemma exact_positive a : digits_only a -> exact_form a -> a <> (ascii "0", []) -> 0 < dec_value (a.1 ++ a.2).
Proof.
  destruct a as [w f]. unfold digits_only. cbn [fst snd]. rewrite forallb_app, dec_value_app. intros Hd [Ew Ef] Hn. zbool. cbn [fst snd] in *.
  pose proof (dec_value_bound w ltac:(done)). pose proof (dec_value_bound f ltac:(done)). pose proof (zlen_nonneg f).
  assert (0 < 10 ^ zlen f) by (apply Z.pow_pos_nonneg; lia).
  destruct Ew as [->|Lw]; [destruct Ef as [->|Lf]; [done|]|].
  - destruct (decide (dec_value f = 0)) as [E0|]; [|nia]. exfalso.
    pose proof (exact_fraction f [] ltac:(done) ltac:(done) ltac:(by right)) as Hx.
    rewrite E0 in Hx. change (dec_value []) with 0 in Hx. specialize (Hx ltac:(lia)). rewrite zlen_nil in Hx.
    assert (f = []) as -> by (apply zlen_0_nil; lia). done.
  - pose proof (leading_bound w ltac:(done) Lw). destruct w as [|b w]; [done|]. rewrite zlen_cons in *.
    pose proof (zlen_nonneg w). assert (0 < 10 ^ (1 + zlen w - 1)) by (apply Z.pow_pos_nonneg; lia). nia.
Qed.

(** Amounts are sent exactly: an accepted amount is a positive decimal, the text sent has the same
    value, no leading and no trailing zeros, and reads as itself; and any two accepted ways of
    typing one amount give one text. *)
Theorem amounts_exact value s :
  parse_usd value = Ok s ->
  same_amount (typed_amount value) (typed_amount s) /\ exact_form (typed_amount s)
  /\ 0 < dec_value ((typed_amount s).1 ++ (typed_amount s).2) /\ parse_usd s = Ok s
  /\ forall value' s', parse_usd value' = Ok s' -> same_amount (typed_amount value) (typed_amount value') -> s' = s.
Proof.
  intros Hp. destruct (parse_usd_spec _ _ Hp) as (a & -> & Hv & Hd & He & Hs & Hn).
  assert (typed_amount (show_amount a) = a) as Ha by (by apply typed_show).
  rewrite Ha. split_and!; [done|done|by apply exact_positive| |].
  - by apply show_parses.
  - intros value' s' Hp' Hsame. destruct (parse_usd_spec _ _ Hp') as (a' & -> & Hv' & Hd' & He' & Hs' & _).
    f_equal. apply exact_form_unique; try done.
    eapply same_trans; [by apply same_sym|]. eapply same_trans; [by apply same_sym|done].
Qed.

(** ** Rounding *)

(** Half up to whole cents. *)
Definition rounded_cents (a : bytes * bytes) : Z :=
  (2 * 100 * dec_value (a.1 ++ a.2) + 10 ^ zlen a.2) / (2 * 10 ^ zlen a.2).

Lemma parse_unsigned_digits max l :
  l <> [] -> forallb is_digit l = true -> parse_unsigned max l = if dec_value l <=? max then Some (dec_value l) else None.
Proof.
  intros Hn Hd. unfold parse_unsigned, parse_digits. destruct l as [|b l]; [done|]. assert (bool_decide (b = x2b) = false) as Hb.
  { apply bool_decide_eq_false. by intros ->. }
  assert (match l with [] => b :: l | _ :: _ => if bool_decide (b = x2b) then l else b :: l end = b :: l) as ->
    by (destruct l; by rewrite ?Hb).
  rewrite Hd, (proj2 (Z.ltb_lt 0 _)); [done|]. rewrite zlen_cons. pose proof (zlen_nonneg l). lia.
Qed.

(** A fraction of at least three digits: two of them, the one that decides, and the rest. *)
Lemma round_fraction w a b c rest :
  0 <= w -> forallb is_digit (a :: b :: c :: rest) = true ->
  (2 * 100 * (w * 10 ^ zlen (a :: b :: c :: rest) + dec_value (a :: b :: c :: rest)) + 10 ^ zlen (a :: b :: c :: rest))
    / (2 * 10 ^ zlen (a :: b :: c :: rest))
  = w * 100 + (dec_value [a; b] + (if 53 <=? byte_to_Z c then 1 else 0)).
Proof.
  intros Hw Hd. change (a :: b :: c :: rest) with ([a; b] ++ [c] ++ rest). rewrite !dec_value_app, !zlen_app.
  change (zlen [a; b]) with 2. change (zlen [c]) with 1. change (dec_value [c]) with (byte_to_Z c - 48).
  cbn [forallb] in Hd. zbool. pose proof (dec_value_bound rest ltac:(done)) as Hr. pose proof (zlen_nonneg rest).
  rewrite !Z.pow_add_r by lia. set (R := 10 ^ zlen rest) in *. set (x := dec_value [a; b]). set (r := dec_value rest) in *.
  change (10 ^ 2) with 100. change (10 ^ 1) with 10. pose proof (digit_range c ltac:(done)).
  symmetry. apply Z.div_unique with
    (r := 200 * ((byte_to_Z c - 48) * R + r) + 1000 * R - (if 53 <=? byte_to_Z c then 2000 * R else 0)).
  - left. destruct (53 <=? byte_to_Z c) eqn:E; zbool; split; nia.
  - destruct (53 <=? byte_to_Z c); lia.
Qed.

Lemma rounded_pad w f : rounded_cents (w, pad3 f) = rounded_cents (w, f).
Proof.
  unfold rounded_cents, pad3. cbn [fst snd]. rewrite app_assoc, dec_value_app, dec_value_zeros, zlen_app, Z.add_0_r.
  set (z := zlen (replicate (3 - length f) x30)). pose proof (zlen_nonneg f). assert (0 <= z) by apply zlen_nonneg.
  rewrite Z.pow_add_r by lia. assert (0 < 10 ^ z) by (apply Z.pow_pos_nonneg; lia).
  assert (0 < 10 ^ zlen f) by (apply Z.pow_pos_nonneg; lia).
  rewrite <- (Z.div_mul_cancel_r _ (2 * 10 ^ zlen f) (10 ^ z)) by lia. f_equal; lia.
Qed.

(** Shown amounts are rounded half up, with no intermediate error: [cents] of a text is nothing unless
    it is a decimal with a whole part, and then exactly the amount in cents rounded half up,
    or nothing when that exceeds 128 bits. *)
Theorem cents_rounds amount :
  cents amount =
  let a := split_point amount in
  if bool_decide (a.1 = []) || negb (forallb is_digit (a.1 ++ a.2)) then None else checked_u128 (rounded_cents a).
Proof.
  unfold cents. destruct (split_point amount) as [w f]. cbn [fst snd]. destruct (_ || _) eqn:Hg; [done|]. zbool.
  rewrite forallb_app in *. zbool. rewrite <- rounded_pad.
  assert (forallb is_digit (pad3 f) = true) as Hp by (unfold pad3; rewrite forallb_app, digits_zeros; by rewrite andb_true_r).
  assert (exists a b c rest, pad3 f = a :: b :: c :: rest) as (a & b & c & rest & E).
  { unfold pad3. by destruct f as [|a [|b [|c rest]]]; cbn; eauto. }
  rewrite E in *. cbn [nth take]. pose proof (dec_value_bound w ltac:(done)).
  unfold rounded_cents. cbn [fst snd]. rewrite dec_value_app, round_fraction by (lia || done).
  assert (forallb is_digit [a; b] = true) as Hab by (cbn [forallb] in *; zbool; by rewrite !andb_true_iff).
  rewrite (parse_unsigned_digits _ w), (parse_unsigned_digits _ [a; b]) by done.
  pose proof (dec_value_bound [a; b] Hab) as Hx. change (10 ^ zlen [a; b]) with 100 in Hx.
  unfold checked_u128. destruct (dec_value w <=? u128_max) eqn:Ew; cbn [mbind option_bind].
  - destruct (dec_value w * 100 <=? u128_max) eqn:Eh; cbn [mbind option_bind].
    + rewrite (proj2 (Z.leb_le (dec_value [a; b]) _)); [done|]. unfold u128_max. lia.
    + zbool. rewrite (proj2 (Z.leb_gt _ _)); [done|]. destruct (_ <=? _); lia.
  - zbool. rewrite (proj2 (Z.leb_gt _ _)); [done|]. destruct (_ <=? _); lia.
Qed.

(** ** Organizations *)

(** An organization stays one path segment: an accepted identifier has 36 bytes, all of them
    lower-case hexadecimal digits and hyphens, so none that ends a segment, and reads as itself. *)
Theorem organization_segment value id :
  parse_organization value = Some id ->
  zlen id = 36 /\ Forall (fun b => (is_hexdigit b = true /\ ascii_lower b = b) \/ b = x2d) id /\ parse_organization id = Some id.
Proof.
  unfold parse_organization. destruct (_ && _) eqn:E; [|done]. intros [= <-]. zbool. rename H into Hl, H0 into Hz.
  assert (forall b, is_hexdigit (ascii_lower b) = is_hexdigit b) as Hhex by (by intros []).
  assert (forall b, bool_decide (ascii_lower b = x2d) = bool_decide (b = x2d)) as Hdash by (by intros []).
  assert (forall b, ascii_lower (ascii_lower b) = ascii_lower b) as Hidem by (by intros []).
  assert (forall n l, forallb (fun '(i, b) => uuid_byte i b) (zip (seq n (length l)) l) = true ->
    forallb (fun '(i, b) => uuid_byte i b) (zip (seq n (length l)) (ascii_lower <$> l)) = true
    /\ Forall (fun b => (is_hexdigit b = true /\ ascii_lower b = b) \/ b = x2d) (ascii_lower <$> l)) as Hall.
  { intros n l. revert n. induction l as [|b l IH]; intros n; cbn; [done|]. intros Hb. zbool.
    destruct (IH (S n) ltac:(done)) as [-> Hf]. unfold uuid_byte in *. rewrite Hdash, Hhex.
    destruct (bool_decide (n ∈ _)); (split; [by rewrite andb_true_r|constructor; [|done]]).
    - right. zbool. by subst b.
    - left. by rewrite Hhex, Hidem. }
  destruct (Hall O value Hz) as [Hz' Hf]. unfold zlen. rewrite length_fmap. split_and!; [done|done|].
  fold (zlen value). rewrite Hl, Hz'. cbn [andb Z.eqb]. rewrite Pos.eqb_refl. f_equal.
  rewrite <- list_fmap_compose. apply list_fmap_ext. intros i b _. apply Hidem.
Qed.

(** ** Assets *)

(** A choice is never a guess: an asset is chosen only when it is the single offered one with the
    currency's symbol and, when a network is given, with that chain or network name, ignoring
    case. *)
Theorem choice_unambiguous assets currency network asset :
  let fits a := eq_ignore_ascii_case (as_symbol a) currency
    && match network with
       | Some n => eq_ignore_ascii_case (as_chain a) n || eq_ignore_ascii_case (as_network a) n
       | None => true
       end in
  choose assets currency network = Ok asset <-> List.filter fits assets = [asset].
Proof.
  intros fits. unfold choose.
  assert (List.filter fits assets = match network with
    | Some n => List.filter (fun a => eq_ignore_ascii_case (as_chain a) n || eq_ignore_ascii_case (as_network a) n)
        (List.filter (fun a => eq_ignore_ascii_case (as_symbol a) currency) assets)
    | None => List.filter (fun a => eq_ignore_ascii_case (as_symbol a) currency) assets end) as ->.
  { destruct network as [n|]; unfold fits; induction assets as [|a l IH]; cbn; try done;
      destruct (eq_ignore_ascii_case (as_symbol a) currency); cbn; rewrite IH; try done; by destruct (_ || _). }
  case_bool_decide as E.
  - apply nil_length_inv in E. rewrite E. by destruct network.
  - destruct (match network with Some _ => _ | None => _ end) as [|x [|y l]]; split; try done; congruence.
Qed.

(** * Theory of the command

    A top-up stops only for its own payment, asks for a location only as often as the user
    answers, and sends the typed amount to the dashboard and nowhere else. *)

Section TopupTheory.
Context `{Json} `{Encodings} `{Pbkdf2} `{Urls} `{Terminal}.

(** ** Requests *)

#[local] Hint Resolve keychain_along println_along stdin_along send_along json_along read_line_along : io.

Lemma payments_along d base : of_origin d -> along advances (payments d base).
Proof. intros Ho. unfold payments, get. follow. Qed.

Lemma report_along l reported : along advances (report l reported).
Proof. revert reported. induction l as [|p l IH]; intros reported; cbn [report]; follow. Qed.

#[local] Hint Resolve payments_along report_along : io.

Lemma wait_loop_along checks d base expected earlier reported :
  of_origin d -> along advances (wait_loop checks d base expected earlier reported).
Proof. intros Ho. revert reported. induction checks as [|n IH]; intros reported; cbn [wait_loop]; follow. Qed.

Lemma ask_issues_along e issues asked profile : along advances (ask_issues e issues asked profile).
Proof.
  revert asked profile. induction issues as [|issue issues IH]; intros asked profile; cbn [ask_issues]; unfold io_panic; follow.
Qed.

#[local] Hint Resolve wait_loop_along ask_issues_along : io.

Lemma location_loop_along fuel d path profile : of_origin d -> along advances (location_loop fuel d path profile).
Proof. intros Ho. revert profile. induction fuel as [|n IH]; intros profile; cbn [location_loop]; unfold put; follow. Qed.

Lemma set_location_along d base : of_origin d -> along advances (set_location d base).
Proof.
  intros Ho. unfold set_location, get, with_address, io_panic. follow. intros w w' r. by apply location_loop_along.
Qed.

Lemma with_location_along {T} d base (m : Io T) : of_origin d -> along advances m -> along advances (with_location d base m).
Proof. intros Ho Hm. pose proof (set_location_along d base Ho). unfold with_location. follow. Qed.

Lemma print_qr_along terminal text : along advances (print_qr terminal text).
Proof. unfold print_qr. follow. Qed.
Lemma print_if_along c line : along advances (print_if c line).
Proof. unfold print_if. follow. Qed.
Lemma print_instructions_along symbol network address estimate :
  along advances (print_instructions symbol network address estimate).
Proof. unfold print_instructions. follow. Qed.

#[local] Hint Resolve print_qr_along print_if_along print_instructions_along with_location_along : io.

Lemma btcpay_along terminal d base method amount : of_origin d -> along advances (btcpay terminal d base method amount).
Proof. intros Ho. unfold btcpay, post. follow. Qed.
Lemma ccpayment_along terminal d base currency network amount :
  of_origin d -> along advances (ccpayment terminal d base currency network amount).
Proof. intros Ho. unfold ccpayment, get, post. follow. Qed.

(** A top-up talks to the dashboard's API and to nothing else, whatever the server answers and the
    user types. *)
Theorem topup_confined checks terminal args w w' r :
  topup_run checks terminal args w = (w', r) -> exists new, w_sent w' = w_sent w ++ new /\ Forall confined new.
Proof.
  assert (along advances (topup_run checks terminal args)) as Ha.
  { unfold topup_run. destruct (_ && _); [follow|]. apply (along_after _ of_origin); [apply signed_in_along|apply signed_in_origin|].
    intros d Ho. pose proof (btcpay_along terminal d). pose proof (ccpayment_along terminal d). unfold wait. follow. }
  intros Hr. by destruct (Ha _ _ _ Hr).
Qed.

(** ** The wait *)

(** A payment that a page of the server lists: the requests so far, the last of them for the page. *)
Definition page_lists (w : World) (sent : list Sent) (p : Payment) : Prop :=
  exists text page, reply_body (w_server w sent) = Ok text
    /\ from_text (Vec_from_value (ascii "items") Payment_from_value) text = Some page /\ p ∈ page.

(** What a check may report and stop for. *)
Definition own_payment (expected : Expected) (earlier : list bytes) (w w' : World) (p : Payment) : Prop :=
  expected_payment expected earlier p = true
  /\ exists sent rest, w_sent w' = sent ++ rest /\ page_lists w sent p.

Lemma report_spec l reported w w' r :
  report l reported w = (w', r) ->
  w_sent w' = w_sent w /\ w_server w' = w_server w
  /\ (exists lines, w_stdout w' = w_stdout w ++ lines /\ Forall (fun line => exists p, p ∈ l /\ line = describe p) lines)
  /\ exists reported' decided, r = Ok (reported', decided)
     /\ match decided with
        | None => True
        | Some (Ok _) => exists p, p ∈ l /\ py_credit_status p = ascii "credited"
        | Some (Err _) => exists p, p ∈ l /\ py_credit_status p ∈ [ascii "not_creditable"; ascii "review_required"]
        end.
Proof.
  revert reported w. induction l as [|p l IH]; intros reported w; cbn [report].
  { intros [= <- <-]. split_and!; try done; [exists []; by rewrite app_nil_r|]. by eexists _, None. }
  unfold io_bind at 1.
  set (first := if bool_decide _ then _ else _). assert (exists reported1 w1, first w = (w1, Ok reported1)
    /\ w_sent w1 = w_sent w /\ w_server w1 = w_server w
    /\ exists lines, w_stdout w1 = w_stdout w ++ lines /\ Forall (fun line => line = describe p) lines)
    as (reported1 & w1 & -> & Hs & Hv & lines & Ho & Hl).
  { unfold first. destruct (bool_decide _).
    - eexists _, w. split_and!; try done. exists []. by rewrite app_nil_r.
    - eexists _, _. split; [done|]. split_and!; try done. exists [describe p]. split; [done|]. by repeat constructor. }
  assert (Forall (fun line => exists q, q ∈ p :: l /\ line = describe q) lines) as Hl'
    by (eapply Forall_impl; [done|]; cbn; intros ? ->; exists p; split; [left|done]).
  case_bool_decide as Hc; [|case_bool_decide as Hn].
  - intros [= <- <-]. split_and!; try done; [by exists lines|]. eexists _, _. split; [done|]. exists p. split; [left|done].
  - intros [= <- <-]. split_and!; try done; [by exists lines|]. eexists _, _. split; [done|]. cbn. exists p. split; [left|done].
  - intros (E1 & E2 & (more & E3 & Hf) & reported' & decided & -> & Hd)%IH.
    split_and!; [congruence|congruence| |].
    + exists (lines ++ more). split; [by rewrite E3, Ho, app_assoc|]. apply Forall_app. split; [done|].
      eapply Forall_impl; [done|]. cbn. intros line (q & Hq & ->). exists q. split; [by right|done].
    + exists reported', decided. split; [done|]. destruct decided as [[?|?]|]; try done;
        destruct Hd as (q & Hq & ?); exists q; (split; [by right|done]).
Qed.

Lemma payments_spec d base w w' r :
  payments d base w = (w', r) ->
  w_stdout w' = w_stdout w /\ w_server w' = w_server w /\ (exists rest, w_sent w' = w_sent w ++ rest)
  /\ (forall page p, r = Ok page -> p ∈ page -> page_lists w (w_sent w') p).
Proof.
  unfold payments, get, dashboard_json, io_bind. destruct (send _ _ _ _ w) as [w1 r1] eqn:Hs.
  apply dashboard_send_spec in Hs as [[-> [e ->]]|(url & Hu & -> & Hr)].
  - intros [= <- <-]. split_and!; try done. exists []. by rewrite app_nil_r.
  - destruct r1 as [text|e]; intros [= <- <-]; (split_and!; [done|done|by eexists|]); [|done].
    intros page p Hok Hp. apply ok_or_ok in Hok. exists text, page. split; [by rewrite Hr|done].
Qed.

Lemma wait_loop_sent checks d base expected earlier reported w w' r :
  wait_loop checks d base expected earlier reported w = (w', r) -> exists rest, w_sent w' = w_sent w ++ rest.
Proof.
  revert reported w. induction checks as [|n IH]; intros reported w; cbn [wait_loop].
  { intros [= <- <-]. exists []. by rewrite app_nil_r. }
  unfold io_bind at 1, io_try. destruct (payments d base w) as [w1 found] eqn:Hp.
  apply payments_spec in Hp as (_ & _ & [rest1 Hs1] & _). destruct found as [page|e].
  - unfold io_bind at 1. destruct (report _ reported w1) as [w2 r2] eqn:Hrep.
    apply report_spec in Hrep as (Hs2 & _ & _ & reported' & decided & -> & _). destruct decided as [r'|].
    + intros [= <- <-]. exists rest1. congruence.
    + intros [rest Hs]%IH. exists (rest1 ++ rest). by rewrite Hs, Hs2, Hs1, app_assoc.
  - destruct (transient e).
    + intros [rest Hs]%IH. exists (rest1 ++ rest). by rewrite Hs, Hs1, app_assoc.
    + intros [= <- <-]. by exists rest1.
Qed.

Lemma own_payment_later expected earlier w w1 w' rest p :
  w_sent w' = w_sent w1 ++ rest -> own_payment expected earlier w w1 p -> own_payment expected earlier w w' p.
Proof.
  intros E (He & sent & more & Es & Hp). split; [done|]. exists sent, (more ++ rest). by rewrite E, Es, app_assoc.
Qed.

Lemma own_payment_from expected earlier w w1 w' p :
  w_server w1 = w_server w -> own_payment expected earlier w1 w' p -> own_payment expected earlier w w' p.
Proof. intros Hv (He & sent & rest & Es & text & page & Hr & Hp). rewrite Hv in Hr. by split; [|exists sent, rest; split; [|exists text, page]]. Qed.

(** A wait ends only for its own payment: it reports nothing but payments that a page of the server
    lists, that no earlier page listed, and that have exactly the expected provider, currency
    and method; it succeeds only when such a payment is credited, and otherwise ends only for
    one that cannot be credited or needs a review, or for a refusal that is not transient. *)
Theorem wait_own_payment checks d base expected earlier reported w w' r :
  wait_loop checks d base expected earlier reported w = (w', r) ->
  (exists lines, w_stdout w' = w_stdout w ++ lines
     /\ Forall (fun line => exists p, own_payment expected earlier w w' p /\ line = describe p) lines)
  /\ match r with
     | Ok _ => exists p, own_payment expected earlier w w' p /\ py_credit_status p = ascii "credited"
     | Err Any_running => True
     | Err e => transient e = false
         \/ exists p, own_payment expected earlier w w' p
              /\ py_credit_status p ∈ [ascii "not_creditable"; ascii "review_required"]
     end.
Proof.
  revert reported w. induction checks as [|n IH]; intros reported w; cbn [wait_loop].
  { intros [= <- <-]. split; [|done]. exists []. by rewrite app_nil_r. }
  unfold io_bind at 1, io_try. destruct (payments d base w) as [w1 found] eqn:Hp.
  apply payments_spec in Hp as (Ho1 & Hv1 & [rest1 Hs1] & Hpage). destruct found as [page|e].
  2: { destruct (transient e) eqn:Ht.
       - intros Hr. pose proof (wait_loop_sent _ _ _ _ _ _ _ _ _ Hr) as [rest Hs]. apply IH in Hr as [(lines & El & Hf) Hm]. split.
         + exists lines. rewrite El, Ho1. split; [done|]. eapply Forall_impl; [done|]. cbn. intros line (p & Hown & ->).
           exists p. split; [|done]. by eapply own_payment_from.
         + destruct r as [[]|[]]; try done; naive_solver eauto using own_payment_from.
       - intros [= <- <-]. split; [exists []; by rewrite Ho1, app_nil_r|]. by destruct e; try (by left). }
  unfold io_bind at 1. destruct (report _ reported w1) as [w2 r2] eqn:Hrep.
  apply report_spec in Hrep as (Hs2 & Hv2 & (lines & Ho2 & Hl) & reported' & decided & -> & Hd).
  assert (forall p, p ∈ List.filter (expected_payment expected earlier) page -> own_payment expected earlier w w2 p) as Hown.
  { intros p Hin. apply list_elem_of_In, filter_In in Hin as [Hin He]. apply list_elem_of_In in Hin. split; [done|].
    exists (w_sent w1), []. rewrite app_nil_r. split; [done|]. by eapply Hpage. }
  destruct decided as [r'|].
  - intros [= <- <-]. split.
    + exists lines. rewrite Ho2, Ho1. split; [done|]. eapply Forall_impl; [done|]. cbn. naive_solver.
    + destruct r' as [[]|e]; [naive_solver|]. destruct e; try done; right; naive_solver.
  - intros Hr. pose proof (wait_loop_sent _ _ _ _ _ _ _ _ _ Hr) as [rest Hs]. apply IH in Hr as [(more & El & Hf) Hm].
    assert (forall p, own_payment expected earlier w2 w' p -> own_payment expected earlier w w' p) as Hlift
      by (intros p; apply own_payment_from; congruence).
    split.
    + exists (lines ++ more). rewrite El, Ho2, Ho1, app_assoc. split; [done|]. apply Forall_app. split.
      * eapply Forall_impl; [done|]. cbn. intros line (p & Hin & ->). exists p. split; [|done].
        eapply own_payment_later; [done|by apply Hown].
      * eapply Forall_impl; [done|]. cbn. naive_solver.
    + destruct r as [[]|[]]; naive_solver.
Qed.

(** ** The location *)

Lemma take_line_spec l : l = (take_line l).1 ++ (take_line l).2.
Proof.
  induction l as [|b l IH]; [done|]. cbn [take_line]. destruct (bool_decide _); [done|].
  destruct (take_line l) as [line rest]. cbn in *. by rewrite IH.
Qed.

(** A line that is read is taken off standard input; no other step adds to it. *)
Lemma read_line_consumes prompt w w' r :
  read_line prompt w = (w', r) ->
  r <> Err Any_running /\ (length (w_stdin w') <= length (w_stdin w))%nat
  /\ (forall line, r = Ok line -> (length (w_stdin w') < length (w_stdin w))%nat).
Proof.
  unfold read_line, io_bind, read_stdin_line. pose proof (take_line_spec (w_stdin w)) as E.
  destruct (take_line (w_stdin w)) as [line rest]. cbn [fst snd] in E. apply (f_equal length) in E. rewrite length_app in E.
  unfold from_utf8, other. destruct (forallb _ _).
  - case_bool_decide as Hn; intros [= <- <-]; cbn; (split; [done|]); (split; [lia|]); [done|].
    intros _ _. destruct line; [done|]. cbn in E. lia.
  - intros [= <- <-]. cbn. split; [done|]. split; [lia|done].
Qed.

Lemma send_stdin d method path body w w' r :
  send d method path body w = (w', r) -> w_stdin w' = w_stdin w /\ r <> Err Any_running.
Proof.
  intros Hs. assert (w_stdin w' = w_stdin w) as E by (by apply dashboard_send_spec in Hs as [[-> _]|(url & _ & -> & _)]).
  split; [done|]. revert Hs. unfold send, dashboard_url, other.
  destruct (negb (has_prefix _ path)); [by intros [= _ <-]|]. destruct (url_join _ _); cbn [ok_or]; [|by intros [= _ <-]].
  destruct (_ || _); [by intros [= _ <-]|]. destruct (forallb _ _); [|by intros [= _ <-]]. intros [= _ <-].
  unfold reply_body, other. destruct (w_server _ _) as [|status chunks whole]; [done|].
  assert (forall b, collect_response b chunks whole <> Err Any_running) as Hb.
  { induction chunks as [|c l IH]; intros b; cbn [collect_response]; unfold other; [by destruct whole|]. by destruct (_ <? _). }
  destruct (collect_response [] chunks whole) as [text|e] eqn:Er; [by destruct (is_success status)|].
  intros [= ->]. by destruct (Hb []).
Qed.

Lemma json_stdin {T} (read : bytes -> option T) d method path body w w' r :
  dashboard_json read d method path body w = (w', r) -> w_stdin w' = w_stdin w /\ r <> Err Any_running.
Proof.
  unfold dashboard_json, io_bind. destruct (send _ _ _ _ w) as [w1 [text|e]] eqn:Hs; apply send_stdin in Hs as [E Hn].
  - intros [= <- <-]. split; [done|]. by destruct (read text).
  - intros [= <- <-]. split; [done|]. naive_solver.
Qed.

Lemma ask_issues_consumes e issues asked profile w w' r :
  e <> Any_running -> ask_issues e issues asked profile w = (w', r) ->
  r <> Err Any_running /\ (length (w_stdin w') <= length (w_stdin w))%nat
  /\ (forall out, r = Ok out -> asked = [] -> issues <> [] -> (length (w_stdin w') < length (w_stdin w))%nat).
Proof.
  intros He. revert asked profile w. induction issues as [|issue issues IH]; intros asked profile w; cbn [ask_issues].
  { intros [= <- <-]. split_and!; [done|lia|done]. }
  destruct (location_field _) as [[name prompt]|]; [|intros [= <- <-]; split_and!; [naive_solver|lia|done]].
  case_bool_decide as Hin.
  { intros (Hn & Hl & _)%IH. split_and!; try done. intros ? _ ->. by apply not_elem_of_nil in Hin. }
  unfold io_bind at 1. destruct (read_line prompt w) as [w1 [value|e1]] eqn:Hr; apply read_line_consumes in Hr as (Hn & Hl & Hlt).
  2: { intros [= <- <-]. split_and!; [naive_solver|done|done]. }
  specialize (Hlt _ eq_refl). unfold io_fail, io_panic, io_bind, io_of, other.
  case_bool_decide; [intros [= <- <-]; split_and!; [done|lia|done]|].
  destruct (value_set _ name _) as [address|]; cbn [ok_or]; [|intros [= <- <-]; split_and!; [done|lia|done]].
  destruct (value_set _ _ _) as [profile'|]; cbn [ok_or]; [|intros [= <- <-]; split_and!; [done|lia|done]].
  intros (Hn' & Hl' & _)%IH. split_and!; [done|lia|]. intros. lia.
Qed.

Lemma location_loop_ends fuel d path profile w w' r :
  (length (w_stdin w) < fuel)%nat -> location_loop fuel d path profile w = (w', r) -> r <> Err Any_running.
Proof.
  revert profile w. induction fuel as [|fuel IH]; intros profile w Hf; [lia|]. cbn [location_loop].
  unfold io_bind at 1, io_try, put. destruct (dashboard_json _ _ _ _ _ w) as [w1 r1] eqn:Hp. apply json_stdin in Hp as [Es Hn].
  destruct r1 as [v|e]; [by intros [= _ <-]|]. destruct e as [refused| | |]; try by intros [= _ <-].
  destruct (_ && _) eqn:Hg; [|by intros [= _ <-]]. zbool. unfold io_bind.
  destruct (ask_issues _ _ _ _ w1) as [w2 [profile'|e]] eqn:Ha; apply ask_issues_consumes in Ha as (Ha & Hl & Hlt); try done.
  - apply IH. specialize (Hlt _ eq_refl eq_refl). rewrite Es in *. destruct (ae_issues refused); [done|]. specialize (Hlt ltac:(done)). lia.
  - intros [= _ <-]. naive_solver.
Qed.

(** Asking for the billing location ends: every round that goes on has read a line of the user, so
    whatever the server refuses the dialogue stops, at the latest with the input. *)
Theorem location_ends d base w w' r : set_location d base w = (w', r) -> r <> Err Any_running.
Proof.
  unfold set_location, io_bind at 1, get. destruct (dashboard_json _ _ _ _ _ w) as [w1 r1] eqn:Hg. apply json_stdin in Hg as [_ Hn].
  destruct r1 as [profile|e]; [|intros [= _ <-]; naive_solver].
  unfold io_bind. destruct (with_address _ w1) as [w2 [profile'|e]] eqn:Hp.
  - apply location_loop_ends. lia.
  - intros [= _ <-] [= ->]. revert Hp. unfold with_address, io_panic, io_of, io_ret. destruct (value_index _ _); try done.
    by destruct (value_set _ _ _).
Qed.
End TopupTheory.

(** ** The amount *)

Section Amount.
Context `{Json} `{Encodings} `{Pbkdf2} `{Urls} `{Terminal} (amount : bytes).

(** A request that is posted asks for the amount. *)
Definition asks_amount (s : Sent) : Prop :=
  se_method s = ascii "POST" -> (se_body s ≫= fun v => value_get v (ascii "desiredCreditUsd")) = Some (JString amount).

Definition asking (w w' : World) : Prop := exists new, w_sent w' = w_sent w ++ new /\ Forall asks_amount new.

#[local] Instance asking_preorder : PreOrder asking.
Proof.
  split; [intros w; exists []; by rewrite app_nil_r|]. intros a b c (n1 & E1 & F1) (n2 & E2 & F2). exists (n1 ++ n2).
  rewrite E2, E1, app_assoc. split; [done|by apply Forall_app].
Qed.

Lemma asking_quiet w w' : w_sent w' = w_sent w -> asking w w'.
Proof. intros E. exists []. by rewrite app_nil_r. Qed.

Lemma asking_keychain {T} (action : option bytes -> option bytes * T) : along asking (keychain action).
Proof.
  intros w w' r. unfold keychain. destruct (w_keychain w) as [entry|]; [|by intros [= <- <-]].
  destruct (w_fault _ _); [|destruct (action entry)]; intros [= <- <-]; by apply asking_quiet.
Qed.
Lemma asking_println line : along asking (println line).
Proof. intros w w' r [= <- <-]. by apply asking_quiet. Qed.
Lemma asking_read_line prompt : along asking (read_line prompt).
Proof. intros w w' r Hr%read_line_sent. by apply asking_quiet. Qed.
Lemma asking_json {T} (read : bytes -> option T) d method path body :
  (forall url token, asks_amount (mkSent method url token body)) -> along asking (dashboard_json read d method path body).
Proof.
  intros Hp. unfold dashboard_json. follow. intros w w' r [[-> _]|(url & _ & -> & _)]%dashboard_send_spec; [done|].
  eexists. split; [done|]. by repeat constructor.
Qed.
Lemma asking_get {T} (read : bytes -> option T) d path : along asking (get read d path).
Proof. by apply asking_json. Qed.
Lemma asking_put {T} (read : bytes -> option T) d path body : along asking (put read d path body).
Proof. by apply asking_json. Qed.

#[local] Hint Resolve asking_keychain asking_println asking_read_line asking_get asking_put : io.

Lemma asking_report l reported : along asking (report l reported).
Proof. revert reported. induction l as [|p l IH]; intros reported; cbn [report]; follow. Qed.
#[local] Hint Resolve asking_report : io.
Lemma asking_wait checks d base expected earlier reported : along asking (wait_loop checks d base expected earlier reported).
Proof. revert reported. induction checks as [|n IH]; intros reported; cbn [wait_loop]; unfold payments; follow. Qed.
Lemma asking_issues e issues asked profile : along asking (ask_issues e issues asked profile).
Proof. revert asked profile. induction issues as [|i l IH]; intros asked profile; cbn [ask_issues]; unfold io_panic; follow. Qed.
#[local] Hint Resolve asking_wait asking_issues : io.
Lemma asking_location fuel d path profile : along asking (location_loop fuel d path profile).
Proof. revert profile. induction fuel as [|n IH]; intros profile; cbn [location_loop]; follow. Qed.
Lemma asking_set_location d base : along asking (set_location d base).
Proof. unfold set_location, with_address, io_panic. follow. intros w w' r. by apply asking_location. Qed.
#[local] Hint Resolve asking_set_location : io.
Lemma asking_with_location {T} d base (m : Io T) : along asking m -> along asking (with_location d base m).
Proof. intros Hm. unfold with_location. follow. Qed.

Lemma asking_deposit {T} (read : bytes -> option T) d base path fields :
  value_get (JObject fields) (ascii "desiredCreditUsd") = Some (JString amount) ->
  along asking (with_location d base (post read d path (JObject fields))).
Proof. intros Hf. apply asking_with_location, asking_json. intros url token _. done. Qed.

Lemma asking_printing :
  (forall terminal text, along asking (print_qr terminal text)) /\ (forall c line, along asking (print_if c line))
  /\ forall symbol network address estimate, along asking (print_instructions symbol network address estimate).
Proof. split_and!; intros; unfold print_qr, print_if, print_instructions; follow. Qed.

(** The dashboard is asked for exactly the typed credit: every request that a top-up posts carries the
    amount of the command line as it was parsed, for either processor and also when it is sent
    again after the billing location was set. *)
Theorem topup_amount checks terminal args w w' r :
  ta_amount args = amount -> topup_run checks terminal args w = (w', r) ->
  exists new, w_sent w' = w_sent w ++ new /\ Forall asks_amount new.
Proof.
  intros Ea Hr. destruct asking_printing as (Hq & Hi & Hp). pose proof (@asking_deposit).
  assert (along asking (topup_run checks terminal args)) as Ha; [|by eapply Ha].
  unfold topup_run, signed_in, wait, btcpay, ccpayment, payments. rewrite Ea. follow.
  all: try (by apply asking_deposit).
  intros w1 w2 r1. unfold token. destruct (w_variable w1); [|by intros [= <- <-]..].
  revert w1 w2 r1. change (along asking stored). unfold stored. follow.
Qed.
End Amount.
