(* ===== verification/GatewayAbi.v ===== *)
(** The C interface of the gateway ([ffi/src/gateway.rs] and [ffi/src/gateway/channel.rs]): pointers,
    owners and buffers over the operations of [gateway.rs] and of the server's channel.

    Memory maps addresses to what the caller or the library put there. An access outside its
    documented contract is undefined behaviour, which ends a run without a result; so does every
    use of an owner after it was freed. That the caller keeps outputs disjoint is part of the contracts; what an
    overlap would do is not represented. Nothing here panics, so the status 255 does not occur. *)

From S2P Require Import Prelude Primitives BTree Record RecordTheory RecordSafety Ratchet Session Setup Json Text Signing Attestation Receipt Provisioning Documents.
From S2P Require Import Sse Approvals Snp Amd Certificates Collateral Snapshot Boot.

Open Scope Z_scope.

(** ** Memory *)

Abbreviation Ptr := (option nat).

(** The owners behind handles. A verifier and the snapshots it installed share what was learned, which lives at an
    address of its own as long as any of them does. *)
Inductive AbiOwner `{Sigstore} :=
| Ow_keys (k : NodeKeys)
| Ow_tls (k : TlsKey)
| Ow_session (s : ServerSession)
| Ow_reader (r : ServerReader)
| Ow_writer (w : ServerWriter)
| Ow_verifier (shared : nat) (v : Verifier)
| Ow_snapshot (shared : nat) (s : Snapshot)
| Ow_shared (state : Boot.Shared).

(** Bytes, a pointer to an owner, a [StogasBuffer], a scalar, or an owner. *)
Inductive Cell `{Sigstore} :=
| C_bytes (b : bytes)
| C_handle (p : Ptr)
| C_buffer (data : Ptr) (len : Z)
| C_scalar (n : Z)
| C_owner (o : AbiOwner).

Abbreviation Memory := (gmap nat Cell).

Section Abi.
Context `{Sigstore} `{Random}.

(** Undefined behaviour has no result; otherwise the memory, the generator and the outcome. *)
Definition Abi (E A : Type) : Type := Memory -> rng -> option (Memory * rng * result A E).

Definition abi_of {E A} (r : result A E) : Abi E A := fun m g => Some (m, g, r).
Definition abi_ret {E A} (a : A) : Abi E A := abi_of (Ok a).
Definition abi_bind {E A B} (c : Abi E A) (k : A -> Abi E B) : Abi E B := fun m g =>
  match c m g with
  | Some (m, g, Ok a) => k a m g
  | Some (m, g, Err e) => Some (m, g, Err e)
  | None => None
  end.
(** An operation that draws random bytes. *)
Definition abi_random {E A} (f : rng -> rng * result A E) : Abi E A := fun m g => let (g, r) := f g in Some (m, g, r).

Definition abi_guard {E} (c : bool) (e : E) : Abi E unit := if c then abi_of (Err e) else abi_ret tt.

(** ** Accesses *)

Definition store_cell (l : nat) (c : Cell) {E} : Abi E unit := fun m g => Some (<[l := c]> m, g, Ok tt).

(** [slice::from_raw_parts] of a pointer that is not null. *)
Definition read_bytes {E} (l : nat) (len : Z) : Abi E bytes := fun m g =>
  if len =? 0 then Some (m, g, Ok [])
  else match m !! l with
       | Some (C_bytes b) => if len <=? zlen b then Some (m, g, Ok (slice_to b len)) else None
       | _ => None
       end.

(** Writes [b] at the start of an array of the caller; the pointer is not null. *)
Definition write_array {E} (p : Ptr) (b : bytes) : Abi E unit := fun m g =>
  match p with
  | None => None
  | Some l =>
      match m !! l with
      | Some (C_bytes old) =>
          if zlen b <=? zlen old then Some (<[l := C_bytes (b ++ slice_from old (zlen b))]> m, g, Ok tt) else None
      | _ => None
      end
  end.

Definition write_handle {E} (p : Ptr) (h : Ptr) : Abi E unit := fun m g =>
  match p with
  | Some l => match m !! l with Some (C_handle _) => Some (<[l := C_handle h]> m, g, Ok tt) | _ => None end
  | None => None
  end.
Definition write_buffer {E} (p : Ptr) (data : Ptr) (len : Z) : Abi E unit := fun m g =>
  match p with
  | Some l => match m !! l with Some (C_buffer _ _) => Some (<[l := C_buffer data len]> m, g, Ok tt) | _ => None end
  | None => None
  end.
Definition write_scalar {E} (p : Ptr) (n : Z) : Abi E unit := fun m g =>
  match p with
  | Some l => match m !! l with Some (C_scalar _) => Some (<[l := C_scalar n]> m, g, Ok tt) | _ => None end
  | None => None
  end.

(** [Box::new] with [Box::into_raw]: an address that nothing else has. *)
Definition allocate {E} (c : Cell) : Abi E nat := fun m g =>
  let l := fresh (dom m) in Some (<[l := c]> m, g, Ok l).

(** [StogasBuffer::owned] stored to an output. *)
Definition publish_buffer {E} (p : Ptr) (b : bytes) : Abi E unit := fun m g =>
  match @allocate E (C_bytes b) m g with
  | Some (m, g, Ok l) => write_buffer p (Some l) (zlen b) m g
  | Some (m, g, Err e) => Some (m, g, Err e)
  | None => None
  end.

Definition publish_owner {E} (p : Ptr) (o : AbiOwner) : Abi E unit := fun m g =>
  match @allocate E (C_owner o) m g with
  | Some (m, g, Ok l) => write_handle p (Some l) m g
  | Some (m, g, Err e) => Some (m, g, Err e)
  | None => None
  end.

(** [as_ref] and [as_mut] of an owner: null is an error, anything else than a live owner of the type is
    undefined. *)
Definition owner_at {E T} (project : AbiOwner -> option T) (absent : E) (p : Ptr) : Abi E (nat * T) := fun m g =>
  match p with
  | None => Some (m, g, Err absent)
  | Some l =>
      match m !! l with
      | Some (C_owner o) => match project o with Some x => Some (m, g, Ok (l, x)) | None => None end
      | _ => None
      end
  end.

Definition as_keys (o : AbiOwner) : option NodeKeys := match o with Ow_keys k => Some k | _ => None end.
Definition as_tls (o : AbiOwner) : option TlsKey := match o with Ow_tls k => Some k | _ => None end.
Definition as_session (o : AbiOwner) : option ServerSession := match o with Ow_session s => Some s | _ => None end.
Definition as_reader (o : AbiOwner) : option ServerReader := match o with Ow_reader r => Some r | _ => None end.
Definition as_writer (o : AbiOwner) : option ServerWriter := match o with Ow_writer w => Some w | _ => None end.
Definition as_verifier (o : AbiOwner) : option (nat * Verifier) := match o with Ow_verifier l v => Some (l, v) | _ => None end.
Definition as_snapshot (o : AbiOwner) : option (nat * Snapshot) := match o with Ow_snapshot l s => Some (l, s) | _ => None end.
Definition as_shared (o : AbiOwner) : option Boot.Shared := match o with Ow_shared sh => Some sh | _ => None end.

(** The [_free] functions: null is nothing, and a live owner of the type is released. *)
Definition free_owner {T} (project : AbiOwner -> option T) (p : Ptr) (m : Memory) : option Memory :=
  match p with
  | None => Some m
  | Some l =>
      match m !! l with
      | Some (C_owner o) => match project o with Some _ => Some (delete l m) | None => None end
      | _ => None
      end
  end.

Definition stogas_node_keys_free : Ptr -> Memory -> option Memory := free_owner as_keys.
Definition stogas_tls_key_free : Ptr -> Memory -> option Memory := free_owner as_tls.
Definition stogas_channel_session_free : Ptr -> Memory -> option Memory := free_owner as_session.
Definition stogas_channel_reader_free : Ptr -> Memory -> option Memory := free_owner as_reader.
Definition stogas_channel_writer_free : Ptr -> Memory -> option Memory := free_owner as_writer.

(** A buffer goes back with the length it came with; [stogas_secret_buffer_free] erases it first. *)
Definition stogas_buffer_free (data : Ptr) (len : Z) (m : Memory) : option Memory :=
  match data with
  | None => Some m
  | Some l =>
      match m !! l with
      | Some (C_bytes b) => if zlen b =? len then Some (delete l m) else None
      | _ => None
      end
  end.
End Abi.

Notation "'let@' x := c 'in' k" := (abi_bind c (fun x => k))
  (at level 10, x pattern, c at level 200, k at level 200) : result_scope.

(** ** gateway.rs *)

Inductive Status := St_Input | St_Authentication | St_Crypto.

Definition gateway_status (e : GatewayError) : Status :=
  match e with Input _ => St_Input | GAuthentication => St_Authentication | GSigning _ => St_Crypto end.

Definition status_code (r : result unit Status) : Z :=
  match r with Ok _ => 0 | Err St_Input => 1 | Err St_Authentication => 2 | Err St_Crypto => 7 end.

Section Gateway.
Context `{Json} `{Base64} `{Signatures} `{Hash} `{Encodings} `{Sigstore} `{X509} `{Unicode} `{Pkcs10}.
Context `{Agreement} `{Hpke} `{HpkeSeal} `{Random}.

(** Whether the build has the staging feature. *)
Variable staging : bool.

Definition is_null (p : Ptr) : bool := negb (bool_decide (is_Some p)).

Definition abi_environment (value : Z) : result Environment Status :=
  if value =? 1 then Ok Production else if (value =? 2) && staging then Ok Staging else Err St_Input.

Definition abi_input (data : Ptr) (len : Z) : Abi Status bytes :=
  match data with
  | None => if len =? 0 then abi_ret [] else abi_of (Err St_Input)
  | Some l => read_bytes l len
  end.

(** [array]: exactly [n] bytes. *)
Definition abi_array (n : Z) (data : Ptr) : Abi Status bytes :=
  match data with None => abi_of (Err St_Input) | Some l => read_bytes l n end.

Definition abi_gateway {A} (r : result A GatewayError) : Abi Status A := abi_of (map_err gateway_status r).
Definition abi_gateway_random {A} (f : rng -> rng * result A GatewayError) : Abi Status A :=
  abi_random (fun g => let (g, r) := f g in (g, map_err gateway_status r)).

Definition stogas_node_keys_new (signing_seed provisioning_seed keys : Ptr) : Abi Status unit :=
  let@ _ := abi_guard (is_null keys || is_null signing_seed || is_null provisioning_seed) St_Input in
  let@ _ := write_handle keys None in
  let@ signing := abi_array 64 signing_seed in
  let@ provisioning := abi_array 32 provisioning_seed in
  let owner := NodeKeys_from_seeds (slice_to signing 32) (slice_from signing 32) provisioning in
  let@ _ := write_array signing_seed (zeros 64) in
  let@ _ := write_array provisioning_seed (zeros 32) in
  publish_owner keys (Ow_keys owner).

Definition stogas_node_report_data (keys : Ptr) (environment_id : Z) (tls_spki_sha256 challenge report_data : Ptr)
    : Abi Status unit :=
  let@ (_, keys) := owner_at as_keys St_Input keys in
  let@ spki := abi_array 32 tls_spki_sha256 in
  let@ challenge := abi_array 32 challenge in
  let@ _ := abi_guard (is_null report_data) St_Input in
  let@ environment := abi_of (abi_environment environment_id) in
  let@ data := abi_gateway (NodeKeys_report_data keys environment spki challenge) in
  write_array report_data data.

Definition stogas_node_boot_document (keys : Ptr) (environment_id : Z) (tls_spki_sha256 challenge report : Ptr)
    (report_len : Z) (gateway_release_id document : Ptr) : Abi Status unit :=
  let@ _ := abi_guard (is_null document) St_Input in
  let@ _ := write_buffer document None 0 in
  let@ (_, keys) := owner_at as_keys St_Input keys in
  let@ environment := abi_of (abi_environment environment_id) in
  let@ spki := abi_array 32 tls_spki_sha256 in
  let@ challenge := abi_array 32 challenge in
  let@ report := abi_input report report_len in
  let@ release := abi_array 32 gateway_release_id in
  let@ text := abi_gateway (NodeKeys_boot_document keys environment spki challenge report release) in
  publish_buffer document text.

Definition abi_purpose (purpose : Z) : result BootRequestPurpose Status :=
  if purpose =? 1 then Ok Certificate else if purpose =? 2 then Ok Complete else Err St_Input.

Definition stogas_node_sign_boot_request (keys : Ptr) (purpose : Z) (node_id : Ptr) (node_id_len issued_at_ms : Z)
    (signature : Ptr) : Abi Status unit :=
  let@ purpose := abi_of (abi_purpose purpose) in
  let@ _ := abi_guard (is_null signature || (128 <? node_id_len)) St_Input in
  let@ (_, keys) := owner_at as_keys St_Input keys in
  let@ node_id := abi_input node_id node_id_len in
  let@ node_id := abi_of (ok_or (from_utf8 node_id) St_Input) in
  let@ text := abi_gateway_random (NodeKeys_sign_boot_request keys purpose node_id issued_at_ms) in
  write_array signature text.

Definition stogas_node_sign_receipt (keys boot_sha256 request_sha256 response_sha256 metadata : Ptr) (metadata_len : Z)
    (receipt : Ptr) : Abi Status unit :=
  let@ _ := abi_guard (is_null receipt) St_Input in
  let@ _ := write_buffer receipt None 0 in
  let@ _ := abi_guard (MAX_METADATA_BYTES <? metadata_len) St_Input in
  let@ (_, keys) := owner_at as_keys St_Input keys in
  let@ boot := abi_array 32 boot_sha256 in
  let@ request := abi_array 32 request_sha256 in
  let@ response := abi_array 32 response_sha256 in
  let@ metadata := abi_input metadata metadata_len in
  let@ signed := abi_gateway_random (sign_receipt (nk_signing keys) boot request response metadata) in
  publish_buffer receipt (json_to_vec (Receipt_to_value signed)).

(** The recipient key is behind a lock of the keys and is used once. *)
Definition stogas_node_open_provisioning (keys boot_sha256 envelope : Ptr) (envelope_len : Z) (plaintext : Ptr)
    : Abi Status unit :=
  let@ _ := abi_guard (is_null plaintext) St_Input in
  let@ _ := write_buffer plaintext None 0 in
  let@ _ := abi_guard (160 * 1024 <? envelope_len) St_Input in
  let@ (l, keys) := owner_at as_keys St_Input keys in
  let@ boot := abi_array 32 boot_sha256 in
  let@ envelope := abi_input envelope envelope_len in
  let (keys, opened) := NodeKeys_open_provisioning keys boot envelope in
  let@ _ := store_cell l (C_owner (Ow_keys keys)) in
  let@ opened := abi_gateway opened in
  publish_buffer plaintext opened.

Definition stogas_tls_key_generate (key public_key : Ptr) : Abi Status unit :=
  let@ _ := abi_guard (is_null key || is_null public_key) St_Input in
  let@ _ := write_handle key None in
  let@ owner := abi_gateway_random TlsKey_generate in
  let@ _ := write_array public_key (TlsKey_public_key owner) in
  publish_owner key (Ow_tls owner).

Definition stogas_tls_key_sign (key message : Ptr) (message_len : Z) (signature : Ptr) : Abi Status unit :=
  let@ _ := abi_guard (is_null signature || (MAX_INPUT_BYTES <? message_len)) St_Input in
  let@ (_, key) := owner_at as_tls St_Input key in
  let@ message := abi_input message message_len in
  let@ text := abi_gateway_random (TlsKey_sign key message) in
  write_array signature text.

Definition stogas_tls_leaf (environment_id : Z) (boot_sha256 challenge signer_spki_sha256 leaf : Ptr) : Abi Status unit :=
  let@ _ := abi_guard (is_null leaf) St_Input in
  let@ environment := abi_of (abi_environment environment_id) in
  let@ boot := abi_array 32 boot_sha256 in
  let@ challenge := abi_array 32 challenge in
  let@ spki := abi_array 32 signer_spki_sha256 in
  write_array leaf (tls_leaf environment boot challenge spki).

Definition stogas_e2ee_leaf (environment_id : Z) (boot_sha256 transcript_sha256 leaf : Ptr) : Abi Status unit :=
  let@ _ := abi_guard (is_null leaf) St_Input in
  let@ environment := abi_of (abi_environment environment_id) in
  let@ boot := abi_array 32 boot_sha256 in
  let@ transcript := abi_array 32 transcript_sha256 in
  write_array leaf (e2ee_leaf environment boot transcript).

(** Contiguous hashes of 64 bytes. *)
Fixpoint hashes (count : nat) (b : bytes) : list bytes :=
  match count with O => [] | S count => slice_to b 64 :: hashes count (slice_from b 64) end.

(** Each proof after its length; [u16::try_from]. *)
Fixpoint encode_proofs (proofs : list BatchProof) : result bytes Status :=
  match proofs with
  | [] => Ok []
  | proof :: proofs =>
      let text := BatchProof_to_bytes proof in
      reject u16_max <? zlen text with St_Input;
      let? rest := encode_proofs proofs in
      Ok (u16_be (zlen text) ++ text ++ rest)
  end.

Definition stogas_quote_batch (leaves : Ptr) (count : Z) (report_data proofs : Ptr) : Abi Status unit :=
  let@ _ := abi_guard (is_null report_data || is_null proofs || is_null leaves || (1024 <? count)) St_Input in
  let@ _ := write_buffer proofs None 0 in
  let@ leaves := abi_array (64 * count) leaves in
  let@ (data, batch) := abi_gateway (quote_batch (hashes (Z.to_nat count) leaves)) in
  let@ encoded := abi_of (encode_proofs batch) in
  let@ _ := write_array report_data data in
  publish_buffer proofs encoded.

Definition stogas_session_evidence (report : Ptr) (report_len : Z) (proof : Ptr) (proof_len : Z) (boot_document : Ptr)
    (boot_document_len : Z) (boot_inclusion : Ptr) (boot_inclusion_len certificate : Z) (evidence : Ptr)
    : Abi Status unit :=
  let@ _ := abi_guard (is_null evidence || (1 <? certificate)) St_Input in
  let@ _ := write_buffer evidence None 0 in
  let limit := MAX_EVIDENCE_BYTES in
  let@ _ := abi_guard ((limit <? boot_document_len) || (limit <? boot_inclusion_len) || (limit <? report_len)) St_Input in
  let@ report := abi_input report report_len in
  let@ proof := abi_input proof proof_len in
  let@ document := abi_input boot_document boot_document_len in
  let@ inclusion := abi_input boot_inclusion boot_inclusion_len in
  let@ text := abi_gateway (session_evidence report proof document inclusion (certificate =? 1)) in
  publish_buffer evidence text.
End Gateway.

(** ** gateway/channel.rs *)

Definition channel_code (r : result unit Error) : Z :=
  match r with
  | Ok _ => 0
  | Err Record_ => 1
  | Err Authentication => 2
  | Err Limit => 3
  | Err Closed => 4
  | Err Truncated => 5
  | Err Pending => 6
  | Err Crypto => 7
  end.

Section Channel.
Context `{Sigstore} `{Kdf} `{Hash} `{Aead} `{Agreement} `{Hpke} `{Random}.
Variable staging : bool.

(** [record]: the caller's bounded buffer. *)
Definition abi_record (data : Ptr) (len : Z) : Abi Error (nat * bytes) :=
  match data with
  | None => abi_of (Err Record_)
  | Some l =>
      let@ _ := abi_guard (MAX_RECORD_BYTES <? len) Record_ in
      let@ encoded := read_bytes l len in
      abi_ret (l, encoded)
  end.

(** The buffer after an operation in place. *)
Definition write_back (l : nat) (buffer : bytes) : Abi Error unit :=
  if zlen buffer =? 0 then abi_ret tt else write_array (Some l) buffer.

(** [plaintext.as_ptr().offset_from(data)]: a record ends with its plaintext and a tag of 16 bytes. *)
Definition plaintext_offset (buffer plaintext : bytes) : Z := zlen buffer - 16 - zlen plaintext.

Definition stogas_channel_setup (environment idle_seconds : Z) (hello : Ptr) (hello_len : Z)
    (boot_hash session id transcript response : Ptr) : Abi Error unit :=
  let@ _ := abi_guard (is_null session || is_null id || is_null transcript || is_null response) Record_ in
  let@ _ := write_handle session None in
  let@ _ := write_array id (zeros 32) in
  let@ _ := write_array transcript (zeros 32) in
  let@ _ := write_buffer response None 0 in
  let@ _ := abi_guard (is_null hello || negb (hello_len =? CLIENT_SETUP_BYTES) || is_null boot_hash) Record_ in
  let@ environment := abi_of (map_err (fun _ => Record_) (abi_environment staging environment)) in
  let@ hello := read_bytes (default O hello) hello_len in
  let@ boot_hash := read_bytes (default O boot_hash) 32 in
  let@ prepared := abi_random (prepare_server_setup environment hello idle_seconds boot_hash) in
  let@ _ := write_array id (slice_to (pss_session_id prepared) 32) in
  let@ _ := write_array transcript (slice_to (pss_transcript prepared) 32) in
  let@ _ := publish_buffer response (pss_response_prefix prepared) in
  publish_owner session (Ow_session (pss_session prepared)).

Definition stogas_channel_accept (session : Ptr) (number : Z) (data : Ptr) (len now_ms : Z)
    (reader writer offset plaintext_len : Ptr) : Abi Error unit :=
  let@ _ := abi_guard (is_null reader || is_null writer || is_null offset || is_null plaintext_len) Record_ in
  let@ _ := write_handle reader None in
  let@ _ := write_handle writer None in
  let@ _ := write_scalar offset 0 in
  let@ _ := write_scalar plaintext_len 0 in
  let@ (l, session) := owner_at as_session Closed session in
  let@ (data, encoded) := abi_record data len in
  let@ (session, buffer, accepted) := abi_random (fun g =>
    let '(session, g, buffer, out) := ServerSession_accept_start session g number encoded now_ms in
    (g, Ok (session, buffer, out))) in
  let@ _ := store_cell l (C_owner (Ow_session session)) in
  let@ _ := write_back data buffer in
  let@ (incoming, outgoing, metadata) := abi_of accepted in
  let@ _ := write_scalar offset (plaintext_offset buffer metadata) in
  let@ _ := write_scalar plaintext_len (zlen metadata) in
  let@ _ := publish_owner reader (Ow_reader incoming) in
  publish_owner writer (Ow_writer outgoing).

Definition stogas_channel_session_expire (session : Ptr) (now_ms : Z) : Abi Error unit :=
  let@ (l, session) := owner_at as_session Closed session in
  store_cell l (C_owner (Ow_session (ServerSession_expire session now_ms))).

(** A record that is refused before it is read closes the reader. *)
Definition stogas_channel_open (reader data : Ptr) (len : Z) (kind offset plaintext_len : Ptr) : Abi Error unit :=
  let@ _ := abi_guard (is_null kind || is_null offset || is_null plaintext_len) Record_ in
  let@ _ := write_scalar kind 0 in
  let@ _ := write_scalar offset 0 in
  let@ _ := write_scalar plaintext_len 0 in
  let@ (l, reader) := owner_at as_reader Closed reader in
  if is_null data || (MAX_RECORD_BYTES <? len) then
    let@ _ := store_cell l (C_owner (Ow_reader {| sr_records := Records_close (sr_records reader) |})) in
    abi_of (Err Record_)
  else
    let@ (data, encoded) := abi_record data len in
    let '(reader, buffer, opened) := ServerReader_open reader encoded in
    let@ _ := store_cell l (C_owner (Ow_reader reader)) in
    let@ _ := write_back data buffer in
    let@ (actual, plaintext) := abi_of opened in
    let@ _ := write_scalar kind (byte_to_Z (Kind_to_byte actual)) in
    let@ _ := write_scalar offset (plaintext_offset buffer plaintext) in
    write_scalar plaintext_len (zlen plaintext).

Definition stogas_channel_complete (reader : Ptr) : Abi Error unit :=
  let@ (l, reader) := owner_at as_reader Closed reader in
  let (reader, out) := ServerReader_complete reader in
  let@ _ := store_cell l (C_owner (Ow_reader reader)) in
  abi_of out.

Definition close_writer (w : ServerWriter) : ServerWriter := {| sw_records := Records_close (sw_records w) |}.

Definition stogas_channel_seal (writer : Ptr) (kind : Z) (data : Ptr) (len : Z) (output : Ptr) : Abi Error unit :=
  let@ _ := abi_guard (is_null output) Record_ in
  let@ _ := write_buffer output None 0 in
  let@ (l, writer) := owner_at as_writer Closed writer in
  if (MAX_RECORD_PLAINTEXT <? len) || (is_null data && negb (len =? 0)) then
    let@ _ := store_cell l (C_owner (Ow_writer (close_writer writer))) in abi_of (Err Limit)
  else
    match Kind_try_from (byte_of_Z kind) with
    | Err e => let@ _ := store_cell l (C_owner (Ow_writer (close_writer writer))) in abi_of (Err e)
    | Ok kind =>
        let@ plaintext := read_bytes (default O data) len in
        let (writer, sealed) := ServerWriter_seal writer kind plaintext in
        let@ _ := store_cell l (C_owner (Ow_writer writer)) in
        let@ sealed := abi_of sealed in
        publish_buffer output sealed
    end.
End Channel.

(** * Theory

    Under the documented contract no call is undefined, whatever it is given otherwise: null
    pointers, wrong lengths and forged bytes all end in a status. A call that fails leaves nothing
    allocated, and no call changes what kind of thing an address holds. *)

Inductive OwnerKind :=
| K_keys | K_tls | K_session | K_reader | K_writer | K_verifier (shared : nat) | K_snapshot (shared : nat) | K_shared.

Section Shapes.
Context `{Sigstore}.

Definition owner_kind (o : AbiOwner) : OwnerKind :=
  match o with
  | Ow_keys _ => K_keys
  | Ow_tls _ => K_tls
  | Ow_session _ => K_session
  | Ow_reader _ => K_reader
  | Ow_writer _ => K_writer
  | Ow_verifier l _ => K_verifier l
  | Ow_snapshot l _ => K_snapshot l
  | Ow_shared _ => K_shared
  end.

(** What a call may rely on at an address. *)
Inductive Shape := Sh_bytes (n : nat) | Sh_handle | Sh_buffer | Sh_scalar | Sh_owner (k : OwnerKind).

Definition shape (c : Cell) : Shape :=
  match c with
  | C_bytes b => Sh_bytes (length b)
  | C_handle _ => Sh_handle
  | C_buffer _ _ => Sh_buffer
  | C_scalar _ => Sh_scalar
  | C_owner o => Sh_owner (owner_kind o)
  end.

Definition holds (m : Memory) (p : Ptr) (s : Shape) : Prop := exists l, p = Some l /\ shape <$> m !! l = Some s.
Definition holds_bytes (m : Memory) (p : Ptr) (n : Z) : Prop := exists len, holds m p (Sh_bytes len) /\ n <= Z.of_nat len.
Definition or_null (p : Ptr) (P : Prop) : Prop := p = None \/ P.

(** Addresses keep their shapes; new ones may appear. *)
Definition grows (m m' : Memory) : Prop := forall l s, shape <$> m !! l = Some s -> shape <$> m' !! l = Some s.

#[global] Instance grows_preorder : PreOrder grows.
Proof. split; [by intros m l s|]. intros a b c Hab Hbc l s Hl. by apply Hbc, Hab. Qed.

Lemma grows_insert m l c : (shape <$> m !! l = Some (shape c) \/ m !! l = None) -> grows m (<[l := c]> m).
Proof.
  intros Hl k s Hk. destruct (decide (l = k)) as [->|Hn]; [|by rewrite lookup_insert_ne].
  rewrite lookup_insert_eq. destruct Hl as [E|E]; rewrite E in Hk; [by simplify_eq|done].
Qed.

Definition stable (P : Memory -> Prop) : Prop := forall m m', grows m m' -> P m -> P m'.

Lemma holds_stable p s : stable (fun m => holds m p s).
Proof. intros m m' Hg (l & -> & Hl). exists l. split; [done|by apply Hg]. Qed.
Lemma holds_bytes_stable p n : stable (fun m => holds_bytes m p n).
Proof. intros m m' Hg (len & Hl & Hn). exists len. split; [by eapply holds_stable|done]. Qed.
Lemma or_null_stable p P : stable P -> stable (fun m => or_null p (P m)).
Proof. intros HP m m' Hg [->|Hp]; [by left|right; by eapply HP]. Qed.
Lemma and_stable P Q : stable P -> stable Q -> stable (fun m => P m /\ Q m).
Proof. intros HP HQ m m' Hg [Hp Hq]. split; [by eapply HP|by eapply HQ]. Qed.
Lemma pure_stable (P : Prop) : stable (fun _ => P).
Proof. by intros m m' _. Qed.

End Shapes.

Section Safety.
Context `{Sigstore} `{Random} {E : Type}.

(** A step that is defined, keeps shapes, allocates nothing ([quiet]) or nothing when it fails, and
    whose value satisfies [Q]. *)
Definition safe {A} (P : Memory -> Prop) (quiet : bool) (c : Abi E A) (Q : A -> Prop) : Prop :=
  forall m g, P m -> exists m' g' r, c m g = Some (m', g', r) /\ grows m m'
    /\ (quiet = true \/ (exists e, r = Err e) -> dom m' = dom m) /\ (forall a, r = Ok a -> Q a).

(** One that also never fails. *)
Definition sure {A} (P : Memory -> Prop) (quiet : bool) (c : Abi E A) (Q : A -> Prop) : Prop :=
  forall m g, P m -> exists m' g' a, c m g = Some (m', g', Ok a) /\ grows m m' /\ (quiet = true -> dom m' = dom m) /\ Q a.

Lemma sure_safe {A} P quiet (c : Abi E A) Q : sure P quiet c Q -> safe P quiet c Q.
Proof.
  intros Hc m g Hm. destruct (Hc m g Hm) as (m' & g' & a & -> & Hg & Hd & Hq). exists m', g', (Ok a). split_and!; try done.
  - intros [Hb|[e [=]]]. by apply Hd.
  - by intros a' [= <-].
Qed.

Lemma safe_bind {A B} P quiet (c : Abi E A) (k : A -> Abi E B) Q R :
  stable P -> safe P true c Q -> (forall a, Q a -> safe P quiet (k a) R) -> safe P quiet (abi_bind c k) R.
Proof.
  intros Hs Hc Hk m g Hm. unfold abi_bind. destruct (Hc m g Hm) as (m1 & g1 & r & -> & Hg & Hd & Hq).
  specialize (Hd (or_introl eq_refl)). destruct r as [a|e].
  - destruct (Hk a (Hq a eq_refl) m1 g1 (Hs _ _ Hg Hm)) as (m2 & g2 & r2 & -> & Hg2 & Hd2 & Hq2).
    exists m2, g2, r2. split_and!; [done|by etrans|intros Hx; by rewrite <- Hd, <- Hd2|done].
  - by exists m1, g1, (Err e).
Qed.

Lemma sure_bind {A B} P q1 q2 (c : Abi E A) (k : A -> Abi E B) Q R :
  stable P -> sure P q1 c Q -> (forall a, Q a -> sure P q2 (k a) R) -> sure P (q1 && q2) (abi_bind c k) R.
Proof.
  intros Hs Hc Hk m g Hm. unfold abi_bind. destruct (Hc m g Hm) as (m1 & g1 & a & -> & Hg & Hd & Hq).
  destruct (Hk a Hq m1 g1 (Hs _ _ Hg Hm)) as (m2 & g2 & b & -> & Hg2 & Hd2 & Hq2).
  exists m2, g2, b. split_and!; [done|by etrans| |done]. intros [? ?]%andb_true_iff. by rewrite Hd2, Hd.
Qed.

Lemma safe_of {A} P quiet (r : result A E) : safe P quiet (abi_of r) (fun a => r = Ok a).
Proof. intros m g _. by exists m, g, r. Qed.
Lemma safe_end {A} P quiet (r : result A E) : safe P quiet (abi_of r) (fun _ => True).
Proof. intros m g _. by exists m, g, r. Qed.
(** A step that allocates nothing. *)
Lemma safe_quiet {A} P quiet (c : Abi E A) Q : safe P true c Q -> safe P quiet c Q.
Proof.
  intros Hc m g Hm. destruct (Hc m g Hm) as (m' & g' & r & Ec & Hg & Hd & Hq). exists m', g', r. split_and!; try done.
  intros _. apply Hd. by left.
Qed.
Lemma safe_guard P c (e : E) : safe P true (abi_guard c e) (fun _ => c = false).
Proof. unfold abi_guard. destruct c; intros m g _; [by exists m, g, (Err e)|by exists m, g, (Ok tt)]. Qed.
Lemma safe_random {A} P (f : rng -> rng * result A E) :
  safe P true (abi_random f) (fun a => exists g g', f g = (g', Ok a)).
Proof. intros m g _. unfold abi_random. destruct (f g) as [g' r] eqn:Ef. exists m, g', r. split_and!; try done. intros a ->. by exists g, g'. Qed.

Lemma sure_read P l len :
  0 <= len -> (forall m, P m -> len = 0 \/ holds_bytes m (Some l) len) -> sure P true (read_bytes l len) (fun b => zlen b = len).
Proof.
  intros Hpos Hp m g Hm. unfold read_bytes. destruct (len =? 0) eqn:Ez; zbool; [subst; by exists m, g, []|].
  destruct (Hp m Hm) as [|(n & (l' & [= <-] & Hl) & Hn)]; [done|]. destruct (m !! l) as [[b| | | |]|]; try done. injection Hl as <-.
  fold (zlen b) in Hn. rewrite (proj2 (Z.leb_le _ _)) by done. exists m, g, (slice_to b len). split_and!; try done.
  by apply zlen_slice_to.
Qed.

Lemma sure_write_array P p b : (forall m, P m -> holds_bytes m p (zlen b)) -> sure P true (write_array p b) (fun _ => True).
Proof.
  intros Hp m g Hm. destruct (Hp m Hm) as (n & (l & -> & Hl) & Hn). unfold write_array.
  destruct (m !! l) as [[old| | | |]|] eqn:El; try done. injection Hl as <-. fold (zlen old) in Hn.
  rewrite (proj2 (Z.leb_le _ _)) by done. eexists _, _, _. split; [done|]. split_and!; [|intros _|done].
  - apply grows_insert. left. rewrite El. cbn. do 2 f_equal. rewrite length_app. unfold slice_from. rewrite length_drop.
    unfold zlen in *. lia.
  - apply dom_insert_lookup_L. by rewrite El.
Qed.

(** Overwriting an output of its own kind. *)
Lemma sure_overwrite P p (s : Shape) (c : Cell) (w : Abi E unit) :
  shape c = s -> (forall m, P m -> holds m p s) ->
  (forall m g l old, p = Some l -> m !! l = Some old -> shape old = s -> w m g = Some (<[l := c]> m, g, Ok tt)) ->
  sure P true w (fun _ => True).
Proof.
  intros Hs Hp Hw m g Hm. destruct (Hp m Hm) as (l & Ep & Hl). destruct (m !! l) as [old|] eqn:El; [|done]. injection Hl as Ho.
  eexists _, _, _. split; [by eapply Hw|]. split_and!; [|intros _|done].
  - apply grows_insert. left. rewrite El. cbn. by rewrite Ho, Hs.
  - apply dom_insert_lookup_L. by rewrite El.
Qed.

Lemma sure_write_handle P p h : (forall m, P m -> holds m p Sh_handle) -> sure P true (write_handle p h) (fun _ => True).
Proof.
  intros Hp. eapply (sure_overwrite _ _ _ (C_handle h)); [done|done|]. intros m g l old -> El Ho. unfold write_handle.
  rewrite El. by destruct old.
Qed.
Lemma sure_write_buffer P p d n : (forall m, P m -> holds m p Sh_buffer) -> sure P true (write_buffer p d n) (fun _ => True).
Proof.
  intros Hp. eapply (sure_overwrite _ _ _ (C_buffer d n)); [done|done|]. intros m g l old -> El Ho. unfold write_buffer.
  rewrite El. by destruct old.
Qed.
Lemma sure_write_scalar P p n : (forall m, P m -> holds m p Sh_scalar) -> sure P true (write_scalar p n) (fun _ => True).
Proof.
  intros Hp. eapply (sure_overwrite _ _ _ (C_scalar n)); [done|done|]. intros m g l old -> El Ho. unfold write_scalar.
  rewrite El. by destruct old.
Qed.
Lemma sure_store P l o : (forall m, P m -> holds m (Some l) (Sh_owner (owner_kind o))) -> sure P true (store_cell l (C_owner o)) (fun _ => True).
Proof.
  intros Hp. apply (sure_overwrite _ (Some l) (Sh_owner (owner_kind o)) (C_owner o)); [done|done|].
  by intros m g l' old [= <-] _ _.
Qed.

Lemma grows_fresh (m : Memory) c : grows m (<[fresh (dom m) := c]> m).
Proof. apply grows_insert. right. apply not_elem_of_dom, is_fresh. Qed.

Lemma sure_publish_owner P p o : (forall m, P m -> holds m p Sh_handle) -> sure P false (publish_owner p o) (fun _ => True).
Proof.
  intros Hp m g Hm. unfold publish_owner, allocate. set (m1 := <[_ := _]> m).
  destruct (sure_write_handle (fun m => holds m p Sh_handle) p (Some (fresh (dom m))) ltac:(done) m1 g) as (m2 & g2 & a & E2 & Hg & _).
  { eapply holds_stable; [|by apply Hp]. apply grows_fresh. }
  exists m2, g2, a. split_and!; [done| |done|done]. etrans; [apply grows_fresh|done].
Qed.
Lemma sure_publish_buffer P p b : (forall m, P m -> holds m p Sh_buffer) -> sure P false (publish_buffer p b) (fun _ => True).
Proof.
  intros Hp m g Hm. unfold publish_buffer, allocate. set (m1 := <[_ := _]> m).
  destruct (sure_write_buffer (fun m => holds m p Sh_buffer) p (Some (fresh (dom m))) (zlen b) ltac:(done) m1 g) as (m2 & g2 & a & E2 & Hg & _).
  { eapply holds_stable; [|by apply Hp]. apply grows_fresh. }
  exists m2, g2, a. split_and!; [done| |done|done]. etrans; [apply grows_fresh|done].
Qed.

Lemma safe_owner {T} P (project : AbiOwner -> option T) (absent : E) p k :
  (forall o, owner_kind o = k -> is_Some (project o)) -> (forall m, P m -> or_null p (holds m p (Sh_owner k))) ->
  safe P true (owner_at project absent p) (fun a => p = Some a.1 /\ exists o, owner_kind o = k /\ project o = Some a.2).
Proof.
  intros Hk Hp m g Hm. unfold owner_at. destruct (Hp m Hm) as [->|(l & -> & Hl)]; [by exists m, g, (Err absent)|].
  destruct (m !! l) as [[| | | |o]|] eqn:El; try done. injection Hl as Ho. destruct (Hk o Ho) as [x Hx]. rewrite Hx.
  exists m, g, (Ok (l, x)). split_and!; try done. intros a [= <-]. split; [done|]. by exists o.
Qed.
End Safety.

(** ** Records opened in place *)

(** The plaintext lies in the buffer before a tag of 16 bytes. *)
Definition located (buffer content : bytes) : Prop := exists before tag, buffer = before ++ content ++ tag /\ zlen tag = 16.

(** The buffer that comes back has the length of the record, and holds what was accepted. *)
Definition in_place {A} (content : A -> bytes) (encoded buffer : bytes) (out : result A Error) : Prop :=
  zlen buffer = zlen encoded /\ forall a, out = Ok a -> located buffer (content a).

Lemma located_slice buffer content rest :
  located buffer content ->
  slice (buffer ++ rest) (plaintext_offset buffer content) (plaintext_offset buffer content + zlen content) = content.
Proof.
  intros (before & tag & -> & Ht). unfold plaintext_offset. rewrite !zlen_app, Ht, <- !app_assoc.
  replace (_ - 16 - _) with (zlen before) by lia.
  change (slice ?l ?a ?b) with (slice_to (slice_from l a) (b - a)). rewrite slice_from_app by done.
  apply slice_to_app. lia.
Qed.

Lemma in_place_err {A} (content : A -> bytes) encoded e : in_place content encoded encoded (Err e).
Proof. done. Qed.
Lemma in_place_map {A B} (content : A -> bytes) (content' : B -> bytes) encoded buffer out out' :
  (forall b, out' = Ok b -> exists a, out = Ok a /\ content a = content' b) ->
  in_place content encoded buffer out -> in_place content' encoded buffer out'.
Proof. intros Ho [Hl Hc]. split; [done|]. intros b Hb. destruct (Ho b Hb) as (a & Ha & <-). by apply Hc. Qed.

Section InPlace.
Context `{Kdf} `{AeadLaws} `{Hash} `{Agreement} `{Random}.

Lemma accept_open_in_place r sealed r' sealed' out encoded offset :
  16 <= zlen sealed -> zlen sealed = zlen (slice_from encoded offset) -> 0 <= offset <= zlen encoded ->
  Records_accept_open r sealed = (r', sealed', out) ->
  in_place snd encoded (slice_to encoded offset ++ sealed') out.
Proof.
  intros H16 Hl Ho. rewrite zlen_slice_from in Hl by done. unfold Records_accept_open. intros Ha.
  case_all; split; rewrite ?zlen_app, ?zlen_slice_to, ?zlen_zeros, ?zlen_slice_from by lia; try lia; try done.
  intros a' [= <-].
  exists (slice_to encoded offset ++ take 1 (slice_to sealed' (zlen sealed' - 16))), (slice_from sealed' (zlen sealed' - 16)).
  split; [|rewrite zlen_slice_from; lia]. rewrite <- app_assoc. f_equal. cbn [snd].
  rewrite <- (slice_to_from sealed' (zlen sealed' - 16)) at 1. rewrite app_assoc. f_equal. by destruct (slice_to _ _).
Qed.

(** Failure after decryption erases, which keeps the length. *)
Lemma erased_in_place {A} (content : A -> bytes) (encoded sealed : bytes) offset e :
  0 <= offset <= zlen encoded -> zlen sealed = zlen (slice_from encoded offset) ->
  in_place content encoded (slice_to encoded offset ++ zeros (zlen sealed)) (Err e).
Proof.
  intros Ho Hl. split; [|done]. rewrite zlen_app, zlen_slice_to, zlen_zeros by (done || apply zlen_nonneg).
  rewrite Hl, zlen_slice_from; lia.
Qed.

Lemma open_in_place r encoded r' buffer out : Records_open r encoded = (r', buffer, out) -> in_place snd encoded buffer out.
Proof.
  unfold Records_open, Operation. intros Hopen.
  destruct (Records_open_with r encoded) as [[r1 b1] o1] eqn:How.
  assert (b1 = buffer /\ o1 = out) as [<- <-] by (destruct o1; by simplify_eq). clear Hopen.
  unfold Records_open_with in How.
  destruct (Records_check_encoded r encoded) as [offset|] eqn:Hc; [|by simplify_eq].
  apply check_encoded_offset in Hc.
  destruct (Records_next_key r) as [r2 [[key nonce]|]]; [|by simplify_eq].
  destruct (from_key key) as [c|]; [|by simplify_eq].
  destruct (decrypt c nonce _ _) as [sealed [[]|]] eqn:Hd.
  - apply decrypt_now_ok in Hd as (H16 & Hl & _). destruct (Records_accept_open r2 sealed) as [[r3 s3] out] eqn:Ha.
    eapply accept_open_in_place in Ha; [|lia|done|done]. by simplify_eq.
  - apply decrypt_length in Hd. simplify_eq. by apply erased_in_place.
Qed.

Lemma start_in_place secret session_id number direction encoded buffer out :
  Records_authenticate_start secret session_id number direction encoded = (buffer, out) -> in_place snd encoded buffer out.
Proof.
  unfold Records_authenticate_start. intros Hs.
  destruct (start_header encoded) as [header|] eqn:Hh; [|by simplify_eq].
  apply start_header_length in Hh.
  destruct (Keys_new _ _ _ _) as [keys|]; [|by simplify_eq].
  destruct (Records_next_key _) as [r2 [[key nonce]|]]; [|by simplify_eq].
  destruct (SoftwareCipher_new key) as [c|]; [|by simplify_eq].
  destruct (SoftwareCipher_decrypt_now c nonce _ _) as [sealed [[]|]] eqn:Hd.
  - apply decrypt_now_ok in Hd as (H16 & Hl & _). destruct (Records_accept_open r2 sealed) as [[r3 s3] o3] eqn:Ha.
    eapply accept_open_in_place in Ha; [|lia|done|done]. simplify_eq. eapply in_place_map; [|done].
    intros [[r4 k] pt] Ho. destruct o3 as [[k' pt']|]; [|done]. injection Ho as <- <- <-. by exists (k', pt').
  - pose proof (decrypt_length c nonce _ _ _ _ Hd) as Hl. simplify_eq. by apply erased_in_place.
Qed.

(** The ratchet only passes the buffer on. *)
Lemma receive_in_place {T} (content : T -> bytes) p b request now_ms encoded authenticate p' buffer out :
  (forall secret buffer out, authenticate encoded secret = (buffer, out) -> in_place content encoded buffer out) ->
  Peer_receive p b request now_ms encoded authenticate = (p', buffer, out) -> in_place content encoded buffer out.
Proof.
  intros Ha. unfold Peer_receive, Peer_receive_stored, Peer_receive_new. intros Hr.
  case_all; try done;
    match goal with H : authenticate encoded _ = _ |- _ => apply Ha in H; try done; destruct H as [? _]; done end.
Qed.

Lemma accept_start_in_place s g number encoded now_ms s' g' buffer out :
  ServerSession_accept_start s g number encoded now_ms = (s', g', buffer, out) -> in_place snd encoded buffer out.
Proof.
  unfold ServerSession_accept_start, ServerSession_authenticate_start. intros Hs.
  destruct (ss_peer s) as [peer|] eqn:Ep; [|by simplify_eq]. cbn [ss_peer] in Hs.
  destruct (match admissible _ _ _ with Ok _ => _ | Err _ => _ end) as [header|]; [|by simplify_eq].
  destruct (_ <? _); [by simplify_eq|].
  destruct (Peer_receive _ _ _ _ _ _) as [[p1 b1] o1] eqn:Er. eapply (receive_in_place snd) in Er; cycle 1.
  { clear Er Hs. intros secret b o Ho. destruct (Records_authenticate_start _ _ _ _ _) as [b2 o2] eqn:Ea.
    apply start_in_place in Ea. case_all; try done; by destruct Ea. }
  case_all; try (by destruct Er). eapply in_place_map; [|done]. intros a1 [= <-]. by eexists.
Qed.
End InPlace.

(** ** The calls and their contracts *)

(** [len] bytes can be read, or the pointer is null. *)
Definition readable `{Sigstore} (m : Memory) (p : Ptr) (len : Z) : Prop := 0 <= len /\ (len = 0 \/ or_null p (holds_bytes m p len)).

Lemma readable_stable `{Sigstore} p n : stable (fun m => readable m p n).
Proof. intros m m' Hg [Hpos [->|Hn]]; split; [done|by left|done|right]. exact (or_null_stable _ _ (holds_bytes_stable p n) _ _ Hg Hn). Qed.

Ltac stability :=
  repeat first [apply readable_stable | apply and_stable | apply or_null_stable | apply holds_bytes_stable | apply holds_stable | apply pure_stable].

(** Pointers that are not null and are written address different things than each other and than what is read. *)
Definition exclusive (outputs inputs : list Ptr) : Prop :=
  NoDup (omap id outputs) /\ Forall (fun l => l ∉ omap id inputs) (omap id outputs).

Inductive GatewayCall :=
| G_node_keys_new (signing_seed provisioning_seed keys : Ptr)
| G_node_report_data (keys : Ptr) (environment_id : Z) (tls_spki_sha256 challenge report_data : Ptr)
| G_node_boot_document (keys : Ptr) (environment_id : Z) (tls_spki_sha256 challenge report : Ptr) (report_len : Z)
    (gateway_release_id document : Ptr)
| G_node_sign_boot_request (keys : Ptr) (purpose : Z) (node_id : Ptr) (node_id_len issued_at_ms : Z) (signature : Ptr)
| G_node_sign_receipt (keys boot_sha256 request_sha256 response_sha256 metadata : Ptr) (metadata_len : Z) (receipt : Ptr)
| G_node_open_provisioning (keys boot_sha256 envelope : Ptr) (envelope_len : Z) (plaintext : Ptr)
| G_tls_key_generate (key public_key : Ptr)
| G_tls_key_sign (key message : Ptr) (message_len : Z) (signature : Ptr)
| G_tls_leaf (environment_id : Z) (boot_sha256 challenge signer_spki_sha256 leaf : Ptr)
| G_e2ee_leaf (environment_id : Z) (boot_sha256 transcript_sha256 leaf : Ptr)
| G_quote_batch (leaves : Ptr) (count : Z) (report_data proofs : Ptr)
| G_session_evidence (report : Ptr) (report_len : Z) (proof : Ptr) (proof_len : Z) (boot_document : Ptr) (boot_document_len : Z)
    (boot_inclusion : Ptr) (boot_inclusion_len certificate : Z) (evidence : Ptr).

(** The safety comments of [gateway.rs]: what a pointer that is not null must address. *)
Definition gateway_contract `{Sigstore} (c : GatewayCall) (m : Memory) : Prop :=
  match c with
  | G_node_keys_new signing_seed provisioning_seed keys =>
      or_null signing_seed (holds_bytes m signing_seed 64) /\ or_null provisioning_seed (holds_bytes m provisioning_seed 32)
      /\ or_null keys (holds m keys Sh_handle)
      /\ exclusive [signing_seed; provisioning_seed; keys] []
  | G_node_report_data keys _ spki challenge report_data =>
      or_null keys (holds m keys (Sh_owner K_keys)) /\ or_null spki (holds_bytes m spki 32)
      /\ or_null challenge (holds_bytes m challenge 32) /\ or_null report_data (holds_bytes m report_data 64)
      /\ exclusive [report_data] [spki; challenge]
  | G_node_boot_document keys _ spki challenge report report_len release document =>
      or_null keys (holds m keys (Sh_owner K_keys)) /\ or_null spki (holds_bytes m spki 32)
      /\ or_null challenge (holds_bytes m challenge 32) /\ readable m report report_len
      /\ or_null release (holds_bytes m release 32) /\ or_null document (holds m document Sh_buffer)
      /\ exclusive [document] [spki; challenge; report; release]
  | G_node_sign_boot_request keys _ node_id node_id_len _ signature =>
      or_null keys (holds m keys (Sh_owner K_keys)) /\ readable m node_id node_id_len
      /\ or_null signature (holds_bytes m signature SIGNATURE_BYTES)
      /\ exclusive [signature] [node_id]
  | G_node_sign_receipt keys boot request response metadata metadata_len receipt =>
      or_null keys (holds m keys (Sh_owner K_keys)) /\ or_null boot (holds_bytes m boot 32)
      /\ or_null request (holds_bytes m request 32) /\ or_null response (holds_bytes m response 32)
      /\ readable m metadata metadata_len /\ or_null receipt (holds m receipt Sh_buffer)
      /\ exclusive [receipt] [boot; request; response; metadata]
  | G_node_open_provisioning keys boot envelope envelope_len plaintext =>
      or_null keys (holds m keys (Sh_owner K_keys)) /\ or_null boot (holds_bytes m boot 32)
      /\ readable m envelope envelope_len /\ or_null plaintext (holds m plaintext Sh_buffer)
      /\ exclusive [plaintext] [boot; envelope]
  | G_tls_key_generate key public_key =>
      or_null key (holds m key Sh_handle) /\ or_null public_key (holds_bytes m public_key MLDSA_PUBLIC_KEY_BYTES)
      /\ exclusive [key; public_key] []
  | G_tls_key_sign key message message_len signature =>
      or_null key (holds m key (Sh_owner K_tls)) /\ readable m message message_len
      /\ or_null signature (holds_bytes m signature MLDSA_SIGNATURE_BYTES)
      /\ exclusive [signature] [message]
  | G_tls_leaf _ boot challenge spki leaf =>
      or_null boot (holds_bytes m boot 32) /\ or_null challenge (holds_bytes m challenge 32)
      /\ or_null spki (holds_bytes m spki 32) /\ or_null leaf (holds_bytes m leaf 64)
      /\ exclusive [leaf] [boot; challenge; spki]
  | G_e2ee_leaf _ boot transcript leaf =>
      or_null boot (holds_bytes m boot 32) /\ or_null transcript (holds_bytes m transcript 32)
      /\ or_null leaf (holds_bytes m leaf 64)
      /\ exclusive [leaf] [boot; transcript]
  | G_quote_batch leaves count report_data proofs =>
      readable m leaves (64 * count) /\ or_null report_data (holds_bytes m report_data 64)
      /\ or_null proofs (holds m proofs Sh_buffer)
      /\ exclusive [report_data; proofs] [leaves]
  | G_session_evidence report report_len proof proof_len document document_len inclusion inclusion_len _ evidence =>
      readable m report report_len /\ readable m proof proof_len /\ readable m document document_len
      /\ readable m inclusion inclusion_len /\ or_null evidence (holds m evidence Sh_buffer)
      /\ exclusive [evidence] [report; proof; document; inclusion]
  end.

Lemma gateway_contract_stable `{Sigstore} c : stable (gateway_contract c).
Proof. destruct c; cbn [gateway_contract]; stability. Qed.

Inductive ChannelCall :=
| H_setup (environment idle_seconds : Z) (hello : Ptr) (hello_len : Z) (boot_hash session id transcript response : Ptr)
| H_accept (session : Ptr) (number : Z) (data : Ptr) (len now_ms : Z) (reader writer offset plaintext_len : Ptr)
| H_session_expire (session : Ptr) (now_ms : Z)
| H_open (reader data : Ptr) (len : Z) (kind offset plaintext_len : Ptr)
| H_complete (reader : Ptr)
| H_seal (writer : Ptr) (kind : Z) (data : Ptr) (len : Z) (output : Ptr).

(** The safety comments of [channel.rs]. *)
Definition channel_contract `{Sigstore} (c : ChannelCall) (m : Memory) : Prop :=
  match c with
  | H_setup _ _ hello hello_len boot_hash session id transcript response =>
      readable m hello hello_len /\ readable m boot_hash 32 /\ or_null session (holds m session Sh_handle)
      /\ or_null id (holds_bytes m id 32) /\ or_null transcript (holds_bytes m transcript 32)
      /\ or_null response (holds m response Sh_buffer)
      /\ exclusive [session; id; transcript; response] [hello; boot_hash]
  | H_accept session _ data len _ reader writer offset plaintext_len =>
      or_null session (holds m session (Sh_owner K_session)) /\ readable m data len
      /\ exclusive [data; reader; writer; offset; plaintext_len] []
      /\ or_null reader (holds m reader Sh_handle) /\ or_null writer (holds m writer Sh_handle)
      /\ or_null offset (holds m offset Sh_scalar) /\ or_null plaintext_len (holds m plaintext_len Sh_scalar)
  | H_session_expire session _ => or_null session (holds m session (Sh_owner K_session))
  | H_open reader data len kind offset plaintext_len =>
      or_null reader (holds m reader (Sh_owner K_reader)) /\ readable m data len
      /\ exclusive [data; kind; offset; plaintext_len] []
      /\ or_null kind (holds m kind Sh_scalar) /\ or_null offset (holds m offset Sh_scalar)
      /\ or_null plaintext_len (holds m plaintext_len Sh_scalar)
  | H_complete reader => or_null reader (holds m reader (Sh_owner K_reader))
  | H_seal writer _ data len output =>
      or_null writer (holds m writer (Sh_owner K_writer)) /\ readable m data len /\ or_null output (holds m output Sh_buffer)
      /\ exclusive [output] [data]
  end.

Lemma channel_contract_stable `{Sigstore} c : stable (channel_contract c).
Proof. destruct c; cbn [channel_contract]; stability. Qed.

Lemma not_null p Q : or_null p Q -> is_null p = false -> Q.
Proof. by intros [->|]. Qed.

(** What the contract says of a pointer, checked not to be null where that matters. *)
Ltac promised :=
  let m := fresh "m" in let Hm := fresh "Hm" in
  intros m Hm; cbn in Hm; cbn [owner_kind]; destruct_and?;
  first [eassumption | eapply not_null; [eassumption|first [reflexivity|congruence]]].

Section Steps.
Context `{Sigstore} `{Random} (P : Memory -> Prop).

Lemma safe_array n p : 0 < n -> (forall m, P m -> or_null p (holds_bytes m p n)) -> safe P true (abi_array n p) (fun b => zlen b = n).
Proof.
  intros Hn Hp. unfold abi_array. destruct p as [l|]; [|intros m g _; by exists m, g, (Err St_Input)].
  apply sure_safe, sure_read; [lia|]. intros m Hm. right. by destruct (Hp m Hm).
Qed.
Lemma safe_input p n : (forall m, P m -> readable m p n) -> safe P true (abi_input p n) (fun _ => True).
Proof.
  intros Hp. unfold abi_input. destruct p as [l|].
  - intros m g Hm. destruct (Hp m Hm) as [Hpos Hl].
    destruct (sure_read (E := Status) (fun m' => m' = m) l n Hpos) with (m := m) (g := g) as (m' & g' & b & E & Hx & Hd & _); [|done|].
    { intros ? ->. destruct Hl as [|[|]]; [by left|done|by right]. }
    exists m', g', (Ok b). split_and!; try done. intros _. by apply Hd.
  - destruct (n =? 0); [|intros m g _; by exists m, g, (Err St_Input)]. intros m g _. by exists m, g, (Ok []).
Qed.
Lemma safe_hashes n p : (forall m, P m -> readable m p n) -> safe P true (abi_array n p) (fun _ => True).
Proof.
  intros Hp. destruct p as [l|]; [exact (safe_input (Some l) n Hp)|]. intros m g _. by exists m, g, (Err St_Input).
Qed.
Lemma safe_read {E} p n :
  is_null p && negb (n =? 0) = false -> (forall m, P m -> readable m p n) ->
  safe (E := E) P true (read_bytes (default O p) n) (fun b => zlen b = n).
Proof.
  intros Hn Hp m g Hm. destruct (Hp m Hm) as [Hpos Hl].
  destruct (sure_read (E := E) (fun m' => m' = m) (default O p) n Hpos) with (m := m) (g := g)
    as (m' & g' & b & E1 & Hx & Hd & Hq); [|done|].
  { intros ? ->. destruct Hl as [|[->|Hl]]; [by left| |].
    - cbn in Hn. left. by destruct (n =? 0) eqn:Ez; zbool.
    - right. destruct Hl as (len & (l & -> & Hl) & Hle). exists len. split; [by exists l|done]. }
  exists m', g', (Ok b). split_and!; try done; [intros _; by apply Hd|]. by intros a [= <-].
Qed.
Lemma safe_record p n :
  (forall m, P m -> readable m p n) -> safe P true (abi_record p n) (fun a => p = Some a.1 /\ zlen a.2 = n).
Proof.
  intros Hp. unfold abi_record. destruct p as [l|]; [|intros m g _; by exists m, g, (Err Record_)].
  intros m g Hm. unfold abi_guard, abi_bind. destruct (MAX_RECORD_BYTES <? n); [by exists m, g, (Err Record_)|].
  destruct (safe_read (E := Error) (Some l) n eq_refl Hp m g Hm) as (m' & g' & r & E1 & Hg & Hd & Hq). cbn in *. rewrite E1.
  exists m', g', (let? b := r in Ok (l, b)). destruct r as [b|e]; split_and!; try done; [intros _; apply Hd; by left| |].
  - intros a [= <-]. split; [done|]. by apply Hq.
  - intros _. apply Hd. by left.
Qed.
Lemma sure_write_back l buffer :
  (forall m, P m -> readable m (Some l) (zlen buffer)) -> sure P true (write_back l buffer) (fun _ => True).
Proof.
  intros Hp. unfold write_back. destruct (zlen buffer =? 0) eqn:Ez; [intros m g _; by exists m, g, tt|].
  zbool. apply sure_write_array. intros m Hm. destruct (Hp m Hm) as [_ [|[|]]]; done.
Qed.
Lemma safe_gateway_random {A} (f : rng -> rng * result A GatewayError) :
  safe P true (abi_gateway_random f) (fun a => exists g g', f g = (g', Ok a)).
Proof.
  intros m g _. unfold abi_gateway_random, abi_random. destruct (f g) as [g' r] eqn:Ef.
  exists m, g', (map_err gateway_status r). split_and!; try done. intros a ->%map_err_ok. by exists g, g'.
Qed.
Lemma sure_write_within {E} p b n :
  zlen b <= n -> (forall m, P m -> holds_bytes m p n) -> sure (E := E) P true (write_array p b) (fun _ => True).
Proof. intros Hb Hp. apply sure_write_array. intros m Hm. destruct (Hp m Hm) as (k & Hk & Hn). exists k. split; [done|lia]. Qed.
End Steps.

Ltac abi_prim :=
  lazymatch goal with
  | |- safe _ _ (abi_guard _ _) _ => apply safe_guard
  | |- safe _ _ (abi_of _) _ => apply safe_of
  | |- safe _ _ (abi_gateway _) _ => apply safe_of
  | |- safe _ _ (abi_gateway_random _) _ => apply safe_gateway_random
  | |- safe _ _ (abi_random _) _ => apply safe_random
  | |- safe _ _ (write_handle _ _) _ => apply sure_safe, sure_write_handle; promised
  | |- safe _ _ (write_buffer _ _ _) _ => apply sure_safe, sure_write_buffer; promised
  | |- safe _ _ (write_scalar _ _) _ => apply sure_safe, sure_write_scalar; promised
  | |- safe _ _ (publish_buffer _ _) _ => apply sure_safe, sure_publish_buffer; promised
  | |- safe _ _ (publish_owner _ _) _ => apply sure_safe, sure_publish_owner; promised
  | |- safe _ _ (abi_array _ _) _ => first [apply safe_array; [done|promised] | apply safe_hashes; promised]
  | |- safe _ _ (store_cell _ _) _ => apply sure_safe, sure_store; promised
  | |- safe _ _ (read_bytes _ _) _ => apply safe_read; [|promised]
  | |- safe _ _ (abi_record _ _) _ => apply safe_record; promised
  | |- safe _ _ (abi_input _ _) _ => apply safe_input; promised
  | |- safe _ _ (write_array _ _) _ => apply sure_safe; eapply sure_write_within; [|promised]
  | |- safe _ _ (owner_at _ _ _) _ => eapply safe_owner; [|promised]; intros [] [=]; by eexists
  end.
(** One statement of a call. *)
Ltac abi_step :=
  cbn beta zeta;
  lazymatch goal with
  | |- safe _ _ (abi_bind _ _) _ => eapply safe_bind; [first [apply gateway_contract_stable | apply channel_contract_stable]|abi_prim|let Hs := fresh "Hs" in intros ? Hs; cbn beta in Hs; rewrite ?orb_false_iff in Hs; destruct_and?; repeat case_match; simplify_eq]
  | |- safe _ _ (abi_of _) _ => apply safe_end
  | |- _ => first [abi_prim | apply safe_quiet; abi_prim]
  end.

(** The last statements allocate and cannot fail. *)
Ltac abi_publish :=
  apply sure_safe; eapply (sure_bind _ false false);
  [first [apply gateway_contract_stable | apply channel_contract_stable]
  |first [apply sure_publish_buffer | apply sure_publish_owner]; promised
  |intros _ _; first [apply sure_publish_buffer | apply sure_publish_owner]; promised].

Lemma zlen_slice_to_le {A} (l : list A) n : 0 <= n -> zlen (slice_to l n) <= n.
Proof. intros Hn. unfold zlen, slice_to. rewrite length_take. lia. Qed.

(** ** Runs *)

Section Runs.
Context `{Sigstore} `{Random} {E : Type}.

Lemma run_bind {A B} (c : Abi E A) (k : A -> Abi E B) m g m1 g1 a :
  c m g = Some (m1, g1, Ok a) -> abi_bind c k m g = k a m1 g1.
Proof. intros Hc. unfold abi_bind. by rewrite Hc. Qed.
Lemma run_guard c (e : E) m g : c = false -> abi_guard c e m g = Some (m, g, Ok tt).
Proof. by intros ->. Qed.
Lemma run_of {A} (r : result A E) a m g : r = Ok a -> abi_of r m g = Some (m, g, Ok a).
Proof. by intros ->. Qed.
Lemma run_handle l h old m g :
  m !! l = Some (C_handle old) -> write_handle (E := E) (Some l) h m g = Some (<[l := C_handle h]> m, g, Ok tt).
Proof. intros Hl. unfold write_handle. by rewrite Hl. Qed.
Lemma run_scalar l n old m g :
  m !! l = Some (C_scalar old) -> write_scalar (E := E) (Some l) n m g = Some (<[l := C_scalar n]> m, g, Ok tt).
Proof. intros Hl. unfold write_scalar. by rewrite Hl. Qed.
Lemma run_array l b old m g :
  m !! l = Some (C_bytes old) -> zlen b <= zlen old ->
  write_array (E := E) (Some l) b m g = Some (<[l := C_bytes (b ++ slice_from old (zlen b))]> m, g, Ok tt).
Proof. intros Hl Hb. unfold write_array. by rewrite Hl, (proj2 (Z.leb_le _ _)). Qed.
Lemma run_read l n b m g :
  m !! l = Some (C_bytes b) -> 0 < n <= zlen b -> read_bytes (E := E) l n m g = Some (m, g, Ok (slice_to b n)).
Proof. intros Hl Hn. unfold read_bytes. rewrite (proj2 (Z.eqb_neq _ _)), Hl, (proj2 (Z.leb_le _ _)) by lia. done. Qed.
Lemma run_owner {T} (project : AbiOwner -> option T) (absent : E) l o x m g :
  m !! l = Some (C_owner o) -> project o = Some x -> owner_at project absent (Some l) m g = Some (m, g, Ok (l, x)).
Proof. intros Hl Hx. unfold owner_at. by rewrite Hl, Hx. Qed.
Lemma run_publish_owner l o old m g :
  m !! l = Some (C_handle old) ->
  publish_owner (E := E) (Some l) o m g
  = Some (<[l := C_handle (Some (fresh (dom m)))]> (<[fresh (dom m) := C_owner o]> m), g, Ok tt).
Proof.
  intros Hl. unfold publish_owner, allocate. eapply run_handle. rewrite lookup_insert_ne; [done|].
  intros E1. pose proof (is_fresh (dom m)) as Hf. rewrite E1 in Hf. apply Hf. by eapply elem_of_dom_2.
Qed.
End Runs.

Lemma run_record `{Sigstore} `{Random} l n b m g :
  m !! l = Some (C_bytes b) -> 0 < n <= zlen b -> n <= MAX_RECORD_BYTES ->
  abi_record (Some l) n m g = Some (m, g, Ok (l, slice_to b n)).
Proof.
  intros Hl Hn Hx. unfold abi_record. erewrite run_bind by (apply run_guard, Z.ltb_ge, Hx).
  by erewrite run_bind by by apply run_read.
Qed.

(** What memory holds after insertions. *)
Ltac look_up := first [rewrite lookup_insert_eq | rewrite lookup_insert_ne by done].

(** A statement whose arguments are in memory. *)
Ltac run_step :=
  first [erewrite run_bind by first
    [ apply run_guard; reflexivity
    | eapply run_handle; by simplify_map_eq
    | eapply run_scalar; by simplify_map_eq
    | eapply run_read; [by simplify_map_eq|lia]
    | eapply run_array; [by simplify_map_eq|rewrite ?zlen_zeros by done; lia]
    | eapply run_owner; [by simplify_map_eq|done]
    | done ]]; cbn beta iota.

Section Calls.
Context `{Json} `{Base64} `{SignatureLaws} `{HashLaws} `{Encodings} `{Sigstore} `{X509} `{Unicode} `{Pkcs10}.
Context `{Agreement} `{Hpke} `{HpkeSeal} `{Random} `{Kdf} `{AeadLaws}.
Variable staging : bool.

Definition gateway_call (c : GatewayCall) : Abi Status unit :=
  match c with
  | G_node_keys_new s p k => stogas_node_keys_new s p k
  | G_node_report_data k e s c d => stogas_node_report_data staging k e s c d
  | G_node_boot_document k e s c r n g d => stogas_node_boot_document staging k e s c r n g d
  | G_node_sign_boot_request k p i n t s => stogas_node_sign_boot_request k p i n t s
  | G_node_sign_receipt k b q r m n t => stogas_node_sign_receipt k b q r m n t
  | G_node_open_provisioning k b e n p => stogas_node_open_provisioning k b e n p
  | G_tls_key_generate k p => stogas_tls_key_generate k p
  | G_tls_key_sign k m n s => stogas_tls_key_sign k m n s
  | G_tls_leaf e b c s l => stogas_tls_leaf staging e b c s l
  | G_e2ee_leaf e b t l => stogas_e2ee_leaf staging e b t l
  | G_quote_batch l n d p => stogas_quote_batch l n d p
  | G_session_evidence r n p m d o i q c e => stogas_session_evidence r n p m d o i q c e
  end.

(** The lengths of what is written to the caller's arrays. *)
Lemma commitment_length d data : BootReportData_commitment d = Ok data -> zlen data = 64.
Proof. unfold BootReportData_commitment. intros. case_all. apply sha512_length. Qed.

Lemma mldsa_sign_length k message context g g' s : MldsaSigningKey_sign k message context g = (g', Ok s) -> zlen s = 3309.
Proof.
  unfold MldsaSigningKey_sign, sign_with_randomness. intros. case_all.
  match goal with H : ok_or _ _ = Ok _ |- _ => apply ok_or_ok in H; by eapply ml_dsa_signature_length end.
Qed.

Lemma sign_length k message g g' s : SigningKey_sign k message g = (g', Ok s) -> zlen s = SIGNATURE_BYTES.
Proof.
  unfold SigningKey_sign. intros. case_all. apply mldsa_sign_length in Heqp. by rewrite zlen_app, Heqp, ed25519_signature_length.
Qed.

Lemma boot_request_length k purpose node_id issued_at_ms g g' s :
  NodeKeys_sign_boot_request k purpose node_id issued_at_ms g = (g', Ok s) -> zlen s = SIGNATURE_BYTES.
Proof.
  unfold NodeKeys_sign_boot_request. destruct (SigningKey_sign _ _ g) as [g1 r] eqn:Es. intros [= <- ->%map_err_ok].
  by eapply sign_length.
Qed.

Lemma tls_sign_length k message g g' s : TlsKey_sign k message g = (g', Ok s) -> zlen s = MLDSA_SIGNATURE_BYTES.
Proof.
  unfold TlsKey_sign. destruct (MldsaSigningKey_sign _ _ _ g) as [g1 r] eqn:Es. intros [= <- ->%map_err_ok].
  by eapply mldsa_sign_length.
Qed.

Lemma tls_public_length g g' k : TlsKey_generate g = (g', Ok k) -> zlen (TlsKey_public_key k) = MLDSA_PUBLIC_KEY_BYTES.
Proof. unfold TlsKey_generate, MldsaSigningKey_generate, map_err. intros. case_all. apply ml_dsa_public_length. Qed.

Lemma quote_batch_length leaves data proofs : quote_batch leaves = Ok (data, proofs) -> zlen data = 64.
Proof. unfold quote_batch. intros. case_all. apply sha512_length. Qed.

(** Each call of [gateway.rs] under its contract. *)
Lemma gateway_call_safe c : safe (gateway_contract c) false (gateway_call c) (fun _ => True).
Proof.
  destruct c; cbn [gateway_call].
  - unfold stogas_node_keys_new. repeat abi_step; done.
  - unfold stogas_node_report_data. repeat abi_step. apply map_err_ok, map_err_ok, commitment_length in Hs3. lia.
  - unfold stogas_node_boot_document. repeat abi_step.
  - unfold stogas_node_sign_boot_request. repeat abi_step.
    match goal with H : exists _ _, _ |- _ => destruct H as (? & ? & ->%boot_request_length) end. done.
  - unfold stogas_node_sign_receipt. repeat abi_step.
  - unfold stogas_node_open_provisioning. repeat abi_step.
  - unfold stogas_tls_key_generate. repeat abi_step.
    match goal with H : exists _ _, _ |- _ => destruct H as (? & ? & ->%tls_public_length) end. done.
  - unfold stogas_tls_key_sign. repeat abi_step.
    match goal with H : exists _ _, _ |- _ => destruct H as (? & ? & ->%tls_sign_length) end. done.
  - unfold stogas_tls_leaf. repeat abi_step. apply Z.eq_le_incl, sha512_length.
  - unfold stogas_e2ee_leaf. repeat abi_step. apply Z.eq_le_incl, sha512_length.
  - unfold stogas_quote_batch. repeat abi_step.
    match goal with H : map_err _ _ = Ok _ |- _ => apply map_err_ok, quote_batch_length in H as -> end. done.
  - unfold stogas_session_evidence. repeat abi_step.
Qed.

Definition channel_call (c : ChannelCall) : Abi Error unit :=
  match c with
  | H_setup e i h n b s d t r => stogas_channel_setup staging e i h n b s d t r
  | H_accept s n d l t r w o p => stogas_channel_accept s n d l t r w o p
  | H_session_expire s t => stogas_channel_session_expire s t
  | H_open r d n k o p => stogas_channel_open r d n k o p
  | H_complete r => stogas_channel_complete r
  | H_seal w k d n o => stogas_channel_seal w k d n o
  end.

Lemma channel_setup_safe e i h n b s d t r :
  safe (channel_contract (H_setup e i h n b s d t r)) false (stogas_channel_setup staging e i h n b s d t r) (fun _ => True).
Proof.
  unfold stogas_channel_setup. repeat abi_step; try done; try (by apply zlen_slice_to_le); [| |abi_publish];
    by match goal with H : is_null ?p = false |- is_null ?p && _ = false => rewrite H end.
Qed.

Lemma channel_accept_safe s n d l t r w o p :
  safe (channel_contract (H_accept s n d l t r w o p)) false (stogas_channel_accept s n d l t r w o p) (fun _ => True).
Proof.
  unfold stogas_channel_accept. repeat abi_step.
  assert (Hl : zlen l0 = zlen l).
  { destruct Hs as (g1 & g2 & Ha). destruct (ServerSession_accept_start _ _ _ _ _) as [[[s2 g3] b2] o2] eqn:Es.
    apply accept_start_in_place in Es as [Hl _]. by simplify_eq. }
  cbn [fst snd]. rewrite Hl.
  eapply safe_bind; [apply channel_contract_stable|apply sure_safe, sure_write_back; promised|intros _ _].
  repeat abi_step. abi_publish.
Qed.

Lemma channel_open_safe r d n k o p :
  safe (channel_contract (H_open r d n k o p)) false (stogas_channel_open r d n k o p) (fun _ => True).
Proof.
  unfold stogas_channel_open. repeat abi_step.
  match goal with H : ServerReader_open _ _ = _ |- _ => rename H into Ho end. unfold ServerReader_open in Ho.
  destruct (Records_open _ _) as [[r1 b1] o1] eqn:Er. apply open_in_place in Er as [Hl _]. simplify_eq. cbn [fst snd]. rewrite <- Hl.
  eapply safe_bind; [apply channel_contract_stable|apply sure_safe, sure_write_back; promised|intros _ _].
  repeat abi_step.
Qed.

Lemma channel_seal_safe w k d n o :
  safe (channel_contract (H_seal w k d n o)) false (stogas_channel_seal w k d n o) (fun _ => True).
Proof.
  unfold stogas_channel_seal. repeat abi_step. by match goal with H : _ || _ = false |- _ => apply orb_false_iff in H as [_ ?] end.
Qed.

(** Each call of [channel.rs] under its contract. *)
Lemma channel_call_safe c : safe (channel_contract c) false (channel_call c) (fun _ => True).
Proof.
  destruct c; cbn [channel_call].
  - apply channel_setup_safe.
  - apply channel_accept_safe.
  - unfold stogas_channel_session_expire. repeat abi_step.
  - apply channel_open_safe.
  - unfold stogas_channel_complete. repeat abi_step.
  - apply channel_seal_safe.
Qed.

(** No call of [gateway.rs] is undefined when its pointers are null or address what the safety comments ask: with
    any lengths, identifiers and contents it returns a status, every address keeps the kind and size of what it
    holds, and a status other than 0 means that nothing was allocated for the caller to free. *)
Theorem gateway_call_defined c m g :
  gateway_contract c m ->
  exists m' g' r, gateway_call c m g = Some (m', g', r) /\ grows m m' /\ (status_code r <> 0 -> dom m' = dom m).
Proof.
  intros Hm. destruct (gateway_call_safe c m g Hm) as (m' & g' & r & Hc & Hg & Hd & _). exists m', g', r. split_and!; [done|done|].
  intros Hs. apply Hd. right. destruct r as [[]|e]; [done|by exists e].
Qed.

(** The same of the calls of [channel.rs], whatever bytes the records hold. *)
Theorem channel_call_defined c m g :
  channel_contract c m ->
  exists m' g' r, channel_call c m g = Some (m', g', r) /\ grows m m' /\ (channel_code r <> 0 -> dom m' = dom m).
Proof.
  intros Hm. destruct (channel_call_safe c m g Hm) as (m' & g' & r & Hc & Hg & Hd & _). exists m', g', r. split_and!; [done|done|].
  intros Hs. apply Hd. right. destruct r as [[]|e]; [done|by exists e].
Qed.

(** The seeds that the keys come from are erased before the caller has the keys. *)
Theorem seeds_erased l1 l2 lk (signing provisioning rest1 rest2 : bytes) h m g :
  m !! l1 = Some (C_bytes (signing ++ rest1)) -> m !! l2 = Some (C_bytes (provisioning ++ rest2)) -> m !! lk = Some (C_handle h) ->
  l1 <> l2 -> zlen signing = 64 -> zlen provisioning = 32 ->
  exists m' lo, stogas_node_keys_new (Some l1) (Some l2) (Some lk) m g = Some (m', g, Ok tt)
    /\ m' !! l1 = Some (C_bytes (zeros 64 ++ rest1)) /\ m' !! l2 = Some (C_bytes (zeros 32 ++ rest2))
    /\ m' !! lk = Some (C_handle (Some lo)) /\ m !! lo = None
    /\ m' !! lo = Some (C_owner (Ow_keys (NodeKeys_from_seeds (slice_to signing 32) (slice_from signing 32) provisioning))).
Proof.
  intros Hl1 Hl2 Hk Hn Hs Hp.
  assert (lk <> l1 /\ lk <> l2) as [Hn1 Hn2] by (split; intros ->; congruence).
  pose proof (zlen_nonneg rest1). pose proof (zlen_nonneg rest2).
  assert (64 <= zlen (signing ++ rest1) /\ 32 <= zlen (provisioning ++ rest2)) as [Hz1 Hz2] by (rewrite !zlen_app; lia).
  unfold stogas_node_keys_new, abi_array. repeat run_step. rewrite !slice_to_app by done.
  erewrite run_publish_owner by by simplify_map_eq. 
  rewrite !slice_from_app by (by rewrite zlen_zeros).
  set (m1 := <[l2 := _]> _). set (lo := fresh (dom m1)).
  assert (Hf : m1 !! lo = None) by apply not_elem_of_dom, is_fresh.
  assert (lo <> l1 /\ lo <> l2 /\ lo <> lk) as (F1 & F2 & F3) by (split_and!; intros ->; subst m1; by simplify_map_eq).
  eexists _, lo. split; [done|]. clearbody lo. subst m1. split_and!; try by repeat look_up.
  revert Hf. by repeat look_up.
Qed.

(** The offset and the length that [stogas_channel_open] returns delimit the plaintext in the caller's own buffer. *)
Theorem opened_plaintext_located lr ld lk lo lp r r' (b buffer content : bytes) len kind k0 o0 p0 m g :
  m !! lr = Some (C_owner (Ow_reader r)) -> m !! ld = Some (C_bytes b) -> m !! lk = Some (C_scalar k0) ->
  m !! lo = Some (C_scalar o0) -> m !! lp = Some (C_scalar p0) -> lk <> lo -> lk <> lp -> lo <> lp ->
  0 < len <= zlen b -> len <= MAX_RECORD_BYTES ->
  ServerReader_open r (slice_to b len) = (r', buffer, Ok (kind, content)) ->
  exists m' offset b', stogas_channel_open (Some lr) (Some ld) len (Some lk) (Some lo) (Some lp) m g = Some (m', g, Ok tt)
    /\ m' !! lk = Some (C_scalar (byte_to_Z (Kind_to_byte kind))) /\ m' !! lo = Some (C_scalar offset)
    /\ m' !! lp = Some (C_scalar (zlen content)) /\ m' !! ld = Some (C_bytes b')
    /\ slice b' offset (offset + zlen content) = content /\ slice_from b' len = slice_from b len.
Proof.
  intros Hr Hd Hk Ho Hp N1 N2 N3 Hl Hx Hopen.
  assert (lr <> lk /\ lr <> lo /\ lr <> lp /\ lr <> ld) as (? & ? & ? & ?) by (split_and!; intros ->; congruence).
  assert (ld <> lk /\ ld <> lo /\ ld <> lp) as (? & ? & ?) by (split_and!; intros ->; congruence).
  pose proof Hopen as Hopen'. unfold ServerReader_open in Hopen'. destruct (Records_open _ _) as [[r1 b1] o1] eqn:Er.
  apply open_in_place in Er as [Hlen Hin]. simplify_eq. specialize (Hin _ eq_refl). cbn [snd] in Hin.
  rewrite zlen_slice_to in Hlen by lia. unfold stogas_channel_open.
  repeat run_step. change (is_null (Some ld)) with false. cbn [orb]. rewrite (proj2 (Z.ltb_ge _ _)) by done.
  erewrite run_bind by (apply run_record; [by simplify_map_eq|done|done]). cbn beta iota. rewrite Hopen. run_step.
  unfold write_back. rewrite (proj2 (Z.eqb_neq _ _)) by lia. erewrite run_bind by (eapply run_array; [by simplify_map_eq|lia]).
  repeat run_step.
  eexists _, (plaintext_offset buffer content), (buffer ++ slice_from b len).
  rewrite Hlen. split; [eapply run_scalar; by simplify_map_eq|]. split_and!; try by repeat look_up.
  - by apply located_slice.
  - by apply slice_from_app.
Qed.

(** ** Sequences of calls *)

Definition call_contract (c : GatewayCall + ChannelCall) : Memory -> Prop :=
  match c with inl c => gateway_contract c | inr c => channel_contract c end.

Definition call_code (c : GatewayCall + ChannelCall) (m : Memory) (g : rng) : option (Memory * rng * Z) :=
  match c with
  | inl c => match gateway_call c m g with Some (m, g, r) => Some (m, g, status_code r) | None => None end
  | inr c => match channel_call c m g with Some (m, g, r) => Some (m, g, channel_code r) | None => None end
  end.

Fixpoint call_codes (cs : list (GatewayCall + ChannelCall)) (m : Memory) (g : rng) : option (Memory * rng * list Z) :=
  match cs with
  | [] => Some (m, g, [])
  | c :: cs =>
      match call_code c m g with
      | Some (m, g, code) =>
          match call_codes cs m g with Some (m, g, codes) => Some (m, g, code :: codes) | None => None end
      | None => None
      end
  end.

Lemma call_defined c m g : call_contract c m -> exists m' g' code, call_code c m g = Some (m', g', code) /\ grows m m'.
Proof.
  destruct c as [c|c]; intros Hm; cbn.
  - destruct (gateway_call_safe c m g Hm) as (m' & g' & r & -> & Hg & _). by eexists _, _, _.
  - destruct (channel_call_safe c m g Hm) as (m' & g' & r & -> & Hg & _). by eexists _, _, _.
Qed.

Lemma call_contract_stable c : stable (call_contract c).
Proof. destruct c; [apply gateway_contract_stable|apply channel_contract_stable]. Qed.

(** C29. Storage prepared once serves any sequence of calls: no call invalidates what another one's contract asks of
    memory, so a caller that frees nothing in between never meets undefined behaviour. *)
Theorem calls_defined cs m g :
  Forall (fun c => call_contract c m) cs ->
  exists m' g' codes, call_codes cs m g = Some (m', g', codes) /\ length codes = length cs /\ grows m m'.
Proof.
  revert m g. induction cs as [|c cs IH]; intros m g Hcs; cbn; [by exists m, g, []|]. inv Hcs as [|? ? Hc Hcs'].
  destruct (call_defined c m g Hc) as (m1 & g1 & code & -> & Hg1).
  destruct (IH m1 g1) as (m2 & g2 & codes & -> & Hl & Hg2).
  { eapply Forall_impl; [done|]. intros c' Hc'. by eapply call_contract_stable. }
  exists m2, g2, (code :: codes). split_and!; [done|by cbn; rewrite Hl|by etrans].
Qed.
End Calls.
