(* ===== verification/EvidenceAbi.v ===== *)
(** The C interface of the offline verifier ([ffi/src/lib.rs], [ffi/src/evidence.rs], [ffi/src/evidence/history.rs]):
    handles of a verifier and of the snapshots it installed, and responses as JSON texts that end in a null byte.

    A lock that a panic poisoned is not represented. What errors display is a parameter. *)

From S2P Require Import Prelude Primitives BTree Json Text Signing Attestation Setup Sse Receipt Provisioning Documents Deserialize.
From S2P Require Import Approvals Snp Releases Amd Collateral Certificates Snapshot Boot SdkRelease EvidenceArchive CommandLine GatewayAbi.

Open Scope Z_scope.

(** ** lib.rs *)

Record AbiError := mkAbiError { ae_message : bytes; ae_code : option bytes }.

Definition message_error (message : bytes) : AbiError := mkAbiError message (Some (ascii "invalid_operation")).

(** Fields without a value are left out. *)
Definition AbiResponse_to_value (r : result Value AbiError) : Value :=
  match r with
  | Ok value => JObject [(ascii "ok", JBool true); (ascii "value", value)]
  | Err e => JObject ([(ascii "ok", JBool false); (ascii "error", JString (ae_message e))]
      ++ match ae_code e with Some code => [(ascii "code", JString code)] | None => [] end)
  end.

Definition INVALID_RESPONSE : Value :=
  JObject [(ascii "ok", JBool false); (ascii "error", JString (ascii "invalid verifier response"))].

Section Library.
Context `{Sigstore} `{Json} `{Random}.

(** [CString::new]: a text without a null byte, and one after it. *)
Definition c_string (text fallback : bytes) : bytes :=
  (if bool_decide (x00 ∈ text) then if bool_decide (x00 ∈ fallback) then [] else fallback else text) ++ [x00].

(** [response_coded] without panics: the operation's outcome as a text that the caller frees. *)
Definition response_coded (operation : Abi AbiError Value) : Abi Empty_set nat := fun m g =>
  match operation m g with
  | Some (m, g, r) =>
      allocate (C_bytes (c_string (json_to_vec (AbiResponse_to_value r)) (json_to_vec INVALID_RESPONSE))) m g
  | None => None
  end.

Definition stogas_verifier_string_free (value : Ptr) (m : Memory) : option Memory :=
  match value with
  | None => Some m
  | Some l => match m !! l with Some (C_bytes b) => if bool_decide (last b = Some x00) then Some (delete l m) else None | _ => None end
  end.

Definition input_slice (pointer : Ptr) (length maximum : Z) (label : bytes) : Abi AbiError bytes :=
  let@ _ := abi_guard (maximum <? length) (message_error (label ++ ascii " exceeds " ++ decimal maximum ++ ascii " bytes")) in
  if length =? 0 then abi_ret []
  else match pointer with
       | None => abi_of (Err (message_error (label ++ ascii " pointer is null")))
       | Some l => read_bytes l length
       end.
End Library.

(** ** evidence.rs *)

Record Configuration := mkConfiguration { cf_environment : Environment; cf_root : option RootKey }.

Definition Configuration_from_value (v : Value) : option Configuration :=
  match text_struct [ascii "environment"; ascii "root"] v with
  | Some [environment; root] =>
      environment ← environment ≫= Environment_from_value;
      match root with
      | None | Some JNull => Some (mkConfiguration environment None)
      | Some root => root ← RootKey_from_value root; Some (mkConfiguration environment (Some root))
      end
  | _ => None
  end.

Definition VerifiedReceipt_to_value (r : VerifiedReceipt) : Value :=
  JObject [(ascii "node_id", JString (Receipt.vr_node_id r)); (ascii "boot_sha256", JString (vr_boot_sha256 r));
           (ascii "request_sha256", JString (vr_request_sha256 r)); (ascii "response_sha256", JString (vr_response_sha256 r))].

Section Evidence.
Context `{Json} `{Base64} `{Signatures} `{Hash} `{Encodings} `{Sigstore} `{X509} `{Unicode} `{Pkcs10} `{Agreement} `{Hpke} `{Random}.

(** The compiled roots, and what errors display. *)
Variable root_json : Environment -> bytes.
Variable show_evidence : EvidenceError -> bytes.
Variable show_receipt : ReceiptError -> bytes.

Definition abi_evidence {A} (r : result A EvidenceError) : Abi AbiError A :=
  abi_of (map_err (fun e => mkAbiError (show_evidence e) (Some (code e))) r).
Definition abi_receipt {A} (r : result A ReceiptError) : Abi AbiError A :=
  abi_of (map_err (fun e => mkAbiError (show_receipt e) (Some (ascii "invalid_receipt"))) r).

(** What a verifier shares with its snapshots. *)
Definition shared_of (v : Verifier) : Boot.Shared :=
  {| sh_key_state := av_key_state (ve_approvals v); sh_revocations := ve_revocations v |}.

Definition stogas_evidence_new (configuration : Ptr) (configuration_len : Z) (output : Ptr) : Abi Empty_set nat :=
  response_coded (
    let@ _ := abi_guard (is_null output) (message_error (ascii "evidence output pointer is null")) in
    let@ _ := write_handle output None in
    let@ text := input_slice configuration configuration_len 4096 (ascii "configuration") in
    let@ config := abi_of (ok_or (json_tree text ≫= Configuration_from_value)
                             (message_error (ascii "invalid evidence configuration"))) in
    let@ core := abi_evidence match cf_root config with
                              | Some root => Verifier_new (cf_environment config) root
                              | None => Verifier_stogas root_json (cf_environment config)
                              end in
    let@ shared := allocate (C_owner (Ow_shared (shared_of core))) in
    let@ _ := publish_owner output (Ow_verifier shared core) in
    abi_ret JNull).

Definition stogas_evidence_free : Ptr -> Memory -> option Memory := free_owner as_verifier.
Definition stogas_evidence_snapshot_free : Ptr -> Memory -> option Memory := free_owner as_snapshot.

(** What a refresh learns is kept whether it succeeds or not. *)
Definition stogas_evidence_refresh (handle bundle : Ptr) (bundle_len now_unix_ms : Z) (output : Ptr) : Abi Empty_set nat :=
  response_coded (
    let@ _ := abi_guard (is_null output) (message_error (ascii "snapshot output pointer is null")) in
    let@ _ := write_handle output None in
    let@ (l, (shared, verifier)) := owner_at as_verifier (message_error (ascii "evidence handle is null")) handle in
    let@ text := input_slice bundle bundle_len MAX_INPUT_BYTES (ascii "evidence") in
    let (verifier, r) := refresh verifier text now_unix_ms in
    let@ _ := store_cell l (C_owner (Ow_verifier shared verifier)) in
    let@ _ := store_cell shared (C_owner (Ow_shared (shared_of verifier))) in
    let@ core := abi_evidence r in
    let@ _ := publish_owner output (Ow_snapshot shared core) in
    abi_ret (Snapshot_summary core)).

(** [snapshot]: a live snapshot and what its verifier has learned by now. *)
Definition abi_snapshot (handle : Ptr) : Abi AbiError (Snapshot * Boot.Shared) :=
  let@ (_, (shared, snapshot)) := owner_at as_snapshot (message_error (ascii "evidence snapshot is null")) handle in
  let@ (_, state) := owner_at as_shared (message_error []) (Some shared) in
  abi_ret (snapshot, state).

(** [try_into] of a slice of at most 32 bytes. *)
Definition abi_digest (b message : bytes) : Abi AbiError bytes :=
  let@ _ := abi_guard (negb (zlen b =? 32)) (message_error message) in abi_ret b.

Definition stogas_evidence_verify_registration (handle document : Ptr) (document_len : Z) (challenge : Ptr)
    (challenge_len now_unix_ms : Z) : Abi Empty_set nat :=
  response_coded (
    let@ (snapshot, shared) := abi_snapshot handle in
    let@ document := input_slice document document_len MAX_EVIDENCE_BYTES (ascii "boot") in
    let@ challenge := input_slice challenge challenge_len 32 (ascii "challenge") in
    let@ challenge := abi_digest challenge (ascii "challenge must be 32 bytes") in
    let@ registration := abi_evidence (Snapshot_verify_registration snapshot shared document challenge now_unix_ms) in
    abi_ret (VerifiedRegistration_identity_summary registration None)).

(** [VerifiedBoot::summary]. *)
Definition boot_summary (boot : Boot.VerifiedBoot) : Value :=
  VerifiedRegistration_identity_summary (vb_identity boot) (Some (vb_integrated_time_unix_ms boot)).

Definition stogas_evidence_verify_logged_boot (handle document : Ptr) (document_len : Z) (inclusion : Ptr)
    (inclusion_len now_unix_ms : Z) : Abi Empty_set nat :=
  response_coded (
    let@ (snapshot, shared) := abi_snapshot handle in
    let@ document := input_slice document document_len MAX_EVIDENCE_BYTES (ascii "boot") in
    let@ inclusion := input_slice inclusion inclusion_len MAX_EVIDENCE_BYTES (ascii "inclusion") in
    let@ boot := abi_evidence (Snapshot_verify_logged_boot snapshot shared document inclusion now_unix_ms) in
    abi_ret (boot_summary boot)).

(** The receipt and both digests, read and measured. *)
Definition abi_receipt_inputs (receipt : Ptr) (receipt_len : Z) (request : Ptr) (request_len : Z) (response : Ptr) (response_len : Z)
    : Abi AbiError (bytes * bytes * bytes) :=
  let@ receipt := input_slice receipt receipt_len MAX_METADATA_BYTES (ascii "receipt") in
  let@ request := input_slice request request_len 32 (ascii "request SHA-256") in
  let@ response := input_slice response response_len 32 (ascii "response SHA-256") in
  let@ request := abi_digest request (ascii "request SHA-256 must be 32 bytes") in
  let@ response := abi_digest response (ascii "response SHA-256 must be 32 bytes") in
  abi_ret (receipt, request, response).

Definition abi_verified_receipt (boot : Boot.VerifiedBoot) (receipt request response : bytes) : Abi AbiError Value :=
  let@ verified := abi_receipt (verify_metadata receipt (boot_of_archive boot) request response) in
  abi_ret (VerifiedReceipt_to_value (vm_receipt verified)).

Definition stogas_evidence_verify_receipt (handle document : Ptr) (document_len : Z) (inclusion : Ptr) (inclusion_len : Z)
    (receipt : Ptr) (receipt_len : Z) (request_hash : Ptr) (request_hash_len : Z) (response_hash : Ptr)
    (response_hash_len now_unix_ms : Z) : Abi Empty_set nat :=
  response_coded (
    let@ (snapshot, shared) := abi_snapshot handle in
    let@ document := input_slice document document_len MAX_EVIDENCE_BYTES (ascii "boot") in
    let@ inclusion := input_slice inclusion inclusion_len MAX_EVIDENCE_BYTES (ascii "inclusion") in
    let@ (receipt, request, response) :=
      abi_receipt_inputs receipt receipt_len request_hash request_hash_len response_hash response_hash_len in
    let@ boot := abi_evidence (Snapshot_verify_logged_boot snapshot shared document inclusion now_unix_ms) in
    abi_verified_receipt boot receipt request response).

(** ** evidence/history.rs *)

Definition abi_verifier (handle : Ptr) : Abi AbiError Verifier :=
  let@ (_, (_, verifier)) := owner_at as_verifier (message_error (ascii "evidence handle is null")) handle in
  abi_ret verifier.

Definition stogas_evidence_verify_archive (handle bundle : Ptr) (bundle_len now_unix_ms : Z) : Abi Empty_set nat :=
  response_coded (
    let@ verifier := abi_verifier handle in
    let@ bundle := input_slice bundle bundle_len MAX_INPUT_BYTES (ascii "evidence") in
    abi_evidence (verify_evidence_archive verifier bundle now_unix_ms)).

Definition stogas_evidence_verify_boot_archive (handle archive : Ptr) (archive_len : Z) (bundle : Ptr)
    (bundle_len now_unix_ms : Z) : Abi Empty_set nat :=
  response_coded (
    let@ verifier := abi_verifier handle in
    let@ archive := input_slice archive archive_len MAX_ARCHIVE_BYTES (ascii "boot archive") in
    let@ bundle := input_slice bundle bundle_len MAX_INPUT_BYTES (ascii "evidence") in
    let@ boot := abi_evidence (Verifier_verify_boot_archive verifier archive bundle now_unix_ms) in
    abi_ret (boot_summary boot)).

Definition stogas_evidence_verify_receipt_archive (handle archive : Ptr) (archive_len : Z) (bundle : Ptr) (bundle_len : Z)
    (receipt : Ptr) (receipt_len : Z) (request_hash : Ptr) (request_hash_len : Z) (response_hash : Ptr)
    (response_hash_len now_unix_ms : Z) : Abi Empty_set nat :=
  response_coded (
    let@ verifier := abi_verifier handle in
    let@ archive := input_slice archive archive_len MAX_ARCHIVE_BYTES (ascii "boot archive") in
    let@ bundle := input_slice bundle bundle_len MAX_INPUT_BYTES (ascii "evidence") in
    let@ (receipt, request, response) :=
      abi_receipt_inputs receipt receipt_len request_hash request_hash_len response_hash response_hash_len in
    let@ boot := abi_evidence (Verifier_verify_boot_archive verifier archive bundle now_unix_ms) in
    abi_verified_receipt boot receipt request response).
End Evidence.

(** * Theory

    Under the documented contract no call is undefined, a failed call allocates nothing but its response, and a
    snapshot is checked against what its verifier has learned since, also after the verifier was freed. *)

Inductive EvidenceCall :=
| E_new (configuration : Ptr) (configuration_len : Z) (output : Ptr)
| E_refresh (handle bundle : Ptr) (bundle_len now_unix_ms : Z) (output : Ptr)
| E_registration (handle document : Ptr) (document_len : Z) (challenge : Ptr) (challenge_len now_unix_ms : Z)
| E_logged_boot (handle document : Ptr) (document_len : Z) (inclusion : Ptr) (inclusion_len now_unix_ms : Z)
| E_receipt (handle document : Ptr) (document_len : Z) (inclusion : Ptr) (inclusion_len : Z) (receipt : Ptr) (receipt_len : Z)
    (request : Ptr) (request_len : Z) (response : Ptr) (response_len now_unix_ms : Z)
| E_archive (handle bundle : Ptr) (bundle_len now_unix_ms : Z)
| E_boot_archive (handle archive : Ptr) (archive_len : Z) (bundle : Ptr) (bundle_len now_unix_ms : Z)
| E_receipt_archive (handle archive : Ptr) (archive_len : Z) (bundle : Ptr) (bundle_len : Z) (receipt : Ptr) (receipt_len : Z)
    (request : Ptr) (request_len : Z) (response : Ptr) (response_len now_unix_ms : Z).

Section Contracts.
Context `{Sigstore}.

(** A live handle whose owner shares the state at [shared]. *)
Definition live (m : Memory) (handle : Ptr) (kind : OwnerKind) (shared : nat) : Prop :=
  or_null handle (holds m handle (Sh_owner kind)) /\ or_null handle (holds m (Some shared) (Sh_owner K_shared)).

Definition evidence_contract (shared : nat) (c : EvidenceCall) (m : Memory) : Prop :=
  match c with
  | E_new configuration configuration_len output =>
      readable m configuration configuration_len /\ or_null output (holds m output Sh_handle)
      /\ exclusive [output] [configuration]
  | E_refresh handle bundle bundle_len _ output =>
      live m handle (K_verifier shared) shared /\ readable m bundle bundle_len /\ or_null output (holds m output Sh_handle)
      /\ exclusive [output] [bundle]
  | E_registration handle document document_len challenge challenge_len _ =>
      live m handle (K_snapshot shared) shared /\ readable m document document_len /\ readable m challenge challenge_len
  | E_logged_boot handle document document_len inclusion inclusion_len _ =>
      live m handle (K_snapshot shared) shared /\ readable m document document_len /\ readable m inclusion inclusion_len
  | E_receipt handle document document_len inclusion inclusion_len receipt receipt_len request request_len response response_len _ =>
      live m handle (K_snapshot shared) shared /\ readable m document document_len /\ readable m inclusion inclusion_len
      /\ readable m receipt receipt_len /\ readable m request request_len /\ readable m response response_len
  | E_archive handle bundle bundle_len _ => live m handle (K_verifier shared) shared /\ readable m bundle bundle_len
  | E_boot_archive handle archive archive_len bundle bundle_len _ =>
      live m handle (K_verifier shared) shared /\ readable m archive archive_len /\ readable m bundle bundle_len
  | E_receipt_archive handle archive archive_len bundle bundle_len receipt receipt_len request request_len response response_len _ =>
      live m handle (K_verifier shared) shared /\ readable m archive archive_len /\ readable m bundle bundle_len
      /\ readable m receipt receipt_len /\ readable m request request_len /\ readable m response response_len
  end.

Lemma evidence_contract_stable shared c : stable (evidence_contract shared c).
Proof. destruct c; cbn [evidence_contract]; unfold live; stability. Qed.
End Contracts.

Section EvidenceSteps.
Context `{Sigstore} `{Random} (P : Memory -> Prop) (HP : stable P).

Lemma safe_input_slice p n maximum label : (forall m, P m -> readable m p n) -> safe P true (input_slice p n maximum label) (fun _ => True).
Proof.
  intros Hp. unfold input_slice. eapply safe_bind; [done|apply safe_guard|intros _ _]. destruct (n =? 0) eqn:En; [apply safe_end|].
  destruct p as [l|]; [|apply safe_end]. intros m g Hm.
  destruct (safe_read P (E := AbiError) (Some l) n eq_refl Hp m g Hm) as (m' & g' & r & E & Hg & Hd & _). by exists m', g', r.
Qed.

Lemma safe_digest b message : safe P true (abi_digest b message) (fun _ => True).
Proof. unfold abi_digest. eapply safe_bind; [done|apply safe_guard|intros _ _]. apply safe_end. Qed.

Lemma sure_allocate {E} c : sure (E := E) P false (allocate c) (fun _ => True).
Proof.
  intros m g Hm. eexists _, g, _. split; [done|]. split_and!; [|done|done]. apply grows_fresh.
Qed.
Lemma sure_ret {E A} (a : A) : sure (E := E) P true (abi_ret a) (fun _ => True).
Proof. intros m g _. by exists m, g, a. Qed.

Lemma safe_verifier p shared :
  (forall m, P m -> or_null p (holds m p (Sh_owner (K_verifier shared)))) ->
  safe P true (abi_verifier p) (fun _ => True).
Proof.
  intros Hp. unfold abi_verifier. eapply safe_bind; [done|eapply safe_owner; [|done]; intros [] [=]; by eexists|].
  intros [l [sh v]] _. apply safe_end.
Qed.
Lemma safe_snapshot p shared :
  (forall m, P m -> live m p (K_snapshot shared) shared) -> safe P true (abi_snapshot p) (fun _ => True).
Proof.
  intros Hp. unfold abi_snapshot. eapply safe_bind; [done|eapply safe_owner; [|intros m Hm; apply (Hp m Hm)]; intros [] [=]; by eexists|].
  intros [l [sh s]] (-> & o & Ho & Hs). destruct o; simplify_eq/=.
  eapply safe_bind; [done|eapply (safe_owner _ _ _ _ K_shared); [intros [] [=]; by eexists|]|intros [l' st] _; apply safe_end].
  intros m Hm. destruct (Hp m Hm) as [_ [|Hl]]; [done|by right].
Qed.

Lemma safe_receipt_inputs receipt rn request qn response sn :
  (forall m, P m -> readable m receipt rn /\ readable m request qn /\ readable m response sn) ->
  safe P true (abi_receipt_inputs receipt rn request qn response sn) (fun _ => True).
Proof.
  intros Hp. unfold abi_receipt_inputs.
  do 3 (eapply safe_bind; [done|apply safe_input_slice; intros m Hm; apply (Hp m Hm)|intros ? _]).
  do 2 (eapply safe_bind; [done|apply safe_digest|intros ? _]). apply safe_end.
Qed.
End EvidenceSteps.

Section EvidenceCalls.
Context `{Json} `{Base64} `{Signatures} `{Hash} `{Encodings} `{Sigstore} `{X509} `{Unicode} `{Pkcs10} `{Agreement} `{Hpke} `{Random}.
Variable root_json : Environment -> bytes.
Variable show_evidence : EvidenceError -> bytes.
Variable show_receipt : ReceiptError -> bytes.

Definition evidence_call (c : EvidenceCall) : Abi Empty_set nat :=
  match c with
  | E_new p n o => stogas_evidence_new root_json show_evidence p n o
  | E_refresh h b n t o => stogas_evidence_refresh show_evidence h b n t o
  | E_registration h d n c k t => stogas_evidence_verify_registration show_evidence h d n c k t
  | E_logged_boot h d n i k t => stogas_evidence_verify_logged_boot show_evidence h d n i k t
  | E_receipt h d n i k r rn q qn s sn t =>
      stogas_evidence_verify_receipt show_evidence show_receipt h d n i k r rn q qn s sn t
  | E_archive h b n t => stogas_evidence_verify_archive show_evidence h b n t
  | E_boot_archive h a n b k t => stogas_evidence_verify_boot_archive show_evidence h a n b k t
  | E_receipt_archive h a n b k r rn q qn s sn t =>
      stogas_evidence_verify_receipt_archive show_evidence show_receipt h a n b k r rn q qn s sn t
  end.

(** The response at [l] of an operation that ended in [r]. *)
Definition answered (m m' : Memory) (l : nat) (r : result Value AbiError) : Prop :=
  m !! l = None
  /\ m' !! l = Some (C_bytes (c_string (json_to_vec (AbiResponse_to_value r)) (json_to_vec INVALID_RESPONSE)))
  /\ forall e, r = Err e -> dom m' = {[ l ]} ∪ dom m.

Lemma response_defined P operation m g :
  safe P false operation (fun _ => True) -> P m ->
  exists m' g' l r, response_coded operation m g = Some (m', g', Ok l) /\ grows m m' /\ answered m m' l r.
Proof.
  intros Ho Hm. destruct (Ho m g Hm) as (m1 & g1 & r & E1 & Hg & Hd & _). unfold response_coded. rewrite E1. unfold allocate.
  pose proof (is_fresh (dom m1)) as Hf. eexists _, g1, (fresh (dom m1)), r. split; [done|]. split; [|split_and!].
  - etrans; [done|apply grows_fresh].
  - destruct (m !! fresh (dom m1)) as [c|] eqn:Ec; [|done]. destruct Hf. apply elem_of_dom.
    specialize (Hg (fresh (dom m1)) (shape c)). rewrite Ec in Hg. specialize (Hg eq_refl). by destruct (m1 !! _).
  - by rewrite lookup_insert_eq.
  - intros e ->. rewrite dom_insert_L, Hd; [done|]. right. by exists e.
Qed.

Ltac kept := apply evidence_contract_stable.
Ltac promise := intros ? Hpm; cbn in Hpm; unfold live in Hpm; destruct_and?;
  first [done | eassumption | eapply not_null; [eassumption|first [reflexivity|congruence]]].
Ltac evidence_step :=
  eapply safe_bind; [kept|first
    [ apply safe_guard
    | apply sure_safe, sure_write_handle; promise
    | apply safe_input_slice; [kept|promise]
    | apply safe_digest; kept
    | eapply safe_snapshot; [kept|promise]
    | eapply safe_verifier; [kept|promise]
    | apply safe_receipt_inputs; [kept|promise]
    | apply safe_of ]|let Hq := fresh "Hq" in intros ? Hq; cbn beta in Hq].

Ltac evidence_publish := eapply (sure_bind _ false true); [kept|apply sure_publish_owner; promise|intros _ _; apply sure_ret].

Lemma new_safe shared p n o m g :
  evidence_contract shared (E_new p n o) m ->
  exists m' g' l r, stogas_evidence_new root_json show_evidence p n o m g = Some (m', g', Ok l) /\ grows m m' /\ answered m m' l r.
Proof.
  apply response_defined. do 5 evidence_step. apply sure_safe.
  eapply (sure_bind _ false false); [kept|apply sure_allocate|intros l _]. evidence_publish.
Qed.

Lemma refresh_safe shared h b n t o m g :
  evidence_contract shared (E_refresh h b n t o) m ->
  exists m' g' l r, stogas_evidence_refresh show_evidence h b n t o m g = Some (m', g', Ok l) /\ grows m m' /\ answered m m' l r.
Proof.
  apply response_defined. do 2 evidence_step.
  eapply safe_bind; [kept|eapply safe_owner; [|promise]; intros [] [=]; by eexists|intros [l [sh v]] (-> & ow & Hk & Hv)].
  destruct ow; simplify_eq/=. evidence_step. destruct (refresh v _ t) as [v' r].
  eapply safe_bind; [kept|apply sure_safe, sure_store; promise|intros _ _].
  eapply safe_bind; [kept|apply sure_safe, sure_store; promise|intros _ _].
  evidence_step. apply sure_safe. evidence_publish.
Qed.

(** No call of the offline verifier's C interface is undefined when its handles are null or live and its inputs can be
    read: it returns the text of a response, no address changes the kind or size of what it holds, and when the
    operation failed nothing else was allocated. *)
Theorem evidence_call_defined shared c m g :
  evidence_contract shared c m ->
  exists m' g' l r, evidence_call c m g = Some (m', g', Ok l) /\ grows m m' /\ answered m m' l r.
Proof.
  destruct c; cbn [evidence_call].
  - apply new_safe.
  - apply refresh_safe.
  - apply response_defined. evidence_step. destruct a as [s sh]. do 3 evidence_step. evidence_step. apply safe_end.
  - apply response_defined. evidence_step. destruct a as [s sh]. do 3 evidence_step. apply safe_end.
  - apply response_defined. evidence_step. destruct a as [s sh]. do 3 evidence_step. destruct a1 as [[a1 a2] a3].
    do 2 evidence_step. apply safe_end.
  - apply response_defined. do 2 evidence_step. apply safe_end.
  - apply response_defined. do 4 evidence_step. apply safe_end.
  - apply response_defined. do 4 evidence_step. destruct a2 as [[a2 a3] a4]. do 2 evidence_step. apply safe_end.
Qed.

(** ** What a verifier learns *)

Lemma run_slice l (b : bytes) maximum label m g :
  m !! l = Some (C_bytes b) -> 0 < zlen b <= maximum -> input_slice (Some l) (zlen b) maximum label m g = Some (m, g, Ok b).
Proof.
  intros Hl Hb. unfold input_slice. erewrite run_bind by (apply run_guard, Z.ltb_ge; lia).
  rewrite (proj2 (Z.eqb_neq _ _)) by lia. erewrite run_read by (done || lia). do 3 f_equal. rewrite <- (app_nil_r b) at 1. by apply slice_to_app.
Qed.

Lemma allocated_keeps {A} (m : gmap nat A) c k : k ∈ dom m -> <[fresh (dom m) := c]> m !! k = m !! k.
Proof. intros Hk. apply lookup_insert_ne. intros E. apply (is_fresh (dom m)). by rewrite E. Qed.

Lemma run_snapshot ls sh s st m g :
  m !! ls = Some (C_owner (Ow_snapshot sh s)) -> m !! sh = Some (C_owner (Ow_shared st)) ->
  abi_snapshot (Some ls) m g = Some (m, g, Ok (s, st)).
Proof. intros Hs Hh. unfold abi_snapshot. erewrite run_bind by by eapply run_owner. cbn beta iota. by erewrite run_bind by by eapply run_owner. Qed.

(** A refresh leaves what it learned in the state that the verifier's snapshots share, whether it succeeds or not. *)
Lemma refresh_memory lv sh lo lb v st h (b : bytes) now m g :
  m !! lv = Some (C_owner (Ow_verifier sh v)) -> m !! sh = Some (C_owner (Ow_shared st)) -> m !! lo = Some (C_handle h) ->
  m !! lb = Some (C_bytes b) -> 0 < zlen b <= MAX_INPUT_BYTES ->
  exists m1 l1, stogas_evidence_refresh show_evidence (Some lv) (Some lb) (zlen b) now (Some lo) m g = Some (m1, g, Ok l1)
    /\ m1 !! sh = Some (C_owner (Ow_shared (shared_of (refresh v b now).1)))
    /\ m1 !! lv = Some (C_owner (Ow_verifier sh (refresh v b now).1))
    /\ forall k, k <> lv -> k <> sh -> k <> lo -> k ∈ dom m -> m1 !! k = m !! k.
Proof.
  intros Hv Hs Ho Hb Hl. unfold stogas_evidence_refresh, response_coded.
  assert (lv <> sh /\ lv <> lo /\ lv <> lb) as (? & ? & ?) by (split_and!; intros ->; congruence).
  assert (sh <> lo /\ sh <> lb /\ lo <> lb) as (? & ? & ?) by (split_and!; intros ->; congruence).
  run_step. run_step. erewrite run_bind by (eapply run_owner; [by simplify_map_eq|done]). cbn beta iota.
  erewrite run_bind by (apply run_slice; [by simplify_map_eq|done]). destruct (refresh v b now) as [v' r]. cbn [fst].
  run_step. run_step. set (m2 := <[sh := _]> _).
  match goal with |- context [match ?op with Some _ => _ | None => None end] => set (out := op) end.
  assert (exists m3 r3, out = Some (m3, g, r3) /\ forall k, k ∈ dom m2 -> k <> lo -> m3 !! k = m2 !! k /\ k ∈ dom m3) as (m3 & r3 & -> & Hm3).
  { subst out. destruct r as [core|e]; [|eexists _, _; by split].
    erewrite run_bind by done. erewrite run_bind by (eapply run_publish_owner; subst m2; by simplify_map_eq).
    eexists _, _. split; [done|]. intros k Hk Hn. rewrite lookup_insert_ne by done. rewrite allocated_keeps by done.
    split; [done|]. set_solver. }
  eexists _, _. split; [done|].
  assert (Hd : forall k, k ∈ dom m -> k <> lo -> <[fresh (dom m3) := C_bytes (c_string (json_to_vec (AbiResponse_to_value r3))
    (json_to_vec INVALID_RESPONSE))]> m3 !! k = m2 !! k).
  { intros k Hk Hn. destruct (Hm3 k) as [E Hk3]; [subst m2; set_solver|done|]. by rewrite allocated_keeps. }
  split_and!.
  - rewrite Hd; [subst m2; by simplify_map_eq|by eapply elem_of_dom_2|done].
  - rewrite Hd; [subst m2; by simplify_map_eq|by eapply elem_of_dom_2|done].
  - intros k N1 N2 N3 Hk. rewrite Hd by done. subst m2. by repeat look_up.
Qed.

(** A snapshot is checked against what its verifier learned after installing it, also when the verifier is gone: after a
    refresh, whatever its outcome, and the release of the verifier, the answer for a logged boot is the one under the
    keys and revocations that the refresh learned. *)
Theorem learned_reaches_snapshots lv ls sh lo lb ld li v s st h (b d i : bytes) now now' m g :
  m !! lv = Some (C_owner (Ow_verifier sh v)) -> m !! ls = Some (C_owner (Ow_snapshot sh s)) ->
  m !! sh = Some (C_owner (Ow_shared st)) -> m !! lo = Some (C_handle h) ->
  m !! lb = Some (C_bytes b) -> m !! ld = Some (C_bytes d) -> m !! li = Some (C_bytes i) ->
  0 < zlen b <= MAX_INPUT_BYTES -> 0 < zlen d <= MAX_EVIDENCE_BYTES -> 0 < zlen i <= MAX_EVIDENCE_BYTES ->
  exists m1 l1 m2 m3 l3,
    stogas_evidence_refresh show_evidence (Some lv) (Some lb) (zlen b) now (Some lo) m g = Some (m1, g, Ok l1)
    /\ stogas_evidence_free (Some lv) m1 = Some m2
    /\ stogas_evidence_verify_logged_boot show_evidence (Some ls) (Some ld) (zlen d) (Some li) (zlen i) now' m2 g = Some (m3, g, Ok l3)
    /\ m3 !! l3 = Some (C_bytes (c_string (json_to_vec (AbiResponse_to_value
         (map_err (fun e => mkAbiError (show_evidence e) (Some (code e)))
            (let? boot := Snapshot_verify_logged_boot s (shared_of (refresh v b now).1) d i now' in Ok (boot_summary boot)))))
         (json_to_vec INVALID_RESPONSE))).
Proof.
  intros Hv Hls Hs Ho Hb Hd Hi Lb Ld Li.
  destruct (refresh_memory lv sh lo lb v st h b now m g Hv Hs Ho Hb Lb) as (m1 & l1 & E1 & Hs1 & Hv1 & Hk).
  assert (lv <> sh /\ lv <> ls /\ lv <> ld /\ lv <> li) as (? & ? & ? & ?) by (split_and!; intros ->; congruence).
  exists m1, l1, (delete lv m1). unfold stogas_evidence_verify_logged_boot, response_coded.
  set (m2 := delete lv m1).
  assert (Hget : forall k c, m !! k = Some c -> k <> lv -> k <> sh -> k <> lo -> m2 !! k = Some c).
  { intros k c Hc N1 N2 N3. subst m2. rewrite lookup_delete_ne by done. rewrite Hk; [done..|by eapply elem_of_dom_2]. }
  assert (m2 !! ls = Some (C_owner (Ow_snapshot sh s))) as Hls2 by (apply Hget; [done|intros ->; congruence..]).
  assert (m2 !! ld = Some (C_bytes d)) as Hd2 by (apply Hget; [done|intros ->; congruence..]).
  assert (m2 !! li = Some (C_bytes i)) as Hi2 by (apply Hget; [done|intros ->; congruence..]).
  assert (m2 !! sh = Some (C_owner (Ow_shared (shared_of (refresh v b now).1)))) as Hs2 by (subst m2; by rewrite lookup_delete_ne).
  assert (stogas_evidence_free (Some lv) m1 = Some m2) as Hf by (unfold stogas_evidence_free, free_owner; by rewrite Hv1).
  clearbody m2. erewrite run_bind by by eapply run_snapshot. cbn beta iota.
  erewrite run_bind by by apply run_slice. erewrite run_bind by by apply run_slice.
  destruct (Snapshot_verify_logged_boot _ _ _ _ _) as [boot|e]; eexists _, _; (split_and!; [done|done|done|]); by rewrite lookup_insert_eq.
Qed.
End EvidenceCalls.
