(* ===== verification/Toy.v ===== *)
(** Small executable instances of the cryptographic parameters. They are not secure;
    they show that the laws of [Primitives] are consistent and let theorems be
    evaluated on concrete inputs. *)

From S2P Require Import Prelude Primitives.

Open Scope Z_scope.

(** A checksum, and bytes spread from it. *)
Definition mix (l : bytes) : Z := fold_left (fun acc b => (acc * 3 + byte_to_Z b + 1) mod 65521) l 7.

Definition spread (h n : Z) : bytes := (fun i => byte_of_Z (h / 256 + h * (i + 1) + i)) <$> seqZ 0 n.

Definition fit (n : Z) (l : bytes) : bytes := take (Z.to_nat n) (l ++ zeros n).

#[global] Arguments fit : simpl never.
#[global] Arguments spread : simpl never.

Lemma zlen_spread h n : 0 <= n -> zlen (spread h n) = n.
Proof. intros. unfold spread, zlen. rewrite length_fmap, length_seqZ. lia. Qed.

Lemma zlen_fit n l : 0 <= n -> zlen (fit n l) = n.
Proof.
  intros. unfold fit, zlen. rewrite length_take, length_app. unfold zeros. rewrite length_replicate. lia.
Qed.

Lemma fit_fit n l : 0 <= n -> fit n (fit n l) = fit n l.
Proof.
  intros Hn. pose proof (zlen_fit n l Hn) as Hl. unfold fit at 1. unfold zlen in Hl.
  rewrite take_app_le, take_ge by lia. done.
Qed.

#[export] Instance toy_kdf : Kdf := {
  hkdf_sha256_expand prk info n :=
    if (0 <=? n) && (n <=? 255 * 32) then Some (spread (mix (prk ++ info)) n) else None;
  hkdf_sha512_expand salt ikm info n :=
    if (0 <=? n) && (n <=? 255 * 64)
    then Some (spread (mix (default [] salt ++ ikm ++ info)) n) else None
}.

#[export] Instance toy_kdf_laws : KdfLaws.
Proof.
  split; simpl; intros *.
  - intros Hn. case_match; [|done]. intros [= <-]. by apply zlen_spread.
  - intros _ [? ?]. rewrite !(proj2 (Z.leb_le _ _)) by lia. by eexists.
  - intros Hn. case_match; [|done]. intros [= <-]. by apply zlen_spread.
  - intros [? ?]. rewrite !(proj2 (Z.leb_le _ _)) by lia. by eexists.
Qed.

Definition toy_tag (key nonce aad pt : bytes) : bytes := spread (mix (key ++ nonce ++ aad ++ pt)) 16.

#[export] Instance toy_aead : Aead := {
  gcm_seal key nonce aad pt := Some (pt, toy_tag key nonce aad pt);
  gcm_open key nonce aad ct tag :=
    if bool_decide (tag = toy_tag key nonce aad ct) then Some ct else None
}.

#[export] Instance toy_aead_laws : AeadLaws.
Proof.
  split; simpl; intros *.
  - intros [= <- <-]. split; [done|]. by apply zlen_spread.
  - intros _. by eexists.
  - intros [= <- <-]. by rewrite bool_decide_true.
  - case_bool_decide as E; [|done]. intros [= <-]. by rewrite E.
Qed.

(** Shared secrets are symmetric in both keys. *)
Definition toy_point (a b : bytes) : bytes :=
  zip_with (fun x y => byte_of_Z (byte_to_Z x + byte_to_Z y + 1)) (fit 32 a) (fit 32 b).

Lemma toy_point_comm a b : toy_point a b = toy_point b a.
Proof.
  unfold toy_point. generalize (fit 32 a) (fit 32 b). clear a b. intros a.
  induction a as [|x a IH]; intros [|y b]; simpl; [done..|]. rewrite IH. f_equal. f_equal. lia.
Qed.

#[export] Instance toy_agreement : Agreement := {
  x25519_clamp := fit 32;
  x25519_public := fit 32;
  x25519_ecdh point scalar := Some (toy_point point scalar);
  mlkem_generate seed := (seed, fit 1184 seed);
  mlkem_encapsulate public random :=
    let ciphertext := fit 1088 random in (ciphertext, spread (mix (public ++ ciphertext)) 32);
  mlkem_decapsulate private ciphertext := spread (mix (fit 1184 private ++ ciphertext)) 32;
  mlkem_validate public := zlen public =? 1184
}.

#[export] Instance toy_agreement_laws : AgreementLaws.
Proof.
  split; simpl; intros *.
  1-3: intros; by apply zlen_fit.
  - intros. by rewrite zlen_fit.
  - rewrite !fit_fit by done. f_equal. apply toy_point_comm.
  - by eexists.
Qed.

#[export] Instance toy_kem_correct : KemCorrect.
Proof. by split. Qed.

#[export] Instance toy_hash : Hash := {
  sha256 m := spread (mix m) 32;
  sha512 m := spread (mix m) 64
}.

#[export] Instance toy_hash_laws : HashLaws.
Proof. split; intros; by apply zlen_spread. Qed.

#[export] Instance toy_random : Random := {
  rng := Z;
  rng_fill g n := (g + 1, Some (spread (g * 17 + 5) n))
}.

#[export] Instance toy_random_laws : RandomLaws.
Proof. split. simpl. intros g n g' out Hn [= <- <-]. by apply zlen_spread. Qed.

#[export] Instance toy_random_total : RandomTotal.
Proof. split. by eexists. Qed.
