(* ===== verification/ToySystem.v ===== *)
(** Small executable instances of the remaining parameters: signatures, encodings, JSON,
    HPKE and the transparency log, with proofs of their laws. *)

From S2P Require Import Prelude Primitives Toy Signing Json Record Ratchet Window Session Attestation Setup.
From S2P Require Import Receipt Provisioning Documents Approvals.

Open Scope Z_scope.

(** ** Signatures *)

Definition toy_signature (public message : bytes) (n : Z) : bytes := spread (mix (public ++ message)) n.

#[export] Instance toy_signatures : Signatures := {
  ml_dsa_generate seed := (seed, fit 1952 seed);
  ml_dsa_sign secret message context _ := Some (toy_signature (fit 1952 secret) (message ++ context) 3309);
  ml_dsa_verify public message context signature :=
    bool_decide (signature = toy_signature public (message ++ context) 3309);
  ed25519_public secret := fit 32 secret;
  ed25519_sign secret message := toy_signature (fit 32 secret) message 64;
  ed25519_verify_strict public message signature := bool_decide (signature = toy_signature public message 64)
}.

#[export] Instance toy_signature_laws : SignatureLaws.
Proof.
  split; simpl; intros *.
  - by apply zlen_fit.
  - intros r s [= <-]. by apply zlen_spread.
  - intros r s [= <-]. by apply bool_decide_true.
  - by apply zlen_fit.
  - by apply zlen_spread.
  - by apply bool_decide_true.
Qed.

(** ** Base64 with the alphabet of the characters 48 to 111 *)

Definition sextet (v : Z) : byte := byte_of_Z (48 + v).
Definition sextet_value (c : byte) : Z := byte_to_Z c - 48.

Fixpoint toy_encode (l : bytes) : bytes :=
  match l with
  | [] => []
  | [a] => [sextet (byte_to_Z a / 4); sextet (byte_to_Z a mod 4 * 16)]
  | [a; b] => [sextet (byte_to_Z a / 4); sextet (byte_to_Z a mod 4 * 16 + byte_to_Z b / 16);
               sextet (byte_to_Z b mod 16 * 4)]
  | a :: b :: c :: l =>
      sextet (byte_to_Z a / 4) :: sextet (byte_to_Z a mod 4 * 16 + byte_to_Z b / 16)
      :: sextet (byte_to_Z b mod 16 * 4 + byte_to_Z c / 64) :: sextet (byte_to_Z c mod 64) :: toy_encode l
  end.

Fixpoint toy_decode (l : bytes) : option bytes :=
  match l with
  | [] => Some []
  | [_] => None
  | [p; q] => Some [byte_of_Z (sextet_value p * 4 + sextet_value q / 16)]
  | [p; q; r] => Some [byte_of_Z (sextet_value p * 4 + sextet_value q / 16);
                       byte_of_Z (sextet_value q mod 16 * 16 + sextet_value r / 4)]
  | p :: q :: r :: s :: l =>
      (fun t => byte_of_Z (sextet_value p * 4 + sextet_value q / 16)
                :: byte_of_Z (sextet_value q mod 16 * 16 + sextet_value r / 4)
                :: byte_of_Z (sextet_value r mod 4 * 64 + sextet_value s) :: t) <$> toy_decode l
  end.

Lemma sextet_range v : 0 <= v < 64 -> sextet_value (sextet v) = v /\ byte_to_Z (sextet v) < 128.
Proof. intros. unfold sextet_value, sextet. rewrite byte_to_of_Z, Z.mod_small by lia. lia. Qed.

Lemma byte_of_Z_eq b z : z = byte_to_Z b -> byte_of_Z z = b.
Proof. intros ->. apply byte_of_Z_to_Z. Qed.

(** Induction in steps of three bytes. *)
Lemma triples_ind (P : bytes -> Prop) :
  P [] -> (forall a, P [a]) -> (forall a b, P [a; b]) ->
  (forall a b c l, P l -> P (a :: b :: c :: l)) -> forall l, P l.
Proof.
  intros H0 H1 H2 H3. fix IH 1. intros [|a [|b [|c l]]]; [apply H0|apply H1|apply H2|apply H3, IH].
Qed.

(** The four sextets of a group and their bytes. *)
Ltac sextets :=
  repeat match goal with
  | |- context [sextet_value (sextet ?v)] =>
      rewrite (proj1 (sextet_range v ltac:(Z.to_euclidean_division_equations; lia)))
  end.

#[export] Instance toy_base64 : Base64 := { base64url_encode := toy_encode; base64url_decode := toy_decode }.

Lemma toy_roundtrip l : toy_decode (toy_encode l) = Some l.
Proof.
  induction l as [|a|a b|a b c l IH] using triples_ind; [done|..]; cbn [toy_encode toy_decode];
    repeat match goal with x : byte |- _ =>
      lazymatch goal with _ : 0 <= byte_to_Z x < 256 |- _ => fail | _ => pose proof (byte_to_Z_range x) end end;
    sextets; [| |rewrite IH]; cbn [fmap option_fmap option_map]; repeat f_equal;
    apply byte_of_Z_eq; Z.to_euclidean_division_equations; lia.
Qed.

#[export] Instance toy_base64_laws : Base64Laws.
Proof.
  split; simpl; intros l.
  - apply toy_roundtrip.
  - induction l as [|a|a b|a b c l IH] using triples_ind; [done..|]. cbn [toy_encode]. rewrite !zlen_cons, IH.
    Z.to_euclidean_division_equations. lia.
  - induction l as [|a|a b|a b c l IH] using triples_ind; [constructor|..]; cbn [toy_encode];
      repeat match goal with x : byte |- _ =>
        lazymatch goal with _ : 0 <= byte_to_Z x < 256 |- _ => fail | _ => pose proof (byte_to_Z_range x) end end;
      repeat (constructor; [apply sextet_range; Z.to_euclidean_division_equations; lia|]); done.
Qed.

(** ** JSON: a tag byte, and texts ended by a byte that no ASCII text holds *)

Definition text_bytes (s : bytes) : bytes := s ++ [x80].

Fixpoint toy_print (v : Value) : bytes :=
  match v with
  | JNull => [x6e]
  | JBool true => [x74]
  | JBool false => [x66]
  | JNumber s => x23 :: text_bytes s
  | JString s => x22 :: text_bytes s
  | JArray l => x5b :: concat (List.map toy_print l) ++ [x5d]
  | JObject fields => x7b :: concat (List.map (fun '(k, v) => x6b :: text_bytes k ++ toy_print v) fields) ++ [x7d]
  end.

Fixpoint text_parse (l : bytes) : option (bytes * bytes) :=
  match l with
  | [] => None
  | b :: l => if bool_decide (b = x80) then Some ([], l)
              else (fun '(s, r) => (b :: s, r)) <$> text_parse l
  end.

Fixpoint value_parse (fuel : nat) (l : bytes) : option (Value * bytes) :=
  match fuel, l with
  | S fuel, x6e :: l => Some (JNull, l)
  | S fuel, x74 :: l => Some (JBool true, l)
  | S fuel, x66 :: l => Some (JBool false, l)
  | S fuel, x23 :: l => (fun '(s, r) => (JNumber s, r)) <$> text_parse l
  | S fuel, x22 :: l => (fun '(s, r) => (JString s, r)) <$> text_parse l
  | S fuel, x5b :: l => (fun '(vs, r) => (JArray vs, r)) <$> items_parse fuel l
  | S fuel, x7b :: l => (fun '(fs, r) => (JObject fs, r)) <$> fields_parse fuel l
  | _, _ => None
  end
with items_parse (fuel : nat) (l : bytes) : option (list Value * bytes) :=
  match fuel, l with
  | S fuel, x5d :: l => Some ([], l)
  | S fuel, l =>
      match value_parse fuel l with
      | Some (v, l) => (fun '(vs, r) => (v :: vs, r)) <$> items_parse fuel l
      | None => None
      end
  | O, _ => None
  end
with fields_parse (fuel : nat) (l : bytes) : option (list (bytes * Value) * bytes) :=
  match fuel, l with
  | S fuel, x7d :: l => Some ([], l)
  | S fuel, x6b :: l =>
      match text_parse l with
      | Some (k, l) =>
          match value_parse fuel l with
          | Some (v, l) => (fun '(fs, r) => ((k, v) :: fs, r)) <$> fields_parse fuel l
          | None => None
          end
      | None => None
      end
  | _, _ => None
  end.

(** A whole text, with or without the newline of a document file. *)
Definition whole (l : bytes) : option Value :=
  match value_parse (S (length l)) l with
  | Some (v, []) | Some (v, [x0a]) => Some v
  | _ => None
  end.

#[export] Instance toy_json : Json := {
  json_tree := whole;
  json_from_slice := whole;
  json_to_vec := toy_print;
  json_canonical v := Some (toy_print v)
}.

Lemma text_roundtrip s l : is_ascii s -> text_parse (text_bytes s ++ l) = Some (s, l).
Proof.
  unfold text_bytes. rewrite <- app_assoc. cbn [app]. induction s as [|b s IH]; intros Hs; [done|].
  apply Forall_cons in Hs as [Hb Hs]. cbn [app text_parse]. rewrite bool_decide_false by (by intros ->).
  by rewrite IH.
Qed.

Lemma fields_roundtrip fields fuel l :
  Forall is_ascii fields.*1 -> Forall (fun '(_, v) => exists s, v = JString s /\ is_ascii s) fields ->
  (length fields < fuel)%nat ->
  fields_parse (S fuel) (concat (List.map (fun '(k, v) => x6b :: text_bytes k ++ toy_print v) fields) ++ x7d :: l)
  = Some (fields, l).
Proof.
  revert fuel. induction fields as [|[k v] fields IH]; intros fuel Hk Hv Hf; [done|].
  apply Forall_cons in Hk as [Hk Hks]. apply Forall_cons in Hv as [(s & -> & Hs) Hvs].
  cbn [fmap list_fmap fst] in Hk. cbn [List.map concat]. rewrite <- app_assoc. cbn [app fields_parse].
  rewrite <- app_assoc, text_roundtrip by done. destruct fuel as [|fuel]; [simpl in Hf; lia|].
  cbn [toy_print app value_parse]. rewrite text_roundtrip by done. cbn [fmap option_fmap option_map].
  rewrite IH; [done|done|done|simpl in Hf; lia].
Qed.

#[export] Instance toy_json_laws : JsonLaws.
Proof.
  split. intros fields (Hn & Hk & Hv). apply strict_json_exact. split; [|apply (plain_distinct 1); repeat split; try done;
    eapply Forall_impl; [exact Hv|]; by intros [k v] (s & -> & ?)].
  cbn [json_tree json_to_vec toy_json toy_print]. unfold whole.
  set (body := concat _). assert (length fields <= length body)%nat as Hl.
  { unfold body. clear. induction fields as [|[k v] fields IH]; [done|].
    cbn [List.map concat app length]. rewrite length_app, length_app. simpl. lia. }
  cbn [length value_parse]. rewrite length_app, Nat.add_comm. cbn [length plus].
  unfold body. rewrite (fields_roundtrip fields _ []) by (done || (fold body; lia)). done.
Qed.

(** Nested plain values parse back. *)
Lemma value_roundtrip n v fuel l :
  plain n v -> (length (toy_print v) <= fuel)%nat -> value_parse (S fuel) (toy_print v ++ l) = Some (v, l).
Proof.
  revert v fuel l. induction n as [|n IH]; intros v fuel l Hp Hf; destruct v as [| | |s| |fields]; try done;
    cbn [plain] in Hp; cbn [toy_print] in Hf |- *; cbn [app value_parse].
  - by rewrite text_roundtrip.
  - by rewrite text_roundtrip.
  - destruct Hp as (_ & Hk & Hv). cbn [length] in Hf. rewrite length_app in Hf. cbn [length] in Hf.
    rewrite <- app_assoc. cbn [app].
    enough (fields_parse fuel (concat (List.map (fun '(k, v) => x6b :: text_bytes k ++ toy_print v) fields) ++ x7d :: l)
      = Some (fields, l)) as -> by done.
    assert (length (concat (List.map (fun '(k, v) => x6b :: text_bytes k ++ toy_print v) fields)) < fuel)%nat as Hl by lia.
    clear Hf. revert fuel Hl. induction fields as [|[k v] fields IHf]; intros fuel Hl; cbn [List.map concat app] in *.
    + by destruct fuel; [simpl in Hl; lia|].
    + destruct fuel as [|fuel]; [simpl in Hl; lia|]. apply Forall_cons in Hk as [Hk Hks]. apply Forall_cons in Hv as [Hv Hvs].
      cbn [fields_parse]. rewrite <- !app_assoc, text_roundtrip by done.
      cbn [length] in Hl. rewrite !length_app in Hl. destruct fuel as [|fuel]; [lia|].
      rewrite IH by (done || lia). rewrite IHf by (done || lia). done.
Qed.

#[export] Instance toy_canonical_laws : CanonicalLaws.
Proof.
  split. intros v text Hp [= <-]. exists v. split_and!; [|constructor|done].
  apply strict_json_exact. split; [|by eapply plain_distinct].
  cbn [json_tree toy_json]. unfold whole. rewrite (value_roundtrip 8) by (done || (rewrite length_app; lia)). done.
Qed.

(** ** HPKE *)

#[export] Instance toy_hpke : Hpke := {
  xwing_keygen seed := fit 1216 seed;
  xwing_encaps public coins :=
    let ciphertext := fit 1120 coins in Some (ciphertext, spread (mix (public ++ ciphertext)) 32);
  xwing_decaps seed ciphertext := Some (spread (mix (fit 1216 seed ++ ciphertext)) 32);
  hpke_export shared info context n := Some (spread (mix (shared ++ info ++ context)) n)
}.

#[export] Instance toy_hpke_laws : HpkeLaws.
Proof.
  split; cbn [xwing_keygen xwing_encaps xwing_decaps hpke_export mlkem_validate toy_hpke toy_agreement]; intros *.
  - by apply zlen_fit.
  - intros [= <- _]. by apply zlen_fit.
  - by intros [= <- <-].
  - apply Z.eqb_eq. apply zlen_slice_to. by rewrite zlen_fit.
  - intros ? [= <-]. by apply zlen_spread.
Qed.

#[export] Instance toy_hpke_seal : HpkeSeal := {
  hpke_seal shared info plaintext aad := Some (plaintext ++ toy_tag shared info aad plaintext);
  hpke_open shared info ciphertext aad :=
    let plaintext := slice_to ciphertext (zlen ciphertext - 16) in
    if bool_decide (slice_from ciphertext (zlen ciphertext - 16) = toy_tag shared info aad plaintext)
    then Some plaintext else None
}.

#[export] Instance toy_hpke_seal_laws : HpkeSealLaws.
Proof.
  split; cbn [hpke_seal hpke_open toy_hpke_seal]; intros * [= <-];
    assert (zlen (toy_tag shared info aad pt) = 16) as Ht by (by apply zlen_spread).
  - rewrite zlen_app. lia.
  - rewrite slice_to_app, slice_from_app by (rewrite zlen_app; lia). by rewrite bool_decide_true.
Qed.

(** ** Encodings and the transparency log *)

#[export] Instance toy_encodings : Encodings := {
  base64_encode := toy_encode;
  base64_decode := toy_decode;
  spki_from_der der :=
    Some (if zlen der =? MLDSA_PUBLIC_KEY_BYTES then ascii "2.16.840.1.101.3.4.3.18" else COMPOSITE_OID, false, Some der);
  ed25519_from_der _ := Some false;
  parse_rfc3339 text := Some (1000000, 0, text)
}.

#[export] Instance toy_sigstore : Sigstore := {
  TrustedRoot := unit;
  embedded_root := Some tt;
  verify_rekor_document_inclusion _ _ _ now := Some (now / 1000);
  verify_github_attestation _ _ _ _ now := Some (now / 1000);
  verify_trust_update _ _ _ := Some (tt, 1, 1);
  verify_current_trust_update _ _ _ _ _ _ := Some (tt, 1, 1)
}.
