(* ===== verification/ChannelWitness.v ===== *)
(** Concrete instances of the channel theorems: each evaluates the definitions on a
    small input with the executable parameters of [Toy] and discharges every
    hypothesis there. *)

From S2P Require Import Prelude Primitives BTree Record RecordTheory RecordSafety.
From S2P Require Import Ratchet RatchetTheory RatchetSafety RatchetAgreement Window.
From S2P Require Import Session SessionTheory ServerTheory Admission Exchange Stream.
From S2P Require Import Toy.

Open Scope Z_scope.

Definition g0 : @rng toy_random := 0.

(** ** Records *)

Definition sample_secret : bytes := spread 11 32.
Definition sample_id : bytes := spread 23 32.
Definition sample_header : bytes := zeros HEADER_BYTES.

Definition sample_writer : Records :=
  Records_from_keys {| chain := spread 5 32 |} Request (Some sample_header).

Definition ok_default {A E} (d : A) (r : result A E) : A := match r with Ok a => a | Err _ => d end.

Definition first_writer : Records :=
  ok_default sample_writer (Records_new sample_secret sample_id 3 Request sample_header).
Definition sample_msgs : list (Kind * bytes) :=
  [(Metadata, ascii "meta"); (Data, ascii "body"); (Finished, [])].
Definition sealed_msgs : Records * result (list bytes) Error := seal_stream first_writer sample_msgs.

Lemma stream_roundtrip_witness :
  exists buffer rd rd',
    Records_authenticate_start sample_secret sample_id 3 Request (hd [] (ok_default [] sealed_msgs.2))
      = (buffer, Ok (rd, Metadata, ascii "meta")) /\
    open_stream rd (tail (ok_default [] sealed_msgs.2))
      = (rd', Ok [(Data, ascii "body"); (Finished, [])]) /\ synced sealed_msgs.1 rd'.
Proof.
  apply (stream_roundtrip sample_secret sample_id 3 Request sample_header first_writer).
  - vm_compute. reflexivity.
  - vm_compute. reflexivity.
Defined.

Lemma nonces_never_repeat_witness :
  NoDup (nonces (C := SoftwareCipher) first_writer
    [OpSeal false Metadata (ascii "m"); OpSeal true Data (ascii "d"); OpSeal false Finished []]).
Proof. apply nonces_never_repeat. vm_compute. discriminate. Defined.

Lemma upload_bounded_witness :
  0 <= rc_sequence (run_op (C := SoftwareCipher) sample_writer (OpSeal false Metadata (ascii "m"))) <= MAX_REQUEST_RECORDS /\
  0 <= rc_body_bytes (run_op (C := SoftwareCipher) sample_writer (OpSeal false Metadata (ascii "m"))) <= MAX_REQUEST_BODY.
Proof.
  apply (upload_bounded (C := SoftwareCipher) {| chain := spread 5 32 |} (Some sample_header)).
  eapply rtc_once. by eexists.
Defined.

Lemma wire_limits_witness :
  REQUEST_PREFIX_BYTES + wire_bytes (ok_default [] (seal_stream sample_writer sample_msgs).2)
  <= MAX_REQUEST_WIRE_BYTES.
Proof.
  apply (wire_limits {| chain := spread 5 32 |} Request sample_header sample_msgs
           (seal_stream sample_writer sample_msgs).1).
  vm_compute. reflexivity.
Defined.

Lemma rejected_record_erased_witness :
  erased (ascii "not a record") (ascii "not a record") /\ dead (Records_close sample_writer).
Proof.
  apply (rejected_record_erased sample_writer _ _ _ Record_). vm_compute. reflexivity.
Defined.

Lemma upload_delivered_witness :
  exists w' encs rd',
    seal_stream sample_writer sample_msgs = (w', Ok encs) /\
    open_stream (Records_from_keys {| chain := spread 5 32 |} Request None) encs = (rd', Ok sample_msgs) /\
    Records_complete rd' = (rd', Ok tt).
Proof.
  apply upload_delivered.
  - vm_compute. reflexivity.
  - vm_compute. reflexivity.
  - exists (ascii "meta"), [(Data, ascii "body"); (Finished, [])]. split; [reflexivity|].
    split; [vm_compute; split; [reflexivity|discriminate]|].
    exists [], [ascii "body"]. split; [reflexivity|]. split; [constructor|].
    split; [right; eexists; split; [reflexivity|]|]; vm_compute; [split; reflexivity|discriminate].
  - intros content rest [= <- _]. vm_compute. discriminate.
Defined.

(** ** Ratchet *)

Definition sample_root : bytes := spread 77 32.
Definition sample_seed : bytes := spread 99 32.
Definition server_key : KeyPair := KeyPair_from_seed sample_seed.

Lemma rejected_message_no_effect_witness :
  Peer_expire (Peer_responder sample_root server_key) 9 =
  Peer_expire (Peer_responder sample_root server_key) 9.
Proof.
  apply (rejected_message_no_effect (B := unit) (T := unit) sample_root (Some server_key) None false
    g0 [] (ascii "short") 0 9 tt (fun b _ => (b, Ok tt)) _ tt Record_).
  vm_compute. reflexivity.
Defined.

Definition sample_client : Peer :=
  ok_default (Peer_responder sample_root server_key) (Peer_initiator sample_root (kp_public server_key)).

(** Two requests, a response, a request of the next turn and two responses. *)
Definition sample_talk : list (bool * Z * Z) :=
  [(true, 0, 1); (true, 1, 2); (false, 0, 3); (true, 2, 4); (false, 1, 5); (false, 2, 6)].

Definition talk_result : list (bytes * result bytes Error) :=
  default [] (converse sample_client (Peer_responder sample_root server_key) g0 sample_talk).

Lemma conversation_agrees_witness :
  length talk_result = 6%nat /\ Forall (fun '(sent, got) => got = Ok sent) talk_result.
Proof.
  split; [vm_compute; reflexivity|].
  apply (conversation_agrees sample_root sample_seed g0 sample_talk sample_client).
  - vm_compute. reflexivity.
  - vm_compute. discriminate.
  - vm_compute. reflexivity.
Defined.

(** ** Sessions *)

Definition sample_ops : list starts_op :=
  [SAllocate; SAllocate; SConfirm 1; SRelease 1; SAllocate; SRelease 0].

Definition sample_spec : StartsSpec := {| sp_next := 3; sp_confirmed := 2; sp_pending := {[2]} |}.

Lemma starts_refine_witness :
  exists s, starts_run Starts_default sample_ops =
      (s, [Some (Ok 0); Some (Ok 1); None; None; Some (Ok 2); None]) /\
    st_next s = sp_next sample_spec /\ st_first_pending s = oldest sample_spec /\
    (forall p, 0 <= p < 256 ->
      bit_get (st_pending s) p = true <-> exists n, n ∈ sp_pending sample_spec /\ n mod 256 = p).
Proof.
  apply (starts_refine sample_ops sample_spec). vm_compute. reflexivity.
Defined.

Definition sample_session : ClientSession :=
  {| cs_shared := true; cs_id := sample_id; cs_idle_seconds := 600 |}.
Definition sample_shared : Shared := {| sh_starts := Starts_default; sh_peer := sample_client |}.
Definition sample_calls : list client_op :=
  [CRequest; CRequest; COpen 0 (ascii "forged") 5; CRequest; CDrop 1; CExpire 7; CComplete 1].

Lemma request_numbers_fresh_witness :
  (client_run (client_new sample_session sample_shared g0) sample_calls).2 = [0; 1; 2] /\
  StronglySorted Z.lt (client_run (client_new sample_session sample_shared g0) sample_calls).2.
Proof.
  split; [vm_compute; reflexivity|].
  apply (request_numbers_fresh sample_root sample_id 600 (kp_public server_key)).
  vm_compute. reflexivity.
Defined.

Lemma pending_owned_witness :
  let c := (client_run (client_new sample_session sample_shared g0) (take 4 sample_calls)).1 in
  owned (cl_readers c) = [1; 2] /\
  st_next (sh_starts (cl_shared c)) - st_first_pending (sh_starts (cl_shared c)) <= 256.
Proof.
  split; [vm_compute; reflexivity|].
  apply (pending_owned sample_root sample_id 600 (kp_public server_key)).
  vm_compute. reflexivity.
Defined.

Lemma awaited_start_admissible_witness : admissible 0 bitmap_zero 0 = Ok tt.
Proof.
  apply (awaited_start_admissible {| j_starts := (Starts_allocate Starts_default).1; j_pending := [0];
    j_next := 0; j_bits := bitmap_zero; j_accepted := [] |} 0).
  - apply rtc_once. apply (JIssue joint_init _ 0). vm_compute. reflexivity.
  - apply list_elem_of_here.
  - apply not_elem_of_nil.
Defined.

(** ** The whole channel *)

Definition sample_request : Shared * rng * result ClientRequest Error :=
  ClientSession_request sample_session sample_shared g0.
Definition no_request : ClientRequest := {|
  cr_writer := {| re_session_id := []; re_number := 0; re_records := sample_writer |};
  cr_reader := {| rr_pending := None; rr_session_id := []; rr_records := None; rr_failed := true |} |}.
Definition sample_req : ClientRequest := ok_default no_request sample_request.2.
Definition sample_upload : Records * result (list bytes) Error :=
  seal_stream (re_records (cr_writer sample_req)) sample_msgs.

Lemma first_exchange_witness :
  exists server g2 buffer reader writer rd,
    ServerSession_accept_start (ServerSession_new sample_root sample_id server_key) sample_request.1.2
      (re_number (cr_writer sample_req)) (hd [] (ok_default [] sample_upload.2)) 4
      = (server, g2, buffer, Ok (reader, writer, ascii "meta")) /\
    open_stream (sr_records reader) (tail (ok_default [] sample_upload.2))
      = (rd, Ok [(Data, ascii "body"); (Finished, [])]).
Proof.
  destruct (first_exchange sample_root sample_id 600 sample_seed sample_session sample_shared g0
    sample_request.1.1 sample_request.1.2 sample_req 4 9 (ascii "meta") [(Data, ascii "body"); (Finished, [])]
    sample_upload.1 (hd [] (ok_default [] sample_upload.2)) (tail (ok_default [] sample_upload.2)))
    as (server & g2 & buffer & reader & writer & rd & Ha & Ho & _).
  - vm_compute. reflexivity.
  - vm_compute. reflexivity.
  - vm_compute. reflexivity.
  - exists server, g2, buffer, reader, writer, rd. exact (conj Ha Ho).
Defined.

(** A reader past its first record and what the server sends it. *)
Definition response_keys : Keys := {| chain := spread 40 32 |}.
Definition response_writer : Records := Records_advance (Records_from_keys response_keys Response None) Metadata 4.
Definition response_reader : ResponseReader := {|
  rr_pending := None; rr_session_id := sample_id; rr_records := Some response_writer; rr_failed := false |}.
Definition response_records : list bytes :=
  ok_default [] (seal_stream response_writer [(Data, ascii "part"); (Keepalive, []); (Finished, [])]).2.

Lemma decoder_delivers_witness :
  exists d, push_all collect sample_shared (ResponseDecoder_from_reader response_reader) []
      [slice_to (concat response_records) 30; []; slice_from (concat response_records) 30] 8
      = (sample_shared, d, [(Data, ascii "part"); (Keepalive, []); (Finished, [])], Ok tt) /\
    rd_buffer d = [].
Proof.
  destruct (decoder_delivers sample_shared response_reader response_records 8
    (open_responses sample_shared response_reader response_records 8).1.1
    (open_responses sample_shared response_reader response_records 8).1.2
    [(Data, ascii "part"); (Keepalive, []); (Finished, [])]
    [slice_to (concat response_records) 30; []; slice_from (concat response_records) 30])
    as (d & Hd & Hb & _).
  - vm_compute. reflexivity.
  - vm_compute. reflexivity.
  - exists d. exact (conj Hd Hb).
Defined.
