(* ===== verification/SystemWitness.v ===== *)
(** Concrete instances of the attestation, setup, streaming, receipt, provisioning,
    approval and hardware theorems with the executable parameters of [Toy] and
    [ToySystem]. *)

From S2P Require Import Prelude Primitives Record Ratchet Window Session Signing Attestation.
From S2P Require Import MerkleTheory AttestationTheory Setup SetupTheory Sse SseTheory.
From S2P Require Import Json Receipt Provisioning ProvisioningTheory Documents Approvals.
From S2P Require Import ApprovalsTheory Snp SnpTheory Toy ToySystem.

Open Scope Z_scope.

Definition start : @rng toy_random := 0.
Definition unwrap {A E} (d : A) (r : result A E) : A := match r with Ok a => a | Err _ => d end.

(** An equation that holds by evaluation of both sides. *)
Ltac evaluate :=
  lazymatch goal with
  | |- ?g => tryif has_evar g then (vm_compute; reflexivity) else
      lazymatch g with
      | _ = ?r => vm_cast_no_check (eq_refl r)
      | _ => vm_compute; reflexivity
      end
  end.

(** ** Quote batches *)

Definition sample_bindings : list Binding :=
  [NativeTls Production (spread 1 32) (spread 2 32) (spread 3 32);
   E2eeSession Production (spread 1 32) (spread 4 32);
   E2eeSession Production (spread 1 32) (spread 5 32)].
Definition sample_batch : bytes * list BatchProof :=
Eval vm_compute in   unwrap ([], []) (quote_batch (Binding_leaf_hash <$> sample_bindings)).
Definition no_proof : BatchProof := {| bp_leaf_count := 0; bp_leaf_index := 0; bp_siblings := [] |}.
Definition last_proof : BatchProof := Eval vm_compute in nth 2 sample_batch.2 no_proof.

Lemma issued_proofs_verify_witness :
  exists report proofs, quote_batch (Binding_leaf_hash <$> sample_bindings) = Ok (report, proofs).
Proof.
  destruct (issued_proofs_verify (Binding_leaf_hash <$> sample_bindings)) as (report & proofs & E & _).
  - vm_compute. split; discriminate.
  - repeat constructor.
  - exists report, proofs. exact E.
Defined.

(** Collision freedom of listed strings, by evaluation. *)
Definition no_collision (l : list bytes) : bool :=
  forallb (fun x => forallb (fun y => negb (bool_decide (sha512 x = sha512 y)) || bool_decide (x = y)) l) l.

Lemma no_collision_free l : no_collision l = true -> collision_free l.
Proof.
  unfold no_collision. intros E x y Hx Hy Heq. rewrite forallb_forall in E.
  specialize (E x (proj1 (list_elem_of_In _ _) Hx)). rewrite forallb_forall in E.
  specialize (E y (proj1 (list_elem_of_In _ _) Hy)). apply orb_true_iff in E as [E|E]; zbool; congruence.
Qed.

Lemma verified_proof_binds_witness :
  sample_bindings !! 2%nat = Some (E2eeSession Production (spread 1 32) (spread 5 32)).
Proof.
  destruct (verified_proof_binds sample_bindings sample_batch.1 sample_batch.2
    (BatchProof_to_bytes last_proof) last_proof (E2eeSession Production (spread 1 32) (spread 5 32))) as [E _].
  - evaluate.
  - evaluate.
  - evaluate.
  - repeat constructor.
  - split; reflexivity.
  - apply no_collision_free. evaluate.
  - exact E.
Defined.

Definition sample_report (data : bytes) : bytes := zeros 80 ++ data ++ zeros 1040.
Definition sample_payload : bytes :=
Eval vm_compute in   unwrap [] (session_evidence (sample_report sample_batch.1) (BatchProof_to_bytes last_proof)
               (ascii "boot") (ascii "log") false).
Definition sample_evidence : SessionEvidence := {|
  se_report := sample_report sample_batch.1; se_proof := last_proof;
  se_boot_document := ascii "boot"; se_boot_inclusion := ascii "log" |}.

Lemma session_evidence_roundtrip_witness :
  exists proof, map_err CEvidence (SessionEvidence_from_bytes sample_payload) =
    Ok {| se_report := sample_report sample_batch.1; se_proof := proof;
          se_boot_document := ascii "boot"; se_boot_inclusion := ascii "log" |}.
Proof.
  destruct (session_evidence_roundtrip (sample_report sample_batch.1) (BatchProof_to_bytes last_proof)
    (ascii "boot") (ascii "log") false sample_payload) as (proof & _ & E).
  - evaluate.
  - exists proof. exact E.
Defined.

(** ** Session setup *)

Definition client_start : rng * result PendingSetup (SetupError unit) := Eval vm_compute in PendingSetup_new Production start.
Definition no_pending : PendingSetup :=
  {| pd_private_key := None; pd_hello := []; pd_environment := Production |}.
Definition client_pending : PendingSetup := Eval vm_compute in unwrap no_pending client_start.2.
Definition server_start : rng * result PreparedServerSetup Error :=
Eval vm_compute in   prepare_server_setup Production (pd_hello client_pending) 600 (sha256 (ascii "boot")) 40.
Definition no_prepared : PreparedServerSetup := {|
  pss_session := ServerSession_new [] [] (KeyPair_from_seed []); pss_session_id := [];
  pss_transcript := []; pss_response_prefix := [] |}.
Definition server_prepared : PreparedServerSetup := Eval vm_compute in unwrap no_prepared server_start.2.

(** The gateway quotes the transcript alone. *)
Definition setup_batch : bytes * list BatchProof :=
Eval vm_compute in   unwrap ([], []) (quote_batch [e2ee_leaf Production (sha256 (ascii "boot")) (pss_transcript server_prepared)]).
Definition setup_proof : BatchProof := Eval vm_compute in nth 0 setup_batch.2 no_proof.
Definition setup_payload : bytes :=
Eval vm_compute in   unwrap [] (session_evidence (sample_report setup_batch.1) (BatchProof_to_bytes setup_proof)
               (ascii "boot") (ascii "log") false).
Definition setup_response : bytes := Eval vm_compute in pss_response_prefix server_prepared ++ u32_be (zlen setup_payload) ++ setup_payload.
Definition trusting : SessionEvidence -> result unit unit := fun _ => Ok tt.

Lemma setup_agreement_witness :
  exists session sh,
    (PendingSetup_complete client_pending setup_response trusting).2 = Ok (session, sh).
Proof.
  destruct (setup_agreement (V := unit) Production start client_start.1 client_pending 600 (ascii "boot") 40
    server_start.1 server_prepared (sample_report setup_batch.1) (BatchProof_to_bytes setup_proof) (ascii "log")
    setup_payload setup_proof trusting) as (seed & root & session & sh & _ & _ & Hc).
  - evaluate.
  - evaluate.
  - split; discriminate.
  - evaluate.
  - evaluate.
  - evaluate.
  - evaluate.
  - exists session, sh. exact (f_equal snd Hc).
Defined.

Definition setup_done : PendingSetup * result (ClientSession * Shared) (SetupError unit) :=
Eval vm_compute in   PendingSetup_complete client_pending setup_response trusting.
Definition no_session : ClientSession * Shared :=
  ({| cs_shared := false; cs_id := []; cs_idle_seconds := 0 |},
   {| sh_starts := Starts_default; sh_peer := Peer_responder [] (KeyPair_from_seed []) |}).

Lemma setup_requires_evidence_witness :
  exists parsed payload,
    setup_response = (sv_prefix parsed ++ sv_confirmation parsed) ++ u32_be (zlen payload) ++ payload /\
    SessionEvidence_from_bytes payload = Ok (sv_evidence parsed).
Proof.
  destruct (setup_requires_evidence client_pending setup_response trusting setup_done.1
    (unwrap no_session setup_done.2)) as (key & shared & root & parsed & payload & Hr & Hp & _).
  - evaluate.
  - exists parsed, payload. exact (conj Hr Hp).
Defined.

(** ** Response streams *)

Definition sample_frames : list Frame := [Event (ascii "data: one" ++ SSE_EVENT_END); Comment].
Definition sample_stream (receipt : bytes) : bytes :=
  wire sample_frames ++ receipt_bytes receipt ++ SSE_CHAT_TERMINAL_PREFIX ++ SSE_EVENT_END.
Definition in_two (l : bytes) : list bytes := [slice_to l 17; slice_from l 17].

(** An event, recognised by evaluation. *)
Lemma event_checked b :
  find_bytes b SSE_EVENT_END = Some (zlen b - 2) ->
  forallb (fun '(p, _) => negb (starts_with b p)) boundary_prefixes = true -> event_ok b.
Proof.
  intros Hf Hn. split; [done|]. intros p k Hin. rewrite forallb_forall in Hn.
  apply list_elem_of_In in Hin. by apply Hn, negb_true_iff in Hin.
Qed.

Lemma sse_accepts_witness :
  exists s out, sse_run SseBody_new (in_two (sample_stream (ascii "{}"))) = (s, Ok out) /\
    out ++ SSE_EVENT_END = concat (in_two (sample_stream (ascii "{}"))).
Proof.
  destruct (sse_accepts sample_frames (ascii "{}") SSE_CHAT_TERMINAL_PREFIX (in_two (sample_stream (ascii "{}"))))
    as (s & out & Hs & Ho & _).
  - constructor; [apply event_checked; evaluate|]. constructor; [exact I|constructor].
  - split; [vm_compute; split; discriminate|apply (bool_decide_unpack _); evaluate].
  - left. reflexivity.
  - evaluate.
  - vm_compute. discriminate.
  - exists s, out. exact (conj Hs Ho).
Defined.

Definition half_read : SseBody * result bytes StreamError :=
Eval vm_compute in   sse_run (SseBody_start true) [slice_to (sample_stream (ascii "{}")) 17].

Lemma sse_loop_terminates_witness :
  exists n r, (n <= sse_fuel (extend half_read.1 (slice_from (sample_stream (ascii "{}")) 17)))%nat /\
    turns n (extend half_read.1 (slice_from (sample_stream (ascii "{}")) 17)) r.
Proof.
  destruct (sse_loop_terminates true [slice_to (sample_stream (ascii "{}")) 17] half_read.1
    (unwrap [] half_read.2) (slice_from (sample_stream (ascii "{}")) 17)) as (n & r & Ht & Hn & _).
  - evaluate.
  - exists n, r. exact (conj Hn Ht).
Defined.

(** ** Receipts *)

Definition bag_fields : list (bytes * Value) := [(ascii "id", JString (ascii "r1"))].
Definition request_digest : bytes := Eval vm_compute in sha256 (ascii "request").
Definition response_digest : bytes :=
Eval vm_compute in   sha256 (content sample_frames ++ SSE_CHAT_TERMINAL_PREFIX ++ SSE_EVENT_END).
Definition boot_digest : bytes := Eval vm_compute in sha256 (ascii "boot").
Definition node_signing : SigningKey := Eval vm_compute in SigningKey_from_seeds (spread 8 32) (spread 9 32).
Definition signed_receipt : rng * result Receipt GatewayError :=
Eval vm_compute in   sign_receipt node_signing boot_digest request_digest response_digest (json_to_vec (JObject bag_fields)) start.
Definition no_receipt : Receipt :=
  {| r_schema := []; r_boot_sha256 := []; r_request_sha256 := []; r_response_sha256 := []; r_signature := [] |}.
Definition the_receipt : Receipt := Eval vm_compute in unwrap no_receipt signed_receipt.2.
Definition the_bag : Value := Eval vm_compute in JObject (bag_fields ++ [(ascii "receipt", Receipt_to_value the_receipt)]).
Definition the_boot : VerifiedBoot := {|
  vb_node_id := ascii "node"; vb_signing_public_key := base64url_encode (sk_public node_signing);
  vb_document_sha256 := boot_digest |}.

Definition signed_stream : bytes := Eval vm_compute in sample_stream (json_to_vec the_bag).
Definition stream_done : Stream * result bytes ReceiptError :=
Eval vm_compute in   stream_run (Stream_new request_digest) (in_two signed_stream).
Definition no_metadata : VerifiedMetadata := {| vm_metadata := JNull; vm_receipt := {|
  vr_node_id := []; vr_boot_sha256 := []; vr_request_sha256 := []; vr_response_sha256 := [] |} |}.

Lemma stream_receipt_sound_witness :
  exists fs t proof, signed_stream = wire fs ++ receipt_bytes proof ++ t ++ SSE_EVENT_END /\
    Forall frame_ok fs /\ receipt_ok proof.
Proof.
  destruct (stream_receipt_sound request_digest (in_two signed_stream) stream_done.1 (unwrap [] stream_done.2)
    the_boot (unwrap no_metadata (Stream_finish stream_done.1 the_boot)))
    as (fs & t & proof & metadata & Hw & Hf & Hr & _).
  - evaluate.
  - evaluate.
  - exists fs, t, proof. split; [|exact (conj Hf Hr)]. rewrite <- Hw. unfold in_two.
    cbn [concat]. rewrite app_nil_r. symmetry. apply slice_to_from.
Defined.

(** ** Provisioning *)

Definition sealed_provisioning : rng * result Provisioning ProvisioningError :=
Eval vm_compute in   seal_provisioning (XWing_sk_to_pk (spread 6 32)) boot_digest (ascii "secrets") start.
Definition no_provisioning : Provisioning :=
  {| pv_schema := []; pv_boot_sha256 := []; pv_encapsulated_key := []; pv_ciphertext := [] |}.
Definition the_envelope : bytes :=
Eval vm_compute in   json_to_vec (Provisioning_to_value (unwrap no_provisioning sealed_provisioning.2)).
Definition node_keys : NodeKeys := Eval vm_compute in NodeKeys_from_seeds (spread 8 32) (spread 9 32) (spread 6 32).

Lemma provisioning_once_witness :
  NodeKeys_open_provisioning node_keys boot_digest the_envelope =
  ({| nk_signing := nk_signing node_keys; nk_recipient := None;
      nk_recipient_public := nk_recipient_public node_keys |}, Ok (ascii "secrets")).
Proof.
  destruct (provisioning_once (spread 8 32) (spread 9 32) (spread 6 32) boot_digest (ascii "secrets") start
    sealed_provisioning.1 (unwrap no_provisioning sealed_provisioning.2)) as [E _].
  - evaluate.
  - evaluate.
  - exact E.
Defined.

(** ** Approvals *)

Definition online_signing : SigningKey := Eval vm_compute in SigningKey_from_seeds (spread 12 32) (spread 13 32).
Definition online_key : OnlineKey := {|
  ok_key_id := ascii "online-1"; ok_public_key := base64_encode (sk_public online_signing);
  ok_rekor_public_key := base64_encode (spread 14 44) |}.
Definition key_manifest : KeyManifest := {|
  km_schema := KEY_MANIFEST_SCHEMA; km_environment := Production; km_generation := 4;
  km_expires_at := ascii "2030-01-01T00:00:00Z"; km_active_key := online_key; km_retired_keys := [] |}.
Definition manifest_digest : bytes := Eval vm_compute in unwrap [] (payload_sha256 (KeyManifest_to_value key_manifest)).
Definition artifact : ReleaseArtifact := {| ra_sha256 := hex_encode (spread 15 32); ra_size_bytes := 100 |}.
Definition catalog : CatalogReleaseManifest := {|
  cm_minimum_gateway_sequence := 1; cm_public := artifact; cm_runtime := artifact;
  cm_schema := ascii "catalog"; cm_sequence := 7;
  cm_source := {| rs_commit := ascii "c"; rs_repository := ascii "r"; rs_sha256 := ascii "s"; rs_tag := ascii "t" |} |}.
Definition approval_manifest : ApprovalManifest := {|
  am_schema := APPROVAL_MANIFEST_SCHEMA; am_environment := Production; am_revision := 2;
  am_key_manifest_sha256 := manifest_digest; am_sigstore_sha256 := ascii "files"; am_gateways := [];
  am_catalogs := [{| ev_document := catalog; ev_provenance := JNull |}];
  am_hardware_policy := {| hw_policies := []; hw_schema := ascii "hw"; hw_version := 1 |} |}.
Definition approval_signature : bytes :=
Eval vm_compute in   unwrap [] (SigningKey_sign online_signing
    (STOGAS_SIGNATURE_DOMAIN ++ default [] (canonical_payload (ApprovalManifest_to_value approval_manifest))) start).2.
Definition signed_approval : LoggedDocument ApprovalManifest := {|
  ld_document := approval_manifest;
  ld_signature := {| ssg_key_id := ascii "online-1"; ssg_signature := base64url_encode approval_signature |};
  ld_inclusion := JNull |}.
Definition approval_verifier : ApprovalVerifier := {|
  av_environment := Production; av_root := {| rk_key_id := ascii "root"; rk_public_key := [] |};
  av_authority := spread 16 32; av_accepted := None; av_key_state := None |}.
Definition sigstore_files : VerifiedSigstore := {|
  vs_id := 0; vs_digest := ascii "files"; vs_trusted_root := tt; vs_root_version := 1; vs_targets_version := 1 |}.
Definition candidate : VerifiedApprovals := {|
  va_authority := spread 16 32; va_keys := key_manifest; va_approvals := signed_approval;
  va_sigstore := sigstore_files; va_keys_digest := manifest_digest;
  va_approvals_digest := unwrap [] (payload_sha256 (ApprovalManifest_to_value approval_manifest));
  va_expires_unix_ms := 1000000 |}.

Lemma candidate_authentic_witness :
  va_keys candidate = key_manifest /\ va_approvals candidate = signed_approval /\
  va_authority candidate = av_authority approval_verifier.
Proof.
  destruct (candidate_authentic approval_verifier {| vk_document := key_manifest; vk_digest := manifest_digest |}
    signed_approval sigstore_files 999 candidate) as (Hk & Ha & Hv & _).
  - evaluate.
  - exact (conj Hk (conj Ha Hv)).
Defined.

(** ** Hardware *)

Definition genoa : AmdProductProfile := nth 1 AMD_PRODUCT_PROFILES (nth 0 AMD_PRODUCT_PROFILES
  {| pp_product_name := []; pp_root_spki_sha384 := []; pp_struct_version := 0; pp_tcb_layout := Family19h;
     pp_minimum_policy_abi := (0, 0); pp_required_policy_bits := 0 |}).

(** Bits 25, 22, 20 and 17, and ABI 1.58. *)
Definition genoa_policy : Z := 38928698.

Lemma launch_policy_exact_witness :
  validate_snp_launch_policy genoa_policy genoa = Ok tt /\ Z.testbit genoa_policy 22 = true.
Proof.
  destruct (launch_policy_exact genoa_policy genoa) as [Hpolicy _].
  - vm_compute. split; discriminate.
  - apply list_elem_of_further, list_elem_of_here.
  - assert (validate_snp_launch_policy genoa_policy genoa = Ok tt) as Hok by evaluate.
    split; [exact Hok|].
    destruct (Hpolicy Hok) as (_ & _ & _ & _ & Haes & _). apply Haes. discriminate.
Defined.

Definition tcb_field : bytes := [x03; x00; x00; x00; x00; x00; x0a; x48].
Definition genoa_chip : bytes := spread 21 64.
Definition genoa_report : bytes :=
Eval vm_compute in   [x05; x00; x00; x00] ++ zeros 4 ++ rev (u64_be genoa_policy) ++ zeros 16 ++ zeros 16 ++ zeros 4
  ++ [x01; x00; x00; x00] ++ tcb_field ++ [x25] ++ zeros 7 ++ zeros 8 ++ spread 31 64 ++ spread 32 48
  ++ zeros 32 ++ spread 33 48 ++ zeros 48 ++ zeros 64 ++ tcb_field ++ [x19; x11; x01] ++ zeros 21
  ++ genoa_chip ++ tcb_field ++ [x02; x3a; x01; x00; x01; x3a; x01; x00] ++ tcb_field
  ++ [x03] ++ zeros 7 ++ [x03] ++ zeros 7 ++ zeros 664.
Definition mask (digit : bytes) : bytes := ascii "0x000000000000000" ++ digit.
Definition genoa_profile : AmdSevSnpPolicy := {|
  ap_chip_ids := [hex_encode (spread 20 64); hex_encode genoa_chip];
  ap_cpuid_family := 25; ap_cpuid_model := 17; ap_cpuid_stepping := 1;
  ap_forbidden_platform_info_mask := mask (ascii "2");
  ap_minimum_tcb := {| tcb_bootloader := 3; tcb_microcode := 72; tcb_snp := 8; tcb_tee := 0 |};
  ap_required_current_mitigation_mask := mask (ascii "1");
  ap_required_launch_mitigation_mask := mask (ascii "2");
  ap_required_platform_info_mask := mask (ascii "5") |}.
Definition genoa_launch : LaunchValues := {|
  lv_author_key_digest := hex_encode (zeros 48); lv_family_id := hex_encode (zeros 16);
  lv_host_data := hex_encode (zeros 32); lv_id_key_digest := hex_encode (spread 33 48);
  lv_image_id := hex_encode (zeros 16); lv_policy := ascii "0x000000000252013a"; lv_vmpl := 0 |}.
Definition genoa_expected : ExpectedSnpReport := {|
  ex_chip_id := hex_encode genoa_chip; ex_reported_tcb := hex_encode tcb_field;
  ex_report_data_sha512 := hex_encode (spread 31 64) |}.
Definition genoa_hardware : HardwarePolicy := {|
  hw_policies := [genoa_profile]; hw_schema := ascii "stogas.hardware-policies.v1"; hw_version := 1 |}.

Lemma report_accepted_sound_witness :
  report_matches genoa_expected (hex_encode (spread 32 48)) genoa_launch genoa_report genoa_hardware.
Proof. apply report_accepted_sound. evaluate. Defined.

Lemma intermediate_versions_rejected_witness : u32_at genoa_report 0 = 2 \/ u32_at genoa_report 0 = 5.
Proof.
  apply (intermediate_versions_rejected genoa_expected (hex_encode (spread 32 48)) genoa_launch genoa_report None).
  evaluate.
Defined.
