(* ===== verification/EvidenceWitness.v ===== *)
(** A small world of evidence: certificates, revocation lists, releases, a signed bundle, a
    boot and a live session, with the parsers that read them. *)

From S2P Require Import Prelude ApprovalsTheory Primitives BTree Json Record Ratchet Window Session Signing Attestation Setup.
From S2P Require Import Receipt Provisioning Documents Deserialize Approvals Snp Releases Amd Collateral Certificates Snapshot.
From S2P Require Import Boot GatewayAbi Toy ToySystem SystemWitness.

Open Scope Z_scope.

(** ** Certificates *)

Definition ark_der : bytes := [x41].
Definition ask_der : bytes := [x42].
Definition vek_der : bytes := [x43].
Definition crl_der : bytes := [x44].
Definition next_crl_der : bytes := [x45].
Definition tls_der : bytes := [x46].
Definition csr_der : bytes := [x51].

Definition pss : AlgorithmIdentifier := {| ai_algorithm := RSA_PSS_OID; ai_parameters := [] |}.
Definition certificate (key subject issuer serial : bytes) (extensions : list X509Extension) : X509Certificate :=
  {| x_public_key := key; x_subject := subject; x_issuer := issuer; x_signature_algorithm := pss;
     x_tbs_signature := pss; x_raw_serial := serial; x_not_before := 0; x_not_after := 10000;
     x_extensions := extensions |}.
Definition extension (oid value : bytes) (parsed : ParsedExtension) : X509Extension :=
  {| xe_oid := oid; xe_critical := false; xe_value := value; xe_parsed := parsed |}.

Definition ark_key : bytes := [x01].
Definition vek_key : bytes := [x03].
Definition ark_cert : X509Certificate :=
  certificate ark_key [x61] [x61] [x01] [extension (ascii "2.5.29.14") [] (SubjectKeyIdentifier [x99])].
Definition ask_cert : X509Certificate := certificate [x02] [x62] [x61] [x00; x05] [].
Definition amd_extension (oid value : bytes) : X509Extension := extension (amd_oid oid) value OtherExtension.
Definition vek_cert : X509Certificate :=
Eval vm_compute in   certificate vek_key [x63] [x62] [x06]
    [amd_extension (ascii "1") [x02; x01; x00];
     amd_extension (ascii "2") ([x16; x05] ++ ascii "Genoa");
     amd_extension (ascii "3.1") [x02; x01; x03]; amd_extension (ascii "3.2") [x02; x01; x00];
     amd_extension (ascii "3.4") [x02; x01; x00]; amd_extension (ascii "3.5") [x02; x01; x00];
     amd_extension (ascii "3.6") [x02; x01; x00]; amd_extension (ascii "3.7") [x02; x01; x00];
     amd_extension (ascii "3.3") [x02; x01; x0a]; amd_extension (ascii "3.8") [x02; x01; x48];
     amd_extension (ascii "4") genoa_chip].

Definition revocation_list (number : byte) (tbs : bytes) : CertificateRevocationList :=
  {| rl_issuer := [x61]; rl_signature_algorithm := pss; rl_tbs_signature := pss; rl_tbs := tbs;
     rl_signature := [x72]; rl_last_update := 0; rl_next_update := Some 10000;
     rl_extensions := [extension (ascii "2.5.29.35") [] (AuthorityKeyIdentifier (Some [x99]));
                       extension (ascii "2.5.29.20") [x02; x01; number] CRLNumber];
     rl_number := Some [number]; rl_revoked := [{| rc_raw_serial := [x07]; rc_extensions := [] |}] |}.

(** ** Releases *)

Definition hex_of (seed : Z) (n : Z) : bytes := hex_encode (spread seed n).
Definition genoa_launch_policies : LaunchPolicies :=
  {| lps_policies := [{| lp_launch := genoa_launch; lp_product_name := ascii "Genoa" |}];
     lps_schema := ascii "stogas.snp-launch-policies.v1" |}.
Definition launch_policies_digest : bytes :=
Eval vm_compute in   hex_encode (sha256 (default [] (canonical_json (LaunchPolicies_to_value genoa_launch_policies)))).

Definition gateway_manifest : GatewayReleaseManifest := Eval vm_compute in {|
  gm_gateway_igvm := {| ra_sha256 := hex_of 41 32; ra_size_bytes := 1000 |};
  gm_build := {|
    gb_lc_all := ascii "C"; gb_source_date_epoch := ascii "1"; gb_tz := ascii "UTC"; gb_umask := ascii "022";
    gb_go_vendor_tree_sha256 := hex_of 42 32; gb_go_version := ascii "go1";
    gb_guest_ca_bundle_path := ascii "/etc/ssl/certs/ca-certificates.crt"; gb_guix_channel_commit := hex_of 43 20;
    gb_input_sha256 := ((fun path => (path, hex_of 44 32)) <$> required_inputs)
                       ++ [(LAUNCH_POLICY_INPUT, launch_policies_digest)];
    gb_kernel_config_sha256 := hex_of 45 32; gb_kernel_version := ascii "6.1";
    gb_linux_bz_image_sha256 := hex_of 46 32; gb_ovmf_sha256 := hex_of 47 32;
    gb_systemd_stub_sha256 := hex_of 48 32; gb_uki_sha256 := hex_of 49 32 |};
  gm_minimum_catalog_sequence := 5;
  gm_schema := ascii "stogas.gateway.release.v1";
  gm_sequence := 1000002000003;
  gm_sev_snp := {|
    gs_check_kvm := true; gs_launch_measurement := hex_of 32 48; gs_launch_policies := genoa_launch_policies;
    gs_measurement_command := ascii "igvmmeasure --check-kvm gateway.igvm measure";
    gs_measurement_tool := ascii "igvmmeasure"; gs_measurement_tool_sha256 := hex_of 50 32;
    gs_measurement_tool_version := ascii "1"; gs_platform := ascii "SEV_SNP"; gs_vcpu_count := 4;
    gs_vmm := ascii "qemu-kvm" |};
  gm_source := {| rs_commit := hex_of 51 20; rs_repository := ascii "https://github.com/StogasAI/gateway";
                  rs_sha256 := hex_of 52 32; rs_tag := ascii "v1.2.3" |} |}.

Definition catalog_manifest : CatalogReleaseManifest := Eval vm_compute in {|
  cm_minimum_gateway_sequence := 1;
  cm_public := {| ra_sha256 := hex_of 53 32; ra_size_bytes := 10 |};
  cm_runtime := {| ra_sha256 := hex_of 54 32; ra_size_bytes := 10 |};
  cm_schema := ascii "stogas.catalog.release.v1"; cm_sequence := 7;
  cm_source := {| rs_commit := hex_of 55 20; rs_repository := ascii "https://github.com/StogasAI/catalog";
                  rs_sha256 := hex_of 56 32; rs_tag := ascii "catalog-v7" |} |}.

Definition gateway_release : AllowedIgvm := {| ev_document := gateway_manifest; ev_provenance := JString (ascii "proof") |}.
Definition catalog_release : AllowedCatalog := {| ev_document := catalog_manifest; ev_provenance := JString (ascii "proof") |}.

(** ** The signed bundle *)

Definition root_signing : SigningKey := Eval vm_compute in SigningKey_from_seeds (spread 61 32) (spread 62 32).
Definition root_key : RootKey := Eval vm_compute in {| rk_key_id := ascii "root-1"; rk_public_key := base64_encode (sk_public root_signing) |}.

Definition sign_document (key : SigningKey) (document : Value) : bytes :=
  base64url_encode (unwrap [] (SigningKey_sign key
    (STOGAS_SIGNATURE_DOMAIN ++ default [] (canonical_payload document)) start).2).
Definition logged_value (document : Value) (key_id signature : bytes) : Value :=
  JObject [(ascii "document", document);
           (ascii "signature", StogasSignature_to_value {| ssg_key_id := key_id; ssg_signature := signature |});
           (ascii "inclusion", JString (ascii "log"))].

Definition files : SigstoreFiles :=
Eval vm_compute in   {| sf_roots := [base64_encode [x01]]; sf_targets := base64_encode [x02]; sf_trusted_root := base64_encode [x03] |}.
Definition files_digest : bytes := Eval vm_compute in unwrap [] (payload_sha256 (SigstoreFiles_to_value files)).

Definition approvals_at (revision : Z) : ApprovalManifest := {|
  am_schema := APPROVAL_MANIFEST_SCHEMA; am_environment := Production; am_revision := revision;
  am_key_manifest_sha256 := manifest_digest; am_sigstore_sha256 := files_digest;
  am_gateways := [gateway_release]; am_catalogs := [catalog_release]; am_hardware_policy := genoa_hardware |}.

Definition row (kind der : bytes) (extra : list (bytes * Value)) : Value :=
  JObject ([(ascii "ca_product_name", JString (ascii "Genoa")); (ascii "collateral_type", JString kind);
            (ascii "der_base64url", JString (base64url_encode der)); (ascii "fetched_at", JString (ascii "now"));
            (ascii "product_name", JString (ascii "Genoa"));
            (ascii "schema", JString (ascii "stogas.amd-kds-collateral.v1"));
            (ascii "sha256", JString (hex_encode (sha256 der))); (ascii "source", JString (ascii "amd-kds"));
            (ascii "source_url", JString (ascii "kds"))] ++ extra).

Definition collateral_rows (crl : bytes) : list Value :=
  [row (ascii "ark") ark_der []; row (ascii "ask") ask_der []; row (ascii "crl") crl [];
   row (ascii "vcek") vek_der [(ascii "chip_id", JString (hex_encode genoa_chip));
                               (ascii "reported_tcb", JString (hex_encode tcb_field))]].

Definition body_at (revision : Z) (crl : bytes) : Value :=
  JObject [(ascii "schema", JString BUNDLE_SCHEMA); (ascii "sigstore", SigstoreFiles_to_value files);
           (ascii "keys", logged_value (KeyManifest_to_value key_manifest) (ascii "root-1")
                            (sign_document root_signing (KeyManifest_to_value key_manifest)));
           (ascii "approvals", logged_value (ApprovalManifest_to_value (approvals_at revision)) (ascii "online-1")
                                 (sign_document online_signing (ApprovalManifest_to_value (approvals_at revision))));
           (ascii "vendor_collateral", JArray (collateral_rows crl))].

Definition bundle_at (revision : Z) (crl : bytes) : bytes :=
  json_to_vec (JObject [(ascii "schema", JString BUNDLE_ENVELOPE_SCHEMA);
                        (ascii "body_sha256", JString (unwrap [] (payload_sha256 (body_at revision crl))));
                        (ascii "body", body_at revision crl)]).

(** ** A boot and a live report *)

Definition toy_sha384 (l : bytes) : bytes :=
  if bool_decide (l = ark_key) then default [] (hex_decode (pp_root_spki_sha384 genoa)) else spread (mix l) 48.

(** The firmware signs the report's first 672 bytes. *)
Definition report_with (data : bytes) : bytes :=
  let body := slice genoa_report 0 80 ++ data ++ slice genoa_report 144 672 in
  body ++ rev (toy_sha384 body) ++ zeros 24 ++ zeros 48 ++ zeros 24 ++ zeros 368.

Definition request_key : bytes := Eval vm_compute in spread 71 65.
Definition tls_spki_hash : bytes := Eval vm_compute in sha256 request_key.
Definition challenge : bytes := Eval vm_compute in spread 72 32.
Definition release_id : bytes :=
Eval vm_compute in   default [] (hex_decode (unwrap [] (payload_sha256 (GatewayReleaseManifest_to_value gateway_manifest)))).

Definition boot_commitment : bytes := Eval vm_compute in unwrap [] (NodeKeys_report_data node_keys Production tls_spki_hash challenge).
Definition boot_report : bytes := Eval vm_compute in report_with boot_commitment.
Definition boot_text : bytes :=
Eval vm_compute in   unwrap [] (NodeKeys_boot_document node_keys Production tls_spki_hash challenge boot_report release_id).
Definition boot_record : BootRecord :=
Eval vm_compute in   {| br_schema := BOOT_SCHEMA; br_gateway_release_id := hex_encode release_id;
     br_report := base64url_encode boot_report;
     br_report_data := boot_report_data node_keys Production tls_spki_hash challenge |}.
Definition publication : Value := BootPublication_to_value
  {| bp_schema := BOOT_PUBLICATION_SCHEMA; bp_boot := boot_record; bp_evidence_sha256 := hex_of 73 32 |}.
Definition inclusion_text : bytes := Eval vm_compute in json_to_vec (BootInclusion_to_value
  {| bi_evidence_sha256 := hex_of 73 32;
     bi_signature := {| ssg_key_id := ascii "online-1"; ssg_signature := sign_document online_signing publication |};
     bi_inclusion := JString (ascii "log") |}).

(** ** The certificate of a connection *)

Definition tls_key : bytes := Eval vm_compute in spread 74 1952.
Definition tls_nonce : bytes := Eval vm_compute in spread 90 32.
Definition tls_batch : bytes * list BatchProof :=
Eval vm_compute in   unwrap ([], []) (quote_batch [tls_leaf Production (sha256 boot_text) tls_nonce (sha256 tls_key)]).
Definition tls_evidence : bytes :=
Eval vm_compute in   unwrap [] (session_evidence (report_with tls_batch.1) (BatchProof_to_bytes (nth 0 tls_batch.2 no_proof))
               boot_text inclusion_text true).
Definition tls_cert : X509Certificate :=
  certificate tls_key [x64] [x64] [x08] [extension CMW_OID tls_evidence OtherExtension].

Definition request : CertificationRequest := Eval vm_compute in {|
  cq_version := 0; cq_signature_oid := OID_SIG_ECDSA_WITH_SHA256; cq_signature_parameters := false;
  cq_signature_unused_bits := 0; cq_signature := toy_signature request_key [x77] 64;
  cq_spki_oid := OID_KEY_TYPE_EC_PUBLIC_KEY; cq_spki_parameters := Some OID_EC_P256; cq_spki_unused_bits := 0;
  cq_spki_key := request_key; cq_spki_raw := request_key; cq_info_raw := [x77];
  cq_common_names := [Some (ascii "api.stogas.ai")]; cq_subject_attributes := 1;
  cq_attributes := [ExtensionRequest [SubjectAlternativeName [DNSName (ascii "API.stogas.ai")]]] |}.

(** ** The parsers and primitives of this world *)

Definition parse_certificate (der : bytes) : option (bytes * X509Certificate) :=
  match der with
  | [x41] => Some ([], ark_cert)
  | [x42] => Some ([], ask_cert)
  | [x43] => Some ([], vek_cert)
  | [x46] => Some ([], tls_cert)
  | _ => None
  end.

Definition parse_revocations (der : bytes) : option (bytes * CertificateRevocationList) :=
  match der with
  | [x44] => Some ([], revocation_list x01 [x81])
  | [x45] => Some ([], revocation_list x02 [x82])
  | _ => None
  end.

#[export] Instance toy_x509 : X509 := {
  sha384 := toy_sha384;
  parse_x509_certificate := parse_certificate;
  parse_x509_crl := parse_revocations;
  signature_algorithm _ := Some (RSASSA_PSS {| ps_hash := SHA384_OID; ps_mask := Some (MGF1_OID, SHA384_OID);
                                               ps_salt_length := 48; ps_trailer_field := 1 |});
  rsa_key key := bool_decide (key = ark_key);
  pss_signature signature := zlen signature =? 1;
  pss_sha384_verify key message signature := bool_decide (signature = [x72]);
  sev_certificate der := bool_decide (is_Some (parse_certificate der));
  sev_self_verify der := bool_decide (der = ark_der);
  sev_chain ark ask vek := bool_decide (ark = ark_der /\ ask = ask_der);
  sev_chain_verify ark ask vek := bool_decide (vek = vek_der);
  p384_key key := bool_decide (key = vek_key);
  p384_signature r s := (zlen r =? 48) && (zlen s =? 48);
  p384_verify_prehash key digest r s := bool_decide (r = digest)
}.

#[export] Instance toy_unicode : Unicode := { str_to_lowercase text := ascii_lower <$> text }.

#[export] Instance toy_pkcs10 : Pkcs10 := {
  csr_from_der der := match der with [x51] => Some ([], der, request) | _ => None end;
  p256_key key := zlen key =? 65;
  p256_signature signature := zlen signature =? 64;
  p256_verify key message signature := bool_decide (signature = toy_signature key message 64)
}.

(** * Theory

    Concrete instances of the theorems on releases, collateral, snapshots, boots, sessions
    and certificate requests, in this world. *)

Definition now : Z := 500000.

(** The value of a computation that succeeds. *)
Definition value_of {A E : Type} (r : result A E) : match r return Type with Ok _ => A | Err _ => unit end :=
  match r with Ok a => a | Err _ => tt end.
Definition some_of {A : Type} (o : option A) : match o return Type with Some _ => A | None => unit end :=
  match o with Some a => a | None => tt end.

(** ** The first refresh *)

Definition fresh := Eval vm_compute in value_of (Verifier_new Production root_key).
Definition first_bundle : bytes := Eval vm_compute in bundle_at 2 crl_der.
Definition refreshed : Verifier := Eval vm_compute in (refresh fresh first_bundle now).1.
Definition snapshot := Eval vm_compute in some_of (ve_current refreshed).
Definition shared : Shared :=
  {| sh_key_state := av_key_state (ve_approvals refreshed); sh_revocations := ve_revocations refreshed |}.

Lemma snapshots_sound_witness :
  km_environment (va_keys (sn_approvals snapshot)) = Production /\
  entries_list GatewayReleaseManifest_to_value [gateway_release] (sn_gateways snapshot) /\
  store_lists (sn_collateral_evidence snapshot) (sn_collateral snapshot).
Proof.
  destruct (snapshots_sound Production root_key fresh [Refresh first_bundle now] snapshot)
    as (He & _ & _ & Hg & _ & _ & _ & Hc & _).
  - evaluate.
  - evaluate.
  - exact (conj He (conj Hg Hc)).
Defined.

Lemma snapshots_never_roll_back_witness :
  decision_le (sn_approvals <$> ve_current (fold_left verifier_step [] fresh))
    (sn_approvals <$> ve_current (fold_left verifier_step ([] ++ [Refresh first_bundle now]) fresh)).
Proof.
  refine (proj1 (snapshots_never_roll_back Production root_key fresh [] [Refresh first_bundle now] _)). evaluate.
Defined.

(** ** Releases *)

Definition release := Eval vm_compute in value_of (verify_gateway (sn_approvals snapshot) gateway_release now).

Lemma gateway_release_authentic_witness :
  gateway_release_sequence (vl_release_tag release) = Some (vl_sequence release) /\
  vl_measurement release = gs_launch_measurement (gm_sev_snp gateway_manifest).
Proof.
  destruct (gateway_release_authentic (sn_approvals snapshot) gateway_release now release)
    as (_ & Hs & _ & _ & Hm & _).
  - evaluate.
  - exact (conj Hs Hm).
Defined.

(** ** Collateral *)

Lemma vcek_identifies_platform_witness :
  exists chip tcb, hex_decode (hex_encode genoa_chip) = Some chip /\ hex_decode (hex_encode tcb_field) = Some tcb /\
    zlen chip = 64 /\ zlen tcb = 8.
Proof.
  destruct (vcek_identifies_platform vek_cert (hex_encode genoa_chip) (hex_encode tcb_field) genoa
    (hex_encode genoa_chip) (hex_encode tcb_field) genoa) as (_ & chip & tcb & Hc & _ & Hn & Ht & _ & Hm).
  - evaluate.
  - evaluate.
  - exists chip, tcb. exact (conj Hc (conj Ht (conj Hn Hm))).
Defined.

Definition root_id : bytes := toy_sha384 ark_key.
Definition rooted : list (bytes * Issuer) :=
  [(root_id, {| is_certificate := ark_der; is_latest := None; is_conflicting := false |})].
Definition first_crl := Eval vm_compute in value_of (authenticate_crl ark_der crl_der now).
Definition later_crl := Eval vm_compute in value_of (authenticate_crl ark_der next_crl_der now).
Definition learned : list (bytes * Issuer) := Eval vm_compute in (learn_crl rooted root_id first_crl).1.
Definition renewed : list (bytes * Issuer) := Eval vm_compute in (learn_crl learned root_id later_crl).1.

Lemma rooted_reachable : rtc revocation_step [] rooted.
Proof.
  apply rtc_once. apply (step_root [] root_id ark_der). exists ark_cert. split_and!; [evaluate..|].
  exists genoa. split; [apply list_elem_of_further, list_elem_of_here|evaluate].
Qed.

Lemma learned_reachable : revocation_step rooted learned.
Proof.
  change learned with (learn_crl rooted root_id first_crl).1.
  eapply (step_crl rooted root_id _ crl_der now); [evaluate|evaluate].
Qed.

Lemma renewed_reachable : revocation_step learned renewed.
Proof.
  change renewed with (learn_crl learned root_id later_crl).1.
  eapply (step_crl learned root_id _ next_crl_der now); [evaluate|evaluate].
Qed.

Definition wide : Validity := {| va_not_before := 0; va_not_after := 10000000 |}.

Lemma revocation_no_rollback_witness :
  exists i new, bm_get renewed root_id = Some i /\ is_latest i = Some new /\ ([x05] ∉ cr_revoked new).
Proof.
  destruct (revocation_no_rollback rooted learned renewed root_id
    {| is_certificate := ark_der; is_latest := None; is_conflicting := false |} crl_der now first_crl [x05] wide now wide)
    as (i & new & Hi & Hl & _ & Hs & _).
  - exact rooted_reachable.
  - evaluate.
  - evaluate.
  - left. evaluate.
  - evaluate.
  - apply rtc_once, renewed_reachable.
  - evaluate.
  - exists i, new. exact (conj Hi (conj Hl Hs)).
Defined.

Definition collateral_objects : list (list (bytes * Value)) :=
  (fun v => match v with JObject fields => fields | _ => [] end) <$> collateral_rows crl_der.
Definition store := Eval vm_compute in value_of (Store_verify collateral_objects None).

Lemma collateral_appraisal_sound_witness :
  exists p chip tcb ark ask vek issuer crl root,
    Store_vcek store (hex_encode genoa_chip) (hex_encode tcb_field) = Ok (pl_vcek p) /\
    chain_of p chip tcb ark ask vek /\ bm_get learned (sha384 (x_public_key ark)) = Some issuer /\
    is_latest issuer = Some crl /\ crl_for root (x_raw_serial ask) crl.
Proof.
  destruct (collateral_appraisal_sound store learned (hex_encode genoa_chip) (hex_encode tcb_field) now wide)
    as (p & chip & tcb & ark & ask & vek & issuer & crl & root & _ & _ & Hv & Hc & Hi & _ & _ & _ & Hl & Hr & _).
  - apply (built_fresh collateral_objects). evaluate.
  - exact (rtc_r _ _ _ rooted_reachable learned_reachable).
  - evaluate.
  - exists p, chip, tcb, ark, ask, vek, issuer, crl, root. exact (conj Hv (conj Hc (conj Hi (conj Hl Hr)))).
Defined.

(** ** Boots and sessions *)

Lemma boot_requests_distinct_witness : Certificate = Certificate /\ ascii "node" = ascii "node" /\ 7 = 7.
Proof.
  apply (boot_requests_distinct Certificate Certificate (ascii "node") (ascii "node") 7 7); [|
    |reflexivity]; split; discriminate.
Defined.

Definition live_session := Eval vm_compute in
  value_of (Snapshot_verify_native_certificate snapshot shared tls_der tls_nonce now).

Lemma native_session_sound_witness :
  exists parsed cert, parse_x509_certificate tls_der = Some ([], cert) /\
    BatchProof_verify (se_proof (nc_evidence parsed))
      (NativeTls (km_environment (va_keys (sn_approvals snapshot))) (sha256 (se_boot_document (nc_evidence parsed)))
         tls_nonce (sha256 (x_public_key cert)))
      (slice (se_report (nc_evidence parsed)) 80 144) = Ok tt /\
    boot_proof snapshot shared (se_boot_document (nc_evidence parsed)) now (vx_boot live_session).
Proof.
  destruct (native_session_sound snapshot shared tls_der tls_nonce now live_session)
    as (parsed & cert & _ & Hp & _ & _ & Hb & Hboot & _).
  - evaluate.
  - exists parsed, cert. exact (conj Hp (conj Hb Hboot)).
Defined.

Lemma session_recheck_sound_witness :
  keys_current (va_keys (sn_approvals snapshot)) (sh_key_state shared) /\
  600000 < va_expires_unix_ms (sn_approvals snapshot).
Proof.
  destruct (session_recheck_sound snapshot shared live_session 600000 (vx_validity live_session))
    as ((_ & Hk & He & _) & _).
  - evaluate.
  - exact (conj Hk He).
Defined.

Definition registration : VerifiedRegistration := vb_identity (vx_boot live_session).

Lemma csr_names_one_host_witness :
  exists host raw csr name, csr_from_der csr_der = Some ([], raw, csr) /\
    cq_common_names csr = [Some host] /\
    cq_attributes csr = [ExtensionRequest [SubjectAlternativeName [DNSName name]]] /\ normalize name = normalize host.
Proof.
  destruct (csr_names_one_host registration csr_der) as (host & raw & csr & name & _ & Hp & _ & _ & Hc & _ & Ha & Hn).
  - evaluate.
  - exists host, raw, csr, name. exact (conj Hp (conj Hc (conj Ha Hn))).
Defined.

Lemma boot_documents_register_witness :
  Snapshot_verify_registration snapshot shared boot_text challenge now =
  Ok {| vn_record := boot_record; vn_hardware := vn_hardware registration; vn_document_sha256 := sha256 boot_text |}.
Proof.
  refine (proj2 (boot_documents_register (spread 8 32) (spread 9 32) (spread 6 32) Production tls_spki_hash challenge
    boot_report release_id boot_text snapshot shared now (vn_hardware registration) _ _ _ _ _ _ _)).
  - evaluate.
  - evaluate.
  - evaluate.
  - evaluate.
  - vm_compute. discriminate.
  - evaluate.
  - evaluate.
Defined.

(** ** A caller of the C interface *)

(** Two seeds, a place for keys, two digests, a leaf, report data, a buffer, a record and three scalars. *)
Definition caller_memory : Memory := list_to_map
  [ (1%nat, C_bytes (spread 1 64)); (2%nat, C_bytes (spread 2 32)); (3%nat, C_handle None)
  ; (4%nat, C_bytes (spread 3 32)); (5%nat, C_bytes (spread 4 32)); (6%nat, C_bytes (spread 5 64))
  ; (7%nat, C_bytes (spread 6 64)); (8%nat, C_buffer None 0); (9%nat, C_bytes (spread 7 100))
  ; (10%nat, C_scalar 0); (11%nat, C_scalar 0); (12%nat, C_scalar 0)
  ; (13%nat, C_owner (Ow_reader {| sr_records := Records_from_keys {| chain := spread 8 32 |} Request None |})) ].

Definition caller_generator : @rng toy_random := 0.

(** Keys, a leaf for an unknown environment, a batch of one leaf, a forged record and a missing writer. *)
Definition caller_calls : list (GatewayCall + ChannelCall) :=
  [ inl (G_node_keys_new (Some 1%nat) (Some 2%nat) (Some 3%nat))
  ; inl (G_tls_leaf 9 (Some 4%nat) (Some 5%nat) (Some 4%nat) (Some 7%nat))
  ; inl (G_quote_batch (Some 6%nat) 1 (Some 7%nat) (Some 8%nat))
  ; inr (H_open (Some 13%nat) (Some 9%nat) 100 (Some 10%nat) (Some 11%nat) (Some 12%nat))
  ; inr (H_seal None 2 None 5 (Some 8%nat)) ].

Ltac prepared :=
  lazymatch goal with
  | |- _ /\ _ => split; prepared
  | |- or_null None _ => left; reflexivity
  | |- or_null _ _ => right; prepared
  | |- readable _ _ _ => split; [vm_compute; discriminate|first [left; reflexivity | right; prepared]]
  | |- holds_bytes _ _ _ => eexists; split; [eexists; split; reflexivity|vm_compute; discriminate]
  | |- holds _ _ _ => eexists; split; reflexivity
  | |- exclusive _ _ => unfold exclusive; apply (bool_decide_unpack _); vm_compute; exact I
  end.

Lemma calls_defined_witness :
  exists m' g' codes, call_codes false caller_calls caller_memory caller_generator = Some (m', g', codes) /\ length codes = 5%nat.
Proof.
  destruct (calls_defined false caller_calls caller_memory caller_generator) as (m' & g' & codes & Hc & Hl & _).
  - unfold caller_calls. repeat apply List.Forall_cons; try apply List.Forall_nil; cbn [call_contract gateway_contract channel_contract]; prepared.
  - exists m', g', codes. exact (conj Hc Hl).
Defined.

Example caller_codes :
  match call_codes false caller_calls caller_memory caller_generator with Some (_, _, codes) => codes | None => [] end = [0; 1; 0; 1; 4].
Proof. vm_compute. reflexivity. Qed.
