(* ===== verification/SigstoreWitness.v ===== *)
(** A small Sigstore: a certificate authority, two logs, a chain of TUF roots, a published
    document and an attested SDK release, with the decoders that read them. *)

From S2P Require Import Prelude MerkleTheory CanonicalJson Releases Provenance Primitives BTree Text Json Signing Attestation.
From S2P Require Import Documents Deserialize Approvals Snp Schemes TrustRoot Tlog Tuf Bundles SdkRelease Record Ratchet.
From S2P Require Import Setup Toy ToySystem SystemWitness.

Open Scope Z_scope.

(** ** JSON as UTF-8 text *)

(** The printer and parser of the other instances with the terminator and the null byte
    exchanged, so that the terminator is a character. *)
Definition swap (b : byte) : byte := if bool_decide (b = x80) then x00 else if bool_decide (b = x00) then x80 else b.
Fixpoint swap_value (v : Value) : Value :=
  match v with
  | JNumber t => JNumber (swap <$> t)
  | JString t => JString (swap <$> t)
  | JArray l => JArray (List.map swap_value l)
  | JObject fields => JObject (List.map (fun '(k, v) => (swap <$> k, swap_value v)) fields)
  | _ => v
  end.
Definition swap_print (v : Value) : bytes := swap <$> toy_print (swap_value v).
Definition swap_parse (l : bytes) : option Value := swap_value <$> whole (swap <$> l).

#[export] Instance nul_json : Json := {
  json_tree := swap_parse;
  json_from_slice := swap_parse;
  json_to_vec := swap_print;
  json_canonical v := Some (swap_print v)
}.

Definition object (fields : list (bytes * Value)) : Value := JObject fields.
Definition text (s : bytes) : Value := JString s.
Definition coded (b : bytes) : Value := JString (base64_encode b).

(** ** Keys *)

Definition toy_sign (key message : bytes) : bytes := spread (mix (key ++ message)) 8.
Definition is_signed (key message signature : bytes) : bool := bool_decide (signature = toy_sign key message).

#[export] Instance toy_schemes : SchemePrimitives := {
  sha384_digest m := spread (mix m) 48;
  spki_ref key := Some {| sr_oid := ID_EC_PUBLIC_KEY; sr_parameters := Some SECP_256_R_1; sr_key := key |};
  ec256_key _ := true;
  ec256_signature _ := true;
  ec256_verify := is_signed;
  ec256_verify_prehash := is_signed;
  ec384_key _ := true;
  ec384_signature _ := true;
  ec384_verify := is_signed;
  ec384_verify_prehash := is_signed;
  ed25519_key _ := true;
  ed25519_signature _ := true;
  ed25519_verify := is_signed;
  rsa_bits _ := None;
  rsa_signature _ := false;
  rsa_pkcs1_verify _ _ _ _ := false;
  rsa_pss_verify _ _ _ _ := false
}.

(** A PEM text is a letter for its tag and the contents. *)
#[export] Instance toy_rekor : RekorPrimitives := {
  pem_parse b :=
    match b with
    | x43 :: contents => Some (ascii "CERTIFICATE", contents)
    | x50 :: contents => Some (ascii "PUBLIC KEY", contents)
    | _ => None
    end;
  ed25519ph_verify_strict key artifact signature := bool_decide (signature = spread (mix (key ++ artifact)) 64)
}.

Definition rekor_spki : bytes := ascii "R".
Definition ct_spki : bytes := ascii "T".
Definition rekor_id : bytes := Eval vm_compute in spread 71 32.
Definition ct_id : bytes := Eval vm_compute in spread 72 32.
Definition fulcio_der : bytes := ascii "F".
Definition leaf_der : bytes := ascii "L".
Definition leaf_spki : bytes := ascii "K".
Definition fulcio_spki : bytes := ascii "I".

(** ** The trusted root *)

Definition log_value (id spki : bytes) : Value :=
  object [(ascii "hashAlgorithm", text (ascii "SHA2_256"));
          (ascii "publicKey", object [(ascii "rawBytes", coded spki);
                                      (ascii "keyDetails", text (ascii "PKIX_ECDSA_P256_SHA_256"))]);
          (ascii "logId", object [(ascii "keyId", coded id)])].
Definition trusted_root_value : Value :=
  object [(ascii "mediaType", text TRUST_MEDIA_TYPE);
          (ascii "certificateAuthorities", JArray [object [(ascii "certChain",
             object [(ascii "certificates", JArray [object [(ascii "rawBytes", coded fulcio_der)]])])]]);
          (ascii "tlogs", JArray [log_value rekor_id rekor_spki]);
          (ascii "ctlogs", JArray [log_value ct_id ct_spki])].
Definition trusted_root_text : bytes := Eval vm_compute in json_to_vec trusted_root_value.

Definition no_root : RootKeys := {| tr_fulcio := []; tr_rekor := []; tr_ct := []; tr_tsa := [] |}.
Definition toy_root : RootKeys := Eval vm_compute in unwrap no_root (RootKeys_complete trusted_root_text).

(** ** TUF files *)

Definition tuf_key (key : bytes) : Value :=
  object [(ascii "keytype", text (ascii "ecdsa")); (ascii "scheme", text (ascii "ecdsa-sha2-nistp256"));
          (ascii "keyval", object [(ascii "public", text (x50 :: key))])].
Definition tuf_role (keyid : bytes) : Value :=
  object [(ascii "keyids", JArray [text keyid]); (ascii "threshold", jnum 1)].
Definition tuf_signed (kind : bytes) (version : Z) (rest : list (bytes * Value)) : Value :=
  object ([(ascii "_type", text kind); (ascii "spec_version", text (ascii "1.0")); (ascii "version", jnum version);
           (ascii "expires", text (ascii "later"))] ++ rest).
Definition root_signed (version : Z) (keyid : bytes) : Value :=
  tuf_signed (ascii "root") version
    [(ascii "keys", object [(keyid, tuf_key keyid)]);
     (ascii "roles", object ((fun name => (name, tuf_role keyid)) <$> ROLES))].
Definition tuf_file (signed : Value) (signers : list bytes) : bytes :=
  json_to_vec (object [(ascii "signed", signed);
    (ascii "signatures", JArray ((fun keyid => object [(ascii "keyid", text keyid);
      (ascii "sig", text (hex_encode (toy_sign keyid (unwrap [] (write_canonical signed)))))]) <$> signers))]).

Definition first_root_file : bytes := Eval vm_compute in tuf_file (root_signed 1 (ascii "k1")) [ascii "k1"].
Definition second_root_file : bytes :=
  Eval vm_compute in tuf_file (root_signed 2 (ascii "k2")) [ascii "k1"; ascii "k2"].
Definition targets_file : bytes := Eval vm_compute in tuf_file (tuf_signed (ascii "targets") 9
  [(ascii "targets", object [(ascii "trusted_root.json",
     object [(ascii "length", jnum (zlen trusted_root_text));
             (ascii "hashes", object [(ascii "sha256", text (hex_encode (sha256 trusted_root_text)))])])])]) [ascii "k2"].

(** ** Log entries *)

(** The second of two leaves. *)
Definition first_leaf : bytes := Eval vm_compute in spread 73 32.
Definition entry_value (kind body : bytes) : Value :=
  let root := rekor_node first_leaf (sha256 (leaf_input body)) in
  let note := ascii "rekor.sigstore.dev - 1" ++ [x0a] ++ ascii "2" ++ [x0a] ++ base64_encode root in
  let envelope := note ++ [x0a; x0a] ++ EM_DASH ++ ascii " rekor.sigstore.dev "
    ++ base64_encode (slice_to rekor_id 4 ++ toy_sign rekor_spki (note ++ [x0a])) ++ [x0a] in
  let promise := toy_sign rekor_spki (default [] (json_canonical
    (RekorSetPayload_to_value (base64_encode body) 500 7 (hex_encode rekor_id)))) in
  object [(ascii "logIndex", text (ascii "7")); (ascii "logId", object [(ascii "keyId", coded rekor_id)]);
          (ascii "kindVersion", object [(ascii "kind", text kind); (ascii "version", text (ascii "0.0.1"))]);
          (ascii "integratedTime", text (ascii "500"));
          (ascii "inclusionPromise", object [(ascii "signedEntryTimestamp", coded promise)]);
          (ascii "inclusionProof", object [(ascii "logIndex", text (ascii "1")); (ascii "rootHash", coded root);
             (ascii "treeSize", text (ascii "2")); (ascii "hashes", JArray [coded first_leaf]);
             (ascii "checkpoint", object [(ascii "envelope", text envelope)])]);
          (ascii "canonicalizedBody", coded body)].

(** ** Published documents *)

Definition submission_key : bytes := ascii "S".
Definition inclusion_value (artifact : bytes) : Value :=
  let signature := spread (mix (submission_key ++ artifact)) 64 in
  let body := json_to_vec (object [(ascii "apiVersion", text (ascii "0.0.1")); (ascii "kind", text (ascii "hashedrekord"));
    (ascii "spec", object [
      (ascii "data", object [(ascii "hash", object [(ascii "algorithm", text (ascii "sha512"));
         (ascii "value", text (hex_encode (sha512 artifact)))])]);
      (ascii "signature", object [(ascii "content", coded signature);
         (ascii "publicKey", object [(ascii "content", coded (x50 :: submission_key))])])])]) in
  object [(ascii "mediaType", text SIGSTORE_BUNDLE_MEDIA_TYPE);
          (ascii "messageSignature", object [
            (ascii "messageDigest", object [(ascii "algorithm", text (ascii "SHA2_512")); (ascii "digest", coded (sha512 artifact))]);
            (ascii "signature", coded signature)]);
          (ascii "verificationMaterial", object [
            (ascii "publicKey", object [(ascii "hint", text (hex_encode (sha256 submission_key)))]);
            (ascii "tlogEntries", JArray [entry_value (ascii "hashedrekord") body]);
            (ascii "timestampVerificationData", object [])])].

(** ** Certificates *)

Definition sdk_manifest : Manifest := Eval vm_compute in {|
  mf_schema := ascii "stogas.sdk-release.v1"; mf_environment := Production; mf_version := ascii "1.2.0";
  mf_source := {| so_commit := hex_encode (spread 81 20); so_sha256 := hex_encode (spread 82 32); so_dirty := false;
                  so_epoch := 1 |};
  mf_targets := [ascii "linux"];
  mf_artifacts := [{| at_name := ascii "stogas.tar"; at_sha256 := hex_encode (spread 83 32); at_size := 10 |}] |}.
Definition toy_policy : GithubPolicy := Eval vm_compute in sdk_release_policy sdk_manifest.

Definition fulcio_extension (oid value : bytes) : FulcioExtension :=
  {| fe_id := oid; fe_critical := false; fe_value := value |}.
Definition leaf_certificate : FulcioCertificate := Eval vm_compute in {|
  fc_not_before := 100; fc_not_after := 900; fc_issuer := ascii "fulcio"; fc_serial := [x01];
  fc_algorithm := ID_EC_PUBLIC_KEY; fc_curve := Some (Some SECP_256_R_1);
  fc_extensions := Some ([fulcio_extension FULCIO_ISSUER_OID GITHUB_OIDC_ISSUER]
    ++ ((fun e => fulcio_extension e.1 e.2) <$> cp_extensions (github_certificate_policy toy_policy)));
  fc_rest := [] |}.
Definition leaf_sct : SignedCertificateTimestamp := Eval vm_compute in {|
  sc_log_id := ct_id; sc_timestamp := 400000; sc_extensions := []; sc_hash := 4; sc_signature_algorithm := 3;
  sc_signature := toy_sign ct_spki (default [] (DigitallySigned_serialize 400000 (sha256 fulcio_spki) (ascii "tbs") [])) |}.

#[export] Instance toy_pki : Pki := {
  certificate_from_der b := if bool_decide (b = leaf_der) then Some leaf_certificate else None;
  certificate_to_der _ := Some leaf_der;
  certificate_spki_to_der _ := Some leaf_spki;
  certificate_tbs_to_der _ := Some (ascii "tbs");
  certificate_san _ := Some (Some (true, [UniformResourceIdentifier (gp_workflow_identity toy_policy)]));
  certificate_eku _ := Some None;
  certificate_scts _ := Some (Some [x01]);
  parse_timestamps _ := Some [[x01]];
  parse_timestamp_entry _ := Some leaf_sct;
  subject_key_identifier_from_der _ := None;
  utf8_string_from_der b := Some b;
  octet_string_from_der _ := None;
  oid_from_der _ := None;
  sequence_to_der b := Some b;
  attributes_to_der _ := None;
  timestamp_response_from_der _ := None;
  content_info_from_der _ := None;
  signed_data_from_der _ := None;
  tst_info_from_der _ := None;
  Anchor := bytes;
  anchor_from_trusted_cert b := Some b;
  end_entity _ := true;
  verify_for_usage _ _ anchors _ _ _ :=
    if bool_decide (anchors = [fulcio_der]) then Some {| vp_intermediate := Some fulcio_spki; vp_anchor_spki := [] |} else None
}.

(** ** Attestations *)

Definition attestation_value (policy : GithubPolicy) (subjects : list (bytes * bytes)) : Value :=
  let payload := json_to_vec (object [
    (ascii "_type", text (ascii "https://in-toto.io/Statement/v1"));
    (ascii "subject", JArray ((fun s => object [(ascii "name", text s.1);
       (ascii "digest", object [(ascii "sha256", text s.2)])]) <$> subjects));
    (ascii "predicateType", text (gp_predicate_type policy)); (ascii "predicate", JNull)]) in
  let signature := toy_sign leaf_spki (pae DSSE_PAYLOAD_TYPE payload) in
  let hash b := object [(ascii "algorithm", text (ascii "sha256")); (ascii "value", text (hex_encode (sha256 b)))] in
  let body := json_to_vec (object [(ascii "apiVersion", text (ascii "0.0.1")); (ascii "kind", text (ascii "dsse"));
    (ascii "spec", object [(ascii "envelopeHash", hash []); (ascii "payloadHash", hash payload);
       (ascii "signatures", JArray [object [(ascii "signature", coded signature); (ascii "verifier", coded (x43 :: leaf_der))]])])]) in
  object [(ascii "mediaType", text SIGSTORE_BUNDLE_MEDIA_TYPE);
          (ascii "dsseEnvelope", object [(ascii "payload", coded payload); (ascii "payloadType", text DSSE_PAYLOAD_TYPE);
             (ascii "signatures", JArray [object [(ascii "sig", coded signature)]])]);
          (ascii "verificationMaterial", object [(ascii "certificate", object [(ascii "rawBytes", coded leaf_der)]);
             (ascii "tlogEntries", JArray [entry_value (ascii "dsse") body])])].

(** ** An SDK release *)

Definition release_root : SigningKey := Eval vm_compute in SigningKey_from_seeds (spread 61 32) (spread 62 32).
Definition release_root_text : bytes := Eval vm_compute in json_to_vec (object
  [(ascii "key_id", text (ascii "root-1")); (ascii "public_key", coded (sk_public release_root))]).

Definition stogas_signature (key : SigningKey) (key_id : bytes) (document : Value) : StogasSignature :=
  {| ssg_key_id := key_id; ssg_signature := base64url_encode (unwrap [] (SigningKey_sign key
       (STOGAS_SIGNATURE_DOMAIN ++ default [] (canonical_payload document)) start).2) |}.
Definition inclusion_of (document : Value) (signature : StogasSignature) : Value :=
  inclusion_value (default [] (canonical_json
    (object [(ascii "document", document); (ascii "signature", StogasSignature_to_value signature)]))).

Definition release_keys : LoggedDocument KeyManifest := Eval vm_compute in
  let document := KeyManifest_to_value key_manifest in
  let signature := stogas_signature release_root (ascii "root-1") document in
  {| ld_document := key_manifest; ld_signature := signature; ld_inclusion := inclusion_of document signature |}.
Definition release_signature : SdkSignature := Eval vm_compute in
  let document := Manifest_to_value sdk_manifest in
  let signature := stogas_signature online_signing (ascii "online-1") document in
  {| sk_keys := release_keys; sk_signature := signature; sk_inclusion := inclusion_of document signature |}.

Definition manifest_text : bytes := Eval vm_compute in json_to_vec (Manifest_to_value sdk_manifest).
Definition qualification_text : bytes := ascii "passed".
Definition signature_text : bytes := Eval vm_compute in json_to_vec (object
  [(ascii "keys", LoggedDocument_to_value KeyManifest_to_value (sk_keys release_signature));
   (ascii "signature", StogasSignature_to_value (sk_signature release_signature));
   (ascii "inclusion", sk_inclusion release_signature)]).
Definition attestation_text : bytes := Eval vm_compute in
  json_to_vec (attestation_value toy_policy (sdk_release_subjects sdk_manifest manifest_text qualification_text)).

(** * Theory

    The theorems about Sigstore, TUF and SDK releases at concrete inputs. *)

(** ** Inclusion proofs *)

Definition rekor_siblings : list bytes := Eval vm_compute in [sha256 (ascii "a"); sha256 (ascii "b")].
Definition rekor_root : bytes :=
  Eval vm_compute in rekor_climb rekor_node 4 5 (sha256 (leaf_input (ascii "entry"))) rekor_siblings.

(** Leaf 4 of 6: its sibling, and then the left part of the tree. *)
Lemma rekor_proof_exact_witness :
  mpath rekor_node 6 4 (sha256 (leaf_input (ascii "entry"))) rekor_siblings rekor_root.
Proof.
  apply (rekor_proof_exact (ascii "entry") 4 6 rekor_siblings rekor_root); [lia|vm_compute; split; discriminate|evaluate].
Defined.

(** ** TUF *)

Lemma trust_update_sound_witness :
  exists compiled newest m,
    compiled_root first_root_file = Ok compiled /\ root_chain compiled [second_root_file] newest /\
    targets_for newest targets_file trusted_root_text m toy_root /\ rt_version newest = 2 /\ md_version m = 9.
Proof.
  destruct (trust_update_sound first_root_file [second_root_file] targets_file trusted_root_text
    {| tu_trusted_root := toy_root; tu_root_version := 2; tu_targets_version := 9 |})
    as (compiled & newest & m & Hc & Hn & Hv & _ & Ht & Hm); [evaluate|].
  exists compiled, newest, m. exact (conj Hc (conj Hn (conj Ht (conj (eq_sym Hv) (eq_sym Hm))))).
Defined.

Definition no_metadata : Tuf.Metadata :=
  {| md_signed := JNull; md_version := 0; md_expires := 0; md_canonical := []; md_signatures := [] |}.
Definition first_metadata : Tuf.Metadata := Eval vm_compute in unwrap no_metadata (Metadata_parse first_root_file (ascii "root")).
Definition no_tuf_root : Root := {| rt_version := 0; rt_expires := 0; rt_keys := []; rt_roles := [] |}.
Definition first_tuf_root : Root := Eval vm_compute in unwrap no_tuf_root (compiled_root first_root_file).

Lemma earlier_root_refused_witness :
  newest_root first_tuf_root [first_root_file; second_root_file]
  = Err (ascii "Sigstore roots must continue the trusted root's version").
Proof. apply (earlier_root_refused first_tuf_root first_root_file [second_root_file] first_metadata); [evaluate|vm_compute; discriminate]. Defined.

Definition shuffled : Value := JObject [(ascii "b", JArray [JNumber (ascii "7"); JNull]); (ascii "a", JString (ascii "x"))].
Definition ordered : Value := JObject [(ascii "a", JString (ascii "x")); (ascii "b", JArray [JNumber (ascii "7"); JNull])].

Lemma canonical_unambiguous_witness :
  write_canonical shuffled = Ok (unwrap [] (write_canonical ordered)) /\ normal shuffled = normal ordered.
Proof.
  destruct (canonical_unambiguous ordered shuffled (unwrap [] (write_canonical ordered))) as [_ Hw]; [evaluate|].
  split; [apply Hw|]; evaluate.
Defined.

(** ** Documents and attestations *)

Definition published_document : bytes := ascii "document".
Definition document_bundle : bytes := Eval vm_compute in json_to_vec (inclusion_value published_document).

Lemma document_inclusion_sound_witness :
  document_logged toy_root document_bundle published_document 600000 500.
Proof. apply document_inclusion_sound. evaluate. Defined.

Definition toy_subjects : list (bytes * bytes) := Eval vm_compute in
  sdk_release_subjects sdk_manifest manifest_text qualification_text.
Definition no_attestation : VerifiedAttestation := {| vt_integrated_time := 0; vt_predicate_type := []; vt_subjects := [] |}.
Definition toy_attestation : VerifiedAttestation := Eval vm_compute in
  unwrap no_attestation (sigstore_github_attestation toy_root attestation_text toy_subjects toy_policy 600000).

Lemma github_attestation_sound_witness :
  exists value, statement_for toy_root value toy_subjects (gp_predicate_type toy_policy)
    (github_certificate_policy toy_policy) 600000 toy_attestation.
Proof.
  destruct (github_attestation_sound toy_root attestation_text toy_subjects toy_policy 600000 toy_attestation)
    as (_ & before & value & after & _ & _ & Hs); [evaluate|].
  exists value. exact Hs.
Defined.

(** ** Releases *)

Lemma sdk_release_sound_witness :
  sdk_manifest_wf sdk_manifest /\
  exists trust signed seconds, stogas_signed release_root_text trust sdk_manifest signed 600000 /\
    built_by trust attestation_text (release_files sdk_manifest manifest_text qualification_text)
      (ascii "https://slsa.dev/provenance/v1") (release_certificate sdk_manifest) 600000 seconds.
Proof.
  destruct (sdk_release_sound trusted_root_text first_root_file release_root_text manifest_text attestation_text
    qualification_text signature_text 600000 sdk_manifest) as (_ & Hwf & trust & signed & seconds & _ & _ & Hs & Hb); [evaluate|].
  split; [exact Hwf|]. exists trust, signed, seconds. exact (conj Hs Hb).
Defined.
