(* ===== verification/ToySdk.v ===== *)
(** A complete run of the client in the world of [EvidenceWitness]: a gateway that answers a setup
    with live evidence and a request with encrypted records, and what the client's sends meet. *)

From S2P Require Import Prelude Primitives BTree Json Signing Attestation Setup Receipt Provisioning.
From S2P Require Import Documents Deserialize Approvals Snp Releases Amd Collateral Certificates Snapshot Boot EvidenceClient.
From S2P Require Import HttpTypes Http2Pool EncryptedHttp ReceiptHttp NativeHttp EncryptedSetup.
From S2P Require Import Toy ToySystem SystemWitness EvidenceWitness.
From S2P Require Import Record RecordTheory Ratchet Window Session EncryptedClient EncryptedSend Proxy.

Open Scope Z_scope.

(** ** Texts *)

Definition visible (l : bytes) : bool := forallb (fun b => (32 <=? byte_to_Z b) && (byte_to_Z b <? 127)) l.

#[export] Instance toy_http : HttpText := {
  header_to_str value := if visible value then Some value else None;
  header_from_str text := if visible text then Some text else None;
  header_name name := if bool_decide (name = []) then None else Some (ascii_lower <$> name)
}.

(** ** The gateway answers the client's hello with evidence for this setup *)

Definition gateway_setup : rng * result PreparedServerSetup Error := Eval vm_compute in
  prepare_server_setup Production (pd_hello client_pending) 600 (sha256 boot_text) 40.
Definition gateway_prepared : PreparedServerSetup := Eval vm_compute in unwrap no_prepared gateway_setup.2.
Definition gateway_batch : bytes * list BatchProof := Eval vm_compute in
  unwrap ([], []) (quote_batch [e2ee_leaf Production (sha256 boot_text) (pss_transcript gateway_prepared)]).
Definition gateway_payload : bytes := Eval vm_compute in
  unwrap [] (session_evidence (report_with gateway_batch.1) (BatchProof_to_bytes (nth 0 gateway_batch.2 no_proof))
               boot_text inclusion_text false).
Definition gateway_response : bytes := Eval vm_compute in
  pss_response_prefix gateway_prepared ++ u32_be (zlen gateway_payload) ++ gateway_payload.

(** ** The client's evidence, and what its first origin delivers *)

Definition no_client : EvidenceClient := mkEvidenceClient fresh None [None; None] None.
Definition delivered : Attempt :=
  mkAttempt (Dl_response 200 None None [first_bundle] false) (Ok now) false (Ok now) false.
Definition known_client : EvidenceClient := mkEvidenceClient refreshed (Some snapshot) [None; None] None.

(** ** Setup *)

Definition outer_headers : HeaderMap := [(ascii "content-type", [CONTENT_TYPE])].

Definition setup_run : SetupRun := mkSetupRun [] 0
  (Outer_response 200 outer_headers None [gateway_response] Complete)
  (fun _ => Ok now) (fun _ => false) 0 (Ok now) [] 0.

Definition preparation : Preparation := mkPreparation (fun _ => Ok now) (fun _ => false) 0 (Ok now) [] 0.

(** A turn without other tasks. *)
Definition turn : Turn := mkTurn 0 0 0 (fun w => w) preparation setup_run false false.

Definition no_sessions : Sessions := mkSessions Client_new ∅ known_client 0.

(** The first turn sets a session up; the second takes it. *)
Definition first_turn := Eval vm_compute in acquire_session 4 Production 15000 [turn] no_sessions start.
Definition established : Sessions := Eval vm_compute in first_turn.1.1.
Definition drawn : rng := Eval vm_compute in first_turn.1.2.
Definition acquired := Eval vm_compute in acquire_session 4 Production 15000 [turn] established drawn.

(** ** The gateway reads the request and answers it *)

Definition the_request : HttpRequest := mkHttpRequest (ascii "POST") (ascii "/v1/responses") None
  [(ascii "content-type", [ascii "application/json"]); (ascii "authorization", [ascii "key"])] (ascii "question").

Definition no_selected : Selected := mkSelected 0
  {| cr_writer := {| re_session_id := []; re_number := 0; re_records := Records_from_keys {| chain := [] |} Request None |};
     cr_reader := {| rr_pending := None; rr_session_id := []; rr_records := None; rr_failed := true |} |}
  (mkRequestContext snapshot live_session).
Definition selected : Selected := Eval vm_compute in unwrap no_selected acquired.2.

Definition client_upload : list bytes := Eval vm_compute in
  match send_prepare (default {| sh_starts := Starts_default; sh_peer := Peer_responder [] (KeyPair_from_seed []) |}
                        (ow_shared <$> cl_store (ws_client acquired.1.1) !! 0%nat))
          (ascii "node") (sl_exchange selected) the_request false with
  | (_, Ok (u, _)) => (upload_run 100 u).1
  | _ => []
  end.

(** The upload is the session prefix, then records; the gateway authenticates the first. *)
Definition gateway_accepted := Eval vm_compute in
  ServerSession_accept_start (pss_session gateway_prepared) gateway_setup.1
    (re_number (cr_writer (sl_exchange selected))) (nth 1 client_upload []) 4.
Definition gateway_writer : option Records := Eval vm_compute in
  match gateway_accepted.2 with Ok (_, writer, _) => Some (sw_records writer) | Err _ => None end.

(** A response: its metadata, its body and its end, sealed as records. *)
Definition response_value (status : bytes) (media : bytes) (refused : bool) : bytes :=
  json_to_vec (JObject ([(ascii "status", JNumber status);
    (ascii "headers", JObject [(ascii "content-type", JString media)])]
    ++ if refused then [(ascii "refused", JBool true)] else [])).
Definition gateway_answer (metadata : bytes) (body : list bytes) : bytes :=
  match gateway_writer with
  | Some writer => concat (unwrap [] (seal_stream writer
      ((Metadata, metadata) :: ((fun b => (Data, b)) <$> body) ++ [(Finished, [])])).2)
  | None => []
  end.

Definition calm : Clock := mkClock (fun _ => false) (fun n => Z.of_nat n).
Definition answered_with (answer : bytes) : ExchangeRun :=
  mkExchangeRun false (Outer_response 200 outer_headers None [answer] Complete) calm (fun _ => false) 50.

Definition plain_answer : bytes := Eval vm_compute in
  gateway_answer (response_value (ascii "200") (ascii "application/json") false) [ascii "answer"].
Definition silent_answer : bytes := Eval vm_compute in
  gateway_answer (response_value (ascii "204") (ascii "text/event-stream") false) [].

Definition send_run (answer : bytes) : SendRun :=
  mkSendRun 15000 (fun _ => 0) (fun _ => [turn]) (fun _ => answered_with answer).

Definition sent_plain := Eval vm_compute in
  encrypted_send (send_run plain_answer) 4 Production the_request established drawn.
Definition sent_silent := Eval vm_compute in
  encrypted_send (send_run silent_answer) 4 Production the_request established drawn.
