(* ===== verification/SdkWitness.v ===== *)
(** Concrete instances of the theorems on the connection pool: a run in which a request waits,
    a connection is established, and its only stream is assigned. *)

From S2P Require Import Prelude NativeTls EvidenceArchive Probe Primitives BTree Json Signing Attestation Setup Sse Receipt.
From S2P Require Import Provisioning Documents Deserialize Approvals Snp Releases Amd Collateral Certificates Snapshot Boot.
From S2P Require Import EvidenceClient HttpTypes EncryptedHttp ReceiptHttp NativeHttp EncryptedSetup Toy ToySystem SystemWitness.
From S2P Require Import EvidenceWitness Record RecordTheory Ratchet Window Session Stream EncryptedClient EncryptedSend.
From S2P Require Import Proxy ToySdk Http2Pool.

Open Scope Z_scope.

Definition small_limits : Limits := mkLimits 1 4 1000.

(** A request waits, a connection is established with room for one stream, and the stream is
    assigned. *)
Definition serving_world : @World nat nat := Eval vm_compute in
  mkWorld (mkPool (mkState [0%nat] false false 1 10)
             {[ 0%nat := mkChannel (Some 7%nat) 9%nat (mkActivity 1 1 false false false) ]})
    [10] [] [(0%nat, 1%nat)].

Lemma serving_reachable : reachable small_limits serving_world.
Proof.
  eapply rtc_l; [eexists; eapply (step_wait _ 10); [vm_compute; discriminate|vm_compute; reflexivity]|].
  eapply rtc_l; [eexists; eapply (step_establish _ (fun _ => false)); vm_compute; reflexivity|].
  eapply rtc_l; [eexists; eapply (step_open _ 0%nat 7%nat 9%nat _ _ [] []); vm_compute; reflexivity|].
  eapply rtc_l; [eexists; eapply (step_observe _ (fun _ => false) 1 0%nat); [vm_compute; split; [discriminate|reflexivity]|vm_compute; reflexivity]|].
  eapply rtc_l; [eexists; eapply (step_push _ 0%nat _ _ _ [] []); [eexists; split; vm_compute; reflexivity|vm_compute; reflexivity]|].
  eapply rtc_l; [eexists; eapply (step_assign _ (fun _ => false)); vm_compute; reflexivity|].
  apply rtc_refl.
Qed.

Lemma small_limits_ok : limits_ok small_limits.
Proof. split; [reflexivity|]. split; split; reflexivity. Qed.

Lemma pool_accounts_witness :
  waiting_requests (state (pool serving_world)) = 1 /\ waiting_bytes (state (pool serving_world)) = 10.
Proof.
  destruct (pool_accounts small_limits serving_world small_limits_ok serving_reachable) as (Hr & _ & Hb & _).
  split; [exact Hr|exact Hb].
Defined.

Lemma no_lost_wakeup_witness :
  exists p', acquire_turn small_limits (fun _ => true) (pool serving_world) = (Ok Wait, p').
Proof.
  apply (no_lost_wakeup small_limits serving_world serving_world (fun _ => false) (pool serving_world)).
  - exact small_limits_ok.
  - exact serving_reachable.
  - vm_compute. reflexivity.
  - apply rtc_refl.
Defined.

(** * Theory

    Concrete instances of the client's theorems in the run of [ToySdk]. *)

(** ** Evidence *)

Lemma fresh_client_ok : client_ok no_client.
Proof. split; [reflexivity|repeat constructor|reflexivity]. Qed.

Definition accept_all : Check := fun _ _ => Ok tt.
Definition recovered := Eval vm_compute in
  EvidenceClient_recover accept_all 0 15000 (Ok now) [delivered] 0 no_client.
Definition recovered_snapshot : Snapshot := Eval vm_compute in unwrap snapshot recovered.2.

Lemma recovery_resolves_witness :
  ec_current recovered.1 = Some recovered_snapshot
  /\ Snapshot_require_current_keys recovered_snapshot (sh_key_state (shared_of (ec_verifier recovered.1))) = Ok tt.
Proof.
  destruct (recovery_resolves accept_all 0 15000 (Ok now) [delivered] 0 no_client recovered.1 recovered_snapshot)
    as (Hc & _ & Hk & _).
  - exact fresh_client_ok.
  - evaluate.
  - split; [exact Hc|exact Hk].
Defined.

(** ** Encrypted requests *)

Lemma known_client_ok : client_ok known_client.
Proof. split; [reflexivity|repeat constructor|reflexivity]. Qed.

Lemma turn_quiet : Forall (others_ok Production) [turn].
Proof. apply Forall_cons. split; [|constructor]. intros w Hw. exact Hw. Qed.

Lemma established_attested : sessions_attested Production established.
Proof.
  apply (acquire_attested 4 Production 15000 [turn] no_sessions start established drawn (Err Ec_Deadline)).
  - exact turn_quiet.
  - split; [exact known_client_ok|]. intros i ctx Hi. discriminate Hi.
  - evaluate.
Qed.

Definition plain_sent : Sent := Eval vm_compute in
  match sent_plain.1.2 with s :: _ => s | [] => mkSent false false (sl_context selected) end.

Lemma encrypted_send_attested_witness :
  exchange_may_run plain_sent = true
  /\ prepared_for (send_run plain_answer) 4 Production the_request established drawn (sent_context plain_sent).
Proof.
  destruct (encrypted_send_attested (send_run plain_answer) 4 Production the_request established drawn
    sent_plain.1.1 [plain_sent] sent_plain.2) as (_ & Hs & _).
  - intros n. exact turn_quiet.
  - exact established_attested.
  - evaluate.
  - split; [reflexivity|]. exact (proj1 (proj1 (Forall_cons _ _ _) Hs)).
Defined.

Definition silent_sent : list Sent := Eval vm_compute in sent_silent.1.2.
Definition no_text : UpstreamError -> bytes := fun _ => [].

Lemma completion_misreported_witness :
  Exists (fun s => exchange_may_run s = true) silent_sent
  /\ fl_submission (Failure_of no_text (Up_encrypted (Ec_Http Eh_Completion))) = NotSent.
Proof.
  destruct (completion_misreported no_text (send_run silent_answer) 4 Production established drawn the_request known_client
    (ws_evidence sent_silent.1.1) silent_sent) as (Hr & Hs & _).
  - evaluate.
  - split; [exact Hr|exact Hs].
Defined.

(** ** One exchange *)

Definition no_shared : Shared := {| sh_starts := Starts_default; sh_peer := Peer_responder [] (KeyPair_from_seed []) |}.
Definition exchange_shared : Shared := Eval vm_compute in
  default no_shared (ow_shared <$> cl_store (ws_client acquired.1.1) !! 0%nat).

Definition plain_outer : Outer := Outer_response 200 outer_headers None [plain_answer] Complete.
Definition plain_received := Eval vm_compute in
  send_receive calm exchange_shared (ResponseDecoder_new (sl_exchange selected)) plain_outer true.
Definition plain_metadata : ResponseMetadata :=
  mkResponseMetadata 200 [(ascii "content-type", [ascii "application/json"])] false.
Definition plain_state : Incoming := Eval vm_compute in
  match plain_received.2 with
  | Some (Ok (_, Some st)) => st
  | _ => Incoming_new (ResponseDecoder_new (sl_exchange selected)) [] Complete true
  end.


Definition request_records : Records := re_records (cr_writer (sl_exchange selected)).
Definition request_keys : Keys := Eval vm_compute in default {| chain := [] |} (rc_keys request_records).
Definition request_header : bytes := Eval vm_compute in default [] (rc_header request_records).
Definition prepared_upload := Eval vm_compute in
  send_prepare exchange_shared (ascii "node") (sl_exchange selected) the_request false.
Definition no_upload : Upload * ResponseDecoder :=
  (mkUpload (cr_writer (sl_exchange selected)) [] [] true, ResponseDecoder_new (sl_exchange selected)).
Definition upload_and_decoder : Upload * ResponseDecoder := Eval vm_compute in unwrap no_upload prepared_upload.2.


(** ** Sessions *)

Definition opening_world := mkClientWorld (mkClient (mkClientState [] true false) ∅) 1 [].

Lemma opening_reachable : client_reachable 4 opening_world.
Proof.
  eapply rtc_l; [|apply rtc_refl]. apply (cstep_open 4 0 0 start start). evaluate.
Qed.

(** The session that the first turn sets up joins the client. *)
Definition first_owner : Owner := Eval vm_compute in
  default (Owner_new [] {| cs_shared := false; cs_id := []; cs_idle_seconds := 0 |} no_shared 0)
    (cl_store (ws_client established) !! 0%nat).
Definition pushed : Client := mkClient (mkClientState [0%nat] true false) {[ 0%nat := first_owner ]}.

Lemma serving_reachable_client : client_reachable 4 (mkClientWorld (Opening_drop pushed) 0 []).
Proof.
  eapply rtc_r; [exact opening_reachable|].
  apply (cstep_establish 4 0%nat (ow_node_id first_owner) (ow_core first_owner) (ow_shared first_owner) 0 _ pushed).
  - evaluate.
  - evaluate.
  - evaluate.
Qed.

Definition leased_client := Eval vm_compute in (select 4 0 0 (Opening_drop pushed) drawn).1.1.

Lemma leased_reachable : client_reachable 4 (mkClientWorld leased_client 0 [(0%nat, 1%nat)]).
Proof.
  eapply rtc_r; [exact serving_reachable_client|].
  apply (cstep_ready 4 0 0 drawn (select 4 0 0 (Opening_drop pushed) drawn).1.2 0%nat (sl_exchange selected)).
  - evaluate.
  - evaluate.
Qed.

Lemma session_accounts_witness :
  serving_owners (cl_store leased_client) [0%nat] + 0 <= 4
  /\ (forall o, cl_store leased_client !! 0%nat = Some o -> ow_active o = held [(0%nat, 1%nat)] 0%nat).
Proof.
  destruct (session_accounts 4 (mkClientWorld leased_client 0 [(0%nat, 1%nat)])) as (_ & Hs & _ & Ha & _).
  - reflexivity.
  - exact leased_reachable.
  - exact (conj Hs (Ha 0%nat)).
Defined.

(** ** Receipts *)

Definition event_headers : HeaderMap := [(ascii "content-type", [ascii "text/event-stream; charset=utf-8"])].
Definition streamed_body : Source := mkSource (in_two signed_stream) Complete.
Definition streaming : StreamState := mkStreamState streamed_body (Some (Stream_new request_digest)) [] 0.
Definition read_out := Eval vm_compute in read_stream 50 (fun _ => false) the_boot streaming.

Lemma receipted_body_exact_witness : concat read_out.1 = concat (in_two signed_stream).
Proof.
  refine (proj1 (receipted_body_exact 200 event_headers streamed_body the_boot request_digest (Streamed streaming)
    _ _ 50%nat (fun _ => false) read_out.1 _)).
  - evaluate.
  - evaluate.
  - evaluate.
Defined.

(** ** The endpoint *)

#[export] Instance toy_web : WebText := {
  url_parse text := Some (mkUrl (ascii "https") (Some text) [] None None None [] text);
  socket_addr text := Some (mkSocketAddr text true);
  ip_is_loopback _ := true;
  method_from_bytes text := if bool_decide (text = []) then None else Some text
}.

Definition options : TransportOptions := mkTransportOptions Production E2ee 4 None.
Definition no_url : Url := mkUrl [] None [] None None None [] [].
Definition no_config : ServeConfig := mkServeConfig options no_url (mkSocketAddr [] false) [] [] [] None.
Definition config : ServeConfig := Eval vm_compute in
  unwrap no_config (ServeConfig_new (spread 91 32) (spread 92 32) options (ascii "127.0.0.1:1234") None).

Definition local_request (path : bytes) : HttpRequest := mkHttpRequest (ascii "POST") path None
  [(ascii "host", [ascii "127.0.0.1:1234"]); (ascii "origin", [ascii "https://page.example"]);
   (ascii "content-type", [ascii "application/json"]); (ascii "content-length", [ascii "8"])] [].
Definition upload : Source := mkSource [ascii "ques"; ascii "tion"] Complete.
Definition no_refresh : RefreshRun := mkRefreshRun 0 (Ok now) [] 0.
Definition no_evidence_text : AcquireError -> bytes := fun _ => [].

(** The upstream over encrypted sessions, with the answer of [ToySdk]. *)
Definition upstream_of (answer : bytes) := encrypted_upstream (send_run answer) 4 Production established drawn.

(** A guess of the right length. *)
Definition guess : HttpRequest :=
  local_request (ascii "/" ++ replicate (length (sc_client_capability config)) x30 ++ ascii "/v1/responses").
Definition guessed := Eval vm_compute in
  proxy_request no_text no_evidence_text (upstream_of plain_answer) config guess upload no_refresh known_client.

Lemma page_isolated_witness :
  header_all (rs_headers guessed.2) (ascii "access-control-allow-origin") = [] /\ guessed.1.2 = [].
Proof.
  apply (page_isolated no_text no_evidence_text (upstream_of plain_answer) config guess upload no_refresh known_client
    guessed.1.1 guessed.1.2 guessed.2).
  - evaluate.
  - intros rest E. apply (f_equal (take 2)) in E. vm_compute in E. discriminate E.
Defined.

Definition known : HttpRequest :=
  local_request (ascii "/" ++ sc_client_capability config ++ ascii "/v1/responses").
Definition served := Eval vm_compute in
  proxy_request no_text no_evidence_text (upstream_of plain_answer) config known upload no_refresh known_client.

Lemma route_sound_witness :
  own_host config known /\ rq_path known = ascii "/" ++ sc_client_capability config ++ ascii "/v1/responses".
Proof.
  destruct (route_sound config known (Inference (ascii "/v1/responses"))) as (Hh & _ & _ & _ & _ & Hp).
  - evaluate.
  - exact (conj Hh Hp).
Defined.

Lemma forwarded_exactly_witness :
  length served.1.2 = 1%nat
  /\ served.1.2 = (upstream_of plain_answer (mkHttpRequest (ascii "POST") (ascii "/v1/responses") None
      [(ascii "content-type", [ascii "application/json"])] (ascii "question")) known_client).1.2.
Proof.
  destruct (forwarded_exactly no_text no_evidence_text (upstream_of plain_answer) config known upload no_refresh
    known_client served.1.1 served.1.2 served.2) as [Hn|(path & headers & Hr & _ & _ & _ & Hh & Hs)].
  - apply (bool_decide_unpack _). evaluate.
  - evaluate.
  - discriminate Hn.
  - split; [evaluate|]. assert (path = ascii "/v1/responses") as ->.
    { assert (route config known = Ok (Inference (ascii "/v1/responses"))) as Hk by evaluate. congruence. }
    assert (headers = [(ascii "content-type", [ascii "application/json"])]) as ->; [|rewrite Hs; evaluate].
    apply Permutation_singleton_r. rewrite Hh. apply reflexive_eq. evaluate.
Defined.

(** A connection that returned the request unsent, twice. *)
Definition returned : Dispatch := Dp_transport (Tr_failed true None).
Definition native_of := native_upstream (fun _ : nat => Ok tt) (fun _ => returned) (fun _ => the_boot) 30.
Definition unsent := Eval vm_compute in
  proxy_request_inner no_text no_evidence_text native_of config known upload no_refresh known_client.
Definition unsent_failure : Failure := Eval vm_compute in
  match unsent.2 with Err f => f | Ok _ => Failure_before 0 [] [] end.

Lemma failures_honest_witness :
  fl_submission unsent_failure = NotSent /\ Forall (fun d => may_run d = false) [returned; returned].
Proof.
  split; [evaluate|].
  refine (proj1 (failures_honest no_text no_evidence_text (fun _ : nat => Ok tt) (fun _ => returned) (fun _ => the_boot) 30
    (send_run plain_answer) 4 Production established drawn config known upload no_refresh known_client _ _)
    unsent.1.1 [returned; returned] unsent_failure _ _).
  - intros i e He. discriminate He.
  - intros i e He. discriminate He.
  - evaluate.
  - evaluate.
Defined.

Lemma native_send_once_witness :
  (length (filter (fun d => may_run d = true) [returned; returned]) <= 1)%nat.
Proof.
  refine (proj1 (proj2 (native_send_once (fun _ : nat => Ok tt) (fun _ => returned) (fun _ => the_boot) the_request 30
    [returned; returned] (Err (Nh_Pool (Http2Pool.Pool_Request true))) _ _ _))).
  - intros i e He. discriminate He.
  - intros i e He. discriminate He.
  - evaluate.
Defined.

(** * Theory

    Concrete instances of the theorems on attested TLS connections, traffic keys and archives. *)

(** ** Attested TLS *)

Definition negotiated : Negotiated :=
  mkNegotiated true (Some TLS13_AES_256_GCM_SHA384) (Some X25519MLKEM768) (Some (ascii "h2")).

(** The fifth draw is the challenge that the certificate's evidence commits to. *)
Definition before_challenge : @rng toy_random := 5.
Definition handshake : HandshakeRun :=
  mkHandshakeRun [mkCertificateQuery tls_der [] (now / 1000)] (Hs_completed negotiated) (Ok now).
Definition tls_run : TlsRun := mkTlsRun [] 0 (fun _ => Dial_open false handshake) (now / 1000) 0 (Ok now) [] 0.

Definition connected := Eval vm_compute in connect_with_evidence tls_run 0 15000 known_client before_challenge.
Definition connection : TlsConnection := Eval vm_compute in
  unwrap (mkTlsConnection live_session snapshot negotiated) connected.2.

Lemma native_connection_attested_witness :
  ec_current known_client = Some (tc_snapshot connection) /\ profile_ok (tc_negotiated connection) /\
  session_current (tc_snapshot connection) (shared_of (ec_verifier known_client)) (tc_session connection) now.
Proof.
  destruct (native_connection_attested tls_run 0 15000 known_client before_challenge known_client 6 1 connection)
    as (_ & _ & Hc & run & g0 & Hrun & Ha).
  - split; [reflexivity|repeat constructor|reflexivity].
  - evaluate.
  - assert (run = handshake) as -> by (injection Hrun as <-; reflexivity).
    destruct (ta_current _ _ _ _ _ _ Ha) as (t & Ht & Hs). injection Ht as <-.
    exact (conj Hc (conj (ta_profile _ _ _ _ _ _ Ha) Hs)).
Defined.

(** ** Archives *)

Definition part (text : bytes) : Value := JString text.
Definition part_name (v : Value) : bytes := hex_encode (sha256 (json_to_vec v)).
Definition ledger_parts : Parts := mkParts (part (ascii "sigstore")) (part (ascii "keys")) (part (ascii "approvals"))
  [(part (ascii "der"), [(ascii "kind", JString (ascii "vcek"))])].
Definition ledger_digest : bytes := Eval vm_compute in unwrap [] (payload_sha256 (parts_body ledger_parts)).

Definition ledger_index : bytes := Eval vm_compute in
  json_to_vec (JObject
    [(ascii "schema", JString (ascii "stogas.evidence-archive.v1")); (ascii "body_sha256", JString ledger_digest);
     (ascii "sizes", JObject ((fun v => (part_name v, jnum (zlen (json_to_vec v)))) <$> parts_list ledger_parts));
     (ascii "sigstore", JString (part_name (pr_sigstore ledger_parts)));
     (ascii "keys", JString (part_name (pr_keys ledger_parts)));
     (ascii "approvals", JString (part_name (pr_approvals ledger_parts)));
     (ascii "vendor_collateral", JArray ((fun '(der, metadata) =>
        JObject [(ascii "der", JString (part_name der)); (ascii "metadata", JObject metadata)])
        <$> pr_collateral ledger_parts))]).
Definition ledger_boot : bytes := Eval vm_compute in
  json_to_vec (JObject [(ascii "document", JObject [(ascii "evidence_sha256", JString ledger_digest)])]).
Definition ledger_boot_hash : bytes := Eval vm_compute in hex_encode (sha256 ledger_boot).

(** The first origin is out of reach; the second delivers each file, its objects last first. *)
Definition serve (files : list (bytes * bytes)) (path : bytes) : Fetch :=
  match bm_get files path with Some text => Ft_response 200 [text] false | None => Ft_response 404 [] false end.
Definition ledger_files : list (bytes * bytes) := Eval vm_compute in
  [(ledger_path (ascii "boots") ledger_boot_hash, ledger_boot);
   (ledger_path (ascii "snapshots") ledger_digest, ledger_index)]
  ++ ((fun v => (ledger_path (ascii "objects") (part_name v), json_to_vec v)) <$> parts_list ledger_parts).
Definition ledger_runs (origin : bytes) : ArchiveRun :=
  if bool_decide (Some origin = head (evidence_origins Production))
  then mkArchiveRun (fun _ => Ft_failed) (fun l => l) false
  else mkArchiveRun (serve ledger_files) (fun l => rev l) false.

Definition downloaded : Archive := Eval vm_compute in
  unwrap (mkArchive [] []) (download_archive true ledger_runs Production ledger_boot_hash).

Lemma archive_authentic_witness :
  ar_boot downloaded = ledger_boot /\
  exists origin, origin ∈ evidence_origins Production /\ archived (ledger_runs origin) ledger_boot_hash downloaded.
Proof.
  split; [reflexivity|].
  refine (proj2 (archive_authentic true ledger_runs Production ledger_boot_hash downloaded _)). evaluate.
Defined.

Lemma split_rebuilds_witness :
  Index_assemble (split_index part_name [] ledger_digest ledger_parts) (split_objects part_name ledger_parts)
  = Ok (ar_evidence downloaded).
Proof.
  refine (eq_trans (split_rebuilds part_name [] ledger_parts ledger_digest _ _) _).
  - assert (Forall (fun v => Forall (fun w => part_name v = part_name w -> v = w) (parts_list ledger_parts))
      (parts_list ledger_parts)) as Ha.
    { repeat (constructor; [repeat (constructor; [intros Hn; (reflexivity || (vm_compute in Hn; discriminate Hn))|]); constructor|]).
      constructor. }
    intros v w Hv Hw. rewrite Forall_forall in Ha. specialize (Ha v Hv). rewrite Forall_forall in Ha. exact (Ha w Hw).
  - evaluate.
  - evaluate.
Defined.

(** ** The managed transport *)

Definition running : Probe.Transport := mkTransport true true None.
Definition failed_outcome : result (option bytes) unit := Ok (Some (ascii "verification failed")).

Lemma stopped_transport_refuses_witness :
  refresh_bundle false None None (close_transport false failed_outcome Worker_stopped (worker_ends failed_outcome running))
  = Err (inl (ascii "managed transport stopped: verification failed")).
Proof.
  destruct (stopped_transport_refuses running (worker_ends failed_outcome running)
    (close_transport false failed_outcome Worker_stopped (worker_ends failed_outcome running)))
    as (error & He & _ & Hr).
  - constructor.
  - eapply rtc_l; [constructor|constructor].
  - rewrite Hr. injection He as <-. reflexivity.
Defined.
